(* ===== verification/_CoqProject ===== *)
-Q . S2P
Prelude.v
Errors.v
Fs.v
Io.v
FsFacts.v
Records.v
Durable.v
Journal.v
Plan.v
Recovery.v
Commit.v
Matching.v
Regions.v
JournalFacts.v
CleanupFacts.v
RollbackFacts.v
RecoveryFacts.v
CommitFacts.v
CommitSafety.v
Samples.v
AtomicExport.v
Budget.v
Lifecycle.v
ContentStore.v
EventQueue.v
Network.v
Protocol.v
SingleFile.v
SingleFileFacts.v
Names.v
Requests.v
Schedule.v
Scheduler.v
BatchFacts.v
BatchResume.v
CrawlFacts.v
CrawlRun.v
CrawlResume.v
Dom.v
DomFacts.v
Sanitize.v
SanitizeFacts.v
Sink.v
SinkFacts.v
Serialize.v
SerializeFacts.v
Html.v
Frames.v
Verify.v
VerifyFacts.v
DomExtend.v
EncodeFacts.v
TransformFacts.v
CrawlPages.v
Discover.v
DiscoverFacts.v
DiscoverDocument.v
Effects.v
Browser.v
Materialize.v
Render.v
RenderTrace.v
RenderFacts.v
FrameTree.v
FrameTreeFacts.v
CaptureFacts.v
CaptureTrace.v
RenderSamples.v
Events.v
Diagnostics.v
Job.v
JobFacts.v
JobDelivery.v
JobSamples.v
Formats.v
FormatsFacts.v
Pdf.v
Runtime.v
RuntimeFacts.v
Interception.v
