(* ===== verification/Prelude.v ===== *)
(** * Offprint: a verification development

    Offprint captures a web page in a browser and delivers it as files: a
    self-contained, inert HTML artifact and, from it, other formats.  The Rust
    workspace under [src/offprint-rs] is made of crates that call each other
    from the outside in: [cli], [node] and [python] drive [core] (scheduler,
    capture pipeline), which drives a browser ([browser], [chromium], with the
    collector protocol of [protocol]), turns what was collected into a static
    document ([document], [transform], [html]) within a budget ([capture]) and
    delivers it ([artifact], [export]).  All of them share the records and
    errors of [model].

    This library is a shallow embedding of the parts that carry the program's
    own logic, written as executable functions: error paths are values of
    [result], [Option]s are options, fixed-width integers are numbers in [Z] with
    their checked, saturating or wrapping operations written out, maps and sets
    are finite maps and sets, and code that works on the file system is a program
    in a monad in which each system call can fail or be the last one.

    ** Which file models which source

    Foundations: [Prelude] (integers, results, strings, UTF-8, tactics),
    [Errors] (model/src/error: the whole code registry), [Records] (model ids,
    policies and export records), [Fs], [Io], [FsFacts] (a POSIX file system with
    inodes and links, the program monad with fault schedules and its weakest
    preconditions).

    Delivery of several outputs (artifact/src/multi_output): [Durable]
    (durable.rs, payload.rs), [Journal] (journal.rs), [Plan]
    (plan.rs), [Recovery] (recovery.rs), [Commit] (commit.rs, fault.rs,
    multi_output.rs).  [Matching], [Regions], [JournalFacts], [CleanupFacts], [RollbackFacts],
    [RecoveryFacts], [CommitFacts] and [CommitSafety] prove it correct;
    [AtomicExport] states the result and the runs that recovery cannot finish,
    [Samples] gives concrete parameters.

    Delivery of one output: [SingleFile] (transaction.rs), [SingleFileFacts];
    [Names] (filename.rs, memory.rs).

    Capture: [Budget] (capture/src/budget.rs), [Lifecycle] (capture/src/state.rs,
    the status of model/src/event.rs), [ContentStore]
    (capture/src/content_store.rs), [Requests] (model/src/request.rs, policy.rs,
    credentials.rs, capture/src/validated.rs), [Network]
    (browser/src/network.rs), [Protocol] (protocol/src), [EventQueue]
    (chromium/src/transport/events/queue.rs).

    Scheduling: [Schedule] (model/src/schedule.rs, core/src/scheduler/resume.rs),
    [Scheduler] (core/src/scheduler.rs, scheduler/job.rs); [BatchFacts],
    [BatchResume] for batches, [CrawlFacts], [CrawlRun], [CrawlResume] for
    crawls.  A batch is a machine whose steps
    are the completion of one of the captures in flight and a cancellation, so
    that every interleaving is a sequence of steps; a crawl goes in rounds.

    Documents: [Dom] (document/src/document/mod.rs, document/src/state.rs: the
    arena of nodes), [DomFacts] (arenas that are trees, and the tree an
    arena holds), [DomExtend] (adding nodes), [Sanitize] (policy.rs,
    sanitize.rs) with [SanitizeFacts], [Sink] (document/parse.rs) with
    [SinkFacts], [Serialize] (serialize.rs) with [SerializeFacts], [Frames]
    (document/frame.rs, transform/src/lib.rs) with [TransformFacts], [Html]
    (html/src: manifest, policy, repair, state program, encoder, fallbacks) with
    [EncodeFacts], [Verify] (html/src/verify.rs and its parts, verified.rs,
    sandbox.rs, the encoding half of transform) with [VerifyFacts], and
    [CrawlPages], where the scheduler meets the documents.  Concrete pages and
    parameters are at the end of the files, in modules ([DomSamples],
    [VerifySamples], [DiscoverSamples], as [BatchSamples] and [CrawlSamples]
    above) where other files use them.  [Discover] (document/src/discover, resource.rs:
    the references of documents, source sets and stylesheets, and their
    replacement) with [DiscoverFacts] and [DiscoverDocument].

    The capture pipeline (core/src/pipeline): [Effects] (the monad of state,
    errors and a trace of what was asked outside), [Browser] (browser/src/backend.rs,
    observation.rs, model/src/event.rs, the cancellation points of pipeline.rs),
    [Materialize] (resource_materialization.rs, model/src/url_value.rs), [Render]
    (render.rs) with [RenderTrace] and [RenderFacts],
    [FrameTree] (frames.rs) with [FrameTreeFacts], [CaptureFacts] and
    [CaptureTrace], [RenderSamples] with concrete pages; [Events]
    (core/src/capture_service/events.rs).  An operation of the page, a lookup of a
    name, a look at the cancellation token or an event is an action of the trace,
    and what is answered is an arbitrary function of the trace so far.

    Jobs: [Diagnostics] (core/src/diagnostics.rs, capture_service/diagnostics.rs),
    [Job] (core/src/capture_service.rs, pipeline.rs, pipeline/artifact.rs,
    pipeline/offline.rs: the terminal decision, the run from the request to the
    receipt and the ends of a job) with [JobFacts], [JobDelivery] and
    [JobSamples].  A job works on the file system of [Fs] through the delivery
    code of [SingleFile]; whoever may cancel it does so between its actions.

    The runtime: [Runtime] (core/src/runtime.rs, runtime/lifecycle.rs, context.rs,
    browser.rs, checkpoints.rs, the checks of configuration.rs, and
    [CaptureService::start]) with [RuntimeFacts].  Tasks share the state of the
    runtime and move one at a time, from one look at shared state, lock or [await] to
    the next; a list of events is an interleaving.  The control of a registered job is
    the one of [Job].

    The browser: [Interception] (chromium/src/page/interception.rs,
    interception/paused.rs, activity.rs, resources/normalization.rs): the decision on
    requests the browser has paused, as a loop and its tasks, and the requests in
    flight.

    Export formats (export/src): [Formats] (lib.rs, support.rs, mhtml.rs,
    self_extracting.rs, zip.rs) with [FormatsFacts], [Pdf] (pdf.rs,
    pdf/semantics.rs).

    ** What the theorems show

    - Delivery is atomic.  [crash_atomicity], [commit_never_loses],
      [commit_succeeds], [recovery_resumable]: under every schedule of faults and
      stops a transaction is all old or all new once recovery has run, and an
      undisturbed one succeeds.  [single_commit_atomic],
      [single_commit_succeeds], [single_file_delivered]: the same for one file.
    - Artifacts are closed.  [verified_is_closed]: whatever verifies has no
      active content in any frame but the two programs of the format and refers
      to nothing outside itself; [verification_ends]: verification terminates;
      [encoded_document_canonical]: the encoder and the verifier agree.
    - Documents are made static.  [parsed_is_tree], [sanitize_refines_filter],
      [sanitized_is_static], [sanitize_idempotent], [freezing_complete],
      [transformed_is_static]: parsing gives trees, sanitising is a recursive
      filter that leaves nothing active, freezing reaches every shadow tree, and
      the transformation composes them.  [serialize_prints_tree],
      [escaping_round_trip], [serialize_bounded]: what is printed is the tree,
      text cannot break out, a limited writer is not overrun.
    - References are found and replaced.  [discovery_rewritable],
      [srcset_round_trip], [rewrite_substitutes], [css_quoting_round_trip]: what
      is found can be replaced, and is found again afterwards.
    - Captures.  [capture_guarded]: nothing is loaded or read that was not
      checked; [resources_settled], [page_delivered]: every reference ends with a
      record, and a page that was rendered is returned; [frames_described],
      [children_rendered_first]: the frames are a tree, rendered from the leaves;
      [resolve_terminates]: the recursion into resources is bounded;
      [events_delivered]: every subscriber is told the history of the job.
    - Jobs.  [delivered_is_verified]: what is delivered is what was verified, and a
      job that fails delivers nothing; [job_settles], [decision_is_unique]: a job
      ends once, cancellation and commit exclude each other;
      [diagnostics_hide_secrets]: what is written about a failure does not depend
      on what must not be disclosed.
    - The runtime.  [browser_closed_idle]: the browser is only closed when nobody has
      a lease; [shutdown_quiesces], [close_completes]: a shutdown cancels what is
      there, lets nothing in, ends, and reports success only when nothing is left;
      [checkpoint_leases_exclusive]: a checkpoint file has one owner;
      [job_owned_once]: a registered job has one task that will unregister it.
    - The browser.  [intercepted_guarded]: no request goes on that the guard has not
      admitted, and scoped headers go to their origin only; [pauses_answered]: every
      pause is answered once; [continued_headers_exact], [idle_is_quiet]: which headers
      a request has, and what an idle network means.
    - Formats.  [mhtml_exact], [self_extracting_exact]: what is written in a format
      verifies and gives back the artifact, and what verifies is what the encoder
      writes; [bundle_limits]: a bundle passes exactly within its limits;
      [verified_pdf_is_passive]: a PDF that passes has no active content.
    - Schedules.  [batch_in_order], [batch_drains], [captures_bounded],
      [checkpoint_resumable], [resume_continues], [crawl_terminates],
      [crawl_result_pages], [crawl_checkpoint_resumable]: order, progress,
      bounds and resumption under every interleaving.
    - Parts of a capture.  [validate_exact], [budget_refines_ledger], [store_invariant],
      [insert_then_read], [assembler_sound], [transfer_round_trip],
      [subscriptions_account], [classify_is_the_registry],
      [success_is_the_pipeline]: each component against a specification that
      does not mention its implementation.
    - Findings.  [cut_journal_wedges], [same_content_wedges],
      [double_stop_wedges], [contradictory_details],
      [uniquified_checkpoint_refused], [srcset_candidate_missed],
      [blank_candidate_fails], [remote_file_prefetched],
      [indirect_kind_accepted], [cookie_case_refused] and
      [dropped_frame_miscounted] are runs in which the code does not do what
      it is meant to; they also show that hypotheses of the theorems above are
      needed.

    ** Parameters

    Third-party code enters through classes: SHA-256 and hexadecimal ([Hashing]),
    the journal codec ([JournalCodec]) and JSON ([Json], [Encodings], [PrettyJson]), URLs
    ([UrlLib]), the tables of Unicode ([Unicode]), CRC-32 ([Checksum]), address
    ranges ([Networks]), temporary names ([TempNames]), the HTML parser
    ([HtmlParser], as the calls it makes to the tree sink), data URLs
    ([DataUrls]), the tokens of CSS ([CssTokens]), UTF-8 and the allocator as the
    code sees them ([Platform]), and floating point ([Floats]).  What is assumed of them is in
    separate classes of laws ([JournalCodecLaws], [StoreLaws], [UnicodeLaws],
    [UrlLaws], [ParserLaws], [PageLaws]); every theorem that needs one has a witness with
    concrete parameters.  [Scripts] holds the texts of the two JavaScript
    programs of the artifact format, which the theorems never look into.
    URLs are further seen through [UrlEdit] and [UrlView].  [Discovery] is an
    interface between two parts of the program: the references found in a document
    or a stylesheet; verification is proved against it, and [Discover] implements
    it.  [Environment] answers for the outside of the capture pipeline.  The formats
    add the codecs they are built from ([ManifestJson], with the laws of Base64,
    gzip and hexadecimal in [FormatLaws]), the reader and writer of ZIP archives
    and the reader of PDF objects ([PdfReader]).

    ** Bounds and fuel

    Loops that are not structural carry fuel.  Walks of a document have the
    number of its nodes, enough for every tree ([walk_loop_total]).  The recursion
    into frames and embedded resources has one more than the depth limit of the
    code, so the limit is reached first ([transform_depth_bounded]); the loop
    over the documents of an artifact has the number of frames of the manifest
    ([verification_ends]).  Retries for a free file name have the number of names
    taken plus one; crawls have the page limit ([crawl_terminates]); the numbering
    of frames has as many rounds as frames ([number_frames_enough]); resolving a
    reference and rendering a frame have one more than the depth limits
    ([resolve_terminates]); the walk over the objects of a PDF has the depth limit
    of the code ([passive_enough], [content_terminates]).  Widths:
    [u16], [u32], [u64] and [usize] (64 bits) are written out where the code
    converts, adds or saturates.

    ** What is not modelled

    Of [core], the services that pass calls on to the runtime, the resolution of the
    name of a checkpoint file and its reading and writing; the Chromium backend apart
    from its event queues, request interception and network activity, which is input and output over sockets and processes;
    Markdown conversion and the metadata of PDF files.  The command line, the language
    bindings, the build tasks, the benchmarks and the TypeScript collector are not
    modelled.  In the runtime, memory is sequentially consistent, a notification is
    the condition it announces, and the tasks outlive no process.  The loads of a batch that run together are taken one after the
    other.  Messages of errors are left out where the code does not look at them,
    and with them the details that only repeat a number already in the message;
    symbolic links in file names other than those the code looks for are kept out
    by hypotheses.  Next in line: checkpoint files, Markdown, and the services. *)

From Stdlib Require Import ZArith Lia Ascii String.
From stdpp Require Import base tactics list gmap strings numbers.

#[global] Open Scope Z_scope.

(** ** Machine integers

    A Rust [u16]/[u32]/[u64]/[usize] is a [Z] together with the range of its
    width; [usize] is the 64-bit one of the supported targets.  The operations
    below are the standard-library ones the sources call. *)

Definition u16_max : Z := 65535.
Definition u32_max : Z := 4294967295.
Definition u64_max : Z := 18446744073709551615.
Definition usize_max : Z := u64_max.

Definition in_u32 (x : Z) : Prop := 0 <= x <= u32_max.
Definition in_u64 (x : Z) : Prop := 0 <= x <= u64_max.

(** [uN::checked_add]. *)
Definition checked_add (max a b : Z) : option Z :=
  if a + b <=? max then Some (a + b) else None.

(** [uN::saturating_add] and [uN::saturating_sub]. *)
Definition saturating_add (max a b : Z) : Z := Z.min max (a + b).
Definition saturating_sub (a b : Z) : Z := Z.max 0 (a - b).

(** [uN::div_ceil] for a positive divisor. *)
Definition div_ceil (a b : Z) : Z := (a + b - 1) / b.

(** [u32::try_from], [u64::try_from]. *)
Definition try_from (max x : Z) : option Z :=
  if (0 <=? x) && (x <=? max) then Some x else None.

(** A [u8] is an [ascii]; a byte buffer is a list of them. *)
Abbreviation bytes := (list ascii).

(** [u64::try_from(buffer.len()).unwrap_or(u64::MAX)]. *)
Definition len_u64 {A} (l : list A) : Z := Z.min u64_max (Z.of_nat (length l)).

(** [str::as_bytes]. *)
Definition as_bytes (s : string) : bytes := list_ascii_of_string s.

Lemma as_bytes_string l : as_bytes (string_of_list_ascii l) = l.
Proof. apply list_ascii_of_string_of_list_ascii. Qed.

(** [u64::to_le_bytes]. *)
Definition to_le_bytes (x : Z) : bytes :=
  map (fun k => ascii_of_N (Z.to_N (Z.land (Z.shiftr x (8 * k)) 255)))
    [0; 1; 2; 3; 4; 5; 6; 7].

(** ** [Result] *)

Inductive result (E A : Type) : Type :=
| Ok (a : A)
| Err (e : E).
Arguments Ok {E A} _.
Arguments Err {E A} _.

Declare Scope offprint_scope.
Delimit Scope offprint_scope with offprint.
#[global] Open Scope offprint_scope.

Definition rbind {E A B} (r : result E A) (k : A -> result E B) : result E B :=
  match r with Ok a => k a | Err e => Err e end.

(** The [?] operator. *)
Notation "x <-? r ;; k" := (rbind r (fun x => k))
  (at level 60, r at next level, right associativity) : offprint_scope.
Notation "' x <-? r ;; k" := (rbind r (fun x => k))
  (at level 20, x pattern, r at level 59, k at level 200) : offprint_scope.
Notation "'do?' r ;; k" := (rbind r (fun _ => k))
  (at level 60, r at next level, right associativity) : offprint_scope.

Definition is_ok {E A} (r : result E A) : bool :=
  match r with Ok _ => true | Err _ => false end.

Definition ok_or {E A} (o : option A) (e : E) : result E A :=
  match o with Some a => Ok a | None => Err e end.

(** A loop that stops at its first error. *)
Fixpoint for_each {E A} (f : A -> result E unit) (l : list A) : result E unit :=
  match l with
  | [] => Ok tt
  | x :: l' => do? f x ;; for_each f l'
  end.

(** [Iterator::collect::<Result<Vec<_>>>]. *)
Fixpoint collect {E A B} (f : A -> result E B) (l : list A) : result E (list B) :=
  match l with
  | [] => Ok []
  | x :: l' => y <-? f x ;; ys <-? collect f l' ;; Ok (y :: ys)
  end.

Lemma rbind_ok {E A B} (r : result E A) (k : A -> result E B) y :
  rbind r k = Ok y <-> exists a, r = Ok a /\ k a = Ok y.
Proof. destruct r; simpl; naive_solver. Qed.

Lemma rbind_unit_ok {E B} (r : result E unit) (k : unit -> result E B) y :
  rbind r k = Ok y <-> r = Ok tt /\ k tt = Ok y.
Proof. destruct r as [[]|]; simpl; naive_solver. Qed.

Lemma refuse_ok {E A} (b : bool) (e : E) (r : result E A) y :
  (if b then Err e else r) = Ok y <-> b = false /\ r = Ok y.
Proof. destruct b; naive_solver. Qed.

Lemma for_each_ok {E A} (f : A -> result E unit) l :
  for_each f l = Ok tt <-> Forall (fun x => f x = Ok tt) l.
Proof.
  induction l as [|x l IH]; simpl; [naive_solver|].
  rewrite Forall_cons_iff, <- IH. destruct (f x) as [[]|e]; simpl; naive_solver.
Qed.

Lemma collect_ok {E A B} (f : A -> result E B) l ys :
  collect f l = Ok ys <-> Forall2 (fun x y => f x = Ok y) l ys.
Proof.
  revert ys; induction l as [|x l IH]; intros ys; simpl.
  - split; [intros [= <-]; constructor|by intros ->%Forall2_nil_inv_l].
  - split.
    + destruct (f x) eqn:Ex; simpl; [|done].
      destruct (collect f l) eqn:El; simpl; [|done].
      intros [= <-]. constructor; [done|]. by apply IH.
    + intros (y & ys' & Hy & Hys & ->)%Forall2_cons_inv_l.
      rewrite Hy; simpl. apply IH in Hys. by rewrite Hys.
Qed.

(** ** Text

    The [str] operations the sources use, on the bytes of the text. *)

Definition has_char (c : ascii) (s : string) : bool := bool_decide (c ∈ as_bytes s).

(** [str::matches(c).count()]. *)
Definition count_char (c : ascii) (s : string) : nat :=
  length (filter (fun x => x = c) (as_bytes s)).

Definition starts_with (pre s : string) : bool := String.prefix pre s.

Definition ends_with (suf s : string) : bool :=
  bool_decide (as_bytes suf `suffix_of` as_bytes s).

(** [str::split] on one separator: never empty, one segment more than there
    are separators. *)
Fixpoint split_on (sep : ascii) (l : bytes) : list bytes :=
  match l with
  | [] => [[]]
  | c :: l' =>
      if decide (c = sep) then [] :: split_on sep l'
      else match split_on sep l' with
           | seg :: segs => (c :: seg) :: segs
           | [] => [[c]]
           end
  end.

Definition split (sep : ascii) (s : string) : list string :=
  map string_of_list_ascii (split_on sep (as_bytes s)).

(** [str::chars] of UTF-8 text, and the bytes of a text given by its
    characters. *)
Definition byte_val (c : ascii) : Z := Z.of_N (N_of_ascii c).

Fixpoint utf8_chars (l : bytes) : list Z :=
  match l with
  | [] => []
  | a :: l1 =>
      if byte_val a <? 128 then byte_val a :: utf8_chars l1
      else match l1 with
           | [] => []
           | b :: l2 =>
               if byte_val a <? 224
               then ((byte_val a - 192) * 64 + (byte_val b - 128)) :: utf8_chars l2
               else match l2 with
                    | [] => []
                    | c :: l3 =>
                        if byte_val a <? 240
                        then ((byte_val a - 224) * 4096 + (byte_val b - 128) * 64
                              + (byte_val c - 128)) :: utf8_chars l3
                        else match l3 with
                             | [] => []
                             | d :: l4 =>
                                 ((byte_val a - 240) * 262144 + (byte_val b - 128) * 4096
                                  + (byte_val c - 128) * 64 + (byte_val d - 128)) :: utf8_chars l4
                             end
                    end
           end
  end.

Definition byte_of (x : Z) : ascii := ascii_of_N (Z.to_N x).

Definition utf8_encode_char (c : Z) : bytes :=
  if c <? 128 then [byte_of c]
  else if c <? 2048 then [byte_of (192 + c / 64); byte_of (128 + c mod 64)]
  else if c <? 65536
  then [byte_of (224 + c / 4096); byte_of (128 + (c / 64) mod 64); byte_of (128 + c mod 64)]
  else [byte_of (240 + c / 262144); byte_of (128 + (c / 4096) mod 64);
        byte_of (128 + (c / 64) mod 64); byte_of (128 + c mod 64)].

Definition utf8_encode (s : list Z) : string :=
  string_of_list_ascii (concat (map utf8_encode_char s)).

(** [u8::is_ascii_whitespace] and [str::split_ascii_whitespace]. *)
Definition is_ascii_whitespace (c : ascii) : bool :=
  let n := byte_val c in (n =? 32) || (n =? 9) || (n =? 10) || (n =? 12) || (n =? 13).

Fixpoint split_ascii_whitespace (word : bytes) (l : bytes) : list bytes :=
  match l with
  | [] => match word with [] => [] | _ => [word] end
  | c :: l' =>
      if is_ascii_whitespace c
      then match word with [] => [] | _ => [word] end ++ split_ascii_whitespace [] l'
      else split_ascii_whitespace (word ++ [c]) l'
  end.

(** [str::to_ascii_lowercase] and [str::eq_ignore_ascii_case]. *)
Definition ascii_lower (c : ascii) : ascii :=
  let n := N_of_ascii c in
  if (65 <=? n)%N && (n <=? 90)%N then ascii_of_N (n + 32) else c.

Fixpoint to_ascii_lowercase (s : string) : string :=
  match s with "" => "" | String c s' => String (ascii_lower c) (to_ascii_lowercase s') end.

Definition eq_ignore_ascii_case (s t : string) : bool :=
  bool_decide (to_ascii_lowercase s = to_ascii_lowercase t).

(** [char::is_whitespace]: the Unicode property [White_Space]. *)
Definition is_whitespace (c : Z) : bool :=
  ((9 <=? c) && (c <=? 13)) || (c =? 32) || (c =? 133) || (c =? 160) || (c =? 5760)
  || ((8192 <=? c) && (c <=? 8202)) || (c =? 8232) || (c =? 8233) || (c =? 8239) || (c =? 8287)
  || (c =? 12288).

(** [Ord for str]: lexicographic on bytes. *)
Definition string_le (a b : string) : Prop := String.compare a b <> Gt.

#[export] Instance string_le_dec : RelDecision string_le.
Proof. intros a b. unfold string_le. apply _. Defined.

Lemma string_le_cons a s b t :
  string_le (String a s) (String b t) <->
  (N_of_ascii a < N_of_ascii b)%N \/ (a = b /\ string_le s t).
Proof.
  unfold string_le; simpl. unfold Ascii.compare.
  destruct (N.compare_spec (N_of_ascii a) (N_of_ascii b)) as [H|H|H].
  - apply (f_equal ascii_of_N) in H. rewrite !ascii_N_embedding in H. subst.
    split; [by right|]. intros [?|[_ ?]]; [lia|done].
  - split; [by left|done].
  - split; [done|]. intros [?|[-> _]]; lia.
Qed.

#[export] Instance string_le_trans : Transitive string_le.
Proof.
  intros s. induction s as [|a s IH]; intros [|b t] [|c u] H1 H2; try done.
  apply string_le_cons in H1, H2. apply string_le_cons.
  destruct H1 as [?|[-> ?]], H2 as [?|[-> ?]]; [left; lia|left; lia|left; lia|right; eauto].
Qed.

#[export] Instance string_le_total : Total string_le.
Proof.
  intros s. induction s as [|a s IH]; intros [|b t]; [by left|by left|by right|].
  rewrite !string_le_cons.
  destruct (N.lt_trichotomy (N_of_ascii a) (N_of_ascii b)) as [?|[H|?]]; [auto| |auto].
  apply (f_equal ascii_of_N) in H. rewrite !ascii_N_embedding in H. subst.
  destruct (IH t); auto.
Qed.

#[export] Instance string_le_antisym : AntiSymm (=) string_le.
Proof.
  intros s. induction s as [|a s IH]; intros [|b t] H1 H2; try done.
  apply string_le_cons in H1, H2.
  destruct H1 as [?|[? ?]], H2 as [?|[? ?]]; subst; try lia. f_equal. auto.
Qed.

(** Decimal digits of a number, at least [width] of them: [{:0width$}]. *)
Definition digit (n : N) : ascii := ascii_of_N (48 + n mod 10).

Fixpoint decimal_digits (fuel : nat) (n : N) (acc : bytes) : bytes :=
  match fuel with
  | O => acc
  | S fuel' =>
      let acc' := digit n :: acc in
      if (n <? 10)%N then acc' else decimal_digits fuel' (n / 10) acc'
  end.

Definition format_padded (width : nat) (n : Z) : string :=
  let ds := decimal_digits 20 (Z.to_N n) [] in
  string_of_list_ascii (replicate (width - length ds) "0"%char ++ ds).

Definition format_decimal (n : Z) : string := format_padded 0 n.

(** [str::parse::<u32>] on digits (an optional leading [+] is accepted). *)
Definition digit_value (c : ascii) : option Z :=
  let n := Z.of_N (N_of_ascii c) in
  if (48 <=? n) && (n <=? 57) then Some (n - 48) else None.

Fixpoint parse_digits (max acc : Z) (l : bytes) : option Z :=
  match l with
  | [] => Some acc
  | c :: l' =>
      d ← digit_value c;
      let acc' := acc * 10 + d in
      if acc' <=? max then parse_digits max acc' l' else None
  end.

Definition parse_u32 (s : string) : option Z :=
  match as_bytes s with
  | [] => None
  | c :: l =>
      if decide (c = "+"%char)
      then match l with [] => None | _ => parse_digits u32_max 0 l end
      else parse_digits u32_max 0 (c :: l)
  end.

(** ** Automation *)

Create HintDb offprint.

(** Turn the boolean tests of executable definitions into propositions. *)
Ltac bool_facts :=
  repeat match goal with
  | H : (_ && _) = true |- _ => apply andb_true_iff in H; destruct H
  | H : (_ || _) = false |- _ => apply orb_false_iff in H; destruct H
  | H : negb _ = true |- _ => apply negb_true_iff in H
  | H : negb _ = false |- _ => apply negb_false_iff in H
  | H : (_ <=? _)%Z = true |- _ => apply Z.leb_le in H
  | H : (_ <=? _)%Z = false |- _ => apply Z.leb_gt in H
  | H : (_ <? _)%Z = true |- _ => apply Z.ltb_lt in H
  | H : (_ <? _)%Z = false |- _ => apply Z.ltb_ge in H
  | H : (_ =? _)%Z = true |- _ => apply Z.eqb_eq in H
  | H : (_ =? _)%Z = false |- _ => apply Z.eqb_neq in H
  | H : bool_decide _ = true |- _ => apply bool_decide_eq_true in H
  | H : bool_decide _ = false |- _ => apply bool_decide_eq_false in H
  end.

(** Case on the scrutinee of the first [if]/[match] of a hypothesis or goal. *)
Ltac case_if :=
  match goal with
  | |- context [if ?b then _ else _] => destruct b eqn:?
  | H : context [if ?b then _ else _] |- _ => destruct b eqn:?
  end.

(** Read the [Forall] hypotheses by membership. *)
Ltac foralls :=
  repeat match goal with H : Forall _ _ |- _ => rewrite list.Forall_forall in H end.

Ltac ranges := unfold in_u32, in_u64, usize_max, u64_max, u32_max, u16_max in *.

(** ** Generic lemmas *)

Lemma len_u64_small {A} (l : list A) :
  Z.of_nat (length l) <= u64_max -> len_u64 l = Z.of_nat (length l).
Proof. unfold len_u64. lia. Qed.

Lemma len_u64_nonneg {A} (l : list A) : 0 <= len_u64 l.
Proof. unfold len_u64; ranges; lia. Qed.

Lemma checked_add_Some max a b c :
  checked_add max a b = Some c <-> c = a + b /\ a + b <= max.
Proof. unfold checked_add. destruct (Z.leb_spec (a + b) max); naive_solver lia. Qed.

Lemma checked_add_None max a b :
  checked_add max a b = None <-> max < a + b.
Proof. unfold checked_add. destruct (Z.leb_spec (a + b) max); naive_solver lia. Qed.

Lemma checked_add_fits max a b : a + b <= max -> checked_add max a b = Some (a + b).
Proof. by rewrite checked_add_Some. Qed.

Lemma saturating_add_0 max a : a <= max -> saturating_add max a 0 = a.
Proof. unfold saturating_add. lia. Qed.

Lemma saturating_add_assoc max a x y :
  0 <= y -> saturating_add max (saturating_add max a x) y = saturating_add max a (x + y).
Proof. unfold saturating_add. lia. Qed.

#[export] Hint Resolve len_u64_nonneg : offprint.
