(* ===== verification/Errors.v ===== *)
(** * The error record and its code registry

    Models [offprint-rs/model/src/error]: the twelve error stages, the record
    every fallible operation returns, the code registry and its binary search,
    and the code syntax check.  [OffprintError::message] is explanatory text
    that nothing branches on; it is the one field left out. *)

From Stdlib Require Import ZArith Lia Ascii String.
From stdpp Require Import base tactics list gmap strings numbers.
From S2P Require Import Prelude.

Inductive ErrorStage :=
| Validation | Browser | Navigation | Readiness | Collection | Resource
| Transform | Encoding | Verification | Commit | Shutdown | Internal.

#[export] Instance ErrorStage_eq_dec : EqDecision ErrorStage.
Proof. solve_decision. Defined.

Record ErrorCodeDefinition := {
  d_code : string;
  d_stage : ErrorStage;
  d_retryable : bool;
  d_description : string;
}.

Definition def_ (code : string) (stage : ErrorStage) (retryable : bool)
    (description : string) : ErrorCodeDefinition :=
  {| d_code := code; d_stage := stage; d_retryable := retryable;
     d_description := description |}.

#[local] Open Scope string_scope.
#[local] Open Scope Z_scope.
#[local] Open Scope list_scope.

(** The registry, in source order: its first half, *)
Definition registry_head : list ErrorCodeDefinition := [
  def_ "offprint.artifact.digest" Commit false "The staged artifact digest changed before commit.";
  def_ "offprint.artifact.head" Encoding false "The captured document has no HTML head element.";
  def_ "offprint.artifact.manifest" Encoding false "The artifact manifest could not be serialized.";
  def_ "offprint.artifact.policy" Encoding false "The artifact policy is inconsistent with the captured document.";
  def_ "offprint.artifact.read" Verification true "The artifact could not be read.";
  def_ "offprint.artifact.resource_summary" Encoding false "The artifact resource summary is incomplete.";
  def_ "offprint.artifact.sandbox" Encoding false "The sandboxed HTML artifact is inconsistent.";
  def_ "offprint.artifact.serialize" Encoding false "The HTML artifact could not be serialized.";
  def_ "offprint.artifact.size" Encoding false "The artifact exceeds a configured or platform byte limit.";
  def_ "offprint.binding.runtime" Internal false "A language binding runtime could not be started.";
  def_ "offprint.binding.serialization" Internal false "A language binding could not serialize a canonical record.";
  def_ "offprint.binding.shutdown" Shutdown false "A language binding shutdown ended before reporting its result.";
  def_ "offprint.binding.shutdown_timeout" Shutdown true "A language binding shutdown exceeded its deadline.";
  def_ "offprint.browser.acquisition" Internal false "Browser ownership was lost during acquisition.";
  def_ "offprint.browser.acquisition_cancelled" Shutdown false "Browser acquisition was cancelled during shutdown.";
  def_ "offprint.browser.active" Browser true "The selected managed browser has active leases or requires replacement.";
  def_ "offprint.browser.cdp_close_timeout" Browser true "The CDP transport did not close before its deadline.";
  def_ "offprint.browser.cdp_closed" Browser true "The CDP connection closed.";
  def_ "offprint.browser.cdp_command" Browser false "Chromium rejected a CDP command.";
  def_ "offprint.browser.cdp_connect" Browser true "Offprint could not connect to a CDP endpoint.";
  def_ "offprint.browser.cdp_decode" Browser false "A CDP message could not be decoded.";
  def_ "offprint.browser.cdp_encode" Browser false "A CDP command could not be encoded.";
  def_ "offprint.browser.cdp_event_lag" Browser true "A CDP event consumer exceeded its bounded buffer.";
  def_ "offprint.browser.cdp_event_limit" Browser false "A CDP event exceeded its byte limit.";
  def_ "offprint.browser.cdp_shape" Browser false "A CDP response did not match the pinned protocol shape.";
  def_ "offprint.browser.cdp_task" Browser false "The CDP transport task failed.";
  def_ "offprint.browser.cdp_timeout" Browser true "A CDP command exceeded its deadline.";
  def_ "offprint.browser.cdp_transport" Browser true "The CDP WebSocket transport failed.";
  def_ "offprint.browser.containment" Browser false "The owned browser process tree could not be contained.";
  def_ "offprint.browser.context" Internal false "The browser context lifecycle is internally inconsistent.";
  def_ "offprint.browser.devtools_port" Browser false "Chromium published an invalid DevTools port.";
  def_ "offprint.browser.devtools_url" Browser false "Chromium published an invalid DevTools endpoint.";
  def_ "offprint.browser.executable" Browser false "The selected browser executable is unavailable.";
  def_ "offprint.browser.incompatible" Browser false "The selected browser is incompatible with Offprint.";
  def_ "offprint.browser.install" Browser false "A managed browser installation needs attention.";
  def_ "offprint.browser.interception_closed" Resource false "Response interception closed before collection completed.";
  def_ "offprint.browser.interception_task" Navigation false "The network interception task failed.";
  def_ "offprint.browser.launch" Browser true "Chromium could not be launched.";
  def_ "offprint.browser.launch_timeout" Browser true "Chromium did not start before its deadline.";
  def_ "offprint.browser.management_unavailable" Browser false "The requested managed browser operation is unavailable.";
  def_ "offprint.browser.offline_verifier_unavailable" Browser false "Browser-backed offline verification is unavailable.";
  def_ "offprint.browser.pdf_unavailable" Encoding false "The selected browser backend cannot render PDF output.";
  def_ "offprint.browser.probe" Browser true "The browser executable probe failed.";
  def_ "offprint.browser.probe_timeout" Browser true "The browser executable probe exceeded its deadline.";
  def_ "offprint.browser.profile" Browser false "An ephemeral browser profile could not be created.";
  def_ "offprint.browser.resource_task" Resource false "A browser resource collection task failed.";
  def_ "offprint.browser.selection_conflict" Browser false "The browser selection options request incompatible ownership modes.";
  def_ "offprint.browser.shutdown" Shutdown true "Chromium could not be stopped cleanly.";
  def_ "offprint.browser.target_crashed" Navigation true "The Chromium target crashed during an active operation.";
  def_ "offprint.browser.terminate" Shutdown true "The owned Chromium process tree could not be terminated.";
  def_ "offprint.browser.unavailable" Browser false "No compatible browser is available.";
  def_ "offprint.browser.version" Browser false "The browser version could not be identified.";
  def_ "offprint.collector.base_url" Collection false "A collected frame has an invalid document base URL.";
  def_ "offprint.collector.capability" Collection false "The collector lacks a requested capability.";
  def_ "offprint.collector.chunk_checksum" Collection true "A collector chunk checksum is invalid.";
  def_ "offprint.collector.chunk_length" Collection false "A collector chunk length is inconsistent.";
  def_ "offprint.collector.chunk_limit" Collection false "A collector chunk exceeds the negotiated limit.";
  def_ "offprint.collector.chunk_owner" Collection false "A collector chunk belongs to another capture or frame.";
  def_ "offprint.collector.chunk_sequence" Collection false "Collector chunks are out of sequence.";
  def_ "offprint.collector.chunk_total" Collection false "The collector changed a declared chunk count.";
  def_ "offprint.collector.document" Collection false "The rendered document could not be collected.";
  def_ "offprint.collector.evaluate" Collection false "The in-page collector evaluation failed.";
  def_ "offprint.collector.payload_checksum" Collection true "A collector payload digest is invalid.";
  def_ "offprint.collector.payload_limit" Collection false "Collector payloads exceed the configured capture limit.";
  def_ "offprint.collector.protocol_major" Collection false "The collector protocol major version is incompatible.";
  def_ "offprint.collector.protocol_shape" Collection false "A collector message does not match the protocol shape.";
  def_ "offprint.collector.value" Collection false "The collector returned a value that could not cross the protocol boundary.";
  def_ "offprint.config.directory" Validation false "The Offprint configuration directory is unavailable.";
  def_ "offprint.config.field" Validation false "An Offprint environment variable is not recognized.";
  def_ "offprint.config.parse" Validation false "An Offprint configuration file contains invalid TOML.";
  def_ "offprint.config.profile" Validation false "The selected capture profile is undefined.";
  def_ "offprint.config.read" Validation true "An Offprint configuration file could not be read.";
  def_ "offprint.config.value" Validation false "An Offprint configuration value is invalid.";
  def_ "offprint.export.encode" Encoding false "An artifact format could not be encoded.";
  def_ "offprint.export.files" Encoding false "An artifact format exceeds its file count limit.";
  def_ "offprint.export.format" Validation false "The requested artifact format set is invalid.";
  def_ "offprint.export.markdown_asset" Encoding false "A Markdown asset is malformed or has an invalid relative path.";
  def_ "offprint.export.name" Validation false "The artifact export base name is invalid.";
  def_ "offprint.export.output" Commit false "An artifact format output could not be staged or committed.";
  def_ "offprint.export.pdf" Encoding false "Chromium returned an invalid PDF payload.";
  def_ "offprint.export.pdf_metadata" Encoding false "The PDF metadata record is incomplete or inconsistent.";
  def_ "offprint.export.pdf_semantics" Encoding false "The PDF semantic structure is unavailable or malformed.";
  def_ "offprint.export.size" Encoding false "An artifact format exceeds its byte limit.";
  def_ "offprint.export.source" Encoding false "An artifact format source is inconsistent with the verified HTML.";
  def_ "offprint.export.verify" Verification false "An artifact format failed its format-specific verifier.";
  def_ "offprint.export.zip" Encoding false "A ZIP artifact could not be encoded or decoded.";
  def_ "offprint.frame.collection" Collection false "A frame could not be collected into the capture graph.";
  def_ "offprint.frame.depth" Collection false "The captured frame graph exceeds its configured depth.";
  def_ "offprint.frame.detached" Collection true "An out-of-process frame detached before collection completed.";
  def_ "offprint.frame.limit" Collection false "The captured frame graph exceeds its configured count.";
  def_ "offprint.frame.nodes" Collection false "The captured frame graph exceeds its configured node budget.";
  def_ "offprint.frame.owner" Collection false "A captured node or frame has an inconsistent owner.";
  def_ "offprint.frame.topology" Collection false "The captured frame graph has an invalid topology.";
  def_ "offprint.input.arguments" Validation false "The command line is invalid.";
  def_ "offprint.input.artifact" Validation false "The artifact input is invalid for the requested operation.";
  def_ "offprint.input.browser_recycle" Validation false "The browser recycling limit is invalid.";
  def_ "offprint.input.browser_selection" Validation false "The selected browser policy is invalid for the requested operation.";
  def_ "offprint.input.cdp_url" Validation false "The remote browser endpoint URL is invalid.";
  def_ "offprint.input.concurrency" Validation false "The browser context concurrency limit is invalid.";
  def_ "offprint.input.credentials" Validation false "The capture credential input is invalid or insufficiently protected.";
  def_ "offprint.input.duration" Validation false "A command duration is invalid.";
  def_ "offprint.input.error_code" Validation false "An error code is malformed.";
  def_ "offprint.input.export_option" Validation false "An artifact export option does not apply to the selected formats.";
  def_ "offprint.input.file_root" Validation false "A file URL is outside the configured roots.";
  def_ "offprint.input.json" Validation false "A JSON command input is unreadable, oversized, or invalid.";
  def_ "offprint.input.limit" Validation false "A capture limit is invalid.";
  def_ "offprint.input.network_cidr" Validation false "A custom network CIDR is invalid.";
  def_ "offprint.input.output" Validation false "The output target is invalid.";
  def_ "offprint.input.path_encoding" Validation false "A filesystem path cannot be represented as UTF-8.";
  def_ "offprint.input.remote_file" Validation false "A remote browser capture addressed the coordinator filesystem.";
  def_ "offprint.input.remote_network_policy" Validation false "A remote browser capture selected a restricted network policy.";
  def_ "offprint.input.remote_verification_policy" Validation false "A remote browser capture selected browser-backed verification.";
  def_ "offprint.input.schema_version" Validation false "An input record uses an incompatible schema version.";
  def_ "offprint.input.selector_scope" Validation false "A capture request combines a DOM selector with active selection scope.";
  def_ "offprint.input.url" Validation false "The capture URL is invalid.";
  def_ "offprint.input.url_scheme" Validation false "The capture URL uses a blocked scheme.";
  def_ "offprint.input.value" Validation false "A language binding input does not match its public record.";
  def_ "offprint.input.verification_option" Validation false "A verification option does not apply to the selected artifact format.";
  def_ "offprint.input.viewport" Validation false "The browser viewport is invalid."
].

(** and its second half. *)
Definition registry_tail : list ErrorCodeDefinition := [
  def_ "offprint.internal.panic" Internal false "A capture task panicked behind the runtime boundary.";
  def_ "offprint.navigation.address_blocked" Navigation false "The network policy blocked a resolved address.";
  def_ "offprint.navigation.dns" Navigation true "The navigation host resolved to no addresses.";
  def_ "offprint.navigation.dns_timeout" Navigation true "A network policy DNS decision exceeded its deadline.";
  def_ "offprint.navigation.failed" Navigation true "Chromium could not navigate to the requested page.";
  def_ "offprint.navigation.host" Navigation false "The navigation URL has no host.";
  def_ "offprint.navigation.policy_state" Navigation false "The navigation request has no validated network policy state.";
  def_ "offprint.navigation.popup" Navigation false "A popup target could not be rejected safely.";
  def_ "offprint.navigation.port" Navigation false "The navigation URL has no usable port.";
  def_ "offprint.navigation.proxy" Navigation true "The validated network proxy could not complete a request.";
  def_ "offprint.navigation.redirect_limit" Navigation false "Navigation exceeded the configured redirect count.";
  def_ "offprint.navigation.request_limit" Navigation false "Concurrent intercepted requests exceed the supported limit.";
  def_ "offprint.navigation.scheme" Navigation false "The network URL scheme is blocked.";
  def_ "offprint.navigation.url" Navigation false "Chromium reported an invalid navigation URL.";
  def_ "offprint.output.commit" Commit true "The verified artifact could not be committed.";
  def_ "offprint.output.diagnostics" Commit true "The sanitized diagnostic bundle could not be committed.";
  def_ "offprint.output.directory" Validation false "The output directory is unavailable.";
  def_ "offprint.output.exists" Validation false "The output path already exists.";
  def_ "offprint.output.flush" Encoding true "The staging artifact could not be flushed.";
  def_ "offprint.output.path" Validation false "The output path is invalid.";
  def_ "offprint.output.read" Verification true "The staging artifact could not be read.";
  def_ "offprint.output.staging" Encoding true "The staging artifact could not be created.";
  def_ "offprint.output.stderr" Commit true "Human diagnostics could not be written to stderr.";
  def_ "offprint.output.stdout" Commit true "A structured command result could not be written to stdout.";
  def_ "offprint.output.sync" Encoding true "The staging artifact could not be synchronized.";
  def_ "offprint.output.uniquify" Commit false "A unique output filename could not be selected.";
  def_ "offprint.readiness.request_count" Readiness false "The readiness tracker observed an inconsistent request count.";
  def_ "offprint.readiness.timeout" Readiness true "The page did not reach the requested readiness state before its deadline.";
  def_ "offprint.resource.css_cycle" Resource false "A stylesheet import graph contains a cycle.";
  def_ "offprint.resource.css_depth" Resource false "A stylesheet import graph exceeds its configured depth.";
  def_ "offprint.resource.css_encoding" Resource false "A captured stylesheet has an unsupported text encoding.";
  def_ "offprint.resource.data_url" Resource false "A captured data URL could not be decoded.";
  def_ "offprint.resource.decode" Resource false "A browser resource body could not be decoded.";
  def_ "offprint.resource.html_cycle" Resource false "An embedded HTML resource graph contains a cycle.";
  def_ "offprint.resource.html_depth" Resource false "An embedded HTML resource graph exceeds its configured depth.";
  def_ "offprint.resource.html_frame" Resource false "An embedded HTML resource contains a nested frame.";
  def_ "offprint.resource.html_serialize" Resource false "An embedded HTML document could not be serialized.";
  def_ "offprint.resource.identifier" Resource false "A resource identifier is absent from the graph.";
  def_ "offprint.resource.incomplete" Resource false "A resource graph contains unresolved references.";
  def_ "offprint.resource.limit" Resource false "A capture resource budget was exceeded.";
  def_ "offprint.resource.load" Resource true "Chromium could not load a required resource body.";
  def_ "offprint.resource.protocol_shape" Resource false "A browser resource response did not match the pinned protocol shape.";
  def_ "offprint.resource.rewrite" Resource false "A controlled resource reference could not be rewritten.";
  def_ "offprint.resource.scheme" Resource false "A resource reference uses an unsupported URL scheme.";
  def_ "offprint.resource.status" Resource true "A required resource returned an unsuccessful HTTP status.";
  def_ "offprint.resource.store" Internal false "The capture content store is internally inconsistent.";
  def_ "offprint.resource.stream" Resource true "A required resource stream ended with an error.";
  def_ "offprint.resource.svg_cycle" Resource false "An SVG resource graph contains a cycle.";
  def_ "offprint.resource.svg_depth" Resource false "An SVG resource graph exceeds its configured depth.";
  def_ "offprint.resource.svg_parse" Resource false "A captured SVG document has no usable root element.";
  def_ "offprint.resource.svg_serialize" Resource false "A transformed SVG document could not be serialized.";
  def_ "offprint.resource.terminal" Resource false "A resource received more than one terminal outcome.";
  def_ "offprint.resource.url" Resource false "A captured resource URL is invalid.";
  def_ "offprint.runtime.acquisition" Internal false "Runtime ownership was lost during acquisition.";
  def_ "offprint.runtime.cancelled" Shutdown false "The active capture was cancelled.";
  def_ "offprint.runtime.capture_unavailable" Internal false "The capture runtime is unavailable.";
  def_ "offprint.runtime.closed" Shutdown false "The Offprint service is closed.";
  def_ "offprint.runtime.interrupted" Shutdown false "The active command received an interruption signal.";
  def_ "offprint.runtime.job" Internal false "The capture job registry is internally inconsistent.";
  def_ "offprint.runtime.lock" Internal false "A runtime state lock is poisoned.";
  def_ "offprint.runtime.shutdown" Shutdown false "Runtime shutdown did not complete cleanly.";
  def_ "offprint.runtime.signal" Shutdown false "The command could not subscribe to interruption signals.";
  def_ "offprint.runtime.start" Internal false "The command runtime could not be started.";
  def_ "offprint.runtime.state_transition" Internal false "The capture state machine rejected a transition.";
  def_ "offprint.runtime.terminal_event" Internal false "A capture emitted more than one terminal event.";
  def_ "offprint.runtime.timeout" Shutdown true "The requested operation exceeded its total deadline.";
  def_ "offprint.scheduler.artifact_read" Internal true "A captured crawl artifact could not be read for link discovery.";
  def_ "offprint.scheduler.concurrency" Validation false "Scheduler concurrency is outside the supported range.";
  def_ "offprint.scheduler.depth" Validation false "Crawl depth is outside the supported range.";
  def_ "offprint.scheduler.failed" Internal false "One or more scheduled captures reached a failed terminal state.";
  def_ "offprint.scheduler.job_count" Validation false "The number of scheduled jobs is outside the supported range.";
  def_ "offprint.scheduler.job_id" Validation false "A batch job identifier is invalid or duplicated.";
  def_ "offprint.scheduler.manifest_mismatch" Validation false "Resume state belongs to a different scheduler plan.";
  def_ "offprint.scheduler.manifest_read" Validation true "Resume state could not be inspected or decoded.";
  def_ "offprint.scheduler.manifest_shape" Validation false "Resume state has an invalid or inconsistent record shape.";
  def_ "offprint.scheduler.manifest_write" Commit true "Resume state could not be staged or committed.";
  def_ "offprint.scheduler.output" Validation false "The scheduler output directory is unavailable.";
  def_ "offprint.scheduler.plan" Validation false "A scheduler plan could not be serialized.";
  def_ "offprint.scheduler.resume_credentials" Validation false "A scheduler plan with capture credentials cannot use persisted resume state.";
  def_ "offprint.scheduler.resume_target" Validation false "A resumable job does not have a persistent artifact target.";
  def_ "offprint.scheduler.state" Internal false "The scheduler reached an inconsistent internal state.";
  def_ "offprint.scheduler.url" Validation false "A crawl URL uses an unsupported scheme.";
  def_ "offprint.screenshot.encoding" Verification false "A screenshot response could not be decoded.";
  def_ "offprint.screenshot.protocol_shape" Verification false "A screenshot response did not match the pinned protocol shape.";
  def_ "offprint.selection.empty" Collection false "The selected document scope has no active top-level selection.";
  def_ "offprint.selector.invalid" Collection false "The DOM selector is not a valid CSS selector.";
  def_ "offprint.selector.not_found" Collection false "The top-level document has no element matching the DOM selector.";
  def_ "offprint.transform.document" Transform false "The document model is incomplete or inconsistent.";
  def_ "offprint.transform.node" Transform false "A document transform referenced an unknown node.";
  def_ "offprint.transform.node_limit" Transform false "A document exceeds the node identifier range.";
  def_ "offprint.transform.structural_repair" Transform false "The structural repair program is invalid or exceeds its bounds.";
  def_ "offprint.transform.visual_fallback" Transform false "A visual fallback could not be attached to its captured node.";
  def_ "offprint.verification.active_content" Verification false "The artifact contains active captured content.";
  def_ "offprint.verification.csp" Verification false "The artifact content security policy is inconsistent.";
  def_ "offprint.verification.embedded_resource" Verification false "An embedded resource is malformed or inconsistent with its manifest record.";
  def_ "offprint.verification.external_reference" Verification false "The artifact contains an external render-fetch reference.";
  def_ "offprint.verification.format" Verification false "The artifact format or schema is incompatible.";
  def_ "offprint.verification.frame" Verification false "An artifact frame could not be inspected during offline verification.";
  def_ "offprint.verification.frames" Verification false "The embedded frame graph is incomplete or inconsistent.";
  def_ "offprint.verification.manifest" Verification false "The artifact manifest is missing or malformed.";
  def_ "offprint.verification.network" Verification false "The artifact attempted a network request during offline verification.";
  def_ "offprint.verification.page_error" Verification false "The artifact raised a page error during offline verification.";
  def_ "offprint.verification.path" Verification false "The staged artifact path cannot be opened by the verifier.";
  def_ "offprint.verification.record" Verification false "The artifact verification record is inconsistent.";
  def_ "offprint.verification.reference" Verification false "The artifact contains an invalid controlled resource reference.";
  def_ "offprint.verification.resource_provenance" Verification false "An embedded resource has incomplete retrieval provenance.";
  def_ "offprint.verification.resource_summary" Verification false "The artifact resource summary is inconsistent.";
  def_ "offprint.verification.size" Verification false "The artifact size exceeds the supported range.";
  def_ "offprint.verification.structural_repair" Verification false "The artifact structural repair data is malformed or inconsistent.";
  def_ "offprint.verification.timeout" Verification true "Offline verification exceeded its deadline.";
  def_ "offprint.verification.unstable" Verification true "The artifact did not reach a stable browser state during offline verification.";
  def_ "offprint.visual_fallback.bounds" Collection false "A visual fallback has invalid or out-of-range browser bounds.";
  def_ "offprint.visual_fallback.encoding" Collection false "A visual fallback image could not be decoded.";
  def_ "offprint.visual_fallback.evaluate" Collection false "Visual fallback evaluation failed in the browser.";
  def_ "offprint.visual_fallback.frame" Collection false "A visual fallback frame is unavailable or inconsistent.";
  def_ "offprint.visual_fallback.frame_owner" Collection false "A visual fallback frame owner is unavailable or inconsistent.";
  def_ "offprint.visual_fallback.pixel_limit" Collection false "A visual fallback exceeds its configured pixel budget.";
  def_ "offprint.visual_fallback.protocol_shape" Collection false "A visual fallback response did not match the pinned protocol shape.";
  def_ "offprint.visual_fallback.viewport" Collection false "A visual fallback lies outside its browser viewport."
].

Definition ERROR_CODE_REGISTRY : list ErrorCodeDefinition :=
  registry_head ++ registry_tail.

(** ** [slice::binary_search_by]

    The standard library's loop: halve the window until one candidate is left,
    then compare it once more.  [cmp] orders an element relative to the target.
    The fuel is the window size, which shrinks at every turn. *)
Section BinarySearch.
Context {A : Type} (cmp : A -> comparison).

Fixpoint search_window (fuel : nat) (l : list A) (base size : nat) : nat :=
  match fuel with
  | O => base
  | S fuel' =>
      if (size <=? 1)%nat then base
      else
        let half := Nat.div2 size in
        let mid := (base + half)%nat in
        let base' :=
          match l !! mid with
          | Some x => match cmp x with Gt => base | _ => mid end
          | None => base
          end in
        search_window fuel' l base' (size - half)
  end.

Definition binary_search_by (l : list A) : option nat :=
  match l with
  | [] => None
  | _ =>
      let base := search_window (length l) l 0 (length l) in
      match l !! base with
      | Some x => match cmp x with Eq => Some base | _ => None end
      | None => None
      end
  end.

(** The list is ordered with respect to the target: before a match everything
    is smaller, after it everything is greater. *)
Definition ordered_around (l : list A) : Prop :=
  forall i j x y, (i < j)%nat -> l !! i = Some x -> l !! j = Some y ->
    (cmp y = Eq -> cmp x = Lt) /\ (cmp x = Eq -> cmp y = Gt).

Lemma search_window_finds fuel l base size i x :
  ordered_around l -> l !! i = Some x -> cmp x = Eq ->
  (base <= i < base + size)%nat -> (base + size <= length l)%nat ->
  (size <= fuel)%nat -> search_window fuel l base size = i.
Proof.
  intros Hord Hi Hx. revert base size.
  induction fuel as [|fuel IH]; intros base size Hb Hl Hf; simpl; [lia|].
  destruct (Nat.leb_spec size 1); [lia|].
  assert (Hh : (0 < Nat.div2 size /\ 2 * Nat.div2 size <= size)%nat).
  { rewrite Nat.div2_div. split; [apply Nat.div_str_pos; lia|apply Nat.Div0.mul_div_le]. }
  destruct (lookup_lt_is_Some_2 l (base + Nat.div2 size)) as [y Hy]; [lia|].
  rewrite Hy.
  destruct (Nat.lt_trichotomy i (base + Nat.div2 size)) as [Hlt|[Heq|Hgt]].
  - destruct (Hord _ _ _ _ Hlt Hi Hy) as [_ ->]; [|done]. apply IH; lia.
  - subst i. rewrite Hi in Hy; injection Hy as <-. rewrite Hx. apply IH; lia.
  - destruct (Hord _ _ _ _ Hgt Hy Hi) as [-> _]; [|done]. apply IH; lia.
Qed.

Lemma binary_search_by_complete l i x :
  ordered_around l -> l !! i = Some x -> cmp x = Eq ->
  binary_search_by l = Some i.
Proof.
  intros Hord Hi Hx. unfold binary_search_by.
  pose proof (lookup_lt_Some _ _ _ Hi).
  assert (search_window (length l) l 0 (length l) = i) as Hw.
  { eapply search_window_finds; eauto; lia. }
  destruct l as [|a l]; [done|]. by rewrite Hw, Hi, Hx.
Qed.

Lemma binary_search_by_sound l i :
  binary_search_by l = Some i -> exists x, l !! i = Some x /\ cmp x = Eq.
Proof.
  unfold binary_search_by. destruct l as [|a l]; [done|].
  destruct (_ !! _) as [x|] eqn:Hx; [|done].
  destruct (cmp x) eqn:Hc; naive_solver.
Qed.
End BinarySearch.

(** [catalog::definition]. *)
Definition definition (code : string) : option ErrorCodeDefinition :=
  i ← binary_search_by (fun d => String.compare (d_code d) code) ERROR_CODE_REGISTRY;
  ERROR_CODE_REGISTRY !! i.

(** ** [OffprintError] *)

Inductive Detail :=
| DNum (n : Z)
| DBool (b : bool)
| DStr (s : string)
| DPath (p : list string)
| DList (l : list Detail).

Inductive OffprintError := MkOffprintError {
  err_code : string;
  err_stage : ErrorStage;
  err_retryable : bool;
  err_details : gmap string Detail;
  err_diagnostics_path : option (list string);
  err_source : option OffprintError;
}.

(** [OffprintError::new]: a registered code overrides the stage the caller
    passes and fixes whether the error is retryable. *)
Definition new_error (c : string) (s : ErrorStage) : OffprintError :=
  let (s', r) :=
    match definition c with
    | Some d => (d_stage d, d_retryable d)
    | None => (s, false)
    end in
  {| err_code := c; err_stage := s'; err_retryable := r; err_details := ∅;
     err_diagnostics_path := None; err_source := None |}.

(** Keep the registry out of simplification. *)
#[global] Arguments new_error : simpl never.

Lemma new_error_code c s : err_code (new_error c s) = c.
Proof. unfold new_error. by destruct (match definition c with Some d => _ | None => _ end). Qed.

Definition set_retryable (r : bool) (e : OffprintError) : OffprintError :=
  {| err_code := err_code e; err_stage := err_stage e; err_retryable := r; err_details := err_details e;
     err_diagnostics_path := err_diagnostics_path e; err_source := err_source e |}.

Definition with_detail (k : string) (v : Detail) (e : OffprintError) : OffprintError :=
  {| err_code := err_code e; err_stage := err_stage e; err_retryable := err_retryable e;
     err_details := <[k := v]> (err_details e);
     err_diagnostics_path := err_diagnostics_path e; err_source := err_source e |}.

Lemma with_detail_code k v e : err_code (with_detail k v e) = err_code e.
Proof. reflexivity. Qed.

Definition with_source (src e : OffprintError) : OffprintError :=
  {| err_code := err_code e; err_stage := err_stage e; err_retryable := err_retryable e;
     err_details := err_details e; err_diagnostics_path := err_diagnostics_path e;
     err_source := Some src |}.

Definition with_diagnostics_path (p : list string) (e : OffprintError) : OffprintError :=
  {| err_code := err_code e; err_stage := err_stage e; err_retryable := err_retryable e;
     err_details := err_details e; err_diagnostics_path := Some p; err_source := err_source e |}.

Abbreviation Res := (result OffprintError).

(** ** [ErrorCode] *)

Definition is_code_byte (c : ascii) : bool :=
  let n := N_of_ascii c in
  ((97 <=? n) && (n <=? 122))%N || ((48 <=? n) && (n <=? 57))%N
  || (n =? 46)%N || (n =? 95)%N.

Definition validate_error_code (value : string) : Res unit :=
  if String.prefix "offprint." value
     && forallb is_code_byte (as_bytes value)
     && forallb (fun seg => bool_decide (seg <> [])) (split_on "."%char (as_bytes value))
  then Ok tt
  else Err (new_error "offprint.input.error_code" Validation).

(** [ErrorCode::new]: the checked constructor. *)
Definition error_code_new (value : string) : Res string :=
  do? validate_error_code value ;; Ok value.

(** ** Properties *)

(** Pairwise strict ordering, decided by comparing every pair once. *)
Fixpoint pairwise_lt (l : list string) : bool :=
  match l with
  | [] => true
  | x :: l' =>
      forallb (fun y => match String.compare x y with Lt => true | _ => false end) l'
      && pairwise_lt l'
  end.

Lemma pairwise_lt_spec l i j x y :
  pairwise_lt l = true -> (i < j)%nat -> l !! i = Some x -> l !! j = Some y ->
  String.compare x y = Lt.
Proof.
  revert i j; induction l as [|z l IH]; intros i j Hp Hij Hi Hj; [done|].
  simpl in Hp. apply andb_true_iff in Hp as [Hz Hp].
  destruct j as [|j]; [lia|]. destruct i as [|i]; simpl in Hi, Hj.
  - injection Hi as ->. rewrite forallb_forall in Hz.
    specialize (Hz y). apply list_elem_of_lookup_2, list_elem_of_In in Hj.
    specialize (Hz Hj). by destruct (String.compare x y).
  - eapply (IH i j); eauto; lia.
Qed.

Lemma string_compare_refl s : String.compare s s = Eq.
Proof. pose proof (String.compare_antisym s s). by destruct (String.compare s s). Qed.

Lemma registry_strictly_sorted : pairwise_lt (map d_code ERROR_CODE_REGISTRY) = true.
Proof. vm_compute. reflexivity. Qed.

Lemma registry_ordered_around c :
  ordered_around (fun d => String.compare (d_code d) c) ERROR_CODE_REGISTRY.
Proof.
  intros i j x y Hij Hi Hj.
  assert (Hlt : String.compare (d_code x) (d_code y) = Lt).
  { eapply pairwise_lt_spec; [apply registry_strictly_sorted|done| |];
      rewrite list_lookup_fmap; [by rewrite Hi|by rewrite Hj]. }
  split; intros Heq%String.compare_eq_iff; rewrite Heq in *; [done|].
  by rewrite String.compare_antisym, Hlt.
Qed.

(** The binary search of [catalog::definition] is exact on the shipped
    registry: it returns a definition iff that definition is registered under
    the code, so no registered code is missed and none is confused. *)
Theorem definition_exact (c : string) (d : ErrorCodeDefinition) :
  definition c = Some d <-> d ∈ ERROR_CODE_REGISTRY /\ d_code d = c.
Proof.
  unfold definition. split.
  - intros (i & Hs & Hd)%bind_Some.
    apply binary_search_by_sound in Hs as (x & Hx & Hc).
    rewrite Hx in Hd; injection Hd as <-.
    apply String.compare_eq_iff in Hc. split; [by eapply list_elem_of_lookup_2|done].
  - intros [[i Hi]%list_elem_of_lookup Hc]. apply bind_Some. exists i.
    split; [|done]. eapply binary_search_by_complete; eauto using registry_ordered_around.
    subst c. apply string_compare_refl.
Qed.

(** Every code in the registry has valid [ErrorCode] syntax, so the
    [debug_assert!] of [ErrorCode::from_static] never fires for a registered
    code and the checked constructor accepts it unchanged. *)
Theorem registry_codes_valid (d : ErrorCodeDefinition) :
  d ∈ ERROR_CODE_REGISTRY -> error_code_new (d_code d) = Ok (d_code d).
Proof.
  assert (Hall : forallb (fun d => is_ok (validate_error_code (d_code d)))
                   ERROR_CODE_REGISTRY = true) by (vm_compute; reflexivity).
  rewrite forallb_forall in Hall. intros Hd%list_elem_of_In%Hall.
  unfold error_code_new. by destruct (validate_error_code (d_code d)) as [[]|].
Qed.

Lemma registry_codes_valid_witness :
  error_code_new "offprint.export.output" = Ok "offprint.export.output".
Proof.
  apply (registry_codes_valid
    (def_ "offprint.export.output" Commit false
       "An artifact format output could not be staged or committed.")).
  apply (list_elem_of_lookup_2 _ 78). vm_compute. reflexivity.
Defined.
