(* ===== verification/Fs.v ===== *)
(** * The file system the delivery code runs on

    What [offprint-artifact] uses of [std::fs] on Unix: a tree of directories,
    regular files (by inode, so that hard links share one content), symbolic
    links and other special files; the system calls as state transformers with
    POSIX results; and a monad in which every call can be made to fail or to
    stop the process, so that a program is a function of a fault schedule.

    [read_dir] returns the names of one snapshot.  A process stop keeps the
    file system as the calls completed so far left it; losing completed but
    unsynchronised calls (power loss) is outside the model. *)

From Stdlib Require Import ZArith Lia Ascii String.
From stdpp Require Import base tactics list gmap strings numbers.
From S2P Require Import Prelude.

(** An absolute path: its components from the root. *)
Abbreviation path := (list string).

Inductive node :=
| NFile (i : nat)
| NDir (m : gmap string node)
| NSymlink (target : path)
| NOther.

Inductive io_kind :=
| NotFound | AlreadyExists | NotADirectory | IsADirectory | DirectoryNotEmpty
| PermissionDenied | WouldBlock | InvalidInput | FilesystemLoop | StorageFull
| OtherIo.

#[export] Instance io_kind_eq_dec : EqDecision io_kind.
Proof. solve_decision. Defined.

(** ** The tree *)

Fixpoint tget (n : node) (p : path) : option node :=
  match p with
  | [] => Some n
  | c :: p' =>
      match n with
      | NDir m => m !! c ≫= fun n' => tget n' p'
      | _ => None
      end
  end.

(** Replace what stands at a path, or remove it; the parent directory must
    exist.  The root itself cannot be replaced. *)
Fixpoint tput (n : node) (p : path) (v : option node) : option node :=
  match p with
  | [] => None
  | c :: p' =>
      match n with
      | NDir m =>
          match p' with
          | [] => Some (NDir (partial_alter (fun _ => v) c m))
          | _ => n' ← m !! c; n'' ← tput n' p' v; Some (NDir (<[c := n'']> m))
          end
      | _ => None
      end
  end.

Definition is_dir (n : node) : bool := match n with NDir _ => true | _ => false end.

(** Path resolution: symbolic links are followed, at most forty of them. *)
Fixpoint resolve (hops : nat) (t : node) : path -> path -> result io_kind path :=
  fix walk (done rest : path) {struct rest} : result io_kind path :=
    match rest with
    | [] => Ok done
    | c :: rest' =>
        match tget t (done ++ [c]) with
        | None => Err NotFound
        | Some (NSymlink target) =>
            match hops with
            | O => Err FilesystemLoop
            | S hops' => resolve hops' t [] (target ++ rest')
            end
        | Some _ => walk (done ++ [c]) rest'
        end
    end.

Definition max_symlinks : nat := 40.

(** [fs::canonicalize]. *)
Definition canonicalize (t : node) (p : path) : result io_kind path :=
  resolve max_symlinks t [] p.

Fixpoint split_last (p : path) : option (path * string) :=
  match p with
  | [] => None
  | c :: p' =>
      match split_last p' with
      | None => Some ([], c)
      | Some (d, l) => Some (c :: d, l)
      end
  end.

(** [Path::parent] of a non-root path, [Path::file_name], [Path::join]. *)
Definition parent (p : path) : path :=
  match split_last p with Some (d, _) => d | None => [] end.
Definition file_name (p : path) : option string :=
  match split_last p with Some (_, c) => Some c | None => None end.
Abbreviation join p c := (p ++ [c]).

(** The place a path names when its last component is not followed: the parent
    is resolved, and must be a directory. *)
Definition locate (t : node) (p : path) : result io_kind path :=
  match split_last p with
  | None => Ok []
  | Some (d, c) =>
      q <-? canonicalize t d ;;
      match tget t q with
      | Some (NDir _) => Ok (q ++ [c])
      | Some _ => Err NotADirectory
      | None => Err NotFound
      end
  end.

(** ** State *)

Record fs := Fs {
  tree : node;
  inodes : gmap nat bytes;
  next_ino : nat;
  (** inodes some other process holds exclusively locked, and the ones this
      process does *)
  foreign_locks : gset nat;
  locks : gset nat;
  (** the random name suffixes the temporary-file generator will draw *)
  entropy : list string;
}.

Definition set_tree (t : node) (s : fs) : fs :=
  Fs t (inodes s) (next_ino s) (foreign_locks s) (locks s) (entropy s).
Definition set_locks (l : gset nat) (s : fs) : fs :=
  Fs (tree s) (inodes s) (next_ino s) (foreign_locks s) l (entropy s).
Definition set_entropy (e : list string) (s : fs) : fs :=
  Fs (tree s) (inodes s) (next_ino s) (foreign_locks s) (locks s) e.
Definition set_inode (i : nat) (b : bytes) (s : fs) : fs :=
  Fs (tree s) (<[i := b]> (inodes s)) (next_ino s) (foreign_locks s) (locks s) (entropy s).

Inductive file_kind := KFile | KDir | KSymlink | KOther.

#[export] Instance file_kind_eq_dec : EqDecision file_kind.
Proof. solve_decision. Defined.

Record metadata := Metadata { m_kind : file_kind; m_len : Z; m_ino : option nat }.

Definition file_bytes (s : fs) (i : nat) : bytes := default [] (inodes s !! i).

Definition meta_of (s : fs) (n : node) : metadata :=
  match n with
  | NFile i => Metadata KFile (len_u64 (file_bytes s i)) (Some i)
  | NDir _ => Metadata KDir 0 None
  | NSymlink _ => Metadata KSymlink 0 None
  | NOther => Metadata KOther 0 None
  end.

Definition m_is_file (m : metadata) : bool := bool_decide (m_kind m = KFile).
Definition m_is_dir (m : metadata) : bool := bool_decide (m_kind m = KDir).
Definition m_is_symlink (m : metadata) : bool := bool_decide (m_kind m = KSymlink).

(** ** System calls *)

Definition call (A : Type) : Type := fs -> result io_kind (A * fs).

(** The node a path names, last component not followed / followed. *)
Definition lookup_nofollow (s : fs) (p : path) : result io_kind node :=
  q <-? locate (tree s) p ;; ok_or (tget (tree s) q) NotFound.
Definition lookup_follow (s : fs) (p : path) : result io_kind node :=
  q <-? canonicalize (tree s) p ;; ok_or (tget (tree s) q) NotFound.

Definition sys_symlink_metadata (p : path) : call metadata := fun s =>
  n <-? lookup_nofollow s p ;; Ok (meta_of s n, s).

Definition sys_canonicalize (p : path) : call path := fun s =>
  q <-? canonicalize (tree s) p ;; Ok (q, s).

Definition sys_read_dir (p : path) : call (list string) := fun s =>
  n <-? lookup_follow s p ;;
  match n with
  | NDir m => Ok ((map_to_list m).*1, s)
  | _ => Err NotADirectory
  end.

(** [File::open] and reading to the end. *)
Definition sys_read (p : path) : call bytes := fun s =>
  n <-? lookup_follow s p ;;
  match n with
  | NFile i => Ok (file_bytes s i, s)
  | NDir _ => Err IsADirectory
  | _ => Err OtherIo
  end.

(** Put a node where nothing stands yet. *)
Definition place (p : path) (v : node) : call unit := fun s =>
  q <-? locate (tree s) p ;;
  match tget (tree s) q with
  | Some _ => Err AlreadyExists
  | None => t <-? ok_or (tput (tree s) q (Some v)) NotFound ;; Ok (tt, set_tree t s)
  end.

Definition sys_create_dir (p : path) : call unit := place p (NDir ∅).

(** [OpenOptions::create_new]: an empty file under a fresh inode. *)
Definition sys_create_new (p : path) : call nat := fun s =>
  let i := next_ino s in
  r <-? place p (NFile i) s ;;
  let s' := snd r in
  Ok (i, Fs (tree s') (<[i := []]> (inodes s')) (S i) (foreign_locks s') (locks s')
           (entropy s')).

Definition sys_write (i : nat) (b : bytes) : call unit := fun s =>
  Ok (tt, set_inode i (file_bytes s i ++ b) s).

(** [OpenOptions::create(true)]: the file under a name, made if it is missing. *)
Definition sys_open_or_create (p : path) : call nat := fun s =>
  match lookup_nofollow s p with
  | Ok (NFile i) => Ok (i, s)
  | Ok (NDir _) => Err IsADirectory
  | Ok _ =>
      n <-? lookup_follow s p ;;
      match n with NFile i => Ok (i, s) | NDir _ => Err IsADirectory | _ => Err OtherIo end
  | Err NotFound => sys_create_new p s
  | Err k => Err k
  end.

(** [File::metadata] of an open regular file. *)
Definition sys_file_metadata (i : nat) : call metadata := fun s =>
  Ok (meta_of s (NFile i), s).

(** [File::sync_all] of a file, of a directory (which is opened first). *)
Definition sys_sync_file (i : nat) : call unit := fun s => Ok (tt, s).
Definition sys_sync_dir (p : path) : call unit := fun s =>
  do? lookup_follow s p ;; Ok (tt, s).

(** Can [src] replace what stands at the destination? *)
Definition may_replace (src : node) (dst : option node) : result io_kind unit :=
  match dst with
  | None => Ok tt
  | Some d =>
      match src, d with
      | NDir _, NDir m => if decide (m = ∅) then Ok tt else Err DirectoryNotEmpty
      | NDir _, _ => Err NotADirectory
      | _, NDir _ => Err IsADirectory
      | _, _ => Ok tt
      end
  end.

(** [fs::rename]: atomic; an existing destination is replaced when the kinds
    agree, and a directory cannot move below itself. *)
Definition sys_rename (src dst : path) : call unit := fun s =>
  p <-? locate (tree s) src ;;
  n <-? ok_or (tget (tree s) p) NotFound ;;
  q <-? locate (tree s) dst ;;
  if decide (p = q) then Ok (tt, s)
  else if decide (p `prefix_of` q) then Err InvalidInput
  else
    do? may_replace n (tget (tree s) q) ;;
    t1 <-? ok_or (tput (tree s) p None) InvalidInput ;;
    t2 <-? ok_or (tput t1 q (Some n)) InvalidInput ;;
    Ok (tt, set_tree t2 s).

(** [fs::hard_link]: a second name for a file. *)
Definition sys_hard_link (src dst : path) : call unit := fun s =>
  n <-? lookup_nofollow s src ;;
  match n with
  | NDir _ => Err PermissionDenied
  | _ => place dst n s
  end.

Definition sys_remove_file (p : path) : call unit := fun s =>
  q <-? locate (tree s) p ;;
  match tget (tree s) q with
  | None => Err NotFound
  | Some (NDir _) => Err IsADirectory
  | Some _ => t <-? ok_or (tput (tree s) q None) NotFound ;; Ok (tt, set_tree t s)
  end.

Definition sys_remove_dir (p : path) : call unit := fun s =>
  q <-? locate (tree s) p ;;
  match tget (tree s) q with
  | None => Err NotFound
  | Some (NDir m) =>
      if decide (m = ∅)
      then t <-? ok_or (tput (tree s) q None) NotFound ;; Ok (tt, set_tree t s)
      else Err DirectoryNotEmpty
  | Some _ => Err NotADirectory
  end.

Definition sys_remove_dir_all (p : path) : call unit := fun s =>
  q <-? locate (tree s) p ;;
  match tget (tree s) q with
  | None => Err NotFound
  | Some (NDir _) => t <-? ok_or (tput (tree s) q None) NotFound ;; Ok (tt, set_tree t s)
  | Some _ => Err NotADirectory
  end.

(** The descendants of a node, children before their directory. *)
Fixpoint postorder (n : node) : list path :=
  match n with
  | NDir m => map_fold (fun c n' acc => (map (cons c) (postorder n') ++ [[c]]) ++ acc) [] m
  | _ => []
  end.

(** A recursive removal that stopped after its first [k] removals. *)
Definition prune (k : nat) (n : node) : node :=
  fold_left (fun t q => default t (tput t q None)) (take k (postorder n)) n.

Definition torn_remove_dir_all (p : path) (k : nat) (s : fs) : fs :=
  match locate (tree s) p with
  | Ok q =>
      match tget (tree s) q with
      | Some (NDir m) =>
          match tput (tree s) q (Some (prune k (NDir m))) with
          | Some t => set_tree t s
          | None => s
          end
      | _ => s
      end
  | Err _ => s
  end.

(** [try_lock_exclusive] on an open file. *)
Definition sys_try_lock (i : nat) : call unit := fun s =>
  if decide (i ∈ foreign_locks s \/ i ∈ locks s) then Err WouldBlock
  else Ok (tt, set_locks ({[i]} ∪ locks s) s).

(** [tempfile::Builder::tempdir_in]: draw suffixes until a name is free. *)
Fixpoint draw_temp_dir (prefix : string) (d : path) (names : list string) (s : fs)
    : result io_kind (path * fs) :=
  match names with
  | [] => Err AlreadyExists
  | suffix :: names' =>
      let p := d ++ [String.append prefix suffix] in
      match sys_create_dir p s with
      | Ok (_, s') => Ok (p, set_entropy names' s')
      | Err AlreadyExists => draw_temp_dir prefix d names' s
      | Err k => Err k
      end
  end.
Definition sys_temp_dir_in (prefix : string) (d : path) : call path := fun s =>
  draw_temp_dir prefix d (entropy s) s.
