(* ===== verification/Io.v ===== *)
(** * Fallible, interruptible programs over the file system

    [M E A] is a program that may end with a value, with an error it reports,
    or by a stop of the process at some system call.  The world carries a fault
    schedule, one entry per system call; an exhausted schedule means that every
    further call takes its normal course.

    [wp q m Q X C s] is the weakest precondition over file systems: from [s],
    [m] ends in [Q] with a value, in [X] with an error, in [C] when stopped.
    [q = true] ("quiet") restricts to the empty schedule, so one lemma about
    [wp q] states the behaviour under every fault and, at [q = true], that the
    program really returns. *)

From Stdlib Require Import ZArith Lia Ascii String.
From stdpp Require Import base tactics list gmap strings numbers.
From S2P Require Import Prelude.
From S2P Require Import Fs.

(** What the environment can make a call fail with; the other kinds are
    answers about the state, which a call gives only when they are true. *)
Inductive env_error := EPermissionDenied | EStorageFull | EIo.

Definition env_kind (e : env_error) : io_kind :=
  match e with
  | EPermissionDenied => PermissionDenied
  | EStorageFull => StorageFull
  | EIo => OtherIo
  end.

Inductive fault :=
| FNone
| FFail (e : env_error)
| FCrash
(** stop half way: a write after [n] bytes, a recursive removal after [n]
    entries; then report an error or stop the process *)
| FTorn (n : nat) (e : option env_error).

Record world := World { w_fs : fs; w_faults : list fault }.

Inductive outcome (E A : Type) : Type :=
| Done (a : A)
| Fail (e : E)
| Crash.
Arguments Done {E A} _.
Arguments Fail {E A} _.
Arguments Crash {E A}.

Definition M (E A : Type) : Type := world -> outcome E A * world.
Abbreviation IO := (M io_kind).

Definition mpure {E A} (a : A) : M E A := fun w => (Done a, w).
Definition mfail {E A} (e : E) : M E A := fun w => (Fail e, w).
Definition mthen {E A B} (m : M E A) (k : A -> M E B) : M E B := fun w =>
  match m w with
  | (Done a, w') => k a w'
  | (Fail e, w') => (Fail e, w')
  | (Crash, w') => (Crash, w')
  end.
(** [Result::map_err]. *)
Definition map_err {E E' A} (f : E -> E') (m : M E A) : M E' A := fun w =>
  match m w with
  | (Done a, w') => (Done a, w')
  | (Fail e, w') => (Fail (f e), w')
  | (Crash, w') => (Crash, w')
  end.
(** Inspect the result of a call instead of propagating its error. *)
Definition attempt {E E' A} (m : M E A) : M E' (result E A) := fun w =>
  match m w with
  | (Done a, w') => (Done (Ok a), w')
  | (Fail e, w') => (Done (Err e), w')
  | (Crash, w') => (Crash, w')
  end.
Definition lift {E A} (r : result E A) : M E A :=
  match r with Ok a => mpure a | Err e => mfail e end.

Notation "x <- m ;; k" := (mthen m (fun x => k))
  (at level 60, m at next level, right associativity) : offprint_scope.
Notation "m ;;; k" := (mthen m (fun _ => k))
  (at level 60, right associativity) : offprint_scope.

Fixpoint mfor {E A} (f : A -> M E unit) (l : list A) : M E unit :=
  match l with
  | [] => mpure tt
  | x :: l' => f x ;;; mfor f l'
  end.

Fixpoint mmap {E A B} (f : A -> M E B) (l : list A) : M E (list B) :=
  match l with
  | [] => mpure []
  | x :: l' => y <- f x ;; ys <- mmap f l' ;; mpure (y :: ys)
  end.

(** The file system of the moment, for steps that only look at it. *)
Definition get_fs {E} : M E fs := fun w => (Done (w_fs w), w).
(** Effects that are not system calls (the drop of a lock handle). *)
Definition modify_fs {E} (f : fs -> fs) : M E unit := fun w =>
  (Done tt, World (f (w_fs w)) (w_faults w)).

(** One system call under the schedule; [torn] is its half-way effect. *)
Definition sys_torn {A} (f : call A) (torn : nat -> fs -> fs) : IO A := fun w =>
  let w' := World (w_fs w) (tail (w_faults w)) in
  match w_faults w with
  | [] | FNone :: _ =>
      match f (w_fs w) with
      | Ok (a, s) => (Done a, World s (tail (w_faults w)))
      | Err k => (Fail k, w')
      end
  | FFail e :: _ => (Fail (env_kind e), w')
  | FCrash :: _ => (Crash, w')
  | FTorn n e :: _ =>
      let w'' := World (torn n (w_fs w)) (tail (w_faults w)) in
      match e with Some e => (Fail (env_kind e), w'') | None => (Crash, w'') end
  end.
Definition sys {A} (f : call A) : IO A := sys_torn f (fun _ s => s).

(** The calls the sources make. *)
Definition fs_symlink_metadata p : IO metadata := sys (sys_symlink_metadata p).
Definition fs_canonicalize p : IO path := sys (sys_canonicalize p).
Definition fs_read_dir p : IO (list string) := sys (sys_read_dir p).
Definition fs_read p : IO bytes := sys (sys_read p).
Definition fs_create_dir p : IO unit := sys (sys_create_dir p).
Definition fs_create_new p : IO nat := sys (sys_create_new p).
Definition fs_open_or_create p : IO nat := sys (sys_open_or_create p).
Definition fs_file_metadata i : IO metadata := sys (sys_file_metadata i).
Definition fs_sync_file i : IO unit := sys (sys_sync_file i).
Definition fs_sync_dir p : IO unit := sys (sys_sync_dir p).
Definition fs_rename p q : IO unit := sys (sys_rename p q).
Definition fs_hard_link p q : IO unit := sys (sys_hard_link p q).
Definition fs_remove_file p : IO unit := sys (sys_remove_file p).
Definition fs_remove_dir p : IO unit := sys (sys_remove_dir p).
Definition fs_try_lock i : IO unit := sys (sys_try_lock i).
Definition fs_temp_dir_in prefix d : IO path := sys (sys_temp_dir_in prefix d).
(** [Write::write_all]: a torn write leaves a prefix. *)
Definition fs_write_all (i : nat) (b : bytes) : IO unit :=
  sys_torn (sys_write i b) (fun n s => set_inode i (file_bytes s i ++ take n b) s).
Definition fs_remove_dir_all (p : path) : IO unit :=
  sys_torn (sys_remove_dir_all p) (torn_remove_dir_all p).

(** ** Weakest preconditions *)

Definition wp {E A} (q : bool) (m : M E A) (Q : A -> fs -> Prop) (X : E -> fs -> Prop)
    (C : fs -> Prop) (s : fs) : Prop :=
  forall l, (q = true -> l = []) ->
    match m (World s l) with
    | (Done a, w) => (q = true -> w_faults w = []) /\ Q a (w_fs w)
    | (Fail e, w) => (q = true -> w_faults w = []) /\ X e (w_fs w)
    | (Crash, w) => q = false /\ C (w_fs w)
    end.

Section Wp.
Context {E : Type} (q : bool).
Implicit Types (s : fs) (C : fs -> Prop).

Lemma wp_mono {A} (m : M E A) Q Q' X X' C C' s :
  wp q m Q X C s ->
  (forall a s, Q a s -> Q' a s) -> (forall e s, X e s -> X' e s) ->
  (q = false -> forall s, C s -> C' s) ->
  wp q m Q' X' C' s.
Proof.
  intros H HQ HX HC l Hl. specialize (H l Hl).
  destruct (m (World s l)) as [[a|e|] w]; naive_solver.
Qed.

Lemma wp_pure {A} (a : A) (Q : A -> fs -> Prop) (X : E -> fs -> Prop) C s :
  Q a s -> wp q (mpure a) Q X C s.
Proof. intros H l Hl; simpl. auto. Qed.

Lemma wp_fail {A} (e : E) (Q : A -> fs -> Prop) (X : E -> fs -> Prop) C s :
  X e s -> wp q (mfail e) Q X C s.
Proof. intros H l Hl; simpl. auto. Qed.

Lemma wp_then {A B} (m : M E A) (k : A -> M E B) Q X C s :
  wp q m (fun a s' => wp q (k a) Q X C s') X C s -> wp q (mthen m k) Q X C s.
Proof.
  intros H l Hl. specialize (H l Hl). unfold mthen.
  destruct (m (World s l)) as [[a|e|] [s' l']]; simpl in *; [|done..].
  destruct H as [Hl' H]. by apply H.
Qed.

Lemma wp_map_err {E'} {A} (f : E' -> E) (m : M E' A) Q X C s :
  wp q m Q (fun e s' => X (f e) s') C s -> wp q (map_err f m) Q X C s.
Proof.
  intros H l Hl. specialize (H l Hl). unfold map_err.
  by destruct (m (World s l)) as [[a|e|] w].
Qed.

Lemma wp_attempt {E'} {A} (m : M E' A) (Q : result E' A -> fs -> Prop)
    (X : E -> fs -> Prop) C s :
  wp q m (fun a s' => Q (Ok a) s') (fun e s' => Q (Err e) s') C s ->
  wp q (attempt m) Q X C s.
Proof.
  intros H l Hl. specialize (H l Hl). unfold attempt.
  by destruct (m (World s l)) as [[a|e|] w].
Qed.

Lemma wp_lift {A} (r : result E A) (Q : A -> fs -> Prop) (X : E -> fs -> Prop) C s :
  (forall a, r = Ok a -> Q a s) -> (forall e, r = Err e -> X e s) ->
  wp q (lift r) Q X C s.
Proof. intros HQ HX. destruct r; [apply wp_pure|apply wp_fail]; auto. Qed.

Lemma wp_get_fs (Q : fs -> fs -> Prop) (X : E -> fs -> Prop) C s :
  Q s s -> wp q get_fs Q X C s.
Proof. intros H l Hl; simpl; auto. Qed.

Lemma wp_modify_fs (f : fs -> fs) (Q : unit -> fs -> Prop) (X : E -> fs -> Prop) C s :
  Q tt (f s) -> wp q (modify_fs f) Q X C s.
Proof. intros H l Hl; simpl; auto. Qed.

(** A loop with an invariant over the items still to come. *)
Lemma wp_for {A} (f : A -> M E unit) (I : list A -> fs -> Prop) Q X C l s :
  I l s ->
  (forall x l' s, I (x :: l') s -> wp q (f x) (fun _ s' => I l' s') X C s) ->
  (forall s, I [] s -> Q tt s) ->
  wp q (mfor f l) Q X C s.
Proof.
  intros HI Hstep Hend. revert s HI.
  induction l as [|x l IH]; intros s HI; simpl; [by apply wp_pure, Hend|].
  apply wp_then. eapply wp_mono; [by apply Hstep|auto..].
Qed.
End Wp.

Lemma wp_sys_torn {A} q (f : call A) torn (Q : A -> fs -> Prop) (X : io_kind -> fs -> Prop) C s :
  (forall a s', f s = Ok (a, s') -> Q a s') ->
  (forall k, f s = Err k -> X k s) ->
  (q = false -> (forall e, X (env_kind e) s) /\ C s /\
     forall n, (forall e, X (env_kind e) (torn n s)) /\ C (torn n s)) ->
  wp q (sys_torn f torn) Q X C s.
Proof.
  intros HQ HX HF l Hl. unfold sys_torn; simpl.
  destruct l as [|[|k| |n k] l]; simpl.
  - destruct (f s) as [[a s']|k] eqn:Hf; simpl; auto.
  - destruct q; [by specialize (Hl eq_refl)|].
    destruct (f s) as [[a s']|k] eqn:Hf; simpl; (split; [done|auto]).
  - destruct q; [by specialize (Hl eq_refl)|]. naive_solver.
  - destruct q; [by specialize (Hl eq_refl)|]. naive_solver.
  - destruct q; [by specialize (Hl eq_refl)|].
    destruct HF as (_ & _ & HF); [done|]. specialize (HF n).
    destruct k; simpl; naive_solver.
Qed.

Lemma wp_sys {A} q (f : call A) (Q : A -> fs -> Prop) (X : io_kind -> fs -> Prop) C s :
  (forall a s', f s = Ok (a, s') -> Q a s') ->
  (forall k, f s = Err k -> X k s) ->
  (q = false -> (forall e, X (env_kind e) s) /\ C s) ->
  wp q (sys f) Q X C s.
Proof. intros HQ HX HF. apply wp_sys_torn; [done..|]. naive_solver. Qed.

(** Running a program: what [wp] says of one schedule, and of none. *)
Lemma wp_run {E A} q (m : M E A) Q X C s l :
  wp q m Q X C s -> (q = true -> l = []) ->
  match m (World s l) with
  | (Done a, w) => Q a (w_fs w)
  | (Fail e, w) => X e (w_fs w)
  | (Crash, w) => C (w_fs w)
  end.
Proof.
  intros H Hl. specialize (H l Hl).
  destruct (m (World s l)) as [[a|e|] w]; naive_solver.
Qed.

Lemma wp_run_quiet {E A} (m : M E A) Q s :
  wp true m Q (fun _ _ => False) (fun _ => False) s ->
  exists a s', m (World s []) = (Done a, World s' []) /\ Q a s'.
Proof.
  intros H. specialize (H [] (fun _ => eq_refl)).
  destruct (m (World s [])) as [[a|e|] [s' l]]; simpl in H; [|naive_solver..].
  destruct H as [Hl H]. rewrite (Hl eq_refl). eauto.
Qed.

(** ** Which errors a program reports *)

Definition errs {E A} (Pe : E -> Prop) (m : M E A) : Prop :=
  forall w, match m w with (Fail e, _) => Pe e | _ => True end.

Section Errs.
Context {E : Type} (Pe : E -> Prop).

Lemma errs_pure {A} (a : A) : errs Pe (mpure a).
Proof. by intros w. Qed.
Lemma errs_fail {A} e : Pe e -> errs (A:=A) Pe (mfail e).
Proof. by intros H w. Qed.
Lemma errs_then {A B} (m : M E A) (k : A -> M E B) :
  errs Pe m -> (forall a, errs Pe (k a)) -> errs Pe (mthen m k).
Proof.
  intros Hm Hk w. specialize (Hm w). unfold mthen.
  destruct (m w) as [[a|e|] w']; [apply Hk|done..].
Qed.
Lemma errs_map_err {E' A} (f : E' -> E) (m : M E' A) :
  (forall e, Pe (f e)) -> errs Pe (map_err f m).
Proof. intros Hf w. unfold map_err. by destruct (m w) as [[a|e|] w']. Qed.
Lemma errs_attempt {E' A} (m : M E' A) : errs Pe (attempt m).
Proof. intros w. unfold attempt. by destruct (m w) as [[a|e|] w']. Qed.
Lemma errs_for {A} (f : A -> M E unit) l : (forall x, errs Pe (f x)) -> errs Pe (mfor f l).
Proof.
  intros Hf. induction l as [|x l IH]; simpl; [apply errs_pure|by apply errs_then].
Qed.
Lemma errs_lift {A} (r : result E A) :
  match r with Ok _ => True | Err e => Pe e end -> errs Pe (lift r).
Proof. destruct r; [intros _; apply errs_pure|apply errs_fail]. Qed.
End Errs.

Lemma wp_errs {E A} q (Pe : E -> Prop) (m : M E A) Q X C s :
  errs Pe m -> wp q m Q (fun e s' => Pe e -> X e s') C s -> wp q m Q X C s.
Proof.
  intros He Hm l Hl. specialize (He (World s l)). specialize (Hm l Hl).
  destruct (m (World s l)) as [[a|e|] w]; naive_solver.
Qed.

(** Step through a program: one monadic connective at a time. *)
Ltac wp_step :=
  match goal with
  | |- wp _ (mthen _ _) _ _ _ _ => apply wp_then
  | |- wp _ (map_err _ _) _ _ _ _ => apply wp_map_err
  | |- wp _ (attempt _) _ _ _ _ => apply wp_attempt
  | |- wp _ (mpure _) _ _ _ _ => apply wp_pure
  | |- wp _ (mfail _) _ _ _ _ => apply wp_fail
  | |- wp _ get_fs _ _ _ _ => apply wp_get_fs
  | |- wp _ (modify_fs _) _ _ _ _ => apply wp_modify_fs
  end.
Ltac wp_steps := repeat wp_step.

Ltac errs_step :=
  match goal with
  | |- errs _ (mthen _ _) => apply errs_then; [|intros ?]
  | |- errs _ (map_err _ _) => apply errs_map_err; intros ?
  | |- errs _ (attempt _) => apply errs_attempt
  | |- errs _ (mpure _) => apply errs_pure
  | |- errs _ (mfail _) => apply errs_fail
  | |- errs _ (mfor _ _) => apply errs_for; intros ?
  | |- errs _ (lift _) => apply errs_lift
  | |- errs _ (match ?x with _ => _ end) => destruct x
  end.
Ltac errs_steps := repeat errs_step.
