(* ===== verification/FsFacts.v ===== *)
(** * Facts about the file-system tree and its calls

    Lookup laws for [tput], resolution of paths without symbolic links, and
    rules for the system calls at such paths. *)

From Stdlib Require Import ZArith Lia Ascii String.
From stdpp Require Import base tactics list gmap strings numbers.
From S2P Require Import Prelude.
From S2P Require Import Fs.
From S2P Require Import Io.

(** ** Paths *)

Lemma split_last_app d c : split_last (d ++ [c]) = Some (d, c).
Proof. induction d as [|x d IH]; simpl; [done|]. by rewrite IH. Qed.

Lemma parent_app d c : parent (d ++ [c]) = d.
Proof. unfold parent. by rewrite split_last_app. Qed.

Lemma file_name_app d c : file_name (d ++ [c]) = Some c.
Proof. unfold file_name. by rewrite split_last_app. Qed.

(** Neither path lies below the other. *)
Definition disjoint_paths (p q : path) : Prop :=
  ~ p `prefix_of` q /\ ~ q `prefix_of` p.

Lemma disjoint_paths_sym p q : disjoint_paths p q -> disjoint_paths q p.
Proof. unfold disjoint_paths. tauto. Qed.

Lemma prefix_app_split (p q x : path) :
  p `prefix_of` q ++ x -> p `prefix_of` q \/ q `prefix_of` p.
Proof. intros H. by apply (prefix_weak_total _ _ (q ++ x)); [|apply prefix_app_r]. Qed.

Lemma disjoint_paths_app p q x y :
  disjoint_paths p q -> disjoint_paths (p ++ x) (q ++ y).
Proof.
  intros [H1 H2]; split; intros H.
  - assert (p `prefix_of` q ++ y) as Hp.
    { etransitivity; [apply prefix_app_r; reflexivity|done]. }
    destruct (prefix_app_split _ _ _ Hp); naive_solver.
  - assert (q `prefix_of` p ++ x) as Hq.
    { etransitivity; [apply prefix_app_r; reflexivity|done]. }
    destruct (prefix_app_split _ _ _ Hq); naive_solver.
Qed.

Lemma disjoint_paths_app_l p q x : disjoint_paths p q -> disjoint_paths (p ++ x) q.
Proof. intros H. rewrite <- (app_nil_r q). by apply disjoint_paths_app. Qed.

Lemma disjoint_paths_app_r p q y : disjoint_paths p q -> disjoint_paths p (q ++ y).
Proof. intros H. rewrite <- (app_nil_r p). by apply disjoint_paths_app. Qed.

Lemma disjoint_paths_cons d a b x y :
  a <> b -> disjoint_paths (d ++ a :: x) (d ++ b :: y).
Proof. intros Hab. split; intros H%prefix_app_inv%prefix_cons_inv_1; congruence. Qed.

(** ** Lookup and update *)

Lemma tget_app n p q : tget n (p ++ q) = tget n p ≫= fun n' => tget n' q.
Proof.
  revert n; induction p as [|c p IH]; intros n; simpl; [done|].
  destruct n as [|m| |]; simpl; try done.
  destruct (m !! c); simpl; auto.
Qed.

Lemma tget_snoc n d c m : tget n d = Some (NDir m) -> tget n (d ++ [c]) = m !! c.
Proof. intros H. rewrite tget_app, H. simpl. by destruct (m !! c). Qed.

Lemma tget_prefix_dir n p c q x :
  tget n (p ++ c :: q) = Some x -> exists m, tget n p = Some (NDir m).
Proof.
  rewrite tget_app. intros (y & Hy & Hx)%bind_Some.
  simpl in Hx. destruct y; naive_solver.
Qed.

Lemma tput_cons m c p v :
  p <> [] ->
  tput (NDir m) (c :: p) v = (n' ← m !! c; n'' ← tput n' p v; Some (NDir (<[c := n'']> m))).
Proof. by destruct p. Qed.

Lemma tput_Some_ex n d m c v :
  tget n d = Some (NDir m) -> exists n', tput n (d ++ [c]) v = Some n'.
Proof.
  revert n; induction d as [|a d IH]; intros n Hd.
  - simpl in Hd. injection Hd as ->. simpl. eauto.
  - simpl in Hd. destruct n as [|m'| |]; try done.
    apply bind_Some in Hd as (x & Hx & Hd). destruct (IH _ Hd) as [n' Hn'].
    rewrite <- app_comm_cons, tput_cons by (by destruct d). rewrite Hx; simpl.
    rewrite Hn'; simpl. eauto.
Qed.

(** Zooming into a directory: an update below [d] is the same update of the
    subtree at [d]. *)
Lemma tput_zoom n d p v n' :
  tput n (d ++ p) v = Some n' -> p <> [] ->
  tget n' d = tget n d ≫= fun x => tput x p v.
Proof.
  revert n n'; induction d as [|a d IH]; intros n n' H Hp; simpl in *; [by rewrite H|].
  destruct n as [|m| |]; [done| |done..].
  destruct (d ++ p) as [|b r] eqn:Hdp; [by destruct d|].
  apply bind_Some in H as (x & Hx & H). apply bind_Some in H as (y & Hy & [= <-]).
  rewrite lookup_insert_eq, Hx; simpl. by apply IH.
Qed.

Lemma tput_parent_dir n d c v n' :
  tput n (d ++ [c]) v = Some n' -> exists m, tget n d = Some (NDir m).
Proof.
  revert n n'; induction d as [|a d IH]; intros n n' H; simpl in H.
  - destruct n; naive_solver.
  - destruct n as [|m| |]; try done.
    destruct (d ++ [c]) as [|b r] eqn:Hdp; [by destruct d|].
    apply bind_Some in H as (x & Hx & H). apply bind_Some in H as (y & Hy & _).
    simpl. rewrite Hx; simpl. eauto.
Qed.

Lemma tput_snoc n d c v m n' :
  tput n (d ++ [c]) v = Some n' -> tget n d = Some (NDir m) ->
  tget n' d = Some (NDir (partial_alter (fun _ => v) c m)).
Proof. intros H Hd. by rewrite (tput_zoom _ _ _ _ _ H), Hd. Qed.

Lemma tget_tput_same n p v n' : tput n p v = Some n' -> tget n' p = v.
Proof.
  destruct (decide (p = [])) as [->|Hp]; [done|].
  destruct (exists_last Hp) as (d & c & ->). intros H.
  destruct (tput_parent_dir _ _ _ _ _ H) as [m Hm].
  by rewrite (tget_snoc _ _ _ _ (tput_snoc _ _ _ _ _ _ H Hm)), lookup_partial_alter_eq.
Qed.

Lemma tget_tput_other n p v n' q :
  tput n p v = Some n' -> disjoint_paths p q -> tget n' q = tget n q.
Proof.
  revert n n' q; induction p as [|a p IH]; intros n n' q H [Hpq Hqp]; [done|].
  destruct n as [|m| |]; try done.
  destruct q as [|b q]; [by destruct Hqp; apply prefix_nil|].
  destruct (decide (a = b)) as [->|Hab].
  - destruct p as [|c p]; [by destruct Hpq; exists q|].
    rewrite tput_cons in H by done.
    apply bind_Some in H as (x & Hx & H). apply bind_Some in H as (y & Hy & [= <-]).
    simpl. rewrite lookup_insert_eq, Hx; simpl. eapply IH; [done|].
    split; intros Hc; [apply Hpq|apply Hqp]; by apply prefix_cons.
  - destruct p as [|c p].
    + simpl in H. injection H as <-. simpl. by rewrite lookup_partial_alter_ne.
    + rewrite tput_cons in H by done.
      apply bind_Some in H as (x & Hx & H). apply bind_Some in H as (y & Hy & [= <-]).
      simpl. by rewrite lookup_insert_ne.
Qed.

(** ** Resolution *)

Definition not_symlink (n : node) : Prop :=
  match n with NSymlink _ => False | _ => True end.

Lemma resolve_direct hops t n rest done :
  tget t (done ++ rest) = Some n -> not_symlink n ->
  resolve hops t done rest = Ok (done ++ rest).
Proof.
  revert done; induction rest as [|c rest IH]; intros done H Hn; simpl.
  - destruct hops; simpl; by rewrite app_nil_r.
  - assert (Hstep : exists x, tget t (done ++ [c]) = Some x /\ not_symlink x).
    { destruct rest as [|c' rest]; [eauto|].
      replace (done ++ c :: c' :: rest) with ((done ++ [c]) ++ c' :: rest) in H
        by (by rewrite <- app_assoc).
      destruct (tget_prefix_dir _ _ _ _ _ H) as [m Hm]. by exists (NDir m). }
    destruct Hstep as (x & Hx & Hns).
    replace (done ++ c :: rest) with ((done ++ [c]) ++ rest) in * by (by rewrite <- app_assoc).
    specialize (IH _ H Hn). destruct hops; simpl in *; rewrite Hx; by destruct x.
Qed.

Lemma canonicalize_direct t p n :
  tget t p = Some n -> not_symlink n -> canonicalize t p = Ok p.
Proof. intros H Hn. unfold canonicalize. by rewrite (resolve_direct _ _ n). Qed.

Lemma locate_direct t d c m :
  tget t d = Some (NDir m) -> locate t (d ++ [c]) = Ok (d ++ [c]).
Proof.
  intros H. unfold locate. rewrite split_last_app, (canonicalize_direct _ _ _ H); [|done].
  simpl. by rewrite H.
Qed.

Lemma resolve_missing hops t m c rest done :
  tget t (done ++ rest) = Some (NDir m) -> m !! c = None ->
  resolve hops t done (rest ++ [c]) = Err NotFound.
Proof.
  revert done; induction rest as [|a rest IH]; intros done H Hc; simpl.
  - rewrite app_nil_r in H. destruct hops; simpl; by rewrite (tget_snoc _ _ _ _ H), Hc.
  - assert (Hstep : exists x, tget t (done ++ [a]) = Some (NDir x)).
    { destruct rest as [|b rest]; [eauto|].
      replace (done ++ a :: b :: rest) with ((done ++ [a]) ++ b :: rest) in H
        by (by rewrite <- app_assoc).
      by apply tget_prefix_dir in H. }
    destruct Hstep as (x & Hx).
    replace (done ++ a :: rest) with ((done ++ [a]) ++ rest) in H by (by rewrite <- app_assoc).
    specialize (IH _ H Hc). destruct hops; simpl in *; by rewrite Hx.
Qed.

Lemma locate_missing t d c c' m :
  tget t d = Some (NDir m) -> m !! c = None -> locate t (d ++ [c; c']) = Err NotFound.
Proof.
  intros H Hc. replace (d ++ [c; c']) with ((d ++ [c]) ++ [c']) by (by rewrite <- app_assoc).
  unfold locate. rewrite split_last_app. unfold canonicalize.
  by rewrite (resolve_missing _ _ m).
Qed.

(** The subtree at a path, and a path whose parent is a plain directory. *)
Abbreviation sub s p := (tget (tree s) p).

Lemma lookup_nofollow_direct s d c m :
  sub s d = Some (NDir m) -> lookup_nofollow s (d ++ [c]) = ok_or (m !! c) NotFound.
Proof.
  intros H. unfold lookup_nofollow. rewrite (locate_direct _ _ _ _ H). simpl.
  by rewrite (tget_snoc _ _ _ _ H).
Qed.

Lemma lookup_follow_direct s p n :
  sub s p = Some n -> not_symlink n -> lookup_follow s p = Ok n.
Proof.
  intros H Hn. unfold lookup_follow. rewrite (canonicalize_direct _ _ _ H Hn).
  simpl. by rewrite H.
Qed.
