(* ===== verification/Records.v ===== *)
(** * Canonical records shared by the delivery components

    Models the value types of [offprint-rs/model] that cross into the delivery
    crate: digests, conflict policies, formats and verification records.  The
    SHA-256 implementation ([sha2]) and the hexadecimal printer ([hex]) are
    third-party code and enter as parameters. *)

From Stdlib Require Import ZArith Lia Ascii String.
From stdpp Require Import base tactics list gmap strings numbers.
From S2P Require Import Prelude.
From S2P Require Import Fs.

(** The thirty-two bytes of a digest. *)
Record ContentDigest := MkDigest { digest_bytes : bytes }.

#[export] Instance ContentDigest_eq_dec : EqDecision ContentDigest.
Proof. solve_decision. Defined.

(** [sha2::Sha256]: a streaming hasher is the text it has been fed, and
    [finalize] hashes that text; [hex::encode]. *)
Class Hashing := {
  sha256_raw : bytes -> bytes;
  hex_encode : bytes -> string;
}.

(** [ContentDigest::sha256], which is also [from_bytes] of a finalised hasher. *)
Definition sha256 `{Hashing} (b : bytes) : ContentDigest := MkDigest (sha256_raw b).

Definition to_hex `{Hashing} (d : ContentDigest) : string := hex_encode (digest_bytes d).

Inductive ConflictPolicy := ConflictFail | ConflictReplace | ConflictUniquify.

#[export] Instance ConflictPolicy_eq_dec : EqDecision ConflictPolicy.
Proof. solve_decision. Defined.

Inductive ArtifactFormat := Html | Pdf | Markdown | Zip | SelfExtractingHtml | Mhtml.

#[export] Instance ArtifactFormat_eq_dec : EqDecision ArtifactFormat.
Proof. solve_decision. Defined.

Record FormatVerification := MkVerification {
  fv_format : ArtifactFormat;
  fv_bytes : Z;
  fv_sha256 : ContentDigest;
}.

#[export] Instance FormatVerification_eq_dec : EqDecision FormatVerification.
Proof. solve_decision. Defined.

Record ExportedArtifact := MkExported {
  ea_format : ArtifactFormat;
  ea_path : path;
  ea_entrypoint : path;
  ea_bytes : Z;
  ea_sha256 : ContentDigest;
  ea_verification : FormatVerification;
}.

(** [Path::to_string_lossy] of an absolute path. *)
Definition path_string (p : path) : string :=
  match p with
  | [] => "/"%string
  | _ => String.concat "" (map (String.append "/"%string) p)
  end.

(** [Path::components] of a relative or absolute text. *)
Inductive Component := RootDir | CurDir | ParentDir | Normal (c : string).

Definition segment_component (first : bool) (c : string) : option Component :=
  if bool_decide (c = ""%string) then None
  else if bool_decide (c = "."%string) then (if first then Some CurDir else None)
  else if bool_decide (c = ".."%string) then Some ParentDir
  else Some (Normal c).

Definition components (p : string) : list Component :=
  match split "/" p with
  | [] => []
  | c :: cs =>
      (if starts_with "/"%string p then [RootDir] else [])
      ++ omap (fun x => x)
           (segment_component (negb (starts_with "/"%string p)) c
              :: map (segment_component false) cs)
  end.

(** [Path::file_stem] and [Path::extension] of a file name: cut at the last
    dot, unless it is the first byte. *)
Fixpoint cut_last_dot (l : bytes) : option (bytes * bytes) :=
  match l with
  | [] => None
  | c :: l' =>
      match cut_last_dot l' with
      | Some (before, after) => Some (c :: before, after)
      | None => if decide (c = "."%char) then Some ([], l') else None
      end
  end.

Definition split_at_dot (name : string) : option string * option string :=
  if bool_decide (name = ".."%string) then (Some name, None)
  else
    match cut_last_dot (as_bytes name) with
    | None => (None, Some name)
    | Some ([], _) => (Some name, None)
    | Some (before, after) =>
        (Some (string_of_list_ascii before), Some (string_of_list_ascii after))
    end.

Definition file_stem (name : string) : string :=
  match split_at_dot name with
  | (Some before, _) => before
  | (None, Some after) => after
  | (None, None) => ""%string
  end.

Definition extension (name : string) : option string :=
  match split_at_dot name with
  | (Some _, after) => after
  | (None, _) => None
  end.

(** [str::strip_prefix]. *)
Definition strip_prefix (pre s : string) : option string :=
  if starts_with pre s
  then Some (String.substring (String.length pre) (String.length s - String.length pre) s)
  else None.
