(* ===== verification/Durable.v ===== *)
(** * Durable file-system steps

    Models [offprint-rs/artifact/src/multi_output/durable.rs] on Linux (where
    directory synchronisation is available): every mutation of an export
    transaction goes through these steps. *)

From Stdlib Require Import ZArith Lia Ascii String.
From stdpp Require Import base tactics list gmap strings numbers sorting.
From S2P Require Import Prelude.
From S2P Require Import Errors.
From S2P Require Import Fs.
From S2P Require Import Io.
From S2P Require Import Records.

Abbreviation R := (M OffprintError).

#[local] Open Scope string_scope.
#[local] Open Scope Z_scope.
#[local] Open Scope list_scope.

(** [{:?}] of [std::io::ErrorKind]. *)
Definition io_kind_name (k : io_kind) : string :=
  match k with
  | NotFound => "NotFound" | AlreadyExists => "AlreadyExists"
  | NotADirectory => "NotADirectory" | IsADirectory => "IsADirectory"
  | DirectoryNotEmpty => "DirectoryNotEmpty" | PermissionDenied => "PermissionDenied"
  | WouldBlock => "WouldBlock" | InvalidInput => "InvalidInput"
  | FilesystemLoop => "FilesystemLoop" | StorageFull => "StorageFull"
  | OtherIo => "Other"
  end.

Definition io_error (stage : ErrorStage) (k : io_kind) : OffprintError :=
  with_detail "ioKind" (DStr (io_kind_name k)) (new_error "offprint.export.output" stage).

Definition sync_directory (p : path) (stage : ErrorStage) : R unit :=
  map_err (io_error stage) (fs_sync_dir p).

Definition sync_parent (p : path) (stage : ErrorStage) : R unit :=
  sync_directory (parent p) stage.

Definition create_directory (p : path) (stage : ErrorStage) : R unit :=
  map_err (io_error stage) (fs_create_dir p) ;;;
  sync_parent p stage ;;;
  sync_directory p stage.

Definition write_new_file (p : path) (b : bytes) (stage : ErrorStage) : R unit :=
  i <- map_err (io_error stage) (fs_create_new p) ;;
  map_err (io_error stage) (fs_write_all i b) ;;;
  map_err (io_error stage) (fs_sync_file i) ;;;
  sync_parent p stage.

Inductive DurabilityOutcome := Synced | AppliedWithSyncWarning.

(** [durable_rename_with], over the directory synchroniser it is given. *)
Definition durable_rename_with (source destination : path)
    (sync : path -> ErrorStage -> R unit) : R DurabilityOutcome :=
  let source_parent := parent source in
  let destination_parent := parent destination in
  sync source_parent Commit ;;;
  (if decide (destination_parent = source_parent) then mpure tt
   else sync destination_parent Commit) ;;;
  map_err (io_error Commit) (fs_rename source destination) ;;;
  warning <- attempt (sync source_parent Commit) ;;
  warning <-
    (if decide (destination_parent = source_parent) then mpure warning
     else match warning with
          | Err e => mpure (Err e)
          | Ok _ => attempt (sync destination_parent Commit)
          end) ;;
  mpure (match warning with Err _ => AppliedWithSyncWarning | Ok _ => Synced end).

Definition durable_rename (source destination : path) : R DurabilityOutcome :=
  durable_rename_with source destination sync_directory.

Definition durable_hard_link (source destination : path) : R DurabilityOutcome :=
  let source_parent := parent source in
  let destination_parent := parent destination in
  sync_directory source_parent Commit ;;;
  (if decide (destination_parent = source_parent) then mpure tt
   else sync_directory destination_parent Commit) ;;;
  map_err (io_error Commit) (fs_hard_link source destination) ;;;
  synced <- attempt (sync_directory destination_parent Commit) ;;
  mpure (match synced with Ok _ => Synced | Err _ => AppliedWithSyncWarning end).

Definition remove_direct_path (p : path) : R unit :=
  m <- map_err (io_error Commit) (fs_symlink_metadata p) ;;
  if m_is_symlink m || m_is_file m then map_err (io_error Commit) (fs_remove_file p)
  else if m_is_dir m then map_err (io_error Commit) (fs_remove_dir_all p)
  else mfail (new_error "offprint.export.output" Commit).

Definition is_journal_name (name : string) : bool :=
  starts_with "journal-" name && ends_with ".json" name.

(** [Vec::sort] on the entries of one directory, which orders by name. *)
Definition sort_names (l : list string) : list string := merge_sort string_le l.

(** Everything but the journals goes first, then the journals from the oldest
    to the newest, then the directory itself. *)
Definition cleanup_transaction_root (root : path) : R unit :=
  names <- map_err (io_error Commit) (fs_read_dir root) ;;
  let journals := sort_names (List.filter is_journal_name names) in
  let other := sort_names (List.filter (fun n => negb (is_journal_name n)) names) in
  mfor (fun n => remove_direct_path (join root n)) other ;;;
  sync_directory root Commit ;;;
  mfor (fun n => remove_direct_path (join root n) ;;; sync_directory root Commit)
    journals ;;;
  map_err (io_error Commit) (fs_remove_dir root) ;;;
  sync_directory (parent root) Commit.

(** ** Prepared payloads

    Models [offprint-rs/artifact/src/multi_output/payload.rs]: the limits of a
    transaction, the checked constructors of file and directory payloads, and
    the digest of a directory. *)

Inductive OutputKind := OFile | ODirectory.

#[export] Instance OutputKind_eq_dec : EqDecision OutputKind.
Proof. solve_decision. Defined.

Record ArtifactTransactionLimits := MkLimits {
  maximum_files : Z;
  maximum_bytes : Z;
}.

Record ArtifactDirectory := MkArtifactDirectory {
  ad_files : gmap string bytes;
  ad_directories : Z;
  ad_bytes : Z;
  ad_sha256 : ContentDigest;
}.

Inductive PreparedPayload :=
| PFile (content : bytes)
| PDirectory (entrypoint : string) (directory : ArtifactDirectory).

Record PreparedArtifact := MkPrepared {
  pa_name : string;
  pa_payload : PreparedPayload;
  pa_verification : FormatVerification;
}.

Definition payload_error : OffprintError := new_error "offprint.export.output" Encoding.

(** Iteration over a [BTreeMap<String, _>] is in key order. *)
Definition entry_le {A} (x y : string * A) : Prop := string_le (fst x) (fst y).
#[export] Instance entry_le_dec {A} : RelDecision (@entry_le A).
Proof. intros x y. unfold entry_le. apply _. Defined.
Definition btree_entries {A} (m : gmap string A) : list (string * A) :=
  merge_sort entry_le (map_to_list m).

Definition validate_output_name (name : string) : Res unit :=
  if bool_decide (name = "") || bool_decide (name = ".") || bool_decide (name = "..")
     || has_char "/" name || has_char "\" name
  then Err payload_error else Ok tt.

Definition bad_component (c : string) : bool :=
  bool_decide (c = "") || bool_decide (c = ".") || bool_decide (c = "..").

Definition portable_relative (p : string) : bool :=
  negb (bool_decide (p = "") || starts_with "/" p || ends_with "/" p || has_char "\" p
        || existsb bad_component (split "/" p)).

Definition validate_relative_file (p : string) : Res unit :=
  if portable_relative p then Ok tt else Err payload_error.

(** The directory part of one file path, component by component. *)
Fixpoint collect_prefixes (files : gmap string bytes) (pre : string) (cs : list string)
    (dirs : gset string) : Res (gset string) :=
  match cs with
  | [] | [_] => Ok dirs
  | c :: cs' =>
      let pre' := if bool_decide (pre = "") then c else pre +:+ "/" +:+ c in
      match files !! pre' with
      | Some _ => Err payload_error
      | None => collect_prefixes files pre' cs' ({[pre']} ∪ dirs)
      end
  end.

Fixpoint validate_paths (files : gmap string bytes) (ps : list string)
    (dirs : gset string) : Res (gset string) :=
  match ps with
  | [] => Ok dirs
  | p :: ps' =>
      do? validate_relative_file p ;;
      dirs' <-? collect_prefixes files "" (split "/" p) dirs ;;
      validate_paths files ps' dirs'
  end.

Definition validate_directory_files (files : gmap string bytes) : Res Z :=
  if bool_decide (files = ∅) then Err payload_error
  else
    dirs <-? validate_paths files (btree_entries files).*1 ∅ ;;
    Ok (Z.of_nat (size dirs)).

(** Root files before nested ones, then by name. *)
Definition depth_name_le (a b : string) : Prop :=
  let da := count_char "/" a in
  let db := count_char "/" b in
  (da < db)%nat \/ (da = db /\ string_le a b).
#[export] Instance depth_name_le_dec : RelDecision depth_name_le.
Proof. intros a b. unfold depth_name_le. apply _. Defined.

Definition depth_entry_le {A} (x y : string * A) : Prop := depth_name_le (fst x) (fst y).
#[export] Instance depth_entry_le_dec {A} : RelDecision (@depth_entry_le A).
Proof. intros x y. unfold depth_entry_le. apply _. Defined.

(** What one file contributes to the directory hasher. *)
Definition hash_chunk (p : string) (content : bytes) : bytes :=
  as_bytes p ++ ["000"%char] ++ to_le_bytes (len_u64 content) ++ content.

Definition directory_digest `{Hashing} (files : gmap string bytes) : Z * ContentDigest :=
  let ordered := merge_sort depth_entry_le (btree_entries files) in
  let text := concat (map (fun '(p, content) => hash_chunk p content) ordered) in
  let total :=
    fold_left (fun n '(_, content) => saturating_add u64_max n (len_u64 content))
      ordered 0 in
  (total, sha256 text).

(** [ArtifactDirectory::new] and its accessors. *)
Definition artifact_directory_new `{Hashing} (files : gmap string bytes)
    : Res ArtifactDirectory :=
  directories <-? validate_directory_files files ;;
  let (b, d) := directory_digest files in
  Ok (MkArtifactDirectory files directories b d).

Definition ad_file_count (d : ArtifactDirectory) : Z := Z.of_nat (size (ad_files d)).
Definition ad_contains (d : ArtifactDirectory) (p : string) : bool :=
  bool_decide (is_Some (ad_files d !! p)).

Definition validate_verification (v : FormatVerification) (b : Z) (d : ContentDigest)
    : Res unit :=
  if negb (fv_bytes v =? b) || negb (bool_decide (fv_sha256 v = d))
  then Err payload_error else Ok tt.

(** [PreparedArtifact::file] and [PreparedArtifact::directory]. *)
Definition prepared_file `{Hashing} (name : string) (content : bytes)
    (v : FormatVerification) : Res PreparedArtifact :=
  do? validate_output_name name ;;
  do? validate_verification v (len_u64 content) (sha256 content) ;;
  Ok (MkPrepared name (PFile content) v).

Definition prepared_directory (name entrypoint : string) (d : ArtifactDirectory)
    (v : FormatVerification) : Res PreparedArtifact :=
  do? validate_output_name name ;;
  do? validate_relative_file entrypoint ;;
  if ad_contains d entrypoint then
    do? validate_verification v (ad_bytes d) (ad_sha256 d) ;;
    Ok (MkPrepared name (PDirectory entrypoint d) v)
  else Err payload_error.

Definition pa_output_kind (a : PreparedArtifact) : OutputKind :=
  match pa_payload a with PFile _ => OFile | PDirectory _ _ => ODirectory end.
Definition pa_file_count (a : PreparedArtifact) : Z :=
  match pa_payload a with PFile _ => 1 | PDirectory _ d => ad_file_count d end.
Definition pa_directory_count (a : PreparedArtifact) : Z :=
  match pa_payload a with PFile _ => 0 | PDirectory _ d => ad_directories d end.
Definition pa_entrypoint (a : PreparedArtifact) : option string :=
  match pa_payload a with PFile _ => None | PDirectory e _ => Some e end.
