(* ===== verification/Journal.v ===== *)
(** * The transaction journal

    Models [offprint-rs/artifact/src/multi_output/journal.rs]: the per-output
    namespace and its lock, the journal snapshots a transaction persists, and
    the choice of the latest valid snapshot.  The JSON codec ([serde_json]) is
    third-party code and enters as a parameter. *)

From Stdlib Require Import ZArith Lia Ascii String.
From stdpp Require Import base tactics list gmap strings numbers sorting.
From S2P Require Import Prelude.
From S2P Require Import Errors.
From S2P Require Import Fs.
From S2P Require Import Io.
From S2P Require Import Records.
From S2P Require Import Durable.

#[local] Open Scope string_scope.
#[local] Open Scope Z_scope.
#[local] Open Scope list_scope.

Definition JOURNAL_SCHEMA_VERSION : Z := 2.
Definition MAXIMUM_JOURNAL_BYTES : Z := 64 * 1024.
Definition MAXIMUM_JOURNAL_FILES : nat := 16.
Definition MAXIMUM_JOURNAL_VARIANTS : nat := 8.
Definition TRANSACTION_PREFIX : string := "txn-".

Inductive CommitMode := Entries | DirectorySwap.
#[export] Instance CommitMode_eq_dec : EqDecision CommitMode.
Proof. solve_decision. Defined.

Inductive JournalPhase := Staging | Prepared | Mutating | RollingBack | Committed.
#[export] Instance JournalPhase_eq_dec : EqDecision JournalPhase.
Proof. solve_decision. Defined.

Record JournalEntry := MkEntry {
  destination_name : string;
  je_format : ArtifactFormat;
  output_kind : OutputKind;
  existed : bool;
  previous_kind : option OutputKind;
  verification : FormatVerification;
  directory_files : Z;
  entrypoint : option string;
}.
#[export] Instance JournalEntry_eq_dec : EqDecision JournalEntry.
Proof. solve_decision. Defined.

Record TransactionJournal := MkJournal {
  schema_version : Z;
  transaction_id : string;
  output_identity : string;
  sequence : Z;
  phase : JournalPhase;
  mode : CommitMode;
  entries : list JournalEntry;
}.
#[export] Instance TransactionJournal_eq_dec : EqDecision TransactionJournal.
Proof. solve_decision. Defined.

(** [serde_json::to_vec] and [serde_json::from_slice] at this type. *)
Class JournalCodec := {
  journal_encode : TransactionJournal -> option bytes;
  journal_decode : bytes -> option TransactionJournal;
}.

Definition journal_error (stage : ErrorStage) : OffprintError :=
  new_error "offprint.export.output" stage.
Definition journal_io_error (stage : ErrorStage) (k : io_kind) : OffprintError :=
  with_detail "ioKind" (DStr (io_kind_name k)) (journal_error stage).

(** ** The namespace of an output directory *)

Record TransactionNamespace := MkNamespace {
  ns_output : path;
  ns_path : path;
  ns_identity : string;
  ns_lock : nat;
}.

Definition namespace_identity `{Hashing} (output : path) : string :=
  to_hex (sha256 (as_bytes (path_string output))).

Definition namespace_path `{Hashing} (canonical : path) : path :=
  join (parent canonical) (".offprint-transactions-" +:+ namespace_identity canonical).

Definition namespace_acquire `{Hashing} (output : path) : R TransactionNamespace :=
  canonical <- map_err (journal_io_error Validation) (fs_canonicalize output) ;;
  let p := namespace_path canonical in
  m <- attempt (fs_symlink_metadata p) ;;
  (match m with
   | Ok m =>
       if m_is_symlink m || negb (m_is_dir m) then mfail (journal_error Validation)
       else mpure tt
   | Err NotFound => create_directory p Validation
   | Err k => mfail (journal_io_error Validation k)
   end) ;;;
  let lock_path := join p "lock" in
  seen <- attempt (fs_symlink_metadata lock_path) ;;
  let existed := is_ok seen in
  (if existed then
     m <- map_err (journal_io_error Validation) (fs_symlink_metadata lock_path) ;;
     if m_is_symlink m || negb (m_is_file m) then mfail (journal_error Validation)
     else mpure tt
   else mpure tt) ;;;
  lock <- map_err (journal_io_error Validation) (fs_open_or_create lock_path) ;;
  opened <- map_err (journal_io_error Validation) (fs_file_metadata lock) ;;
  (if negb (m_is_file opened) then mfail (journal_error Validation)
   else
     now <- attempt (fs_symlink_metadata lock_path) ;;
     match now with
     | Ok m => if m_is_symlink m then mfail (journal_error Validation) else mpure tt
     | Err _ => mpure tt
     end) ;;;
  (if existed then mpure tt
   else
     map_err (journal_io_error Validation) (fs_sync_file lock) ;;;
     sync_directory p Validation) ;;;
  map_err (fun k =>
      with_detail "outputDirectory" (DPath output)
        (with_detail "ioKind" (DStr (io_kind_name k))
           (set_retryable true (journal_error Commit))))
    (fs_try_lock lock) ;;;
  mpure (MkNamespace canonical p (namespace_identity canonical) lock).

Definition create_transaction_root (ns : TransactionNamespace) : R path :=
  p <- map_err (journal_io_error Encoding) (fs_temp_dir_in TRANSACTION_PREFIX (ns_path ns)) ;;
  sync_directory p Encoding ;;;
  sync_directory (ns_path ns) Encoding ;;;
  mpure p.

Fixpoint collect_roots (dir : path) (names : list string) : R (list string) :=
  match names with
  | [] => mpure []
  | n :: names' =>
      if bool_decide (n = "lock") then collect_roots dir names'
      else
        m <- map_err (journal_io_error Commit) (fs_symlink_metadata (join dir n)) ;;
        if negb (starts_with TRANSACTION_PREFIX n) || m_is_symlink m || negb (m_is_dir m)
        then mfail (with_detail "path" (DPath (join dir n)) (journal_error Commit))
        else
          ns <- collect_roots dir names' ;;
          mpure (n :: ns)
  end.

Definition transaction_roots (ns : TransactionNamespace) : R (list path) :=
  names <- map_err (journal_io_error Commit) (fs_read_dir (ns_path ns)) ;;
  roots <- collect_roots (ns_path ns) names ;;
  mpure (map (fun n => join (ns_path ns) n) (sort_names roots)).

(** ** Entries *)

Definition bad_entrypoint (e : option string) : bool :=
  match e with None => true | Some e => negb (portable_relative e) end.

Fixpoint validate_entries_from (es : list JournalEntry) (names : gset string) : Res unit :=
  match es with
  | [] => Ok tt
  | e :: es' =>
      if match components (destination_name e) with [Normal _] => false | _ => true end
         || bool_decide (destination_name e ∈ names)
      then Err (journal_error Commit)
      else
        let bad :=
          match output_kind e with
          | OFile => negb (directory_files e =? 1) || negb (bool_decide (entrypoint e = None))
          | ODirectory => (directory_files e =? 0) || bad_entrypoint (entrypoint e)
          end in
        if bad then Err (journal_error Commit)
        else validate_entries_from es' ({[destination_name e]} ∪ names)
  end.

Definition validate_entries (es : list JournalEntry) : Res unit :=
  if bool_decide (es = []) || bool_decide (MAXIMUM_JOURNAL_VARIANTS < length es)%nat
  then Err (journal_error Commit)
  else validate_entries_from es ∅.

(** ** Persisting snapshots *)

Record JournalStore := MkStore {
  js_root : path;
  js_snapshot : TransactionJournal;
  js_next_sequence : Z;
}.

Definition journal_store_new (root : path) (identity : string) (md : CommitMode)
    (es : list JournalEntry) : Res JournalStore :=
  id <-? ok_or (n ← file_name root; if starts_with TRANSACTION_PREFIX n then Some n else None)
           (journal_error Internal) ;;
  do? validate_entries es ;;
  Ok (MkStore root (MkJournal JOURNAL_SCHEMA_VERSION id identity 0 Staging md es) 0).

Definition journal_store_from_snapshot (root : path) (j : TransactionJournal) : JournalStore :=
  MkStore root j (saturating_add u32_max (sequence j) 1).

Definition journal_name (seq : Z) : string :=
  "journal-" +:+ format_padded 8 seq +:+ ".json".

Definition with_phase (j : TransactionJournal) (seq : Z) (ph : JournalPhase)
    : TransactionJournal :=
  MkJournal (schema_version j) (transaction_id j) (output_identity j) seq ph (mode j)
    (entries j).

(** [JournalStore::persist]: the snapshot keeps the new phase even when it
    could not be written; the sequence number advances only when it was. *)
Definition persist `{JournalCodec} (st : JournalStore) (ph : JournalPhase)
    : R (Res unit * JournalStore) :=
  let snapshot := with_phase (js_snapshot st) (js_next_sequence st) ph in
  let st1 := MkStore (js_root st) snapshot (js_next_sequence st) in
  match journal_encode snapshot with
  | None => mpure (Err (journal_error Commit), st1)
  | Some b =>
      if MAXIMUM_JOURNAL_BYTES <? len_u64 b then mpure (Err (journal_error Commit), st1)
      else
        let p := join (js_root st) (journal_name (sequence snapshot)) in
        r <- attempt (write_new_file p b Commit) ;;
        match r with
        | Err e => mpure (Err e, st1)
        | Ok _ =>
            mpure (Ok tt, MkStore (js_root st) snapshot
                            (saturating_add u32_max (js_next_sequence st) 1))
        end
  end.

(** ** Loading the latest snapshot *)

(** What a candidate file's bytes are worth: [None] is a [continue] of the
    loop. *)
Definition decode_candidate `{JournalCodec} (root : path) (identity name : string)
    (content : bytes) : option TransactionJournal :=
  let b := take (Z.to_nat (MAXIMUM_JOURNAL_BYTES + 1)) content in
  if MAXIMUM_JOURNAL_BYTES <? len_u64 b then None
  else
    match journal_decode b with
    | None => None
    | Some j =>
        if negb (schema_version j =? JOURNAL_SCHEMA_VERSION)
           || negb (bool_decide (output_identity j = identity))
           || negb (bool_decide (Some (transaction_id j) = file_name root))
        then None
        else if negb (is_ok (validate_entries (entries j))) then None
        else
          let file_sequence := strip_prefix "journal-" (file_stem name) ≫= parse_u32 in
          if bool_decide (file_sequence = Some (sequence j)) then Some j else None
    end.

Definition load_candidate `{JournalCodec} (root : path) (identity name : string)
    : R (option TransactionJournal) :=
  let p := join root name in
  m <- map_err (journal_io_error Commit) (fs_symlink_metadata p) ;;
  if m_is_symlink m || negb (m_is_file m) || (MAXIMUM_JOURNAL_BYTES <? m_len m)
  then mpure None
  else
    content <- map_err (journal_io_error Commit) (fs_read p) ;;
    mpure (decode_candidate root identity name content).

Definition newer (latest : option TransactionJournal) (j : TransactionJournal)
    : option TransactionJournal :=
  match latest with
  | Some current => if sequence current <? sequence j then Some j else Some current
  | None => Some j
  end.

Fixpoint load_candidates `{JournalCodec} (root : path) (identity : string)
    (names : list string) (latest : option TransactionJournal)
    : R (option TransactionJournal) :=
  match names with
  | [] => mpure latest
  | n :: names' =>
      c <- load_candidate root identity n ;;
      load_candidates root identity names'
        (match c with Some j => newer latest j | None => latest end)
  end.

Definition load_latest_journal `{JournalCodec} (root : path) (identity : string)
    : R (option TransactionJournal) :=
  names <- map_err (journal_io_error Commit) (fs_read_dir root) ;;
  let journals := List.filter is_journal_name names in
  if bool_decide (MAXIMUM_JOURNAL_FILES < length journals)%nat
  then mfail (journal_error Commit)
  else load_candidates root identity (sort_names journals) None.
