(* ===== verification/Plan.v ===== *)
(** * Planning, staging and validating outputs

    Models [offprint-rs/artifact/src/multi_output/plan.rs].  File names are
    UTF-8 text throughout, so the conversions that reject other names always
    succeed and are omitted. *)

From Stdlib Require Import ZArith Lia Ascii String.
From stdpp Require Import base tactics list gmap strings numbers sorting.
From S2P Require Import Prelude.
From S2P Require Import Errors.
From S2P Require Import Fs.
From S2P Require Import Io.
From S2P Require Import Records.
From S2P Require Import Durable.
From S2P Require Import Journal.

#[local] Open Scope string_scope.
#[local] Open Scope Z_scope.
#[local] Open Scope list_scope.

Definition FILE_READ_BUFFER_BYTES : Z := 64 * 1024.

Record DestinationPlan := MkPlan {
  dp_destination : path;
  dp_entry : JournalEntry;
}.

Record StagedArtifact := MkStaged {
  sa_destination : path;
  sa_staged_path : path;
  sa_entry : JournalEntry;
}.

Definition plan_error (stage : ErrorStage) : OffprintError :=
  new_error "offprint.export.output" stage.
Definition plan_io_error (stage : ErrorStage) (k : io_kind) : OffprintError :=
  with_detail "ioKind" (DStr (io_kind_name k)) (plan_error stage).
Definition output_exists_error : OffprintError := new_error "offprint.output.exists" Validation.
Definition files_error (stage : ErrorStage) : OffprintError :=
  new_error "offprint.export.files" stage.
Definition size_error (stage : ErrorStage) : OffprintError :=
  new_error "offprint.export.size" stage.
Definition digest_error : OffprintError := new_error "offprint.artifact.digest" Commit.

(** ** Limits *)

Definition validate_prepared_artifact (limits : ArtifactTransactionLimits)
    (a : PreparedArtifact) : Res unit :=
  if maximum_files limits <? pa_file_count a then Err (files_error Encoding)
  else if maximum_files limits <? pa_directory_count a then Err (files_error Encoding)
  else if maximum_bytes limits <? fv_bytes (pa_verification a) then Err (size_error Encoding)
  else Ok tt.

Definition validate_prepared_artifacts (prepared : list PreparedArtifact)
    (limits : ArtifactTransactionLimits) : Res unit :=
  for_each (validate_prepared_artifact limits) prepared.

Definition validate_directory_limits (d : ArtifactDirectory)
    (limits : ArtifactTransactionLimits) (stage : ErrorStage) : Res unit :=
  if maximum_files limits <? ad_file_count d then Err (files_error stage)
  else if maximum_bytes limits <? ad_bytes d then Err (size_error stage)
  else Ok tt.

(** ** Inspecting destinations *)

Definition direct_metadata (p : path) : R (option metadata) :=
  m <- attempt (fs_symlink_metadata p) ;;
  match m with
  | Ok m => if m_is_symlink m then mfail (plan_error Validation) else mpure (Some m)
  | Err NotFound => mpure None
  | Err k => mfail (plan_io_error Validation k)
  end.

Definition metadata_kind (m : metadata) : option OutputKind :=
  if m_is_file m then Some OFile else if m_is_dir m then Some ODirectory else None.

Definition direct_directory (p : path) (stage : ErrorStage) : R bool :=
  m <- map_err (plan_io_error stage) (fs_symlink_metadata p) ;;
  mpure (negb (m_is_symlink m) && m_is_dir m).

Definition direct_regular_file (p : path) (stage : ErrorStage) : R metadata :=
  m <- map_err (plan_io_error stage) (fs_symlink_metadata p) ;;
  if m_is_symlink m || negb (m_is_file m) then mfail (plan_error stage) else mpure m.

Definition output_directory_is_empty (p : path) (stage : ErrorStage) : R bool :=
  direct <- direct_directory p stage ;;
  if negb direct then mfail (plan_error stage)
  else
    names <- map_err (plan_io_error stage) (fs_read_dir p) ;;
    mpure (bool_decide (names = [])).

(** ** Choosing destinations *)

Definition unique_candidate (requested : path) (suffix : Z) (kind : OutputKind) : path :=
  if suffix =? 0 then requested
  else
    let dir := parent requested in
    let tag := "-" +:+ format_decimal suffix in
    match kind with
    | ODirectory =>
        let name := default "capture-directory" (file_name requested) in
        join dir (name +:+ tag)
    | OFile =>
        let stem := default "capture" (file_stem <$> file_name requested) in
        join dir
          match file_name requested ≫= extension with
          | None => stem +:+ tag
          | Some ext => stem +:+ tag +:+ "." +:+ ext
          end
    end.

Definition MAXIMUM_SUFFIX : nat := Z.to_nat 10001.

(** [for suffix in 0..=10_000]. *)
Fixpoint first_free (requested : path) (kind : OutputKind) (fuel : nat) (suffix : Z)
    : R path :=
  match fuel with
  | O => mfail (new_error "offprint.output.uniquify" Validation)
  | S fuel' =>
      let candidate := unique_candidate requested suffix kind in
      m <- direct_metadata candidate ;;
      match m with
      | None => mpure candidate
      | Some _ => first_free requested kind fuel' (suffix + 1)
      end
  end.

Definition resolve_destination (output : path) (name : string) (kind : OutputKind)
    (conflict : ConflictPolicy) : R (path * bool * option OutputKind) :=
  let requested := join output name in
  match conflict with
  | ConflictFail =>
      m <- direct_metadata requested ;;
      match m with
      | Some _ => mfail output_exists_error
      | None => mpure (requested, false, None)
      end
  | ConflictReplace =>
      m <- direct_metadata requested ;;
      let previous := m ≫= metadata_kind in
      if bool_decide (is_Some m) && bool_decide (previous = None)
      then mfail (plan_error Validation)
      else if bool_decide (kind = OFile) && bool_decide (previous = Some ODirectory)
      then mfail (plan_error Validation)
      else mpure (requested, bool_decide (is_Some m), previous)
  | ConflictUniquify =>
      candidate <- first_free requested kind MAXIMUM_SUFFIX 0 ;;
      mpure (candidate, false, None)
  end.

Definition plan_artifact (output : path) (conflict : ConflictPolicy) (a : PreparedArtifact)
    : R DestinationPlan :=
  d <- resolve_destination output (pa_name a) (pa_output_kind a) conflict ;;
  let '(destination, ex, previous) := d in
  match file_name destination with
  | None => mfail (plan_error Validation)
  | Some name =>
      mpure (MkPlan destination
               (MkEntry name (fv_format (pa_verification a)) (pa_output_kind a) ex previous
                  (pa_verification a) (pa_file_count a) (pa_entrypoint a)))
  end.

Definition plan_destinations (output : path) (conflict : ConflictPolicy)
    (prepared : list PreparedArtifact) : R (CommitMode * list DestinationPlan) :=
  plans <- mmap (plan_artifact output conflict) prepared ;;
  empty <- output_directory_is_empty output Validation ;;
  mpure (if empty then DirectorySwap else Entries, plans).

(** ** Staging *)

(** The parents of a relative path, nearest first. *)
Definition relative_parents (relative : string) : list path :=
  let cs := split "/" relative in
  map (fun k => take k cs) (rev (seq 1 (length cs - 1))).

(** [Ord for Path]: lexicographic on components. *)
Fixpoint path_cmp (p q : path) : comparison :=
  match p, q with
  | [], [] => Eq
  | [], _ :: _ => Lt
  | _ :: _, [] => Gt
  | a :: p', b :: q' =>
      match String.compare a b with Eq => path_cmp p' q' | c => c end
  end.

Definition depth_path_le (p q : path) : Prop :=
  (length p < length q)%nat \/ (length p = length q /\ path_cmp p q <> Gt).
#[export] Instance depth_path_le_dec : RelDecision depth_path_le.
Proof. intros p q. unfold depth_path_le. apply _. Defined.

Definition staged_directories (files : gmap string bytes) : list path :=
  let all : gset path := list_to_set (concat (map relative_parents (btree_entries files).*1)) in
  merge_sort depth_path_le (elements all).

Definition stage_directory (p : path) (d : ArtifactDirectory) : R unit :=
  create_directory p Encoding ;;;
  let directories := staged_directories (ad_files d) in
  mfor (fun relative => create_directory (p ++ relative) Encoding) directories ;;;
  mfor (fun '(relative, content) => write_new_file (p ++ split "/" relative) content Encoding)
    (btree_entries (ad_files d)) ;;;
  mfor (fun relative => sync_directory (p ++ relative) Encoding) (rev directories) ;;;
  sync_directory p Encoding.

Definition stage_artifact (staged_output : path) (limits : ArtifactTransactionLimits)
    (ap : PreparedArtifact * DestinationPlan) : R StagedArtifact :=
  let '(a, plan) := ap in
  let staged_path := join staged_output (destination_name (dp_entry plan)) in
  (match pa_payload a with
   | PFile content => write_new_file staged_path content Encoding
   | PDirectory _ d =>
       lift (validate_directory_limits d limits Encoding) ;;;
       stage_directory staged_path d
   end) ;;;
  mpure (MkStaged (dp_destination plan) staged_path (dp_entry plan)).

Definition stage_artifacts (root : path) (prepared : list PreparedArtifact)
    (plans : list DestinationPlan) (limits : ArtifactTransactionLimits)
    : R (list StagedArtifact) :=
  if negb (bool_decide (length prepared = length plans)) then mfail (plan_error Internal)
  else
    let staged_output := join root "staged-output" in
    create_directory staged_output Encoding ;;;
    staged <- mmap (stage_artifact staged_output limits) (zip prepared plans) ;;
    sync_directory staged_output Encoding ;;;
    mpure staged.

(** ** Hashing what is on disk *)

(** The read loop: one buffer at a time, stopping above the limit.  The fuel
    bounds the number of buffers by the number of bytes. *)
Fixpoint hash_buffers (fuel : nat) (rest hasher : bytes) (total maximum : Z)
    : Res (Z * bytes) :=
  match fuel with
  | O => Ok (total, hasher)
  | S fuel' =>
      let buffer := take (Z.to_nat FILE_READ_BUFFER_BYTES) rest in
      if bool_decide (buffer = []) then Ok (total, hasher)
      else
        let total' := saturating_add u64_max total (len_u64 buffer) in
        if maximum <? total' then Err (size_error Commit)
        else
          hash_buffers fuel' (drop (Z.to_nat FILE_READ_BUFFER_BYTES) rest)
            (hasher ++ buffer) total' maximum
  end.

Definition hash_open_file (content hasher : bytes) (maximum : Z) : Res (Z * bytes) :=
  hash_buffers (S (length content)) content hasher 0 maximum.

Definition hash_file `{Hashing} (p : path) (maximum : Z) : R (Z * ContentDigest) :=
  content <- map_err (plan_io_error Commit) (fs_read p) ;;
  r <- lift (hash_open_file content [] maximum) ;;
  mpure (fst r, sha256 (snd r)).

Definition hash_directory_path (hasher : bytes) (total : Z) (relative : string) (p : path)
    (maximum : Z) : R (bytes * Z) :=
  m <- direct_regular_file p Commit ;;
  if maximum <? m_len m then mfail (size_error Commit)
  else
    let hasher := hasher ++ as_bytes relative ++ ["000"%char] ++ to_le_bytes (m_len m) in
    content <- map_err (plan_io_error Commit) (fs_read p) ;;
    r <- lift (hash_open_file content hasher maximum) ;;
    if negb (fst r =? m_len m) then mfail (plan_error Commit)
    else mpure (snd r, saturating_add u64_max total (fst r)).

(** ** Collecting a staged directory *)

Record collection := MkCollection {
  co_pending : list (path * string);
  co_directories : gset string;
  co_files : list (string * path);
}.

Definition collect_entry (maximum : Z) (directory : path) (relative_directory : string)
    (c : collection) (name : string) : R collection :=
  if has_char "\" name then mfail (plan_error Commit)
  else
    let relative :=
      if bool_decide (relative_directory = "") then name
      else relative_directory +:+ "/" +:+ name in
    let p := join directory name in
    m <- map_err (plan_io_error Commit) (fs_symlink_metadata p) ;;
    if m_is_symlink m then mfail (plan_error Commit)
    else if m_is_file m then
      let files := co_files c ++ [(relative, p)] in
      if maximum <? Z.of_nat (length files) then mfail (files_error Commit)
      else mpure (MkCollection (co_pending c) (co_directories c) files)
    else if m_is_dir m then
      let directories := {[relative]} ∪ co_directories c in
      if bool_decide (relative ∈ co_directories c)
         || (maximum <? Z.of_nat (size directories))
      then mfail (files_error Commit)
      else mpure (MkCollection ((p, relative) :: co_pending c) directories (co_files c))
    else mfail (plan_error Commit).

Fixpoint collect_entries (maximum : Z) (directory : path) (relative_directory : string)
    (names : list string) (c : collection) : R collection :=
  match names with
  | [] => mpure c
  | n :: names' =>
      c' <- collect_entry maximum directory relative_directory c n ;;
      collect_entries maximum directory relative_directory names' c'
  end.

(** [while let Some(..) = pending.pop()]: [None] is a loop that ran out of fuel. *)
Fixpoint collect_pending (fuel : nat) (maximum : Z) (c : collection)
    : R (option collection) :=
  match co_pending c with
  | [] => mpure (Some c)
  | (directory, relative) :: pending =>
      match fuel with
      | O => mpure None
      | S fuel' =>
          names <- map_err (plan_io_error Commit) (fs_read_dir directory) ;;
          c' <- collect_entries maximum directory relative names
                  (MkCollection pending (co_directories c) (co_files c)) ;;
          collect_pending fuel' maximum c'
      end
  end.

(** At most [maximum] directories below the root are ever pushed. *)
Definition collect_fuel (maximum : Z) : nat := S (Z.to_nat maximum).

Definition relative_parent_names (relative : string) : list string :=
  map (String.concat "/") (relative_parents relative).

Definition collect_directory_files (root : path) (maximum : Z)
    : R (list (string * path)) :=
  m <- map_err (plan_io_error Commit) (fs_symlink_metadata root) ;;
  if m_is_symlink m || negb (m_is_dir m) then mfail (plan_error Commit)
  else
    c <- collect_pending (collect_fuel maximum) maximum (MkCollection [(root, "")] ∅ []) ;;
    match c with
    | None => mfail (plan_error Commit)
    | Some c =>
        let expected : gset string :=
          list_to_set (concat (map relative_parent_names (co_files c).*1)) in
        if bool_decide (co_directories c = expected)
        then mpure (merge_sort depth_entry_le (co_files c))
        else mfail (plan_error Commit)
    end.

(** ** Validating what is on disk *)

Definition validate_file `{Hashing} (p : path) (expected_bytes : Z)
    (expected_sha256 : ContentDigest) (maximum : Z) : R unit :=
  m <- direct_regular_file p Commit ;;
  if (maximum <? m_len m) || negb (m_len m =? expected_bytes) then mfail (plan_error Commit)
  else
    h <- hash_file p maximum ;;
    let '(b, d) := h in
    if negb (b =? expected_bytes) then mfail (plan_error Commit)
    else if negb (bool_decide (d = expected_sha256)) then mfail digest_error
    else mpure tt.

Fixpoint hash_files (maximum : Z) (files : list (string * path)) (hasher : bytes) (total : Z)
    : R (bytes * Z) :=
  match files with
  | [] => mpure (hasher, total)
  | (relative, p) :: files' =>
      r <- hash_directory_path hasher total relative p (saturating_sub maximum total) ;;
      let '(hasher', total') := r in
      hash_files maximum files' hasher' total'
  end.

Definition validate_directory `{Hashing} (p : path) (expected_files expected_bytes : Z)
    (expected_sha256 : ContentDigest) (limits : ArtifactTransactionLimits) : R unit :=
  if (expected_files =? 0) || (maximum_files limits <? expected_files)
  then mfail (files_error Commit)
  else
    files <- collect_directory_files p (maximum_files limits) ;;
    if negb (Z.of_nat (length files) =? expected_files) then mfail (files_error Commit)
    else
      r <- hash_files (maximum_bytes limits) files [] 0 ;;
      let '(hasher, total) := r in
      if negb (total =? expected_bytes) || (maximum_bytes limits <? total)
      then mfail (size_error Commit)
      else if negb (bool_decide (sha256 hasher = expected_sha256)) then mfail digest_error
      else mpure tt.

Definition validate_entry_path `{Hashing} (p : path) (e : JournalEntry)
    (limits : ArtifactTransactionLimits) : R unit :=
  match output_kind e with
  | OFile =>
      validate_file p (fv_bytes (verification e)) (fv_sha256 (verification e))
        (maximum_bytes limits)
  | ODirectory =>
      validate_directory p (directory_files e) (fv_bytes (verification e))
        (fv_sha256 (verification e)) limits
  end.

Definition validate_staged_artifacts `{Hashing} (artifacts : list StagedArtifact)
    (limits : ArtifactTransactionLimits) : R unit :=
  mfor (fun a => validate_entry_path (sa_staged_path a) (sa_entry a) limits) artifacts.

(** [.is_ok()]. *)
Definition succeeds {A} (m : R A) : R bool :=
  r <- attempt m ;; mpure (is_ok r).

Definition path_matches_entry `{Hashing} (p : path) (e : JournalEntry)
    (limits : ArtifactTransactionLimits) : R bool :=
  succeeds (validate_entry_path p e limits).

Definition validate_complete_output_set `{Hashing} (output : path) (es : list JournalEntry)
    (limits : ArtifactTransactionLimits) : R unit :=
  direct <- direct_directory output Commit ;;
  if negb direct then mfail (plan_error Commit)
  else
    names <- map_err (plan_io_error Commit) (fs_read_dir output) ;;
    let expected : gset string := list_to_set (map destination_name es) in
    let actual : gset string := list_to_set names in
    if negb (bool_decide (actual = expected)) then mfail (plan_error Commit)
    else mfor (fun e => validate_entry_path (join output (destination_name e)) e limits) es.

Definition output_matches_complete_set `{Hashing} (output : path) (es : list JournalEntry)
    (limits : ArtifactTransactionLimits) : R bool :=
  succeeds (validate_complete_output_set output es limits).

Definition recheck_destination (conflict : ConflictPolicy) (a : StagedArtifact) : R unit :=
  current <- direct_metadata (sa_destination a) ;;
  match conflict with
  | ConflictFail | ConflictUniquify =>
      match current with Some _ => mfail output_exists_error | None => mpure tt end
  | ConflictReplace =>
      match existed (sa_entry a), current with
      | false, None => mpure tt
      | false, Some _ => mfail output_exists_error
      | true, Some m =>
          match metadata_kind m with
          | None => mfail (plan_error Commit)
          | Some k =>
              if bool_decide (Some k = previous_kind (sa_entry a)) then mpure tt
              else mfail (plan_error Commit)
          end
      | true, None => mfail (plan_error Commit)
      end
  end.

Definition recheck_destinations (conflict : ConflictPolicy) (artifacts : list StagedArtifact)
    : R unit :=
  mfor (recheck_destination conflict) artifacts.

(** ** What errors claim

    Errors of the delivery code carry details; some of them make claims about
    the outputs ([commitComplete], [rollbackComplete]).  [plain] errors make
    none: the errors of the durable steps and of validation are plain. *)

Lemma detail_same k v e : err_details (with_detail k v e) !! k = Some v.
Proof. apply lookup_insert_eq. Qed.
Lemma detail_other k k' v e :
  k <> k' -> err_details (with_detail k v e) !! k' = err_details e !! k'.
Proof. apply lookup_insert_ne. Qed.

Lemma detail_source src e k : err_details (with_source src e) !! k = err_details e !! k.
Proof. done. Qed.
Lemma detail_retryable r e k : err_details (set_retryable r e) !! k = err_details e !! k.
Proof. done. Qed.
Lemma detail_new c stage k : err_details (new_error c stage) !! k = None.
Proof. unfold new_error. destruct (definition c); apply lookup_empty. Qed.

Ltac details :=
  repeat first [rewrite detail_source | rewrite detail_same
               | rewrite detail_other by discriminate | rewrite detail_retryable
               | rewrite detail_new].

(** An error that claims nothing about the outputs. *)
Definition plain (e : OffprintError) : Prop :=
  err_details e !! "commitComplete" = None /\ err_details e !! "rollbackComplete" = None.

Lemma plain_new c stage : plain (new_error c stage).
Proof. split; apply detail_new. Qed.
Lemma plain_detail k v e :
  k <> "commitComplete" -> k <> "rollbackComplete" -> plain e -> plain (with_detail k v e).
Proof. intros H1 H2 [H3 H4]. split; by rewrite detail_other. Qed.
Lemma plain_source src e : plain e -> plain (with_source src e).
Proof. done. Qed.
Lemma plain_io_error stage k : plain (io_error stage k).
Proof. apply plain_detail; [done..|apply plain_new]. Qed.
#[export] Hint Resolve plain_new plain_source plain_io_error : offprint.
#[export] Hint Extern 1 (plain (with_detail _ _ _)) =>
  apply plain_detail; [discriminate|discriminate|] : offprint.

Lemma errs_sync p stage : errs plain (sync_directory p stage).
Proof. unfold sync_directory. errs_steps. auto with offprint. Qed.
Lemma errs_remove_direct_path p : errs plain (remove_direct_path p).
Proof. unfold remove_direct_path. errs_steps; auto with offprint. Qed.
#[export] Hint Resolve errs_sync errs_remove_direct_path : offprint.
Lemma errs_cleanup root : errs plain (cleanup_transaction_root root).
Proof. unfold cleanup_transaction_root. errs_steps; auto with offprint. Qed.
#[export] Hint Resolve errs_cleanup : offprint.
Lemma errs_create_directory p stage : errs plain (create_directory p stage).
Proof. unfold create_directory, sync_parent. errs_steps; auto with offprint. Qed.
Lemma errs_write_new_file p b stage : errs plain (write_new_file p b stage).
Proof. unfold write_new_file, sync_parent. errs_steps; auto with offprint. Qed.
Lemma errs_durable_rename a b : errs plain (durable_rename a b).
Proof. unfold durable_rename, durable_rename_with. errs_steps; auto with offprint. Qed.
Lemma errs_durable_hard_link a b : errs plain (durable_hard_link a b).
Proof. unfold durable_hard_link. errs_steps; auto with offprint. Qed.

(** ** Validation *)

Lemma plain_plan_io_error stage k : plain (plan_io_error stage k).
Proof. unfold plan_io_error, plan_error. auto with offprint. Qed.
Lemma plain_plan_error stage : plain (plan_error stage).
Proof. apply plain_new. Qed.
Lemma plain_size_error stage : plain (size_error stage).
Proof. apply plain_new. Qed.
Lemma plain_files_error stage : plain (files_error stage).
Proof. apply plain_new. Qed.
Lemma plain_digest_error : plain digest_error.
Proof. apply plain_new. Qed.
Lemma plain_exists_error : plain output_exists_error.
Proof. apply plain_new. Qed.
Lemma plain_journal_error stage : plain (journal_error stage).
Proof. apply plain_new. Qed.
#[export] Hint Resolve plain_plan_io_error plain_plan_error plain_size_error plain_files_error
  plain_digest_error plain_exists_error plain_journal_error : offprint.

Lemma hash_buffers_plain fuel rest hasher total mx :
  match hash_buffers fuel rest hasher total mx with Ok _ => True | Err e => plain e end.
Proof.
  revert rest hasher total. induction fuel as [|fuel IH]; intros; simpl; [done|].
  repeat case_if; [done|apply plain_size_error|apply IH].
Qed.

Lemma errs_collect_entries mx d rel names c : errs plain (collect_entries mx d rel names c).
Proof.
  revert c. induction names as [|n names IH]; intros c; simpl; [apply errs_pure|].
  apply errs_then; [|auto]. unfold collect_entry. errs_steps; auto with offprint.
Qed.
Lemma errs_collect_pending fuel mx c : errs plain (collect_pending fuel mx c).
Proof.
  revert c. induction fuel as [|fuel IH]; intros c; simpl; errs_steps; auto with offprint.
  apply errs_collect_entries.
Qed.
Lemma errs_hash_files mx files h t : errs plain (hash_files mx files h t).
Proof.
  revert h t. induction files as [|[rel p] files IH]; intros h t; simpl; [apply errs_pure|].
  apply errs_then; [|intros []; apply IH].
  unfold hash_directory_path, direct_regular_file.
  errs_steps; auto with offprint; apply hash_buffers_plain.
Qed.
#[export] Hint Resolve errs_collect_pending errs_hash_files : offprint.

Lemma errs_validate_entry_path `{Hashing} p e limits : errs plain (validate_entry_path p e limits).
Proof.
  unfold validate_entry_path, validate_file, validate_directory, collect_directory_files,
    hash_file, direct_regular_file.
  errs_steps; auto with offprint; apply hash_buffers_plain.
Qed.
#[export] Hint Resolve errs_validate_entry_path : offprint.
