(* ===== verification/Recovery.v ===== *)
(** * Rolling back and finishing interrupted transactions

    Models [offprint-rs/artifact/src/multi_output/recovery.rs].  A failure the
    source describes by a message is represented by the fixed part of that
    message. *)

From Stdlib Require Import ZArith Lia Ascii String.
From stdpp Require Import base tactics list gmap strings numbers sorting.
From S2P Require Import Prelude.
From S2P Require Import Errors.
From S2P Require Import Fs.
From S2P Require Import Io.
From S2P Require Import Records.
From S2P Require Import Durable.
From S2P Require Import Journal.
From S2P Require Import Plan.

#[local] Open Scope string_scope.
#[local] Open Scope Z_scope.
#[local] Open Scope list_scope.

Definition recovery_io_error (p : path) (k : io_kind) : OffprintError :=
  with_detail "ioKind" (DStr (io_kind_name k))
    (with_detail "path" (DPath p) (new_error "offprint.export.output" Commit)).

Definition direct_exists (p : path) : R bool :=
  m <- attempt (fs_symlink_metadata p) ;;
  match m with
  | Ok _ => mpure true
  | Err NotFound => mpure false
  | Err k => mfail (recovery_io_error p k)
  end.

Definition directory_is_empty (p : path) : R bool :=
  m <- map_err (recovery_io_error p) (fs_symlink_metadata p) ;;
  if m_is_symlink m || negb (m_is_dir m)
  then mfail (with_detail "path" (DPath p) (new_error "offprint.export.output" Commit))
  else
    names <- map_err (recovery_io_error p) (fs_read_dir p) ;;
    mpure (bool_decide (names = [])).

Definition validate_backup_kind (p : path) (expected : option OutputKind) : R unit :=
  m <- map_err (fun _ => new_error "offprint.export.output" Commit) (fs_symlink_metadata p) ;;
  let observed :=
    if m_is_symlink m then None
    else if m_is_file m then Some OFile
    else if m_is_dir m then Some ODirectory
    else None in
  if bool_decide (observed = expected) then mpure tt
  else mfail (with_detail "path" (DPath p) (new_error "offprint.export.output" Commit)).

Definition ensure_parent_and_move (source destination : path) : R unit :=
  let dir := parent destination in
  present <- direct_exists dir ;;
  (if present then mpure tt else create_directory dir Commit) ;;;
  occupied <- direct_exists destination ;;
  if (occupied : bool) then mfail (new_error "offprint.export.output" Commit)
  else durable_rename source destination ;;; mpure tt.

(** [retained_paths]: the recovery material that is present. *)
Fixpoint retained_among (root : path) (relatives : list string) : R (list path) :=
  match relatives with
  | [] => mpure []
  | r :: rs =>
      present <- attempt (direct_exists (join root r)) ;;
      rest <- retained_among root rs ;;
      mpure (match present with Ok true => join root r :: rest | _ => rest end)
  end.

Definition retained_paths (root : path) : R (list path) :=
  ps <- retained_among root ["backups"; "discard"; "previous-output"; "discard-output"] ;;
  mpure (match ps with [] => [root] | _ => ps end).

Definition phase_name (ph : JournalPhase) : string :=
  match ph with
  | Staging => "Staging" | Prepared => "Prepared" | Mutating => "Mutating"
  | RollingBack => "RollingBack" | Committed => "Committed"
  end.

(** [recovery_error], in two steps: the record, and the look at what is kept. *)
Definition recovery_record (root : path) (ph : option JournalPhase)
    (commit_complete outputs_recovered : bool) (failures : list string) (paths : list path)
    : OffprintError :=
  with_detail "recoveryFailures" (DList (map DStr failures))
    (with_detail "recoveryPaths" (DList (map DPath paths))
    (with_detail "recoveryPending" (DBool true)
    (with_detail "partialCommit" (DBool (negb commit_complete && negb outputs_recovered))
    (with_detail "rollbackComplete" (DBool outputs_recovered)
    (with_detail "commitComplete" (DBool commit_complete)
    (with_detail "phase" (DStr (match ph with Some ph => phase_name ph | None => "unknown" end))
    (with_detail "transactionPath" (DPath root)
    (set_retryable outputs_recovered (new_error "offprint.export.output" Commit))))))))).

Definition recovery_error (root : path) (ph : option JournalPhase)
    (commit_complete outputs_recovered : bool) (failures : list string) : R OffprintError :=
  paths <- retained_paths root ;;
  mpure (recovery_record root ph commit_complete outputs_recovered failures paths).

(** [.map_err(|error| recovery_error(..))?]: building the error looks at the
    file system. *)
Definition or_recovery_error {A} (m : R A) (root : path) (ph : option JournalPhase)
    (commit_complete outputs_recovered : bool) : R A :=
  r <- attempt m ;;
  match r with
  | Ok a => mpure a
  | Err _ =>
      e <- recovery_error root ph commit_complete outputs_recovered ["error"] ;;
      mfail e
  end.

(** ** Entry-wise rollback *)

Definition entry_name (index : nat) : string := "entry-" +:+ format_decimal (Z.of_nat index).

Section Rollback.
Context `{Hashing} (limits : ArtifactTransactionLimits) (output root : path).

(** Restore the original from its backup. *)
Definition restore_backup (backup destination : path) (e : JournalEntry)
    (failures : list string) : R (list string) :=
  kind <- attempt (validate_backup_kind backup (previous_kind e)) ;;
  match kind with
  | Err _ => mpure (failures ++ ["export rollback backup kind does not match"])
  | Ok _ =>
      moved <- attempt (durable_rename backup destination) ;;
      mpure (match moved with
             | Ok _ => failures
             | Err _ => failures ++ ["failed to restore"]
             end)
  end.

Definition rollback_backed_up (destination backup discard : path) (e : JournalEntry)
    (destination_exists : bool) (failures : list string) : R (list string) :=
  if destination_exists then
    matched <- path_matches_entry destination e limits ;;
    if (matched : bool) then
      moved <- attempt (ensure_parent_and_move destination discard) ;;
      match moved with
      | Err _ => mpure (failures ++ ["failed to retain the committed output"])
      | Ok _ => restore_backup backup destination e failures
      end
    else mpure (failures ++ ["destination changed after its backup"])
  else restore_backup backup destination e failures.

Definition rollback_replaced (destination : path) (e : JournalEntry)
    (destination_exists : bool) (failures : list string) : R (list string) :=
  if negb destination_exists
  then mpure (failures ++ ["original destination and its backup are both missing"])
  else
    matched <- path_matches_entry destination e limits ;;
    mpure (if (matched : bool)
           then failures ++ ["replacement remains but its original backup is missing"]
           else failures).

Definition rollback_created (destination discard : path) (e : JournalEntry)
    (destination_exists : bool) (failures : list string) : R (list string) :=
  if negb destination_exists then mpure failures
  else
    matched <- path_matches_entry destination e limits ;;
    if (matched : bool) then
      moved <- attempt (ensure_parent_and_move destination discard) ;;
      mpure (match moved with
             | Ok _ => failures
             | Err _ => failures ++ ["failed to retract committed output"]
             end)
    else mpure (failures ++ ["new destination does not match the journal"]).

(** One turn of the loop; [observed_exists] reports an unreadable path as a
    failure and skips the entry. *)
Definition rollback_entry (index : nat) (e : JournalEntry) (failures : list string)
    : R (list string) :=
  let destination := join output (destination_name e) in
  let backup := root ++ ["backups"; entry_name index] in
  let discard := root ++ ["discard"; entry_name index] in
  b <- attempt (direct_exists backup) ;;
  match b with
  | Err _ => mpure (failures ++ ["failed to inspect an export recovery path"])
  | Ok backup_exists =>
      d <- attempt (direct_exists destination) ;;
      match d with
      | Err _ => mpure (failures ++ ["failed to inspect an export recovery path"])
      | Ok destination_exists =>
          if (backup_exists : bool)
          then rollback_backed_up destination backup discard e destination_exists failures
          else if existed e
          then rollback_replaced destination e destination_exists failures
          else rollback_created destination discard e destination_exists failures
      end
  end.

Fixpoint rollback_loop (ies : list (nat * JournalEntry)) (failures : list string)
    : R (list string) :=
  match ies with
  | [] => mpure failures
  | (i, e) :: ies' =>
      failures' <- rollback_entry i e failures ;;
      rollback_loop ies' failures'
  end.

Definition rollback_entries (es : list JournalEntry) : R (list string) :=
  rollback_loop (rev (imap pair es)) [].

(** ** Directory-swap rollback *)

Definition restore_previous : R (list string) :=
  moved <- attempt (durable_rename (join root "previous-output") output) ;;
  mpure (match moved with
         | Ok _ => []
         | Err _ => ["failed to restore the previous output directory"]
         end).

Definition rollback_swapped (es : list JournalEntry) (output_exists : bool)
    : R (list string) :=
  if output_exists then
    complete <- output_matches_complete_set output es limits ;;
    empty <- attempt (directory_is_empty output) ;;
    match empty with
    | Err _ => mpure ["error"]
    | Ok empty =>
        if complete || empty then
          occupied <- attempt (direct_exists (join root "discard-output")) ;;
          match occupied with
          | Err _ => mpure ["error"]
          | Ok true =>
              mpure ["both committed and retained directory-swap outputs are present"]
          | Ok false =>
              moved <- attempt (durable_rename output (join root "discard-output")) ;;
              match moved with
              | Err _ => mpure ["failed to retract the committed output directory"]
              | Ok _ => restore_previous
              end
          end
        else mpure ["output directory changed after its predecessor was retained"]
    end
  else restore_previous.

Definition rollback_directory_swap (es : list JournalEntry) : R (list string) :=
  p <- attempt (direct_exists (join root "previous-output")) ;;
  match p with
  | Err _ => mpure ["error"]
  | Ok previous_exists =>
      o <- attempt (direct_exists output) ;;
      match o with
      | Err _ => mpure ["error"]
      | Ok output_exists =>
          if (previous_exists : bool) then rollback_swapped es output_exists
          else if negb output_exists
          then mpure ["output directory and its predecessor are both missing"]
          else
            empty <- attempt (directory_is_empty output) ;;
            mpure (match empty with
                   | Ok true => []
                   | Ok false => ["directory-swap output without its predecessor"]
                   | Err _ => ["error"]
                   end)
      end
  end.

Definition rollback_transaction (j : TransactionJournal) : R unit :=
  failures <-
    match mode j with
    | Entries => rollback_entries (entries j)
    | DirectorySwap => rollback_directory_swap (entries j)
    end ;;
  match failures with
  | _ :: _ =>
      e <- recovery_error root (Some RollingBack) false false failures ;; mfail e
  | [] =>
      or_recovery_error (sync_directory output Commit) root (Some RollingBack) false true ;;;
      or_recovery_error (cleanup_transaction_root root) root (Some RollingBack) false true
  end.

(** ** Finishing a committed transaction *)

Fixpoint all_match (es : list JournalEntry) : R bool :=
  match es with
  | [] => mpure true
  | e :: es' =>
      matched <- path_matches_entry (join output (destination_name e)) e limits ;;
      if (matched : bool) then all_match es' else mpure false
  end.

Definition finalize_committed (j : TransactionJournal) : R unit :=
  complete <-
    match mode j with
    | Entries => all_match (entries j)
    | DirectorySwap => output_matches_complete_set output (entries j) limits
    end ;;
  if (complete : bool) then
    or_recovery_error (cleanup_transaction_root root) root (Some Committed) true true
  else
    e <- recovery_error root (Some Committed) true false
           ["committed output set no longer matches its durable journal"] ;;
    mfail e.
End Rollback.

(** ** Recovery on entry *)

Definition recover_transaction `{Hashing} `{JournalCodec} (ns : TransactionNamespace)
    (limits : ArtifactTransactionLimits) (root : path) : R unit :=
  loaded <- or_recovery_error (load_latest_journal root (ns_identity ns)) root None false false ;;
  match loaded with
  | None =>
      empty <- or_recovery_error (directory_is_empty root) root None false false ;;
      if (empty : bool) then cleanup_transaction_root root
      else
        e <- recovery_error root None false false
               ["transaction directory has no valid durable journal"] ;;
        mfail e
  | Some j =>
      match phase j with
      | Staging | Prepared =>
          or_recovery_error (cleanup_transaction_root root) root (Some (phase j)) false true
      | Mutating =>
          r <- persist (journal_store_from_snapshot root j) RollingBack ;;
          let '(persisted, store) := r in
          or_recovery_error (lift persisted) root (Some Mutating) false false ;;;
          rollback_transaction limits (ns_output ns) root (js_snapshot store)
      | RollingBack => rollback_transaction limits (ns_output ns) root j
      | Committed => finalize_committed limits (ns_output ns) root j
      end
  end.

Definition recover_pending_transactions `{Hashing} `{JournalCodec}
    (ns : TransactionNamespace) (limits : ArtifactTransactionLimits) : R unit :=
  roots <- transaction_roots ns ;;
  mfor (recover_transaction ns limits) roots.
