(* ===== verification/Commit.v ===== *)
(** * Committing a staged transaction

    Models [offprint-rs/artifact/src/multi_output/commit.rs] and
    [multi_output/fault.rs].  The fault injector of the source is the test seam
    of the program (production code runs with [NoFault]); it is kept, as a
    function from fault points to actions, beside the system-call faults of
    the world. *)

From Stdlib Require Import ZArith Lia Ascii String.
From stdpp Require Import base tactics list gmap strings numbers sorting.
From S2P Require Import Prelude.
From S2P Require Import Errors.
From S2P Require Import Fs.
From S2P Require Import Io.
From S2P Require Import Records.
From S2P Require Import Durable.
From S2P Require Import Journal.
From S2P Require Import Plan.
From S2P Require Import Recovery.

#[local] Open Scope string_scope.
#[local] Open Scope Z_scope.
#[local] Open Scope list_scope.

Inductive FaultPoint :=
| AfterJournal (ph : JournalPhase)
| AfterBackup (index : nat)
| AfterCommit (index : nat)
| BeforeCleanup.
#[export] Instance FaultPoint_eq_dec : EqDecision FaultPoint.
Proof. solve_decision. Defined.

Inductive FaultAction := ActionError | ActionCrash.
#[export] Instance FaultAction_eq_dec : EqDecision FaultAction.
Proof. solve_decision. Defined.

(** The trait [FaultInjector], and the injector of production code. *)
Definition FaultInjector : Type := FaultPoint -> option FaultAction.
Definition NoFault : FaultInjector := fun _ => None.

Definition injected_fault (action : FaultAction) : OffprintError :=
  with_detail "injectedCrash" (DBool (bool_decide (action = ActionCrash)))
    (new_error "offprint.export.output" Commit).

Record CommitRequest := MkCommit {
  cr_output : path;
  cr_root : path;
  cr_journal : JournalStore;
  cr_artifacts : list StagedArtifact;
  cr_conflict : ConflictPolicy;
  cr_mode : CommitMode;
  cr_limits : ArtifactTransactionLimits;
}.

Definition committed_recovery_error (root : path) (src : OffprintError) : OffprintError :=
  with_source src
    (with_detail "recoveryPending" (DBool true)
    (with_detail "partialCommit" (DBool false)
    (with_detail "rollbackComplete" (DBool false)
    (with_detail "commitComplete" (DBool true)
    (with_detail "transactionPath" (DPath root)
    (set_retryable true (new_error "offprint.export.output" Commit))))))).

Definition commit_confirmation_error (root : path) (src : OffprintError) : OffprintError :=
  with_source src
    (with_detail "recoveryPending" (DBool true)
    (with_detail "partialCommit" (DBool false)
    (with_detail "rollbackComplete" (DBool false)
    (with_detail "commitStatus" (DStr "indeterminate")
    (with_detail "outputsInstalled" (DBool true)
    (with_detail "commitComplete" (DBool false)
    (with_detail "transactionPath" (DPath root)
    (set_retryable true (new_error "offprint.export.output" Commit))))))))).

Definition recovery_pending_error (root : path) (src : OffprintError) : OffprintError :=
  with_source src
    (with_detail "recoveryPending" (DBool true)
    (with_detail "partialCommit" (DBool true)
    (with_detail "rollbackComplete" (DBool false)
    (with_detail "commitComplete" (DBool false)
    (with_detail "transactionPath" (DPath root)
    (new_error "offprint.export.output" Commit)))))).

Definition rolled_back_error (src : OffprintError) : OffprintError :=
  with_source src
    (with_detail "recoveryPending" (DBool false)
    (with_detail "partialCommit" (DBool false)
    (with_detail "rollbackComplete" (DBool true)
    (with_detail "rollbackAttempted" (DBool true)
    (new_error "offprint.export.output" Commit))))).

Section Commit.
Context `{Hashing} `{JournalCodec} (request : CommitRequest) (injector : FaultInjector).

Definition validate_before_mutation : R unit :=
  validate_staged_artifacts (cr_artifacts request) (cr_limits request) ;;;
  recheck_destinations (cr_conflict request) (cr_artifacts request) ;;;
  match cr_mode request with
  | Entries => mpure tt
  | DirectorySwap =>
      empty <- output_directory_is_empty (cr_output request) Commit ;;
      if (empty : bool) then mpure tt else mfail (new_error "offprint.export.output" Commit)
  end.

(** The steps that mutate destinations fail with the error and the action the
    caller distinguishes; a failed system call counts as [ActionError]. *)
Abbreviation Mut := (M (OffprintError * FaultAction)).

Definition or_error {A} (m : R A) : Mut A := map_err (fun e => (e, ActionError)) m.

Definition inject (point : FaultPoint) : Mut unit :=
  match injector point with
  | Some action => mfail (injected_fault action, action)
  | None => mpure tt
  end.

Definition backup_entry (ia : nat * StagedArtifact) : Mut unit :=
  let '(index, a) := ia in
  if existed (sa_entry a) then
    or_error (durable_rename (sa_destination a)
                (cr_root request ++ ["backups"; entry_name index])) ;;;
    inject (AfterBackup index)
  else mpure tt.

Definition install_entry (ia : nat * StagedArtifact) : Mut unit :=
  let '(index, a) := ia in
  or_error (match output_kind (sa_entry a) with
            | OFile => durable_hard_link (sa_staged_path a) (sa_destination a)
            | ODirectory => durable_rename (sa_staged_path a) (sa_destination a)
            end) ;;;
  inject (AfterCommit index).

Definition commit_entries : Mut unit :=
  let indexed := imap pair (cr_artifacts request) in
  (if existsb (fun a => existed (sa_entry a)) (cr_artifacts request) then
     or_error (create_directory (join (cr_root request) "backups") Commit) ;;;
     mfor backup_entry indexed
   else mpure tt) ;;;
  mfor install_entry indexed.

Definition commit_directory_swap : Mut unit :=
  let previous := join (cr_root request) "previous-output" in
  or_error (durable_rename (cr_output request) previous) ;;;
  inject (AfterBackup 0) ;;;
  empty <- or_error (output_directory_is_empty previous Commit) ;;
  (if (empty : bool) then mpure tt
   else mfail (new_error "offprint.export.output" Commit, ActionError)) ;;;
  or_error (durable_rename (join (cr_root request) "staged-output") (cr_output request)) ;;;
  inject (AfterCommit 0).

Definition validate_committed_outputs (j : TransactionJournal) : R unit :=
  match cr_mode request with
  | Entries =>
      mfor (fun a => validate_entry_path (sa_destination a) (sa_entry a) (cr_limits request))
        (cr_artifacts request)
  | DirectorySwap =>
      validate_complete_output_set (cr_output request) (entries j) (cr_limits request)
  end.

Definition clean_prepared_failure (src : OffprintError) : R (list ExportedArtifact) :=
  cleaned <- attempt (cleanup_transaction_root (cr_root request)) ;;
  match cleaned with
  | Ok _ => mfail src
  | Err cleanup =>
      mfail (with_source (with_source cleanup src)
        (with_detail "recoveryPending" (DBool true)
        (with_detail "cleanupComplete" (DBool false)
        (with_detail "rollbackComplete" (DBool true)
        (with_detail "commitComplete" (DBool false)
        (with_detail "transactionPath" (DPath (cr_root request))
        (set_retryable true (new_error "offprint.export.output" Commit))))))))
  end.

Definition handle_mutating_failure (store : JournalStore) (src : OffprintError)
    (action : FaultAction) : R (list ExportedArtifact) :=
  match action with
  | ActionCrash =>
      mfail (with_detail "recoveryPending" (DBool true)
               (with_detail "transactionPath" (DPath (cr_root request)) src))
  | ActionError =>
      r <- persist store RollingBack ;;
      let '(persisted, store') := r in
      match persisted with
      | Err e => mfail (recovery_pending_error (cr_root request) (with_source e src))
      | Ok _ =>
          rolled <- attempt (rollback_transaction (cr_limits request) (cr_output request)
                               (cr_root request) (js_snapshot store')) ;;
          match rolled with
          | Ok _ => mfail (rolled_back_error src)
          | Err recovery => mfail (with_source src recovery)
          end
      end
  end.

Definition build_result (a : StagedArtifact) : ExportedArtifact :=
  let e := sa_entry a in
  let p := join (cr_output request) (destination_name e) in
  MkExported (je_format e) p
    (match entrypoint e with Some r => p ++ split "/" r | None => p end)
    (fv_bytes (verification e)) (fv_sha256 (verification e)) (verification e).

Definition build_results : list ExportedArtifact := map build_result (cr_artifacts request).

(** After the destinations are installed and validated. *)
Definition confirm_commit (store : JournalStore) : R (list ExportedArtifact) :=
  synced <- attempt (sync_directory (cr_output request) Commit) ;;
  match synced with
  | Err e => mfail (commit_confirmation_error (cr_root request) e)
  | Ok _ =>
      r <- persist store Committed ;;
      let '(persisted, store') := r in
      match persisted with
      | Err e => mfail (commit_confirmation_error (cr_root request) e)
      | Ok _ =>
          match injector (AfterJournal Committed) with
          | Some action => mfail (committed_recovery_error (cr_root request) (injected_fault action))
          | None =>
              match injector BeforeCleanup with
              | Some action =>
                  mfail (committed_recovery_error (cr_root request) (injected_fault action))
              | None =>
                  finalize_committed (cr_limits request) (cr_output request)
                    (cr_root request) (js_snapshot store') ;;;
                  mpure build_results
              end
          end
      end
  end.

Definition mutate (store : JournalStore) : R (list ExportedArtifact) :=
  mutation <- attempt (match cr_mode request with
                       | Entries => commit_entries
                       | DirectorySwap => commit_directory_swap
                       end) ;;
  match mutation with
  | Err (e, action) => handle_mutating_failure store e action
  | Ok _ =>
      valid <- attempt (validate_committed_outputs (js_snapshot store)) ;;
      match valid with
      | Err e => handle_mutating_failure store e ActionError
      | Ok _ => confirm_commit store
      end
  end.

Definition commit_transaction : R (list ExportedArtifact) :=
  valid <- attempt validate_before_mutation ;;
  match valid with
  | Err e => clean_prepared_failure e
  | Ok _ =>
      r <- persist (cr_journal request) Mutating ;;
      let '(persisted, store) := r in
      match persisted with
      | Err e => clean_prepared_failure e
      | Ok _ =>
          match injector (AfterJournal Mutating) with
          | Some action => handle_mutating_failure store (injected_fault action) action
          | None => mutate store
          end
      end
  end.
End Commit.

(** ** Artifact transactions

    Models [offprint-rs/artifact/src/multi_output.rs]: staging recovers earlier
    work, plans and writes the outputs below a private transaction directory;
    committing moves them into place.  The namespace lock is held from
    acquisition until the transaction value is dropped: on a staging error, or
    after the commit returns. *)

Record ArtifactTransaction := MkTransaction {
  at_namespace : TransactionNamespace;
  at_output_directory : path;
  at_root : path;
  at_journal : JournalStore;
  at_artifacts : list StagedArtifact;
  at_conflict : ConflictPolicy;
  at_mode : CommitMode;
  at_limits : ArtifactTransactionLimits;
}.

(** The drop of a namespace closes its lock file. *)
Definition drop_namespace {E} (ns : TransactionNamespace) : M E unit :=
  modify_fs (fun s => set_locks (locks s ∖ {[ns_lock ns]}) s).

(** Run with the namespace owned by the caller's frame: it is dropped when the
    frame is left with an error, kept when a value takes it over. *)
Definition owning {A} (ns : TransactionNamespace) (m : R A) : R A :=
  r <- attempt m ;;
  match r with
  | Ok a => mpure a
  | Err e => drop_namespace ns ;;; mfail e
  end.

Definition clean_stage_failure (root : path) (src : OffprintError) : R OffprintError :=
  cleaned <- attempt (cleanup_transaction_root root) ;;
  mpure (match cleaned with
         | Ok _ => src
         | Err cleanup =>
             with_source (with_source cleanup src)
               (with_detail "recoveryPending" (DBool true)
               (with_detail "transactionPath" (DPath root)
               (set_retryable true (new_error "offprint.export.output" Encoding))))
         end).

(** [return Err(clean_stage_failure(..))] on the error of a step. *)
Definition or_clean {A} (root : path) (m : R A) : R A :=
  r <- attempt m ;;
  match r with
  | Ok a => mpure a
  | Err e => e' <- clean_stage_failure root e ;; mfail e'
  end.

Definition stage_fault (root : path) (action : FaultAction) : R OffprintError :=
  let src := injected_fault action in
  match action with
  | ActionCrash =>
      mpure (with_detail "recoveryPending" (DBool true)
               (with_detail "transactionPath" (DPath root) src))
  | ActionError => clean_stage_failure root src
  end.

Definition stage_point (injector : FaultInjector) (root : path) (point : FaultPoint) : R unit :=
  match injector point with
  | Some action => e <- stage_fault root action ;; mfail e
  | None => mpure tt
  end.

(** [journal.persist(..)] with its error cleaned up, keeping the store. *)
Definition stage_persist `{JournalCodec} (root : path) (store : JournalStore)
    (ph : JournalPhase) : R JournalStore :=
  r <- persist store ph ;;
  let '(persisted, store') := r in
  or_clean root (lift persisted) ;;;
  mpure store'.

(** The body of [stage_with_injector] once the namespace is acquired. *)
Definition stage_in_namespace `{Hashing} `{JournalCodec} (ns : TransactionNamespace)
    (output : path) (conflict : ConflictPolicy) (prepared : list PreparedArtifact)
    (limits : ArtifactTransactionLimits) (injector : FaultInjector)
    : R ArtifactTransaction :=
  recover_pending_transactions ns limits ;;;
  planned <- plan_destinations output conflict prepared ;;
  let '(md, plans) := planned in
  root <- create_transaction_root ns ;;
  store <- or_clean root (lift (journal_store_new root (ns_identity ns) md (map dp_entry plans))) ;;
  store <- stage_persist root store Staging ;;
  stage_point injector root (AfterJournal Staging) ;;;
  artifacts <- or_clean root (stage_artifacts root prepared plans limits) ;;
  or_clean root (validate_staged_artifacts artifacts limits) ;;;
  store <- stage_persist root store Prepared ;;
  stage_point injector root (AfterJournal Prepared) ;;;
  mpure (MkTransaction ns output root store artifacts conflict md limits).

Definition stage_with_injector `{Hashing} `{JournalCodec} (output : path)
    (conflict : ConflictPolicy) (prepared : list PreparedArtifact)
    (limits : ArtifactTransactionLimits) (injector : FaultInjector)
    : R ArtifactTransaction :=
  lift (validate_prepared_artifacts prepared limits) ;;;
  ns <- namespace_acquire output ;;
  owning ns (stage_in_namespace ns output conflict prepared limits injector).

Definition stage `{Hashing} `{JournalCodec} (output : path) (conflict : ConflictPolicy)
    (prepared : list PreparedArtifact) (limits : ArtifactTransactionLimits)
    : R ArtifactTransaction :=
  stage_with_injector output conflict prepared limits NoFault.

Definition commit_request (t : ArtifactTransaction) : CommitRequest :=
  MkCommit (at_output_directory t) (at_root t) (at_journal t) (at_artifacts t)
    (at_conflict t) (at_mode t) (at_limits t).

Definition commit_with_injector `{Hashing} `{JournalCodec} (t : ArtifactTransaction)
    (injector : FaultInjector) : R (list ExportedArtifact) :=
  commit_transaction (commit_request t) injector.

(** [commit(mut self)]: the transaction is dropped when the call returns. *)
Definition commit `{Hashing} `{JournalCodec} (t : ArtifactTransaction)
    : R (list ExportedArtifact) :=
  r <- attempt (commit_with_injector t NoFault) ;;
  drop_namespace (at_namespace t) ;;;
  lift r.
