(* ===== verification/Matching.v ===== *)
(** * Validation depends on the subtree alone

    [validate_entry_path] walks a staged or installed output, reads its files
    and compares the digest.  This file shows that it never changes the file
    system, that what it answers is a function of the node at the path and of
    the bytes of its files ([node_matches]), and that an injected fault can
    only turn a success into a failure.  Both facts come from one simulation
    between a run under any fault schedule and a run under none. *)

From Stdlib Require Import ZArith Lia Ascii String.
From stdpp Require Import base tactics list gmap strings numbers sorting.
From S2P Require Import Prelude.
From S2P Require Import Errors.
From S2P Require Import Fs.
From S2P Require Import Io.
From S2P Require Import FsFacts.
From S2P Require Import Records.
From S2P Require Import Durable.
From S2P Require Import Journal.
From S2P Require Import Plan.

#[local] Open Scope string_scope.
#[local] Open Scope Z_scope.
#[local] Open Scope list_scope.

(** ** Simulation of read-only programs

    [m] from [s] under any schedule, [m'] from [s'] under none. *)
Definition sim {E E' A B} (s s' : fs) (m : M E A) (m' : M E' B) (Rel : A -> B -> Prop)
    : Prop :=
  forall l,
    match m (World s l) with
    | (Done a, w) =>
        w_fs w = s /\ (l = [] -> w_faults w = []) /\
        exists b, m' (World s' []) = (Done b, World s' []) /\ Rel a b
    | (Fail _, w) =>
        w_fs w = s /\ (l = [] -> w_faults w = [] /\
        exists e, m' (World s' []) = (Fail e, World s' []))
    | (Crash, w) => w_fs w = s /\ l <> []
    end.

Section Sim.
Context {E E' : Type} (s s' : fs).

Lemma sim_pure {A B} (a : A) (b : B) (Rel : A -> B -> Prop) :
  Rel a b -> sim (E:=E) (E':=E') s s' (mpure a) (mpure b) Rel.
Proof. intros H l; simpl. naive_solver. Qed.

Lemma sim_fail {A B} (e : E) (e' : E') (Rel : A -> B -> Prop) :
  sim s s' (mfail e) (mfail e') Rel.
Proof. intros l; simpl. naive_solver. Qed.

Lemma sim_then {A A' B B'} (m : M E A) (m' : M E' A') (k : A -> M E B) (k' : A' -> M E' B')
    (Rel : A -> A' -> Prop) (Rel' : B -> B' -> Prop) :
  sim s s' m m' Rel ->
  (forall a a', Rel a a' -> sim s s' (k a) (k' a') Rel') ->
  sim s s' (mthen m k) (mthen m' k') Rel'.
Proof.
  intros Hm Hk l. specialize (Hm l). unfold mthen.
  destruct (m (World s l)) as [[a|e|] [s1 l1]]; simpl in *.
  - destruct Hm as (-> & Hl & a' & -> & Ha). specialize (Hk a a' Ha l1).
    destruct (k a (World s l1)) as [[b|e|] [s2 l2]]; simpl in *; naive_solver.
  - destruct Hm as [-> Hm]. split; [done|]. intros ->.
    destruct Hm as (-> & e' & ->); naive_solver.
  - done.
Qed.

Lemma sim_map_err {F F' A B} (f : F -> E) (f' : F' -> E') (m : M F A) (m' : M F' B)
    (Rel : A -> B -> Prop) :
  sim s s' m m' Rel -> sim s s' (map_err f m) (map_err f' m') Rel.
Proof.
  intros Hm l. specialize (Hm l). unfold map_err.
  destruct (m (World s l)) as [[a|e|] w]; simpl in *; [| |done].
  - destruct Hm as (-> & Hl & a' & -> & Ha). naive_solver.
  - destruct Hm as [-> Hm]. split; [done|]. intros ->.
    destruct Hm as (-> & e' & ->); naive_solver.
Qed.

Lemma sim_lift {A} (r : result E A) (r' : result E' A) (Rel : A -> A -> Prop) :
  match r, r' with Ok a, Ok b => Rel a b | Err _, Err _ => True | _, _ => False end ->
  sim s s' (lift r) (lift r') Rel.
Proof. destruct r, r'; simpl; [apply sim_pure|done..|intros _; apply sim_fail]. Qed.
End Sim.

Lemma sim_sys {A B} s s' (f : call A) (f' : call B) a b (Rel : A -> B -> Prop) :
  f s = Ok (a, s) -> f' s' = Ok (b, s') -> Rel a b -> sim s s' (sys f) (sys f') Rel.
Proof.
  intros Hf Hf' Hab l. unfold sys, sys_torn; simpl. rewrite Hf, Hf'.
  destruct l as [|[|k| |n [k|]] l]; simpl; naive_solver.
Qed.

Ltac sim_step :=
  match goal with
  | |- sim _ _ (mpure _) (mpure _) _ => apply sim_pure
  | |- sim _ _ (mfail _) (mfail _) _ => apply sim_fail
  | |- sim _ _ (map_err _ _) (map_err _ _) _ => apply sim_map_err
  | |- sim _ _ (if ?b then _ else _) (if ?b then _ else _) _ => destruct b eqn:?
  end.

(** ** Sorting by name keeps rows aligned *)

Section AlignedSort.
Context {A C : Type} (R : A -> A -> Prop) `{!RelDecision R} (Rel : C -> C -> Prop)
  (key : C -> A).
Let Rk (x y : C) : Prop := R (key x) (key y).
Context `{HRk : !RelDecision Rk} (Hkey : forall x y, Rel x y -> key x = key y).

Lemma list_merge_aligned l1 l2 k1 k2 :
  Forall2 Rel l1 k1 -> Forall2 Rel l2 k2 ->
  Forall2 Rel (list_merge Rk l1 l2) (list_merge Rk k1 k2).
Proof using Hkey.
  intros H1. revert l2 k2. induction H1 as [|x y l1 k1 Hxy H1 IH1]; intros l2 k2 H2.
  { by destruct H2; simpl; [|constructor]. }
  induction H2 as [|u v l2 k2 Huv H2 IH2]; [simpl; by constructor|].
  rewrite !list_merge_cons.
  assert (Rk x u <-> Rk y v) as Hiff.
  { unfold Rk. by rewrite (Hkey _ _ Hxy), (Hkey _ _ Huv). }
  destruct (decide (Rk x u)), (decide (Rk y v)); try tauto; constructor; auto.
Qed.

Let Stack := Forall2 (fun o o' : option (list C) =>
  match o, o' with Some l, Some k => Forall2 Rel l k | None, None => True | _, _ => False end).

Lemma merge_list_to_stack_aligned st st' l k :
  Stack st st' -> Forall2 Rel l k ->
  Stack (merge_list_to_stack Rk st l) (merge_list_to_stack Rk st' k).
Proof using Hkey.
  intros Hst. revert l k. induction Hst as [|[x|] [y|] st st' Hxy Hst IH];
    intros l k Hlk; simpl; try done; (constructor; [done|]); try done.
  by apply IH, list_merge_aligned.
Qed.

Lemma merge_stack_aligned st st' :
  Stack st st' -> Forall2 Rel (merge_stack Rk st) (merge_stack Rk st').
Proof using Hkey.
  induction 1 as [|[x|] [y|] st st' Hxy Hst IH]; simpl; try done.
  by apply list_merge_aligned.
Qed.

Lemma merge_sort_aux_aligned st st' l k :
  Stack st st' -> Forall2 Rel l k ->
  Forall2 Rel (merge_sort_aux Rk st l) (merge_sort_aux Rk st' k).
Proof using Hkey.
  intros Hst Hlk. revert st st' Hst. induction Hlk as [|x y l k Hxy Hlk IH]; intros st st' Hst; simpl.
  - by apply merge_stack_aligned.
  - apply IH, merge_list_to_stack_aligned; [done|]. by repeat constructor.
Qed.

Lemma merge_sort_aligned l k :
  Forall2 Rel l k -> Forall2 Rel (merge_sort Rk l) (merge_sort Rk k).
Proof using Hkey. apply merge_sort_aux_aligned. constructor. Qed.
End AlignedSort.

(** ** The walk of a subtree *)

(** The files of two states below a node have the same bytes. *)
Definition bytes_agree (s s' : fs) (n : node) : Prop :=
  forall r i, tget n r = Some (NFile i) -> file_bytes s i = file_bytes s' i.

Lemma sub_app s p n r : sub s p = Some n -> sub s (p ++ r) = tget n r.
Proof. intros H. by rewrite tget_app, H. Qed.

Lemma symlink_metadata_direct s p n :
  sub s p = Some n -> p <> [] -> sys_symlink_metadata p s = Ok (meta_of s n, s).
Proof.
  intros Hn Hp. destruct (exists_last Hp) as (d & c & ->).
  destruct (tget_prefix_dir _ _ _ _ _ Hn) as [m Hm]. unfold sys_symlink_metadata.
  rewrite (lookup_nofollow_direct _ _ _ _ Hm). 
  rewrite (tget_snoc _ _ _ _ Hm) in Hn. by rewrite Hn.
Qed.

Lemma read_dir_direct s p m :
  sub s p = Some (NDir m) -> sys_read_dir p s = Ok ((map_to_list m).*1, s).
Proof. intros H. unfold sys_read_dir. by rewrite (lookup_follow_direct _ _ _ H). Qed.

Lemma read_direct s p i :
  sub s p = Some (NFile i) -> sys_read p s = Ok (file_bytes s i, s).
Proof. intros H. unfold sys_read. by rewrite (lookup_follow_direct _ _ _ H). Qed.

Section Walk.
Context `{Hashing} (s s' : fs) (p p' : path) (n : node).
Context (Hp : sub s p = Some n) (Hp' : sub s' p' = Some n).
Context (Hne : p <> []) (Hne' : p' <> []) (Hag : bytes_agree s s' n).

Lemma meta_agree r x : tget n r = Some x -> meta_of s x = meta_of s' x.
Proof using Hag. intros Hx. destruct x; simpl; [|done..]. by rewrite (Hag _ _ Hx). Qed.

Lemma sim_meta r x :
  tget n r = Some x ->
  sim s s' (fs_symlink_metadata (p ++ r)) (fs_symlink_metadata (p' ++ r))
    (fun a b => a = b /\ a = meta_of s x).
Proof using All.
  intros Hx. eapply sim_sys.
  - apply symlink_metadata_direct; [by rewrite (sub_app _ _ _ _ Hp)|by destruct p].
  - apply symlink_metadata_direct; [by rewrite (sub_app _ _ _ _ Hp')|by destruct p'].
  - by rewrite (meta_agree _ _ Hx).
Qed.

Lemma sim_read_dir r m :
  tget n r = Some (NDir m) ->
  sim s s' (fs_read_dir (p ++ r)) (fs_read_dir (p' ++ r))
    (fun a b => a = b /\ a = (map_to_list m).*1).
Proof using All.
  intros Hx. eapply sim_sys; [by apply read_dir_direct; rewrite (sub_app _ _ _ _ Hp)|
    by apply read_dir_direct; rewrite (sub_app _ _ _ _ Hp')|done].
Qed.

Lemma sim_read r i :
  tget n r = Some (NFile i) ->
  sim s s' (fs_read (p ++ r)) (fs_read (p' ++ r)) eq.
Proof using All.
  intros Hx. eapply sim_sys; [by apply read_direct; rewrite (sub_app _ _ _ _ Hp)|
    by apply read_direct; rewrite (sub_app _ _ _ _ Hp')|by eapply Hag].
Qed.

(** The same place below either root, holding what [P] says. *)
Definition same_place (P : node -> Prop) (q q' : path) : Prop :=
  exists r x, q = p ++ r /\ q' = p' ++ r /\ tget n r = Some x /\ P x.
Definition file_node (x : node) : Prop := exists i, x = NFile i.
Definition dir_node (x : node) : Prop := exists m, x = NDir m.

Definition same_file (x y : string * path) : Prop :=
  fst x = fst y /\ same_place file_node (snd x) (snd y).
Definition same_pending (x y : path * string) : Prop :=
  snd x = snd y /\ same_place dir_node (fst x) (fst y).
Definition same_collection (c c' : collection) : Prop :=
  Forall2 same_pending (co_pending c) (co_pending c') /\
  co_directories c = co_directories c' /\
  Forall2 same_file (co_files c) (co_files c').

Lemma same_file_names l l' : Forall2 same_file l l' -> l.*1 = l'.*1.
Proof. by induction 1 as [|?? ?? [? _]]; simpl; f_equal. Qed.

Lemma sim_collect_entry mx r m rel c c' name :
  tget n r = Some (NDir m) -> name ∈ (map_to_list m).*1 -> same_collection c c' ->
  sim s s' (collect_entry mx (p ++ r) rel c name) (collect_entry mx (p' ++ r) rel c' name)
    same_collection.
Proof using All.
  intros Hr Hname (Hpend & Hdirs & Hfiles). unfold collect_entry.
  assert (exists x, m !! name = Some x) as [x Hx].
  { apply list_elem_of_fmap in Hname as ([k x] & -> & Hk).
    exists x. by apply elem_of_map_to_list. }
  assert (Hxr : tget n (r ++ [name]) = Some x) by by rewrite (tget_snoc _ _ _ _ Hr).
  sim_step; [apply sim_fail|]. rewrite <- !app_assoc.
  eapply sim_then; [apply sim_map_err, (sim_meta _ _ Hxr)|]. intros md ? [<- ->].
  rewrite <- Hdirs, !length_app, (Forall2_length _ _ _ Hfiles).
  destruct x; simpl.
  - sim_step; [apply sim_fail|]. apply sim_pure. split_and!; [done..|]; simpl.
    apply Forall2_app; [done|]. constructor; [|done]. split; [done|].
    eexists _, _; split_and!; [done..|]. by eexists.
  - sim_step; [apply sim_fail|]. apply sim_pure. split_and!; simpl; [|done..].
    constructor; [|done]. split; [done|].
    eexists _, _; split_and!; [done..|]. by eexists.
  - apply sim_fail.
  - apply sim_fail.
Qed.

Lemma sim_collect_entries mx r m rel names c c' :
  tget n r = Some (NDir m) -> names ⊆ (map_to_list m).*1 -> same_collection c c' ->
  sim s s' (collect_entries mx (p ++ r) rel names c)
    (collect_entries mx (p' ++ r) rel names c') same_collection.
Proof using All.
  intros Hr. revert c c'. induction names as [|name names IH]; intros c c' Hsub Hc; simpl.
  - by apply sim_pure.
  - eapply sim_then; [eapply sim_collect_entry; [done|set_solver|done]|].
    intros a a' Ha. apply IH; [set_solver|done].
Qed.

Lemma sim_collect_pending fuel mx c c' :
  same_collection c c' ->
  sim s s' (collect_pending fuel mx c) (collect_pending fuel mx c')
    (fun o o' => match o, o' with
                 | Some c, Some c' => same_collection c c'
                 | None, None => True
                 | _, _ => False
                 end).
Proof using All.
  revert c c'. induction fuel as [|fuel IH]; intros [pe di fi] [pe' di' fi']
    (Hpend & Hdirs & Hfiles); simpl in *.
  - destruct Hpend as [|[d rel] [d' rel'] l l' _ _]; apply sim_pure; [by split_and!|done].
  - destruct Hpend as [|[d rel] [d' rel'] l l' (Hrel & r & x & Hd & Hd' & Hx & m & ->) Hl];
      [by apply sim_pure; split_and!|]. simpl in Hrel, Hd, Hd'. subst.
    eapply sim_then; [apply sim_map_err, (sim_read_dir _ _ Hx)|]. intros a ? [<- ->].
    eapply sim_then; [eapply sim_collect_entries; [done|done|by split_and!]|]. auto.
Qed.

Lemma sim_collect_directory_files mx :
  sim s s' (collect_directory_files p mx) (collect_directory_files p' mx)
    (Forall2 same_file).
Proof using All.
  unfold collect_directory_files.
  rewrite <- (app_nil_r p), <- (app_nil_r p').
  eapply sim_then; [apply sim_map_err, (sim_meta [] n); done|]. intros md ? [<- ->].
  destruct (m_is_symlink (meta_of s n) || negb (m_is_dir (meta_of s n))) eqn:Hd;
    [apply sim_fail|].
  assert (dir_node n) as Hdir by (destruct n; try done; by eexists).
  eapply sim_then; [apply sim_collect_pending|].
  { split_and!; [|done|constructor]. simpl. repeat constructor. by eexists [], n. }
  intros [c|] [c'|] Hc; try done; [|apply sim_fail].
  destruct Hc as (Hpend & Hdirs & Hfiles). rewrite <- Hdirs.
  rewrite <- (same_file_names _ _ Hfiles).
  sim_step; [|apply sim_fail]. apply sim_pure.
  apply (merge_sort_aligned depth_name_le same_file fst); [by intros ?? []|done].
Qed.

Lemma sim_direct_regular_file r x stage :
  tget n r = Some x ->
  sim s s' (direct_regular_file (p ++ r) stage) (direct_regular_file (p' ++ r) stage)
    (fun a b => a = b /\ file_node x).
Proof using All.
  intros Hx. unfold direct_regular_file.
  eapply sim_then; [apply sim_map_err, (sim_meta _ _ Hx)|]. intros md ? [<- ->].
  destruct x; simpl; try apply sim_fail. apply sim_pure. split; [done|by eexists].
Qed.

Lemma sim_lift_eq {A} (r : Res A) : sim s s' (lift r) (lift r) eq.
Proof. apply sim_lift. by destruct r. Qed.

Lemma sim_hash_files mx files files' hasher total :
  Forall2 same_file files files' ->
  sim s s' (hash_files mx files hasher total) (hash_files mx files' hasher total) eq.
Proof using All.
  intros Hf. revert hasher total.
  induction Hf as [|[rel q] [rel' q'] l l' (Hrel & r & x & Hq & Hq' & Hx & i & ->) Hl IH];
    intros hasher total; simpl; [by apply sim_pure|].
  simpl in Hrel, Hq, Hq'. subst. apply (sim_then _ _ _ _ _ _ eq).
  - unfold hash_directory_path.
    eapply sim_then; [by eapply sim_direct_regular_file|]. intros md ? [<- _].
    sim_step; [apply sim_fail|].
    eapply sim_then; [by eapply sim_map_err, sim_read|]. intros b ? <-.
    eapply sim_then; [apply sim_lift_eq|]. intros h ? <-.
    sim_step; [apply sim_fail|by apply sim_pure].
  - intros [h t] ? <-. apply IH.
Qed.

Lemma sim_hash_file i mx :
  n = NFile i -> sim s s' (hash_file p mx) (hash_file p' mx) eq.
Proof using All.
  intros Hn. unfold hash_file. rewrite <- (app_nil_r p), <- (app_nil_r p').
  eapply sim_then; [eapply sim_map_err, (sim_read [] i); by rewrite Hn|].
  intros b ? <-. eapply sim_then; [apply sim_lift_eq|]. intros h ? <-.
  by apply sim_pure.
Qed.

Lemma sim_validate_entry_path e limits :
  sim s s' (validate_entry_path p e limits) (validate_entry_path p' e limits) eq.
Proof using All.
  unfold validate_entry_path. destruct (output_kind e).
  - unfold validate_file.
    eapply sim_then.
    { rewrite <- (app_nil_r p), <- (app_nil_r p').
      by eapply (sim_direct_regular_file [] n). }
    intros md ? [<- [i Hi]]. sim_step; [apply sim_fail|].
    eapply sim_then; [by eapply sim_hash_file|]. intros [b d] ? <-.
    sim_step; [apply sim_fail|]. sim_step; [apply sim_fail|by apply sim_pure].
  - unfold validate_directory. sim_step; [apply sim_fail|].
    eapply sim_then; [apply sim_collect_directory_files|]. intros files files' Hf.
    rewrite <- (Forall2_length _ _ _ Hf). sim_step; [apply sim_fail|].
    eapply sim_then; [by eapply sim_hash_files|]. intros [h t] ? <-.
    sim_step; [apply sim_fail|]. sim_step; [apply sim_fail|by apply sim_pure].
Qed.
End Walk.

(** ** The answer as a function of the node *)

(** The state with nothing but the node, under one name. *)
Definition only (s : fs) (n : node) : fs := set_tree (NDir {["x" := n]}) s.

Definition node_matches `{Hashing} (s : fs) (n : node) (e : JournalEntry)
    (limits : ArtifactTransactionLimits) : bool :=
  match fst (validate_entry_path ["x"] e limits (World (only s n) [])) with
  | Done _ => true
  | _ => false
  end.

Lemma sub_only s n : sub (only s n) ["x"] = Some n.
Proof. simpl. by rewrite lookup_singleton_eq. Qed.

Lemma sim_only `{Hashing} s p n e limits :
  sub s p = Some n -> p <> [] ->
  sim s (only s n) (validate_entry_path p e limits) (validate_entry_path ["x"] e limits) eq.
Proof.
  intros Hn Hp. eapply sim_validate_entry_path; [done|apply sub_only|done|done|].
  intros r i Hi. done.
Qed.

(** The node decides, and only the bytes below it matter. *)
Lemma node_matches_agree `{Hashing} s s' n e limits :
  bytes_agree s s' n -> node_matches s n e limits = node_matches s' n e limits.
Proof.
  intros Hag. unfold node_matches.
  pose proof (sim_validate_entry_path (only s n) (only s' n) ["x"] ["x"] n
    (sub_only s n) (sub_only s' n) ltac:(done) ltac:(done) Hag e limits []) as Hs.
  destruct (validate_entry_path _ _ _ (World (only s n) [])) as [[a|er|] w]; simpl in *.
  - by destruct Hs as (_ & _ & b & -> & _).
  - destruct Hs as [_ Hs]. by destruct Hs as (_ & er' & ->).
  - by destruct Hs.
Qed.

Lemma wp_validate_entry_path `{Hashing} q s p n e limits (Q : unit -> fs -> Prop)
    (X : OffprintError -> fs -> Prop) (C : fs -> Prop) :
  sub s p = Some n -> p <> [] ->
  (node_matches s n e limits = true -> Q tt s) ->
  (q = false \/ node_matches s n e limits = false -> forall er, X er s) ->
  (q = false -> C s) ->
  wp q (validate_entry_path p e limits) Q X C s.
Proof.
  intros Hn Hp HQ HX HC l Hl. pose proof (sim_only s p n e limits Hn Hp l) as Hs.
  unfold node_matches in *.
  destruct (validate_entry_path p e limits (World s l)) as [[[]|er|] w]; simpl in *.
  - destruct Hs as (-> & Hl' & b & Hb & _). rewrite Hb in HQ. auto.
  - destruct Hs as (-> & Hl'). split; [intros Hq; by apply Hl', Hl|].
    apply HX. destruct q; [right|by left].
    destruct Hl' as (_ & er' & ->); [by apply Hl|done].
  - destruct Hs as (-> & Hl'). destruct q; [by destruct Hl'; apply Hl|auto].
Qed.

Lemma wp_path_matches_entry `{Hashing} q s p n e limits (Q : bool -> fs -> Prop)
    (X : OffprintError -> fs -> Prop) (C : fs -> Prop) :
  sub s p = Some n -> p <> [] ->
  Q (node_matches s n e limits) s ->
  (q = false -> Q false s) -> (q = false -> C s) ->
  wp q (path_matches_entry p e limits) Q X C s.
Proof.
  intros Hn Hp HQ HF HC. unfold path_matches_entry, succeeds. wp_steps.
  eapply wp_validate_entry_path; [done..| | |done].
  - intros Hm. wp_steps. by rewrite Hm in HQ.
  - intros Hm er. wp_steps; simpl. destruct Hm as [Hq|Hm]; [auto|]. by rewrite Hm in HQ.
Qed.
