(* ===== verification/Regions.v ===== *)
(** * Output directory and transaction directory as two regions

    The delivery code works in two disjoint directories: the caller's output
    directory and the private transaction directory.  [view s O Rm] says what
    stands in both.  The lemmas give the effect of every system call the code
    makes on that view, and the weakest preconditions of the durable steps. *)

From Stdlib Require Import ZArith Lia Ascii String.
From stdpp Require Import base tactics list gmap strings numbers sorting.
From S2P Require Import Prelude.
From S2P Require Import Errors.
From S2P Require Import Fs.
From S2P Require Import Io.
From S2P Require Import FsFacts.
From S2P Require Import Durable.
From S2P Require Import Matching.

#[local] Open Scope string_scope.
#[local] Open Scope Z_scope.
#[local] Open Scope list_scope.

(** ** Updates below a directory *)

Lemma tput_under t d x r v x' :
  tget t d = Some x -> r <> [] -> tput x r v = Some x' ->
  exists t', tput t (d ++ r) v = Some t' /\ tget t' d = Some x'.
Proof.
  intros Hd Hr Hx. assert (exists t', tput t (d ++ r) v = Some t') as [t' Ht'].
  { destruct (exists_last Hr) as (r0 & c & ->).
    destruct (tput_parent_dir _ _ _ _ _ Hx) as [m Hm].
    rewrite app_assoc. apply (tput_Some_ex _ _ m). by rewrite tget_app, Hd. }
  exists t'. split; [done|]. by rewrite (tput_zoom _ _ _ _ _ Ht' Hr), Hd.
Qed.

Lemma tput_is_dir t p v t' : tput t p v = Some t' -> exists m, t' = NDir m.
Proof.
  destruct p as [|c p], t as [|m| |]; simpl; try done.
  destruct p; [naive_solver|]. intros (x & _ & (y & _ & [= <-])%bind_Some)%bind_Some. eauto.
Qed.

(** Every file of an updated tree was there before or came with the update. *)
Lemma tput_files t p v t' q i :
  tput t p v = Some t' -> tget t' q = Some (NFile i) ->
  (exists q', tget t q' = Some (NFile i)) \/
  (exists n r, v = Some n /\ tget n r = Some (NFile i)).
Proof.
  intros Ht Hq. destruct (decide (p `prefix_of` q)) as [[r ->]|Hpq].
  - right. rewrite tget_app, (tget_tput_same _ _ _ _ Ht) in Hq.
    destruct v as [n|]; simpl in Hq; [eauto|done].
  - destruct (decide (q `prefix_of` p)) as [[r ->]|Hqp].
    + destruct r as [|c r]; [by destruct Hpq; rewrite app_nil_r|].
      rewrite (tput_zoom _ _ _ _ _ Ht) in Hq by done.
      apply bind_Some in Hq as (x & _ & Hq).
      by destruct (tput_is_dir _ _ _ _ Hq).
    + left. exists q. by rewrite <- (tget_tput_other _ _ _ _ _ Ht (conj Hpq Hqp)).
Qed.

(** Nothing appears where an update removes. *)
Lemma tput_None_sub t p t' q :
  tput t p None = Some t' -> is_Some (tget t' q) -> is_Some (tget t q).
Proof.
  intros Ht Hq. destruct (decide (p `prefix_of` q)) as [[r ->]|Hpq].
  - rewrite tget_app, (tget_tput_same _ _ _ _ Ht) in Hq. by destruct Hq.
  - destruct (decide (q `prefix_of` p)) as [[r ->]|Hqp].
    + destruct r as [|c r]; [by destruct Hpq; rewrite app_nil_r|].
      rewrite (tput_zoom _ _ _ _ _ Ht) in Hq by done.
      destruct Hq as [x Hx]. apply bind_Some in Hx as (y & Hy & _). eauto.
    + by rewrite <- (tget_tput_other _ _ _ _ _ Ht (conj Hpq Hqp)).
Qed.

(** Directories stay directories until they go. *)
Lemma tput_None_dir t p t' q m :
  tput t p None = Some t' -> tget t q = Some (NDir m) ->
  tget t' q = None \/ exists m', tget t' q = Some (NDir m').
Proof.
  intros Ht Hq. destruct (decide (p `prefix_of` q)) as [[r ->]|Hpq].
  - left. by rewrite tget_app, (tget_tput_same _ _ _ _ Ht).
  - destruct (decide (q `prefix_of` p)) as [[r ->]|Hqp].
    + destruct r as [|c r]; [by destruct Hpq; rewrite app_nil_r|].
      destruct (tget t' q) as [x|] eqn:Hx; [right|by left].
      rewrite (tput_zoom _ _ _ _ _ Ht), Hq in Hx by done. change (tput (NDir m) (c :: r) None = Some x) in Hx.
      destruct (tput_is_dir _ _ _ _ Hx) as [m' ->]. eauto.
    + right. exists m. by rewrite (tget_tput_other _ _ _ _ _ Ht (conj Hpq Hqp)).
Qed.

(** [t'] holds nothing that [t] does not, its files are files of [t], and what
    is left of a directory is a directory. *)
Record shrunk (t t' : node) : Prop := {
  sh_some q : is_Some (tget t' q) -> is_Some (tget t q);
  sh_file q i : tget t' q = Some (NFile i) -> exists q', tget t q' = Some (NFile i);
  sh_dir q m : tget t q = Some (NDir m) ->
    tget t' q = None \/ exists m', tget t' q = Some (NDir m');
}.

Lemma shrunk_refl t : shrunk t t.
Proof. split; eauto. Qed.

Lemma shrunk_tput t p t' : tput t p None = Some t' -> shrunk t t'.
Proof.
  intros Ht. split; [intros q; by apply tput_None_sub with p| |].
  - intros q i Hq. by destruct (tput_files _ _ _ _ _ _ Ht Hq) as [?|(? & ? & ? & ?)].
  - intros q m Hq. by eapply tput_None_dir.
Qed.

Lemma shrunk_trans t t' t'' : shrunk t t' -> shrunk t' t'' -> shrunk t t''.
Proof.
  intros [H1 H2 H5] [H3 H4 H6]. split; [auto| |].
  - intros q i Hq. destruct (H4 _ _ Hq) as [q' Hq']. eauto.
  - intros q m Hq. destruct (H5 _ _ Hq) as [Hn|[m' Hm']]; [|eauto].
    left. apply eq_None_not_Some. intros Hs. apply H3 in Hs. rewrite Hn in Hs. by destruct Hs.
Qed.

Lemma prune_shrunk k n : shrunk n (prune k n).
Proof.
  unfold prune. generalize (take k (postorder n)) as l. intros l. revert n.
  induction l as [|q l IH]; intros n; simpl; [apply shrunk_refl|].
  eapply shrunk_trans; [|apply IH].
  destruct (tput n q None) as [n'|] eqn:Hn; simpl; [by eapply shrunk_tput|apply shrunk_refl].
Qed.

Lemma prune_dir k m : exists m', prune k (NDir m) = NDir m'.
Proof.
  unfold prune. generalize (take k (postorder (NDir m))) as l. intros l. revert m.
  induction l as [|q l IH]; intros m; simpl; [eauto|].
  destruct (tput (NDir m) q None) as [n'|] eqn:Hn; simpl; [|apply IH].
  destruct (tput_is_dir _ _ _ _ Hn) as [m' ->]. apply IH.
Qed.

(** ** Well-formed states *)

Definition fs_wf (s : fs) : Prop :=
  forall p i, sub s p = Some (NFile i) -> (i < next_ino s)%nat.

(** The files of a node have numbers below [N]. *)
Definition node_below (N : nat) (n : node) : Prop :=
  forall r i, tget n r = Some (NFile i) -> (i < N)%nat.

(** Later states keep the bytes of the files that were there. *)
Definition keeps (s s' : fs) : Prop :=
  (next_ino s <= next_ino s')%nat /\
  forall i, (i < next_ino s)%nat -> file_bytes s' i = file_bytes s i.

Lemma keeps_refl s : keeps s s.
Proof. split; [lia|done]. Qed.

Lemma keeps_trans s s' s'' : keeps s s' -> keeps s' s'' -> keeps s s''.
Proof. intros [H1 H2] [H3 H4]. split; [lia|]. intros i Hi. rewrite H4, H2; [done|lia..]. Qed.

Lemma keeps_set_tree s s' t : keeps s s' -> keeps s (set_tree t s').
Proof. by intros [H1 H2]; split. Qed.

Lemma keeps_agree s s' n : keeps s s' -> node_below (next_ino s) n -> bytes_agree s s' n.
Proof. intros [_ H] Hn r i Hi. symmetry. by eapply H, Hn. Qed.

Lemma keeps_set_inode s s' i b :
  keeps s s' -> (next_ino s <= i)%nat -> keeps s (set_inode i b s').
Proof.
  intros [H1 H2] Hi. split; [done|]. intros j Hj. unfold file_bytes; simpl.
  rewrite lookup_insert_ne by lia. by apply H2.
Qed.

Lemma fs_wf_sub s p n : fs_wf s -> sub s p = Some n -> node_below (next_ino s) n.
Proof. intros Hwf Hp r i Hi. apply (Hwf (p ++ r)). by rewrite (sub_app _ _ _ _ Hp). Qed.

Lemma fs_wf_tput s p v t :
  fs_wf s -> tput (tree s) p v = Some t ->
  (forall n, v = Some n -> node_below (next_ino s) n) ->
  fs_wf (set_tree t s).
Proof.
  intros Hwf Ht Hv q i Hq; simpl in *.
  destruct (tput_files _ _ _ _ _ _ Ht Hq) as [[q' Hq']|(n & r & -> & Hr)].
  - by apply (Hwf q').
  - by eapply Hv.
Qed.

(** ** System calls on direct paths *)

Lemma snoc2 (p : path) a b : p ++ [a; b] = (p ++ [a]) ++ [b].
Proof. by rewrite <- app_assoc. Qed.

Lemma locate_present s p n : sub s p = Some n -> p <> [] -> locate (tree s) p = Ok p.
Proof.
  intros Hn Hp. destruct (exists_last Hp) as (d & c & ->).
  destruct (tget_prefix_dir _ _ _ _ _ Hn) as [m Hm]. by apply locate_direct with m.
Qed.

Lemma rename_ok s p q n t1 t2 :
  locate (tree s) p = Ok p -> locate (tree s) q = Ok q ->
  sub s p = Some n -> sub s q = None -> ~ p `prefix_of` q ->
  tput (tree s) p None = Some t1 -> tput t1 q (Some n) = Some t2 ->
  sys_rename p q s = Ok (tt, set_tree t2 s).
Proof.
  intros Hp Hq Hn Hnone Hpq H1 H2. unfold sys_rename. rewrite Hp; simpl. rewrite Hn; simpl.
  rewrite Hq; simpl. rewrite decide_False by congruence. rewrite decide_False by done.
  rewrite Hnone; simpl. rewrite H1; simpl. by rewrite H2.
Qed.

Lemma place_ok s p v t :
  locate (tree s) p = Ok p -> sub s p = None -> tput (tree s) p (Some v) = Some t ->
  place p v s = Ok (tt, set_tree t s).
Proof. intros Hp Hn Ht. unfold place. rewrite Hp; simpl. by rewrite Hn, Ht. Qed.

Lemma symlink_metadata_missing s d c m :
  sub s d = Some (NDir m) -> m !! c = None ->
  sys_symlink_metadata (d ++ [c]) s = Err NotFound.
Proof.
  intros Hd Hc. unfold sys_symlink_metadata.
  by rewrite (lookup_nofollow_direct _ _ _ _ Hd), Hc.
Qed.

Lemma sync_dir_direct s p m :
  sub s p = Some (NDir m) -> sys_sync_dir p s = Ok (tt, s).
Proof. intros H. unfold sys_sync_dir. by rewrite (lookup_follow_direct _ _ _ H). Qed.

Definition dir_at (s : fs) (p : path) : Prop := exists m, sub s p = Some (NDir m).

(** ** The two regions *)

Section Regions.
Context (out root : path) (Hdis : disjoint_paths out root).

Record view (s : fs) (O Rm : gmap string node) : Prop := View {
  v_out : sub s out = Some (NDir O);
  v_root : sub s root = Some (NDir Rm);
  v_wf : fs_wf s;
}.

Lemma root_not_nil : root <> [].
Proof using Hdis. intros ->. destruct Hdis as [_ H]. by apply H, prefix_nil. Qed.
Lemma out_not_nil : out <> [].
Proof using Hdis. intros ->. destruct Hdis as [H _]. by apply H, prefix_nil. Qed.

Lemma view_put_out s O Rm r v O' :
  view s O Rm -> r <> [] -> tput (NDir O) r v = Some (NDir O') ->
  (forall n, v = Some n -> node_below (next_ino s) n) ->
  exists t, tput (tree s) (out ++ r) v = Some t /\ view (set_tree t s) O' Rm.
Proof using Hdis.
  intros [Ho Hr Hwf] Hne Hput Hv.
  destruct (tput_under _ _ _ _ _ _ Ho Hne Hput) as (t & Ht & Hto).
  exists t. split; [done|]. split; simpl; [done| |by eapply fs_wf_tput].
  rewrite (tget_tput_other _ _ _ _ _ Ht); [done|by apply disjoint_paths_app_l].
Qed.

Lemma view_put_root s O Rm r v Rm' :
  view s O Rm -> r <> [] -> tput (NDir Rm) r v = Some (NDir Rm') ->
  (forall n, v = Some n -> node_below (next_ino s) n) ->
  exists t, tput (tree s) (root ++ r) v = Some t /\ view (set_tree t s) O Rm'.
Proof using Hdis.
  intros [Ho Hr Hwf] Hne Hput Hv.
  destruct (tput_under _ _ _ _ _ _ Hr Hne Hput) as (t & Ht & Htr).
  exists t. split; [done|]. split; simpl; [|done|by eapply fs_wf_tput].
  rewrite (tget_tput_other _ _ _ _ _ Ht); [done|].
  by apply disjoint_paths_app_l, disjoint_paths_sym.
Qed.

Section Calls.
Context (s : fs) (O Rm : gmap string node) (Hv : view s O Rm).

Lemma sub_out c : sub s (out ++ [c]) = O !! c.
Proof using Hv. rewrite (sub_app _ _ _ _ (v_out _ _ _ Hv)); simpl. by destruct (O !! c). Qed.
Lemma sub_root c : sub s (root ++ [c]) = Rm !! c.
Proof using Hv. rewrite (sub_app _ _ _ _ (v_root _ _ _ Hv)); simpl. by destruct (Rm !! c). Qed.
Lemma sub_root2 d e D : Rm !! d = Some (NDir D) -> sub s (root ++ [d; e]) = D !! e.
Proof using Hv.
  intros Hd. rewrite (sub_app _ _ _ _ (v_root _ _ _ Hv)); simpl.
  rewrite Hd; simpl. by destruct (D !! e).
Qed.
Lemma locate_out c : locate (tree s) (out ++ [c]) = Ok (out ++ [c]).
Proof using Hv. eapply locate_direct, (v_out _ _ _ Hv). Qed.
Lemma locate_root c : locate (tree s) (root ++ [c]) = Ok (root ++ [c]).
Proof using Hv. eapply locate_direct, (v_root _ _ _ Hv). Qed.
Lemma locate_root2 d e D :
  Rm !! d = Some (NDir D) -> locate (tree s) (root ++ [d; e]) = Ok (root ++ [d; e]).
Proof using Hv.
  intros Hd. rewrite snoc2. apply locate_direct with D. by rewrite sub_root.
Qed.
Lemma below_out c n : O !! c = Some n -> node_below (next_ino s) n.
Proof using Hv. intros H. eapply fs_wf_sub; [by eapply v_wf|]. by rewrite sub_out. Qed.
Lemma below_root c n : Rm !! c = Some n -> node_below (next_ino s) n.
Proof using Hv. intros H. eapply fs_wf_sub; [by eapply v_wf|]. by rewrite sub_root. Qed.
Lemma below_root2 d e D n :
  Rm !! d = Some (NDir D) -> D !! e = Some n -> node_below (next_ino s) n.
Proof using Hv.
  intros Hd H. eapply fs_wf_sub; [by eapply v_wf|]. by rewrite (sub_root2 d e D Hd).
Qed.

Lemma rename_to_root c d e D n :
  O !! c = Some n -> Rm !! d = Some (NDir D) -> D !! e = None ->
  exists t, sys_rename (out ++ [c]) (root ++ [d; e]) s = Ok (tt, set_tree t s) /\
    view (set_tree t s) (delete c O) (<[d := NDir (<[e := n]> D)]> Rm).
Proof using Hv Hdis.
  intros Hc Hd He.
  destruct (view_put_out _ _ _ [c] None _ Hv ltac:(done) eq_refl ltac:(done))
    as (t1 & Ht1 & Hv1).
  destruct (view_put_root _ _ _ [d; e] (Some n) (<[d := NDir (<[e := n]> D)]> Rm) Hv1)
    as (t2 & Ht2 & Hv2); [done|by simpl; rewrite Hd| |].
  { intros ? [= <-]. by apply (below_out c). }
  exists t2. split; [|exact Hv2].
  eapply rename_ok; [apply locate_out|by eapply locate_root2|by rewrite sub_out|
    by rewrite (sub_root2 d e D Hd)| |done..].
  exact (proj1 (disjoint_paths_app _ _ _ _ Hdis)).
Qed.

Lemma rename_to_out c d e D n :
  Rm !! d = Some (NDir D) -> D !! e = Some n -> O !! c = None ->
  exists t, sys_rename (root ++ [d; e]) (out ++ [c]) s = Ok (tt, set_tree t s) /\
    view (set_tree t s) (<[c := n]> O) (<[d := NDir (delete e D)]> Rm).
Proof using Hv Hdis.
  intros Hd He Hc.
  destruct (view_put_root _ _ _ [d; e] None (<[d := NDir (delete e D)]> Rm) Hv)
    as (t1 & Ht1 & Hv1); [done|by simpl; rewrite Hd|done|].
  destruct (view_put_out _ _ _ [c] (Some n) _ Hv1 ltac:(done) eq_refl)
    as (t2 & Ht2 & Hv2).
  { intros ? [= <-]. by eapply (below_root2 d e). }
  exists t2. split; [|exact Hv2].
  eapply rename_ok; [by eapply locate_root2|apply locate_out|
    by rewrite (sub_root2 d e D Hd)|by rewrite sub_out| |done..].
  exact (proj1 (disjoint_paths_app _ _ _ _ (disjoint_paths_sym _ _ Hdis))).
Qed.

Lemma link_to_out c d e D i :
  Rm !! d = Some (NDir D) -> D !! e = Some (NFile i) -> O !! c = None ->
  exists t, sys_hard_link (root ++ [d; e]) (out ++ [c]) s = Ok (tt, set_tree t s) /\
    view (set_tree t s) (<[c := NFile i]> O) Rm.
Proof using Hv Hdis.
  intros Hd He Hc.
  destruct (view_put_out _ _ _ [c] (Some (NFile i)) _ Hv ltac:(done) eq_refl)
    as (t & Ht & Hv1).
  { intros ? [= <-]. by eapply (below_root2 d e). }
  exists t. split; [|exact Hv1].
  unfold sys_hard_link, lookup_nofollow. rewrite (locate_root2 d e D Hd); simpl.
  rewrite (sub_root2 d e D Hd), He; simpl.
  apply place_ok; [apply locate_out|by rewrite sub_out|done].
Qed.

Lemma mkdir_root d :
  Rm !! d = None ->
  exists t, sys_create_dir (root ++ [d]) s = Ok (tt, set_tree t s) /\
    view (set_tree t s) O (<[d := NDir ∅]> Rm).
Proof using Hv Hdis.
  intros Hd.
  destruct (view_put_root _ _ _ [d] (Some (NDir ∅)) _ Hv ltac:(done) eq_refl)
    as (t & Ht & Hv1).
  { intros ? [= <-] [|? ?] i; simpl; [done|]. by rewrite lookup_empty. }
  exists t. split; [|exact Hv1].
  apply place_ok; [apply locate_root|by rewrite sub_root|done].
Qed.

Lemma remove_file_root x n :
  Rm !! x = Some n -> is_dir n = false ->
  exists t, sys_remove_file (root ++ [x]) s = Ok (tt, set_tree t s) /\
    view (set_tree t s) O (delete x Rm).
Proof using Hv Hdis.
  intros Hx Hn.
  destruct (view_put_root _ _ _ [x] None _ Hv ltac:(done) eq_refl ltac:(done))
    as (t & Ht & Hv1).
  exists t. split; [|exact Hv1]. unfold sys_remove_file. rewrite locate_root; simpl.
  rewrite sub_root, Hx. rewrite Ht. by destruct n.
Qed.

Lemma remove_all_root x m :
  Rm !! x = Some (NDir m) ->
  exists t, sys_remove_dir_all (root ++ [x]) s = Ok (tt, set_tree t s) /\
    view (set_tree t s) O (delete x Rm).
Proof using Hv Hdis.
  intros Hx.
  destruct (view_put_root _ _ _ [x] None _ Hv ltac:(done) eq_refl ltac:(done))
    as (t & Ht & Hv1).
  exists t. split; [|exact Hv1]. unfold sys_remove_dir_all. rewrite locate_root; simpl.
  by rewrite sub_root, Hx, Ht.
Qed.

Lemma torn_remove_root x m k :
  Rm !! x = Some (NDir m) ->
  exists t, torn_remove_dir_all (root ++ [x]) k s = set_tree t s /\
    view (set_tree t s) O (<[x := prune k (NDir m)]> Rm).
Proof using Hv Hdis.
  intros Hx.
  destruct (view_put_root _ _ _ [x] (Some (prune k (NDir m))) _ Hv ltac:(done) eq_refl)
    as (t & Ht & Hv1).
  { intros ? [= <-] r i Hi.
    destruct (sh_file _ _ (prune_shrunk k (NDir m)) _ _ Hi) as [r' Hr'].
    by eapply (below_root x). }
  exists t. split; [|exact Hv1]. unfold torn_remove_dir_all. rewrite locate_root.
  by rewrite sub_root, Hx, Ht.
Qed.

(** A new, empty file: the state after its creation. *)
Definition created (t : node) : fs :=
  Fs t (<[next_ino s := []]> (inodes s)) (S (next_ino s)) (foreign_locks s) (locks s)
    (entropy s).

Lemma create_root x :
  Rm !! x = None ->
  exists t, sys_create_new (root ++ [x]) s = Ok (next_ino s, created t) /\
    view (created t) O (<[x := NFile (next_ino s)]> Rm).
Proof using Hv Hdis.
  intros Hx. destruct Hv as [Ho Hr Hwf].
  destruct (tput_under (tree s) root (NDir Rm) [x] (Some (NFile (next_ino s))) _ Hr
    ltac:(done) eq_refl) as (t & Ht & Htr).
  exists t. split.
  - unfold sys_create_new.
    by rewrite (place_ok s (root ++ [x]) _ t); [|apply locate_root|rewrite sub_root|].
  - split; [| exact Htr |].
    + simpl. rewrite (tget_tput_other _ _ _ _ _ Ht); [done|].
      by apply disjoint_paths_app_l, disjoint_paths_sym.
    + intros p i Hi; simpl in *.
      destruct (tput_files _ _ _ _ _ _ Ht Hi) as [[q Hq]|(n & r & [= <-] & Hn)].
      * specialize (Hwf _ _ Hq). lia.
      * destruct r; simpl in Hn; naive_solver lia.
Qed.

Lemma created_keeps t : keeps s (created t).
Proof.
  split; simpl; [lia|]. intros i Hi. unfold file_bytes; simpl.
  by rewrite lookup_insert_ne by lia.
Qed.
Lemma created_bytes t : file_bytes (created t) (next_ino s) = [].
Proof. unfold file_bytes; simpl. by rewrite lookup_insert_eq. Qed.
End Calls.

(** The transaction directory is gone; the output directory holds [O]. *)
Definition gone (O : gmap string node) (s : fs) : Prop :=
  sub s root = None /\ sub s out = Some (NDir O) /\ fs_wf s.

Lemma remove_root s O :
  view s O ∅ ->
  exists t, sys_remove_dir root s = Ok (tt, set_tree t s) /\
    gone O (set_tree t s) /\ dir_at (set_tree t s) (parent root).
Proof using Hdis.
  intros [Ho Hr Hwf]. destruct (exists_last root_not_nil) as (d & c & Heq).
  assert (Hd : exists m, tget (tree s) d = Some (NDir m)).
  { rewrite Heq in Hr. by eapply tget_prefix_dir. }
  destruct Hd as [m Hm]. destruct (tput_Some_ex (tree s) d m c None Hm) as [t Ht].
  exists t. unfold gone. split_and!.
  - unfold sys_remove_dir. rewrite (locate_present _ _ _ Hr root_not_nil); simpl.
    rewrite Hr, decide_True by done. rewrite Heq, Ht. done.
  - rewrite Heq. by apply (tget_tput_same _ _ _ _ Ht).
  - rewrite <- Heq in Ht. simpl.
    rewrite (tget_tput_other _ _ _ _ _ Ht); [done|by apply disjoint_paths_sym].
  - rewrite <- Heq in Ht. by eapply fs_wf_tput.
  - rewrite Heq, parent_app. eexists. by apply (tput_snoc _ _ _ _ _ _ Ht Hm).
Qed.

Lemma view_set_inode s O Rm i b : view s O Rm -> view (set_inode i b s) O Rm.
Proof. by intros [Ho Hr Hwf]; split. Qed.

Lemma view_dir_root s O Rm : view s O Rm -> dir_at s root.
Proof. intros Hv. exists Rm. apply Hv. Qed.
Lemma view_dir_out s O Rm : view s O Rm -> dir_at s out.
Proof. intros Hv. exists O. apply Hv. Qed.
Lemma view_dir_root1 s O Rm d D :
  view s O Rm -> Rm !! d = Some (NDir D) -> dir_at s (root ++ [d]).
Proof. intros Hv Hd. exists D. by rewrite (sub_root _ _ _ Hv). Qed.
End Regions.

(** ** Durable steps *)

Lemma wp_sync_directory q p stage (Q : unit -> fs -> Prop) (X : OffprintError -> fs -> Prop) C s :
  dir_at s p -> Q tt s -> (q = false -> (forall e, X e s) /\ C s) ->
  wp q (sync_directory p stage) Q X C s.
Proof.
  intros [m Hm] HQ HX. unfold sync_directory, fs_sync_dir. wp_steps.
  apply wp_sys; rewrite ?(sync_dir_direct _ _ _ Hm); [by intros [] ? [= <-]|done|].
  intros Hq. destruct (HX Hq). auto.
Qed.

Lemma wp_attempt_sync q p stage (Q : Res unit -> fs -> Prop) (X : OffprintError -> fs -> Prop) C s :
  dir_at s p -> (forall r, Q r s) -> (q = false -> C s) ->
  wp q (attempt (sync_directory p stage)) Q X C s.
Proof. intros Hp HQ HC. wp_steps. apply wp_sync_directory; auto. Qed.

(** The two synchronisations around a move. *)
Lemma wp_sync_both q p p' stage (Q : unit -> fs -> Prop) (X : OffprintError -> fs -> Prop) C s :
  dir_at s p' -> Q tt s -> (q = false -> (forall e, X e s) /\ C s) ->
  wp q (if decide (p' = p) then mpure tt else sync_directory p' stage) Q X C s.
Proof. intros Hp HQ HX. case_decide; [by apply wp_pure|by apply wp_sync_directory]. Qed.

Lemma wp_durable_rename q a b (Q : DurabilityOutcome -> fs -> Prop)
    (X : OffprintError -> fs -> Prop) (C : fs -> Prop) s s' :
  sys_rename a b s = Ok (tt, s') ->
  dir_at s (parent a) -> dir_at s (parent b) -> dir_at s' (parent a) -> dir_at s' (parent b) ->
  (forall o, Q o s') ->
  (q = false -> (forall e, X e s) /\ C s /\ C s') ->
  wp q (durable_rename a b) Q X C s.
Proof.
  intros Hr Ha Hb Ha' Hb' HQ HX. unfold durable_rename, durable_rename_with. wp_step.
  apply wp_sync_directory; [done| |naive_solver]. wp_step.
  apply wp_sync_both; [done| |naive_solver]. wp_steps.
  apply wp_sys; rewrite ?Hr; [|done|naive_solver]. intros [] ? [= <-]. wp_step.
  apply wp_attempt_sync; [done| |naive_solver]. intros w. wp_step.
  case_decide; [by wp_steps|].
  destruct w; [|by wp_steps]. apply wp_attempt_sync; [done| |naive_solver].
  intros r. by wp_steps.
Qed.

Lemma wp_durable_hard_link q a b (Q : DurabilityOutcome -> fs -> Prop)
    (X : OffprintError -> fs -> Prop) (C : fs -> Prop) s s' :
  sys_hard_link a b s = Ok (tt, s') ->
  dir_at s (parent a) -> dir_at s (parent b) -> dir_at s' (parent b) ->
  (forall o, Q o s') ->
  (q = false -> (forall e, X e s) /\ C s /\ C s') ->
  wp q (durable_hard_link a b) Q X C s.
Proof.
  intros Hr Ha Hb Hb' HQ HX. unfold durable_hard_link. wp_step.
  apply wp_sync_directory; [done| |naive_solver]. wp_step.
  apply wp_sync_both; [done| |naive_solver]. wp_steps.
  apply wp_sys; rewrite ?Hr; [|done|naive_solver]. intros [] ? [= <-]. wp_step.
  apply wp_attempt_sync; [done| |naive_solver]. intros r. by wp_steps.
Qed.

Lemma wp_create_directory q p stage (Q : unit -> fs -> Prop)
    (X : OffprintError -> fs -> Prop) (C : fs -> Prop) s s' :
  sys_create_dir p s = Ok (tt, s') -> dir_at s' (parent p) -> dir_at s' p ->
  Q tt s' ->
  (q = false -> forall st, st = s \/ st = s' -> (forall e, X e st) /\ C st) ->
  wp q (create_directory p stage) Q X C s.
Proof.
  intros Hr Ha Hb HQ HX. unfold create_directory, sync_parent. wp_steps.
  apply wp_sys; rewrite ?Hr; [|done|naive_solver]. intros [] ? [= <-]. wp_step.
  apply wp_sync_directory; [done| |naive_solver].
  apply wp_sync_directory; [done..|naive_solver].
Qed.

Lemma wp_remove_direct_path q out root x n (Q : unit -> fs -> Prop)
    (X : OffprintError -> fs -> Prop) (C : fs -> Prop) s O Rm :
  disjoint_paths out root -> view out root s O Rm -> Rm !! x = Some n -> n <> NOther ->
  (forall t, view out root (set_tree t s) O (delete x Rm) -> Q tt (set_tree t s)) ->
  (q = false -> (forall e, X e s) /\ C s /\
     forall t k m, n = NDir m ->
       view out root (set_tree t s) O (<[x := prune k (NDir m)]> Rm) ->
       (forall e, X e (set_tree t s)) /\ C (set_tree t s)) ->
  wp q (remove_direct_path (root ++ [x])) Q X C s.
Proof.
  intros Hdis Hv Hx Hn HQ HX. unfold remove_direct_path. wp_steps.
  assert (Hsub : sub s (root ++ [x]) = Some n) by by rewrite (sub_root _ _ _ _ _ Hv).
  apply wp_sys; rewrite ?(symlink_metadata_direct _ _ _ Hsub) by (by destruct root);
    [|done|naive_solver].
  intros ? ? [= <- <-]. destruct n as [i|m|tg|]; simpl; [| | |done]; wp_steps.
  1,3: destruct (remove_file_root _ _ Hdis _ _ _ Hv _ _ Hx eq_refl) as (t & Ht & Hv1);
    apply wp_sys; rewrite ?Ht; [by intros [] ? [= <-]; auto|done|naive_solver].
  destruct (remove_all_root _ _ Hdis _ _ _ Hv _ _ Hx) as (t & Ht & Hv1).
  apply wp_sys_torn; rewrite ?Ht; [by intros [] ? [= <-]; auto|done|].
  intros Hq. destruct (HX Hq) as (HX1 & HX2 & HX3). split; [auto|]. split; [done|].
  intros k. destruct (torn_remove_root _ _ Hdis _ _ _ Hv _ _ k Hx) as (t' & -> & Hv2).
  destruct (HX3 _ _ _ eq_refl Hv2). auto.
Qed.

(** The states a new file goes through: absent, created, partly and completely
    written. *)
Definition partial_file (s s1 : fs) (i : nat) (b : bytes) (st : fs) : Prop :=
  st = s \/ st = s1 \/ exists n, st = set_inode i (take n b) s1.

Lemma wp_write_new_file q p b stage (Q : unit -> fs -> Prop)
    (X : OffprintError -> fs -> Prop) (C : fs -> Prop) s i s1 :
  sys_create_new p s = Ok (i, s1) -> file_bytes s1 i = [] ->
  (forall st, tree st = tree s1 -> dir_at st (parent p)) ->
  Q tt (set_inode i b s1) ->
  (q = false -> forall st, partial_file s s1 i b st -> (forall e, X e st) /\ C st) ->
  wp q (write_new_file p b stage) Q X C s.
Proof.
  intros Hc He Hd HQ HX. unfold write_new_file, sync_parent.
  assert (Hfull : q = false -> (forall e, X e (set_inode i b s1)) /\ C (set_inode i b s1)).
  { intros Hq. apply HX; [done|]. right; right. exists (length b). by rewrite firstn_all. }
  wp_steps. apply wp_sys; rewrite ?Hc; [|done|].
  2:{ intros Hq. destruct (HX Hq s); [by left|auto]. }
  intros ? ? [= <- <-]. wp_steps. apply wp_sys_torn; simpl; rewrite ?He; [|done|].
  - intros [] s2 [= <-]. rewrite He. wp_steps.
    apply wp_sys; [|done|by intros Hq; destruct (Hfull Hq); auto].
    intros [] s3 [= <-]. by apply wp_sync_directory; [apply Hd| |].
  - intros Hq. destruct (HX Hq s1) as [HX1 HC1]; [by right; left|].
    split; [auto|]. split; [done|]. intros n. rewrite ?He; simpl.
    destruct (HX Hq (set_inode i (take n b) s1)); [right; right; eauto|auto].
Qed.
