(* ===== verification/JournalFacts.v ===== *)
(** * What the journal files of a transaction say

    A transaction numbers its journal snapshots; each is a new file.  [jst]
    describes which of them a transaction directory holds: the phases written
    so far, how many of the oldest are already removed, and whether the file
    after the last complete one is cut short.  Loading finds the last complete
    snapshot, persisting appends one, under every fault. *)

From Stdlib Require Import ZArith Lia Ascii String.
From stdpp Require Import base tactics list gmap strings numbers sorting.
From S2P Require Import Prelude.
From S2P Require Import Errors.
From S2P Require Import Fs.
From S2P Require Import Io.
From S2P Require Import FsFacts.
From S2P Require Import Records.
From S2P Require Import Durable.
From S2P Require Import Journal.
From S2P Require Import Plan.
From S2P Require Import Matching.
From S2P Require Import Regions.

#[local] Open Scope string_scope.
#[local] Open Scope Z_scope.
#[local] Open Scope list_scope.

(** What the transaction relies on from [serde_json]: a serialised journal
    parses back, and a JSON object cut short does not parse. *)
Class JournalCodecLaws `{JournalCodec} : Prop := {
  journal_round_trip j b : journal_encode j = Some b -> journal_decode b = Some j;
  journal_no_prefix j b b' :
    journal_encode j = Some b -> b' `prefix_of` b -> b' <> b -> journal_decode b' = None;
}.

(** ** Journal names *)

(** The snapshots a transaction can hold: four phases and one cut short. *)
Definition SLOTS : nat := 5.

Abbreviation slot_name k := (journal_name (Z.of_nat k)).

Lemma below_slots (P : nat -> Prop) :
  P 0%nat -> P 1%nat -> P 2%nat -> P 3%nat -> P 4%nat ->
  forall k, (k < SLOTS)%nat -> P k.
Proof.
  intros. destruct k as [|[|[|[|[|k]]]]]; try done. exfalso. unfold SLOTS in *. lia.
Qed.

Lemma slot_name_is_journal k : (k < SLOTS)%nat -> is_journal_name (slot_name k) = true.
Proof. revert k. apply below_slots; vm_compute; done. Qed.

Lemma slot_name_sequence k :
  (k < SLOTS)%nat ->
  strip_prefix "journal-" (file_stem (slot_name k)) ≫= parse_u32 = Some (Z.of_nat k).
Proof. revert k. apply below_slots; vm_compute; done. Qed.

Lemma slot_name_inj k k' :
  (k < SLOTS)%nat -> (k' < SLOTS)%nat -> slot_name k = slot_name k' -> k = k'.
Proof.
  intros Hk Hk' H. apply (f_equal (fun n => strip_prefix "journal-" (file_stem n) ≫= parse_u32)) in H.
  rewrite !slot_name_sequence in H by done. injection H. lia.
Qed.

Lemma slot_name_sorted k k' :
  (k <= k')%nat -> (k' < SLOTS)%nat -> string_le (slot_name k) (slot_name k').
Proof.
  intros Hk Hk'. revert k' Hk' k Hk.
  apply (below_slots (fun k' => forall k, (k <= k')%nat -> string_le (slot_name k) (slot_name k')));
    intros k Hk; repeat (destruct k as [|k]; [vm_compute; done|]); lia.
Qed.

Lemma slot_names_sorted lo n :
  (lo + n <= SLOTS)%nat ->
  Sorted string_le (map (fun k => slot_name k) (seq lo n)).
Proof.
  revert lo. induction n as [|n IH]; intros lo Hn; simpl; [constructor|].
  constructor; [apply IH; unfold SLOTS in *; lia|]. destruct n; simpl; constructor.
  apply slot_name_sorted; unfold SLOTS in *; lia.
Qed.

Section Journals.
Context `{JournalCodec} {Hlaws : JournalCodecLaws}.
Context (out root : path) (Hdis : disjoint_paths out root).
Context (j0 : TransactionJournal) (identity : string).

(** The journal belongs to this transaction directory. *)
Record journal_base : Prop := {
  jb_schema : schema_version j0 = JOURNAL_SCHEMA_VERSION;
  jb_identity : output_identity j0 = identity;
  jb_id : file_name root = Some (transaction_id j0);
  jb_entries : validate_entries (entries j0) = Ok tt;
}.
Context (Hj0 : journal_base).

Definition snapshot (k : nat) (ph : JournalPhase) : TransactionJournal :=
  with_phase j0 (Z.of_nat k) ph.

(** A whole snapshot, and a file that is not one. *)
Definition complete (k : nat) (ph : JournalPhase) (b : bytes) : Prop :=
  journal_encode (snapshot k ph) = Some b /\ len_u64 b <= MAXIMUM_JOURNAL_BYTES.
Definition cut (b : bytes) : Prop :=
  journal_decode b = None /\ len_u64 b <= MAXIMUM_JOURNAL_BYTES.

Record jst (s : fs) (Rm : gmap string node) (hist : list JournalPhase) (lo : nat)
    (torn : bool) : Prop := {
  jst_len : (length hist < SLOTS)%nat;
  jst_lo : (lo <= length hist)%nat;
  jst_names name n :
    Rm !! name = Some n -> is_journal_name name = true ->
    exists k, name = slot_name k /\ (lo <= k < length hist + Nat.b2n torn)%nat;
  jst_hist k ph :
    (lo <= k)%nat -> hist !! k = Some ph ->
    exists i, Rm !! slot_name k = Some (NFile i) /\ complete k ph (file_bytes s i);
  jst_torn :
    torn = true ->
    exists i, Rm !! slot_name (length hist) = Some (NFile i) /\ cut (file_bytes s i);
}.

(** The last snapshot among the first [k], when [lo] of them are gone. *)
Definition upto (hist : list JournalPhase) (lo k : nat) : option TransactionJournal :=
  if decide (lo < k)%nat then snapshot (pred k) <$> hist !! pred k else None.
Definition latest (hist : list JournalPhase) (lo : nat) : option TransactionJournal :=
  upto hist lo (length hist).

Lemma take_journal (b : bytes) :
  len_u64 b <= MAXIMUM_JOURNAL_BYTES ->
  take (Z.to_nat (MAXIMUM_JOURNAL_BYTES + 1)) b = b.
Proof.
  intros Hb. apply take_ge. unfold len_u64, MAXIMUM_JOURNAL_BYTES in *. ranges. lia.
Qed.

Lemma decode_complete k ph b :
  (k < SLOTS)%nat -> complete k ph b ->
  decode_candidate root identity (slot_name k) b = Some (snapshot k ph).
Proof using Hj0 Hlaws.
  intros Hk [He Hb]. unfold decode_candidate. rewrite (take_journal _ Hb).
  rewrite (proj2 (Z.ltb_ge _ _) Hb), (journal_round_trip _ _ He).
  destruct Hj0 as [H1 H2 H3 H4]. unfold snapshot, with_phase; simpl.
  rewrite H1, H2, H3, H4; simpl. rewrite !bool_decide_eq_true_2 by done; simpl.
  by rewrite slot_name_sequence, bool_decide_eq_true_2.
Qed.

Lemma decode_cut name b : cut b -> decode_candidate root identity name b = None.
Proof.
  intros [Hd Hb]. unfold decode_candidate.
  by rewrite (take_journal _ Hb), (proj2 (Z.ltb_ge _ _) Hb), Hd.
Qed.

Lemma jst_sorted_names s Rm hist lo torn :
  jst s Rm hist lo torn ->
  sort_names (List.filter is_journal_name (map_to_list Rm).*1) =
  map (fun k => slot_name k) (seq lo (length hist + Nat.b2n torn - lo)).
Proof.
  intros [Hlen Hlo Hnames Hhist Htorn].
  assert (Hb : (Nat.b2n torn <= 1)%nat) by (destruct torn; simpl; lia).
  apply (Sorted_unique string_le).
  - apply Sorted_merge_sort, _.
  - apply slot_names_sorted. unfold SLOTS in *. lia.
  - unfold sort_names. rewrite merge_sort_Permutation. apply NoDup_Permutation.
    + apply NoDup_ListNoDup, List.NoDup_filter, NoDup_ListNoDup, NoDup_fst_map_to_list.
    + apply NoDup_ListNoDup, NoDup_map_NoDup_ForallPairs; [|apply seq_NoDup].
      intros k k' Hk%in_seq Hk'%in_seq. apply slot_name_inj; unfold SLOTS in *; lia.
    + intros name. rewrite !list_elem_of_In, filter_In, in_map_iff, <- list_elem_of_In.
      split.
      * intros [Hin Hj]. apply list_elem_of_fmap in Hin as ([nm n] & -> & Hn).
        apply elem_of_map_to_list in Hn. destruct (Hnames _ _ Hn Hj) as (k & -> & Hk).
        exists k. split; [done|]. apply in_seq. lia.
      * intros (k & <- & Hk%in_seq).
        assert (Hkn : exists i, Rm !! slot_name k = Some (NFile i)).
        { destruct (decide (k < length hist)%nat) as [Hlt|Hge].
          - destruct (lookup_lt_is_Some_2 _ _ Hlt) as [ph Hph].
            destruct (Hhist k ph) as (i & Hi & _); [lia|done|eauto].
          - destruct torn; simpl in *; [|lia].
            destruct Htorn as (i & Hi & _); [done|].
            replace k with (length hist) by lia. eauto. }
        destruct Hkn as [i Hi]. split.
        -- apply list_elem_of_fmap. exists (slot_name k, NFile i). split; [done|].
           by apply elem_of_map_to_list.
        -- apply slot_name_is_journal. unfold SLOTS in *. lia.
Qed.

(** ** Loading *)

Lemma wp_load_candidate q s O Rm name i (Q : option TransactionJournal -> fs -> Prop)
    (X : OffprintError -> fs -> Prop) (C : fs -> Prop) :
  view out root s O Rm -> Rm !! name = Some (NFile i) ->
  len_u64 (file_bytes s i) <= MAXIMUM_JOURNAL_BYTES ->
  Q (decode_candidate root identity name (file_bytes s i)) s ->
  (q = false -> (forall e, X e s) /\ C s) ->
  wp q (load_candidate root identity name) Q X C s.
Proof using Hdis.
  intros Hv Hi Hlen HQ HX. unfold load_candidate. wp_steps.
  assert (Hsub : sub s (root ++ [name]) = Some (NFile i)).
  { by rewrite (sub_root _ _ _ _ _ Hv). }
  apply wp_sys; rewrite ?(symlink_metadata_direct _ _ _ Hsub) by (by destruct root);
    [|done|naive_solver].
  intros ? ? [= <- <-]; simpl. rewrite (proj2 (Z.ltb_ge _ _) Hlen). wp_steps.
  apply wp_sys; rewrite ?(read_direct _ _ _ Hsub); [|done|naive_solver].
  intros ? ? [= <- <-]. by wp_steps.
Qed.

Lemma upto_step hist lo k ph :
  (lo <= k)%nat -> hist !! k = Some ph ->
  newer (upto hist lo k) (snapshot k ph) = upto hist lo (S k).
Proof.
  intros Hlo Hk. unfold upto. rewrite (decide_True (P:=(lo < S k)%nat)) by lia.
  simpl. rewrite Hk; simpl. case_decide as Hlt; [|done].
  destruct (hist !! pred k) as [ph'|] eqn:Hp; simpl; [|done].
  by rewrite (proj2 (Z.ltb_lt _ _)) by lia.
Qed.

Lemma wp_load_candidates q s O Rm hist lo torn (Q : option TransactionJournal -> fs -> Prop)
    (X : OffprintError -> fs -> Prop) (C : fs -> Prop) k n :
  view out root s O Rm -> jst s Rm hist lo torn ->
  (lo <= k)%nat -> (k + n = length hist + Nat.b2n torn)%nat ->
  Q (latest hist lo) s ->
  (q = false -> (forall e, X e s) /\ C s) ->
  wp q (load_candidates root identity (map (fun k => slot_name k) (seq k n))
          (upto hist lo (Nat.min k (length hist)))) Q X C s.
Proof using Hdis Hj0 Hlaws.
  intros Hv [Hlen Hlo Hnames Hhist Htorn] Hk Hn HQ HX. revert k Hk Hn.
  induction n as [|n IH]; intros k Hk Hn; simpl.
  { apply wp_pure. by rewrite Nat.min_r by lia. }
  wp_steps. destruct (decide (k < length hist)%nat) as [Hlt|Hge].
  - destruct (lookup_lt_is_Some_2 _ _ Hlt) as [ph Hph].
    destruct (Hhist _ _ Hk Hph) as (i & Hi & Hc).
    eapply wp_load_candidate; [done|done|apply Hc| |done].
    rewrite (decode_complete k ph _) by (done || (unfold SLOTS in *; lia)).
    rewrite Nat.min_l, upto_step by (done || lia).
    specialize (IH (S k)). rewrite Nat.min_l in IH by lia. apply IH; lia.
  - destruct torn; simpl in Hn; [|lia]. destruct Htorn as (i & Hi & Hc); [done|].
    assert (k = length hist) as -> by lia. assert (n = 0%nat) as -> by lia.
    eapply wp_load_candidate; [done|done|apply Hc| |done].
    rewrite (decode_cut _ _ Hc). simpl. apply wp_pure. by rewrite Nat.min_r by lia.
Qed.

Lemma wp_load_latest q s O Rm hist lo torn (Q : option TransactionJournal -> fs -> Prop)
    (X : OffprintError -> fs -> Prop) (C : fs -> Prop) :
  view out root s O Rm -> jst s Rm hist lo torn ->
  Q (latest hist lo) s ->
  (q = false -> (forall e, X e s) /\ C s) ->
  wp q (load_latest_journal root identity) Q X C s.
Proof using Hdis Hj0 Hlaws.
  intros Hv Hj HQ HX. unfold load_latest_journal. wp_steps.
  apply wp_sys; rewrite ?(read_dir_direct _ _ _ (v_root _ _ _ _ _ Hv));
    [|done|naive_solver].
  intros ? ? [= <- <-]. pose proof (jst_sorted_names _ _ _ _ _ Hj) as Hsort.
  pose proof (jst_len _ _ _ _ _ Hj). pose proof (jst_lo _ _ _ _ _ Hj).
  rewrite bool_decide_eq_false_2.
  - rewrite Hsort. pose proof (wp_load_candidates q s O Rm hist lo torn Q X C lo
      (length hist + Nat.b2n torn - lo) Hv Hj) as Hl.
    rewrite Nat.min_l in Hl by lia. unfold upto in Hl. rewrite decide_False in Hl by lia.
    apply Hl; [lia|lia|done|done].
  - apply (f_equal length) in Hsort. unfold sort_names in Hsort.
    rewrite merge_sort_Permutation, length_map, length_seq in Hsort. rewrite Hsort.
    unfold MAXIMUM_JOURNAL_FILES, SLOTS in *. destruct torn; simpl; lia.
Qed.

(** ** Persisting *)

Definition same_journals (Rm Rm' : gmap string node) : Prop :=
  forall name, is_journal_name name = true -> Rm' !! name = Rm !! name.
Definition same_others (Rm Rm' : gmap string node) : Prop :=
  forall name, is_journal_name name = false -> Rm' !! name = Rm !! name.

Lemma jst_frame s s' O Rm Rm' hist lo torn :
  view out root s O Rm -> keeps s s' -> same_journals Rm Rm' ->
  jst s Rm hist lo torn -> jst s' Rm' hist lo torn.
Proof.
  intros Hv Hk Hs [Hlen Hlo Hnames Hhist Htorn].
  assert (Hb : forall c i, Rm !! c = Some (NFile i) -> file_bytes s' i = file_bytes s i).
  { intros c i Hi. apply Hk. eapply (below_root _ _ _ _ _ Hv c _ Hi []). done. }
  split; [done|done| | |].
  - intros name n Hn Hj. rewrite Hs in Hn by done. eauto.
  - intros k ph Hk1 Hk2. destruct (Hhist _ _ Hk1 Hk2) as (i & Hi & Hc). exists i.
    rewrite Hs, (Hb _ _ Hi); [done|]. apply slot_name_is_journal.
    apply lookup_lt_Some in Hk2. lia.
  - intros Ht. destruct (Htorn Ht) as (i & Hi & Hc). exists i.
    rewrite Hs, (Hb _ _ Hi); [done|]. by apply slot_name_is_journal.
Qed.

(** One more journal file, whole or cut short. *)
Lemma jst_append s s' O Rm hist lo i ph :
  view out root s O Rm -> jst s Rm hist lo false -> keeps s s' ->
  (S (length hist) < SLOTS)%nat ->
  complete (length hist) ph (file_bytes s' i) ->
  jst s' (<[slot_name (length hist) := NFile i]> Rm) (hist ++ [ph]) lo false.
Proof.
  intros Hv Hj Hk Hn Hc.
  apply (jst_frame s s' O Rm Rm) in Hj as [Hlen Hlo Hnames Hhist _]; [|done..].
  split; rewrite ?length_app; simpl; [lia|lia| | |done].
  - intros name n Hi Hjn. apply lookup_insert_Some in Hi as [[<- _]|[Hne Hi]].
    + exists (length hist). split; [done|lia].
    + destruct (Hnames _ _ Hi Hjn) as (k & -> & Hk1). exists k. simpl in *. split; [done|lia].
  - intros k ph' Hk1 [Hk2|[Hk2 Hk3]]%lookup_app_Some.
    + destruct (Hhist _ _ Hk1 Hk2) as (i' & Hi' & Hc'). exists i'. split; [|done].
      rewrite lookup_insert_ne; [done|]. intros Heq.
      apply slot_name_inj in Heq; [|done|apply lookup_lt_Some in Hk2; lia].
      apply lookup_lt_Some in Hk2. lia.
    + apply list_lookup_singleton_Some in Hk3 as [Hk3 <-].
      assert (k = length hist) as -> by lia. exists i. by rewrite lookup_insert_eq.
Qed.

Lemma jst_append_cut s s' O Rm hist lo i :
  view out root s O Rm -> jst s Rm hist lo false -> keeps s s' ->
  cut (file_bytes s' i) ->
  jst s' (<[slot_name (length hist) := NFile i]> Rm) hist lo true.
Proof.
  intros Hv Hj Hk Hc.
  apply (jst_frame s s' O Rm Rm) in Hj as [Hlen Hlo Hnames Hhist _]; [|done..].
  split; simpl; [done|done| | |].
  - intros name n Hi Hjn. apply lookup_insert_Some in Hi as [[<- _]|[Hne Hi]].
    + exists (length hist). split; [done|lia].
    + destruct (Hnames _ _ Hi Hjn) as (k & -> & Hk1). exists k. simpl in *. split; [done|lia].
  - intros k ph' Hk1 Hk2.
    destruct (Hhist _ _ Hk1 Hk2) as (i' & Hi' & Hc'). exists i'. split; [|done].
    apply lookup_lt_Some in Hk2. rewrite lookup_insert_ne; [done|].
    intros Heq. apply slot_name_inj in Heq; lia.
  - intros _. exists i. by rewrite lookup_insert_eq.
Qed.

(** What a state looks like whose journals are [hist]. *)
Definition journaled (s : fs) (O Rm : gmap string node) (hist : list JournalPhase)
    (lo : nat) (torn : bool) (s' : fs) : Prop :=
  exists Rm', view out root s' O Rm' /\ keeps s s' /\ same_others Rm Rm' /\
    jst s' Rm' hist lo torn.

(** Either nothing was appended, or a whole snapshot was, or a cut file. *)
Definition maybe_journaled (s : fs) (O Rm : gmap string node) (hist : list JournalPhase)
    (lo : nat) (ph : JournalPhase) (s' : fs) : Prop :=
  (exists torn, journaled s O Rm hist lo torn s') \/
  journaled s O Rm (hist ++ [ph]) lo false s'.

Definition store_for (st : JournalStore) (n : nat) : Prop :=
  js_root st = root /\ js_next_sequence st = Z.of_nat n /\
  exists k ph, js_snapshot st = snapshot k ph.

Lemma same_others_journal Rm k n :
  (k < SLOTS)%nat -> same_others Rm (<[slot_name k := n]> Rm).
Proof.
  intros Hk name Hn. rewrite lookup_insert_ne; [done|]. intros <-.
  by rewrite slot_name_is_journal in Hn.
Qed.

Lemma maybe_partial s O Rm hist lo ph b t st :
  view out root s O Rm -> jst s Rm hist lo false -> (S (length hist) < SLOTS)%nat ->
  complete (length hist) ph b ->
  view out root (created s t) O (<[slot_name (length hist) := NFile (next_ino s)]> Rm) ->
  partial_file s (created s t) (next_ino s) b st ->
  maybe_journaled s O Rm hist lo ph st.
Proof using Hlaws.
  intros Hv Hj Hn Hc Hv1 Hst.
  assert (Hpre : forall x, x `prefix_of` b ->
    maybe_journaled s O Rm hist lo ph (set_inode (next_ino s) x (created s t))).
  { intros x Hx.
    assert (Hkp : keeps s (set_inode (next_ino s) x (created s t))).
    { apply keeps_set_inode; [apply created_keeps|done]. }
    assert (Hfx : file_bytes (set_inode (next_ino s) x (created s t)) (next_ino s) = x).
    { unfold file_bytes; simpl. by rewrite lookup_insert_eq. }
    destruct (decide (x = b)) as [->|Hne]; [right|left; exists true]; eexists;
      (split_and!; [by apply view_set_inode|done|by apply same_others_journal; lia|]).
    - eapply jst_append; [done..|]. by rewrite Hfx.
    - eapply jst_append_cut; [done..|]. rewrite Hfx. destruct Hc as [He Hb].
      split; [by eapply journal_no_prefix|]. apply prefix_length in Hx.
      unfold len_u64 in *. lia. }
  destruct Hst as [->|[->|[n ->]]].
  - left. exists false, Rm. split_and!; [done|apply keeps_refl|done|done].
  - replace (created s t) with (set_inode (next_ino s) [] (created s t)); [apply Hpre, prefix_nil|].
    unfold set_inode, created; simpl. by rewrite insert_insert_eq.
  - apply Hpre, prefix_take.
Qed.

Lemma wp_persist q st ph s O Rm hist lo (Q : Res unit * JournalStore -> fs -> Prop)
    (X : OffprintError -> fs -> Prop) (C : fs -> Prop) :
  view out root s O Rm -> jst s Rm hist lo false -> (S (length hist) < SLOTS)%nat ->
  store_for st (length hist) ->
  (q = true -> exists b, complete (length hist) ph b) ->
  (forall s', journaled s O Rm (hist ++ [ph]) lo false s' ->
     Q (Ok tt, MkStore root (snapshot (length hist) ph) (Z.of_nat (S (length hist)))) s') ->
  (q = false -> forall s', maybe_journaled s O Rm hist lo ph s' ->
     (forall e st, plain e -> store_for st (length hist) -> Q (Err e, st) s') /\ C s') ->
  wp q (persist st ph) Q X C s.
Proof using Hdis Hlaws.
  intros Hv Hj Hn (Hroot & Hseq & k0 & ph0 & Hsnap) Hq HQ HX.
  unfold persist. rewrite Hroot, Hseq, Hsnap.
  assert (with_phase (snapshot k0 ph0) (Z.of_nat (length hist)) ph = snapshot (length hist) ph)
    as -> by done.
  assert (Herr : (exists b, complete (length hist) ph b) \/
    forall e, plain e ->
      Q (Err e, MkStore root (snapshot (length hist) ph) (Z.of_nat (length hist))) s).
  { destruct q; [by left; auto|right]. intros e Hpl. apply HX; [done| |done|].
    - left. exists false, Rm. split_and!; [done|apply keeps_refl|done|done].
    - split_and!; simpl; eauto. }
  destruct (journal_encode (snapshot (length hist) ph)) as [b|] eqn:He.
  2:{ apply wp_pure. destruct Herr as [[b [Hb _]]|Herr]; [congruence|auto with offprint]. }
  destruct (Z.ltb_spec MAXIMUM_JOURNAL_BYTES (len_u64 b)) as [Hb|Hb].
  { apply wp_pure. destruct Herr as [[b' [Hb1 Hb2]]|Herr]; [|auto with offprint].
    rewrite He in Hb1. injection Hb1 as <-. lia. }
  simpl sequence. wp_steps.
  assert (Hfree : Rm !! slot_name (length hist) = None).
  { apply eq_None_not_Some. intros [n Hx].
    destruct (jst_names _ _ _ _ _ Hj _ _ Hx) as (k & Hk & Hk1); simpl in *.
    - apply slot_name_is_journal. lia.
    - apply slot_name_inj in Hk; lia. }
  destruct (create_root _ _ Hdis _ _ _ Hv _ Hfree) as (t & Ht & Hv1).
  apply (wp_errs q plain); [apply errs_write_new_file|].
  eapply wp_write_new_file; [done|apply created_bytes| | |].
  - intros s1 Hs1. rewrite parent_app. exists (<[slot_name (length hist) := NFile (next_ino s)]> Rm).
    rewrite Hs1. apply Hv1.
  - wp_steps.
    replace (saturating_add u32_max (Z.of_nat (length hist)) 1) with (Z.of_nat (S (length hist)))
      by (unfold saturating_add, u32_max, SLOTS in *; lia).
    apply HQ. eexists. split_and!; [by apply view_set_inode| |by apply same_others_journal; lia|].
    + apply keeps_set_inode; [apply created_keeps|done].
    + eapply jst_append; [done|done| |done|].
      * apply keeps_set_inode; [apply created_keeps|done].
      * unfold file_bytes; simpl. by rewrite lookup_insert_eq.
  - intros Hf s' Hs'. destruct (HX Hf s') as [HX1 HX2]; [by eapply maybe_partial|].
    split; [|done]. intros e Hpl. wp_steps. apply HX1; [done|]. split_and!; simpl; eauto.
Qed.

(** A cut file stands in the way of the next snapshot. *)
Lemma wp_persist_blocked q st ph s O Rm hist lo (Q : Res unit * JournalStore -> fs -> Prop)
    (X : OffprintError -> fs -> Prop) (C : fs -> Prop) :
  view out root s O Rm -> jst s Rm hist lo true -> store_for st (length hist) ->
  (forall e st', Q (Err e, st') s) -> (q = false -> C s) ->
  wp q (persist st ph) Q X C s.
Proof.
  intros Hv Hj (Hroot & Hseq & k0 & ph0 & Hsnap) HQ HC. unfold persist. rewrite Hroot, Hseq, Hsnap.
  destruct (journal_encode _) as [b|]; [|by apply wp_pure].
  case_if; [by apply wp_pure|]. simpl sequence.
  destruct (jst_torn _ _ _ _ _ Hj eq_refl) as (i & Hi & _).
  assert (Hc : sys_create_new (root ++ [slot_name (length hist)]) s = Err AlreadyExists).
  { unfold sys_create_new, place. rewrite (locate_root _ _ _ _ _ Hv); simpl.
    by rewrite (sub_root _ _ _ _ _ Hv), Hi. }
  unfold write_new_file. wp_steps. apply wp_sys; rewrite ?Hc; [done| |].
  - intros ? [= <-]. by wp_steps.
  - intros Hq. split; [|auto]. intros er. by wp_steps.
Qed.

Lemma jst_no_other s Rm hist lo torn name :
  jst s Rm hist lo torn -> is_journal_name name = true -> Rm !! name <> Some NOther.
Proof.
  intros [Hlen Hlo Hnames Hhist Htorn] Hjn Hn.
  destruct (Hnames _ _ Hn Hjn) as (k & -> & Hk).
  destruct (decide (k < length hist)%nat) as [Hlt|Hge].
  - destruct (lookup_lt_is_Some_2 _ _ Hlt) as [ph Hph].
    destruct (Hhist k ph) as (i & Hi & _); [lia|done|congruence].
  - destruct torn; simpl in *; [|lia]. destruct Htorn as (i & Hi & _); [done|].
    assert (k = length hist) as -> by lia. congruence.
Qed.
End Journals.
