(* ===== verification/CleanupFacts.v ===== *)
(** * Removing a transaction directory

    [cleanup_transaction_root] removes recovery material before journals and
    journals from the oldest to the newest, so that the last snapshot stays
    readable until nothing else is left.  [wp_cleanup] says so for every fault:
    whatever interrupts the removal, the output directory is untouched, what
    remains was there before, and the last snapshot is still the one a later
    recovery loads, or the directory holds nothing but journal remains. *)

From Stdlib Require Import ZArith Lia Ascii String.
From stdpp Require Import base tactics list gmap strings numbers sorting.
From S2P Require Import Prelude.
From S2P Require Import Errors.
From S2P Require Import Fs.
From S2P Require Import Io.
From S2P Require Import FsFacts.
From S2P Require Import Records.
From S2P Require Import Durable.
From S2P Require Import Journal.
From S2P Require Import Matching.
From S2P Require Import Regions.
From S2P Require Import JournalFacts.
From S2P Require Import Plan.
From S2P Require Import Recovery.

#[local] Open Scope string_scope.
#[local] Open Scope Z_scope.
#[local] Open Scope list_scope.

Definition only_journals (Rm : gmap string node) : Prop :=
  forall name, is_Some (Rm !! name) -> is_journal_name name = true.
Definition no_other (Rm : gmap string node) : Prop := forall name, Rm !! name <> Some NOther.

Lemma no_other_delete Rm x : no_other Rm -> no_other (delete x Rm).
Proof. intros H c [_ Hc]%lookup_delete_Some. by apply (H c). Qed.

Lemma no_other_insert Rm x n : no_other Rm -> n <> NOther -> no_other (<[x := n]> Rm).
Proof. intros H Hn c [[_ ?]|[_ Hc]]%lookup_insert_Some; [done|by apply (H c)]. Qed.

Lemma shrunk_delete Rm x : shrunk (NDir Rm) (NDir (delete x Rm)).
Proof. by apply (shrunk_tput _ [x]). Qed.

Lemma shrunk_prune Rm x m k :
  Rm !! x = Some (NDir m) -> shrunk (NDir Rm) (NDir (<[x := prune k (NDir m)]> Rm)).
Proof.
  intros Hx. destruct (prune_shrunk k (NDir m)) as [H1 H2 H3]. split.
  - intros [|c q]; simpl; [by eauto|].
    destruct (decide (c = x)) as [->|Hne].
    + rewrite lookup_insert_eq, Hx; simpl. apply H1.
    + by rewrite lookup_insert_ne.
  - intros [|c q] i; simpl; [done|].
    destruct (decide (c = x)) as [->|Hne].
    + rewrite lookup_insert_eq; simpl. intros [q' Hq']%H2. exists (x :: q'); simpl. by rewrite Hx.
    + rewrite lookup_insert_ne by done. intros Hq. by exists (c :: q).
  - intros [|c q] m'; simpl; [eauto|].
    destruct (decide (c = x)) as [->|Hne].
    + rewrite lookup_insert_eq, Hx; simpl. apply H3.
    + rewrite lookup_insert_ne by done. eauto.
Qed.

Lemma shrunk_lookup Rm Rm' c :
  shrunk (NDir Rm) (NDir Rm') -> Rm !! c = None -> Rm' !! c = None.
Proof.
  intros Hs Hc. destruct (Rm' !! c) as [n|] eqn:Hn; [|done].
  destruct (sh_some _ _ Hs [c]) as [x Hx]; simpl in *; [by rewrite Hn|by rewrite Hc in Hx].
Qed.

Section Cleanup.
Context `{JournalCodec} {Hlaws : JournalCodecLaws}.
Context (out root : path) (Hdis : disjoint_paths out root).
Context (j0 : TransactionJournal).

Abbreviation jst := (jst j0).

Lemma jst_remove s s' O Rm hist k torn :
  view out root s O Rm -> keeps s s' ->
  jst s Rm hist (Nat.min k (length hist)) (torn && (k <=? length hist)%nat) ->
  (k < length hist + Nat.b2n torn)%nat ->
  jst s' (delete (slot_name k) Rm) hist (Nat.min (S k) (length hist))
    (torn && (S k <=? length hist)%nat).
Proof.
  intros Hv Hk Hj Hlt. apply (jst_frame out root _ s s' O Rm Rm) in Hj as
    [Hlen Hlo Hnames Hhist Htorn]; [|done..].
  destruct (decide (k < length hist)%nat) as [Hc|Hc].
  - assert ((k <=? length hist)%nat = true) as E1 by (apply Nat.leb_le; lia).
    assert ((S k <=? length hist)%nat = true) as E2 by (apply Nat.leb_le; lia).
    rewrite (Nat.min_l k), E1, andb_true_r in * by lia.
    rewrite (Nat.min_l (S k)), E2, andb_true_r by lia.
    split; [done|lia| | |].
    + intros name n [Hne Hn]%lookup_delete_Some Hjn.
      destruct (Hnames _ _ Hn Hjn) as (k' & -> & Hk'). exists k'. split; [done|].
      assert (k <> k') by congruence. lia.
    + intros k' ph Hk1 Hk2. destruct (Hhist k' ph) as (i & Hi & Hci); [lia|done|].
      exists i. split; [|done]. rewrite lookup_delete_ne; [done|].
      intros Heq%slot_name_inj; [lia|lia|apply lookup_lt_Some in Hk2; lia].
    + intros Ht. destruct (Htorn Ht) as (i & Hi & Hci). exists i. split; [|done].
      rewrite lookup_delete_ne; [done|]. intros Heq%slot_name_inj; lia.
  - destruct torn; [|simpl in Hlt; lia]. simpl Nat.b2n in Hlt.
    assert (k = length hist) as -> by lia.
    assert ((S (length hist) <=? length hist)%nat = false) as E by (apply Nat.leb_gt; lia).
    rewrite (Nat.min_r (S _)), E by lia. rewrite Nat.leb_refl in *. cbn [andb] in *.
    rewrite Nat.min_id in *. split; [done|lia| |  |done].
    + intros name n [Hne Hn]%lookup_delete_Some Hjn.
      destruct (Hnames _ _ Hn Hjn) as (k' & -> & Hk'). simpl in Hk'.
      assert (length hist <> k') by congruence. lia.
    + intros k' ph Hk1 Hk2%lookup_lt_Some. lia.
Qed.

(** A removal in progress. *)
Definition cleaning (s : fs) (O Rm : gmap string node) (hist : list JournalPhase)
    (lo : nat) (torn : bool) (s' : fs) : Prop :=
  keeps s s' /\
  ((exists Rm' lo' torn', view out root s' O Rm' /\ jst s' Rm' hist lo' torn' /\
      shrunk (NDir Rm) (NDir Rm') /\ no_other Rm' /\
      (lo <= lo')%nat /\ (torn' = true -> torn = true) /\
      (lo' = length hist -> only_journals Rm')) \/
   gone out root O s').

Section Run.
Context (q : bool) (s : fs) (O Rm : gmap string node) (hist : list JournalPhase).
Context (lo : nat) (torn : bool).
Context (Hv : view out root s O Rm) (Hj : jst s Rm hist lo torn) (Hno : no_other Rm).
Context (Honly : lo = length hist -> only_journals Rm).
Context (X : OffprintError -> fs -> Prop) (C : fs -> Prop).
Context (HX : q = false -> forall s', cleaning s O Rm hist lo torn s' ->
  (forall e, X e s') /\ C s').

(** Recovery material: [l] is what is left of it. *)
Definition others_left (l : list string) (s' : fs) : Prop :=
  exists Rm', view out root s' O Rm' /\ keeps s s' /\ shrunk (NDir Rm) (NDir Rm') /\
    same_journals Rm Rm' /\ no_other Rm' /\ NoDup l /\
    (forall c, is_journal_name c = false -> is_Some (Rm' !! c) <-> c ∈ l) /\
    (forall c, c ∈ l -> is_journal_name c = false).

Lemma others_cleaning s' Rm' :
  view out root s' O Rm' -> keeps s s' -> shrunk (NDir Rm) (NDir Rm') ->
  same_journals Rm Rm' -> no_other Rm' ->
  cleaning s O Rm hist lo torn s'.
Proof using Hv Hj Honly.
  intros Hv' Hk Hs Hsj Hn. split; [done|]. left. exists Rm', lo, torn.
  split_and!; [done| |done|done|done|done|].
  - by apply (jst_frame out root j0 s s' O Rm Rm').
  - intros Hlo c [n Hc]. apply (Honly Hlo).
    destruct (Rm !! c) eqn:Hr; [done|]. by rewrite (shrunk_lookup _ _ _ Hs Hr) in Hc.
Qed.

Lemma wp_remove_other x l s' (Q : unit -> fs -> Prop) :
  others_left (x :: l) s' -> (forall s'', others_left l s'' -> Q tt s'') ->
  wp q (remove_direct_path (root ++ [x])) Q X C s'.
Proof using All.
  intros (Rm' & Hv' & Hk & Hs & Hsj & Hn & Hnd & Hl & Hnj) HQ.
  assert (is_journal_name x = false) as Hxj by (apply Hnj; set_solver).
  destruct (proj2 (Hl x Hxj)) as [n Hx]; [set_solver|].
  eapply wp_remove_direct_path; [done|done|done|by intros ->; eapply Hn| |].
  - intros t Hv1. apply HQ. exists (delete x Rm').
    apply NoDup_cons in Hnd as [Hnin Hnd]. split_and!; try done.
    + by eapply shrunk_trans, shrunk_delete.
    + intros c Hc. rewrite lookup_delete_ne by congruence. auto.
    + by apply no_other_delete.
    + intros c Hc. destruct (decide (c = x)) as [->|Hne].
      * rewrite lookup_delete_eq. split; [by intros [? ?]|done].
      * rewrite lookup_delete_ne by done. rewrite (Hl _ Hc). set_solver.
    + intros c Hc. apply Hnj. set_solver.
  - intros Hq. destruct (HX Hq s') as [H1 H2]; [by eapply others_cleaning|].
    split_and!; [done..|]. intros t k m -> Hv1. apply HX; [done|].
    eapply others_cleaning; [done|done| | |].
    + by eapply shrunk_trans, shrunk_prune.
    + intros c Hc. rewrite lookup_insert_ne by congruence. auto.
    + apply no_other_insert; [done|]. by destruct (prune_dir k m) as [? ->].
Qed.

(** Journals: the first [k] are gone. *)
Definition journals_left (l : list string) (s' : fs) : Prop :=
  exists Rm' k, view out root s' O Rm' /\ keeps s s' /\ shrunk (NDir Rm) (NDir Rm') /\
    no_other Rm' /\ only_journals Rm' /\
    (lo <= k <= length hist + Nat.b2n torn)%nat /\
    jst s' Rm' hist (Nat.min k (length hist)) (torn && (k <=? length hist)%nat) /\
    l = map (fun k => slot_name k) (seq k (length hist + Nat.b2n torn - k)).

Lemma journals_cleaning l s' : journals_left l s' -> cleaning s O Rm hist lo torn s'.
Proof using Hj Honly.
  intros (Rm' & k & Hv' & Hk & Hs & Hn & Ho & Hlo & Hj' & _). split; [done|]. left.
  pose proof (jst_lo _ _ _ _ _ _ Hj).
  eexists Rm', _, _. split_and!; [done|done|done|done|lia| |done].
  by intros [? _]%andb_true_iff.
Qed.

Lemma wp_remove_journal x l s' :
  journals_left (x :: l) s' ->
  wp q (remove_direct_path (root ++ [x]) ;;; sync_directory root Commit)
    (fun _ => journals_left l) X C s'.
Proof using All.
  intros Hleft. pose proof (journals_cleaning _ _ Hleft) as Hcl.
  destruct Hleft as (Rm' & k & Hv' & Hk & Hs & Hn & Ho & Hlo & Hj' & Hl).
  destruct (length hist + Nat.b2n torn - k)%nat as [|cnt] eqn:Hcnt; [done|].
  injection Hl as -> ->.
  assert (exists i, Rm' !! slot_name k = Some (NFile i)) as [i Hi].
  { destruct (decide (k < length hist)%nat) as [Hc|Hc].
    - destruct (lookup_lt_is_Some_2 _ _ Hc) as [ph Hph].
      destruct (jst_hist _ _ _ _ _ _ Hj' k ph ltac:(lia) Hph) as (i & Hi & _). eauto.
    - destruct torn; simpl in Hcnt, Hlo; [|lia].
      destruct (jst_torn _ _ _ _ _ _ Hj') as (i & Hi & _).
      { simpl. apply Nat.leb_le. lia. }
      exists i. by replace k with (length hist) by lia. }
  wp_step. eapply wp_remove_direct_path; [done|done|done|done| |].
  - intros t Hv1.
    assert (Hleft : journals_left (map (fun k => slot_name k) (seq (S k) cnt)) (set_tree t s')).
    { exists (delete (slot_name k) Rm'), (S k). split_and!; try done.
      - by eapply shrunk_trans, shrunk_delete.
      - by apply no_other_delete.
      - intros c [n Hc]. apply lookup_delete_Some in Hc as [_ Hc]. by eapply Ho.
      - lia.
      - lia.
      - eapply (jst_remove s' (set_tree t s')); [done|by apply keeps_set_tree, keeps_refl|done|lia].
      - do 2 f_equal. lia. }
    apply wp_sync_directory; [by eapply view_dir_root|done|].
    intros Hq. apply HX; [done|]. by eapply journals_cleaning.
  - intros Hq. destruct (HX Hq s' Hcl) as [H1 H2]. split_and!; [done..|].
    by intros t k' m [=].
Qed.
End Run.

Lemma others_left_start s O Rm :
  view out root s O Rm -> no_other Rm ->
  others_left s O Rm
    (sort_names (List.filter (fun n => negb (is_journal_name n)) (map_to_list Rm).*1)) s.
Proof.
  intros Hv Hno. exists Rm. unfold sort_names.
  assert (Hin : forall c, c ∈ merge_sort string_le
      (List.filter (fun n => negb (is_journal_name n)) (map_to_list Rm).*1) <->
    is_Some (Rm !! c) /\ is_journal_name c = false).
  { intros c. rewrite merge_sort_Permutation, list_elem_of_In, filter_In, negb_true_iff,
      <- list_elem_of_In. split.
    - intros [([c' n] & -> & Hn)%list_elem_of_fmap Hc].
      apply elem_of_map_to_list in Hn. eauto.
    - intros [[n Hn] Hc]. split; [|done]. apply list_elem_of_fmap. exists (c, n).
      split; [done|]. by apply elem_of_map_to_list. }
  split_and!; [done|apply keeps_refl|apply shrunk_refl|done|done| | |].
  - rewrite merge_sort_Permutation.
    apply NoDup_ListNoDup, List.NoDup_filter, NoDup_ListNoDup, NoDup_fst_map_to_list.
  - intros c Hc. rewrite Hin. naive_solver.
  - intros c Hc%Hin. naive_solver.
Qed.

Lemma journals_left_start s s' O Rm hist lo torn :
  view out root s O Rm -> jst s Rm hist lo torn ->
  others_left s O Rm [] s' ->
  journals_left s O Rm hist lo torn
    (map (fun k => slot_name k) (seq lo (length hist + Nat.b2n torn - lo))) s'.
Proof.
  intros Hv Hj (Rm' & Hv' & Hk & Hs & Hsj & Hn & _ & Hl & _).
  pose proof (jst_lo _ _ _ _ _ _ Hj). exists Rm', lo.
  split_and!; [done..| |lia|lia| |done].
  - intros c Hc. destruct (is_journal_name c) eqn:Hjc; [done|].
    apply (Hl _ Hjc) in Hc. set_solver.
  - rewrite Nat.min_l, (proj2 (Nat.leb_le _ _)), andb_true_r by done.
    by apply (jst_frame out root j0 s s' O Rm Rm').
Qed.

Lemma journals_left_end s s' O Rm hist lo torn :
  journals_left s O Rm hist lo torn [] s' -> view out root s' O ∅ /\ keeps s s'.
Proof.
  intros (Rm' & k & Hv' & Hk & Hs & Hn & Ho & Hlo & Hj' & Hl).
  split; [|done]. assert (k = length hist + Nat.b2n torn)%nat as ->.
  { destruct (length hist + Nat.b2n torn - k)%nat eqn:Hc; [lia|done]. }
  assert (Rm' = ∅) as ->; [|done]. apply map_empty. intros c.
  apply eq_None_not_Some. intros [n Hc]. assert (Hjc := Ho _ (mk_is_Some _ _ Hc)).
  destruct (jst_names _ _ _ _ _ _ Hj' _ _ Hc Hjc) as (k & _ & Hk2).
  destruct torn; simpl in *; [|lia].
  destruct (Nat.leb_spec (length hist + 1) (length hist)); simpl in *; lia.
Qed.

Lemma wp_cleanup q s O Rm hist lo torn (Q : unit -> fs -> Prop)
    (X : OffprintError -> fs -> Prop) (C : fs -> Prop) :
  view out root s O Rm -> jst s Rm hist lo torn -> no_other Rm ->
  (lo = length hist -> only_journals Rm) ->
  (forall s', gone out root O s' -> keeps s s' -> Q tt s') ->
  (q = false -> forall s', cleaning s O Rm hist lo torn s' -> (forall e, X e s') /\ C s') ->
  wp q (cleanup_transaction_root root) Q X C s.
Proof using Hdis Hlaws.
  intros Hv Hj Hno Honly HQ HX. unfold cleanup_transaction_root. wp_steps.
  assert (Hself : cleaning s O Rm hist lo torn s).
  { eapply others_cleaning; [done..|apply keeps_refl|apply shrunk_refl|done|done]. }
  apply wp_sys; rewrite ?(read_dir_direct _ _ _ (v_root _ _ _ _ _ Hv)); [|done|].
  2:{ intros Hq. destruct (HX Hq s Hself). auto. }
  intros ? ? [= <- <-]. rewrite (jst_sorted_names _ _ _ _ _ _ Hj). wp_steps.
  apply (wp_for q _ (others_left s O Rm)); [by apply others_left_start| |].
  { intros x l s' Hl. by eapply wp_remove_other. }
  intros s' Hs'. assert (Hs'' := Hs').
  apply (journals_left_start s s' O Rm hist lo torn) in Hs''; [|done..]. wp_steps.
  apply wp_sync_directory.
  { destruct Hs' as (Rm' & Hv' & _). by eapply view_dir_root. }
  2:{ intros Hq. apply HX; [done|]. by eapply journals_cleaning. }
  wp_steps. apply (wp_for q _ (journals_left s O Rm hist lo torn)); [done| |].
  { intros x l s1 Hl. by eapply wp_remove_journal. }
  intros s1 Hs1. pose proof (journals_cleaning _ _ _ _ _ _ Hj Honly _ _ Hs1) as Hcl.
  apply journals_left_end in Hs1 as [Hv1 Hk1]. wp_steps.
  destruct (remove_root _ _ Hdis _ _ Hv1) as (t & Ht & Hg & Hd).
  apply wp_sys; rewrite ?Ht; [|done|by intros Hq; destruct (HX Hq s1 Hcl); auto].
  intros [] ? [= <-]. apply wp_sync_directory; [done| |].
  - apply HQ; [done|]. by apply keeps_set_tree.
  - intros Hq. apply HX; [done|]. split; [by apply keeps_set_tree|by right].
Qed.
End Cleanup.

(** ** Entry-wise transactions: the state of the outputs

    While a transaction replaces the entries of a non-empty output directory,
    each entry is in one of three states: untouched (or restored), moved to its
    backup, or replaced with the original in the backup.  This file defines
    that invariant and shows that rolling an entry back keeps it under every
    fault and restores the original when nothing fails. *)

(** ** Entry names *)

Lemma entry_names_distinct : NoDup (map entry_name (seq 0 8)).
Proof. by apply (bool_decide_unpack (NoDup (map entry_name (seq 0 8)))); vm_compute. Qed.

Lemma entry_name_inj k k' :
  (k < 8)%nat -> (k' < 8)%nat -> entry_name k = entry_name k' -> k = k'.
Proof.
  intros Hk Hk' He. apply (NoDup_lookup _ _ _ (entry_name k) entry_names_distinct).
  - by rewrite list_lookup_fmap, lookup_seq_lt.
  - by rewrite list_lookup_fmap, lookup_seq_lt, He.
Qed.

(** ** Looking at slots *)

Lemma wp_direct_exists q d c m s (Q : bool -> fs -> Prop)
    (X : OffprintError -> fs -> Prop) (C : fs -> Prop) :
  sub s d = Some (NDir m) -> Q (bool_decide (is_Some (m !! c))) s ->
  (q = false -> (forall e, X e s) /\ C s) ->
  wp q (direct_exists (d ++ [c])) Q X C s.
Proof.
  intros Hd HQ HX. unfold direct_exists. wp_steps.
  destruct (m !! c) as [n|] eqn:Hc.
  - assert (Hn : sub s (d ++ [c]) = Some n) by by rewrite (tget_snoc _ _ _ _ Hd).
    apply wp_sys; rewrite ?(symlink_metadata_direct _ _ _ Hn) by (by destruct d).
    + intros ? ? [= <- <-]. by wp_steps.
    + done.
    + intros Hq. destruct (HX Hq). split; [|done]. intros []; simpl; wp_steps; auto.
  - apply wp_sys; rewrite ?(symlink_metadata_missing _ _ _ _ Hd Hc).
    + done.
    + intros ? [= <-]. by wp_steps.
    + intros Hq. destruct (HX Hq). split; [|done]. intros []; simpl; wp_steps; auto.
Qed.

Definition dir_or_none (Rm : gmap string node) (d : string) : Prop :=
  Rm !! d = None \/ exists D, Rm !! d = Some (NDir D).

Abbreviation slot Rm d e := (tget (NDir Rm) [d; e]).

Lemma slot_dir Rm d e D : Rm !! d = Some (NDir D) -> slot Rm d e = D !! e.
Proof. intros Hd. simpl. rewrite Hd; simpl. by destruct (D !! e). Qed.

Lemma slot_none Rm d e : Rm !! d = None -> slot Rm d e = None.
Proof. intros Hd. simpl. by rewrite Hd. Qed.

Lemma slot_insert_ne (Rm : gmap string node) d d' e v :
  d <> d' -> slot (<[d := v]> Rm) d' e = slot Rm d' e.
Proof. intros Hne. simpl. by rewrite lookup_insert_ne. Qed.

Lemma wp_slot_exists q out root s O Rm d e (Q : bool -> fs -> Prop)
    (X : OffprintError -> fs -> Prop) (C : fs -> Prop) :
  view out root s O Rm -> dir_or_none Rm d ->
  Q (bool_decide (is_Some (slot Rm d e))) s ->
  (q = false -> (forall er, X er s) /\ C s) ->
  wp q (direct_exists (root ++ [d; e])) Q X C s.
Proof.
  intros Hv [Hd|[D Hd]] HQ HX.
  - rewrite (slot_none _ _ _ Hd) in HQ. unfold direct_exists. wp_steps.
    assert (Hm : sys_symlink_metadata (root ++ [d; e]) s = Err NotFound).
    { unfold sys_symlink_metadata, lookup_nofollow.
      by rewrite (locate_missing _ _ _ _ _ (v_root _ _ _ _ _ Hv) Hd). }
    apply wp_sys; rewrite ?Hm.
    + done.
    + intros ? [= <-]. by wp_steps.
    + intros Hq. destruct (HX Hq). split; [|done]. intros []; simpl; wp_steps; auto.
  - rewrite (slot_dir _ _ _ _ Hd) in HQ. rewrite snoc2.
    apply (wp_direct_exists q (root ++ [d]) e D); [|done|done].
    by rewrite (sub_root _ _ _ _ _ Hv).
Qed.

Definition node_kind (n : node) : option OutputKind :=
  match n with NFile _ => Some OFile | NDir _ => Some ODirectory | _ => None end.

Lemma wp_validate_backup_kind q p n k s (Q : unit -> fs -> Prop)
    (X : OffprintError -> fs -> Prop) (C : fs -> Prop) :
  sub s p = Some n -> p <> [] -> node_kind n = k -> Q tt s ->
  (q = false -> (forall e, X e s) /\ C s) ->
  wp q (validate_backup_kind p k) Q X C s.
Proof.
  intros Hn Hp Hk HQ HX. unfold validate_backup_kind. wp_steps.
  apply wp_sys; rewrite ?(symlink_metadata_direct _ _ _ Hn Hp); [|done|naive_solver].
  intros ? ? [= <- <-].
  rewrite bool_decide_eq_true_2 by (rewrite <- Hk; by destruct n). by wp_steps.
Qed.

Section Entries.
Context `{Hashing} `{JournalCodec} {Hlaws : JournalCodecLaws}.
Context (out root : path) (Hdis : disjoint_paths out root).
Context (j0 : TransactionJournal) (limits : ArtifactTransactionLimits).
(** The state the outputs were validated in, the original output directory,
    and the nodes that are to be installed. *)
Context (s0 : fs) (O0 : gmap string node) (news : list node).

Abbreviation es := (entries j0).
Abbreviation backup_slot Rm k := (slot Rm "backups" (entry_name k)).
Abbreviation discard_slot Rm k := (slot Rm "discard" (entry_name k)).

(** Each entry's new node matches it, and its [existed] flag and previous kind
    describe the original. *)
Record setting : Prop := {
  set_names : NoDup (map destination_name es);
  set_few : (length es <= 8)%nat;
  set_length : length news = length es;
  set_new k e n :
    es !! k = Some e -> news !! k = Some n ->
    node_matches s0 n e limits = true /\ node_below (next_ino s0) n;
  set_old k e :
    es !! k = Some e ->
    if existed e
    then exists n, O0 !! destination_name e = Some n /\ node_kind n = previous_kind e /\
           previous_kind e <> None /\ node_below (next_ino s0) n
    else O0 !! destination_name e = None;
}.
Context (Hset : setting).

(** No original is byte for byte what is to replace it. *)
Definition originals_differ : Prop :=
  forall k e n, es !! k = Some e -> existed e = true ->
    O0 !! destination_name e = Some n -> node_matches s0 n e limits = false.

Inductive entry_state (O Rm : gmap string node) (k : nat) (e : JournalEntry) (n : node)
    : Prop :=
| entry_original :
    O !! destination_name e = O0 !! destination_name e -> backup_slot Rm k = None ->
    entry_state O Rm k e n
| entry_backed_up :
    existed e = true -> O !! destination_name e = None ->
    backup_slot Rm k = O0 !! destination_name e ->
    entry_state O Rm k e n
| entry_installed :
    O !! destination_name e = Some n ->
    backup_slot Rm k = O0 !! destination_name e -> discard_slot Rm k = None ->
    entry_state O Rm k e n.

Definition settled (O Rm : gmap string node) (k : nat) : Prop :=
  forall e, es !! k = Some e ->
    O !! destination_name e = O0 !! destination_name e /\ backup_slot Rm k = None.

Record entries_ok (O Rm : gmap string node) : Prop := {
  eo_entries k e n : es !! k = Some e -> news !! k = Some n -> entry_state O Rm k e n;
  eo_others c : c ∉ map destination_name es -> O !! c = O0 !! c;
  eo_backups : dir_or_none Rm "backups";
  eo_discard : dir_or_none Rm "discard";
  eo_no_other : no_other Rm;
}.

Lemma es_bound k e : es !! k = Some e -> (k < 8)%nat.
Proof using Hset. intros Hk%lookup_lt_Some. pose proof (set_few Hset). lia. Qed.

Lemma es_inj k k' e e' :
  es !! k = Some e -> es !! k' = Some e' -> destination_name e = destination_name e' -> k = k'.
Proof using Hset.
  intros Hk Hk' He. apply (NoDup_lookup _ _ _ (destination_name e) (set_names Hset)).
  - by rewrite list_lookup_fmap, Hk.
  - by rewrite list_lookup_fmap, Hk', He.
Qed.

(** A change to one entry leaves the others as they are. *)
Lemma entries_ok_update O Rm O' Rm' k e n :
  entries_ok O Rm -> es !! k = Some e -> news !! k = Some n ->
  (forall c, c <> destination_name e -> O' !! c = O !! c) ->
  (forall k', k' <> k -> (k' < 8)%nat ->
     backup_slot Rm' k' = backup_slot Rm k' /\ discard_slot Rm' k' = discard_slot Rm k') ->
  dir_or_none Rm' "backups" -> dir_or_none Rm' "discard" -> no_other Rm' ->
  entry_state O' Rm' k e n ->
  entries_ok O' Rm'.
Proof using Hset.
  intros [He Ho _ _ _] Hk Hn HO HR Hb Hd Hno Hst. split; [|intros c Hc|done..].
  - intros k' e' n' Hk' Hn'. destruct (decide (k' = k)) as [->|Hne].
    { by simplify_eq. }
    assert (destination_name e' <> destination_name e) as Hnm.
    { intros Heq. by apply Hne, (es_inj _ _ _ _ Hk' Hk). }
    destruct (HR k' Hne (es_bound _ _ Hk')) as [HR1 HR2].
    destruct (He _ _ _ Hk' Hn') as [? ?|? ? ?|? ? ?];
      [apply entry_original|apply entry_backed_up|apply entry_installed];
      rewrite ?HO, ?HR1, ?HR2 by done; done.
  - rewrite HO; [by apply Ho|]. intros ->. apply Hc, list_elem_of_In, in_map.
    apply list_elem_of_In. by eapply list_elem_of_lookup_2.
Qed.

Lemma settled_update O Rm O' Rm' k k' e :
  settled O Rm k' -> es !! k = Some e -> k' <> k ->
  (forall c, c <> destination_name e -> O' !! c = O !! c) ->
  ((k' < 8)%nat -> backup_slot Rm' k' = backup_slot Rm k') ->
  settled O' Rm' k'.
Proof using Hset.
  intros Hs Hk Hne HO HR e' Hk'. destruct (Hs _ Hk') as [H1 H2].
  rewrite HO, HR; [done|by eapply es_bound|].
  intros Heq. by apply Hne, (es_inj _ _ _ _ Hk' Hk).
Qed.

(** When every entry is settled, the output directory is the original. *)
Lemma all_settled O Rm :
  entries_ok O Rm -> (forall k, settled O Rm k) -> O = O0.
Proof.
  intros Hok Hs. apply map_eq. intros c.
  destruct (decide (c ∈ map destination_name es)) as [Hc|Hc].
  - apply list_elem_of_In, in_map_iff in Hc as (e & <- & He).
    apply list_elem_of_In, list_elem_of_lookup in He as [k Hk]. by apply (Hs k e Hk).
  - by apply (eo_others _ _ Hok).
Qed.

Lemma entries_ok_original Rm :
  dir_or_none Rm "backups" -> dir_or_none Rm "discard" -> no_other Rm ->
  (forall k e, es !! k = Some e -> backup_slot Rm k = None) -> entries_ok O0 Rm.
Proof.
  intros Hb Hd Hn Hk. split; [|done..]. intros k e n He _.
  apply entry_original; [done|]. by eapply Hk.
Qed.
End Entries.
