(* ===== verification/RollbackFacts.v ===== *)
(** * Rolling an interrupted transaction back

    Under every fault a rollback keeps the invariant of [CleanupFacts]; an entry
    it reports no failure for is back in place; and without faults, when no
    original equals its replacement, it reports no failure at all. *)

From Stdlib Require Import ZArith Lia Ascii String.
From stdpp Require Import base tactics list gmap strings numbers sorting.
From S2P Require Import Prelude.
From S2P Require Import Errors.
From S2P Require Import Fs.
From S2P Require Import Io.
From S2P Require Import FsFacts.
From S2P Require Import Records.
From S2P Require Import Durable.
From S2P Require Import Journal.
From S2P Require Import Plan.
From S2P Require Import Recovery.
From S2P Require Import Matching.
From S2P Require Import Regions.
From S2P Require Import JournalFacts.
From S2P Require Import CleanupFacts.

#[local] Open Scope string_scope.
#[local] Open Scope Z_scope.
#[local] Open Scope list_scope.

Section Rollback.
Context `{Hashing} `{JournalCodec} {Hlaws : JournalCodecLaws}.
Context (out root : path) (Hdis : disjoint_paths out root).
Context (j0 : TransactionJournal) (limits : ArtifactTransactionLimits).
Context (s0 : fs) (O0 : gmap string node) (news : list node).
Context (Hset : setting j0 limits s0 O0 news).

Abbreviation es := (entries j0).
Abbreviation entries_ok := (entries_ok j0 O0 news).
Abbreviation settled := (settled j0 O0).
Abbreviation backup_slot Rm k := (slot Rm "backups" (entry_name k)).
Abbreviation discard_slot Rm k := (slot Rm "discard" (entry_name k)).

(** A transaction between its first move and its last. *)
Record midway (hist : list JournalPhase) (lo : nat) (torn : bool)
    (O Rm : gmap string node) (s : fs) : Prop := {
  mw_view : view out root s O Rm;
  mw_keeps : keeps s0 s;
  mw_journals : jst j0 s Rm hist lo torn;
  mw_entries : entries_ok O Rm;
}.

(** The same, with the entries of [P] already settled. *)
Definition Midway (hist : list JournalPhase) (lo : nat) (torn : bool) (P : nat -> Prop)
    (s : fs) : Prop :=
  exists O Rm, midway hist lo torn O Rm s /\ forall k, P k -> settled O Rm k.

Section Entry.
Context (q : bool) (hist : list JournalPhase) (lo : nat) (torn : bool) (P : nat -> Prop).
Abbreviation Mid := (Midway hist lo torn P).

Lemma same_journals_insert Rm d v :
  is_journal_name d = false -> same_journals Rm (<[d := v]> Rm).
Proof. intros Hd c Hc. rewrite lookup_insert_ne; [done|]. congruence. Qed.

(** The state after a change to one entry. *)
Lemma midway_update O Rm s t O' d v k e n :
  midway hist lo torn O Rm s -> is_journal_name d = false ->
  view out root (set_tree t s) O' (<[d := v]> Rm) -> entries_ok O' (<[d := v]> Rm) ->
  (forall k', P k' -> settled O Rm k') ->
  es !! k = Some e -> news !! k = Some n ->
  (forall c, c <> destination_name e -> O' !! c = O !! c) ->
  (forall k', k' <> k -> (k' < 8)%nat ->
     backup_slot (<[d := v]> Rm) k' = backup_slot Rm k') ->
  (P k -> settled O' (<[d := v]> Rm) k) ->
  midway hist lo torn O' (<[d := v]> Rm) (set_tree t s) /\
  (forall k', P k' -> settled O' (<[d := v]> Rm) k').
Proof using Hset.
  intros [Hv Hk Hj He] Hd Hv' He' HP Hes Hn HO HB HPk. split.
  - split; [done|by apply keeps_set_tree| |done].
    apply (jst_frame out root j0 s _ O Rm); [done|by apply keeps_set_tree, keeps_refl| |done].
    by apply same_journals_insert.
  - intros k' Hk'. destruct (decide (k' = k)) as [->|Hne]; [auto|].
    eapply settled_update; [done|by apply HP|done|done|done|]. auto.
Qed.

Lemma settled_not_installed O Rm k e n :
  settled O Rm k -> es !! k = Some e -> O !! destination_name e = Some n ->
  backup_slot Rm k = O0 !! destination_name e -> False.
Proof. intros Hs He Hn Hb. destruct (Hs _ He) as [H1 H2]. congruence. Qed.

(** Moving a backup to its place. *)
Lemma restore_step O Rm s k e n n0 :
  midway hist lo torn O Rm s -> (forall k', P k' -> settled O Rm k') ->
  es !! k = Some e -> news !! k = Some n ->
  O !! destination_name e = None -> O0 !! destination_name e = Some n0 ->
  backup_slot Rm k = Some n0 ->
  exists t O' Rm',
    sys_rename (root ++ ["backups"; entry_name k]) (out ++ [destination_name e]) s =
      Ok (tt, set_tree t s) /\
    midway hist lo torn O' Rm' (set_tree t s) /\
    (forall k', P k' \/ k' = k -> settled O' Rm' k') /\
    dir_at (set_tree t s) (root ++ ["backups"]).
Proof using Hset Hdis.
  intros Hm HP He Hn HO Hn0 Hb. pose proof (mw_entries _ _ _ _ _ _ Hm) as Hok.
  pose proof (mw_view _ _ _ _ _ _ Hm) as Hv.
  destruct (eo_backups _ _ _ _ _ Hok) as [Hbk|[B HB]].
  { by rewrite (slot_none _ _ _ Hbk) in Hb. }
  rewrite (slot_dir _ _ _ _ HB) in Hb.
  destruct (rename_to_out _ _ Hdis _ _ _ Hv _ _ _ _ _ HB Hb HO) as (t & Ht & Hv').
  set (Rm' := <["backups" := NDir (delete (entry_name k) B)]> Rm) in *.
  assert (Hself : backup_slot Rm' k = None).
  { unfold Rm'. by rewrite (slot_dir _ _ _ (delete (entry_name k) B)), lookup_delete_eq
      by apply lookup_insert_eq. }
  assert (Hother : forall k', k' <> k -> (k' < 8)%nat -> backup_slot Rm' k' = backup_slot Rm k').
  { intros k' Hne Hk'. unfold Rm'.
    rewrite (slot_dir _ _ _ (delete (entry_name k) B)) by apply lookup_insert_eq.
    rewrite (slot_dir _ _ _ _ HB), lookup_delete_ne; [done|].
    intros Heq. apply Hne. symmetry. apply entry_name_inj; [|done|done].
    by eapply es_bound. }
  assert (Hok' : entries_ok (<[destination_name e := n0]> O) Rm').
  { eapply entries_ok_update; [done|done|done|done| | | | | |].
    - intros c Hc. by rewrite lookup_insert_ne.
    - intros k' Hne Hk'. split; [auto|]. unfold Rm'. by apply slot_insert_ne.
    - right. eexists. apply lookup_insert_eq.
    - unfold dir_or_none, Rm'. rewrite lookup_insert_ne by done. apply Hok.
    - apply no_other_insert; [apply Hok|done].
    - apply entry_original; [by rewrite lookup_insert_eq|done]. }
  eexists t, _, Rm'. split_and!; [done| | |].
  - eapply (midway_update O Rm s t); [done|done|done|done|done|done|done| |done|].
    + intros c Hc. by rewrite lookup_insert_ne.
    + intros _ e' He'. simplify_eq. by rewrite lookup_insert_eq.
  - intros k' [Hk'| ->].
    + destruct (decide (k' = k)) as [->|Hne].
      * intros e' He'. simplify_eq. by rewrite lookup_insert_eq.
      * eapply settled_update; [done|by apply HP|done|done| |auto].
        intros c Hc. by rewrite lookup_insert_ne.
    + intros e' He'. simplify_eq. by rewrite lookup_insert_eq.
  - eapply view_dir_root1; [done|apply lookup_insert_eq].
Qed.

(** Making the directory the retracted outputs go to. *)
Lemma mkdir_discard_step O Rm s :
  midway hist lo torn O Rm s -> (forall k', P k' -> settled O Rm k') ->
  Rm !! "discard" = None ->
  exists t, sys_create_dir (root ++ ["discard"]) s = Ok (tt, set_tree t s) /\
    midway hist lo torn O (<["discard" := NDir ∅]> Rm) (set_tree t s) /\
    (forall k', P k' -> settled O (<["discard" := NDir ∅]> Rm) k').
Proof using Hdis.
  intros [Hv Hk Hj Hok] HP Hd.
  destruct (mkdir_root _ _ Hdis _ _ _ Hv _ Hd) as (t & Ht & Hv').
  assert (Hb : forall k, backup_slot (<["discard" := NDir ∅]> Rm) k = backup_slot Rm k).
  { intros k. by apply slot_insert_ne. }
  assert (Hds : forall k, discard_slot (<["discard" := NDir ∅]> Rm) k = None).
  { intros k. rewrite (slot_dir _ _ _ ∅) by apply lookup_insert_eq. apply lookup_empty. }
  exists t. split_and!; [done| |].
  - split; [done|by apply keeps_set_tree| |].
    + apply (jst_frame out root j0 s _ O Rm); [done|by apply keeps_set_tree, keeps_refl| |done].
      by apply same_journals_insert.
    + destruct Hok as [H1 H2 H3 H4 H5]. split; [|done| | |].
      * intros k e n He Hn. destruct (H1 _ _ _ He Hn);
          [apply entry_original|apply entry_backed_up|apply entry_installed];
          rewrite ?Hb, ?Hds; done.
      * unfold dir_or_none. by rewrite lookup_insert_ne.
      * right. eexists. apply lookup_insert_eq.
      * by apply no_other_insert.
  - intros k Hk' e He. rewrite Hb. by apply (HP k Hk').
Qed.

(** Moving an installed output to the discard directory. *)
Lemma retract_step O Rm s k e n D :
  midway hist lo torn O Rm s -> (forall k', P k' -> settled O Rm k') ->
  es !! k = Some e -> news !! k = Some n ->
  O !! destination_name e = Some n -> backup_slot Rm k = O0 !! destination_name e ->
  discard_slot Rm k = None -> Rm !! "discard" = Some (NDir D) ->
  exists t Rm',
    sys_rename (out ++ [destination_name e]) (root ++ ["discard"; entry_name k]) s =
      Ok (tt, set_tree t s) /\
    midway hist lo torn (delete (destination_name e) O) Rm' (set_tree t s) /\
    (forall k', P k' -> settled (delete (destination_name e) O) Rm' k') /\
    backup_slot Rm' k = O0 !! destination_name e /\
    dir_at (set_tree t s) (root ++ ["discard"]).
Proof using Hset Hdis.
  intros Hm HP He Hn HO Hb Hdk HD. pose proof (mw_entries _ _ _ _ _ _ Hm) as Hok.
  pose proof (mw_view _ _ _ _ _ _ Hm) as Hv. rewrite (slot_dir _ _ _ _ HD) in Hdk.
  destruct (rename_to_root _ _ Hdis _ _ _ Hv _ _ _ _ _ HO HD Hdk) as (t & Ht & Hv').
  set (Rm' := <["discard" := NDir (<[entry_name k := n]> D)]> Rm) in *.
  assert (Hbs : forall k', backup_slot Rm' k' = backup_slot Rm k').
  { intros k'. unfold Rm'. by apply slot_insert_ne. }
  assert (HOne : forall c, c <> destination_name e ->
    delete (destination_name e) O !! c = O !! c).
  { intros c Hc. by rewrite lookup_delete_ne. }
  assert (Hok' : entries_ok (delete (destination_name e) O) Rm').
  { eapply entries_ok_update; [done|done|done|done|done| | | | |].
    - intros k' Hne Hk'. split; [auto|]. unfold Rm'.
      rewrite (slot_dir _ _ _ (<[entry_name k := n]> D)) by apply lookup_insert_eq.
      rewrite (slot_dir _ _ _ _ HD), lookup_insert_ne; [done|].
      intros Heq. apply Hne. symmetry. apply entry_name_inj; [|done|done].
      by eapply es_bound.
    - unfold dir_or_none, Rm'. rewrite lookup_insert_ne by done. apply Hok.
    - right. eexists. apply lookup_insert_eq.
    - apply no_other_insert; [apply Hok|done].
    - pose proof (set_old _ _ _ _ _ Hset _ _ He) as Hold. destruct (existed e) eqn:Hex.
      + apply entry_backed_up; [done|by rewrite lookup_delete_eq|by rewrite Hbs].
      + apply entry_original; [by rewrite lookup_delete_eq|by rewrite Hbs, Hb]. }
  exists t, Rm'.
  destruct (midway_update O Rm s t _ "discard" _ k e n Hm eq_refl Hv' Hok' HP He Hn HOne
    ltac:(intros; apply Hbs)) as [Hm' HP'].
  { intros HPk. exfalso. by eapply (settled_not_installed O Rm k); [apply HP| | |]. }
  split_and!; [done|done|done|by rewrite Hbs|].
  eapply view_dir_root1; [done|apply lookup_insert_eq].
Qed.

Lemma midway_Mid O Rm s :
  midway hist lo torn O Rm s -> (forall k', P k' -> settled O Rm k') -> Mid s.
Proof. intros. by exists O, Rm. Qed.

Lemma Midway_weaken k s :
  Midway hist lo torn (fun k' => P k' \/ k' = k) s -> Mid s.
Proof. intros (O & Rm & Hm & HP). exists O, Rm. split; [done|]. auto. Qed.

(** [ensure_parent_and_move] of an installed output. *)
Lemma wp_retract O Rm s k e n (Q : unit -> fs -> Prop)
    (X : OffprintError -> fs -> Prop) (C : fs -> Prop) :
  midway hist lo torn O Rm s -> (forall k', P k' -> settled O Rm k') ->
  es !! k = Some e -> news !! k = Some n ->
  O !! destination_name e = Some n -> backup_slot Rm k = O0 !! destination_name e ->
  discard_slot Rm k = None ->
  (forall s' Rm', midway hist lo torn (delete (destination_name e) O) Rm' s' ->
     (forall k', P k' -> settled (delete (destination_name e) O) Rm' k') ->
     backup_slot Rm' k = O0 !! destination_name e -> Q tt s') ->
  (q = false -> forall s', Mid s' -> (forall er, X er s') /\ C s') ->
  wp q (ensure_parent_and_move (out ++ [destination_name e])
          (root ++ ["discard"; entry_name k])) Q X C s.
Proof using Hset Hdis.
  intros Hm HP He Hn HO Hb Hd HQ HX. unfold ensure_parent_and_move.
  rewrite snoc2, parent_app, <- snoc2.
  pose proof (mw_view _ _ _ _ _ _ Hm) as Hv.
  assert (HXs : q = false -> (forall er, X er s) /\ C s).
  { intros Hq. apply HX; [done|]. by exists O, Rm. }
  (* once the directory is there *)
  assert (Hmove : forall s1 Rm1 D, midway hist lo torn O Rm1 s1 ->
    (forall k', P k' -> settled O Rm1 k') ->
    backup_slot Rm1 k = O0 !! destination_name e -> discard_slot Rm1 k = None ->
    Rm1 !! "discard" = Some (NDir D) ->
    wp q (occupied <- direct_exists (root ++ ["discard"; entry_name k]) ;;
          if (occupied : bool) then mfail (new_error "offprint.export.output" Commit)
          else durable_rename (out ++ [destination_name e])
                 (root ++ ["discard"; entry_name k]) ;;; mpure tt) Q X C s1).
  { intros s1 Rm1 D Hm1 HP1 Hb1 Hd1 HD1. pose proof (mw_view _ _ _ _ _ _ Hm1) as Hv1.
    assert (HX1 : q = false -> (forall er, X er s1) /\ C s1).
    { intros Hq. apply HX; [done|]. by exists O, Rm1. }
    wp_step. eapply wp_slot_exists; [done|by right; exists D| |done].
    rewrite bool_decide_eq_false_2 by (rewrite Hd1; by intros []). wp_step.
    destruct (retract_step O Rm1 s1 k e n D) as (t & Rm' & Ht & Hm' & HP' & Hb' & Hdir);
      [done..|].
    eapply wp_durable_rename; [done| | | | | |].
    - rewrite parent_app. by eapply view_dir_out.
    - rewrite snoc2, parent_app. by eapply view_dir_root1.
    - rewrite parent_app. eapply view_dir_out, mw_view, Hm'.
    - by rewrite snoc2, parent_app.
    - intros _. apply wp_pure. by eapply HQ.
    - intros Hq. destruct (HX1 Hq). split_and!; [done..|].
      destruct (HX Hq (set_tree t s1)); [|done]. by eexists _, _. }
  wp_step. eapply (wp_direct_exists q root "discard" Rm); [apply Hv| |done].
  destruct (eo_discard _ _ _ _ _ (mw_entries _ _ _ _ _ _ Hm)) as [Hnone|[D HD]].
  - rewrite Hnone. rewrite bool_decide_eq_false_2 by by intros []. wp_step.
    destruct (mkdir_discard_step O Rm s) as (t & Ht & Hm' & HP'); [done..|].
    eapply wp_create_directory; [done| | | |].
    + rewrite parent_app. eapply view_dir_root, mw_view, Hm'.
    + eapply view_dir_root1; [apply (mw_view _ _ _ _ _ _ Hm')|apply lookup_insert_eq].
    + eapply Hmove; [done|done| | |apply lookup_insert_eq].
      * by rewrite slot_insert_ne.
      * rewrite (slot_dir _ _ _ ∅) by apply lookup_insert_eq. apply lookup_empty.
    + intros Hq st [->| ->]; apply HX; [done|by exists O, Rm|done|by eexists _, _].
  - rewrite HD. rewrite bool_decide_eq_true_2 by done. do 2 wp_step. by eapply Hmove.
Qed.

Section Continuation.
Context (k : nat) (e : JournalEntry) (failures : list string).
Context (Q : list string -> fs -> Prop) (X : OffprintError -> fs -> Prop) (C : fs -> Prop).
Context (HQ : forall s', Midway hist lo torn (fun k' => P k' \/ k' = k) s' -> Q failures s').
Context (HF : q = false \/ ~ originals_differ j0 limits s0 O0 ->
  forall x s', Mid s' -> Q (failures ++ [x]) s').
Context (HC : q = false -> forall s', Mid s' -> C s').

Lemma wp_restore_backup O Rm s n :
  midway hist lo torn O Rm s -> (forall k', P k' -> settled O Rm k') ->
  es !! k = Some e -> news !! k = Some n -> existed e = true ->
  O !! destination_name e = None -> backup_slot Rm k = O0 !! destination_name e ->
  wp q (restore_backup (root ++ ["backups"; entry_name k]) (out ++ [destination_name e])
          e failures) Q X C s.
Proof using All.
  intros Hm HP He Hn Hex HO Hb. pose proof (mw_view _ _ _ _ _ _ Hm) as Hv.
  pose proof (set_old _ _ _ _ _ Hset _ _ He) as Hold. rewrite Hex in Hold.
  destruct Hold as (n0 & Hn0 & Hkind & _). rewrite Hn0 in Hb.
  assert (HM : Mid s) by (by exists O, Rm).
  unfold restore_backup. wp_steps.
  destruct (eo_backups _ _ _ _ _ (mw_entries _ _ _ _ _ _ Hm)) as [Hbk|[B HB]].
  { by rewrite (slot_none _ _ _ Hbk) in Hb. }
  eapply (wp_validate_backup_kind q _ n0); [|by destruct root|done| |].
  { rewrite (sub_root2 _ _ _ _ _ Hv _ _ _ HB). by rewrite <- (slot_dir Rm "backups"). }
  2:{ intros Hq. split; [|by apply HC]. intros er. wp_steps. by apply HF; [left|]. }
  wp_steps.
  destruct (restore_step O Rm s k e n n0) as (t & O' & Rm' & Ht & Hm' & HP' & Hdir);
    [done..|].
  assert (HM' : Midway hist lo torn (fun k' => P k' \/ k' = k) (set_tree t s)).
  { by exists O', Rm'. }
  eapply wp_durable_rename; [done| | | | | |].
  - rewrite snoc2, parent_app. by eapply view_dir_root1.
  - rewrite parent_app. by eapply view_dir_out.
  - by rewrite snoc2, parent_app.
  - rewrite parent_app. eapply view_dir_out, mw_view, Hm'.
  - intros _. wp_steps. auto.
  - intros Hq. split_and!; [intros er; wp_steps; by apply HF; [left|]|by apply HC|].
    apply HC; [done|]. by eapply Midway_weaken.
Qed.

Lemma node_matches_now O Rm s n :
  midway hist lo torn O Rm s -> node_below (next_ino s0) n ->
  node_matches s n e limits = node_matches s0 n e limits.
Proof.
  intros Hm Hn. symmetry. apply node_matches_agree, keeps_agree; [apply Hm|done].
Qed.

Lemma news_lookup : es !! k = Some e -> exists n, news !! k = Some n.
Proof using Hset.
  intros Hk%lookup_lt_Some. apply lookup_lt_is_Some_2. by rewrite (set_length _ _ _ _ _ Hset).
Qed.

(** An original that is in place and has no backup. *)
Lemma wp_rollback_replaced O Rm s :
  midway hist lo torn O Rm s -> (forall k', P k' -> settled O Rm k') ->
  es !! k = Some e -> existed e = true ->
  O !! destination_name e = O0 !! destination_name e -> backup_slot Rm k = None ->
  wp q (rollback_replaced limits (out ++ [destination_name e]) e true failures) Q X C s.
Proof using All.
  intros Hm HP He Hex HO Hb. pose proof (set_old _ _ _ _ _ Hset _ _ He) as Hold.
  rewrite Hex in Hold. destruct Hold as (n0 & Hn0 & _ & _ & Hbelow).
  assert (HMk : Midway hist lo torn (fun k' => P k' \/ k' = k) s).
  { exists O, Rm. split; [done|]. intros k' [Hk'| ->]; [auto|].
    intros e' He'. by simplify_eq. }
  unfold rollback_replaced; simpl. wp_step.
  eapply (wp_path_matches_entry q s _ n0).
  - rewrite (sub_out _ _ _ _ _ (mw_view _ _ _ _ _ _ Hm)). congruence.
  - by destruct out.
  - wp_step. rewrite (node_matches_now _ _ _ _ Hm Hbelow).
    destruct (node_matches s0 n0 e limits) eqn:Hmatch; [|auto].
    apply HF; [|by eapply Midway_weaken]. right. intros Hdiff.
    by rewrite (Hdiff _ _ _ He Hex Hn0) in Hmatch.
  - intros Hq. wp_step. auto.
  - intros Hq. apply HC; [done|]. by eapply Midway_weaken.
Qed.

(** An installed output. *)
Lemma wp_rollback_installed O Rm s n :
  midway hist lo torn O Rm s -> (forall k', P k' -> settled O Rm k') ->
  es !! k = Some e -> news !! k = Some n ->
  O !! destination_name e = Some n -> backup_slot Rm k = O0 !! destination_name e ->
  discard_slot Rm k = None ->
  wp q (if existed e
        then rollback_backed_up limits (out ++ [destination_name e])
               (root ++ ["backups"; entry_name k]) (root ++ ["discard"; entry_name k])
               e true failures
        else rollback_created limits (out ++ [destination_name e])
               (root ++ ["discard"; entry_name k]) e true failures) Q X C s.
Proof using All.
  intros Hm HP He Hn HO Hb Hd. assert (HM : Mid s) by (by exists O, Rm).
  destruct (set_new _ _ _ _ _ Hset _ _ _ He Hn) as [Hmatch Hbelow].
  pose proof (set_old _ _ _ _ _ Hset _ _ He) as Hold.
  assert (Hsub : sub s (out ++ [destination_name e]) = Some n).
  { by rewrite (sub_out _ _ _ _ _ (mw_view _ _ _ _ _ _ Hm)). }
  destruct (existed e) eqn:Hex; unfold rollback_backed_up, rollback_created; simpl; wp_step;
    (eapply (wp_path_matches_entry q s _ n); [done|by destruct out| | |by auto]).
  2,4: intros Hq; wp_steps; by apply HF; [left|].
  all: rewrite (node_matches_now _ _ _ _ Hm Hbelow), Hmatch; wp_steps.
  - eapply wp_retract; [done..| |].
    + intros s' Rm' Hm' HP' Hb'. wp_steps. eapply wp_restore_backup; [done..| |done].
      by rewrite lookup_delete_eq.
    + intros Hq s' HM'. split; [intros er; wp_steps; by apply HF; [left|]|auto].
  - eapply wp_retract; [done..| |].
    + intros s' Rm' Hm' HP' Hb'. wp_steps. apply HQ.
      eexists _, Rm'. split; [done|]. intros k' [Hk'| ->]; [auto|].
      intros e' He'. simplify_eq. rewrite lookup_delete_eq, Hb', Hold. done.
    + intros Hq s' HM'. split; [intros er; wp_steps; by apply HF; [left|]|auto].
Qed.

Lemma wp_rollback_entry s :
  Mid s -> es !! k = Some e ->
  wp q (rollback_entry limits out root k e failures) Q X C s.
Proof using All.
  intros (O & Rm & Hm & HP) He. destruct (news_lookup He) as [n Hn].
  assert (HM : Mid s) by (by exists O, Rm).
  pose proof (mw_view _ _ _ _ _ _ Hm) as Hv. pose proof (mw_entries _ _ _ _ _ _ Hm) as Hok.
  pose proof (set_old _ _ _ _ _ Hset _ _ He) as Hold.
  unfold rollback_entry. wp_steps.
  eapply wp_slot_exists; [done|apply Hok| |].
  2:{ intros Hq. split; [|auto]. intros er. wp_steps. by apply HF; [left|]. }
  wp_steps. eapply (wp_direct_exists q out _ O); [apply Hv| |].
  2:{ intros Hq. split; [|auto]. intros er. wp_steps. by apply HF; [left|]. }
  destruct (eo_entries _ _ _ _ _ Hok _ _ _ He Hn) as [HO Hb|Hex HO Hb|HO Hb Hd].
  - rewrite Hb, HO. rewrite (bool_decide_eq_false_2 (is_Some None)) by by intros [].
    destruct (existed e) eqn:Hex.
    + destruct Hold as (n0 & Hn0 & Hold). rewrite Hn0, bool_decide_eq_true_2 by done.
      by eapply wp_rollback_replaced.
    + rewrite Hold, bool_decide_eq_false_2 by by intros []. unfold rollback_created. simpl.
      apply wp_pure, HQ. exists O, Rm. split; [done|]. intros k' [Hk'| ->]; [auto|].
      intros e' He'. by simplify_eq.
  - rewrite Hex in Hold. destruct Hold as (n0 & Hn0 & Hold).
    rewrite HO, Hb, Hn0, bool_decide_eq_true_2 by done.
    rewrite bool_decide_eq_false_2 by by intros [].
    unfold rollback_backed_up. by eapply wp_restore_backup.
  - rewrite HO, (bool_decide_eq_true_2 (is_Some (Some n))) by done.
    pose proof (wp_rollback_installed O Rm s n Hm HP He Hn HO Hb Hd) as Hwp.
    rewrite Hb. destruct (existed e).
    + destruct Hold as (n0 & Hn0 & Hold). by rewrite Hn0, bool_decide_eq_true_2.
    + by rewrite Hold, bool_decide_eq_false_2 by by intros [].
Qed.
End Continuation.
End Entry.

(** ** All entries *)

Section Loop.
Context (q : bool) (hist : list JournalPhase) (lo : nat) (torn : bool).
Context (Q : list string -> fs -> Prop) (X : OffprintError -> fs -> Prop) (C : fs -> Prop).
Context (HQ : forall s', Midway hist lo torn (fun _ => True) s' -> Q [] s').
Context (HF : q = false \/ ~ originals_differ j0 limits s0 O0 ->
  forall f s', f <> [] -> Midway hist lo torn (fun _ => False) s' -> Q f s').
Context (HC : q = false -> forall s', Midway hist lo torn (fun _ => False) s' -> C s').

Lemma Midway_mono (P P' : nat -> Prop) s :
  Midway hist lo torn P s -> (forall k, P' k -> P k) -> Midway hist lo torn P' s.
Proof. intros (O & Rm & Hm & HP) Hsub. exists O, Rm. auto. Qed.

(** Entries at [length es] and above do not exist. *)
Lemma Midway_all m s :
  Midway hist lo torn (fun k => (m <= k)%nat) s -> m = 0%nat ->
  Midway hist lo torn (fun _ => True) s.
Proof. intros HM ->. eapply Midway_mono; [done|]. intros k _; simpl. lia. Qed.

(** After a failure only the invariant is left. *)
Lemma wp_rollback_failed l f s :
  (q = false \/ ~ originals_differ j0 limits s0 O0) ->
  f <> [] -> Midway hist lo torn (fun _ => False) s ->
  (forall k e, (k, e) ∈ l -> es !! k = Some e) ->
  wp q (rollback_loop limits out root l f) Q X C s.
Proof using All.
  intros Hq. revert f s. induction l as [|[k e] l IH]; intros f s Hf HM Hl; simpl.
  { apply wp_pure. auto. }
  wp_step. eapply (wp_rollback_entry q hist lo torn (fun _ => False)); [| | |done|].
  - intros s' HM'. apply IH; [done| |].
    + by eapply Midway_weaken.
    + intros k' e' Hk'. apply Hl. by right.
  - intros _ x s' HM'. apply IH; [by destruct f|done|]. intros k' e' Hk'. apply Hl. by right.
  - auto.
  - apply Hl. by left.
Qed.

Lemma wp_rollback_loop l m s :
  (forall i k e, l !! i = Some (k, e) -> es !! k = Some e /\ (i + S k = m)%nat) ->
  length l = m ->
  Midway hist lo torn (fun k => (m <= k)%nat) s ->
  wp q (rollback_loop limits out root l []) Q X C s.
Proof using All.
  revert m s. induction l as [|[k e] l IH]; intros m s Hl Hlen HM; simpl.
  { apply wp_pure, HQ. by eapply Midway_all. }
  destruct (Hl 0%nat k e eq_refl) as [He Hk]. simpl in Hlen, Hk.
  assert (Hl' : forall k' e', (k', e') ∈ l -> es !! k' = Some e').
  { intros k' e' [i Hi]%list_elem_of_lookup. by apply (Hl (S i)). }
  wp_step. eapply (wp_rollback_entry q hist lo torn (fun k => (m <= k)%nat)); [| | |done|done].
  - intros s' HM'. apply (IH k).
    + intros i k' e' Hi. destruct (Hl (S i) k' e' Hi). split; [done|lia].
    + lia.
    + eapply Midway_mono; [done|]. intros k' Hk'; simpl. lia.
  - intros Hq x s' HM'. apply wp_rollback_failed; [done|done| |done].
    by eapply Midway_mono.
  - intros Hq s' HM'. apply HC; [done|]. by eapply Midway_mono.
Qed.

Lemma imap_pair_rev (l : list JournalEntry) i k e :
  rev (imap pair l) !! i = Some (k, e) -> l !! k = Some e /\ (i + S k = length l)%nat.
Proof.
  intros Hi. assert (Hlt := lookup_lt_Some _ _ _ Hi).
  rewrite length_rev, length_imap in Hlt.
  rewrite rev_alt in Hi. change (rev_append ?l []) with (reverse l) in Hi. rewrite reverse_lookup in Hi by (by rewrite length_imap).
  rewrite length_imap, list_lookup_imap in Hi.
  apply fmap_Some in Hi as (e' & He' & [= -> ->]). split; [done|lia].
Qed.

Lemma wp_rollback_entries s :
  Midway hist lo torn (fun _ => False) s ->
  wp q (rollback_entries limits out root es) Q X C s.
Proof using All.
  intros HM. unfold rollback_entries. apply (wp_rollback_loop _ (length es)).
  - intros i k e. apply imap_pair_rev.
  - by rewrite length_rev, length_imap.
  - destruct HM as (O & Rm & Hm & _). exists O, Rm. split; [done|].
    intros k Hk e He%lookup_lt_Some. lia.
Qed.
End Loop.
End Rollback.
