(* ===== verification/RecoveryFacts.v ===== *)
(** * Recovery of entry-wise transactions

    From every state an interrupted transaction can leave behind, recovery
    keeps to such states whatever interrupts it, and when nothing does it ends
    with the transaction directory gone and the output directory either as it
    was before the transaction or with every output installed. *)

From Stdlib Require Import ZArith Lia Ascii String.
From stdpp Require Import base tactics list gmap strings numbers sorting.
From S2P Require Import Prelude.
From S2P Require Import Errors.
From S2P Require Import Fs.
From S2P Require Import Io.
From S2P Require Import FsFacts.
From S2P Require Import Records.
From S2P Require Import Durable.
From S2P Require Import Journal.
From S2P Require Import Plan.
From S2P Require Import Recovery.
From S2P Require Import Matching.
From S2P Require Import Regions.
From S2P Require Import JournalFacts.
From S2P Require Import CleanupFacts.
From S2P Require Import RollbackFacts.

#[local] Open Scope string_scope.
#[local] Open Scope Z_scope.
#[local] Open Scope list_scope.

(** ** Building an error only looks *)

Lemma wp_attempt_direct_exists q p s (Q : Res bool -> fs -> Prop)
    (X : OffprintError -> fs -> Prop) (C : fs -> Prop) :
  (forall r, Q r s) -> (q = false -> C s) ->
  wp q (attempt (direct_exists p)) Q X C s.
Proof.
  intros HQ HC. unfold direct_exists. wp_steps. apply wp_sys.
  - intros m s' Hs'. unfold sys_symlink_metadata in Hs'.
    destruct (lookup_nofollow s p); simplify_eq/=. by wp_steps.
  - intros k _. destruct k; by wp_steps.
  - intros Hq. split; [|auto]. intros []; simpl; by wp_steps.
Qed.

Lemma wp_retained_among q root l s (Q : list path -> fs -> Prop)
    (X : OffprintError -> fs -> Prop) (C : fs -> Prop) :
  (forall ps, Q ps s) -> (q = false -> C s) ->
  wp q (retained_among root l) Q X C s.
Proof.
  intros HQ HC. revert Q HQ. induction l as [|r l IH]; intros Q HQ; simpl; [by apply wp_pure|].
  wp_step. apply wp_attempt_direct_exists; [|done]. intros b. wp_step.
  apply IH. intros ps. by apply wp_pure.
Qed.

Lemma wp_recovery_error q root ph cc recovered f s (Q : OffprintError -> fs -> Prop)
    (X : OffprintError -> fs -> Prop) (C : fs -> Prop) :
  (forall ps, Q (recovery_record root ph cc recovered f ps) s) -> (q = false -> C s) ->
  wp q (recovery_error root ph cc recovered f) Q X C s.
Proof.
  intros HQ HC. unfold recovery_error, retained_paths. do 2 wp_step.
  apply wp_retained_among; [|done]. intros ps. by wp_steps.
Qed.

Lemma wp_or_recovery_error {A} q (m : R A) root ph cc recovered s (Q : A -> fs -> Prop)
    (X : OffprintError -> fs -> Prop) (C : fs -> Prop) :
  wp q m Q (fun _ s' =>
    (forall f ps, X (recovery_record root ph cc recovered f ps) s') /\ (q = false -> C s')) C s ->
  wp q (or_recovery_error m root ph cc recovered) Q X C s.
Proof.
  intros Hm. unfold or_recovery_error. do 2 wp_step.
  eapply wp_mono; [exact Hm| | |done].
  - intros a s' HQ. by wp_steps.
  - intros e s' [HX HC]. wp_step. apply wp_recovery_error; [|done]. intros ps. by wp_steps.
Qed.

(** ** Error details *)

Lemma record_commit root ph cc recovered f ps :
  err_details (recovery_record root ph cc recovered f ps) !! "commitComplete" =
  Some (DBool cc).
Proof. unfold recovery_record. by details. Qed.
Lemma record_rollback root ph cc recovered f ps :
  err_details (recovery_record root ph cc recovered f ps) !! "rollbackComplete" =
  Some (DBool recovered).
Proof. unfold recovery_record. by details. Qed.

Lemma dir_or_none_shrunk Rm Rm' d :
  shrunk (NDir Rm) (NDir Rm') -> dir_or_none Rm d -> dir_or_none Rm' d.
Proof.
  intros Hs [Hd|[D HD]]; [left; by eapply shrunk_lookup|].
  destruct (sh_dir _ _ Hs [d] D) as [Hn|[m Hm]]; simpl in *; [by rewrite HD| |].
  - left. by destruct (Rm' !! d).
  - right. exists m. by destruct (Rm' !! d).
Qed.

Section Recovery.
Context `{Hashing} `{JournalCodec} {Hlaws : JournalCodecLaws}.
Context (out root : path) (Hdis : disjoint_paths out root).
Context (j0 : TransactionJournal) (limits : ArtifactTransactionLimits).
Context (s0 : fs) (O0 : gmap string node) (news : list node).
Context (ns : TransactionNamespace).
Context (Hout : ns_output ns = out) (Hj0 : journal_base root j0 (ns_identity ns)).
Context (Hset : setting j0 limits s0 O0 news) (Hmode : mode j0 = Entries).

Abbreviation es := (entries j0).
Abbreviation jst := (jst j0).
Abbreviation entries_ok := (entries_ok j0 O0 news).
Abbreviation Midway := (Midway out root j0 s0 O0 news).

(** Every output is in place and nothing else changed. *)
Definition installed (O : gmap string node) : Prop :=
  (forall k e n, es !! k = Some e -> news !! k = Some n -> O !! destination_name e = Some n) /\
  (forall c, c ∉ map destination_name es -> O !! c = O0 !! c).

(** What the last snapshot says of the two directories. *)
Definition phase_ok (ph : JournalPhase) (O Rm : gmap string node) : Prop :=
  match ph with
  | Staging | Prepared => O = O0
  | Mutating | RollingBack => entries_ok O Rm
  | Committed => installed O
  end.

(** The states of an unfinished transaction: a readable journal, or nothing
    left but journal remains. *)
Definition journal_pending (ph : JournalPhase) (s : fs) : Prop :=
  exists O Rm hist lo torn,
    view out root s O Rm /\ jst s Rm hist lo torn /\ no_other Rm /\
    last hist = Some ph /\ (lo < length hist)%nat /\
    (ph = Mutating -> (length hist < 4)%nat) /\ phase_ok ph O Rm.
Definition remains_pending (s : fs) : Prop :=
  exists O Rm hist torn,
    view out root s O Rm /\ jst s Rm hist (length hist) torn /\ no_other Rm /\
    only_journals Rm /\ (O = O0 \/ installed O).
Definition unfinished (s : fs) : Prop :=
  keeps s0 s /\ ((exists ph, journal_pending ph s) \/ remains_pending s).
Definition finished (Pr : gmap string node -> Prop) (s : fs) : Prop :=
  keeps s0 s /\ exists O, gone out root O s /\ Pr O.
Definition either (O : gmap string node) : Prop := O = O0 \/ installed O.
Definition pending (s : fs) : Prop := unfinished s \/ finished either s.

(** No journal file is cut short. *)
Definition intact (s : fs) : Prop :=
  forall Rm name i, sub s root = Some (NDir Rm) -> is_journal_name name = true ->
    Rm !! name = Some (NFile i) -> is_Some (journal_decode (file_bytes s i)).

(** An error that claims the commit complete, or the rollback complete, is
    right about the output directory. *)
Definition holds (Pr : gmap string node -> Prop) (s : fs) : Prop :=
  exists O, sub s out = Some (NDir O) /\ Pr O.
Definition truthful (e : OffprintError) (s : fs) : Prop :=
  (err_details e !! "commitComplete" = Some (DBool true) -> holds installed s) /\
  (err_details e !! "rollbackComplete" = Some (DBool true) ->
   err_details e !! "commitComplete" <> Some (DBool true) -> holds (eq O0) s).

Lemma truthful_record ph cc recovered f ps s :
  (cc = true -> holds installed s) ->
  (recovered = true -> cc = false -> holds (eq O0) s) ->
  truthful (recovery_record root ph cc recovered f ps) s.
Proof.
  intros Hc Hr. split; rewrite record_commit, ?record_rollback.
  - intros [= ->]. auto.
  - intros [= ->] Hne. apply Hr; [done|]. by destruct cc.
Qed.

Lemma truthful_plain e s : plain e -> truthful e s.
Proof. intros [H1 H2]. split; rewrite H1, ?H2; done. Qed.

Lemma intact_torn s O Rm hist lo torn :
  intact s -> view out root s O Rm -> jst s Rm hist lo torn -> torn = false.
Proof.
  intros Hi Hv Hj. destruct torn; [|done]. exfalso.
  destruct (jst_torn _ _ _ _ _ _ Hj eq_refl) as (i & Hn & Hc & _).
  destruct (Hi _ _ _ (v_root _ _ _ _ _ Hv) (slot_name_is_journal _ (jst_len _ _ _ _ _ _ Hj)) Hn)
    as [j Hj']. congruence.
Qed.

Lemma latest_last hist lo ph :
  last hist = Some ph -> (lo < length hist)%nat ->
  latest j0 hist lo = Some (snapshot j0 (pred (length hist)) ph).
Proof.
  intros Hl Hlo. unfold latest, upto. rewrite decide_True by done.
  rewrite <- last_lookup, Hl. done.
Qed.

(** Whatever interrupts a removal, the transaction is still pending. *)
Lemma cleaning_pending s s' O Rm hist lo torn ph :
  keeps s0 s -> cleaning out root j0 s O Rm hist lo torn s' ->
  last hist = Some ph -> (ph = Mutating -> (length hist < 4)%nat) ->
  (forall Rm', shrunk (NDir Rm) (NDir Rm') -> no_other Rm' -> phase_ok ph O Rm') ->
  either O -> pending s' /\ holds (eq O) s'.
Proof.
  intros Hk0 [Hk Hc] Hl Hm Hph HO. assert (Hk' := keeps_trans _ _ _ Hk0 Hk).
  destruct Hc as [(Rm' & lo' & torn' & Hv & Hj & Hs & Hn & Hlo & Ht & Hon)|Hg].
  - split; [|exists O; split; [apply Hv|done]]. left. split; [done|].
    destruct (decide (lo' = length hist)) as [->|Hne].
    + right. exists O, Rm', hist, torn'. split_and!; auto.
    + left. exists ph, O, Rm', hist, lo', torn'. split_and!; auto.
      pose proof (jst_lo _ _ _ _ _ _ Hj). lia.
  - split; [|exists O; split; [apply Hg|done]]. right. split; [done|]. by exists O.
Qed.

Lemma Midway_pending hist lo torn ph P s :
  Midway hist lo torn P s -> last hist = Some ph -> (lo < length hist)%nat ->
  (ph = Mutating /\ (length hist < 4)%nat \/ ph = RollingBack) -> pending s.
Proof using.
  intros (O & Rm & [Hv Hk Hj He] & _) Hl Hlo Hph. left. split; [done|]. left.
  exists ph, O, Rm, hist, lo, torn.
  split_and!; [done|done|apply He|done|done| |].
  - intros ->. by destruct Hph as [[_ ?]|?].
  - by destruct Hph as [[-> _]| ->].
Qed.

Lemma settled_entries_ok O Rm Rm' :
  entries_ok O Rm -> (forall k, settled j0 O0 O Rm k) ->
  shrunk (NDir Rm) (NDir Rm') -> no_other Rm' -> entries_ok O0 Rm'.
Proof.
  intros He Hs Hsh Hno. apply entries_ok_original; [| |done|].
  - eapply dir_or_none_shrunk; [done|apply He].
  - eapply dir_or_none_shrunk; [done|apply He].
  - intros k e Hk. destruct (Hs k e Hk) as [_ Hb]. apply eq_None_not_Some.
    intros Hsome. apply (sh_some _ _ Hsh) in Hsome. rewrite Hb in Hsome. by destruct Hsome.
Qed.

(** Appending to the journal does not touch recovery material. *)
Lemma no_other_journaled s' Rm Rm' hist lo torn :
  no_other Rm -> same_others Rm Rm' -> jst s' Rm' hist lo torn -> no_other Rm'.
Proof.
  intros Hn Hs Hj c. destruct (is_journal_name c) eqn:Hc.
  - by eapply jst_no_other.
  - rewrite (Hs _ Hc). apply Hn.
Qed.

Lemma entries_ok_journaled O Rm Rm' :
  entries_ok O Rm -> same_others Rm Rm' -> no_other Rm' -> entries_ok O Rm'.
Proof.
  intros [H1 H2 H3 H4 H5] Hs Hn.
  assert (Hb : forall k, slot Rm' "backups" (entry_name k) = slot Rm "backups" (entry_name k)).
  { intros k. simpl. by rewrite Hs. }
  assert (Hd : forall k, slot Rm' "discard" (entry_name k) = slot Rm "discard" (entry_name k)).
  { intros k. simpl. by rewrite Hs. }
  split; [|done| | |done].
  - intros k e n He Hk. destruct (H1 _ _ _ He Hk);
      [apply entry_original|apply entry_backed_up|apply entry_installed];
      rewrite ?Hb, ?Hd; done.
  - unfold dir_or_none. by rewrite Hs.
  - unfold dir_or_none. by rewrite Hs.
Qed.

Lemma maybe_pending s s' O Rm hist lo ph ph' :
  keeps s0 s -> no_other Rm -> last hist = Some ph -> (lo < length hist)%nat ->
  (S (length hist) < SLOTS)%nat -> ph' <> Mutating \/ (length hist < 3)%nat ->
  maybe_journaled out root j0 s O Rm hist lo ph' s' ->
  (forall Rm', same_others Rm Rm' -> no_other Rm' -> phase_ok ph O Rm' /\ phase_ok ph' O Rm') ->
  pending s' /\ holds (eq O) s'.
Proof.
  intros Hk Hno Hl Hlo Hlen Hph' [[torn (Rm' & Hv & Hk' & Hs & Hj)]|(Rm' & Hv & Hk' & Hs & Hj)] Hok.
  all: assert (Hno' : no_other Rm') by (by eapply no_other_journaled).
  all: destruct (Hok _ Hs Hno') as [Hok1 Hok2].
  all: split; [|exists O; split; [apply Hv|done]].
  all: left; split; [by eapply keeps_trans|]; left.
  - exists ph, O, Rm', hist, lo, torn. unfold SLOTS in *. split_and!; auto. lia.
  - exists ph', O, Rm', (hist ++ [ph']), lo, false. rewrite last_snoc, length_app. simpl.
    split_and!; auto; [lia|]. intros ->. destruct Hph'; [done|lia].
Qed.

Section Run.
Context (q : bool) (Q : unit -> fs -> Prop) (X : OffprintError -> fs -> Prop).
Context (C : fs -> Prop).
Context (HX : q = false -> forall e s', pending s' -> truthful e s' -> X e s').
Context (HD : ~ originals_differ j0 limits s0 O0 ->
  forall e s', pending s' -> truthful e s' -> X e s').
Context (HC : q = false -> forall s', pending s' -> C s').

Lemma wp_rollback_transaction s hist lo torn k :
  Midway hist lo torn (fun _ => False) s ->
  last hist = Some RollingBack -> (lo < length hist)%nat ->
  (forall s', finished (eq O0) s' -> Q tt s') ->
  wp q (rollback_transaction limits out root (snapshot j0 k RollingBack)) Q X C s.
Proof using All.
  intros HM Hl Hlo HQ. unfold rollback_transaction.
  change (mode (snapshot j0 k RollingBack)) with (mode j0). rewrite Hmode.
  change (entries (snapshot j0 k RollingBack)) with es. wp_step.
  assert (Hpend : forall P s', Midway hist lo torn P s' -> pending s').
  { intros P s' HM'. eapply Midway_pending; [done..|by right]. }
  eapply (wp_rollback_entries out root Hdis j0 limits s0 O0 news Hset q hist lo torn); [| | |done].
  - intros s' (O & Rm & [Hv Hk Hj He] & Hs).
    assert (O = O0) as ->.
    { eapply all_settled; [done|]. auto. }
    assert (Hhold : holds (eq O0) s') by (exists O0; split; [apply Hv|done]).
    assert (Hp' : pending s').
    { apply (Hpend (fun _ => True)). by exists O0, Rm. }
    wp_step. apply wp_or_recovery_error, wp_sync_directory; [by eapply view_dir_out| |].
    2:{ intros Hq. split; [|by apply HC]. intros e. split; [|by auto]. intros f ps.
        apply HX; [done|done|]. by apply truthful_record. }
    apply wp_or_recovery_error. eapply wp_cleanup; [done|done|done|apply He| | |].
    + lia.
    + intros s'' Hg Hk'. apply HQ. split; [by eapply keeps_trans|]. by exists O0.
    + intros Hq s'' Hc.
      destruct (cleaning_pending s' s'' O0 Rm hist lo torn RollingBack Hk Hc Hl) as [Hp1 Hh1];
        [done| |by left|].
      { intros Rm' Hsh Hno. eapply settled_entries_ok; [done| |done|done]. auto. }
      split; [|by apply HC]. intros e. split; [|by auto]. intros f ps.
      apply HX; [done|done|]. by apply truthful_record.
  - intros Hq f s' Hf HM'. destruct f as [|x f]; [done|]. wp_step.
    apply wp_recovery_error; [|by intros; eapply HC, Hpend]. intros ps. apply wp_fail.
    assert (Hp' := Hpend _ _ HM').
    destruct Hq as [Hq|Hq]; [apply (HX Hq)|apply (HD Hq)]; try exact Hp'; by apply truthful_record.
  - intros Hq s' HM'. by eapply HC, Hpend.
Qed.

Lemma installed_matches O s k e :
  installed O -> sub s out = Some (NDir O) -> keeps s0 s -> es !! k = Some e ->
  exists n, sub s (out ++ [destination_name e]) = Some n /\ node_matches s n e limits = true.
Proof using Hset.
  intros [Hi _] Hs Hk He. destruct (news_lookup j0 limits s0 O0 news Hset k e He) as [n Hn].
  exists n. destruct (set_new _ _ _ _ _ Hset _ _ _ He Hn) as [Hm Hb].
  rewrite (tget_snoc _ _ _ _ Hs). split; [by eapply Hi|].
  rewrite <- Hm. symmetry. by apply node_matches_agree, keeps_agree.
Qed.

Lemma wp_all_match s O l (Q' : bool -> fs -> Prop) :
  installed O -> sub s out = Some (NDir O) -> keeps s0 s -> l ⊆ es ->
  Q' true s -> (q = false -> Q' false s) -> (q = false -> C s) ->
  wp q (all_match limits out l) Q' X C s.
Proof using All - HD.
  clear HD.
  intros Hi Hs Hk. induction l as [|e l IH]; intros Hl HQ1 HQ2 HC1; simpl; [by apply wp_pure|].
  wp_step. destruct (list_elem_of_lookup_1 es e) as [k He]; [by apply Hl; left|].
  destruct (installed_matches O s k e) as (n & Hn & Hm); [done..|].
  eapply (wp_path_matches_entry q s _ n); [done|by destruct out| | |done].
  - rewrite Hm. apply IH; [set_solver|done..].
  - intros Hq. by apply wp_pure; auto.
Qed.

Lemma wp_finalize s O Rm hist lo torn k :
  keeps s0 s -> view out root s O Rm -> jst s Rm hist lo torn -> no_other Rm ->
  last hist = Some Committed -> (lo < length hist)%nat -> installed O ->
  (forall s', finished installed s' -> Q tt s') ->
  wp q (finalize_committed limits out root (snapshot j0 k Committed)) Q X C s.
Proof using All - HD.
  clear HD.
  intros Hk Hv Hj Hno Hl Hlo Hi HQ. unfold finalize_committed.
  change (mode (snapshot j0 k Committed)) with (mode j0). rewrite Hmode.
  change (entries (snapshot j0 k Committed)) with es.
  assert (Hhold : holds installed s) by (exists O; split; [apply Hv|done]).
  assert (Hp : pending s).
  { left. split; [done|]. left. exists Committed, O, Rm, hist, lo, torn. by split_and!. }
  wp_step. eapply wp_all_match; [done|apply Hv|done|done| | |by auto].
  - apply wp_or_recovery_error. eapply wp_cleanup; [done..| | |].
    + lia.
    + intros s'' Hg Hk'. apply HQ. split; [by eapply keeps_trans|]. by exists O.
    + intros Hq s'' Hc.
      destruct (cleaning_pending s s'' O Rm hist lo torn Committed Hk Hc Hl) as [Hp1 Hh1];
        [done|done|by right|].
      split; [|by apply HC]. intros e. split; [|by auto]. intros f ps.
      apply HX; [done|done|]. apply truthful_record; [|done]. intros _.
      destruct Hh1 as (O' & HO' & <-). by exists O.
  - intros Hq. wp_step. apply wp_recovery_error; [|by auto]. intros ps. apply wp_fail.
    apply HX; [done|done|]. by apply truthful_record.
Qed.
End Run.

(** ** The whole of [recover_transaction] *)

Definition verdict (ph : JournalPhase) : gmap string node -> Prop :=
  match ph with Committed => installed | _ => eq O0 end.

Section Recover.
Context (q : bool) (Q : unit -> fs -> Prop) (X : OffprintError -> fs -> Prop).
Context (C : fs -> Prop) (s : fs).
Context (Henc : q = true -> forall k ph, (k < SLOTS)%nat -> exists b, complete j0 k ph b).
Context (HX : q = false \/ ~ originals_differ j0 limits s0 O0 \/ ~ intact s ->
  forall e s', pending s' -> truthful e s' -> X e s').
Context (HC : q = false -> forall s', pending s' -> C s').

Lemma store_for_snapshot k ph :
  (k < SLOTS)%nat ->
  store_for root j0 (journal_store_from_snapshot root (snapshot j0 k ph)) (S k).
Proof.
  intros Hk. split_and!; [done| |by eauto]. unfold journal_store_from_snapshot; simpl.
  unfold saturating_add, u32_max, SLOTS in *. lia.
Qed.

Lemma wp_recover_mutating O Rm hist lo torn :
  keeps s0 s -> view out root s O Rm -> jst s Rm hist lo torn -> entries_ok O Rm ->
  last hist = Some Mutating -> (lo < length hist)%nat -> (length hist < 4)%nat ->
  (forall s', finished (eq O0) s' -> Q tt s') ->
  wp q (r <- persist (journal_store_from_snapshot root
                        (snapshot j0 (pred (length hist)) Mutating)) RollingBack ;;
        let '(persisted, store) := r in
        or_recovery_error (lift persisted) root (Some Mutating) false false ;;;
        rollback_transaction limits out root (js_snapshot store)) Q X C s.
Proof using All.
  intros Hk Hv Hj He Hl Hlo Hlen HQ.
  assert (Hp : pending s).
  { left. split; [done|]. left. exists Mutating, O, Rm, hist, lo, torn.
    split_and!; [done|done|apply He|done..]. }
  assert (Hst : store_for root j0 (journal_store_from_snapshot root
    (snapshot j0 (pred (length hist)) Mutating)) (length hist)).
  { replace (length hist) with (S (pred (length hist))) at 2 by lia.
    apply store_for_snapshot. unfold SLOTS. lia. }
  assert (Herr : (q = false \/ ~ originals_differ j0 limits s0 O0 \/ ~ intact s) ->
    forall s' e st, pending s' ->
    wp q (or_recovery_error (lift (@Err _ unit e)) root (Some Mutating) false false ;;;
          rollback_transaction limits out root (js_snapshot st)) Q X C s').
  { intros Hq s' e st Hs'. wp_step. apply wp_or_recovery_error. simpl. apply wp_fail.
    split; [|by auto]. intros f ps. apply HX; [done|done|]. by apply truthful_record. }
  wp_step. destruct torn.
  { eapply wp_persist_blocked; [done..| |by auto]. intros e st. apply Herr; [|done].
    right; right. intros Hi. by discriminate (intact_torn _ _ _ _ _ _ Hi Hv Hj). }
  assert (Hno := eo_no_other _ _ _ _ _ He).
  eapply wp_persist; [done|done|done|unfold SLOTS; lia|done| | |].
  - intros Hq. apply Henc; [done|unfold SLOTS; lia].
  - intros s' (Rm' & Hv' & Hk' & Hs & Hj'). wp_step.
    apply wp_or_recovery_error. simpl. apply wp_pure.
    eapply (wp_rollback_transaction q Q X C) with (hist := hist ++ [RollingBack]);
      [by intros; apply HX; auto|by intros; apply HX; auto|done| |by rewrite last_snoc| |done].
    + exists O, Rm'. split; [|done].
      split; [done|by eapply keeps_trans|done|].
      eapply entries_ok_journaled; [done|done|]. by eapply no_other_journaled.
    + rewrite length_app. simpl. lia.
  - intros Hq s' Hm. destruct (maybe_pending s s' O Rm hist lo Mutating RollingBack) as [Hp' _];
      [done..|unfold SLOTS; lia|by left|done| |].
    { intros Rm' Hs Hn. split; by eapply entries_ok_journaled. }
    split; [|auto]. intros e st _ _. apply Herr; [by left|done].
Qed.

Lemma wp_recover_journal ph :
  keeps s0 s -> journal_pending ph s ->
  (forall s', finished (verdict ph) s' -> Q tt s') ->
  wp q (recover_transaction ns limits root) Q X C s.
Proof using All.
  intros Hk (O & Rm & hist & lo & torn & Hv & Hj & Hno & Hl & Hlo & Hm & Hok) HQ.
  assert (Hp : pending s).
  { left. split; [done|]. left. exists ph, O, Rm, hist, lo, torn. by split_and!. }
  unfold recover_transaction. rewrite Hout. wp_step. apply wp_or_recovery_error.
  eapply wp_load_latest; [done..| |].
  2:{ intros Hq. split; [|by auto]. intros e. split; [|by auto]. intros f ps.
      apply HX; [by left|done|]. by apply truthful_record. }
  rewrite (latest_last _ _ _ Hl Hlo). change (phase (snapshot j0 (pred (length hist)) ph)) with ph.
  assert (HX1 : q = false -> forall e s', pending s' -> truthful e s' -> X e s')
    by (intros; apply HX; auto).
  assert (HX2 : ~ originals_differ j0 limits s0 O0 ->
    forall e s', pending s' -> truthful e s' -> X e s') by (intros; apply HX; auto).
  assert (Hearly : ph = Staging \/ ph = Prepared ->
    wp q (or_recovery_error (cleanup_transaction_root root) root (Some ph) false true) Q X C s).
  { intros Hph. assert (O = O0) as -> by (by destruct Hph as [-> | ->]).
    apply wp_or_recovery_error. eapply wp_cleanup; [done..| | |].
    - lia.
    - intros s' Hg Hk'. apply HQ. split; [by eapply keeps_trans|]. exists O0.
      split; [done|]. by destruct Hph as [-> | ->].
    - intros Hq s' Hc.
      destruct (cleaning_pending s s' O0 Rm hist lo torn ph Hk Hc Hl) as [Hp1 Hh1];
        [done|by destruct Hph as [-> | ->]|by left|].
      split; [|by apply HC]. intros e. split; [|by auto]. intros f ps.
      apply HX; [by left|done|]. by apply truthful_record. }
  destruct ph.
  - apply Hearly. by left.
  - apply Hearly. by right.
  - eapply wp_recover_mutating; [done..|by apply Hm|done].
  - eapply (wp_rollback_transaction q Q X C); [done|done|done| |done|done|done].
    exists O, Rm. by split.
  - by eapply (wp_finalize q Q X C).
Qed.

Lemma wp_recover_remains :
  keeps s0 s -> remains_pending s ->
  (forall s', finished either s' -> Q tt s') ->
  wp q (recover_transaction ns limits root) Q X C s.
Proof using All.
  intros Hk (O & Rm & hist & torn & Hv & Hj & Hno & Hon & HO) HQ.
  assert (Hp : pending s).
  { left. split; [done|]. right. exists O, Rm, hist, torn. by split_and!. }
  assert (HXr : forall ph, q = false -> forall s', pending s' ->
    forall f ps, X (recovery_record root ph false false f ps) s').
  { intros ph Hq s' Hp' f ps. apply HX; [by left|done|]. by apply truthful_record. }
  unfold recover_transaction. rewrite Hout. wp_step. apply wp_or_recovery_error.
  eapply wp_load_latest; [done..| |].
  2:{ intros Hq. split; [|by auto]. intros e. split; [|by auto]. by apply HXr. }
  unfold latest, upto. rewrite decide_False by lia. wp_step. apply wp_or_recovery_error.
  unfold directory_is_empty. wp_steps.
  apply wp_sys; rewrite ?(symlink_metadata_direct _ _ _ (v_root _ _ _ _ _ Hv)
    (root_not_nil _ _ Hdis)); [|done|].
  2:{ intros Hq. split; [|by auto]. intros e. split; [|by auto]. by apply HXr. }
  intros ? ? [= <- <-]. simpl. wp_steps.
  apply wp_sys; rewrite ?(read_dir_direct _ _ _ (v_root _ _ _ _ _ Hv)); [|done|].
  2:{ intros Hq. split; [|by auto]. intros e. split; [|by auto]. by apply HXr. }
  intros ? ? [= <- <-]. wp_steps. case_bool_decide as Hemp.
  - apply (wp_errs q plain); [auto with offprint|]. eapply wp_cleanup; [done..| | |].
    + done.
    + intros s' Hg Hk'. apply HQ. split; [by eapply keeps_trans|]. by exists O.
    + intros Hq s' [Hk' Hc]. assert (Hk'' := keeps_trans _ _ _ Hk Hk').
      assert (Hp' : pending s').
      { destruct Hc as [(Rm' & lo' & torn' & Hv' & Hj' & Hs & Hn & Hlo & Ht & Hon')|Hg].
        - left. split; [done|]. right.
          assert (lo' = length hist) as -> by (pose proof (jst_lo _ _ _ _ _ _ Hj'); lia).
          exists O, Rm', hist, torn'. split_and!; auto.
        - right. split; [done|]. by exists O. }
      split; [|auto]. intros e He. apply HX; [by left|done|by apply truthful_plain].
  - wp_step. apply wp_recovery_error; [|by auto]. intros ps. apply wp_fail.
    apply HX; [|done|by apply truthful_record].
    destruct q; [|by left]. right; right. intros Hi.
    assert (torn = false) as -> by (by eapply intact_torn).
    apply Hemp. destruct (map_to_list Rm) as [|[c n] l] eqn:Hl; [done|]. exfalso.
    assert (Hc : Rm !! c = Some n).
    { apply elem_of_map_to_list. rewrite Hl. by left. }
    destruct (jst_names _ _ _ _ _ _ Hj _ _ Hc (Hon _ (mk_is_Some _ _ Hc))) as (k & _ & Hkk).
    simpl in Hkk. lia.
Qed.

(** Recovery of whatever an interrupted transaction left. *)
Lemma wp_recover :
  unfinished s ->
  (forall s', finished either s' -> Q tt s') ->
  wp q (recover_transaction ns limits root) Q X C s.
Proof using All.
  intros [Hk [[ph Hp]|Hp]] HQ; [|by apply wp_recover_remains].
  eapply wp_recover_journal; [done..|]. intros s' (Hk' & O & Hg & HO). apply HQ.
  split; [done|]. exists O. split; [done|].
  destruct ph; simpl in HO; [by left; symmetry..|by right].
Qed.
End Recover.
End Recovery.
