(* ===== verification/CommitFacts.v ===== *)
(** * Committing an entry-wise transaction

    From a staged transaction, under every fault schedule and every injected
    fault, [commit_transaction] either returns with every output installed and
    the transaction directory gone, or fails or stops in a state that recovery
    handles, with an error that is right about the outputs. *)

From Stdlib Require Import ZArith Lia Ascii String.
From stdpp Require Import base tactics list gmap strings numbers sorting.
From S2P Require Import Prelude.
From S2P Require Import Errors.
From S2P Require Import Fs.
From S2P Require Import Io.
From S2P Require Import FsFacts.
From S2P Require Import Records.
From S2P Require Import Durable.
From S2P Require Import Journal.
From S2P Require Import Plan.
From S2P Require Import Recovery.
From S2P Require Import Commit.
From S2P Require Import Matching.
From S2P Require Import Regions.
From S2P Require Import JournalFacts.
From S2P Require Import CleanupFacts.
From S2P Require Import RollbackFacts.
From S2P Require Import RecoveryFacts.

#[local] Open Scope string_scope.
#[local] Open Scope Z_scope.
#[local] Open Scope list_scope.

(** ** Validation facts *)

(** What matches a file entry is a regular file. *)
Lemma node_matches_file `{Hashing} s n e limits :
  node_matches s n e limits = true -> output_kind e = OFile -> exists i, n = NFile i.
Proof.
  unfold node_matches, validate_entry_path. intros Hm Hk. rewrite Hk in Hm.
  unfold validate_file, direct_regular_file, mthen, map_err, fs_symlink_metadata, sys, sys_torn in Hm.
  simpl w_faults in Hm. simpl w_fs in Hm.
  rewrite (symlink_metadata_direct _ _ _ (sub_only s n)) in Hm by done.
  destruct n; [by eexists|done..].
Qed.

(** A run of validations over one state. *)
Lemma wp_validate_all `{Hashing} {A} q limits (p : A -> path) (ent : A -> JournalEntry) l s
    (Q : unit -> fs -> Prop) (X : OffprintError -> fs -> Prop) (C : fs -> Prop) :
  (forall a, a ∈ l -> p a <> [] /\ is_Some (sub s (p a))) ->
  ((forall a n, a ∈ l -> sub s (p a) = Some n -> node_matches s n (ent a) limits = true) ->
     Q tt s) ->
  (q = false \/ ~ (forall a n, a ∈ l -> sub s (p a) = Some n ->
                     node_matches s n (ent a) limits = true) ->
     forall e, X e s) ->
  (q = false -> C s) ->
  wp q (mfor (fun a => validate_entry_path (p a) (ent a) limits) l) Q X C s.
Proof.
  intros Hp. induction l as [|a l IH]; intros HQ HX HC; simpl.
  { apply wp_pure, HQ. by intros a n Ha%elem_of_nil. }
  destruct (Hp a) as [Hne [n Hn]]; [by left|]. wp_step.
  eapply wp_validate_entry_path; [done|done| | |done].
  - intros Hm. apply IH; [|intros Hl; apply HQ|intros Hl; apply HX|done].
    + intros a' Ha'. apply Hp. by right.
    + intros a' n' [->|Ha']%elem_of_cons Hn'; [congruence|by eapply Hl].
    + destruct Hl as [?|Hl]; [by left|right]. intros Hall. apply Hl.
      intros a' n' Ha'. apply Hall. by right.
  - intros [Hq|Hm]; apply HX; [by left|right]. intros Hall.
    by rewrite (Hall a n (list_elem_of_here _ _) Hn) in Hm.
Qed.

Section Commit.
Context `{Hashing} `{JournalCodec} {Hlaws : JournalCodecLaws}.
Context (out root : path) (Hdis : disjoint_paths out root).
Context (j0 : TransactionJournal) (news : list node) (identity : string).
Context (request : CommitRequest) (injector : FaultInjector).
Context (s0 : fs) (O0 Rm0 S0 : gmap string node).

Abbreviation es := (entries j0).
Abbreviation limits := (cr_limits request).
Abbreviation arts := (cr_artifacts request).

(** A transaction whose outputs are staged and whose journal says so. *)
Record staged : Prop := {
  st_base : journal_base root j0 identity;
  st_mode : mode j0 = Entries;
  st_output : cr_output request = out;
  st_root : cr_root request = root;
  st_request_mode : cr_mode request = Entries;
  st_entries : map sa_entry arts = es;
  st_destination a : a ∈ arts -> sa_destination a = out ++ [destination_name (sa_entry a)];
  st_staged_path a :
    a ∈ arts -> sa_staged_path a = root ++ ["staged-output"; destination_name (sa_entry a)];
  st_policy a : a ∈ arts -> cr_conflict request <> ConflictReplace -> existed (sa_entry a) = false;
  st_store : store_for root j0 (cr_journal request) 2;
  st_view : view out root s0 O0 Rm0;
  st_journals : jst j0 s0 Rm0 [Staging; Prepared] 0 false;
  st_no_other : no_other Rm0;
  st_dir : Rm0 !! "staged-output" = Some (NDir S0);
  st_backups : Rm0 !! "backups" = None;
  st_discard : Rm0 !! "discard" = None;
  st_news : Forall2 (fun e n => S0 !! destination_name e = Some n) es news;
}.
Context (Hst : staged).

(** The journal's entries have different names, and there are few. *)
Lemma validate_entries_from_names l names :
  validate_entries_from l names = Ok tt ->
  NoDup (map destination_name l) /\ forall e, e ∈ l -> destination_name e ∉ names.
Proof.
  revert names. induction l as [|e l IH]; intros names; simpl.
  { intros _. split; [constructor|]. by intros e He%elem_of_nil. }
  case_if; [done|]. bool_facts. case_if; [done|]. intros [Hnd Hl]%IH. split.
  - constructor; [|done]. intros (e' & He' & Hin)%list_elem_of_In%in_map_iff.
    apply list_elem_of_In in Hin. specialize (Hl _ Hin). set_solver.
  - intros e' [->|He']%elem_of_cons; [done|]. specialize (Hl _ He'). set_solver.
Qed.

Lemma base_names : NoDup (map destination_name es) /\ (length es <= 8)%nat.
Proof using All.
  pose proof (jb_entries _ _ _ (st_base Hst)) as Hv. unfold validate_entries in Hv.
  case_if; [done|]. bool_facts. unfold MAXIMUM_JOURNAL_VARIANTS in *.
  split; [by eapply validate_entries_from_names|lia].
Qed.

(** Every staged output matches its entry. *)
Definition staged_match : Prop :=
  forall k e n, es !! k = Some e -> news !! k = Some n ->
    node_matches s0 n e limits = true.
(** The destinations are as the plan recorded them. *)
Definition rechecked : Prop :=
  forall k e, es !! k = Some e ->
    if existed e
    then exists n, O0 !! destination_name e = Some n /\ node_kind n = previous_kind e /\
           previous_kind e <> None
    else O0 !! destination_name e = None.

Lemma art_lookup a : a ∈ arts -> exists k n,
  es !! k = Some (sa_entry a) /\ news !! k = Some n /\
  S0 !! destination_name (sa_entry a) = Some n.
Proof using Hst.
  intros [k Hk]%list_elem_of_lookup_1.
  assert (He : es !! k = Some (sa_entry a)).
  { rewrite <- (st_entries Hst), list_lookup_fmap, Hk. done. }
  destruct (Forall2_lookup_l _ _ _ _ _ (st_news Hst) He) as (n & Hn & HS). eauto.
Qed.

Lemma entry_art k e : es !! k = Some e -> exists a, arts !! k = Some a /\ sa_entry a = e.
Proof using Hst.
  rewrite <- (st_entries Hst), list_lookup_fmap. intros (a & Ha & ->)%fmap_Some. eauto.
Qed.

Lemma sub_staged a :
  a ∈ arts -> sub s0 (sa_staged_path a) = S0 !! destination_name (sa_entry a).
Proof using Hst.
  intros Ha. rewrite (st_staged_path Hst _ Ha).
  by rewrite (sub_root2 _ _ _ _ _ (st_view Hst) _ _ _ (st_dir Hst)).
Qed.

Lemma sub_destination s O Rm a :
  view out root s O Rm -> a ∈ arts ->
  sub s (sa_destination a) = O !! destination_name (sa_entry a).
Proof using Hst.
  intros Hv Ha. rewrite (st_destination Hst _ Ha). by rewrite (sub_out _ _ _ _ _ Hv).
Qed.

Lemma setting_from_checks :
  staged_match -> rechecked -> setting j0 limits s0 O0 news.
Proof using All.
  intros Hm Hr. destruct base_names as [Hnd Hlen]. split; [done|done| | |].
  - symmetry. by eapply Forall2_length, (st_news Hst).
  - intros k e n He Hn. split; [by eapply Hm|].
    pose proof (Forall2_lookup_lr _ _ _ _ _ _ (st_news Hst) He Hn) as HS. cbv beta in HS.
    by eapply (below_root2 _ _ _ _ _ (st_view Hst)); [apply (st_dir Hst)|].
  - intros k e He. specialize (Hr k e He). destruct (existed e); [|done].
    destruct Hr as (n & Hn & Hk & Hp). exists n. split_and!; [done..|].
    by eapply (below_out _ _ _ _ _ (st_view Hst)).
Qed.

Section Validate.
Context (q : bool) (X : OffprintError -> fs -> Prop) (C : fs -> Prop) (HC : q = false -> C s0).

Lemma wp_validate_staged (Q : unit -> fs -> Prop) :
  (staged_match -> Q tt s0) -> (q = false \/ ~ staged_match -> forall e, X e s0) ->
  wp q (validate_staged_artifacts arts limits) Q X C s0.
Proof using All.
  intros HQ HX. unfold validate_staged_artifacts. apply wp_validate_all.
  - intros a Ha. rewrite (sub_staged _ Ha). destruct (art_lookup _ Ha) as (k & n & _ & _ & ->).
    split; [|done]. rewrite (st_staged_path Hst _ Ha). by destruct root.
  - intros Hall. apply HQ. intros k e n He Hn.
    destruct (entry_art _ _ He) as (a & Ha & <-).
    apply list_elem_of_lookup_2 in Ha. apply (Hall a n Ha). rewrite (sub_staged _ Ha).
    by apply (Forall2_lookup_lr _ _ _ _ _ _ (st_news Hst) He Hn).
  - intros [Hq|Hn]; apply HX; [by left|right]. intros Hm. apply Hn.
    intros a n Ha Hs. rewrite (sub_staged _ Ha) in Hs.
    destruct (art_lookup _ Ha) as (k & n' & He & Hn' & HS). simplify_eq. by eapply Hm.
  - done.
Qed.

Lemma wp_direct_metadata o p (Q : option metadata -> fs -> Prop) :
  sub s0 p = o -> p <> [] -> (exists m, sub s0 (parent p) = Some (NDir m)) ->
  (forall n, o = Some n -> not_symlink n -> Q (Some (meta_of s0 n)) s0) ->
  (o = None -> Q None s0) ->
  (q = false \/ (exists n, o = Some n /\ ~ not_symlink n) -> forall e, X e s0) ->
  wp q (direct_metadata p) Q X C s0.
Proof using HC.
  intros Ho Hp [m Hm] HQ1 HQ2 HX. unfold direct_metadata. wp_steps.
  destruct o as [n|].
  - apply wp_sys; rewrite ?(symlink_metadata_direct _ _ _ Ho Hp); [|done|].
    + intros ? ? [= <- <-]. destruct n as [i|m'|tg|]; simpl; wp_steps.
      * exact (HQ1 (NFile i) eq_refl I).
      * exact (HQ1 (NDir m') eq_refl I).
      * apply HX. right. exists (NSymlink tg). split; [done|]. by intros [].
      * exact (HQ1 NOther eq_refl I).
    + intros Hq. split; [|auto]. intros []; simpl; wp_steps; by apply HX; left.
  - destruct (exists_last Hp) as (d & c & ->). rewrite parent_app in Hm.
    assert (Hc : m !! c = None) by (by rewrite (tget_snoc _ _ _ _ Hm) in Ho).
    apply wp_sys; rewrite ?(symlink_metadata_missing _ _ _ _ Hm Hc); [done| |].
    + intros ? [= <-]. wp_steps. auto.
    + intros Hq. split; [|auto]. intros []; simpl; wp_steps; by apply HX; left.
Qed.

Lemma wp_recheck (Q : unit -> fs -> Prop) l :
  l ⊆ arts ->
  ((forall a, a ∈ l ->
     if existed (sa_entry a)
     then exists n, O0 !! destination_name (sa_entry a) = Some n /\
            node_kind n = previous_kind (sa_entry a) /\ previous_kind (sa_entry a) <> None
     else O0 !! destination_name (sa_entry a) = None) -> Q tt s0) ->
  (q = false \/ ~ rechecked -> forall e, X e s0) ->
  wp q (mfor (recheck_destination (cr_conflict request)) l) Q X C s0.
Proof using All.
  intros Hl HQ HX. revert Hl HQ. induction l as [|a l IH]; intros Hl HQ; simpl.
  { apply wp_pure, HQ. by intros a Ha%elem_of_nil. }
  assert (Ha : a ∈ arts) by (apply Hl; by left).
  assert (Hbad : ~ (if existed (sa_entry a)
     then exists n, O0 !! destination_name (sa_entry a) = Some n /\
            node_kind n = previous_kind (sa_entry a) /\ previous_kind (sa_entry a) <> None
     else O0 !! destination_name (sa_entry a) = None) -> forall e, X e s0).
  { intros Hn. apply HX. right. intros Hr. apply Hn.
    destruct (art_lookup _ Ha) as (k & _ & He & _). by apply (Hr k). }
  assert (Hgood : (if existed (sa_entry a)
     then exists n, O0 !! destination_name (sa_entry a) = Some n /\
            node_kind n = previous_kind (sa_entry a) /\ previous_kind (sa_entry a) <> None
     else O0 !! destination_name (sa_entry a) = None) ->
     wp q (mfor (recheck_destination (cr_conflict request)) l) Q X C s0).
  { intros Hg. apply IH; [set_solver|]. intros Hrest. apply HQ.
    intros a' [->|Ha']%elem_of_cons; [exact Hg|by apply Hrest]. }
  clear IH HQ. wp_step. unfold recheck_destination. wp_step.
  pose proof (st_policy Hst _ Ha) as Hpol.
  eapply wp_direct_metadata.
  - by apply (sub_destination _ _ _ _ (st_view Hst)).
  - rewrite (st_destination Hst _ Ha). by destruct out.
  - rewrite (st_destination Hst _ Ha), parent_app. eexists. apply (st_view Hst).
  - intros n Hn Hns. destruct (cr_conflict request) eqn:Hc.
    + apply wp_fail, Hbad. rewrite Hpol by done. congruence.
    + destruct (existed (sa_entry a)) eqn:Hex.
      * destruct n; simpl; try (apply wp_fail, Hbad; intros (n' & Hn' & Hk & Hp); simplify_eq/=; congruence).
        all: case_bool_decide as Hb; [apply wp_pure, Hgood; eexists; split_and!; [done| |]; simpl; congruence|].
        all: apply wp_fail, Hbad; intros (n' & Hn' & Hk & Hp); simplify_eq/=; congruence.
      * apply wp_fail, Hbad. congruence.
    + apply wp_fail, Hbad. rewrite Hpol by done. congruence.
  - intros Hn. destruct (cr_conflict request) eqn:Hc.
    + apply wp_pure, Hgood. by rewrite Hpol.
    + destruct (existed (sa_entry a)) eqn:Hex.
      * apply wp_fail, Hbad. intros (n' & Hn' & _). congruence.
      * by apply wp_pure, Hgood.
    + apply wp_pure, Hgood. by rewrite Hpol.
  - intros [Hq|(n & Hn & Hns)]; [by apply HX; left|]. apply Hbad.
    destruct (existed (sa_entry a)); [|congruence].
    intros (n' & Hn' & Hk & Hp). assert (n' = n) as -> by congruence. destruct n; simpl in *; congruence || tauto.
Qed.

Lemma wp_validate_before_mutation (Q : unit -> fs -> Prop) :
  (staged_match -> rechecked -> Q tt s0) ->
  (q = false \/ ~ (staged_match /\ rechecked) -> forall e, X e s0) ->
  wp q (validate_before_mutation request) Q X C s0.
Proof using All.
  intros HQ HX. unfold validate_before_mutation. wp_step.
  apply wp_validate_staged; [|intros [?|?]; apply HX; [by left|right; tauto]].
  intros Hm. wp_step. apply wp_recheck; [done| |intros [?|?]; apply HX; [by left|right; tauto]].
  intros Hr. rewrite (st_request_mode Hst). apply wp_pure, HQ; [done|].
  intros k e He. destruct (entry_art _ _ He) as (a & Ha & <-).
  apply Hr. by eapply list_elem_of_lookup_2.
Qed.
End Validate.

(** ** Moving the outputs into place *)

Abbreviation mutating := ([Staging; Prepared; Mutating]).
Abbreviation Mid := (Midway out root j0 s0 O0 news mutating 0 false (fun _ => False)).
Abbreviation backup_slot Rm k := (slot Rm "backups" (entry_name k)).

Inductive status := SOriginal | SBacked | SNew.

Definition status_ok (st : status) (O Rm : gmap string node) (k : nat) (e : JournalEntry)
    (n : node) : Prop :=
  match st with
  | SOriginal => O !! destination_name e = O0 !! destination_name e /\ backup_slot Rm k = None
  | SBacked =>
      existed e = true /\ O !! destination_name e = None /\
      backup_slot Rm k = O0 !! destination_name e
  | SNew =>
      O !! destination_name e = Some n /\ backup_slot Rm k = O0 !! destination_name e
  end.

(** The progress [f] of every entry. *)
Record shape (f : nat -> status) (O Rm S : gmap string node) (s : fs) : Prop := {
  sp_view : view out root s O Rm;
  sp_keeps : keeps s0 s;
  sp_journals : jst j0 s Rm mutating 0 false;
  sp_no_other : no_other Rm;
  sp_staged : Rm !! "staged-output" = Some (NDir S);
  sp_backups : dir_or_none Rm "backups";
  sp_discard : Rm !! "discard" = None;
  sp_status k e n : es !! k = Some e -> news !! k = Some n -> status_ok (f k) O Rm k e n;
  sp_others c : c ∉ map destination_name es -> O !! c = O0 !! c;
  sp_present k e n :
    es !! k = Some e -> news !! k = Some n -> f k <> SNew -> S !! destination_name e = Some n;
}.

Lemma shape_Mid f O Rm S s : shape f O Rm S s -> Mid s.
Proof.
  intros [Hv Hk Hj Hno Hs Hb Hd Hst' Ho Hp]. exists O, Rm. split; [|done].
  split; [done|done|done|]. split; [|done|done|by left|done].
  intros k e n He Hn. specialize (Hst' _ _ _ He Hn). destruct (f k); unfold status_ok in Hst'.
  - destruct Hst'. by apply entry_original.
  - destruct Hst' as (? & ? & ?). by apply entry_backed_up.
  - destruct Hst'. apply entry_installed; [done..|]. by apply slot_none.
Qed.

Definition advance (f : nat -> status) (k : nat) (v : status) : nat -> status :=
  fun j => if decide (j = k) then v else f j.

Section Moves.
Context (Hset : setting j0 limits s0 O0 news).

Lemma shape_update f O Rm S s t O' Rm' S' k e n v :
  shape f O Rm S s -> es !! k = Some e -> news !! k = Some n ->
  view out root (set_tree t s) O' Rm' -> same_journals Rm Rm' -> no_other Rm' ->
  Rm' !! "staged-output" = Some (NDir S') -> dir_or_none Rm' "backups" ->
  Rm' !! "discard" = None ->
  (forall c, c <> destination_name e -> O' !! c = O !! c /\ S' !! c = S !! c) ->
  (forall k', k' <> k -> (k' < 8)%nat -> backup_slot Rm' k' = backup_slot Rm k') ->
  status_ok v O' Rm' k e n -> (v <> SNew -> S' !! destination_name e = Some n) ->
  shape (advance f k v) O' Rm' S' (set_tree t s).
Proof using Hset.
  intros [Hv Hk Hj Hno Hs Hb Hd Hst' Ho Hp] He Hn Hv' Hsj Hno' Hs' Hb' Hd' Hne Hbk Hok Hpr.
  assert (Hnm : forall k' e', k' <> k -> es !! k' = Some e' ->
    destination_name e' <> destination_name e).
  { intros k' e' Hkk He' Heq. by apply Hkk, (es_inj _ _ _ _ _ Hset _ _ _ _ He' He). }
  split; [done|by apply keeps_set_tree| |done|done|done|done| | |].
  - eapply (jst_frame out root j0 s); [done|by apply keeps_set_tree, keeps_refl|done|done].
  - intros k' e' n' He' Hn'. unfold advance. case_decide as Hkk; [by simplify_eq|].
    specialize (Hst' _ _ _ He' Hn'). destruct (Hne _ (Hnm _ _ Hkk He')) as [HO _].
    assert (Hbk' := Hbk k' Hkk (es_bound _ _ _ _ _ Hset _ _ He')).
    destruct (f k'); unfold status_ok in *; by rewrite HO, Hbk'.
  - intros c Hc. destruct (Hne c) as [-> _]; [|by apply Ho]. intros ->. apply Hc.
    apply list_elem_of_In, in_map, list_elem_of_In. by eapply list_elem_of_lookup_2.
  - intros k' e' n' He' Hn'. unfold advance. case_decide as Hkk; [simplify_eq; done|].
    intros Hf. destruct (Hne _ (Hnm _ _ Hkk He')) as [_ ->]. by eapply Hp.
Qed.

Lemma backup_move f O Rm S s k e n B :
  shape f O Rm S s -> es !! k = Some e -> news !! k = Some n ->
  existed e = true -> f k = SOriginal -> Rm !! "backups" = Some (NDir B) ->
  exists t O' Rm',
    sys_rename (out ++ [destination_name e]) (root ++ ["backups"; entry_name k]) s =
      Ok (tt, set_tree t s) /\
    shape (advance f k SBacked) O' Rm' S (set_tree t s) /\
    exists B', Rm' !! "backups" = Some (NDir B').
Proof using Hset Hdis.
  intros Hsp He Hn Hex Hf HB. pose proof (sp_view _ _ _ _ _ Hsp) as Hv.
  pose proof (set_old _ _ _ _ _ Hset _ _ He) as Hold. rewrite Hex in Hold.
  destruct Hold as (n0 & Hn0 & _).
  pose proof (sp_status _ _ _ _ _ Hsp _ _ _ He Hn) as Hs. rewrite Hf in Hs.
  destruct Hs as [HO Hb]. rewrite (slot_dir _ _ _ _ HB) in Hb. rewrite Hn0 in HO.
  destruct (rename_to_root _ _ Hdis _ _ _ Hv _ _ _ _ _ HO HB Hb) as (t & Ht & Hv').
  assert (HB' : forall x, slot (<["backups" := NDir (<[entry_name k := n0]> B)]> Rm) "backups" x =
    <[entry_name k := n0]> B !! x).
  { intros x. apply slot_dir, lookup_insert_eq. }
  eexists t, _, _. split; [done|]. split; [|eexists; apply lookup_insert_eq].
  eapply shape_update; [done|done|done|done| | | | | | | | |].
  - by apply same_journals_insert.
  - apply no_other_insert; [apply Hsp|done].
  - rewrite lookup_insert_ne by done. apply Hsp.
  - right. eexists. apply lookup_insert_eq.
  - rewrite lookup_insert_ne by done. apply Hsp.
  - intros c Hc. by rewrite lookup_delete_ne.
  - intros k' Hkk Hk'. rewrite HB', (slot_dir _ _ _ _ HB), lookup_insert_ne; [done|].
    intros Heq. apply Hkk. symmetry. apply entry_name_inj; [by eapply es_bound|done|done].
  - split_and!; [done|by rewrite lookup_delete_eq|by rewrite HB', lookup_insert_eq].
  - intros _. apply (sp_present _ _ _ _ _ Hsp k); [done|done|by rewrite Hf].
Qed.

(** The destination is free and its original, if any, is in the backup. *)
Definition vacant (f : nat -> status) (k : nat) (e : JournalEntry) : Prop :=
  f k = SBacked \/ (f k = SOriginal /\ existed e = false).

Lemma vacant_facts f O Rm S s k e n :
  shape f O Rm S s -> es !! k = Some e -> news !! k = Some n -> vacant f k e ->
  O !! destination_name e = None /\ backup_slot Rm k = O0 !! destination_name e /\
  S !! destination_name e = Some n.
Proof using Hset.
  intros Hsp He Hn Hvac. pose proof (sp_status _ _ _ _ _ Hsp _ _ _ He Hn) as Hs.
  assert (f k <> SNew) as Hne by (by destruct Hvac as [-> |[-> _]]).
  pose proof (sp_present _ _ _ _ _ Hsp _ _ _ He Hn Hne) as Hp.
  destruct Hvac as [Hf|[Hf Hex]]; rewrite Hf in Hs; unfold status_ok in Hs; [naive_solver|].
  pose proof (set_old _ _ _ _ _ Hset _ _ He) as Hold. rewrite Hex in Hold.
  rewrite Hold in *. naive_solver.
Qed.

Lemma link_move f O Rm S s k e n :
  shape f O Rm S s -> es !! k = Some e -> news !! k = Some n -> vacant f k e ->
  output_kind e = OFile ->
  exists t O',
    sys_hard_link (root ++ ["staged-output"; destination_name e]) (out ++ [destination_name e]) s =
      Ok (tt, set_tree t s) /\
    shape (advance f k SNew) O' Rm S (set_tree t s).
Proof using Hset Hdis.
  intros Hsp He Hn Hvac Hkind. pose proof (sp_view _ _ _ _ _ Hsp) as Hv.
  destruct (vacant_facts _ _ _ _ _ _ _ _ Hsp He Hn Hvac) as (HO & Hb & HS).
  destruct (set_new _ _ _ _ _ Hset _ _ _ He Hn) as [Hm _].
  destruct (node_matches_file _ _ _ _ Hm Hkind) as [i ->].
  destruct (link_to_out _ _ Hdis _ _ _ Hv _ _ _ _ _ (sp_staged _ _ _ _ _ Hsp) HS HO)
    as (t & Ht & Hv').
  eexists t, _. split; [done|].
  eapply shape_update; [done|done|done|done|done|apply Hsp|apply Hsp|apply Hsp|apply Hsp| |done| |done].
  - intros c Hc. by rewrite lookup_insert_ne.
  - split; [by rewrite lookup_insert_eq|done].
Qed.

Lemma directory_move f O Rm S s k e n :
  shape f O Rm S s -> es !! k = Some e -> news !! k = Some n -> vacant f k e ->
  exists t O' Rm' S',
    sys_rename (root ++ ["staged-output"; destination_name e]) (out ++ [destination_name e]) s =
      Ok (tt, set_tree t s) /\
    shape (advance f k SNew) O' Rm' S' (set_tree t s).
Proof using Hset Hdis.
  intros Hsp He Hn Hvac. pose proof (sp_view _ _ _ _ _ Hsp) as Hv.
  destruct (vacant_facts _ _ _ _ _ _ _ _ Hsp He Hn Hvac) as (HO & Hb & HS).
  destruct (rename_to_out _ _ Hdis _ _ _ Hv _ _ _ _ _ (sp_staged _ _ _ _ _ Hsp) HS HO)
    as (t & Ht & Hv').
  eexists t, _, _, _. split; [done|].
  eapply shape_update; [done|done|done|done| | |apply lookup_insert_eq| | | | | |done].
  - by apply same_journals_insert.
  - apply no_other_insert; [apply Hsp|done].
  - unfold dir_or_none. rewrite lookup_insert_ne by done. apply Hsp.
  - rewrite lookup_insert_ne by done. apply Hsp.
  - intros c Hc. by rewrite lookup_insert_ne, lookup_delete_ne.
  - intros k' Hkk Hk'. by apply slot_insert_ne.
  - split; [by rewrite lookup_insert_eq|by rewrite slot_insert_ne].
Qed.

Section Run.
Context (q : bool) (XM : OffprintError * FaultAction -> fs -> Prop) (C : fs -> Prop).

(** Nothing fails and nothing is injected. *)
Definition calm : Prop :=
  q = true /\ (forall p, injector p = None) /\ staged_match /\ rechecked.

Context (HXM : ~ calm -> forall e a s', plain e -> Mid s' -> XM (e, a) s').
Context (HCM : q = false -> forall s', Mid s' -> C s').

Lemma loud : q = false -> ~ calm.
Proof. intros Hq [Hq' _]. congruence. Qed.

Lemma plain_injected a : plain (injected_fault a).
Proof. unfold injected_fault. auto with offprint. Qed.

Lemma wp_inject point f O Rm S s (Q : unit -> fs -> Prop) :
  shape f O Rm S s -> Q tt s -> wp q (inject injector point) Q XM C s.
Proof using HXM.
  intros Hsp HQ. unfold inject. destruct (injector point) as [a|] eqn:Ha; [|by apply wp_pure].
  apply wp_fail, HXM; [|apply plain_injected|by eapply shape_Mid].
  intros (_ & Hi & _). by rewrite Hi in Ha.
Qed.

(** A durable step of the mutation: its failures leave the invariant. *)
Lemma wp_or_error {A} (m : R A) (Q : A -> fs -> Prop) s :
  errs plain m ->
  wp q m Q (fun _ s' => q = false /\ Mid s') C s ->
  wp q (or_error m) Q XM C s.
Proof using HXM.
  intros He Hm. unfold or_error. wp_step. apply (wp_errs q plain); [done|].
  eapply wp_mono; [exact Hm|done| |done]. intros e s' [Hq HM] Hp.
  apply HXM; [by apply loud|done|done].
Qed.

Lemma wp_backup_entry f O Rm S s k a n B (Q : unit -> fs -> Prop) :
  shape f O Rm S s -> arts !! k = Some a -> news !! k = Some n -> f k = SOriginal ->
  (existed (sa_entry a) = true -> Rm !! "backups" = Some (NDir B)) ->
  (existed (sa_entry a) = false -> Q tt s) ->
  (forall s' O' Rm' B', existed (sa_entry a) = true ->
     shape (advance f k SBacked) O' Rm' S s' -> Rm' !! "backups" = Some (NDir B') -> Q tt s') ->
  wp q (backup_entry request injector (k, a)) Q XM C s.
Proof using All.
  intros Hsp Ha Hn Hf HB HQ1 HQ2. unfold backup_entry.
  assert (He : es !! k = Some (sa_entry a)).
  { rewrite <- (st_entries Hst), list_lookup_fmap, Ha. done. }
  destruct (existed (sa_entry a)) eqn:Hex; [|by apply wp_pure; auto].
  destruct (backup_move f O Rm S s k (sa_entry a) n B) as
    (t & O' & Rm' & Ht & Hsp' & B' & HB'); [by auto..|].
  rewrite (st_root Hst), (st_destination Hst a) by (by eapply list_elem_of_lookup_2).
  pose proof (sp_view _ _ _ _ _ Hsp) as Hv. pose proof (sp_view _ _ _ _ _ Hsp') as Hv'.
  wp_step. apply wp_or_error; [apply errs_durable_rename|].
  eapply wp_durable_rename; [done| | | | | |].
  - rewrite parent_app. by eapply view_dir_out.
  - rewrite snoc2, parent_app. eapply view_dir_root1; [done|by apply HB].
  - rewrite parent_app. by eapply view_dir_out.
  - rewrite snoc2, parent_app. by eapply view_dir_root1.
  - intros _. eapply wp_inject; [done|]. by eapply HQ2.
  - intros Hq. split_and!; [intros _; split; [done|by eapply shape_Mid]|
      by apply HCM; [|eapply shape_Mid]..].
Qed.

Lemma wp_install_entry f O Rm S s k a n (Q : unit -> fs -> Prop) :
  shape f O Rm S s -> arts !! k = Some a -> news !! k = Some n -> vacant f k (sa_entry a) ->
  (forall s' O' Rm' S', shape (advance f k SNew) O' Rm' S' s' -> Q tt s') ->
  wp q (install_entry injector (k, a)) Q XM C s.
Proof using All.
  intros Hsp Ha Hn Hvac HQ. unfold install_entry.
  assert (He : es !! k = Some (sa_entry a)).
  { rewrite <- (st_entries Hst), list_lookup_fmap, Ha. done. }
  apply list_elem_of_lookup_2 in Ha.
  rewrite (st_staged_path Hst _ Ha), (st_destination Hst _ Ha).
  pose proof (sp_view _ _ _ _ _ Hsp) as Hv.
  assert (Hdirs : dir_at s (out) /\ dir_at s (root ++ ["staged-output"])).
  { split; [by eapply view_dir_out|]. eapply view_dir_root1; [done|apply Hsp]. }
  destruct Hdirs as [Hdo Hds]. wp_step. destruct (output_kind (sa_entry a)) eqn:Hkind.
  - destruct (link_move f O Rm S s k (sa_entry a) n) as (t & O' & Ht & Hsp'); [done..|].
    apply wp_or_error; [apply errs_durable_hard_link|].
    eapply wp_durable_hard_link; [done|by rewrite snoc2, parent_app|by rewrite parent_app| | |].
    + rewrite parent_app. eapply view_dir_out, (sp_view _ _ _ _ _ Hsp').
    + intros _. eapply wp_inject; [done|]. by eapply HQ.
    + intros Hq. split_and!; [intros _; split; [done|by eapply shape_Mid]|
        by apply HCM; [|eapply shape_Mid]..].
  - destruct (directory_move f O Rm S s k (sa_entry a) n) as (t & O' & Rm' & S' & Ht & Hsp');
      [done..|].
    apply wp_or_error; [apply errs_durable_rename|].
    eapply wp_durable_rename; [done|by rewrite snoc2, parent_app|by rewrite parent_app| | | |].
    + rewrite snoc2, parent_app. eapply view_dir_root1; [apply Hsp'|apply Hsp'].
    + rewrite parent_app. eapply view_dir_out, (sp_view _ _ _ _ _ Hsp').
    + intros _. eapply wp_inject; [done|]. by eapply HQ.
    + intros Hq. split_and!; [intros _; split; [done|by eapply shape_Mid]|
        by apply HCM; [|eapply shape_Mid]..].
Qed.

Lemma drop_cons_inv {A} (x : A) l i L :
  x :: l = drop i L -> L !! i = Some x /\ l = drop (S i) L.
Proof.
  intros Hd. assert (Hx : L !! i = Some x).
  { rewrite <- (Nat.add_0_r i), <- lookup_drop, <- Hd. done. }
  split; [done|]. rewrite (drop_S _ _ _ Hx) in Hd. congruence.
Qed.

Lemma indexed_lookup i x :
  imap pair arts !! i = Some x -> exists a n,
    x = (i, a) /\ arts !! i = Some a /\ news !! i = Some n /\ es !! i = Some (sa_entry a).
Proof using Hst.
  rewrite list_lookup_imap. intros (a & Ha & ->)%fmap_Some.
  assert (He : es !! i = Some (sa_entry a)).
  { rewrite <- (st_entries Hst), list_lookup_fmap, Ha. done. }
  destruct (Forall2_lookup_l _ _ _ _ _ (st_news Hst) He) as (n & Hn & _). eauto 10.
Qed.

(** The first [i] entries are backed up where there was an original. *)
Definition backed_to (i : nat) (f : nat -> status) : Prop :=
  forall k e, es !! k = Some e ->
    if (k <? i)%nat && existed e then f k = SBacked else f k = SOriginal.

Lemma wp_backups f O Rm S B s (Q : unit -> fs -> Prop) :
  shape f O Rm S s -> backed_to 0 f -> Rm !! "backups" = Some (NDir B) ->
  (forall f' O' Rm' S' s', shape f' O' Rm' S' s' -> backed_to (length es) f' -> Q tt s') ->
  wp q (mfor (backup_entry request injector) (imap pair arts)) Q XM C s.
Proof using All.
  intros Hsp Hf HB HQ.
  apply (wp_for q _ (fun l s' => exists i f' O' Rm' S' B',
    l = drop i (imap pair arts) /\ shape f' O' Rm' S' s' /\ backed_to i f' /\
    Rm' !! "backups" = Some (NDir B'))).
  - exists 0%nat, f, O, Rm, S, B. by split_and!.
  - intros x l s' (i & f' & O' & Rm' & S' & B' & Hl & Hsp' & Hf' & HB').
    apply drop_cons_inv in Hl as [Hx ->].
    destruct (indexed_lookup _ _ Hx) as (a & n & -> & Ha & Hn & He).
    assert (Hfi : f' i = SOriginal).
    { specialize (Hf' _ _ He). by rewrite Nat.ltb_irrefl in Hf'. }
    eapply wp_backup_entry; [done..|done| |].
    + intros Hex. exists (Datatypes.S i), f', O', Rm', S', B'. split_and!; [done|done| |done].
      intros k e Hk. specialize (Hf' _ _ Hk).
      destruct (decide (k = i)) as [->|Hne].
      * assert (e = sa_entry a) as -> by congruence. by rewrite Hex, andb_false_r.
      * destruct (Nat.ltb_spec k i), (Nat.ltb_spec k (Datatypes.S i)); done || lia.
    + intros s'' O'' Rm'' B'' Hex Hsp'' HB''.
      exists (Datatypes.S i), (advance f' i SBacked), O'', Rm'', S', B''.
      split_and!; [done|done| |done].
      intros k e Hk. specialize (Hf' _ _ Hk). unfold advance. case_decide as Hki.
      * subst k. assert (e = sa_entry a) as -> by congruence.
        rewrite Hex, andb_true_r. destruct (Nat.ltb_spec i (Datatypes.S i)); [done|lia].
      * destruct (Nat.ltb_spec k i), (Nat.ltb_spec k (Datatypes.S i)); done || lia.
  - intros s' (i & f' & O' & Rm' & S' & B' & Hl & Hsp' & Hf' & _). eapply HQ; [done|].
    intros k e Hk. specialize (Hf' _ _ Hk).
    assert (length es <= i)%nat.
    { symmetry in Hl. apply (f_equal length) in Hl. rewrite length_drop, length_imap in Hl.
      rewrite <- (st_entries Hst), length_map. simpl in Hl. lia. }
    apply lookup_lt_Some in Hk.
    destruct (Nat.ltb_spec k i), (Nat.ltb_spec k (length es)); done || lia.
Qed.

Definition installed_to (i : nat) (f : nat -> status) : Prop :=
  forall k e, es !! k = Some e -> if (k <? i)%nat then f k = SNew else vacant f k e.

Lemma wp_installs f O Rm S s (Q : unit -> fs -> Prop) :
  shape f O Rm S s -> installed_to 0 f ->
  (forall f' O' Rm' S' s', shape f' O' Rm' S' s' -> installed_to (length es) f' -> Q tt s') ->
  wp q (mfor (install_entry injector) (imap pair arts)) Q XM C s.
Proof using All.
  intros Hsp Hf HQ.
  apply (wp_for q _ (fun l s' => exists i f' O' Rm' S',
    l = drop i (imap pair arts) /\ shape f' O' Rm' S' s' /\ installed_to i f')).
  - exists 0%nat, f, O, Rm, S. by split_and!.
  - intros x l s' (i & f' & O' & Rm' & S' & Hl & Hsp' & Hf').
    apply drop_cons_inv in Hl as [Hx ->].
    destruct (indexed_lookup _ _ Hx) as (a & n & -> & Ha & Hn & He).
    assert (Hfi : vacant f' i (sa_entry a)).
    { specialize (Hf' _ _ He). by rewrite Nat.ltb_irrefl in Hf'. }
    eapply wp_install_entry; [done..|].
    intros s'' O'' Rm'' S'' Hsp''. exists (Datatypes.S i), (advance f' i SNew), O'', Rm'', S''.
    split_and!; [done|done|].
    intros k e Hk. specialize (Hf' _ _ Hk). unfold vacant, advance. case_decide as Hki.
    + subst k. destruct (Nat.ltb_spec i (Datatypes.S i)); [done|lia].
    + destruct (Nat.ltb_spec k i), (Nat.ltb_spec k (Datatypes.S i)); done || lia.
  - intros s' (i & f' & O' & Rm' & S' & Hl & Hsp' & Hf'). eapply HQ; [done|].
    intros k e Hk. specialize (Hf' _ _ Hk).
    assert (length es <= i)%nat.
    { symmetry in Hl. apply (f_equal length) in Hl. rewrite length_drop, length_imap in Hl.
      rewrite <- (st_entries Hst), length_map. simpl in Hl. lia. }
    apply lookup_lt_Some in Hk.
    destruct (Nat.ltb_spec k i), (Nat.ltb_spec k (length es)); done || lia.
Qed.

Lemma shape_mkdir f O Rm S s :
  shape f O Rm S s -> (forall k, f k = SOriginal) -> Rm !! "backups" = None ->
  exists t, sys_create_dir (root ++ ["backups"]) s = Ok (tt, set_tree t s) /\
    shape f O (<["backups" := NDir ∅]> Rm) S (set_tree t s).
Proof using Hdis.
  intros [Hv Hk Hj Hno Hs Hb Hd Hst' Ho Hp] Hf Hnone.
  destruct (mkdir_root _ _ Hdis _ _ _ Hv _ Hnone) as (t & Ht & Hv').
  exists t. split; [done|].
  split; [done|by apply keeps_set_tree| | | | | | |done|done].
  - eapply (jst_frame out root j0 s); [done|by apply keeps_set_tree, keeps_refl| |done].
    by apply same_journals_insert.
  - by apply no_other_insert.
  - by rewrite lookup_insert_ne.
  - right. eexists. apply lookup_insert_eq.
  - by rewrite lookup_insert_ne.
  - intros k e n He Hn. specialize (Hst' _ _ _ He Hn). rewrite Hf in *.
    destruct Hst' as [HO _]. split; [done|].
    by rewrite (slot_dir _ _ _ ∅), lookup_empty by apply lookup_insert_eq.
Qed.

Lemma wp_commit_entries O Rm S s (Q : unit -> fs -> Prop) :
  shape (fun _ => SOriginal) O Rm S s -> Rm !! "backups" = None ->
  (forall f' O' Rm' S' s', shape f' O' Rm' S' s' -> (forall k e, es !! k = Some e -> f' k = SNew) ->
     Q tt s') ->
  wp q (commit_entries request injector) Q XM C s.
Proof using All.
  intros Hsp Hnone HQ.
  assert (Hinst : forall f' O' Rm' S' s', shape f' O' Rm' S' s' -> installed_to 0 f' ->
    wp q (mfor (install_entry injector) (imap pair arts)) Q XM C s').
  { intros f' O' Rm' S' s' Hsp' Hf'. eapply wp_installs; [done..|].
    intros f2 O2 Rm2 S2 s2 Hsp2 Hf2. eapply HQ; [done|]. intros k e Hk.
    specialize (Hf2 _ _ Hk). apply lookup_lt_Some in Hk.
    by rewrite (proj2 (Nat.ltb_lt _ _) Hk) in Hf2. }
  unfold commit_entries. wp_step.
  destruct (existsb _ arts) eqn:Hany.
  - destruct (shape_mkdir _ _ _ _ _ Hsp ltac:(done) Hnone) as (t & Ht & Hsp').
    rewrite (st_root Hst). wp_step. apply wp_or_error; [apply errs_create_directory|].
    eapply wp_create_directory; [done| | | |].
    + rewrite parent_app. eapply view_dir_root, (sp_view _ _ _ _ _ Hsp').
    + eapply view_dir_root1; [apply Hsp'|apply lookup_insert_eq].
    + eapply wp_backups; [done| |apply lookup_insert_eq|].
      * intros k e Hk. done.
      * intros f' O' Rm' S' s' Hsp2 Hf'. eapply Hinst; [done|].
        intros k e Hk. simpl. specialize (Hf' _ _ Hk).
        pose proof (lookup_lt_Some _ _ _ Hk) as Hlt.
        rewrite (proj2 (Nat.ltb_lt _ _) Hlt) in Hf'. simpl in Hf'.
        destruct (existed e) eqn:Hex; [by left|by right].
    + intros Hq st [->| ->]; (split; [intros _; split; [done|]|apply HCM; [done|]]);
        by eapply shape_Mid.
  - apply wp_pure. eapply Hinst; [done|]. intros k e Hk. simpl. right. split; [done|].
    destruct (entry_art _ _ Hk) as (a & Ha & <-).
    destruct (existed (sa_entry a)) eqn:Hex; [|done]. exfalso.
    assert (existsb (fun a => existed (sa_entry a)) arts = true) as Ht; [|congruence].
    apply existsb_exists. exists a. split; [|done].
    apply list_elem_of_In. by eapply list_elem_of_lookup_2.
Qed.
End Run.
End Moves.
End Commit.
