(* ===== verification/CommitSafety.v ===== *)
(** * The commit of an entry-wise transaction, whole

    Puts the pieces of [CommitFacts] together into one statement about
    [commit_transaction]. *)

From Stdlib Require Import ZArith Lia Ascii String.
From stdpp Require Import base tactics list gmap strings numbers sorting.
From S2P Require Import Prelude.
From S2P Require Import Errors.
From S2P Require Import Fs.
From S2P Require Import Io.
From S2P Require Import FsFacts.
From S2P Require Import Records.
From S2P Require Import Durable.
From S2P Require Import Journal.
From S2P Require Import Plan.
From S2P Require Import Recovery.
From S2P Require Import Commit.
From S2P Require Import Matching.
From S2P Require Import Regions.
From S2P Require Import JournalFacts.
From S2P Require Import CleanupFacts.
From S2P Require Import RollbackFacts.
From S2P Require Import RecoveryFacts.
From S2P Require Import CommitFacts.

#[local] Open Scope string_scope.
#[local] Open Scope Z_scope.
#[local] Open Scope list_scope.

Lemma errs_validate_before_mutation `{Hashing} request :
  errs plain (validate_before_mutation request).
Proof.
  unfold validate_before_mutation, validate_staged_artifacts, recheck_destinations,
    recheck_destination, direct_metadata, output_directory_is_empty, direct_directory.
  errs_steps; auto with offprint.
Qed.

Section CommitSafety.
Context `{Hashing} `{JournalCodec} {Hlaws : JournalCodecLaws}.
Context (out root : path) (Hdis : disjoint_paths out root).
Context (j0 : TransactionJournal) (news : list node) (identity : string).
Context (request : CommitRequest) (injector : FaultInjector).
Context (s0 : fs) (O0 Rm0 S0 : gmap string node).
Context (Hst : staged out root j0 news identity request s0 O0 Rm0 S0).

Abbreviation es := (entries j0).
Abbreviation limits := (cr_limits request).
Abbreviation pending := (pending out root j0 s0 O0 news).
Abbreviation truthful := (truthful out j0 O0 news).
Abbreviation installed := (installed j0 O0 news).
Abbreviation mutating := ([Staging; Prepared; Mutating]).
Abbreviation Mid := (Midway out root j0 s0 O0 news mutating 0 false (fun _ => False)).
Abbreviation shape := (shape out root j0 news s0 O0).
Abbreviation finished := (finished out root s0).

(** The namespace recovery would use. *)
Definition namespace_of : TransactionNamespace := MkNamespace out [] identity 0.

Lemma finished_pending Pr s :
  (forall O, Pr O -> either j0 O0 news O) -> finished Pr s -> pending s.
Proof. intros HPr (Hk & O & Hg & HO). right. split; [done|]. exists O. auto. Qed.

Lemma Mid_pending s : Mid s -> pending s.
Proof. intros HM. eapply Midway_pending; [done|reflexivity|simpl; lia|]. left. split; [done|simpl; lia]. Qed.

Lemma shape_installed f O Rm S s :
  shape f O Rm S s -> (forall k e, es !! k = Some e -> f k = SNew) -> installed O.
Proof.
  intros Hsp Hf. split; [|apply Hsp]. intros k e n He Hn.
  pose proof (sp_status _ _ _ _ _ _ _ _ _ _ _ Hsp _ _ _ He Hn) as Hs.
  rewrite (Hf _ _ He) in Hs. apply Hs.
Qed.

(** After the journal says that mutation begins, nothing has moved. *)
Lemma shape_start s :
  journaled out root j0 s0 O0 Rm0 mutating 0 false s ->
  exists Rm, shape (fun _ => SOriginal) O0 Rm S0 s /\ Rm !! "backups" = None.
Proof using Hst.
  intros (Rm & Hv & Hk & Hs & Hj). exists Rm.
  assert (Hb : Rm !! "backups" = None) by (rewrite Hs by done; apply Hst).
  split; [|done]. split; [done|done|done| | | | | |done|].
  - eapply no_other_journaled; [apply Hst|done|done].
  - rewrite Hs by done. apply Hst.
  - by left.
  - rewrite Hs by done. apply Hst.
  - intros k e n _ _. split; [done|]. by apply slot_none.
  - intros k e n He Hn _. by apply (Forall2_lookup_lr _ _ _ _ _ _ (st_news _ _ _ _ _ _ _ _ _ _ Hst) He Hn).
Qed.

Section Run.
Context (q : bool) (Q : list ExportedArtifact -> fs -> Prop).
Context (X : OffprintError -> fs -> Prop) (C : fs -> Prop).
Abbreviation calm := (calm j0 news request injector s0 O0 q).
Context (Henc : q = true -> forall k ph, (k < SLOTS)%nat -> exists b, complete j0 k ph b).
Context (HX : ~ calm -> forall e s', pending s' -> truthful e s' -> X e s').
Context (HC : q = false -> forall s', pending s' -> C s').

(** ** Giving up before anything moved *)

Lemma wp_clean_prepared s src :
  ~ calm -> plain src -> maybe_journaled out root j0 s0 O0 Rm0 [Staging; Prepared] 0 Mutating s ->
  wp q (clean_prepared_failure request src) Q X C s.
Proof using All.
  intros Hcalm Hplain Hm.
  assert (Hcase : exists Rm hist torn ph, view out root s O0 Rm /\ keeps s0 s /\
    jst j0 s Rm hist 0 torn /\ no_other Rm /\ last hist = Some ph /\ hist <> [] /\
    (ph = Mutating -> (length hist < 4)%nat) /\
    (forall Rm', shrunk (NDir Rm) (NDir Rm') -> no_other Rm' ->
       phase_ok j0 O0 news ph O0 Rm')).
  { destruct Hm as [[torn (Rm & Hv & Hk & Hs & Hj)]|(Rm & Hv & Hk & Hs & Hj)].
    - exists Rm, [Staging; Prepared], torn, Prepared.
      split_and!; try done. eapply no_other_journaled; [apply Hst|done|done].
    - exists Rm, mutating, false, Mutating. split_and!; try done.
      + eapply no_other_journaled; [apply Hst|done|done].
      + simpl. lia.
      + intros Rm' Hsh Hno. simpl.
        assert (Hb : Rm' !! "backups" = None).
        { eapply shrunk_lookup; [done|]. rewrite Hs by done. apply Hst. }
        apply entries_ok_original; [by left| |done|].
        * left. eapply shrunk_lookup; [done|]. rewrite Hs by done. apply Hst.
        * intros k e _. by apply slot_none. }
  destruct Hcase as (Rm & hist & torn & ph & Hv & Hk & Hj & Hno & Hl & Hne & Hlen & Hok).
  unfold clean_prepared_failure. rewrite (st_root _ _ _ _ _ _ _ _ _ _ Hst). do 2 wp_step.
  eapply wp_cleanup; [done..| | |].
  - destruct hist; [done|]. simpl. lia.
  - intros s' Hg Hk'. wp_step. apply HX; [done| |by apply truthful_plain].
    eapply finished_pending with (Pr := eq O0); [by left|].
    split; [by eapply keeps_trans|]. by exists O0.
  - intros Hq s' Hc.
    destruct (cleaning_pending _ _ _ _ _ _ _ _ _ _ _ _ _ _ Hk Hc Hl Hlen Hok) as [Hp Hh];
      [by left|].
    split; [|by apply HC]. intros e. wp_step. apply HX; [done|done|]. split.
    + intros Hcc. exfalso. revert Hcc.
      by details.
    + done.
Qed.

(** ** Rolling back after a failed mutation *)

Section Mutate.
Context (Hset : setting j0 limits s0 O0 news).

Lemma plain_crash src :
  plain src ->
  plain (with_detail "recoveryPending" (DBool true)
           (with_detail "transactionPath" (DPath root) src)).
Proof. auto with offprint. Qed.

Lemma truthful_nothing e s :
  err_details e !! "commitComplete" = Some (DBool false) ->
  err_details e !! "rollbackComplete" = Some (DBool false) -> truthful e s.
Proof. intros H1 H2. split; rewrite H1, ?H2; done. Qed.

Lemma wp_handle_failure s store src action :
  ~ calm -> Mid s -> store_for root j0 store 3 -> (action = ActionCrash -> plain src) ->
  wp q (handle_mutating_failure request store src action) Q X C s.
Proof using All.
  intros Hcalm HM Hstore Hplain. unfold handle_mutating_failure.
  rewrite (st_root _ _ _ _ _ _ _ _ _ _ Hst), (st_output _ _ _ _ _ _ _ _ _ _ Hst).
  destruct action.
  2:{ apply wp_fail, HX; [done|by apply Mid_pending|]. by apply truthful_plain, plain_crash, Hplain. }
  destruct HM as (O & Rm & [Hv Hk Hj He] & _). wp_step.
  assert (Hno := eo_no_other _ _ _ _ _ He).
  eapply wp_persist; [done|done|done|simpl; unfold SLOTS; lia|done| | |].
  - intros Hq. apply Henc; [done|simpl; unfold SLOTS; lia].
  - intros s' (Rm' & Hv' & Hk' & Hs & Hj'). do 2 wp_step.
    eapply (wp_rollback_transaction out root Hdis j0 limits s0 O0 news namespace_of eq_refl
      (st_base _ _ _ _ _ _ _ _ _ _ Hst) Hset (st_mode _ _ _ _ _ _ _ _ _ _ Hst))
      with (hist := mutating ++ [RollingBack]) (lo := 0%nat) (torn := false).
    + intros Hq e s1 Hp Ht. apply wp_fail, HX; [done|done|exact Ht].
    + intros Hd e s1 Hp Ht. apply wp_fail, HX; [done|done|exact Ht].
    + done.
    + exists O, Rm'. split; [|done]. split; [done|by eapply keeps_trans|done|].
      eapply entries_ok_journaled; [done|done|]. by eapply no_other_journaled.
    + done.
    + simpl. lia.
    + intros s1 Hf. apply wp_fail, HX; [done| |].
      * eapply finished_pending; [|done]. intros O1 <-. by left.
      * unfold rolled_back_error. split.
        -- intros Hcc. exfalso. revert Hcc. by details.
        -- intros _ _. destruct Hf as (_ & O1 & Hg & <-). exists O0. split; [apply Hg|done].
  - intros Hq s' Hm. destruct (maybe_pending out root j0 s0 O0 news s s' O Rm mutating 0 Mutating RollingBack)
      as [Hp' _]; [done|done|done|simpl; lia|simpl; unfold SLOTS; lia|by left|done| |].
    { intros Rm' Hs Hn. split; by eapply entries_ok_journaled. }
    split; [|auto]. intros e st _ _. apply wp_fail, HX; [done|done|].
    apply truthful_nothing; unfold recovery_pending_error; by details.
Qed.

(** ** Making the commit durable *)

Lemma wp_confirm f O Rm S s store :
  shape f O Rm S s -> (forall k e, es !! k = Some e -> f k = SNew) ->
  store_for root j0 store 3 ->
  (forall s', finished installed s' -> Q (build_results request) s') ->
  wp q (confirm_commit request injector store) Q X C s.
Proof using All.
  intros Hsp Hf Hstore HQ. pose proof (shape_installed _ _ _ _ _ Hsp Hf) as Hi.
  pose proof (Mid_pending _ (shape_Mid _ _ _ _ _ _ _ _ _ _ _ Hsp)) as Hp.
  pose proof (sp_view _ _ _ _ _ _ _ _ _ _ _ Hsp) as Hv.
  pose proof (sp_keeps _ _ _ _ _ _ _ _ _ _ _ Hsp) as Hk.
  unfold confirm_commit.
  rewrite (st_root _ _ _ _ _ _ _ _ _ _ Hst), (st_output _ _ _ _ _ _ _ _ _ _ Hst).
  assert (Hconf : forall s' e, ~ calm -> pending s' -> X (commit_confirmation_error root e) s').
  { intros s' e Hcalm Hp'. apply HX; [done|done|].
    apply truthful_nothing; unfold commit_confirmation_error; by details. }
  do 2 wp_step. apply wp_sync_directory; [by eapply view_dir_out| |].
  2:{ intros Hq. split; [|auto]. intros e. apply wp_fail. apply Hconf; [by apply loud|done]. }
  wp_step.
  assert (He : entries_ok j0 O0 news O Rm).
  { destruct (shape_Mid _ _ _ _ _ _ _ _ _ _ _ Hsp) as (O' & Rm' & [Hv2 _ _ He2] & _).
    pose proof (v_out _ _ _ _ _ Hv). pose proof (v_out _ _ _ _ _ Hv2).
    pose proof (v_root _ _ _ _ _ Hv). pose proof (v_root _ _ _ _ _ Hv2). by simplify_eq. }
  assert (Hno := eo_no_other _ _ _ _ _ He).
  eapply wp_persist; [done|done|apply Hsp|simpl; unfold SLOTS; lia|done| | |].
  - intros Hq. apply Henc; [done|simpl; unfold SLOTS; lia].
  - intros s' (Rm' & Hv' & Hk' & Hs & Hj').
    assert (Hk2 : keeps s0 s') by (by eapply keeps_trans).
    assert (Hno' : no_other Rm') by (by eapply no_other_journaled).
    assert (Hcom : forall a, ~ calm -> X (committed_recovery_error root (injected_fault a)) s').
    { intros a Hcalm. apply HX; [done| |].
      - left. split; [done|]. left. exists Committed, O, Rm', (mutating ++ [Committed]), 0%nat, false.
        split_and!; try done. simpl. lia.
      - split.
        + intros _. exists O. split; [apply Hv'|done].
        + intros Hrb. exfalso. revert Hrb. unfold committed_recovery_error. by details. }
    destruct (injector (AfterJournal Committed)) as [a|] eqn:Ha.
    { apply wp_fail, Hcom. intros (_ & Hin & _). by rewrite Hin in Ha. }
    destruct (injector BeforeCleanup) as [a|] eqn:Hb.
    { apply wp_fail, Hcom. intros (_ & Hin & _). by rewrite Hin in Hb. }
    wp_step.
    eapply (wp_finalize out root Hdis j0 limits s0 O0 news namespace_of eq_refl
      (st_base _ _ _ _ _ _ _ _ _ _ Hst) Hset (st_mode _ _ _ _ _ _ _ _ _ _ Hst))
      with (hist := mutating ++ [Committed]) (lo := 0%nat) (torn := false).
    + intros Hq e s1 Hp1 Ht. apply HX; [by apply loud|done|done].
    + done.
    + done.
    + done.
    + done.
    + done.
    + done.
    + simpl. lia.
    + done.
    + intros s1 Hfin. apply wp_pure. by apply HQ.
  - intros Hq s' Hm. destruct (maybe_pending out root j0 s0 O0 news s s' O Rm mutating 0 Mutating Committed)
      as [Hp' _]; [done|done|done|simpl; lia|simpl; unfold SLOTS; lia|by left|done| |].
    { intros Rm' Hs Hn. split; [by eapply entries_ok_journaled|done]. }
    split; [|auto]. intros e st _ _. apply wp_fail, Hconf; [by apply loud|done].
Qed.

Lemma wp_mutate Rm s store k :
  shape (fun _ => SOriginal) O0 Rm S0 s -> Rm !! "backups" = None ->
  store_for root j0 store 3 -> js_snapshot store = snapshot j0 k Mutating ->
  (forall s', finished installed s' -> Q (build_results request) s') ->
  wp q (mutate request injector store) Q X C s.
Proof using All.
  intros Hsp Hb Hstore Hsnap HQ. unfold mutate.
  rewrite (st_request_mode _ _ _ _ _ _ _ _ _ _ Hst). do 2 wp_step.
  eapply (wp_commit_entries out root Hdis j0 news identity request injector s0 O0 Rm0 S0 Hst Hset q);
    [| |done|done|].
  - intros Hcalm e a s' Hpl HM'. apply wp_handle_failure; [done|done|done|done].
  - intros Hq s' HM'. apply HC; [done|]. by apply Mid_pending.
  - intros f O Rm' S s' Hsp' Hf. do 2 wp_step. unfold validate_committed_outputs.
    rewrite (st_request_mode _ _ _ _ _ _ _ _ _ _ Hst).
    pose proof (sp_view _ _ _ _ _ _ _ _ _ _ _ Hsp') as Hv'.
    pose proof (shape_installed _ _ _ _ _ Hsp' Hf) as Hi.
    assert (Hdest : forall a, a ∈ cr_artifacts request -> exists n,
      sub s' (sa_destination a) = Some n /\ node_matches s' n (sa_entry a) limits = true).
    { intros a Ha. destruct (art_lookup _ _ _ _ _ _ _ _ _ _ Hst _ Ha) as (k' & n & He & Hn & _).
      rewrite (st_destination _ _ _ _ _ _ _ _ _ _ Hst _ Ha).
      eapply installed_matches; [done|done|apply Hv'|apply Hsp'|done]. }
    apply wp_validate_all.
    + intros a Ha. destruct (Hdest _ Ha) as (n & -> & _). split; [|done].
      rewrite (st_destination _ _ _ _ _ _ _ _ _ _ Hst _ Ha). by destruct out.
    + intros _. by eapply wp_confirm.
    + intros Hbad e. apply wp_handle_failure; [|by eapply shape_Mid|done|done].
      destruct Hbad as [Hq|Hbad]; [by apply loud|]. exfalso. apply Hbad.
      intros a n Ha Hn. destruct (Hdest _ Ha) as (n' & Hn' & Hm). congruence.
    + intros Hq. apply HC; [done|]. by eapply Mid_pending, shape_Mid.
Qed.
End Mutate.

(** The whole commit. *)
Lemma wp_commit_transaction :
  (forall s', finished installed s' -> Q (build_results request) s') ->
  wp q (commit_transaction request injector) Q X C s0.
Proof using All.
  intros HQ. pose proof (st_view _ _ _ _ _ _ _ _ _ _ Hst) as Hv.
  assert (Hself : maybe_journaled out root j0 s0 O0 Rm0 [Staging; Prepared] 0 Mutating s0).
  { left. exists false, Rm0. split_and!; [done|apply keeps_refl|done|apply Hst]. }
  assert (Hmaybe : forall s', maybe_journaled out root j0 s0 O0 Rm0 [Staging; Prepared] 0 Mutating s' ->
    pending s').
  { intros s' Hm. eapply (maybe_pending out root j0 s0 O0 news s0 s' O0 Rm0 [Staging; Prepared] 0 Prepared Mutating);
      [apply keeps_refl|apply Hst|done|simpl; lia|simpl; unfold SLOTS; lia|right; simpl; lia|done|].
    intros Rm' Hs Hn. split; [done|]. simpl.
    assert (Hb : Rm' !! "backups" = None) by (rewrite Hs by done; apply Hst).
    apply entries_ok_original; [by left| |done|].
    - left. rewrite Hs by done. apply Hst.
    - intros k e _. by apply slot_none. }
  unfold commit_transaction. do 2 wp_step.
  apply (wp_errs q plain); [apply errs_validate_before_mutation|].
  eapply (wp_validate_before_mutation out root Hdis j0 news identity request injector s0 O0 Rm0 S0 Hst q).
  - intros Hq. by apply HC, Hmaybe.
  - intros Hm Hr. wp_step.
    assert (Hset : setting j0 limits s0 O0 news) by (by eapply setting_from_checks).
    eapply wp_persist; [done|done|apply Hst|simpl; unfold SLOTS; lia|apply Hst| | |].
    + intros Hq. apply Henc; [done|simpl; unfold SLOTS; lia].
    + intros s' Hj. destruct (shape_start _ Hj) as (Rm & Hsp & Hb).
      assert (Hs3 : store_for root j0 (MkStore root (snapshot j0 2 Mutating) 3) 3)
        by (split_and!; eauto).
      destruct (injector (AfterJournal Mutating)) as [a|] eqn:Ha.
      * apply wp_handle_failure; [done| |by eapply shape_Mid|done|].
        -- intros (_ & Hin & _). by rewrite Hin in Ha.
        -- intros _. unfold injected_fault. auto with offprint.
      * by eapply wp_mutate.
    + intros Hq s' Hm'. split; [|by apply HC, Hmaybe].
      intros e st Hpl _. by apply wp_clean_prepared; [apply loud| |].
  - intros Hbad e Hpl. apply wp_clean_prepared; [|done|done].
    destruct Hbad as [Hq|Hbad]; [by apply loud|]. intros (_ & _ & Hm & Hr). by apply Hbad.
Qed.
End Run.
End CommitSafety.
