(* ===== verification/Samples.v ===== *)
(** * Concrete parameters to run the model on

    The model leaves SHA-256, the hexadecimal printer and the JSON codec of
    journals as parameters.  Here are stand-ins for them under which the whole
    program evaluates: an injective digest, and a self-delimiting codec with
    the two laws the transaction relies on ([codec_round_trip],
    [codec_no_prefix]). *)

From Stdlib Require Import ZArith Lia Ascii String.
From stdpp Require Import base tactics list gmap strings numbers sorting.
From S2P Require Import Prelude.
From S2P Require Import Fs.
From S2P Require Import FsFacts.
From S2P Require Import Records.
From S2P Require Import Durable.
From S2P Require Import Journal.
From S2P Require Import Regions.
From S2P Require Import JournalFacts.
From S2P Require Import CleanupFacts.

#[local] Open Scope string_scope.
#[local] Open Scope Z_scope.
#[local] Open Scope list_scope.

(** ** Self-delimiting codecs *)

Record codec (A : Type) := Codec {
  enc : A -> bytes;
  dec : bytes -> option (A * bytes);
  dec_enc : forall a r, dec (enc a ++ r) = Some (a, r);
  dec_more : forall b a r x, dec b = Some (a, r) -> dec (b ++ x) = Some (a, r ++ x);
}.
Arguments enc {A} _ _.
Arguments dec {A} _ _.
Arguments dec_enc {A} _ _ _.
Arguments dec_more {A} _ _ _ _ _ _.

Program Definition codec_map {A B} (c : codec A) (f : A -> B) (g : B -> A)
    (H : forall b, f (g b) = b) : codec B :=
  Codec B (fun b => enc c (g b))
    (fun b => p ← dec c b; Some (f p.1, p.2)) _ _.
Next Obligation. intros A B c f g H b r; simpl. by rewrite dec_enc; simpl; rewrite H. Qed.
Next Obligation.
  intros A B c f g H b a r x; simpl. intros ([a' r'] & Hd & [= <- <-])%bind_Some.
  by rewrite (dec_more _ _ _ _ _ Hd).
Qed.

Program Definition codec_pair {A B} (c : codec A) (d : codec B) : codec (A * B) :=
  Codec (A * B) (fun p => enc c p.1 ++ enc d p.2)
    (fun b => p ← dec c b; q ← dec d p.2; Some ((p.1, q.1), q.2)) _ _.
Next Obligation.
  intros A B c d [a b] r; simpl. rewrite <- app_assoc, dec_enc; simpl. by rewrite dec_enc.
Qed.
Next Obligation.
  intros A B c d b [a a'] r x; simpl.
  intros ([u v] & Hu & ([y z] & Hy & [= <- <- <-])%bind_Some)%bind_Some; simpl in *.
  rewrite (dec_more _ _ _ _ _ Hu); simpl. by rewrite (dec_more _ _ _ _ _ Hy).
Qed.

Program Definition codec_bool : codec bool :=
  Codec bool (fun b => [if b then "1"%char else "0"%char])
    (fun l => match l with
              | [] => None
              | c :: r => if decide (c = "1"%char) then Some (true, r) else Some (false, r)
              end) _ _.
Next Obligation. by intros []. Qed.
Next Obligation. intros [|c b] a r x; [done|]; simpl. case_decide; naive_solver. Qed.

(** Bytes with a mark before each and a different one at the end. *)
Fixpoint enc_bytes (l : bytes) : bytes :=
  match l with [] => ["."%char] | c :: l' => ","%char :: c :: enc_bytes l' end.
Fixpoint dec_bytes (l : bytes) : option (bytes * bytes) :=
  match l with
  | [] => None
  | m :: l' =>
      if decide (m = "."%char) then Some ([], l')
      else match l' with
           | [] => None
           | c :: l'' => p ← dec_bytes l''; Some (c :: p.1, p.2)
           end
  end.
Program Definition codec_bytes : codec bytes := Codec bytes enc_bytes dec_bytes _ _.
Next Obligation.
  intros a r; induction a as [|c a IH]; simpl; [done|]. by rewrite IH.
Qed.
Next Obligation.
  fix IH 1. intros [|m [|c b]] a r x H; simpl in *; [done|by case_decide; naive_solver|].
  case_decide; [naive_solver|].
  apply bind_Some in H as ([a' r'] & H & [= <- <-]). by rewrite (IH _ _ _ _ H).
Qed.

Definition codec_string : codec string :=
  codec_map codec_bytes string_of_list_ascii list_ascii_of_string
    string_of_list_ascii_of_string.

(** Positive numbers as bits. *)
Fixpoint bits (p : positive) : bytes :=
  match p with xH => [] | xO p => "0"%char :: bits p | xI p => "1"%char :: bits p end.
Fixpoint of_bits (l : bytes) : positive :=
  match l with
  | [] => xH
  | c :: l' => if decide (c = "1"%char) then xI (of_bits l') else xO (of_bits l')
  end.
Lemma of_bits_bits p : of_bits (bits p) = p.
Proof. induction p as [p IH|p IH|]; simpl; [by rewrite IH..|done]. Qed.

Definition codec_positive : codec positive := codec_map codec_bytes of_bits bits of_bits_bits.

Definition z_of_pair (p : bool * positive) : Z :=
  if p.1 then Z.neg p.2 else Z.pos p.2 - 1.
Definition pair_of_z (z : Z) : bool * positive :=
  match z with Z.neg p => (true, p) | _ => (false, Z.to_pos (z + 1)) end.
Lemma z_of_pair_of_z z : z_of_pair (pair_of_z z) = z.
Proof. destruct z as [|p|p]; simpl; unfold z_of_pair; simpl; lia. Qed.
Definition codec_z : codec Z :=
  codec_map (codec_pair codec_bool codec_positive) z_of_pair pair_of_z z_of_pair_of_z.

(** A list as its length and its items. *)
Definition codec_nat : codec nat :=
  codec_map codec_bytes (@length ascii) (fun n => replicate n "i"%char)
    (fun n => length_replicate n "i"%char).

Fixpoint enc_items {A} (c : codec A) (l : list A) : bytes :=
  match l with [] => [] | a :: l' => enc c a ++ enc_items c l' end.
Fixpoint dec_items {A} (c : codec A) (n : nat) (b : bytes) : option (list A * bytes) :=
  match n with
  | O => Some ([], b)
  | S n' => p ← dec c b; q ← dec_items c n' p.2; Some (p.1 :: q.1, q.2)
  end.

Lemma dec_enc_items {A} (c : codec A) l r :
  dec_items c (length l) (enc_items c l ++ r) = Some (l, r).
Proof.
  induction l as [|a l IH]; simpl; [done|].
  rewrite <- app_assoc, dec_enc; simpl. by rewrite IH.
Qed.

Lemma dec_items_more {A} (c : codec A) n b l r x :
  dec_items c n b = Some (l, r) -> dec_items c n (b ++ x) = Some (l, r ++ x).
Proof.
  revert b l; induction n as [|n IH]; intros b l; simpl; [by intros [= <- <-]|].
  intros ([u v] & Hu & ([y z] & Hy & [= <- <-])%bind_Some)%bind_Some; simpl in *.
  rewrite (dec_more _ _ _ _ _ Hu); simpl. by rewrite (IH _ _ Hy).
Qed.

Program Definition codec_list {A} (c : codec A) : codec (list A) :=
  Codec (list A) (fun l => enc codec_nat (length l) ++ enc_items c l)
    (fun b => p ← dec codec_nat b; dec_items c p.1 p.2) _ _.
Next Obligation.
  intros A c l r. cbv beta. rewrite <- app_assoc, dec_enc; simpl. apply dec_enc_items.
Qed.
Next Obligation.
  intros A c b l r x. cbv beta. intros ([n b'] & Hn & Hl)%bind_Some.
  rewrite (dec_more _ _ _ _ _ Hn); simpl in *. by apply dec_items_more.
Qed.

(** ** The journal codec *)

Definition kinds : list OutputKind := [OFile; ODirectory].
Definition formats : list ArtifactFormat := [Html; Pdf; Markdown; Zip; SelfExtractingHtml; Mhtml].
Definition phases : list JournalPhase := [Staging; Prepared; Mutating; RollingBack; Committed].
Definition modes : list CommitMode := [Entries; DirectorySwap].

(** An enumeration as the position in the list of its values. *)
Definition position {A} `{EqDecision A} (l : list A) (x : A) : nat :=
  default 0%nat (fst <$> list_find (eq x) l).
Lemma position_spec {A} `{EqDecision A} (l : list A) (d x : A) :
  x ∈ l -> default d (l !! position l x) = x.
Proof.
  intros Hx. unfold position.
  destruct (list_find_elem_of (eq x) l x) as [[i y] Hf]; [done..|].
  rewrite Hf; simpl. apply list_find_Some in Hf as (Hy & -> & _). by rewrite Hy.
Qed.
Definition codec_among {A} `{EqDecision A} (l : list A) (d : A) (H : forall x, x ∈ l)
    : codec A :=
  codec_map codec_nat (fun n => default d (l !! n)) (position l)
    (fun x => position_spec l d x (H x)).

Ltac all_listed := intros []; apply list_elem_of_In; simpl; tauto.

Lemma kinds_all k : k ∈ kinds. Proof. revert k; all_listed. Qed.
Lemma formats_all f : f ∈ formats. Proof. revert f; all_listed. Qed.
Lemma phases_all p : p ∈ phases. Proof. revert p; all_listed. Qed.
Lemma modes_all m : m ∈ modes. Proof. revert m; all_listed. Qed.

Definition codec_kind := codec_among kinds OFile kinds_all.
Definition codec_format := codec_among formats Html formats_all.
Definition codec_phase := codec_among phases Staging phases_all.
Definition codec_mode := codec_among modes Entries modes_all.

Program Definition codec_option {A} (c : codec A) : codec (option A) :=
  codec_map (codec_list c) head (fun o => match o with Some a => [a] | None => [] end) _.
Next Obligation. by intros A c []. Qed.

Definition codec_verification : codec FormatVerification :=
  codec_map (codec_pair codec_format (codec_pair codec_z codec_bytes))
    (fun '(f, (n, d)) => MkVerification f n (MkDigest d))
    (fun v => (fv_format v, (fv_bytes v, digest_bytes (fv_sha256 v))))
    ltac:(by intros [? ? []]).

Definition codec_entry : codec JournalEntry :=
  codec_map
    (codec_pair codec_string (codec_pair codec_format (codec_pair codec_kind
      (codec_pair codec_bool (codec_pair (codec_option codec_kind)
        (codec_pair codec_verification (codec_pair codec_z (codec_option codec_string))))))))
    (fun '(n, (f, (k, (x, (p, (v, (d, e))))))) => MkEntry n f k x p v d e)
    (fun e => (destination_name e, (je_format e, (output_kind e, (existed e,
       (previous_kind e, (verification e, (directory_files e, entrypoint e))))))))
    ltac:(by intros []).

Definition codec_journal : codec TransactionJournal :=
  codec_map
    (codec_pair codec_z (codec_pair codec_string (codec_pair codec_string
      (codec_pair codec_z (codec_pair codec_phase (codec_pair codec_mode
        (codec_list codec_entry)))))))
    (fun '(v, (t, (o, (q, (p, (m, es)))))) => MkJournal v t o q p m es)
    (fun j => (schema_version j, (transaction_id j, (output_identity j, (sequence j,
       (phase j, (mode j, entries j)))))))
    ltac:(by intros []).

#[export] Instance sample_codec : JournalCodec := {
  journal_encode j := Some (enc codec_journal j);
  journal_decode b :=
    match dec codec_journal b with Some (j, []) => Some j | _ => None end;
}.

Lemma codec_round_trip j b : journal_encode j = Some b -> journal_decode b = Some j.
Proof.
  intros H. assert (b = enc codec_journal j) as -> by (injection H; auto).
  unfold journal_decode, sample_codec.
  rewrite <- (app_nil_r (enc codec_journal j)). by rewrite dec_enc.
Qed.

Lemma codec_no_prefix j b b' :
  journal_encode j = Some b -> b' `prefix_of` b -> b' <> b -> journal_decode b' = None.
Proof.
  intros H [x Hx] Hne. assert (b = enc codec_journal j) as -> by (injection H; auto).
  unfold journal_decode, sample_codec.
  destruct (dec codec_journal b') as [[j' [|c r]]|] eqn:Hd; [|done..].
  exfalso. apply (dec_more _ _ _ _ x) in Hd. rewrite <- Hx in Hd.
  rewrite <- (app_nil_r (enc codec_journal j)), dec_enc in Hd.
  injection Hd as _ Hx'. destruct x; [by rewrite app_nil_r in Hx|done].
Qed.

(** ** The digest *)

#[export] Instance sample_hashing : Hashing := {
  sha256_raw b := b;
  hex_encode b := string_of_list_ascii (List.filter (fun c => negb (bool_decide (c = "/"%char))) b);
}.

#[export] Instance sample_codec_laws : JournalCodecLaws.
Proof. split; [apply codec_round_trip|apply codec_no_prefix]. Qed.

(** ** Checking a concrete state *)

Fixpoint files_below (N : nat) (n : node) : bool :=
  match n with
  | NFile i => (i <? N)%nat
  | NDir m => map_fold (fun _ n' acc => files_below N n' && acc) true m
  | _ => true
  end.

Lemma files_below_lookup N m c n :
  files_below N (NDir m) = true -> m !! c = Some n -> files_below N n = true.
Proof.
  simpl. revert c n.
  apply (map_fold_weak_ind (fun (b : bool) (m : gmap string node) =>
    forall c n, b = true -> m !! c = Some n -> files_below N n = true)).
  - intros c n _ Hc. by rewrite lookup_empty in Hc.
  - intros c' n' m' b _ IH c n Hb Hc. apply andb_true_iff in Hb as [Hb1 Hb2].
    apply lookup_insert_Some in Hc as [[<- <-]|[_ Hc]]; eauto.
Qed.

Lemma files_below_sound N n : files_below N n = true -> node_below N n.
Proof.
  intros H r. revert n H. induction r as [|c r IH]; intros n H i Hi.
  - injection Hi as ->. simpl in H. by apply Nat.ltb_lt.
  - destruct n as [|m| |]; simpl in Hi; try done.
    apply bind_Some in Hi as (n' & Hn' & Hi). eapply IH; [|done].
    by eapply files_below_lookup.
Qed.

Lemma fs_wf_check s : files_below (next_ino s) (tree s) = true -> fs_wf s.
Proof. intros H p i Hi. by eapply files_below_sound. Qed.

(** Every journal-like name of a directory is one of the given slots. *)
Definition journal_keys_within (lo hi : nat) (m : gmap string node) : bool :=
  forallb (fun '(name, _) => negb (is_journal_name name)
             || existsb (fun k => bool_decide (name = slot_name k)) (seq lo (hi - lo)))
    (map_to_list m).

Lemma journal_keys_sound lo hi m name n :
  journal_keys_within lo hi m = true -> m !! name = Some n -> is_journal_name name = true ->
  exists k, name = slot_name k /\ (lo <= k < hi)%nat.
Proof.
  unfold journal_keys_within. rewrite forallb_forall. intros H Hn Hj.
  specialize (H (name, n)). simpl in H. rewrite Hj in H. simpl in H.
  assert (Hin : In (name, n) (map_to_list m)).
  { apply list_elem_of_In. by apply elem_of_map_to_list. }
  apply H, existsb_exists in Hin as (k & Hk & Heq). apply bool_decide_eq_true in Heq.
  apply in_seq in Hk. exists k. split; [done|lia].
Qed.

Definition no_other_check (m : gmap string node) : bool :=
  forallb (fun '(_, n) => match n with NOther => false | _ => true end) (map_to_list m).

Lemma no_other_sound m : no_other_check m = true -> no_other m.
Proof.
  unfold no_other_check. rewrite forallb_forall. intros H name Hn.
  specialize (H (name, NOther)). simpl in H. discriminate H.
  apply list_elem_of_In. by apply elem_of_map_to_list.
Qed.

(** Every journal file of a directory decodes. *)
Definition journals_decode `{JournalCodec} (s : fs) (m : gmap string node) : bool :=
  forallb (fun '(name, n) => negb (is_journal_name name)
             || match n with
                | NFile i => bool_decide (is_Some (journal_decode (file_bytes s i)))
                | _ => true
                end) (map_to_list m).

Lemma journals_decode_sound `{JournalCodec} s m name i :
  journals_decode s m = true -> is_journal_name name = true -> m !! name = Some (NFile i) ->
  is_Some (journal_decode (file_bytes s i)).
Proof.
  unfold journals_decode. rewrite forallb_forall. intros Hd Hj Hn.
  specialize (Hd (name, NFile i)). simpl in Hd. rewrite Hj in Hd. simpl in Hd.
  apply (bool_decide_eq_true_1 _), Hd, list_elem_of_In. by apply elem_of_map_to_list.
Qed.
