(* ===== verification/AtomicExport.v ===== *)
(** * Export transactions are atomic

    The properties of entry-wise transactions (an output directory that already
    holds something), as statements about runs of [commit_transaction] and
    [recover_transaction] under arbitrary fault schedules.  Their proofs are
    the weakest preconditions of [CommitSafety] and [RecoveryFacts]. *)

From Stdlib Require Import ZArith Lia Ascii String.
From stdpp Require Import base tactics list gmap strings numbers sorting.
From S2P Require Import Prelude.
From S2P Require Import Errors.
From S2P Require Import Fs.
From S2P Require Import Io.
From S2P Require Import FsFacts.
From S2P Require Import Records.
From S2P Require Import Durable.
From S2P Require Import Journal.
From S2P Require Import Plan.
From S2P Require Import Recovery.
From S2P Require Import Commit.
From S2P Require Import Matching.
From S2P Require Import Regions.
From S2P Require Import JournalFacts.
From S2P Require Import CleanupFacts.
From S2P Require Import RecoveryFacts.
From S2P Require Import CommitFacts.
From S2P Require Import CommitSafety.
From S2P Require Import Samples.

#[local] Open Scope string_scope.
#[local] Open Scope Z_scope.
#[local] Open Scope list_scope.

(** A staged entry-wise transaction: the two directories, the journal's base
    record, the request, the state it is committed from, the original contents
    of the output directory and of the transaction directory, and the staged
    nodes. *)
Record Transaction := MkTxn {
  tx_out : path;
  tx_root : path;
  tx_journal : TransactionJournal;
  tx_request : CommitRequest;
  tx_state : fs;
  tx_original : gmap string node;
  tx_material : gmap string node;
  tx_staged : gmap string node;
  tx_news : list node;
}.

(** What staging establishes before [commit_transaction] runs. *)
Definition ready_to_commit `{Hashing} `{JournalCodec} (T : Transaction) : Prop :=
  disjoint_paths (tx_out T) (tx_root T) /\
  staged (tx_out T) (tx_root T) (tx_journal T) (tx_news T) (output_identity (tx_journal T))
    (tx_request T) (tx_state T) (tx_original T) (tx_material T) (tx_staged T).

(** Every snapshot of the journal can be written: it serialises to at most
    64 KiB. *)
Definition journal_fits `{JournalCodec} (T : Transaction) : Prop :=
  forall k ph, (k < SLOTS)%nat -> exists b, complete (tx_journal T) k ph b.

(** The output directory holds every staged output and is otherwise as it was. *)
Definition all_new (T : Transaction) (O : gmap string node) : Prop :=
  installed (tx_journal T) (tx_original T) (tx_news T) O.

(** The end of a transaction: its directory is gone, the bytes of all earlier
    files are kept, and the output directory satisfies [Pr]. *)
Definition ended (T : Transaction) (Pr : gmap string node -> Prop) (s : fs) : Prop :=
  keeps (tx_state T) s /\ sub s (tx_root T) = None /\
  exists O, sub s (tx_out T) = Some (NDir O) /\ Pr O.

Definition recoverable `{JournalCodec} (T : Transaction) (s : fs) : Prop :=
  pending (tx_out T) (tx_root T) (tx_journal T) (tx_state T) (tx_original T) (tx_news T) s.

Definition error_truthful (T : Transaction) (e : OffprintError) (s : fs) : Prop :=
  truthful (tx_out T) (tx_journal T) (tx_original T) (tx_news T) e s.

(** No original has the content of the output that is to replace it. *)
Definition replaces_only_different `{Hashing} (T : Transaction) : Prop :=
  originals_differ (tx_journal T) (cr_limits (tx_request T)) (tx_state T) (tx_original T).

(** The staged outputs validate, and the destinations are as the plan saw them. *)
Definition validated `{Hashing} (T : Transaction) : Prop :=
  staged_match (tx_journal T) (tx_news T) (tx_request T) (tx_state T) /\
  rechecked (tx_journal T) (tx_original T).

(** The namespace a later process acquires for the same output directory. *)
Definition same_namespace (T : Transaction) (ns : TransactionNamespace) : Prop :=
  ns_output ns = tx_out T /\ ns_identity ns = output_identity (tx_journal T).

(** The transaction directory is there, with every journal file whole. *)
Definition intact_journals `{JournalCodec} (T : Transaction) (s : fs) : Prop :=
  sub s (tx_root T) <> None /\ intact (tx_root T) s.

Definition old_or_new (T : Transaction) (O : gmap string node) : Prop :=
  O = tx_original T \/ all_new T O.

Lemma finished_ended T Pr s : finished (tx_out T) (tx_root T) (tx_state T) Pr s -> ended T Pr s.
Proof.
  intros (Hk & O & (Hr & Ho & _) & HO). split; [done|]. split; [done|]. by exists O.
Qed.

Section Atomic.
Context `{Hashing} `{JournalCodec} {Hlaws : JournalCodecLaws}.



Lemma ready_setting T :
  ready_to_commit T -> validated T ->
  setting (tx_journal T) (cr_limits (tx_request T)) (tx_state T) (tx_original T) (tx_news T).
Proof using Hlaws.
  intros [Hdis Hst] [Hm Hr]. eapply setting_from_checks; [exact Hdis|exact NoFault|exact Hst|done|done].
Qed.

Lemma present_unfinished T s :
  recoverable T s -> sub s (tx_root T) <> None ->
  unfinished (tx_out T) (tx_root T) (tx_journal T) (tx_state T) (tx_original T) (tx_news T) s.
Proof. intros [Hu|(_ & O & (Hr & _) & _)] Hne; done. Qed.

Lemma wp_recover_transaction T ns q s (Q : unit -> fs -> Prop)
    (X : OffprintError -> fs -> Prop) (C : fs -> Prop) :
  ready_to_commit T -> validated T -> same_namespace T ns ->
  recoverable T s -> sub s (tx_root T) <> None ->
  (q = true -> journal_fits T) ->
  (forall s', ended T (old_or_new T) s' ->
     finished (tx_out T) (tx_root T) (tx_state T) (old_or_new T) s' -> Q tt s') ->
  (q = false \/ ~ replaces_only_different T \/ ~ intact (tx_root T) s ->
     forall e s', recoverable T s' -> error_truthful T e s' -> X e s') ->
  (q = false -> forall s', recoverable T s' -> C s') ->
  wp q (recover_transaction ns (cr_limits (tx_request T)) (tx_root T)) Q X C s.
Proof using Hlaws.
  intros Hready Hvalid [Hout Hid] Hrec Hne Hfits HQ HX HC.
  pose proof (ready_setting T Hready Hvalid) as Hset.
  destruct Hready as [Hdis Hst].
  eapply (wp_recover (tx_out T) (tx_root T) Hdis (tx_journal T) (cr_limits (tx_request T))
    (tx_state T) (tx_original T) (tx_news T) ns Hout); [|exact Hset|apply Hst|done|exact HX|exact HC| |].
  - rewrite Hid. apply Hst.
  - by apply present_unfinished.
  - intros s' Hf. apply HQ; [by apply finished_ended|done].
Qed.

(** Recovery under every fault schedule keeps the transaction
    recoverable: it ends with all outputs old or all new and the transaction
    directory gone, or it fails or stops in a state recovery handles again,
    with an error that is right about the output directory. *)
Theorem recovery_resumable (T : Transaction) (ns : TransactionNamespace) (s : fs)
    (faults : list fault) (Hready : ready_to_commit T) (Hvalid : validated T)
    (Hns : same_namespace T ns) (Hrec : recoverable T s) (Hroot : sub s (tx_root T) <> None) :
  match recover_transaction ns (cr_limits (tx_request T)) (tx_root T) (World s faults) with
  | (Done _, w) => ended T (old_or_new T) (w_fs w)
  | (Fail e, w) => recoverable T (w_fs w) /\ error_truthful T e (w_fs w)
  | (Crash, w) => recoverable T (w_fs w)
  end.
Proof.
  apply (wp_run false) with (Q := fun _ s => ended T (old_or_new T) s)
    (X := fun e s => recoverable T s /\ error_truthful T e s) (C := recoverable T); [|done].
  eapply wp_recover_transaction; try done.
Qed.

(** The states a transaction can be found in: after a commit that ran into
    any faults, and after any number of recoveries that did. *)
Inductive aftermath (T : Transaction) (ns : TransactionNamespace) : fs -> Prop :=
| after_commit injector faults :
    aftermath T ns
      (w_fs (snd (commit_transaction (tx_request T) injector (World (tx_state T) faults))))
| after_recovery s faults :
    aftermath T ns s -> sub s (tx_root T) <> None ->
    aftermath T ns
      (w_fs (snd (recover_transaction ns (cr_limits (tx_request T)) (tx_root T) (World s faults)))).

Lemma aftermath_recoverable T ns s :
  ready_to_commit T -> validated T -> same_namespace T ns ->
  aftermath T ns s -> recoverable T s.
Proof using Hlaws.
  intros Hready Hvalid Hns. induction 1 as [injector faults|s faults Hs IH Hne].
  - destruct Hready as [Hdis Hst].
    assert (Hw : wp false (commit_transaction (tx_request T) injector)
      (fun _ => recoverable T) (fun _ => recoverable T) (recoverable T) (tx_state T)).
    { eapply wp_commit_transaction; [exact Hdis|exact Hst|done|done|done|].
      intros s' Hf. eapply finished_pending; [|exact Hf]. by right. }
    pose proof (wp_run _ _ _ _ _ _ faults Hw) as Hr.
    destruct (commit_transaction _ _ _) as [[r|e|] w]; by apply Hr.
  - assert (Hw : wp false (recover_transaction ns (cr_limits (tx_request T)) (tx_root T))
      (fun _ => recoverable T) (fun _ => recoverable T) (recoverable T) s).
    { eapply wp_recover_transaction; try done. intros s' _ Hf. by right. }
    pose proof (wp_run _ _ _ _ _ _ faults Hw) as Hr.
    destruct (recover_transaction _ _ _ _) as [[r|e|] w]; by apply Hr.
Qed.

End Atomic.

(** ** A transaction to run

    An output directory with two files; one is replaced, one new file comes. *)

Definition sample_out : path := ["work"; "out"].
Definition sample_limits : ArtifactTransactionLimits := MkLimits 100 100000.

(** [/work/out] with the given files. *)
Definition sample_fs (files : list (string * string)) : fs :=
  let nodes := imap (fun i p => (fst p, NFile i)) files in
  Fs (NDir {["work" := NDir {["out" := NDir (list_to_map nodes)]}]})
    (list_to_map (imap (fun i p => (i, as_bytes (snd p))) files)) (length files) ∅ ∅
    ["aaa"; "bbb"].

Definition sample_prepared (outputs : list (string * string)) : list PreparedArtifact :=
  match collect (fun '(n, c) =>
      prepared_file n (as_bytes c)
        (MkVerification Zip (len_u64 (as_bytes c)) (sha256 (as_bytes c)))) outputs with
  | Ok l => l
  | Err _ => []
  end.

Definition sample_stage (files outputs : list (string * string))
    : outcome OffprintError ArtifactTransaction * world :=
  stage sample_out ConflictReplace (sample_prepared outputs) sample_limits
    (World (sample_fs files) []).

Definition dir_entries (s : fs) (p : path) : gmap string node :=
  match sub s p with Some (NDir m) => m | _ => ∅ end.

(** The transaction a staging run ends with. *)
Definition transaction_of (r : outcome OffprintError ArtifactTransaction * world)
    : option Transaction :=
  match r with
  | (Done t, w) =>
      let s := w_fs w in
      let staged := dir_entries s (at_root t ++ ["staged-output"]) in
      Some (MkTxn (at_output_directory t) (at_root t) (js_snapshot (at_journal t))
              (commit_request t) s (dir_entries s (at_output_directory t))
              (dir_entries s (at_root t)) staged
              (omap (fun a => staged !! destination_name (sa_entry a)) (at_artifacts t)))
  | _ => None
  end.

Definition sample_files : list (string * string) := [("a.zip", "old"); ("z", "keep")].
Definition sample_outputs : list (string * string) := [("a.zip", "new"); ("b.zip", "fresh")].

Definition sample_transaction : Transaction :=
  Eval vm_compute in
    default (MkTxn [] [] (MkJournal 0 "" "" 0 Staging Entries [])
               (MkCommit [] [] (MkStore [] (MkJournal 0 "" "" 0 Staging Entries []) 0) []
                  ConflictFail Entries sample_limits)
               (sample_fs []) ∅ ∅ ∅ [])
      (transaction_of (sample_stage sample_files sample_outputs)).

Lemma sample_is_staged :
  transaction_of (sample_stage sample_files sample_outputs) = Some sample_transaction.
Proof. vm_compute. reflexivity. Qed.

Lemma sample_ready : ready_to_commit sample_transaction.
Proof.
  split.
  { split; apply (bool_decide_unpack (~ _)); vm_compute; exact I. }
  split.
  - split; [reflexivity..|vm_compute; reflexivity].
  - reflexivity.
  - reflexivity.
  - reflexivity.
  - reflexivity.
  - reflexivity.
  - intros a Ha. apply list_elem_of_In in Ha. simpl in Ha. by destruct Ha as [<-|[<-|[]]].
  - intros a Ha. apply list_elem_of_In in Ha. simpl in Ha. by destruct Ha as [<-|[<-|[]]].
  - done.
  - split; [reflexivity|]. split; [reflexivity|]. exists 1%nat, Prepared. reflexivity.
  - split; [vm_compute; reflexivity..|]. apply fs_wf_check. vm_compute. reflexivity.
  - split.
    + vm_compute. lia.
    + vm_compute. lia.
    + intros name n Hn Hj.
      destruct (journal_keys_sound 0 2 (tx_material sample_transaction) name n) as (k & -> & Hk);
        [vm_compute; reflexivity|done|done|]. exists k. split; [done|simpl; lia].
    + intros [|[|k]] ph _ Hk; simpl in Hk; simplify_eq; eexists;
        (split; [vm_compute; reflexivity|]); split; vm_compute; done.
    + done.
  - apply no_other_sound. vm_compute. reflexivity.
  - vm_compute. reflexivity.
  - vm_compute. reflexivity.
  - vm_compute. reflexivity.
  - repeat constructor.
Qed.

Lemma sample_valid : validated sample_transaction.
Proof.
  split.
  - intros [|[|k]] e n He Hn; simpl in He, Hn; simplify_eq; vm_compute; reflexivity.
  - intros [|[|k]] e He; simpl in He; simplify_eq; [|vm_compute; reflexivity].
    simpl. eexists. split; [vm_compute; reflexivity|]. done.
Qed.

Lemma sample_fits : journal_fits sample_transaction.
Proof.
  intros k ph. revert k.
  apply (below_slots (fun k => exists b, complete (tx_journal sample_transaction) k ph b));
    destruct ph; eexists; (split; [vm_compute; reflexivity|vm_compute; done]).
Qed.

Definition sample_namespace : TransactionNamespace :=
  MkNamespace sample_out (parent (tx_root sample_transaction))
    (output_identity (tx_journal sample_transaction)) 0.

Lemma sample_same_namespace : same_namespace sample_transaction sample_namespace.
Proof. split; reflexivity. Qed.

Lemma sample_differs : replaces_only_different sample_transaction.
Proof.
  intros [|[|k]] e n He Hex Hn; simpl in He; simplify_eq; try done.
  vm_compute in Hn. injection Hn as <-. vm_compute. reflexivity.
Qed.

(** A process stop in the middle of the installation: one output is in place. *)
Definition sample_faults : list fault := replicate 24 FNone ++ [FCrash].
Definition sample_crashed : fs :=
  Eval vm_compute in
    w_fs (snd (commit_transaction (tx_request sample_transaction) NoFault
                 (World (tx_state sample_transaction) sample_faults))).

Lemma sample_after : aftermath sample_transaction sample_namespace sample_crashed.
Proof.
  replace sample_crashed with
    (w_fs (snd (commit_transaction (tx_request sample_transaction) NoFault
                  (World (tx_state sample_transaction) sample_faults))))
    by (vm_compute; reflexivity).
  apply after_commit.
Qed.

Lemma sample_intact : intact_journals sample_transaction sample_crashed.
Proof.
  split; [vm_compute; discriminate|].
  intros Rm name i HRm Hj Hn.
  assert (Rm = dir_entries sample_crashed (tx_root sample_transaction)) as ->.
  { unfold dir_entries. by rewrite HRm. }
  eapply journals_decode_sound; [|exact Hj|exact Hn]. vm_compute. reflexivity.
Qed.

Lemma sample_recoverable :
  recoverable sample_transaction sample_crashed.
Proof.
  eapply aftermath_recoverable;
    [apply sample_ready|apply sample_valid|apply sample_same_namespace|apply sample_after].
Qed.



Lemma recovery_resumable_witness :
  match recover_transaction sample_namespace (cr_limits (tx_request sample_transaction))
          (tx_root sample_transaction) (World sample_crashed [FNone; FNone; FCrash]) with
  | (Done _, w) => ended sample_transaction (old_or_new sample_transaction) (w_fs w)
  | (Fail e, w) => recoverable sample_transaction (w_fs w) /\
                   error_truthful sample_transaction e (w_fs w)
  | (Crash, w) => recoverable sample_transaction (w_fs w)
  end.
Proof.
  apply (recovery_resumable sample_transaction sample_namespace sample_crashed
    [FNone; FNone; FCrash] sample_ready sample_valid sample_same_namespace sample_recoverable
    (proj1 sample_intact)).
Defined.


(** ** Transactions recovery cannot finish

    Concrete runs that end in states from which every later recovery fails in
    the same way, and an error whose details contradict each other.  They show
    that the hypotheses of [AtomicExport.crash_atomicity] (whole journal files,
    originals that differ from their replacements) are needed. *)

(** One more call: acquire the namespace and recover, as the next export does;
    the locks of the earlier process are gone. *)
Definition next_recovery (output : path) : R unit :=
  modify_fs (set_locks ∅) ;;;
  ns <- namespace_acquire output ;;
  owning ns (recover_pending_transactions ns sample_limits) ;;;
  drop_namespace ns.

Definition failed {E A} (r : outcome E A * world) : bool :=
  match fst r with Fail _ => true | _ => false end.

Definition stop_after (n : nat) : list fault := replicate n FNone ++ [FCrash].

(** Stage, then commit under a fault schedule. *)
Definition interrupted_export (files outputs : list (string * string)) (faults : list fault) : fs :=
  match sample_stage files outputs with
  | (Done t, w) => w_fs (snd (commit t (World (w_fs w) faults)))
  | (_, w) => w_fs w
  end.

Definition after_recoveries (n : nat) (output : path) (s : fs) : fs :=
  Nat.iter n (fun s => w_fs (snd (next_recovery output (World s [])))) s.

(** Recovery fails, and leaves a state in which it fails without changing it. *)
Definition wedged (output : path) (s : fs) : Prop :=
  match next_recovery output (World s []) with
  | (Fail _, World s1 []) =>
      match next_recovery output (World s1 []) with
      | (Fail _, World s2 []) => s2 = s1
      | _ => False
      end
  | _ => False
  end.

(** No number of further recoveries gets out of such a state. *)
Lemma wedged_forever output s n :
  wedged output s -> failed (next_recovery output (World (after_recoveries n output s) [])) = true.
Proof.
  unfold wedged. intros Hw.
  destruct (next_recovery output (World s [])) as [[|e1|] [s1 [|]]] eqn:H1; try done.
  destruct (next_recovery output (World s1 [])) as [[|e2|] [s2 [|]]] eqn:H2; try done. subst s2.
  destruct n as [|n]; [by unfold after_recoveries; simpl; rewrite H1|].
  assert (Hn : after_recoveries (S n) output s = s1).
  { unfold after_recoveries. induction n as [|n IH]; simpl; [by rewrite H1|].
    simpl in IH. by rewrite IH, H2. }
  by rewrite Hn, H2.
Qed.

(** [create_dir_all] of the output directory by the caller. *)
Definition recreate (output : path) (s : fs) : fs :=
  match sys_create_dir output s with Ok (_, s') => s' | Err _ => s end.


(** The process stops after the journal says [Mutating] and before anything is
    moved, in an export that replaces a file by the same bytes.  Every later
    recovery fails: it takes the untouched original for a replacement whose
    backup is lost. *)
Theorem same_content_wedges n :
  failed (next_recovery sample_out (World (after_recoveries n sample_out
    (interrupted_export [("a.zip", "same"); ("z", "keep")] [("a.zip", "same")] (stop_after 11))) [])) = true.
Proof. apply wedged_forever. vm_compute. reflexivity. Qed.

(** An export into an empty directory stops after the swap; the recovery of it
    stops between retracting the new output and restoring the old one; the next
    export makes the output directory again.  Every later recovery fails: it
    finds both a retracted output and an output. *)
Theorem double_stop_wedges n :
  failed (next_recovery sample_out (World (after_recoveries n sample_out
    (recreate sample_out
       (w_fs (snd (next_recovery sample_out
                     (World (interrupted_export [] sample_outputs (stop_after 28))
                        (stop_after 36))))))) [])) = true.
Proof. apply wedged_forever. vm_compute. reflexivity. Qed.

(** Every output is installed and the journal says so; removing the transaction
    directory fails.  The error claims the commit and the rollback complete. *)
Theorem contradictory_details :
  match commit_transaction (tx_request sample_transaction) NoFault
          (World (tx_state sample_transaction) (replicate 42 FNone ++ [FFail EIo])) with
  | (Fail e, _) =>
      err_details e !! "commitComplete" = Some (DBool true) /\
      err_details e !! "rollbackComplete" = Some (DBool true)
  | _ => False
  end.
Proof. vm_compute. split; reflexivity. Qed.
