(* ===== verification/Budget.v ===== *)
(** * The resource budget of a capture

    Models [offprint-rs/capture/src/budget.rs]: the counters that bound how many
    frames, nodes, resources and bytes one capture may use.  The counters are
    machine integers with checked additions; the specification is a ledger of
    the granted charges summed in unbounded arithmetic, and the refinement
    theorem says that the two answer alike on every sequence of charges. *)

From Stdlib Require Import ZArith Lia Ascii String.
From stdpp Require Import base tactics list gmap strings numbers.
From S2P Require Import Prelude.
From S2P Require Import Errors.

#[local] Open Scope string_scope.
#[local] Open Scope Z_scope.
#[local] Open Scope list_scope.

(** [CaptureLimits]; a [Milliseconds] is its number. *)
Record CaptureLimits := MkLimits {
  lim_duration : Z;
  lim_redirects : Z;
  lim_frames : Z;
  lim_nodes : Z;
  lim_resources : Z;
  lim_resource_bytes : Z;
  lim_total_resource_bytes : Z;
  lim_collector_chunk_bytes : Z;
  lim_concurrent_resources : Z;
  lim_artifact_bytes : Z;
  lim_resource_recursion_depth : Z;
  lim_frame_depth : Z;
}.

Inductive BudgetCounter := Frames | Nodes | Resources | ResourceBytes | TotalResourceBytes.

Record CaptureBudget := MkBudget {
  limits : CaptureLimits;
  frames : Z;
  nodes : Z;
  resources : Z;
  observation_bytes : Z;
  total_resource_bytes : Z;
}.

Definition budget_new (l : CaptureLimits) : CaptureBudget := MkBudget l 0 0 0 0 0.

(** The counter is only part of the message. *)
Definition budget_limit_error (counter : BudgetCounter) (attempted limit : Z) : OffprintError :=
  with_detail "limit" (DNum limit)
    (with_detail "attempted" (DNum attempted) (new_error "offprint.resource.limit" Resource)).

Definition observation_payload_limit_error (attempted limit : Z) : OffprintError :=
  with_detail "limit" (DNum limit)
    (with_detail "attempted" (DNum attempted)
       (new_error "offprint.collector.payload_limit" Collection)).

Definition enforce (counter : BudgetCounter) (attempted limit : Z) : Res unit :=
  if attempted <=? limit then Ok tt else Err (budget_limit_error counter attempted limit).

(** An operation on [&mut self]: its answer and the budget it leaves. *)
Definition charge (b : CaptureBudget) (next : Res CaptureBudget) : Res unit * CaptureBudget :=
  match next with Ok b' => (Ok tt, b') | Err e => (Err e, b) end.

Definition add_frames (count : Z) (b : CaptureBudget) : Res unit * CaptureBudget :=
  charge b (
    next <-? ok_or (checked_add u32_max (frames b) count)
               (budget_limit_error Frames (frames b + count) (lim_frames (limits b))) ;;
    do? enforce Frames next (lim_frames (limits b)) ;;
    Ok (MkBudget (limits b) next (nodes b) (resources b) (observation_bytes b)
          (total_resource_bytes b))).

Definition add_frame (b : CaptureBudget) : Res unit * CaptureBudget := add_frames 1 b.

Definition add_nodes (count : Z) (b : CaptureBudget) : Res unit * CaptureBudget :=
  charge b (
    next <-? ok_or (checked_add u64_max (nodes b) count)
               (budget_limit_error Nodes u64_max (lim_nodes (limits b))) ;;
    do? enforce Nodes next (lim_nodes (limits b)) ;;
    Ok (MkBudget (limits b) (frames b) next (resources b) (observation_bytes b)
          (total_resource_bytes b))).

Definition add_resource (b : CaptureBudget) : Res unit * CaptureBudget :=
  charge b (
    next <-? ok_or (checked_add u32_max (resources b) 1)
               (budget_limit_error Resources (resources b + 1) (lim_resources (limits b))) ;;
    do? enforce Resources next (lim_resources (limits b)) ;;
    Ok (MkBudget (limits b) (frames b) (nodes b) next (observation_bytes b)
          (total_resource_bytes b))).

Definition reserve_resource_bytes (bytes : Z) (b : CaptureBudget) : Res unit * CaptureBudget :=
  charge b (
    do? enforce ResourceBytes bytes (lim_resource_bytes (limits b)) ;;
    next <-? ok_or (checked_add u64_max (total_resource_bytes b) bytes)
               (budget_limit_error TotalResourceBytes u64_max
                  (lim_total_resource_bytes (limits b))) ;;
    do? enforce TotalResourceBytes next (lim_total_resource_bytes (limits b)) ;;
    Ok (MkBudget (limits b) (frames b) (nodes b) (resources b) (observation_bytes b) next)).

Definition reserve_observation_bytes (bytes : Z) (b : CaptureBudget) : Res unit * CaptureBudget :=
  charge b (
    next <-? ok_or (checked_add u64_max (observation_bytes b) bytes)
               (observation_payload_limit_error u64_max (lim_artifact_bytes (limits b))) ;;
    if lim_artifact_bytes (limits b) <? next
    then Err (observation_payload_limit_error next (lim_artifact_bytes (limits b)))
    else Ok (MkBudget (limits b) (frames b) (nodes b) (resources b) next
               (total_resource_bytes b))).

Definition remaining_observation_bytes (b : CaptureBudget) : Z :=
  saturating_sub (lim_artifact_bytes (limits b)) (observation_bytes b).

(** ** The specification: a ledger of granted charges *)

Inductive Charge :=
| ChargeFrames (n : Z)
| ChargeNodes (n : Z)
| ChargeResource
| ChargeResourceBytes (n : Z)
| ChargeObservation (n : Z).

(** What a charge adds to each of the five totals. *)
Definition frames_of (c : Charge) : Z := match c with ChargeFrames n => n | _ => 0 end.
Definition nodes_of (c : Charge) : Z := match c with ChargeNodes n => n | _ => 0 end.
Definition resources_of (c : Charge) : Z := match c with ChargeResource => 1 | _ => 0 end.
Definition bytes_of (c : Charge) : Z := match c with ChargeResourceBytes n => n | _ => 0 end.
Definition observed_of (c : Charge) : Z := match c with ChargeObservation n => n | _ => 0 end.

Definition total (amount : Charge -> Z) (granted : list Charge) : Z :=
  foldr (fun c t => amount c + t) 0 granted.

(** Grant a charge when every total stays within its limit. *)
Definition affordable (l : CaptureLimits) (granted : list Charge) (c : Charge) : bool :=
  (total frames_of (c :: granted) <=? lim_frames l) &&
  (total nodes_of (c :: granted) <=? lim_nodes l) &&
  (total resources_of (c :: granted) <=? lim_resources l) &&
  (bytes_of c <=? lim_resource_bytes l) &&
  (total bytes_of (c :: granted) <=? lim_total_resource_bytes l) &&
  (total observed_of (c :: granted) <=? lim_artifact_bytes l).

Fixpoint ledger (l : CaptureLimits) (granted : list Charge) (cs : list Charge)
  : list bool * list Charge :=
  match cs with
  | [] => ([], granted)
  | c :: cs' =>
      let ok := affordable l granted c in
      let (answers, final) := ledger l (if ok then c :: granted else granted) cs' in
      (ok :: answers, final)
  end.

(** ** The implementation on a sequence of charges *)

Definition apply_charge (c : Charge) : CaptureBudget -> Res unit * CaptureBudget :=
  match c with
  | ChargeFrames n => add_frames n
  | ChargeNodes n => add_nodes n
  | ChargeResource => add_resource
  | ChargeResourceBytes n => reserve_resource_bytes n
  | ChargeObservation n => reserve_observation_bytes n
  end.

Fixpoint apply_charges (cs : list Charge) (b : CaptureBudget) : list (Res unit) * CaptureBudget :=
  match cs with
  | [] => ([], b)
  | c :: cs' =>
      let (r, b1) := apply_charge c b in
      let (rs, b2) := apply_charges cs' b1 in
      (r :: rs, b2)
  end.

(** The values the argument types and the limits admit. *)
Definition charge_in_range (c : Charge) : Prop :=
  match c with
  | ChargeFrames n => in_u32 n
  | ChargeResource => True
  | ChargeNodes n | ChargeResourceBytes n | ChargeObservation n => in_u64 n
  end.

Record limits_in_range (l : CaptureLimits) : Prop := {
  range_frames : in_u32 (lim_frames l);
  range_nodes : in_u64 (lim_nodes l);
  range_resources : in_u32 (lim_resources l);
  range_resource_bytes : in_u64 (lim_resource_bytes l);
  range_total_resource_bytes : in_u64 (lim_total_resource_bytes l);
  range_artifact_bytes : in_u64 (lim_artifact_bytes l);
}.

(** The budget a ledger stands for, and the ledgers within their limits. *)
Definition budget_of (l : CaptureLimits) (granted : list Charge) : CaptureBudget :=
  MkBudget l (total frames_of granted) (total nodes_of granted) (total resources_of granted)
    (total observed_of granted) (total bytes_of granted).

Definition within (l : CaptureLimits) (granted : list Charge) : Prop :=
  0 <= total frames_of granted <= lim_frames l /\
  0 <= total nodes_of granted <= lim_nodes l /\
  0 <= total resources_of granted <= lim_resources l /\
  0 <= total bytes_of granted <= lim_total_resource_bytes l /\
  0 <= total observed_of granted <= lim_artifact_bytes l.

(** What a refused charge reports: the total it would have reached, capped at
    the largest counter value, and the limit it exceeds. *)
Definition refusal (l : CaptureLimits) (granted : list Charge) (c : Charge) : OffprintError :=
  match c with
  | ChargeFrames n => budget_limit_error Frames (total frames_of granted + n) (lim_frames l)
  | ChargeNodes n =>
      budget_limit_error Nodes (saturating_add u64_max (total nodes_of granted) n) (lim_nodes l)
  | ChargeResource =>
      budget_limit_error Resources (total resources_of granted + 1) (lim_resources l)
  | ChargeResourceBytes n =>
      if lim_resource_bytes l <? n then budget_limit_error ResourceBytes n (lim_resource_bytes l)
      else budget_limit_error TotalResourceBytes
             (saturating_add u64_max (total bytes_of granted) n) (lim_total_resource_bytes l)
  | ChargeObservation n =>
      observation_payload_limit_error (saturating_add u64_max (total observed_of granted) n)
        (lim_artifact_bytes l)
  end.

(** Case analysis of the comparisons an operation and its specification make. *)
Ltac compare_cases :=
  repeat match goal with
  | |- context [(?a <=? ?b)%Z] => destruct (Z.leb_spec a b); simpl; try lia
  | |- context [(?a <? ?b)%Z] => destruct (Z.ltb_spec a b); simpl; try lia
  end.

(** One charge: the budget follows the ledger, and a refusal changes nothing. *)
Lemma apply_charge_spec l granted c :
  limits_in_range l -> charge_in_range c -> within l granted ->
  apply_charge c (budget_of l granted) =
    if affordable l granted c then (Ok tt, budget_of l (c :: granted))
    else (Err (refusal l granted c), budget_of l granted).
Proof.
  intros [] Hc (Hf & Hn & Hr & Hb & Ho).
  unfold affordable, refusal, apply_charge, add_frames, add_nodes, add_resource,
    reserve_resource_bytes, reserve_observation_bytes, checked_add, enforce, saturating_add,
    budget_of, in_u32, in_u64 in *; simpl.
  destruct c as [n|n| |n|n]; simpl in *; compare_cases;
    unfold budget_limit_error, observation_payload_limit_error; ranges;
    repeat (lia || f_equal).
Qed.

Lemma within_cons l granted c :
  charge_in_range c -> within l granted -> affordable l granted c = true -> within l (c :: granted).
Proof.
  unfold within, affordable, in_u32, in_u64; intros Hc Hw Ha; bool_facts; simpl in *.
  destruct c; simpl in *; ranges; lia.
Qed.

(** Every sequence of charges: same answers, same totals, always within limits. *)
Lemma apply_charges_spec l cs granted :
  limits_in_range l -> Forall charge_in_range cs -> within l granted ->
  let (rs, b) := apply_charges cs (budget_of l granted) in
  let (answers, final) := ledger l granted cs in
  map is_ok rs = answers /\ b = budget_of l final /\ within l final.
Proof.
  intros Hl Hcs; revert granted; induction Hcs as [|c cs Hc Hcs IH]; intros granted Hw; [done|].
  simpl. rewrite apply_charge_spec by done.
  destruct (affordable l granted c) eqn:Ha.
  - specialize (IH (c :: granted) (within_cons _ _ _ Hc Hw Ha)).
    destruct (apply_charges cs _), (ledger l _ cs); simpl. naive_solver.
  - specialize (IH granted Hw).
    destruct (apply_charges cs _), (ledger l _ cs); simpl. naive_solver.
Qed.

(** C36: The capture budget refines the ledger: on every sequence of charges in
    the range of their types, an operation succeeds exactly when every total
    (in unbounded arithmetic) stays within its limit, the counters are the
    totals of the granted charges, a refused charge leaves no trace, and the
    totals never exceed their limits; no checked addition wraps. *)
Theorem budget_refines_ledger l cs :
  limits_in_range l -> Forall charge_in_range cs ->
  let (rs, b) := apply_charges cs (budget_new l) in
  let (answers, granted) := ledger l [] cs in
  map is_ok rs = answers /\ b = budget_of l granted /\ within l granted.
Proof.
  intros Hl Hcs. apply (apply_charges_spec l cs []); [done|done|].
  destruct Hl; unfold within, in_u32, in_u64 in *; simpl; lia.
Qed.

(** A refused charge returns the error of its counter with the total it
    attempted (capped at [u64::MAX]) and the limit, and changes no counter; the
    per-resource limit is reported before the total one. *)
Theorem refused_charge_error l granted c :
  limits_in_range l -> charge_in_range c -> within l granted ->
  affordable l granted c = false ->
  apply_charge c (budget_of l granted) = (Err (refusal l granted c), budget_of l granted).
Proof. intros ? ? ? Ha. by rewrite apply_charge_spec, Ha. Qed.

(** Limits at the edge of the counters, for the witnesses. *)
Definition edge_limits : CaptureLimits :=
  MkLimits 120000 20 u32_max u64_max 2 4 6 1048576 8 10 64 64.

Lemma edge_limits_in_range : limits_in_range edge_limits.
Proof. split; unfold in_u32, in_u64; simpl; ranges; lia. Qed.

Lemma budget_refines_ledger_witness :
  map is_ok (fst (apply_charges
    [ChargeFrames u32_max; ChargeFrames 1; ChargeResourceBytes 4; ChargeResourceBytes 3;
     ChargeResourceBytes 5; ChargeResourceBytes 2; ChargeObservation 11] (budget_new edge_limits)))
  = [true; false; true; false; false; true; false].
Proof.
  assert (H := budget_refines_ledger edge_limits
    [ChargeFrames u32_max; ChargeFrames 1; ChargeResourceBytes 4; ChargeResourceBytes 3;
     ChargeResourceBytes 5; ChargeResourceBytes 2; ChargeObservation 11] edge_limits_in_range).
  destruct (apply_charges _ _); simpl in *. apply H.
  repeat constructor; unfold in_u32, in_u64; ranges; lia.
Defined.

Lemma refused_charge_error_witness :
  apply_charge (ChargeNodes 2) (budget_of edge_limits [ChargeNodes (u64_max - 1)]) =
  (Err (budget_limit_error Nodes u64_max u64_max), budget_of edge_limits [ChargeNodes (u64_max - 1)]).
Proof.
  apply (refused_charge_error edge_limits [ChargeNodes (u64_max - 1)] (ChargeNodes 2)
           edge_limits_in_range).
  - unfold charge_in_range, in_u64; ranges; lia.
  - unfold within; simpl; ranges; lia.
  - reflexivity.
Defined.
