(* ===== verification/Lifecycle.v ===== *)
(** * The life cycle of a capture

    Models [CaptureStatus] of [offprint-rs/model/src/event.rs] and the state
    machine of [offprint-rs/capture/src/state.rs].  The step relation is read
    off [transition]; the theorems describe every history the machine accepts:
    histories are finite, a terminal status is final, success is reached by the
    whole pipeline in order and by nothing else. *)

From Stdlib Require Import ZArith Lia Ascii String.
From stdpp Require Import base tactics list gmap strings numbers finite relations.
From S2P Require Import Prelude.
From S2P Require Import Errors.

#[local] Open Scope string_scope.
#[local] Open Scope nat_scope.
#[local] Open Scope list_scope.

Inductive CaptureStatus :=
| Created | Validating | WaitingForBrowser | Navigating | WaitingForReadiness
| Collecting | ResolvingResources | Transforming | Encoding | Verifying
| Committing | Cancelling | Succeeded | Cancelled | Failed.

#[export] Instance CaptureStatus_eq_dec : EqDecision CaptureStatus.
Proof. solve_decision. Defined.

Inductive CaptureTerminalStatus := TSucceeded | TCancelled | TFailed.

Definition is_terminal (s : CaptureStatus) : bool :=
  match s with Succeeded | Cancelled | Failed => true | _ => false end.

Definition terminal (s : CaptureStatus) : option CaptureTerminalStatus :=
  match s with
  | Succeeded => Some TSucceeded
  | Cancelled => Some TCancelled
  | Failed => Some TFailed
  | _ => None
  end.

Definition can_transition (current next : CaptureStatus) : bool :=
  match current, next with
  | Created, Validating
  | Validating, WaitingForBrowser
  | WaitingForBrowser, Navigating
  | Navigating, WaitingForReadiness
  | WaitingForReadiness, Collecting
  | Collecting, ResolvingResources
  | ResolvingResources, Transforming
  | Transforming, Encoding
  | Encoding, Verifying
  | Verifying, Committing
  | Committing, Succeeded
  | Cancelling, Cancelled
  | Cancelling, Failed => true
  | _, _ => false
  end
  || (negb (is_terminal current) && bool_decide (current <> Cancelling)
      && match next with Cancelling | Failed => true | _ => false end).

Record CaptureStateMachine := MkMachine { status : CaptureStatus }.

Definition machine_new : CaptureStateMachine := MkMachine Created.

Definition transition (next : CaptureStatus) (m : CaptureStateMachine)
  : Res unit * CaptureStateMachine :=
  if negb (can_transition (status m) next)
  then (Err (new_error "offprint.runtime.state_transition" Internal), m)
  else (Ok tt, MkMachine next).

(** ** Histories *)

(** Request the statuses one after another; keep those that were accepted. *)
Fixpoint history (requests : list CaptureStatus) (m : CaptureStateMachine)
  : list CaptureStatus * CaptureStateMachine :=
  match requests with
  | [] => ([], m)
  | next :: rest =>
      let (r, m1) := transition next m in
      let (accepted, m2) := history rest m1 in
      (if is_ok r then next :: accepted else accepted, m2)
  end.

(** A path of the machine: the successive statuses after a first one. *)
Inductive path_of : CaptureStatus -> list CaptureStatus -> CaptureStatus -> Prop :=
| path_here s : path_of s [] s
| path_step s next rest final :
    snd (transition next (MkMachine s)) = MkMachine next ->
    fst (transition next (MkMachine s)) = Ok tt ->
    path_of next rest final ->
    path_of s (next :: rest) final.

Lemma transition_ok s next :
  fst (transition next (MkMachine s)) = Ok tt <-> can_transition s next = true.
Proof. unfold transition; simpl. destruct (can_transition s next); simpl; naive_solver. Qed.

Lemma path_cons s next rest final :
  path_of s (next :: rest) final <-> can_transition s next = true /\ path_of next rest final.
Proof.
  rewrite <- transition_ok. split; [by inversion 1|]. intros [H1 H2].
  constructor; [|done|done].
  unfold transition in *; simpl in *. by destruct (can_transition s next).
Qed.

Lemma history_path requests s :
  let (accepted, m) := history requests (MkMachine s) in path_of s accepted (status m).
Proof.
  revert s; induction requests as [|next rest IH]; intros s; simpl; [constructor|].
  unfold transition; simpl. destruct (can_transition s next) eqn:E; simpl.
  - specialize (IH next). destruct (history rest _) as [accepted m]; simpl.
    by apply path_cons.
  - specialize (IH s). by destruct (history rest _) as [accepted m].
Qed.

(** Every accepted transition climbs. *)
Definition rank (s : CaptureStatus) : nat :=
  match s with
  | Created => 0 | Validating => 1 | WaitingForBrowser => 2 | Navigating => 3
  | WaitingForReadiness => 4 | Collecting => 5 | ResolvingResources => 6
  | Transforming => 7 | Encoding => 8 | Verifying => 9 | Committing => 10
  | Cancelling => 11 | Succeeded | Cancelled | Failed => 12
  end.

Lemma transition_climbs s next : can_transition s next = true -> rank s < rank next.
Proof. destruct s, next; vm_compute; intros H; try discriminate H; lia. Qed.

Lemma path_length s l final : path_of s l final -> rank s + length l <= rank final.
Proof.
  induction 1 as [|s next rest final _ H _ IH]; simpl; [lia|].
  apply transition_ok, transition_climbs in H. lia.
Qed.

Lemma rank_bound s : rank s <= 12.
Proof. destruct s; simpl; lia. Qed.

Lemma terminal_stays s l final : is_terminal s = true -> path_of s l final -> l = [] /\ final = s.
Proof.
  intros Hs Hp. destruct l as [|next rest]; [by inversion Hp|].
  apply path_cons in Hp as [H _]. destruct s, next; discriminate.
Qed.

(** The pipeline in order. *)
Definition stages : list CaptureStatus :=
  [Validating; WaitingForBrowser; Navigating; WaitingForReadiness; Collecting;
   ResolvingResources; Transforming; Encoding; Verifying; Committing; Succeeded].

(** The rest of the pipeline after a status of it. *)
Definition stages_after (s : CaptureStatus) : list CaptureStatus := drop (rank s) stages.

Definition on_pipeline (s : CaptureStatus) : bool :=
  match s with Cancelling | Cancelled | Failed => false | _ => true end.

(** Off the pipeline there is no way back. *)
Lemma off_pipeline s l final :
  on_pipeline s = false -> path_of s l final -> on_pipeline final = false.
Proof.
  intros Hs Hp. revert Hs. induction Hp as [|s next rest final _ H _ IH]; [done|].
  intros Hs. apply IH. apply transition_ok in H. by destruct s, next.
Qed.

Lemma success_path s l :
  on_pipeline s = true -> path_of s l Succeeded -> l = if decide (s = Succeeded) then [] else stages_after s.
Proof.
  intros Hs Hp. remember Succeeded as final eqn:Hf. revert Hs.
  induction Hp as [s|s next rest final _ H Hp IH]; intros Hs.
  - subst. by rewrite decide_True.
  - subst. apply transition_ok in H.
    assert (Hn : on_pipeline next = true).
    { destruct (on_pipeline next) eqn:E; [done|]. by apply (off_pipeline _ _ _ E) in Hp. }
    rewrite (IH eq_refl Hn). by destruct s, next.
Qed.

(** ** Properties *)

(** A capture succeeds only by the whole pipeline, in order: whatever
    statuses are requested of a new machine and however many requests it
    refuses, if it ends in [Succeeded] then the accepted transitions are
    exactly Validating, WaitingForBrowser, ..., Committing, Succeeded; and that
    sequence of requests is accepted. *)
Theorem success_is_the_pipeline requests :
  (status (snd (history requests machine_new)) = Succeeded ->
   fst (history requests machine_new) = stages) /\
  history stages machine_new = (stages, MkMachine Succeeded).
Proof.
  split; [|reflexivity].
  assert (Hp := history_path requests Created). unfold machine_new.
  destruct (history requests (MkMachine Created)) as [accepted [s]]; simpl in *. intros ->.
  by apply success_path in Hp.
Qed.

(** A terminal status is final: from then on every requested transition is
    refused with the state-transition error and the status stays. *)
Theorem terminal_is_final before after :
  let m := snd (history before machine_new) in
  is_terminal (status m) = true ->
  history after m = ([], m) /\
  Forall (fun next =>
    fst (transition next m) = Err (new_error "offprint.runtime.state_transition" Internal)) after.
Proof.
  simpl. destruct (history before machine_new) as [pre [s]]; simpl. intros Hs.
  assert (Ht : forall next, can_transition s next = false) by (intros next; by destruct s, next).
  split.
  - induction after as [|next rest IH]; simpl; [done|].
    unfold transition at 1; simpl. rewrite Ht; simpl. by rewrite IH.
  - apply Forall_forall. intros next _. unfold transition; simpl. by rewrite Ht.
Qed.

(** A capture cannot run for ever: at most twelve transitions are accepted,
    no status is entered twice, and as long as the status is not terminal the
    machine can still be driven to a terminal one. *)
Theorem lifecycle_terminates requests :
  let (accepted, m) := history requests machine_new in
  (length accepted <= 12)%nat /\ NoDup (Created :: accepted) /\
  exists more, is_terminal (status (snd (history more m))) = true.
Proof.
  assert (Hp := history_path requests Created). unfold machine_new.
  destruct (history requests (MkMachine Created)) as [accepted [s]]; simpl in *.
  assert (Hl := path_length _ _ _ Hp). assert (Hr := rank_bound s). simpl in Hl.
  split; [lia|]. split.
  - clear Hl Hr. induction Hp as [s|s next rest final _ H Hp IH]; [by repeat constructor; set_solver|].
    constructor; [|done]. apply transition_ok, transition_climbs in H.
    assert (Hin : forall x, x ∈ next :: rest -> rank next <= rank x).
    { clear -Hp. induction Hp as [s|s next rest final _ H Hp IH]; intros x Hx.
      - apply list_elem_of_singleton in Hx. by subst.
      - apply elem_of_cons in Hx as [->|Hx]; [done|]. apply transition_ok, transition_climbs in H.
        specialize (IH _ Hx). lia. }
    intros Hin'. apply Hin in Hin'. lia.
  - destruct (is_terminal s) eqn:E; [by exists []|].
    exists [Failed]. unfold transition; simpl. by destruct s.
Qed.

(** Once cancellation has begun, a capture ends cancelled or failed, never
    succeeded: after an accepted [Cancelling] at most one more transition is
    accepted, to [Cancelled] or to [Failed]. *)
Theorem cancelling_never_succeeds before after :
  let m := snd (history before machine_new) in
  status m = Cancelling ->
  fst (history after m) = [] \/ fst (history after m) = [Cancelled] \/
  fst (history after m) = [Failed].
Proof.
  simpl. destruct (history before machine_new) as [pre [s]]; simpl. intros ->.
  assert (Hp := history_path after Cancelling).
  destruct (history after _) as [accepted [s]]; simpl in *.
  destruct accepted as [|next rest]; [by left|]. apply path_cons in Hp as [H Hp].
  right. destruct next; try discriminate H; apply terminal_stays in Hp as [-> _]; auto.
Qed.

Lemma success_is_the_pipeline_witness :
  fst (history (Succeeded :: stages ++ [Failed]) machine_new) = stages.
Proof. apply (proj1 (success_is_the_pipeline (Succeeded :: stages ++ [Failed]))). reflexivity. Defined.

Lemma terminal_is_final_witness :
  history [Validating; Succeeded] (MkMachine Failed) = ([], MkMachine Failed).
Proof. apply (terminal_is_final [Validating; Failed] [Validating; Succeeded]). reflexivity. Defined.

Lemma cancelling_never_succeeds_witness :
  fst (history [Collecting; Failed; Succeeded] (MkMachine Cancelling)) = [] \/
  fst (history [Collecting; Failed; Succeeded] (MkMachine Cancelling)) = [Cancelled] \/
  fst (history [Collecting; Failed; Succeeded] (MkMachine Cancelling)) = [Failed].
Proof.
  apply (cancelling_never_succeeds [Validating; Cancelling] [Collecting; Failed; Succeeded]).
  reflexivity.
Defined.
