(* ===== verification/ContentStore.v ===== *)
(** * The content-addressed store of captured resources

    Models [offprint-rs/capture/src/content_store.rs].  A store is a temporary
    directory of its own, a map from digests to stored contents and two byte
    counters.  An insertion streams into a temporary file, counts as it goes,
    and renames the file to the name of its digest unless the digest is known.
    The file operations of one insertion may fail where [Faults] says so; the
    stream is the sequence of its items, errors included.  [tempfile] picks the
    temporary name and [hex] prints digests: both are parameters. *)

From Stdlib Require Import ZArith Lia Ascii String.
From stdpp Require Import base tactics list gmap strings numbers stringmap pretty.
From S2P Require Import Prelude.
From S2P Require Import Errors.
From S2P Require Import Fs.
From S2P Require Import Records.

#[local] Open Scope string_scope.
#[local] Open Scope list_scope.
#[local] Open Scope Z_scope.

#[export] Instance ContentDigest_countable : Countable ContentDigest.
Proof. refine (inj_countable' digest_bytes MkDigest _). by intros []. Defined.

(** The files of the store's directory, by name. *)
Abbreviation directory := (gmap string bytes).

(** [tempfile::Builder::tempfile_in]: a name under the prefix [.resource-] that
    is not in use. *)
Class TempNames := temp_name : directory -> string.

Record StoredContent := MkStored {
  sc_digest : ContentDigest;
  sc_bytes : Z;
  sc_path : string;
}.

Record ContentInsertion := MkInsertion {
  ci_content : StoredContent;
  ci_new_content : bool;
}.

Record ContentStore := MkStore {
  cs_directory : directory;
  cs_entries : gmap ContentDigest StoredContent;
  cs_received_bytes : Z;
  cs_unique_bytes : Z;
}.

(** Which file operations of an insertion the operating system fails; the
    writes are numbered by chunk.  Removing a dropped temporary file may fail
    too, and that failure is ignored. *)
Record Faults := MkFaults {
  create_fails : bool;
  write_fails : nat -> bool;
  flush_fails : bool;
  persist_fails : bool;
  remove_fails : bool;
}.

Definition no_faults : Faults := MkFaults false (fun _ => false) false false false.

Definition content_error (code : string) : OffprintError := new_error code Resource.

Definition store_error : OffprintError := content_error "offprint.resource.store".

Definition limit_error : OffprintError := content_error "offprint.resource.limit".

Definition exceeded_error (resource total resource_limit total_limit : Z) : OffprintError :=
  with_detail "totalLimit" (DNum total_limit)
    (with_detail "resourceLimit" (DNum resource_limit)
       (with_detail "totalBytes" (DNum total)
          (with_detail "resourceBytes" (DNum resource) limit_error))).

(** [StoredContent::read]: bounded by the recorded size and one byte more. *)
Definition stored_read (c : StoredContent) (maximum_bytes : Z) (files : directory)
  : Res bytes :=
  if maximum_bytes <? sc_bytes c then
    Err (with_detail "limit" (DNum maximum_bytes)
           (with_detail "bytes" (DNum (sc_bytes c)) limit_error))
  else
    match files !! sc_path c with
    | None => Err store_error
    | Some content =>
        let bytes := take (Z.to_nat (saturating_add u64_max (sc_bytes c) 1)) content in
        if bool_decide (len_u64 bytes <> sc_bytes c) then Err store_error else Ok bytes
    end.

Definition store_new : ContentStore := MkStore ∅ ∅ 0 0.

(** The receiving loop: the bytes of this resource so far, the text hashed, the
    text written, and the bytes the store has received in all.  The last is
    updated even when the loop stops with an error. *)
Record Receiving := MkReceiving {
  rcv_resource_bytes : Z;
  rcv_hashed : bytes;
  rcv_written : bytes;
}.

Fixpoint receive (f : Faults) (max_resource max_total : Z) (stream : list (Res bytes)) (k : nat)
    (r : Receiving) (received : Z) : Res Receiving * Z :=
  match stream with
  | [] => (Ok r, received)
  | Err e :: _ => (Err e, received)
  | Ok chunk :: rest =>
      let chunk_bytes := len_u64 chunk in
      match checked_add u64_max (rcv_resource_bytes r) chunk_bytes with
      | None => (Err limit_error, received)
      | Some resource_bytes =>
          match checked_add u64_max received chunk_bytes with
          | None => (Err limit_error, received)
          | Some total_bytes =>
              if (max_resource <? resource_bytes) || (max_total <? total_bytes) then
                (Err (exceeded_error resource_bytes total_bytes max_resource max_total),
                 total_bytes)
              else if write_fails f k then (Err store_error, total_bytes)
              else
                receive f max_resource max_total rest (S k)
                  (MkReceiving resource_bytes (rcv_hashed r ++ chunk) (rcv_written r ++ chunk))
                  total_bytes
          end
      end
  end.

Section Store.
Context `{Hashing} `{TempNames}.

Definition with_received (n : Z) (s : ContentStore) : ContentStore :=
  MkStore (cs_directory s) (cs_entries s) n (cs_unique_bytes s).

(** Dropping the temporary path removes the file.  A file whose removal fails
    stays under its temporary name, which no entry uses; [left] is its text. *)
Definition dropped (f : Faults) (name : string) (left : bytes) (s : ContentStore) : ContentStore :=
  if remove_fails f
  then MkStore (<[name := left]> (cs_directory s)) (cs_entries s) (cs_received_bytes s) (cs_unique_bytes s)
  else s.

Definition insert_stream (f : Faults) (stream : list (Res bytes)) (max_resource max_total : Z)
    (s : ContentStore) : Res ContentInsertion * ContentStore :=
  if create_fails f then (Err store_error, s)
  else
    let temporary := temp_name (cs_directory s) in
    match receive f max_resource max_total stream 0 (MkReceiving 0 [] []) (cs_received_bytes s) with
    | (Err e, received) => (Err e, dropped f temporary [] (with_received received s))
    | (Ok r, received) =>
        let s1 := with_received received s in
        if flush_fails f then (Err store_error, dropped f temporary (rcv_written r) s1)
        else
          let digest := sha256 (rcv_hashed r) in
          match cs_entries s1 !! digest with
          | Some content =>
              (Ok (MkInsertion content false), dropped f temporary (rcv_written r) s1)
          | None =>
              let destination := to_hex digest in
              if persist_fails f then (Err store_error, dropped f temporary (rcv_written r) s1)
              else
                let files := <[destination := rcv_written r]> (cs_directory s1) in
                let content := MkStored digest (rcv_resource_bytes r) destination in
                match checked_add u64_max (cs_unique_bytes s1) (rcv_resource_bytes r) with
                | None =>
                    (Err limit_error,
                     MkStore files (cs_entries s1) (cs_received_bytes s1) (cs_unique_bytes s1))
                | Some unique =>
                    (Ok (MkInsertion content true),
                     MkStore files (<[digest := content]> (cs_entries s1)) (cs_received_bytes s1)
                       unique)
                end
          end
    end.

Definition insert_bytes (f : Faults) (b : bytes) (max_resource max_total : Z) (s : ContentStore)
  : Res ContentInsertion * ContentStore :=
  insert_stream f [Ok b] max_resource max_total s.

(** A store after a sequence of insertions, the last one first. *)
Definition run_insertions (l : list (Faults * list (Res bytes) * Z * Z)) : ContentStore :=
  foldr (fun '(f, stream, mr, mt) s => snd (insert_stream f stream mr mt s)) store_new l.

Definition store_len (s : ContentStore) : nat := size (cs_entries s).

Definition store_is_empty (s : ContentStore) : bool := bool_decide (cs_entries s = ∅).

(** ** The invariant *)

(** Documented behaviour of [hex] and [tempfile]: printing loses nothing and
    uses hexadecimal digits only; a temporary name is new and has its prefix. *)
Class StoreLaws : Prop := {
  hex_injective a b : hex_encode a = hex_encode b -> a = b;
  hex_no_dot a : starts_with "." (hex_encode a) = false;
  temp_fresh (d : directory) : d !! temp_name d = None;
  temp_prefixed (d : directory) : starts_with "." (temp_name d) = true;
}.

Definition sum_bytes (m : gmap ContentDigest StoredContent) : Z :=
  map_fold (fun _ c t => sc_bytes c + t) 0 m.

(** An entry: the file under the name of its digest holds a text of the
    recorded size with that digest. *)
Definition entry_good (files : directory) (d : ContentDigest) (c : StoredContent) : Prop :=
  sc_digest c = d /\ sc_path c = to_hex d /\ 0 <= sc_bytes c <= u64_max /\
  exists content, files !! to_hex d = Some content /\
    sha256 content = d /\ Z.of_nat (length content) = sc_bytes c.

Record store_ok (s : ContentStore) : Prop := {
  ok_entries d c : cs_entries s !! d = Some c -> entry_good (cs_directory s) d c;
  ok_unique : cs_unique_bytes s = sum_bytes (cs_entries s);
  ok_bounds : 0 <= cs_unique_bytes s <= cs_received_bytes s;
  ok_received : cs_received_bytes s <= u64_max;
}.
End Store.
Arguments StoreLaws {_ _}.

(** The bytes a stream delivers before its first error. *)
Fixpoint delivered (stream : list (Res bytes)) : bytes :=
  match stream with
  | Ok chunk :: rest => chunk ++ delivered rest
  | _ => []
  end.

(** A byte buffer is no longer than [usize] can say. *)
Definition chunk_fits (i : Res bytes) : Prop :=
  match i with Ok chunk => Z.of_nat (length chunk) <= usize_max | Err _ => True end.

(** ** Lemmas *)

Lemma sum_bytes_insert m d c :
  m !! d = None -> sum_bytes (<[d := c]> m) = sc_bytes c + sum_bytes m.
Proof.
  intros Hd. unfold sum_bytes.
  apply (map_fold_insert_L (fun _ (c : StoredContent) t => sc_bytes c + t)); [|done]. intros; lia.
Qed.

(** The loop adds to the received count exactly what it adds to the resource
    count, keeps the hashed and the written text equal, and stops at a limit. *)
Lemma receive_spec f mr mt stream k r received r' received' :
  receive f mr mt stream k r received = (Ok r', received') -> Forall chunk_fits stream ->
  rcv_written r = rcv_hashed r -> Z.of_nat (length (rcv_hashed r)) = rcv_resource_bytes r ->
  0 <= received <= u64_max -> rcv_resource_bytes r <= u64_max ->
  rcv_hashed r' = rcv_hashed r ++ delivered stream /\ rcv_written r' = rcv_hashed r' /\
  Z.of_nat (length (rcv_hashed r')) = rcv_resource_bytes r' /\
  rcv_resource_bytes r' <= u64_max /\
  received' = received + Z.of_nat (length (delivered stream)) /\ received' <= u64_max /\
  Forall is_ok stream /\
  (stream <> [] -> rcv_resource_bytes r' <= mr /\ received' <= mt).
Proof.
  revert k r received; induction stream as [|[chunk|e] rest IH]; intros k r received; simpl;
    [|destruct (checked_add u64_max _ _) as [rb|] eqn:E1; [|done]|done].
  { intros [= <- <-] _ **. rewrite app_nil_r. repeat split; try done; simpl; lia. }
  destruct (checked_add u64_max received _) as [tb|] eqn:E2; [|done].
  destruct (_ || _) eqn:E3; [done|]. destruct (write_fails f k); [done|].
  intros Hr [Hfit Hfits]%Forall_cons_iff Hw Hl Hrec Hres. simpl in Hfit. apply checked_add_Some in E1 as [-> ?], E2 as [-> ?].
  assert (Hc : len_u64 chunk = Z.of_nat (length chunk)) by (unfold len_u64 in *; ranges; lia).
  rewrite Hc in *. apply orb_false_iff in E3 as [?%Z.ltb_ge ?%Z.ltb_ge].
  apply IH in Hr; simpl in *; [|done|by rewrite Hw|rewrite length_app; lia|lia|lia].
  destruct Hr as (-> & -> & Hlen & ? & -> & ? & ? & Hlim). rewrite !length_app in *.
  repeat split; try done; try lia.
  - by rewrite <- app_assoc.
  - by constructor.
  - destruct rest; [|by apply Hlim]. simpl in *. lia.
  - destruct rest; [|by apply Hlim]. simpl in *. lia.
Qed.

(** On every exit the received count has only grown and is within its width. *)
Lemma receive_counts f mr mt stream k r received :
  0 <= received <= u64_max ->
  received <= snd (receive f mr mt stream k r received) <= u64_max.
Proof.
  revert k r received; induction stream as [|[chunk|e] rest IH]; intros k r received Hr; simpl;
    [lia| |simpl; lia].
  destruct (checked_add u64_max (rcv_resource_bytes r) _) as [rb|] eqn:E1; [|simpl; lia].
  destruct (checked_add u64_max received _) as [tb|] eqn:E2; [|simpl; lia].
  apply checked_add_Some in E2 as [-> ?]. assert (0 <= len_u64 chunk) by apply len_u64_nonneg.
  destruct (_ || _); [simpl; lia|]. destruct (write_fails f k); [simpl; lia|].
  match goal with |- context [receive _ _ _ _ _ ?r' ?n] => specialize (IH (S k) r' n) end. lia.
Qed.

(** Without faults and within the limits the loop gets to the end. *)
Lemma receive_total mr mt stream k r received :
  Forall is_ok stream -> 0 <= received -> 0 <= rcv_resource_bytes r ->
  rcv_resource_bytes r + Z.of_nat (length (delivered stream)) <= mr -> mr <= u64_max ->
  received + Z.of_nat (length (delivered stream)) <= mt -> mt <= u64_max ->
  exists r' received', receive no_faults mr mt stream k r received = (Ok r', received').
Proof.
  revert k r received; induction stream as [|[chunk|e] rest IH]; intros k r received Hok; simpl;
    [by eauto| |by apply Forall_cons_iff in Hok as [? _]].
  apply Forall_cons_iff in Hok as [_ Hok]. rewrite length_app. intros.
  assert (Hc : len_u64 chunk = Z.of_nat (length chunk)) by (apply len_u64_small; lia).
  rewrite Hc. unfold checked_add.
  rewrite (proj2 (Z.leb_le (_ + _) _)) by lia. rewrite (proj2 (Z.leb_le (_ + _) _)) by lia.
  rewrite (proj2 (Z.ltb_ge _ _)) by lia. rewrite (proj2 (Z.ltb_ge _ _)) by lia. simpl.
  apply IH; simpl; try done; lia.
Qed.

Section StoreFacts.
Context `{Hh : Hashing} `{Ht : TempNames} {Hlaws : StoreLaws}.
Implicit Types (s : ContentStore) (c : StoredContent) (d : ContentDigest).

Lemma to_hex_injective d1 d2 : to_hex d1 = to_hex d2 -> d1 = d2.
Proof using All. destruct d1, d2. unfold to_hex; simpl. intros ->%hex_injective. done. Qed.

Lemma temp_not_hex (files : directory) d : temp_name files <> to_hex d.
Proof using All.
  intros E. assert (H1 := temp_prefixed files). rewrite E in H1.
  unfold to_hex in H1. by rewrite hex_no_dot in H1.
Qed.

Lemma entry_good_frame files d c name content :
  entry_good files d c -> name <> to_hex d -> entry_good (<[name := content]> files) d c.
Proof using Type.
  intros (? & ? & ? & x & Hx & ?) Hn. repeat (split; [done|]).
  exists x. by rewrite lookup_insert_ne.
Qed.

(** Leaving a temporary file behind, and counting, keep the invariant. *)
Lemma dropped_ok f left s n :
  store_ok s -> cs_received_bytes s <= n <= u64_max ->
  store_ok (dropped f (temp_name (cs_directory s)) left (with_received n s)).
Proof using All.
  intros [He Hu Hb Hr] Hn. unfold dropped, with_received.
  destruct (remove_fails f); split; simpl; try done; try lia.
  intros d c Hd. apply entry_good_frame; [by apply He|apply temp_not_hex].
Qed.

(** Reading an entry back gives a text with its digest. *)
Lemma read_entry s d c maximum :
  store_ok s -> cs_entries s !! d = Some c -> sc_bytes c <= maximum ->
  exists content, stored_read c maximum (cs_directory s) = Ok content /\ sha256 content = d /\
    cs_directory s !! to_hex d = Some content.
Proof using Type.
  intros Hs Hd Hm. destruct (ok_entries _ Hs _ _ Hd) as (_ & Hp & Hb & x & Hx & Hsha & Hlen).
  exists x. unfold stored_read. rewrite (proj2 (Z.ltb_ge _ _)) by lia. rewrite Hp, Hx.
  rewrite take_ge by (unfold saturating_add; ranges; lia).
  rewrite bool_decide_eq_false_2; [done|]. rewrite len_u64_small by lia. intros ?. lia.
Qed.

Lemma insert_stream_ok f stream mr mt s :
  Forall chunk_fits stream -> store_ok s -> store_ok (snd (insert_stream f stream mr mt s)).
Proof using All.
  intros Hfits Hs. unfold insert_stream. destruct (create_fails f); [done|].
  assert (Hc := receive_counts f mr mt stream 0 (MkReceiving 0 [] []) (cs_received_bytes s)).
  destruct (receive _ _ _ _ _ _ _) as [[r|e] received] eqn:E; simpl in Hc.
  2:{ apply dropped_ok; [done|]. destruct Hs. lia. }
  assert (Hs1 := fun l => dropped_ok f l _ received Hs).
  assert (cs_received_bytes s <= received <= u64_max) by (destruct Hs; lia).
  apply receive_spec in E as (Eh & Ew & El & Eu & Er & _); simpl in *; try (destruct Hs; ranges; lia).
  2,3:done.
  destruct (flush_fails f); [by apply Hs1|].
  destruct (cs_entries s !! _) as [c|] eqn:Ed; [by apply Hs1|].
  destruct (persist_fails f); [by apply Hs1|].
  destruct Hs as [He Hu Hb Hr].
  rewrite checked_add_fits by (rewrite Eh in El; simpl in *; lia).
  split; simpl; try (rewrite Eh in El; simpl in El; lia).
  - intros d c. rewrite lookup_insert. case_decide as Hd.
    + subst d. intros [= <-]. repeat split; simpl; try lia.
      exists (rcv_written r). rewrite lookup_insert, decide_True by done. rewrite Ew. done.
    + intros Hdc. apply entry_good_frame; [by apply He|]. by intros ?%to_hex_injective.
  - rewrite sum_bytes_insert by done. simpl. lia.
Qed.

(** ** Properties *)


(** What was inserted can be read back: a successful insertion yields a
    content whose digest is that of the streamed bytes, reading it returns a
    text with this digest, and the streamed bytes themselves when the content
    was new; the streamed bytes and the total are within the limits given, and
    the entries that were there before read as before. *)
Theorem insert_then_read f stream mr mt s i s' maximum :
  store_ok s -> Forall chunk_fits stream -> insert_stream f stream mr mt s = (Ok i, s') ->
  sc_bytes (ci_content i) <= maximum ->
  exists content, stored_read (ci_content i) maximum (cs_directory s') = Ok content /\
    sc_digest (ci_content i) = sha256 (delivered stream) /\
    sha256 content = sha256 (delivered stream) /\
    (ci_new_content i = true -> content = delivered stream) /\
    (stream <> [] -> Z.of_nat (length (delivered stream)) <= mr /\ cs_received_bytes s' <= mt) /\
    forall d c m, cs_entries s !! d = Some c ->
      cs_entries s' !! d = Some c /\
      stored_read c m (cs_directory s') = stored_read c m (cs_directory s).
Proof using All.
  intros Hs Hfits Hi Hm. assert (Hs' := insert_stream_ok f stream mr mt s Hfits Hs). rewrite Hi in Hs'. simpl in Hs'.
  unfold insert_stream in Hi. destruct (create_fails f); [done|].
  destruct (receive _ _ _ _ _ _ _) as [[r|e] received] eqn:E; [|done].
  apply receive_spec in E as (Eh & Ew & El & Eu & Er & _ & _ & Elim); simpl in *;
    try (destruct Hs; ranges; lia); try done.
  destruct (flush_fails f); [done|]. rewrite Eh in *.
  destruct (cs_entries s !! sha256 (delivered stream)) as [c|] eqn:Ed.
  - injection Hi as <- <-. simpl in *.
    destruct (read_entry _ (sha256 (delivered stream)) c maximum Hs') as (x & Hx & Hsha & _);
      [unfold dropped; by destruct (remove_fails f)|done|].
    exists x. split; [done|]. split; [by apply (ok_entries _ Hs _ _ Ed)|]. split; [done|].
    split; [done|]. split.
    { intros Hne. destruct (Elim Hne). unfold dropped; destruct (remove_fails f); simpl; lia. }
    intros d c' m Hd. unfold dropped; destruct (remove_fails f); simpl; [|done].
    split; [done|]. destruct (ok_entries _ Hs _ _ Hd) as (_ & Hp & _).
    unfold stored_read. rewrite Hp, lookup_insert_ne; [done|apply temp_not_hex].
  - destruct (persist_fails f); [done|].
    destruct (checked_add _ _ _) as [unique|]; [|done]. injection Hi as <- <-. simpl in *.
    destruct (read_entry _ (sha256 (delivered stream))
                (MkStored (sha256 (delivered stream)) (rcv_resource_bytes r)
                   (to_hex (sha256 (delivered stream)))) maximum Hs') as (x & Hx & Hsha & Hf);
      [simpl; by rewrite lookup_insert, decide_True|done|].
    exists x. simpl in Hf. rewrite lookup_insert, decide_True in Hf by done.
    repeat (split; [done|]). split; [intros _; congruence|].
    split; [intros Hne; destruct (Elim Hne); lia|].
    intros d c' m Hd. rewrite lookup_insert_ne by congruence. split; [done|].
    destruct (ok_entries _ Hs _ _ Hd) as (_ & Hp & _).
    unfold stored_read. rewrite Hp, lookup_insert_ne; [done|].
    intros ?%to_hex_injective. congruence.
Qed.

(** An insertion within the limits succeeds: without failing operations,
    a stream without errors whose length fits both the per-resource limit and
    what is left of the total is stored; the count of unique bytes cannot
    overflow. *)
Theorem insert_succeeds stream mr mt s :
  store_ok s -> Forall chunk_fits stream -> Forall is_ok stream ->
  Z.of_nat (length (delivered stream)) <= mr <= u64_max ->
  cs_received_bytes s + Z.of_nat (length (delivered stream)) <= mt <= u64_max ->
  exists i, fst (insert_stream no_faults stream mr mt s) = Ok i /\
    (ci_new_content i = false <-> is_Some (cs_entries s !! sha256 (delivered stream))).
Proof using All.
  intros Hs Hfits Hok Hmr Hmt. unfold insert_stream; simpl.
  destruct (receive_total mr mt stream 0 (MkReceiving 0 [] []) (cs_received_bytes s))
    as (r & received & E); simpl; try done; try (destruct Hs; lia).
  rewrite E. apply receive_spec in E as (Eh & Ew & El & Eu & Er & _); simpl in *;
    try (destruct Hs; ranges; lia); try done.
  rewrite Eh in *. destruct (cs_entries s !! _) as [c|] eqn:Ed; [eexists; split; naive_solver|].
  rewrite checked_add_fits by (destruct Hs; lia).
  eexists. split; [done|]. simpl. split; [done|]. by intros [? ?].
Qed.
End StoreFacts.

(** ** Witnesses

    The hexadecimal printer itself, a hash and a source of names that satisfy
    the laws. *)

Definition hex_digit (n : N) : ascii :=
  if (n <? 10)%N then ascii_of_N (48 + n) else ascii_of_N (87 + n).

Fixpoint hex_text (b : bytes) : string :=
  match b with
  | [] => ""
  | c :: b' =>
      String (hex_digit (N_of_ascii c / 16)) (String (hex_digit (N_of_ascii c mod 16)) (hex_text b'))
  end.

#[local] Instance plain_hashing : Hashing := { sha256_raw b := b; hex_encode := hex_text }.

#[local] Instance counted_names : TempNames :=
  fun files => fresh_string ".resource-" files.

(** The value of a digit, and the byte of two. *)
Definition hex_value (c : ascii) : N :=
  let n := N_of_ascii c in if (n <? 58)%N then (n - 48)%N else (n - 87)%N.

Lemma hex_byte c :
  ascii_of_N (16 * hex_value (hex_digit (N_of_ascii c / 16))
              + hex_value (hex_digit (N_of_ascii c mod 16))) = c.
Proof. by destruct c as [[] [] [] [] [] [] [] []]. Qed.

Lemma hex_text_injective a b : hex_text a = hex_text b -> a = b.
Proof.
  revert b; induction a as [|c a IH]; intros [|d b]; simpl; try done.
  intros [= H1 H2 H3]. f_equal; [|auto]. by rewrite <- (hex_byte c), <- (hex_byte d), H1, H2.
Qed.

Lemma hex_text_no_dot a : starts_with "." (hex_text a) = false.
Proof. destruct a as [|[[] [] [] [] [] [] [] []] a]; reflexivity. Qed.

Lemma append_nil (s : string) : s +:+ "" = s.
Proof. induction s as [|c s IH]; [done|]. change (String c (s +:+ "") = String c s). by rewrite IH. Qed.

Lemma fresh_string_prefixed {A} (m : stringmap A) s : exists t, fresh_string s m = s +:+ t.
Proof.
  unfold fresh_string. destruct (m !! s) as [a|] eqn:Hs; [clear a Hs|exists ""; by rewrite append_nil].
  generalize 0%N (wf_guard 32 (fresh_string_R_wf s m) 0%N). revert m.
  fix FIX 3; intros m n [?]; simpl; unfold fresh_string_go at 1; simpl.
  destruct (Some_dec (m !! _)) as [[??]|?]; eauto.
Qed.

#[local] Instance plain_store_laws : StoreLaws.
Proof.
  split; [apply hex_text_injective|apply hex_text_no_dot|intros; apply fresh_string_fresh|].
  intros files. unfold temp_name, counted_names.
  by destruct (fresh_string_prefixed files ".resource-") as [t ->].
Defined.

Definition one_fault : Faults := MkFaults false (fun k => Nat.eqb k 1) false false true.

Definition sample_insertions : list (Faults * list (Res bytes) * Z * Z) :=
  [(no_faults, [Ok (as_bytes "ab"); Ok (as_bytes "c")], 4, 10);
   (one_fault, [Ok (as_bytes "xy"); Ok (as_bytes "z")], 4, 10);
   (no_faults, [Ok (as_bytes "abc")], 4, 10)].

Definition sample_store : ContentStore := run_insertions sample_insertions.

Lemma insertions_fit : Forall (fun '(_, stream, _, _) => Forall chunk_fits stream) sample_insertions.
Proof. repeat constructor; unfold chunk_fits; simpl; ranges; lia. Qed.


Lemma sample_store_ok : store_ok sample_store.
Proof.
  unfold sample_store, sample_insertions; simpl.
  repeat (apply insert_stream_ok; [repeat constructor; unfold chunk_fits; simpl; ranges; lia|]).
  split; simpl; [by intros d c|reflexivity| |]; ranges; lia.
Qed.

Lemma insert_then_read_witness :
  exists content,
    stored_read (MkStored (sha256 (as_bytes "q")) 1 (to_hex (sha256 (as_bytes "q")))) 5
      (cs_directory (snd (insert_bytes no_faults (as_bytes "q") 4 10 sample_store))) = Ok content /\
    content = as_bytes "q".
Proof.
  destruct (insert_then_read no_faults [Ok (as_bytes "q")] 4 10 sample_store
    (MkInsertion (MkStored (sha256 (as_bytes "q")) 1 (to_hex (sha256 (as_bytes "q")))) true)
    (snd (insert_bytes no_faults (as_bytes "q") 4 10 sample_store)) 5)
    as (content & H1 & _ & _ & H2 & _).
  - apply sample_store_ok.
  - repeat constructor; unfold chunk_fits; simpl; ranges; lia.
  - vm_compute. reflexivity.
  - simpl. lia.
  - exists content. split; [exact H1|apply H2; reflexivity].
Defined.

Lemma insert_succeeds_witness :
  exists i, fst (insert_stream no_faults [Ok (as_bytes "q")] 4 10 sample_store) = Ok i /\
    (ci_new_content i = false <-> is_Some (cs_entries sample_store !! sha256 (as_bytes "q"))).
Proof.
  apply (insert_succeeds [Ok (as_bytes "q")] 4 10 sample_store).
  - apply sample_store_ok.
  - repeat constructor; unfold chunk_fits; simpl; ranges; lia.
  - by repeat constructor.
  - simpl; ranges; lia.
  - change (cs_received_bytes sample_store) with 9. simpl; ranges; lia.
Defined.
