(* ===== verification/EventQueue.v ===== *)
(** * The event queues of browser sessions

    Models [offprint-rs/chromium/src/transport/events/queue.rs]: a sender that
    copies every protocol event into the inbox of each live subscriber, and
    inboxes bounded by event count and encoded bytes that drop their oldest
    events and report how many were lost.

    The sender and the receivers share the inboxes: the model keeps them in one
    store, by identity, and an inbox is alive while it is in the store.  Every
    method runs under the mutex of what it touches, so a history is a sequence
    of operations.  Subtraction that would go below zero and addition that would
    leave [usize] are panics, the value [None]. *)

From Stdlib Require Import ZArith Lia.
From stdpp Require Import base tactics list gmap numbers.
From S2P Require Import Prelude.

#[local] Open Scope list_scope.
#[local] Open Scope Z_scope.

(** [a -= b] and [a += b] on [usize]. *)
Definition sub_or_panic (a b : Z) : option Z := if b <=? a then Some (a - b) else None.
Definition add_or_panic (a b : Z) : option Z := checked_add usize_max a b.

Section Queue.
Context {CdpEvent : Type}.

Record QueuedEvent := MkQueued {
  q_event : CdpEvent;
  q_encoded_bytes : Z;
}.

Record InboxState := MkInbox {
  in_events : list QueuedEvent;
  in_encoded_bytes : Z;
  in_skipped : Z;
  in_closed : bool;
}.

Definition inbox_new : InboxState := MkInbox [] 0 0 false.

Definition inbox_close (i : InboxState) : InboxState :=
  MkInbox (in_events i) (in_encoded_bytes i) (in_skipped i) true.

(** The loop of [Inbox::push]: drop the oldest events until the new one fits or
    none is left. *)
Fixpoint evict (maximum_events maximum_bytes encoded_bytes : Z) (events : list QueuedEvent)
    (total skipped : Z) : option (list QueuedEvent * Z * Z) :=
  if (maximum_events <=? Z.of_nat (length events))
     || (saturating_sub maximum_bytes total <? encoded_bytes)
  then
    match events with
    | [] => Some ([], total, skipped)
    | oldest :: rest =>
        total' ← sub_or_panic total (q_encoded_bytes oldest);
        evict maximum_events maximum_bytes encoded_bytes rest total'
          (saturating_add u64_max skipped 1)
    end
  else Some (events, total, skipped).

Definition push (event : CdpEvent) (encoded_bytes maximum_events maximum_bytes : Z)
    (i : InboxState) : option InboxState :=
  '(events, total, skipped) ←
    evict maximum_events maximum_bytes encoded_bytes (in_events i) (in_encoded_bytes i) (in_skipped i);
  if (maximum_events =? 0) || (maximum_bytes <? encoded_bytes)
  then Some (MkInbox events total (saturating_add u64_max skipped 1) (in_closed i))
  else
    total' ← add_or_panic total encoded_bytes;
    Some (MkInbox (events ++ [MkQueued event encoded_bytes]) total' skipped (in_closed i)).

Inductive TryRecv :=
| Received (event : CdpEvent)
| Lagged (skipped : Z)
| Closed
| Empty.

Definition try_recv (i : InboxState) : option (TryRecv * InboxState) :=
  if negb (in_skipped i =? 0)
  then Some (Lagged (in_skipped i), MkInbox (in_events i) (in_encoded_bytes i) 0 (in_closed i))
  else
    match in_events i with
    | queued :: rest =>
        total ← sub_or_panic (in_encoded_bytes i) (q_encoded_bytes queued);
        Some (Received (q_event queued), MkInbox rest total (in_skipped i) (in_closed i))
    | [] => Some (if in_closed i then Closed else Empty, i)
    end.

Definition pending_len (i : InboxState) : Z :=
  Z.of_nat (length (in_events i)) + (if in_skipped i =? 0 then 0 else 1).

(** ** Senders and subscribers *)

Record Hub := MkHub {
  hub_inboxes : gmap nat InboxState;
  hub_next : nat;
  hub_receivers : list nat;
  hub_closed : bool;
  hub_maximum_events : Z;
  hub_maximum_bytes : Z;
}.

Definition sender_new (maximum_events maximum_bytes : Z) : Hub :=
  MkHub ∅ 0 [] false maximum_events maximum_bytes.

Definition set_inboxes (m : gmap nat InboxState) (h : Hub) : Hub :=
  MkHub m (hub_next h) (hub_receivers h) (hub_closed h) (hub_maximum_events h) (hub_maximum_bytes h).

(** [Weak::strong_count() != 0]. *)
Definition alive (m : gmap nat InboxState) (id : nat) : bool := bool_decide (is_Some (m !! id)).

Definition subscribe (h : Hub) : nat * Hub :=
  let id := hub_next h in
  if hub_closed h
  then (id, MkHub (<[id := inbox_close inbox_new]> (hub_inboxes h)) (S id) (hub_receivers h)
              (hub_closed h) (hub_maximum_events h) (hub_maximum_bytes h))
  else (id, MkHub (<[id := inbox_new]> (hub_inboxes h)) (S id)
              (List.filter (alive (hub_inboxes h)) (hub_receivers h) ++ [id])
              (hub_closed h) (hub_maximum_events h) (hub_maximum_bytes h)).

Definition receiver_count (h : Hub) : nat :=
  length (List.filter (alive (hub_inboxes h)) (hub_receivers h)).

(** The [retain] of [send]: push into every inbox that is alive, forget the
    others, count. *)
Fixpoint deliver (event : CdpEvent) (encoded_bytes maximum_events maximum_bytes : Z)
    (receivers : list nat) (m : gmap nat InboxState) (count : nat)
  : option (list nat * gmap nat InboxState * nat) :=
  match receivers with
  | [] => Some ([], m, count)
  | id :: rest =>
      match m !! id with
      | None => deliver event encoded_bytes maximum_events maximum_bytes rest m count
      | Some i =>
          i' ← push event encoded_bytes maximum_events maximum_bytes i;
          '(kept, m', count') ←
            deliver event encoded_bytes maximum_events maximum_bytes rest (<[id := i']> m) (S count);
          Some (id :: kept, m', count')
      end
  end.

(** [Err] carries the event back. *)
Definition send (event : CdpEvent) (encoded_bytes : Z) (h : Hub)
  : option (result CdpEvent nat * Hub) :=
  if hub_closed h then Some (Err event, h)
  else
    '(kept, m, count) ←
      deliver event encoded_bytes (hub_maximum_events h) (hub_maximum_bytes h)
        (hub_receivers h) (hub_inboxes h) 0;
    let h' := MkHub m (hub_next h) kept (hub_closed h) (hub_maximum_events h) (hub_maximum_bytes h) in
    Some (if Nat.eqb count 0 then Err event else Ok count, h').

(** [SubscriberState::close], also run when the last sender is dropped. *)
Definition close (h : Hub) : Hub :=
  MkHub (foldr (fun id m => alter inbox_close id m) (hub_inboxes h) (hub_receivers h))
    (hub_next h) [] true (hub_maximum_events h) (hub_maximum_bytes h).

(** Dropping a receiver ends its inbox. *)
Definition drop_receiver (id : nat) (h : Hub) : Hub := set_inboxes (delete id (hub_inboxes h)) h.

Definition receiver_try_recv (id : nat) (h : Hub) : option (option TryRecv * Hub) :=
  match hub_inboxes h !! id with
  | None => Some (None, h)
  | Some i =>
      '(r, i') ← try_recv i;
      Some (Some r, set_inboxes (<[id := i']> (hub_inboxes h)) h)
  end.

(** ** The bounds of an inbox *)

Fixpoint queued_bytes (l : list QueuedEvent) : Z :=
  match l with [] => 0 | q :: l' => q_encoded_bytes q + queued_bytes l' end.

Definition fits (me mb : Z) (l : list QueuedEvent) : bool :=
  (Z.of_nat (length l) <=? me) && (queued_bytes l <=? mb).

Record inbox_ok (me mb : Z) (i : InboxState) : Prop := {
  io_total : in_encoded_bytes i = queued_bytes (in_events i);
  io_sizes : Forall (fun q => 0 <= q_encoded_bytes q) (in_events i);
  io_fits : fits me mb (in_events i) = true;
  io_skipped : 0 <= in_skipped i <= u64_max;
}.

(** The reference: the longest suffix that fits. *)
Fixpoint newest (me mb : Z) (l : list QueuedEvent) : list QueuedEvent :=
  if fits me mb l then l else match l with [] => [] | _ :: rest => newest me mb rest end.

Lemma queued_bytes_app l1 l2 : queued_bytes (l1 ++ l2) = queued_bytes l1 + queued_bytes l2.
Proof. induction l1; simpl; lia. Qed.

Lemma queued_bytes_nonneg l : Forall (fun q => 0 <= q_encoded_bytes q) l -> 0 <= queued_bytes l.
Proof. induction 1; simpl; lia. Qed.

Lemma newest_suffix me mb l : newest me mb l `suffix_of` l.
Proof.
  induction l as [|q l IH]; simpl; destruct (fits _ _ _); try done.
  by apply suffix_cons_r.
Qed.

Lemma newest_fits me mb l : 0 <= me -> 0 <= mb -> fits me mb (newest me mb l) = true.
Proof.
  intros Hme Hmb.
  assert (H0 : fits me mb [] = true) by (unfold fits; simpl; rewrite andb_true_iff, !Z.leb_le; lia).
  induction l as [|q l IH]; simpl; [by rewrite H0|].
  destruct (fits me mb (q :: l)) eqn:E; [exact E|exact IH].
Qed.

(** The test of the loop is that the queue with the new event does not fit. *)
Lemma evict_test me mb n events event :
  Forall (fun q => 0 <= q_encoded_bytes q) events -> 0 <= n -> 0 <= mb ->
  queued_bytes events <= mb ->
  (me <=? Z.of_nat (length events)) || (saturating_sub mb (queued_bytes events) <? n) =
  negb (fits me mb (events ++ [MkQueued event n])).
Proof.
  intros Hs Hn Hmb Hq. apply queued_bytes_nonneg in Hs. unfold fits, saturating_sub.
  rewrite length_app, queued_bytes_app; simpl.
  destruct (Z.leb_spec me (Z.of_nat (length events))),
    (Z.ltb_spec (Z.max 0 (mb - queued_bytes events)) n),
    (Z.leb_spec (Z.of_nat (length events + 1)) me),
    (Z.leb_spec (queued_bytes events + (n + 0)) mb); simpl; try done; lia.
Qed.

(** The loop computes the longest fitting suffix, dropping the new event last. *)
Lemma evict_spec me mb n event events skipped :
  Forall (fun q => 0 <= q_encoded_bytes q) events -> 0 <= n -> 0 <= mb -> 0 <= me ->
  queued_bytes events <= mb -> 0 <= skipped <= u64_max ->
  exists kept lost, events = lost ++ kept /\
    evict me mb n events (queued_bytes events) skipped =
      Some (kept, queued_bytes kept, saturating_add u64_max skipped (Z.of_nat (length lost))) /\
    newest me mb (events ++ [MkQueued event n]) =
      (if (me =? 0) || (mb <? n) then [] else kept ++ [MkQueued event n]) /\
    ((me =? 0) || (mb <? n) = true -> kept = []).
Proof.
  intros Hs Hn Hmb Hme. revert skipped. induction Hs as [|q events Hq Hs IH]; intros skipped Hb Hsk.
  - assert (Hf : fits me mb [MkQueued event n] = negb ((me =? 0) || (mb <? n))).
    { unfold fits; simpl. change (Z.of_nat 1) with 1.
      destruct (Z.eqb_spec me 0), (Z.ltb_spec mb n), (Z.leb_spec 1 me),
        (Z.leb_spec (n + 0) mb); simpl; lia || done. }
    exists [], []. split; [done|]. simpl. split.
    { rewrite saturating_add_0 by lia. by case_match. }
    rewrite Hf. clear Hf. split; [|done]. destruct (_ || _); simpl; [by destruct (fits me mb [])|done].
  - assert (Hqs := queued_bytes_nonneg _ Hs). simpl in Hb.
    assert (Ht := evict_test me mb n (q :: events) event). cbn -[saturating_sub fits] in Ht |- *.
    rewrite Ht; [|by constructor|done|done|simpl; lia]. clear Ht.
    destruct (fits me mb (q :: events ++ [MkQueued event n])) eqn:Hf; simpl.
    + exists (q :: events), []. split; [done|]. split.
      { simpl. by rewrite saturating_add_0 by lia. }
      assert (Hz : (me =? 0) || (mb <? n) = false).
      { unfold fits in Hf. bool_facts. simpl in *. rewrite queued_bytes_app in *; simpl in *.
        destruct (Z.eqb_spec me 0), (Z.ltb_spec mb n); simpl; try done; lia. }
      by rewrite Hz.
    + unfold sub_or_panic. rewrite (proj2 (Z.leb_le _ _)) by lia. simpl.
      replace (q_encoded_bytes q + queued_bytes events - q_encoded_bytes q) with (queued_bytes events) by lia.
      destruct (IH (saturating_add u64_max skipped 1)) as (kept & lost & -> & He & Hw & Hz);
        [lia|unfold saturating_add; lia|].
      exists kept, (q :: lost). split; [done|]. split.
      { rewrite He, saturating_add_assoc by lia. do 2 f_equal. f_equal. simpl length. lia. }
      done.
Qed.

(** One push on an inbox within bounds: no panic, the newest events that fit
    are kept, everything dropped is older and is counted. *)
Lemma push_spec me mb n event i :
  inbox_ok me mb i -> 0 <= n -> 0 <= me -> 0 <= mb <= usize_max ->
  exists i' lost, push event n me mb i = Some i' /\ inbox_ok me mb i' /\
    in_events i ++ [MkQueued event n] = lost ++ in_events i' /\
    in_events i' = newest me mb (in_events i ++ [MkQueued event n]) /\
    in_skipped i' = saturating_add u64_max (in_skipped i) (Z.of_nat (length lost)) /\
    in_closed i' = in_closed i.
Proof.
  intros [Ht Hs Hf Hk] Hn Hme Hmb.
  assert (Hb : queued_bytes (in_events i) <= mb) by (unfold fits in Hf; by bool_facts).
  destruct (evict_spec me mb n event (in_events i) (in_skipped i))
    as (kept & lost & Hl & He & Hw & Hz); try done; [lia|].
  unfold push. rewrite Ht, He. cbn -[newest saturating_add].
  assert (Hfit := newest_fits me mb (in_events i ++ [MkQueued event n]) Hme (proj1 Hmb)).
  rewrite Hw in Hfit. rewrite Hl in Hs. apply Forall_app in Hs as [Hs1 Hs2].
  destruct ((me =? 0) || (mb <? n)) eqn:E.
  - rewrite (Hz eq_refl) in *. eexists _, (lost ++ [MkQueued event n]). split; [done|].
    rewrite Hw, Hl. repeat split; simpl; try done; try (unfold saturating_add; lia).
    + by rewrite !app_nil_r.
    + unfold saturating_add. rewrite length_app; simpl. lia.
  - unfold fits in Hfit. bool_facts. rewrite queued_bytes_app in *; simpl in *.
    unfold add_or_panic. rewrite checked_add_fits by lia. simpl.
    eexists _, lost. split; [done|]. rewrite Hw, Hl. repeat split; simpl; try done.
    + rewrite queued_bytes_app; simpl. lia.
    + apply Forall_app. split; [done|]. by repeat constructor.
    + unfold fits. rewrite !(proj2 (Z.leb_le _ _)); [done| |done].
      rewrite queued_bytes_app; simpl; lia.
    + unfold saturating_add; lia.
    + unfold saturating_add; lia.
    + by rewrite <- app_assoc.
Qed.

Lemma try_recv_spec me mb i :
  inbox_ok me mb i -> 0 <= me ->
  exists r i', try_recv i = Some (r, i') /\ inbox_ok me mb i' /\ in_closed i' = in_closed i /\
    match r with
    | Lagged n => n = in_skipped i /\ n <> 0 /\ in_skipped i' = 0 /\ in_events i' = in_events i
    | Received e => in_skipped i = 0 /\ in_skipped i' = 0 /\
        exists n, in_events i = MkQueued e n :: in_events i'
    | Closed => i' = i /\ in_skipped i = 0 /\ in_events i = [] /\ in_closed i = true
    | Empty => i' = i /\ in_skipped i = 0 /\ in_events i = [] /\ in_closed i = false
    end.
Proof.
  intros [Ht Hs Hf Hk] Hme. unfold try_recv.
  destruct (Z.eqb_spec (in_skipped i) 0) as [E|E]; simpl.
  - destruct (in_events i) as [|[e n] rest] eqn:Ev.
    + eexists _, i. split; [done|]. split; [by split; rewrite ?Ev|].
      destruct (in_closed i) eqn:Ec; simpl; auto.
    + apply Forall_cons_iff in Hs as [Hn Hs]. simpl in *. assert (0 <= queued_bytes rest) by
        by apply queued_bytes_nonneg.
      unfold sub_or_panic. rewrite (proj2 (Z.leb_le _ _)) by lia. simpl.
      eexists _, _. split; [done|]. unfold fits in *. bool_facts. simpl in *.
      repeat split; simpl; try done; try lia; [|by exists n].
      unfold fits. rewrite !(proj2 (Z.leb_le _ _)); [done|lia|lia].
  - eexists _, _. split; [done|]. simpl. repeat split; simpl; try done; lia.
Qed.

(** ** Accounting

    What a receiver has been told explains a sequence of events: an event
    explains itself, [Lagged n] any [n] events. *)
Inductive explains : list TryRecv -> list CdpEvent -> Prop :=
| explains_nil : explains [] []
| explains_event told seen e : explains told seen -> explains (told ++ [Received e]) (seen ++ [e])
| explains_lagged told seen gap :
    explains told seen -> explains (told ++ [Lagged (Z.of_nat (length gap))]) (seen ++ gap)
| explains_empty told seen : explains told seen -> explains (told ++ [Empty]) seen
| explains_closed told seen : explains told seen -> explains (told ++ [Closed]) seen.

(** The events sent to a receiver are those it has been told of, then the ones
    its inbox counts as skipped, then the ones its inbox holds. *)
Definition accounted (sent : list CdpEvent) (told : list TryRecv) (i : InboxState) : Prop :=
  exists seen gap, explains told seen /\ Z.of_nat (length gap) = in_skipped i /\
    sent = seen ++ gap ++ map q_event (in_events i).

Lemma accounted_push me mb n event i i' sent told :
  inbox_ok me mb i -> 0 <= n -> 0 <= me -> 0 <= mb <= usize_max ->
  Z.of_nat (length sent) < u64_max ->
  push event n me mb i = Some i' -> accounted sent told i ->
  accounted (sent ++ [event]) told i'.
Proof.
  intros Hi Hn Hme Hmb Hlen Hp (seen & gap & He & Hg & ->).
  destruct (push_spec me mb n event i) as (j & lost & Hj & _ & Hl & _ & Hk & _); try done.
  rewrite Hp in Hj. injection Hj as <-.
  exists seen, (gap ++ map q_event lost). split; [done|].
  assert (Hlost : (length lost <= S (length (in_events i)))%nat).
  { apply (f_equal length) in Hl. rewrite !length_app in Hl. simpl in Hl. lia. }
  rewrite !length_app, length_map in *. split; [rewrite Hk; unfold saturating_add; lia|].
  apply (f_equal (map q_event)) in Hl. rewrite !map_app in Hl. simpl in Hl.
  rewrite <- !app_assoc, Hl. done.
Qed.

Lemma accounted_recv i i' r sent told :
  try_recv i = Some (r, i') -> accounted sent told i -> accounted sent (told ++ [r]) i'.
Proof.
  intros Hr (seen & gap & He & Hg & ->). unfold try_recv in Hr.
  destruct (Z.eqb_spec (in_skipped i) 0) as [E|E]; simpl in Hr.
  - rewrite E in Hg. apply Nat2Z.inj with (m := 0%nat), nil_length_inv in Hg. subst gap. simpl.
    destruct (in_events i) as [|[e n] rest] eqn:Ev.
    + injection Hr as <- <-. exists seen, []. rewrite Ev, E.
      split; [|done]. destruct (in_closed i); by constructor.
    + destruct (sub_or_panic _ _); [|done]. injection Hr as <- <-. simpl.
      exists (seen ++ [e]), []. split; [by constructor|]. simpl. split; [done|].
      by rewrite <- app_assoc.
  - injection Hr as <- <-. simpl. exists (seen ++ gap), []. rewrite <- Hg.
    split; [by constructor|]. split; [done|]. by rewrite <- app_assoc.
Qed.

(** ** Histories of a hub *)

Definition hub_bounded (h : Hub) : Prop :=
  0 <= hub_maximum_events h /\ 0 <= hub_maximum_bytes h <= usize_max.

(** Every live inbox is pushed once; the others stay as they are. *)
Lemma deliver_spec e n me mb receivers m count :
  0 <= n -> 0 <= me -> 0 <= mb <= usize_max -> NoDup receivers ->
  (forall id i, m !! id = Some i -> inbox_ok me mb i) ->
  exists m',
    deliver e n me mb receivers m count =
      Some (List.filter (alive m) receivers, m',
            (count + length (List.filter (alive m) receivers))%nat) /\
    forall id, m' !! id = if decide (id ∈ receivers) then m !! id ≫= push e n me mb else m !! id.
Proof.
  intros Hn Hme Hmb Hnd Hok. revert m count Hok.
  induction Hnd as [|id receivers Hid Hnd IH]; intros m count Hok; simpl.
  { exists m. split; [by rewrite Nat.add_0_r|done]. }
  destruct (m !! id) as [i|] eqn:Ei; simpl.
  - assert (Hal : alive m id = true) by (apply bool_decide_eq_true_2; by rewrite Ei).
    rewrite Hal. destruct (push_spec me mb n e i) as (i' & _ & Hp & Hi' & _); [by eapply Hok|done..|].
    rewrite Hp. simpl.
    assert (Ha : List.filter (alive (<[id := i']> m)) receivers = List.filter (alive m) receivers).
    { apply filter_ext_in. intros id' Hin%list_elem_of_In. unfold alive.
      rewrite lookup_insert_ne; [done|]. by intros ->. }
    destruct (IH (<[id := i']> m) (S count)) as (m' & Hd & Hm').
    { intros id' j. rewrite lookup_insert. case_decide; [by intros [= <-]|by apply Hok]. }
    rewrite Hd, Ha. exists m'. split.
    { simpl. do 2 f_equal. lia. }
    intros id'. rewrite Hm', lookup_insert. destruct (decide (id = id')) as [<-|Hne].
    + rewrite (decide_False (P := id ∈ receivers)) by done.
      rewrite decide_True by set_solver. rewrite Ei. simpl. by rewrite Hp.
    + destruct (decide (id' ∈ receivers)), (decide (id' ∈ id :: receivers)); set_solver.
  - assert (Hal : alive m id = false)
      by (apply bool_decide_eq_false_2; rewrite Ei; by intros [? ?]).
    rewrite Hal. destruct (IH m count Hok) as (m' & Hd & Hm'). exists m'. split; [exact Hd|].
    intros id'. rewrite Hm'. destruct (decide (id' = id)) as [->|Hne].
    + rewrite decide_False, decide_True by set_solver. by rewrite Ei.
    + destruct (decide (id' ∈ receivers)), (decide (id' ∈ id :: receivers)); set_solver.
Qed.

Lemma close_lookup receivers (m : gmap nat InboxState) id :
  NoDup receivers ->
  foldr (fun id m => alter inbox_close id m) m receivers !! id =
  if decide (id ∈ receivers) then inbox_close <$> m !! id else m !! id.
Proof.
  induction 1 as [|x receivers Hx Hnd IH]; simpl; [done|].
  destruct (decide (x = id)) as [->|Hne].
  - rewrite lookup_alter_eq, IH, decide_False, decide_True by set_solver. done.
  - rewrite lookup_alter_ne, IH by done.
    destruct (decide (id ∈ receivers)), (decide (id ∈ x :: receivers)); set_solver.
Qed.

Inductive HubOp :=
| OpSubscribe
| OpSend (event : CdpEvent) (encoded_bytes : Z)
| OpClose
| OpDrop (id : nat)
| OpRecv (id : nat).

(** For each live receiver, the events sent since it subscribed and the answers
    it was given. *)
Abbreviation Log := (gmap nat (list CdpEvent * list TryRecv)).

Definition hub_step (op : HubOp) (hl : Hub * Log) : option (Hub * Log) :=
  let (h, log) := hl in
  match op with
  | OpSubscribe => let (id, h') := subscribe h in Some (h', <[id := ([], [])]> log)
  | OpSend e n =>
      '(_, h') ← send e n h;
      Some (h', if hub_closed h then log else (fun '(sent, told) => (sent ++ [e], told)) <$> log)
  | OpClose => Some (close h, log)
  | OpDrop id => Some (drop_receiver id h, delete id log)
  | OpRecv id =>
      '(r, h') ← receiver_try_recv id h;
      Some (h', match r with
                | None => log
                | Some r => alter (fun '(sent, told) => (sent, told ++ [r])) id log
                end)
  end.

Fixpoint hub_run (ops : list HubOp) (hl : Hub * Log) : option (Hub * Log) :=
  match ops with
  | [] => Some hl
  | op :: rest => hl' ← hub_step op hl; hub_run rest hl'
  end.

Definition op_in_range (op : HubOp) : Prop :=
  match op with OpSend _ n => 0 <= n | _ => True end.

(** A receiver's inbox against its log, with at most [k] events sent. *)
Definition receiver_ok (me mb : Z) (closed : bool) (k : nat)
    (entry : list CdpEvent * list TryRecv) (i : InboxState) : Prop :=
  inbox_ok me mb i /\ in_closed i = closed /\ (length (fst entry) <= k)%nat /\
  accounted (fst entry) (snd entry) i.

Record hub_ok (k : nat) (h : Hub) (log : Log) : Prop := {
  ho_bounds : hub_bounded h;
  ho_receivers : NoDup (hub_receivers h);
  ho_next id : id ∈ hub_receivers h \/ is_Some (hub_inboxes h !! id) -> (id < hub_next h)%nat;
  ho_registered id : is_Some (hub_inboxes h !! id) ->
    if hub_closed h then id ∉ hub_receivers h else id ∈ hub_receivers h;
  ho_logged id :
    option_Forall2 (receiver_ok (hub_maximum_events h) (hub_maximum_bytes h) (hub_closed h) k)
      (log !! id) (hub_inboxes h !! id);
}.

Lemma inbox_new_ok me mb : 0 <= me -> 0 <= mb -> inbox_ok me mb inbox_new.
Proof.
  intros. split; simpl; try done.
  unfold fits; simpl. rewrite andb_true_iff, !Z.leb_le. lia.
Qed.

Lemma inbox_close_ok me mb i : inbox_ok me mb i -> inbox_ok me mb (inbox_close i).
Proof. by intros []. Qed.

Lemma accounted_start b : accounted [] [] (MkInbox [] 0 0 b).
Proof. exists [], []. split; [constructor|done]. Qed.

Lemma hub_ok_inbox k h log id i :
  hub_ok k h log -> hub_inboxes h !! id = Some i -> exists entry,
    log !! id = Some entry /\
    receiver_ok (hub_maximum_events h) (hub_maximum_bytes h) (hub_closed h) k entry i.
Proof.
  intros Hok Hi. assert (H := ho_logged _ _ _ Hok id). rewrite Hi in H.
  inversion H; subst; eauto.
Qed.

Lemma subscribe_ok k h log :
  hub_ok k h log -> hub_ok k (snd (subscribe h)) (<[fst (subscribe h) := ([], [])]> log).
Proof.
  intros [[Hb1 Hb2] Hr Hn Hg Hl]. unfold subscribe.
  assert (Hnew : hub_next h ∉ hub_receivers h) by (intros Hin; specialize (Hn (hub_next h)); naive_solver lia).
  assert (Hfilter : forall id, id ∈ List.filter (alive (hub_inboxes h)) (hub_receivers h) ->
            id ∈ hub_receivers h).
  { intros id. rewrite !list_elem_of_In, filter_In. naive_solver. }
  destruct (hub_closed h) eqn:Ec; simpl; split; simpl; try done.
  - intros id [Hin|Hs]; [by eapply Nat.lt_trans; [apply Hn; left|lia]|].
    rewrite lookup_insert in Hs. case_decide; [lia|]. assert (id < hub_next h)%nat by eauto. lia.
  - intros id. rewrite lookup_insert. case_decide; [by subst|apply Hg].
  - intros id. rewrite !lookup_insert. case_decide; [|apply Hl].
    constructor. split; [apply inbox_close_ok, inbox_new_ok; lia|].
    repeat split; simpl; try lia. apply accounted_start.
  - apply list.NoDup_app. split; [by apply NoDup_ListNoDup, List.NoDup_filter, NoDup_ListNoDup|].
    split; [|by repeat constructor; set_solver]. intros id Hin%Hfilter. set_solver.
  - intros id [Hin|Hs].
    + apply elem_of_app in Hin as [Hin%Hfilter|Hin%list_elem_of_singleton]; [|lia].
      assert (id < hub_next h)%nat by eauto. lia.
    + rewrite lookup_insert in Hs. case_decide; [lia|]. assert (id < hub_next h)%nat by eauto. lia.
  - intros id. rewrite lookup_insert. case_decide; [set_solver|]. intros Hs.
    apply elem_of_app. left. rewrite list_elem_of_In, filter_In, <- list_elem_of_In.
    split; [by apply Hg|]. by apply bool_decide_eq_true_2.
  - intros id. rewrite !lookup_insert. case_decide; [|apply Hl].
    constructor. split; [apply inbox_new_ok; lia|].
    repeat split; simpl; try lia. apply accounted_start.
Qed.

Lemma receiver_ok_mono me mb c k k' entry i :
  (k <= k')%nat -> receiver_ok me mb c k entry i -> receiver_ok me mb c k' entry i.
Proof. intros ? (? & ? & ? & ?). split; [done|]. split; [done|]. split; [lia|done]. Qed.

Lemma send_ok k h log e n :
  hub_ok k h log -> 0 <= n -> Z.of_nat k < u64_max ->
  exists r h', send e n h = Some (r, h') /\
    hub_ok (S k) h' (if hub_closed h then log
                     else (fun '(sent, told) => (sent ++ [e], told)) <$> log) /\
    r = (if hub_closed h || Nat.eqb (receiver_count h) 0 then Err e else Ok (receiver_count h)).
Proof.
  intros Hok Hn Hk. assert (Hin := fun id i => hub_ok_inbox k h log id i Hok).
  destruct Hok as [[Hb1 Hb2] Hr Hnx Hg Hl]. unfold send, receiver_count.
  destruct (hub_closed h) eqn:Ec.
  { eexists _, h. split; [done|]. split; [|done]. split; try done; rewrite Ec; try done.
    intros id. specialize (Hl id). destruct Hl; constructor. eapply receiver_ok_mono; [|done]. lia. }
  destruct (deliver_spec e n (hub_maximum_events h) (hub_maximum_bytes h) (hub_receivers h)
              (hub_inboxes h) 0) as (m' & Hd & Hm'); try done.
  { intros id i Hi. destruct (Hin id i Hi) as (? & _ & ? & _). done. }
  rewrite Hd. simpl. eexists _, _. split; [done|]. split; [|done].
  assert (Hdom : forall id, is_Some (m' !! id) -> is_Some (hub_inboxes h !! id)).
  { intros id. rewrite Hm'. destruct (hub_inboxes h !! id); [done|]. by case_decide. }
  split; simpl; try done.
  - by apply NoDup_ListNoDup, List.NoDup_filter, NoDup_ListNoDup.
  - intros id [Hx|Hx]; apply Hnx; [|auto]. left. revert Hx. rewrite !list_elem_of_In, filter_In. naive_solver.
  - intros id Hx%Hdom. rewrite list_elem_of_In, filter_In, <- list_elem_of_In.
    split; [by apply Hg|]. by apply bool_decide_eq_true_2.
  - intros id. rewrite lookup_fmap, Hm'. specialize (Hl id).
    destruct (hub_inboxes h !! id) as [i|] eqn:Ei; [|inversion Hl; by case_decide; constructor].
    rewrite decide_True by (apply Hg; by rewrite Ei).
    inversion Hl as [[sent told] ? (Hi & Hc & Hlen & Hacc) E1 E2|]; subst. simpl in *.
    destruct (push_spec (hub_maximum_events h) (hub_maximum_bytes h) n e i)
      as (i' & _ & Hp & Hi' & _ & _ & _ & Hc'); try done.
    rewrite Hp. constructor. split; [done|]. split; [congruence|].
    simpl. split; [rewrite length_app; simpl; lia|].
    eapply (accounted_push _ _ _ _ i); try done. lia.
Qed.

Lemma close_ok k h log : hub_ok k h log -> hub_ok k (close h) log.
Proof.
  intros [Hb Hr Hn Hg Hl]. unfold close.
  assert (Hdom : forall id, is_Some (foldr (fun id m => alter inbox_close id m) (hub_inboxes h)
                                      (hub_receivers h) !! id) -> is_Some (hub_inboxes h !! id)).
  { intros id. rewrite close_lookup by done. destruct (hub_inboxes h !! id); [done|]. by case_decide. }
  split; simpl; try done.
  - constructor.
  - intros id [Hx|Hx]; [set_solver|auto].
  - intros id _. set_solver.
  - intros id. rewrite close_lookup by done. specialize (Hl id). specialize (Hg id).
    destruct (hub_inboxes h !! id) as [i|] eqn:Ei; [|inversion Hl; by case_decide; constructor].
    inversion Hl as [[sent told] ? (Hi & Hc & Hlen & Hacc) E1 E2|]; subst.
    case_decide as Hd; simpl; constructor.
    + split; [by apply inbox_close_ok|]. split; [done|]. split; [done|exact Hacc].
    + split; [done|]. split; [|done]. destruct (hub_closed h); [done|]. destruct Hd. by apply Hg.
Qed.

Lemma drop_ok k h log id : hub_ok k h log -> hub_ok k (drop_receiver id h) (delete id log).
Proof.
  intros [Hb Hr Hn Hg Hl]. unfold drop_receiver.
  assert (Hdom : forall id', is_Some (delete id (hub_inboxes h) !! id') -> is_Some (hub_inboxes h !! id')).
  { intros id' [i [_ Hi]%lookup_delete_Some]. eauto. }
  split; simpl; try done.
  - naive_solver.
  - intros id' Hx. by apply Hg, Hdom.
  - intros id'. rewrite !lookup_delete. case_decide; [constructor|apply Hl].
Qed.

Lemma recv_ok k h log id :
  hub_ok k h log -> exists r h', receiver_try_recv id h = Some (r, h') /\
    hub_ok k h' (match r with
                 | None => log
                 | Some r => alter (fun '(sent, told) => (sent, told ++ [r])) id log
                 end).
Proof.
  intros Hok. unfold receiver_try_recv.
  destruct (hub_inboxes h !! id) as [i|] eqn:Ei; [|by eexists _, h].
  destruct (hub_ok_inbox _ _ _ _ _ Hok Ei) as ([sent told] & Hlog & Hi & Hc & Hlen & Hacc).
  destruct Hok as [[Hb1 Hb2] Hr Hn Hg Hl].
  destruct (try_recv_spec (hub_maximum_events h) (hub_maximum_bytes h) i Hi Hb1)
    as (r & i' & Hrecv & Hi' & Hc' & _).
  rewrite Hrecv. simpl. eexists _, _. split; [done|].
  assert (Hdom : forall id', is_Some (<[id := i']> (hub_inboxes h) !! id') -> is_Some (hub_inboxes h !! id')).
  { intros id'. rewrite lookup_insert. case_decide; [by subst; rewrite Ei|done]. }
  split; simpl; try done.
  - naive_solver.
  - intros id' Hx. by apply Hg, Hdom.
  - intros id'. rewrite lookup_insert. destruct (decide (id = id')) as [<-|Hne].
    + rewrite lookup_alter_eq, Hlog. simpl. constructor.
      split; [done|]. split; [congruence|]. split; [done|]. simpl. by eapply accounted_recv.
    + rewrite lookup_alter_ne by done. apply Hl.
Qed.

Lemma hub_step_ok k h log op :
  hub_ok k h log -> op_in_range op -> Z.of_nat k < u64_max ->
  exists h' log', hub_step op (h, log) = Some (h', log') /\ hub_ok (S k) h' log'.
Proof.
  intros Hok Hop Hk.
  assert (Hmono : forall h' log', hub_ok k h' log' -> hub_ok (S k) h' log').
  { intros h' log' [? ? ? ? Hl]. split; try done. intros id. specialize (Hl id).
    destruct Hl; constructor. eapply receiver_ok_mono; [|done]. lia. }
  destruct op as [|e n| |id|id]; simpl.
  - assert (H := subscribe_ok k h log Hok). destruct (subscribe h) as [id h']. eauto.
  - destruct (send_ok k h log e n) as (r & h' & Hs & Hok' & _); try done. rewrite Hs. simpl. eauto.
  - eexists _, _. split; [done|]. by apply Hmono, close_ok.
  - eexists _, _. split; [done|]. by apply Hmono, drop_ok.
  - destruct (recv_ok k h log id Hok) as (r & h' & Hs & Hok'). rewrite Hs. simpl. eauto.
Qed.

Lemma hub_run_ok ops k h log :
  hub_ok k h log -> Forall op_in_range ops -> Z.of_nat (k + length ops) <= u64_max ->
  exists h' log', hub_run ops (h, log) = Some (h', log') /\ hub_ok (k + length ops) h' log'.
Proof.
  intros Hok Hops. revert k h log Hok.
  induction Hops as [|op ops Hop Hops IH]; intros k h log Hok Hk; cbn [hub_run length] in *.
  - rewrite Nat.add_0_r. eauto.
  - destruct (hub_step_ok k h log op) as (h' & log' & Hs & Hok'); [done|done|lia|].
    rewrite Hs. simpl. destruct (IH (S k) h' log') as (h2 & log2 & Hr & Hok2); [done|lia|].
    exists h2, log2. split; [done|]. by replace (k + S (length ops))%nat with (S k + length ops)%nat by lia.
Qed.

Lemma hub_new_ok me mb : 0 <= me -> 0 <= mb <= usize_max -> hub_ok 0 (sender_new me mb) ∅.
Proof.
  intros. split; simpl; try done; [constructor|intros id [?|[? ?]]; set_solver| |].
  - by intros id [? ?].
  - intros id. rewrite !lookup_empty. constructor.
Qed.

(** The limits of a hub never change. *)
Lemma hub_step_limits op h log h' log' :
  hub_step op (h, log) = Some (h', log') ->
  hub_maximum_events h' = hub_maximum_events h /\ hub_maximum_bytes h' = hub_maximum_bytes h.
Proof.
  destruct op as [|e n| |id|id]; simpl.
  - unfold subscribe. destruct (hub_closed h); by intros [= <- <-].
  - unfold send. destruct (hub_closed h); [by intros [= <- <-]|].
    destruct (deliver _ _ _ _ _ _ _) as [[[kept m] c]|]; [|done]. by intros [= <- <-].
  - by intros [= <- <-].
  - by intros [= <- <-].
  - unfold receiver_try_recv. destruct (hub_inboxes h !! id); [|by intros [= <- <-]].
    destruct (try_recv _) as [[r i']|]; [|done]. by intros [= <- <-].
Qed.

Lemma hub_run_limits ops h log h' log' :
  hub_run ops (h, log) = Some (h', log') ->
  hub_maximum_events h' = hub_maximum_events h /\ hub_maximum_bytes h' = hub_maximum_bytes h.
Proof.
  revert h log; induction ops as [|op ops IH]; intros h log; cbn [hub_run]; [by intros [= <- <-]|].
  destruct (hub_step op (h, log)) as [[h1 log1]|] eqn:E; [|done]. intros Hr%IH.
  apply hub_step_limits in E. intuition congruence.
Qed.

(** Take [n] answers from an inbox. *)
Fixpoint drain (n : nat) (i : InboxState) : option (list TryRecv * InboxState) :=
  match n with
  | O => Some ([], i)
  | S n' =>
      '(r, i1) ← try_recv i;
      '(rs, i2) ← drain n' i1;
      Some (r :: rs, i2)
  end.

Lemma newest_longest me mb l longer :
  longer `suffix_of` l -> fits me mb longer = true -> (length longer <= length (newest me mb l))%nat.
Proof.
  induction l as [|q l IH]; intros Hs Hf; simpl.
  - apply suffix_nil_inv in Hs. subst. simpl. lia.
  - destruct (fits me mb (q :: l)) eqn:E; [by apply suffix_length|].
    destruct longer as [|x longer]; [simpl; lia|].
    apply suffix_cons_inv in Hs as [[= -> ->]|Hs]; [congruence|auto].
Qed.

(** ** Properties *)

(** C35: Nothing is lost silently, reordered or duplicated: in every history of
    subscriptions, sends, receives, dropped receivers and closes, no operation
    panics, and for every live receiver the events sent since it subscribed are,
    in order, those its answers explain (an event for itself, [Lagged n] for [n]
    lost ones), then exactly as many as its inbox counts as skipped, then the
    events its inbox holds; its inbox stays within both bounds. *)
Theorem subscriptions_account me mb ops :
  0 <= me -> 0 <= mb <= usize_max -> Forall op_in_range ops ->
  Z.of_nat (length ops) <= u64_max ->
  exists h log, hub_run ops (sender_new me mb, ∅) = Some (h, log) /\
    forall id i, hub_inboxes h !! id = Some i ->
      exists sent told, log !! id = Some (sent, told) /\ accounted sent told i /\
        Z.of_nat (length (in_events i)) <= me /\ queued_bytes (in_events i) <= mb /\
        in_encoded_bytes i = queued_bytes (in_events i).
Proof.
  intros Hme Hmb Hops Hlen.
  destruct (hub_run_ok ops 0 (sender_new me mb) ∅) as (h & log & Hr & Hok);
    [by apply hub_new_ok|done|done|].
  exists h, log. split; [done|]. intros id i Hi.
  destruct (hub_ok_inbox _ _ _ _ _ Hok Hi) as ([sent told] & Hl & [Ht _ Hf _] & _ & _ & Hacc).
  exists sent, told. repeat (split; [done|]).
  assert (Hm : hub_maximum_events h = me /\ hub_maximum_bytes h = mb) by (by apply hub_run_limits in Hr).
  destruct Hm as [Hm1 Hm2]. rewrite Hm1, Hm2 in Hf. unfold fits in Hf. by bool_facts.
Qed.

(** A push keeps the longest run of newest events that fits the two bounds,
    and the events it drops are all older than the events it keeps. *)
Theorem push_keeps_newest me mb n event i :
  inbox_ok me mb i -> 0 <= n -> 0 <= me -> 0 <= mb <= usize_max ->
  exists i', push event n me mb i = Some i' /\ inbox_ok me mb i' /\
    in_events i' = newest me mb (in_events i ++ [MkQueued event n]) /\
    (forall longer, longer `suffix_of` (in_events i ++ [MkQueued event n]) ->
       fits me mb longer = true -> (length longer <= length (in_events i'))%nat).
Proof.
  intros Hi Hn Hme Hmb.
  destruct (push_spec me mb n event i) as (i' & lost & Hp & Hi' & _ & Hw & _); try done.
  exists i'. split; [done|]. split; [done|]. split; [done|]. rewrite Hw.
  apply newest_longest.
Qed.

(** Every subscriber gets every event and slow ones do not hold back the
    others: a send on an open hub answers with the number of live receivers (or
    returns the event when there is none), pushes the event into each live
    inbox and changes no other. *)
Theorem send_reaches_every_receiver k h log e n :
  hub_ok k h log -> 0 <= n -> Z.of_nat k < u64_max -> hub_closed h = false ->
  exists h', send e n h =
      Some (if Nat.eqb (receiver_count h) 0 then Err e else Ok (receiver_count h), h') /\
    forall id, hub_inboxes h' !! id =
      (hub_inboxes h !! id ≫= push e n (hub_maximum_events h) (hub_maximum_bytes h)).
Proof.
  intros Hok Hn Hk Hc. assert (Hs := send_ok k h log e n Hok Hn Hk).
  destruct Hs as (r & h' & Hs & _ & ->). rewrite Hc in *. simpl in *. exists h'. split; [done|].
  assert (Hin := fun id i => hub_ok_inbox k h log id i Hok).
  destruct Hok as [[Hb1 Hb2] Hr Hnx Hg Hl]. unfold send in Hs. rewrite Hc in Hs, Hg.
  destruct (deliver_spec e n (hub_maximum_events h) (hub_maximum_bytes h) (hub_receivers h)
              (hub_inboxes h) 0) as (m' & Hd & Hm'); try done.
  { intros id i Hi. destruct (Hin id i Hi) as (? & _ & ? & _). done. }
  rewrite Hd in Hs. simpl in Hs. injection Hs as <-. simpl. intros id. rewrite Hm'.
  case_decide as Hid; [done|]. destruct (hub_inboxes h !! id) eqn:E; [|done].
  destruct Hid. apply Hg. by rewrite E.
Qed.

(** Closing loses nothing: the receiver of a closed inbox is given what is
    left in it, in order, without a panic, and then [Closed] for ever. *)
Theorem closed_inbox_drains me mb i :
  inbox_ok me mb i -> 0 <= me -> in_closed i = true -> in_skipped i = 0 ->
  drain (length (in_events i)) i =
    Some (map (fun q => Received (q_event q)) (in_events i), MkInbox [] 0 0 true) /\
  try_recv (MkInbox [] 0 0 true) = Some (Closed, MkInbox [] 0 0 true).
Proof.
  intros Hi Hme Hc Hk. split; [|done]. revert i Hi Hc Hk.
  intros i. remember (length (in_events i)) as n eqn:Hn. revert i Hn.
  induction n as [|n IH]; intros i Hn Hi Hc Hk.
  - destruct Hi as [Ht _ _ _]. destruct i as [ev tot sk cl]; simpl in *. destruct ev; [|done].
    simpl in *. by subst.
  - destruct (try_recv_spec me mb i Hi Hme) as (r & i' & Hr & Hi' & Hc' & Hd).
    cbn [drain]. rewrite Hr. simpl.
    destruct r as [e|k| |]; [|naive_solver|destruct Hd as (_ & _ & He & _); by rewrite He in Hn..].
    destruct Hd as (_ & Hk' & b & He). rewrite He in *. simpl in *.
    rewrite (IH i'); [done|lia|done|congruence|done].
Qed.

End Queue.
Arguments Hub : clear implicits.
Arguments InboxState : clear implicits.
Arguments TryRecv : clear implicits.
Arguments QueuedEvent : clear implicits.

(** ** Witnesses *)

Definition sample_ops : list (HubOp (CdpEvent := nat)) :=
  [OpSubscribe; OpSend 1%nat 3; OpSubscribe; OpSend 2%nat 3; OpSend 3%nat 9; OpSend 4%nat 2;
   OpRecv 0%nat; OpRecv 0%nat; OpDrop 1%nat; OpSend 5%nat 2; OpClose; OpSend 6%nat 1; OpRecv 0%nat].

Definition sample_hub : Hub nat * gmap nat (list nat * list (TryRecv nat)) :=
  default (sender_new 8 5, ∅) (hub_run (take 4 sample_ops) (sender_new 8 5, ∅)).

Lemma subscriptions_account_witness :
  exists h log, hub_run sample_ops (sender_new 8 5, ∅) = Some (h, log) /\
    log !! 0%nat = Some ([1; 2; 3; 4; 5]%nat, [Lagged 3; Received 4%nat; Received 5%nat]) /\
    forall id i, hub_inboxes h !! id = Some i ->
      exists sent told, log !! id = Some (sent, told) /\ accounted sent told i.
Proof.
  destruct (subscriptions_account 8 5 sample_ops) as (h & log & Hr & Hacc).
  - lia.
  - ranges; lia.
  - repeat constructor; simpl; lia.
  - simpl; ranges; lia.
  - exists h, log. split; [exact Hr|]. split.
    + vm_compute in Hr. injection Hr as _ <-. vm_compute. reflexivity.
    + intros id i Hi. destruct (Hacc id i Hi) as (sent & told & H1 & H2 & _). eauto.
Defined.

Definition sample_inbox : InboxState nat := MkInbox [MkQueued 1%nat 3; MkQueued 2%nat 2] 5 0 true.

Lemma sample_inbox_ok : inbox_ok 8 6 sample_inbox.
Proof. split; simpl; try done. repeat constructor; simpl; lia. Qed.

Lemma push_keeps_newest_witness :
  exists i', push 7%nat 3 8 6 sample_inbox = Some i' /\
    in_events i' = [MkQueued 2%nat 2; MkQueued 7%nat 3].
Proof.
  destruct (push_keeps_newest 8 6 3 7%nat sample_inbox) as (i' & Hp & _ & Hw & _).
  - apply sample_inbox_ok.
  - lia.
  - lia.
  - ranges; lia.
  - exists i'. split; [exact Hp|]. rewrite Hw. reflexivity.
Defined.

Lemma sample_hub_ok : hub_ok 4 (fst sample_hub) (snd sample_hub).
Proof.
  destruct (hub_run_ok (take 4 sample_ops) 0 (sender_new 8 5) ∅) as (h & log & Hr & Hok).
  - apply hub_new_ok; ranges; lia.
  - repeat constructor; simpl; lia.
  - simpl; ranges; lia.
  - unfold sample_hub. rewrite Hr. exact Hok.
Qed.

Lemma send_reaches_every_receiver_witness :
  exists h', send 9%nat 1 (fst sample_hub) = Some (Ok 2%nat, h').
Proof.
  destruct (send_reaches_every_receiver 4 (fst sample_hub) (snd sample_hub) 9%nat 1)
    as (h' & Hs & _).
  - apply sample_hub_ok.
  - lia.
  - ranges; lia.
  - vm_compute. reflexivity.
  - exists h'. rewrite Hs. vm_compute. reflexivity.
Defined.

Lemma closed_inbox_drains_witness :
  drain 2 sample_inbox = Some ([Received 1%nat; Received 2%nat], MkInbox [] 0 0 true).
Proof.
  apply (closed_inbox_drains 8 6 sample_inbox).
  - apply sample_inbox_ok.
  - lia.
  - reflexivity.
  - reflexivity.
Defined.
