(* ===== verification/Network.v ===== *)
(** * The network guard

    Models [offprint-rs/browser/src/network.rs]: the classification of IPv4 and
    IPv6 addresses and the guard that admits or blocks URLs and DNS answers
    under a network policy.  The address predicates of the standard library
    ([is_private], [is_unique_local], ...) are written out as it defines them.
    URLs ([url]) enter as what their accessors return, CIDR networks ([ipnet])
    as an abstract type with its parser and membership test.

    The specification of the classification is the table of special-use blocks
    the source's tests quote, as prefixes of the 32 or 128 address bits. *)

From Stdlib Require Import ZArith Lia Ascii String Bool.
From stdpp Require Import base tactics list gmap strings numbers.
From S2P Require Import Prelude.
From S2P Require Import Errors.

#[local] Open Scope string_scope.
#[local] Open Scope list_scope.
#[local] Open Scope Z_scope.

(** ** Addresses *)

(** Four octets. *)
Record Ipv4Addr := V4 { oct0 : Z; oct1 : Z; oct2 : Z; oct3 : Z }.

(** [u128::from]: the 128 bits of the address. *)
Record Ipv6Addr := V6 { v6_bits : Z }.

Inductive IpAddr := IpV4 (a : Ipv4Addr) | IpV6 (a : Ipv6Addr).

(** [Ipv6Addr::new] of eight 16-bit segments, and [segments()[0]]. *)
Definition v6_new (s0 s1 s2 s3 s4 s5 s6 s7 : Z) : Ipv6Addr :=
  V6 (fold_left (fun acc s => Z.lor (Z.shiftl acc 16) s) [s0; s1; s2; s3; s4; s5; s6; s7] 0).

Definition first_segment (a : Ipv6Addr) : Z := Z.shiftr (v6_bits a) 112.

Inductive AddressClass := Public | Loopback | Private | LinkLocal | NonRoutable.

#[export] Instance AddressClass_eq_dec : EqDecision AddressClass.
Proof. solve_decision. Defined.

(** The methods of [std::net::Ipv4Addr]. *)
Definition v4_is_loopback (a : Ipv4Addr) : bool := oct0 a =? 127.

Definition v4_is_private (a : Ipv4Addr) : bool :=
  (oct0 a =? 10)
  || ((oct0 a =? 172) && (16 <=? oct1 a) && (oct1 a <=? 31))
  || ((oct0 a =? 192) && (oct1 a =? 168)).

Definition v4_is_link_local (a : Ipv4Addr) : bool := (oct0 a =? 169) && (oct1 a =? 254).

Definition v4_is_documentation (a : Ipv4Addr) : bool :=
  ((oct0 a =? 192) && (oct1 a =? 0) && (oct2 a =? 2))
  || ((oct0 a =? 198) && (oct1 a =? 51) && (oct2 a =? 100))
  || ((oct0 a =? 203) && (oct1 a =? 0) && (oct2 a =? 113)).

Definition v4_is_multicast (a : Ipv4Addr) : bool := (224 <=? oct0 a) && (oct0 a <=? 239).

(** The methods of [std::net::Ipv6Addr]. *)
Definition v6_is_loopback (a : Ipv6Addr) : bool := v6_bits a =? 1.

Definition v6_is_unique_local (a : Ipv6Addr) : bool :=
  Z.land (first_segment a) 0xfe00 =? 0xfc00.

Definition v6_is_unicast_link_local (a : Ipv6Addr) : bool :=
  Z.land (first_segment a) 0xffc0 =? 0xfe80.

(** ** Classification *)

Definition is_carrier_grade_nat (a : Ipv4Addr) : bool :=
  (oct0 a =? 100) && ((64 <=? oct1 a) && (oct1 a <=? 127)).

Definition is_benchmark_v4 (a : Ipv4Addr) : bool :=
  (oct0 a =? 198) && ((oct1 a =? 18) || (oct1 a =? 19)).

(** [[first, second, third] == [x, y, z]]. *)
Definition first_three (a : Ipv4Addr) (x y z : Z) : bool :=
  (oct0 a =? x) && (oct1 a =? y) && (oct2 a =? z).

Definition is_globally_routable_v4 (a : Ipv4Addr) : bool :=
  if first_three a 192 0 0 && ((oct3 a =? 9) || (oct3 a =? 10)) then true
  else
    negb (oct0 a =? 0)
    && negb (v4_is_private a)
    && negb (is_carrier_grade_nat a)
    && negb (v4_is_loopback a)
    && negb (v4_is_link_local a)
    && negb (first_three a 192 0 0)
    && negb (v4_is_documentation a)
    && negb (first_three a 192 88 99)
    && negb (is_benchmark_v4 a)
    && negb (v4_is_multicast a)
    && (oct0 a <? 240).

Definition u128_max : Z := 2 ^ 128 - 1.

(** A [u128] shift drops what leaves the width. *)
Definition in_v6_prefix (a network : Ipv6Addr) (prefix_length : Z) : bool :=
  let mask := Z.shiftl u128_max (128 - prefix_length) mod 2 ^ 128 in
  Z.land (v6_bits a) mask =? Z.land (v6_bits network) mask.

Definition is_globally_routable_ietf_v6 (a : Ipv6Addr) : bool :=
  (v6_bits a =? v6_bits (v6_new 0x2001 1 0 0 0 0 0 1))
  || (v6_bits a =? v6_bits (v6_new 0x2001 1 0 0 0 0 0 2))
  || (v6_bits a =? v6_bits (v6_new 0x2001 1 0 0 0 0 0 3))
  || in_v6_prefix a (v6_new 0x2001 3 0 0 0 0 0 0) 32
  || in_v6_prefix a (v6_new 0x2001 4 0x112 0 0 0 0 0) 48
  || in_v6_prefix a (v6_new 0x2001 0x20 0 0 0 0 0 0) 28
  || in_v6_prefix a (v6_new 0x2001 0x30 0 0 0 0 0 0) 28.

Definition is_globally_routable_v6 (a : Ipv6Addr) : bool :=
  if in_v6_prefix a (v6_new 0x64 0xff9b 0 0 0 0 0 0) 96 then true
  else if negb (in_v6_prefix a (v6_new 0x2000 0 0 0 0 0 0 0) 3) then false
  else if in_v6_prefix a (v6_new 0x2001 0 0 0 0 0 0 0) 23 then is_globally_routable_ietf_v6 a
  else
    negb (in_v6_prefix a (v6_new 0x2001 0x0db8 0 0 0 0 0 0) 32)
    && negb (in_v6_prefix a (v6_new 0x2002 0 0 0 0 0 0 0) 16)
    && negb (in_v6_prefix a (v6_new 0x3fff 0 0 0 0 0 0 0) 20).

Definition classify_v4 (a : Ipv4Addr) : AddressClass :=
  if v4_is_loopback a then Loopback
  else if v4_is_private a || is_carrier_grade_nat a then Private
  else if v4_is_link_local a then LinkLocal
  else if is_globally_routable_v4 a then Public
  else NonRoutable.

Definition classify_v6 (a : Ipv6Addr) : AddressClass :=
  if v6_is_loopback a then Loopback
  else if v6_is_unique_local a then Private
  else if v6_is_unicast_link_local a then LinkLocal
  else if is_globally_routable_v6 a then Public
  else NonRoutable.

Definition classify (a : IpAddr) : AddressClass :=
  match a with IpV4 a => classify_v4 a | IpV6 a => classify_v6 a end.

(** ** The guard *)

(** [url::Host], and what the accessors of [url::Url] return. *)
Inductive Host := HostDomain (name : string) | HostIpv4 (a : Ipv4Addr) | HostIpv6 (a : Ipv6Addr).

Record Url := MkUrl {
  url_scheme : string;
  url_host : option Host;
  url_host_str : option string;
}.

Record NetworkRules := MkRules {
  allowed_hosts : list string;
  allowed_cidrs : list string;
  allow_loopback : bool;
  allow_private : bool;
  allow_link_local : bool;
}.

Inductive NetworkPolicy := Standard | Server | Unrestricted | Custom (rules : NetworkRules).

Definition network_error (code : string) : OffprintError := new_error code Navigation.

Definition same_host (candidate initial : option string) : bool :=
  match candidate, initial with
  | Some c, Some i => eq_ignore_ascii_case c i
  | _, _ => false
  end.

Definition literal_address (u : Url) : option IpAddr :=
  match url_host u with
  | Some (HostIpv4 a) => Some (IpV4 a)
  | Some (HostIpv6 a) => Some (IpV6 a)
  | _ => None
  end.

(** [ipnet::IpNet] and the [Display] of addresses. *)
Class Networks := {
  IpNet : Type;
  net_from_str : string -> option IpNet;
  net_contains : IpNet -> IpAddr -> bool;
  addr_to_string : IpAddr -> string;
}.

Section Guard.
Context `{Networks}.

Record NetworkGuard := MkGuard {
  policy : NetworkPolicy;
  initial_host : option string;
  initial_loopback : bool;
  custom_networks : list IpNet;
}.

Definition parse_custom_networks (rules : NetworkRules) : Res (list IpNet) :=
  collect (fun value => ok_or (net_from_str value) (network_error "offprint.input.network_cidr"))
    (allowed_cidrs rules).

Definition guard_new (p : NetworkPolicy) (initial_url : Url) : Res NetworkGuard :=
  let host := to_ascii_lowercase <$> url_host_str initial_url in
  let loopback :=
    match literal_address initial_url with
    | Some a => bool_decide (classify a = Loopback)
    | None => false
    end || bool_decide (host = Some "localhost") in
  networks <-? match p with
               | Custom rules => parse_custom_networks rules
               | Standard | Server | Unrestricted => Ok []
               end ;;
  Ok (MkGuard p host loopback networks).

Definition custom_allows (rules : NetworkRules) (networks : list IpNet) (u : Url) (a : IpAddr)
    (class : AddressClass) : bool :=
  match url_host_str u with
  | Some host => existsb (eq_ignore_ascii_case host) (allowed_hosts rules)
  | None => false
  end
  || existsb (fun n => net_contains n a) networks
  || (allow_loopback rules && bool_decide (class = Loopback))
  || (allow_private rules && bool_decide (class = Private))
  || (allow_link_local rules && bool_decide (class = LinkLocal))
  || bool_decide (class = Public).

Definition address_allowed (g : NetworkGuard) (u : Url) (a : IpAddr) : bool :=
  let class := classify a in
  match policy g with
  | Unrestricted => true
  | Server => bool_decide (class = Public)
  | Standard =>
      bool_decide (class = Public)
      || (bool_decide (class = Loopback) && initial_loopback g
          && same_host (url_host_str u) (initial_host g))
  | Custom rules => custom_allows rules (custom_networks g) u a class
  end.

Definition validate_address (g : NetworkGuard) (u : Url) (a : IpAddr) : Res unit :=
  if address_allowed g u a then Ok tt
  else Err (with_detail "address" (DStr (addr_to_string a))
              (network_error "offprint.navigation.address_blocked")).

Definition validate_url (g : NetworkGuard) (u : Url) : Res unit :=
  if negb (bool_decide (url_scheme u = "http") || bool_decide (url_scheme u = "https"))
  then Err (network_error "offprint.navigation.scheme")
  else
    match literal_address u with
    | Some a => validate_address g u a
    | None =>
        match url_host_str u with
        | None => Err (network_error "offprint.navigation.host")
        | Some _ => Ok tt
        end
    end.

Definition validate_resolved (g : NetworkGuard) (u : Url) (addresses : list IpAddr) : Res unit :=
  do? validate_url g u ;;
  match addresses with
  | [] => Err (network_error "offprint.navigation.dns")
  | _ => for_each (validate_address g u) addresses
  end.

End Guard.

(** ** The special-use tables *)

Definition v4_bits (a : Ipv4Addr) : Z :=
  ((oct0 a * 256 + oct1 a) * 256 + oct2 a) * 256 + oct3 a.

Definition v4_wf (a : Ipv4Addr) : Prop :=
  0 <= oct0 a <= 255 /\ 0 <= oct1 a <= 255 /\ 0 <= oct2 a <= 255 /\ 0 <= oct3 a <= 255.

Definition v6_wf (a : Ipv6Addr) : Prop := 0 <= v6_bits a < 2 ^ 128.

(** The addresses that share their first [len] of [width] bits with [network]. *)
Definition in_block (width bits : Z) (block : Z * Z) : bool :=
  let '(network, len) := block in
  bits / 2 ^ (width - len) =? network / 2 ^ (width - len).

Definition in_blocks (width bits : Z) (blocks : list (Z * Z)) : bool :=
  existsb (in_block width bits) blocks.

Definition v4 (a b c d len : Z) : Z * Z := (v4_bits (V4 a b c d), len).

Definition v4_loopback_blocks := [v4 127 0 0 0 8].
Definition v4_private_blocks := [v4 10 0 0 0 8; v4 172 16 0 0 12; v4 192 168 0 0 16; v4 100 64 0 0 10].
Definition v4_link_local_blocks := [v4 169 254 0 0 16].
(** Registered as globally reachable inside the IETF block. *)
Definition v4_anycast_blocks := [v4 192 0 0 9 32; v4 192 0 0 10 32].
Definition v4_reserved_blocks :=
  [v4 0 0 0 0 8; v4 192 0 0 0 24; v4 192 0 2 0 24; v4 198 51 100 0 24; v4 203 0 113 0 24;
   v4 192 88 99 0 24; v4 198 18 0 0 15; v4 224 0 0 0 4; v4 240 0 0 0 4].

Definition v4_class (bits : Z) : AddressClass :=
  if in_blocks 32 bits v4_loopback_blocks then Loopback
  else if in_blocks 32 bits v4_private_blocks then Private
  else if in_blocks 32 bits v4_link_local_blocks then LinkLocal
  else if in_blocks 32 bits v4_anycast_blocks then Public
  else if in_blocks 32 bits v4_reserved_blocks then NonRoutable
  else Public.

(** ** IPv4: the tests on octets are the blocks *)

(** Compute the closed powers of two of the goal. *)
Ltac powers :=
  repeat match goal with
  | |- context [2 ^ ?e] => let v := eval vm_compute in (2 ^ e) in progress change (2 ^ e) with v
  end.

(** Two boolean tests agree when their arithmetic does. *)
Ltac same_test :=
  apply eq_true_iff_eq; rewrite ?andb_true_iff, ?orb_true_iff, ?Z.eqb_eq, ?Z.leb_le, ?Z.ltb_lt;
  Z.div_mod_to_equations; lia.

Definition octet (x : Z) : Prop := 0 <= x <= 255.

Ltac block_test := unfold v4_wf, octet, in_block, v4, v4_bits in *; simpl; powers; same_test.

Section V4Blocks.
Context (a : Ipv4Addr) (Hwf : v4_wf a).

Lemma block_8 x : octet x -> in_block 32 (v4_bits a) (v4 x 0 0 0 8) = (oct0 a =? x).
Proof using All. intros. block_test. Qed.

Lemma block_16 x y :
  octet x -> octet y -> in_block 32 (v4_bits a) (v4 x y 0 0 16) = (oct0 a =? x) && (oct1 a =? y).
Proof using All. intros. block_test. Qed.

Lemma block_24 x y z :
  octet x -> octet y -> octet z ->
  in_block 32 (v4_bits a) (v4 x y z 0 24) = first_three a x y z.
Proof using All. intros. unfold first_three. block_test. Qed.

Lemma block_32 x y z w :
  octet x -> octet y -> octet z -> octet w ->
  in_block 32 (v4_bits a) (v4 x y z w 32) = first_three a x y z && (oct3 a =? w).
Proof using All. intros. unfold first_three. block_test. Qed.

Lemma block_172_12 :
  in_block 32 (v4_bits a) (v4 172 16 0 0 12) = (oct0 a =? 172) && (16 <=? oct1 a) && (oct1 a <=? 31).
Proof using All. block_test. Qed.

Lemma block_100_10 : in_block 32 (v4_bits a) (v4 100 64 0 0 10) = is_carrier_grade_nat a.
Proof using All. unfold is_carrier_grade_nat. block_test. Qed.

Lemma block_198_15 : in_block 32 (v4_bits a) (v4 198 18 0 0 15) = is_benchmark_v4 a.
Proof using All. unfold is_benchmark_v4. block_test. Qed.

Lemma block_224_4 : in_block 32 (v4_bits a) (v4 224 0 0 0 4) = v4_is_multicast a.
Proof using All. unfold v4_is_multicast. block_test. Qed.

Lemma block_240_4 : in_block 32 (v4_bits a) (v4 240 0 0 0 4) = negb (oct0 a <? 240).
Proof using All. rewrite Z.ltb_antisym, negb_involutive. block_test. Qed.

Lemma classify_v4_blocks : classify_v4 a = v4_class (v4_bits a).
Proof using All.
  unfold v4_class, in_blocks, v4_loopback_blocks, v4_private_blocks, v4_link_local_blocks,
    v4_anycast_blocks, v4_reserved_blocks, existsb.
  rewrite ?block_8, ?block_16, ?block_24, ?block_32, block_172_12, block_100_10, block_198_15,
    block_224_4, block_240_4 by (unfold octet; lia).
  unfold classify_v4, is_globally_routable_v4.
  change (oct0 a =? 127) with (v4_is_loopback a).
  destruct (v4_is_loopback a) eqn:E1; [done|]. simpl.
  replace (_ || (_ || (_ || (is_carrier_grade_nat a || false))))
    with (v4_is_private a || is_carrier_grade_nat a)
    by (unfold v4_is_private; rewrite orb_false_r, !orb_assoc; done).
  destruct (v4_is_private a) eqn:E2; [done|]. destruct (is_carrier_grade_nat a) eqn:E3; [done|]. simpl.
  change ((oct0 a =? 169) && (oct1 a =? 254)) with (v4_is_link_local a).
  destruct (v4_is_link_local a) eqn:E4; [done|]. simpl.
  unfold v4_is_documentation.
  change ((oct0 a =? 192) && (oct1 a =? 0) && (oct2 a =? 2)) with (first_three a 192 0 2).
  change ((oct0 a =? 198) && (oct1 a =? 51) && (oct2 a =? 100)) with (first_three a 198 51 100).
  change ((oct0 a =? 203) && (oct1 a =? 0) && (oct2 a =? 113)) with (first_three a 203 0 113).
  rewrite ?orb_false_r, <- andb_orb_distrib_r.
  destruct (first_three a 192 0 0 && _); [done|].
  destruct (oct0 a =? 0), (first_three a 192 0 0), (first_three a 192 0 2),
    (first_three a 198 51 100), (first_three a 203 0 113), (first_three a 192 88 99),
    (is_benchmark_v4 a), (v4_is_multicast a), (oct0 a <? 240); reflexivity.
Qed.
End V4Blocks.

(** ** IPv6: the masks are the blocks *)

(** Masking the low bits away is dividing them away. *)
Lemma land_high_mask x n k :
  0 <= k <= n -> 0 <= x < 2 ^ n -> Z.land x (2 ^ n - 2 ^ k) = x / 2 ^ k * 2 ^ k.
Proof.
  intros Hk Hx.
  replace (2 ^ n - 2 ^ k) with (Z.shiftl (Z.ones (n - k)) k).
  2:{ rewrite Z.shiftl_mul_pow2, Z.ones_equiv by lia.
      replace n with (n - k + k) at 2 by lia. rewrite Z.pow_add_r by lia. lia. }
  rewrite <- Z.shiftr_div_pow2, <- Z.shiftl_mul_pow2 by lia.
  apply Z.bits_inj'. intros i Hi. rewrite Z.land_spec, !Z.shiftl_spec by lia.
  destruct (Z.lt_ge_cases i k) as [H|H].
  { rewrite !(Z.testbit_neg_r _ (i - k)) by lia. by rewrite andb_false_r. }
  rewrite Z.shiftr_spec by lia. replace (i - k + k) with i by lia.
  destruct (Z.lt_ge_cases i n) as [H'|H'].
  - rewrite Z.ones_spec_low by lia. by rewrite andb_true_r.
  - replace (Z.testbit x i) with false; [done|]. symmetry.
    rewrite <- (Z.mod_small x (2 ^ n)) by lia. apply Z.mod_pow2_bits_high. lia.
Qed.

Lemma v6_mask_value len : 0 <= len <= 128 ->
  Z.shiftl u128_max (128 - len) mod 2 ^ 128 = 2 ^ 128 - 2 ^ (128 - len).
Proof.
  intros Hl. rewrite Z.shiftl_mul_pow2 by lia. unfold u128_max.
  assert (0 < 2 ^ (128 - len) <= 2 ^ 128).
  { split; [by apply Z.pow_pos_nonneg; lia|apply Z.pow_le_mono_r; lia]. }
  symmetry. apply Z.mod_unique with (2 ^ (128 - len) - 1); [left|]; lia.
Qed.

Section V6Blocks.
Context (a : Ipv6Addr) (Hwf : v6_wf a).

Lemma in_v6_prefix_block network len :
  0 <= len <= 128 -> v6_wf network ->
  in_v6_prefix a network len = in_block 128 (v6_bits a) (v6_bits network, len).
Proof using All.
  intros Hl Hn. unfold in_v6_prefix, in_block, v6_wf in *. rewrite v6_mask_value by done.
  rewrite !land_high_mask by lia. apply eq_true_iff_eq. rewrite !Z.eqb_eq.
  assert (0 < 2 ^ (128 - len)) by (apply Z.pow_pos_nonneg; lia). nia.
Qed.

Lemma first_segment_mask k v :
  0 <= k <= 16 ->
  (Z.land (first_segment a) (2 ^ 16 - 2 ^ k) =? v * 2 ^ k) = (v6_bits a / 2 ^ (112 + k) =? v).
Proof using All.
  intros Hk. unfold first_segment, v6_wf in *. rewrite Z.shiftr_div_pow2 by lia.
  rewrite land_high_mask; [|done|].
  - rewrite Z.div_div by (apply Z.pow_nonzero || apply Z.pow_pos_nonneg; lia).
    rewrite <- Z.pow_add_r by lia. assert (0 < 2 ^ k) by (apply Z.pow_pos_nonneg; lia).
    apply eq_true_iff_eq. rewrite !Z.eqb_eq. nia.
  - split; [apply Z.div_pos; lia|]. apply Z.div_lt_upper_bound; lia.
Qed.
End V6Blocks.

Definition v6 (a : Ipv6Addr) (len : Z) : Z * Z := (v6_bits a, len).

Definition v6_loopback_blocks := [v6 (v6_new 0 0 0 0 0 0 0 1) 128].
Definition v6_private_blocks := [v6 (v6_new 0xfc00 0 0 0 0 0 0 0) 7].
Definition v6_link_local_blocks := [v6 (v6_new 0xfe80 0 0 0 0 0 0 0) 10].
Definition v6_global_unicast := v6 (v6_new 0x2000 0 0 0 0 0 0 0) 3.
(** Registered as globally reachable inside reserved blocks. *)
Definition v6_reachable_blocks :=
  [v6 (v6_new 0x64 0xff9b 0 0 0 0 0 0) 96;
   v6 (v6_new 0x2001 1 0 0 0 0 0 1) 128; v6 (v6_new 0x2001 1 0 0 0 0 0 2) 128;
   v6 (v6_new 0x2001 1 0 0 0 0 0 3) 128; v6 (v6_new 0x2001 3 0 0 0 0 0 0) 32;
   v6 (v6_new 0x2001 4 0x112 0 0 0 0 0) 48; v6 (v6_new 0x2001 0x20 0 0 0 0 0 0) 28;
   v6 (v6_new 0x2001 0x30 0 0 0 0 0 0) 28].
Definition v6_reserved_blocks :=
  [v6 (v6_new 0x2001 0 0 0 0 0 0 0) 23; v6 (v6_new 0x2001 0x0db8 0 0 0 0 0 0) 32;
   v6 (v6_new 0x2002 0 0 0 0 0 0 0) 16; v6 (v6_new 0x3fff 0 0 0 0 0 0 0) 20].

Definition v6_class (bits : Z) : AddressClass :=
  if in_blocks 128 bits v6_loopback_blocks then Loopback
  else if in_blocks 128 bits v6_private_blocks then Private
  else if in_blocks 128 bits v6_link_local_blocks then LinkLocal
  else if in_blocks 128 bits v6_reachable_blocks then Public
  else if in_blocks 128 bits v6_reserved_blocks then NonRoutable
  else if in_block 128 bits v6_global_unicast then Public
  else NonRoutable.

(** A block of a longer prefix lies inside the block of a shorter one. *)
Lemma block_inside width bits n1 l1 n2 l2 :
  l2 <= l1 <= width -> n1 / 2 ^ (width - l2) = n2 / 2 ^ (width - l2) ->
  in_block width bits (n1, l1) = true -> in_block width bits (n2, l2) = true.
Proof.
  intros Hl Hn. unfold in_block. rewrite !Z.eqb_eq. intros H. rewrite <- Hn.
  assert (Hs : forall x, x / 2 ^ (width - l2) = x / 2 ^ (width - l1) / 2 ^ (l1 - l2)).
  { intros x. rewrite Z.div_div by (apply Z.pow_nonzero || apply Z.pow_pos_nonneg; lia).
    rewrite <- Z.pow_add_r by lia. do 2 f_equal. lia. }
  by rewrite !Hs, H.
Qed.

Lemma block_exact bits n : in_block 128 bits (n, 128) = (bits =? n).
Proof. unfold in_block. change (2 ^ (128 - 128)) with 1. by rewrite !Z.div_1_r. Qed.

Section V6Class.
Context (a : Ipv6Addr) (Hwf : v6_wf a).
#[local] Abbreviation within block := (in_block 128 (v6_bits a) block).

(** The tests of the code as tests on blocks. *)
Lemma v6_loopback_block : v6_is_loopback a = within (v6 (v6_new 0 0 0 0 0 0 0 1) 128).
Proof using Type. unfold v6. by rewrite block_exact. Qed.

Lemma v6_private_block :
  v6_is_unique_local a = within (v6 (v6_new 0xfc00 0 0 0 0 0 0 0) 7).
Proof using All. exact (first_segment_mask a Hwf 9 126 ltac:(lia)). Qed.

Lemma v6_link_local_block :
  v6_is_unicast_link_local a = within (v6 (v6_new 0xfe80 0 0 0 0 0 0 0) 10).
Proof using All. exact (first_segment_mask a Hwf 6 1018 ltac:(lia)). Qed.

(** The registered exceptions of [2001::/23] are inside it, and it is inside the
    global unicast block. *)
Lemma ietf_inside :
  is_globally_routable_ietf_v6 a = existsb (in_block 128 (v6_bits a)) (tail v6_reachable_blocks) /\
  (is_globally_routable_ietf_v6 a = true -> within (v6 (v6_new 0x2001 0 0 0 0 0 0 0) 23) = true).
Proof using All.
  assert (E : is_globally_routable_ietf_v6 a =
              existsb (in_block 128 (v6_bits a)) (tail v6_reachable_blocks)).
  { unfold is_globally_routable_ietf_v6, v6_reachable_blocks, v6. cbn [tail existsb].
    rewrite !in_v6_prefix_block by (done || lia || (vm_compute; done)).
    by rewrite !block_exact, orb_false_r, !orb_assoc. }
  split; [done|]. rewrite E. intros (block & Hin & Hb)%existsb_exists. unfold v6.
  simpl in Hin. repeat destruct Hin as [<-|Hin]; [..|done];
    revert Hb; apply block_inside; (lia || (vm_compute; reflexivity)).
Qed.

Lemma classify_v6_blocks : classify_v6 a = v6_class (v6_bits a).
Proof using All.
  assert (Hg : within (v6 (v6_new 0x2001 0 0 0 0 0 0 0) 23) = true -> within v6_global_unicast = true).
  { apply block_inside; (lia || (vm_compute; reflexivity)). }
  destruct ietf_inside as [Hi Hr].
  unfold classify_v6, v6_class, in_blocks, is_globally_routable_v6.
  rewrite v6_loopback_block, v6_private_block, v6_link_local_block, !in_v6_prefix_block
    by (done || lia || (vm_compute; done)).
  unfold v6_loopback_blocks, v6_private_blocks, v6_link_local_blocks, v6_reserved_blocks.
  change (existsb (in_block 128 (v6_bits a)) v6_reachable_blocks)
    with (within (v6 (v6_new 0x64 0xff9b 0 0 0 0 0 0) 96)
          || existsb (in_block 128 (v6_bits a)) (tail v6_reachable_blocks)).
  rewrite <- Hi. clear Hi. cbn [existsb]. rewrite !orb_false_r.
  fold (v6 (v6_new 0x64 0xff9b 0 0 0 0 0 0) 96) (v6 (v6_new 0x2000 0 0 0 0 0 0 0) 3)
    (v6 (v6_new 0x2001 0 0 0 0 0 0 0) 23) (v6 (v6_new 0x2001 0x0db8 0 0 0 0 0 0) 32)
    (v6 (v6_new 0x2002 0 0 0 0 0 0 0) 16) (v6 (v6_new 0x3fff 0 0 0 0 0 0 0) 20) v6_global_unicast.
  repeat match goal with |- context [in_block 128 (v6_bits a) ?b] =>
    destruct (in_block 128 (v6_bits a) b) end;
  destruct (is_globally_routable_ietf_v6 a); try reflexivity; naive_solver.
Qed.
End V6Class.

Definition ip_wf (a : IpAddr) : Prop := match a with IpV4 a => v4_wf a | IpV6 a => v6_wf a end.

(** The class of an address by the tables. *)
Definition registered_class (a : IpAddr) : AddressClass :=
  match a with IpV4 a => v4_class (v4_bits a) | IpV6 a => v6_class (v6_bits a) end.

(** ** Properties *)

(** C39: The classification is the special-use registry: for every IPv4 and every
    IPv6 address, the class computed by the octet tests and bit masks is the one
    given by the tables of blocks (loopback, private, link-local, reserved
    blocks and their globally reachable exceptions). *)
Theorem classify_is_the_registry a : ip_wf a -> classify a = registered_class a.
Proof. destruct a; [apply classify_v4_blocks|apply classify_v6_blocks]. Qed.

(** Blocks that differ in the bits they both fix share no address. *)
Lemma block_apart width bits n1 l1 n2 l2 :
  0 <= l1 <= width -> 0 <= l2 <= width ->
  n1 / 2 ^ (width - Z.min l1 l2) <> n2 / 2 ^ (width - Z.min l1 l2) ->
  in_block width bits (n1, l1) = true -> in_block width bits (n2, l2) = false.
Proof.
  intros H1 H2 Hn Hb. destruct (in_block width bits (n2, l2)) eqn:E; [|done].
  destruct Hn. set (m := Z.min l1 l2).
  assert (B1 : in_block width bits (n1, m) = true) by (eapply block_inside; [..|exact Hb]; [lia|done]).
  assert (B2 : in_block width bits (n2, m) = true) by (eapply block_inside; [..|exact E]; [lia|done]).
  unfold in_block in *. rewrite Z.eqb_eq in *. congruence.
Qed.

(** The blocks that carry an IPv4 address inside an IPv6 one by mapping, 6to4 or
    Teredo. *)
Definition tunnel_blocks : list (Z * Z) :=
  [v6 (v6_new 0 0 0 0 0 0xffff 0 0) 96; v6 (v6_new 0x2002 0 0 0 0 0 0 0) 16;
   v6 (v6_new 0x2001 0 0 0 0 0 0 0) 32].

Lemma tunnel_class bits : in_blocks 128 bits tunnel_blocks = true -> v6_class bits = NonRoutable.
Proof.
  intros (block & Hin & Hb)%existsb_exists.
  assert (Hapart : forall blocks,
    forallb (fun '(n2, l2) => (0 <=? l2) && (l2 <=? 128) &&
               negb (fst block / 2 ^ (128 - Z.min (snd block) l2)
                     =? n2 / 2 ^ (128 - Z.min (snd block) l2))) blocks = true ->
    in_blocks 128 bits blocks = false).
  { intros blocks Hall. apply not_true_iff_false. intros ([n2 l2] & Hin2 & Hb2)%existsb_exists.
    rewrite forallb_forall in Hall. specialize (Hall _ Hin2). simpl in Hall. bool_facts.
    rewrite (block_apart 128 bits (fst block) (snd block) n2 l2) in Hb2; try done.
    - simpl in Hin. repeat destruct Hin as [<-|Hin]; simpl; done || lia.
    - by destruct block. }
  unfold v6_class. simpl in Hin. repeat destruct Hin as [<-|Hin]; [..|done].
  - rewrite !Hapart by (vm_compute; reflexivity). unfold v6_global_unicast, v6 in *.
    replace (in_block 128 bits (v6_bits (v6_new 0x2000 0 0 0 0 0 0 0), 3)) with false; [done|].
    symmetry. revert Hb. apply block_apart; (lia || (vm_compute; discriminate)).
  - rewrite !Hapart by (vm_compute; reflexivity).
    replace (in_blocks 128 bits v6_reserved_blocks) with true; [done|]. symmetry.
    apply existsb_exists. eexists. split; [|exact Hb]. unfold v6_reserved_blocks; simpl; auto.
  - rewrite !Hapart by (vm_compute; reflexivity).
    replace (in_blocks 128 bits v6_reserved_blocks) with true; [done|]. symmetry.
    apply existsb_exists. eexists (v6 (v6_new 0x2001 0 0 0 0 0 0 0) 23).
    split; [unfold v6_reserved_blocks; simpl; auto|].
    revert Hb. apply block_inside; (lia || (vm_compute; reflexivity)).
Qed.

Section GuardFacts.
Context `{Networks}.
Implicit Types (g : NetworkGuard) (u : Url).

Lemma validate_address_ok g u a : validate_address g u a = Ok tt <-> address_allowed g u a = true.
Proof. unfold validate_address. destruct (address_allowed g u a); naive_solver. Qed.

(** A URL the guard lets through. *)
Definition url_admitted g u : Prop :=
  (url_scheme u = "http" \/ url_scheme u = "https") /\
  match literal_address u with
  | Some a => address_allowed g u a = true
  | None => is_Some (url_host_str u)
  end.

Lemma validate_url_ok g u : validate_url g u = Ok tt <-> url_admitted g u.
Proof.
  unfold validate_url, url_admitted.
  destruct (bool_decide_reflect (url_scheme u = "http")),
    (bool_decide_reflect (url_scheme u = "https")); simpl; try (naive_solver; fail);
  (destruct (literal_address u); [rewrite validate_address_ok; naive_solver|]);
  destruct (url_host_str u); naive_solver.
Qed.

(** A request goes out only if every address of the DNS answer is allowed:
    [validate_resolved] succeeds exactly when the URL itself is admitted (http or
    https, a host, an allowed literal address), the answer is not empty and each
    of its addresses is allowed by the policy; one blocked address blocks the
    request. *)
Theorem resolved_exactly_allowed g u addresses :
  validate_resolved g u addresses = Ok tt <->
  url_admitted g u /\ addresses <> [] /\ Forall (fun a => address_allowed g u a = true) addresses.
Proof.
  unfold validate_resolved. rewrite <- validate_url_ok.
  destruct (validate_url g u) as [[]|e]; simpl; [|naive_solver].
  destruct addresses as [|a rest]; [naive_solver|].
  rewrite for_each_ok. setoid_rewrite validate_address_ok. naive_solver.
Qed.

(** A blocked answer is reported by its first blocked address. *)
Theorem first_blocked_address g u before a after :
  url_admitted g u -> Forall (fun a => address_allowed g u a = true) before ->
  address_allowed g u a = false ->
  validate_resolved g u (before ++ a :: after) =
    Err (with_detail "address" (DStr (addr_to_string a))
           (network_error "offprint.navigation.address_blocked")).
Proof.
  intros Hu Hb Ha. apply validate_url_ok in Hu. unfold validate_resolved. rewrite Hu.
  cbn [rbind]. destruct (before ++ a :: after) eqn:E; [by destruct before|]. rewrite <- E. clear E.
  induction Hb as [|b before Hb _ IH]; cbn [for_each app].
  - unfold validate_address. by rewrite Ha.
  - apply (validate_address_ok g u b) in Hb. by rewrite Hb.
Qed.

(** The default policy protects loopback: a guard with the [Standard] policy
    lets a request reach a loopback address only when the capture itself started
    at a loopback host and the request goes to that same host; every other
    allowed address is public. *)
Theorem standard_protects_loopback initial g u addresses a :
  guard_new Standard initial = Ok g -> validate_resolved g u addresses = Ok tt ->
  a ∈ addresses ->
  classify a = Public \/
  (classify a = Loopback /\
   same_host (url_host_str u) (to_ascii_lowercase <$> url_host_str initial) = true /\
   (to_ascii_lowercase <$> url_host_str initial = Some "localhost" \/
    exists l, literal_address initial = Some l /\ classify l = Loopback)).
Proof.
  intros [= <-] Hv Ha. unfold validate_resolved in Hv.
  destruct (validate_url _ u) as [[]|e]; simpl in Hv; [|done].
  destruct addresses as [|x rest]; [done|]. rewrite for_each_ok, Forall_forall in Hv.
  apply list_elem_of_In in Ha. specialize (Hv a Ha). rewrite validate_address_ok in Hv. unfold address_allowed in Hv.
  cbn [policy initial_host initial_loopback] in Hv.
  apply orb_true_iff in Hv as [Hv|Hv]; bool_facts; [by left|right].
  split; [done|]. split; [done|].
  match goal with E : _ || _ = true |- _ => apply orb_true_iff in E as [E|E] end.
  - right. destruct (literal_address initial); bool_facts; [eauto|done].
  - left. by bool_facts.
Qed.

(** The policies are ordered: what [Server] allows, [Standard] and every
    custom policy allow too, and [Unrestricted] allows everything; so hardening
    a policy never opens an address. *)
Theorem policies_ordered host loopback networks rules u a :
  let allowed p := address_allowed (MkGuard p host loopback networks) u a in
  (allowed Server = true -> allowed Standard = true) /\
  (allowed Server = true -> allowed (Custom rules) = true) /\
  allowed Unrestricted = true.
Proof.
  cbv zeta. unfold address_allowed, custom_allows. cbn [policy]. split; [|split; [|done]].
  - intros ->. done.
  - intros ->. by rewrite orb_true_r.
Qed.

(** IPv4 smuggled in IPv6 is blocked: an IPv4-mapped, 6to4 or Teredo address
    is refused by every guard with the [Server] or the [Standard] policy,
    whatever IPv4 address it carries and wherever the capture started. *)
Theorem tunnelled_ipv4_blocked g u bits :
  policy g = Server \/ policy g = Standard -> 0 <= bits < 2 ^ 128 ->
  in_blocks 128 bits tunnel_blocks = true ->
  validate_address g u (IpV6 (V6 bits)) =
    Err (with_detail "address" (DStr (addr_to_string (IpV6 (V6 bits))))
           (network_error "offprint.navigation.address_blocked")).
Proof.
  intros Hp Hw Ht. apply tunnel_class in Ht.
  unfold validate_address, address_allowed, classify. rewrite (classify_v6_blocks (V6 bits) Hw).
  cbn [v6_bits]. rewrite Ht. by destruct Hp as [-> | ->].
Qed.
End GuardFacts.

(** ** Witnesses *)

#[local] Instance no_networks : Networks :=
  { IpNet := Empty_set; net_from_str _ := None; net_contains n _ := match n with end;
    addr_to_string a := match a with IpV4 _ => "v4" | IpV6 _ => "v6" end }.

Definition localhost_url : Url := MkUrl "http" (Some (HostDomain "localhost")) (Some "localhost").

Definition local_guard : NetworkGuard := MkGuard Standard (Some "localhost") true [].

Definition home : IpAddr := IpV4 (V4 127 0 0 1).

Lemma classify_is_the_registry_witness :
  classify (IpV4 (V4 169 254 169 254)) = LinkLocal /\
  registered_class (IpV4 (V4 169 254 169 254)) = LinkLocal.
Proof.
  rewrite <- (classify_is_the_registry (IpV4 (V4 169 254 169 254))) by (unfold ip_wf, v4_wf; simpl; lia).
  split; reflexivity.
Defined.

Lemma first_blocked_address_witness :
  validate_resolved local_guard localhost_url [home; IpV4 (V4 10 0 0 1); home] =
    Err (with_detail "address" (DStr "v4") (network_error "offprint.navigation.address_blocked")).
Proof.
  apply (first_blocked_address local_guard localhost_url [home] (IpV4 (V4 10 0 0 1)) [home]).
  - split; [by left|by eexists].
  - by repeat constructor.
  - reflexivity.
Defined.

Lemma standard_protects_loopback_witness :
  classify home = Public \/
  (classify home = Loopback /\ same_host (Some "localhost") (Some "localhost") = true /\
   (Some "localhost" = Some "localhost" \/
    exists l, literal_address localhost_url = Some l /\ classify l = Loopback)).
Proof.
  apply (standard_protects_loopback localhost_url local_guard localhost_url [home]).
  - reflexivity.
  - reflexivity.
  - by apply list_elem_of_singleton.
Defined.

Lemma tunnelled_ipv4_blocked_witness :
  validate_address local_guard localhost_url (IpV6 (v6_new 0 0 0 0 0 0xffff 0x7f00 1)) =
    Err (with_detail "address" (DStr "v6") (network_error "offprint.navigation.address_blocked")).
Proof.
  apply (tunnelled_ipv4_blocked local_guard localhost_url
           (v6_bits (v6_new 0 0 0 0 0 0xffff 0x7f00 1))).
  - by right.
  - vm_compute. split; [discriminate|reflexivity].
  - reflexivity.
Defined.
