(* ===== verification/Protocol.v ===== *)
(** * The collector protocol

    Models [offprint-rs/protocol/src]: the handshake ([handshake.rs]), the
    envelope of a chunk ([chunk.rs]) and the bounded transfer of an observation
    ([transfer.rs], with the descriptor of [message.rs]).  The checksum of a
    chunk is [crc32fast], a parameter.  Arithmetic that the source does not check
    is a panic, the value [None], when it leaves its width. *)

From Stdlib Require Import ZArith Lia Ascii String.
From stdpp Require Import base tactics list gmap strings numbers.
From S2P Require Import Prelude.
From S2P Require Import Errors.
From S2P Require Import Fs.
From S2P Require Import Records.

#[local] Open Scope string_scope.
#[local] Open Scope list_scope.
#[local] Open Scope Z_scope.

(** [CaptureId] is its text, [FrameId] a [u64]. *)
Abbreviation CaptureId := string.
Abbreviation FrameId := Z.

(** [crc32fast::hash]. *)
Class Checksum := crc32 : bytes -> Z.

Definition protocol_error (code : string) : OffprintError := new_error code Collection.

(** ** Handshake *)

Record ProtocolVersion := MkVersion { major : Z; minor : Z }.

(** The derived order: major, then minor. *)
Definition version_min (a b : ProtocolVersion) : ProtocolVersion :=
  if (major a <? major b) || ((major a =? major b) && (minor a <=? minor b)) then a else b.

Definition COLLECTOR_PROTOCOL_VERSION : ProtocolVersion := MkVersion 1 5.

Inductive CollectorCapability :=
| AdoptedStylesheets | CanvasPixels | ClosedShadowRoots | Cssom | FormState
| FrameOwnerMapping | MediaState | OpenShadowRoots | ResponsiveImages | SelectionCapture
| SelectorCapture | UnusedCssRemoval | UnusedFontRemoval | HiddenElementRemoval.

#[export] Instance CollectorCapability_eq_dec : EqDecision CollectorCapability.
Proof. solve_decision. Defined.

(** The derived [Debug]. *)
Definition capability_debug (c : CollectorCapability) : string :=
  match c with
  | AdoptedStylesheets => "AdoptedStylesheets"
  | CanvasPixels => "CanvasPixels"
  | ClosedShadowRoots => "ClosedShadowRoots"
  | Cssom => "Cssom"
  | FormState => "FormState"
  | FrameOwnerMapping => "FrameOwnerMapping"
  | MediaState => "MediaState"
  | OpenShadowRoots => "OpenShadowRoots"
  | ResponsiveImages => "ResponsiveImages"
  | SelectionCapture => "SelectionCapture"
  | SelectorCapture => "SelectorCapture"
  | UnusedCssRemoval => "UnusedCssRemoval"
  | UnusedFontRemoval => "UnusedFontRemoval"
  | HiddenElementRemoval => "HiddenElementRemoval"
  end.

(** A [BTreeSet] is the list of its elements in order. *)
Record CollectorHandshake := MkHandshake {
  hs_protocol : ProtocolVersion;
  hs_capture_id : CaptureId;
  hs_host_build_sha256 : ContentDigest;
  hs_collector_build_sha256 : ContentDigest;
  hs_requested : list CollectorCapability;
  hs_available : list CollectorCapability;
  hs_maximum_chunk_bytes : Z;
}.

Record NegotiatedProtocol := MkNegotiated {
  np_version : ProtocolVersion;
  np_capture_id : CaptureId;
  np_capabilities : list CollectorCapability;
  np_chunk_bytes : Z;
}.

Definition negotiate_protocol (h : CollectorHandshake) (host : ProtocolVersion)
    (host_maximum_chunk_bytes : Z) : Res NegotiatedProtocol :=
  if negb (major (hs_protocol h) =? major host)
  then Err (protocol_error "offprint.collector.protocol_major")
  else
    let missing := filter (fun c => c ∉ hs_available h) (hs_requested h) in
    if negb (bool_decide (missing = []))
    then Err (with_detail "missing" (DStr (String.concat "," (map capability_debug missing)))
                (protocol_error "offprint.collector.capability"))
    else
      let chunk_bytes := Z.min (hs_maximum_chunk_bytes h) host_maximum_chunk_bytes in
      if chunk_bytes =? 0 then Err (protocol_error "offprint.collector.chunk_limit")
      else Ok (MkNegotiated (MkVersion (major host) (minor (version_min host (hs_protocol h))))
                 (hs_capture_id h) (hs_requested h) chunk_bytes).

(** ** Chunks *)

Record ChunkEnvelope := MkChunk {
  ch_capture_id : CaptureId;
  ch_frame_id : FrameId;
  ch_sequence : Z;
  ch_total : Z;
  ch_payload_length : Z;
  ch_payload_crc32 : Z;
  ch_payload : bytes;
}.

Record ObservationDescriptor := MkDescriptor {
  od_capture_id : CaptureId;
  od_frame_id : FrameId;
  od_chunks : Z;
  od_encoded_bytes : Z;
  od_payload_sha256 : ContentDigest;
}.

Section Transfer.
Context `{Checksum} `{Hashing}.

Definition chunk_new (cid : CaptureId) (fid : FrameId) (sequence total : Z) (payload : bytes)
  : ChunkEnvelope :=
  MkChunk cid fid sequence total (len_u64 payload) (crc32 payload) payload.

Definition chunk_validate (maximum_chunk_bytes : Z) (c : ChunkEnvelope) : Res unit :=
  if (ch_total c =? 0) || (ch_total c <=? ch_sequence c)
  then Err (protocol_error "offprint.collector.chunk_sequence")
  else if negb (ch_payload_length c =? len_u64 (ch_payload c))
  then Err (protocol_error "offprint.collector.chunk_length")
  else if maximum_chunk_bytes <? ch_payload_length c
  then Err (protocol_error "offprint.collector.chunk_limit")
  else if negb (ch_payload_crc32 c =? crc32 (ch_payload c))
  then Err (protocol_error "offprint.collector.chunk_checksum")
  else Ok tt.

(** ** Transfers *)

Record TransferPlan := MkPlan {
  tp_capture_id : CaptureId;
  tp_frame_id : FrameId;
  tp_chunks : Z;
  tp_encoded_bytes : Z;
  tp_payload_sha256 : ContentDigest;
  tp_maximum_chunk_bytes : Z;
}.

Definition chunk_total_error (declared expected : Z) : OffprintError :=
  with_detail "expected" (DNum expected)
    (with_detail "declared" (DNum declared) (protocol_error "offprint.collector.chunk_total")).

Definition transfer_plan_new (d : ObservationDescriptor) (expected_capture_id : CaptureId)
    (expected_frame_id : FrameId) (maximum_chunk_bytes maximum_payload_bytes : Z)
  : Res TransferPlan :=
  if bool_decide (od_capture_id d <> expected_capture_id)
     || negb (od_frame_id d =? expected_frame_id)
  then Err (protocol_error "offprint.collector.protocol_shape")
  else if maximum_chunk_bytes =? 0
  then Err (protocol_error "offprint.collector.chunk_limit")
  else if maximum_payload_bytes <? od_encoded_bytes d
  then Err (with_detail "limit" (DNum maximum_payload_bytes)
              (with_detail "encodedBytes" (DNum (od_encoded_bytes d))
                 (protocol_error "offprint.collector.payload_limit")))
  else
    let needed := Z.max 1 (div_ceil (od_encoded_bytes d) maximum_chunk_bytes) in
    expected <-? ok_or (try_from u32_max needed) (chunk_total_error (od_chunks d) needed) ;;
    if negb (od_chunks d =? expected) then Err (chunk_total_error (od_chunks d) expected)
    else Ok (MkPlan (od_capture_id d) (od_frame_id d) (od_chunks d) (od_encoded_bytes d)
               (od_payload_sha256 d) maximum_chunk_bytes).

Definition sequences (p : TransferPlan) : list Z := seqZ 0 (tp_chunks p).

(** [sequence + 1] on [u32], the product and the difference on [u64]. *)
Definition expected_chunk_bytes (p : TransferPlan) (sequence : Z) : option Z :=
  next ← checked_add u32_max sequence 1;
  if next <? tp_chunks p then Some (tp_maximum_chunk_bytes p)
  else
    let before := tp_maximum_chunk_bytes p * (tp_chunks p - 1) in
    if (1 <=? tp_chunks p) && (before <=? u64_max) && (before <=? tp_encoded_bytes p)
    then Some (tp_encoded_bytes p - before) else None.

Record ChunkAssembler := MkAssembler {
  as_plan : TransferPlan;
  as_next_sequence : Z;
  as_payload : bytes;
  as_complete : bool;
}.

Definition assembler_new (p : TransferPlan) : ChunkAssembler := MkAssembler p 0 [] false.

(** [ChunkAssembler::push]; [None] is a panic. *)
Definition assembler_push (c : ChunkEnvelope) (a : ChunkAssembler)
  : option (Res (option bytes) * ChunkAssembler) :=
  let p := as_plan a in
  if bool_decide (ch_capture_id c <> tp_capture_id p) || negb (ch_frame_id c =? tp_frame_id p)
  then Some (Err (protocol_error "offprint.collector.chunk_owner"), a)
  else if negb (ch_total c =? tp_chunks p)
  then Some (Err (chunk_total_error (ch_total c) (tp_chunks p)), a)
  else
    match chunk_validate (tp_maximum_chunk_bytes p) c with
    | Err e => Some (Err e, a)
    | Ok _ =>
        if as_complete a || negb (ch_sequence c =? as_next_sequence a)
        then Some (Err (protocol_error "offprint.collector.chunk_sequence"), a)
        else
          expected ← expected_chunk_bytes p (ch_sequence c);
          if negb (ch_payload_length c =? expected)
          then Some (Err (with_detail "expected" (DNum expected)
                            (with_detail "actual" (DNum (ch_payload_length c))
                               (protocol_error "offprint.collector.chunk_length"))), a)
          else
            match checked_add u64_max (Z.of_nat (length (as_payload a))) (ch_payload_length c) with
            | None => Some (Err (protocol_error "offprint.collector.payload_limit"), a)
            | Some next_bytes =>
                if tp_encoded_bytes p <? next_bytes
                then Some (Err (with_detail "limit" (DNum (tp_encoded_bytes p))
                                  (with_detail "attempted" (DNum next_bytes)
                                     (protocol_error "offprint.collector.payload_limit"))), a)
                else
                  let payload := as_payload a ++ ch_payload c in
                  next ← checked_add u32_max (as_next_sequence a) 1;
                  let a' := MkAssembler p next payload (as_complete a) in
                  if negb (next =? tp_chunks p) then Some (Ok None, a')
                  else if negb (next_bytes =? tp_encoded_bytes p)
                  then Some (Err (with_detail "expected" (DNum (tp_encoded_bytes p))
                                    (with_detail "actual" (DNum next_bytes)
                                       (protocol_error "offprint.collector.chunk_length"))), a')
                  else if negb (bool_decide (sha256 payload = tp_payload_sha256 p))
                  then Some (Err (protocol_error "offprint.collector.payload_checksum"), a')
                  else Some (Ok (Some payload), MkAssembler p next [] true)
            end
    end.

(** Push envelopes one after another; collect the answers. *)
Fixpoint push_all (cs : list ChunkEnvelope) (a : ChunkAssembler)
  : option (list (Res (option bytes)) * ChunkAssembler) :=
  match cs with
  | [] => Some ([], a)
  | c :: rest =>
      '(r, a1) ← assembler_push c a;
      '(rs, a2) ← push_all rest a1;
      Some (r :: rs, a2)
  end.

(** The payloads of the envelopes that were accepted. *)
Fixpoint accepted (cs : list ChunkEnvelope) (rs : list (Res (option bytes))) : bytes :=
  match cs, rs with
  | c :: cs', r :: rs' => (if is_ok r then ch_payload c else []) ++ accepted cs' rs'
  | _, _ => []
  end.

(** What the types of an envelope admit. *)
Definition chunk_in_range (c : ChunkEnvelope) : Prop :=
  in_u32 (ch_sequence c) /\ in_u32 (ch_total c) /\ Z.of_nat (length (ch_payload c)) <= usize_max.

(** ** Plans *)

Record plan_ok (p : TransferPlan) : Prop := {
  po_chunks : 1 <= tp_chunks p <= u32_max;
  po_limit : 0 < tp_maximum_chunk_bytes p <= u64_max;
  po_bytes : 0 <= tp_encoded_bytes p <= u64_max;
  po_before : tp_maximum_chunk_bytes p * (tp_chunks p - 1) <= tp_encoded_bytes p;
  po_after : tp_encoded_bytes p <= tp_maximum_chunk_bytes p * tp_chunks p;
}.

Lemma div_ceil_spec a b q : 0 < b -> q = div_ceil a b -> b * (q - 1) < a <= b * q.
Proof.
  unfold div_ceil. intros Hb ->. assert (H1 := Z.mul_div_le (a + b - 1) b Hb).
  assert (H2 := Z.mul_succ_div_gt (a + b - 1) b Hb). lia.
Qed.

(** An accepted descriptor gives a plan whose arithmetic stays in range. *)
Lemma transfer_plan_ok d cid fid mc mp p :
  0 <= mc <= u64_max -> 0 <= od_encoded_bytes d <= u64_max ->
  transfer_plan_new d cid fid mc mp = Ok p ->
  plan_ok p /\ tp_encoded_bytes p = od_encoded_bytes d /\ od_encoded_bytes d <= mp /\
  tp_payload_sha256 p = od_payload_sha256 d /\ tp_maximum_chunk_bytes p = mc /\
  tp_capture_id p = cid /\ tp_frame_id p = fid /\
  tp_chunks p = Z.max 1 (div_ceil (od_encoded_bytes d) mc).
Proof.
  intros Hmc He. unfold transfer_plan_new.
  destruct (bool_decide_reflect (od_capture_id d <> cid)) as [|Hcid]; [done|].
  destruct (Z.eqb_spec (od_frame_id d) fid) as [Hfid|]; [|done]. simpl.
  destruct (Z.eqb_spec mc 0) as [|Hm]; [done|].
  destruct (Z.ltb_spec mp (od_encoded_bytes d)) as [|Hp]; [done|].
  unfold try_from. destruct (_ && _) eqn:Hr; [|done]. simpl.
  destruct (Z.eqb_spec (od_chunks d) (Z.max 1 (div_ceil (od_encoded_bytes d) mc))) as [Hc|]; [|done].
  intros [= <-]; simpl. bool_facts.
  assert (Hd := div_ceil_spec (od_encoded_bytes d) mc _ ltac:(lia) eq_refl).
  apply dec_stable in Hcid.
  split; [|repeat split; done || lia].
  split; simpl; rewrite ?Hc; try lia.
  destruct (Z.max_spec 1 (div_ceil (od_encoded_bytes d) mc)) as [[? ->]|[? ->]]; nia.
Qed.

(** ** One push *)

(** Still receiving: every chunk so far was full. *)
Definition receiving (a : ChunkAssembler) : Prop :=
  plan_ok (as_plan a) /\ as_complete a = false /\
  0 <= as_next_sequence a < tp_chunks (as_plan a) /\
  Z.of_nat (length (as_payload a)) = tp_maximum_chunk_bytes (as_plan a) * as_next_sequence a.

(** Finished, with or without success: nothing is accepted any more. *)
Definition exhausted (a : ChunkAssembler) : Prop :=
  plan_ok (as_plan a) /\ as_next_sequence a = tp_chunks (as_plan a) /\
  Z.of_nat (length (as_payload a)) <= tp_encoded_bytes (as_plan a).

Lemma expected_bytes_spec p s :
  plan_ok p -> 0 <= s < tp_chunks p ->
  expected_chunk_bytes p s =
    Some (Z.min (tp_maximum_chunk_bytes p)
            (tp_encoded_bytes p - tp_maximum_chunk_bytes p * s)).
Proof.
  intros [] Hs. unfold expected_chunk_bytes. rewrite checked_add_fits by lia. simpl.
  destruct (Z.ltb_spec (s + 1) (tp_chunks p)) as [Hl|Hl].
  - rewrite Z.min_l; [done|]. nia.
  - assert (s = tp_chunks p - 1) as -> by lia.
    rewrite !(proj2 (Z.leb_le _ _)) by lia. simpl. rewrite Z.min_r; [done|]. lia.
Qed.

Inductive push_outcome (c : ChunkEnvelope) (a : ChunkAssembler)
  : Res (option bytes) -> ChunkAssembler -> Prop :=
| push_refused e : push_outcome c a (Err e) a
| push_continues a' :
    receiving a' -> as_plan a' = as_plan a -> as_payload a' = as_payload a ++ ch_payload c ->
    push_outcome c a (Ok None) a'
| push_completes a' :
    exhausted a' -> as_plan a' = as_plan a ->
    sha256 (as_payload a ++ ch_payload c) = tp_payload_sha256 (as_plan a) ->
    Z.of_nat (length (as_payload a ++ ch_payload c)) = tp_encoded_bytes (as_plan a) ->
    push_outcome c a (Ok (Some (as_payload a ++ ch_payload c))) a'
| push_corrupt a' :
    exhausted a' -> as_plan a' = as_plan a ->
    sha256 (as_payload a ++ ch_payload c) <> tp_payload_sha256 (as_plan a) ->
    push_outcome c a (Err (protocol_error "offprint.collector.payload_checksum")) a'.

Lemma chunk_validate_ok mc c :
  chunk_validate mc c = Ok tt <->
  ch_total c <> 0 /\ ch_sequence c < ch_total c /\ ch_payload_length c = len_u64 (ch_payload c) /\
  ch_payload_length c <= mc /\ ch_payload_crc32 c = crc32 (ch_payload c).
Proof.
  unfold chunk_validate.
  destruct (Z.eqb_spec (ch_total c) 0), (Z.leb_spec (ch_total c) (ch_sequence c)),
    (Z.eqb_spec (ch_payload_length c) (len_u64 (ch_payload c))),
    (Z.ltb_spec mc (ch_payload_length c)),
    (Z.eqb_spec (ch_payload_crc32 c) (crc32 (ch_payload c))); simpl; naive_solver lia.
Qed.

(** The envelopes a receiving assembler accepts. *)
Definition acceptable (a : ChunkAssembler) (c : ChunkEnvelope) : Prop :=
  ch_capture_id c = tp_capture_id (as_plan a) /\ ch_frame_id c = tp_frame_id (as_plan a) /\
  ch_total c = tp_chunks (as_plan a) /\
  chunk_validate (tp_maximum_chunk_bytes (as_plan a)) c = Ok tt /\
  ch_sequence c = as_next_sequence a /\
  ch_payload_length c = Z.min (tp_maximum_chunk_bytes (as_plan a))
    (tp_encoded_bytes (as_plan a) - tp_maximum_chunk_bytes (as_plan a) * as_next_sequence a).

(** An acceptable envelope is stored; the last one decides by the digest. *)
Lemma push_acceptable a c :
  receiving a -> chunk_in_range c -> acceptable a c ->
  assembler_push c a =
    let payload := as_payload a ++ ch_payload c in
    let a' := MkAssembler (as_plan a) (as_next_sequence a + 1) payload false in
    Some (if negb (as_next_sequence a + 1 =? tp_chunks (as_plan a)) then (Ok None, a')
          else if negb (bool_decide (sha256 payload = tp_payload_sha256 (as_plan a)))
          then (Err (protocol_error "offprint.collector.payload_checksum"), a')
          else (Ok (Some payload),
                MkAssembler (as_plan a) (as_next_sequence a + 1) [] true)).
Proof.
  intros (Hp & Hc & Hn & Hl) Hr (E1 & E2 & E3 & E4 & E5 & E6). unfold assembler_push.
  rewrite bool_decide_eq_false_2 by (by intros []). rewrite E2, Z.eqb_refl. simpl.
  rewrite E3, Z.eqb_refl. simpl. rewrite E4, Hc, E5, Z.eqb_refl. simpl.
  rewrite expected_bytes_spec by done. simpl. rewrite E6, Z.eqb_refl. simpl.
  destruct Hp as [Hp1 Hp2 Hp3 Hp4 Hp5].
  rewrite checked_add_fits by lia. rewrite (proj2 (Z.ltb_ge _ _)) by lia.
  rewrite checked_add_fits by lia. simpl.
  destruct (Z.eqb_spec (as_next_sequence a + 1) (tp_chunks (as_plan a))) as [Hlast|Hlast]; simpl; [|done].
  rewrite (proj2 (Z.eqb_eq (_ + _) _)); [|rewrite Hl; assert (as_next_sequence a = tp_chunks (as_plan a) - 1) as -> by lia; lia].
  simpl. by destruct (bool_decide _).
Qed.

(** Any other envelope is refused and changes nothing. *)
Lemma push_not_acceptable a c :
  plan_ok (as_plan a) -> 0 <= as_next_sequence a -> in_u32 (ch_sequence c) ->
  (as_complete a = false -> as_next_sequence a < tp_chunks (as_plan a) -> ~ acceptable a c) ->
  exists e, assembler_push c a = Some (Err e, a).
Proof.
  intros Hp Hn Hr Hno. unfold assembler_push, acceptable in *.
  destruct (bool_decide_reflect (ch_capture_id c <> tp_capture_id (as_plan a))) as [|E1]; [by eexists|].
  destruct (Z.eqb_spec (ch_frame_id c) (tp_frame_id (as_plan a))) as [E2|]; [|by eexists]. simpl.
  destruct (Z.eqb_spec (ch_total c) (tp_chunks (as_plan a))) as [E3|]; [|by eexists]. simpl.
  destruct (chunk_validate _ c) as [[]|e] eqn:E4; [|by eexists].
  destruct (as_complete a) eqn:Hc; [by eexists|].
  destruct (Z.eqb_spec (ch_sequence c) (as_next_sequence a)) as [E5|]; [|by eexists]. simpl.
  apply chunk_validate_ok in E4 as E4'. destruct E4' as (_ & Hlt & _).
  rewrite expected_bytes_spec by (done || lia). simpl. rewrite E5.
  destruct (Z.eqb_spec (ch_payload_length c)
    (Z.min (tp_maximum_chunk_bytes (as_plan a))
       (tp_encoded_bytes (as_plan a) - tp_maximum_chunk_bytes (as_plan a) * as_next_sequence a)))
    as [E6|]; [|by eexists].
  exfalso. apply Hno; [done|lia|]. apply dec_stable in E1. done.
Qed.

Lemma chunk_length c mc : chunk_in_range c -> chunk_validate mc c = Ok tt ->
  Z.of_nat (length (ch_payload c)) = ch_payload_length c.
Proof.
  intros (_ & _ & Hl) (_ & _ & -> & _)%chunk_validate_ok. by rewrite len_u64_small.
Qed.

Lemma acceptable_dec a c : acceptable a c \/ ~ acceptable a c.
Proof.
  unfold acceptable.
  assert (Decision (chunk_validate (tp_maximum_chunk_bytes (as_plan a)) c = Ok tt)).
  { destruct (chunk_validate _ c) as [[]|]; [by left|by right]. }
  destruct (decide (ch_capture_id c = tp_capture_id (as_plan a) /\ ch_frame_id c = tp_frame_id (as_plan a) /\
  ch_total c = tp_chunks (as_plan a) /\
  chunk_validate (tp_maximum_chunk_bytes (as_plan a)) c = Ok tt /\
  ch_sequence c = as_next_sequence a /\
  ch_payload_length c = Z.min (tp_maximum_chunk_bytes (as_plan a))
    (tp_encoded_bytes (as_plan a) - tp_maximum_chunk_bytes (as_plan a) * as_next_sequence a))); auto.
Qed.

Lemma push_receiving a c :
  receiving a -> chunk_in_range c ->
  exists r a', assembler_push c a = Some (r, a') /\ push_outcome c a r a'.
Proof.
  intros Hrec Hr. destruct (acceptable_dec a c) as [Ha|Ha].
  - rewrite push_acceptable by done. cbv zeta. destruct Hrec as (Hp & Hc & Hn & Hl).
    destruct Ha as (_ & _ & _ & Hv & _ & Hlen). assert (Hcl := chunk_length c _ Hr Hv).
    destruct (Z.eqb_spec (as_next_sequence a + 1) (tp_chunks (as_plan a))) as [Hlast|Hlast]; simpl.
    + assert (Htotal : Z.of_nat (length (as_payload a ++ ch_payload c)) = tp_encoded_bytes (as_plan a)).
      { rewrite length_app. destruct Hp.
        assert (as_next_sequence a = tp_chunks (as_plan a) - 1) as Hs by lia. rewrite Hs in *. lia. }
      destruct (bool_decide_reflect (sha256 (as_payload a ++ ch_payload c) = tp_payload_sha256 (as_plan a)));
        eexists _, _; (split; [done|]).
      * apply push_completes; try done. split; [done|]. split; [done|]. simpl. destruct Hp; lia.
      * apply push_corrupt; try done. split; [done|]. split; [done|]. simpl. lia.
    + eexists _, _. split; [done|]. apply push_continues; try done.
      split; [done|]. split; [done|]. simpl. split; [lia|]. rewrite length_app.
      destruct Hp. assert (tp_maximum_chunk_bytes (as_plan a) * (as_next_sequence a + 1) <= tp_encoded_bytes (as_plan a)) by nia.
      lia.
  - destruct (push_not_acceptable a c) as [e He]; [apply Hrec|apply Hrec|apply Hr|done|].
    eexists _, _. split; [exact He|]. apply push_refused.
Qed.

Lemma push_exhausted a c :
  exhausted a -> chunk_in_range c -> exists e, assembler_push c a = Some (Err e, a).
Proof.
  intros (Hp & Hn & _) (Hr & _). apply push_not_acceptable; try done; [destruct Hp; lia|]. intros _ ?. lia.
Qed.

Lemma push_all_exhausted cs a :
  exhausted a -> Forall chunk_in_range cs ->
  exists rs, push_all cs a = Some (rs, a) /\ Forall (fun r => is_ok r = false) rs /\
    length rs = length cs.
Proof.
  intros Ha. induction 1 as [|c cs Hc _ IH]; [by exists []|].
  destruct (push_exhausted a c Ha Hc) as [e He]. destruct IH as (rs & Hrs & Hall & Hlen).
  exists (Err e :: rs). cbn [push_all]. rewrite He. simpl. rewrite Hrs. simpl.
  split; [done|]. split; [by constructor|lia].
Qed.

Lemma accepted_refused cs rs : Forall (fun r => is_ok r = false) rs -> accepted cs rs = [].
Proof.
  intros Hall. revert cs. induction Hall as [|r rs Hr _ IH]; intros [|c cs]; simpl; try done.
  by rewrite Hr, IH.
Qed.

Definition delivers (r : Res (option bytes)) : bool :=
  match r with Ok (Some _) => true | _ => false end.

Lemma refused_no_delivery (rs : list (Res (option bytes))) p : Forall (fun r => is_ok r = false) rs -> Ok (Some p) ∉ rs.
Proof. intros Hall Hin. rewrite Forall_forall in Hall. apply list_elem_of_In in Hin. by apply Hall in Hin. Qed.

Lemma refused_no_deliveries rs :
  Forall (fun r => is_ok r = false) rs -> List.filter delivers rs = [].
Proof. induction 1 as [|[|] rs]; simpl; done. Qed.

(** Any envelopes in any order. *)
Lemma push_all_receiving cs a :
  receiving a -> Forall chunk_in_range cs ->
  exists rs a', push_all cs a = Some (rs, a') /\ as_plan a' = as_plan a /\
    Z.of_nat (length (as_payload a')) <= tp_encoded_bytes (as_plan a) /\
    (length (List.filter delivers rs) <= 1)%nat /\
    forall p, Ok (Some p) ∈ rs ->
      p = as_payload a ++ accepted cs rs /\ sha256 p = tp_payload_sha256 (as_plan a) /\
      Z.of_nat (length p) = tp_encoded_bytes (as_plan a).
Proof.
  intros Ha Hcs. revert a Ha. induction Hcs as [|c cs Hc Hcs IH]; intros a Ha.
  { exists [], a. split; [done|]. split; [done|]. split; [|split; [simpl; lia|set_solver]].
    destruct Ha as ([] & _ & ? & ->). nia. }
  destruct (push_receiving a c Ha Hc) as (r & a1 & Hp & Ho). cbn [push_all]. rewrite Hp. simpl.
  destruct Ho as [e|a1 Ha1 Epl Epay|a1 Ha1 Epl Esha Elen|a1 Ha1 Epl Esha].
  - destruct (IH a Ha) as (rs & a2 & Hrs & Epl & Hlen & Hone & Hall). rewrite Hrs. simpl.
    eexists _, _. split; [done|]. split; [done|]. split; [done|]. split; [done|].
    intros p [?|Hin]%elem_of_cons; [done|]. simpl. by apply Hall.
  - destruct (IH a1 Ha1) as (rs & a2 & Hrs & Epl2 & Hlen & Hone & Hall). rewrite Hrs. simpl.
    rewrite Epl in *. eexists _, _. split; [done|]. split; [congruence|]. split; [done|]. split; [done|].
    intros p [?|Hin]%elem_of_cons; [done|]. simpl. destruct (Hall p Hin) as (-> & H1 & H2).
    rewrite Epay in *. rewrite <- !app_assoc in *. done.
  - destruct (push_all_exhausted cs a1 Ha1 Hcs) as (rs & Hrs & Hno & _). rewrite Hrs. simpl.
    eexists _, _. split; [done|]. split; [done|]. split; [rewrite <- Epl; apply Ha1|].
    split; [simpl; by rewrite refused_no_deliveries|].
    intros p [[= ->]|Hin]%elem_of_cons; [|by apply refused_no_delivery in Hin].
    by rewrite accepted_refused, app_nil_r.
  - destruct (push_all_exhausted cs a1 Ha1 Hcs) as (rs & Hrs & Hno & _). rewrite Hrs. simpl.
    eexists _, _. split; [done|]. split; [done|]. split; [rewrite <- Epl; apply Ha1|].
    split; [simpl; rewrite refused_no_deliveries by done; simpl; lia|].
    intros p [?|Hin]%elem_of_cons; [done|by apply refused_no_delivery in Hin].
Qed.

Lemma assembler_new_receiving p : plan_ok p -> receiving (assembler_new p).
Proof. intros Hp. split; [done|]. split; [done|]. destruct Hp. simpl. lia. Qed.

(** The collector's side: one envelope per sequence number, each the next slice
    of the payload. *)
Definition slice (mc : Z) (payload : bytes) (sequence : Z) : bytes :=
  take (Z.to_nat mc) (drop (Z.to_nat (mc * sequence)) payload).

Definition envelope (p : TransferPlan) (payload : bytes) (sequence : Z) : ChunkEnvelope :=
  chunk_new (tp_capture_id p) (tp_frame_id p) sequence (tp_chunks p)
    (slice (tp_maximum_chunk_bytes p) payload sequence).

(** The assembler after the first [k] slices. *)
Definition assembled (p : TransferPlan) (payload : bytes) (k : Z) : ChunkAssembler :=
  MkAssembler p k (take (Z.to_nat (tp_maximum_chunk_bytes p * k)) payload) false.

Lemma envelope_acceptable p payload k :
  plan_ok p -> tp_encoded_bytes p = Z.of_nat (length payload) -> 0 <= k < tp_chunks p ->
  receiving (assembled p payload k) /\ chunk_in_range (envelope p payload k) /\
  acceptable (assembled p payload k) (envelope p payload k) /\
  as_payload (assembled p payload k) ++ ch_payload (envelope p payload k) =
    take (Z.to_nat (tp_maximum_chunk_bytes p * (k + 1))) payload.
Proof.
  intros Hp Hlen Hk. assert (Hp' := Hp). destruct Hp as [Hp1 Hp2 Hp3 Hp4 Hp5].
  assert (Hmul : tp_maximum_chunk_bytes p * k <= tp_encoded_bytes p) by nia.
  assert (Hsl : Z.of_nat (length (slice (tp_maximum_chunk_bytes p) payload k)) =
    Z.min (tp_maximum_chunk_bytes p) (tp_encoded_bytes p - tp_maximum_chunk_bytes p * k)).
  { unfold slice. rewrite length_take, length_drop. lia. }
  split; [|split; [|split]].
  - split; [done|]. split; [done|]. split; [done|]. simpl. rewrite length_take. nia.
  - unfold chunk_in_range, envelope, in_u32; simpl. split; [lia|]. split; [lia|]. ranges; lia.
  - unfold acceptable, envelope, assembled; simpl.
    rewrite len_u64_small by (ranges; lia). repeat (split; [done|]). split; [|done].
    apply chunk_validate_ok; simpl. rewrite len_u64_small by (ranges; lia). lia.
  - unfold assembled, envelope, slice; simpl.
    replace (Z.to_nat (tp_maximum_chunk_bytes p * (k + 1)))
      with (Z.to_nat (tp_maximum_chunk_bytes p * k) + Z.to_nat (tp_maximum_chunk_bytes p))%nat by nia.
    by rewrite take_take_drop.
Qed.

Lemma push_slices p payload n k :
  plan_ok p -> tp_encoded_bytes p = Z.of_nat (length payload) ->
  sha256 payload = tp_payload_sha256 p -> 0 <= k -> tp_chunks p = k + Z.of_nat (S n) ->
  push_all (map (envelope p payload) (seqZ k (Z.of_nat (S n)))) (assembled p payload k) =
    Some (replicate n (Ok None) ++ [Ok (Some payload)], MkAssembler p (tp_chunks p) [] true).
Proof.
  intros Hp Hlen Hsha. revert k. induction n as [|n IH]; intros k Hk Hn.
  - destruct (envelope_acceptable p payload k) as (H1 & H2 & H3 & H4); [done|done|lia|].
    rewrite seqZ_cons by lia. replace (Z.pred (Z.of_nat 1)) with 0 by lia. cbn [map push_all].
    rewrite push_acceptable by done. cbv zeta. rewrite H4. cbn [as_plan as_next_sequence assembled].
    rewrite (proj2 (Z.eqb_eq (k + 1) _)) by lia. simpl negb.
    rewrite take_ge by (destruct Hp; nia). rewrite bool_decide_eq_true_2 by done. simpl.
    by replace (k + 1) with (tp_chunks p) by lia.
  - destruct (envelope_acceptable p payload k) as (H1 & H2 & H3 & H4); [done|done|lia|].
    rewrite seqZ_cons by lia. replace (Z.pred (Z.of_nat (S (S n)))) with (Z.of_nat (S n)) by lia.
    cbn [map push_all]. rewrite push_acceptable by done. cbv zeta. rewrite H4.
    cbn [as_plan as_next_sequence assembled].
    rewrite (proj2 (Z.eqb_neq (k + 1) _)) by lia. simpl negb. cbn [mbind option_bind].
    change (MkAssembler p (k + 1) _ false) with (assembled p payload (k + 1)).
    replace (Z.succ k) with (k + 1) by lia. rewrite (IH (k + 1)) by lia. done.
Qed.

(** ** Properties *)

(** C38: What the assembler delivers is the described payload and nothing else:
    for an accepted descriptor and any envelopes in any order, wrong or
    duplicated ones included, no arithmetic leaves its width, at most one payload
    is delivered, it is the concatenation of the accepted chunks, its digest and
    its length are those of the descriptor, and the assembler never holds more
    than the limit the caller gave. *)
Theorem assembler_sound d cid fid mc mp p cs :
  0 <= mc <= u64_max -> 0 <= od_encoded_bytes d <= u64_max ->
  transfer_plan_new d cid fid mc mp = Ok p -> Forall chunk_in_range cs ->
  exists rs a, push_all cs (assembler_new p) = Some (rs, a) /\
    Z.of_nat (length (as_payload a)) <= mp /\
    (length (List.filter delivers rs) <= 1)%nat /\
    forall payload, Ok (Some payload) ∈ rs ->
      payload = accepted cs rs /\ sha256 payload = od_payload_sha256 d /\
      Z.of_nat (length payload) = od_encoded_bytes d.
Proof.
  intros Hmc He Hp Hcs. apply transfer_plan_ok in Hp as (Hp & E1 & E2 & E3 & _); [|done|done].
  destruct (push_all_receiving cs (assembler_new p)) as (rs & a & Hrs & _ & Hlen & Hone & Hall);
    [by apply assembler_new_receiving|done|].
  exists rs, a. simpl in *. rewrite E1, E3 in *. split; [done|]. split; [lia|]. split; done.
Qed.

(** A payload goes through: for every payload whose descriptor the host
    accepts, pushing the successive slices of it answers "more" for each slice
    but the last and delivers exactly the payload with the last. *)
Theorem transfer_round_trip payload n cid fid mc mp p :
  0 <= mc <= u64_max -> Z.of_nat (length payload) <= usize_max ->
  transfer_plan_new (MkDescriptor cid fid n (Z.of_nat (length payload)) (sha256 payload))
    cid fid mc mp = Ok p ->
  push_all (map (envelope p payload) (sequences p)) (assembler_new p) =
    Some (replicate (Z.to_nat (tp_chunks p) - 1) (Ok None) ++ [Ok (Some payload)],
          MkAssembler p (tp_chunks p) [] true).
Proof.
  intros Hmc Hlen Hp. apply transfer_plan_ok in Hp as (Hp & E1 & _ & E3 & _); simpl in *; try done;
    [|ranges; lia].
  assert (Hn : tp_chunks p = Z.of_nat (S (Z.to_nat (tp_chunks p) - 1))) by (destruct Hp; lia).
  unfold sequences. rewrite Hn at 1.
  assert (Hz : assembler_new p = assembled p payload 0).
  { unfold assembler_new, assembled. by rewrite Z.mul_0_r. }
  rewrite Hz. apply push_slices; done || lia.
Qed.

(** A descriptor is accepted exactly when it belongs to the expected frame,
    fits the limit and declares the number of full chunks its bytes need (one
    for an empty payload); the plan it gives never asks for a chunk of a size
    that overflows. *)
Theorem descriptor_accepted d cid fid mc mp :
  0 <= mc <= u64_max -> 0 <= od_encoded_bytes d <= u64_max ->
  (is_ok (transfer_plan_new d cid fid mc mp) = true <->
   od_capture_id d = cid /\ od_frame_id d = fid /\ mc <> 0 /\ od_encoded_bytes d <= mp /\
   od_chunks d = Z.max 1 (div_ceil (od_encoded_bytes d) mc) /\ od_chunks d <= u32_max).
Proof.
  intros Hmc He. unfold transfer_plan_new.
  destruct (bool_decide_reflect (od_capture_id d <> cid)) as [|E1]; simpl; [naive_solver|].
  apply dec_stable in E1.
  destruct (Z.eqb_spec (od_frame_id d) fid); simpl; [|naive_solver].
  destruct (Z.eqb_spec mc 0); [naive_solver|].
  destruct (Z.ltb_spec mp (od_encoded_bytes d)); [simpl; naive_solver lia|].
  unfold try_from. set (needed := Z.max 1 (div_ceil (od_encoded_bytes d) mc)).
  assert (1 <= needed) by lia.
  destruct (Z.leb_spec 0 needed), (Z.leb_spec needed u32_max); simpl; try (naive_solver lia; fail).
  destruct (Z.eqb_spec (od_chunks d) needed); simpl; naive_solver lia.
Qed.
End Transfer.

(** Negotiation never grants more than both sides offer: on success the
    majors agree, the minor version is the smaller one, every granted capability
    is available, and the chunk size is positive and within both limits;
    otherwise one of these is the reason for the error. *)
Theorem negotiation_sound h host limit :
  0 <= hs_maximum_chunk_bytes h -> 0 <= limit ->
  match negotiate_protocol h host limit with
  | Ok n =>
      major (np_version n) = major (hs_protocol h) /\ major (np_version n) = major host /\
      minor (np_version n) = Z.min (minor host) (minor (hs_protocol h)) /\
      np_capabilities n = hs_requested h /\
      Forall (fun c => c ∈ hs_available h) (np_capabilities n) /\
      0 < np_chunk_bytes n <= hs_maximum_chunk_bytes h /\ np_chunk_bytes n <= limit
  | Err e =>
      (err_code e = "offprint.collector.protocol_major" /\ major (hs_protocol h) <> major host) \/
      (err_code e = "offprint.collector.capability" /\
       Exists (fun c => c ∉ hs_available h) (hs_requested h)) \/
      (err_code e = "offprint.collector.chunk_limit" /\
       (hs_maximum_chunk_bytes h = 0 \/ limit = 0))
  end.
Proof.
  intros Hm Hl. unfold negotiate_protocol.
  destruct (Z.eqb_spec (major (hs_protocol h)) (major host)) as [Emaj|]; cbn [negb];
    [|left; split; [exact (new_error_code _ _)|assumption]].
  destruct (bool_decide_reflect (filter (fun c => c ∉ hs_available h) (hs_requested h) = []))
    as [Emis|Emis]; cbn [negb].
  - destruct (Z.eqb_spec (Z.min (hs_maximum_chunk_bytes h) limit) 0); cbn [np_version np_capabilities np_chunk_bytes major minor];
      [right; right; split; [exact (new_error_code _ _)|lia]|].
    repeat split; try done; try lia.
    + unfold version_min. rewrite Emaj, Z.ltb_irrefl, Z.eqb_refl. simpl.
      destruct (Z.leb_spec (minor host) (minor (hs_protocol h))); lia.
    + apply Forall_forall. intros c Hc. apply list_elem_of_In in Hc.
      destruct (decide (c ∈ hs_available h)) as [|Hn]; [done|].
      assert (Hin : c ∈ filter (fun c => c ∉ hs_available h) (hs_requested h))
        by (by apply list_elem_of_filter).
      rewrite Emis in Hin. set_solver.
  - right. left. split; [rewrite with_detail_code; exact (new_error_code _ _)|].
    destruct (filter (fun c => c ∉ hs_available h) (hs_requested h)) as [|c l] eqn:E; [done|].
    assert (Hin : c ∈ filter (fun c => c ∉ hs_available h) (hs_requested h)) by (rewrite E; set_solver).
    apply list_elem_of_filter in Hin as [H1 H2]. apply Exists_exists. exists c.
    split; [by apply list_elem_of_In|done].
Qed.

(** ** Witnesses *)

#[local] Instance sum_checksum : Checksum := fun b => Z.of_nat (length b).
#[local] Instance plain_digest : Hashing :=
  { sha256_raw b := b; hex_encode b := string_of_list_ascii b }.

Definition sample_payload : bytes := as_bytes "offprint".

Definition sample_descriptor : ObservationDescriptor :=
  MkDescriptor "cap_1" 7 3 8 (sha256 sample_payload).

Definition sample_plan : TransferPlan := MkPlan "cap_1" 7 3 8 (sha256 sample_payload) 3.

(** A stray chunk, a corrupted one and a duplicate among the good ones. *)
Definition stray_chunks : list ChunkEnvelope :=
  [envelope sample_plan sample_payload 1; envelope sample_plan sample_payload 0;
   envelope sample_plan sample_payload 0; MkChunk "cap_1" 7 1 3 3 99 (as_bytes "xyz");
   envelope sample_plan sample_payload 1; envelope sample_plan sample_payload 2;
   envelope sample_plan sample_payload 2].

Lemma assembler_sound_witness :
  exists rs a, push_all stray_chunks (assembler_new sample_plan) = Some (rs, a) /\
    map is_ok rs = [false; true; false; false; true; true; false] /\
    (length (List.filter delivers rs) <= 1)%nat.
Proof.
  destruct (assembler_sound sample_descriptor "cap_1" 7 3 100 sample_plan stray_chunks)
    as (rs & a & Hrs & _ & Hone & _).
  - ranges; lia.
  - simpl; ranges; lia.
  - vm_compute. reflexivity.
  - repeat constructor; unfold in_u32; simpl; ranges; lia.
  - exists rs, a. split; [exact Hrs|]. split; [|exact Hone].
    assert (E : map is_ok <$> (fst <$> push_all stray_chunks (assembler_new sample_plan)) =
                Some [false; true; false; false; true; true; false]) by (vm_compute; reflexivity).
    rewrite Hrs in E. simpl in E. congruence.
Defined.

Lemma transfer_round_trip_witness :
  push_all (map (envelope sample_plan sample_payload) (sequences sample_plan))
    (assembler_new sample_plan) =
  Some ([Ok None; Ok None; Ok (Some sample_payload)], MkAssembler sample_plan 3 [] true).
Proof.
  apply (transfer_round_trip sample_payload 3 "cap_1" 7 3 100 sample_plan).
  - ranges; lia.
  - simpl; ranges; lia.
  - vm_compute. reflexivity.
Defined.

Lemma descriptor_accepted_witness :
  is_ok (transfer_plan_new sample_descriptor "cap_1" 7 3 100) = true.
Proof.
  apply (descriptor_accepted sample_descriptor "cap_1" 7 3 100).
  - ranges; lia.
  - simpl; ranges; lia.
  - vm_compute. repeat split; discriminate.
Defined.

Definition sample_handshake : CollectorHandshake :=
  MkHandshake (MkVersion 1 4) "cap_1" (sha256 []) (sha256 []) [Cssom] [CanvasPixels; Cssom] 100.

Lemma negotiation_sound_witness :
  match negotiate_protocol sample_handshake COLLECTOR_PROTOCOL_VERSION 50 with
  | Ok n => np_version n = MkVersion 1 4 /\ 0 < np_chunk_bytes n <= 100
  | Err _ => False
  end.
Proof.
  assert (Hn := negotiation_sound sample_handshake COLLECTOR_PROTOCOL_VERSION 50).
  simpl in Hn. specialize (Hn ltac:(lia) ltac:(lia)).
  simpl. destruct Hn as (_ & _ & _ & _ & _ & Hc & _). split; [reflexivity|]. simpl in *. lia.
Defined.
