(* ===== verification/SingleFile.v ===== *)
(** * Delivering one artifact file

    Models [offprint-rs/artifact/src/transaction.rs] on Linux: an artifact is
    written to a temporary file beside its destination, and committed by one
    rename after its identity, length and digest have been checked again.

    [tempfile] enters by its documented effect on the file system: a temporary
    file has a fresh name, [persist] renames it over the destination,
    [persist_noclobber] renames it unless the destination exists, and dropping
    it removes the file.  Paths are absolute; the destination has a file name. *)

From Stdlib Require Import ZArith Lia Ascii String.
From stdpp Require Import base tactics list gmap strings numbers sorting.
From S2P Require Import Prelude.
From S2P Require Import Errors.
From S2P Require Import Fs.
From S2P Require Import Io.
From S2P Require Import FsFacts.
From S2P Require Import Records.
From S2P Require Import Durable.

#[local] Open Scope string_scope.
#[local] Open Scope Z_scope.
#[local] Open Scope list_scope.

(** ** Temporary files *)

Record NamedTempFile := MkTemp { nt_path : path; nt_ino : nat }.

Fixpoint draw_temp_file (prefix : string) (d : path) (names : list string) (s : fs)
    : result io_kind (NamedTempFile * fs) :=
  match names with
  | [] => Err AlreadyExists
  | suffix :: names' =>
      let p := d ++ [String.append prefix suffix] in
      match sys_create_new p s with
      | Ok (i, s') => Ok (MkTemp p i, set_entropy names' s')
      | Err AlreadyExists => draw_temp_file prefix d names' s
      | Err k => Err k
      end
  end.

Definition fs_temp_file_in (prefix : string) (d : path) : IO NamedTempFile :=
  sys (fun s => draw_temp_file prefix d (entropy s) s).

(** [renameat2(RENAME_NOREPLACE)]. *)
Definition sys_rename_noreplace (src dst : path) : call unit := fun s =>
  p <-? locate (tree s) src ;;
  n <-? ok_or (tget (tree s) p) NotFound ;;
  q <-? locate (tree s) dst ;;
  match tget (tree s) q with
  | Some _ => Err AlreadyExists
  | None =>
      t1 <-? ok_or (tput (tree s) p None) InvalidInput ;;
      t2 <-? ok_or (tput t1 q (Some n)) InvalidInput ;;
      Ok (tt, set_tree t2 s)
  end.

Definition fs_persist (t : NamedTempFile) (dst : path) : IO unit := fs_rename (nt_path t) dst.
Definition fs_persist_noclobber (t : NamedTempFile) (dst : path) : IO unit :=
  sys (sys_rename_noreplace (nt_path t) dst).

(** Run with a temporary file that is dropped when an error is returned; its
    removal may fail, and that is ignored. *)
Definition or_drop {E A} (t : NamedTempFile) (m : M E A) : M E A :=
  r <- attempt m ;;
  match r with
  | Ok a => mpure a
  | Err e => attempt (fs_remove_file (nt_path t)) ;;; mfail e
  end.

(** [File::open] on a directory and [sync_all] on the handle; [Read::read] at
    the position of an open file. *)
Definition fs_open_dir (p : path) : IO unit :=
  sys (fun s => do? lookup_follow s p ;; Ok (tt, s)).
Definition fs_sync_handle : IO unit := sys (fun s => Ok (tt, s)).
Definition fs_read_at (i offset n : nat) : IO bytes :=
  sys (fun s => Ok (take n (drop offset (file_bytes s i)), s)).

(** ** Errors *)

Definition output_error (code : string) (stage : ErrorStage) : OffprintError := new_error code stage.

Definition output_io_error (code : string) (stage : ErrorStage) (k : io_kind) : OffprintError :=
  with_detail "ioKind" (DStr (io_kind_name k)) (output_error code stage).

Definition registered_output_io_error (code : string) (k : io_kind) : OffprintError :=
  with_detail "ioKind" (DStr (io_kind_name k))
    match List.find (fun d => bool_decide (d_code d = code)) ERROR_CODE_REGISTRY with
    | Some d => set_retryable (d_retryable d) (new_error (d_code d) (d_stage d))
    | None => new_error code Internal
    end.

(** ** Writing *)

Record FileArtifactWriter := MkWriter {
  fw_destination : path;
  fw_conflict : ConflictPolicy;
  fw_staging : NamedTempFile;
  fw_bytes : Z;
  fw_hasher : bytes;
}.

Record StagedFileArtifact := MkStagedFile {
  sf_destination : path;
  sf_conflict : ConflictPolicy;
  sf_staging : NamedTempFile;
  sf_bytes : Z;
  sf_sha256 : ContentDigest;
}.

(** [CaptureArtifact::File]. *)
Record FileArtifact := MkFileArtifact { fa_path : path; fa_bytes : Z; fa_sha256 : ContentDigest }.

Definition validate_destination (destination : path) (conflict : ConflictPolicy) : R unit :=
  match file_name destination with
  | None => mfail (output_error "offprint.output.path" Validation)
  | Some _ =>
      m <- map_err (output_io_error "offprint.output.directory" Validation)
             (fs_symlink_metadata (parent destination)) ;;
      if m_is_symlink m || negb (m_is_dir m)
      then mfail (output_error "offprint.output.directory" Validation)
      else
        r <- attempt (fs_symlink_metadata destination) ;;
        match r with
        | Ok m =>
            if bool_decide (conflict = ConflictFail)
            then mfail (output_error "offprint.output.exists" Validation)
            else if bool_decide (conflict = ConflictReplace) && m_is_symlink m
            then mfail (output_error "offprint.output.path" Validation)
            else if bool_decide (conflict = ConflictReplace) && negb (m_is_file m)
            then mfail (output_error "offprint.output.path" Validation)
            else mpure tt
        | Err NotFound => mpure tt
        | Err k => mfail (output_io_error "offprint.output.path" Validation k)
        end
  end.

Definition writer_create (destination : path) (conflict : ConflictPolicy) : R FileArtifactWriter :=
  validate_destination destination conflict ;;;
  match file_name destination with
  | None => mfail (output_error "offprint.output.path" Validation)
  | Some name =>
      staging <- map_err (registered_output_io_error "offprint.output.staging")
                   (fs_temp_file_in ("." +:+ name +:+ ".offprint-") (parent destination)) ;;
      mpure (MkWriter destination conflict staging 0 [])
  end.

(** [Write::write]: the operating system takes the first [taken] bytes. *)
Definition writer_write (taken : nat) (buffer : bytes) (w : FileArtifactWriter)
    : IO (nat * FileArtifactWriter) :=
  sys (sys_write (nt_ino (fw_staging w)) (take taken buffer)) ;;;
  let written := length (take taken buffer) in
  mpure (written,
         MkWriter (fw_destination w) (fw_conflict w) (fw_staging w)
           (saturating_add u64_max (fw_bytes w) (Z.min u64_max (Z.of_nat written)))
           (fw_hasher w ++ take written buffer)).

Section SingleFile.
Context `{Hashing}.

(** Flushing a [File] does nothing and cannot fail. *)
Definition writer_finish (w : FileArtifactWriter) : R StagedFileArtifact :=
  or_drop (fw_staging w)
    (map_err (output_io_error "offprint.output.sync" Encoding)
       (fs_sync_file (nt_ino (fw_staging w)))) ;;;
  mpure (MkStagedFile (fw_destination w) (fw_conflict w) (fw_staging w) (fw_bytes w)
           (sha256 (fw_hasher w))).

(** ** Reading back *)

Definition read_all (maximum_bytes : Z) (a : StagedFileArtifact) : R bytes :=
  if maximum_bytes <? sf_bytes a
  then mfail (output_error "offprint.artifact.size" Verification)
  else if usize_max <? sf_bytes a
  then mfail (output_error "offprint.artifact.size" Verification)
  else
    content <- map_err (output_io_error "offprint.output.read" Verification)
                 (fs_read_at (nt_ino (sf_staging a)) 0
                    (Z.to_nat (saturating_add u64_max maximum_bytes 1))) ;;
    if negb (len_u64 content =? sf_bytes a)
    then mfail (output_error "offprint.artifact.size" Verification)
    else mpure content.

(** ** Committing *)

Definition staging_matches_path (t : NamedTempFile) (m : metadata) : IO bool :=
  file <- fs_file_metadata (nt_ino t) ;;
  mpure (bool_decide (m_ino m = m_ino file)).

Definition validate_staging_path_identity (t : NamedTempFile) : R unit :=
  m <- map_err (output_io_error "offprint.output.staging" Commit) (fs_symlink_metadata (nt_path t)) ;;
  matches_path <- map_err (output_io_error "offprint.output.staging" Commit)
                    (staging_matches_path t m) ;;
  if m_is_symlink m || negb (m_is_file m) || negb matches_path
  then mfail (output_error "offprint.output.staging" Commit)
  else mpure tt.

Definition BUFFER_BYTES : Z := 64 * 1024.

(** The reading loop of [validate_staged_contents]: what is left to read, the
    text hashed and the position.  A read returns a full buffer or what is left
    of the file.  Every turn reads a byte, so [sf_bytes] turns are enough. *)
Fixpoint rehash (fuel i offset : nat) (remaining : Z) (hasher : bytes) : R (Z * bytes * nat) :=
  match fuel with
  | O => mpure (remaining, hasher, offset)
  | S fuel' =>
      if remaining <=? 0 then mpure (remaining, hasher, offset)
      else
        buffer <- map_err (output_io_error "offprint.output.read" Commit)
                    (fs_read_at i offset (Z.to_nat (Z.min remaining BUFFER_BYTES))) ;;
        if bool_decide (buffer = []) then mpure (remaining, hasher, offset)
        else rehash fuel' i (offset + length buffer) (saturating_sub remaining (len_u64 buffer))
               (hasher ++ buffer)
  end.

Definition validate_staged_contents (a : StagedFileArtifact) : R unit :=
  let t := sf_staging a in
  validate_staging_path_identity t ;;;
  map_err (output_io_error "offprint.output.sync" Commit) (fs_sync_file (nt_ino t)) ;;;
  r <- rehash (Z.to_nat (sf_bytes a)) (nt_ino t) 0 (sf_bytes a) [] ;;
  let '(remaining, hasher, offset) := r in
  trailing <- map_err (output_io_error "offprint.output.read" Commit)
                (fs_read_at (nt_ino t) offset 1) ;;
  if negb (remaining =? 0) || negb (bool_decide (trailing = []))
  then mfail (output_error "offprint.artifact.size" Commit)
  else if bool_decide (sha256 hasher <> sf_sha256 a)
  then mfail (output_error "offprint.artifact.digest" Commit)
  else validate_staging_path_identity t.

Definition persist_noclobber (t : NamedTempFile) (destination : path) : R unit :=
  map_err (fun k => output_io_error
             (if bool_decide (k = AlreadyExists) then "offprint.output.exists"
              else "offprint.output.commit") Commit k)
    (fs_persist_noclobber t destination).

Definition persist_replace (t : NamedTempFile) (destination : path) : R unit :=
  map_err (output_io_error "offprint.output.commit" Commit) (fs_persist t destination).

(** The name of the [suffix]-th candidate. *)
Definition candidate_name (name : string) (suffix : Z) : string :=
  if suffix =? 0 then name
  else
    let tagged := file_stem name +:+ "-" +:+ format_decimal suffix in
    match extension name with
    | Some ext => tagged +:+ "." +:+ ext
    | None => tagged
    end.

Definition single_candidate (requested : path) (suffix : Z) : path :=
  if suffix =? 0 then requested
  else parent requested ++ [candidate_name (default "capture" (file_name requested)) suffix].

(** One turn of the loop over [0_u32..]: the next suffix, or the name taken. *)
Definition try_candidate (t : NamedTempFile) (requested : path) (suffix : Z) : R (Z + path) :=
  let destination := single_candidate requested suffix in
  r <- attempt (fs_persist_noclobber t destination) ;;
  match r with
  | Ok _ => mpure (inr destination)
  | Err AlreadyExists => mpure (inl (suffix + 1))
  | Err k => mfail (output_io_error "offprint.output.commit" Commit k)
  end.

(** [2 ^ depth] turns at most. *)
Fixpoint turns {A} (depth : nat) (step : Z -> R (Z + A)) (from : Z) : R (Z + A) :=
  match depth with
  | O => step from
  | S depth' =>
      r <- turns depth' step from ;;
      match r with
      | inr a => mpure (inr a)
      | inl next => turns depth' step next
      end
  end.

Definition persist_unique (t : NamedTempFile) (requested : path) : R path :=
  r <- turns 32 (try_candidate t requested) 0 ;;
  match r with
  | inr destination => mpure destination
  | inl _ => mfail (output_error "offprint.output.uniquify" Commit)
  end.

Definition commit_with_parent_sync (sync_parent : IO unit) (a : StagedFileArtifact)
    : R FileArtifact :=
  let t := sf_staging a in
  destination <- or_drop t (
    validate_staged_contents a ;;;
    match sf_conflict a with
    | ConflictFail => persist_noclobber t (sf_destination a) ;;; mpure (sf_destination a)
    | ConflictReplace => persist_replace t (sf_destination a) ;;; mpure (sf_destination a)
    | ConflictUniquify => persist_unique t (sf_destination a)
    end) ;;
  attempt sync_parent ;;;
  mpure (MkFileArtifact destination (sf_bytes a) (sf_sha256 a)).

Definition open_parent_directory (destination : path) : R unit :=
  map_err (output_io_error "offprint.output.sync" Commit) (fs_open_dir (parent destination)).

Definition commit_single (a : StagedFileArtifact) : R FileArtifact :=
  or_drop (sf_staging a) (open_parent_directory (sf_destination a)) ;;;
  commit_with_parent_sync fs_sync_handle a.

End SingleFile.
