(* ===== verification/SingleFileFacts.v ===== *)
(** * Delivering one artifact file is atomic

    The commit of [SingleFile] under every fault schedule: the destination is
    the old one or the whole verified artifact; without faults it succeeds;
    what was not the verified artifact is never delivered. *)

From Stdlib Require Import ZArith Lia Ascii String.
From stdpp Require Import base tactics list gmap strings numbers sorting.
From S2P Require Import Prelude.
From S2P Require Import Errors.
From S2P Require Import Fs.
From S2P Require Import Io.
From S2P Require Import FsFacts.
From S2P Require Import Records.
From S2P Require Import Durable.
From S2P Require Import SingleFile.

#[local] Open Scope string_scope.
#[local] Open Scope Z_scope.
#[local] Open Scope list_scope.

(** ** Changes inside one directory *)

(** Nothing outside [d] differs, and no file content does. *)
Definition only_in (d : path) (s s' : fs) : Prop :=
  inodes s' = inodes s /\ forall q, disjoint_paths d q -> sub s' q = sub s q.

Definition dir_is (d : path) (m : gmap string node) (s : fs) : Prop := sub s d = Some (NDir m).

Lemma tput_in_dir d c v m t :
  tget t d = Some (NDir m) ->
  exists t', tput t (d ++ [c]) v = Some t' /\
    tget t' d = Some (NDir (partial_alter (fun _ => v) c m)) /\
    forall q, disjoint_paths d q -> tget t' q = tget t q.
Proof.
  intros Hd. destruct (tput_Some_ex t d m c v Hd) as [t' Ht]. exists t'.
  split; [done|]. split; [by eapply tput_snoc|].
  intros q Hq. eapply tget_tput_other; [exact Ht|]. by apply disjoint_paths_app_l.
Qed.

(** Taking one name away and giving it to another. *)
Lemma tput_move d a c n m t :
  tget t d = Some (NDir m) ->
  exists t1 t2, tput t (d ++ [a]) None = Some t1 /\ tput t1 (d ++ [c]) (Some n) = Some t2 /\
    tget t2 d = Some (NDir (<[c := n]> (delete a m))) /\
    forall q, disjoint_paths d q -> tget t2 q = tget t q.
Proof.
  intros Hd. destruct (tput_in_dir d a None m t Hd) as (t1 & H1 & Hd1 & Ho1).
  destruct (tput_in_dir d c (Some n) _ t1 Hd1) as (t2 & H2 & Hd2 & Ho2).
  exists t1, t2. split; [done|]. split; [done|]. split; [exact Hd2|].
  intros q Hq. by rewrite Ho2, Ho1.
Qed.

Lemma only_in_tree d t s :
  (forall q, disjoint_paths d q -> tget t q = sub s q) -> only_in d s (set_tree t s).
Proof. by intros Hq. Qed.

Lemma only_in_refl d s : only_in d s s.
Proof. done. Qed.

Section Moves.
Context (d : path) (m : gmap string node) (s : fs) (Hd : dir_is d m s).

(** The name [a] removed; the name [a] given up for [c]. *)
Definition without (a : string) (s' : fs) : Prop := dir_is d (delete a m) s' /\ only_in d s s'.
Definition moved (a c : string) (s' : fs) : Prop :=
  exists n, m !! a = Some n /\ dir_is d (<[c := n]> (delete a m)) s' /\ only_in d s s'.

Lemma remove_name a :
  match sys_remove_file (d ++ [a]) s with Ok (_, s') => without a s' | Err _ => True end.
Proof using Hd.
  unfold sys_remove_file. rewrite (locate_direct _ _ _ _ Hd). simpl.
  rewrite (tget_snoc _ _ _ _ Hd). destruct (m !! a) as [[]|]; try done;
    destruct (tput_in_dir d a None m (tree s) Hd) as (t & Ht & Hdt & Ho); rewrite Ht; simpl;
    (split; [exact Hdt|by apply only_in_tree]).
Qed.

Lemma rename_noreplace_name a c :
  match sys_rename_noreplace (d ++ [a]) (d ++ [c]) s with
  | Ok (_, s') => moved a c s' /\ m !! c = None
  | Err AlreadyExists => is_Some (m !! c) /\ is_Some (m !! a)
  | Err _ => m !! a = None
  end.
Proof using Hd.
  unfold sys_rename_noreplace. rewrite !(locate_direct _ _ _ _ Hd). simpl.
  rewrite !(tget_snoc _ _ _ _ Hd). destruct (m !! a) as [n|] eqn:Ha; simpl; [|done].
  destruct (m !! c) as [x|] eqn:Hc; [by eauto|].
  destruct (tput_move d a c n m (tree s) Hd) as (t1 & t2 & H1 & H2 & Hd2 & Ho).
  rewrite H1; simpl. rewrite H2; simpl. split; [|done].
  exists n. split; [done|]. split; [exact Hd2|by apply only_in_tree].
Qed.

Lemma name_not_prefix (a c : string) : a <> c -> ~ d ++ [a] `prefix_of` d ++ [c].
Proof using Type. intros Hac [r Hr]. rewrite <- app_assoc in Hr. apply app_inv_head in Hr. by injection Hr. Qed.

Lemma rename_name a c :
  a <> c ->
  match sys_rename (d ++ [a]) (d ++ [c]) s with
  | Ok (_, s') => moved a c s'
  | Err _ => m !! a = None \/ ~ (forall n, m !! a = Some n -> may_replace n (m !! c) = Ok tt)
  end.
Proof using Hd.
  intros Hac. unfold sys_rename. rewrite !(locate_direct _ _ _ _ Hd). simpl.
  rewrite !(tget_snoc _ _ _ _ Hd). destruct (m !! a) as [n|] eqn:Ha; simpl; [|by left].
  rewrite decide_False by (intros E%app_inj_tail; naive_solver).
  rewrite decide_False by (by apply name_not_prefix).
  destruct (may_replace n (m !! c)) as [[]|k] eqn:Hr; simpl.
  - destruct (tput_move d a c n m (tree s) Hd) as (t1 & t2 & H1 & H2 & Hd2 & Ho).
    rewrite H1; simpl. rewrite H2; simpl.
    exists n. split; [done|]. split; [exact Hd2|by apply only_in_tree].
  - right. intros Hall. specialize (Hall n eq_refl). congruence.
Qed.
End Moves.

(** ** Decimal numbers and candidate names *)

Definition digits_value (acc : N) (l : bytes) : N :=
  fold_left (fun a c => 10 * a + (N_of_ascii c - 48))%N l acc.

Lemma digits_value_acc a l :
  digits_value a l = (a * 10 ^ N.of_nat (length l) + digits_value 0 l)%N.
Proof.
  unfold digits_value. revert a. induction l as [|c l IH]; intros a; cbn [fold_left length].
  - rewrite N.pow_0_r. lia.
  - rewrite (IH (10 * a + (N_of_ascii c - 48))%N), (IH (10 * 0 + (N_of_ascii c - 48))%N).
    rewrite Nat2N.inj_succ, N.pow_succ_r'. lia.
Qed.

Lemma digit_value_of n : (N_of_ascii (digit n) - 48 = n mod 10)%N.
Proof.
  unfold digit. assert (Hm : (n mod 10 < 10)%N) by (apply N.mod_lt; lia). revert Hm.
  generalize (n mod 10)%N. intros r Hr. rewrite N_ascii_embedding; lia.
Qed.

Lemma decimal_digits_value fuel n acc :
  (n < 10 ^ N.of_nat fuel)%N -> fuel <> 0%nat ->
  digits_value 0 (decimal_digits fuel n acc) =
    (n * 10 ^ N.of_nat (length acc) + digits_value 0 acc)%N.
Proof.
  revert n acc. induction fuel as [|fuel IH]; intros n acc Hn Hf; [done|]. cbn [decimal_digits].
  destruct (N.ltb_spec n 10) as [Hs|Hs].
  - unfold digits_value; cbn [fold_left]. fold (digits_value (10 * 0 + (N_of_ascii (digit n) - 48))%N acc).
    rewrite digit_value_of, N.mod_small by done. rewrite digits_value_acc. unfold digits_value. lia.
  - rewrite Nat2N.inj_succ, N.pow_succ_r' in Hn.
    assert (n / 10 < 10 ^ N.of_nat fuel)%N by (apply N.Div0.div_lt_upper_bound; lia).
    rewrite IH; [|done|].
    + cbn [length]. rewrite Nat2N.inj_succ, N.pow_succ_r'.
      unfold digits_value at 1; cbn [fold_left].
      fold (digits_value (10 * 0 + (N_of_ascii (digit n) - 48))%N acc).
      rewrite digit_value_of, digits_value_acc.
      assert (Hdm := N.div_mod n 10 ltac:(lia)). rewrite Hdm at 3. lia.
    + intros ->. rewrite N.pow_0_r in *. assert (1 <= n / 10)%N by (apply N.div_le_lower_bound; lia). lia.
Qed.

Lemma as_bytes_app (s t : string) : as_bytes (s +:+ t) = as_bytes s ++ as_bytes t.
Proof.
  unfold as_bytes. induction s as [|c s IH]; [done|].
  change (String c s +:+ t) with (String c (s +:+ t)). simpl. by rewrite IH.
Qed.

Lemma format_decimal_bytes k : as_bytes (format_decimal k) = decimal_digits 20 (Z.to_N k) [].
Proof. unfold format_decimal, format_padded. by rewrite as_bytes_string, Nat.sub_0_l. Qed.

Lemma format_decimal_injective a b :
  0 <= a <= u64_max -> 0 <= b <= u64_max -> format_decimal a = format_decimal b -> a = b.
Proof.
  intros Ha Hb E. apply (f_equal as_bytes) in E. rewrite !format_decimal_bytes in E.
  apply (f_equal (digits_value 0)) in E.
  assert (Hbound : forall x, 0 <= x <= u64_max -> (Z.to_N x < 10 ^ N.of_nat 20)%N).
  { intros x Hx. change (10 ^ N.of_nat 20)%N with 100000000000000000000%N. ranges. lia. }
  rewrite !decimal_digits_value in E by (done || by apply Hbound).
  unfold digits_value in E. simpl in E. lia.
Qed.

Lemma decimal_digits_longer fuel n acc :
  (length acc < length (decimal_digits (S fuel) n acc))%nat.
Proof.
  revert n acc. induction fuel as [|fuel IH]; intros n acc.
  - cbn [decimal_digits]. destruct (n <? 10)%N; cbn [length]; lia.
  - change (decimal_digits (S (S fuel)) n acc)
      with (if (n <? 10)%N then digit n :: acc
            else decimal_digits (S fuel) (n / 10) (digit n :: acc)).
    destruct (n <? 10)%N; [cbn [length]; lia|].
    specialize (IH (n / 10)%N (digit n :: acc)). cbn [length] in IH. lia.
Qed.

Lemma decimal_nonempty k : (0 < length (as_bytes (format_decimal k)))%nat.
Proof. rewrite format_decimal_bytes. apply (decimal_digits_longer 19 _ []). Qed.

Lemma cut_last_dot_spec l before after :
  cut_last_dot l = Some (before, after) -> l = before ++ "."%char :: after.
Proof.
  revert before after. induction l as [|c l IH]; intros before after; simpl; [done|].
  destruct (cut_last_dot l) as [[b a]|].
  - intros [= <- <-]. simpl. f_equal. by apply IH.
  - case_decide as Hc; [|done]. intros [= <- <-]. by subst.
Qed.

(** The name is its stem and its extension. *)
Lemma name_length name :
  length (as_bytes name) =
    (length (as_bytes (file_stem name)) +
     match extension name with Some ext => S (length (as_bytes ext)) | None => 0 end)%nat.
Proof.
  unfold file_stem, extension, split_at_dot.
  destruct (bool_decide (name = "..")); [simpl; lia|].
  destruct (cut_last_dot (as_bytes name)) as [[before after]|] eqn:E; [|simpl; lia].
  destruct before as [|c before]; [simpl; lia|].
  apply cut_last_dot_spec in E. rewrite !as_bytes_string, E, length_app. simpl. lia.
Qed.

Lemma candidate_injective name a b :
  0 <= a <= u64_max -> 0 <= b <= u64_max -> candidate_name name a = candidate_name name b -> a = b.
Proof.
  intros Ha Hb E.
  assert (Hbytes : forall k, k <> 0 -> as_bytes (candidate_name name k) =
    as_bytes (file_stem name) ++ "-"%char :: as_bytes (format_decimal k) ++
      match extension name with Some ext => "."%char :: as_bytes ext | None => [] end).
  { intros k Hk. unfold candidate_name. rewrite (proj2 (Z.eqb_neq k 0)) by done.
    destruct (extension name); rewrite ?as_bytes_app; simpl; rewrite <- ?app_assoc; [done|].
    by rewrite app_nil_r. }
  assert (Hlong : forall k, k <> 0 -> candidate_name name k <> name).
  { intros k Hk E'. apply (f_equal as_bytes), (f_equal length) in E'. rewrite Hbytes in E' by done.
    rewrite length_app in E'. simpl in E'. rewrite length_app in E'.
    rewrite (name_length name) in E'. destruct (extension name); simpl in E'; lia. }
  destruct (Z.eq_dec a 0) as [->|Hna], (Z.eq_dec b 0) as [->|Hnb]; [done| | |].
  - symmetry in E. unfold candidate_name at 2 in E. simpl in E. by apply Hlong in E.
  - unfold candidate_name at 2 in E. simpl in E. by apply Hlong in E.
  - apply (f_equal as_bytes) in E. rewrite !Hbytes in E by done.
    apply app_inv_head in E. injection E as E. apply app_inv_tail in E.
    apply format_decimal_injective; [done|done|].
    apply (f_equal string_of_list_ascii) in E. unfold as_bytes in E.
    by rewrite !string_of_list_ascii_of_string in E.
Qed.

(** ** Steps that only look *)

Definition looks {A} (m : R A) (P : A -> fs -> Prop) (N : fs -> Prop) : Prop :=
  forall q s, wp q m (fun a s' => s' = s /\ P a s) (fun _ s' => s' = s /\ (q = true -> N s))
                (fun s' => s' = s) s.

Section SingleFileFacts.
Context `{Hashing}.

(** The staged file is still the verified one. *)
Definition unaltered (a : StagedFileArtifact) (s : fs) : Prop :=
  lookup_nofollow s (nt_path (sf_staging a)) = Ok (NFile (nt_ino (sf_staging a))) /\
  Z.of_nat (length (file_bytes s (nt_ino (sf_staging a)))) = sf_bytes a /\
  sha256 (file_bytes s (nt_ino (sf_staging a))) = sf_sha256 a.

Lemma wp_identity t :
  looks (validate_staging_path_identity t)
    (fun _ s => lookup_nofollow s (nt_path t) = Ok (NFile (nt_ino t)))
    (fun s => lookup_nofollow s (nt_path t) <> Ok (NFile (nt_ino t))).
Proof.
  intros q s. unfold validate_staging_path_identity, staging_matches_path, fs_symlink_metadata,
    fs_file_metadata. wp_steps. apply wp_sys; [|intros k E; split; [done|]|by intros ->].
  2:{ intros _ E'. unfold sys_symlink_metadata in E. by rewrite E' in E. }
  intros md s' E. unfold sys_symlink_metadata in E.
  destruct (lookup_nofollow s (nt_path t)) as [n|] eqn:En; [|done].
  injection E as <- <-. wp_steps. apply wp_sys; [|done|by intros ->].
  intros md s' [= <- <-]. apply wp_pure.
  destruct n as [j| | |]; simpl; try (by apply wp_fail).
  unfold m_is_symlink, m_is_file; simpl.
  destruct (bool_decide_reflect (Some j = Some (nt_ino t))) as [E|E]; simpl.
  - apply wp_pure. by injection E as ->.
  - apply wp_fail. split; [done|]. intros _ [= ->]. done.
Qed.

Lemma wp_read_at {A} i offset n (f : io_kind -> OffprintError) (k : bytes -> R A) q Q s :
  wp q (k (take n (drop offset (file_bytes s i)))) (fun a s' => s' = s /\ Q a)
    (fun _ s' => s' = s /\ (q = true -> False)) (fun s' => s' = s) s ->
  wp q (mthen (map_err f (fs_read_at i offset n)) k) (fun a s' => s' = s /\ Q a)
    (fun _ s' => s' = s /\ (q = true -> False)) (fun s' => s' = s) s.
Proof.
  intros Hk. wp_steps. apply wp_sys; [|done|by intros ->]. by intros b s' [= <- <-].
Qed.

(** The loop hashes the first [remaining] bytes of the rest of the file. *)
Lemma wp_rehash fuel i offset remaining hasher q s :
  0 <= remaining <= Z.of_nat fuel -> remaining <= u64_max ->
  wp q (rehash fuel i offset remaining hasher)
    (fun r s' => s' = s /\
       let rest := drop offset (file_bytes s i) in
       r = (remaining - Z.of_nat (length (take (Z.to_nat remaining) rest)),
            hasher ++ take (Z.to_nat remaining) rest,
            (offset + length (take (Z.to_nat remaining) rest))%nat))
    (fun _ s' => s' = s /\ (q = true -> False)) (fun s' => s' = s) s.
Proof.
  revert offset remaining hasher. induction fuel as [|fuel IH]; intros offset remaining hasher Hr Hu.
  { simpl. apply wp_pure. split; [done|]. replace remaining with 0 by lia. simpl.
    by rewrite app_nil_r, Nat.add_0_r. }
  cbn [rehash]. destruct (Z.leb_spec remaining 0).
  { apply wp_pure. split; [done|]. replace remaining with 0 by lia. simpl.
    by rewrite app_nil_r, Nat.add_0_r. }
  apply wp_read_at. set (rest := drop offset (file_bytes s i)).
  set (n := Z.to_nat (Z.min remaining BUFFER_BYTES)).
  assert (Hn : (0 < n)%nat) by (unfold n, BUFFER_BYTES; lia).
  destruct (bool_decide_reflect (take n rest = [])) as [E|E].
  { apply wp_pure. split; [done|]. cbv zeta.
    assert (Hrest : rest = []).
    { apply (f_equal length) in E. rewrite length_take in E. simpl in E. apply nil_length_inv. lia. }
    rewrite Hrest, take_nil, app_nil_r, Nat.add_0_r. simpl. by rewrite Z.sub_0_r. }
  set (b := take n rest) in *.
  assert (Hb : (0 < length b)%nat) by (destruct b; [done|simpl; lia]).
  assert (Hbn : (length b <= n)%nat) by (unfold b; rewrite length_take; lia).
  assert (Hnr : Z.of_nat n <= remaining) by (unfold n, BUFFER_BYTES; lia).
  assert (Hlen : len_u64 b = Z.of_nat (length b)) by (apply len_u64_small; lia).
  assert (Hsat : saturating_sub remaining (len_u64 b) = remaining - Z.of_nat (length b))
    by (unfold saturating_sub; rewrite Hlen; lia).
  rewrite Hsat. eapply wp_mono; [apply IH; lia| |done|done].
  intros r s' [-> ->]. split; [done|]. cbv zeta. rewrite <- drop_drop. fold rest.
  assert (Hsplit : take (Z.to_nat remaining) rest =
            b ++ take (Z.to_nat (remaining - Z.of_nat (length b))) (drop (length b) rest)).
  { replace (Z.to_nat remaining)
      with (length b + Z.to_nat (remaining - Z.of_nat (length b)))%nat by lia.
    rewrite <- take_take_drop. f_equal. unfold b. rewrite length_take.
    destruct (Nat.le_ge_cases n (length rest)); [by rewrite Nat.min_l|].
    rewrite Nat.min_r by done. by rewrite !take_ge. }
  rewrite Hsplit, !length_app, <- app_assoc. f_equal; [f_equal; lia|lia].
Qed.

Lemma looks_run {A} (m : R A) P N q Q X (C : fs -> Prop) s :
  looks m P N -> (forall a, P a s -> Q a s) -> (forall e, (q = true -> N s) -> X e s) -> C s ->
  wp q m Q X C s.
Proof.
  intros Hm HQ HX HC. eapply wp_mono; [apply Hm| | |].
  - intros a s' [-> HP]. auto.
  - intros e s' [-> HN]. auto.
  - by intros _ s' ->.
Qed.

(** Committing checks the whole file again. *)
Lemma wp_validate_staged_contents a :
  0 <= sf_bytes a <= u64_max ->
  looks (validate_staged_contents a) (fun _ s => unaltered a s) (fun s => ~ unaltered a s).
Proof.
  intros Hb q s. unfold validate_staged_contents. wp_step.
  eapply looks_run; [apply wp_identity| |intros e HN; split; [done|intros Hq [? _]; by apply HN]|done].
  intros [] Hid. unfold fs_sync_file. do 2 wp_step.
  apply wp_sys; [|done|by intros ->]. intros [] s' [= <-]. wp_step.
  eapply wp_mono; [apply wp_rehash; lia| |intros e s' [-> Hq]; split; [done|by intros ?%Hq]|by intros _ s' ->].
  intros r s' [-> ->]. cbv zeta. rewrite drop_0. set (c := file_bytes s (nt_ino (sf_staging a))).
  unfold fs_read_at. do 2 wp_step. apply wp_sys; [|done|by intros ->].
  intros trailing s' [= <- <-]. fold c. rewrite ?app_nil_l. simpl Nat.add.
  destruct (Z.eqb_spec (sf_bytes a - Z.of_nat (length (take (Z.to_nat (sf_bytes a)) c))) 0) as [E|E]; simpl.
  2:{ apply wp_fail. split; [done|]. intros _ (_ & Hl & _). fold c in Hl. rewrite length_take in E. lia. }
  rewrite length_take in E.
  destruct (bool_decide_reflect (take 1 (drop (length (take (Z.to_nat (sf_bytes a)) c)) c) = []))
    as [Et|Et]; simpl.
  2:{ apply wp_fail. split; [done|]. intros _ (_ & Hl & _). fold c in Hl. apply Et.
      rewrite drop_ge; [done|]. rewrite length_take. lia. }
  assert (Hl : Z.of_nat (length c) = sf_bytes a).
  { apply (f_equal length) in Et. rewrite length_take, length_drop, length_take in Et. change (length (@nil ascii)) with 0%nat in Et. lia. }
  rewrite take_ge by lia.
  destruct (bool_decide_reflect (sha256 c <> sf_sha256 a)) as [Eh|Eh].
  { apply wp_fail. split; [done|]. by intros _ (_ & _ & ?). }
  eapply looks_run; [apply wp_identity| |intros e HN; split; [done|intros Hq [? _]; by apply HN]|done].
  intros [] _. split; [done|]. split; [done|]. split; [done|]. by apply dec_stable.
Qed.

(** ** The loop over candidates *)

Lemma wp_turns {A} depth (step : Z -> R (Z + A)) (I : Z -> fs -> Prop) Q X C q top from s :
  (forall k s, k < top -> I k s -> wp q (step k)
     (fun r s' => match r with inl k' => k' = k + 1 /\ I k' s' | inr a => Q a s' end) X C s) ->
  from + 2 ^ Z.of_nat depth <= top -> I from s ->
  wp q (turns depth step from)
    (fun r s' => match r with inl k' => k' = from + 2 ^ Z.of_nat depth /\ I k' s' | inr a => Q a s' end)
    X C s.
Proof.
  intros Hstep. revert from s. induction depth as [|depth IH]; intros from s Htop HI; cbn [turns].
  - apply Hstep; [|done]. change (2 ^ Z.of_nat 0) with 1 in Htop. lia.
  - rewrite Nat2Z.inj_succ, Z.pow_succ_r in * by lia.
    assert (0 < 2 ^ Z.of_nat depth) by (apply Z.pow_pos_nonneg; lia).
    wp_step. eapply wp_mono; [apply IH; [lia|done]| |done|done].
    intros [k|a] s' Hr; [|by apply wp_pure]. destruct Hr as [-> HI'].
    eapply wp_mono; [apply IH; [lia|done]| |done|done].
    intros [k|a] s'' Hr; [|done]. destruct Hr as [-> HI'']. split; [lia|done].
Qed.

(** ** The commit *)

Section Committing.
Context (a : StagedFileArtifact) (s : fs) (d : path) (m : gmap string node) (name tmp : string).
Context (Hdest : sf_destination a = d ++ [name]) (Hstag : nt_path (sf_staging a) = d ++ [tmp]).
Context (Hd : dir_is d m s) (Hne : name <> tmp) (Hb : 0 <= sf_bytes a <= u64_max).

(** Where the conflict policy lets the artifact go. *)
Definition chosen (c : string) : Prop :=
  match sf_conflict a with
  | ConflictFail => c = name /\ m !! name = None
  | ConflictReplace => c = name
  | ConflictUniquify =>
      exists k, 0 <= k < 2 ^ 32 /\ c = candidate_name name k /\ m !! c = None /\
        forall j, 0 <= j < k -> is_Some (m !! candidate_name name j)
  end.

(** Why the conflict policy leaves no place for it. *)
Definition blocked : Prop :=
  match sf_conflict a with
  | ConflictFail => is_Some (m !! name)
  | ConflictReplace => exists x, m !! name = Some (NDir x)
  | ConflictUniquify => forall j, 0 <= j < 2 ^ 32 -> is_Some (m !! candidate_name name j)
  end.

(** A directory of fewer than 2^32 entries always leaves a candidate. *)
Definition admissible : Prop :=
  match sf_conflict a with
  | ConflictFail => m !! name = None
  | ConflictReplace => forall x, m !! name <> Some (NDir x)
  | ConflictUniquify => Z.of_nat (size m) < 2 ^ 32
  end.

(** Not delivered: as before, up to the temporary file. *)
Definition withheld (s' : fs) : Prop := s' = s \/ without d m s tmp s'.

(** Delivered whole, under a name the policy allows. *)
Definition delivered_as (c : string) (s' : fs) : Prop :=
  unaltered a s /\ chosen c /\
  dir_is d (<[c := NFile (nt_ino (sf_staging a))]> (delete tmp m)) s' /\ only_in d s s'.

Lemma unaltered_entry : unaltered a s -> m !! tmp = Some (NFile (nt_ino (sf_staging a))).
Proof using Hstag Hd.
  intros [Hl _]. rewrite Hstag, (lookup_nofollow_direct _ _ _ _ Hd) in Hl.
  destruct (m !! tmp) as [n|]; [|done]. by injection Hl as ->.
Qed.

Lemma moved_delivered c s' :
  unaltered a s -> chosen c -> moved d m s tmp c s' -> delivered_as c s'.
Proof using Hstag Hd.
  intros Hu Hc (n & Hn & Hdir & Ho). rewrite (unaltered_entry Hu) in Hn. injection Hn as <-. done.
Qed.

Lemma wp_or_drop {A} q (mm : R A) Q (X0 : OffprintError -> Prop) (C : fs -> Prop) :
  wp q mm Q (fun e s' => s' = s /\ X0 e) C s ->
  wp q (or_drop (sf_staging a) mm) Q (fun e s' => withheld s' /\ X0 e)
    (fun s' => C s' \/ withheld s') s.
Proof using Hstag Hd.
  intros Hm. unfold or_drop. do 2 wp_step. eapply wp_mono; [exact Hm| | |by left].
  - intros x s' HQ. by apply wp_pure.
  - intros e s' [-> He]. unfold fs_remove_file. do 2 wp_step.
    assert (Hr := remove_name d m s Hd tmp). rewrite Hstag.
    apply wp_sys.
    + intros [] s' E. rewrite E in Hr. apply wp_fail. split; [by right|done].
    + intros k _. apply wp_fail. split; [by left|done].
    + intros _. split; [intros _; apply wp_fail; split; [by left|done]|by right; left].
Qed.

Lemma candidate_path k : single_candidate (d ++ [name]) k = d ++ [candidate_name name k].
Proof using Type.
  unfold single_candidate, candidate_name. rewrite parent_app, file_name_app. by destruct (k =? 0).
Qed.

(** All candidates below [k] taken. *)
Definition taken_below (k : Z) : Prop :=
  forall j, 0 <= j < k -> is_Some (m !! candidate_name name j).

Lemma taken_below_size k : 0 <= k <= 2 ^ 32 -> taken_below k -> k <= Z.of_nat (size m).
Proof using Type.
  intros Hk Hall. set (names := map (candidate_name name) (seqZ 0 k)).
  assert (Hnd : NoDup names).
  { apply NoDup_fmap_2_strong; [|apply NoDup_seqZ].
    intros x y Hx%elem_of_seqZ Hy%elem_of_seqZ. apply candidate_injective; ranges; lia. }
  assert (Hsub : names ⊆ elements (dom m)).
  { intros c Hc. apply list_elem_of_fmap in Hc as (j & -> & Hj%elem_of_seqZ).
    apply elem_of_elements, elem_of_dom, Hall. lia. }
  apply (NoDup_submseteq _ _ Hnd) in Hsub. apply submseteq_length in Hsub.
  unfold names in Hsub. rewrite length_map, length_seqZ in Hsub.
  change (length (elements (dom m))) with (size (dom m)) in Hsub. rewrite size_dom in Hsub. lia.
Qed.

Lemma admissible_not_blocked : admissible -> ~ blocked.
Proof using Type.
  unfold admissible, blocked. destruct (sf_conflict a).
  - intros -> [? ?]. done.
  - intros Hno [x Hx]. by apply (Hno x).
  - intros Hs Hall. apply taken_below_size in Hall; lia.
Qed.

Lemma wp_try_candidate q k :
  is_Some (m !! tmp) -> 0 <= k -> taken_below k ->
  wp q (try_candidate (sf_staging a) (sf_destination a) k)
    (fun r s' => match r with
       | inl k' => k' = k + 1 /\ s' = s /\ 0 <= k' /\ taken_below k'
       | inr p => p = d ++ [candidate_name name k] /\ m !! candidate_name name k = None /\
           0 <= k /\ taken_below k /\ moved d m s tmp (candidate_name name k) s'
       end)
    (fun _ s' => s' = s /\ q = false) (fun s' => s' = s) s.
Proof using Hdest Hstag Hd.
  intros Htmp Hk Hall. unfold try_candidate, fs_persist_noclobber. do 2 wp_step.
  rewrite Hdest, candidate_path, Hstag.
  assert (Hr := rename_noreplace_name d m s Hd tmp (candidate_name name k)).
  apply wp_sys.
  - intros [] s' E. rewrite E in Hr. destruct Hr as [Hmv Hnone]. apply wp_pure. done.
  - intros kind E. rewrite E in Hr. destruct kind; try (by rewrite Hr in Htmp; destruct Htmp).
    destruct Hr as [Hc _]. apply wp_pure. split; [done|]. split; [done|]. split; [lia|].
    intros j Hj. destruct (Z.eq_dec j k) as [->|]; [done|]. apply Hall. lia.
  - intros ->. split; [|done]. intros []; apply wp_fail; done.
Qed.

Lemma wp_persist_unique q :
  is_Some (m !! tmp) -> sf_conflict a = ConflictUniquify ->
  wp q (persist_unique (sf_staging a) (sf_destination a))
    (fun p s' => exists c, p = d ++ [c] /\ chosen c /\ moved d m s tmp c s')
    (fun _ s' => s' = s /\ (q = true -> blocked)) (fun s' => s' = s) s.
Proof using Hdest Hstag Hd.
  intros Htmp Hc. unfold persist_unique. wp_step.
  eapply wp_mono; [apply (wp_turns 32 _ (fun k s' => s' = s /\ 0 <= k /\ taken_below k)
    (fun p s' => exists c, p = d ++ [c] /\ chosen c /\ moved d m s tmp c s')
    (fun _ s' => s' = s /\ q = false) (fun s' => s' = s) q (2 ^ 32))|..].
  - intros k s0 Hk (-> & Hk0 & Hall). eapply wp_mono; [by apply wp_try_candidate| |done|done].
    intros [k'|p] s' Hr; [done|]. destruct Hr as (-> & Hnone & _ & _ & Hmv).
    eexists. split; [done|]. split; [|done]. unfold chosen. rewrite Hc. exists k. done.
  - done.
  - split; [done|]. split; [done|]. intros j Hj. lia.
  - intros [k|p] s' Hr; [|by apply wp_pure]. destruct Hr as (Hk & -> & Hk0 & Hall).
    apply wp_fail. split; [done|]. intros _. unfold blocked. rewrite Hc.
    change (0 + 2 ^ Z.of_nat 32) with (2 ^ 32) in Hk. by subst k.
  - intros e s' [-> ->]. done.
  - done.
Qed.

Lemma wp_persist_artifact q :
  unaltered a s ->
  wp q (match sf_conflict a with
        | ConflictFail =>
            persist_noclobber (sf_staging a) (sf_destination a) ;;; mpure (sf_destination a)
        | ConflictReplace =>
            persist_replace (sf_staging a) (sf_destination a) ;;; mpure (sf_destination a)
        | ConflictUniquify => persist_unique (sf_staging a) (sf_destination a)
        end)
    (fun p s' => exists c, p = d ++ [c] /\ delivered_as c s')
    (fun _ s' => s' = s /\ (q = true -> blocked)) (fun s' => s' = s) s.
Proof using Hdest Hstag Hd Hne.
  intros Hu. assert (Htmp := unaltered_entry Hu).
  destruct (sf_conflict a) eqn:Hc.
  - unfold persist_noclobber, fs_persist_noclobber. do 2 wp_step. rewrite Hdest, Hstag.
    assert (Hr := rename_noreplace_name d m s Hd tmp name). apply wp_sys.
    + intros [] s' E. rewrite E in Hr. destruct Hr as [Hmv Hnone]. apply wp_pure.
      exists name. split; [done|]. apply moved_delivered; [done| |done]. unfold chosen. by rewrite Hc.
    + intros k E. rewrite E in Hr. split; [done|]. intros _. unfold blocked. rewrite Hc.
      destruct k; try congruence. by destruct Hr.
    + by intros ->.
  - unfold persist_replace, fs_persist, fs_rename. do 2 wp_step. rewrite Hdest, Hstag.
    assert (Hr := rename_name d m s Hd tmp name ltac:(congruence)). apply wp_sys.
    + intros [] s' E. rewrite E in Hr. apply wp_pure.
      exists name. split; [done|]. apply moved_delivered; [done| |done]. unfold chosen. by rewrite Hc.
    + intros k E. rewrite E in Hr. split; [done|]. intros _. unfold blocked. rewrite Hc.
      destruct Hr as [Hr|Hr]; [congruence|].
      destruct (m !! name) as [[| x| |]|] eqn:En; [..|];
        try (destruct Hr; intros n Hn; rewrite Htmp in Hn; by injection Hn as <-). eauto.
    + by intros ->.
  - eapply wp_mono; [apply wp_persist_unique; [by rewrite Htmp|done]| |done|done].
    intros p s' (c & -> & Hch & Hmv). exists c. split; [done|]. by apply moved_delivered.
Qed.

(** Every schedule: delivered whole or withheld. *)
Lemma wp_commit_single q :
  wp q (commit_single a)
    (fun r s' => fa_bytes r = sf_bytes a /\ fa_sha256 r = sf_sha256 a /\
       exists c, fa_path r = d ++ [c] /\ delivered_as c s')
    (fun _ s' => withheld s' /\ (q = true -> ~ unaltered a s \/ blocked))
    (fun s' => withheld s' \/ exists c, delivered_as c s') s.
Proof using All.
  assert (Hweak : forall s', withheld s' -> withheld s' \/ exists c, delivered_as c s') by auto.
  unfold commit_single, open_parent_directory, fs_open_dir. wp_step.
  eapply wp_mono; [apply wp_or_drop with (Q := fun _ s' => s' = s)
    (X0 := fun _ => q = true -> False) (C := fun s' => s' = s)| | |].
  - wp_step. rewrite Hdest, parent_app.
    assert (Hf : lookup_follow s d = Ok (NDir m)) by (by apply lookup_follow_direct).
    apply wp_sys; [intros [] s'; rewrite Hf; by intros [= <-]|by intros k; rewrite Hf|by intros ->].
  - intros [] s' ->. unfold commit_with_parent_sync. wp_step.
    eapply wp_mono; [apply wp_or_drop with
      (Q := fun p s' => exists c, p = d ++ [c] /\ delivered_as c s')
      (X0 := fun _ => q = true -> ~ unaltered a s \/ blocked) (C := fun s' => s' = s)| | |].
    + wp_step. eapply looks_run; [by apply wp_validate_staged_contents| | |done].
      * intros [] Hu. eapply wp_mono; [by apply wp_persist_artifact|done| |done].
        intros e s' [-> Hbl]. auto.
      * intros e HN. auto.
    + intros p s' (c & -> & Hdel). do 2 wp_step. unfold fs_sync_handle. apply wp_sys.
      * intros [] s'' [= <-]. apply wp_pure. simpl. eauto.
      * done.
      * intros _. split; [intros e; apply wp_pure; simpl; eauto|eauto].
    + done.
    + intros _ s' [->|Hw]; [left; by left|auto].
  - intros e s' [Hw Hq]. split; [done|]. by intros ?%Hq.
  - intros _ s' [->|Hw]; [left; by left|auto].
Qed.
End Committing.
(** ** Writing *)

(** A writer's bytes and hashed text are the content of its temporary file. *)
Definition writer_ok (w : FileArtifactWriter) (d : path) (m : gmap string node) (tmp : string)
    (s : fs) : Prop :=
  nt_path (fw_staging w) = d ++ [tmp] /\ dir_is d m s /\
  m !! tmp = Some (NFile (nt_ino (fw_staging w))) /\
  file_bytes s (nt_ino (fw_staging w)) = fw_hasher w /\
  fw_bytes w = Z.of_nat (length (fw_hasher w)).

(** [Write::write] again and again; each time the system takes a prefix. *)
Fixpoint write_many (l : list (nat * bytes)) (w : FileArtifactWriter) : IO FileArtifactWriter :=
  match l with
  | [] => mpure w
  | (taken, buffer) :: l' =>
      r <- writer_write taken buffer w ;; write_many l' (snd r)
  end.

Definition taken_bytes (l : list (nat * bytes)) : bytes :=
  concat (map (fun '(taken, buffer) => take taken buffer) l).

Lemma file_bytes_set i b s : file_bytes (set_inode i b s) i = b.
Proof. unfold file_bytes, set_inode; simpl. by rewrite lookup_insert_eq. Qed.

Lemma wp_write_many l w d m tmp s :
  writer_ok w d m tmp s -> Z.of_nat (length (fw_hasher w ++ taken_bytes l)) <= u64_max ->
  wp true (write_many l w)
    (fun w' s' => writer_ok w' d m tmp s' /\ fw_hasher w' = fw_hasher w ++ taken_bytes l /\
       fw_staging w' = fw_staging w /\ fw_destination w' = fw_destination w /\
       fw_conflict w' = fw_conflict w)
    (fun _ _ => False) (fun _ => False) s.
Proof.
  revert w s. induction l as [|[taken buffer] l IH]; intros w s Hw Hlen; cbn [write_many].
  { apply wp_pure. unfold taken_bytes; simpl. rewrite app_nil_r. done. }
  unfold writer_write. do 2 wp_step. apply wp_sys; [|done|done].
  intros [] s' [= <-]. apply wp_pure. cbn [snd].
  destruct Hw as (Hp & Hd & Ht & Hf & Hb).
  unfold taken_bytes in Hlen. simpl in Hlen. rewrite !length_app in Hlen.
  assert (Htake : take (length (take taken buffer)) buffer = take taken buffer).
  { rewrite length_take. destruct (Nat.le_ge_cases taken (length buffer)).
    - by rewrite Nat.min_l.
    - by rewrite Nat.min_r, !take_ge. }
  rewrite Htake. eapply wp_mono; [apply IH| |done|done].
  - split; [done|]. split; [done|]. split; [done|]. simpl. rewrite file_bytes_set, Hf.
    split; [done|]. rewrite length_app, Hb. unfold saturating_add. lia.
  - simpl. unfold taken_bytes. rewrite !length_app. lia.
  - intros w' s' (Hw' & Hh & Hs & Hdst & Hc). simpl in *. split; [done|]. split; [|done].
    rewrite Hh. unfold taken_bytes. simpl. by rewrite app_assoc.
Qed.

Lemma create_new_in d m tmp s :
  dir_is d m s -> m !! tmp = None ->
  exists s', sys_create_new (d ++ [tmp]) s = Ok (next_ino s, s') /\
    dir_is d (<[tmp := NFile (next_ino s)]> m) s' /\ file_bytes s' (next_ino s) = [].
Proof.
  intros Hd Ht. destruct (tput_in_dir d tmp (Some (NFile (next_ino s))) m (tree s) Hd)
    as (t & Hput & Hdt & _).
  unfold sys_create_new, place. rewrite (locate_direct _ _ _ _ Hd). simpl.
  rewrite (tget_snoc _ _ _ _ Hd), Ht, Hput. simpl. eexists. split; [done|]. split; [exact Hdt|].
  unfold file_bytes; simpl. by rewrite lookup_insert_eq.
Qed.

Lemma symlink_metadata_dir s d m :
  dir_is d m s -> d <> [] -> sys_symlink_metadata d s = Ok (Metadata KDir 0 None, s).
Proof.
  intros Hd Hn. destruct (exists_last Hn) as (p & c & ->).
  destruct (tget_prefix_dir _ _ _ _ _ Hd) as [x Hx]. unfold sys_symlink_metadata.
  rewrite (lookup_nofollow_direct _ _ _ _ Hx).
  unfold dir_is, sub in Hd. rewrite (tget_snoc _ _ _ _ Hx) in Hd. by rewrite Hd.
Qed.

Lemma as_bytes_inj s t : as_bytes s = as_bytes t -> s = t.
Proof.
  intros E. apply (f_equal string_of_list_ascii) in E. unfold as_bytes in E.
  by rewrite !string_of_list_ascii_of_string in E.
Qed.

(** Stage and commit in one go. *)
Definition deliver_single (destination : path) (conflict : ConflictPolicy)
    (writes : list (nat * bytes)) : R FileArtifact :=
  w <- writer_create destination conflict ;;
  w <- map_err (output_io_error "offprint.output.commit" Encoding) (write_many writes w) ;;
  a <- writer_finish w ;;
  commit_single a.

Definition temp_file_name (name suffix : string) : string := "." +:+ name +:+ ".offprint-" +:+ suffix.

Lemma temp_name_differs name suffix : name <> temp_file_name name suffix.
Proof.
  intros E. apply (f_equal (fun x => length (as_bytes x))) in E. unfold temp_file_name in E.
  rewrite !as_bytes_app, !length_app in E. simpl in E. lia.
Qed.

Lemma wp_writer_create s d m name conflict suffix rest :
  dir_is d m s -> d <> [] -> m !! name = None ->
  entropy s = suffix :: rest -> m !! temp_file_name name suffix = None ->
  let tmp := temp_file_name name suffix in
  wp true (writer_create (d ++ [name]) conflict)
    (fun w s' => writer_ok w d (<[tmp := NFile (next_ino s)]> m) tmp s' /\ fw_hasher w = [] /\
       fw_staging w = MkTemp (d ++ [tmp]) (next_ino s) /\ fw_destination w = d ++ [name])
    (fun _ _ => False) (fun _ => False) s.
Proof.
  intros Hd Hdn Hname Hent Htmp tmp. unfold writer_create, validate_destination.
  rewrite file_name_app, parent_app. unfold fs_symlink_metadata. do 3 wp_step.
  apply wp_sys; [|intros k E; by rewrite (symlink_metadata_dir s d m Hd Hdn) in E|done].
  intros md s1 E. rewrite (symlink_metadata_dir s d m Hd Hdn) in E. injection E as <- <-.
  unfold m_is_symlink, m_is_dir; simpl. do 2 wp_step.
  assert (Hmiss : sys_symlink_metadata (d ++ [name]) s = Err NotFound).
  { unfold sys_symlink_metadata. by rewrite (lookup_nofollow_direct _ _ _ _ Hd), Hname. }
  apply wp_sys; [by intros md s1; rewrite Hmiss| |done].
  intros k. rewrite Hmiss. intros [= <-]. wp_step. do 2 wp_step. unfold fs_temp_file_in.
  destruct (create_new_in d m tmp s Hd Htmp) as (s1 & Hcr & Hd1 & Hf1).
  assert (Hdraw : draw_temp_file ("." +:+ name +:+ ".offprint-") d (entropy s) s =
                  Ok (MkTemp (d ++ [tmp]) (next_ino s), set_entropy rest s1)).
  { rewrite Hent. cbn [draw_temp_file].
    replace (String.append ("." +:+ name +:+ ".offprint-") suffix) with tmp
      by (unfold tmp, temp_file_name; apply as_bytes_inj; by rewrite !as_bytes_app, <- !app_assoc).
    by rewrite Hcr. }
  apply wp_sys; [|intros k E; by rewrite Hdraw in E|done].
  intros t s2 E. rewrite Hdraw in E. injection E as <- <-. wp_step.
  split; [|done]. split; [done|]. split; [exact Hd1|]. simpl. by rewrite lookup_insert_eq.
Qed.

Lemma wp_writer_finish w d m tmp s :
  writer_ok w d m tmp s ->
  wp true (writer_finish w)
    (fun a s' => s' = s /\
       a = MkStagedFile (fw_destination w) (fw_conflict w) (fw_staging w) (fw_bytes w)
             (sha256 (fw_hasher w)) /\ unaltered a s)
    (fun _ _ => False) (fun _ => False) s.
Proof.
  intros (Hp & Hd & Ht & Hf & Hb). unfold writer_finish, or_drop, fs_sync_file. do 4 wp_step.
  apply wp_sys; [|done|done]. intros [] s' [= <-]. do 2 wp_step.
  split; [done|]. split; [done|].
  split; [simpl; by rewrite Hp, (lookup_nofollow_direct _ _ _ _ Hd), Ht|]. simpl. by rewrite Hf.
Qed.

(** A name that is free is the one chosen, by every policy. *)
Lemma wp_commit_free a s d m name tmp :
  sf_destination a = d ++ [name] -> nt_path (sf_staging a) = d ++ [tmp] -> name <> tmp ->
  dir_is d m s -> 0 <= sf_bytes a <= u64_max -> unaltered a s -> m !! name = None ->
  wp true (commit_single a)
    (fun r s' => fa_path r = d ++ [name] /\ fa_bytes r = sf_bytes a /\ fa_sha256 r = sf_sha256 a /\
       dir_is d (<[name := NFile (nt_ino (sf_staging a))]> (delete tmp m)) s' /\ only_in d s s')
    (fun _ _ => False) (fun _ => False) s.
Proof.
  intros H1 H2 H3 H4 H5 Hu Hn.
  assert (Hfree : forall c, chosen a m name c -> c = name).
  { unfold chosen. intros c. destruct (sf_conflict a); [naive_solver|done|].
    intros (k & Hk & -> & _ & Hall). destruct (Z.eq_dec k 0) as [->|]; [done|].
    specialize (Hall 0 ltac:(lia)). change (candidate_name name 0) with name in Hall.
    rewrite Hn in Hall. by destruct Hall. }
  assert (Hopen : ~ blocked a m name).
  { unfold blocked. destruct (sf_conflict a); rewrite ?Hn.
    - by intros [? ?].
    - by intros [? ?].
    - intros Hall. specialize (Hall 0 ltac:(lia)). change (candidate_name name 0) with name in Hall.
      rewrite Hn in Hall. by destruct Hall. }
  intros l Hl. assert (Hwp := wp_commit_single a s d m name tmp H1 H2 H4 H3 H5 true l Hl).
  destruct (commit_single a (World s l)) as [[r|e|] w']; [|exfalso|naive_solver].
  - destruct Hwp as (Hl' & Hby & Hsha & c & Hpath & _ & Hch & Hdir & Ho).
    apply Hfree in Hch as ->. done.
  - destruct Hwp as (_ & _ & Hno). by destruct (Hno eq_refl).
Qed.

(** ** Properties *)

(** C13: Committing one file is atomic: whatever system call fails or stops the
    process, and whatever has become of the temporary file, the output directory
    ends as it was (up to the temporary file) or with the whole artifact under a
    name the conflict policy allows; it is delivered only if its identity,
    length and digest are those that were verified, an error means it was not
    delivered, and nothing outside the directory changes. *)
Theorem single_commit_atomic a s d m name tmp faults :
  sf_destination a = d ++ [name] -> nt_path (sf_staging a) = d ++ [tmp] -> name <> tmp ->
  dir_is d m s -> 0 <= sf_bytes a <= u64_max ->
  match commit_single a (World s faults) with
  | (Done r, w) => exists c, fa_path r = d ++ [c] /\ fa_sha256 r = sf_sha256 a /\
      delivered_as a s d m name tmp c (w_fs w)
  | (Fail _, w) => withheld s d m tmp (w_fs w)
  | (Crash, w) => withheld s d m tmp (w_fs w) \/
      exists c, delivered_as a s d m name tmp c (w_fs w)
  end.
Proof.
  intros H1 H2 H3 H4 H5.
  assert (Hwp := wp_run false _ _ _ _ s faults
    (wp_commit_single a s d m name tmp H1 H2 H4 H3 H5 false) ltac:(done)).
  destruct (commit_single a (World s faults)) as [[r|e|] w]; naive_solver.
Qed.

(** Without faults the commit of an unaltered artifact succeeds unless the
    name is taken under [Fail], is a directory under [Replace], or the directory
    holds 2^32 files under [Uniquify]; it then lies under the name the policy
    chooses, for [Uniquify] the first free candidate. *)
Theorem single_commit_succeeds a s d m name tmp :
  sf_destination a = d ++ [name] -> nt_path (sf_staging a) = d ++ [tmp] -> name <> tmp ->
  dir_is d m s -> 0 <= sf_bytes a <= u64_max -> unaltered a s -> admissible a m name ->
  exists r s' c, commit_single a (World s []) = (Done r, World s' []) /\
    fa_path r = d ++ [c] /\ delivered_as a s d m name tmp c s'.
Proof.
  intros H1 H2 H3 H4 H5 Hu Hb.
  destruct (wp_run_quiet (commit_single a)
    (fun r s' => exists c, fa_path r = d ++ [c] /\ delivered_as a s d m name tmp c s') s)
    as (r & s' & Hr & c & Hc & Hd').
  - intros l Hl. assert (Hwp := wp_commit_single a s d m name tmp H1 H2 H4 H3 H5 true l Hl).
    destruct (commit_single a (World s l)) as [[r|e|] w]; [naive_solver| |naive_solver].
    destruct Hwp as (Hl' & _ & Hno). split; [done|]. destruct (Hno eq_refl); [done|].
    by apply (admissible_not_blocked a m name).
  - exists r, s', c. done.
Qed.

(** End to end without faults: an artifact written in any pieces (the system
    may take any prefix of each) to a name that is free ends as one new file with
    exactly the bytes taken, reported with their digest and length; no temporary
    file is left. *)
Theorem single_file_delivered s d m name conflict suffix rest writes :
  dir_is d m s -> d <> [] -> m !! name = None ->
  entropy s = suffix :: rest -> m !! temp_file_name name suffix = None ->
  Z.of_nat (length (taken_bytes writes)) <= u64_max ->
  exists r s', deliver_single (d ++ [name]) conflict writes (World s []) = (Done r, World s' []) /\
    fa_path r = d ++ [name] /\ fa_sha256 r = sha256 (taken_bytes writes) /\
    fa_bytes r = Z.of_nat (length (taken_bytes writes)) /\
    dir_is d (<[name := NFile (next_ino s)]> m) s' /\
    file_bytes s' (next_ino s) = taken_bytes writes.
Proof.
  intros Hd Hdn Hname Hent Htmp Hlen.
  apply wp_run_quiet. unfold deliver_single. wp_step.
  eapply wp_mono; [by apply (wp_writer_create s d m name conflict suffix rest)| |done|done].
  intros w s1 (Hw & Hh & Hst & Hdst). do 2 wp_step.
  eapply wp_mono; [apply (wp_write_many writes _ _ _ _ _ Hw); by rewrite Hh| |done|done].
  intros w' s2 (Hw' & Hh' & Hst' & Hdst' & _). rewrite Hh in Hh'. simpl in Hh'. wp_step.
  eapply wp_mono; [exact (wp_writer_finish w' _ _ _ _ Hw')| |done|done].
  intros a s3 (-> & Ha & Hu). assert (Hw'' := Hw'). destruct Hw'' as (Hp & Hd2 & _ & Hf2 & Hb2).
  eapply wp_mono; [apply (wp_commit_free a s2 d (<[temp_file_name name suffix := NFile (next_ino s)]> m) name
    (temp_file_name name suffix))| |done|done];
    subst a; simpl; try done.
  - by rewrite Hdst', Hdst.
  - apply temp_name_differs.
  - rewrite Hb2, Hh'. lia.
  - rewrite lookup_insert_ne; [done|]. intros E. by apply (temp_name_differs name suffix).
  - intros r s4 (Hpath & Hby & Hsha & Hdir & Hino & _). rewrite Hsha, Hby, Hb2, Hh'.
    rewrite Hst', Hst in Hdir. simpl in Hdir. rewrite delete_insert_id in Hdir by done.
    rewrite Hst', Hst in Hf2. simpl in Hf2. unfold file_bytes in *. by rewrite Hino, Hf2.
Qed.

End SingleFileFacts.

(** ** Witnesses *)

#[local] Instance text_hashing : Hashing :=
  { sha256_raw b := b; hex_encode b := string_of_list_ascii b }.

Definition small_dir : gmap string node :=
  {[ "page.html" := NFile 0; ".page.html.offprint-t" := NFile 1 ]}.

Definition small_fs : fs :=
  Fs (NDir {[ "out" := NDir small_dir ]})
    {[ 0%nat := as_bytes "old"; 1%nat := as_bytes "new" ]} 2 ∅ ∅ ["x"; "y"].

Definition small_artifact : StagedFileArtifact :=
  MkStagedFile ["out"; "page.html"] ConflictUniquify (MkTemp ["out"; ".page.html.offprint-t"] 1) 3
    (sha256 (as_bytes "new")).

Lemma single_commit_atomic_witness :
  match commit_single small_artifact (World small_fs (replicate 9 FNone ++ [FCrash])) with
  | (Done r, w) => exists c, fa_path r = ["out"] ++ [c] /\
      fa_sha256 r = sf_sha256 small_artifact /\
      delivered_as small_artifact small_fs ["out"] small_dir "page.html" ".page.html.offprint-t" c (w_fs w)
  | (Fail _, w) => withheld small_fs ["out"] small_dir ".page.html.offprint-t" (w_fs w)
  | (Crash, w) => withheld small_fs ["out"] small_dir ".page.html.offprint-t" (w_fs w) \/
      exists c, delivered_as small_artifact small_fs ["out"] small_dir "page.html"
        ".page.html.offprint-t" c (w_fs w)
  end.
Proof.
  apply (single_commit_atomic small_artifact small_fs ["out"] small_dir "page.html"
           ".page.html.offprint-t").
  - reflexivity.
  - reflexivity.
  - discriminate.
  - reflexivity.
  - simpl; ranges; lia.
Defined.

Lemma single_commit_succeeds_witness :
  exists r s' c, commit_single small_artifact (World small_fs []) = (Done r, World s' []) /\
    fa_path r = ["out"] ++ [c] /\
    delivered_as small_artifact small_fs ["out"] small_dir "page.html" ".page.html.offprint-t" c s'.
Proof.
  apply (single_commit_succeeds small_artifact small_fs ["out"] small_dir "page.html"
           ".page.html.offprint-t").
  - reflexivity.
  - reflexivity.
  - discriminate.
  - reflexivity.
  - simpl; ranges; lia.
  - split; [reflexivity|]. split; reflexivity.
  - vm_compute. reflexivity.
Defined.

Lemma single_file_delivered_witness :
  exists r s',
    deliver_single ["out"; "b.html"] ConflictFail [(2%nat, as_bytes "abc"); (9%nat, as_bytes "d")]
      (World small_fs []) = (Done r, World s' []) /\
    fa_path r = ["out"; "b.html"] /\ file_bytes s' 2 = as_bytes "abd".
Proof.
  destruct (single_file_delivered small_fs ["out"] small_dir "b.html" ConflictFail "x" ["y"]
              [(2%nat, as_bytes "abc"); (9%nat, as_bytes "d")])
    as (r & s' & Hr & Hp & _ & _ & _ & Hf).
  - reflexivity.
  - discriminate.
  - reflexivity.
  - reflexivity.
  - reflexivity.
  - simpl; ranges; lia.
  - exists r, s'. split; [exact Hr|]. split; [exact Hp|exact Hf].
Defined.

(** The commit of [small_artifact] takes the first free candidate. *)
Example small_candidate :
  match commit_single small_artifact (World small_fs []) with
  | (Done r, _) => fa_path r = ["out"; "page-1.html"]
  | _ => False
  end.
Proof. vm_compute. reflexivity. Qed.
