(* ===== verification/Names.v ===== *)
(** * Portable file names and in-memory artifacts

    Models [offprint-rs/artifact/src/filename.rs] and
    [offprint-rs/artifact/src/memory.rs].  A [str] is the list of its characters
    (Unicode scalar values, as numbers).  The Unicode tables behind
    [char::is_alphanumeric] and [char::to_lowercase] are a parameter; of them the
    theorem uses that lowercasing an alphanumeric character gives no ASCII
    punctuation, separator or control character. *)

From Stdlib Require Import ZArith Lia Ascii String.
From stdpp Require Import base tactics list gmap strings numbers.
From S2P Require Import Prelude.
From S2P Require Import Errors.
From S2P Require Import Fs.
From S2P Require Import Records.

#[local] Open Scope string_scope.
#[local] Open Scope list_scope.
#[local] Open Scope Z_scope.

(** ** File stems *)

Abbreviation chars := (list Z).

(** [char::is_alphanumeric] and [char::to_lowercase]. *)
Class Unicode := {
  is_alphanumeric : Z -> bool;
  to_lowercase : Z -> chars;
}.

(** [char::len_utf8] and [str::len]. *)
Definition len_utf8 (c : Z) : Z :=
  if c <? 128 then 1 else if c <? 2048 then 2 else if c <? 65536 then 3 else 4.

Fixpoint str_len (s : chars) : Z :=
  match s with [] => 0 | c :: s' => len_utf8 c + str_len s' end.

(** The characters of an ASCII literal. *)
Definition literal (s : string) : chars := map (fun c => Z.of_N (N_of_ascii c)) (as_bytes s).

Definition HYPHEN : Z := 45.
Definition UNDERSCORE : Z := 95.

Definition MAXIMUM_STEM_BYTES : Z := 96.

Definition ascii_lower_char (c : Z) : Z := if (65 <=? c) && (c <=? 90) then c + 32 else c.

Definition RESERVED : list chars :=
  map literal ["con"; "prn"; "aux"; "nul"; "com1"; "com2"; "com3"; "com4"; "com5"; "com6"; "com7";
               "com8"; "com9"; "lpt1"; "lpt2"; "lpt3"; "lpt4"; "lpt5"; "lpt6"; "lpt7"; "lpt8"; "lpt9"].

Definition is_reserved_file_stem (value : chars) : bool :=
  bool_decide (map ascii_lower_char value ∈ RESERVED).

(** [str::trim_matches] of [-], [.] and the space. *)
Definition trimmed_char (c : Z) : bool := (c =? 45) || (c =? 46) || (c =? 32).

Fixpoint trim_start (s : chars) : chars :=
  match s with c :: s' => if trimmed_char c then trim_start s' else s | [] => [] end.

Definition trim_matches (s : chars) : chars := rev (trim_start (rev (trim_start s))).

Section Stem.
Context `{Unicode}.

(** The inner loop: push what still fits. *)
Fixpoint push_lowercase (stem lowercase : chars) : chars :=
  match lowercase with
  | [] => stem
  | c :: rest =>
      if MAXIMUM_STEM_BYTES <? saturating_add usize_max (str_len stem) (len_utf8 c) then stem
      else push_lowercase (stem ++ [c]) rest
  end.

Definition kept (c : Z) : bool := is_alphanumeric c || (c =? HYPHEN) || (c =? UNDERSCORE).

(** The outer loop. *)
Fixpoint stem_loop (value : chars) (stem : chars) (separator : bool) : chars :=
  match value with
  | [] => stem
  | c :: rest =>
      let '(stem, separator) :=
        if kept c then
          let stem :=
            if separator && negb (bool_decide (stem = [])) && (str_len stem <? MAXIMUM_STEM_BYTES)
            then stem ++ [HYPHEN] else stem in
          (push_lowercase stem (to_lowercase c), false)
        else (stem, true) in
      if MAXIMUM_STEM_BYTES <=? str_len stem then stem else stem_loop rest stem separator
  end.

Definition portable_file_stem (value : chars) : chars :=
  let stem := trim_matches (stem_loop value [] false) in
  if bool_decide (stem = []) || is_reserved_file_stem stem then literal "capture" else stem.

(** ** What a portable stem is *)

Definition ascii_word (c : Z) : Prop := 48 <= c <= 57 \/ 65 <= c <= 90 \/ 97 <= c <= 122.

(** Of the Unicode tables: an alphanumeric character lowercases to letters,
    digits and characters outside ASCII. *)
Class UnicodeLaws : Prop :=
  lowercase_safe c x : is_alphanumeric c = true -> x ∈ to_lowercase c -> ascii_word x \/ 128 <= x.

(** [-] and [_] have no lowercase mapping. *)
Class UnicodeAscii : Prop := {
  lowercase_hyphen : to_lowercase HYPHEN = [HYPHEN];
  lowercase_underscore : to_lowercase UNDERSCORE = [UNDERSCORE];
}.

Definition portable_char (c : Z) : Prop :=
  ascii_word c \/ c = HYPHEN \/ c = UNDERSCORE \/ 128 <= c.

Record portable (s : chars) : Prop := {
  ps_nonempty : s <> [];
  ps_short : str_len s <= MAXIMUM_STEM_BYTES;
  ps_chars : Forall portable_char s;
  ps_first : head s <> Some HYPHEN;
  ps_last : list.last s <> Some HYPHEN;
  ps_reserved : map ascii_lower_char s ∉ RESERVED;
}.

Lemma len_utf8_bounds c : 1 <= len_utf8 c <= 4.
Proof. unfold len_utf8. repeat case_match; lia. Qed.

Lemma str_len_app s t : str_len (s ++ t) = str_len s + str_len t.
Proof. induction s; simpl; lia. Qed.

Lemma str_len_nonneg s : 0 <= str_len s.
Proof. induction s as [|c s IH]; simpl; [lia|]. assert (Hc := len_utf8_bounds c). lia. Qed.

(** Short, and only of characters that are safe in a name. *)
Definition stem_ok (s : chars) : Prop := str_len s <= MAXIMUM_STEM_BYTES /\ Forall portable_char s.

Lemma push_lowercase_ok stem l :
  stem_ok stem -> Forall portable_char l -> stem_ok (push_lowercase stem l).
Proof.
  intros Hs Hl. revert stem Hs. induction Hl as [|c l Hc _ IH]; intros stem Hs; simpl; [done|].
  destruct (Z.ltb_spec MAXIMUM_STEM_BYTES (saturating_add usize_max (str_len stem) (len_utf8 c)))
    as [Hlt|Hlt]; [done|].
  apply IH. destruct Hs as [Hs1 Hs2]. split.
  - rewrite str_len_app. simpl. unfold saturating_add, MAXIMUM_STEM_BYTES in *.
    assert (Hb := len_utf8_bounds c). ranges. lia.
  - apply Forall_app. split; [done|by apply Forall_singleton].
Qed.

Context {Hlaws : UnicodeLaws} {Hascii : UnicodeAscii}.

Lemma lowercase_portable c : kept c = true -> Forall portable_char (to_lowercase c).
Proof using All.
  unfold kept. intros Hk. apply orb_true_iff in Hk as [[Hk|Hk%Z.eqb_eq]%orb_true_iff|Hk%Z.eqb_eq].
  - apply Forall_forall. intros x Hx%list_elem_of_In.
    unfold portable_char. destruct (lowercase_safe c x Hk Hx); auto.
  - subst. rewrite lowercase_hyphen. apply Forall_singleton. unfold portable_char. auto.
  - subst. rewrite lowercase_underscore. apply Forall_singleton. unfold portable_char. auto.
Qed.

Lemma stem_loop_ok value stem separator : stem_ok stem -> stem_ok (stem_loop value stem separator).
Proof using All.
  revert stem separator. induction value as [|c rest IH]; intros stem separator Hs; cbn [stem_loop]; [done|].
  destruct (kept c) eqn:Hk; [|by destruct (_ <=? _); [|apply IH]].
  match goal with |- context [push_lowercase ?x _] => set (stem' := x) end.
  assert (Hs' : stem_ok stem').
  { unfold stem'. 
    destruct (separator && negb (bool_decide (stem = [])) && (str_len stem <? MAXIMUM_STEM_BYTES))
      eqn:E; [|done]. bool_facts.
    destruct Hs as [Hs1 Hs2]. split; [rewrite str_len_app; simpl; unfold len_utf8, HYPHEN; simpl; lia|].
    apply Forall_app. split; [done|]. apply Forall_singleton. unfold portable_char. auto. }
  assert (Hp := push_lowercase_ok stem' _ Hs' (lowercase_portable c Hk)).
  destruct (_ <=? _); [done|by apply IH].
Qed.

(** Trimming keeps a middle part, without hyphens at its ends. *)
Lemma trim_start_split s : exists pre, s = pre ++ trim_start s.
Proof.
  induction s as [|c s [pre IH]]; simpl; [by exists []|].
  destruct (trimmed_char c); [exists (c :: pre); simpl; by f_equal|by exists []].
Qed.

Lemma trim_start_head s c : head (trim_start s) = Some c -> trimmed_char c = false.
Proof. induction s as [|x s IH]; simpl; [done|]. destruct (trimmed_char x) eqn:E; [done|]. by intros [= <-]. Qed.

Lemma trim_matches_split s : exists pre post, s = pre ++ trim_matches s ++ post.
Proof.
  unfold trim_matches. destruct (trim_start_split s) as [pre Hpre].
  destruct (trim_start_split (rev (trim_start s))) as [post Hpost].
  exists pre, (rev post). rewrite Hpre at 1. f_equal.
  rewrite <- (rev_involutive (trim_start s)) at 1. rewrite Hpost at 1. by rewrite rev_app_distr.
Qed.

Lemma last_rev (l : chars) : list.last (rev l) = head l.
Proof. rewrite rev_alt. exact (last_reverse l). Qed.

Lemma trim_matches_ends s c :
  head (trim_matches s) = Some c \/ list.last (trim_matches s) = Some c -> trimmed_char c = false.
Proof.
  intros [Hh|Hl].
  - unfold trim_matches in Hh. destruct (trim_start_split (rev (trim_start s))) as [post Hpost].
    apply (f_equal (@rev Z)) in Hpost. rewrite rev_involutive, rev_app_distr in Hpost.
    apply (trim_start_head s). rewrite Hpost. destruct (rev (trim_start (rev (trim_start s)))); [done|].
    by simpl in *.
  - unfold trim_matches in Hl. rewrite last_rev in Hl. by apply trim_start_head in Hl.
Qed.

Lemma stem_ok_portable s :
  stem_ok s -> trim_matches s <> [] -> is_reserved_file_stem (trim_matches s) = false ->
  portable (trim_matches s).
Proof.
  intros [H1 H2] Hne Hres. destruct (trim_matches_split s) as (pre & post & E).
  rewrite E in H1, H2. rewrite !str_len_app in H1. rewrite !Forall_app in H2.
  assert (Hpre := str_len_nonneg pre). assert (Hpost := str_len_nonneg post).
  assert (Hend : trimmed_char HYPHEN = true) by reflexivity.
  split; [done|lia|naive_solver| | |].
  - intros Hh. assert (E' := trim_matches_ends s HYPHEN (or_introl Hh)). congruence.
  - intros Hl. assert (E' := trim_matches_ends s HYPHEN (or_intror Hl)). congruence.
  - unfold is_reserved_file_stem in Hres. by apply bool_decide_eq_false in Hres.
Qed.

Lemma capture_portable : portable (literal "capture").
Proof.
  split; try (vm_compute; discriminate).
  - repeat (apply Forall_cons_iff; split); 
      [left; right; right; split; vm_compute; discriminate..|constructor].
  - intros Hin. apply (bool_decide_eq_true_2 _) in Hin. vm_compute in Hin. discriminate.
Qed.

(** Every title gives a portable file stem: not empty, at most 96 bytes of
    UTF-8, of letters, digits, hyphens, underscores and characters outside ASCII
    only (so no separator, colon, dot, space or NUL), with no hyphen at either
    end, and not a reserved device name. *)
Theorem stem_is_portable value : portable (portable_file_stem value).
Proof using All.
  unfold portable_file_stem.
  destruct (bool_decide_reflect (trim_matches (stem_loop value [] false) = [])) as [|Hne]; simpl;
    [apply capture_portable|].
  destruct (is_reserved_file_stem _) eqn:Hres; [apply capture_portable|].
  apply stem_ok_portable; [|done|done]. apply stem_loop_ok. split; [|constructor].
  unfold MAXIMUM_STEM_BYTES; simpl; lia.
Qed.
End Stem.
Arguments UnicodeLaws {_}.
Arguments UnicodeAscii {_}.

(** ** In-memory artifacts *)

Record MemoryArtifactWriter := MkMemoryWriter {
  mw_bytes : bytes;
  mw_maximum_bytes : Z;
  mw_hasher : bytes;
}.

Record MemoryArtifact := MkMemory {
  ma_content : bytes;
  ma_bytes : Z;
  ma_sha256 : ContentDigest;
}.

Inductive write_error := FileTooLarge.

Definition memory_new (maximum_bytes : Z) : MemoryArtifactWriter :=
  MkMemoryWriter [] maximum_bytes [].

Definition memory_write (buffer : bytes) (w : MemoryArtifactWriter)
    : result write_error nat * MemoryArtifactWriter :=
  let next := saturating_add u64_max (len_u64 (mw_bytes w)) (len_u64 buffer) in
  if mw_maximum_bytes w <? next then (Err FileTooLarge, w)
  else (Ok (length buffer),
        MkMemoryWriter (mw_bytes w ++ buffer) (mw_maximum_bytes w) (mw_hasher w ++ buffer)).

Definition memory_finish `{Hashing} (w : MemoryArtifactWriter) : Res MemoryArtifact :=
  bytes <-? ok_or (try_from u64_max (Z.of_nat (length (mw_bytes w))))
              (new_error "offprint.artifact.size" Encoding) ;;
  Ok (MkMemory (mw_bytes w) bytes (sha256 (mw_hasher w))).

(** Buffers written one after another; a refused one is dropped. *)
Definition memory_writes (l : list bytes) (w : MemoryArtifactWriter) : MemoryArtifactWriter :=
  fold_left (fun w b => snd (memory_write b w)) l w.

(** The buffers that fit, by the plain sum of their lengths. *)
Fixpoint fitting (maximum : Z) (sofar : bytes) (l : list bytes) : bytes :=
  match l with
  | [] => sofar
  | b :: l' =>
      fitting maximum
        (if Z.of_nat (length sofar) + Z.of_nat (length b) <=? maximum then sofar ++ b else sofar) l'
  end.

Lemma memory_writes_spec maximum l sofar :
  0 <= maximum < u64_max -> Z.of_nat (length sofar) <= maximum ->
  memory_writes l (MkMemoryWriter sofar maximum sofar) =
    MkMemoryWriter (fitting maximum sofar l) maximum (fitting maximum sofar l) /\
  Z.of_nat (length (fitting maximum sofar l)) <= maximum.
Proof.
  intros Hm. revert sofar. induction l as [|b l IH]; intros sofar Hs; [done|].
  cbn [memory_writes fold_left fitting]. unfold memory_write at 2. cbn [mw_bytes mw_maximum_bytes mw_hasher].
  assert (E : (maximum <? saturating_add u64_max (len_u64 sofar) (len_u64 b)) =
              negb (Z.of_nat (length sofar) + Z.of_nat (length b) <=? maximum)).
  { unfold saturating_add, len_u64.
    destruct (Z.ltb_spec maximum (Z.min u64_max (Z.min u64_max (Z.of_nat (length sofar)) +
                Z.min u64_max (Z.of_nat (length b))))),
      (Z.leb_spec (Z.of_nat (length sofar) + Z.of_nat (length b)) maximum); simpl; lia || done. }
  rewrite E. destruct (Z.leb_spec (Z.of_nat (length sofar) + Z.of_nat (length b)) maximum); simpl.
  - apply IH. rewrite length_app. lia.
  - by apply IH.
Qed.

(** An in-memory artifact never outgrows its limit: whatever buffers are
    written, the artifact is the concatenation of exactly those that fit when
    they come, its length and digest are reported of that content, and a refused
    buffer leaves no trace. *)
Theorem memory_artifact_bounded `{Hashing} maximum l :
  0 <= maximum < u64_max ->
  memory_finish (memory_writes l (memory_new maximum)) =
    Ok (MkMemory (fitting maximum [] l) (Z.of_nat (length (fitting maximum [] l)))
          (sha256 (fitting maximum [] l))) /\
  Z.of_nat (length (fitting maximum [] l)) <= maximum.
Proof.
  intros Hm. destruct (memory_writes_spec maximum l [] Hm) as [E Hl]; [simpl; lia|].
  split; [|done]. unfold memory_new. rewrite E. unfold memory_finish, try_from. cbn [mw_bytes mw_hasher].
  rewrite (proj2 (Z.leb_le 0 _)) by lia. rewrite (proj2 (Z.leb_le _ u64_max)) by lia. done.
Qed.

(** ** Witnesses *)

#[local] Instance ascii_tables : Unicode :=
  { is_alphanumeric c := ((48 <=? c) && (c <=? 57)) || ((65 <=? c) && (c <=? 90))
                         || ((97 <=? c) && (c <=? 122));
    to_lowercase c := [ascii_lower_char c] }.

#[local] Instance ascii_tables_laws : UnicodeLaws.
Proof.
  intros c x Hc Hx. apply list_elem_of_singleton in Hx as ->. simpl in Hc.
  unfold ascii_lower_char, ascii_word. left.
  destruct (Z.leb_spec 48 c), (Z.leb_spec c 57), (Z.leb_spec 65 c), (Z.leb_spec c 90),
    (Z.leb_spec 97 c), (Z.leb_spec c 122); simpl in *; try discriminate; lia.
Defined.

#[local] Instance ascii_tables_ascii : UnicodeAscii.
Proof. split; reflexivity. Defined.

Lemma stem_is_portable_witness :
  portable (portable_file_stem (literal "Release / notes: 2024?")) /\
  portable_file_stem (literal "Release / notes: 2024?") = literal "release-notes-2024".
Proof. split; [apply (stem_is_portable (literal "Release / notes: 2024?"))|vm_compute; reflexivity]. Defined.

#[local] Instance memory_hashing : Hashing :=
  { sha256_raw b := b; hex_encode b := string_of_list_ascii b }.

Lemma memory_artifact_bounded_witness :
  memory_finish (memory_writes [as_bytes "page"; as_bytes "knot"; as_bytes "s"] (memory_new 5)) =
    Ok (MkMemory (as_bytes "pages") 5 (sha256 (as_bytes "pages"))).
Proof.
  apply (memory_artifact_bounded 5 [as_bytes "page"; as_bytes "knot"; as_bytes "s"]).
  ranges; lia.
Defined.
