(* ===== verification/Requests.v ===== *)
(** * Capture requests

    Models [offprint-rs/model/src/request.rs], [policy.rs], [credentials.rs] and
    the output part of [artifact.rs], and
    [offprint-rs/capture/src/validated.rs]: the request of one capture, its
    builder, its named profiles and its validation.

    A [Url] is its serialisation, which is what [url::Url] compares, orders and
    prints; the accessors of the [url] crate are the class [UrlLib].  A
    [PortablePath] is its text; [camino] and [std::path] compare paths by
    components. *)

From Stdlib Require Import ZArith Lia Ascii String.
From stdpp Require Import base tactics list gmap strings numbers.
From S2P Require Import Prelude.
From S2P Require Import Errors.
From S2P Require Import Fs.
From S2P Require Import Records.
From S2P Require Import Budget.
From S2P Require Import Network.

#[local] Open Scope string_scope.
#[local] Open Scope list_scope.
#[local] Open Scope Z_scope.

Definition PUBLIC_SCHEMA_VERSION : Z := 2.
Definition MAXIMUM_CAPTURE_NODES : Z := 1000000.

(** ** URLs and paths *)

Abbreviation url := string.
Abbreviation PortablePath := string.

(** [Url::scheme], [fragment], [set_fragment(None)], [origin], [path_segments],
    [host_str], [join] and [Url::parse]. *)
Class UrlLib := {
  url_scheme : url -> string;
  url_fragment : url -> option string;
  url_without_fragment : url -> url;
  url_origin : url -> string;
  url_path_segments : url -> option (list string);
  url_host_str : url -> option string;
  url_join : url -> string -> option url;
  url_parse : string -> option url;
}.

(** Of the [url] crate: removing the fragment leaves none and keeps the scheme. *)
Class UrlLaws `{UrlLib} : Prop := {
  fragment_removed u : url_fragment (url_without_fragment u) = None;
  scheme_kept u : url_scheme (url_without_fragment u) = url_scheme u;
}.

#[export] Instance Component_eq_dec : EqDecision Component.
Proof. solve_decision. Defined.

(** [PartialEq for Path]. *)
Definition path_eqb (a b : PortablePath) : bool := bool_decide (components a = components b).

(** ** Policies *)

Inductive ColorScheme := Light | Dark.
Inductive ReducedMotion := Reduce | NoPreference.
Inductive UserAgentPolicy := BrowserDefault | Override (value : string).

Record Viewport := MkViewport { vp_width : Z; vp_height : Z; vp_scale : Z }.

Definition viewport_default : Viewport := MkViewport 1440 900 1.

Record BrowserEnvironment := MkEnvironment {
  env_viewport : Viewport;
  env_locale : string;
  env_timezone : string;
  env_color_scheme : ColorScheme;
  env_reduced_motion : ReducedMotion;
  env_user_agent : UserAgentPolicy;
}.

Definition environment_default : BrowserEnvironment :=
  MkEnvironment viewport_default "en-US" "UTC" Light Reduce BrowserDefault.

Inductive MissingResourcePolicy := MissingWarn | MissingFail.
Inductive CaptureScope := ScopePage | ScopeSelection.

#[export] Instance CaptureScope_eq_dec : EqDecision CaptureScope.
Proof. solve_decision. Defined.

Record OptimizationPolicy := MkOptimization {
  remove_unused_css : bool;
  remove_unused_fonts : bool;
  remove_hidden_elements : bool;
}.

Inductive VerificationMode := VerifyStatic | VerifyOffline.

#[export] Instance VerificationMode_eq_dec : EqDecision VerificationMode.
Proof. solve_decision. Defined.

Record ViewportSweepPolicy := MkSweep { step_pixels : Z; settle : Z; max_steps : Z }.

Definition sweep_default : ViewportSweepPolicy := MkSweep 720 100 100.

Inductive LazyLoadPolicy := LazyDisabled | ViewportSweep (options : ViewportSweepPolicy).
Inductive ReadinessMode := RenderIdle | NetworkIdle | Load | DomContentLoaded.

Record ReadinessPolicy := MkReadiness {
  rd_mode : ReadinessMode;
  rd_network_quiet : Z;
  rd_mutation_quiet : Z;
  rd_delay : Z;
  rd_lazy_load : LazyLoadPolicy;
}.

Definition readiness_default : ReadinessPolicy :=
  MkReadiness RenderIdle 500 300 0 (ViewportSweep sweep_default).

Record ContentPolicy := MkContent {
  cp_missing_resources : MissingResourcePolicy;
  cp_preserve_password_values : bool;
  cp_scope : CaptureScope;
  cp_selector : option string;
  cp_optimizations : OptimizationPolicy;
  cp_allowed_file_roots : list PortablePath;
}.

Definition content_default : ContentPolicy :=
  MkContent MissingWarn false ScopePage None (MkOptimization false false false) [].

Definition limits_default : CaptureLimits := {|
  lim_duration := 120000;
  lim_redirects := 20;
  lim_frames := 256;
  lim_nodes := MAXIMUM_CAPTURE_NODES;
  lim_resources := 10000;
  lim_resource_bytes := 64 * 1024 * 1024;
  lim_total_resource_bytes := 512 * 1024 * 1024;
  lim_collector_chunk_bytes := 1024 * 1024;
  lim_concurrent_resources := 8;
  lim_artifact_bytes := 64 * 1024 * 1024;
  lim_resource_recursion_depth := 64;
  lim_frame_depth := 64;
|}.

Record DiagnosticsPolicy := MkDiagnostics { dp_directory : option PortablePath }.

(** ** Credentials

    A [SecretString] is the text it protects. *)

Record RequestHeader := MkHeader { hd_name : string; hd_value : string }.

Inductive CookieSameSite := SameSiteStrict | SameSiteLax | SameSiteNone.

Record BrowserCookie := MkCookie {
  ck_name : string;
  ck_value : string;
  ck_url : option url;
  ck_domain : option string;
  ck_path : option string;
  ck_secure : option bool;
  ck_http_only : option bool;
  ck_same_site : option CookieSameSite;
  ck_expires : option Z;
}.

Record CaptureCredentials := MkCredentials {
  headers : list RequestHeader;
  cookies : list BrowserCookie;
}.

Definition credentials_empty : CaptureCredentials := MkCredentials [] [].

Definition credentials_is_empty (c : CaptureCredentials) : bool :=
  match headers c, cookies c with [], [] => true | _, _ => false end.

(** ** The request *)

Inductive CaptureOutput :=
| OutputFile (path : PortablePath) (conflict : ConflictPolicy)
| OutputMemory (max_bytes : Z).

Definition output_memory (max_bytes : Z) : CaptureOutput := OutputMemory max_bytes.
Definition output_file (path : PortablePath) : CaptureOutput := OutputFile path ConflictFail.
Definition with_conflict (o : CaptureOutput) (conflict : ConflictPolicy) : CaptureOutput :=
  match o with
  | OutputFile path _ => OutputFile path conflict
  | OutputMemory n => OutputMemory n
  end.

Inductive BrowserSpec := BrowserAuto | BrowserExecutable (path : PortablePath) | BrowserRemote (endpoint : url).

Record CaptureRequest := MkRequest {
  rq_schema_version : Z;
  rq_url : url;
  rq_output : CaptureOutput;
  rq_browser : BrowserSpec;
  rq_headed : option bool;
  rq_environment : BrowserEnvironment;
  rq_readiness : ReadinessPolicy;
  rq_content : ContentPolicy;
  rq_credentials : CaptureCredentials;
  rq_network : NetworkPolicy;
  rq_limits : CaptureLimits;
  rq_verification : VerificationMode;
  rq_diagnostics : DiagnosticsPolicy;
}.

Definition set_output (o : CaptureOutput) (r : CaptureRequest) : CaptureRequest :=
  MkRequest (rq_schema_version r) (rq_url r) o (rq_browser r) (rq_headed r) (rq_environment r)
    (rq_readiness r) (rq_content r) (rq_credentials r) (rq_network r) (rq_limits r)
    (rq_verification r) (rq_diagnostics r).
Definition set_browser (b : BrowserSpec) (r : CaptureRequest) : CaptureRequest :=
  MkRequest (rq_schema_version r) (rq_url r) (rq_output r) b (rq_headed r) (rq_environment r)
    (rq_readiness r) (rq_content r) (rq_credentials r) (rq_network r) (rq_limits r)
    (rq_verification r) (rq_diagnostics r).
Definition set_url (u : url) (r : CaptureRequest) : CaptureRequest :=
  MkRequest (rq_schema_version r) u (rq_output r) (rq_browser r) (rq_headed r) (rq_environment r)
    (rq_readiness r) (rq_content r) (rq_credentials r) (rq_network r) (rq_limits r)
    (rq_verification r) (rq_diagnostics r).

Definition set_environment (e : BrowserEnvironment) (r : CaptureRequest) : CaptureRequest :=
  MkRequest (rq_schema_version r) (rq_url r) (rq_output r) (rq_browser r) (rq_headed r) e
    (rq_readiness r) (rq_content r) (rq_credentials r) (rq_network r) (rq_limits r)
    (rq_verification r) (rq_diagnostics r).
Definition set_readiness (p : ReadinessPolicy) (r : CaptureRequest) : CaptureRequest :=
  MkRequest (rq_schema_version r) (rq_url r) (rq_output r) (rq_browser r) (rq_headed r)
    (rq_environment r) p (rq_content r) (rq_credentials r) (rq_network r) (rq_limits r)
    (rq_verification r) (rq_diagnostics r).
Definition set_content (c : ContentPolicy) (r : CaptureRequest) : CaptureRequest :=
  MkRequest (rq_schema_version r) (rq_url r) (rq_output r) (rq_browser r) (rq_headed r)
    (rq_environment r) (rq_readiness r) c (rq_credentials r) (rq_network r) (rq_limits r)
    (rq_verification r) (rq_diagnostics r).
Definition set_network (n : NetworkPolicy) (r : CaptureRequest) : CaptureRequest :=
  MkRequest (rq_schema_version r) (rq_url r) (rq_output r) (rq_browser r) (rq_headed r)
    (rq_environment r) (rq_readiness r) (rq_content r) (rq_credentials r) n (rq_limits r)
    (rq_verification r) (rq_diagnostics r).
Definition set_limits (l : CaptureLimits) (r : CaptureRequest) : CaptureRequest :=
  MkRequest (rq_schema_version r) (rq_url r) (rq_output r) (rq_browser r) (rq_headed r)
    (rq_environment r) (rq_readiness r) (rq_content r) (rq_credentials r) (rq_network r) l
    (rq_verification r) (rq_diagnostics r).
Definition set_verification (v : VerificationMode) (r : CaptureRequest) : CaptureRequest :=
  MkRequest (rq_schema_version r) (rq_url r) (rq_output r) (rq_browser r) (rq_headed r)
    (rq_environment r) (rq_readiness r) (rq_content r) (rq_credentials r) (rq_network r)
    (rq_limits r) v (rq_diagnostics r).
Definition set_diagnostics (d : DiagnosticsPolicy) (r : CaptureRequest) : CaptureRequest :=
  MkRequest (rq_schema_version r) (rq_url r) (rq_output r) (rq_browser r) (rq_headed r)
    (rq_environment r) (rq_readiness r) (rq_content r) (rq_credentials r) (rq_network r)
    (rq_limits r) (rq_verification r) d.

Definition input_error (code : string) : OffprintError := new_error code Validation.

(** ** Validation *)

Definition is_token_byte (b : ascii) : bool :=
  let n := Z.of_N (N_of_ascii b) in
  ((48 <=? n) && (n <=? 57)) || ((65 <=? n) && (n <=? 90)) || ((97 <=? n) && (n <=? 122))
  || bool_decide (b ∈ as_bytes "!#$%&'*+-.^_`|~").

Definition is_http_token (value : string) : bool :=
  bool_decide (value <> "") && forallb is_token_byte (as_bytes value).

Definition byte_value (b : ascii) : Z := Z.of_N (N_of_ascii b).

Definition contains_header_control (value : string) : bool :=
  existsb (fun b => (byte_value b =? 0) || (byte_value b =? 13) || (byte_value b =? 10))
    (as_bytes value).

Definition contains_cookie_control (value : string) : bool :=
  existsb (fun b => (byte_value b <? 32) || (byte_value b =? 127) || (byte_value b =? 59)
                    || (byte_value b =? 44)) (as_bytes value).

Definition RESERVED_HEADERS : list string :=
  ["connection"; "content-length"; "cookie"; "host"; "proxy-authorization"; "set-cookie";
   "transfer-encoding"].

(** The loop over the headers, with the set of names seen. *)
Fixpoint check_headers (names : gset string) (l : list RequestHeader) : Res unit :=
  match l with
  | [] => Ok tt
  | h :: l' =>
      let normalized := to_ascii_lowercase (hd_name h) in
      if negb (is_http_token (hd_name h))
         || bool_decide (normalized ∈ RESERVED_HEADERS)
         || starts_with "sec-" normalized
         || bool_decide (normalized ∈ names)
         || contains_header_control (hd_value h)
      then Err (input_error "offprint.input.credentials")
      else check_headers ({[normalized]} ∪ names) l'
  end.

Section Validation.
Context `{UrlLib}.

Definition cookie_invalid (c : BrowserCookie) : bool :=
  bool_decide (ck_name c = "")
  || (4096 <? Z.of_nat (String.length (ck_name c)))
  || existsb (fun b => (byte_value b <=? 32) || (byte_value b =? 59) || (byte_value b =? 44))
       (as_bytes (ck_name c))
  || (4096 <? Z.of_nat (String.length (ck_value c)))
  || contains_cookie_control (ck_value c)
  || match ck_url c, ck_domain c with None, None => true | _, _ => false end
  || match ck_domain c with Some d => bool_decide (d = "") | None => false end
  || match ck_url c with
     | Some u => negb (bool_decide (url_scheme u ∈ ["http"; "https"]))
     | None => false
     end.

Definition validate_credentials (c : CaptureCredentials) : Res unit :=
  if (256 <? Z.of_nat (length (headers c))) || (4096 <? Z.of_nat (length (cookies c)))
  then Err (input_error "offprint.input.credentials")
  else
    do? check_headers ∅ (headers c) ;;
    for_each (fun k => if cookie_invalid k
                       then Err (input_error "offprint.input.credentials") else Ok tt)
      (cookies c).

Definition validate_output (o : CaptureOutput) (l : CaptureLimits) : Res unit :=
  match o with
  | OutputFile path _ =>
      if bool_decide (path = "") then Err (input_error "offprint.input.output") else Ok tt
  | OutputMemory n =>
      if n =? 0 then Err (input_error "offprint.input.limit")
      else if lim_artifact_bytes l <? n then Err (input_error "offprint.input.limit")
      else Ok tt
  end.

Definition limits_have_zero (l : CaptureLimits) : bool :=
  (lim_duration l =? 0) || (lim_frames l =? 0) || (lim_nodes l =? 0) || (lim_resources l =? 0)
  || (lim_resource_bytes l =? 0) || (lim_total_resource_bytes l =? 0)
  || (lim_collector_chunk_bytes l =? 0) || (lim_concurrent_resources l =? 0)
  || (lim_artifact_bytes l =? 0) || (lim_resource_recursion_depth l =? 0)
  || (lim_frame_depth l =? 0).

Definition validate_limits (l : CaptureLimits) : Res unit :=
  if limits_have_zero l then Err (input_error "offprint.input.limit")
  else if MAXIMUM_CAPTURE_NODES <? lim_nodes l
  then Err (with_detail "limit" (DNum MAXIMUM_CAPTURE_NODES)
              (with_detail "attempted" (DNum (lim_nodes l)) (input_error "offprint.input.limit")))
  else if lim_total_resource_bytes l <? lim_resource_bytes l
  then Err (input_error "offprint.input.limit")
  else Ok tt.

Definition validate_remote_capture (r : CaptureRequest) : Res unit :=
  match rq_browser r with
  | BrowserRemote _ =>
      if bool_decide (url_scheme (rq_url r) = "file")
      then Err (input_error "offprint.input.remote_file")
      else match rq_network r with
           | Unrestricted =>
               if bool_decide (rq_verification r <> VerifyStatic)
               then Err (input_error "offprint.input.remote_verification_policy")
               else Ok tt
           | _ => Err (input_error "offprint.input.remote_network_policy")
           end
  | _ => Ok tt
  end.

Definition validate_browser (b : BrowserSpec) : Res unit :=
  match b with
  | BrowserRemote endpoint =>
      if bool_decide (url_scheme endpoint ∈ ["http"; "https"; "ws"; "wss"]) then Ok tt
      else Err (input_error "offprint.input.cdp_url")
  | _ => Ok tt
  end.

Definition validate_capture_url (u : url) (c : ContentPolicy) : Res unit :=
  if bool_decide (url_scheme u ∈ ["http"; "https"]) then Ok tt
  else if bool_decide (url_scheme u = "file")
  then match cp_allowed_file_roots c with
       | [] => Err (input_error "offprint.input.file_root")
       | _ => Ok tt
       end
  else Err (input_error "offprint.input.url_scheme").

Definition validate_content (c : ContentPolicy) : Res unit :=
  match cp_selector c with
  | Some _ =>
      if bool_decide (cp_scope c = ScopeSelection)
      then Err (input_error "offprint.input.selector_scope") else Ok tt
  | None => Ok tt
  end.

Definition validate (r : CaptureRequest) : Res unit :=
  if negb (rq_schema_version r =? PUBLIC_SCHEMA_VERSION)
  then Err (with_detail "actual" (DNum (rq_schema_version r))
              (with_detail "expected" (DNum PUBLIC_SCHEMA_VERSION)
                 (input_error "offprint.input.schema_version")))
  else
    do? validate_capture_url (rq_url r) (rq_content r) ;;
    do? validate_content (rq_content r) ;;
    do? validate_browser (rq_browser r) ;;
    do? validate_remote_capture r ;;
    do? validate_limits (rq_limits r) ;;
    do? validate_output (rq_output r) (rq_limits r) ;;
    do? validate_credentials (rq_credentials r) ;;
    let v := env_viewport (rq_environment r) in
    if (vp_width v =? 0) || (vp_height v =? 0) || (vp_scale v =? 0)
    then Err (input_error "offprint.input.viewport")
    else Ok tt.

(** [ValidatedCaptureRequest::new]; the value is the request itself. *)
Definition validated_new (r : CaptureRequest) : Res CaptureRequest :=
  do? validate r ;; Ok r.

(** [CaptureRequestBuilder::new] and [build]. *)
Definition builder_new (text : string) : Res CaptureRequest :=
  u <-? ok_or (url_parse text) (input_error "offprint.input.url") ;;
  Ok (MkRequest PUBLIC_SCHEMA_VERSION u (output_memory (lim_artifact_bytes limits_default))
        BrowserAuto None environment_default readiness_default content_default credentials_empty
        Standard limits_default VerifyOffline (MkDiagnostics None)).

Definition builder_build (r : CaptureRequest) : Res CaptureRequest :=
  do? validate r ;; Ok r.

End Validation.

(** ** Profiles *)

Record CaptureProfile := MkProfile {
  pf_environment : BrowserEnvironment;
  pf_readiness : ReadinessPolicy;
  pf_content : ContentPolicy;
  pf_network : NetworkPolicy;
  pf_limits : CaptureLimits;
  pf_verification : VerificationMode;
}.

Definition profile_default : CaptureProfile :=
  MkProfile environment_default readiness_default content_default Standard limits_default
    VerifyOffline.

Definition fail_on_missing (c : ContentPolicy) : ContentPolicy :=
  MkContent MissingFail (cp_preserve_password_values c) (cp_scope c) (cp_selector c)
    (cp_optimizations c) (cp_allowed_file_roots c).

Definition named (name : string) : Res CaptureProfile :=
  let p := profile_default in
  if bool_decide (name = "default") then Ok p
  else if bool_decide (name = "strict")
  then Ok (MkProfile (pf_environment p) (pf_readiness p) (fail_on_missing (pf_content p))
             (pf_network p) (pf_limits p) (pf_verification p))
  else if bool_decide (name = "server")
  then Ok (MkProfile (pf_environment p) (pf_readiness p) (fail_on_missing (pf_content p))
             Server (pf_limits p) (pf_verification p))
  else Err (new_error "offprint.config.profile" Validation).

Definition apply_to (p : CaptureProfile) (r : CaptureRequest) : CaptureRequest :=
  let inherits_artifact_limit :=
    match rq_output r with
    | OutputMemory n => n =? lim_artifact_bytes (rq_limits r)
    | OutputFile _ _ => false
    end in
  MkRequest (rq_schema_version r) (rq_url r)
    (if inherits_artifact_limit then OutputMemory (lim_artifact_bytes (pf_limits p)) else rq_output r)
    (rq_browser r) (rq_headed r) (pf_environment p) (pf_readiness p) (pf_content p)
    (rq_credentials r) (pf_network p) (pf_limits p) (pf_verification p) (rq_diagnostics r).

(** ** What a valid request is *)

Definition header_ok (h : RequestHeader) : Prop :=
  let name := to_ascii_lowercase (hd_name h) in
  hd_name h <> "" /\ Forall (fun b => is_token_byte b = true) (as_bytes (hd_name h)) /\
  (name ∉ RESERVED_HEADERS) /\ starts_with "sec-" name = false /\
  Forall (fun b => byte_value b ∉ [0; 10; 13]) (as_bytes (hd_value h)).

Record limits_ok (l : CaptureLimits) : Prop := {
  lo_positive : limits_have_zero l = false;
  lo_nodes : lim_nodes l <= MAXIMUM_CAPTURE_NODES;
  lo_total : lim_resource_bytes l <= lim_total_resource_bytes l;
}.

Section Valid.
Context `{UrlLib}.

Definition cookie_ok (c : BrowserCookie) : Prop :=
  ck_name c <> "" /\ (String.length (ck_name c) <= 4096)%nat /\
  Forall (fun b => 32 < byte_value b /\ byte_value b ∉ [44; 59]) (as_bytes (ck_name c)) /\
  (String.length (ck_value c) <= 4096)%nat /\
  Forall (fun b => 32 <= byte_value b /\ byte_value b ∉ [44; 59; 127]) (as_bytes (ck_value c)) /\
  (is_Some (ck_url c) \/ is_Some (ck_domain c)) /\
  ck_domain c <> Some "" /\
  (forall u, ck_url c = Some u -> url_scheme u ∈ ["http"; "https"]).

Record credentials_ok (c : CaptureCredentials) : Prop := {
  co_headers : (length (headers c) <= 256)%nat;
  co_cookies : (length (cookies c) <= 4096)%nat;
  co_header : Forall header_ok (headers c);
  co_distinct : NoDup (map (fun h => to_ascii_lowercase (hd_name h)) (headers c));
  co_cookie : Forall cookie_ok (cookies c);
}.

Record request_ok (r : CaptureRequest) : Prop := {
  ro_version : rq_schema_version r = PUBLIC_SCHEMA_VERSION;
  ro_url : url_scheme (rq_url r) ∈ ["http"; "https"] \/
           (url_scheme (rq_url r) = "file" /\ cp_allowed_file_roots (rq_content r) <> []);
  ro_scope : cp_selector (rq_content r) = None \/ cp_scope (rq_content r) = ScopePage;
  ro_remote : forall endpoint, rq_browser r = BrowserRemote endpoint ->
    url_scheme endpoint ∈ ["http"; "https"; "ws"; "wss"] /\
    url_scheme (rq_url r) <> "file" /\ rq_network r = Unrestricted /\
    rq_verification r = VerifyStatic;
  ro_limits : limits_ok (rq_limits r);
  ro_output : match rq_output r with
              | OutputFile path _ => path <> ""
              | OutputMemory n => n <> 0 /\ n <= lim_artifact_bytes (rq_limits r)
              end;
  ro_credentials : credentials_ok (rq_credentials r);
  ro_viewport : vp_width (env_viewport (rq_environment r)) <> 0 /\
                vp_height (env_viewport (rq_environment r)) <> 0 /\
                vp_scale (env_viewport (rq_environment r)) <> 0;
}.

End Valid.

(** ** Validation is exact *)

Lemma forallb_Forall {A} (f : A -> bool) l :
  forallb f l = true <-> Forall (fun x => f x = true) l.
Proof. by rewrite forallb_forall, List.Forall_forall. Qed.

Lemma existsb_Forall {A} (f : A -> bool) l :
  existsb f l = false <-> Forall (fun x => f x = false) l.
Proof.
  induction l as [|x l IH]; simpl; [naive_solver|].
  by rewrite orb_false_iff, IH, Forall_cons_iff.
Qed.

(** Decide a boolean test of a byte against its proposition. *)
Ltac byte_test :=
  rewrite ?orb_false_iff, ?Z.eqb_neq, ?Z.ltb_ge, ?Z.leb_gt, ?not_elem_of_cons;
  intuition (try lia; try set_solver).

Lemma header_control_spec v :
  contains_header_control v = false <->
  Forall (fun b => byte_value b ∉ [0; 10; 13]) (as_bytes v).
Proof.
  unfold contains_header_control. rewrite existsb_Forall.
  apply Forall_iff; intros b. byte_test.
Qed.

Lemma cookie_control_spec v :
  contains_cookie_control v = false <->
  Forall (fun b => 32 <= byte_value b /\ byte_value b ∉ [44; 59; 127]) (as_bytes v).
Proof.
  unfold contains_cookie_control. rewrite existsb_Forall.
  apply Forall_iff; intros b. byte_test.
Qed.

Lemma http_token_spec v :
  is_http_token v = true <->
  v <> "" /\ Forall (fun b => is_token_byte b = true) (as_bytes v).
Proof. unfold is_http_token. by rewrite andb_true_iff, bool_decide_eq_true, forallb_Forall. Qed.

Lemma check_headers_ok l : forall names,
  check_headers names l = Ok tt <->
  Forall header_ok l /\ NoDup (map (fun h => to_ascii_lowercase (hd_name h)) l) /\
  Forall (fun h => to_ascii_lowercase (hd_name h) ∉ names) l.
Proof.
  induction l as [|h l IH]; intros names; cbn [check_headers map]; [split; [repeat split; constructor|done]|].
  rewrite refuse_ok, IH, !orb_false_iff, negb_false_iff, http_token_spec, header_control_spec,
    !bool_decide_eq_false, !Forall_cons_iff, list.NoDup_cons.
  unfold header_ok at 2. rewrite list_elem_of_fmap.
  assert (Hset :
    Forall (fun x => to_ascii_lowercase (hd_name x) ∉ {[to_ascii_lowercase (hd_name h)]} ∪ names) l <->
    (~ exists y, to_ascii_lowercase (hd_name h) = to_ascii_lowercase (hd_name y) /\ y ∈ l) /\
    Forall (fun x => to_ascii_lowercase (hd_name x) ∉ names) l)
    by (rewrite !list.Forall_forall; set_solver).
  rewrite Hset. tauto.
Qed.

Lemma limits_exact l : validate_limits l = Ok tt <-> limits_ok l.
Proof.
  unfold validate_limits. rewrite !refuse_ok, !Z.ltb_ge.
  split; [intros (? & ? & ? & _); by constructor|intros [? ? ?]; auto].
Qed.

Section Exact.
Context `{UrlLib}.

Lemma cookie_name_spec v :
  existsb (fun b => (byte_value b <=? 32) || (byte_value b =? 59) || (byte_value b =? 44))
    (as_bytes v) = false <->
  Forall (fun b => 32 < byte_value b /\ byte_value b ∉ [44; 59]) (as_bytes v).
Proof. rewrite existsb_Forall. apply Forall_iff; intros b. byte_test. Qed.

Lemma short_spec v : (4096 <? Z.of_nat (String.length v)) = false <-> (String.length v <= 4096)%nat.
Proof. rewrite Z.ltb_ge. lia. Qed.

Lemma cookie_scope_spec (u : option url) (d : option string) :
  (match u, d with None, None => true | _, _ => false end = false /\
   match d with Some d => bool_decide (d = "") | None => false end = false /\
   match u with
   | Some u => negb (bool_decide (url_scheme u ∈ ["http"; "https"]))
   | None => false
   end = false) <->
  (is_Some u \/ is_Some d) /\ d <> Some "" /\
  (forall v, u = Some v -> url_scheme v ∈ ["http"; "https"]).
Proof.
  destruct u as [u|], d as [d|];
    rewrite ?bool_decide_eq_false, ?negb_false_iff, ?bool_decide_eq_true; naive_solver.
Qed.

Lemma cookie_exact c : cookie_invalid c = false <-> cookie_ok c.
Proof.
  unfold cookie_invalid, cookie_ok.
  rewrite <- cookie_scope_spec, <- cookie_control_spec, <- cookie_name_spec, <- !short_spec,
    !orb_false_iff, bool_decide_eq_false. tauto.
Qed.

Lemma credentials_exact c : validate_credentials c = Ok tt <-> credentials_ok c.
Proof.
  unfold validate_credentials.
  rewrite refuse_ok, rbind_unit_ok, check_headers_ok, for_each_ok, orb_false_iff, !Z.ltb_ge.
  assert (Hcookies : Forall (fun k => (if cookie_invalid k then Err (input_error "offprint.input.credentials")
                                       else Ok tt) = Ok tt) (cookies c) <->
                     Forall cookie_ok (cookies c)).
  { apply Forall_iff; intros k. rewrite refuse_ok, cookie_exact. tauto. }
  rewrite Hcookies. split.
  - intros ([? ?] & (? & ? & _) & ?). constructor; auto; lia.
  - intros []. repeat split; auto; try lia. apply list.Forall_forall. set_solver.
Qed.

Lemma capture_url_exact u c :
  validate_capture_url u c = Ok tt <->
  url_scheme u ∈ ["http"; "https"] \/ (url_scheme u = "file" /\ cp_allowed_file_roots c <> []).
Proof.
  unfold validate_capture_url. repeat case_bool_decide; destruct (cp_allowed_file_roots c); naive_solver.
Qed.

Lemma content_exact c :
  validate_content c = Ok tt <-> cp_selector c = None \/ cp_scope c = ScopePage.
Proof.
  unfold validate_content. destruct (cp_selector c); [|naive_solver].
  case_bool_decide; destruct (cp_scope c); naive_solver.
Qed.

Lemma remote_exact r :
  (validate_browser (rq_browser r) = Ok tt /\ validate_remote_capture r = Ok tt) <->
  forall endpoint, rq_browser r = BrowserRemote endpoint ->
    url_scheme endpoint ∈ ["http"; "https"; "ws"; "wss"] /\
    url_scheme (rq_url r) <> "file" /\ rq_network r = Unrestricted /\
    rq_verification r = VerifyStatic.
Proof.
  unfold validate_browser, validate_remote_capture. destruct (rq_browser r) as [|p|e]; [naive_solver..|].
  repeat case_bool_decide; destruct (rq_network r); naive_solver.
Qed.

Lemma output_exact o l :
  validate_output o l = Ok tt <->
  match o with
  | OutputFile path _ => path <> ""
  | OutputMemory n => n <> 0 /\ n <= lim_artifact_bytes l
  end.
Proof.
  destruct o as [p c|n]; simpl.
  - rewrite refuse_ok, bool_decide_eq_false. naive_solver.
  - rewrite !refuse_ok, Z.eqb_neq, Z.ltb_ge. naive_solver.
Qed.

Lemma validate_spec (r : CaptureRequest) : validate r = Ok tt <-> request_ok r.
Proof.
  unfold validate. cbv zeta.
  rewrite refuse_ok, !rbind_unit_ok, refuse_ok, capture_url_exact, content_exact, limits_exact,
    output_exact, credentials_exact, negb_false_iff, Z.eqb_eq, !orb_false_iff, !Z.eqb_neq.
  split.
  - intros (? & ? & ? & Hb & Hr & ? & ? & ? & [[? ?] ?] & _).
    constructor; auto. apply remote_exact. auto.
  - intros [? ? ? Hr ? ? ? [? [? ?]]]. apply remote_exact in Hr as [? ?]. auto 20.
Qed.


(** The profiles of [CaptureProfile::named] differ in two fields only. *)
Lemma named_ok name p :
  named name = Ok p ->
  pf_environment p = environment_default /\ pf_limits p = limits_default /\
  cp_selector (pf_content p) = None.
Proof. unfold named. repeat case_bool_decide; intros [= <-]; done. Qed.

(** A named profile turns a valid request for an HTTP page in a local
    browser into a valid request, whose in-memory limit follows the artifact
    limit of the profile when it was the artifact limit before; the URL, the
    credentials and the browser are kept.  The only request a profile makes
    invalid is one with an explicit in-memory limit above the default. *)
Theorem profile_keeps_valid (name : string) (p : CaptureProfile) (r : CaptureRequest) :
  named name = Ok p ->
  validate r = Ok tt ->
  url_scheme (rq_url r) <> "file" ->
  (forall endpoint, rq_browser r <> BrowserRemote endpoint) ->
  (forall n, rq_output r = OutputMemory n ->
     n = lim_artifact_bytes (rq_limits r) \/ n <= lim_artifact_bytes limits_default) ->
  validate (apply_to p r) = Ok tt /\
  rq_url (apply_to p r) = rq_url r /\
  rq_credentials (apply_to p r) = rq_credentials r /\
  rq_browser (apply_to p r) = rq_browser r /\
  (rq_output r = OutputMemory (lim_artifact_bytes (rq_limits r)) ->
   rq_output (apply_to p r) = OutputMemory (lim_artifact_bytes (rq_limits (apply_to p r)))).
Proof.
  intros (Henv & Hlim & Hsel)%named_ok Hv Hfile Hlocal Hmem.
  apply validate_spec in Hv as [? [?|[? _]] ? _ ? Hout ? ?]; [|done].
  repeat split; [|intros Hi; simpl; rewrite Hi, Z.eqb_refl; done].
  apply validate_spec. constructor; simpl; rewrite ?Henv, ?Hlim; auto.
  - intros e He. by apply Hlocal in He.
  - by constructor.
  - destruct (rq_output r) as [path c|n] eqn:Eo; [done|].
    destruct (Z.eqb_spec n (lim_artifact_bytes (rq_limits r))) as [Hn|Hn]; [done|].
    destruct (Hmem n eq_refl); [done|]. tauto.
Qed.

End Exact.

(** ** A concrete reading of URLs, for the examples

    [scheme://host/path#fragment], without escapes or relative segments. *)

Fixpoint cut_at (sep : ascii) (l : bytes) : bytes * option bytes :=
  match l with
  | [] => ([], None)
  | c :: l' =>
      if decide (c = sep) then ([], Some l')
      else let (a, b) := cut_at sep l' in (c :: a, b)
  end.

Definition before (sep : ascii) (s : string) : string :=
  string_of_list_ascii (cut_at sep (as_bytes s)).1.
Definition after (sep : ascii) (s : string) : option string :=
  string_of_list_ascii <$> (cut_at sep (as_bytes s)).2.

Definition plain_origin (u : url) : string :=
  String.concat "/" (take 3 (split "/" (before "#" u))).

Definition plain_urls : UrlLib := {|
  url_scheme u := before ":" (before "#" u);
  url_fragment := after "#";
  url_without_fragment := before "#";
  url_origin := plain_origin;
  url_path_segments u := Some (drop 3 (split "/" (before "#" u)));
  url_host_str u := split "/" (before "#" u) !! 2%nat;
  url_join base href := Some (if has_char ":" href then href else plain_origin base +:+ "/" +:+ href);
  url_parse s := Some s;
|}.

#[local] Existing Instance plain_urls.

Definition sample_request : CaptureRequest :=
  MkRequest PUBLIC_SCHEMA_VERSION "https://example.com/a" (OutputMemory 4096) BrowserAuto None
    environment_default readiness_default content_default
    (MkCredentials [MkHeader "Authorization" "Bearer x"] []) Standard
    (MkLimits 1000 0 1 10 1 10 20 1 1 4096 1 1) VerifyOffline (MkDiagnostics None).

Lemma profile_keeps_valid_witness :
  validate sample_request = Ok tt /\
  exists p, named "server" = Ok p /\ validate (apply_to p sample_request) = Ok tt /\
  rq_output (apply_to p sample_request) = OutputMemory 67108864.
Proof.
  split; [vm_compute; reflexivity|].
  eexists. split; [reflexivity|].
  refine ((fun T => conj (proj1 T) (proj2 (proj2 (proj2 (proj2 T))) eq_refl))
            (profile_keeps_valid "server" _ sample_request _ _ _ _ _)).
  - reflexivity.
  - vm_compute; reflexivity.
  - vm_compute; congruence.
  - intros e He; discriminate He.
  - intros n Hn. left. injection Hn as <-. reflexivity.
Defined.
