(* ===== verification/Schedule.v ===== *)
(** * Schedules and their checkpoints

    Models [offprint-rs/model/src/schedule.rs] with the records it holds
    ([result.rs], [artifact.rs], [resource.rs], [url_value.rs]) and
    [offprint-rs/core/src/scheduler/resume.rs] less the file accesses: what a
    checkpoint is, when it is accepted for a plan, and how the outcomes of
    captures become records.

    [serde_json] is third-party code: the class [Json] gives the pieces a
    serialiser writes, or its error.  A [BTreeMap] is a finite map, iterated in
    the order of its keys. *)

From Stdlib Require Import ZArith Lia Ascii String.
From stdpp Require Import base tactics list gmap strings numbers sorting.
From S2P Require Import Prelude.
From S2P Require Import Errors.
From S2P Require Import Fs.
From S2P Require Import Records.
From S2P Require Import Budget.
From S2P Require Import Network.
From S2P Require Import Requests.
From S2P Require Import Names.

#[local] Open Scope string_scope.
#[local] Open Scope list_scope.
#[local] Open Scope Z_scope.

(** ** Receipts *)

Abbreviation RedactedUrl := string.
Abbreviation CaptureId := string.

Record SourceSummary := MkSource {
  ss_requested_url : RedactedUrl;
  ss_requested_url_sha256 : ContentDigest;
  ss_final_url : RedactedUrl;
  ss_final_url_sha256 : ContentDigest;
}.

Record ResourceSummary := MkSummary {
  rs_discovered : Z;
  rs_embedded : Z;
  rs_external : Z;
  rs_omitted : Z;
  rs_failed : Z;
  rs_embedded_bytes : Z;
}.

Record CaptureWarning := MkWarning {
  cw_code : string;
  cw_message : string;
  cw_frame_id : option Z;
  cw_resource_id : option Z;
}.

Record VerificationReport := MkReport {
  vr_schema_version : Z;
  vr_mode : VerificationMode;
  vr_artifact_sha256 : ContentDigest;
  vr_bytes : Z;
  vr_network_requests : Z;
}.

Record CaptureTimings := MkTimings {
  tm_total : Z; tm_validation : Z; tm_browser : Z; tm_navigation : Z; tm_readiness : Z;
  tm_collection : Z; tm_resources : Z; tm_transform : Z; tm_encoding : Z; tm_verification : Z;
  tm_commit : Z;
}.

Inductive CaptureArtifact :=
| ArtifactFile (path : PortablePath) (size : Z) (sha : ContentDigest)
| ArtifactBytes (size : Z) (sha : ContentDigest) (content : bytes).

Record CaptureReceipt := MkReceipt {
  rc_schema_version : Z;
  rc_capture_id : CaptureId;
  rc_source : SourceSummary;
  rc_artifact : CaptureArtifact;
  rc_verification : VerificationReport;
  rc_resources : ResourceSummary;
  rc_warnings : list CaptureWarning;
  rc_timings : CaptureTimings;
}.

(** ** Requests *)

Record BatchJob := MkJob { bj_id : string; bj_request : CaptureRequest }.

Record ResumeOptions := MkResume { ro_manifest : PortablePath; ro_retry_failed : bool }.

Record BatchRequest := MkBatch {
  bq_schema_version : Z;
  bq_jobs : list BatchJob;
  bq_concurrency : Z;
  bq_resume : option ResumeOptions;
}.

Record CrawlRequest := MkCrawl {
  cq_schema_version : Z;
  cq_seed : CaptureRequest;
  cq_output_directory : PortablePath;
  cq_maximum_pages : Z;
  cq_maximum_depth : Z;
  cq_concurrency : Z;
  cq_same_origin : bool;
  cq_resume : option ResumeOptions;
}.

(** ** Checkpoints *)

Inductive ScheduleKind := KindBatch | KindCrawl.
Inductive ResumeJobStatus := JobSucceeded | JobFailed.

#[export] Instance ScheduleKind_eq_dec : EqDecision ScheduleKind.
Proof. solve_decision. Defined.
#[export] Instance ResumeJobStatus_eq_dec : EqDecision ResumeJobStatus.
Proof. solve_decision. Defined.

Record ResumeJobRecord := MkRecord {
  rj_request_sha256 : ContentDigest;
  rj_status : ResumeJobStatus;
  rj_capture_id : option CaptureId;
  rj_artifact_sha256 : option ContentDigest;
  rj_artifact_path : option PortablePath;
  rj_error : option OffprintError;
  rj_url : option url;
  rj_depth : option Z;
  rj_ordinal : option Z;
}.

Record CrawlFrontierItem := MkItem { fi_url : url; fi_depth : Z; fi_ordinal : Z }.

#[export] Instance CrawlFrontierItem_eq_dec : EqDecision CrawlFrontierItem.
Proof. solve_decision. Defined.

Record ResumeManifest := MkManifest {
  rm_schema_version : Z;
  rm_kind : ScheduleKind;
  rm_plan_sha256 : ContentDigest;
  rm_jobs : gmap string ResumeJobRecord;
  rm_pending : list string;
  rm_frontier : list CrawlFrontierItem;
}.

Definition set_jobs (j : gmap string ResumeJobRecord) (m : ResumeManifest) : ResumeManifest :=
  MkManifest (rm_schema_version m) (rm_kind m) (rm_plan_sha256 m) j (rm_pending m) (rm_frontier m).
Definition set_pending (p : list string) (m : ResumeManifest) : ResumeManifest :=
  MkManifest (rm_schema_version m) (rm_kind m) (rm_plan_sha256 m) (rm_jobs m) p (rm_frontier m).
Definition set_frontier (f : list CrawlFrontierItem) (m : ResumeManifest) : ResumeManifest :=
  MkManifest (rm_schema_version m) (rm_kind m) (rm_plan_sha256 m) (rm_jobs m) (rm_pending m) f.

(** Iteration over a [BTreeMap]. *)
Definition key_le {V} (a b : string * V) : Prop := string_le a.1 b.1.
#[export] Instance key_le_dec {V} : RelDecision (key_le (V:=V)).
Proof. intros a b. unfold key_le. apply _. Defined.

Definition btree_iter {V} (m : gmap string V) : list (string * V) :=
  merge_sort key_le (map_to_list m).

(** ** Outcomes and results *)

Inductive ScheduledCaptureOutcome :=
| OSucceeded (id : string) (request_sha256 : ContentDigest) (result : CaptureReceipt)
| OFailed (id : string) (request_sha256 : ContentDigest) (error : OffprintError)
| OResumed (id : string) (record : ResumeJobRecord).

Definition outcome_id (o : ScheduledCaptureOutcome) : string :=
  match o with OSucceeded id _ _ | OFailed id _ _ | OResumed id _ => id end.

Definition outcome_succeeded (o : ScheduledCaptureOutcome) : bool :=
  match o with
  | OSucceeded _ _ _ => true
  | OResumed _ r => bool_decide (rj_status r = JobSucceeded)
  | OFailed _ _ _ => false
  end.

Definition outcome_resumed (o : ScheduledCaptureOutcome) : bool :=
  match o with OResumed _ _ => true | _ => false end.

Record BatchResult := MkBatchResult {
  br_schema_version : Z;
  br_plan_sha256 : ContentDigest;
  br_outcomes : list ScheduledCaptureOutcome;
  br_succeeded : Z;
  br_failed : Z;
  br_resumed : Z;
}.

Record CrawlPageOutcome := MkPage {
  po_url : url;
  po_depth : Z;
  po_ordinal : Z;
  po_capture : ScheduledCaptureOutcome;
}.

Record CrawlResult := MkCrawlResult {
  xr_schema_version : Z;
  xr_plan_sha256 : ContentDigest;
  xr_outcomes : list CrawlPageOutcome;
  xr_succeeded : Z;
  xr_failed : Z;
  xr_resumed : Z;
}.

(** [u32::try_from(n).unwrap_or(u32::MAX)]. *)
Definition clamp_u32 (n : nat) : Z := Z.min u32_max (Z.of_nat n).

Definition count_if {A} (f : A -> bool) (l : list A) : nat := length (List.filter f l).

Definition batch_result (plan : ContentDigest) (outcomes : list ScheduledCaptureOutcome) : BatchResult :=
  let succeeded := count_if outcome_succeeded outcomes in
  MkBatchResult PUBLIC_SCHEMA_VERSION plan outcomes (clamp_u32 succeeded)
    (clamp_u32 (length outcomes - succeeded)) (clamp_u32 (count_if outcome_resumed outcomes)).

Definition crawl_result (plan : ContentDigest) (outcomes : list CrawlPageOutcome) : CrawlResult :=
  let succeeded := count_if (fun o => outcome_succeeded (po_capture o)) outcomes in
  MkCrawlResult PUBLIC_SCHEMA_VERSION plan outcomes (clamp_u32 succeeded)
    (clamp_u32 (length outcomes - succeeded))
    (clamp_u32 (count_if (fun o => outcome_resumed (po_capture o)) outcomes)).

Definition scheduler_error (code : string) (stage : ErrorStage) : OffprintError := new_error code stage.
Definition manifest_shape_error : OffprintError :=
  scheduler_error "offprint.scheduler.manifest_shape" Validation.

(** ** Digests of plans and requests *)

Record CrawlPlan := MkPlan {
  cl_seed : CaptureRequest;
  cl_output_directory : PortablePath;
  cl_maximum_pages : Z;
  cl_maximum_depth : Z;
  cl_same_origin : bool;
}.

Class Json := {
  json_request : CaptureRequest -> option (list bytes);
  json_jobs : list BatchJob -> option (list bytes);
  json_plan : CrawlPlan -> option (list bytes);
  json_manifest : ResumeManifest -> option (list bytes);
  parse_manifest : bytes -> option ResumeManifest;
}.

(** [digest_serializable]: every piece written is fed to the hasher. *)
Definition digest_serializable `{Hashing} (pieces : option (list bytes)) : Res ContentDigest :=
  written <-? ok_or pieces (scheduler_error "offprint.scheduler.plan" Validation) ;;
  Ok (sha256 (concat written)).

(** ** Frontier order *)

Definition item_le (a b : CrawlFrontierItem) : Prop :=
  fi_depth a < fi_depth b \/
  (fi_depth a = fi_depth b /\
   (fi_ordinal a < fi_ordinal b \/
    (fi_ordinal a = fi_ordinal b /\ string_le (fi_url a) (fi_url b)))).

#[export] Instance item_le_dec : RelDecision item_le.
Proof. intros a b. unfold item_le. apply _. Defined.

(** [sort_by] is stable, and so is [merge_sort]. *)
Definition sort_frontier (f : list CrawlFrontierItem) : list CrawlFrontierItem := merge_sort item_le f.

(** ** Output files of a crawl *)

(** [Utf8Path::join] with a relative file name. *)
Definition join_name (directory : PortablePath) (name : string) : PortablePath :=
  if bool_decide (directory = "") then name
  else if ends_with "/" directory then directory +:+ name
  else directory +:+ "/" +:+ name.

Section Resume.
Context `{Hashing} `{UrlLib} `{Json} `{Unicode}.

Definition crawl_hint (u : url) : string :=
  match url_path_segments u ≫= (fun segments => List.find (fun s => bool_decide (s <> "")) (rev segments)) with
  | Some segment => segment
  | None => default "page" (url_host_str u)
  end.

Definition crawl_file_name (item : CrawlFrontierItem) : string :=
  format_padded 5 (fi_ordinal item) +:+ "-"
  +:+ utf8_encode (portable_file_stem (utf8_chars (as_bytes (crawl_hint (fi_url item))))) +:+ "-"
  +:+ String.substring 0 12 (to_hex (sha256 (as_bytes (fi_url item)))) +:+ ".html".

Definition crawl_output_path (q : CrawlRequest) (item : CrawlFrontierItem) : PortablePath :=
  join_name (cq_output_directory q) (crawl_file_name item).

Definition crawl_capture_request (q : CrawlRequest) (item : CrawlFrontierItem) : CaptureRequest :=
  set_output (OutputFile (crawl_output_path q item) ConflictReplace)
    (set_url (fi_url item) (cq_seed q)).

Definition crawl_plan_digest (q : CrawlRequest) : Res ContentDigest :=
  digest_serializable (json_plan (MkPlan (cq_seed q) (cq_output_directory q) (cq_maximum_pages q)
    (cq_maximum_depth q) (cq_same_origin q))).

(** ** Loading *)

Definition new_manifest (kind : ScheduleKind) (plan : ContentDigest) (pending : list string)
    (frontier : list CrawlFrontierItem) : ResumeManifest :=
  MkManifest PUBLIC_SCHEMA_VERSION kind plan ∅ pending frontier.

Inductive BoundedFileReadError := ReadIo (k : io_kind) | NotDirectFile | TooLarge.

(** [read] is what reading the checkpoint returned, [None] without one. *)
Definition load_or_create_manifest (read : option (result BoundedFileReadError bytes))
    (kind : ScheduleKind) (plan : ContentDigest) (pending : list string)
    (frontier : list CrawlFrontierItem) : Res ResumeManifest :=
  match read with
  | None => Ok (new_manifest kind plan pending frontier)
  | Some read =>
      manifest <-?
        match read with
        | Ok content =>
            ok_or (parse_manifest content)
              (scheduler_error "offprint.scheduler.manifest_read" Validation)
        | Err (ReadIo NotFound) => Ok (new_manifest kind plan pending frontier)
        | Err _ => Err (scheduler_error "offprint.scheduler.manifest_read" Validation)
        end ;;
      if negb (rm_schema_version manifest =? PUBLIC_SCHEMA_VERSION)
         || bool_decide (rm_kind manifest <> kind)
         || bool_decide (rm_plan_sha256 manifest <> plan)
      then Err (scheduler_error "offprint.scheduler.manifest_mismatch" Validation)
      else if bool_decide (rm_frontier manifest = []) && bool_decide (rm_jobs manifest = ∅)
              && bool_decide (kind = KindCrawl)
      then Ok (set_frontier frontier (set_pending pending manifest))
      else Ok manifest
  end.

(** ** Validation *)

Definition is_none {A} (o : option A) : bool := match o with None => true | Some _ => false end.
Definition is_some {A} (o : option A) : bool := negb (is_none o).

Definition validate_terminal_record (r : ResumeJobRecord) : Res unit :=
  let valid :=
    match rj_status r with
    | JobSucceeded => is_some (rj_capture_id r) && is_some (rj_artifact_sha256 r)
                      && is_some (rj_artifact_path r) && is_none (rj_error r)
    | JobFailed => is_none (rj_capture_id r) && is_none (rj_artifact_sha256 r)
                   && is_none (rj_artifact_path r) && is_some (rj_error r)
    end in
  if valid then Ok tt else Err manifest_shape_error.

Definition with_job {A} (id : string) (r : Res A) : Res A :=
  match r with Ok a => Ok a | Err e => Err (with_detail "jobId" (DStr id) e) end.

(** [record.artifact_path.as_ref() != Some(expected)]. *)
Definition same_path (recorded : option PortablePath) (expected : PortablePath) : bool :=
  match recorded with Some p => path_eqb p expected | None => false end.

Definition expected_jobs (q : BatchRequest) (digests : list ContentDigest)
    : Res (gmap string (ContentDigest * PortablePath)) :=
  pairs <-? collect (fun jd : BatchJob * ContentDigest =>
      match rq_output (bj_request jd.1) with
      | OutputFile path _ => Ok (bj_id jd.1, (jd.2, path))
      | OutputMemory _ => Err (scheduler_error "offprint.scheduler.resume_target" Validation)
      end) (zip (bq_jobs q) digests) ;;
  Ok (foldl (fun m kv => <[kv.1 := kv.2]> m) ∅ pairs).

Definition validate_batch_record (jobs : gmap string (ContentDigest * PortablePath))
    (id : string) (r : ResumeJobRecord) : Res unit :=
  with_job id
    match jobs !! id with
    | None => Err manifest_shape_error
    | Some (digest, path) =>
        if bool_decide (rj_request_sha256 r <> digest) then Err manifest_shape_error
        else if is_some (rj_url r) || is_some (rj_depth r) || is_some (rj_ordinal r)
        then Err manifest_shape_error
        else
          do? validate_terminal_record r ;;
          if bool_decide (rj_status r = JobSucceeded) && negb (same_path (rj_artifact_path r) path)
          then Err manifest_shape_error else Ok tt
    end.

Definition validate_batch_manifest (m : ResumeManifest) (q : BatchRequest)
    (digests : list ContentDigest) : Res unit :=
  if bool_decide (rm_frontier m <> []) then Err manifest_shape_error
  else
    jobs <-? expected_jobs q digests ;;
    do? for_each (fun kv => validate_batch_record jobs kv.1 kv.2) (btree_iter (rm_jobs m)) ;;
    let expected_pending :=
      map bj_id (List.filter (fun j => is_none (rm_jobs m !! bj_id j)) (bq_jobs q)) in
    if bool_decide (rm_pending m <> expected_pending) then Err manifest_shape_error else Ok tt.

Definition validate_crawl_coordinates (u : url) (depth ordinal : Z) (q : CrawlRequest) (root : url)
    (seen : gset string * gset Z) : Res (gset string * gset Z) :=
  let (urls, ordinals) := seen in
  let at_url := with_detail "url" (DStr u) manifest_shape_error in
  if negb (bool_decide (url_scheme u ∈ ["http"; "https"])) || is_some (url_fragment u)
  then Err manifest_shape_error
  else if cq_same_origin q && bool_decide (url_origin u <> url_origin (rq_url (cq_seed q)))
  then Err at_url
  else if ((depth =? 0) || (ordinal =? 0) || bool_decide (u = root))
          && (bool_decide (u <> root) || negb (depth =? 0) || negb (ordinal =? 0))
  then Err at_url
  else if cq_maximum_depth q <? depth then Err at_url
  else if cq_maximum_pages q <=? ordinal then Err at_url
  else if bool_decide (u ∈ urls) then Err at_url
  else if bool_decide (ordinal ∈ ordinals)
  then Err (with_detail "ordinal" (DNum ordinal) manifest_shape_error)
  else Ok ({[u]} ∪ urls, {[ordinal]} ∪ ordinals).

Definition validate_crawl_record (q : CrawlRequest) (root : url) (id : string) (r : ResumeJobRecord)
    (seen : gset string * gset Z) : Res (gset string * gset Z) :=
  do? with_job id (validate_terminal_record r) ;;
  match rj_url r, rj_depth r, rj_ordinal r with
  | Some u, Some depth, Some ordinal =>
      if bool_decide (id <> u) then with_job id (Err manifest_shape_error)
      else
        seen <-? validate_crawl_coordinates u depth ordinal q root seen ;;
        let item := MkItem u depth ordinal in
        digest <-? digest_serializable (json_request (crawl_capture_request q item)) ;;
        if bool_decide (rj_request_sha256 r <> digest) then with_job id (Err manifest_shape_error)
        else if bool_decide (rj_status r = JobSucceeded)
                && negb (same_path (rj_artifact_path r) (crawl_output_path q item))
        then with_job id (Err manifest_shape_error)
        else Ok seen
  | _, _, _ => with_job id (Err manifest_shape_error)
  end.

(** A loop that threads a value and stops at its first error. *)
Fixpoint fold_res {A S} (f : A -> S -> Res S) (l : list A) (s : S) : Res S :=
  match l with
  | [] => Ok s
  | x :: l' => s' <-? f x s ;; fold_res f l' s'
  end.

Definition validate_crawl_manifest (m : ResumeManifest) (q : CrawlRequest) : Res unit :=
  let total := saturating_add usize_max (Z.of_nat (size (rm_jobs m)))
                 (Z.of_nat (length (rm_frontier m))) in
  if cq_maximum_pages q <? total then Err manifest_shape_error
  else
    let root := url_without_fragment (rq_url (cq_seed q)) in
    seen <-? fold_res (fun kv => validate_crawl_record q root kv.1 kv.2) (btree_iter (rm_jobs m)) (∅, ∅) ;;
    seen <-? fold_res (fun item => validate_crawl_coordinates (fi_url item) (fi_depth item)
                                     (fi_ordinal item) q root) (rm_frontier m) seen ;;
    if negb (bool_decide (0 ∈ seen.2)) then Err manifest_shape_error
    else if bool_decide (rm_pending m <> map fi_url (rm_frontier m)) then Err manifest_shape_error
    else Ok tt.

(** ** Records *)

Definition record_from_outcome (o : ScheduledCaptureOutcome) : ResumeJobRecord :=
  match o with
  | OSucceeded _ digest result =>
      let '(path, sha) :=
        match rc_artifact result with
        | ArtifactFile path _ sha => (Some path, Some sha)
        | ArtifactBytes _ sha _ => (None, Some sha)
        end in
      MkRecord digest JobSucceeded (Some (rc_capture_id result)) sha path None None None None
  | OFailed _ digest error =>
      MkRecord digest JobFailed None None None (Some error) None None None
  | OResumed _ record => record
  end.

(** ** Requeueing

    [current] answers [resume_artifact_is_current]. *)

(** [dedup_by]: drop an item whose URL is that of the item kept before it. *)
Fixpoint dedup_urls (last : option url) (l : list CrawlFrontierItem) : list CrawlFrontierItem :=
  match l with
  | [] => []
  | i :: l' =>
      if bool_decide (last = Some (fi_url i)) then dedup_urls last l'
      else i :: dedup_urls (Some (fi_url i)) l'
  end.

Definition requeue_record (current : ResumeJobRecord -> bool) (retry_failed : bool) (key : string)
    (acc : gmap string ResumeJobRecord * list CrawlFrontierItem)
    : Res (gmap string ResumeJobRecord * list CrawlFrontierItem) :=
  let (jobs, requeue) := acc in
  match jobs !! key with
  | None => Ok acc
  | Some r =>
      let retry := match rj_status r with
                   | JobSucceeded => negb (current r)
                   | JobFailed => retry_failed
                   end in
      if retry then
        match rj_url r, rj_depth r, rj_ordinal r with
        | Some u, Some depth, Some ordinal =>
            Ok (delete key jobs, requeue ++ [MkItem u depth ordinal])
        | _, _, _ => with_job key (Err manifest_shape_error)
        end
      else Ok acc
  end.

Definition refresh_crawl_resume_state (current : ResumeJobRecord -> bool) (q : CrawlRequest)
    (m : ResumeManifest) : Res ResumeManifest :=
  let retry_failed := match cq_resume q with Some o => ro_retry_failed o | None => false end in
  acc <-? fold_res (requeue_record current retry_failed) (map fst (btree_iter (rm_jobs m)))
            (rm_jobs m, []) ;;
  Ok (set_frontier (dedup_urls None (sort_frontier (rm_frontier m ++ acc.2))) (set_jobs acc.1 m)).

End Resume.
