(* ===== verification/Scheduler.v ===== *)
(** * Batches and crawls

    Models [offprint-rs/core/src/scheduler.rs] and [scheduler/job.rs].

    What surrounds the scheduler is explicit.  [SchedulerEnv] holds the answers
    of the runtime and of the file system to the calls made once.  A capture is
    a [JobAnswer].  A batch is a machine driven by events: any capture in flight
    may be the next one to end, and the cancellation token may fire at any
    moment.  A checkpoint is written by the transaction of [Checkpoint], which
    replaces it or leaves it: [Disk] holds the last manifest written and the
    fate of the writes to come. *)

From Stdlib Require Import ZArith Lia Ascii String.
From stdpp Require Import base tactics list gmap strings numbers sorting.
From S2P Require Import Prelude.
From S2P Require Import Errors.
From S2P Require Import Fs.
From S2P Require Import Records.
From S2P Require Import Budget.
From S2P Require Import Network.
From S2P Require Import Requests.
From S2P Require Import Names.
From S2P Require Import Schedule.

#[local] Open Scope string_scope.
#[local] Open Scope list_scope.
#[local] Open Scope Z_scope.

Definition MAXIMUM_BATCH_JOBS : Z := 100000.
Definition MAXIMUM_CONCURRENCY : Z := 256.

(** ** One scheduled capture *)

(** How [CaptureService::start] and [CaptureJob::result] ended: the token fired
    before the capture was started, starting was refused, or the result. *)
Inductive JobAnswer :=
| CancelledBeforeStart
| StartRefused (e : OffprintError)
| Finished (r : Res CaptureReceipt).

Definition cancellation_error : OffprintError := new_error "offprint.runtime.cancelled" Shutdown.

Definition job_failed (id : string) (digest : ContentDigest) (e : OffprintError)
    : ScheduledCaptureOutcome := OFailed id digest e.

(** [job::run]; [cancelled] tells whether the token had fired when the job was
    first polled: the [select!] is biased towards it. *)
Definition job_run (cancelled : bool) (id : string) (digest : ContentDigest) (answer : JobAnswer)
    : ScheduledCaptureOutcome :=
  if cancelled then job_failed id digest cancellation_error
  else match answer with
       | CancelledBeforeStart => job_failed id digest cancellation_error
       | StartRefused e => job_failed id digest e
       | Finished (Ok receipt) => OSucceeded id digest receipt
       | Finished (Err e) => job_failed id digest e
       end.

(** ** The environment *)

Record SchedulerEnv := MkEnv {
  se_open : Res unit;
  se_default_browser : BrowserSpec;
  se_acquire : Res unit;
  se_read : result BoundedFileReadError bytes;
  se_current : ResumeJobRecord -> bool;
  se_create_directory : result io_kind unit;
  se_directory_metadata : result io_kind metadata;
}.

Record Disk := MkDisk { saved : option ResumeManifest; fates : list (option OffprintError) }.

(** [persist_manifest_if_configured]. *)
Definition persist_manifest_if_configured (configured : bool) (m : ResumeManifest) (d : Disk)
    : Res ResumeManifest * Disk :=
  if configured then
    match fates d with
    | Some e :: rest => (Err e, MkDisk (saved d) rest)
    | None :: rest => (Ok m, MkDisk (Some m) rest)
    | [] => (Ok m, MkDisk (Some m) [])
    end
  else (Ok m, d).

(** ** Validation *)

Definition validate_concurrency (concurrency : Z) : Res unit :=
  if (concurrency =? 0) || (MAXIMUM_CONCURRENCY <? concurrency)
  then Err (scheduler_error "offprint.scheduler.concurrency" Validation) else Ok tt.

(** [id.trim().is_empty() || id.chars().count() > 256]. *)
Definition bad_job_id (id : string) : bool :=
  let chars := utf8_chars (as_bytes id) in
  forallb is_whitespace chars || (256 <? Z.of_nat (length chars)).

Section Scheduler.
Context `{Hashing} `{UrlLib} `{Json} `{Unicode}.

Fixpoint check_jobs (resume : bool) (ids : gset string) (jobs : list BatchJob) : Res unit :=
  match jobs with
  | [] => Ok tt
  | job :: jobs' =>
      if bad_job_id (bj_id job) then Err (scheduler_error "offprint.scheduler.job_id" Validation)
      else if bool_decide (bj_id job ∈ ids)
      then Err (scheduler_error "offprint.scheduler.job_id" Validation)
      else
        do? validate (bj_request job) ;;
        if resume && negb (credentials_is_empty (rq_credentials (bj_request job)))
        then Err (scheduler_error "offprint.scheduler.resume_credentials" Validation)
        else if resume && match rq_output (bj_request job) with
                          | OutputFile _ _ => false
                          | OutputMemory _ => true
                          end
        then Err (scheduler_error "offprint.scheduler.resume_target" Validation)
        else check_jobs resume ({[bj_id job]} ∪ ids) jobs'
  end.

Definition validate_batch_jobs (q : BatchRequest) : Res unit :=
  if negb (bq_schema_version q =? PUBLIC_SCHEMA_VERSION)
  then Err (scheduler_error "offprint.input.schema_version" Validation)
  else if bool_decide (bq_jobs q = []) || (MAXIMUM_BATCH_JOBS <? Z.of_nat (length (bq_jobs q)))
  then Err (scheduler_error "offprint.scheduler.job_count" Validation)
  else check_jobs (is_some (bq_resume q)) ∅ (bq_jobs q).

Definition validate_crawl_request (q : CrawlRequest) : Res unit :=
  if negb (cq_schema_version q =? PUBLIC_SCHEMA_VERSION)
  then Err (scheduler_error "offprint.input.schema_version" Validation)
  else
    do? validate_concurrency (cq_concurrency q) ;;
    match rq_browser (cq_seed q) with
    | BrowserRemote _ => Err (scheduler_error "offprint.input.browser_selection" Validation)
    | _ =>
        do? validate (cq_seed q) ;;
        if is_some (cq_resume q) && negb (credentials_is_empty (rq_credentials (cq_seed q)))
        then Err (scheduler_error "offprint.scheduler.resume_credentials" Validation)
        else if cq_maximum_pages q =? 0
        then Err (scheduler_error "offprint.scheduler.job_count" Validation)
        else if 10000 <? cq_maximum_depth q
        then Err (scheduler_error "offprint.scheduler.depth" Validation)
        else Ok tt
    end.

(** ** Batches *)

Definition refresh_batch_pending (q : BatchRequest) (outcomes : list (option ScheduledCaptureOutcome))
    (m : ResumeManifest) : ResumeManifest :=
  set_pending
    (map (fun jo => bj_id jo.1) (List.filter (fun jo => is_none jo.2) (zip (bq_jobs q) outcomes))) m.

Definition resolve_browser (default : BrowserSpec) (r : CaptureRequest) : CaptureRequest :=
  match rq_browser r with BrowserAuto => set_browser default r | _ => r end.

(** The record a job can be resumed from, if any. *)
Definition resumable (env : SchedulerEnv) (q : BatchRequest) (m : ResumeManifest) (job : BatchJob)
    (digest : ContentDigest) : option ResumeJobRecord :=
  match rm_jobs m !! bj_id job with
  | Some r =>
      if bool_decide (rj_request_sha256 r = digest) then
        match rj_status r with
        | JobSucceeded => if se_current env r then Some r else None
        | JobFailed =>
            if match bq_resume q with Some o => ro_retry_failed o | None => false end
            then None else Some r
        end
      else None
  | None => None
  end.

(** The loop that separates resumed jobs from pending ones. *)
Fixpoint select_jobs (env : SchedulerEnv) (q : BatchRequest) (index : nat)
    (jobs : list (BatchJob * ContentDigest)) (m : ResumeManifest)
    : ResumeManifest * list (option ScheduledCaptureOutcome) * list nat :=
  match jobs with
  | [] => (m, [], [])
  | (job, digest) :: jobs' =>
      match resumable env q m job digest with
      | Some r =>
          let '(m', outcomes, pending) := select_jobs env q (S index) jobs' m in
          (m', Some (OResumed (bj_id job) r) :: outcomes, pending)
      | None =>
          let '(m', outcomes, pending) :=
            select_jobs env q (S index) jobs' (set_jobs (delete (bj_id job) (rm_jobs m)) m) in
          (m', None :: outcomes, index :: pending)
      end
  end.

(** The futures of [buffer_unordered]: those still to be polled, those in
    flight, each with whether its capture was started, and the captures started
    so far. *)
Record BatchRun := MkRun {
  run_manifest : ResumeManifest;
  run_outcomes : list (option ScheduledCaptureOutcome);
  run_queue : list nat;
  run_active : list (nat * bool);
  run_started : list nat;
  run_cancelled : bool;
  run_failure : option OffprintError;
  run_disk : Disk;
}.

(** Polling the stream moves futures in flight up to the limit and polls them. *)
Fixpoint fill_from (slots : nat) (cancelled : bool) (queue : list nat)
    (active : list (nat * bool)) (started : list nat)
    : list nat * list (nat * bool) * list nat :=
  match slots, queue with
  | S slots', index :: queue' =>
      fill_from slots' cancelled queue' (active ++ [(index, negb cancelled)])
        (if cancelled then started else started ++ [index])
  | _, _ => (queue, active, started)
  end.

Definition fill (concurrency : Z) (r : BatchRun) : BatchRun :=
  let '(queue, active, started) :=
    fill_from (Z.to_nat concurrency - length (run_active r)) (run_cancelled r) (run_queue r)
      (run_active r) (run_started r) in
  MkRun (run_manifest r) (run_outcomes r) queue active started (run_cancelled r) (run_failure r)
    (run_disk r).

Record BatchPlan := MkBatchPlan {
  bp_request : BatchRequest;
  bp_sha256 : ContentDigest;
  bp_digests : list ContentDigest;
}.

(** From the request to the first poll of the stream. *)
Definition batch_plan (env : SchedulerEnv) (q : BatchRequest) : Res BatchPlan :=
  do? se_open env ;;
  let q := MkBatch (bq_schema_version q)
             (map (fun j => MkJob (bj_id j) (resolve_browser (se_default_browser env) (bj_request j)))
                (bq_jobs q)) (bq_concurrency q) (bq_resume q) in
  do? validate_concurrency (bq_concurrency q) ;;
  do? validate_batch_jobs q ;;
  plan_sha256 <-? digest_serializable (json_jobs (bq_jobs q)) ;;
  digests <-? collect (fun j => digest_serializable (json_request (bj_request j))) (bq_jobs q) ;;
  Ok (MkBatchPlan q plan_sha256 digests).

Definition batch_load (env : SchedulerEnv) (p : BatchPlan) : Res ResumeManifest :=
  let q := bp_request p in
  do? (if is_some (bq_resume q) then se_acquire env else Ok tt) ;;
  m <-? load_or_create_manifest (if is_some (bq_resume q) then Some (se_read env) else None)
          KindBatch (bp_sha256 p) (map bj_id (bq_jobs q)) [] ;;
  do? (if is_some (bq_resume q) then validate_batch_manifest m q (bp_digests p) else Ok tt) ;;
  Ok m.

Definition batch_begin (env : SchedulerEnv) (p : BatchPlan) (d : Disk) : Res BatchRun * Disk :=
  let q := bp_request p in
  match batch_load env p with
  | Err e => (Err e, d)
  | Ok m =>
      let '(m, outcomes, pending) := select_jobs env q 0 (zip (bq_jobs q) (bp_digests p)) m in
      let m := refresh_batch_pending q outcomes m in
      match persist_manifest_if_configured (is_some (bq_resume q)) m d with
      | (Err e, d) => (Err e, d)
      | (Ok m, d) => (Ok (fill (bq_concurrency q) (MkRun m outcomes pending [] [] false None d)), d)
      end
  end.

(** The body of the loop, for the outcome of job [index], with the future
    already taken out of the stream. *)
Definition record_outcome (p : BatchPlan) (index : nat) (o : ScheduledCaptureOutcome) (r : BatchRun)
    : BatchRun :=
  let q := bp_request p in
  let resume := is_some (bq_resume q) in
  let m := if resume
           then set_jobs (<[outcome_id o := record_from_outcome o]> (rm_jobs (run_manifest r)))
                  (run_manifest r)
           else run_manifest r in
  let outcomes := <[index := Some o]> (run_outcomes r) in
  if resume then
    let m := refresh_batch_pending q outcomes m in
    match persist_manifest_if_configured true m (run_disk r) with
    | (Ok m, d) =>
        MkRun m outcomes (run_queue r) (run_active r) (run_started r) (run_cancelled r) None d
    | (Err e, d) =>
        MkRun m outcomes (run_queue r) (run_active r) (run_started r) true (Some e) d
    end
  else MkRun m outcomes (run_queue r) (run_active r) (run_started r) (run_cancelled r) None
         (run_disk r).

Inductive BatchEvent := Cancel | Complete (position : nat) (answer : JobAnswer).

Definition cancel_run (r : BatchRun) : BatchRun :=
  MkRun (run_manifest r) (run_outcomes r) (run_queue r) (run_active r) (run_started r) true
    (run_failure r) (run_disk r).

Definition take_active (position : nat) (r : BatchRun) : BatchRun :=
  MkRun (run_manifest r) (run_outcomes r) (run_queue r) (delete position (run_active r))
    (run_started r) (run_cancelled r) (run_failure r) (run_disk r).

(** One event; [None] when it cannot happen.  After a checkpoint failure the
    remaining futures are only drained. *)
Definition batch_step (p : BatchPlan) (e : BatchEvent) (r : BatchRun) : option BatchRun :=
  match e with
  | Cancel => Some (cancel_run r)
  | Complete position answer =>
      '(index, started) ← run_active r !! position;
      job ← bq_jobs (bp_request p) !! index;
      digest ← bp_digests p !! index;
      let r := take_active position r in
      Some (fill (bq_concurrency (bp_request p))
              match run_failure r with
              | Some _ => r
              | None => record_outcome p index (job_run (negb started) (bj_id job) digest answer) r
              end)
  end.

Fixpoint batch_steps (p : BatchPlan) (events : list BatchEvent) (r : BatchRun) : option BatchRun :=
  match events with
  | [] => Some r
  | e :: events' => r' ← batch_step p e r; batch_steps p events' r'
  end.

Definition batch_finished (r : BatchRun) : bool :=
  match run_queue r, run_active r with [], [] => true | _, _ => false end.

(** What is returned when the stream has ended. *)
Definition batch_end (p : BatchPlan) (r : BatchRun) : Res BatchResult :=
  match run_failure r with
  | Some e => Err e
  | None =>
      outcomes <-? collect (fun io : nat * option ScheduledCaptureOutcome =>
          ok_or io.2 (with_detail "jobIndex" (DNum (Z.of_nat io.1))
                        (scheduler_error "offprint.scheduler.state" Internal)))
        (imap pair (run_outcomes r)) ;;
      Ok (batch_result (bp_sha256 p) outcomes)
  end.

(** ** Crawls *)

Definition normalized_page_url (u : url) : Res url :=
  if bool_decide (url_scheme u ∈ ["http"; "https"]) then Ok (url_without_fragment u)
  else Err (scheduler_error "offprint.scheduler.url" Validation).

Definition validate_direct_directory (m : result io_kind metadata) : Res unit :=
  match m with
  | Err _ => Err (scheduler_error "offprint.scheduler.output" Validation)
  | Ok m =>
      if m_is_symlink m || negb (m_is_dir m)
      then Err (scheduler_error "offprint.scheduler.output" Validation) else Ok tt
  end.

Definition persist_crawl_pending (m : ResumeManifest) : ResumeManifest :=
  set_pending (map fi_url (rm_frontier m)) m.

Definition crawl_seen_urls (m : ResumeManifest) : Res (gset string) :=
  fold_res (fun kv seen =>
      u <-? ok_or (rj_url kv.2)
              (with_detail "jobId" (DStr kv.1)
                 (scheduler_error "offprint.scheduler.manifest_shape" Internal)) ;;
      Ok ({[u]} ∪ seen))
    (btree_iter (rm_jobs m)) (list_to_set (map fi_url (rm_frontier m))).

(** *** Links of a captured page

    The verified artifact names its final URL; its elements are a name and
    attributes, in document order. *)
Record Element := MkElement { el_name : string; el_attrs : list (string * string) }.

Class PageReader := {
  inspect_html : bytes -> Res RedactedUrl;
  document_elements : bytes -> list Element;
}.

Definition attr (name : string) (e : Element) : option string :=
  snd <$> List.find (fun a => bool_decide (a.1 = name)) (el_attrs e).

Definition is_nofollow (e : Element) : bool :=
  match attr "rel" e with
  | Some value =>
      existsb (fun w => eq_ignore_ascii_case (string_of_list_ascii w) "nofollow")
        (split_ascii_whitespace [] (as_bytes value))
  | None => false
  end.

Definition element_link (base : url) (same_origin : bool) (seed : url) (e : Element) : option url :=
  if negb (bool_decide (el_name e ∈ ["a"; "area"])) then None
  else if is_nofollow e then None
  else
    href ← attr "href" e;
    link ← url_join base href;
    match normalized_page_url link with
    | Ok link =>
        if same_origin && bool_decide (url_origin link <> url_origin seed) then None else Some link
    | Err _ => None
    end.

(** [read] is the result of reading the artifact file. *)
Definition crawl_links `{PageReader} (read : PortablePath -> result io_kind bytes)
    (receipt : CaptureReceipt) (requested : url) (same_origin : bool) (seed : url) : Res (list url) :=
  content <-? match rc_artifact receipt with
              | ArtifactFile path _ _ =>
                  match read path with
                  | Ok b => Ok b
                  | Err _ => Err (scheduler_error "offprint.scheduler.artifact_read" Internal)
                  end
              | ArtifactBytes _ _ content => Ok content
              end ;;
  final <-? inspect_html content ;;
  let base := default requested (url_parse final) in
  let links := list_to_set (omap (element_link base same_origin seed) (document_elements content)) : gset url in
  Ok (merge_sort string_le (elements links)).

(** *** The loop *)

Record CrawlState := MkState {
  cs_manifest : ResumeManifest;
  cs_seen : gset string;
  cs_fresh : gmap string ScheduledCaptureOutcome;
  cs_disk : Disk;
}.

(** Push the links of a page that are new, until the page limit. *)
Fixpoint push_links (maximum_pages depth : Z) (links : list url) (seen : gset string)
    (frontier : list CrawlFrontierItem) : gset string * list CrawlFrontierItem :=
  match links with
  | [] => (seen, frontier)
  | link :: links' =>
      if maximum_pages <=? Z.of_nat (size seen) then (seen, frontier)
      else if bool_decide (link ∈ seen) then push_links maximum_pages depth links' seen frontier
      else
        let seen := {[link]} ∪ seen in
        push_links maximum_pages depth links' seen
          (frontier ++ [MkItem link (saturating_add u16_max depth 1) (clamp_u32 (size seen - 1))])
  end.

Definition item_record (item : CrawlFrontierItem) (o : ScheduledCaptureOutcome) : ResumeJobRecord :=
  let r := record_from_outcome o in
  MkRecord (rj_request_sha256 r) (rj_status r) (rj_capture_id r) (rj_artifact_sha256 r)
    (rj_artifact_path r) (rj_error r) (Some (fi_url item)) (Some (fi_depth item))
    (Some (fi_ordinal item)).

(** [links] answers [crawl_links]. *)
Definition crawl_page (q : CrawlRequest) (links : CaptureReceipt -> url -> Res (list url))
    (item : CrawlFrontierItem) (o : ScheduledCaptureOutcome) (s : CrawlState) : Res CrawlState * Disk :=
  let m := cs_manifest s in
  let frontier := List.filter (fun i => negb (bool_decide (i = item))) (rm_frontier m) in
  let jobs := <[fi_url item := item_record item o]> (rm_jobs m) in
  let discovered :=
    match o with
    | OSucceeded _ _ receipt =>
        if fi_depth item <? cq_maximum_depth q then
          found <-? links receipt (fi_url item) ;;
          Ok (push_links (cq_maximum_pages q) (fi_depth item) found (cs_seen s) frontier)
        else Ok (cs_seen s, frontier)
    | _ => Ok (cs_seen s, frontier)
    end in
  match discovered with
  | Err e => (Err e, cs_disk s)
  | Ok (seen, frontier) =>
      let m := persist_crawl_pending (set_frontier (sort_frontier frontier) (set_jobs jobs m)) in
      match persist_manifest_if_configured (is_some (cq_resume q)) m (cs_disk s) with
      | (Err e, d) => (Err e, d)
      | (Ok m, d) => (Ok (MkState m seen (<[fi_url item := o]> (cs_fresh s)) d), d)
      end
  end.

Fixpoint crawl_pages (q : CrawlRequest) (links : CaptureReceipt -> url -> Res (list url))
    (results : list (CrawlFrontierItem * ScheduledCaptureOutcome)) (s : CrawlState)
    : Res CrawlState * Disk :=
  match results with
  | [] => (Ok s, cs_disk s)
  | (item, o) :: results' =>
      match crawl_page q links item o s with
      | (Err e, d) => (Err e, d)
      | (Ok s, _) => crawl_pages q links results' s
      end
  end.

Fixpoint take_while {A} (f : A -> bool) (l : list A) : list A :=
  match l with x :: l' => if f x then x :: take_while f l' else [] | [] => [] end.

(** The pages captured together, of a sorted frontier: one level, within the
    limits. *)
Definition active_items (q : CrawlRequest) (m : ResumeManifest) : list CrawlFrontierItem :=
  let frontier := rm_frontier m in
  let remaining := saturating_sub (cq_maximum_pages q) (clamp_u32 (size (rm_jobs m))) in
  let width := Z.min (Z.min (cq_concurrency q) remaining) (Z.of_nat (length frontier)) in
  match frontier with
  | [] => []
  | first :: _ =>
      let level := take_while (fun i => fi_depth i =? fi_depth first) frontier in
      take (Z.to_nat (Z.min width (Z.of_nat (length level)))) frontier
  end.

Definition item_outcome (q : CrawlRequest) (answer : JobAnswer) (item : CrawlFrontierItem)
    : ScheduledCaptureOutcome :=
  match digest_serializable (json_request (crawl_capture_request q item)) with
  | Ok digest => job_run false (fi_url item) digest answer
  | Err e => job_failed (fi_url item) (sha256 (as_bytes (fi_url item))) e
  end.

(** The main loop; [answers k] are the captures of the [k]-th round.  [None]
    when the fuel is used up. *)
Fixpoint crawl_loop (fuel : nat) (q : CrawlRequest) (answers : nat -> CrawlFrontierItem -> JobAnswer)
    (links : nat -> CaptureReceipt -> url -> Res (list url)) (round : nat) (s : CrawlState)
    : option (Res CrawlState * Disk) :=
  let m := cs_manifest s in
  if bool_decide (rm_frontier m = []) || (cq_maximum_pages q <=? Z.of_nat (size (rm_jobs m)))
  then Some (Ok s, cs_disk s)
  else
    match fuel with
    | O => None
    | S fuel' =>
        let m := set_frontier (sort_frontier (rm_frontier m)) m in
        let active := active_items q m in
        let results := map (fun i => (i, item_outcome q (answers round i) i)) active in
        match crawl_pages q (links round) results (MkState m (cs_seen s) (cs_fresh s) (cs_disk s)) with
        | (Err e, d) => Some (Err e, d)
        | (Ok s, _) => crawl_loop fuel' q answers links (S round) s
        end
    end.

Definition crawl_page_outcome (fresh : gmap string ScheduledCaptureOutcome) (id : string)
    (r : ResumeJobRecord) : Res CrawlPageOutcome :=
  let missing := with_detail "jobId" (DStr id)
                   (scheduler_error "offprint.scheduler.manifest_shape" Internal) in
  u <-? ok_or (rj_url r) missing ;;
  depth <-? ok_or (rj_depth r) missing ;;
  ordinal <-? ok_or (rj_ordinal r) missing ;;
  Ok (MkPage u depth ordinal (default (OResumed id r) (fresh !! id))).

Definition ordinal_le (a b : CrawlPageOutcome) : Prop := po_ordinal a <= po_ordinal b.
#[export] Instance ordinal_le_dec : RelDecision ordinal_le.
Proof. intros a b. unfold ordinal_le. apply _. Defined.

Definition crawl_end (plan : ContentDigest) (s : CrawlState) : Res CrawlResult :=
  outcomes <-? collect (fun kv => crawl_page_outcome (cs_fresh s) kv.1 kv.2)
                 (btree_iter (rm_jobs (cs_manifest s))) ;;
  Ok (crawl_result plan (merge_sort ordinal_le outcomes)).

(** From the request to the first round. *)
Definition crawl_plan (env : SchedulerEnv) (q : CrawlRequest) : Res (CrawlRequest * ContentDigest) :=
  do? se_open env ;;
  let q := MkCrawl (cq_schema_version q) (resolve_browser (se_default_browser env) (cq_seed q))
             (cq_output_directory q) (cq_maximum_pages q) (cq_maximum_depth q) (cq_concurrency q)
             (cq_same_origin q) (cq_resume q) in
  do? validate_crawl_request q ;;
  do? match se_create_directory env with
      | Ok _ => Ok tt
      | Err _ => Err (scheduler_error "offprint.scheduler.output" Validation)
      end ;;
  do? validate_direct_directory (se_directory_metadata env) ;;
  plan <-? crawl_plan_digest q ;;
  Ok (q, plan).

Definition crawl_load (env : SchedulerEnv) (q : CrawlRequest) (plan : ContentDigest)
    : Res ResumeManifest :=
  root <-? normalized_page_url (rq_url (cq_seed q)) ;;
  let initial := [MkItem root 0 0] in
  do? (if is_some (cq_resume q) then se_acquire env else Ok tt) ;;
  m <-? load_or_create_manifest (if is_some (cq_resume q) then Some (se_read env) else None)
          KindCrawl plan (map fi_url initial) initial ;;
  do? validate_crawl_manifest m q ;;
  m <-? refresh_crawl_resume_state (se_current env) q m ;;
  Ok (persist_crawl_pending m).

Definition crawl_begin (env : SchedulerEnv) (q : CrawlRequest) (plan : ContentDigest) (d : Disk)
    : Res CrawlState * Disk :=
  match crawl_load env q plan with
  | Err e => (Err e, d)
  | Ok m =>
      match persist_manifest_if_configured (is_some (cq_resume q)) m d with
      | (Err e, d) => (Err e, d)
      | (Ok m, d) =>
          match crawl_seen_urls m with
          | Err e => (Err e, d)
          | Ok seen => (Ok (MkState m seen ∅ d), d)
          end
      end
  end.

(** [read k] answers the reads of artifacts in the [k]-th round.  Every round
    captures a page, so the page limit is enough fuel. *)
Definition page_links `{PageReader} (q : CrawlRequest)
    (read : nat -> PortablePath -> result io_kind bytes) (round : nat) (receipt : CaptureReceipt)
    (requested : url) : Res (list url) :=
  crawl_links (read round) receipt requested (cq_same_origin q) (rq_url (cq_seed q)).

Definition crawl `{PageReader} (env : SchedulerEnv) (answers : nat -> CrawlFrontierItem -> JobAnswer)
    (read : nat -> PortablePath -> result io_kind bytes) (q : CrawlRequest) (d : Disk)
    : option (Res CrawlResult * Disk) :=
  match crawl_plan env q with
  | Err e => Some (Err e, d)
  | Ok (q, plan) =>
      match crawl_begin env q plan d with
      | (Err e, d) => Some (Err e, d)
      | (Ok s, _) =>
          match crawl_loop (Z.to_nat (cq_maximum_pages q)) q answers (page_links q read) 0 s with
          | None => None
          | Some (Err e, d) => Some (Err e, d)
          | Some (Ok s, d) => Some (crawl_end plan s, d)
          end
      end
  end.

End Scheduler.
