(* ===== verification/BatchFacts.v ===== *)
(** * Batches: order, bounds, progress and resumption

    Theorems about [Scheduler.batch_step]: whatever the order in which captures
    end, a batch returns one outcome per job in the order of the request, keeps
    at most [concurrency] captures in flight, never waits for nothing, and every
    checkpoint it writes is accepted when the same batch is run again. *)

From Stdlib Require Import ZArith Lia Ascii String.
From stdpp Require Import base tactics list gmap strings numbers sorting.
From S2P Require Import Prelude.
From S2P Require Import Errors.
From S2P Require Import Fs.
From S2P Require Import Records.
From S2P Require Import Budget.
From S2P Require Import Network.
From S2P Require Import Requests.
From S2P Require Import Names.
From S2P Require Import Schedule.
From S2P Require Import Scheduler.

#[local] Open Scope string_scope.
#[local] Open Scope list_scope.
#[local] Open Scope Z_scope.

(** ** Iteration over maps *)

Lemma btree_iter_elem {V} (m : gmap string V) k v : (k, v) ∈ btree_iter m <-> m !! k = Some v.
Proof.
  unfold btree_iter. rewrite <- elem_of_map_to_list.
  by rewrite (merge_sort_Permutation key_le (map_to_list m)).
Qed.

Lemma for_each_btree {V} (f : string * V -> Res unit) (m : gmap string V) :
  for_each f (btree_iter m) = Ok tt <-> forall k v, m !! k = Some v -> f (k, v) = Ok tt.
Proof.
  rewrite for_each_ok, list.Forall_forall. setoid_rewrite <- btree_iter_elem.
  split; [auto|intros Hf [k v]; auto].
Qed.

(** Filtering one list by a test of the other. *)
Lemma filter_zip {A B} (f : A -> bool) (g : B -> bool) l k :
  Forall2 (fun x y => f x = g y) l k ->
  map fst (List.filter (fun xy => g xy.2) (zip l k)) = List.filter f l.
Proof.
  induction 1 as [|x y l k Hxy _ IH]; simpl; [done|]. rewrite Hxy.
  destruct (g y); simpl; by rewrite IH.
Qed.

Lemma foldl_insert_lookup {V} (l : list (string * V)) : forall (m : gmap string V) k v,
  NoDup l.*1 -> (k, v) ∈ l -> foldl (fun m kv => <[kv.1 := kv.2]> m) m l !! k = Some v.
Proof.
  assert (Hout : forall l (m : gmap string V) k, k ∉ l.*1 ->
    foldl (fun m kv => <[kv.1 := kv.2]> m) m l !! k = m !! k).
  { clear l. induction l as [|[k' v'] l IH]; intros m k Hk; simpl; [done|].
    rewrite fmap_cons in Hk. apply not_elem_of_cons in Hk as [Hne Hk].
    rewrite IH by done. by rewrite lookup_insert_ne. }
  induction l as [|[k' v'] l IH]; intros m k v Hnd Hin; [by apply elem_of_nil in Hin|].
  rewrite fmap_cons in Hnd. apply list.NoDup_cons in Hnd as [Hk Hnd]; simpl.
  apply elem_of_cons in Hin as [[= -> ->]|Hin]; [|by apply IH].
  rewrite Hout by done. by rewrite lookup_insert_eq.
Qed.

(** ** Writing a checkpoint *)

Lemma persisted m (d : Disk) m' d' :
  persist_manifest_if_configured true m d = (Ok m', d') -> m' = m /\ saved d' = Some m.
Proof. unfold persist_manifest_if_configured. repeat case_match; by intros [= <- <-]. Qed.

Lemma not_persisted m (d : Disk) e d' :
  persist_manifest_if_configured true m d = (Err e, d') -> saved d' = saved d.
Proof. unfold persist_manifest_if_configured. repeat case_match; by intros [= <- <-]. Qed.

Section Batch.
Context `{Hh : Hashing} `{Hu : UrlLib} `{Hj : Json} `{Hc : Unicode}.
Implicit Types (p : BatchPlan) (q : BatchRequest) (r : BatchRun) (m : ResumeManifest).

(** ** Accepted plans *)

Lemma check_jobs_ok resume jobs : forall ids,
  check_jobs resume ids jobs = Ok tt ->
  NoDup (map bj_id jobs) /\ Forall (fun j => bj_id j ∉ ids) jobs /\
  Forall (fun j => validate (bj_request j) = Ok tt) jobs /\
  (resume = true -> Forall (fun j => exists path c, rq_output (bj_request j) = OutputFile path c) jobs).
Proof.
  induction jobs as [|j jobs IH]; intros ids; cbn [check_jobs map]; [intros _; split_and!; intros; constructor|].
  intros [_ [Hid [Hv [_ [Hout Hrest]%refuse_ok]%refuse_ok]%rbind_unit_ok]%refuse_ok]%refuse_ok.
  apply IH in Hrest as (Hnd & Hnot & Hval & Hfile). apply bool_decide_eq_false in Hid.
  split; [|split; [|split]].
  - apply list.NoDup_cons. split; [|done]. rewrite list_elem_of_fmap. intros (j' & Heq & Hin).
    eapply list.Forall_forall in Hnot; [|done]. apply Hnot, elem_of_union_l. by apply elem_of_singleton.
  - constructor; [done|]. eapply Forall_impl; [exact Hnot|]. by intros x [_ Hx]%not_elem_of_union.
  - by constructor.
  - intros ->. constructor; [|auto]. destruct (rq_output (bj_request j)); [eauto|done].
Qed.

Record plan_ok p : Prop := {
  pk_ids : NoDup (map bj_id (bq_jobs (bp_request p)));
  pk_digests : Forall2 (fun j d => digest_serializable (json_request (bj_request j)) = Ok d)
                 (bq_jobs (bp_request p)) (bp_digests p);
  pk_count : 1 <= Z.of_nat (length (bq_jobs (bp_request p))) <= MAXIMUM_BATCH_JOBS;
  pk_concurrency : bq_concurrency (bp_request p) <> 0 /\
                   bq_concurrency (bp_request p) <= MAXIMUM_CONCURRENCY;
  pk_files : bq_resume (bp_request p) <> None ->
    Forall (fun j => exists path c, rq_output (bj_request j) = OutputFile path c)
      (bq_jobs (bp_request p));
}.

Lemma batch_plan_ok env q p : batch_plan env q = Ok p -> plan_ok p.
Proof.
  unfold batch_plan. cbv zeta.
  intros [_ [Hcon [Hjobs (plan & _ & (ds & Hds & [= <-])%rbind_ok)%rbind_ok]%rbind_unit_ok]%rbind_unit_ok]%rbind_unit_ok.
  apply collect_ok in Hds.
  unfold validate_concurrency in Hcon. apply refuse_ok in Hcon as [Hcon _].
  apply orb_false_iff in Hcon as [Hcon1 Hcon2]. apply Z.eqb_neq in Hcon1. apply Z.ltb_ge in Hcon2.
  unfold validate_batch_jobs in Hjobs. apply refuse_ok in Hjobs as [_ Hjobs].
  apply refuse_ok in Hjobs as [Hcount Hjobs]. apply orb_false_iff in Hcount as [Hne Hmax].
  apply bool_decide_eq_false in Hne. apply Z.ltb_ge in Hmax.
  apply check_jobs_ok in Hjobs as (Hnd & _ & _ & Hfile).
  constructor; simpl in *; auto.
  - split; [|done]. destruct (map _ (bq_jobs q)); [done|simpl; lia].
  - intros Hr. apply Hfile. by destruct (bq_resume q).
Qed.

(** ** The invariant of a run *)

Definition in_flight r : list nat := run_queue r ++ (run_active r).*1.

Record run_core p r : Prop := {
  rk_length : length (run_outcomes r) = length (bq_jobs (bp_request p));
  rk_nodup : NoDup (in_flight r);
  rk_range : forall i, i ∈ in_flight r -> (i < length (bq_jobs (bp_request p)))%nat;
  rk_none : run_failure r = None ->
    forall i, run_outcomes r !! i = Some None <-> i ∈ in_flight r;
  rk_bound : (length (run_active r) <= Z.to_nat (bq_concurrency (bp_request p)))%nat;
  rk_ids : forall i o j, run_outcomes r !! i = Some (Some o) ->
    bq_jobs (bp_request p) !! i = Some j -> outcome_id o = bj_id j;
  rk_started_once : NoDup (run_started r);
  rk_started : forall i, i ∈ run_started r -> i ∉ run_queue r;
  rk_flag : forall i, (i, true) ∈ run_active r -> i ∈ run_started r;
}.

Record run_ok p r : Prop := {
  rk_core : run_core p r;
  rk_full : run_queue r <> [] ->
    length (run_active r) = Z.to_nat (bq_concurrency (bp_request p));
}.

Lemma fill_from_spec slots c : forall queue active started,
  let k := Nat.min slots (length queue) in
  fill_from slots c queue active started =
    (drop k queue, active ++ map (fun i => (i, negb c)) (take k queue),
     started ++ (if c then [] else take k queue)).
Proof.
  induction slots as [|slots IH]; intros [|i queue] active started; simpl;
    rewrite ?app_nil_r, ?drop_0; try (by destruct c; rewrite ?app_nil_r).
  rewrite IH. simpl. rewrite <- app_assoc. destruct c; simpl; [done|]. by rewrite <- app_assoc.
Qed.

Lemma tagged_fst {A B} (b : B) (l : list A) : (map (fun i => (i, b)) l).*1 = l.
Proof. induction l as [|x l IH]; simpl; [done|]. by f_equal. Qed.

Lemma fill_flight (c : Z) r :
  in_flight (fill c r) ≡ₚ in_flight r /\
  run_outcomes (fill c r) = run_outcomes r /\ run_failure (fill c r) = run_failure r /\
  run_manifest (fill c r) = run_manifest r /\ run_disk (fill c r) = run_disk r /\
  run_cancelled (fill c r) = run_cancelled r.
Proof.
  unfold fill, in_flight. rewrite fill_from_spec. cbn. split; [|done].
  set (k := Nat.min _ _).
  rewrite fmap_app, tagged_fst, (Permutation_app_comm (run_active r).*1), app_assoc,
    (Permutation_app_comm (drop k _)). by rewrite take_drop.
Qed.

(** Filling keeps the invariant and leaves no free slot while jobs wait. *)
Lemma fill_ok p r : run_core p r -> run_ok p (fill (bq_concurrency (bp_request p)) r).
Proof.
  intros [Hlen Hnd Hrange Hnone Hbound Hids Honce Hst Hflag].
  destruct (fill_flight (bq_concurrency (bp_request p)) r) as (Hperm & Ho & Hf & _).
  set (c := bq_concurrency (bp_request p)) in *.
  set (k := Nat.min (Z.to_nat c - length (run_active r)) (length (run_queue r))).
  assert (Heq : run_queue (fill c r) = drop k (run_queue r) /\
    run_active (fill c r) = run_active r ++ map (fun i => (i, negb (run_cancelled r))) (take k (run_queue r)) /\
    run_started (fill c r) = run_started r ++ (if run_cancelled r then [] else take k (run_queue r)))
    by (unfold fill; rewrite fill_from_spec; done).
  destruct Heq as (Hq & Ha & Hs).
  assert (Hlk : length (take k (run_queue r)) = k) by (rewrite length_take; lia).
  split; [constructor|].
  - by rewrite Ho.
  - by rewrite Hperm.
  - intros i Hi. apply Hrange. by rewrite <- Hperm.
  - intros HF i. rewrite Ho, Hperm. apply Hnone. by rewrite <- Hf.
  - rewrite Ha, length_app, length_map, Hlk. lia.
  - rewrite Ho. exact Hids.
  - rewrite Hs. apply list.NoDup_app. split; [done|].
    unfold in_flight in Hnd. apply list.NoDup_app in Hnd as [Hnd _].
    split; [|destruct (run_cancelled r); [apply base.NoDup_nil_2|by eapply sublist_NoDup; [|apply sublist_take]]].
    intros i Hi. destruct (run_cancelled r); [apply not_elem_of_nil|].
    intros Hin. apply (Hst i Hi). by apply (subseteq_take k).
  - intros i. rewrite Hs, Hq, elem_of_app. intros [Hi|Hi] Hin.
    + apply (Hst i Hi). by apply (subseteq_drop k).
    + destruct (run_cancelled r); [by apply elem_of_nil in Hi|].
      unfold in_flight in Hnd. apply list.NoDup_app in Hnd as [Hnd _].
      rewrite <- (take_drop k (run_queue r)) in Hnd. apply list.NoDup_app in Hnd as (_ & Hdis & _).
      by apply (Hdis i).
  - intros i. rewrite Ha, Hs, !elem_of_app. intros [Hi|Hi]; [by left; apply Hflag|].
    right. apply list_elem_of_fmap in Hi as (i' & [= <- Hb] & Hi). by destruct (run_cancelled r).
  - rewrite Hq, Ha, length_app, length_map, Hlk. intros Hne.
    destruct (decide (length (run_queue r) <= k)%nat); [|lia].
    by rewrite drop_ge in Hne.
Qed.

(** Taking a future out of the stream. *)
Lemma take_flight position i b r :
  run_active r !! position = Some (i, b) -> in_flight r ≡ₚ i :: in_flight (take_active position r).
Proof.
  intros Ha. unfold in_flight. cbn.
  rewrite (delete_Permutation (run_active r) position (i, b)) at 1 by done.
  rewrite fmap_cons. cbn. by rewrite Permutation_middle.
Qed.

Lemma record_outcome_core p i b position o r :
  run_core p r -> run_active r !! position = Some (i, b) -> run_failure r = None ->
  (forall j, bq_jobs (bp_request p) !! i = Some j -> outcome_id o = bj_id j) ->
  run_core p (record_outcome p i o (take_active position r)).
Proof.
  intros [Hlen Hnd Hrange Hnone Hbound Hids Honce Hst Hflag] Ha HF Hid.
  assert (Hperm := take_flight _ _ _ _ Ha).
  set (r1 := take_active position r) in *.
  assert (Hshape : exists m c f d, record_outcome p i o r1 =
    MkRun m (<[i := Some o]> (run_outcomes r)) (run_queue r1) (run_active r1) (run_started r1) c f d).
  { unfold record_outcome. repeat case_match; eauto. }
  destruct Hshape as (m & c & f & d & ->).
  rewrite Hperm in Hnd. apply list.NoDup_cons in Hnd as [Hi Hnd].
  assert (Hin : forall k, k ∈ in_flight r1 -> k ∈ in_flight r) by (intros k; rewrite Hperm; set_solver).
  assert (Hlt : (i < length (run_outcomes r))%nat) by (rewrite Hlen; apply Hrange; rewrite Hperm; set_solver).
  constructor; cbn.
  - by rewrite length_insert.
  - done.
  - intros k Hk. by apply Hrange, Hin.
  - intros _ k. change (run_queue r ++ (delete position (run_active r)).*1) with (in_flight r1).
    destruct (decide (k = i)) as [->|Hne].
    + rewrite list_lookup_insert_eq by done. naive_solver.
    + rewrite list_lookup_insert_ne by done. rewrite (Hnone HF), Hperm. set_solver.
  - rewrite length_delete by eauto. lia.
  - intros k o' j. destruct (decide (k = i)) as [->|Hne].
    + rewrite list_lookup_insert_eq by done. intros [= <-]. apply Hid.
    + rewrite list_lookup_insert_ne by done. apply Hids.
  - done.
  - done.
  - intros k Hk. apply Hflag. by eapply elem_of_sublist; [exact Hk|apply sublist_delete].
Qed.

Lemma drain_core p i b position r :
  run_core p r -> run_active r !! position = Some (i, b) -> run_failure r <> None ->
  run_core p (take_active position r).
Proof.
  intros [Hlen Hnd Hrange Hnone Hbound Hids Honce Hst Hflag] Ha HF.
  assert (Hperm := take_flight _ _ _ _ Ha).
  rewrite Hperm in Hnd. apply list.NoDup_cons in Hnd as [Hi Hnd].
  constructor; cbn; auto; [|done| |].
  - intros k Hk. apply Hrange. rewrite Hperm. by right.
  - rewrite length_delete by eauto. lia.
  - intros k Hk. apply Hflag. by eapply elem_of_sublist; [exact Hk|apply sublist_delete].
Qed.

Lemma job_run_id c id digest answer : outcome_id (job_run c id digest answer) = id.
Proof. unfold job_run, job_failed. by repeat case_match. Qed.

Lemma batch_step_complete p position answer r r' :
  batch_step p (Complete position answer) r = Some r' ->
  exists i b job digest,
    run_active r !! position = Some (i, b) /\ bq_jobs (bp_request p) !! i = Some job /\
    bp_digests p !! i = Some digest /\
    r' = fill (bq_concurrency (bp_request p))
           match run_failure r with
           | Some _ => take_active position r
           | None => record_outcome p i (job_run (negb b) (bj_id job) digest answer)
                       (take_active position r)
           end.
Proof.
  cbn. intros ([i b] & Ha & (job & Hj' & (digest & Hd & [= <-])%bind_Some)%bind_Some)%bind_Some.
  by exists i, b, job, digest.
Qed.

Lemma batch_step_ok p e r r' : run_ok p r -> batch_step p e r = Some r' -> run_ok p r'.
Proof.
  intros [Hcore Hfull]. destruct e as [|position answer].
  - intros [= <-]. split; [|done]. by destruct Hcore; constructor.
  - intros (i & b & job & digest & Ha & Hjob & Hd & ->)%batch_step_complete. apply fill_ok.
    destruct (run_failure r) eqn:HF; [by eapply drain_core; eauto; rewrite HF|].
    eapply record_outcome_core; eauto. intros j. rewrite Hjob. intros [= <-]. apply job_run_id.
Qed.

Lemma batch_steps_ok p events : forall r r',
  run_ok p r -> batch_steps p events r = Some r' -> run_ok p r'.
Proof.
  induction events as [|e events IH]; intros r r' Hr; cbn; [by intros [= <-]|].
  intros (r1 & Hstep & Hrest)%bind_Some. eapply IH; [|done]. by eapply batch_step_ok.
Qed.

(** ** Starting *)

Lemma resumable_ext env q m1 m2 j d :
  rm_jobs m1 !! bj_id j = rm_jobs m2 !! bj_id j -> resumable env q m1 j d = resumable env q m2 j d.
Proof. unfold resumable. by intros ->. Qed.

Lemma resumable_recorded env q m j d rec :
  resumable env q m j d = Some rec -> rm_jobs m !! bj_id j = Some rec.
Proof. unfold resumable. repeat case_match; naive_solver. Qed.

Definition selected env q m (jd : BatchJob * ContentDigest) : option ScheduledCaptureOutcome :=
  OResumed (bj_id jd.1) <$> resumable env q m jd.1 jd.2.

(** The positions of the jobs that are not resumed. *)
Fixpoint unresumed (index : nat) (l : list (option ScheduledCaptureOutcome)) : list nat :=
  match l with
  | [] => []
  | Some _ :: l' => unresumed (S index) l'
  | None :: l' => index :: unresumed (S index) l'
  end.

Lemma unresumed_elem l : forall index i,
  i ∈ unresumed index l <-> (index <= i)%nat /\ l !! (i - index)%nat = Some None.
Proof.
  induction l as [|o l IH]; intros index i; cbn [unresumed].
  { rewrite elem_of_nil, lookup_nil. naive_solver. }
  destruct (decide (i = index)) as [->|Hne].
  - rewrite Nat.sub_diag. destruct o; [rewrite IH|rewrite elem_of_cons, IH]; cbn; naive_solver lia.
  - destruct (decide (index < i)%nat) as [Hlt|Hge].
    + replace (i - index)%nat with (S (i - S index)) by lia.
      destruct o; [rewrite IH|rewrite elem_of_cons, IH]; cbn; naive_solver lia.
    + destruct o; [rewrite IH|rewrite elem_of_cons, IH]; naive_solver lia.
Qed.

Lemma unresumed_nodup l : forall index, NoDup (unresumed index l).
Proof.
  induction l as [|[o|] l IH]; intros index; cbn [unresumed]; [apply base.NoDup_nil_2|apply IH|].
  apply list.NoDup_cons. split; [|apply IH]. rewrite unresumed_elem. lia.
Qed.

(** One turn of the loop, with the manifest it leaves. *)
Definition unselect env q m (job : BatchJob) (digest : ContentDigest) : ResumeManifest :=
  match resumable env q m job digest with
  | Some _ => m
  | None => set_jobs (delete (bj_id job) (rm_jobs m)) m
  end.

Lemma select_jobs_cons env q index job digest jobs m :
  let '(m', outcomes, pending) := select_jobs env q (S index) jobs (unselect env q m job digest) in
  select_jobs env q index ((job, digest) :: jobs) m =
    (m', selected env q m (job, digest) :: outcomes,
     match selected env q m (job, digest) with Some _ => pending | None => index :: pending end).
Proof.
  unfold unselect, selected. cbn [fst snd select_jobs].
  destruct (resumable env q m job digest) as [rec|];
    destruct (select_jobs _ _ _ _ _) as [[m' outcomes] pending]; done.
Qed.

Lemma unselect_other env q m job digest id :
  id <> bj_id job -> rm_jobs (unselect env q m job digest) !! id = rm_jobs m !! id.
Proof.
  intros Hne. unfold unselect. destruct (resumable env q m job digest); [done|]. cbn.
  by rewrite lookup_delete_ne.
Qed.

Lemma unselect_job env q m job digest :
  rm_jobs (unselect env q m job digest) !! bj_id job = resumable env q m job digest.
Proof.
  unfold unselect. destruct (resumable env q m job digest) eqn:Er.
  - by apply resumable_recorded in Er.
  - cbn. by rewrite lookup_delete_eq.
Qed.

Lemma select_jobs_spec env q jobs : forall index m,
  NoDup (map (fun jd => bj_id jd.1) jobs) ->
  let '(m', outcomes, pending) := select_jobs env q index jobs m in
  outcomes = map (selected env q m) jobs /\ pending = unresumed index outcomes /\
  Forall (fun jd => rm_jobs m' !! bj_id jd.1 = resumable env q m jd.1 jd.2) jobs /\
  (forall id, id ∉ map (fun jd => bj_id jd.1) jobs -> rm_jobs m' !! id = rm_jobs m !! id) /\
  (exists j, m' = set_jobs j m).
Proof.
  induction jobs as [|[job digest] jobs IH]; intros index m Hnd.
  { cbn. split_and!; [done|done|constructor|done|]. exists (rm_jobs m). by destruct m. }
  cbn [map fst] in Hnd. apply list.NoDup_cons in Hnd as [Hid Hnd].
  assert (Hcons := select_jobs_cons env q index job digest jobs m).
  specialize (IH (S index) (unselect env q m job digest) Hnd).
  destruct (select_jobs env q (S index) jobs _) as [[m' outcomes] pending].
  rewrite Hcons. destruct IH as (-> & -> & Hall & Hother & jm & Hm').
  assert (Hext : forall jd, jd ∈ jobs ->
    resumable env q (unselect env q m job digest) jd.1 jd.2 = resumable env q m jd.1 jd.2).
  { intros jd Hin. apply resumable_ext, unselect_other. intros Heq. apply Hid. rewrite <- Heq.
    by apply (list_elem_of_fmap_2 (fun jd => bj_id jd.1)). }
  assert (Hmap : map (selected env q (unselect env q m job digest)) jobs = map (selected env q m) jobs).
  { apply map_ext_in. intros jd Hin%list_elem_of_In. unfold selected. by rewrite Hext. }
  rewrite Hmap. split_and!.
  - done.
  - cbn. by destruct (selected env q m (job, digest)).
  - constructor; [cbn; by rewrite Hother, unselect_job|].
    apply list.Forall_forall. intros jd Hin. rewrite list.Forall_forall in Hall. by rewrite Hall, Hext.
  - intros id [Hne Hid']%not_elem_of_cons. rewrite Hother by done. by apply unselect_other.
  - exists jm. rewrite Hm'. unfold unselect. by destruct (resumable env q m job digest).
Qed.

Lemma plan_zip p : plan_ok p ->
  map (fun jd => bj_id jd.1) (zip (bq_jobs (bp_request p)) (bp_digests p)) = map bj_id (bq_jobs (bp_request p)) /\
  length (zip (bq_jobs (bp_request p)) (bp_digests p)) = length (bq_jobs (bp_request p)).
Proof.
  intros Hp. induction (pk_digests p Hp) as [|j d js ds _ _ [IH1 IH2]]; cbn; [done|].
  by rewrite IH1, IH2.
Qed.

Lemma batch_begin_inv env p d r d' :
  plan_ok p -> batch_begin env p d = (Ok r, d') ->
  exists m0 m1, batch_load env p = Ok m0 /\
    let outcomes := map (selected env (bp_request p) m0) (zip (bq_jobs (bp_request p)) (bp_digests p)) in
    Forall (fun jd => rm_jobs m1 !! bj_id jd.1 = resumable env (bp_request p) m0 jd.1 jd.2)
      (zip (bq_jobs (bp_request p)) (bp_digests p)) /\
    (forall id, id ∉ map bj_id (bq_jobs (bp_request p)) -> rm_jobs m1 !! id = rm_jobs m0 !! id) /\
    (exists j, m1 = set_jobs j m0) /\
    (exists m2, persist_manifest_if_configured (is_some (bq_resume (bp_request p)))
       (refresh_batch_pending (bp_request p) outcomes m1) d = (Ok m2, d') /\
     r = fill (bq_concurrency (bp_request p))
           (MkRun m2 outcomes (unresumed 0 outcomes) [] [] false None d')).
Proof.
  intros Hp. unfold batch_begin. destruct (batch_load env p) as [m0|e] eqn:Eload; [|done].
  destruct (plan_zip p Hp) as [Hids _].
  assert (Hsel := select_jobs_spec env (bp_request p)
    (zip (bq_jobs (bp_request p)) (bp_digests p)) 0 m0). rewrite Hids in Hsel.
  specialize (Hsel (pk_ids p Hp)).
  destruct (select_jobs env (bp_request p) 0 _ m0) as [[m1 outcomes] pending].
  destruct Hsel as (-> & -> & Hall & Hother & Hset).
  destruct (persist_manifest_if_configured _ _ d) as [[m2|e] d2] eqn:Epers; [|done].
  intros [= <- <-]. exists m0, m1. split_and!; eauto.
Qed.

(** A run begins well, and resumes exactly the jobs whose record is usable. *)
Lemma batch_begin_ok env p d r d' :
  plan_ok p -> batch_begin env p d = (Ok r, d') ->
  run_ok p r /\ run_failure r = None /\ run_disk r = d' /\
  exists m0, batch_load env p = Ok m0 /\
    run_outcomes r = map (selected env (bp_request p) m0) (zip (bq_jobs (bp_request p)) (bp_digests p)) /\
    in_flight r ≡ₚ unresumed 0 (run_outcomes r).
Proof.
  intros Hp Hb. destruct (batch_begin_inv _ _ _ _ _ Hp Hb)
    as (m0 & m1 & Hload & Hall & Hother & Hset & m2 & Hpers & ->).
  set (outcomes := map _ _) in *. set (r0 := MkRun _ _ _ _ _ _ _ _).
  destruct (fill_flight (bq_concurrency (bp_request p)) r0) as (Hperm & Ho & Hf & _ & Hd & _).
  assert (Hflight : in_flight r0 = unresumed 0 outcomes)
    by (unfold in_flight; cbn; by rewrite app_nil_r).
  assert (Hlen : length outcomes = length (bq_jobs (bp_request p)))
    by (unfold outcomes; rewrite length_map; apply (plan_zip p Hp)).
  split; [apply fill_ok|rewrite Hf, Hd, Ho; split_and!; [done..|exists m0; by rewrite Hperm, Hflight]].
  constructor; cbn; rewrite ?app_nil_r; auto using unresumed_nodup, base.NoDup_nil_2; [| |lia| | |].
  - intros i. rewrite unresumed_elem, Nat.sub_0_r, <- Hlen. intros [_ Hi]. by eapply lookup_lt_Some.
  - intros _ i. rewrite unresumed_elem, Nat.sub_0_r. naive_solver lia.
  - intros i o j Hi Hjob. unfold outcomes in Hi. rewrite list_lookup_fmap in Hi.
    apply fmap_Some in Hi as ([j' d''] & Hz & Hsel).
    apply lookup_zip_Some in Hz as [Hj' _]. rewrite Hjob in Hj'. injection Hj' as ->.
    unfold selected in Hsel. symmetry in Hsel. by apply fmap_Some in Hsel as (rec & _ & ->).
  - intros i Hi. by apply elem_of_nil in Hi.
  - intros i Hi. by apply elem_of_nil in Hi.
Qed.

(** ** Ending *)

Lemma count_if_le {A} (f : A -> bool) l : (count_if f l <= length l)%nat.
Proof. unfold count_if. apply List.filter_length_le. Qed.

Lemma clamp_small n : Z.of_nat n <= u32_max -> clamp_u32 n = Z.of_nat n.
Proof. unfold clamp_u32. lia. Qed.

Lemma collect_outcomes (err : nat -> OffprintError) l : forall k,
  Forall (fun o => o <> None) l ->
  exists os, collect (fun io : nat * option ScheduledCaptureOutcome => ok_or io.2 (err io.1))
               (imap (fun i o => (k + i, o)%nat) l) = Ok os /\ l = map Some os.
Proof.
  induction l as [|[o|] l IH]; intros k Hl; cbn; [by exists []| |].
  - apply Forall_cons_iff in Hl as [_ Hl]. destruct (IH (S k) Hl) as (os & Hos & ->).
    exists (o :: os). split; [|done].
    rewrite (imap_ext _ (fun i o => (S k + i, o)%nat)) by (intros; cbn; f_equal; lia).
    by rewrite Hos.
  - by apply Forall_cons_iff in Hl as [Hn _].
Qed.

Lemma batch_end_ok p r :
  plan_ok p -> run_ok p r -> batch_finished r = true -> run_failure r = None ->
  exists outcomes, batch_end p r = Ok (batch_result (bp_sha256 p) outcomes) /\
    run_outcomes r = map Some outcomes.
Proof.
  intros Hp [Hcore _] Hfin HF. unfold batch_end. rewrite HF.
  assert (Hempty : in_flight r = []).
  { unfold batch_finished in Hfin. unfold in_flight. by destruct (run_queue r), (run_active r). }
  destruct (collect_outcomes (fun i => with_detail "jobIndex" (DNum (Z.of_nat i))
    (scheduler_error "offprint.scheduler.state" Internal)) (run_outcomes r) 0) as (os & Hos & Hr).
  { apply list.Forall_forall. intros o (i & Hi)%list_elem_of_lookup Heq. subst o.
    apply (rk_none p r Hcore HF) in Hi. rewrite Hempty in Hi. by apply elem_of_nil in Hi. }
  exists os. split; [|done]. cbn [Nat.add] in Hos. by setoid_rewrite Hos.
Qed.

Lemma outcomes_ids p r os :
  run_ok p r -> run_outcomes r = map Some os -> map outcome_id os = map bj_id (bq_jobs (bp_request p)).
Proof.
  intros [Hcore _] Hos. assert (Hlen := rk_length p r Hcore). rewrite Hos, length_map in Hlen.
  apply (list_eq_same_length _ _ (length os)); [by rewrite length_map|by rewrite length_map|].
  intros i x y Hi. rewrite !list_lookup_fmap.
  intros (o & Ho & ->)%fmap_Some_1 (j & Hjob & ->)%fmap_Some_1.
  eapply (rk_ids p r Hcore); [|done]. by rewrite Hos, list_lookup_fmap, Ho.
Qed.

Lemma batch_plan_ids env q p :
  batch_plan env q = Ok p -> map bj_id (bq_jobs (bp_request p)) = map bj_id (bq_jobs q).
Proof.
  unfold batch_plan. cbv zeta.
  intros [_ [_ [_ (plan & _ & (ds & _ & [= <-])%rbind_ok)%rbind_ok]%rbind_unit_ok]%rbind_unit_ok]%rbind_unit_ok.
  cbn. by rewrite map_map.
Qed.

(** Whatever the order in which captures end, and whether or not they were
    cancelled, a batch whose checkpoints could be written returns one outcome
    per job, in the order of the request, and its counters add up. *)
Theorem batch_in_order env (q : BatchRequest) p (d d' : Disk) r0 r (events : list BatchEvent) :
  batch_plan env q = Ok p ->
  batch_begin env p d = (Ok r0, d') ->
  batch_steps p events r0 = Some r ->
  batch_finished r = true ->
  run_failure r = None ->
  exists result, batch_end p r = Ok result /\
    map outcome_id (br_outcomes result) = map bj_id (bq_jobs q) /\
    br_succeeded result + br_failed result = Z.of_nat (length (bq_jobs q)) /\
    br_succeeded result = Z.of_nat (count_if outcome_succeeded (br_outcomes result)) /\
    br_resumed result = Z.of_nat (count_if outcome_resumed (br_outcomes result)).
Proof.
  intros Hq Hb Hsteps Hfin HF. assert (Hp := batch_plan_ok _ _ _ Hq).
  destruct (batch_begin_ok _ _ _ _ _ Hp Hb) as (Hr0 & _).
  assert (Hr := batch_steps_ok _ _ _ _ Hr0 Hsteps).
  destruct (batch_end_ok p r Hp Hr Hfin HF) as (os & -> & Hos).
  exists (batch_result (bp_sha256 p) os). cbn.
  assert (Hids := outcomes_ids p r os Hr Hos). rewrite (batch_plan_ids _ _ _ Hq) in Hids.
  assert (Hlen : length os = length (bq_jobs q)) by (by rewrite <- (length_map outcome_id), Hids, length_map).
  assert (Hlen' : length (bq_jobs (bp_request p)) = length (bq_jobs q))
    by (by rewrite <- (length_map bj_id), (batch_plan_ids _ _ _ Hq), length_map).
  assert (Hmax := proj2 (pk_count p Hp)). rewrite Hlen' in Hmax. unfold MAXIMUM_BATCH_JOBS in Hmax.
  assert (Hs := count_if_le outcome_succeeded os). assert (Hr' := count_if_le outcome_resumed os).
  rewrite !clamp_small by (ranges; lia). split_and!; [done|done|lia|done|done].
Qed.

Definition is_complete (e : BatchEvent) : bool :=
  match e with Complete _ _ => true | Cancel => false end.

Lemma step_measure p e r r' :
  batch_step p e r = Some r' ->
  (length (in_flight r) = length (in_flight r') + (if is_complete e then 1 else 0))%nat.
Proof.
  destruct e as [|position answer].
  { intros [= <-]. unfold in_flight. cbn. lia. }
  intros (i & b & job & digest & Ha & _ & _ & ->)%batch_step_complete.
  rewrite (Permutation_length (proj1 (fill_flight _ _))).
  rewrite (Permutation_length (take_flight _ _ _ _ Ha)). cbn [length is_complete].
  destruct (run_failure r); [cbn; lia|].
  unfold record_outcome, in_flight. repeat case_match; cbn; lia.
Qed.

Lemma steps_measure p events : forall r r',
  batch_steps p events r = Some r' ->
  (length (in_flight r) = length (in_flight r') + count_if is_complete events)%nat.
Proof.
  induction events as [|e events IH]; intros r r'; cbn [batch_steps].
  { intros [= <-]. cbn. lia. }
  intros (r1 & Hstep%step_measure & Hrest%IH)%bind_Some. rewrite Hstep, Hrest.
  unfold count_if. cbn [List.filter]. destruct (is_complete e); cbn [length]; lia.
Qed.

(** A batch makes progress until it ends: in every state it can reach
    either all captures have ended, or a capture is in flight and any capture in
    flight may end next; and it has ended as soon as as many captures have ended
    as there were jobs to run, cancelled or not, checkpoint failure or not. *)
Theorem batch_drains env (q : BatchRequest) p (d d' : Disk) r0 r (events : list BatchEvent) :
  batch_plan env q = Ok p ->
  0 <= bq_concurrency q ->
  batch_begin env p d = (Ok r0, d') ->
  batch_steps p events r0 = Some r ->
  (batch_finished r = true <-> count_if is_complete events = length (in_flight r0)) /\
  (count_if is_complete events <= length (in_flight r0))%nat /\
  (batch_finished r = false ->
   run_active r <> [] /\
   forall position answer, (position < length (run_active r))%nat ->
     exists r', batch_step p (Complete position answer) r = Some r').
Proof.
  intros Hq Hz Hb Hsteps. assert (Hp := batch_plan_ok _ _ _ Hq).
  destruct (batch_begin_ok _ _ _ _ _ Hp Hb) as (Hr0 & _).
  destruct (batch_steps_ok _ _ _ _ Hr0 Hsteps) as [Hcore Hfull].
  assert (Hm := steps_measure _ _ _ _ Hsteps).
  assert (Hfin : batch_finished r = true <-> length (in_flight r) = 0%nat).
  { unfold batch_finished, in_flight. rewrite length_app, length_fmap.
    destruct (run_queue r), (run_active r); cbn; naive_solver lia. }
  split_and!; [rewrite Hfin; lia|lia|]. intros Hnot. split.
  - intros Hempty. assert (Hq0 : run_queue r = []).
    { destruct (run_queue r) eqn:Eq; [done|]. rewrite Hempty in Hfull. cbn in Hfull.
      specialize (Hfull ltac:(done)). destruct (pk_concurrency p Hp) as [Hc0 _].
      assert (Hcc : bq_concurrency (bp_request p) = bq_concurrency q).
      { clear -Hq. revert Hq. unfold batch_plan. cbv zeta.
        by intros [_ [_ [_ (plan & _ & (ds & _ & [= <-])%rbind_ok)%rbind_ok]%rbind_unit_ok]%rbind_unit_ok]%rbind_unit_ok. }
      lia. }
    unfold batch_finished in Hnot. by rewrite Hempty, Hq0 in Hnot.
  - intros position answer [[i b] Ha]%lookup_lt_is_Some.
    assert (Hi : (i < length (bq_jobs (bp_request p)))%nat).
    { apply (rk_range p r Hcore). unfold in_flight. apply elem_of_app. right.
      apply (list_elem_of_fmap_2 fst _ (i, b)). by eapply list_elem_of_lookup_2. }
    assert (Hd : (i < length (bp_digests p))%nat) by (by rewrite <- (Forall2_length _ _ _ (pk_digests p Hp))).
    apply lookup_lt_is_Some in Hi as [job Hjob]. apply lookup_lt_is_Some in Hd as [digest Hdig].
    eexists. cbn. rewrite Ha. cbn. rewrite Hjob. cbn. by rewrite Hdig.
Qed.

(** ** Captures started *)

Lemma fill_started (c : Z) r :
  (forall i, i ∈ run_started (fill c r) -> i ∈ run_started r \/ i ∈ run_queue r) /\
  (run_cancelled r = true -> run_started (fill c r) = run_started r).
Proof.
  unfold fill. rewrite fill_from_spec. cbn. split.
  - intros i. rewrite elem_of_app. intros [Hi|Hi]; [by left|right].
    destruct (run_cancelled r); [by apply elem_of_nil in Hi|]. by eapply subseteq_take.
  - intros ->. by rewrite app_nil_r.
Qed.

Lemma record_outcome_shape p i o r :
  run_queue (record_outcome p i o r) = run_queue r /\
  run_active (record_outcome p i o r) = run_active r /\
  run_started (record_outcome p i o r) = run_started r /\
  (run_cancelled r = true -> run_cancelled (record_outcome p i o r) = true) /\
  (run_failure (record_outcome p i o r) <> None -> run_cancelled (record_outcome p i o r) = true).
Proof. unfold record_outcome. repeat case_match; done. Qed.

Lemma step_started p e r r' :
  batch_step p e r = Some r' ->
  (forall i, i ∈ in_flight r' -> i ∈ in_flight r) /\
  (forall i, i ∈ run_started r' -> i ∈ run_started r \/ i ∈ in_flight r) /\
  (run_cancelled r = true -> run_cancelled r' = true /\ run_started r' = run_started r) /\
  ((run_failure r <> None -> run_cancelled r = true) -> run_failure r' <> None -> run_cancelled r' = true).
Proof.
  destruct e as [|position answer].
  { intros [= <-]. cbn. split_and!; auto. }
  intros (i & b & job & digest & Ha & _ & _ & ->)%batch_step_complete.
  assert (Hperm := take_flight _ _ _ _ Ha).
  set (r1 := match run_failure r with Some _ => _ | None => _ end).
  assert (Hr1 : in_flight r1 = in_flight (take_active position r) /\ run_started r1 = run_started r /\
    run_queue r1 = run_queue r /\ (run_cancelled r = true -> run_cancelled r1 = true) /\
    ((run_failure r <> None -> run_cancelled r = true) -> run_failure r1 <> None -> run_cancelled r1 = true)).
  { unfold r1, in_flight. destruct (run_failure r) eqn:HF.
    - cbn. rewrite HF. split_and!; auto.
    - destruct (record_outcome_shape p i (job_run (negb b) (bj_id job) digest answer) (take_active position r))
        as (-> & -> & -> & ? & ?). split_and!; auto. }
  destruct Hr1 as (Hfl & Hs & Hqu & Hc1 & Hf1).
  destruct (fill_flight (bq_concurrency (bp_request p)) r1) as (Hp1 & _ & Hf & _ & _ & Hc2).
  destruct (fill_started (bq_concurrency (bp_request p)) r1) as [Hst Hst'].
  split_and!.
  - intros k. rewrite Hp1, Hfl, Hperm. by right.
  - intros k [Hk|Hk]%Hst; [left; by rewrite <- Hs|right]. rewrite Hqu in Hk. unfold in_flight. by apply elem_of_app; left.
  - intros Hc'. rewrite Hc2, Hst', Hs by auto. auto.
  - intros Hpre. rewrite Hf, Hc2. auto.
Qed.

Lemma steps_started p events : forall r r',
  batch_steps p events r = Some r' ->
  (forall i, i ∈ in_flight r' -> i ∈ in_flight r) /\
  (forall i, i ∈ run_started r' -> i ∈ run_started r \/ i ∈ in_flight r) /\
  (run_cancelled r = true -> run_cancelled r' = true /\ run_started r' = run_started r) /\
  ((run_failure r <> None -> run_cancelled r = true) -> run_failure r' <> None -> run_cancelled r' = true).
Proof.
  induction events as [|e events IH]; intros r r'; cbn [batch_steps].
  { intros [= <-]. split_and!; auto. }
  intros (r1 & (H1 & H2 & H3 & H4)%step_started & (G1 & G2 & G3 & G4)%IH)%bind_Some.
  split_and!; auto.
  - intros i [Hi|Hi]%G2; [by apply H2|right; auto].
  - intros [Hc1 Hs1]%H3. rewrite <- Hs1. auto.
Qed.

(** C32: at every moment of a batch at most [concurrency] captures are in
    flight, no job is captured twice, a resumed job is never captured, and after
    the cancellation token has fired or a checkpoint could not be written no
    further capture is started. *)
Theorem captures_bounded env (q : BatchRequest) p (d d' : Disk) r0 r1 r2
    (events1 events2 : list BatchEvent) :
  batch_plan env q = Ok p ->
  batch_begin env p d = (Ok r0, d') ->
  batch_steps p events1 r0 = Some r1 ->
  batch_steps p events2 r1 = Some r2 ->
  (length (run_active r2) <= Z.to_nat (bq_concurrency (bp_request p)) <= 256)%nat /\
  NoDup (run_started r2) /\
  (forall i, i ∈ run_started r2 -> run_outcomes r0 !! i = Some None) /\
  (run_cancelled r1 = true \/ run_failure r1 <> None -> run_started r2 = run_started r1).
Proof.
  intros Hq Hb Hs1 Hs2. assert (Hp := batch_plan_ok _ _ _ Hq).
  destruct (batch_begin_ok _ _ _ _ _ Hp Hb) as (Hr0 & HF & _ & m0 & _ & _ & Hfl).
  assert (Hr1 := batch_steps_ok _ _ _ _ Hr0 Hs1).
  destruct (batch_steps_ok _ _ _ _ Hr1 Hs2) as [Hcore _].
  destruct (steps_started _ _ _ _ Hs1) as (A1 & A2 & _ & A4).
  destruct (steps_started _ _ _ _ Hs2) as (B1 & B2 & B3 & _).
  destruct (pk_concurrency p Hp) as [_ Hmax]. unfold MAXIMUM_CONCURRENCY in Hmax.
  assert (Hst0 : forall i, i ∈ run_started r0 -> i ∈ in_flight r0).
  { destruct (batch_begin_inv _ _ _ _ _ Hp Hb) as (? & ? & _ & _ & _ & _ & m2 & _ & ->).
    intros i [Hi|Hi]%(proj1 (fill_started _ _)); [by apply elem_of_nil in Hi|].
    rewrite (proj1 (fill_flight _ _)). unfold in_flight. by apply elem_of_app; left. }
  split_and!.
  - apply (rk_bound _ _ Hcore).
  - lia.
  - apply (rk_started_once _ _ Hcore).
  - intros i Hi. destruct Hr0 as [Hcore0 _]. apply (rk_none _ _ Hcore0 HF).
    destruct (B2 i Hi) as [[Hi'|Hi']%A2|Hi']; auto.
  - intros [Hcan|Hfail]; [by apply B3|]. apply B3, A4; [|done]. by rewrite HF.
Qed.

End Batch.
