(* ===== verification/BatchResume.v ===== *)
(** * Batches: checkpoints can always be resumed

    Every checkpoint a batch writes is accepted when the same batch is run
    again, as long as captures are delivered where their request says; with
    [ConflictPolicy::Uniquify] they need not be, and then the checkpoint is
    refused for good. *)

From Stdlib Require Import ZArith Lia Ascii String.
From stdpp Require Import base tactics list gmap strings numbers sorting.
From S2P Require Import Prelude.
From S2P Require Import Errors.
From S2P Require Import Fs.
From S2P Require Import Records.
From S2P Require Import Budget.
From S2P Require Import Network.
From S2P Require Import Requests.
From S2P Require Import Names.
From S2P Require Import Schedule.
From S2P Require Import Scheduler.
From S2P Require Import BatchFacts.
From S2P Require Import Io.
From S2P Require Import SingleFile.

#[local] Open Scope string_scope.
#[local] Open Scope list_scope.
#[local] Open Scope Z_scope.

Section Resume.
Context `{Hh : Hashing} `{Hu : UrlLib} `{Hj : Json} `{Hc : Unicode}.
Implicit Types (p : BatchPlan) (q : BatchRequest) (r : BatchRun) (m : ResumeManifest).

(** ** Acceptance *)

Definition plan_header p m : Prop :=
  rm_schema_version m = PUBLIC_SCHEMA_VERSION /\ rm_kind m = KindBatch /\
  rm_plan_sha256 m = bp_sha256 p.

Definition accepts p m : Prop :=
  plan_header p m /\ validate_batch_manifest m (bp_request p) (bp_digests p) = Ok tt.

Lemma resume_some q : bq_resume q <> None -> is_some (bq_resume q) = true.
Proof. by destruct (bq_resume q). Qed.

Lemma batch_load_accepts env p m :
  bq_resume (bp_request p) <> None -> batch_load env p = Ok m -> accepts p m.
Proof.
  intros Hr%resume_some. unfold batch_load. rewrite Hr.
  intros [_ (m' & Hload & [Hval [= <-]]%rbind_unit_ok)%rbind_ok]%rbind_unit_ok.
  split; [|done]. unfold load_or_create_manifest in Hload.
  apply rbind_ok in Hload as (m2 & _ & [Hhead Hload]%refuse_ok).
  rewrite (bool_decide_eq_false_2 (KindBatch = KindCrawl)), andb_false_r in Hload by done.
  injection Hload as <-.
  apply orb_false_iff in Hhead as [[Hv Hk]%orb_false_iff Hs].
  apply negb_false_iff, Z.eqb_eq in Hv. apply bool_decide_eq_false, dec_stable in Hk, Hs. done.
Qed.

Lemma accepts_load env p m text :
  bq_resume (bp_request p) <> None -> accepts p m ->
  se_acquire env = Ok tt -> se_read env = Ok text -> parse_manifest text = Some m ->
  batch_load env p = Ok m.
Proof.
  intros Hr%resume_some [(Hv & Hk & Hs) Hval] Ha Hread Hparse.
  unfold batch_load, load_or_create_manifest. rewrite Hr, Ha, Hread. cbn [rbind]. rewrite Hparse.
  cbn [rbind ok_or]. rewrite Hv, Hk, Hs. rewrite !(bool_decide_eq_false_2 (_ <> _)) by auto.
  rewrite Z.eqb_refl, (bool_decide_eq_false_2 (KindBatch = KindCrawl)), andb_false_r by done.
  cbn [negb orb rbind]. by rewrite Hval.
Qed.

(** ** What the records are checked against *)

Lemma expected_jobs_ok p :
  plan_ok p -> bq_resume (bp_request p) <> None ->
  exists expected, expected_jobs (bp_request p) (bp_digests p) = Ok expected /\
    forall i job digest path c,
      bq_jobs (bp_request p) !! i = Some job -> bp_digests p !! i = Some digest ->
      rq_output (bj_request job) = OutputFile path c ->
      expected !! bj_id job = Some (digest, path).
Proof.
  intros Hp Hr. unfold expected_jobs.
  set (f := fun jd : BatchJob * ContentDigest => _).
  assert (Hall : exists pairs, Forall2 (fun jd y => f jd = Ok y)
    (zip (bq_jobs (bp_request p)) (bp_digests p)) pairs).
  { assert (Hfile := pk_files p Hp Hr).
    induction (pk_digests p Hp) as [|j d js ds _ _ IH]; [by exists []|].
    apply Forall_cons_iff in Hfile as [(path & c & Ho) Hfile]. destruct (IH Hfile) as [pairs Hpairs].
    eexists ((bj_id j, (d, path)) :: pairs). constructor; [|done]. unfold f. cbn. by rewrite Ho. }
  destruct Hall as [pairs Hpairs].
  assert (Hf : forall jd y, f jd = Ok y -> y.1 = bj_id jd.1 /\ y.2.1 = jd.2 /\
    forall path c, rq_output (bj_request jd.1) = OutputFile path c -> y.2.2 = path).
  { intros jd y. unfold f. destruct (rq_output (bj_request jd.1)) as [path c|]; [|done].
    intros [= <-]. split_and!; auto. by intros path' c' [= <- _]. }
  rewrite (proj2 (collect_ok _ _ _) Hpairs). cbn [rbind]. eexists. split; [done|].
  intros i job digest path c Hjob Hdig Hout.
  apply foldl_insert_lookup.
  - assert (Hfst : pairs.*1 = map (fun jd => bj_id jd.1) (zip (bq_jobs (bp_request p)) (bp_digests p))).
    { clear -Hpairs Hf. induction Hpairs as [|jd y l k Hy _ IH]; [done|].
      rewrite fmap_cons, IH. cbn. f_equal. by apply (Hf jd y). }
    rewrite Hfst, (proj1 (plan_zip p Hp)). apply (pk_ids p Hp).
  - assert (Hz : zip (bq_jobs (bp_request p)) (bp_digests p) !! i = Some (job, digest))
      by (apply lookup_zip_Some; done).
    destruct (Forall2_lookup_l _ _ _ _ _ Hpairs Hz) as (y & Hy & Hfy).
    apply Hf in Hfy as (Hy1 & Hy2 & Hy3). cbn in *. specialize (Hy3 _ _ Hout).
    destruct y as [id [d' path']]. cbn in *. subst. by eapply list_elem_of_lookup_2.
Qed.

Definition record_valid p (id : string) (rec : ResumeJobRecord) : Prop :=
  forall expected, expected_jobs (bp_request p) (bp_digests p) = Ok expected ->
    validate_batch_record expected id rec = Ok tt.

(** Which jobs have a record. *)
Definition recorded p (outcomes : list (option ScheduledCaptureOutcome)) m : Prop :=
  Forall2 (fun j o => is_none (rm_jobs m !! bj_id j) = is_none o)
    (bq_jobs (bp_request p)) outcomes.

Record good p (outcomes : list (option ScheduledCaptureOutcome)) m : Prop := {
  gd_header : plan_header p m;
  gd_frontier : rm_frontier m = [];
  gd_records : forall id rec, rm_jobs m !! id = Some rec -> record_valid p id rec;
  gd_recorded : recorded p outcomes m;
}.

Lemma good_accepted p outcomes m :
  plan_ok p -> bq_resume (bp_request p) <> None -> good p outcomes m ->
  accepts p (refresh_batch_pending (bp_request p) outcomes m).
Proof.
  intros Hp Hr [Hhead Hfr Hrec Hpend]. split; [done|].
  destruct (expected_jobs_ok p Hp Hr) as (expected & Hexp & _).
  unfold validate_batch_manifest. cbn [rm_frontier rm_jobs rm_pending refresh_batch_pending set_pending].
  rewrite Hfr, bool_decide_eq_false_2 by auto. rewrite Hexp. cbn [rbind].
  rewrite (proj2 (for_each_btree _ _)) by (intros id rec Hl; by apply Hrec).
  cbn [rbind]. rewrite bool_decide_eq_false_2; [done|]. intros Hne. apply Hne.
  rewrite <- (filter_zip _ _ _ _ Hpend). by rewrite map_map.
Qed.

Lemma accepted_records p m :
  accepts p m -> rm_frontier m = [] /\ forall id rec, rm_jobs m !! id = Some rec -> record_valid p id rec.
Proof.
  intros [_ Hv]. unfold validate_batch_manifest in Hv. apply refuse_ok in Hv as [Hfr Hv].
  apply bool_decide_eq_false, dec_stable in Hfr. split; [done|].
  apply rbind_ok in Hv as (expected & Hexp & [Hv _]%rbind_unit_ok).
  intros id rec Hl e He. rewrite Hexp in He. injection He as <-.
  by apply (proj1 (for_each_btree _ _) Hv).
Qed.

(** ** The invariant *)

(** A capture of job [i] that succeeds is delivered at the requested path. *)
Definition delivers p (i : nat) (answer : JobAnswer) : Prop :=
  forall receipt, answer = Finished (Ok receipt) ->
  exists job path c stored size sha,
    bq_jobs (bp_request p) !! i = Some job /\ rq_output (bj_request job) = OutputFile path c /\
    rc_artifact receipt = ArtifactFile stored size sha /\ path_eqb stored path = true.

(** The states reached from [r0] when every capture that ends satisfies [P]. *)
Inductive batch_reach p (P : nat -> JobAnswer -> Prop) r0 : BatchRun -> Prop :=
| reach_start : batch_reach p P r0 r0
| reach_step r e r' :
    batch_reach p P r0 r ->
    batch_step p e r = Some r' ->
    (forall position answer i b, e = Complete position answer ->
       run_active r !! position = Some (i, b) -> P i answer) ->
    batch_reach p P r0 r'.

Record ckpt p r : Prop := {
  ck_good : run_failure r = None ->
    good p (run_outcomes r) (run_manifest r) /\ saved (run_disk r) = Some (run_manifest r);
  ck_saved : exists m, saved (run_disk r) = Some m /\ accepts p m;
}.

Lemma refresh_good p outcomes m :
  good p outcomes m -> good p outcomes (refresh_batch_pending (bp_request p) outcomes m).
Proof. intros [H1 H2 H3 H4]. by constructor. Qed.

(** The record of an outcome passes its check. *)
Lemma outcome_record_valid p i b job digest answer :
  plan_ok p -> bq_resume (bp_request p) <> None -> delivers p i answer ->
  bq_jobs (bp_request p) !! i = Some job -> bp_digests p !! i = Some digest ->
  record_valid p (bj_id job) (record_from_outcome (job_run (negb b) (bj_id job) digest answer)).
Proof.
  intros Hp Hr Hdel Hjob Hdig expected Hexp.
  destruct (expected_jobs_ok p Hp Hr) as (expected' & Hexp' & Hlook).
  rewrite Hexp in Hexp'. injection Hexp' as <-.
  assert (Hfile := pk_files p Hp Hr). rewrite list.Forall_forall in Hfile.
  destruct (Hfile job) as (path & c & Hout); [by eapply list_elem_of_lookup_2|].
  unfold validate_batch_record. rewrite (Hlook _ _ _ _ _ Hjob Hdig Hout).
  unfold job_run, job_failed. destruct (negb b), answer as [|e|[receipt|e]]; cbn;
    rewrite ?bool_decide_eq_false_2 by auto; try done.
  destruct (Hdel receipt eq_refl) as (job' & path' & c' & stored & size & sha & Hjob' & Hout' & Hart & Heq).
  rewrite Hjob in Hjob'. injection Hjob' as <-. rewrite Hout in Hout'. injection Hout' as <- <-.
  rewrite Hart. cbn. rewrite bool_decide_eq_false_2 by auto. by rewrite Heq.
Qed.

Lemma recorded_insert p outcomes m i job o rec :
  plan_ok p -> bq_jobs (bp_request p) !! i = Some job ->
  recorded p outcomes m -> recorded p (<[i := Some o]> outcomes) (set_jobs (<[bj_id job := rec]> (rm_jobs m)) m).
Proof.
  intros Hp Hjob Hrec. assert (Hlen := Forall2_length _ _ _ Hrec).
  apply Forall2_same_length_lookup_2; [by rewrite length_insert|].
  intros k j o' Hj' Ho'. cbn. destruct (decide (k = i)) as [->|Hne].
  - rewrite Hjob in Hj'. injection Hj' as <-.
    rewrite list_lookup_insert_eq in Ho' by (rewrite <- Hlen; by eapply lookup_lt_Some).
    injection Ho' as <-. by rewrite lookup_insert_eq.
  - rewrite list_lookup_insert_ne in Ho' by done.
    rewrite lookup_insert_ne; [by apply (Forall2_lookup_lr _ _ _ _ _ _ Hrec Hj' Ho')|].
    intros Heq. apply Hne. eapply (NoDup_lookup _ _ _ (bj_id job) (pk_ids p Hp));
      rewrite list_lookup_fmap, ?Hj', ?Hjob; cbn; congruence.
Qed.

Lemma step_ckpt p e r r' :
  plan_ok p -> bq_resume (bp_request p) <> None -> ckpt p r -> batch_step p e r = Some r' ->
  (forall position answer i b, e = Complete position answer ->
     run_active r !! position = Some (i, b) -> delivers p i answer) ->
  ckpt p r'.
Proof.
  intros Hp Hr [Hgood (m & Hm & Hacc)] Hstep Hdel. destruct e as [|position answer].
  { injection Hstep as <-. by constructor; [|exists m]. }
  apply batch_step_complete in Hstep as (i & b & job & digest & Ha & Hjob & Hdig & ->).
  set (r1 := match run_failure r with Some _ => _ | None => _ end).
  destruct (fill_flight (bq_concurrency (bp_request p)) r1) as (_ & Ho & Hf & Hman & Hd & _).
  assert (Hr1 : ckpt p r1); [|destruct Hr1 as [G1 G2]; constructor; by rewrite ?Ho, ?Hf, ?Hman, ?Hd].
  unfold r1. destruct (run_failure r) eqn:HF.
  { constructor; [cbn; by rewrite HF|by exists m]. }
  destruct (Hgood eq_refl) as [[G1 G2 G3 G4] Hsv].
  unfold record_outcome. rewrite (resume_some _ Hr), job_run_id. cbn [run_manifest run_outcomes take_active].
  set (o := job_run (negb b) (bj_id job) digest answer).
  set (m1 := set_jobs _ _).
  assert (Hg1 : good p (<[i := Some o]> (run_outcomes r)) m1).
  { constructor; [done|done| |by apply recorded_insert].
    intros id rec. cbn. destruct (decide (id = bj_id job)) as [->|Hne].
    - rewrite lookup_insert_eq. intros [= <-]. eapply outcome_record_valid; eauto.
    - rewrite lookup_insert_ne by done. apply G3. }
  assert (Hg2 := refresh_good _ _ _ Hg1). assert (Hacc1 := good_accepted _ _ _ Hp Hr Hg1).
  destruct (persist_manifest_if_configured _ _ _) as [[m2|e] d2] eqn:Epers.
  - apply persisted in Epers as [-> Hsaved]. constructor; cbn; [by auto|]. eauto.
  - apply not_persisted in Epers. constructor; cbn; [done|]. exists m. rewrite Epers. by split.
Qed.

Lemma batch_plan_resume env q p :
  batch_plan env q = Ok p -> bq_resume (bp_request p) = bq_resume q.
Proof.
  unfold batch_plan. cbv zeta.
  by intros [_ [_ [_ (plan & _ & (ds & _ & [= <-])%rbind_ok)%rbind_ok]%rbind_unit_ok]%rbind_unit_ok]%rbind_unit_ok.
Qed.

Lemma begin_ckpt env p d r d' :
  plan_ok p -> bq_resume (bp_request p) <> None -> batch_begin env p d = (Ok r, d') -> ckpt p r.
Proof.
  intros Hp Hr Hb. destruct (batch_begin_inv _ _ _ _ _ Hp Hb)
    as (m0 & m1 & Hload & Hall & Hother & [j ->] & m2 & Hpers & ->).
  set (outcomes := map _ _) in *. rewrite (resume_some _ Hr) in Hpers.
  apply batch_load_accepts in Hload as Hacc; [|done].
  destruct (accepted_records _ _ Hacc) as [Hfr Hrecs]. cbn [rm_jobs set_jobs] in Hall, Hother.
  assert (Hg : good p outcomes (set_jobs j m0)).
  { constructor; [apply Hacc|done| |].
    - intros id rec Hl. cbn in Hl. apply Hrecs.
      destruct (decide (id ∈ map bj_id (bq_jobs (bp_request p)))) as [Hin|Hout]; [|by rewrite <- Hother].
      rewrite <- (proj1 (plan_zip p Hp)) in Hin. apply list_elem_of_fmap in Hin as (jd & -> & Hin).
      rewrite list.Forall_forall in Hall. rewrite (Hall _ Hin) in Hl. by eapply resumable_recorded.
    - unfold recorded, outcomes. cbn.
      apply Forall2_fmap_r. rewrite <- (fst_zip (bq_jobs (bp_request p)) (bp_digests p)) at 1
        by (rewrite (Forall2_length _ _ _ (pk_digests p Hp)); lia).
      apply Forall2_fmap_l, Forall_Forall2_diag. eapply Forall_impl; [exact Hall|].
      intros jd Heq. cbn. rewrite Heq. unfold selected. by destruct (resumable _ _ _ _ _). }
  assert (Hacc1 := good_accepted _ _ _ Hp Hr Hg). assert (Hg2 := refresh_good _ _ _ Hg).
  apply persisted in Hpers as [-> Hsaved].
  set (r0 := MkRun _ _ _ _ _ _ _ _).
  destruct (fill_flight (bq_concurrency (bp_request p)) r0) as (_ & Ho & Hf & Hman & Hd & _).
  constructor; rewrite ?Ho, ?Hf, ?Hman, ?Hd; cbn; eauto.
Qed.


(** ** Continuing *)

Lemma batch_begin_runs env p d m :
  batch_load env p = Ok m -> fates d = [] -> exists r d', batch_begin env p d = (Ok r, d').
Proof.
  intros Hload Hf. unfold batch_begin. rewrite Hload.
  destruct (select_jobs _ _ _ _ _) as [[m1 outcomes] pending].
  unfold persist_manifest_if_configured. rewrite Hf.
  destruct (is_some (bq_resume (bp_request p))); eauto.
Qed.

(** With current artifacts and no retries a valid record is resumed from. *)
Lemma resumable_valid env p m i job digest rec o :
  plan_ok p -> bq_resume (bp_request p) = Some o -> ro_retry_failed o = false ->
  (forall rec, se_current env rec = true) ->
  bq_jobs (bp_request p) !! i = Some job -> bp_digests p !! i = Some digest ->
  rm_jobs m !! bj_id job = Some rec -> record_valid p (bj_id job) rec ->
  resumable env (bp_request p) m job digest = Some rec.
Proof.
  intros Hp Hro Hretry Hcur Hjob Hdig Hrec Hval.
  assert (Hr : bq_resume (bp_request p) <> None) by (by rewrite Hro).
  destruct (expected_jobs_ok p Hp Hr) as (expected & Hexp & Hlook).
  assert (Hfile := pk_files p Hp Hr). rewrite list.Forall_forall in Hfile.
  destruct (Hfile job) as (path & c & Hout); [by eapply list_elem_of_lookup_2|].
  specialize (Hval _ Hexp). unfold validate_batch_record in Hval.
  rewrite (Hlook _ _ _ _ _ Hjob Hdig Hout) in Hval.
  unfold resumable. rewrite Hrec, Hro, Hretry, Hcur.
  destruct (decide (rj_request_sha256 rec = digest)) as [->|Hne].
  - rewrite bool_decide_eq_true_2 by done. by destruct (rj_status rec).
  - by rewrite bool_decide_eq_true_2 in Hval.
Qed.

(** A resumable batch stopped at any moment is taken up again with exactly
    the jobs that have no outcome yet: when the artifacts are still in place
    and failures are not to be retried, no finished job is captured again and no
    unfinished one is dropped. *)
Theorem resume_continues env (q : BatchRequest) p (d d' d2 : Disk) r0 r o env' text m :
  bq_resume q = Some o -> ro_retry_failed o = false ->
  batch_plan env q = Ok p ->
  batch_begin env p d = (Ok r0, d') ->
  batch_reach p (delivers p) r0 r ->
  run_failure r = None ->
  saved (run_disk r) = Some m ->
  se_acquire env' = Ok tt -> se_read env' = Ok text -> parse_manifest text = Some m ->
  (forall rec, se_current env' rec = true) ->
  fates d2 = [] ->
  exists r1 d3, batch_begin env' p d2 = (Ok r1, d3) /\ in_flight r1 ≡ₚ in_flight r.
Proof.
  intros Ho Hretry Hq Hb Hreach HF Hm Ha Hread Hparse Hcur Hfates.
  assert (Hp := batch_plan_ok _ _ _ Hq). rewrite <- (batch_plan_resume _ _ _ Hq) in Ho.
  assert (Hr : bq_resume (bp_request p) <> None) by (by rewrite Ho).
  assert (Hck : ckpt p r).
  { clear -Hreach Hb Hp Hr. induction Hreach; [by eapply begin_ckpt|by eapply step_ckpt]. }
  destruct Hck as [Hgood (m' & Hm' & Hacc)]. rewrite Hm in Hm'. injection Hm' as <-.
  destruct (Hgood HF) as [[_ _ Hrecs Hrec] Hsv]. rewrite Hm in Hsv.
  injection Hsv as Hsv. rewrite <- Hsv in Hrecs, Hrec.
  assert (Hload := accepts_load _ _ _ _ Hr Hacc Ha Hread Hparse).
  destruct (batch_begin_runs _ _ _ _ Hload Hfates) as (r1 & d3 & Hb1).
  exists r1, d3. split; [done|].
  destruct (batch_begin_ok _ _ _ _ _ Hp Hb1) as (Hr1 & HF1 & _ & m1 & Hload1 & Hout1 & Hfl1).
  rewrite Hload in Hload1. injection Hload1 as <-.
  assert (Hrok : run_ok p r).
  { destruct (batch_begin_ok _ _ _ _ _ Hp Hb) as [Hr0 _]. clear -Hreach Hr0.
    induction Hreach; [done|by eapply batch_step_ok]. }
  destruct Hrok as [Hcore _]. destruct Hr1 as [Hcore1 _].
  apply NoDup_Permutation; [apply (rk_nodup _ _ Hcore1)|apply (rk_nodup _ _ Hcore)|].
  intros i. rewrite <- (rk_none _ _ Hcore1 HF1 i), <- (rk_none _ _ Hcore HF i), Hout1, list_lookup_fmap.
  destruct (bq_jobs (bp_request p) !! i) as [job|] eqn:Hjob.
  - destruct (Forall2_lookup_l _ _ _ _ _ (pk_digests p Hp) Hjob) as (digest & Hdig & _).
    destruct (Forall2_lookup_l _ _ _ _ _ Hrec Hjob) as (oo & Hoo & Heq).
    rewrite (proj2 (lookup_zip_Some _ _ i job digest)) by done. rewrite Hoo. cbn. unfold selected. cbn.
    destruct (rm_jobs m !! bj_id job) as [rec|] eqn:Hl.
    + rewrite (resumable_valid env' p m i job digest rec o) by eauto.
      destruct oo; [|done]. cbn. split; congruence.
    + destruct oo; [done|]. unfold resumable. rewrite Hl. done.
  - rewrite (lookup_ge_None_2 (zip _ _)), (lookup_ge_None_2 (run_outcomes r)); [done| |].
    + rewrite (rk_length _ _ Hcore). by apply lookup_ge_None.
    + rewrite length_zip. apply lookup_ge_None in Hjob. lia.
Qed.

End Resume.

(** ** Batches: examples and the uniquified checkpoint

    Two jobs run one at a time, with concrete parameters, as witnesses of the
    theorems on batches; and the run that shows that a checkpoint can be refused
    for good when an artifact is delivered under a uniquified name. *)
Module BatchSamples.

(** An injective digest, hexadecimal as text, ASCII tables. *)
#[local] Instance text_hashing : Hashing := {| sha256_raw b := b; hex_encode := string_of_list_ascii |}.
#[local] Existing Instance plain_urls.
#[local] Instance ascii_unicode : Unicode := {|
  is_alphanumeric c := ((48 <=? c) && (c <=? 57)) || ((65 <=? c) && (c <=? 90)) || ((97 <=? c) && (c <=? 122));
  to_lowercase c := [ascii_lower_char c];
|}.

Definition output_text (o : CaptureOutput) : bytes :=
  match o with OutputFile path _ => as_bytes path | OutputMemory _ => [] end.

(** Requests are written as their URL and path; checkpoints are read from a
    table of texts. *)
Definition table_json (table : list (bytes * ResumeManifest)) : Json := {|
  json_request q := Some [as_bytes (rq_url q); output_text (rq_output q)];
  json_jobs jobs := Some (map (fun j => as_bytes (bj_id j)) jobs);
  json_plan q := Some [as_bytes (rq_url (cl_seed q)); as_bytes (cl_output_directory q)];
  json_manifest m := snd <$> List.find (fun tm => bool_decide (rm_pending tm.1 = rm_pending m))
                               (map (fun tm => (tm.2, [tm.1])) table);
  parse_manifest text := snd <$> List.find (fun tm => bool_decide (tm.1 = text)) table;
|}.

Definition page_request (u path : string) (c : ConflictPolicy) : CaptureRequest :=
  MkRequest PUBLIC_SCHEMA_VERSION u (OutputFile path c) BrowserAuto None environment_default
    readiness_default content_default credentials_empty Standard limits_default VerifyOffline
    (MkDiagnostics None).

Definition two_jobs (c : ConflictPolicy) : BatchRequest :=
  MkBatch PUBLIC_SCHEMA_VERSION
    [MkJob "a" (page_request "https://example.com/a" "/w/a.html" c);
     MkJob "b" (page_request "https://example.com/b" "/w/b.html" c)]
    1 (Some (MkResume "resume.json" false)).

Definition fresh_env (read : result BoundedFileReadError bytes) : SchedulerEnv :=
  MkEnv (Ok tt) BrowserAuto (Ok tt) read (fun _ => true) (Ok tt) (Ok (Metadata KDir 0 None)).

Definition sample_receipt (stored : PortablePath) : CaptureReceipt :=
  let zero := MkDigest [] in
  MkReceipt 2 "cap_1" (MkSource "" zero "" zero) (ArtifactFile stored 3 zero)
    (MkReport 2 VerifyOffline zero 3 0) (MkSummary 0 0 0 0 0 0) []
    (MkTimings 0 0 0 0 0 0 0 0 0 0 0).

Definition no_file : result BoundedFileReadError bytes := Err (ReadIo NotFound).

Definition no_disk : Disk := MkDisk None [].

(** The states of a run: after it has begun, and after some events. *)
Section Runs.
Context `{J : Json}.

Definition sample_plan (c : ConflictPolicy) : BatchPlan :=
  match batch_plan (fresh_env no_file) (two_jobs c) with
  | Ok p => p
  | Err _ => MkBatchPlan (two_jobs c) (MkDigest []) []
  end.

Definition sample_begin (c : ConflictPolicy) : option BatchRun :=
  match batch_begin (fresh_env no_file) (sample_plan c) no_disk with
  | (Ok r, _) => Some r
  | (Err _, _) => None
  end.

(** The first capture succeeds and is stored at [stored]. *)
Definition sample_run (c : ConflictPolicy) (stored : PortablePath) : option BatchRun :=
  r ← sample_begin c;
  batch_step (sample_plan c) (Complete 0 (Finished (Ok (sample_receipt stored)))) r.

Definition sample_saved (c : ConflictPolicy) (stored : PortablePath) : list (bytes * ResumeManifest) :=
  match r ← sample_run c stored; saved (run_disk r) with
  | Some m => [(as_bytes "checkpoint", m)]
  | None => []
  end.

End Runs.

(** The checkpoints the sample runs leave can be read back. *)
Definition plain_json : Json :=
  table_json (sample_saved (J:=table_json []) ConflictReplace "/w/a.html").
Definition uniquified_json : Json :=
  table_json (sample_saved (J:=table_json []) ConflictUniquify "/w/a-1.html").

(** ** Witnesses *)

#[local] Instance sample_json : Json := plain_json.

Definition the_run : BatchRun :=
  match sample_begin ConflictReplace with
  | Some r => r
  | None => MkRun (new_manifest KindBatch (MkDigest []) [] []) [] [] [] [] false None no_disk
  end.

Definition all_done : list BatchEvent :=
  [Complete 0 (Finished (Ok (sample_receipt "/w/a.html"))); Cancel; Complete 0 CancelledBeforeStart].

Definition finished_run : BatchRun :=
  default the_run (batch_steps (sample_plan ConflictReplace) all_done the_run).

Lemma sample_planned :
  batch_plan (fresh_env no_file) (two_jobs ConflictReplace) = Ok (sample_plan ConflictReplace).
Proof. vm_compute. reflexivity. Qed.

Lemma sample_begun :
  batch_begin (fresh_env no_file) (sample_plan ConflictReplace) no_disk = (Ok the_run, run_disk the_run).
Proof. vm_compute. reflexivity. Qed.

Lemma sample_stepped :
  batch_steps (sample_plan ConflictReplace) all_done the_run = Some finished_run.
Proof. vm_compute. reflexivity. Qed.

Lemma batch_in_order_witness :
  exists result, batch_end (sample_plan ConflictReplace) finished_run = Ok result /\
    map outcome_id (br_outcomes result) = ["a"; "b"].
Proof.
  destruct (batch_in_order _ _ _ _ _ _ finished_run _ sample_planned sample_begun sample_stepped)
    as (result & Hend & Hids & _); [vm_compute; reflexivity..|].
  exists result. split; [exact Hend|exact Hids].
Defined.

Lemma batch_drains_witness :
  batch_finished finished_run = true /\ length (in_flight the_run) = 2%nat.
Proof.
  split; [|vm_compute; reflexivity].
  apply (proj1 (batch_drains _ _ _ _ _ _ finished_run _ sample_planned ltac:(discriminate)
    sample_begun sample_stepped)).
  vm_compute; reflexivity.
Defined.

Lemma captures_bounded_witness :
  run_started finished_run = [0%nat; 1%nat] /\ NoDup (run_started finished_run) /\
  (length (run_active finished_run) <= Z.to_nat (bq_concurrency (bp_request (sample_plan ConflictReplace))))%nat.
Proof.
  destruct (captures_bounded _ _ _ _ _ _ the_run finished_run [] _ sample_planned sample_begun
    eq_refl sample_stepped) as ([Hb _] & Hnd & _).
  split; [vm_compute; reflexivity|]. split; [exact Hnd|exact Hb].
Defined.

Definition stopped_run : BatchRun := default the_run (sample_run ConflictReplace "/w/a.html").

(** The first capture was delivered where its request says. *)
Lemma sample_reached :
  batch_reach (sample_plan ConflictReplace) (delivers (sample_plan ConflictReplace)) the_run stopped_run.
Proof.
  apply (reach_step _ _ _ the_run (Complete 0 (Finished (Ok (sample_receipt "/w/a.html")))));
    [apply reach_start|vm_compute; reflexivity|].
  intros position answer i b [= <- <-] Hi receipt [= <-]. vm_compute in Hi. injection Hi as <- _.
  exists (MkJob "a" (page_request "https://example.com/a" "/w/a.html" ConflictReplace)), "/w/a.html",
    ConflictReplace, "/w/a.html", 3, (MkDigest []).
  split; [vm_compute; reflexivity|]. split; [reflexivity|]. split; [reflexivity|vm_compute; reflexivity].
Qed.

Definition stopped_manifest : ResumeManifest :=
  default (new_manifest KindBatch (MkDigest []) [] []) (saved (run_disk stopped_run)).

Lemma stopped_saved : saved (run_disk stopped_run) = Some stopped_manifest.
Proof. vm_compute. reflexivity. Qed.

Lemma stopped_parsed : parse_manifest (as_bytes "checkpoint") = Some stopped_manifest.
Proof. vm_compute. reflexivity. Qed.


Lemma resume_continues_witness :
  in_flight stopped_run = [1%nat] /\
  exists r1 d3,
    batch_begin (fresh_env (Ok (as_bytes "checkpoint"))) (sample_plan ConflictReplace) no_disk = (Ok r1, d3) /\
    in_flight r1 ≡ₚ in_flight stopped_run.
Proof.
  split; [vm_compute; reflexivity|].
  apply (resume_continues (fresh_env no_file) (two_jobs ConflictReplace) _ no_disk (run_disk the_run) no_disk
    the_run stopped_run (MkResume "resume.json" false) (fresh_env (Ok (as_bytes "checkpoint")))
    (as_bytes "checkpoint") stopped_manifest eq_refl eq_refl sample_planned sample_begun sample_reached);
    [vm_compute; reflexivity|exact stopped_saved|reflexivity|reflexivity|exact stopped_parsed
    |reflexivity|reflexivity].
Defined.

(** ** A uniquified artifact *)

(** A resumable batch with [ConflictPolicy::Uniquify] whose first artifact
    had to be delivered under the next free name writes a checkpoint that every
    later run of the batch refuses, leaving it as it is: the record holds the
    name that was taken, and validation wants the name that was requested. *)
Theorem uniquified_checkpoint_refused (env : SchedulerEnv) (d : Disk) :
  path_string (single_candidate ["w"; "a.html"] 1) = "/w/a-1.html" /\
  exists r m, sample_run (J:=uniquified_json) ConflictUniquify "/w/a-1.html" = Some r /\
    saved (run_disk r) = Some m /\
    (se_acquire env = Ok tt -> se_read env = Ok (as_bytes "checkpoint") ->
     exists e, batch_begin (H1:=uniquified_json) env (sample_plan (J:=uniquified_json) ConflictUniquify) d = (Err e, d) /\
       err_code e = "offprint.scheduler.manifest_shape").
Proof.
  split; [vm_compute; reflexivity|].
  eexists _, _. split; [vm_compute; reflexivity|]. split; [reflexivity|].
  intros Ha Hread. eexists. unfold batch_begin, batch_load. rewrite Ha, Hread.
  split; [vm_compute; reflexivity|reflexivity].
Qed.

End BatchSamples.
