(* ===== verification/CrawlFacts.v ===== *)
(** * Crawls: the pages of a crawl

    The pages a crawl knows are those of its frontier and those with a record.
    Validating a checkpoint checks them one by one against what was seen before;
    here that is turned into a statement about all of them, which every page
    captured preserves. *)

From Stdlib Require Import ZArith Lia Ascii String.
From stdpp Require Import base tactics list gmap strings numbers sorting.
From S2P Require Import Prelude.
From S2P Require Import Errors.
From S2P Require Import Fs.
From S2P Require Import Records.
From S2P Require Import Budget.
From S2P Require Import Network.
From S2P Require Import Requests.
From S2P Require Import Names.
From S2P Require Import Schedule.
From S2P Require Import Scheduler.
From S2P Require Import BatchFacts.

#[local] Open Scope string_scope.
#[local] Open Scope list_scope.
#[local] Open Scope Z_scope.

Section Crawl.
Context `{Hh : Hashing} `{Hu : UrlLib} `{Hj : Json} `{Hc : Unicode}.
Implicit Types (q : CrawlRequest) (m : ResumeManifest) (i item : CrawlFrontierItem).

(** ** Coordinates *)

Definition crawl_root q : url := url_without_fragment (rq_url (cq_seed q)).

Record coord_ok q item : Prop := {
  cd_scheme : url_scheme (fi_url item) ∈ ["http"; "https"];
  cd_fragment : url_fragment (fi_url item) = None;
  cd_origin : cq_same_origin q = true ->
    url_origin (fi_url item) = url_origin (rq_url (cq_seed q));
  cd_seed : (fi_depth item = 0 \/ fi_ordinal item = 0 \/ fi_url item = crawl_root q) ->
    fi_url item = crawl_root q /\ fi_depth item = 0 /\ fi_ordinal item = 0;
  cd_depth : fi_depth item <= cq_maximum_depth q;
  cd_ordinal : fi_ordinal item < cq_maximum_pages q;
}.

Lemma seed_test (a b c : bool) : ((a || b || c) && (negb c || negb a || negb b)) = false <->
  (a = true \/ b = true \/ c = true -> c = true /\ a = true /\ b = true).
Proof. destruct a, b, c; cbn; naive_solver. Qed.

Lemma coordinates_exact q item urls ordinals seen :
  validate_crawl_coordinates (fi_url item) (fi_depth item) (fi_ordinal item) q (crawl_root q)
    (urls, ordinals) = Ok seen <->
  coord_ok q item /\ (fi_url item ∉ urls) /\ (fi_ordinal item ∉ ordinals) /\
  seen = ({[fi_url item]} ∪ urls, {[fi_ordinal item]} ∪ ordinals).
Proof.
  unfold validate_crawl_coordinates. rewrite !refuse_ok.
  rewrite orb_false_iff, negb_false_iff, bool_decide_eq_true, andb_false_iff, !Z.ltb_ge, !Z.leb_gt,
    !bool_decide_eq_false, (bool_decide_not (fi_url item = crawl_root q)), seed_test, !Z.eqb_eq, !bool_decide_eq_true.
  split.
  - intros ([Hs Hf] & Ho & Hseed & Hd & Hor & Hu' & Hn & [= <-]). split_and!; auto.
    constructor; auto.
    + by destruct (url_fragment (fi_url item)).
    + intros Hso. destruct Ho as [Ho|Ho]; [congruence|by apply dec_stable].
  - intros ([Hs Hf Ho Hseed Hd Hor] & Hu' & Hn & ->). split_and!; auto; [by rewrite Hf|].
    destruct (cq_same_origin q); [right; naive_solver|by left].
Qed.

(** Checking items one after the other. *)
Record fresh_items q (urls : gset string) (ordinals : gset Z) (l : list CrawlFrontierItem) : Prop := {
  fr_coords : Forall (coord_ok q) l;
  fr_urls : NoDup (map fi_url l);
  fr_ordinals : NoDup (map fi_ordinal l);
  fr_new_urls : Forall (fun i => fi_url i ∉ urls) l;
  fr_new_ordinals : Forall (fun i => fi_ordinal i ∉ ordinals) l;
}.

Definition urls_of (l : list CrawlFrontierItem) : gset string := list_to_set (map fi_url l).
Definition ordinals_of (l : list CrawlFrontierItem) : gset Z := list_to_set (map fi_ordinal l).

Lemma fresh_items_cons q urls ordinals i l :
  fresh_items q urls ordinals (i :: l) <->
  coord_ok q i /\ (fi_url i ∉ urls) /\ (fi_ordinal i ∉ ordinals) /\
  fresh_items q ({[fi_url i]} ∪ urls) ({[fi_ordinal i]} ∪ ordinals) l.
Proof.
  assert (Hset : forall (A : Type) (EA : EqDecision A) (CA : Countable A) (f : CrawlFrontierItem -> A) (X : gset A),
    Forall (fun x => f x ∉ {[f i]} ∪ X) l <-> (f i ∉ map f l) /\ Forall (fun x => f x ∉ X) l).
  { intros A EA CA f X. rewrite !list.Forall_forall. setoid_rewrite not_elem_of_union.
    setoid_rewrite not_elem_of_singleton. rewrite list_elem_of_fmap. split.
    - intros HX. split; [|intros x Hx; by apply HX]. intros (y & Heq & Hy). by destruct (HX y Hy).
    - intros [Hn HX] x Hx. split; [|by apply HX]. intros Heq. apply Hn. by exists x. }
  split.
  - intros [[H1 H2]%Forall_cons_iff [H3 H4]%list.NoDup_cons [H5 H6]%list.NoDup_cons
      [H7 H8]%Forall_cons_iff [H9 H10]%Forall_cons_iff].
    split_and!; auto. constructor; auto; by apply Hset.
  - intros (H1 & H2 & H3 & [H4 H5 H6 [H7 H8]%Hset [H9 H10]%Hset]).
    constructor; try by constructor. all: by apply list.NoDup_cons.
Qed.

Lemma fresh_items_nil q urls ordinals : fresh_items q urls ordinals [].
Proof. constructor; constructor. Qed.

Lemma coordinates_fold q l : forall urls ordinals seen,
  fold_res (fun i => validate_crawl_coordinates (fi_url i) (fi_depth i) (fi_ordinal i) q (crawl_root q))
    l (urls, ordinals) = Ok seen <->
  fresh_items q urls ordinals l /\ seen = (urls_of l ∪ urls, ordinals_of l ∪ ordinals).
Proof.
  induction l as [|i l IH]; intros urls ordinals seen; cbn [fold_res].
  { unfold urls_of, ordinals_of. cbn. rewrite !union_empty_l_L.
    split; [intros [= <-]; by split; [apply fresh_items_nil|]|by intros [_ ->]]. }
  rewrite rbind_ok, fresh_items_cons. split.
  - intros (s1 & (H1 & H2 & H3 & ->)%coordinates_exact & [H4 ->]%IH). split; [done|].
    unfold urls_of, ordinals_of. cbn. f_equal; set_solver.
  - intros [(H1 & H2 & H3 & H4) ->]. eexists. split; [by apply coordinates_exact|].
    apply IH. split; [done|]. unfold urls_of, ordinals_of. cbn. f_equal; set_solver.
Qed.

(** ** Records *)

Definition record_item (r : ResumeJobRecord) : option CrawlFrontierItem :=
  u ← rj_url r; depth ← rj_depth r; ordinal ← rj_ordinal r; Some (MkItem u depth ordinal).

Definition record_ok q (id : string) (r : ResumeJobRecord) item : Prop :=
  validate_terminal_record r = Ok tt /\ record_item r = Some item /\ id = fi_url item /\
  digest_serializable (json_request (crawl_capture_request q item)) = Ok (rj_request_sha256 r) /\
  (rj_status r = JobSucceeded -> same_path (rj_artifact_path r) (crawl_output_path q item) = true).

Lemma with_job_ok {A} id (r : Res A) a : with_job id r = Ok a <-> r = Ok a.
Proof. unfold with_job. destruct r; naive_solver. Qed.

Lemma record_exact q id r urls ordinals seen :
  validate_crawl_record q (crawl_root q) id r (urls, ordinals) = Ok seen <->
  exists item, record_ok q id r item /\
    validate_crawl_coordinates (fi_url item) (fi_depth item) (fi_ordinal item) q (crawl_root q)
      (urls, ordinals) = Ok seen.
Proof.
  unfold validate_crawl_record, record_ok, record_item. rewrite rbind_unit_ok, with_job_ok.
  destruct (rj_url r) as [u|], (rj_depth r) as [dp|], (rj_ordinal r) as [on|]; cbn [mbind option_bind];
    try (split; [intros [_ Hbad]; discriminate Hbad
                |intros (item & (_ & Hbad & _) & _); discriminate Hbad]).
  split.
  - intros [Ht Hrest]. case_bool_decide as Hid; [discriminate Hrest|].
    exists (MkItem u dp on). cbn.
    apply rbind_ok in Hrest as (s1 & Hco & Hrest). apply rbind_ok in Hrest as (dg & Hdg & Hrest).
    case_bool_decide as Hd; [discriminate Hrest|]. subst dg.
    destruct (bool_decide (rj_status r = JobSucceeded) && _) eqn:Hst; [discriminate Hrest|].
    injection Hrest as <-. split_and!; auto. intros Hs. rewrite bool_decide_eq_true_2 in Hst by done.
    by apply negb_false_iff in Hst.
  - intros (item & (Ht & [= <-] & Hid & Hdg & Hst) & Hco). cbn in *. split; [done|].
    rewrite bool_decide_eq_false_2 by auto. rewrite Hco. cbn [rbind]. rewrite Hdg. cbn [rbind].
    rewrite bool_decide_eq_false_2 by auto.
    destruct (decide (rj_status r = JobSucceeded)) as [Hs|Hs].
    + by rewrite Hst, andb_false_r.
    + by rewrite (bool_decide_eq_false_2 _ Hs).
Qed.

Lemma records_fold q l : forall urls ordinals seen,
  fold_res (fun kv => validate_crawl_record q (crawl_root q) kv.1 kv.2) l (urls, ordinals) = Ok seen <->
  exists its, Forall2 (fun kv i => record_ok q kv.1 kv.2 i) l its /\
    fresh_items q urls ordinals its /\ seen = (urls_of its ∪ urls, ordinals_of its ∪ ordinals).
Proof.
  induction l as [|[id r] l IH]; intros urls ordinals seen; cbn [fold_res].
  { unfold urls_of, ordinals_of. split.
    - intros [= <-]. exists []. split_and!; [constructor|apply fresh_items_nil|cbn; by rewrite !union_empty_l_L].
    - intros (its & ->%Forall2_nil_inv_l & _ & ->). cbn. by rewrite !union_empty_l_L. }
  rewrite rbind_ok. cbn [fst snd]. split.
  - intros (s1 & (i & Hrec & (H1 & H2 & H3 & ->)%coordinates_exact)%record_exact & (its & Hits & Hfr & ->)%IH).
    exists (i :: its). split_and!; [by constructor|by apply fresh_items_cons|].
    unfold urls_of, ordinals_of. cbn. f_equal; set_solver.
  - intros (its' & (i & its & Hrec & Hits & ->)%Forall2_cons_inv_l & (H1 & H2 & H3 & H4)%fresh_items_cons & ->).
    eexists. split; [apply record_exact; exists i; split; [done|by apply coordinates_exact]|].
    apply IH. exists its. split_and!; [done|done|]. unfold urls_of, ordinals_of. cbn. f_equal; set_solver.
Qed.

(** ** All the pages of a checkpoint *)

Definition job_items m : list CrawlFrontierItem :=
  omap (fun kv => record_item kv.2) (map_to_list (rm_jobs m)).
Definition items m : list CrawlFrontierItem := job_items m ++ rm_frontier m.

Lemma fresh_items_app q l1 : forall urls ordinals l2,
  fresh_items q urls ordinals (l1 ++ l2) <->
  fresh_items q urls ordinals l1 /\ fresh_items q (urls_of l1 ∪ urls) (ordinals_of l1 ∪ ordinals) l2.
Proof.
  induction l1 as [|i l1 IH]; intros urls ordinals l2.
  { unfold urls_of, ordinals_of. cbn. rewrite !union_empty_l_L. split; [|by intros [_ ?]].
    intros Hf. by split; [apply fresh_items_nil|]. }
  rewrite <- app_comm_cons, !fresh_items_cons, IH.
  replace (urls_of (i :: l1) ∪ urls) with (urls_of l1 ∪ ({[fi_url i]} ∪ urls))
    by (unfold urls_of; cbn; set_solver).
  replace (ordinals_of (i :: l1) ∪ ordinals) with (ordinals_of l1 ∪ ({[fi_ordinal i]} ∪ ordinals))
    by (unfold ordinals_of; cbn; set_solver).
  tauto.
Qed.

#[export] Instance fresh_items_perm q urls ordinals :
  Proper ((≡ₚ) ==> iff) (fresh_items q urls ordinals).
Proof.
  intros l k Hlk. split; intros [H1 H2 H3 H4 H5]; constructor; first [by rewrite <- Hlk|by rewrite Hlk].
Qed.

Record pages_ok q m : Prop := {
  pg_records : forall id r, rm_jobs m !! id = Some r -> exists i, record_ok q id r i;
  pg_fresh : fresh_items q ∅ ∅ (items m);
  pg_zero : 0 ∈ map fi_ordinal (items m);
  pg_count : Z.of_nat (length (items m)) <= cq_maximum_pages q;
}.

Lemma job_items_records m its (P : string -> ResumeJobRecord -> CrawlFrontierItem -> Prop) :
  (forall id r i, P id r i -> record_item r = Some i) ->
  Forall2 (fun kv i => P kv.1 kv.2 i) (btree_iter (rm_jobs m)) its -> its ≡ₚ job_items m.
Proof.
  intros HP Hits. unfold job_items, btree_iter in *.
  rewrite <- (merge_sort_Permutation key_le (map_to_list (rm_jobs m))).
  induction Hits as [|kv i l its Hkv _ IH]; [done|].
  cbn. rewrite (HP _ _ _ Hkv). by constructor.
Qed.

Lemma length_job_items m :
  (forall id r, rm_jobs m !! id = Some r -> is_Some (record_item r)) ->
  length (job_items m) = size (rm_jobs m).
Proof.
  intros Hall. unfold job_items. rewrite <- length_map_to_list.
  assert (Hl : Forall (fun kv : string * ResumeJobRecord => is_Some (record_item kv.2)) (map_to_list (rm_jobs m))).
  { apply list.Forall_forall. intros [id r] Hin%elem_of_map_to_list. eauto. }
  induction Hl as [|kv l [i Hi] _ IH]; [done|]. cbn. rewrite Hi. cbn. by rewrite IH.
Qed.

Lemma manifest_exact q m :
  in_u32 (cq_maximum_pages q) ->
  validate_crawl_manifest m q = Ok tt <->
  pages_ok q m /\ rm_pending m = map fi_url (rm_frontier m).
Proof.
  intros Hu32. unfold validate_crawl_manifest. cbv zeta. fold (crawl_root q).
  assert (Htot : forall n, (cq_maximum_pages q <? saturating_add usize_max (Z.of_nat (size (rm_jobs m))) n) = false <->
    Z.of_nat (size (rm_jobs m)) + n <= cq_maximum_pages q).
  { intros n. rewrite Z.ltb_ge. unfold saturating_add. ranges. lia. }
  rewrite refuse_ok, Htot, rbind_ok. setoid_rewrite records_fold. split.
  - intros (Hcount & seen1 & (its & Hits & Hfr1 & ->) & (seen2 & Hfr2 & Hrest)%rbind_ok).
    apply coordinates_fold in Hfr2 as [Hfr2 ->]. apply refuse_ok in Hrest as [Hz Hrest].
    apply refuse_ok in Hrest as [Hp _]. apply bool_decide_eq_false, dec_stable in Hp.
    apply negb_false_iff, bool_decide_eq_true in Hz. split; [|done].
    assert (Hperm : its ≡ₚ job_items m) by (eapply job_items_records; [|exact Hits]; by intros id r i (_ & ? & _)).
    assert (Hrecs : forall id r, rm_jobs m !! id = Some r -> exists i, record_ok q id r i).
    { intros id r Hin%btree_iter_elem. apply list_elem_of_lookup in Hin as (k & Hk).
      destruct (Forall2_lookup_l _ _ _ _ _ Hits Hk) as (i & _ & Hi). by exists i. }
    constructor; [done| | |].
    + unfold items. rewrite <- Hperm. by apply fresh_items_app.
    + unfold items. rewrite <- Hperm, map_app, elem_of_app. cbn in Hz. unfold ordinals_of in Hz. set_solver.
    + unfold items. rewrite length_app, length_job_items; [lia|].
      intros id r (i & _ & Hi & _)%Hrecs. by rewrite Hi.
  - intros [[Hrecs Hfr Hz Hcount] Hp].
    assert (Hits : exists its, Forall2 (fun kv i => record_ok q kv.1 kv.2 i) (btree_iter (rm_jobs m)) its).
    { assert (Hall : Forall (fun kv => exists i, record_ok q kv.1 kv.2 i) (btree_iter (rm_jobs m))).
      { apply list.Forall_forall. intros [id r] Hin%btree_iter_elem. by apply Hrecs. }
      induction Hall as [|kv l [i Hi] _ [its IH]]; [by exists []|]. exists (i :: its). by constructor. }
    destruct Hits as [its Hits].
    assert (Hperm : its ≡ₚ job_items m) by (eapply job_items_records; [|exact Hits]; by intros id r i (_ & ? & _)).
    unfold items in *. rewrite <- Hperm in Hfr. apply fresh_items_app in Hfr as [Hfr1 Hfr2].
    rewrite length_app, length_job_items in Hcount by (intros id r (i & _ & Hi & _)%Hrecs; by rewrite Hi).
    split; [lia|]. eexists. split; [by exists its|].
    rewrite (proj2 (coordinates_fold q (rm_frontier m) _ _ _)) by (by split). cbn [rbind snd].
    rewrite bool_decide_eq_true_2.
    2: { rewrite map_app, elem_of_app in Hz. rewrite <- Hperm in Hz. unfold ordinals_of. set_solver. }
    cbn [negb]. by rewrite bool_decide_eq_false_2 by auto.
Qed.

End Crawl.
