(* ===== verification/CrawlRun.v ===== *)
(** * Crawls: what every page preserves

    The invariant of a crawl, the pages a captured page adds, and the rounds. *)

From Stdlib Require Import ZArith Lia Ascii String.
From stdpp Require Import base tactics list gmap strings numbers sorting.
From S2P Require Import Prelude.
From S2P Require Import Errors.
From S2P Require Import Fs.
From S2P Require Import Records.
From S2P Require Import Budget.
From S2P Require Import Network.
From S2P Require Import Requests.
From S2P Require Import Names.
From S2P Require Import Schedule.
From S2P Require Import Scheduler.
From S2P Require Import BatchFacts.
From S2P Require Import CrawlFacts.

#[local] Open Scope string_scope.
#[local] Open Scope list_scope.
#[local] Open Scope Z_scope.

Section CrawlRun.
Context `{Hh : Hashing} `{Hu : UrlLib} `{Hj : Json} `{Hc : Unicode}.
Implicit Types (q : CrawlRequest) (m : ResumeManifest) (i item : CrawlFrontierItem) (s : CrawlState).

(** ** Links *)

Record link_ok q (u : url) : Prop := {
  lk_scheme : url_scheme u ∈ ["http"; "https"];
  lk_fragment : url_fragment u = None;
  lk_origin : cq_same_origin q = true -> url_origin u = url_origin (rq_url (cq_seed q));
}.

(** Numbers from [k] on. *)
Fixpoint count_up (k : Z) (n : nat) : list Z :=
  match n with O => [] | S n' => k :: count_up (k + 1) n' end.

Lemma count_up_elem n : forall k x, x ∈ count_up k n <-> k <= x < k + Z.of_nat n.
Proof.
  induction n as [|n IH]; intros k x; cbn [count_up]; [rewrite elem_of_nil; lia|].
  rewrite elem_of_cons, IH. lia.
Qed.

Lemma count_up_nodup n : forall k, NoDup (count_up k n).
Proof.
  induction n as [|n IH]; intros k; cbn [count_up]; [apply base.NoDup_nil_2|].
  apply list.NoDup_cons. split; [rewrite count_up_elem; lia|apply IH].
Qed.

Record pushed (links : list url) (maximum_pages depth : Z) (seen : gset string)
    (new : list CrawlFrontierItem) : Prop := {
  pu_urls : NoDup (map fi_url new);
  pu_unseen : Forall (fun i => fi_url i ∉ seen) new;
  pu_links : Forall (fun i => fi_url i ∈ links) new;
  pu_depth : Forall (fun i => fi_depth i = saturating_add u16_max depth 1) new;
  pu_ordinals : map fi_ordinal new = count_up (Z.of_nat (size seen)) (length new);
  pu_count : new = [] \/ Z.of_nat (size seen + length new) <= maximum_pages;
}.

Lemma push_links_spec maximum_pages depth links :
  maximum_pages <= u32_max ->
  forall seen frontier,
  let '(seen', frontier') := push_links maximum_pages depth links seen frontier in
  exists new, frontier' = frontier ++ new /\ seen' = urls_of new ∪ seen /\
    pushed links maximum_pages depth seen new.
Proof.
  intros Hmax. induction links as [|link links IH]; intros seen frontier; cbn [push_links].
  { exists []. rewrite app_nil_r. unfold urls_of. cbn. rewrite union_empty_l_L.
    split_and!; [done..|]. constructor; auto; constructor. }
  assert (Hnone : exists new, frontier = frontier ++ new /\ seen = urls_of new ∪ seen /\
    pushed (link :: links) maximum_pages depth seen new).
  { exists []. rewrite app_nil_r. unfold urls_of. cbn. rewrite union_empty_l_L.
    split_and!; [done..|]. constructor; auto; constructor. }
  destruct (Z.leb_spec maximum_pages (Z.of_nat (size seen))) as [Hfull|Hroom]; [done|].
  assert (Hmono : forall k seen' new, pushed links maximum_pages depth seen' new -> k = link :: links ->
    Forall (fun i => fi_url i ∈ k) new).
  { intros k seen' new [] ->. eapply Forall_impl; [exact pu_links0|]. intros x Hx. by right. }
  case_bool_decide as Hin.
  - specialize (IH seen frontier). destruct (push_links _ _ _ _ _) as [seen' frontier'].
    destruct IH as (new & -> & -> & Hp). exists new. split_and!; [done..|].
    assert (Hk := Hmono _ _ _ Hp eq_refl). destruct Hp. by constructor.
  - set (it := MkItem link _ _).
    specialize (IH ({[link]} ∪ seen) (frontier ++ [it])).
    destruct (push_links _ _ _ _ _) as [seen' frontier'].
    destruct IH as (new & -> & -> & Hp). exists (it :: new).
    rewrite <- app_assoc. split; [done|]. split; [unfold urls_of; cbn; set_solver|].
    assert (Hk := Hmono _ _ _ Hp eq_refl).
    assert (Hsize : size ({[link]} ∪ seen) = S (size seen)) by (rewrite size_union, size_singleton; [lia|set_solver]).
    destruct Hp as [P1 P2 P3 P4 P5 P6]. rewrite Hsize in *.
    constructor.
    + cbn. apply list.NoDup_cons. split; [|done]. rewrite list_elem_of_fmap. intros (y & Heq & Hy).
      rewrite list.Forall_forall in P2. specialize (P2 y Hy). set_solver.
    + constructor; [done|]. eapply Forall_impl; [exact P2|]. set_solver.
    + constructor; [by left|done].
    + by constructor.
    + cbn [map length count_up]. f_equal; [cbn; rewrite Hsize; unfold clamp_u32; ranges; lia|].
      rewrite P5. f_equal. lia.
    + right. cbn. destruct P6 as [->|P6]; cbn; lia.
Qed.

(** ** The invariant *)

(** Every record names its page, and its key is the URL. *)
Definition located m : Prop :=
  forall id r, rm_jobs m !! id = Some r -> exists i, record_item r = Some i /\ fi_url i = id.

Definition numbered m : Prop :=
  Forall (fun i => 0 <= fi_depth i /\ 0 <= fi_ordinal i < Z.of_nat (length (items m))) (items m).

Record crawl_inv q s : Prop := {
  cv_located : located (cs_manifest s);
  cv_fresh : fresh_items q ∅ ∅ (items (cs_manifest s));
  cv_numbered : numbered (cs_manifest s);
  cv_zero : 0 ∈ map fi_ordinal (items (cs_manifest s));
  cv_count : Z.of_nat (length (items (cs_manifest s))) <= cq_maximum_pages q;
  cv_seen : cs_seen s = urls_of (items (cs_manifest s));
}.

Lemma filter_remove (x : CrawlFrontierItem) l :
  NoDup l -> x ∈ l -> l ≡ₚ x :: List.filter (fun i => negb (bool_decide (i = x))) l.
Proof.
  induction l as [|y l IH]; intros Hnd Hin; [by apply elem_of_nil in Hin|].
  apply list.NoDup_cons in Hnd as [Hy Hnd]. cbn.
  destruct (decide (y = x)) as [->|Hne].
  - rewrite (bool_decide_eq_true_2 (x = x)) by done. cbn. constructor.
    assert (Hall : List.filter (fun i => negb (bool_decide (i = x))) l = l); [|by rewrite Hall].
    clear -Hy. induction l as [|z l IH]; [done|]. apply not_elem_of_cons in Hy as [Hz Hy].
    cbn. rewrite bool_decide_eq_false_2 by auto. cbn. f_equal. auto.
  - rewrite (bool_decide_eq_false_2 (y = x)) by done. cbn.
    apply elem_of_cons in Hin as [->|Hin]; [done|].
    rewrite (IH Hnd Hin) at 1. by constructor.
Qed.

Lemma nodup_items q m : fresh_items q ∅ ∅ (items m) -> NoDup (items m).
Proof. intros [_ Hnd _ _ _]. by eapply NoDup_fmap_1. Qed.

(** A page of the frontier has no record yet. *)
Lemma frontier_unrecorded q m item :
  located m -> fresh_items q ∅ ∅ (items m) -> item ∈ rm_frontier m -> rm_jobs m !! fi_url item = None.
Proof.
  intros Hloc [_ Hnd _ _ _] Hin. destruct (rm_jobs m !! fi_url item) as [r|] eqn:Hr; [|done]. exfalso.
  destruct (Hloc _ _ Hr) as (i & Hi & Hu').
  unfold items in Hnd. rewrite map_app in Hnd. apply list.NoDup_app in Hnd as (_ & Hdis & _).
  apply (Hdis (fi_url item)).
  - rewrite <- Hu'. apply (list_elem_of_fmap_2 fi_url). unfold job_items. apply list_elem_of_omap.
    exists (fi_url item, r). split; [by apply elem_of_map_to_list|done].
  - by apply (list_elem_of_fmap_2 fi_url).
Qed.

Lemma item_record_item item o : record_item (item_record item o) = Some item.
Proof. by destruct item. Qed.

(** The pages after a page has been recorded. *)
Lemma recorded_items q m item o frontier :
  located m -> fresh_items q ∅ ∅ (items m) -> item ∈ rm_frontier m ->
  let kept := List.filter (fun i => negb (bool_decide (i = item))) (rm_frontier m) in
  items (set_frontier (sort_frontier (kept ++ frontier))
           (set_jobs (<[fi_url item := item_record item o]> (rm_jobs m)) m)) ≡ₚ items m ++ frontier.
Proof.
  intros Hloc Hfr Hin kept. assert (Hnone := frontier_unrecorded _ _ _ Hloc Hfr Hin).
  assert (Hnd := nodup_items _ _ Hfr). unfold items in *. apply list.NoDup_app in Hnd as (_ & _ & Hnd).
  assert (Hjobs : job_items (set_frontier (sort_frontier (kept ++ frontier))
    (set_jobs (<[fi_url item := item_record item o]> (rm_jobs m)) m)) ≡ₚ item :: job_items m).
  { unfold job_items. cbn [rm_jobs rm_frontier set_frontier set_jobs].
    rewrite (map_to_list_insert _ _ _ Hnone). cbn [omap list_omap snd]. by rewrite item_record_item. }
  rewrite Hjobs. cbn [rm_frontier set_frontier]. unfold sort_frontier.
  rewrite (merge_sort_Permutation item_le), (filter_remove item (rm_frontier m)) at 1 by done. fold kept.
  rewrite <- app_assoc. cbn. by rewrite Permutation_middle.
Qed.

Lemma size_urls q m : fresh_items q ∅ ∅ (items m) -> size (urls_of (items m)) = length (items m).
Proof. intros [_ Hnd _ _ _]. unfold urls_of. rewrite size_list_to_set by done. apply length_map. Qed.

Lemma root_known q s : crawl_inv q s -> crawl_root q ∈ cs_seen s.
Proof.
  intros [_ Hfr _ Hz _ Hseen]. rewrite Hseen.
  apply list_elem_of_fmap in Hz as (i & Hi & Hin).
  assert (Hcd := fr_coords _ _ _ _ Hfr). rewrite list.Forall_forall in Hcd.
  destruct (cd_seed _ _ (Hcd i Hin)) as [Hroot _]; [by auto|]. rewrite <- Hroot.
  unfold urls_of. apply elem_of_list_to_set. by apply (list_elem_of_fmap_2 fi_url).
Qed.

(** The new pages have valid coordinates. *)
Lemma pushed_coords q s links item new :
  crawl_inv q s -> item ∈ items (cs_manifest s) -> fi_depth item < cq_maximum_depth q ->
  Forall (link_ok q) links ->
  pushed links (cq_maximum_pages q) (fi_depth item) (cs_seen s) new -> Forall (coord_ok q) new.
Proof.
  intros Hinv Hin Hdepth Hlinks [P1 P2 P3 P4 P5 P6]. assert (Hroot := root_known _ _ Hinv).
  destruct Hinv as [_ Hfr Hnum Hz Hcount Hseen]. unfold numbered in Hnum.
  assert (Hsize := size_urls _ _ Hfr). rewrite <- Hseen in Hsize.
  assert (Hpos : (0 < length (items (cs_manifest s)))%nat).
  { destruct (items (cs_manifest s)); [by apply elem_of_nil in Hz|cbn; lia]. }
  foralls. apply list.Forall_forall. intros i Hi.
  assert (Hord : fi_ordinal i ∈ count_up (Z.of_nat (size (cs_seen s))) (length new))
    by (rewrite <- P5; by apply (list_elem_of_fmap_2 fi_ordinal)).
  apply count_up_elem in Hord. destruct (Hlinks _ (P3 i Hi)) as [L1 L2 L3].
  destruct (Hnum _ Hin) as [Hd0 _]. assert (Hd := P4 i Hi). unfold saturating_add in Hd.
  constructor; auto.
  - intros [Hd'|[Ho'|Hu']]; [ranges; lia|lia|]. destruct (P2 i Hi). by rewrite Hu'.
  - lia.
  - destruct P6 as [->|P6]; [by apply elem_of_nil in Hi|lia].
Qed.

Lemma extend_inv q s links item new m' fresh d :
  crawl_inv q s -> item ∈ items (cs_manifest s) -> fi_depth item < cq_maximum_depth q ->
  Forall (link_ok q) links ->
  pushed links (cq_maximum_pages q) (fi_depth item) (cs_seen s) new ->
  located m' -> items m' ≡ₚ items (cs_manifest s) ++ new ->
  crawl_inv q (MkState m' (urls_of new ∪ cs_seen s) fresh d).
Proof.
  intros Hinv Hin Hdepth Hlinks Hp Hloc Hperm.
  assert (Hcoords := pushed_coords _ _ _ _ _ Hinv Hin Hdepth Hlinks Hp).
  destruct Hinv as [_ Hfr Hnum Hz Hcount Hseen], Hp as [P1 P2 P3 P4 P5 P6].
  assert (Hsize := size_urls _ _ Hfr). rewrite <- Hseen in Hsize.
  assert (Hord : forall i, i ∈ new ->
    Z.of_nat (size (cs_seen s)) <= fi_ordinal i < Z.of_nat (size (cs_seen s)) + Z.of_nat (length new)).
  { intros i Hi. apply count_up_elem. rewrite <- P5. by apply (list_elem_of_fmap_2 fi_ordinal). }
  unfold numbered in Hnum. rewrite list.Forall_forall in Hnum.
  constructor; cbn [cs_manifest cs_seen].
  - done.
  - rewrite Hperm. apply fresh_items_app. split; [done|]. constructor.
    + done.
    + done.
    + rewrite P5. apply count_up_nodup.
    + rewrite union_empty_r_L, <- Hseen. done.
    + apply list.Forall_forall. intros i Hi. rewrite union_empty_r_L. unfold ordinals_of.
      rewrite elem_of_list_to_set, list_elem_of_fmap. intros (j & Heq & Hj').
      specialize (Hord i Hi). destruct (Hnum j Hj') as [_ ?]. lia.
  - unfold numbered. rewrite (Permutation_length Hperm), length_app, Hperm. apply Forall_app. split; apply list.Forall_forall; intros i Hi.
    + specialize (Hnum i Hi). lia.
    + specialize (Hord i Hi). rewrite list.Forall_forall in P4. specialize (P4 i Hi).
      destruct (Hnum item Hin) as [? _]. unfold saturating_add in P4. ranges. lia.
  - rewrite Hperm, map_app, elem_of_app. by left.
  - rewrite Hperm, length_app. destruct P6 as [->|P6]; cbn; lia.
  - rewrite Hseen. unfold urls_of. rewrite Hperm, map_app, list_to_set_app_L. set_solver.
Qed.

(** ** One page *)

Lemma crawl_page_inv q links item o s s' d :
  in_u32 (cq_maximum_pages q) ->
  crawl_inv q s -> item ∈ rm_frontier (cs_manifest s) ->
  (forall receipt l, links receipt (fi_url item) = Ok l -> Forall (link_ok q) l) ->
  crawl_page q links item o s = (Ok s', d) ->
  let m := cs_manifest s in
  let kept := List.filter (fun i => negb (bool_decide (i = item))) (rm_frontier m) in
  exists new,
    crawl_inv q s' /\ items (cs_manifest s') ≡ₚ items m ++ new /\
    cs_manifest s' = persist_crawl_pending (set_frontier (sort_frontier (kept ++ new))
                       (set_jobs (<[fi_url item := item_record item o]> (rm_jobs m)) m)) /\
    cs_fresh s' = <[fi_url item := o]> (cs_fresh s) /\ cs_disk s' = d /\
    persist_manifest_if_configured (is_some (cq_resume q)) (cs_manifest s') (cs_disk s)
      = (Ok (cs_manifest s'), d).
Proof.
  intros [_ Hmax] Hinv Hin Hlinks Hpage m kept. unfold crawl_page in Hpage. fold m kept in Hpage.
  destruct Hinv as [Hloc Hfr Hnum Hz Hcount Hseen] eqn:Ei. clear Ei.
  set (jobs := <[fi_url item := item_record item o]> (rm_jobs m)) in *.
  assert (Hloc' : forall f, located (set_frontier f (set_jobs jobs m))).
  { intros f id r. cbn. unfold jobs. destruct (decide (id = fi_url item)) as [->|Hne].
    - rewrite lookup_insert_eq. intros [= <-]. exists item. by rewrite item_record_item.
    - rewrite lookup_insert_ne by done. apply Hloc. }
  set (discovered := match o with OSucceeded _ _ _ => _ | _ => _ end) in Hpage.
  destruct discovered as [[seen frontier]|e] eqn:Ed; [|discriminate Hpage].
  destruct (persist_manifest_if_configured _ _ _) as [[m1|e] d1] eqn:Epers; [|discriminate Hpage].
  injection Hpage as <- <-.
  assert (Hm1 : m1 = persist_crawl_pending (set_frontier (sort_frontier frontier) (set_jobs jobs m))).
  { revert Epers. unfold persist_manifest_if_configured. repeat case_match; by intros [= <- _]. }
  assert (Hstay : (seen, frontier) = (cs_seen s, kept) \/
    exists l new, fi_depth item < cq_maximum_depth q /\ Forall (link_ok q) l /\
      pushed l (cq_maximum_pages q) (fi_depth item) (cs_seen s) new /\
      seen = urls_of new ∪ cs_seen s /\ frontier = kept ++ new).
  { unfold discovered in Ed. destruct o as [id dg receipt|id dg e|id r]; [|left; congruence..].
    destruct (Z.ltb_spec (fi_depth item) (cq_maximum_depth q)) as [Hlt|Hge]; [|left; congruence].
    apply rbind_ok in Ed as (l & Hl & [= Hpush]). right.
    assert (Hspec := push_links_spec (cq_maximum_pages q) (fi_depth item) l Hmax (cs_seen s) kept).
    rewrite Hpush in Hspec. destruct Hspec as (new & -> & -> & Hp).
    exists l, new. split_and!; eauto. }
  assert (Hmem : item ∈ items m) by (unfold items; apply elem_of_app; by right).
  destruct Hstay as [[= -> ->]|(l & new & Hlt & Hl & Hp & -> & ->)].
  - exists []. rewrite !app_nil_r. cbn [cs_manifest cs_disk cs_fresh].
    assert (Hperm : items m1 ≡ₚ items m).
    { rewrite Hm1. assert (Hrec := recorded_items q m item o [] Hloc Hfr Hin). cbn in Hrec.
      rewrite !app_nil_r in Hrec. exact Hrec. }
    split_and!; auto; [|by rewrite <- Hm1 in Epers].
    constructor; cbn [cs_manifest cs_seen].
    + rewrite Hm1. apply Hloc'.
    + by rewrite Hperm.
    + unfold numbered. rewrite (Permutation_length Hperm), Hperm. done.
    + by rewrite Hperm.
    + by rewrite Hperm.
    + rewrite Hseen. unfold urls_of. by rewrite Hperm.
  - exists new. cbn [cs_manifest cs_disk cs_fresh].
    assert (Hperm : items m1 ≡ₚ items m ++ new).
    { rewrite Hm1. exact (recorded_items q m item o new Hloc Hfr Hin). }
    split_and!; auto; [|by rewrite <- Hm1 in Epers].
    eapply extend_inv; eauto. rewrite Hm1. apply Hloc'.
Qed.

(** ** A round *)

Lemma length_items q s :
  crawl_inv q s ->
  length (items (cs_manifest s)) =
    (size (rm_jobs (cs_manifest s)) + length (rm_frontier (cs_manifest s)))%nat.
Proof.
  intros [Hloc _ _ _ _ _]. unfold items. rewrite length_app, length_job_items; [done|].
  intros id r (i & Hi & _)%Hloc. by rewrite Hi.
Qed.

Lemma kept_elem item i l :
  i ∈ l -> i <> item -> i ∈ List.filter (fun i => negb (bool_decide (i = item))) l.
Proof.
  intros Hin Hne. apply list_elem_of_In, filter_In. split; [by apply list_elem_of_In|].
  by rewrite bool_decide_eq_false_2.
Qed.

(** A property [G] of states that every page of a round keeps, and a property
    [D] of checkpoints that holds whatever happens to it. *)
Section Pages.
Context (q : CrawlRequest) (links : CaptureReceipt -> url -> Res (list url)).
Context (P : CrawlFrontierItem -> ScheduledCaptureOutcome -> Prop).
Context (G : CrawlState -> Prop) (D : Disk -> Prop).
Context (Hmax : in_u32 (cq_maximum_pages q)).
Context (Hlinks : forall receipt u l, links receipt u = Ok l -> Forall (link_ok q) l).
Context (HG : forall s, G s -> D (cs_disk s)).
Context (Hpage : forall s item o, crawl_inv q s -> G s -> item ∈ rm_frontier (cs_manifest s) -> P item o ->
  match crawl_page q links item o s with
  | (Ok s', d) => G s'
  | (Err _, d) => D d
  end).

Lemma crawl_pages_inv results : forall s,
  crawl_inv q s -> G s ->
  NoDup (map fst results) ->
  Forall (fun io => io.1 ∈ rm_frontier (cs_manifest s)) results ->
  Forall (fun io => P io.1 io.2) results ->
  match crawl_pages q links results s with
  | (Ok s', d) =>
      crawl_inv q s' /\ G s' /\ cs_disk s' = d /\
      size (rm_jobs (cs_manifest s')) = (size (rm_jobs (cs_manifest s)) + length results)%nat
  | (Err _, d) => D d
  end.
Proof using All.
  induction results as [|[item o] results IH]; intros s Hinv Hs Hnd Hin HP; cbn [crawl_pages].
  { split_and!; auto. }
  cbn in Hnd. apply list.NoDup_cons in Hnd as [Hitem Hnd].
  apply Forall_cons_iff in Hin as [Hi Hin]. apply Forall_cons_iff in HP as [Hp HP]. cbn in Hi, Hp.
  assert (Hkeep := Hpage s item o Hinv Hs Hi Hp).
  destruct (crawl_page q links item o s) as [[s1|e] d] eqn:Epage; [|done].
  destruct (crawl_page_inv q links item o s s1 d Hmax Hinv Hi) as (new & Hinv1 & _ & Hm1 & _ & Hd & _);
    [intros receipt l; apply Hlinks|done|].
  assert (Hin1 : Forall (fun io => io.1 ∈ rm_frontier (cs_manifest s1)) results).
  { rewrite Hm1. cbn. unfold sort_frontier. foralls. apply list.Forall_forall. intros [i o'] Hio. cbn.
    rewrite (merge_sort_Permutation item_le), elem_of_app. left. apply kept_elem; [by apply (Hin (i, o'))|].
    intros ->. apply Hitem. by apply (list_elem_of_fmap_2 fst _ (item, o')). }
  assert (Hsize : size (rm_jobs (cs_manifest s1)) = S (size (rm_jobs (cs_manifest s)))).
  { rewrite Hm1. cbn. rewrite map_size_insert_None; [done|].
    destruct Hinv. by eapply frontier_unrecorded. }
  specialize (IH s1 Hinv1 Hkeep Hnd Hin1 HP).
  destruct (crawl_pages q links results s1) as [[s2|e] d2]; [|done].
  destruct IH as (G1 & G2 & G3 & G4). split_and!; auto. cbn [length]. lia.
Qed.

End Pages.

Lemma sort_inv q s :
  crawl_inv q s ->
  crawl_inv q (MkState (set_frontier (sort_frontier (rm_frontier (cs_manifest s))) (cs_manifest s))
                 (cs_seen s) (cs_fresh s) (cs_disk s)).
Proof.
  intros [H1 H2 H3 H4 H5 H6].
  assert (Hperm : items (set_frontier (sort_frontier (rm_frontier (cs_manifest s))) (cs_manifest s))
                  ≡ₚ items (cs_manifest s)).
  { unfold items, job_items, sort_frontier. cbn. by rewrite (merge_sort_Permutation item_le). }
  constructor; cbn [cs_manifest cs_seen]; try (by rewrite Hperm); auto.
  - unfold numbered. rewrite (Permutation_length Hperm), Hperm. done.
  - rewrite H6. unfold urls_of. by rewrite Hperm.
Qed.

Lemma take_while_prefix {A} (f : A -> bool) x l :
  f x = true -> (0 < length (take_while f (x :: l)) <= length (x :: l))%nat.
Proof.
  intros Hx. cbn. rewrite Hx. cbn.
  assert (Hle : (length (take_while f l) <= length l)%nat); [|lia].
  clear. induction l as [|y l IH]; cbn; [lia|]. destruct (f y); cbn; lia.
Qed.

(** A round captures at least one page, all of the frontier. *)
Lemma active_items_spec q m :
  0 < cq_concurrency q -> rm_frontier m <> [] ->
  Z.of_nat (size (rm_jobs m)) < cq_maximum_pages q ->
  active_items q m `prefix_of` rm_frontier m /\ active_items q m <> [].
Proof.
  intros Hpos Hne Hroom. unfold active_items. destruct (rm_frontier m) as [|i l] eqn:Ef; [done|].
  set (f := fun j => fi_depth j =? fi_depth i).
  assert (Hlev := take_while_prefix f i l (Z.eqb_refl _)).
  set (level := take_while f (i :: l)) in *.
  set (width := Z.to_nat _). assert (Hw : (0 < width)%nat).
  { unfold width, saturating_sub, clamp_u32. cbn [length] in *. ranges. lia. }
  split; [eexists; symmetry; apply take_drop|]. destruct width; [lia|]. done.
Qed.

(** ** The loop *)

Section Loop.
Context (q : CrawlRequest) (answers : nat -> CrawlFrontierItem -> JobAnswer).
Context (links : nat -> CaptureReceipt -> url -> Res (list url)).
Context (G : CrawlState -> Prop) (D : Disk -> Prop).
Context (Hmax : in_u32 (cq_maximum_pages q)) (Hconc : 0 < cq_concurrency q).
Context (Hlinks : forall k receipt u l, links k receipt u = Ok l -> Forall (link_ok q) l).
Context (HG : forall s, G s -> D (cs_disk s)).
Context (Hsort : forall s, G s ->
  G (MkState (set_frontier (sort_frontier (rm_frontier (cs_manifest s))) (cs_manifest s))
       (cs_seen s) (cs_fresh s) (cs_disk s))).
Context (Hpage : forall k s item, crawl_inv q s -> G s -> item ∈ rm_frontier (cs_manifest s) ->
  match crawl_page q (links k) item (item_outcome q (answers k item) item) s with
  | (Ok s', d) => G s'
  | (Err _, d) => D d
  end).

Lemma round_inv round s :
  crawl_inv q s -> G s -> rm_frontier (cs_manifest s) <> [] ->
  Z.of_nat (size (rm_jobs (cs_manifest s))) < cq_maximum_pages q ->
  match crawl_pages q (links round)
          (map (fun i => (i, item_outcome q (answers round i) i)) (active_items q (cs_manifest s))) s with
  | (Ok s', d) =>
      crawl_inv q s' /\ G s' /\ cs_disk s' = d /\
      (size (rm_jobs (cs_manifest s)) < size (rm_jobs (cs_manifest s')))%nat
  | (Err _, d) => D d
  end.
Proof using All.
  intros Hinv Hs Hne Hroom. set (m := cs_manifest s) in *.
  destruct (active_items_spec q m Hconc Hne Hroom) as [[rest Hpre] Hact].
  set (results := map _ (active_items q m)).
  assert (Hfst : map fst results = active_items q m) by (unfold results; rewrite map_map; apply map_id).
  assert (Hnd : NoDup (map fst results)).
  { assert (Hn := nodup_items _ _ (cv_fresh _ _ Hinv)). unfold items in Hn. fold m in Hn.
    apply list.NoDup_app in Hn as (_ & _ & Hn). rewrite Hpre in Hn. rewrite Hfst.
    by apply list.NoDup_app in Hn as [? _]. }
  assert (Hin : Forall (fun io => io.1 ∈ rm_frontier m) results).
  { apply list.Forall_forall. intros io Hio. rewrite Hpre, elem_of_app. left.
    rewrite <- Hfst. by apply (list_elem_of_fmap_2 fst). }
  assert (HP : Forall (fun io => io.2 = item_outcome q (answers round io.1) io.1) results)
    by (unfold results; by apply Forall_fmap, list.Forall_forall).
  assert (Hpages := crawl_pages_inv q (links round)
    (fun i o => o = item_outcome q (answers round i) i) G D Hmax (Hlinks round) HG
    ltac:(intros s2 item o H1 H2 H3 ->; by apply Hpage) results s Hinv Hs Hnd Hin HP).
  destruct (crawl_pages q (links round) results s) as [[s2|e] d2]; [|done].
  destruct Hpages as (Hinv2 & Hg2 & Hd2 & ->). split_and!; auto. unfold results. rewrite length_map.
  destruct (active_items q m); [done|]. fold m. cbn [length]. lia.
Qed.

(** The loop ends with enough fuel for the pages that are left, with nothing
    left in the frontier. *)
Lemma crawl_loop_inv fuel : forall round s,
  crawl_inv q s -> G s ->
  cq_maximum_pages q <= Z.of_nat (fuel + size (rm_jobs (cs_manifest s))) ->
  exists res, crawl_loop fuel q answers links round s = Some res /\
    match res with
    | (Ok s', d) => crawl_inv q s' /\ G s' /\ cs_disk s' = d /\ rm_frontier (cs_manifest s') = []
    | (Err _, d) => D d
    end.
Proof using All.
  assert (Hend : forall s, crawl_inv q s ->
    bool_decide (rm_frontier (cs_manifest s) = [])
    || (cq_maximum_pages q <=? Z.of_nat (size (rm_jobs (cs_manifest s)))) = true ->
    rm_frontier (cs_manifest s) = []).
  { intros s Hinv Hstop. apply orb_true_iff in Hstop as [Hstop|Hstop]; [by apply bool_decide_eq_true in Hstop|].
    apply Z.leb_le in Hstop. assert (Hlen := length_items _ _ Hinv). assert (Hcount := cv_count _ _ Hinv).
    destruct (rm_frontier (cs_manifest s)); [done|]. cbn in Hlen. lia. }
  induction fuel as [|fuel IH]; intros round s Hinv Hs Hfuel; cbn [crawl_loop].
  - destruct (_ || _) eqn:Estop; [eexists; split; [done|]; split_and!; eauto|].
    apply orb_false_iff in Estop as [_ Hroom]. apply Z.leb_gt in Hroom. cbn in Hfuel. lia.
  - destruct (_ || _) eqn:Estop; [eexists; split; [done|]; split_and!; eauto|].
    apply orb_false_iff in Estop as [Hne Hroom]. apply Z.leb_gt in Hroom.
    apply bool_decide_eq_false in Hne.
    set (m1 := set_frontier (sort_frontier (rm_frontier (cs_manifest s))) (cs_manifest s)).
    set (s1 := MkState m1 (cs_seen s) (cs_fresh s) (cs_disk s)).
    assert (Hinv1 : crawl_inv q s1) by (by apply sort_inv).
    assert (Hne1 : rm_frontier m1 <> []).
    { cbn. intros Hnil. apply Hne. apply Permutation_nil. rewrite <- Hnil. unfold sort_frontier.
      by rewrite (merge_sort_Permutation item_le). }
    set (results := map (fun i => (i, item_outcome q (answers round i) i)) (active_items q m1)).
    assert (Hpages := round_inv round s1 Hinv1 (Hsort _ Hs) Hne1 Hroom).
    cbn [s1 cs_manifest] in Hpages. fold results in Hpages.
    destruct (crawl_pages q (links round) results s1) as [[s2|e] d2]; [|eexists; split; [reflexivity|]; exact Hpages].
    destruct Hpages as (Hinv2 & Hg2 & Hd2 & Hsize2). apply IH; [done|done|].
    cbn [s1 cs_manifest m1 rm_jobs set_frontier] in Hsize2. lia.
Qed.

End Loop.

End CrawlRun.
