(* ===== verification/CrawlResume.v ===== *)
(** * Crawls: loading, ending and checkpoints

    A crawl terminates, returns every page it knows once, numbered from the
    seed on, within its limits, and every checkpoint it writes is accepted when
    the same crawl is run again. *)

From Stdlib Require Import ZArith Lia Ascii String.
From stdpp Require Import base tactics list gmap strings numbers sorting.
From S2P Require Import Prelude.
From S2P Require Import Errors.
From S2P Require Import Fs.
From S2P Require Import Records.
From S2P Require Import Budget.
From S2P Require Import Network.
From S2P Require Import Requests.
From S2P Require Import Names.
From S2P Require Import Schedule.
From S2P Require Import Scheduler.
From S2P Require Import BatchFacts.
From S2P Require Import CrawlFacts.
From S2P Require Import CrawlRun.
From S2P Require Import BatchResume.

#[local] Open Scope string_scope.
#[local] Open Scope list_scope.
#[local] Open Scope Z_scope.

Section CrawlResume.
Context `{Hh : Hashing} `{Hu : UrlLib} `{Hj : Json} `{Hc : Unicode} `{Hr : PageReader}.
Context {Hlaws : UrlLaws}.
Implicit Types (q : CrawlRequest) (m : ResumeManifest) (s : CrawlState).

(** ** The links of a page *)

Lemma element_link_ok q base e u :
  element_link base (cq_same_origin q) (rq_url (cq_seed q)) e = Some u -> link_ok q u.
Proof.
  unfold element_link. destruct (negb _); [done|]. destruct (is_nofollow e); [done|].
  intros (href & _ & (link & _ & Hl)%bind_Some)%bind_Some. revert Hl.
  unfold normalized_page_url. case_bool_decide as Hs; [|done].
  destruct (cq_same_origin q && _) eqn:Ho; [done|]. intros [= <-].
  constructor; [by rewrite scheme_kept|apply fragment_removed|].
  intros Hso. rewrite Hso in Ho. cbn in Ho. by apply bool_decide_eq_false, dec_stable in Ho.
Qed.

Lemma crawl_links_ok q read receipt requested l :
  crawl_links read receipt requested (cq_same_origin q) (rq_url (cq_seed q)) = Ok l ->
  Forall (link_ok q) l.
Proof.
  unfold crawl_links. intros (content & _ & (final & _ & [= <-])%rbind_ok)%rbind_ok.
  apply list.Forall_forall. intros u. rewrite (merge_sort_Permutation string_le).
  rewrite elem_of_elements, elem_of_list_to_set, list_elem_of_omap.
  intros (e & _ & He). by eapply element_link_ok.
Qed.

(** ** Loading *)

Lemma dedup_urls_id l : forall last,
  NoDup (map fi_url l) -> Forall (fun i => last <> Some (fi_url i)) l -> dedup_urls last l = l.
Proof.
  induction l as [|i l IH]; intros last Hnd Hl; cbn; [done|].
  cbn in Hnd. apply list.NoDup_cons in Hnd as [Hi Hnd]. apply Forall_cons_iff in Hl as [Hlast _].
  rewrite bool_decide_eq_false_2 by done. f_equal. apply IH; [done|].
  apply list.Forall_forall. intros j Hj' [= Heq]. apply Hi. rewrite Heq.
  by apply (list_elem_of_fmap_2 fi_url).
Qed.

Definition items_of (jobs : gmap string ResumeJobRecord) : list CrawlFrontierItem :=
  omap (fun kv => record_item kv.2) (map_to_list jobs).

Lemma requeue_fold current retry keys : forall jobs requeue jobs' requeue',
  fold_res (requeue_record current retry) keys (jobs, requeue) = Ok (jobs', requeue') ->
  jobs' ⊆ jobs /\ items_of jobs' ++ requeue' ≡ₚ items_of jobs ++ requeue.
Proof.
  induction keys as [|key keys IH]; intros jobs requeue jobs' requeue'; cbn [fold_res].
  { by intros [= <- <-]. }
  intros ([jobs1 requeue1] & Hstep & [Hsub Hperm]%IH)%rbind_ok.
  assert (Hone : jobs1 ⊆ jobs /\ items_of jobs1 ++ requeue1 ≡ₚ items_of jobs ++ requeue).
  { revert Hstep. unfold requeue_record. destruct (jobs !! key) as [r|] eqn:Hk; [|by intros [= <- <-]].
    case_match; [|by intros [= <- <-]].
    destruct (rj_url r) as [u|] eqn:E1, (rj_depth r) as [dp|] eqn:E2, (rj_ordinal r) as [on|] eqn:E3;
      try done.
    intros [= <- <-]. split; [apply delete_subseteq|].
    unfold items_of at 2. rewrite <- (map_to_list_delete _ _ _ Hk). cbn [omap list_omap snd].
    assert (Hi : record_item r = Some (MkItem u dp on)) by (unfold record_item; by rewrite E1, E2, E3).
    rewrite Hi. cbn [app].
    rewrite app_assoc, (Permutation_app_comm _ [_]). done. }
  destruct Hone as [Hsub1 Hperm1]. split; [by etrans|by rewrite Hperm, Hperm1].
Qed.

Lemma requeue_runs current retry keys : forall jobs requeue,
  (forall id r, jobs !! id = Some r -> exists i, record_item r = Some i) ->
  exists res, fold_res (requeue_record current retry) keys (jobs, requeue) = Ok res.
Proof.
  induction keys as [|key keys IH]; intros jobs requeue Hloc; cbn [fold_res]; [by eexists|].
  unfold requeue_record at 1. destruct (jobs !! key) as [r|] eqn:Hk; cbn [rbind]; [|by apply IH].
  case_match; cbn [rbind]; [|by apply IH].
  destruct (Hloc _ _ Hk) as (i & Hi). unfold record_item in Hi.
  destruct (rj_url r), (rj_depth r), (rj_ordinal r); try done. cbn [rbind].
  apply IH. intros id r' [_ Hid]%lookup_delete_Some. by eapply Hloc.
Qed.

(** Requeueing moves pages from the records to the frontier. *)
Lemma refresh_spec current q m m' :
  fresh_items q ∅ ∅ (items m) ->
  refresh_crawl_resume_state current q m = Ok m' ->
  rm_jobs m' ⊆ rm_jobs m /\ items m' ≡ₚ items m /\ rm_schema_version m' = rm_schema_version m /\
  rm_kind m' = rm_kind m /\ rm_plan_sha256 m' = rm_plan_sha256 m.
Proof.
  intros Hfr. unfold refresh_crawl_resume_state.
  intros ([jobs requeue] & [Hsub Hperm]%requeue_fold & [= <-])%rbind_ok. split; [done|].
  cbn [fst snd]. rewrite app_nil_r in Hperm.
  assert (Hall : items_of jobs ++ sort_frontier (rm_frontier m ++ requeue) ≡ₚ items m).
  { unfold sort_frontier. rewrite (merge_sort_Permutation item_le), (Permutation_app_comm (rm_frontier m)),
      app_assoc, Hperm. done. }
  assert (Hid : dedup_urls None (sort_frontier (rm_frontier m ++ requeue)) =
                sort_frontier (rm_frontier m ++ requeue)).
  { apply dedup_urls_id; [|by apply list.Forall_forall].
    assert (Hnd := fr_urls _ _ _ _ Hfr). rewrite <- Hall, map_app in Hnd. by apply list.NoDup_app in Hnd as (_ & _ & ?). }
  rewrite Hid. split_and!; [|done..]. unfold items at 1, job_items. cbn. exact Hall.
Qed.

Lemma seen_urls_ok m : located m -> crawl_seen_urls m = Ok (urls_of (items m)).
Proof.
  intros Hloc. unfold crawl_seen_urls.
  set (f := fun kv seen => _).
  assert (Hfold : forall l (X : gset string), (forall kv, kv ∈ l -> rj_url kv.2 = Some kv.1) ->
    fold_res f l X = Ok (list_to_set (map fst l) ∪ X)).
  { induction l as [|kv l IH]; intros X Hl; cbn [fold_res map list_to_set]; [by rewrite union_empty_l_L|].
    unfold f at 1. rewrite (Hl kv) by (by left). cbn [ok_or rbind].
    rewrite IH by (intros kv' Hk; apply Hl; by right). f_equal. cbn. set_solver. }
  rewrite Hfold.
  - f_equal. unfold urls_of, items. rewrite map_app, list_to_set_app_L. f_equal. apply set_eq. intros u.
    rewrite !elem_of_list_to_set, !list_elem_of_fmap. unfold job_items. split.
    + intros ([id r] & -> & Hin%btree_iter_elem). cbn. destruct (Hloc _ _ Hin) as (i & Hi & <-).
      exists i. split; [done|]. apply list_elem_of_omap. exists (fi_url i, r). split; [by apply elem_of_map_to_list|done].
    + intros (i & -> & ([id r] & Hin%elem_of_map_to_list & Hi)%list_elem_of_omap). cbn in Hi.
      destruct (Hloc _ _ Hin) as (i' & Hi' & Hid). rewrite Hi in Hi'. injection Hi' as <-.
      exists (id, r). split; [done|]. by apply btree_iter_elem.
  - intros [id r] Hin%btree_iter_elem. destruct (Hloc _ _ Hin) as (i & Hi & <-). cbn.
    unfold record_item in Hi. destruct (rj_url r), (rj_depth r), (rj_ordinal r); try done.
    by injection Hi as <-.
Qed.

Definition crawl_header plan m : Prop :=
  rm_schema_version m = PUBLIC_SCHEMA_VERSION /\ rm_kind m = KindCrawl /\ rm_plan_sha256 m = plan.

(** The pages of the checkpoint to read are numbered without gaps, as the
    crawl numbers them. *)
Definition readable env : Prop :=
  forall text m, se_read env = Ok text -> parse_manifest text = Some m -> numbered m.

Lemma seed_numbered jobs v k plan pending root :
  jobs = ∅ -> numbered (MkManifest v k plan jobs pending [MkItem root 0 0]).
Proof.
  intros ->. unfold numbered, items, job_items. cbn [rm_jobs rm_frontier]. rewrite map_to_list_empty. cbn.
  apply Forall_singleton. cbn. lia.
Qed.

Lemma load_numbered env q plan root m :
  readable env ->
  load_or_create_manifest (if is_some (cq_resume q) then Some (se_read env) else None)
    KindCrawl plan [root] [MkItem root 0 0] = Ok m ->
  crawl_header plan m /\ numbered m.
Proof.
  intros Hread. unfold load_or_create_manifest.
  destruct (is_some (cq_resume q)); [|intros [= <-]; split; [done|by apply seed_numbered]].
  intros (m1 & Hm1 & [Hhead Hrest]%refuse_ok)%rbind_ok.
  apply orb_false_iff in Hhead as [[Hv Hk]%orb_false_iff Hs].
  apply negb_false_iff, Z.eqb_eq in Hv. apply bool_decide_eq_false, dec_stable in Hk.
  apply bool_decide_eq_false, dec_stable in Hs.
  destruct (bool_decide (rm_frontier m1 = []) && _ && _) eqn:Hempty.
  - injection Hrest as <-. bool_facts. split; [done|]. by apply seed_numbered.
  - injection Hrest as <-. split; [done|].
    destruct (se_read env) as [text|[[]| |]] eqn:Er; try discriminate Hm1.
    + destruct (parse_manifest text) as [m2|] eqn:Ep; [|discriminate Hm1]. injection Hm1 as <-. by eapply Hread.
    + injection Hm1 as <-. by apply seed_numbered.
Qed.

Record loaded q plan m : Prop := {
  ld_header : crawl_header plan m;
  ld_pages : pages_ok q m;
  ld_numbered : numbered m;
  ld_pending : rm_pending m = map fi_url (rm_frontier m);
}.

Lemma record_located q id r i : record_ok q id r i -> record_item r = Some i /\ fi_url i = id.
Proof. by intros (_ & Hi & -> & _). Qed.

Lemma pages_located q m : pages_ok q m -> located m.
Proof. intros [Hrec _ _ _] id r Hl. destruct (Hrec _ _ Hl) as (i & Hi). exists i. by eapply record_located. Qed.

Lemma crawl_load_ok env q plan m :
  in_u32 (cq_maximum_pages q) -> readable env -> crawl_load env q plan = Ok m -> loaded q plan m.
Proof.
  intros Hmax Hread. unfold crawl_load.
  intros (root & _ & [_ (m0 & Hload & [Hval (m1 & Href & [= <-])%rbind_ok]%rbind_unit_ok)%rbind_ok]%rbind_unit_ok)%rbind_ok.
  apply load_numbered in Hload as [(Hv & Hk & Hs) Hnum]; [|done].
  apply manifest_exact in Hval as [Hpages _]; [|done].
  destruct (refresh_spec _ _ _ _ (pg_fresh _ _ Hpages) Href) as (Hsub & Hperm & Hv' & Hk' & Hs').
  destruct Hpages as [Hrec Hfr Hz Hcount].
  assert (Hi : items (persist_crawl_pending m1) = items m1) by done.
  constructor; rewrite ?Hi.
  - unfold crawl_header. cbn. by rewrite Hv', Hk', Hs'.
  - constructor; rewrite ?Hi; try by rewrite Hperm. cbn. intros id r Hl. apply Hrec.
    by eapply lookup_weaken.
  - unfold numbered in *. rewrite Hi. by rewrite (Permutation_length Hperm), Hperm.
  - done.
Qed.

Lemma loaded_inv q plan m fresh d :
  loaded q plan m -> crawl_inv q (MkState m (urls_of (items m)) fresh d).
Proof.
  intros [_ Hp Hn _]. assert (Hloc := pages_located _ _ Hp). destruct Hp as [_ Hfr Hz Hcount].
  by constructor.
Qed.

Lemma crawl_begin_ok env q plan d s d' :
  in_u32 (cq_maximum_pages q) -> readable env -> crawl_begin env q plan d = (Ok s, d') ->
  exists m, crawl_load env q plan = Ok m /\ loaded q plan m /\
    s = MkState m (urls_of (items m)) ∅ d' /\
    persist_manifest_if_configured (is_some (cq_resume q)) m d = (Ok m, d').
Proof.
  intros Hmax Hread. unfold crawl_begin. destruct (crawl_load env q plan) as [m|e] eqn:El; [|done].
  assert (Hl := crawl_load_ok _ _ _ _ Hmax Hread El).
  destruct (persist_manifest_if_configured _ m d) as [[m1|e] d1] eqn:Ep; [|done].
  assert (Hm1 : m1 = m) by (revert Ep; unfold persist_manifest_if_configured; repeat case_match; by intros [= <- _]).
  subst m1. rewrite (seen_urls_ok m (pages_located _ _ (ld_pages _ _ _ Hl))).
  intros [= <- <-]. eauto.
Qed.

(** ** Termination *)

Lemma crawl_plan_request env q q' plan :
  crawl_plan env q = Ok (q', plan) ->
  cq_maximum_pages q' = cq_maximum_pages q /\ cq_maximum_depth q' = cq_maximum_depth q /\
  cq_concurrency q' = cq_concurrency q /\ cq_concurrency q <> 0 /\
  cq_same_origin q' = cq_same_origin q /\ rq_url (cq_seed q') = rq_url (cq_seed q) /\
  cq_resume q' = cq_resume q.
Proof.
  unfold crawl_plan. cbv zeta.
  intros [_ [Hval [_ [_ (plan' & _ & [= <- <-])%rbind_ok]%rbind_unit_ok]%rbind_unit_ok]%rbind_unit_ok]%rbind_unit_ok.
  cbn. split_and!; try done.
  - unfold validate_crawl_request in Hval. apply refuse_ok in Hval as [_ [Hconc _]%rbind_unit_ok].
    unfold validate_concurrency in Hconc. apply refuse_ok in Hconc as [[Hz _]%orb_false_iff _].
    by apply Z.eqb_neq in Hz.
  - unfold resolve_browser. by destruct (rq_browser (cq_seed q)).
Qed.

(** What every page of a crawl keeps: each outcome is kept under its page. *)
Definition named_outcomes s : Prop := forall id o, cs_fresh s !! id = Some o -> outcome_id o = id.

Lemma item_outcome_id q answer item : outcome_id (item_outcome q answer item) = fi_url item.
Proof. unfold item_outcome. destruct (digest_serializable _); [apply job_run_id|done]. Qed.

Lemma crawl_loop_named q answers read round s :
  in_u32 (cq_maximum_pages q) -> 0 < cq_concurrency q -> crawl_inv q s -> named_outcomes s ->
  exists res, crawl_loop (Z.to_nat (cq_maximum_pages q)) q answers (page_links q read) round s = Some res /\
    match res with
    | (Ok s', d) => crawl_inv q s' /\ named_outcomes s' /\ cs_disk s' = d /\ rm_frontier (cs_manifest s') = []
    | (Err _, d) => True
    end.
Proof.
  intros Hmax Hconc Hinv Hn.
  apply (crawl_loop_inv q answers (page_links q read) named_outcomes (fun _ => True)); auto.
  - intros k receipt u l. apply crawl_links_ok.
  - intros k s1 item Hi1 Hn1 Hin.
    destruct (crawl_page _ _ _ _ _) as [[s2|e] d] eqn:Ep; [|done].
    destruct (crawl_page_inv q (page_links q read k) item (item_outcome q (answers k item) item) s1 s2 d Hmax Hi1 Hin) as (new & _ & _ & _ & Hf & _);
      [intros receipt l; apply crawl_links_ok|exact Ep|].
    intros id o. rewrite Hf. destruct (decide (id = fi_url item)) as [->|Hne].
    + rewrite lookup_insert_eq. intros [= <-]. apply item_outcome_id.
    + rewrite lookup_insert_ne by done. apply Hn1.
  - destruct Hmax. lia.
Qed.

(** C33: a crawl always ends: whatever the captures answer and the pages link
    to, the loop stops within as many rounds as pages are allowed. *)
Theorem crawl_terminates env answers read q (d : Disk) :
  in_u32 (cq_maximum_pages q) -> 0 <= cq_concurrency q -> readable env ->
  exists res d', crawl env answers read q d = Some (res, d').
Proof.
  intros Hmax Hconc Hread. unfold crawl. destruct (crawl_plan env q) as [[q' plan]|e] eqn:Ep; [|eauto].
  destruct (crawl_plan_request _ _ _ _ Ep) as (E1 & _ & E3 & Hz & _).
  destruct (crawl_begin env q' plan d) as [[s|e] d0] eqn:Eb; [|eauto].
  assert (Hmax' : in_u32 (cq_maximum_pages q')) by (by rewrite E1).
  destruct (crawl_begin_ok _ _ _ _ _ _ Hmax' Hread Eb) as (m & _ & Hl & -> & _).
  destruct (crawl_loop_named q' answers read 0 (MkState m (urls_of (items m)) ∅ d0)) as ([[s'|e] d'] & -> & _).
  - done.
  - lia.
  - by eapply loaded_inv.
  - intros id o. cbn. by rewrite lookup_empty.
  - eauto.
  - eauto.
Qed.

(** ** The result *)

Definition page_item (o : CrawlPageOutcome) : CrawlFrontierItem :=
  MkItem (po_url o) (po_depth o) (po_ordinal o).

Lemma page_outcome_ok fresh id r i :
  record_item r = Some i -> (forall o, fresh !! id = Some o -> outcome_id o = id) ->
  exists o, crawl_page_outcome fresh id r = Ok o /\ page_item o = i /\ outcome_id (po_capture o) = id.
Proof.
  intros Hi Hfresh. unfold record_item in Hi. unfold crawl_page_outcome.
  destruct (rj_url r), (rj_depth r), (rj_ordinal r); try done. injection Hi as <-.
  eexists. split; [done|]. split; [done|]. cbn. destruct (fresh !! id) eqn:Hf; [|done]. by apply Hfresh.
Qed.

Lemma crawl_end_collect q s :
  crawl_inv q s -> named_outcomes s -> rm_frontier (cs_manifest s) = [] ->
  exists outcomes,
    collect (fun kv => crawl_page_outcome (cs_fresh s) kv.1 kv.2) (btree_iter (rm_jobs (cs_manifest s)))
      = Ok outcomes /\
    map page_item outcomes ≡ₚ items (cs_manifest s) /\
    Forall (fun o => outcome_id (po_capture o) = po_url o) outcomes.
Proof.
  intros Hinv Hn Hempty. assert (Hloc := cv_located _ _ Hinv).
  assert (Hall : forall l, (forall kv, kv ∈ l -> kv ∈ btree_iter (rm_jobs (cs_manifest s))) ->
    exists outcomes, collect (fun kv => crawl_page_outcome (cs_fresh s) kv.1 kv.2) l = Ok outcomes /\
      map page_item outcomes = omap (fun kv => record_item kv.2) l /\
      Forall (fun o => outcome_id (po_capture o) = po_url o) outcomes).
  { induction l as [|[id r] l IH]; intros Hl; [by exists []|].
    destruct IH as (os & Hos & Hmap & Hids); [intros kv Hk; apply Hl; by right|].
    assert (Hid : (id, r) ∈ btree_iter (rm_jobs (cs_manifest s))) by (apply Hl; by left).
    apply btree_iter_elem in Hid. destruct (Hloc _ _ Hid) as (i & Hi & Hu').
    destruct (page_outcome_ok (cs_fresh s) id r i Hi (Hn id)) as (o & Ho & Hpi & Hoid).
    exists (o :: os). cbn [collect fst snd]. rewrite Ho. cbn [rbind]. rewrite Hos. cbn [rbind].
    split; [done|]. split; [cbn; rewrite Hi, Hpi, Hmap; done|].
    constructor; [|done]. rewrite Hoid, <- Hu', <- Hpi. done. }
  destruct (Hall (btree_iter (rm_jobs (cs_manifest s)))) as (os & Hos & Hmap & Hids); [done|].
  exists os. split_and!; [done| |done]. rewrite Hmap. unfold items, job_items, btree_iter.
  rewrite Hempty, app_nil_r. by rewrite (merge_sort_Permutation key_le).
Qed.

Lemma count_up_sorted n : forall k, Sorted Z.le (count_up k n).
Proof.
  induction n as [|n IH]; intros k; cbn [count_up]; constructor; [apply IH|].
  destruct n; cbn; constructor. lia.
Qed.

Lemma length_count_up n : forall k, length (count_up k n) = n.
Proof. induction n as [|n IH]; intros k; cbn; [done|]. by rewrite IH. Qed.

(** Distinct numbers below their count, in order, are the first numbers. *)
Lemma sorted_numbers l :
  Sorted Z.le l -> NoDup l -> Forall (fun x => 0 <= x < Z.of_nat (length l)) l ->
  l = count_up 0 (length l).
Proof.
  intros Hs Hnd Hrange. apply (Sorted_unique Z.le); [done|apply count_up_sorted|].
  assert (Hsub : l ⊆+ count_up 0 (length l)).
  { apply NoDup_submseteq; [done|]. intros x Hx. apply count_up_elem. foralls. specialize (Hrange x Hx). cbn in Hrange. lia. }
  apply submseteq_length_Permutation; [done|]. by rewrite length_count_up.
Qed.

(** The pages of the invariant, sorted by number. *)
Lemma sorted_pages q s os :
  crawl_inv q s -> map page_item os ≡ₚ items (cs_manifest s) ->
  let sorted := merge_sort ordinal_le os in
  map po_ordinal sorted = count_up 0 (length sorted) /\
  NoDup (map po_url sorted) /\
  Forall (fun o => coord_ok q (page_item o)) sorted /\
  length sorted = length (items (cs_manifest s)).
Proof.
  intros [_ [Hcd Hurls Hords _ _] Hnum _ _ _] Hperm sorted.
  assert (Hpi : map page_item sorted ≡ₚ items (cs_manifest s))
    by (unfold sorted; by rewrite (merge_sort_Permutation ordinal_le)).
  assert (Hlen : length sorted = length (items (cs_manifest s)))
    by (rewrite <- (length_map page_item); by rewrite Hpi).
  assert (Hmo : map po_ordinal sorted = map fi_ordinal (map page_item sorted)) by (by rewrite map_map).
  split_and!; [| | |done].
  - rewrite <- (length_map po_ordinal sorted). apply sorted_numbers.
    + assert (Hsorted : Sorted ordinal_le sorted)
        by (apply Sorted_merge_sort; intros x y; unfold ordinal_le; lia).
      clear -Hsorted. induction Hsorted as [|x l _ IH Hd]; cbn; constructor; [done|].
      inversion Hd; cbn; by constructor.
    + by rewrite Hmo, Hpi.
    + rewrite length_map, Hlen, Hmo, Hpi. unfold numbered in Hnum. foralls. apply list.Forall_forall.
      intros x (i & -> & Hi)%list_elem_of_fmap. by apply Hnum.
  - assert (Hmu : map po_url sorted = map fi_url (map page_item sorted)) by (by rewrite map_map).
    by rewrite Hmu, Hpi.
  - rewrite <- Hpi in Hcd. exact (proj1 (Forall_fmap _ _ _) Hcd).
Qed.

(** A finished crawl, with the request it ran. *)
Lemma crawl_finishes env answers read q (d d' : Disk) result :
  in_u32 (cq_maximum_pages q) -> 0 <= cq_concurrency q -> readable env ->
  crawl env answers read q d = Some (Ok result, d') ->
  exists q' plan s os, crawl_plan env q = Ok (q', plan) /\ crawl_inv q' s /\
    map page_item os ≡ₚ items (cs_manifest s) /\
    Forall (fun o => outcome_id (po_capture o) = po_url o) os /\
    result = crawl_result plan (merge_sort ordinal_le os).
Proof.
  intros Hmax Hconc Hread. unfold crawl. destruct (crawl_plan env q) as [[q' plan]|e] eqn:Ep; [|done].
  destruct (crawl_plan_request _ _ _ _ Ep) as (E1 & _ & E3 & Hz & _).
  destruct (crawl_begin env q' plan d) as [[s|e] d0] eqn:Eb; [|done].
  assert (Hmax' : in_u32 (cq_maximum_pages q')) by (by rewrite E1).
  destruct (crawl_begin_ok _ _ _ _ _ _ Hmax' Hread Eb) as (m & _ & Hl & -> & _).
  destruct (crawl_loop_named q' answers read 0 (MkState m (urls_of (items m)) ∅ d0))
    as ([[s'|e] d1] & -> & Hres); [done|lia|by eapply loaded_inv|intros id o; cbn; by rewrite lookup_empty| |done].
  destruct Hres as (Hinv & Hn & _ & Hempty). unfold crawl_end.
  destruct (crawl_end_collect _ _ Hinv Hn Hempty) as (os & -> & Hperm & Hids).
  intros [= <- _]. by exists q', plan, s', os.
Qed.

(** The result of a crawl lists the seed first, then every page it found:
    no URL twice, numbered without gaps in the order of the list, each with the
    outcome of its own capture, no more pages and no deeper than allowed, all
    HTTP pages without fragment and of the origin of the seed if so requested;
    and its counters add up. *)
Theorem crawl_result_pages env answers read q (d d' : Disk) result :
  in_u32 (cq_maximum_pages q) -> 0 <= cq_concurrency q -> readable env ->
  crawl env answers read q d = Some (Ok result, d') ->
  map po_ordinal (xr_outcomes result) = count_up 0 (length (xr_outcomes result)) /\
  NoDup (map po_url (xr_outcomes result)) /\
  Forall (fun o => outcome_id (po_capture o) = po_url o /\ po_depth o <= cq_maximum_depth q /\
                   link_ok q (po_url o)) (xr_outcomes result) /\
  head (map page_item (xr_outcomes result)) = Some (MkItem (crawl_root q) 0 0) /\
  Z.of_nat (length (xr_outcomes result)) <= cq_maximum_pages q /\
  xr_succeeded result + xr_failed result = Z.of_nat (length (xr_outcomes result)).
Proof.
  intros Hmax Hconc Hread Hcrawl.
  destruct (crawl_finishes _ _ _ _ _ _ _ Hmax Hconc Hread Hcrawl)
    as (q' & plan & s & os & Ep & Hinv & Hperm & Hids & ->).
  destruct (crawl_plan_request _ _ _ _ Ep) as (E1 & E2 & _ & _ & E5 & E6 & _).
  destruct (sorted_pages _ _ _ Hinv Hperm) as (Hnumbers & Hurls & Hcd & Hlen).
  cbn [xr_outcomes xr_succeeded xr_failed crawl_result].
  rewrite <- (merge_sort_Permutation ordinal_le os) in Hids.
  set (sorted := merge_sort ordinal_le os) in *. assert (Hcount := cv_count _ _ Hinv).
  split_and!; [done|done| | |lia|].
  - foralls. apply list.Forall_forall. intros o Ho. destruct (Hcd o Ho) as [C1 C2 C3 _ C5 _].
    cbn in *. rewrite E5, E6 in C3. rewrite E2 in C5. split_and!; [by apply Hids|done|by constructor].
  - assert (Hzero := cv_zero _ _ Hinv). destruct sorted as [|o rest].
    { destruct (items (cs_manifest s)); [by apply elem_of_nil in Hzero|discriminate Hlen]. }
    cbn in Hnumbers |- *. injection Hnumbers as Ho _. apply Forall_cons_iff in Hcd as [Hcd _].
    destruct (cd_seed _ _ Hcd) as (C1 & C2 & C3); [right; by left|]. unfold crawl_root in *. rewrite E6 in C1.
    unfold page_item in *. cbn in *. by rewrite C1, C2, C3.
  - assert (Hle := count_if_le (fun o => outcome_succeeded (po_capture o)) sorted).
    rewrite !clamp_small; [lia|destruct Hmax; lia..].
Qed.

(** ** Checkpoints *)

(** The captures of the crawl are delivered at the paths asked for, and
    requests can be serialised. *)
Definition delivered q (answers : nat -> CrawlFrontierItem -> JobAnswer) : Prop :=
  forall k item receipt, answers k item = Finished (Ok receipt) ->
  exists stored size sha, rc_artifact receipt = ArtifactFile stored size sha /\
    path_eqb stored (crawl_output_path q item) = true.

Definition serialisable q : Prop :=
  forall item, json_request (crawl_capture_request q item) <> None.

Lemma page_record_ok q answers k item :
  delivered q answers -> serialisable q ->
  record_ok q (fi_url item) (item_record item (item_outcome q (answers k item) item)) item.
Proof.
  intros Hdel Hser. unfold record_ok, item_outcome, digest_serializable.
  destruct (json_request (crawl_capture_request q item)) as [pieces|] eqn:Ej; [|by destruct (Hser item)].
  cbn [ok_or rbind]. specialize (Hdel k item).
  destruct (answers k item) as [|e|[receipt|e]].
  3: { destruct (Hdel receipt eq_refl) as (stored & size & sha & Hart & Heq).
       unfold item_record. cbn. rewrite Hart. destruct item. by split_and!. }
  all: destruct item; by split_and!.
Qed.

Definition disk_loaded q plan (d : Disk) : Prop := exists m, saved d = Some m /\ loaded q plan m.

Definition checkpointed q plan s : Prop :=
  crawl_header plan (cs_manifest s) /\
  (forall id r, rm_jobs (cs_manifest s) !! id = Some r -> exists i, record_ok q id r i) /\
  disk_loaded q plan (cs_disk s).

Lemma page_checkpointed q plan answers read k item s :
  in_u32 (cq_maximum_pages q) -> cq_resume q <> None -> delivered q answers -> serialisable q ->
  crawl_inv q s -> checkpointed q plan s -> item ∈ rm_frontier (cs_manifest s) ->
  match crawl_page q (page_links q read k) item (item_outcome q (answers k item) item) s with
  | (Ok s', d) => checkpointed q plan s'
  | (Err _, d) => disk_loaded q plan d
  end.
Proof.
  intros Hmax Hres Hdel Hser Hinv (Hhead & Hrec & Hdisk) Hin.
  assert (Hsome : is_some (cq_resume q) = true) by (by destruct (cq_resume q)).
  destruct (crawl_page _ _ _ _ _) as [[s'|e] d] eqn:Ep.
  - destruct (crawl_page_inv q (page_links q read k) item (item_outcome q (answers k item) item) s s' d
      Hmax Hinv Hin) as (new & Hinv' & _ & Hm' & _ & Hd & Hpers);
      [intros receipt l; apply crawl_links_ok|exact Ep|].
    assert (Hrec' : forall id r, rm_jobs (cs_manifest s') !! id = Some r -> exists i, record_ok q id r i).
    { intros id r. rewrite Hm'. cbn. destruct (decide (id = fi_url item)) as [->|Hne].
      - rewrite lookup_insert_eq. intros [= <-]. exists item. by apply page_record_ok.
      - rewrite lookup_insert_ne by done. apply Hrec. }
    split_and!; [by rewrite Hm'|done|]. exists (cs_manifest s'). split.
    + rewrite Hd. rewrite Hsome in Hpers. by apply persisted in Hpers as [_ ->].
    + constructor; [by rewrite Hm'| |apply (cv_numbered _ _ Hinv')|by rewrite Hm'].
      destruct Hinv'. by constructor.
  - revert Ep. unfold crawl_page. rewrite Hsome. cbv zeta.
    destruct (match item_outcome q (answers k item) item with OSucceeded _ _ _ => _ | _ => _ end)
      as [[seen frontier]|e']; [|by intros [= _ <-]].
    destruct (persist_manifest_if_configured true _ _) as [[m1|e1] d1] eqn:Epers; [done|].
    intros [= _ <-]. apply not_persisted in Epers.
    destruct Hdisk as (m & Hm & Hl). exists m. by rewrite Epers.
Qed.

(** A checkpoint that was written is accepted. *)
Lemma loaded_accepted env q plan text m :
  in_u32 (cq_maximum_pages q) -> cq_resume q <> None ->
  url_scheme (rq_url (cq_seed q)) ∈ ["http"; "https"] ->
  loaded q plan m ->
  se_acquire env = Ok tt -> se_read env = Ok text -> parse_manifest text = Some m ->
  exists m', crawl_load env q plan = Ok m' /\ items m' ≡ₚ items m.
Proof.
  intros Hmax Hres Hscheme [(Hv & Hk & Hs) Hpages Hnum Hpend] Ha Hread Hparse.
  unfold crawl_load, normalized_page_url. rewrite bool_decide_eq_true_2 by done. cbn [rbind].
  assert (Hsome : is_some (cq_resume q) = true) by (by destruct (cq_resume q)).
  rewrite Hsome, Ha, Hread. cbn [rbind]. unfold load_or_create_manifest. rewrite Hparse. cbn [rbind ok_or].
  rewrite Hv, Hk, Hs. rewrite !(bool_decide_eq_false_2 (_ <> _)) by auto. rewrite Z.eqb_refl. cbn [negb orb].
  assert (Hne : bool_decide (rm_frontier m = []) && bool_decide (rm_jobs m = ∅) = false).
  { apply andb_false_iff. destruct (decide (rm_frontier m = [])) as [Hf|Hf];
      [right|left; by apply bool_decide_eq_false]. apply bool_decide_eq_false. intros Hj'.
    assert (Hz := pg_zero _ _ Hpages). unfold items, job_items in Hz. rewrite Hf, Hj', map_to_list_empty in Hz.
    by apply elem_of_nil in Hz. }
  rewrite Hne. cbn [andb rbind].
  rewrite (proj2 (manifest_exact q m Hmax)) by done. cbn [rbind].
  assert (Href : exists m1, refresh_crawl_resume_state (se_current env) q m = Ok m1).
  { unfold refresh_crawl_resume_state.
    edestruct (requeue_runs (se_current env)) as [res Hrun]; [|setoid_rewrite Hrun; by eexists].
    intros id r Hl. destruct (pages_located _ _ Hpages _ _ Hl) as (i & Hi & _). by exists i. }
  destruct Href as [m1 Href]. rewrite Href. cbn [rbind]. eexists. split; [done|].
  by destruct (refresh_spec _ _ _ _ (pg_fresh _ _ Hpages) Href) as (_ & Hperm & _).
Qed.

Lemma load_scheme env q plan m :
  crawl_load env q plan = Ok m -> url_scheme (rq_url (cq_seed q)) ∈ ["http"; "https"].
Proof.
  unfold crawl_load. intros (root & Hroot & _)%rbind_ok. unfold normalized_page_url in Hroot.
  by case_bool_decide.
Qed.

(** Whenever a resumable crawl stops, be it at its end, on an unreadable
    page or on a checkpoint that cannot be written, the checkpoint on disk is
    accepted by the next run of the same crawl, which takes up the pages the
    stopped one knew. *)
Theorem crawl_checkpoint_resumable env answers read q q' plan (d d0 d' : Disk) s res fuel :
  in_u32 (cq_maximum_pages q) -> 0 <= cq_concurrency q -> readable env ->
  cq_resume q <> None ->
  crawl_plan env q = Ok (q', plan) ->
  delivered q' answers -> serialisable q' ->
  crawl_begin env q' plan d = (Ok s, d0) ->
  cq_maximum_pages q <= Z.of_nat fuel ->
  crawl_loop fuel q' answers (page_links q' read) 0 s = Some (res, d') ->
  exists m, saved d' = Some m /\ numbered m /\
    forall env' text, se_acquire env' = Ok tt -> se_read env' = Ok text -> parse_manifest text = Some m ->
      exists m', crawl_load env' q' plan = Ok m' /\ items m' ≡ₚ items m.
Proof.
  intros Hmax Hconc Hread Hres Hplan Hdel Hser Hb Hfuel Hloop.
  destruct (crawl_plan_request _ _ _ _ Hplan) as (E1 & _ & E3 & Hz & _ & _ & E7).
  rewrite <- E1 in Hmax, Hfuel. rewrite <- E7 in Hres.
  destruct (crawl_begin_ok _ _ _ _ _ _ Hmax Hread Hb) as (m0 & Hload & Hl & -> & Hpers).
  assert (Hdisk : disk_loaded q' plan d0).
  { exists m0. split; [|done]. assert (Hsome : is_some (cq_resume q') = true) by (by destruct (cq_resume q')).
    rewrite Hsome in Hpers. by apply persisted in Hpers as [_ ->]. }
  destruct (crawl_loop_inv q' answers (page_links q' read) (checkpointed q' plan) (disk_loaded q' plan))
    with (fuel := fuel) (round := 0%nat) (s := MkState m0 (urls_of (items m0)) ∅ d0) as (res1 & Hrun & Hfinal).
  - done.
  - lia.
  - intros k receipt u l. apply crawl_links_ok.
  - by intros s (_ & _ & ?).
  - intros s (H1 & H2 & H3). done.
  - intros k s item H1 H2 H3. by apply page_checkpointed.
  - by eapply loaded_inv.
  - split_and!; [apply Hl|apply (pg_records _ _ (ld_pages _ _ _ Hl))|done].
  - cbn. lia.
  - rewrite Hloop in Hrun. injection Hrun as <-.
    assert (Hd' : disk_loaded q' plan d').
    { destruct res as [s'|e]; [|done]. by destruct Hfinal as (_ & (_ & _ & ?) & <- & _). }
    destruct Hd' as (m & Hm & Hlm). exists m. split_and!; [done|apply Hlm|].
    intros env' text Ha Hread' Hparse. eapply loaded_accepted; eauto. by eapply load_scheme.
Qed.

End CrawlResume.

(** ** Crawls: examples

    A crawl of two pages that link to each other, with concrete parameters, as
    witness of the theorems on crawls. *)
Import BatchSamples.

Module CrawlSamples.

#[local] Existing Instance text_hashing.
#[local] Existing Instance ascii_unicode.
#[local] Existing Instance plain_urls.

(** A page is the text of its one link; its URL is the seed's. *)
#[local] Instance link_pages : PageReader := {|
  inspect_html _ := Ok "https://example.com/a";
  document_elements content := [MkElement "a" [("href", string_of_list_ascii content)]];
|}.

Lemma cut_at_fst sep l : sep ∉ (cut_at sep l).1.
Proof.
  induction l as [|c l IH]; simpl; [apply not_elem_of_nil|]. destruct (decide (c = sep)) as [|Hne]; simpl.
  - apply not_elem_of_nil.
  - destruct (cut_at sep l). simpl in *. apply not_elem_of_cons. auto.
Qed.

Lemma cut_at_absent sep l : sep ∉ l -> cut_at sep l = (l, None).
Proof.
  induction l as [|c l IH]; simpl; [done|]. intros [Hne Hl]%not_elem_of_cons.
  rewrite decide_False by auto. by rewrite (IH Hl).
Qed.

#[local] Instance plain_laws : UrlLaws.
Proof.
  assert (Hidem : forall u, before "#" (before "#" u) = before "#" u).
  { intros u. unfold before, as_bytes. rewrite list_ascii_of_string_of_list_ascii.
    rewrite (cut_at_absent "#" (cut_at "#" _).1) by apply cut_at_fst. done. }
  constructor; intros u; cbn.
  - unfold after, before, as_bytes. rewrite list_ascii_of_string_of_list_ascii.
    rewrite (cut_at_absent "#" (cut_at "#" _).1) by apply cut_at_fst. done.
  - by rewrite Hidem.
Qed.

Definition two_pages : CrawlRequest :=
  MkCrawl PUBLIC_SCHEMA_VERSION (page_request "https://example.com/a#top" "/w/seed.html" ConflictFail)
    "/w/crawl" 5 3 2 true (Some (MkResume "resume.json" false)).

(** Every capture is delivered, and links to [b]. *)
Definition good_answers (_ : nat) (item : CrawlFrontierItem) : JobAnswer :=
  Finished (Ok (sample_receipt (crawl_output_path two_pages item))).

Definition linked (_ : nat) (_ : PortablePath) : result io_kind bytes := Ok (as_bytes "b").

#[local] Instance no_json : Json := table_json [].

Lemma no_file_readable : readable (fresh_env no_file).
Proof. intros text m Hread. discriminate Hread. Qed.

Lemma pages_in_range : in_u32 (cq_maximum_pages two_pages).
Proof. split; vm_compute; discriminate. Qed.

Lemma crawl_terminates_witness :
  exists res d', crawl (fresh_env no_file) good_answers linked two_pages no_disk = Some (res, d') /\
    is_ok res = true.
Proof.
  destruct (crawl_terminates (fresh_env no_file) good_answers linked two_pages no_disk pages_in_range
    ltac:(discriminate) no_file_readable) as (res & d' & Hrun).
  exists res, d'. split; [exact Hrun|].
  assert (Hok : match crawl (fresh_env no_file) good_answers linked two_pages no_disk with
                | Some (r, _) => is_ok r | None => false end = true) by (vm_compute; reflexivity).
  rewrite Hrun in Hok. exact Hok.
Defined.

Definition crawled : option (Res CrawlResult * Disk) :=
  crawl (fresh_env no_file) good_answers linked two_pages no_disk.

Definition crawled_result : CrawlResult :=
  match crawled with
  | Some (Ok result, _) => result
  | _ => crawl_result (MkDigest []) []
  end.
Definition crawled_disk : Disk := match crawled with Some (_, d) => d | None => no_disk end.

Lemma crawl_result_pages_witness :
  map po_url (xr_outcomes crawled_result) = ["https://example.com/a"; "https://example.com/b"] /\
  map po_ordinal (xr_outcomes crawled_result) = count_up 0 (length (xr_outcomes crawled_result)).
Proof.
  split; [vm_compute; reflexivity|].
  apply (crawl_result_pages (fresh_env no_file) good_answers linked two_pages no_disk crawled_disk
    crawled_result pages_in_range ltac:(discriminate) no_file_readable).
  vm_compute. reflexivity.
Defined.

(** *** A checkpoint read back *)

Definition crawl_request' : CrawlRequest * ContentDigest :=
  match crawl_plan (fresh_env no_file) two_pages with
  | Ok p => p
  | Err _ => (two_pages, MkDigest [])
  end.

Definition begun : CrawlState :=
  match crawl_begin (fresh_env no_file) crawl_request'.1 crawl_request'.2 no_disk with
  | (Ok s, _) => s
  | (Err _, _) => MkState (new_manifest KindCrawl (MkDigest []) [] []) ∅ ∅ no_disk
  end.

(** The third write of the checkpoint fails. *)
Definition failing_disk : Disk := MkDisk None [None; None; Some (new_error "offprint.scheduler.manifest_write" Commit)].

Definition begun_failing : CrawlState :=
  match crawl_begin (fresh_env no_file) crawl_request'.1 crawl_request'.2 failing_disk with
  | (Ok s, _) => s
  | (Err _, _) => begun
  end.

Lemma crawl_checkpoint_resumable_witness :
  exists res d' m,
    crawl_loop 5 crawl_request'.1 good_answers (page_links crawl_request'.1 linked) 0 begun_failing
      = Some (Err res, d') /\
    saved d' = Some m /\ numbered m /\ length (items m) = 2%nat.
Proof.
  destruct (crawl_loop 5 crawl_request'.1 good_answers (page_links crawl_request'.1 linked) 0 begun_failing)
    as [[[s|e] d']|] eqn:Hrun;
    [exfalso; vm_compute in Hrun; discriminate Hrun| |exfalso; vm_compute in Hrun; discriminate Hrun].
  destruct (crawl_checkpoint_resumable (fresh_env no_file) good_answers linked two_pages
    crawl_request'.1 crawl_request'.2 failing_disk (cs_disk begun_failing) d' begun_failing (Err e) 5)
    as (m & Hm & Hnum & _).
  - exact pages_in_range.
  - discriminate.
  - exact no_file_readable.
  - discriminate.
  - vm_compute. reflexivity.
  - intros k item receipt Heq. injection Heq as <-.
    exists (crawl_output_path two_pages item), 3, (MkDigest []). split; [reflexivity|].
    apply bool_decide_eq_true_2. reflexivity.
  - intros item. discriminate.
  - vm_compute. reflexivity.
  - vm_compute. discriminate.
  - exact Hrun.
  - exists e, d', m. split; [reflexivity|]. split; [exact Hm|]. split; [exact Hnum|].
    vm_compute in Hrun. injection Hrun as <- <-. cbn in Hm. injection Hm as <-. vm_compute. reflexivity.
Defined.

End CrawlSamples.
