(* ===== verification/Dom.v ===== *)
(** * The document arena

    Models [offprint-rs/document/src/document/mod.rs]: a parsed page as an arena
    of nodes that name their parent and children by index, its mutations and its
    walk, and [offprint-rs/document/src/state.rs] and the traversals of
    [document/frame.rs] that are written on top of them.

    Names and text are the strings the atoms and tendrils of [html5ever] hold;
    a namespace is its URI. *)

From Stdlib Require Import ZArith Lia Ascii String.
From stdpp Require Import base tactics list gmap strings numbers.
From S2P Require Import Prelude.
From S2P Require Import Errors.

#[local] Open Scope string_scope.
#[local] Open Scope list_scope.
#[local] Open Scope Z_scope.

(** ** Names *)

Definition ns_none : string := "".
Definition ns_html : string := "http://www.w3.org/1999/xhtml".
Definition ns_svg : string := "http://www.w3.org/2000/svg".
Definition ns_xlink : string := "http://www.w3.org/1999/xlink".
Definition ns_xml : string := "http://www.w3.org/XML/1998/namespace".
Definition ns_xmlns : string := "http://www.w3.org/2000/xmlns/".

Record QualName := MkQual { qn_prefix : option string; qn_ns : string; qn_local : string }.
Record Attribute := MkAttribute { at_name : QualName; at_value : string }.

#[export] Instance QualName_eq_dec : EqDecision QualName.
Proof. solve_decision. Defined.
#[export] Instance Attribute_eq_dec : EqDecision Attribute.
Proof. solve_decision. Defined.

(** [name.ns == ns && name.local == local]. *)
Definition name_is (ns local : string) (n : QualName) : bool :=
  bool_decide (qn_ns n = ns) && bool_decide (qn_local n = local).

Definition html_name (local : string) : QualName := MkQual None ns_html local.
Definition html_attribute (local value : string) : Attribute :=
  MkAttribute (MkQual None ns_none local) value.

(** The attribute of no namespace with this name. *)
Definition plain_attribute (name : string) (a : Attribute) : bool := name_is ns_none name (at_name a).

Definition attribute_value (attrs : list Attribute) (name : string) : option string :=
  at_value <$> List.find (plain_attribute name) attrs.

(** ** Nodes and the arena *)

Abbreviation NodeId := nat.

Inductive NodeData :=
| NDocument
| NDoctype (name public_id system_id : string)
| NText (contents : string)
| NComment (contents : string)
| NElement (name : QualName) (attrs : list Attribute) (template_contents : option NodeId)
    (mathml_annotation_xml_integration_point : bool)
| NInstruction (target contents : string).

#[export] Instance NodeData_eq_dec : EqDecision NodeData.
Proof. solve_decision. Defined.

Record Node := MkNode {
  nd_parent : option NodeId;
  nd_children : list NodeId;
  nd_data : NodeData;
}.

#[export] Instance Node_eq_dec : EqDecision Node.
Proof. solve_decision. Defined.

Inductive QuirksMode := Quirks | LimitedQuirks | NoQuirks.

Record Document := MkDocument {
  dc_nodes : list Node;
  dc_root : NodeId;
  dc_quirks_mode : QuirksMode;
  dc_parse_errors : list string;
}.

Definition set_nodes (l : list Node) (d : Document) : Document :=
  MkDocument l (dc_root d) (dc_quirks_mode d) (dc_parse_errors d).
Definition set_parent (p : option NodeId) (n : Node) : Node := MkNode p (nd_children n) (nd_data n).
Definition set_children (c : list NodeId) (n : Node) : Node := MkNode (nd_parent n) c (nd_data n).
Definition set_data (x : NodeData) (n : Node) : Node := MkNode (nd_parent n) (nd_children n) x.

Definition node (d : Document) (id : NodeId) : option Node := dc_nodes d !! id.
Definition node_count (d : Document) : nat := length (dc_nodes d).

(** What is done through [node_mut]. *)
Definition update_node (id : NodeId) (f : Node -> Node) (d : Document) : Document :=
  set_nodes (alter f id (dc_nodes d)) d.

Definition node_data (d : Document) (id : NodeId) : option NodeData := nd_data <$> node d id.

Definition template_of (x : NodeData) : option NodeId :=
  match x with NElement _ _ t _ => t | _ => None end.

(** [Vec::retain(|child| *child != id)]. *)
Definition without (id : NodeId) (l : list NodeId) : list NodeId := filter (fun c => c <> id) l.

Definition detach (id : NodeId) (d : Document) : Document :=
  let d := match node d id ≫= nd_parent with
           | Some p => update_node p (fun n => set_children (without id (nd_children n)) n) d
           | None => d
           end in
  update_node id (set_parent None) d.

Definition create_node (x : NodeData) (d : Document) : Res (NodeId * Document) :=
  match try_from u32_max (Z.of_nat (node_count d)) with
  | Some _ => Ok (node_count d, set_nodes (dc_nodes d ++ [MkNode None [] x]) d)
  | None =>
      Err (with_detail "reason" (DStr "out of range integral type conversion attempted")
             (new_error "offprint.transform.node_limit" Transform))
  end.

Definition both_known (parent child : NodeId) (d : Document) : bool :=
  bool_decide (is_Some (node d parent)) && bool_decide (is_Some (node d child)).

Definition append_child (parent child : NodeId) (d : Document) : Res Document :=
  if negb (both_known parent child d) then Err (new_error "offprint.transform.node" Transform)
  else
    let d := update_node child (set_parent (Some parent)) (detach child d) in
    Ok (update_node parent (fun n => set_children (nd_children n ++ [child]) n) d).

Definition prepend_child (parent child : NodeId) (d : Document) : Res Document :=
  if negb (both_known parent child d) then Err (new_error "offprint.transform.node" Transform)
  else
    let d := update_node child (set_parent (Some parent)) (detach child d) in
    Ok (update_node parent (fun n => set_children (child :: nd_children n) n) d).

(** ** The walk

    [DocumentWalk::next] pops an identifier and pushes the children in reverse
    and then the template contents.  The stack is written with its top first;
    [None] when the fuel is used up before the stack is empty, which does not
    happen for a tree and as much fuel as there are nodes. *)

Definition successors (n : Node) : list NodeId :=
  option_list (template_of (nd_data n)) ++ nd_children n.

Fixpoint walk_loop (fuel : nat) (d : Document) (stack : list NodeId) : option (list NodeId) :=
  match stack with
  | [] => Some []
  | id :: rest =>
      match fuel with
      | O => None
      | S fuel' =>
          ids ← walk_loop fuel' d (match node d id with Some n => successors n ++ rest | None => rest end);
          Some (id :: ids)
      end
  end.

Definition walk (d : Document) : list NodeId :=
  default [] (walk_loop (node_count d) d [dc_root d]).

(** The elements of the walk, with their identifiers. *)
Definition element_at (d : Document) (id : NodeId) : option (QualName * list Attribute) :=
  match node_data d id with Some (NElement name attrs _ _) => Some (name, attrs) | _ => None end.

Definition element_test (d : Document) (f : QualName -> list Attribute -> bool) (id : NodeId) : bool :=
  match element_at d id with Some (name, attrs) => f name attrs | None => false end.

Definition walk_filter (f : QualName -> list Attribute -> bool) (d : Document) : list NodeId :=
  List.filter (element_test d f) (walk d).

Definition find_element (ns local_name : string) (d : Document) : option NodeId :=
  List.find (element_test d (fun name _ => name_is ns local_name name)) (walk d).

Definition find_html_element (local_name : string) (d : Document) : option NodeId :=
  find_element ns_html local_name d.

Definition find_svg_root (d : Document) : option NodeId := find_element ns_svg "svg" d.

(** ** Attributes of an element *)

Definition map_attrs (f : list Attribute -> list Attribute) (x : NodeData) : NodeData :=
  match x with NElement name attrs t m => NElement name (f attrs) t m | _ => x end.

Definition update_attrs (id : NodeId) (f : list Attribute -> list Attribute) (d : Document) : Document :=
  update_node id (fun n => set_data (map_attrs f (nd_data n)) n) d.

Definition set_attribute (name value : string) (attrs : list Attribute) : list Attribute :=
  List.filter (fun a => negb (plain_attribute name a)) attrs ++ [html_attribute name value].

Definition DOCUMENT_SCROLL_X_ATTRIBUTE : string := "data-offprint-scroll-x".
Definition DOCUMENT_SCROLL_Y_ATTRIBUTE : string := "data-offprint-scroll-y".
Definition ELEMENT_SCROLL_LEFT_ATTRIBUTE : string := "data-offprint-scroll-left".
Definition ELEMENT_SCROLL_TOP_ATTRIBUTE : string := "data-offprint-scroll-top".

Definition document_error : OffprintError := new_error "offprint.transform.document" Transform.

Definition set_document_scroll_state (x y : string) (d : Document) : Res Document :=
  root <-? ok_or (find_html_element "html" d) document_error ;;
  do? ok_or (element_at d root) document_error ;;
  Ok (update_attrs root (fun attrs =>
        set_attribute DOCUMENT_SCROLL_Y_ATTRIBUTE y
          (set_attribute DOCUMENT_SCROLL_X_ATTRIBUTE x attrs)) d).

(** The text nodes directly below a node. *)
Definition text_contents (d : Document) (parent : NodeId) : string :=
  String.concat "" (omap (fun id =>
      match node_data d id with Some (NText s) => Some s | _ => None end)
    (match node d parent with Some n => nd_children n | None => [] end)).
