(* ===== verification/DomFacts.v ===== *)
(** * Trees in the arena

    When the links of an arena form a tree (with the contents of templates as
    further branches), the walk ends and lists every node below the root once;
    and the mutations keep it so. *)

From Stdlib Require Import ZArith Lia Ascii String.
From stdpp Require Import base tactics list gmap strings numbers relations.
From S2P Require Import Prelude.
From S2P Require Import Errors.
From S2P Require Import Dom.

#[local] Open Scope string_scope.
#[local] Open Scope list_scope.
#[local] Open Scope nat_scope.

(** ** Links *)

Definition link (d : Document) (i j : NodeId) : Prop :=
  exists n, node d i = Some n /\ j ∈ successors n.

Definition below (d : Document) (i j : NodeId) : Prop := rtc (link d) i j.

(** A document is a tree: parents and children name each other, template
    contents are roots of their own, and links do not run in circles. *)
Record tree_shaped (d : Document) : Prop := {
  shape_root : exists n, node d (dc_root d) = Some n /\ nd_parent n = None /\ nd_data n = NDocument;
  shape_child : forall i n j, node d i = Some n -> j ∈ nd_children n ->
    exists m, node d j = Some m /\ nd_parent m = Some i;
  shape_parent : forall j m i, node d j = Some m -> nd_parent m = Some i ->
    exists n, node d i = Some n /\ j ∈ nd_children n;
  shape_nodup : forall i n, node d i = Some n -> NoDup (nd_children n);
  shape_template : forall i n t, node d i = Some n -> template_of (nd_data n) = Some t ->
    t <> dc_root d /\ exists m, node d t = Some m /\ nd_parent m = None /\ nd_data m = NDocument;
  shape_owner : forall i n i' n' t, node d i = Some n -> node d i' = Some n' ->
    template_of (nd_data n) = Some t -> template_of (nd_data n') = Some t -> i = i';
  shape_acyclic : forall i, Acc (fun j i => link d i j) i;
}.

Lemma elem_of_successors n j :
  j ∈ successors n <-> template_of (nd_data n) = Some j \/ j ∈ nd_children n.
Proof. unfold successors. rewrite elem_of_app. destruct (template_of _); simpl; set_solver. Qed.

Section Shape.
Context (d : Document) (S : tree_shaped d).

Lemma link_known i j : link d i j -> is_Some (node d j).
Proof using S.
  intros (n & Hn & [Ht|Hc]%elem_of_successors).
  - destruct (shape_template d S _ _ _ Hn Ht) as (_ & m & -> & _). eauto.
  - destruct (shape_child d S _ _ _ Hn Hc) as (m & -> & _). eauto.
Qed.

Lemma successors_nodup i n : node d i = Some n -> NoDup (successors n).
Proof using S.
  intros Hn. unfold successors. destruct (template_of (nd_data n)) as [t|] eqn:Ht; simpl.
  - apply NoDup_cons. split; [|by eapply shape_nodup].
    intros Hc. destruct (shape_template d S _ _ _ Hn Ht) as (_ & m & Hm & Hp & _).
    destruct (shape_child d S _ _ _ Hn Hc) as (m' & Hm' & Hp'). congruence.
  - by eapply shape_nodup.
Qed.

(** A node hangs at one place only. *)
Lemma link_unique i i' j : link d i j -> link d i' j -> i = i'.
Proof using S.
  intros (n & Hn & Hj%elem_of_successors) (n' & Hn' & Hj'%elem_of_successors).
  destruct Hj as [Ht|Hc], Hj' as [Ht'|Hc'].
  - by eapply (shape_owner d S i n i' n').
  - destruct (shape_template d S _ _ _ Hn Ht) as (_ & m & Hm & Hp & _).
    destruct (shape_child d S _ _ _ Hn' Hc') as (m' & Hm' & Hp'). congruence.
  - destruct (shape_template d S _ _ _ Hn' Ht') as (_ & m & Hm & Hp & _).
    destruct (shape_child d S _ _ _ Hn Hc) as (m' & Hm' & Hp'). congruence.
  - destruct (shape_child d S _ _ _ Hn Hc) as (m & Hm & Hp).
    destruct (shape_child d S _ _ _ Hn' Hc') as (m' & Hm' & Hp'). congruence.
Qed.

Lemma root_unlinked i : ~ link d i (dc_root d).
Proof using S.
  intros (n & Hn & [Ht|Hc]%elem_of_successors).
  - by destruct (shape_template d S _ _ _ Hn Ht) as [? _].
  - destruct (shape_child d S _ _ _ Hn Hc) as (m & Hm & Hp).
    destruct (shape_root d S) as (r & Hr & Hp' & _). congruence.
Qed.

Lemma below_known i j : is_Some (node d i) -> below d i j -> is_Some (node d j).
Proof using S.
  intros Hi Hb. induction Hb as [|? ? ? Hl Hb IH]; [done|]. apply IH. by eapply link_known.
Qed.

Lemma no_cycle i j : link d i j -> ~ below d j i.
Proof using S.
  revert j. induction (shape_acyclic d S i) as [i _ IH]. intros j Hl Hb.
  destruct (rtc_inv _ _ Hb) as [->|(k & Hk & Hb')].
  - by apply (IH i Hl i).
  - apply (IH j Hl k Hk). by eapply rtc_r.
Qed.

(** Two branches of one node have nothing in common. *)
Lemma above_linear i j k : below d i k -> below d j k -> below d i j \/ below d j i.
Proof using S.
  intros Hi. revert j. revert k Hi. refine (rtc_ind_r _ i _ _); [by right|].
  intros k k' Hi Hl IH j Hj.
  destruct (rtc_inv_r _ _ Hj) as [->|(m & Hm & Hl')]; [left; by eapply rtc_r|].
  rewrite (link_unique m k k') in Hm; auto.
Qed.

Lemma branches_disjoint i j j' k :
  link d i j -> link d i j' -> j <> j' -> below d j k -> below d j' k -> False.
Proof using S.
  intros Hl Hl' Hne Hk Hk'.
  assert (forall a b, link d i a -> link d i b -> a <> b -> below d a b -> False) as Hno.
  { intros a b Ha Hb Hab Hr. destruct (rtc_inv_r _ _ Hr) as [->|(m & Hm & Hmb)]; [done|].
    rewrite (link_unique m i b) in Hm by done. by apply (no_cycle i a). }
  destruct (above_linear _ _ _ Hk Hk') as [H|H]; eauto.
Qed.
End Shape.

(** ** The walk *)

(** With [stack] on top, the walk first lists [l]. *)
Definition visits (d : Document) (stack l : list NodeId) : Prop :=
  forall fuel rest, walk_loop (length l + fuel) d (stack ++ rest) = app l <$> walk_loop fuel d rest.

Lemma visits_nil d : visits d [] [].
Proof. intros fuel rest. simpl. by destruct (walk_loop fuel d rest). Qed.

Lemma visits_app d s1 l1 s2 l2 : visits d s1 l1 -> visits d s2 l2 -> visits d (s1 ++ s2) (l1 ++ l2).
Proof.
  intros H1 H2 fuel rest. rewrite length_app, <- Nat.add_assoc, <- app_assoc, H1, H2.
  destruct (walk_loop fuel d rest); simpl; [|done]. by rewrite app_assoc.
Qed.

Lemma visits_node d i n l : node d i = Some n -> visits d (successors n) l -> visits d [i] (i :: l).
Proof.
  intros Hn Hl fuel rest. simpl. rewrite Hn, Hl. by destruct (walk_loop fuel d rest).
Qed.

(** The list of the nodes below the nodes of the stack. *)
Record listing (d : Document) (stack l : list NodeId) : Prop := {
  ls_visits : visits d stack l;
  ls_below : forall j, j ∈ l <-> exists i, i ∈ stack /\ below d i j;
  ls_nodup : NoDup l;
}.

Lemma listing_app d i stack l1 l2 :
  listing d [i] l1 -> listing d stack l2 -> (forall j, j ∈ l1 -> j ∈ l2 -> False) ->
  listing d (i :: stack) (l1 ++ l2).
Proof.
  intros [V1 B1 N1] [V2 B2 N2] Hd. split.
  - by apply (visits_app d [i]).
  - intros j. rewrite elem_of_app, B1, B2. set_solver.
  - apply list.NoDup_app. split_and!; eauto.
Qed.

Lemma listing_branches d i n stack :
  tree_shaped d -> node d i = Some n -> stack ⊆ successors n -> NoDup stack ->
  (forall j, j ∈ successors n -> exists l, listing d [j] l) -> exists l, listing d stack l.
Proof.
  intros Hs Hn Hsub Hnd Hl. induction stack as [|j stack IH].
  - exists []. split; [apply visits_nil|set_solver|constructor].
  - apply NoDup_cons in Hnd as [Hj Hnd].
    destruct IH as [l2 L2]; [set_solver|done|]. destruct (Hl j) as [l1 L1]; [set_solver|].
    exists (l1 ++ l2). apply listing_app; [done..|]. intros k H1 H2.
    apply (ls_below _ _ _ L1) in H1 as (a & Ha%list_elem_of_singleton & Hak). subst a.
    apply (ls_below _ _ _ L2) in H2 as (b & Hb & Hbk).
    apply (branches_disjoint d Hs i j b k); try done; [exists n|exists n|]; set_solver.
Qed.

Lemma listing_one d i : tree_shaped d -> is_Some (node d i) -> exists l, listing d [i] l.
Proof.
  intros Hs. induction (shape_acyclic d Hs i) as [i _ IH]. intros [n Hn].
  destruct (listing_branches d i n (successors n)) as [l [V B N]]; [done|done|set_solver| | |].
  { by eapply successors_nodup. }
  { intros j Hj. apply IH; [by exists n|]. eapply link_known; [done|by exists n]. }
  exists (i :: l). split.
  - by eapply visits_node.
  - intros j. rewrite elem_of_cons, B. split.
    + intros [->|(k & Hk & Hkj)]; exists i; (split; [set_solver|]); [apply rtc_refl|].
      eapply rtc_l; [|done]. by exists n.
    + intros (k & ->%list_elem_of_singleton & Hk).
      destruct (rtc_inv _ _ Hk) as [->|(k' & (n' & Hn' & Hk') & Hb)]; [by left|].
      simplify_eq. right. eauto.
  - apply NoDup_cons. split; [|done]. intros (k & Hk & Hki)%B.
    apply (no_cycle d Hs i k); [by exists n|done].
Qed.

Lemma listing_length d i l :
  tree_shaped d -> is_Some (node d i) -> listing d [i] l -> length l <= node_count d.
Proof.
  intros Hs Hi [_ B N]. unfold node_count. rewrite <- (length_seq (length (dc_nodes d)) 0).
  apply submseteq_length, NoDup_submseteq; [done|].
  intros j (k & ->%list_elem_of_singleton & Hk)%B. apply elem_of_seq.
  destruct (below_known d Hs _ _ Hi Hk) as [m Hm%lookup_lt_Some]. lia.
Qed.

Lemma walk_loop_total d :
  tree_shaped d -> walk_loop (node_count d) d [dc_root d] = Some (walk d) /\ listing d [dc_root d] (walk d).
Proof.
  intros Hs. destruct (shape_root d Hs) as (r & Hr & _).
  destruct (listing_one d (dc_root d) Hs) as [l L]; [eauto|].
  assert (length l <= node_count d) as Hlen by (eapply listing_length; eauto).
  assert (walk_loop (node_count d) d [dc_root d] = Some l) as Hw.
  { replace (node_count d) with (length l + (node_count d - length l)) by lia.
    etransitivity; [apply (ls_visits _ _ _ L _ [])|]. destruct (_ - _); simpl; by rewrite app_nil_r. }
  unfold walk. rewrite Hw. done.
Qed.

Lemma walk_loop_more d fuel more stack l :
  walk_loop fuel d stack = Some l -> walk_loop (fuel + more) d stack = Some l.
Proof.
  revert stack l. induction fuel as [|fuel IH]; intros [|i stack] l; simpl; try done.
  - by destruct more.
  - destruct (walk_loop fuel d _) eqn:E; simpl; [|done]. by rewrite (IH _ _ E).
Qed.

Lemma elem_of_walk d j : tree_shaped d -> j ∈ walk d <-> below d (dc_root d) j.
Proof.
  intros [_ L]%walk_loop_total. rewrite (ls_below _ _ _ L). set_solver.
Qed.

Lemma walk_nodup d : tree_shaped d -> NoDup (walk d).
Proof. intros [_ L]%walk_loop_total. apply L. Qed.

Lemma walk_known d j : tree_shaped d -> j ∈ walk d -> is_Some (node d j).
Proof.
  intros Hs Hj%elem_of_walk; [|done]. destruct (shape_root d Hs) as (r & Hr & _).
  eapply below_known; eauto.
Qed.

(** ** Mutations *)

Lemma filter_keeps {A} (P : A -> Prop) `{forall x, Decision (P x)} (l : list A) :
  (forall x, x ∈ l -> P x) -> filter P l = l.
Proof.
  induction l as [|x l IH]; intros Hl; [done|].
  rewrite filter_cons_True by set_solver. f_equal. set_solver.
Qed.

Lemma node_update i f d j :
  node (update_node i f d) j = (if decide (i = j) then f <$> node d j else node d j).
Proof.
  unfold node, update_node, set_nodes; simpl. destruct (decide (i = j)) as [->|Hne].
  - apply list_lookup_alter_eq.
  - by apply list_lookup_alter_ne.
Qed.

Lemma update_count i f d : node_count (update_node i f d) = node_count d.
Proof. unfold node_count, update_node; simpl. apply length_alter. Qed.

(** [d'] is [d] with the nodes of [cs] cut off and [f] applied to the data. *)
Record pruned (cs : gset NodeId) (f : NodeId -> NodeData -> NodeData) (d d' : Document) : Prop := {
  pr_root : dc_root d' = dc_root d;
  pr_node : forall i, node d' i =
    (fun n => MkNode (if decide (i ∈ cs) then None else nd_parent n)
                (filter (fun c => c ∉ cs) (nd_children n)) (f i (nd_data n))) <$> node d i;
  pr_template : forall i x, template_of (f i x) = template_of x;
  pr_document : forall i, f i NDocument = NDocument;
}.

Lemma pruned_refl d : pruned ∅ (fun _ x => x) d d.
Proof.
  split; try done. intros i. destruct (node d i) as [n|]; simpl; [|done].
  rewrite decide_False by set_solver. rewrite filter_keeps by set_solver. by destruct n.
Qed.

Lemma pruned_trans cs1 f1 cs2 f2 d d1 d2 :
  pruned cs1 f1 d d1 -> pruned cs2 f2 d1 d2 ->
  pruned (cs1 ∪ cs2) (fun i x => f2 i (f1 i x)) d d2.
Proof.
  intros [R1 N1 T1 D1] [R2 N2 T2 D2]. split.
  - congruence.
  - intros i. rewrite N2, N1. destruct (node d i) as [n|]; simpl; [|done]. do 2 f_equal.
    + repeat case_decide; set_solver.
    + rewrite list_filter_filter. apply list_filter_iff. set_solver.
  - intros i x. by rewrite T2, T1.
  - intros i. by rewrite D1, D2.
Qed.

Lemma pruned_link cs f d d' i j : pruned cs f d d' -> link d' i j -> link d i j.
Proof.
  intros [R N T D] (n' & Hn' & Hj). rewrite N in Hn'. apply fmap_Some in Hn' as (n & Hn & ->).
  exists n. split; [done|]. apply elem_of_successors. apply elem_of_successors in Hj. simpl in Hj.
  rewrite T in Hj. rewrite list_elem_of_filter in Hj. naive_solver.
Qed.

Lemma pruned_shape cs f d d' : pruned cs f d d' -> tree_shaped d -> tree_shaped d'.
Proof.
  intros P S. destruct P as [R N T D] eqn:HP. clear HP. split.
  - destruct (shape_root d S) as (n & Hn & Hp & Hd). rewrite R, N, Hn; simpl.
    eexists; split_and!; [done|simpl; by case_decide|]. simpl. by rewrite Hd, D.
  - intros i n' j Hn' Hj. rewrite N in Hn'. apply fmap_Some in Hn' as (n & Hn & ->). simpl in Hj.
    apply list_elem_of_filter in Hj as [Hc Hj]. destruct (shape_child d S _ _ _ Hn Hj) as (m & Hm & Hp).
    rewrite N, Hm; simpl. eexists; split; [done|]. simpl. by rewrite decide_False.
  - intros j m' i Hm' Hp. rewrite N in Hm'. apply fmap_Some in Hm' as (m & Hm & ->). simpl in Hp.
    case_decide; [done|]. destruct (shape_parent d S _ _ _ Hm Hp) as (n & Hn & Hj).
    rewrite N, Hn; simpl. eexists; split; [done|]. simpl. by apply list_elem_of_filter.
  - intros i n' Hn'. rewrite N in Hn'. apply fmap_Some in Hn' as (n & Hn & ->). simpl.
    apply NoDup_filter. by eapply shape_nodup.
  - intros i n' t Hn' Ht. rewrite N in Hn'. apply fmap_Some in Hn' as (n & Hn & ->). simpl in Ht.
    rewrite T in Ht. destruct (shape_template d S _ _ _ Hn Ht) as (Hr & m & Hm & Hp & Hd).
    rewrite R, N, Hm; simpl. split; [done|]. eexists; split_and!; [done|simpl; by case_decide|].
    simpl. by rewrite Hd, D.
  - intros i n1 i' n2 t Hn1 Hn2 Ht1 Ht2. rewrite N in Hn1, Hn2.
    apply fmap_Some in Hn1 as (m1 & Hm1 & ->). apply fmap_Some in Hn2 as (m2 & Hm2 & ->).
    simpl in Ht1, Ht2. rewrite T in Ht1, Ht2. by eapply (shape_owner d S i m1 i' m2).
  - intros i. induction (shape_acyclic d S i) as [i _ IH]. constructor. intros j Hj. apply IH.
    by eapply pruned_link.
Qed.

(** When only elements are cut off, none of them is met again. *)
Lemma pruned_gone cs f d d' i j :
  pruned cs f d d' -> tree_shaped d ->
  (forall c, c ∈ cs -> is_Some (element_at d c)) -> link d' i j -> j ∉ cs.
Proof.
  intros [R N T D] S He (n' & Hn' & Hj) Hc. rewrite N in Hn'. apply fmap_Some in Hn' as (n & Hn & ->).
  apply elem_of_successors in Hj. simpl in Hj. rewrite T in Hj. destruct Hj as [Ht|Hj].
  - destruct (shape_template d S _ _ _ Hn Ht) as (_ & m & Hm & _ & Hd).
    destruct (He j Hc) as [e He']. unfold element_at, node_data in He'. by rewrite Hm in He'; simpl in He'; rewrite Hd in He'.
  - by apply list_elem_of_filter in Hj as [? _].
Qed.

Lemma pruned_walk cs f d d' j :
  pruned cs f d d' -> tree_shaped d -> (forall c, c ∈ cs -> is_Some (element_at d c)) ->
  j ∈ walk d' -> j ∈ walk d /\ j ∉ cs.
Proof.
  intros P S He Hj. apply elem_of_walk in Hj; [|by eapply pruned_shape].
  rewrite elem_of_walk by done. rewrite (pr_root _ _ _ _ P) in Hj. split.
  - unfold below in *. induction Hj; [apply rtc_refl|]. eapply rtc_l; [|done]. by eapply pruned_link.
  - destruct (rtc_inv_r _ _ Hj) as [<-|(k & _ & Hk)]; [|by eapply pruned_gone].
    intros Hc. destruct (He _ Hc) as [e Hd], (shape_root d S) as (n & Hn & _ & Hd').
    unfold element_at, node_data in Hd. rewrite Hn in Hd; simpl in Hd. by rewrite Hd' in Hd.
Qed.

Lemma without_other d i n c :
  tree_shaped d -> node d i = Some n -> (node d c ≫= nd_parent) <> Some i ->
  without c (nd_children n) = nd_children n.
Proof.
  intros S Hn Hp. apply filter_keeps. intros j Hj ->.
  destruct (shape_child d S _ _ _ Hn Hj) as (m & Hm & Hpm). rewrite Hm in Hp. by apply Hp.
Qed.

Lemma detach_pruned d c : tree_shaped d -> pruned {[c]} (fun _ x => x) d (detach c d).
Proof.
  intros S. split; try done.
  - unfold detach. by destruct (_ ≫= _).
  - intros i. unfold detach. rewrite node_update.
    assert (node (match node d c ≫= nd_parent with
                  | Some p => update_node p (fun n => set_children (without c (nd_children n)) n) d
                  | None => d end) i
            = (fun n => set_children (without c (nd_children n)) n) <$> node d i) as ->.
    { destruct (node d c ≫= nd_parent) as [p|] eqn:Hp; [rewrite node_update|];
        [destruct (decide (p = i)) as [->|Hne]; [done|]|];
        (destruct (node d i) as [n|] eqn:Hn; simpl; [|done]);
        rewrite (without_other d i n c) by congruence; by destruct n. }
    destruct (node d i) as [n|]; simpl; [|by case_decide].
    assert (without c (nd_children n) = filter (fun k => k ∉ ({[c]} : gset NodeId)) (nd_children n)) as Hw.
    { apply list_filter_iff. intros k. set_solver. }
    destruct (decide (c = i)) as [->|Hne]; simpl; f_equal; unfold set_parent, set_children; simpl; f_equal; try done.
    + by rewrite decide_True by set_solver.
    + by rewrite decide_False by set_solver.
Qed.

Lemma update_data_pruned d i f :
  (forall x, template_of (f x) = template_of x) -> f NDocument = NDocument ->
  pruned ∅ (fun j x => if decide (i = j) then f x else x) d (update_node i (fun n => set_data (f (nd_data n)) n) d).
Proof.
  intros Ht Hd. split; [done| | |].
  - intros j. rewrite node_update. destruct (node d j) as [n|]; simpl; [|by case_decide].
    destruct (decide (j ∈ ∅)) as [?|_]; [set_solver|]. rewrite filter_keeps by set_solver.
    case_decide; simpl; [done|]. by destruct n.
  - intros j x. by case_decide.
  - intros j. by case_decide.
Qed.

Lemma update_attrs_pruned d i f :
  pruned ∅ (fun j x => if decide (i = j) then map_attrs f x else x) d (update_attrs i f d).
Proof. apply update_data_pruned; [by intros []|done]. Qed.

#[export] Hint Resolve pruned_refl detach_pruned update_attrs_pruned pruned_shape : offprint.

(** ** New nodes and new places *)

Lemma create_node_ok x d :
  (Z.of_nat (node_count d) <= u32_max)%Z ->
  create_node x d = Ok (node_count d, set_nodes (dc_nodes d ++ [MkNode None [] x]) d).
Proof.
  intros H. unfold create_node, try_from.
  destruct (Z.leb_spec 0 (Z.of_nat (node_count d))), (Z.leb_spec (Z.of_nat (node_count d)) u32_max); simpl; done || lia.
Qed.

Lemma create_node_inv x d id d' :
  create_node x d = Ok (id, d') ->
  id = node_count d /\ d' = set_nodes (dc_nodes d ++ [MkNode None [] x]) d.
Proof. unfold create_node. by destruct (try_from _ _); intros [= <- <-]. Qed.

(** [d'] is [d] with one unconnected node more. *)
Definition grown (x : NodeData) (d d' : Document) : Prop :=
  dc_root d' = dc_root d /\
  forall i, node d' i = if decide (i = node_count d) then Some (MkNode None [] x) else node d i.

Lemma create_node_grown x d id d' : create_node x d = Ok (id, d') -> id = node_count d /\ grown x d d'.
Proof.
  intros [-> ->]%create_node_inv. split; [done|]. split; [done|]. intros i. unfold node, node_count; simpl.
  case_decide as Hi; [subst|].
  - rewrite lookup_app_r, Nat.sub_diag; done.
  - destruct (decide (i < length (dc_nodes d))).
    + by rewrite lookup_app_l.
    + rewrite !lookup_ge_None_2; [done|lia|rewrite length_app; simpl; lia].
Qed.

Lemma node_bound d i n : node d i = Some n -> i < node_count d.
Proof. apply lookup_lt_Some. Qed.

Lemma grown_old x d d' i n : grown x d d' -> node d i = Some n -> node d' i = Some n.
Proof. intros [_ N] Hn. rewrite N, decide_False; [done|]. apply node_bound in Hn. lia. Qed.

Lemma grown_new x d d' : grown x d d' -> node d' (node_count d) = Some (MkNode None [] x).
Proof. intros [_ N]. by rewrite N, decide_True. Qed.

Lemma grown_link x d d' i j : template_of x = None -> grown x d d' -> link d' i j <-> link d i j.
Proof.
  intros Hx [R N]. unfold link. split.
  - intros (n & Hn & Hj). rewrite N in Hn. case_decide; [|by exists n]. simplify_eq.
    unfold successors in Hj; simpl in Hj. rewrite Hx in Hj. simpl in Hj. by apply elem_of_nil in Hj.
  - intros (n & Hn & Hj). exists n. split; [|done]. by eapply grown_old.
Qed.

Lemma grown_shape x d d' : template_of x = None -> grown x d d' -> tree_shaped d -> tree_shaped d'.
Proof.
  intros Hx G S. pose proof G as [R N].
  assert (forall i n, node d' i = Some n ->
            node d i = Some n \/ (nd_parent n = None /\ nd_children n = [] /\ template_of (nd_data n) = None)) as Hold.
  { intros i n. rewrite N. case_decide; [intros [= <-]; auto|auto]. }
  assert (forall i n, node d i = Some n -> node d' i = Some n) as Hnew by (intros; by eapply grown_old).
  split.
  - destruct (shape_root d S) as (n & Hn & ? & ?). rewrite R. eauto.
  - intros i n j [Hn|(_ & Hc & _)]%Hold Hj; [|by rewrite Hc in Hj; apply elem_of_nil in Hj].
    destruct (shape_child d S _ _ _ Hn Hj) as (m & Hm & ?). eauto.
  - intros j m i [Hm|(Hp & _)]%Hold Hp'; [|congruence].
    destruct (shape_parent d S _ _ _ Hm Hp') as (n & Hn & ?). eauto.
  - intros i n [Hn|(_ & Hc & _)]%Hold; [by eapply shape_nodup|]. rewrite Hc. constructor.
  - intros i n t [Hn|(_ & _ & Ht)]%Hold Ht'; [|congruence]. rewrite R.
    destruct (shape_template d S _ _ _ Hn Ht') as (? & m & Hm & ? & ?). eauto 6.
  - intros i n i' n' t [Hn|(_ & _ & Ht)]%Hold [Hn'|(_ & _ & Ht')]%Hold; try congruence.
    by apply (shape_owner d S).
  - intros i. induction (shape_acyclic d S i) as [i _ IH]. constructor. intros j Hj. apply IH.
    by apply (grown_link x d d' i j).
Qed.

(** [d'] is [d] with [c] taken from its place and put among the children of [p]. *)
Record hung (p c : NodeId) (ins : list NodeId -> list NodeId) (d d' : Document) : Prop := {
  hg_root : dc_root d' = dc_root d;
  hg_node : forall i, node d' i =
    (fun n => MkNode (if decide (i = c) then Some p else nd_parent n)
       (if decide (i = p) then ins (without c (nd_children n)) else without c (nd_children n))
       (nd_data n)) <$> node d i;
  hg_ins : forall l, ins l ≡ₚ c :: l;
}.

Lemma hang_node d p c ins i :
  tree_shaped d -> p <> c ->
  node (update_node p (fun n => set_children (ins (nd_children n)) n)
          (update_node c (set_parent (Some p)) (detach c d))) i =
  (fun n => MkNode (if decide (i = c) then Some p else nd_parent n)
     (if decide (i = p) then ins (without c (nd_children n)) else without c (nd_children n))
     (nd_data n)) <$> node d i.
Proof.
  intros S Hpc. pose proof (detach_pruned d c S) as [R N _ _].
  rewrite !node_update, N. destruct (node d i) as [n|]; simpl; [|by repeat case_decide].
  assert (filter (fun k => k ∉ ({[c]} : gset NodeId)) (nd_children n) = without c (nd_children n)) as ->.
  { apply list_filter_iff. intros k. set_solver. }
  destruct (decide (p = i)) as [->|Hpi], (decide (c = i)) as [->|Hci]; try done; simpl;
    unfold set_children, set_parent; simpl.
  - rewrite (decide_False (P := i ∈ _)) by set_solver. by rewrite (decide_False (P := i = c)), decide_True by done.
  - by rewrite decide_True, decide_False by done.
  - rewrite (decide_False (P := i ∈ _)) by set_solver. by rewrite (decide_False (P := i = c)), (decide_False (P := i = p)) by done.
Qed.

Lemma both_known_ok d p c : is_Some (node d p) -> is_Some (node d c) -> both_known p c d = true.
Proof. intros. unfold both_known. by rewrite !bool_decide_eq_true_2. Qed.

Lemma append_child_ok d p c :
  tree_shaped d -> p <> c -> is_Some (node d p) -> is_Some (node d c) ->
  exists d', append_child p c d = Ok d' /\ hung p c (fun l => l ++ [c]) d d'.
Proof.
  intros S Hpc Hp Hc. unfold append_child. rewrite both_known_ok by done. simpl. eexists. split; [done|].
  split; [|intros i; by apply hang_node with (ins := fun l => l ++ [c])|].
  - unfold detach. by destruct (_ ≫= _).
  - intros l. by rewrite Permutation_app_comm.
Qed.

Lemma prepend_child_ok d p c :
  tree_shaped d -> p <> c -> is_Some (node d p) -> is_Some (node d c) ->
  exists d', prepend_child p c d = Ok d' /\ hung p c (cons c) d d'.
Proof.
  intros S Hpc Hp Hc. unfold prepend_child. rewrite both_known_ok by done. simpl. eexists. split; [done|].
  split; [|intros i; by apply hang_node with (ins := cons c)|done].
  unfold detach. by destruct (_ ≫= _).
Qed.

Lemma elem_of_without c (l : list NodeId) j : j ∈ without c l <-> j <> c /\ j ∈ l.
Proof. unfold without. rewrite list_elem_of_filter. done. Qed.

Lemma hung_children p c ins d d' i n j :
  hung p c ins d d' -> node d i = Some n ->
  j ∈ (if decide (i = p) then ins (without c (nd_children n)) else without c (nd_children n)) <->
  (i = p /\ j = c) \/ (j <> c /\ j ∈ nd_children n).
Proof.
  intros H Hn. case_decide; [rewrite (hg_ins _ _ _ _ _ H), elem_of_cons|]; rewrite elem_of_without; set_solver.
Qed.

(** What a node is: not a document, hence neither the root nor the contents
    of a template. *)
Definition movable (d : Document) (c : NodeId) : Prop :=
  exists n, node d c = Some n /\ nd_data n <> NDocument.

Lemma hung_link p c ins d d' i j :
  hung p c ins d d' -> tree_shaped d -> movable d c -> is_Some (node d p) ->
  link d' i j <-> (i = p /\ j = c) \/ (link d i j /\ j <> c).
Proof.
  intros H S (m & Hm & Hd) Hp. unfold link. setoid_rewrite elem_of_successors.
  setoid_rewrite (hg_node _ _ _ _ _ H i). split.
  - intros (n' & Hn' & Hj). apply fmap_Some in Hn' as (n & Hn & ->). simpl in Hj.
    rewrite (hung_children _ _ _ _ _ _ _ j H Hn) in Hj.
    destruct Hj as [Ht|[[-> ->]|[Hjc Hj]]]; [|by left|right; eauto]. right. split; [eauto|].
    intros ->. destruct (shape_template d S _ _ _ Hn Ht) as (_ & m' & Hm' & _ & Hd'). congruence.
  - intros [[-> ->]|[(n & Hn & Hj) Hjc]].
    + destruct Hp as [n Hn]. rewrite Hn. eexists; split; [done|]. simpl. right.
      apply (hung_children _ _ _ _ _ _ _ c H Hn). auto.
    + rewrite Hn. eexists; split; [done|]. simpl. destruct Hj as [Ht|Hj]; [by left|right].
      apply (hung_children _ _ _ _ _ _ _ j H Hn). auto.
Qed.

Lemma hung_acyclic p c ins d d' i :
  hung p c ins d d' -> tree_shaped d -> movable d c -> is_Some (node d p) -> ~ below d c p ->
  Acc (fun j i => link d' i j) i.
Proof.
  intros H S Hc Hp Hcp.
  assert (forall x, below d c x -> Acc (fun j i => link d' i j) x) as Hlow.
  { intros x. induction (shape_acyclic d S x) as [x _ IH]. intros Hx. constructor. intros y Hy.
    apply (hung_link _ _ _ _ _ x y H S Hc Hp) in Hy as [[-> ->]|[Hy _]]; [done|].
    apply IH; [done|]. by eapply rtc_r. }
  induction (shape_acyclic d S i) as [i _ IH]. constructor. intros j Hj.
  apply (hung_link _ _ _ _ _ i j H S Hc Hp) in Hj as [[-> ->]|[Hj _]]; [|by apply IH].
  apply Hlow, rtc_refl.
Qed.

Lemma hung_shape p c ins d d' :
  hung p c ins d d' -> tree_shaped d -> movable d c -> is_Some (node d p) -> ~ below d c p ->
  tree_shaped d'.
Proof.
  intros H S Hc Hp Hcp. pose proof (fun i => hung_acyclic p c ins d d' i H S Hc Hp Hcp) as Hacc.
  pose proof (hg_node _ _ _ _ _ H) as N. pose proof Hc as (nc & Hnc & Hdc).
  assert (forall t m, node d t = Some m -> nd_data m = NDocument -> t <> c) as Hne by congruence.
  split; [| | | | | |done].
  - destruct (shape_root d S) as (n & Hn & Hpn & Hd). rewrite (hg_root _ _ _ _ _ H), N, Hn; simpl.
    eexists; split_and!; [done| |done]. simpl. rewrite decide_False; eauto.
  - intros i n' j Hn' Hj. rewrite N in Hn'. apply fmap_Some in Hn' as (n & Hn & ->). simpl in Hj.
    rewrite (hung_children _ _ _ _ _ _ _ j H Hn) in Hj. rewrite N. destruct Hj as [[-> ->]|[Hjc Hj]].
    + rewrite Hnc; simpl. eexists; split; [done|]. simpl. by rewrite decide_True.
    + destruct (shape_child d S _ _ _ Hn Hj) as (m & Hm & Hpm). rewrite Hm; simpl.
      eexists; split; [done|]. simpl. by rewrite decide_False.
  - intros j m' i Hm' Hpi. rewrite N in Hm'. apply fmap_Some in Hm' as (m & Hm & ->). simpl in Hpi.
    case_decide as Hjc; [simplify_eq|].
    + destruct Hp as [n Hn]. rewrite N, Hn; simpl. eexists; split; [done|]. simpl.
      apply (hung_children _ _ _ _ _ _ _ c H Hn). auto.
    + destruct (shape_parent d S _ _ _ Hm Hpi) as (n & Hn & Hj). rewrite N, Hn; simpl.
      eexists; split; [done|]. simpl. apply (hung_children _ _ _ _ _ _ _ j H Hn). auto.
  - intros i n' Hn'. rewrite N in Hn'. apply fmap_Some in Hn' as (n & Hn & ->). simpl.
    assert (NoDup (without c (nd_children n))) as Hnd by (apply NoDup_filter; by eapply shape_nodup).
    case_decide; [|done]. rewrite (hg_ins _ _ _ _ _ H). apply NoDup_cons. split; [|done].
    by intros [? _]%elem_of_without.
  - intros i n' t Hn' Ht. rewrite N in Hn'. apply fmap_Some in Hn' as (n & Hn & ->). simpl in Ht.
    destruct (shape_template d S _ _ _ Hn Ht) as (Hr & m & Hm & Hpm & Hd).
    rewrite (hg_root _ _ _ _ _ H), N, Hm; simpl. split; [done|]. eexists; split_and!; [done| |done].
    simpl. rewrite decide_False; eauto.
  - intros i n1 i' n2 t Hn1 Hn2 Ht1 Ht2. rewrite N in Hn1, Hn2.
    apply fmap_Some in Hn1 as (m1 & Hm1 & ->). apply fmap_Some in Hn2 as (m2 & Hm2 & ->).
    by eapply (shape_owner d S i m1 i' m2).
Qed.

(** ** The tree an arena holds

    The abstract view of a document: ordered trees whose nodes carry their
    data, with the contents of templates beside the children.  A document whose
    links form a tree has such a view, and node identifiers play no part in it. *)

Inductive tree := Tree (data : NodeData) (template : option tree) (children : list tree).

Definition tr_data (t : tree) : NodeData := let 'Tree x _ _ := t in x.

(** The data without the identifier of the template contents. *)
Definition erase (x : NodeData) : NodeData :=
  match x with NElement name attrs _ m => NElement name attrs None m | _ => x end.

Fixpoint tree_at (fuel : nat) (d : Document) (id : NodeId) : option tree :=
  match fuel with
  | O => None
  | S fuel' =>
      n ← node d id;
      template ← match template_of (nd_data n) with
                 | Some t => Some <$> tree_at fuel' d t
                 | None => Some None
                 end;
      children ← mapM (tree_at fuel' d) (nd_children n);
      Some (Tree (erase (nd_data n)) template children)
  end.

Definition tree_of (d : Document) : option tree := tree_at (node_count d) d (dc_root d).

(** The nodes of a tree in document order. *)
Fixpoint preorder (t : tree) : list NodeData :=
  let 'Tree x template children := t in
  x :: match template with Some t => preorder t | None => [] end
    ++ concat (map preorder children).

Section Induction.
Context (P : tree -> Prop).
Hypothesis step : forall x template children,
  (forall t, template = Some t -> P t) -> Forall P children -> P (Tree x template children).

Fixpoint tree_rec_strong (t : tree) : P t :=
  match t with
  | Tree x template children =>
      step x template children
        (match template with
         | Some t => fun t' E => eq_ind t P (tree_rec_strong t) t' (Some_inj _ _ E)
         | None => fun t' E => match E in _ = o return match o with Some _ => P t' | None => True end with eq_refl => I end
         end)
        ((fix all l := match l return Forall P l with
                       | [] => Forall_nil_2 P
                       | t :: l => Forall_cons_2 P t l (tree_rec_strong t) (all l)
                       end) children)
  end.
End Induction.

(** ** Every tree-shaped document has its tree *)

Lemma branch_shorter d i j l l' :
  tree_shaped d -> link d i j -> listing d [i] l -> listing d [j] l' -> length l' < length l.
Proof.
  intros S Hl [_ B N] [_ B' N'].
  change (length (i :: l') <= length l). apply submseteq_length, NoDup_submseteq.
  - apply NoDup_cons. split; [|done]. intros (k & ->%list_elem_of_singleton & Hk)%B'.
    by apply (no_cycle d S i j).
  - intros k [->|(k' & ->%list_elem_of_singleton & Hk)%B']%elem_of_cons; apply B; exists i;
      (split; [set_solver|]); [apply rtc_refl|by eapply rtc_l].
Qed.

Lemma tree_at_total d i l :
  tree_shaped d -> is_Some (node d i) -> listing d [i] l ->
  exists t, forall fuel, length l <= fuel -> tree_at fuel d i = Some t.
Proof.
  intros S. revert l. induction (shape_acyclic d S i) as [i _ IH]. intros l [n Hn] L.
  assert (forall j, j ∈ successors n ->
    exists t, forall fuel, length l <= fuel -> tree_at (pred fuel) d j = Some t) as Hsub.
  { intros j Hj. assert (link d i j) as Hl by (exists n; done).
    assert (is_Some (node d j)) as Hk by (by eapply link_known).
    destruct (listing_one d j S Hk) as [l' L'].
    destruct (IH j Hl l' Hk L') as [t Ht]. exists t. intros fuel Hf. apply Ht.
    pose proof (branch_shorter d i j l l' S Hl L L'). lia. }
  assert (exists tm, forall fuel, length l <= fuel ->
    match template_of (nd_data n) with
    | Some t => Some <$> tree_at (pred fuel) d t | None => Some None end = Some tm) as [tm Htm].
  { destruct (template_of (nd_data n)) as [t|] eqn:Et; [|by exists None].
    destruct (Hsub t) as [t' Ht']; [apply elem_of_successors; auto|].
    exists (Some t'). intros fuel Hf. by rewrite Ht'. }
  assert (forall cs, cs ⊆ nd_children n -> exists ts, forall fuel, length l <= fuel ->
    mapM (tree_at (pred fuel) d) cs = Some ts) as Hch.
  { intros cs. induction cs as [|c cs IHc]; intros Hcs; [by exists []|].
    destruct IHc as [ts Hts]; [set_solver|].
    destruct (Hsub c) as [t Ht]; [apply elem_of_successors; set_solver|].
    exists (t :: ts). intros fuel Hf. simpl. by rewrite Ht, Hts. }
  destruct (Hch (nd_children n)) as [ts Hts]; [done|].
  exists (Tree (erase (nd_data n)) tm ts). intros fuel Hf.
  assert (0 < length l) as Hpos.
  { destruct l; simpl; [|lia]. assert (i ∈ ([] : list NodeId)) as ?%elem_of_nil; [|done].
    apply (ls_below _ _ _ L). exists i. split; [set_solver|apply rtc_refl]. }
  destruct fuel as [|fuel]; [lia|]. specialize (Htm _ Hf). specialize (Hts _ Hf). simpl in Htm, Hts |- *.
  rewrite Hn; simpl. rewrite Htm; simpl. by rewrite Hts.
Qed.

Lemma tree_of_total d : tree_shaped d -> exists t, tree_of d = Some t.
Proof.
  intros S. destruct (walk_loop_total d S) as [_ L]. destruct (shape_root d S) as (n & Hn & _).
  destruct (tree_at_total d (dc_root d) (walk d) S) as [t Ht]; [eauto|done|].
  exists t. apply Ht. eapply listing_length; eauto.
Qed.

Lemma tree_at_inv fuel d i t :
  tree_at fuel d i = Some t ->
  exists fuel' n tm ts, fuel = S fuel' /\ node d i = Some n /\ t = Tree (erase (nd_data n)) tm ts /\
    match template_of (nd_data n) with
    | Some k => Some <$> tree_at fuel' d k = Some tm
    | None => tm = None
    end /\ Forall2 (fun c t => tree_at fuel' d c = Some t) (nd_children n) ts.
Proof.
  destruct fuel as [|fuel]; [done|]. simpl. intros (n & Hn & H)%bind_Some.
  apply bind_Some in H as (tm & Htm & H). apply bind_Some in H as (ts & Hts & [= <-]).
  exists fuel, n, tm, ts. split_and!; try done.
  - by destruct (template_of (nd_data n)); simplify_eq.
  - by apply mapM_Some.
Qed.

(** The walk lists the nodes of the tree. *)
Definition walked_data (d : Document) (l : list NodeId) : list NodeData :=
  omap (fun id => erase <$> node_data d id) l.

Lemma walked_app d l1 l2 : walked_data d (l1 ++ l2) = walked_data d l1 ++ walked_data d l2.
Proof. apply omap_app. Qed.

Lemma tree_visits fuel d i t :
  tree_at fuel d i = Some t -> exists l, visits d [i] l /\ walked_data d l = preorder t.
Proof.
  revert i t. induction fuel as [|fuel IH]; intros i t Ht; [done|].
  apply tree_at_inv in Ht as (f & n & tm & ts & [= <-] & Hn & -> & Htm & Hts).
  assert (exists l, visits d (nd_children n) l /\ walked_data d l = concat (map preorder ts)) as (l & V & W).
  { induction Hts as [|c t cs ts Hc _ (l & V & W)]; [by exists []; split; [apply visits_nil|]|].
    destruct (IH c t Hc) as (l' & V' & W'). exists (l' ++ l). split; [by apply (visits_app d [c])|].
    rewrite walked_app, W, W'. done. }
  assert (exists l, visits d (option_list (template_of (nd_data n))) l /\
            walked_data d l = match tm with Some t => preorder t | None => [] end) as (l' & V' & W').
  { destruct (template_of (nd_data n)) as [k|]; simpl.
    - destruct tm as [t|]; [|by destruct (tree_at fuel d k)]. destruct (IH k t) as (l' & V' & W'); [|eauto].
      destruct (tree_at fuel d k); simpl in Htm; congruence.
    - subst tm. exists []. split; [apply visits_nil|done]. }
  exists (i :: l' ++ l). split.
  - eapply visits_node; [done|]. by apply visits_app.
  - unfold walked_data. simpl. unfold node_data. rewrite Hn; simpl. f_equal.
    change (walked_data d (l' ++ l) = match tm with Some t => preorder t | None => [] end ++ concat (map preorder ts)).
    by rewrite walked_app, W, W'.
Qed.

Lemma tree_walk d t : tree_shaped d -> tree_of d = Some t -> walked_data d (walk d) = preorder t.
Proof.
  intros S Ht. destruct (tree_visits _ _ _ _ Ht) as (l & V & <-). f_equal.
  destruct (walk_loop_total d S) as [W _].
  assert (walk_loop (length l + node_count d) d [dc_root d] = Some l) as E.
  { etransitivity; [apply (V _ [])|]. by destruct (node_count d); simpl; rewrite app_nil_r. }
  apply (walk_loop_more _ _ (length l)) in W. rewrite Nat.add_comm in W. congruence.
Qed.
