(* ===== verification/Sanitize.v ===== *)
(** * Safe-static documents

    Models [offprint-rs/document/src/policy.rs] and
    [offprint-rs/document/src/sanitize.rs]: which elements and attributes make a
    page active, their removal, and the style that freezes its rendering. *)

From Stdlib Require Import ZArith Lia Ascii String.
From stdpp Require Import base tactics list gmap strings numbers.
From S2P Require Import Prelude.
From S2P Require Import Errors.
From S2P Require Import Dom.

#[local] Open Scope string_scope.
#[local] Open Scope list_scope.
#[local] Open Scope Z_scope.

(** ** Text *)

Fixpoint trim_left (l : list Z) : list Z :=
  match l with c :: l' => if is_whitespace c then trim_left l' else l | [] => [] end.

(** [str::trim]. *)
Definition str_trim (s : string) : string :=
  utf8_encode (rev (trim_left (rev (trim_left (utf8_chars (as_bytes s)))))).

(** [char::is_control]: the general category [Cc]. *)
Definition is_control (c : Z) : bool := (c <? 32) || ((127 <=? c) && (c <=? 159)).

Definition is_ascii_whitespace_char (c : Z) : bool :=
  (c =? 32) || (c =? 9) || (c =? 10) || (c =? 12) || (c =? 13).

(** [str::get(..n)]: [None] past the end or inside a character. *)
Definition get_prefix (n : nat) (l : bytes) : option bytes :=
  if (Nat.ltb (length l) n)
     || match l !! n with Some c => (128 <=? byte_val c) && (byte_val c <? 192) | None => false end
  then None else Some (take n l).

(** The part before the first [;], trimmed, in lower case. *)
Definition media_type (value : string) : string :=
  to_ascii_lowercase (str_trim (default "" (head (split ";" value)))).

(** ** Policy *)

Definition REQUEST_TRIGGERING_LINK_REL_TOKENS : list string :=
  ["compression-dictionary"; "dns-prefetch"; "import"; "manifest"; "modulepreload"; "preconnect";
   "prefetch"; "preload"; "prerender"; "serviceworker"; "subresource"; "webbundle"].

Definition ICON_LINK_REL_TOKENS : list string :=
  ["icon"; "apple-touch-icon"; "apple-touch-icon-precomposed"; "mask-icon"].

Inductive LinkRelPolicy := RelOther | RelStylesheet | RelIcon | RelRequestTrigger.

Definition triggers_unsupported_request (p : LinkRelPolicy) : bool :=
  match p with RelRequestTrigger => true | _ => false end.

Definition is_unsupported_request_token (token : string) : bool :=
  existsb (eq_ignore_ascii_case token) REQUEST_TRIGGERING_LINK_REL_TOKENS.

Definition is_icon_token (token : string) : bool :=
  existsb (eq_ignore_ascii_case token) ICON_LINK_REL_TOKENS.

(** The loop over the tokens, with its two flags. *)
Fixpoint classify_tokens (tokens : list string) (stylesheet icon : bool) : LinkRelPolicy :=
  match tokens with
  | [] => if stylesheet then RelStylesheet else if icon then RelIcon else RelOther
  | token :: tokens' =>
      if is_unsupported_request_token token then RelRequestTrigger
      else classify_tokens tokens' (stylesheet || eq_ignore_ascii_case token "stylesheet")
             (icon || is_icon_token token)
  end.

Definition rel_tokens (value : string) : list string :=
  map string_of_list_ascii (split_ascii_whitespace [] (as_bytes value)).

Definition classify_link_rel (value : string) : LinkRelPolicy :=
  classify_tokens (rel_tokens value) false false.

Definition link_rel (attrs : list Attribute) : LinkRelPolicy :=
  match attribute_value attrs "rel" with Some v => classify_link_rel v | None => RelOther end.

Definition is_request_triggering_link (name : QualName) (attrs : list Attribute) : bool :=
  name_is ns_html "link" name && triggers_unsupported_request (link_rel attrs).

Definition is_script_element (name : QualName) : bool :=
  bool_decide (qn_ns name ∈ [ns_html; ns_svg]) && bool_decide (qn_local name = "script").

Definition STRUCTURED_METADATA_TYPES : list string :=
  ["application/json"; "application/ld+json"; "application/vnd.offprint.manifest+json";
   "application/vnd.offprint.repair+json"].

Definition is_structured_metadata_script (attrs : list Attribute) : bool :=
  match attribute_value attrs "type" with
  | Some v => bool_decide (media_type v ∈ STRUCTURED_METADATA_TYPES)
  | None => false
  end.

Definition is_event_attribute (a : Attribute) : bool :=
  bool_decide (qn_ns (at_name a) = ns_none)
  && starts_with "on" (to_ascii_lowercase (qn_local (at_name a))).

Definition URL_ATTRIBUTES : list string :=
  ["action"; "cite"; "data"; "formaction"; "href"; "poster"; "src"].

Definition is_url_attribute (a : Attribute) : bool :=
  (bool_decide (qn_ns (at_name a) = ns_none) && bool_decide (qn_local (at_name a) ∈ URL_ATTRIBUTES))
  || name_is ns_xlink "href" (at_name a).

Definition is_javascript_url (value : string) : bool :=
  let compact := List.filter (fun c => negb (is_ascii_whitespace_char c) && negb (is_control c))
                   (utf8_chars (as_bytes value)) in
  match get_prefix 11 (as_bytes (utf8_encode compact)) with
  | Some prefix => eq_ignore_ascii_case (string_of_list_ascii prefix) "javascript:"
  | None => false
  end.

Definition is_javascript_url_attribute (a : Attribute) : bool :=
  is_url_attribute a && is_javascript_url (at_value a).

Definition is_base_element (name : QualName) : bool := name_is ns_html "base" name.

Definition http_equiv_is (what : string) (name : QualName) (attrs : list Attribute) : bool :=
  name_is ns_html "meta" name
  && match attribute_value attrs "http-equiv" with
     | Some v => eq_ignore_ascii_case v what
     | None => false
     end.

Definition is_meta_refresh (name : QualName) (attrs : list Attribute) : bool :=
  http_equiv_is "refresh" name attrs.

(** ** Sanitising *)

Record SanitizationReport := MkSanitized {
  removed_elements : Z;
  removed_event_attributes : Z;
  removed_javascript_urls : Z;
}.

Definition should_remove_element (x : NodeData) : bool :=
  match x with
  | NElement name attrs _ _ =>
      if is_script_element name
      then bool_decide (qn_ns name = ns_svg) || negb (is_structured_metadata_script attrs)
      else if is_base_element name then true
      else if is_meta_refresh name attrs then true
      else if http_equiv_is "content-security-policy" name attrs then true
      else is_request_triggering_link name attrs
  | _ => false
  end.

Definition kept_attribute (a : Attribute) : bool :=
  negb (is_event_attribute a) && negb (is_javascript_url_attribute a).

(** [retain] with its two counters. *)
Fixpoint sanitize_attributes (attrs : list Attribute) (r : SanitizationReport)
    : list Attribute * SanitizationReport :=
  match attrs with
  | [] => ([], r)
  | a :: attrs' =>
      if is_event_attribute a then
        sanitize_attributes attrs'
          (MkSanitized (removed_elements r) (removed_event_attributes r + 1) (removed_javascript_urls r))
      else if is_javascript_url_attribute a then
        sanitize_attributes attrs'
          (MkSanitized (removed_elements r) (removed_event_attributes r) (removed_javascript_urls r + 1))
      else
        let '(l, r) := sanitize_attributes attrs' r in (a :: l, r)
  end.

Definition sanitize_node (id : NodeId) (d : Document) (r : SanitizationReport)
    : Document * SanitizationReport :=
  if match node_data d id with Some x => should_remove_element x | None => false end
  then (detach id d,
        MkSanitized (removed_elements r + 1) (removed_event_attributes r) (removed_javascript_urls r))
  else
    match element_at d id with
    | Some (_, attrs) =>
        let '(attrs, r) := sanitize_attributes attrs r in (update_attrs id (fun _ => attrs) d, r)
    | None => (d, r)
    end.

Fixpoint sanitize_nodes (ids : list NodeId) (d : Document) (r : SanitizationReport)
    : Document * SanitizationReport :=
  match ids with
  | [] => (d, r)
  | id :: ids' => let '(d, r) := sanitize_node id d r in sanitize_nodes ids' d r
  end.

Definition sanitize_safe_static (d : Document) : Document * SanitizationReport :=
  sanitize_nodes (walk d) d (MkSanitized 0 0 0).

(** ** Freezing the rendering

    A failure leaves nothing behind: the callers drop the document. *)

Definition FREEZE_ATTRIBUTE : string := "data-offprint-freeze".
Definition FREEZE_CSS : string :=
  "*,*::before,*::after{animation-play-state:paused!important;transition:none!important;caret-color:transparent!important}".

Definition has_direct_freeze_style (d : Document) (parent : NodeId) : bool :=
  existsb (element_test d (fun name attrs =>
      name_is ns_html "style" name
      && match attribute_value attrs FREEZE_ATTRIBUTE with Some _ => true | None => false end))
    (match node d parent with Some n => nd_children n | None => [] end).

Definition append_freeze_style (parent : NodeId) (d : Document) : Res Document :=
  '(style, d) <-? create_node (NElement (html_name "style") [html_attribute FREEZE_ATTRIBUTE ""] None false) d ;;
  '(text, d) <-? create_node (NText FREEZE_CSS) d ;;
  d <-? append_child style text d ;;
  append_child parent style d.

Definition ensure_freeze_style (d : Document) (parent : NodeId) : Res Document :=
  if has_direct_freeze_style d parent then Ok d else append_freeze_style parent d.

(** The contents of the templates that are declarative shadow roots. *)
Definition shadow_roots (d : Document) : list NodeId :=
  omap (fun id =>
      match node_data d id with
      | Some (NElement name attrs (Some contents) _) =>
          if name_is ns_html "template" name
             && match attribute_value attrs "shadowrootmode" with Some _ => true | None => false end
          then Some contents else None
      | _ => None
      end)
    (walk d).

Fixpoint fold_document (f : Document -> NodeId -> Res Document) (ids : list NodeId) (d : Document)
    : Res Document :=
  match ids with [] => Ok d | id :: ids' => d <-? f d id ;; fold_document f ids' d end.

Definition ensure_render_freeze_styles (d : Document) : Res Document :=
  parent <-? ok_or (match find_html_element "head" d with
                    | Some head => Some head
                    | None => find_html_element "html" d
                    end) document_error ;;
  d <-? ensure_freeze_style d parent ;;
  fold_document ensure_freeze_style (shadow_roots d) d.

Example javascript_urls :
  map is_javascript_url [" JAVA	script:go()"; "javascript"; "https://a/"; "java script :x"] =
  [true; false; false; true].
Proof. vm_compute. reflexivity. Qed.

Example rel_values :
  map classify_link_rel ["  alternate	StyleSheet "; "shortcut ICON"; "alternate MANIFEST stylesheet"; "license"] =
  [RelStylesheet; RelIcon; RelRequestTrigger; RelOther].
Proof. vm_compute. reflexivity. Qed.
