(* ===== verification/SanitizeFacts.v ===== *)
(** * What sanitising leaves

    Cutting removable elements out of the arena while going through a list of
    identifiers taken beforehand is, on the tree, one recursive filter; nothing
    active is left below the root and nothing else is touched. *)

From Stdlib Require Import ZArith Lia Ascii String.
From stdpp Require Import base tactics list gmap strings numbers relations.
From S2P Require Import Prelude.
From S2P Require Import Errors.
From S2P Require Import Dom.
From S2P Require Import DomFacts.
From S2P Require Import Sanitize.

#[local] Open Scope string_scope.
#[local] Open Scope list_scope.
#[local] Open Scope Z_scope.

(** ** The specification on trees *)

Definition clean (x : NodeData) : NodeData :=
  if should_remove_element x then x else map_attrs (List.filter kept_attribute) x.

Fixpoint sanitize_tree (t : tree) : tree :=
  let 'Tree x template children := t in
  Tree (clean x) (match template with Some t => Some (sanitize_tree t) | None => None end)
    (flat_map (fun t => if should_remove_element (tr_data t) then [] else [sanitize_tree t]) children).

(** ** Attributes *)

Lemma sanitize_attributes_spec attrs r :
  sanitize_attributes attrs r =
  (List.filter kept_attribute attrs,
   MkSanitized (removed_elements r)
     (removed_event_attributes r + Z.of_nat (length (List.filter is_event_attribute attrs)))
     (removed_javascript_urls r
      + Z.of_nat (length (List.filter (fun a => negb (is_event_attribute a) && is_javascript_url_attribute a) attrs)))).
Proof.
  revert r. induction attrs as [|a attrs IH]; intros [e v j]; simpl; [by rewrite !Z.add_0_r|].
  unfold kept_attribute at 1. destruct (is_event_attribute a); simpl.
  - rewrite IH. simpl. f_equal. f_equal; lia.
  - destruct (is_javascript_url_attribute a); rewrite IH; simpl; f_equal; f_equal; lia.
Qed.

(** The attributes a removal is decided by are never dropped. *)
Lemma keeps_plain name a :
  negb (starts_with "on" (to_ascii_lowercase name)) = true -> name ∉ URL_ATTRIBUTES ->
  plain_attribute name a = true -> kept_attribute a = true.
Proof.
  intros Hon Hurl Ha. unfold plain_attribute, name_is in Ha. bool_facts.
  unfold kept_attribute, is_event_attribute, is_javascript_url_attribute, is_url_attribute, name_is.
  rewrite H, H0. rewrite (bool_decide_eq_false_2 (name ∈ URL_ATTRIBUTES)) by done.
  by rewrite Hon.
Qed.

Lemma attribute_value_kept attrs name :
  negb (starts_with "on" (to_ascii_lowercase name)) = true -> name ∉ URL_ATTRIBUTES ->
  attribute_value (List.filter kept_attribute attrs) name = attribute_value attrs name.
Proof.
  intros Hon Hurl. unfold attribute_value. induction attrs as [|a attrs IH]; simpl; [done|].
  destruct (plain_attribute name a) eqn:Ha.
  - rewrite (keeps_plain name) by done. simpl. by rewrite Ha.
  - destruct (kept_attribute a); simpl; [by rewrite Ha|done].
Qed.

Lemma should_remove_clean x : should_remove_element (clean x) = should_remove_element x.
Proof.
  unfold clean. destruct (should_remove_element x) eqn:E; [done|]. destruct x; try done.
  rewrite <- E. simpl.
  unfold is_structured_metadata_script, is_meta_refresh, http_equiv_is, is_request_triggering_link, link_rel.
  rewrite !attribute_value_kept; try done; unfold URL_ATTRIBUTES; set_solver.
Qed.

Lemma filter_again {A} (f : A -> bool) l : List.filter f (List.filter f l) = List.filter f l.
Proof.
  induction l as [|x l IH]; simpl; [done|]. destruct (f x) eqn:E; simpl; [|done]. by rewrite E, IH.
Qed.

Lemma clean_again x : clean (clean x) = clean x.
Proof.
  unfold clean at 1. rewrite should_remove_clean. destruct (should_remove_element x) eqn:E; [done|].
  unfold clean. rewrite E. destruct x; try done. simpl. by rewrite filter_again.
Qed.

Lemma clean_template x : template_of (clean x) = template_of x.
Proof. unfold clean. destruct (should_remove_element x); [done|]. by destruct x. Qed.

Lemma should_remove_erase x : should_remove_element (erase x) = should_remove_element x.
Proof. by destruct x. Qed.

Lemma clean_erase x : clean (erase x) = erase (clean x).
Proof. unfold clean. rewrite should_remove_erase. destruct (should_remove_element x); [done|]. by destruct x. Qed.

(** ** The arena *)

Definition removable (d : Document) (id : NodeId) : bool :=
  match node_data d id with Some x => should_remove_element x | None => false end.

Definition removed (d : Document) (ids : list NodeId) : gset NodeId :=
  list_to_set (List.filter (removable d) ids).

Lemma elem_of_removed d ids j : j ∈ removed d ids <-> j ∈ ids /\ removable d j = true.
Proof.
  unfold removed. rewrite elem_of_list_to_set, list_elem_of_In, filter_In, <- list_elem_of_In. done.
Qed.

Definition cleaned (ids : list NodeId) (j : NodeId) (x : NodeData) : NodeData :=
  if decide (j ∈ ids) then clean x else x.

Lemma pruned_ext cs cs' f g d d' :
  (forall j, j ∈ cs <-> j ∈ cs') -> (forall i x, node_data d i = Some x -> f i x = g i x) ->
  (forall i x, template_of (g i x) = template_of x) -> (forall i, g i NDocument = NDocument) ->
  pruned cs f d d' -> pruned cs' g d d'.
Proof.
  intros Hcs Hfg Ht Hd [R N _ _]. split; [done| |done|done]. intros i. rewrite N.
  unfold node_data in Hfg. specialize (Hfg i). destruct (node d i) as [n|]; simpl; [|done]. do 2 f_equal.
  - repeat case_decide; naive_solver.
  - apply list_filter_iff. naive_solver.
  - by apply Hfg.
Qed.

Lemma cleaned_template ids i x : template_of (cleaned ids i x) = template_of x.
Proof. unfold cleaned. case_decide; [apply clean_template|done]. Qed.

Lemma sanitize_node_pruned id d r :
  tree_shaped d -> pruned (removed d [id]) (cleaned [id]) d (sanitize_node id d r).1.
Proof.
  intros S. unfold sanitize_node.
  change (match node_data d id with Some x => should_remove_element x | None => false end) with (removable d id).
  assert (forall j, j ∈ removed d [id] <-> removable d id = true /\ j = id) as Hrem.
  { intros j. rewrite elem_of_removed. set_solver. }
  destruct (removable d id) eqn:Er; simpl.
  - eapply pruned_ext; [| |apply cleaned_template|intros; unfold cleaned; by case_decide|by apply detach_pruned].
    + intros j. rewrite Hrem. set_solver.
    + intros i x Hx. unfold cleaned. case_decide as Hi; [|done]. apply list_elem_of_singleton in Hi as ->.
      unfold removable in Er. rewrite Hx in Er. unfold clean. by rewrite Er.
  - destruct (element_at d id) as [[name attrs]|] eqn:He.
    + rewrite sanitize_attributes_spec. simpl.
      eapply pruned_ext; [| |apply cleaned_template|intros; unfold cleaned; by case_decide|apply update_attrs_pruned].
      * intros j. rewrite Hrem. set_solver.
      * intros i x Hx. unfold cleaned. destruct (decide (id = i)) as [<-|Hne].
        -- rewrite decide_True by set_solver. unfold clean. unfold removable in Er. rewrite Hx in Er. rewrite Er.
           unfold element_at in He. rewrite Hx in He. destruct x; simplify_eq. done.
        -- rewrite decide_False by set_solver. done.
    + eapply pruned_ext; [| |apply cleaned_template|intros; unfold cleaned; by case_decide|apply pruned_refl].
      * intros j. rewrite Hrem. set_solver.
      * intros i x Hx. unfold cleaned. case_decide as Hi; [|done]. apply list_elem_of_singleton in Hi as ->.
        unfold clean. unfold removable in Er. rewrite Hx in Er. rewrite Er.
        unfold element_at in He. rewrite Hx in He. by destruct x.
Qed.

Lemma pruned_data cs f d d' j : pruned cs f d d' -> node_data d' j = f j <$> node_data d j.
Proof. intros P. unfold node_data. rewrite (pr_node _ _ _ _ P). by destruct (node d j). Qed.

Lemma removable_cleaned cs ids d d' j :
  pruned cs (cleaned ids) d d' -> removable d' j = removable d j.
Proof.
  intros P. unfold removable. rewrite (pruned_data _ _ _ _ _ P). destruct (node_data d j) as [x|]; simpl; [|done].
  unfold cleaned. case_decide; [apply should_remove_clean|done].
Qed.

Lemma sanitize_nodes_pruned ids d r :
  tree_shaped d -> pruned (removed d ids) (cleaned ids) d (sanitize_nodes ids d r).1.
Proof.
  revert d r. induction ids as [|id ids IH]; intros d r S; simpl.
  { eapply pruned_ext; [| | | |apply pruned_refl]; try done; unfold cleaned; intros; by case_decide. }
  pose proof (sanitize_node_pruned id d r S) as P. destruct (sanitize_node id d r) as [d1 r1]. simpl in P.
  assert (tree_shaped d1) as S1 by (by eapply pruned_shape).
  eapply pruned_ext; [| |apply cleaned_template|intros; unfold cleaned; by case_decide|
    exact (pruned_trans _ _ _ _ _ _ _ P (IH d1 r1 S1))].
  - intros j. rewrite elem_of_union, !elem_of_removed, (removable_cleaned _ _ _ _ _ P). set_solver.
  - intros i x _. unfold cleaned. destruct (decide (i ∈ [id])), (decide (i ∈ ids)), (decide (i ∈ id :: ids));
      try set_solver. apply clean_again.
Qed.

Lemma sanitized_pruned d :
  tree_shaped d -> pruned (removed d (walk d)) (cleaned (walk d)) d (sanitize_safe_static d).1.
Proof. apply sanitize_nodes_pruned. Qed.

Lemma sanitized_shape d : tree_shaped d -> tree_shaped (sanitize_safe_static d).1.
Proof. intros S. eapply pruned_shape; [by apply sanitized_pruned|done]. Qed.

Lemma removable_element d j : removable d j = true -> is_Some (element_at d j).
Proof. unfold removable, element_at. destruct (node_data d j) as [[]|]; simpl; naive_solver. Qed.

Lemma sanitized_walk d j :
  tree_shaped d -> j ∈ walk (sanitize_safe_static d).1 -> j ∈ walk d /\ removable d j = false.
Proof.
  intros S Hj. apply (pruned_walk _ _ d _ j (sanitized_pruned d S) S) in Hj as [Hw Hr].
  - split; [done|]. apply not_true_is_false. intros H. apply Hr. by apply elem_of_removed.
  - intros c [_ Hc]%elem_of_removed. by apply removable_element.
Qed.

(** ** The tree *)

Lemma children_walked d i n c :
  tree_shaped d -> i ∈ walk d -> node d i = Some n -> c ∈ successors n -> c ∈ walk d.
Proof.
  intros S Hi Hn Hc. apply elem_of_walk in Hi; [|done]. apply elem_of_walk; [done|].
  eapply rtc_r; [done|]. by exists n.
Qed.

Section Refine.
Context (d : Document) (S : tree_shaped d).

Let d' := (sanitize_safe_static d).1.

Lemma sanitized_children fuel cs ts :
  cs ⊆ walk d ->
  (forall i t, i ∈ walk d -> tree_at fuel d i = Some t -> tree_at fuel d' i = Some (sanitize_tree t)) ->
  Forall2 (fun c t => tree_at fuel d c = Some t) cs ts ->
  mapM (tree_at fuel d') (filter (fun c => c ∉ removed d (walk d)) cs) =
  Some (flat_map (fun t => if should_remove_element (tr_data t) then [] else [sanitize_tree t]) ts).
Proof.
  intros Hsub IH Hts. induction Hts as [|c t cs ts Hc _ IHc]; [done|].
  assert (removable d c = should_remove_element (tr_data t)) as Hr.
  { apply tree_at_inv in Hc as (f & n & tm & ts' & _ & Hn & -> & _). simpl.
    unfold removable, node_data. rewrite Hn; simpl. by rewrite should_remove_erase. }
  rewrite filter_cons. cbn [flat_map]. rewrite <- Hr. case_decide as Hin; rewrite elem_of_removed in Hin.
  - destruct (removable d c); [exfalso; set_solver|]. simpl. rewrite (IH c t), IHc by set_solver. done.
  - destruct (removable d c); [|naive_solver]. apply IHc. set_solver.
Qed.

Lemma sanitized_tree_at fuel i t :
  i ∈ walk d -> tree_at fuel d i = Some t -> tree_at fuel d' i = Some (sanitize_tree t).
Proof.
  revert i t. induction fuel as [|fuel IH]; intros i t Hi Ht; [done|].
  apply tree_at_inv in Ht as (f & n & tm & ts & [= <-] & Hn & -> & Htm & Hts).
  simpl. rewrite (pr_node _ _ _ _ (sanitized_pruned d S)), Hn; simpl. rewrite cleaned_template.
  assert (match template_of (nd_data n) with
          | Some t => Some <$> tree_at fuel d' t | None => Some None end
          = Some (match tm with Some t => Some (sanitize_tree t) | None => None end)) as ->.
  { destruct (template_of (nd_data n)) as [k|] eqn:Hk; [|by subst].
    apply fmap_Some in Htm as (t & Ht & ->). rewrite (IH k t); [done| |done].
    eapply children_walked; [done..|]. apply elem_of_successors. auto. }
  simpl. rewrite (sanitized_children fuel _ ts); [|intros c Hc|done|done].
  - simpl. unfold cleaned. rewrite decide_True by done. by rewrite clean_erase.
  - eapply children_walked; [done..|]. apply elem_of_successors. auto.
Qed.
End Refine.

(** ** Reports *)

Definition attrs_at (d : Document) (id : NodeId) : list Attribute :=
  match element_at d id with Some (_, attrs) => attrs | None => [] end.

Definition total {A} (f : A -> Z) (l : list A) : Z := fold_right (fun x n => f x + n) 0 l.

Lemma total_ext {A} (f g : A -> Z) l : (forall x, x ∈ l -> f x = g x) -> total f l = total g l.
Proof.
  induction l as [|x l IH]; intros H; simpl; [done|]. rewrite (H x), IH by set_solver. done.
Qed.

Lemma total_zero {A} (f : A -> Z) l : (forall x, x ∈ l -> f x = 0) -> total f l = 0.
Proof.
  induction l as [|x l IH]; intros H; simpl; [done|]. rewrite (H x), IH by set_solver. done.
Qed.

(** What one visit adds to the report. *)
Definition one_if (b : bool) : Z := if b then 1 else 0.
Definition event_count (d : Document) (id : NodeId) : Z :=
  if removable d id then 0 else Z.of_nat (length (List.filter is_event_attribute (attrs_at d id))).
Definition url_count (d : Document) (id : NodeId) : Z :=
  if removable d id then 0
  else Z.of_nat (length (List.filter
         (fun a => negb (is_event_attribute a) && is_javascript_url_attribute a) (attrs_at d id))).

Lemma sanitize_node_report id d r :
  (sanitize_node id d r).2 =
  MkSanitized (removed_elements r + one_if (removable d id))
    (removed_event_attributes r + event_count d id) (removed_javascript_urls r + url_count d id).
Proof.
  unfold sanitize_node, event_count, url_count, attrs_at.
  change (match node_data d id with Some x => should_remove_element x | None => false end) with (removable d id).
  destruct (removable d id); [simpl; by rewrite !Z.add_0_r|].
  destruct (element_at d id) as [[name attrs]|]; [rewrite sanitize_attributes_spec|]; simpl;
    rewrite ?Z.add_0_r; [done|]. by destruct r.
Qed.

Lemma sanitize_nodes_report ids d r :
  tree_shaped d -> NoDup ids ->
  (sanitize_nodes ids d r).2 =
  MkSanitized (removed_elements r + total (fun i => one_if (removable d i)) ids)
    (removed_event_attributes r + total (event_count d) ids)
    (removed_javascript_urls r + total (url_count d) ids).
Proof.
  revert d r. induction ids as [|id ids IH]; intros d r S Hnd; simpl; [rewrite !Z.add_0_r; by destruct r|].
  apply NoDup_cons in Hnd as [Hid Hnd].
  pose proof (sanitize_node_pruned id d r S) as P. pose proof (sanitize_node_report id d r) as R.
  destruct (sanitize_node id d r) as [d1 r1]. simpl in P, R.
  assert (forall j, j ∈ ids -> element_at d1 j = element_at d j) as He.
  { intros j Hj. unfold element_at. rewrite (pruned_data _ _ _ _ _ P). unfold cleaned.
    destruct (node_data d j) as [x|]; simpl; [|done]. by rewrite decide_False by set_solver. }
  rewrite IH, R; [simpl|by eapply pruned_shape|done].
  f_equal; rewrite <- Z.add_assoc; do 2 f_equal; apply total_ext; intros j Hj;
    unfold event_count, url_count, attrs_at; rewrite ?(removable_cleaned _ _ _ _ _ P), ?He; done.
Qed.

(** ** Sanitising twice *)

Lemma sanitize_tree_data t : tr_data (sanitize_tree t) = clean (tr_data t).
Proof. by destruct t. Qed.

Lemma sanitize_tree_again t : sanitize_tree (sanitize_tree t) = sanitize_tree t.
Proof.
  induction t as [x tm ts IHt IHs] using tree_rec_strong. simpl. rewrite clean_again. f_equal.
  - destruct tm as [t|]; [|done]. by rewrite IHt.
  - induction IHs as [|t ts Ht _ IH]; simpl; [done|].
    destruct (should_remove_element (tr_data t)) eqn:E; simpl; [done|].
    rewrite sanitize_tree_data, should_remove_clean, E; simpl. by rewrite Ht, IH.
Qed.

Lemma attrs_cleaned x : should_remove_element x = false ->
  match clean x with NElement _ attrs _ _ => Forall (fun a => kept_attribute a = true) attrs | _ => True end.
Proof.
  intros E. unfold clean. rewrite E. destruct x; simpl; try done.
  apply list.Forall_forall. intros a Ha%list_elem_of_In%filter_In. apply Ha.
Qed.

Lemma sanitized_attrs d j name attrs :
  tree_shaped d -> j ∈ walk (sanitize_safe_static d).1 ->
  element_at (sanitize_safe_static d).1 j = Some (name, attrs) ->
  Forall (fun a => kept_attribute a = true) attrs.
Proof.
  intros S Hj He. destruct (sanitized_walk d j S Hj) as [Hw Hr].
  unfold element_at in He. rewrite (pruned_data _ _ _ _ _ (sanitized_pruned d S)) in He.
  unfold removable in Hr. destruct (node_data d j) as [x|]; simpl in He; [|done].
  unfold cleaned in He. rewrite decide_True in He by done.
  pose proof (attrs_cleaned x Hr) as Hx. destruct (clean x); by simplify_eq.
Qed.

Lemma kept_parts a : kept_attribute a = true ->
  is_event_attribute a = false /\ is_javascript_url_attribute a = false.
Proof. unfold kept_attribute. intros H. by bool_facts. Qed.

Lemma filter_none {A} (f : A -> bool) l : Forall (fun x => f x = false) l -> List.filter f l = [].
Proof. induction 1 as [|x l Hx _ IH]; simpl; [done|]. by rewrite Hx. Qed.

Lemma sanitized_report d :
  tree_shaped d ->
  (sanitize_safe_static (sanitize_safe_static d).1).2 = MkSanitized 0 0 0.
Proof.
  intros S. pose proof (sanitized_shape d S) as S'. unfold sanitize_safe_static at 1.
  rewrite sanitize_nodes_report by (done || by apply walk_nodup). simpl.
  assert (forall j, j ∈ walk (sanitize_safe_static d).1 -> removable (sanitize_safe_static d).1 j = false) as Hrm.
  { intros j Hj. rewrite (removable_cleaned _ _ _ _ j (sanitized_pruned d S)). by apply sanitized_walk. }
  f_equal; apply total_zero; intros j Hj; [by rewrite Hrm| |];
    unfold event_count, url_count, attrs_at; rewrite (Hrm j Hj);
    destruct (element_at _ j) as [[name attrs]|] eqn:He; try done;
    pose proof (sanitized_attrs d j name attrs S Hj He) as Ha; rewrite filter_none; try done;
    (eapply Forall_impl; [exact Ha|]); intros a [Hev Hjs]%kept_parts; by rewrite ?Hev, ?Hjs.
Qed.

(** ** The theorems *)

Lemma script_name name attrs :
  is_script_element name = true ->
  is_base_element name = false /\ http_equiv_is "content-security-policy" name attrs = false /\
  is_meta_refresh name attrs = false /\ is_request_triggering_link name attrs = false.
Proof.
  intros H. unfold is_script_element in H. bool_facts.
  unfold is_base_element, is_meta_refresh, http_equiv_is, is_request_triggering_link, name_is.
  rewrite H0. by rewrite !andb_false_r.
Qed.

Lemma sanitized_tree d t :
  tree_shaped d -> tree_of d = Some t -> tree_of (sanitize_safe_static d).1 = Some (sanitize_tree t).
Proof.
  intros S Ht. unfold tree_of in *.
  destruct (tree_of_total _ (sanitized_shape d S)) as [t' Ht'].
  assert (node_count (sanitize_safe_static d).1 = node_count d) as ->.
  { pose proof (pr_node _ _ _ _ (sanitized_pruned d S)) as N. unfold node, node_count in *.
    apply Nat.le_antisymm; apply Nat.nlt_ge; intros Hlt.
    - apply lookup_lt_is_Some_2 in Hlt as [n Hn]. rewrite N in Hn.
      apply fmap_Some in Hn as (m & Hm%lookup_lt_Some & _). lia.
    - apply lookup_lt_is_Some_2 in Hlt as [n Hn]. specialize (N (length (dc_nodes (sanitize_safe_static d).1))).
      rewrite Hn, lookup_ge_None_2 in N by done. done. }
  rewrite (pr_root _ _ _ _ (sanitized_pruned d S)).
  apply sanitized_tree_at; [done| |done]. apply elem_of_walk; [done|]. apply rtc_refl.
Qed.

(** C23: sanitising a document computes one recursive filter of its tree:
    the removable elements go with everything below them, the other elements
    lose exactly their event handlers and script URLs, template contents are
    treated like children, and nothing else changes. *)
Theorem sanitize_refines_filter d t :
  tree_shaped d -> tree_of d = Some t ->
  tree_shaped (sanitize_safe_static d).1 /\
  tree_of (sanitize_safe_static d).1 = Some (sanitize_tree t).
Proof.
  intros S Ht. split; [by apply sanitized_shape|by apply sanitized_tree].
Qed.

(** An element the policy has nothing against. *)
Definition safe_element (name : QualName) (attrs : list Attribute) : Prop :=
  (is_script_element name = true -> qn_ns name <> ns_svg /\ is_structured_metadata_script attrs = true) /\
  is_base_element name = false /\ is_meta_refresh name attrs = false /\
  http_equiv_is "content-security-policy" name attrs = false /\
  is_request_triggering_link name attrs = false /\
  Forall (fun a => is_event_attribute a = false /\ is_javascript_url_attribute a = false) attrs.

Lemma sanitized_element d j name attrs :
  tree_shaped d -> j ∈ walk (sanitize_safe_static d).1 ->
  element_at (sanitize_safe_static d).1 j = Some (name, attrs) -> safe_element name attrs.
Proof.
  intros S Hj He. destruct (sanitized_walk d j S Hj) as [Hw Hr].
  pose proof (sanitized_pruned d S) as P. rewrite <- (removable_cleaned _ _ _ _ j P) in Hr.
  unfold element_at in He. destruct (node_data _ j) as [x|] eqn:Hx; [|done].
  unfold removable in Hr. rewrite Hx in Hr. destruct x as [| | | |n a t m|]; simplify_eq. simpl in Hr.
  assert (Forall (fun a => is_event_attribute a = false /\ is_javascript_url_attribute a = false) attrs) as Ha.
  { eapply Forall_impl; [|apply kept_parts]. eapply (sanitized_attrs d j name); [done..|].
    unfold element_at. by rewrite Hx. }
  destruct (is_script_element name) eqn:Es.
  - bool_facts. unfold safe_element. rewrite Es. split_and!; try done; by apply script_name.
  - unfold safe_element. rewrite Es. by repeat case_if.
Qed.

(** Nothing active is left: no element below the root of a sanitised
    document is a script other than structured metadata, a base, a refresh, a
    content security policy or a link that triggers requests, and none carries
    an event handler or a script URL. *)
Theorem sanitized_is_static d j name attrs :
  tree_shaped d -> j ∈ walk (sanitize_safe_static d).1 ->
  element_at (sanitize_safe_static d).1 j = Some (name, attrs) -> safe_element name attrs.
Proof. apply sanitized_element. Qed.

(** One pass is enough: sanitising a sanitised document leaves its tree
    as it is and reports nothing removed; and the report of the first pass
    counts exactly the removable elements of the page and the handlers and
    script URLs of the others. *)
Theorem sanitize_idempotent d :
  tree_shaped d ->
  tree_of (sanitize_safe_static (sanitize_safe_static d).1).1 = tree_of (sanitize_safe_static d).1 /\
  (sanitize_safe_static (sanitize_safe_static d).1).2 = MkSanitized 0 0 0 /\
  (sanitize_safe_static d).2 =
    MkSanitized (total (fun i => one_if (removable d i)) (walk d))
      (total (event_count d) (walk d)) (total (url_count d) (walk d)).
Proof.
  intros S. pose proof (sanitized_shape d S) as S'. split_and!.
  - destruct (tree_of_total d S) as [t Ht].
    pose proof (sanitized_tree d t S Ht) as Ht1. pose proof (sanitized_tree _ _ S' Ht1) as Ht2.
    by rewrite Ht1, Ht2, sanitize_tree_again.
  - by apply sanitized_report.
  - unfold sanitize_safe_static. by rewrite sanitize_nodes_report by (done || by apply walk_nodup).
Qed.

(** ** A sample page

    A test that a given arena is a tree, and one page with active content in it. *)
Module DomSamples.

#[local] Open Scope string_scope.
#[local] Open Scope list_scope.
#[local] Open Scope nat_scope.

(** [rank] grows along the links. *)
Definition node_check (rank : NodeId -> nat) (d : Document) (i : NodeId) (n : Node) : Prop :=
  Forall (fun j => match node d j with Some m => nd_parent m = Some i /\ rank i < rank j | None => False end)
    (nd_children n) /\
  NoDup (nd_children n) /\
  match nd_parent n with
  | Some p => match node d p with Some m => i ∈ nd_children m | None => False end
  | None => True
  end /\
  match template_of (nd_data n) with
  | Some t => t <> dc_root d /\ rank i < rank t /\
      match node d t with Some m => nd_parent m = None /\ nd_data m = NDocument | None => False end
  | None => True
  end.

#[export] Instance node_check_dec rank d i n : Decision (node_check rank d i n).
Proof.
  unfold node_check. apply and_dec; [|apply and_dec; [|apply and_dec]].
  - apply Forall_dec. intros j. destruct (node d j); apply _.
  - apply _.
  - destruct (nd_parent n) as [p|]; [|apply _]. destruct (node d p); apply _.
  - destruct (template_of (nd_data n)) as [t|]; [|apply _]. destruct (node d t); apply _.
Defined.

Definition tree_check (rank : list nat) (d : Document) : bool :=
  match node d (dc_root d) with
  | Some n => bool_decide (nd_parent n = None /\ nd_data n = NDocument)
  | None => false
  end
  && forallb (fun '(i, n) => bool_decide (node_check (fun j => nth j rank 0) d i n)) (imap pair (dc_nodes d))
  && bool_decide (NoDup (omap (fun n => template_of (nd_data n)) (dc_nodes d))).

Lemma omap_unique {A B} (f : A -> option B) (l : list A) i j x y b :
  NoDup (omap f l) -> l !! i = Some x -> l !! j = Some y -> f x = Some b -> f y = Some b -> i = j.
Proof.
  revert i j. induction l as [|a l IH]; intros [|i] [|j] Hnd Hx Hy Hfx Hfy; simplify_eq/=; try done.
  - rewrite Hfx in Hnd. apply NoDup_cons in Hnd as [Hn _]. exfalso. apply Hn.
    apply list_elem_of_omap. exists y. split; [by eapply list_elem_of_lookup_2|done].
  - rewrite Hfy in Hnd. apply NoDup_cons in Hnd as [Hn _]. exfalso. apply Hn.
    apply list_elem_of_omap. exists x. split; [by eapply list_elem_of_lookup_2|done].
  - f_equal. apply IH; try done. destruct (f a); [by apply NoDup_cons in Hnd as [_ ?]|done].
Qed.

Lemma tree_check_sound rank d : tree_check rank d = true -> tree_shaped d.
Proof.
  unfold tree_check. intros H. bool_facts. rename H into Hroot, H1 into Hn, H0 into Ht.
  set (rk := fun j => nth j rank 0) in *.
  assert (forall i n, node d i = Some n -> node_check rk d i n) as Hnode.
  { intros i n Hi. rewrite forallb_forall in Hn. apply (bool_decide_eq_true (node_check rk d i n)).
    apply (Hn (i, n)), list_elem_of_In, elem_of_lookup_imap. exists i, n. done. }
  split.
  - destruct (node d (dc_root d)) as [n|]; [|done]. apply bool_decide_eq_true in Hroot as []. eauto.
  - intros i n j Hi Hj. destruct (Hnode i n Hi) as (Hc & _). rewrite list.Forall_forall in Hc.
    specialize (Hc j Hj). destruct (node d j) as [m|]; [|done]. destruct Hc. eauto.
  - intros j m i Hm Hp. destruct (Hnode j m Hm) as (_ & _ & Hpar & _). rewrite Hp in Hpar.
    destruct (node d i); [|done]. eauto.
  - intros i n Hi. apply (Hnode i n Hi).
  - intros i n t Hi Htm. destruct (Hnode i n Hi) as (_ & _ & _ & Htmp). rewrite Htm in Htmp.
    destruct Htmp as (? & _ & Hm). destruct (node d t); [|done]. destruct Hm. eauto 6.
  - intros i n i' n' t Hi Hi' Htm Htm'. by eapply (omap_unique _ _ _ _ _ _ _ Ht Hi Hi').
  - assert (forall i j, link d i j -> rk i < rk j /\ rk j <= list_max rank) as Hrk.
    { intros i j (n & Hi & Hj%elem_of_successors). destruct (Hnode i n Hi) as (Hc & _ & _ & Htmp).
      split.
      - destruct Hj as [Htm|Hj]; [rewrite Htm in Htmp; tauto|].
        rewrite list.Forall_forall in Hc. specialize (Hc j Hj). destruct (node d j); [tauto|done].
      - unfold rk. destruct (nth_in_or_default j rank 0) as [Hin| ->]; [|lia].
        pose proof (proj1 (list_max_le rank (list_max rank)) (Nat.le_refl _)) as Hmax.
        rewrite List.Forall_forall in Hmax. by apply Hmax. }
    intros i. remember (list_max rank - rk i) as m eqn:Hm. revert i Hm.
    induction (lt_wf m) as [m _ IH]. intros i ->. constructor. intros j Hj.
    destruct (Hrk i j Hj). eapply IH; [|done]. lia.
Qed.

Definition plain (local value : string) : Attribute := html_attribute local value.
Definition el (local : string) (attrs : list Attribute) : NodeData :=
  NElement (html_name local) attrs None false.

(** [<html><head><base><script>run()</script><script type="application/ld+json">{}</script></head>
    <body onload><a href=" JAVASCRIPT:go()" id><template shadowrootmode><link rel="preload"><p></p>…] *)
Definition sample_page : Document := MkDocument
  [ MkNode None [1] NDocument;
    MkNode (Some 0) [2; 7] (el "html" []);
    MkNode (Some 1) [3; 4; 6] (el "head" []);
    MkNode (Some 2) [] (el "base" [plain "href" "https://example.com/"]);
    MkNode (Some 2) [5] (el "script" []);
    MkNode (Some 4) [] (NText "run()");
    MkNode (Some 2) [] (el "script" [plain "type" "Application/LD+JSON; charset=utf-8"]);
    MkNode (Some 1) [8; 10] (el "body" [plain "onload" "go()"; plain "class" "page"]);
    MkNode (Some 7) [] (el "a" [plain "href" " JAVASCRIPT:go()"; plain "id" "go"]);
    MkNode None [11; 12] NDocument;
    MkNode (Some 7) [] (NElement (html_name "template") [plain "shadowrootmode" "open"] (Some 9) false);
    MkNode (Some 9) [] (el "link" [plain "rel" "alternate PreLoad"; plain "href" "/next.html"]);
    MkNode (Some 9) [] (el "p" []) ]
  0 NoQuirks [].

Lemma sample_page_shaped : tree_shaped sample_page.
Proof. apply (tree_check_sound [0; 1; 2; 3; 3; 4; 3; 2; 3; 4; 3; 5; 5]). vm_compute. reflexivity. Qed.

Example sample_walk : walk sample_page = [0; 1; 2; 3; 4; 5; 6; 7; 8; 10; 9; 11; 12].
Proof. vm_compute. reflexivity. Qed.

Example sample_report : (sanitize_safe_static sample_page).2 = MkSanitized 3 1 1.
Proof. vm_compute. reflexivity. Qed.

Lemma sanitize_refines_filter_witness :
  exists t, tree_of sample_page = Some t /\
    tree_of (sanitize_safe_static sample_page).1 = Some (sanitize_tree t).
Proof.
  eexists. split; [vm_compute; reflexivity|].
  apply (sanitize_refines_filter sample_page); [apply sample_page_shaped|vm_compute; reflexivity].
Defined.

Lemma sanitized_is_static_witness :
  exists name attrs, element_at (sanitize_safe_static sample_page).1 8 = Some (name, attrs) /\
    Forall (fun a => is_event_attribute a = false /\ is_javascript_url_attribute a = false) attrs.
Proof.
  eexists _, _. split; [vm_compute; reflexivity|].
  eapply (sanitized_is_static sample_page 8);
    [apply sample_page_shaped|vm_compute; repeat constructor|vm_compute; reflexivity].
Defined.

Lemma sanitize_idempotent_witness :
  (sanitize_safe_static (sanitize_safe_static sample_page).1).2 = MkSanitized 0 0 0.
Proof. apply (sanitize_idempotent sample_page). apply sample_page_shaped. Defined.

End DomSamples.
