(* ===== verification/Sink.v ===== *)
(** * Building the arena

    Models [offprint-rs/document/src/document/parse.rs]: the tree sink through
    which the parser of [html5ever] builds a document.  The parser itself is a
    parameter: the calls it makes for given bytes.

    A handle is its identifier; the two name the same node as long as there
    are at most [u32::MAX] of them. *)

From Stdlib Require Import ZArith Lia Ascii String.
From stdpp Require Import base tactics list gmap strings numbers relations.
From S2P Require Import Prelude.
From S2P Require Import Errors.
From S2P Require Import Dom.
From S2P Require Import DomFacts.

#[local] Open Scope string_scope.
#[local] Open Scope list_scope.
#[local] Open Scope nat_scope.

Inductive NodeOrText := AppendNode (id : NodeId) | AppendText (text : string).

(** ** The sink *)

Definition sink_new : Document := MkDocument [MkNode None [] NDocument] 0 NoQuirks [].

Definition sink_create_node (x : NodeData) (d : Document) : NodeId * Document :=
  (Z.to_nat (Z.min u32_max (Z.of_nat (node_count d))), set_nodes (dc_nodes d ++ [MkNode None [] x]) d).

(** [target.node.parent.take()] and the removal from that parent. *)
Definition sink_detach (target : NodeId) (d : Document) : Document :=
  match node d target ≫= nd_parent with
  | Some p =>
      update_node p (fun n => set_children (without target (nd_children n)) n)
        (update_node target (set_parent None) d)
  | None => d
  end.

Definition sink_append_node (parent child : NodeId) (d : Document) : Document :=
  update_node parent (fun n => set_children (nd_children n ++ [child]) n)
    (update_node child (set_parent (Some parent)) (sink_detach child d)).

(** [position], and the end of the list when there is none. *)
Fixpoint insert_before_in (sibling child : NodeId) (l : list NodeId) : list NodeId :=
  match l with
  | [] => [child]
  | c :: l' => if decide (c = sibling) then child :: l else c :: insert_before_in sibling child l'
  end.

Definition sink_insert_before (sibling child : NodeId) (d : Document) : Document :=
  let d := sink_detach child d in
  match node d sibling ≫= nd_parent with
  | Some p =>
      match node d p with
      | Some _ =>
          update_node p (fun n => set_children (insert_before_in sibling child (nd_children n)) n)
            (update_node child (set_parent (Some p)) d)
      | None => d
      end
  | None => d
  end.

(** [push_tendril] on a text node. *)
Definition push_text (text : string) (x : NodeData) : NodeData :=
  match x with NText s => NText (s ++ text) | _ => x end.

Definition is_text (d : Document) (id : NodeId) : bool :=
  match node_data d id with Some (NText _) => true | _ => false end.

Definition sink_append_common (child : NodeOrText) (previous : option NodeId)
    (append : NodeId -> Document -> Document) (d : Document) : Document :=
  match child with
  | AppendText text =>
      match previous with
      | Some p =>
          if is_text d p then update_node p (fun n => set_data (push_text text (nd_data n)) n) d
          else let '(id, d) := sink_create_node (NText text) d in append id d
      | None => let '(id, d) := sink_create_node (NText text) d in append id d
      end
  | AppendNode id => append id d
  end.

(** The child just before [sibling]. *)
Fixpoint previous_in (sibling : NodeId) (before : option NodeId) (l : list NodeId) : option NodeId :=
  match l with
  | [] => None
  | c :: l' => if decide (c = sibling) then before else previous_in sibling (Some c) l'
  end.

Definition sink_append (parent : NodeId) (child : NodeOrText) (d : Document) : Document :=
  sink_append_common child (node d parent ≫= (fun n => last (nd_children n)))
    (sink_append_node parent) d.

Definition sink_append_before_sibling (sibling : NodeId) (child : NodeOrText) (d : Document) : Document :=
  sink_append_common child
    (p ← node d sibling ≫= nd_parent; n ← node d p; previous_in sibling None (nd_children n))
    (sink_insert_before sibling) d.

Definition sink_append_based_on_parent_node (element previous_element : NodeId) (child : NodeOrText)
    (d : Document) : Document :=
  match node d element ≫= nd_parent with
  | Some _ => sink_append_before_sibling element child d
  | None => sink_append previous_element child d
  end.

(** The contents of a template are created before the element. *)
Definition sink_create_element (name : QualName) (attrs : list Attribute) (template mathml : bool)
    (d : Document) : NodeId * Document :=
  if template then
    let '(contents, d) := sink_create_node NDocument d in
    sink_create_node (NElement name attrs (Some contents) mathml) d
  else sink_create_node (NElement name attrs None mathml) d.

Definition add_missing (new existing : list Attribute) : list Attribute :=
  existing ++ List.filter (fun a => negb (bool_decide (at_name a ∈ map at_name existing))) new.

Fixpoint reparent_loop (children : list NodeId) (new_parent : NodeId) (d : Document) : Document :=
  match children with
  | [] => d
  | c :: children' =>
      reparent_loop children' new_parent
        (sink_append_node new_parent c (update_node c (set_parent None) d))
  end.

Definition sink_reparent_children (id new_parent : NodeId) (d : Document) : Document :=
  match node d id with
  | Some n => reparent_loop (nd_children n) new_parent (update_node id (set_children []) d)
  | None => d
  end.

(** The calls that change the sink. *)
Inductive SinkCall :=
| CreateElement (name : QualName) (attrs : list Attribute) (template mathml : bool)
| CreateComment (text : string)
| CreatePi (target data : string)
| Append (parent : NodeId) (child : NodeOrText)
| AppendBeforeSibling (sibling : NodeId) (child : NodeOrText)
| AppendBasedOnParentNode (element previous_element : NodeId) (child : NodeOrText)
| AppendDoctype (name public_id system_id : string)
| AddAttrsIfMissing (target : NodeId) (attrs : list Attribute)
| RemoveFromParent (target : NodeId)
| ReparentChildren (id new_parent : NodeId)
| SetQuirksMode (mode : QuirksMode)
| ParseError (message : string).

Definition sink_call (c : SinkCall) (d : Document) : Document :=
  match c with
  | CreateElement name attrs template mathml => (sink_create_element name attrs template mathml d).2
  | CreateComment text => (sink_create_node (NComment text) d).2
  | CreatePi target data => (sink_create_node (NInstruction target data) d).2
  | Append parent child => sink_append parent child d
  | AppendBeforeSibling sibling child => sink_append_before_sibling sibling child d
  | AppendBasedOnParentNode element previous child =>
      sink_append_based_on_parent_node element previous child d
  | AppendDoctype name public_id system_id =>
      let '(id, d) := sink_create_node (NDoctype name public_id system_id) d in
      sink_append_node (dc_root d) id d
  | AddAttrsIfMissing target attrs => update_attrs target (add_missing attrs) d
  | RemoveFromParent target => sink_detach target d
  | ReparentChildren id new_parent => sink_reparent_children id new_parent d
  | SetQuirksMode mode => MkDocument (dc_nodes d) (dc_root d) mode (dc_parse_errors d)
  | ParseError message =>
      MkDocument (dc_nodes d) (dc_root d) (dc_quirks_mode d) (dc_parse_errors d ++ [message])
  end.

Definition sink_calls (l : list SinkCall) (d : Document) : Document := foldl (fun d c => sink_call c d) d l.

(** The parser, as the calls it makes. *)
Class HtmlParser := { parser_calls : bytes -> list SinkCall }.

(** [Document::parse]. *)
Definition parse `{HtmlParser} (b : bytes) : Document := sink_calls (parser_calls b) sink_new.
