(* ===== verification/SinkFacts.v ===== *)
(** * A parsed document is a tree

    Every call of the tree sink keeps the arena a tree, as long as the parser
    does not move a node below itself. *)

From Stdlib Require Import ZArith Lia Ascii String.
From stdpp Require Import base tactics list gmap strings numbers relations.
From S2P Require Import Prelude.
From S2P Require Import Errors.
From S2P Require Import Dom.
From S2P Require Import DomFacts.
From S2P Require Import Sink.

#[local] Open Scope string_scope.
#[local] Open Scope list_scope.
#[local] Open Scope nat_scope.

Lemma document_eq d d' :
  dc_root d = dc_root d' -> dc_quirks_mode d = dc_quirks_mode d' -> dc_parse_errors d = dc_parse_errors d' ->
  (forall i, node d i = node d' i) -> d = d'.
Proof.
  destruct d, d'; simpl; intros -> -> -> H. f_equal. by apply list_eq.
Qed.

Lemma parent_not_self d c n : tree_shaped d -> node d c = Some n -> nd_parent n <> Some c.
Proof.
  intros S Hn Hp. destruct (shape_parent d S _ _ _ Hn Hp) as (m & Hm & Hc).
  apply (no_cycle d S c c); [|apply rtc_refl]. exists m. split; [done|]. apply elem_of_successors. auto.
Qed.

Lemma detach_root c d : dc_root (detach c d) = dc_root d.
Proof. unfold detach. by destruct (node d c ≫= nd_parent). Qed.

(** The sink takes a node off as the document does. *)
Lemma sink_detach_eq c d : tree_shaped d -> sink_detach c d = detach c d.
Proof.
  intros S. unfold sink_detach, detach. destruct (node d c) as [n|] eqn:Hn; simpl.
  - destruct (nd_parent n) as [p|] eqn:Hp.
    + assert (p <> c) by (intros ->; by eapply parent_not_self).
      apply document_eq; try done. intros i. rewrite !node_update. by repeat case_decide; subst.
    + apply document_eq; try done. intros i. rewrite node_update. case_decide; [subst|done].
      rewrite Hn; simpl. by destruct n; simplify_eq/=.
  - apply document_eq; try done. intros i. rewrite node_update. case_decide; [subst|done]. by rewrite Hn.
Qed.

(** Where a node may be put. *)
Record placeable (d : Document) (p c : NodeId) : Prop := {
  pl_movable : movable d c;
  pl_parent : is_Some (node d p);
  pl_above : ~ below d c p;
}.

Lemma placeable_other d p c : placeable d p c -> p <> c.
Proof. intros [_ _ H] ->. apply H, rtc_refl. Qed.

Lemma sink_append_shape p c d : tree_shaped d -> placeable d p c -> tree_shaped (sink_append_node p c d).
Proof.
  intros S P. destruct (pl_movable _ _ _ P) as (n & Hn & _).
  unfold sink_append_node. rewrite sink_detach_eq by done.
  eapply (hung_shape p c (fun l => l ++ [c]) d); try apply P; [|done].
  split; [|intros i; by apply (hang_node d p c (fun l => l ++ [c])), (placeable_other d)|].
  - exact (detach_root c d).
  - intros l. by rewrite Permutation_app_comm.
Qed.

Lemma insert_before_in_perm s c l : insert_before_in s c l ≡ₚ c :: l.
Proof. induction l as [|x l IH]; simpl; [done|]. case_decide; [done|]. rewrite IH. by constructor. Qed.

Lemma sink_insert_shape s c d :
  tree_shaped d -> (forall p, node d s ≫= nd_parent = Some p -> placeable d p c) ->
  tree_shaped (sink_insert_before s c d).
Proof.
  intros S P. unfold sink_insert_before. rewrite sink_detach_eq by done.
  pose proof (detach_pruned d c S) as D. assert (tree_shaped (detach c d)) as S' by (by eapply pruned_shape).
  destruct (node (detach c d) s ≫= nd_parent) as [p|] eqn:Hp; [|done].
  destruct (node (detach c d) p); [|done].
  assert (node d s ≫= nd_parent = Some p) as Hp'.
  { rewrite (pr_node _ _ _ _ D) in Hp. destruct (node d s); simpl in *; [|done]. by case_decide. }
  specialize (P p Hp'). eapply (hung_shape p c (insert_before_in s c) d); try apply P; [|done].
  split; [|intros i; by apply (hang_node d p c (insert_before_in s c)), (placeable_other d)|].
  - exact (detach_root c d).
  - apply insert_before_in_perm.
Qed.

(** ** Creation *)

Definition roomy (d : Document) : Prop := (Z.of_nat (node_count d) <= u32_max)%Z.

Lemma sink_create_grown x d :
  roomy d -> exists d', sink_create_node x d = (node_count d, d') /\ grown x d d' /\ node_count d' = S (node_count d).
Proof.
  intros H. eexists. split; [|split; [|]].
  - unfold sink_create_node. replace (Z.to_nat _) with (node_count d); [done|]. unfold roomy in H. lia.
  - eapply create_node_grown. by apply create_node_ok.
  - unfold node_count; simpl. rewrite length_app; simpl. lia.
Qed.

Lemma fresh_placeable x d d' p :
  template_of x = None -> x <> NDocument -> grown x d d' -> is_Some (node d p) -> placeable d' p (node_count d).
Proof.
  intros Ht Hx G [n Hn]. split.
  - exists (MkNode None [] x). split; [by eapply grown_new|done].
  - exists n. by eapply grown_old.
  - intros Hb. destruct (rtc_inv _ _ Hb) as [<-|(k & (m & Hm & Hk) & _)].
    + apply node_bound in Hn. lia.
    + rewrite (grown_new _ _ _ G) in Hm. simplify_eq. unfold successors in Hk; simpl in Hk.
      rewrite Ht in Hk. by apply elem_of_nil in Hk.
Qed.

(** An element that owns a fresh document node. *)
Lemma grown_template_shape name attrs t m d d' :
  grown (NElement name attrs (Some t) m) d d' -> tree_shaped d ->
  node d t = Some (MkNode None [] NDocument) -> t <> dc_root d -> (forall i, ~ link d i t) ->
  tree_shaped d'.
Proof.
  intros G S Ht Hr Hfree. pose proof G as [R N]. set (e := NElement name attrs (Some t) m) in *.
  assert (forall i n, node d' i = Some n ->
            node d i = Some n \/ (i = node_count d /\ n = MkNode None [] e)) as Hold.
  { intros i n. rewrite N. case_decide; [intros [= <-]; auto|auto]. }
  assert (forall i n, node d i = Some n -> node d' i = Some n) as Hnew by (intros; by eapply grown_old).
  assert (forall i n k, node d i = Some n -> template_of (nd_data n) = Some k -> k <> t) as Hne.
  { intros i n k Hn Hk ->. apply (Hfree i). exists n. split; [done|]. apply elem_of_successors. auto. }
  split.
  - destruct (shape_root d S) as (n & Hn & ? & ?). rewrite R. eauto.
  - intros i n j [Hn|[-> ->]]%Hold Hj; [|by apply elem_of_nil in Hj].
    destruct (shape_child d S _ _ _ Hn Hj) as (k & Hk & ?). eauto.
  - intros j n i [Hn|[-> ->]]%Hold Hp; [|done].
    destruct (shape_parent d S _ _ _ Hn Hp) as (k & Hk & ?). eauto.
  - intros i n [Hn|[-> ->]]%Hold; [by eapply shape_nodup|constructor].
  - intros i n k [Hn|[-> ->]]%Hold Hk; rewrite R.
    + destruct (shape_template d S _ _ _ Hn Hk) as (? & l & Hl & ? & ?). eauto 6.
    + simpl in Hk. simplify_eq. split; [done|]. eauto 6.
  - intros i n i' n' k [Hn|[-> ->]]%Hold [Hn'|[-> ->]]%Hold Hk Hk'; simpl in *; simplify_eq; try done.
    + by eapply (shape_owner d S i n i' n').
    + by destruct (Hne _ _ _ Hn Hk).
    + by destruct (Hne _ _ _ Hn' Hk').
  - assert (forall i, is_Some (node d i) -> Acc (fun j i => link d' i j) i) as Hacc.
    { intros i. induction (shape_acyclic d S i) as [i _ IH]. intros [n Hn]. constructor.
      intros j (n' & Hn' & Hj). apply Hnew in Hn as Hn2.
      assert (n' = n) as -> by congruence. assert (link d i j) as Hl by (exists n; done). apply IH; [done|]. by eapply link_known. }
    intros i. constructor. intros j (n & [Hn|[-> ->]]%Hold & Hj).
    + apply Hacc. eapply link_known; [done|]. by exists n.
    + apply elem_of_successors in Hj as [Hj|Hj]; simpl in Hj; [|by apply elem_of_nil in Hj].
      simplify_eq. apply Hacc. eauto.
Qed.

Lemma create_element_shape name attrs template mathml d :
  tree_shaped d -> (Z.of_nat (node_count d) < u32_max)%Z ->
  tree_shaped (sink_create_element name attrs template mathml d).2.
Proof.
  intros S Hroom. unfold sink_create_element. destruct template.
  - destruct (sink_create_grown NDocument d) as (d1 & E1 & G1 & C1); [unfold roomy; lia|]. rewrite E1.
    destruct (sink_create_grown (NElement name attrs (Some (node_count d)) mathml) d1) as (d2 & E2 & G2 & _);
      [unfold roomy; lia|]. rewrite E2. simpl.
    eapply grown_template_shape; [done|by apply (grown_shape NDocument d)|by eapply grown_new| |].
    + pose proof G1 as [R _]. rewrite R. destruct (shape_root d S) as (n & Hn%node_bound & _). lia.
    + intros i Hl. apply (grown_link NDocument d d1) in Hl; [|done..].
      destruct (link_known d S _ _ Hl) as [n Hn%node_bound]. lia.
  - destruct (sink_create_grown (NElement name attrs None mathml) d) as (d1 & E1 & G1 & _); [unfold roomy; lia|].
    rewrite E1. simpl. by apply (grown_shape (NElement name attrs None mathml) d).
Qed.

(** ** Moving the children of a node *)

Definition emptied (id : NodeId) (d : Document) : Document := update_node id (set_children []) d.

(** One turn of the loop is one append on the tree that still has the rest of
    the children in place. *)
Lemma reparent_turn id np c rest n d :
  tree_shaped d -> placeable d np c -> id <> np -> node d id = Some n -> nd_children n = c :: rest ->
  sink_append_node np c (update_node c (set_parent None) (emptied id d))
  = emptied id (sink_append_node np c d) /\
  exists n', node (sink_append_node np c d) id = Some n' /\ nd_children n' = rest.
Proof.
  intros S P Hid Hn Hc. pose proof (placeable_other _ _ _ P) as Hnp.
  assert (c <> id) as Hci.
  { intros ->. apply (no_cycle d S id id); [|apply rtc_refl]. exists n. split; [done|].
    apply elem_of_successors. rewrite Hc. set_solver. }
  assert (NoDup (c :: rest)) as Hnd by (rewrite <- Hc; by eapply shape_nodup).
  pose proof (hang_node d np c (fun l => l ++ [c])) as H.
  assert (without c (c :: rest) = rest) as Hw.
  { apply NoDup_cons in Hnd as [Hx _]. unfold without. rewrite filter_cons_False by naive_solver.
    apply filter_keeps. set_solver. }
  assert (node (sink_append_node np c d) id = Some (MkNode (nd_parent n) rest (nd_data n))) as Hid'.
  { unfold sink_append_node. rewrite sink_detach_eq, H, Hn by done. simpl.
    rewrite !decide_False by congruence. by rewrite Hc, Hw. }
  split; [|by eauto]. apply document_eq.
  - unfold sink_append_node, sink_detach. rewrite node_update, decide_True by done.
    destruct (node (emptied id d) c); simpl; by destruct (node d c ≫= nd_parent).
  - unfold sink_append_node, sink_detach. rewrite node_update, decide_True by done.
    destruct (node (emptied id d) c); simpl; by destruct (node d c ≫= nd_parent).
  - unfold sink_append_node, sink_detach. rewrite node_update, decide_True by done.
    destruct (node (emptied id d) c); simpl; by destruct (node d c ≫= nd_parent).
  - intros i. unfold emptied at 2. rewrite node_update.
    assert (sink_detach c (update_node c (set_parent None) (emptied id d))
            = update_node c (set_parent None) (emptied id d)) as Hsd.
    { unfold sink_detach. rewrite node_update, decide_True by done. by destruct (node (emptied id d) c). }
    unfold sink_append_node at 1. rewrite Hsd, !node_update. unfold emptied. rewrite node_update.
    destruct (decide (id = i)) as [<-|Hi].
    + rewrite Hid'. rewrite !decide_False by congruence. by rewrite Hn.
    + unfold sink_append_node. rewrite sink_detach_eq, H by done.
      destruct (node d i) as [m|] eqn:Hm; simpl; [|by repeat case_decide].
      assert (without c (nd_children m) = nd_children m) as Hm'.
      { apply (without_other d i m c S Hm). destruct (pl_movable _ _ _ P) as (nc & Hnc & _). rewrite Hnc; simpl.
        destruct (shape_child d S id n c Hn) as (k & Hk & Hpk); [rewrite Hc; set_solver|]. congruence. }
      rewrite Hm'. destruct (decide (c = i)), (decide (np = i)), (decide (i = c)), (decide (i = np)); subst; try done.
      by destruct m.
Qed.

Lemma hung_placeable p c ins d d' c' :
  hung p c ins d d' -> tree_shaped d -> placeable d p c -> placeable d p c' -> placeable d' p c'.
Proof.
  intros H S P P'. split.
  - destruct (pl_movable _ _ _ P') as (n & Hn & Hd). unfold movable. rewrite (hg_node _ _ _ _ _ H), Hn.
    eexists; split; [done|done].
  - destruct (pl_parent _ _ _ P') as [n Hn]. rewrite (hg_node _ _ _ _ _ H), Hn. simpl. eauto.
  - intros Hb. apply (pl_above _ _ _ P'). clear P'. unfold below in *.
    revert c' Hb. refine (rtc_ind_l _ p _ _); [apply rtc_refl|]. intros x y Hl Hb IH.
    apply (hung_link _ _ _ _ _ x y H S (pl_movable _ _ _ P) (pl_parent _ _ _ P)) in Hl as [[-> ->]|[Hl _]];
      [apply rtc_refl|by eapply rtc_l].
Qed.

Lemma sink_append_hung p c d :
  tree_shaped d -> placeable d p c -> hung p c (fun l => l ++ [c]) d (sink_append_node p c d).
Proof.
  intros S P. unfold sink_append_node. rewrite sink_detach_eq by done.
  split; [|intros i; by apply (hang_node d p c (fun l => l ++ [c])), (placeable_other d)|].
  - exact (detach_root c d).
  - intros l. by rewrite Permutation_app_comm.
Qed.

Lemma reparent_loop_shape id np cs d n :
  tree_shaped d -> id <> np -> node d id = Some n -> nd_children n = cs ->
  Forall (fun c => placeable d np c) cs -> tree_shaped (reparent_loop cs np (emptied id d)).
Proof.
  revert d n. induction cs as [|c cs IH]; intros d n S Hid Hn Hc HP; simpl.
  - replace (emptied id d) with d; [done|]. apply document_eq; try done. intros i.
    unfold emptied. rewrite node_update. case_decide; [subst|done]. rewrite Hn; simpl. f_equal.
    destruct n; simpl in *; by subst.
  - apply Forall_cons_iff in HP as [Pc HP].
    destruct (reparent_turn id np c cs n d) as [-> (n' & Hn' & Hc')]; [done..|].
    pose proof (sink_append_hung np c d S Pc) as H.
    apply (IH (sink_append_node np c d) n'); [by apply sink_append_shape|exact Hid|exact Hn'|exact Hc'|].
    eapply Forall_impl; [exact HP|]. intros c' P'. exact (hung_placeable _ _ _ _ _ c' H S Pc P').
Qed.

(** ** The protocol of the parser

    A call may name known nodes only, has room for the nodes it creates, and
    does not put a node below itself. *)

Definition text_allowed (d : Document) (child : NodeOrText) (place : NodeId -> Prop) : Prop :=
  match child with AppendNode c => place c | AppendText _ => roomy d end.

Definition before_allowed (d : Document) (s : NodeId) (child : NodeOrText) : Prop :=
  text_allowed d child (fun c => forall p, node d s ≫= nd_parent = Some p -> placeable d p c).

Definition append_allowed (d : Document) (p : NodeId) (child : NodeOrText) : Prop :=
  is_Some (node d p) /\ text_allowed d child (placeable d p).

Definition allowed (d : Document) (call : SinkCall) : Prop :=
  match call with
  | CreateElement _ _ _ _ => (Z.of_nat (node_count d) < u32_max)%Z
  | CreateComment _ | CreatePi _ _ | AppendDoctype _ _ _ => roomy d
  | Append p child => append_allowed d p child
  | AppendBeforeSibling s child => before_allowed d s child
  | AppendBasedOnParentNode e prev child =>
      match node d e ≫= nd_parent with
      | Some _ => before_allowed d e child
      | None => append_allowed d prev child
      end
  | ReparentChildren id np =>
      id <> np /\ forall n, node d id = Some n -> Forall (placeable d np) (nd_children n)
  | AddAttrsIfMissing _ _ | RemoveFromParent _ | SetQuirksMode _ | ParseError _ => True
  end.

Fixpoint all_allowed (d : Document) (calls : list SinkCall) : Prop :=
  match calls with
  | [] => True
  | call :: calls' => allowed d call /\ all_allowed (sink_call call d) calls'
  end.

Lemma push_text_shape p text d :
  tree_shaped d -> tree_shaped (update_node p (fun n => set_data (push_text text (nd_data n)) n) d).
Proof. intros S. eapply pruned_shape; [apply update_data_pruned; [by intros []|done]|done]. Qed.

Lemma fresh_text_shape place text d :
  tree_shaped d -> roomy d ->
  (forall d', grown (NText text) d d' -> tree_shaped d' -> tree_shaped (place (node_count d) d')) ->
  tree_shaped (let '(id, d) := sink_create_node (NText text) d in place id d).
Proof.
  intros S Hr Hp. destruct (sink_create_grown (NText text) d Hr) as (d' & -> & G & _).
  apply Hp; [done|]. by apply (grown_shape (NText text) d).
Qed.

Lemma append_common_shape child previous place d :
  tree_shaped d ->
  match child with
  | AppendNode c => tree_shaped (place c d)
  | AppendText text => roomy d /\
      forall d', grown (NText text) d d' -> tree_shaped d' -> tree_shaped (place (node_count d) d')
  end -> tree_shaped (sink_append_common child previous place d).
Proof.
  intros S H. destruct child as [c|text]; simpl; [done|]. destruct H as [Hr Hp].
  destruct previous as [p|]; [destruct (is_text d p); [by apply push_text_shape|]|];
    by apply fresh_text_shape.
Qed.

Lemma append_shape p child d : tree_shaped d -> append_allowed d p child -> tree_shaped (sink_append p child d).
Proof.
  intros S [Hp Hc]. apply append_common_shape; [done|]. destruct child as [c|text]; simpl in Hc.
  - by apply sink_append_shape.
  - split; [done|]. intros d' G S'. apply sink_append_shape; [done|].
    by apply (fresh_placeable (NText text) d d').
Qed.

Lemma before_shape s child d :
  tree_shaped d -> before_allowed d s child -> tree_shaped (sink_append_before_sibling s child d).
Proof.
  intros S Hc. apply append_common_shape; [done|]. destruct child as [c|text]; simpl in Hc.
  - by apply sink_insert_shape.
  - split; [done|]. intros d' G S'. apply sink_insert_shape; [done|]. intros p Hp.
    apply (fresh_placeable (NText text) d d'); try done.
    pose proof G as [_ N]. rewrite N in Hp. case_decide; [done|].
    destruct (node d s) as [n|] eqn:Hn; simpl in Hp; [|done].
    destruct (shape_parent d S _ _ _ Hn Hp) as (m & Hm & _). eauto.
Qed.

Lemma sink_call_shape call d : tree_shaped d -> allowed d call -> tree_shaped (sink_call call d).
Proof.
  intros S Ha. destruct call; cbn [sink_call allowed] in *.
  - by apply create_element_shape.
  - destruct (sink_create_grown (NComment text) d Ha) as (d' & -> & G & _). by apply (grown_shape (NComment text) d).
  - destruct (sink_create_grown (NInstruction target data) d Ha) as (d' & -> & G & _).
    by apply (grown_shape (NInstruction target data) d).
  - by apply append_shape.
  - by apply before_shape.
  - unfold sink_append_based_on_parent_node.
    destruct (node d element ≫= nd_parent); [by apply before_shape|by apply append_shape].
  - destruct (sink_create_grown (NDoctype name public_id system_id) d Ha) as (d' & -> & G & _).
    assert (tree_shaped d') by (by apply (grown_shape (NDoctype name public_id system_id) d)).
    apply sink_append_shape; [done|]. pose proof G as [R _]. rewrite R.
    apply (fresh_placeable (NDoctype name public_id system_id) d d'); try done.
    destruct (shape_root d S) as (n & Hn & _). eauto.
  - eapply pruned_shape; [apply update_attrs_pruned|done].
  - rewrite sink_detach_eq by done. eapply pruned_shape; [by apply detach_pruned|done].
  - unfold sink_reparent_children. destruct (node d id) as [n|] eqn:Hn; [|done]. destruct Ha as [Hid HP].
    apply (reparent_loop_shape id new_parent (nd_children n) d n); auto.
  - by destruct S.
  - by destruct S.
Qed.

Lemma sink_new_shape : tree_shaped sink_new.
Proof.
  assert (forall i n, node sink_new i = Some n -> n = MkNode None [] NDocument) as H.
  { intros [|[|i]] n; [by intros [= <-]|done..]. }
  split.
  - by eexists.
  - intros i n j ->%H Hj. by apply elem_of_nil in Hj.
  - by intros j m i ->%H Hp.
  - intros i n ->%H. constructor.
  - by intros i n t ->%H Ht.
  - by intros i n i' n' t ->%H _ Ht.
  - intros i. constructor. intros j (n & ->%H & Hj). by apply elem_of_nil in Hj.
Qed.

Lemma sink_calls_shape calls d : tree_shaped d -> all_allowed d calls -> tree_shaped (sink_calls calls d).
Proof.
  revert d. induction calls as [|call calls IH]; intros d S Ha; [done|]. destruct Ha as [Ha Has].
  apply IH; [by apply sink_call_shape|done].
Qed.

(** The documented behaviour of the parser: it keeps to the protocol. *)
Class ParserLaws `{HtmlParser} := {
  parser_allowed : forall b, all_allowed sink_new (parser_calls b);
}.

(** C24: whatever the bytes, the document the parser builds through the sink is
    a tree: parents and children name each other, template contents are roots of
    their own and no link runs in a circle; and the walk of it ends within as
    many steps as there are nodes and lists the nodes below the root once. *)
Theorem parsed_is_tree `{ParserLaws} b :
  tree_shaped (parse b) /\
  walk_loop (node_count (parse b)) (parse b) [dc_root (parse b)] = Some (walk (parse b)) /\
  NoDup (walk (parse b)) /\ forall j, j ∈ walk (parse b) <-> below (parse b) (dc_root (parse b)) j.
Proof.
  assert (tree_shaped (parse b)) as S by (apply sink_calls_shape; [apply sink_new_shape|apply parser_allowed]).
  split_and!; [done|by apply walk_loop_total|by apply walk_nodup|]. intros j. by apply elem_of_walk.
Qed.

(** ** A sample parse

    The protocol of the tree sink as a test, and a parser that keeps to it. *)

Definition walk_from (d : Document) (i : NodeId) : list NodeId :=
  default [] (walk_loop (node_count d) d [i]).

Lemma below_walk_from d i j :
  tree_shaped d -> is_Some (node d i) -> below d i j -> j ∈ walk_from d i.
Proof.
  intros S Hi Hb. destruct (listing_one d i S Hi) as [l L].
  pose proof (listing_length d i l S Hi L) as Hlen. unfold walk_from.
  replace (node_count d) with (length l + (node_count d - length l)) by lia.
  rewrite (ls_visits _ _ _ L _ []).
  replace (walk_loop (node_count d - length l) d []) with (Some ([] : list NodeId)) by (by destruct (_ - _)).
  simpl. rewrite app_nil_r. apply (ls_below _ _ _ L). exists i. split; [set_solver|done].
Qed.

Definition placeable_check (d : Document) (p c : NodeId) : bool :=
  match node d c with Some n => bool_decide (nd_data n <> NDocument) | None => false end
  && bool_decide (is_Some (node d p)) && bool_decide (p ∉ walk_from d c).

Lemma placeable_check_sound d p c : tree_shaped d -> placeable_check d p c = true -> placeable d p c.
Proof.
  unfold placeable_check. intros S H. bool_facts. destruct (node d c) as [n|] eqn:Hn; [|done].
  bool_facts. split; [by exists n|done|]. intros Hb. eapply H0, below_walk_from; eauto.
Qed.

Definition roomy_check (d : Document) : bool := (Z.of_nat (node_count d) <? u32_max)%Z.

Definition call_check (d : Document) (call : SinkCall) : bool :=
  roomy_check d &&
  match call with
  | Append p (AppendNode c) => placeable_check d p c
  | Append p (AppendText _) => bool_decide (is_Some (node d p))
  | AppendBeforeSibling s (AppendNode c) =>
      match node d s ≫= nd_parent with Some p => placeable_check d p c | None => true end
  | AppendBasedOnParentNode _ _ _ => false
  | ReparentChildren id np =>
      bool_decide (id <> np)
      && match node d id with Some n => forallb (placeable_check d np) (nd_children n) | None => true end
  | _ => true
  end.

Fixpoint calls_check (d : Document) (calls : list SinkCall) : bool :=
  match calls with
  | [] => true
  | call :: calls' => call_check d call && calls_check (sink_call call d) calls'
  end.

Lemma call_check_sound d call : tree_shaped d -> call_check d call = true -> allowed d call.
Proof.
  unfold call_check, roomy_check. intros S H. bool_facts. rename H into Hroom, H0 into H.
  assert (roomy d) as Hr by (unfold roomy; lia).
  destruct call as [| | |p child|s child| | | | |id np| |]; simpl; try done.
  - destruct child; simpl in *; bool_facts; (split; [|done || by apply placeable_check_sound]).
    + by apply (pl_parent d p id), placeable_check_sound.
    + done.
  - unfold before_allowed. destruct child; simpl in *; [|done]. intros p Hp. rewrite Hp in H.
    by apply placeable_check_sound.
  - bool_facts. split; [done|]. intros n Hn. rewrite Hn in H0. rewrite forallb_forall in H0.
    apply list.Forall_forall. intros c Hc. apply placeable_check_sound; [done|]. by apply H0, list_elem_of_In.
Qed.

Lemma calls_check_sound d calls : tree_shaped d -> calls_check d calls = true -> all_allowed d calls.
Proof.
  revert d. induction calls as [|call calls IH]; intros d S H; [done|]. simpl in H. bool_facts.
  apply call_check_sound in H; [|done]. split; [done|]. apply IH; [by apply sink_call_shape|done].
Qed.

(** [<html><table>text<b></table>] and a template, with text moved before the
    table and the children of one element moved to another. *)
Definition sample_calls : list SinkCall :=
  [ AppendDoctype "html" "" "";
    CreateElement (html_name "html") [] false false; Append 0 (AppendNode 2);
    CreateElement (html_name "table") [] false false; Append 2 (AppendNode 3);
    AppendBeforeSibling 3 (AppendText "te"); AppendBeforeSibling 3 (AppendText "xt");
    CreateElement (html_name "template") [] true false; Append 3 (AppendNode 6);
    Append 5 (AppendText "shadow");
    CreateElement (html_name "b") [] false false; AppendBeforeSibling 3 (AppendNode 8);
    ReparentChildren 3 8; RemoveFromParent 3; ParseError "unexpected token" ].

#[local] Instance sample_parser : HtmlParser := {| parser_calls := fun _ => sample_calls |}.

#[local] Instance sample_laws : ParserLaws.
Proof. split. intros b. apply calls_check_sound; [apply sink_new_shape|]. vm_compute. reflexivity. Qed.

Lemma parsed_is_tree_witness : tree_shaped (parse []) /\ walk (parse []) = [0; 1; 2; 4; 8; 6; 5; 7].
Proof. split; [apply (parsed_is_tree [])|vm_compute; reflexivity]. Defined.
