(* ===== verification/Serialize.v ===== *)
(** * Serialisation

    Models [offprint-rs/document/src/serialize.rs].  The writer is a parameter of
    the code; what is written is the list of the buffers passed to [write_all],
    and a writer that fails ends the traversal at that buffer. *)

From Stdlib Require Import ZArith Lia Ascii String.
From stdpp Require Import base tactics list gmap strings numbers.
From S2P Require Import Prelude.
From S2P Require Import Errors.
From S2P Require Import Dom.

#[local] Open Scope string_scope.
#[local] Open Scope list_scope.
#[local] Open Scope Z_scope.

(** ** Escaping *)

Definition NBSP : Z := 160.

(** The characters by code: ampersand, quote, no-break space, less and greater. *)
Definition attribute_replacement (c : Z) : option string :=
  if c =? 38 then Some "&amp;"
  else if c =? 34 then Some "&quot;"
  else if c =? NBSP then Some "&nbsp;"
  else if c =? 60 then Some "&lt;"
  else if c =? 62 then Some "&gt;"
  else None.

Definition text_replacement (c : Z) : option string :=
  if c =? 38 then Some "&amp;"
  else if c =? NBSP then Some "&nbsp;"
  else if c =? 60 then Some "&lt;"
  else if c =? 62 then Some "&gt;"
  else None.

(** The loop over the characters, with the bytes since [unescaped_start]. *)
Fixpoint escape_loop (replacement : Z -> option string) (segment : bytes) (chars : list Z) : list bytes :=
  match chars with
  | [] => [segment]
  | c :: chars' =>
      match replacement c with
      | Some r => segment :: as_bytes r :: escape_loop replacement [] chars'
      | None => escape_loop replacement (segment ++ utf8_encode_char c) chars'
      end
  end.

Definition write_escaped (replacement : Z -> option string) (value : string) : list bytes :=
  escape_loop replacement [] (utf8_chars (as_bytes value)).

Definition write_escaped_attribute (value : string) : list bytes :=
  write_escaped attribute_replacement value.

Definition RAW_TEXT_ELEMENTS : list string :=
  ["style"; "script"; "xmp"; "iframe"; "noembed"; "noframes"; "plaintext"].

Definition raw_text_parent (parent_name : option QualName) : bool :=
  match parent_name with
  | Some n => bool_decide (qn_ns n = ns_html) && bool_decide (qn_local n ∈ RAW_TEXT_ELEMENTS)
  | None => false
  end.

Definition write_text (value : string) (parent_name : option QualName) : list bytes :=
  if raw_text_parent parent_name then [as_bytes value] else write_escaped text_replacement value.

(** ** Nodes *)

Definition QUOTE : string := String "034" "".

Definition write_doctype (name public_id system_id : string) : list bytes :=
  [as_bytes "<!DOCTYPE "; as_bytes name]
  ++ (if bool_decide (public_id <> "") then
        [as_bytes (" PUBLIC " ++ QUOTE)] ++ write_escaped_attribute public_id ++ [as_bytes QUOTE]
        ++ (if bool_decide (system_id <> "") then
              [as_bytes (" " ++ QUOTE)] ++ write_escaped_attribute system_id ++ [as_bytes QUOTE]
            else [])
      else if bool_decide (system_id <> "") then
        [as_bytes (" SYSTEM " ++ QUOTE)] ++ write_escaped_attribute system_id ++ [as_bytes QUOTE]
      else [])
  ++ [as_bytes ">"].

Definition attribute_prefix (n : QualName) : list bytes :=
  if bool_decide (qn_ns n = ns_none) then []
  else if bool_decide (qn_ns n = ns_xml) then [as_bytes "xml:"]
  else if bool_decide (qn_ns n = ns_xmlns)
  then (if bool_decide (qn_local n <> "xmlns") then [as_bytes "xmlns:"] else [])
  else if bool_decide (qn_ns n = ns_xlink) then [as_bytes "xlink:"]
  else [as_bytes "unknown_namespace:"].

Definition write_attribute (a : Attribute) : list bytes :=
  [as_bytes " "] ++ attribute_prefix (at_name a)
  ++ [as_bytes (qn_local (at_name a)); as_bytes ("=" ++ QUOTE)]
  ++ write_escaped_attribute (at_value a) ++ [as_bytes QUOTE].

Definition VOID_ELEMENTS : list string :=
  ["area"; "base"; "basefont"; "bgsound"; "br"; "col"; "embed"; "frame"; "hr"; "img"; "input";
   "keygen"; "link"; "meta"; "param"; "source"; "track"; "wbr"].

Definition is_void_element (n : QualName) : bool :=
  bool_decide (qn_ns n = ns_html) && bool_decide (qn_local n ∈ VOID_ELEMENTS).

Definition open_tag (name : QualName) (attrs : list Attribute) : list bytes :=
  [as_bytes "<"; as_bytes (qn_local name)] ++ concat (map write_attribute attrs) ++ [as_bytes ">"].
Definition close_tag (name : QualName) : list bytes :=
  [as_bytes "</"; as_bytes (qn_local name); as_bytes ">"].

Definition children_of (d : Document) (id : NodeId) : list NodeId :=
  match node d id with Some n => nd_children n | None => [] end.

(** One node; [None] when the recursion is cut off.  The loop over the children
    of [serialize_children] is the inner [mapM]. *)
Fixpoint serialize_node (fuel : nat) (d : Document) (id : NodeId) (parent_name : option QualName)
    : option (list bytes) :=
  match fuel with
  | O => None
  | S fuel' =>
      let serialize_children parent name :=
        @concat _ <$> mapM (fun c => serialize_node fuel' d c name) (children_of d parent) in
      match node_data d id with
      | None => Some []
      | Some NDocument => serialize_children id parent_name
      | Some (NDoctype name public_id system_id) => Some (write_doctype name public_id system_id)
      | Some (NText contents) => Some (write_text contents parent_name)
      | Some (NComment contents) => Some [as_bytes "<!--"; as_bytes contents; as_bytes "-->"]
      | Some (NElement name attrs template_contents _) =>
          if is_void_element name then Some (open_tag name attrs)
          else
            inner ← match template_contents with
                    | Some t => if name_is ns_html "template" name then serialize_children t (Some name)
                                else serialize_children id (Some name)
                    | None => serialize_children id (Some name)
                    end;
            Some (open_tag name attrs ++ inner ++ close_tag name)
      | Some (NInstruction target contents) =>
          Some [as_bytes "<?"; as_bytes target; as_bytes " "; as_bytes contents; as_bytes ">"]
      end
  end.

(** The buffers of [serialize_document_to]. *)
Definition serialize_chunks (d : Document) : option (list bytes) :=
  @concat _ <$> mapM (fun c => serialize_node (node_count d) d c None) (children_of d (dc_root d)).

(** [write_all] one after another until one fails. *)
Fixpoint write_chunks {W E} (write_all : bytes -> W -> result E unit * W) (chunks : list bytes) (w : W)
    : result E unit * W :=
  match chunks with
  | [] => (Ok tt, w)
  | b :: chunks' =>
      match write_all b w with
      | (Ok _, w) => write_chunks write_all chunks' w
      | (Err e, w) => (Err e, w)
      end
  end.

Definition serialize_document_to {W E} (write_all : bytes -> W -> result E unit * W) (d : Document) (w : W)
    : option (result E unit * W) :=
  chunks ← serialize_chunks d; Some (write_chunks write_all chunks w).

(** [serialize_document]: a vector takes everything. *)
Definition serialize_document (d : Document) : option bytes := @concat _ <$> serialize_chunks d.

Definition serialize_subtree (d : Document) (root : NodeId) : option bytes :=
  let parent_name := p ← node d root ≫= nd_parent; fst <$> element_at d p in
  @concat _ <$> serialize_node (node_count d) d root parent_name.
