(* ===== verification/SerializeFacts.v ===== *)
(** * What serialisation writes

    The bytes are a function of the tree; escaped text and attribute values
    hold no markup and can be read back; a bounded writer receives everything or
    an error and a part from the start. *)

From Stdlib Require Import ZArith Lia Ascii String.
From stdpp Require Import base tactics list gmap strings numbers relations.
From S2P Require Import Prelude.
From S2P Require Import Errors.
From S2P Require Import Records.
From S2P Require Import Names.
From S2P Require Import Dom.
From S2P Require Import DomFacts.
From S2P Require Import Sanitize.
From S2P Require Import SanitizeFacts.
From S2P Require Import Serialize.
Import DomSamples.

#[local] Open Scope string_scope.
#[local] Open Scope list_scope.
#[local] Open Scope Z_scope.

(** ** Printing a tree *)

Fixpoint print (parent_name : option QualName) (t : tree) : bytes :=
  let 'Tree x template children := t in
  match x with
  | NDocument => concat (map (print parent_name) children)
  | NDoctype name public_id system_id => concat (write_doctype name public_id system_id)
  | NText contents => concat (write_text contents parent_name)
  | NComment contents => as_bytes "<!--" ++ as_bytes contents ++ as_bytes "-->"
  | NElement name attrs _ _ =>
      concat (open_tag name attrs)
      ++ if is_void_element name then []
         else match template with
              | Some (Tree _ _ contents) =>
                  if name_is ns_html "template" name then concat (map (print (Some name)) contents)
                  else concat (map (print (Some name)) children)
              | None => concat (map (print (Some name)) children)
              end ++ concat (close_tag name)
  | NInstruction target contents =>
      as_bytes "<?" ++ as_bytes target ++ as_bytes " " ++ as_bytes contents ++ as_bytes ">"
  end.

Lemma serialize_node_more fuel d i pn chunks :
  serialize_node fuel d i pn = Some chunks -> serialize_node (S fuel) d i pn = Some chunks.
Proof.
  revert i pn chunks. induction fuel as [|fuel IH]; intros i pn chunks H; [done|].
  assert (forall p name l, @concat _ <$> mapM (fun c => serialize_node fuel d c name) (children_of d p) = Some l ->
    @concat _ <$> mapM (fun c => serialize_node (S fuel) d c name) (children_of d p) = Some l) as Hc.
  { intros p name l (ls & Hl & ->)%fmap_Some. apply fmap_Some. exists ls. split; [|done].
    apply mapM_Some in Hl. apply mapM_Some. eapply Forall2_impl; [done|]. intros c l' Hl'. by apply IH. }
  remember (S fuel) as k eqn:Ek. rewrite Ek in H. cbn [serialize_node] in H |- *.
  destruct (node_data d i) as [[]|]; eauto.
  destruct (is_void_element name); [done|]. apply bind_Some in H as (inner & Hi & <-).
  apply bind_Some. exists inner. split; [|done].
  destruct template_contents as [t|]; [destruct (name_is ns_html "template" name)|]; by apply Hc.
Qed.

Lemma printed_children fuel d cs ts pn :
  (forall i t pn, tree_at fuel d i = Some t ->
     exists chunks, serialize_node fuel d i pn = Some chunks /\ concat chunks = print pn t) ->
  Forall2 (fun c t => tree_at fuel d c = Some t) cs ts ->
  exists chunks, @concat _ <$> mapM (fun c => serialize_node fuel d c pn) cs = Some chunks /\
    concat chunks = concat (map (print pn) ts).
Proof.
  intros IH. induction 1 as [|c t cs ts Hc _ (chunks & Hm & Hp)]; [by exists []|].
  destruct (IH c t pn Hc) as (l & Hl & Hlp). apply fmap_Some in Hm as (ls & Hm & ->).
  exists (l ++ concat ls). simpl. rewrite Hl; simpl. rewrite Hm; simpl. split; [done|].
  by rewrite concat_app, Hlp, Hp.
Qed.

Lemma serialize_children_more fuel d p pn chunks :
  @concat _ <$> mapM (fun c => serialize_node fuel d c pn) (children_of d p) = Some chunks ->
  @concat _ <$> mapM (fun c => serialize_node (S fuel) d c pn) (children_of d p) = Some chunks.
Proof.
  intros (ls & Hl & ->)%fmap_Some. apply fmap_Some. exists ls. split; [|done].
  apply mapM_Some in Hl. apply mapM_Some. eapply Forall2_impl; [done|]. intros. by apply serialize_node_more.
Qed.

Lemma serialize_node_print fuel d i t pn :
  tree_at fuel d i = Some t ->
  exists chunks, serialize_node fuel d i pn = Some chunks /\ concat chunks = print pn t.
Proof.
  revert i t pn. induction fuel as [fuel IH] using lt_wf_ind. intros i t pn Ht.
  apply tree_at_inv in Ht as (f & n & tm & ts & -> & Hn & -> & Htm & Hts).
  pose proof (fun pn => printed_children f d (nd_children n) ts pn (IH f ltac:(lia)) Hts) as Hch.
  assert (children_of d i = nd_children n) as Hco by (unfold children_of; by rewrite Hn).
  cbn [serialize_node]. unfold node_data. rewrite Hn, Hco. cbn [fmap option_fmap option_map].
  destruct (nd_data n) as [|nm pu sy|s|s|name attrs tc m|ta s] eqn:Hd; cbn [erase print];
    try (eexists; split; [done|]; simpl; rewrite ?app_nil_r; done).
  - destruct (Hch pn) as (chunks & -> & <-). eauto.
  - destruct (is_void_element name); [eexists; split; [done|by rewrite app_nil_r]|].
    destruct (Hch (Some name)) as (chunks & Hc1 & Hc2). simpl in Htm.
    assert (exists inner, match tc with
      | Some t => if name_is ns_html "template" name
                  then @concat _ <$> mapM (fun c => serialize_node f d c (Some name)) (children_of d t)
                  else @concat _ <$> mapM (fun c => serialize_node f d c (Some name)) (nd_children n)
      | None => @concat _ <$> mapM (fun c => serialize_node f d c (Some name)) (nd_children n)
      end = Some inner /\ concat inner = match tm with
      | Some (Tree _ _ contents) =>
          if name_is ns_html "template" name then concat (map (print (Some name)) contents)
          else concat (map (print (Some name)) ts)
      | None => concat (map (print (Some name)) ts)
      end) as (inner & Hi1 & Hi2).
    { destruct tc as [k|]; [|subst tm; eauto]. apply fmap_Some in Htm as (tt & Htt & ->).
      apply tree_at_inv in Htt as (f' & m' & tm' & ts' & -> & Hm' & -> & _ & Hts').
      destruct (name_is ns_html "template" name); [|eauto].
      destruct (printed_children f' d (nd_children m') ts' (Some name) (IH f' ltac:(lia)) Hts') as (l & Hl & Hp).
      exists l. split; [|done]. replace (nd_children m') with (children_of d k) in Hl.
      - by apply serialize_children_more.
      - unfold children_of. by rewrite Hm'. }
    rewrite Hi1. cbn [mbind option_bind]. eexists. split; [reflexivity|]. by rewrite !concat_app, Hi2.
Qed.

Lemma tree_at_more fuel d i t : tree_at fuel d i = Some t -> tree_at (S fuel) d i = Some t.
Proof.
  revert i t. induction fuel as [|fuel IH]; intros i t H; [done|].
  apply tree_at_inv in H as (f & n & tm & ts & [= <-] & Hn & -> & Htm & Hts).
  remember (S fuel) as k eqn:Ek. cbn [tree_at]. rewrite Hn; simpl.
  assert (match template_of (nd_data n) with Some t => Some <$> tree_at k d t | None => Some None end = Some tm) as ->.
  { destruct (template_of (nd_data n)); [|by subst]. apply fmap_Some in Htm as (t & Ht & ->).
    by rewrite (IH _ _ Ht). }
  simpl. replace (mapM (tree_at k d) (nd_children n)) with (Some ts); [done|]. symmetry. apply mapM_Some.
  eapply Forall2_impl; [done|]. auto.
Qed.

Lemma serialized_tree d t :
  tree_shaped d -> tree_of d = Some t -> serialize_document d = Some (print None t).
Proof.
  intros S Ht. unfold tree_of in Ht.
  apply tree_at_inv in Ht as (f & n & tm & ts & Hf & Hn & -> & _ & Hts).
  destruct (shape_root d S) as (r & Hr & _ & Hd). assert (n = r) as -> by congruence.
  assert (Forall2 (fun c t => tree_at (node_count d) d c = Some t) (nd_children r) ts) as Hts'.
  { rewrite Hf. eapply Forall2_impl; [done|]. intros. by apply tree_at_more. }
  destruct (printed_children (node_count d) d (nd_children r) ts None) as (chunks & Hc & Hp);
    [intros; by apply serialize_node_print|done|].
  unfold serialize_document, serialize_chunks, children_of. rewrite Hr, Hc; simpl. by rewrite Hp, Hd.
Qed.

(** ** Characters and bytes *)

(** A Unicode scalar value, up to the surrogates, which play no part here. *)
Definition scalar (c : Z) : Prop := 0 <= c < 1114112.

Lemma byte_val_of x : 0 <= x < 256 -> byte_val (byte_of x) = x.
Proof. intros H. unfold byte_val, byte_of. rewrite N_ascii_embedding by lia. lia. Qed.

(** Linear arithmetic with quotients and remainders. *)
Ltac zdiv := Z.to_euclidean_division_equations; lia.

Lemma utf8_round c l : scalar c -> utf8_chars (utf8_encode_char c ++ l) = c :: utf8_chars l.
Proof.
  intros H. unfold scalar in H. unfold utf8_encode_char.
  destruct (Z.ltb_spec c 128) as [H1|H1].
  { cbn [app utf8_chars]. rewrite byte_val_of by zdiv. by destruct (Z.ltb_spec c 128); [|zdiv]. }
  destruct (Z.ltb_spec c 2048) as [H2|H2].
  { cbn [app utf8_chars]. rewrite !byte_val_of by zdiv.
    destruct (Z.ltb_spec (192 + c / 64) 128); [zdiv|]. destruct (Z.ltb_spec (192 + c / 64) 224); [|zdiv].
    f_equal. zdiv. }
  destruct (Z.ltb_spec c 65536) as [H3|H3].
  { cbn [app utf8_chars]. rewrite !byte_val_of by zdiv.
    destruct (Z.ltb_spec (224 + c / 4096) 128); [zdiv|]. destruct (Z.ltb_spec (224 + c / 4096) 224); [zdiv|].
    destruct (Z.ltb_spec (224 + c / 4096) 240); [|zdiv]. f_equal. zdiv. }
  cbn [app utf8_chars]. rewrite !byte_val_of by zdiv.
  destruct (Z.ltb_spec (240 + c / 262144) 128); [zdiv|]. destruct (Z.ltb_spec (240 + c / 262144) 224); [zdiv|].
  destruct (Z.ltb_spec (240 + c / 262144) 240); [zdiv|]. f_equal. zdiv.
Qed.

Lemma as_bytes_of l : as_bytes (string_of_list_ascii l) = l.
Proof. apply list_ascii_of_string_of_list_ascii. Qed.

Lemma utf8_decode_encode cs : Forall scalar cs -> utf8_chars (as_bytes (utf8_encode cs)) = cs.
Proof.
  unfold utf8_encode. rewrite as_bytes_of.
  induction 1 as [|c cs Hc _ IH]; [done|]. simpl. rewrite utf8_round by done. by rewrite IH.
Qed.

(** A byte of markup occurs only as itself. *)
Lemma encoded_byte c b : scalar c -> b ∈ utf8_encode_char c -> (c < 128 /\ b = byte_of c) \/ 128 <= byte_val b.
Proof.
  intros H Hb. unfold scalar in H. unfold utf8_encode_char in Hb.
  repeat case_if; bool_facts; [left; set_solver|right..];
    repeat (apply elem_of_cons in Hb as [->|Hb]; [rewrite byte_val_of by zdiv; zdiv|]);
    by apply elem_of_nil in Hb.
Qed.

(** ** Escaping *)

Lemma escape_loop_flat repl seg cs :
  concat (escape_loop repl seg cs) =
  seg ++ concat (map (fun c => match repl c with Some r => as_bytes r | None => utf8_encode_char c end) cs).
Proof.
  revert seg. induction cs as [|c cs IH]; intros seg; simpl; [done|].
  destruct (repl c); simpl; rewrite IH; simpl; [done|]. by rewrite <- app_assoc.
Qed.

(** The character references serialisation writes, read back. *)
Fixpoint decode_references (l : bytes) : bytes :=
  match l with
  | ("&" :: "a" :: "m" :: "p" :: ";" :: r)%char => "&"%char :: decode_references r
  | ("&" :: "q" :: "u" :: "o" :: "t" :: ";" :: r)%char => "034"%char :: decode_references r
  | ("&" :: "n" :: "b" :: "s" :: "p" :: ";" :: r)%char => utf8_encode_char NBSP ++ decode_references r
  | ("&" :: "l" :: "t" :: ";" :: r)%char => "<"%char :: decode_references r
  | ("&" :: "g" :: "t" :: ";" :: r)%char => ">"%char :: decode_references r
  | c :: r => c :: decode_references r
  | [] => []
  end.

Lemma decode_other c r : c <> "&"%char -> decode_references (c :: r) = c :: decode_references r.
Proof. intros H. simpl. destruct c as [[] [] [] [] [] [] [] []]; done. Qed.

Lemma decode_plain l r : Forall (fun c => c <> "&"%char) l -> decode_references (l ++ r) = l ++ decode_references r.
Proof. induction 1 as [|c l Hc _ IH]; [done|]. rewrite <- app_comm_cons, decode_other by done. by rewrite IH. Qed.

Lemma encoded_without c k b :
  scalar c -> 0 <= k < 128 -> b = byte_of k -> c <> k -> Forall (fun x => x <> b) (utf8_encode_char c).
Proof.
  intros Hc Hk -> Hne. apply list.Forall_forall. intros x Hx Hxk.
  assert (byte_val x = k) as Hv by (subst x; by apply byte_val_of; lia).
  destruct (encoded_byte c x Hc Hx) as [[Hlt ->]|Hge]; [|lia].
  rewrite byte_val_of in Hv by (unfold scalar in Hc; lia). done.
Qed.

Lemma byte_of_38 : "&"%char = byte_of 38. Proof. done. Qed.
Lemma byte_of_34 : "034"%char = byte_of 34. Proof. done. Qed.
Lemma byte_of_60 : "<"%char = byte_of 60. Proof. done. Qed.
Lemma byte_of_62 : ">"%char = byte_of 62. Proof. done. Qed.

(** What the two tables of replacements have in common. *)
Record escapes (repl : Z -> option string) (special : list Z) : Prop := {
  es_decode : forall c s r, repl c = Some s ->
    decode_references (as_bytes s ++ r) = utf8_encode_char c ++ decode_references r;
  es_clean : forall c s k, repl c = Some s -> k ∈ special -> byte_of k ∉ as_bytes s;
  es_special : forall c k, repl c = None -> k ∈ special -> 0 <= k < 128 /\ c <> k;
  es_amp : forall c, repl c = None -> c <> 38;
}.

Lemma attribute_escapes : escapes attribute_replacement [34; 60; 62].
Proof.
  unfold attribute_replacement. split.
  - intros c s r. repeat case_if; bool_facts; intros [= <-]; subst; done.
  - intros c s k. repeat case_if; intros [= <-];
      intros [->|[->|[->|?%elem_of_nil]%elem_of_cons]%elem_of_cons]%elem_of_cons; try done; vm_compute; set_solver.
  - intros c k. repeat case_if; bool_facts; try done. intros _. set_solver by lia.
  - intros c. repeat case_if; bool_facts; done.
Qed.

Lemma text_escapes : escapes text_replacement [60; 62].
Proof.
  unfold text_replacement. split.
  - intros c s r. repeat case_if; bool_facts; intros [= <-]; subst; done.
  - intros c s k. repeat case_if; intros [= <-];
      intros [->|[->|?%elem_of_nil]%elem_of_cons]%elem_of_cons; try done; vm_compute; set_solver.
  - intros c k. repeat case_if; bool_facts; try done. intros _. set_solver by lia.
  - intros c. repeat case_if; bool_facts; done.
Qed.

Lemma escaped_decodes repl special cs :
  escapes repl special -> Forall scalar cs ->
  decode_references (concat (write_escaped repl (utf8_encode cs))) = as_bytes (utf8_encode cs) /\
  Forall (fun k => byte_of k ∉ concat (write_escaped repl (utf8_encode cs))) special.
Proof.
  intros E Hcs. unfold write_escaped. rewrite utf8_decode_encode, escape_loop_flat by done. simpl.
  unfold utf8_encode. rewrite as_bytes_of. split.
  - induction Hcs as [|c cs Hc _ IH]; [done|]. simpl. destruct (repl c) as [s|] eqn:Er.
    + rewrite (es_decode _ _ E c s) by done. by rewrite IH.
    + rewrite decode_plain, IH; [done|]. apply (encoded_without c 38); [done|lia|done|by apply (es_amp _ _ E)].
  - apply list.Forall_forall. intros k Hk Hin.
    apply list_elem_of_In, in_concat in Hin as (l & Hl & Hb).
    apply in_map_iff in Hl as (c & <- & Hc). apply list_elem_of_In in Hc, Hb.
    rewrite list.Forall_forall in Hcs. specialize (Hcs c Hc). destruct (repl c) as [s|] eqn:Er.
    + by apply (es_clean _ _ E c s k).
    + destruct (es_special _ _ E c k Er Hk) as [Hk2 Hck].
      pose proof (encoded_without c k (byte_of k) Hcs Hk2 eq_refl Hck) as Hf.
      rewrite list.Forall_forall in Hf. by apply (Hf _ Hb).
Qed.

(** ** A bounded writer *)

(** [write_all] of a writer that takes a buffer whole or not at all. *)
Definition memory_write_all (b : bytes) (w : MemoryArtifactWriter) : result write_error unit * MemoryArtifactWriter :=
  match memory_write b w with (Ok _, w) => (Ok tt, w) | (Err e, w) => (Err e, w) end.

Lemma memory_write_all_spec maximum sofar b :
  0 <= maximum < u64_max -> Z.of_nat (length sofar) <= maximum ->
  memory_write_all b (MkMemoryWriter sofar maximum sofar) =
  if Z.of_nat (length sofar) + Z.of_nat (length b) <=? maximum
  then (Ok tt, MkMemoryWriter (sofar ++ b) maximum (sofar ++ b))
  else (Err FileTooLarge, MkMemoryWriter sofar maximum sofar).
Proof.
  intros Hm Hs. unfold memory_write_all, memory_write. cbn [mw_bytes mw_maximum_bytes mw_hasher].
  unfold saturating_add, len_u64.
  destruct (Z.leb_spec (Z.of_nat (length sofar) + Z.of_nat (length b)) maximum);
    [rewrite (proj2 (Z.ltb_ge _ _)) by lia|rewrite (proj2 (Z.ltb_lt _ _)) by lia]; done.
Qed.

Lemma write_chunks_memory maximum chunks sofar :
  0 <= maximum < u64_max -> Z.of_nat (length sofar) <= maximum ->
  let all := sofar ++ concat chunks in
  exists r part, write_chunks memory_write_all chunks (MkMemoryWriter sofar maximum sofar)
                 = (r, MkMemoryWriter part maximum part) /\
    part `prefix_of` all /\ Z.of_nat (length part) <= maximum /\
    if Z.of_nat (length all) <=? maximum then r = Ok tt /\ part = all else r = Err FileTooLarge.
Proof.
  intros Hm. revert sofar. induction chunks as [|b chunks IH]; intros sofar Hs; simpl.
  - rewrite app_nil_r. exists (Ok tt), sofar. rewrite (proj2 (Z.leb_le _ _)) by done. done.
  - rewrite memory_write_all_spec by done. destruct (Z.leb_spec (Z.of_nat (length sofar) + Z.of_nat (length b)) maximum).
    + destruct (IH (sofar ++ b)) as (r & part & -> & Hp & Hl & Hr); [rewrite length_app; lia|].
      exists r, part. rewrite <- app_assoc in Hp, Hr. done.
    + exists (Err FileTooLarge), sofar. split_and!; try done; [by apply prefix_app_r|].
      rewrite (proj2 (Z.leb_gt _ _)); [done|]. rewrite !length_app. lia.
Qed.

(** ** The theorems *)

(** Serialisation ends, and what it writes is determined by the tree of
    the document: the bytes are those of printing the tree, so two arenas with
    the same tree serialise alike, and the bytes of a sanitised document are the
    print of the filtered tree. *)
Theorem serialize_prints_tree d t :
  tree_shaped d -> tree_of d = Some t ->
  serialize_document d = Some (print None t) /\
  serialize_document (sanitize_safe_static d).1 = Some (print None (sanitize_tree t)).
Proof.
  intros S Ht. split; [by apply serialized_tree|].
  apply serialized_tree; [by apply sanitized_shape|by apply sanitized_tree].
Qed.

Lemma serialize_prints_tree_witness :
  exists t, tree_of sample_page = Some t /\ serialize_document sample_page = Some (print None t).
Proof.
  eexists. split; [vm_compute; reflexivity|].
  apply (serialize_prints_tree sample_page); [apply sample_page_shaped|vm_compute; reflexivity].
Defined.

(** C26: no text breaks out of its place: the escaped form of an attribute
    value holds no quote and no angle bracket, that of a text no angle bracket,
    whatever characters they are made of, and replacing the character references
    gives the value back byte for byte. *)
Theorem escaping_round_trip cs :
  Forall scalar cs ->
  decode_references (concat (write_escaped_attribute (utf8_encode cs))) = as_bytes (utf8_encode cs) /\
  Forall (fun k => byte_of k ∉ concat (write_escaped_attribute (utf8_encode cs))) [34; 60; 62] /\
  decode_references (concat (write_escaped text_replacement (utf8_encode cs))) = as_bytes (utf8_encode cs) /\
  Forall (fun k => byte_of k ∉ concat (write_escaped text_replacement (utf8_encode cs))) [60; 62].
Proof.
  intros H. pose proof (escaped_decodes _ _ cs attribute_escapes H) as [? ?].
  pose proof (escaped_decodes _ _ cs text_escapes H) as [? ?]. done.
Qed.

(** Markup, quotes, a letter with an accent, a no-break space and a character beyond the basic plane. *)
Definition sample_text : list Z := [65; 38; 34; 60; 98; 62; 233; 160; 128077].

Lemma escaping_round_trip_witness :
  decode_references (concat (write_escaped_attribute (utf8_encode sample_text))) = as_bytes (utf8_encode sample_text).
Proof.
  refine (proj1 (escaping_round_trip sample_text _)). repeat constructor; unfold scalar; lia.
Defined.

(** C27: serialising into a writer with a limit keeps within it: all the bytes
    when they fit, and otherwise the error of the writer and a part from the
    start of them. *)
Theorem serialize_bounded d b maximum :
  serialize_document d = Some b -> 0 <= maximum < u64_max ->
  exists r part,
    serialize_document_to memory_write_all d (memory_new maximum)
    = Some (r, MkMemoryWriter part maximum part) /\
    part `prefix_of` b /\ Z.of_nat (length part) <= maximum /\
    if Z.of_nat (length b) <=? maximum then r = Ok tt /\ part = b else r = Err FileTooLarge.
Proof.
  intros (chunks & Hc & ->)%fmap_Some Hm. unfold serialize_document_to. rewrite Hc; simpl.
  destruct (write_chunks_memory maximum chunks []) as (r & part & Hw & Hp); [done|simpl; lia|].
  exists r, part. split; [|done]. unfold memory_new. by rewrite Hw.
Qed.

Lemma serialize_bounded_witness :
  exists b r part, serialize_document sample_page = Some b /\
    serialize_document_to memory_write_all sample_page (memory_new 64)
    = Some (r, MkMemoryWriter part 64 part) /\ part `prefix_of` b /\ r = Err FileTooLarge.
Proof.
  destruct (serialize_document sample_page) as [b|] eqn:Hb; [|by vm_compute in Hb].
  destruct (serialize_bounded sample_page b 64 Hb) as (r & part & Hw & Hp & _ & Hr); [unfold u64_max; lia|].
  exists b, r, part. split_and!; [done|done|done|].
  assert ((Z.of_nat (length b) <=? 64) = false) as E by (vm_compute in Hb; injection Hb as <-; vm_compute; reflexivity).
  by rewrite E in Hr.
Defined.
