(* ===== verification/Html.v ===== *)
(** * The HTML artifact

    Models the encoding half of [offprint-rs/html/src]: the artifact manifest
    ([model/src/artifact.rs], [resource.rs], [structural.rs], [browser.rs]), the
    content security policy ([csp.rs]), the structural-repair record
    ([repair.rs]), the state-restoration program ([state.rs]), the encoder
    ([encode.rs]) and the empty resources ([fallback.rs]).

    The two programs an artifact carries are texts of JavaScript that the Rust
    code embeds, hashes and compares; they are parameters, and so are [base64]
    and the JSON of [serde_json]. *)

From Stdlib Require Import ZArith Lia Ascii String.
From stdpp Require Import base tactics list gmap strings numbers.
From S2P Require Import Prelude.
From S2P Require Import Errors.
From S2P Require Import Records.
From S2P Require Import Requests.
From S2P Require Import Schedule.
From S2P Require Import Dom.
From S2P Require Import Sanitize.
From S2P Require Import Serialize.

#[local] Open Scope string_scope.
#[local] Open Scope list_scope.
#[local] Open Scope Z_scope.

(** ** Resources *)

Inductive ExternalReason := ExternalPolicy | UnsupportedScheme | ExplicitlyPreserved.
Inductive OmissionReason := NonRendering | Sanitized | Sensitive | OmittedLimit.

Record ResourceError := MkResourceError {
  re_code : string; re_message : string; re_retryable : bool;
}.

Inductive ResourceOutcome :=
| OutcomeEmbedded (digest : ContentDigest) (media : string) (size : Z)
| OutcomeExternal (target : RedactedUrl) (target_sha256 : ContentDigest) (reason : ExternalReason)
| OutcomeOmitted (reason : OmissionReason)
| OutcomeFailed (error : ResourceError).

Inductive ResourceRetrievalSource :=
  InlineData | ObservedResponse | BrowserContextFetch | OwningFrameRead | LocalFileRead.

Record ResourceProvenance := MkProvenance {
  pv_source : ResourceRetrievalSource;
  pv_final_url : RedactedUrl;
  pv_final_url_sha256 : ContentDigest;
  pv_status : option Z;
  pv_redirects : list RedactedUrl;
  pv_received_bytes : Z;
}.

Record ResourceRecord := MkResource {
  rr_id : Z;
  rr_frame_id : Z;
  rr_requested_url : RedactedUrl;
  rr_requested_url_sha256 : ContentDigest;
  rr_outcome : ResourceOutcome;
  rr_provenance : option ResourceProvenance;
}.

(** [u32] additions, without overflow checks in a release build. *)
Definition outcomes (s : ResourceSummary) : Z :=
  (rs_embedded s + rs_external s + rs_omitted s + rs_failed s) mod (u32_max + 1).

Definition is_complete (s : ResourceSummary) : bool := rs_discovered s =? outcomes s.

(** ** The manifest *)

Inductive BrowserProduct := Chrome | Chromium | Edge.
Inductive BrowserSource := SourceManaged | SourceSystem | SourceExplicit | SourceRemote.

Record BrowserInfo := MkBrowserInfo {
  bi_product : BrowserProduct;
  bi_version : string;
  bi_source : BrowserSource;
  bi_executable_path : option PortablePath;
  bi_endpoint : option RedactedUrl;
  bi_revision : option string;
  bi_protocol_version : string;
}.

Record ManifestGenerator := MkGenerator { mg_name : string; mg_version : string }.

Record ViewState := MkView { vs_scroll_x : string; vs_scroll_y : string }.

Record StructuralRepair := MkRepair { sr_applied : bool; sr_script_sha256 : option ContentDigest }.

Record ArtifactManifest := MkArtifactManifest {
  am_schema_version : Z;
  am_format_version : Z;
  am_generator : ManifestGenerator;
  am_source : SourceSummary;
  am_captured_at : string;
  am_browser : BrowserInfo;
  am_environment : BrowserEnvironment;
  am_view_state : ViewState;
  am_capture_policy_sha256 : ContentDigest;
  am_frames : Z;
  am_resources : ResourceSummary;
  am_resource_records : list ResourceRecord;
  am_warning_codes : list string;
  am_structural_repair : StructuralRepair;
  am_verification_mode : VerificationMode;
}.

(** ** Structural repair records *)

Inductive RepairNode :=
| RepairElement (marker namespace name : string) (children template_content : list RepairNode)
    (shadow_mode : option string)
| RepairText (value : string)
| RepairComment (value : string).

Record StructuralRepairTree := MkRepairTree { document_element : RepairNode }.

(** ** Parameters *)

Class Scripts := {
  STATE_RESTORATION_SCRIPT : string;
  RESTORATION_SCRIPT : string;
}.

Class Encodings := {
  base64_encode : bytes -> string;
  base64_decode : string -> option bytes;
  manifest_to_json : ArtifactManifest -> option string;
  manifest_from_json : string -> option ArtifactManifest;
  repair_from_json : string -> option StructuralRepairTree;
}.

Definition CSP_ELEMENT_ID : string := "offprint-csp".
Definition MANIFEST_ELEMENT_ID : string := "offprint-manifest".
Definition MANIFEST_MEDIA_TYPE : string := "application/vnd.offprint.manifest+json".
Definition REPAIR_DATA_ELEMENT_ID : string := "offprint-repair-data".
Definition REPAIR_SCRIPT_ELEMENT_ID : string := "offprint-repair-script".
Definition REPAIR_MEDIA_TYPE : string := "application/vnd.offprint.repair+json".
Definition REPAIR_MARKER_ATTRIBUTE : string := "data-offprint-node".
Definition STATE_SCRIPT_ELEMENT_ID : string := "offprint-state-script".

Section Html.
Context `{Scripts} `{Encodings} `{Hashing}.

Definition state_restoration_script_digest : ContentDigest := sha256 (as_bytes STATE_RESTORATION_SCRIPT).
Definition structural_repair_script_digest : ContentDigest := sha256 (as_bytes RESTORATION_SCRIPT).

(** ** The content security policy *)

Definition script_source (digest : ContentDigest) : string :=
  "'sha256-" ++ base64_encode (digest_bytes digest) ++ "'".

Definition script_policy (m : ArtifactManifest) (restore_state : bool) : string :=
  match ((if restore_state then [state_restoration_script_digest] else [])
         ++ option_list (sr_script_sha256 (am_structural_repair m)))%list with
  | [] => "script-src 'none'"
  | sources => "script-src " ++ String.concat " " (map script_source sources)
  end.

Definition policy_with_state_restoration (m : ArtifactManifest) (restore_state : bool) : string :=
  String.concat "; "
    ["default-src 'none'"; "base-uri 'none'"; "connect-src 'none'"; "font-src data:";
     "form-action 'none'"; "frame-src data: blob:"; "img-src data: blob:"; "media-src data: blob:";
     "object-src 'none'"; script_policy m restore_state; "style-src 'unsafe-inline' data:"].

Definition content_security_policy (m : ArtifactManifest) : string := policy_with_state_restoration m true.
Definition sandboxed_content_security_policy (m : ArtifactManifest) : string :=
  policy_with_state_restoration m false.

(** ** Structural repair *)

Definition repair_error : OffprintError := new_error "offprint.transform.structural_repair" Transform.

Definition bad_marker (marker : string) (markers : gset string) : bool :=
  bool_decide (marker = "") || (20 <? Z.of_nat (String.length marker))
  || negb (forallb (fun b => (48 <=? byte_val b) && (byte_val b <=? 57)) (as_bytes marker))
  || bool_decide (marker ∈ markers).

Definition bad_identity (namespace name : string) : bool :=
  bool_decide (namespace = "") || (256 <? Z.of_nat (String.length namespace))
  || bool_decide (name = "") || (256 <? Z.of_nat (String.length name)).

Definition bad_shadow_mode (mode : option string) : bool :=
  match mode with Some v => negb (bool_decide (v ∈ ["open"; "closed"])) | None => false end.

(** The loop over the stack, with its top first; [None] when the fuel is used
    up. *)
Fixpoint repair_loop (fuel : nat) (pending : list RepairNode) (markers : gset string) (nodes : Z)
    : option (Res unit) :=
  match pending with
  | [] => Some (Ok tt)
  | n :: pending =>
      match fuel with
      | O => None
      | S fuel' =>
          let nodes := saturating_add u64_max nodes 1 in
          if MAXIMUM_CAPTURE_NODES <? nodes then
            Some (Err (with_detail "limit" (DNum MAXIMUM_CAPTURE_NODES)
                         (with_detail "attempted" (DNum nodes) repair_error)))
          else
            match n with
            | RepairElement marker namespace name children template_content shadow_mode =>
                if bad_marker marker markers then Some (Err repair_error)
                else if bad_identity namespace name then Some (Err repair_error)
                else if bad_shadow_mode shadow_mode then Some (Err repair_error)
                else repair_loop fuel' (rev template_content ++ rev children ++ pending)
                       ({[marker]} ∪ markers) nodes
            | _ => repair_loop fuel' pending markers nodes
            end
      end
  end.

Fixpoint repair_size (n : RepairNode) : nat :=
  match n with
  | RepairElement _ _ _ children template_content _ =>
      S (list_sum (map repair_size children) + list_sum (map repair_size template_content))
  | _ => 1
  end.

Definition validate_repair_tree (t : StructuralRepairTree) : Res unit :=
  match document_element t with
  | RepairElement marker namespace name _ _ _ =>
      if bool_decide (marker <> "0") || bool_decide (namespace <> ns_html) || bool_decide (name <> "html")
      then Err repair_error
      else default (Err repair_error)
             (repair_loop (repair_size (document_element t)) [document_element t] ∅ 0)
  | _ => Err repair_error
  end.

(** The [script] elements with an identifier, and with a type when one is asked
    for. *)
Definition owned_script (id : string) (media : option string) (name : QualName) (attrs : list Attribute) : bool :=
  name_is ns_html "script" name
  && bool_decide (attribute_value attrs "id" = Some id)
  && match media with
     | Some expected => bool_decide (attribute_value attrs "type" = Some expected)
     | None => true
     end.

Definition matching_scripts (id : string) (media : option string) (d : Document) : list NodeId :=
  walk_filter (owned_script id media) d.

Definition detach_all (ids : list NodeId) (d : Document) : Document := fold_left (fun d id => detach id d) ids d.

(** A [script] with text, at the end of the head. *)
Definition append_script (head : NodeId) (attrs : list Attribute) (text : string) (d : Document) : Res Document :=
  '(script, d) <-? create_node (NElement (html_name "script") attrs None false) d ;;
  '(content, d) <-? create_node (NText text) d ;;
  d <-? append_child script content d ;;
  append_child head script d.

Definition apply_structural_repair (d : Document) : Res (bool * Document) :=
  match matching_scripts REPAIR_DATA_ELEMENT_ID (Some REPAIR_MEDIA_TYPE) d with
  | [] => Ok (false, d)
  | [data_node] =>
      repair <-? ok_or (repair_from_json (text_contents d data_node)) repair_error ;;
      do? validate_repair_tree repair ;;
      let d := detach_all (matching_scripts REPAIR_SCRIPT_ELEMENT_ID None d) d in
      head <-? ok_or (find_html_element "head" d) repair_error ;;
      d <-? append_script head [html_attribute "id" REPAIR_SCRIPT_ELEMENT_ID] RESTORATION_SCRIPT d ;;
      Ok (true, d)
  | _ => Err repair_error
  end.

(** ** State restoration *)

Definition state_script (name : QualName) (attrs : list Attribute) : bool :=
  name_is ns_html "script" name
  && existsb (fun a => plain_attribute "id" a && bool_decide (at_value a = STATE_SCRIPT_ELEMENT_ID)) attrs.

Definition head_error : OffprintError := new_error "offprint.artifact.head" Encoding.

Definition apply_state_restoration (d : Document) : Res Document :=
  let d := detach_all (walk_filter state_script d) d in
  head <-? ok_or (find_html_element "head" d) head_error ;;
  append_script head [html_attribute "id" STATE_SCRIPT_ELEMENT_ID] STATE_RESTORATION_SCRIPT d.

(** ** The encoder *)

Definition escape_script_char (c : Z) : list Z :=
  let hex s := map (fun a => byte_val a) (as_bytes s) in
  if c =? 60 then hex "\u003c"
  else if c =? 62 then hex "\u003e"
  else if c =? 38 then hex "\u0026"
  else if c =? 8232 then hex "\u2028"
  else if c =? 8233 then hex "\u2029"
  else [c].

Definition escape_script_data (json : string) : string :=
  utf8_encode (flat_map escape_script_char (utf8_chars (as_bytes json))).

Definition existing_metadata (name : QualName) (attrs : list Attribute) : bool :=
  (name_is ns_html "script" name && bool_decide (attribute_value attrs "id" = Some MANIFEST_ELEMENT_ID))
  || http_equiv_is "content-security-policy" name attrs.

Definition remove_existing_artifact_metadata (d : Document) : Document :=
  detach_all (walk_filter existing_metadata d) d.

Definition prepend_policy (head : NodeId) (csp : string) (d : Document) : Res Document :=
  '(meta, d) <-? create_node (NElement (html_name "meta")
      [html_attribute "id" CSP_ELEMENT_ID; html_attribute "http-equiv" "Content-Security-Policy";
       html_attribute "content" csp] None false) d ;;
  prepend_child head meta d.

(** The document that is serialised. *)
Definition encode_document (d : Document) (m : ArtifactManifest) : Res Document :=
  if negb (is_complete (am_resources m)) then Err (new_error "offprint.artifact.resource_summary" Encoding)
  else
    let d := remove_existing_artifact_metadata d in
    d <-? set_document_scroll_state (vs_scroll_x (am_view_state m)) (vs_scroll_y (am_view_state m)) d ;;
    head <-? ok_or (find_html_element "head" d) head_error ;;
    d <-? prepend_policy head (content_security_policy m) d ;;
    json <-? ok_or (manifest_to_json m) (new_error "offprint.artifact.manifest" Encoding) ;;
    d <-? append_script head [html_attribute "id" MANIFEST_ELEMENT_ID; html_attribute "type" MANIFEST_MEDIA_TYPE]
            (escape_script_data json) d ;;
    apply_state_restoration d.

(** [write_all] fails with a reason; one of them is a full output. *)
Definition encode_html_to {W E} (write_all : bytes -> W -> result E unit * W) (too_large : E -> bool)
    (d : Document) (m : ArtifactManifest) (w : W) : Res unit * W :=
  match encode_document d m with
  | Err e => (Err e, w)
  | Ok d =>
      match serialize_document_to write_all d w with
      | Some (Ok _, w) => (Ok tt, w)
      | Some (Err e, w) =>
          (Err (new_error (if too_large e then "offprint.artifact.size" else "offprint.artifact.serialize")
                  Encoding), w)
      | None => (Err (new_error "offprint.artifact.serialize" Encoding), w)
      end
  end.

(** [encode_html]: into a vector. *)
Definition encode_html (d : Document) (m : ArtifactManifest) : Res bytes :=
  d <-? encode_document d m ;;
  ok_or (serialize_document d) (new_error "offprint.artifact.serialize" Encoding).

(** ** Empty resources *)

Inductive RenderingRole :=
  RoleImage | RoleFont | RoleStylesheet | RoleMedia | RoleFrame | RoleSvg | RoleCursor | RoleOther.

Definition data_url (media : string) (b : bytes) : string :=
  "data:" ++ media ++ ";base64," ++ base64_encode b.

Definition EMPTY_SVG : string :=
  "<svg xmlns=" ++ QUOTE ++ "http://www.w3.org/2000/svg" ++ QUOTE ++ " width=" ++ QUOTE ++ "1" ++ QUOTE
  ++ " height=" ++ QUOTE ++ "1" ++ QUOTE ++ "/>".

Definition empty_resource_data_url (role : RenderingRole) : string :=
  match role with
  | RoleImage | RoleSvg => data_url "image/svg+xml" (as_bytes EMPTY_SVG)
  | RoleStylesheet => "data:text/css;base64,"
  | RoleFrame => data_url "text/html" (as_bytes "<!doctype html><meta charset=utf-8>")
  | RoleFont | RoleMedia | RoleCursor | RoleOther => "data:application/octet-stream;base64,"
  end.

(** [split_once(',')] and [strip_suffix]. *)
Definition split_once (sep : ascii) (s : string) : option (string * string) :=
  match split sep s with
  | first :: second :: rest => Some (first, String.concat (String sep "") (second :: rest))
  | _ => None
  end.

Definition strip_suffix (suf s : string) : option string :=
  if ends_with suf s then Some (String.substring 0 (String.length s - String.length suf) s) else None.

Definition is_empty_resource_fallback (digest : ContentDigest) (expected_media_type : string) (size : Z) : bool :=
  existsb (fun role =>
      match (rest ← strip_prefix "data:" (empty_resource_data_url role);
             '(media_and_encoding, encoded) ← split_once "," rest;
             candidate ← strip_suffix ";base64" media_and_encoding;
             decoded ← base64_decode encoded; Some (candidate, decoded)) with
      | Some (candidate, decoded) =>
          bool_decide (digest = sha256 decoded)
          && bool_decide (media_type candidate = media_type expected_media_type)
          && bool_decide (try_from u64_max (Z.of_nat (length decoded)) = Some size)
      | None => false
      end)
    [RoleImage; RoleStylesheet; RoleFrame; RoleOther].
End Html.
