(* ===== verification/Frames.v ===== *)
(** * Inline frames

    Models [offprint-rs/document/src/document/frame.rs]: the frames of a page as
    documents in the [srcdoc] attributes of their owners, and
    [offprint-rs/transform/src/lib.rs], which transforms a page and the frames in
    it from the inside out. *)

From Stdlib Require Import ZArith Lia Ascii String.
From stdpp Require Import base tactics list gmap strings numbers.
From S2P Require Import Prelude.
From S2P Require Import Errors.
From S2P Require Import Records.
From S2P Require Import Requests.
From S2P Require Import Schedule.
From S2P Require Import Dom.
From S2P Require Import Sink.
From S2P Require Import Sanitize.
From S2P Require Import Serialize.
From S2P Require Import Html.

#[local] Open Scope string_scope.
#[local] Open Scope list_scope.
#[local] Open Scope Z_scope.

Record InlineFrame := MkFrame {
  if_node_id : NodeId;
  if_html : string;
  if_base_url : option string;
  if_captured : bool;
}.

Definition frame_error : OffprintError := new_error "offprint.frame.owner" Transform.
Definition serialize_error : OffprintError := new_error "offprint.artifact.serialize" Transform.

Definition FRAME_ID_ATTRIBUTE : string := "data-offprint-frame-id".
Definition FRAME_BASE_ATTRIBUTE : string := "data-offprint-frame-base".

Definition is_frame_element (name : QualName) : bool :=
  bool_decide (qn_ns name = ns_html) && bool_decide (qn_local name ∈ ["iframe"; "frame"]).

(** ** Finding frames *)

(** The loop of [frame_owner]: like the walk, without the contents of
    templates. *)
Fixpoint owner_loop (fuel : nat) (d : Document) (stack : list NodeId) (index seen : nat) : option (option NodeId) :=
  match stack with
  | [] => Some None
  | id :: rest =>
      match fuel with
      | O => None
      | S fuel' =>
          match node d id with
          | None => owner_loop fuel' d rest index seen
          | Some n =>
              if element_test d (fun name _ => is_frame_element name) id
              then if Nat.eqb seen index then Some (Some id)
                   else owner_loop fuel' d (nd_children n ++ rest) index (S seen)
              else owner_loop fuel' d (nd_children n ++ rest) index seen
          end
      end
  end.

Definition frame_owner (index : nat) (d : Document) : Res NodeId :=
  ok_or (default None (owner_loop (node_count d) d [dc_root d] index 0))
    (with_detail "frameIndex" (DNum (Z.of_nat index)) frame_error).

Definition inline_frame (d : Document) (id : NodeId) : option InlineFrame :=
  '(name, attrs) ← element_at d id;
  if negb (is_frame_element name) then None
  else
    html ← attribute_value attrs "srcdoc";
    Some (MkFrame id html (attribute_value attrs FRAME_BASE_ATTRIBUTE)
            (existsb (plain_attribute FRAME_ID_ATTRIBUTE) attrs)).

Definition inline_frames (d : Document) : list InlineFrame := omap (inline_frame d) (walk d).

(** ** Embedding *)

(** Assignment to the first [srcdoc] attribute. *)
Fixpoint set_first (name value : string) (attrs : list Attribute) : list Attribute :=
  match attrs with
  | [] => []
  | a :: attrs' =>
      if plain_attribute name a then MkAttribute (at_name a) value :: attrs'
      else a :: set_first name value attrs'
  end.

Definition drop_attributes (names : list string) (attrs : list Attribute) : list Attribute :=
  List.filter (fun a => negb (existsb (fun n => plain_attribute n a) names)) attrs.

Definition embedded_attributes (html : string) (frame_id : option Z) (attrs : list Attribute) : list Attribute :=
  drop_attributes ["src"; "srcdoc"] attrs ++ [html_attribute "srcdoc" html]
  ++ match frame_id with
     | Some id => [html_attribute FRAME_ID_ATTRIBUTE (format_decimal id)]
     | None => []
     end.

Definition embed_frame_with_id (index : nat) (html : string) (frame_id : option Z) (d : Document)
    : Res (NodeId * Document) :=
  owner <-? frame_owner index d ;;
  do? ok_or (element_at d owner) frame_error ;;
  Ok (owner, update_attrs owner (embedded_attributes html frame_id) d).

Definition embed_frame (index : nat) (html : string) (d : Document) : Res (NodeId * Document) :=
  embed_frame_with_id index html None d.
Definition embed_captured_frame (index : nat) (html : string) (frame_id : Z) (d : Document)
    : Res (NodeId * Document) :=
  embed_frame_with_id index html (Some frame_id) d.

(** The [srcdoc] of a frame owner is replaced; the base is dropped and the
    identifier set when there is one. *)
Definition replaced_attributes (html : string) (frame_id : option Z) (attrs : list Attribute) : list Attribute :=
  let attrs := drop_attributes [FRAME_BASE_ATTRIBUTE] (set_first "srcdoc" html attrs) in
  match frame_id with
  | Some id => drop_attributes [FRAME_ID_ATTRIBUTE] attrs ++ [html_attribute FRAME_ID_ATTRIBUTE (format_decimal id)]
  | None => attrs
  end.

Definition replace_inline_frame (f : InlineFrame) (html : string) (frame_id : option Z) (d : Document)
    : Res Document :=
  '(_, attrs) <-? ok_or (element_at d (if_node_id f)) frame_error ;;
  do? ok_or (attribute_value attrs "srcdoc") frame_error ;;
  Ok (update_attrs (if_node_id f) (replaced_attributes html frame_id) d).

Section Frames.
Context `{HtmlParser} `{Scripts} `{Encodings} `{Hashing}.

(** The text of a serialised document: UTF-8 by construction. *)
Definition document_text (d : Document) : Res string :=
  b <-? ok_or (serialize_document d) serialize_error ;; Ok (string_of_list_ascii b).

Fixpoint embed_captured_frame_at_path (path : list nat) (html : string) (frame_id : Z) (d : Document)
    : Res Document :=
  match path with
  | [] => Err frame_error
  | [index] => '(_, d) <-? embed_frame_with_id index html (Some frame_id) d ;; Ok d
  | index :: nested_path =>
      owner <-? frame_owner index d ;;
      srcdoc <-? ok_or ('(_, attrs) ← element_at d owner; attribute_value attrs "srcdoc") frame_error ;;
      child <-? embed_captured_frame_at_path nested_path html frame_id (parse (as_bytes srcdoc)) ;;
      text <-? document_text child ;;
      Ok (update_attrs owner (set_first "srcdoc" text) d)
  end.

(** ** Visual fallbacks *)

Definition FALLBACK_ATTRIBUTE : string := "data-offprint-visual-fallback".

Definition fallback_here (id : string) (n : Node) : bool :=
  match nd_data n with
  | NElement _ attrs _ _ =>
      existsb (fun a => plain_attribute FALLBACK_ATTRIBUTE a && bool_decide (at_value a = id)) attrs
  | _ => false
  end.

Definition resolved_attributes (data : string) (attrs : list Attribute) : list Attribute :=
  drop_attributes [FALLBACK_ATTRIBUTE; "src"] attrs ++ [html_attribute "src" data].

(** The nodes of the arena are searched before the frames; the depth is bounded
    by the limit, which the fuel exceeds. *)
Fixpoint resolve_at_depth (fuel : nat) (id data : string) (depth : Z) (d : Document) : Res (bool * Document) :=
  if 64 <? depth then Err (new_error "offprint.frame.depth" Transform)
  else
    match fuel with
    | O => Err (new_error "offprint.frame.depth" Transform)
    | S fuel' =>
        match list_find (fun n => fallback_here id n = true) (dc_nodes d) with
        | Some (index, _) => Ok (true, update_attrs index (resolved_attributes data) d)
        | None =>
            (fix each (frames : list InlineFrame) : Res (bool * Document) :=
               match frames with
               | [] => Ok (false, d)
               | f :: frames' =>
                   '(found, child) <-? resolve_at_depth fuel' id data (saturating_add u16_max depth 1)
                                         (parse (as_bytes (if_html f))) ;;
                   if negb (found : bool) then each frames'
                   else
                     text <-? document_text child ;;
                     '(_, attrs) <-? ok_or (element_at d (if_node_id f)) frame_error ;;
                     do? ok_or (attribute_value attrs "srcdoc") frame_error ;;
                     Ok (true, update_attrs (if_node_id f) (set_first "srcdoc" text) d)
               end) (inline_frames d)
        end
    end.

Definition resolve_visual_fallback (id data : string) (d : Document) : Res Document :=
  '(found, d) <-? resolve_at_depth 66 id data 0 d ;;
  if (found : bool) then Ok d
  else Err (with_detail "fallbackId" (DStr id) (new_error "offprint.transform.visual_fallback" Transform)).

(** ** The safe-static transformation *)

Definition MAXIMUM_INLINE_FRAME_DEPTH : Z := 64.

Definition depth_error : OffprintError := new_error "offprint.frame.depth" Transform.

(** The loop over the frames: [child] transforms the document of one. *)
Fixpoint transform_frames (child : Document -> Res (bool * Document)) (frames : list InlineFrame)
    (repair : bool) (d : Document) : Res (bool * Document) :=
  match frames with
  | [] => Ok (repair, d)
  | f :: frames' =>
      '(r, c) <-? child (parse (as_bytes (if_html f))) ;;
      text <-? document_text c ;;
      d <-? replace_inline_frame f text None d ;;
      transform_frames child frames' (repair || r) d
  end.

(** The last three steps. *)
Definition transform_own (d : Document) : Res (bool * Document) :=
  d <-? ensure_render_freeze_styles d ;;
  apply_structural_repair (sanitize_safe_static d).1.

Fixpoint transform_document_tree (fuel : nat) (depth : Z) (d : Document) : Res (bool * Document) :=
  if MAXIMUM_INLINE_FRAME_DEPTH <? depth then Err depth_error
  else
    match fuel with
    | O => Err depth_error
    | S fuel' =>
        '(repair, d) <-? transform_frames (transform_document_tree fuel' (saturating_add u16_max depth 1))
                           (inline_frames d) false d ;;
        '(own, d) <-? transform_own d ;;
        Ok (repair || own, d)
    end.

Record SafeStaticDocument := MkSafeStatic { st_document : Document; st_structural_repair : bool }.

Definition transform_parsed_document (d : Document) : Res SafeStaticDocument :=
  '(repair, d) <-? transform_document_tree 66 0 d ;; Ok (MkSafeStatic d repair).

Definition transform_document (html : bytes) : Res SafeStaticDocument := transform_parsed_document (parse html).

(** The record of the repair in the manifest follows the document. *)
Definition with_repair (t : SafeStaticDocument) (m : ArtifactManifest) : ArtifactManifest :=
  {| am_schema_version := am_schema_version m; am_format_version := am_format_version m;
     am_generator := am_generator m; am_source := am_source m; am_captured_at := am_captured_at m;
     am_browser := am_browser m; am_environment := am_environment m; am_view_state := am_view_state m;
     am_capture_policy_sha256 := am_capture_policy_sha256 m; am_frames := am_frames m;
     am_resources := am_resources m; am_resource_records := am_resource_records m;
     am_warning_codes := am_warning_codes m;
     am_structural_repair :=
       MkRepair (st_structural_repair t)
         (if st_structural_repair t then Some structural_repair_script_digest else None);
     am_verification_mode := am_verification_mode m |}.

Definition encode_artifact_to {W E} (write_all : bytes -> W -> result E unit * W) (too_large : E -> bool)
    (t : SafeStaticDocument) (m : ArtifactManifest) (w : W) : Res ArtifactManifest * W :=
  let m := with_repair t m in
  match encode_html_to write_all too_large (st_document t) m w with
  | (Ok _, w) => (Ok m, w)
  | (Err e, w) => (Err e, w)
  end.
End Frames.
