(* ===== verification/Verify.v ===== *)
(** * Static verification

    Models [offprint-rs/html/src/verify.rs] and its parts [verify/manifest.rs],
    [verify/active_content.rs], [verify/structure.rs] and [verify/resource.rs],
    the value it returns ([verified.rs]) and the sandboxed encoding that uses it
    ([sandbox.rs]).

    Resource discovery ([document/src/discover.rs]) is an interface here: the
    references a document or stylesheet makes, resolved.  The parsing of [f64]
    and of data URLs are parameters. *)

From Stdlib Require Import ZArith Lia Ascii String.
From stdpp Require Import base tactics list gmap strings numbers.
From S2P Require Import Prelude.
From S2P Require Import Errors.
From S2P Require Import Records.
From S2P Require Import Requests.
From S2P Require Import Schedule.
From S2P Require Import Dom.
From S2P Require Import Sink.
From S2P Require Import Sanitize.
From S2P Require Import Serialize.
From S2P Require Import Html.
From S2P Require Import Frames.

#[local] Open Scope string_scope.
#[local] Open Scope list_scope.
#[local] Open Scope Z_scope.

Definition ARTIFACT_FORMAT_VERSION : Z := 2.

Class Discovery := {
  discover_document_resources : Document -> url -> Res (list url);
  discover_css_resources : string -> url -> Res (list url);
}.

(** [DataUrl::process] and the decoding of the body: the media type, and the
    bytes unless the body is malformed. *)
Class DataUrls := { data_url_process : url -> option (string * option bytes) }.

(** [str::parse::<f64>] with the test on the magnitude, and equality. *)
Class Floats := {
  f64 : Type;
  f64_eqb : f64 -> f64 -> bool;
  parse_f64 : string -> option f64;
  f64_in_range : f64 -> bool;
}.

Definition verification_error (code : string) : OffprintError := new_error code Verification.

#[export] Instance ResourceSummary_eq_dec : EqDecision ResourceSummary.
Proof. solve_decision. Defined.

(** The owned identifiers. *)
Definition RESERVED_IDS : list string :=
  [CSP_ELEMENT_ID; MANIFEST_ELEMENT_ID; REPAIR_DATA_ELEMENT_ID; REPAIR_SCRIPT_ELEMENT_ID;
   STATE_SCRIPT_ELEMENT_ID].

(** Go through the elements of the walk until one is refused. *)
Definition each_element (f : QualName -> list Attribute -> Res unit) (d : Document) : Res unit :=
  for_each (fun id => match element_at d id with Some (name, attrs) => f name attrs | None => Ok tt end)
    (walk d).

(** ** Active content *)

Definition active_error : OffprintError := verification_error "offprint.verification.active_content".

Definition reserved_id_valid (id : string) (name : QualName) (attrs : list Attribute) : bool :=
  if bool_decide (id = CSP_ELEMENT_ID) then http_equiv_is "content-security-policy" name attrs
  else if bool_decide (id = MANIFEST_ELEMENT_ID) then
    name_is ns_html "script" name && bool_decide (attribute_value attrs "type" = Some MANIFEST_MEDIA_TYPE)
  else if bool_decide (id = REPAIR_DATA_ELEMENT_ID) then
    name_is ns_html "script" name && bool_decide (attribute_value attrs "type" = Some REPAIR_MEDIA_TYPE)
  else name_is ns_html "script" name.

Definition validate_active_element (name : QualName) (attrs : list Attribute) : Res unit :=
  let owned := match attribute_value attrs "id" with
               | Some id => bool_decide (id ∈ [REPAIR_SCRIPT_ELEMENT_ID; STATE_SCRIPT_ELEMENT_ID])
               | None => false
               end in
  if is_script_element name
     && (bool_decide (qn_ns name = ns_svg) || (negb (is_structured_metadata_script attrs) && negb owned))
  then Err active_error
  else if match attribute_value attrs "id" with
          | Some id => bool_decide (id ∈ RESERVED_IDS) && negb (reserved_id_valid id name attrs)
          | None => false
          end
  then Err active_error
  else if existsb is_event_attribute attrs then Err active_error
  else if existsb is_javascript_url_attribute attrs then Err active_error
  else if is_base_element name then Err active_error
  else if is_meta_refresh name attrs then Err active_error
  else if is_request_triggering_link name attrs then Err active_error
  else Ok tt.

Definition validate_active_content (d : Document) : Res unit := each_element validate_active_element d.

Definition validate_unowned_content (d : Document) : Res unit :=
  do? validate_active_content d ;;
  each_element (fun _ attrs =>
      match attribute_value attrs "id" with
      | Some id => if bool_decide (id ∈ RESERVED_IDS) then Err active_error else Ok tt
      | None => Ok tt
      end) d.

(** Digest, media type and size. *)
Abbreviation ResourceKey := (bytes * string * Z)%type.

Section Verify.
Context `{HtmlParser} `{Scripts} `{Encodings} `{Hashing} `{UrlLib} `{Discovery} `{DataUrls} `{Floats}.

(** ** The manifest *)

Definition manifest_error : OffprintError := verification_error "offprint.verification.manifest".
Definition summary_error : OffprintError := verification_error "offprint.verification.resource_summary".
Definition frames_error : OffprintError := verification_error "offprint.verification.frames".
Definition embedded_error : OffprintError := verification_error "offprint.verification.embedded_resource".
Definition structural_error : OffprintError := verification_error "offprint.verification.structural_repair".

Definition parse_scroll_coordinate (value : string) : Res f64 :=
  x <-? ok_or (parse_f64 value) manifest_error ;;
  if f64_in_range x then Ok x else Err manifest_error.

Definition validate_view_state (v : ViewState) : Res unit :=
  do? parse_scroll_coordinate (vs_scroll_x v) ;;
  do? parse_scroll_coordinate (vs_scroll_y v) ;;
  Ok tt.

(** The loop over the records: the summary so far and the byte counts of the
    digests. *)
Fixpoint records_loop (frames : Z) (index : nat) (records : list ResourceRecord)
    (s : ResourceSummary) (unique : gmap bytes Z) : Res (ResourceSummary * gmap bytes Z) :=
  match records with
  | [] => Ok (s, unique)
  | r :: records' =>
      if negb (rr_id r =? Z.of_nat index) || (rr_frame_id r =? 0) || (frames <? rr_frame_id r)
      then Err summary_error
      else
        match rr_outcome r with
        | OutcomeEmbedded digest _ size =>
            if is_none (rr_provenance r)
            then Err (verification_error "offprint.verification.resource_provenance")
            else
              let s := MkSummary (rs_discovered s) (saturating_add u32_max (rs_embedded s) 1) (rs_external s)
                         (rs_omitted s) (rs_failed s) (rs_embedded_bytes s) in
              if match unique !! digest_bytes digest with
                 | Some previous => negb (previous =? size)
                 | None => false
                 end
              then Err embedded_error
              else records_loop frames (S index) records' s (<[digest_bytes digest := size]> unique)
        | OutcomeExternal _ _ _ =>
            records_loop frames (S index) records'
              (MkSummary (rs_discovered s) (rs_embedded s) (saturating_add u32_max (rs_external s) 1)
                 (rs_omitted s) (rs_failed s) (rs_embedded_bytes s)) unique
        | OutcomeOmitted _ =>
            records_loop frames (S index) records'
              (MkSummary (rs_discovered s) (rs_embedded s) (rs_external s)
                 (saturating_add u32_max (rs_omitted s) 1) (rs_failed s) (rs_embedded_bytes s)) unique
        | OutcomeFailed _ =>
            records_loop frames (S index) records'
              (MkSummary (rs_discovered s) (rs_embedded s) (rs_external s) (rs_omitted s)
                 (saturating_add u32_max (rs_failed s) 1) (rs_embedded_bytes s)) unique
        end
  end.

(** [try_fold] of checked additions. *)
Fixpoint checked_sum (max : Z) (acc : Z) (l : list Z) : option Z :=
  match l with [] => Some acc | x :: l' => acc ← checked_add max acc x; checked_sum max acc l' end.

Definition validate_resource_records (m : ArtifactManifest) : Res unit :=
  count <-? ok_or (try_from u32_max (Z.of_nat (length (am_resource_records m)))) summary_error ;;
  if negb (count =? rs_discovered (am_resources m)) then Err summary_error
  else
    '(s, unique) <-? records_loop (am_frames m) 0 (am_resource_records m) (MkSummary count 0 0 0 0 0) ∅ ;;
    total <-? ok_or (checked_sum u64_max 0 (map snd (map_to_list unique))) summary_error ;;
    if bool_decide (MkSummary (rs_discovered s) (rs_embedded s) (rs_external s) (rs_omitted s) (rs_failed s) total
                    = am_resources m)
    then Ok tt else Err summary_error.

Definition validate_manifest (m : ArtifactManifest) : Res unit :=
  if negb (am_schema_version m =? PUBLIC_SCHEMA_VERSION) || negb (am_format_version m =? ARTIFACT_FORMAT_VERSION)
  then Err (verification_error "offprint.verification.format")
  else if negb (is_complete (am_resources m)) then Err summary_error
  else
    do? validate_resource_records m ;;
    if negb (rs_external (am_resources m) =? 0) then Err summary_error
    else if am_frames m =? 0 then Err frames_error
    else
      do? validate_view_state (am_view_state m) ;;
      if xorb (sr_applied (am_structural_repair m)) (is_some (sr_script_sha256 (am_structural_repair m)))
      then Err structural_error
      else if sr_applied (am_structural_repair m)
              && bool_decide (sr_script_sha256 (am_structural_repair m) <> Some structural_repair_script_digest)
      then Err structural_error
      else Ok tt.

Definition attribute_count (d : Document) (id : NodeId) : option nat :=
  '(_, attrs) ← element_at d id; Some (length attrs).

Definition inspect_document (d : Document) : Res ArtifactManifest :=
  match matching_scripts MANIFEST_ELEMENT_ID (Some MANIFEST_MEDIA_TYPE) d with
  | [script] =>
      let head := find_html_element "head" d in
      if is_none head || bool_decide ((node d script ≫= nd_parent) <> head)
         || negb (bool_decide (attribute_count d script = Some 2%nat))
      then Err manifest_error
      else
        m <-? ok_or (manifest_from_json (text_contents d script)) manifest_error ;;
        do? validate_manifest m ;;
        Ok m
  | _ => Err manifest_error
  end.

(** [inspect_html]. *)
Definition inspect_html_bytes (b : bytes) : Res ArtifactManifest := inspect_document (parse b).

(** ** The policy *)

Definition policy_content (d : Document) (id : NodeId) : option (NodeId * string) :=
  '(name, attrs) ← element_at d id;
  if bool_decide (attribute_value attrs "id" = Some CSP_ELEMENT_ID)
     && http_equiv_is "content-security-policy" name attrs
     && bool_decide (length attrs = 3%nat)
  then content ← attribute_value attrs "content"; Some (id, content)
  else None.

Definition validate_csp (d : Document) (m : ArtifactManifest) (restore_state : bool) : Res unit :=
  let expected := if restore_state then content_security_policy m else sandboxed_content_security_policy m in
  match find_html_element "head" d, omap (policy_content d) (walk d) with
  | Some h, [(policy, content)] =>
      if bool_decide ((node d policy ≫= nd_parent) = Some h)
         && bool_decide ((n ← node d h; head (nd_children n)) = Some policy)
         && bool_decide (content = expected)
      then Ok tt else Err (verification_error "offprint.verification.csp")
  | _, _ => Err (verification_error "offprint.verification.csp")
  end.

(** ** Structure *)

Definition CSS_BASE_ATTRIBUTE : string := "data-offprint-css-base".

Definition reference_error : OffprintError := verification_error "offprint.verification.reference".

Definition validate_no_css_base_metadata (d : Document) : Res unit :=
  each_element (fun _ attrs =>
      if is_some (attribute_value attrs CSS_BASE_ATTRIBUTE) then Err reference_error else Ok tt) d.

Definition is_direct_head_child (d : Document) (id : NodeId) : bool :=
  match find_html_element "head" d with
  | Some head => bool_decide ((node d id ≫= nd_parent) = Some head)
  | None => false
  end.

Definition validate_state_restoration (d : Document) : Res bool :=
  match matching_scripts STATE_SCRIPT_ELEMENT_ID None d with
  | [] => Ok false
  | [script] =>
      if negb (bool_decide (attribute_count d script = Some 1%nat)) || negb (is_direct_head_child d script)
      then Err active_error
      else if bool_decide (text_contents d script <> STATE_RESTORATION_SCRIPT)
              || bool_decide (sha256 (as_bytes (text_contents d script)) <> state_restoration_script_digest)
      then Err active_error
      else Ok true
  | _ => Err active_error
  end.

(** The markers, which must differ. *)
Fixpoint collect_markers (d : Document) (ids : list NodeId) (markers : gset string) : Res (gset string) :=
  match ids with
  | [] => Ok markers
  | id :: ids' =>
      match '(_, attrs) ← element_at d id; attribute_value attrs REPAIR_MARKER_ATTRIBUTE with
      | Some marker =>
          if bool_decide (marker ∈ markers) then Err structural_error
          else collect_markers d ids' ({[marker]} ∪ markers)
      | None => collect_markers d ids' markers
      end
  end.

Definition has_marker (_ : QualName) (attrs : list Attribute) : bool :=
  is_some (attribute_value attrs REPAIR_MARKER_ATTRIBUTE).

Definition validate_structural_repair (d : Document) (m : ArtifactManifest) : Res bool :=
  match matching_scripts REPAIR_DATA_ELEMENT_ID (Some REPAIR_MEDIA_TYPE) d,
        matching_scripts REPAIR_SCRIPT_ELEMENT_ID None d with
  | [], [] => if existsb (element_test d has_marker) (walk d) then Err structural_error else Ok false
  | [data], [script] =>
      if negb (sr_applied (am_structural_repair m)) then Err structural_error
      else if negb (bool_decide (attribute_count d data = Some 2%nat))
              || negb (bool_decide (attribute_count d script = Some 1%nat))
              || negb (is_direct_head_child d data) || negb (is_direct_head_child d script)
      then Err structural_error
      else if bool_decide (text_contents d script <> RESTORATION_SCRIPT)
              || bool_decide (sha256 (as_bytes (text_contents d script)) <> structural_repair_script_digest)
              || bool_decide (sr_script_sha256 (am_structural_repair m) <> Some structural_repair_script_digest)
      then Err structural_error
      else
        repair <-? ok_or (repair_from_json (text_contents d data)) structural_error ;;
        do? match validate_repair_tree repair with Ok _ => Ok tt | Err _ => Err structural_error end ;;
        markers <-? collect_markers d (walk d) ∅ ;;
        if bool_decide ("0" ∈ markers) then Ok true else Err structural_error
  | _, _ => Err structural_error
  end.

Definition SCROLL_ATTRIBUTES : list string :=
  [DOCUMENT_SCROLL_X_ATTRIBUTE; DOCUMENT_SCROLL_Y_ATTRIBUTE; ELEMENT_SCROLL_LEFT_ATTRIBUTE;
   ELEMENT_SCROLL_TOP_ATTRIBUTE].

Definition validate_scroll_attribute (a : Attribute) : Res unit :=
  if existsb (fun n => plain_attribute n a) SCROLL_ATTRIBUTES
  then do? parse_scroll_coordinate (at_value a) ;; Ok tt
  else Ok tt.

Definition validate_scroll_attributes (d : Document) (expected : option ViewState) : Res unit :=
  do? each_element (fun _ attrs => for_each validate_scroll_attribute attrs) d ;;
  match expected with
  | None => Ok tt
  | Some v =>
      '(_, root) <-? ok_or (id ← find_html_element "html" d; element_at d id) manifest_error ;;
      sx <-? ok_or (attribute_value root DOCUMENT_SCROLL_X_ATTRIBUTE) manifest_error ;;
      x <-? parse_scroll_coordinate sx ;;
      sy <-? ok_or (attribute_value root DOCUMENT_SCROLL_Y_ATTRIBUTE) manifest_error ;;
      y <-? parse_scroll_coordinate sy ;;
      ex <-? parse_scroll_coordinate (vs_scroll_x v) ;;
      if negb (f64_eqb x ex) then Err manifest_error
      else
        ey <-? parse_scroll_coordinate (vs_scroll_y v) ;;
        if f64_eqb y ey then Ok tt else Err manifest_error
  end.

(** ** Frames *)

(** [str::parse::<u64>]. *)
Definition parse_u64 (s : string) : option Z :=
  match as_bytes s with
  | [] => None
  | c :: l =>
      if decide (c = "+"%char)
      then match l with [] => None | _ => parse_digits u64_max 0 l end
      else parse_digits u64_max 0 (c :: l)
  end.

Record FrameState := MkFrames { fs_count : Z; fs_ids : gset Z; fs_pending : list Document }.

Definition collect_frame (attrs : list Attribute) (manifest_frames : Z) (s : FrameState) : Res FrameState :=
  if is_some (attribute_value attrs FRAME_BASE_ATTRIBUTE) then Err frames_error
  else if is_some (attribute_value attrs "src") then
    Err (with_detail "hasSrcdoc" (DBool (is_some (attribute_value attrs "srcdoc")))
           (with_detail "hasFrameId" (DBool (is_some (attribute_value attrs FRAME_ID_ATTRIBUTE))) frames_error))
  else
    source <-? ok_or (attribute_value attrs "srcdoc") frames_error ;;
    text <-? ok_or (attribute_value attrs FRAME_ID_ATTRIBUTE) frames_error ;;
    id <-? ok_or (parse_u64 text) frames_error ;;
    if (id <? 2) || bool_decide (id ∈ fs_ids s) then Err frames_error
    else
      count <-? ok_or (checked_add u32_max (fs_count s) 1) frames_error ;;
      if manifest_frames <? count then Err frames_error
      else Ok (MkFrames count ({[id]} ∪ fs_ids s) (parse (as_bytes source) :: fs_pending s)).

Definition collect_frames (d : Document) (manifest_frames : Z) (s : FrameState) : Res FrameState :=
  fold_res (fun id s =>
      match element_at d id with
      | Some (name, attrs) => if is_frame_element name then collect_frame attrs manifest_frames s else Ok s
      | None => Ok s
      end) (walk d) s.

(** ** Resources *)

Record ResourceState := MkResources { rs_references : Z; rs_found : gmap ResourceKey Z }.

Definition count_reference (s : ResourceState) : Res ResourceState :=
  n <-? ok_or (checked_add u32_max (rs_references s) 1) summary_error ;; Ok (MkResources n (rs_found s)).

Definition NESTING_TYPES : list string := ["text/css"; "image/svg+xml"; "text/html"; "application/xhtml+xml"].

Definition with_reference_error {A} (r : Res A) : Res A :=
  match r with Ok a => Ok a | Err e => Err (with_source e reference_error) end.

(** The references of an embedded stylesheet, image or page. *)
Definition nested_urls (media : string) (b : bytes) (base : url) : Res (list url) :=
  if bool_decide (media = "text/css") then
    with_reference_error (discover_css_resources (string_of_list_ascii b) base)
  else
    let d := parse b in
    if bool_decide (media = "image/svg+xml") then
      if is_none (find_svg_root d) then Err embedded_error
      else do? validate_unowned_content d ;; with_reference_error (discover_document_resources d base)
    else
      match inline_frames d with
      | _ :: _ => Err embedded_error
      | [] => do? validate_unowned_content d ;; with_reference_error (discover_document_resources d base)
      end.

(** [is_utf8] answers [String::from_utf8]; the depth ends at the limit, which
    the fuel exceeds. *)
Fixpoint validate_embedded_resource (fuel : nat) (is_utf8 : bytes -> bool) (u base : url) (depth : Z)
    (s : ResourceState) : Res ResourceState :=
  if negb (bool_decide (url_scheme u = "data"))
  then Err (verification_error "offprint.verification.external_reference")
  else
    '(mime, body) <-? ok_or (data_url_process (url_without_fragment u)) embedded_error ;;
    b <-? ok_or body embedded_error ;;
    size <-? ok_or (try_from u64_max (Z.of_nat (length b))) embedded_error ;;
    let media := media_type mime in
    let key := (digest_bytes (sha256 b), media, size) in
    let s := MkResources (rs_references s) (<[key := default 0 (rs_found s !! key) + 1]> (rs_found s)) in
    if negb (bool_decide (media ∈ NESTING_TYPES)) then Ok s
    else if 64 <=? depth then Err embedded_error
    else if bool_decide (media = "text/css") && negb (is_utf8 b) then Err embedded_error
    else
      match fuel with
      | O => Err embedded_error
      | S fuel' =>
          urls <-? nested_urls media b base ;;
          fold_res (fun u s =>
              s <-? count_reference s ;;
              validate_embedded_resource fuel' is_utf8 u base (depth + 1) s) urls s
      end.

(** ** All documents *)

Record ArtifactState := MkArtifactState {
  as_frames : FrameState;
  as_resources : ResourceState;
  as_repaired : Z;
  as_state_scripts : Z;
  as_top : bool;
}.

Definition BASE_URL : string := "file:///offprint-artifact.html".

(** The body of the loop, for the document that was popped. *)
Definition validate_document (is_utf8 : bytes -> bool) (m : ArtifactManifest) (restore_state : bool) (base : url)
    (d : Document) (s : ArtifactState) : Res ArtifactState :=
  do? validate_no_css_base_metadata d ;;
  repaired <-? validate_structural_repair d m ;;
  restored <-? validate_state_restoration d ;;
  if xorb (as_top s && restore_state) restored then Err active_error
  else
    do? validate_scroll_attributes d (if as_top s then Some (am_view_state m) else None) ;;
    do? validate_active_content d ;;
    frames <-? collect_frames d (am_frames m) (as_frames s) ;;
    urls <-? with_reference_error (discover_document_resources d base) ;;
    resources <-? fold_res (fun u s =>
        s <-? count_reference s ;; validate_embedded_resource 65 is_utf8 u base 0 s) urls (as_resources s) ;;
    Ok (MkArtifactState frames resources
          (if (repaired : bool) then saturating_add u32_max (as_repaired s) 1 else as_repaired s)
          (if (restored : bool) then saturating_add u32_max (as_state_scripts s) 1 else as_state_scripts s)
          false).

(** [while let Some(document) = pending.pop()]; [None] when the fuel is used
    up. *)
Fixpoint documents_loop (fuel : nat) (is_utf8 : bytes -> bool) (m : ArtifactManifest) (restore_state : bool)
    (base : url) (s : ArtifactState) : option (Res ArtifactState) :=
  match fs_pending (as_frames s) with
  | [] => Some (Ok s)
  | d :: pending =>
      match fuel with
      | O => None
      | S fuel' =>
          match validate_document is_utf8 m restore_state base d
                  (MkArtifactState (MkFrames (fs_count (as_frames s)) (fs_ids (as_frames s)) pending)
                     (as_resources s) (as_repaired s) (as_state_scripts s) (as_top s)) with
          | Ok s => documents_loop fuel' is_utf8 m restore_state base s
          | Err e => Some (Err e)
          end
      end
  end.

Definition expected_embedded (m : ArtifactManifest) : gmap ResourceKey Z :=
  fold_left (fun e r =>
      match rr_outcome r with
      | OutcomeEmbedded digest media size =>
          let key := (digest_bytes digest, media_type media, size) in
          <[key := default 0 (e !! key) + 1]> e
      | _ => e
      end) (am_resource_records m) ∅.

(** The records are taken off the resources found; what is left must be empty
    resources, one for each failed outcome. *)
Definition take_expected (expected : list (ResourceKey * Z)) (found : gmap ResourceKey Z)
    : Res (gmap ResourceKey Z) :=
  fold_res (fun '(key, n) found =>
      observed <-? ok_or (found !! key) embedded_error ;;
      if observed <? n then Err embedded_error else Ok (<[key := observed - n]> found)) expected found.

Definition count_fallbacks (left_over : list (ResourceKey * Z)) : Res Z :=
  fold_res (fun '((digest, media, size), n) count =>
      if negb (is_empty_resource_fallback (MkDigest digest) media size) then Err embedded_error
      else ok_or (checked_add u32_max count n) embedded_error) left_over 0.

Definition check_totals (m : ArtifactManifest) (restore_state : bool) (s : ArtifactState) : Res unit :=
  if negb (fs_count (as_frames s) =? am_frames m) then Err frames_error
  else if negb (bool_decide (fs_ids (as_frames s) = list_to_set (map Z.of_nat (seq 1 (Z.to_nat (am_frames m))))))
  then Err frames_error
  else if xorb (sr_applied (am_structural_repair m)) (0 <? as_repaired s) then Err structural_error
  else if negb (as_state_scripts s =? (if restore_state then 1 else 0)) then Err active_error
  else if negb (rs_references (as_resources s) =? rs_discovered (am_resources m)) then Err summary_error
  else
    left_over <-? take_expected (map_to_list (expected_embedded m)) (rs_found (as_resources s)) ;;
    fallbacks <-? count_fallbacks (map_to_list (filter (fun kv => 0 < kv.2) left_over)) ;;
    if fallbacks =? rs_failed (am_resources m) then Ok tt else Err embedded_error.

Definition validate_artifact_documents (is_utf8 : bytes -> bool) (d : Document) (m : ArtifactManifest)
    (restore_state : bool) : Res unit :=
  base <-? ok_or (url_parse BASE_URL) reference_error ;;
  s <-? default (Err frames_error)
          (documents_loop (Z.to_nat (am_frames m)) is_utf8 m restore_state base
             (MkArtifactState (MkFrames 1 {[1]} [d]) (MkResources 0 ∅) 0 0 true)) ;;
  check_totals m restore_state s.

(** ** Verified artifacts *)

Record VerifiedHtml := MkVerified {
  vh_bytes : bytes;
  vh_document : Document;
  vh_manifest : ArtifactManifest;
  vh_sha256 : ContentDigest;
  vh_verification : VerificationReport;
}.

Definition verify_with_state_restoration (is_utf8 : bytes -> bool) (b : bytes) (restore_state : bool)
    : Res VerifiedHtml :=
  let d := parse b in
  m <-? inspect_document d ;;
  if negb restore_state && sr_applied (am_structural_repair m) then Err structural_error
  else
    do? validate_csp d m restore_state ;;
    do? validate_artifact_documents is_utf8 d m restore_state ;;
    size <-? ok_or (try_from u64_max (Z.of_nat (length b))) (verification_error "offprint.verification.size") ;;
    Ok (MkVerified b d m (sha256 b) (MkReport PUBLIC_SCHEMA_VERSION VerifyStatic (sha256 b) size 0)).

Definition verify_html (is_utf8 : bytes -> bool) (b : bytes) : Res VerifiedHtml :=
  verify_with_state_restoration is_utf8 b true.
Definition verify_static (is_utf8 : bytes -> bool) (b : bytes) : Res VerificationReport :=
  v <-? verify_html is_utf8 b ;; Ok (vh_verification v).
Definition verify_static_sandboxed (is_utf8 : bytes -> bool) (b : bytes) : Res VerificationReport :=
  v <-? verify_with_state_restoration is_utf8 b false ;; Ok (vh_verification v).

(** ** Sandboxed encoding *)

Definition sandbox_error : OffprintError := new_error "offprint.artifact.sandbox" Encoding.

Definition encode_sandboxed_html (is_utf8 : bytes -> bool) (b : bytes) : Res bytes :=
  v <-? verify_html is_utf8 b ;;
  if sr_applied (am_structural_repair (vh_manifest v)) then Err sandbox_error
  else
    let d := detach_all (matching_scripts STATE_SCRIPT_ELEMENT_ID None (vh_document v)) (vh_document v) in
    csp <-? ok_or (List.find (element_test d (fun name attrs =>
                     name_is ns_html "meta" name && bool_decide (attribute_value attrs "id" = Some CSP_ELEMENT_ID)))
                   (walk d)) sandbox_error ;;
    '(_, attrs) <-? ok_or (element_at d csp) sandbox_error ;;
    do? ok_or (attribute_value attrs "content") sandbox_error ;;
    let d := update_attrs csp (set_first "content" (sandboxed_content_security_policy (vh_manifest v))) d in
    encoded <-? ok_or (serialize_document d) (new_error "offprint.artifact.serialize" Encoding) ;;
    do? verify_static_sandboxed is_utf8 encoded ;;
    Ok encoded.

(** ** Encoding what was transformed *)

Record EncodedArtifact := MkEncoded {
  ea_bytes : bytes;
  ea_sha256 : ContentDigest;
  ea_manifest : ArtifactManifest;
  ea_verification : VerificationReport;
}.

(** A vector takes every write. *)
Definition vec_write_all (b w : bytes) : result unit unit * bytes := (Ok tt, w ++ b).

Definition encode_verified_artifact (is_utf8 : bytes -> bool) (t : SafeStaticDocument) (m : ArtifactManifest)
    : Res VerifiedHtml :=
  match encode_artifact_to vec_write_all (fun _ => false) t m [] with
  | (Ok _, b) => verify_html is_utf8 b
  | (Err e, _) => Err e
  end.

Definition encode_artifact (is_utf8 : bytes -> bool) (t : SafeStaticDocument) (m : ArtifactManifest)
    : Res EncodedArtifact :=
  v <-? encode_verified_artifact is_utf8 t m ;;
  Ok (MkEncoded (vh_bytes v) (vh_sha256 v) (vh_manifest v) (vh_verification v)).

Definition transform_artifact (is_utf8 : bytes -> bool) (html : bytes) (m : ArtifactManifest) : Res EncodedArtifact :=
  t <-? transform_document html ;; encode_artifact is_utf8 t m.
End Verify.
