(* ===== verification/VerifyFacts.v ===== *)
(** * What static verification establishes

    A verified artifact is closed: the documents of its frames hold no active
    content but the two owned programs, every frame is an embedded document, and
    everything they refer to, directly or through embedded stylesheets, images
    and pages, is embedded; and verification always ends. *)

From Stdlib Require Import ZArith Lia Ascii String.
From stdpp Require Import base tactics list gmap strings numbers.
From S2P Require Import Prelude.
From S2P Require Import Errors.
From S2P Require Import Records.
From S2P Require Import Requests.
From S2P Require Import Schedule.
From S2P Require Import Dom.
From S2P Require Import Sink.
From S2P Require Import Sanitize.
From S2P Require Import Serialize.
From S2P Require Import Html.
From S2P Require Import Frames.
From S2P Require Import Verify.

#[local] Open Scope string_scope.
#[local] Open Scope list_scope.
#[local] Open Scope Z_scope.

Lemma fold_res_ok {A S} (P : S -> Prop) (Q : A -> Prop) (f : A -> S -> Res S) l s s' :
  (forall x s s', x ∈ l -> P s -> f x s = Ok s' -> P s' /\ Q x) -> P s -> fold_res f l s = Ok s' ->
  P s' /\ Forall Q l.
Proof.
  revert s. induction l as [|x l IH]; intros s Hf Hs H; simpl in H; [by simplify_eq|].
  apply rbind_ok in H as (s1 & H1 & H2). destruct (Hf x s s1) as [Hs1 Hx]; [set_solver|done|done|].
  destruct (IH s1) as [Hs' Hl]; [intros; eapply Hf; [set_solver|done|done]|done|done|]. auto.
Qed.

Lemma fold_res_trace {A S} (R : S -> S -> Prop) `{!PreOrder R} (Q : A -> S -> Prop) (f : A -> S -> Res S) l s s' :
  (forall x s s', f x s = Ok s' -> R s s' /\ Q x s') -> (forall x s s', Q x s -> R s s' -> Q x s') ->
  fold_res f l s = Ok s' -> R s s' /\ forall x, x ∈ l -> Q x s'.
Proof.
  intros Hf HQ. revert s. induction l as [|x l IH]; intros s H; simpl in H.
  - simplify_eq. split; [done|]. by intros x ?%elem_of_nil.
  - apply rbind_ok in H as (s1 & H1 & H2). destruct (Hf x s s1 H1) as [HR Hx].
    destruct (IH s1 H2) as [HR' Hl]. split; [by etransitivity|].
    intros y [->|Hy]%elem_of_cons; [by eapply HQ|auto].
Qed.

Lemma each_element_ok f d :
  each_element f d = Ok tt ->
  forall id name attrs, id ∈ walk d -> element_at d id = Some (name, attrs) -> f name attrs = Ok tt.
Proof.
  unfold each_element. rewrite for_each_ok, list.Forall_forall. intros H id name attrs Hid He.
  specialize (H id Hid). by rewrite He in H.
Qed.

Section Sound.
Context `{HtmlParser} `{Scripts} `{Encodings} `{Hashing} `{UrlLib} `{Discovery} `{DataUrls} `{Floats}.
Context (is_utf8 : bytes -> bool).

(** ** The specification *)

(** An element that does nothing by itself, unless it is an owned program. *)
Record static_element (name : QualName) (attrs : list Attribute) : Prop := {
  se_script : is_script_element name = true ->
    qn_ns name <> ns_svg /\
    (is_structured_metadata_script attrs = true \/
     attribute_value attrs "id" = Some REPAIR_SCRIPT_ELEMENT_ID \/
     attribute_value attrs "id" = Some STATE_SCRIPT_ELEMENT_ID);
  se_reserved : forall id, attribute_value attrs "id" = Some id -> id ∈ RESERVED_IDS ->
    reserved_id_valid id name attrs = true;
  se_attributes : Forall (fun a => is_event_attribute a = false /\ is_javascript_url_attribute a = false) attrs;
  se_base : is_base_element name = false;
  se_refresh : is_meta_refresh name attrs = false;
  se_link : is_request_triggering_link name attrs = false;
}.

(** The programs are the ones of the artifact format. *)
Definition programs_owned (d : Document) : Prop :=
  forall id name attrs, id ∈ walk d -> element_at d id = Some (name, attrs) ->
    is_script_element name = true -> is_structured_metadata_script attrs = false ->
    text_contents d id = STATE_RESTORATION_SCRIPT \/ text_contents d id = RESTORATION_SCRIPT.

Definition static_document (d : Document) : Prop :=
  (forall id name attrs, id ∈ walk d -> element_at d id = Some (name, attrs) -> static_element name attrs) /\
  programs_owned d.

(** The documents of the frames, at any depth. *)
Inductive frame_of (d : Document) : Document -> Prop :=
| frame_self : frame_of d d
| frame_inner id name attrs source d' :
    id ∈ walk d -> element_at d id = Some (name, attrs) -> is_frame_element name = true ->
    attribute_value attrs "srcdoc" = Some source -> frame_of (parse (as_bytes source)) d' -> frame_of d d'.

(** The references a reference leads to through embedded content. *)
Inductive leads_to (base u : url) : url -> Prop :=
| leads_self : leads_to base u u
| leads_nested mime b urls u' u'' :
    data_url_process (url_without_fragment u) = Some (mime, Some b) -> media_type mime ∈ NESTING_TYPES ->
    nested_urls (media_type mime) b base = Ok urls -> u' ∈ urls -> leads_to base u' u'' -> leads_to base u u''.

Definition embedded_only (base : url) (d : Document) : Prop :=
  exists urls, discover_document_resources d base = Ok urls /\
    forall u u', u ∈ urls -> leads_to base u u' -> url_scheme u' = "data".

(** Frames are embedded documents, not addresses. *)
Definition frames_embedded (d : Document) : Prop :=
  forall id name attrs, id ∈ walk d -> element_at d id = Some (name, attrs) -> is_frame_element name = true ->
    attribute_value attrs "src" = None /\ is_Some (attribute_value attrs "srcdoc").

Record closed_document (base : url) (d : Document) : Prop := {
  cl_static : static_document d;
  cl_frames : frames_embedded d;
  cl_embedded : embedded_only base d;
}.

(** ** The checks *)

Lemma active_element_ok name attrs : validate_active_element name attrs = Ok tt <-> static_element name attrs.
Proof.
  unfold validate_active_element.
  assert (existsb is_event_attribute attrs = false /\ existsb is_javascript_url_attribute attrs = false <->
          Forall (fun a => is_event_attribute a = false /\ is_javascript_url_attribute a = false) attrs) as Hattrs.
  { induction attrs as [|a attrs IH]; simpl; [naive_solver|]. rewrite Forall_cons_iff, <- IH, !orb_false_iff. naive_solver. }
  rewrite !refuse_ok, andb_false_iff, orb_false_iff, andb_false_iff, !negb_false_iff. split.
  - intros (Hs & Hr & He & Hj & Hb & Hf & Hl & _). split; try done.
    + intros Hscript. destruct Hs as [Hs|[Hns Hs]]; [congruence|]. apply bool_decide_eq_false in Hns.
      split; [done|]. destruct Hs as [Hs|Hs]; [by left|]. right.
      destruct (attribute_value attrs "id") as [i|]; [|done]. apply bool_decide_eq_true in Hs. set_solver.
    + intros i Hi Hin. rewrite Hi in Hr. rewrite bool_decide_eq_true_2 in Hr by done. by apply negb_false_iff in Hr.
    + by apply Hattrs.
  - intros [S R A B F L]. apply Hattrs in A as [A1 A2]. split_and!; try done.
    + destruct (is_script_element name); [right|by left]. destruct S as [Hns Hs]; [done|].
      rewrite bool_decide_eq_false_2 by done. split; [done|]. destruct Hs as [Hs|Hs]; [by left|right].
      destruct Hs as [-> | ->]; apply bool_decide_eq_true; set_solver.
    + destruct (attribute_value attrs "id") as [i|]; [|done].
      destruct (decide (i ∈ RESERVED_IDS)); [|by rewrite bool_decide_eq_false_2 by done].
      by rewrite bool_decide_eq_true_2, R by done.
Qed.

Lemma active_content_ok d :
  validate_active_content d = Ok tt <->
  forall id name attrs, id ∈ walk d -> element_at d id = Some (name, attrs) -> static_element name attrs.
Proof.
  split.
  - intros Hd id name attrs Hid He. apply active_element_ok. by eapply each_element_ok.
  - intros Hd. unfold validate_active_content, each_element. apply for_each_ok, list.Forall_forall.
    intros id Hid. destruct (element_at d id) as [[name attrs]|] eqn:He; [|done].
    apply active_element_ok. eauto.
Qed.

Lemma elem_of_matching id media d j :
  j ∈ matching_scripts id media d <->
  j ∈ walk d /\ exists name attrs, element_at d j = Some (name, attrs) /\ owned_script id media name attrs = true.
Proof.
  unfold matching_scripts, walk_filter. rewrite list_elem_of_In, filter_In, <- list_elem_of_In.
  unfold element_test. destruct (element_at d j) as [[name attrs]|]; naive_solver.
Qed.

(** The script of an identifier is among those that were compared. *)
Lemma state_program d restored id name attrs :
  validate_state_restoration d = Ok restored -> id ∈ walk d -> element_at d id = Some (name, attrs) ->
  name_is ns_html "script" name = true -> attribute_value attrs "id" = Some STATE_SCRIPT_ELEMENT_ID ->
  text_contents d id = STATE_RESTORATION_SCRIPT.
Proof.
  intros Hv Hid He Hn Hi.
  assert (id ∈ matching_scripts STATE_SCRIPT_ELEMENT_ID None d) as Hm.
  { apply elem_of_matching. split; [done|]. exists name, attrs. split; [done|].
    unfold owned_script. by rewrite Hn, bool_decide_eq_true_2. }
  unfold validate_state_restoration in Hv. destruct (matching_scripts _ _ d) as [|k [|? ?]]; [set_solver| |done].
  apply list_elem_of_singleton in Hm as <-. apply refuse_ok in Hv as [_ Hv]. apply refuse_ok in Hv as [Hv _].
  bool_facts. by apply dec_stable.
Qed.

Lemma repair_program d m repaired id name attrs :
  validate_structural_repair d m = Ok repaired -> id ∈ walk d -> element_at d id = Some (name, attrs) ->
  name_is ns_html "script" name = true -> attribute_value attrs "id" = Some REPAIR_SCRIPT_ELEMENT_ID ->
  text_contents d id = RESTORATION_SCRIPT.
Proof.
  intros Hv Hid He Hn Hi.
  assert (id ∈ matching_scripts REPAIR_SCRIPT_ELEMENT_ID None d) as Hm.
  { apply elem_of_matching. split; [done|]. exists name, attrs. split; [done|].
    unfold owned_script. by rewrite Hn, bool_decide_eq_true_2. }
  unfold validate_structural_repair in Hv. revert Hv Hm.
  destruct (matching_scripts REPAIR_DATA_ELEMENT_ID _ d) as [|? [|? ?]];
    destruct (matching_scripts REPAIR_SCRIPT_ELEMENT_ID _ d) as [|k [|? ?]]; try done; [set_solver|].
  intros Hv Hm. apply list_elem_of_singleton in Hm as <-.
  apply refuse_ok in Hv as [_ Hv]. apply refuse_ok in Hv as [_ Hv]. apply refuse_ok in Hv as [Hv _].
  bool_facts. by apply dec_stable.
Qed.

Lemma reserved_script name : is_script_element name = true -> qn_ns name <> ns_svg -> name_is ns_html "script" name = true.
Proof.
  unfold is_script_element, name_is. intros Hs Hns. bool_facts. rewrite !bool_decide_eq_true_2; set_solver.
Qed.

Lemma programs_ok d m restored repaired :
  validate_state_restoration d = Ok restored -> validate_structural_repair d m = Ok repaired ->
  validate_active_content d = Ok tt -> programs_owned d.
Proof.
  intros Hs Hr Ha id name attrs Hid He Hscript Hmeta.
  destruct (proj1 (active_content_ok d) Ha id name attrs Hid He) as [S _ _ _ _ _].
  destruct (S Hscript) as [Hns [Hm|[Hi|Hi]]]; [congruence|right|left];
    pose proof (reserved_script name Hscript Hns).
  - by eapply repair_program.
  - by eapply state_program.
Qed.

Lemma embedded_resource_ok fuel u base depth s s' :
  validate_embedded_resource fuel is_utf8 u base depth s = Ok s' ->
  forall u', leads_to base u u' -> url_scheme u' = "data".
Proof.
  revert u depth s s'. induction fuel as [|fuel IH]; intros u depth s s' Hv u' Hu; cbn [validate_embedded_resource] in Hv;
    apply refuse_ok in Hv as [Hd Hv]; bool_facts; (destruct Hu as [|mime b urls u' u'' Hp Hm Hn Hin Hu]; [done|]);
    rewrite Hp in Hv; cbn [rbind ok_or] in Hv; apply rbind_ok in Hv as (size & _ & Hv);
    rewrite bool_decide_eq_true_2 in Hv by done; cbn [negb] in Hv;
    apply refuse_ok in Hv as [_ Hv]; apply refuse_ok in Hv as [_ Hv]; [done|].
  apply rbind_ok in Hv as (urls' & Hn' & Hv). rewrite Hn in Hn'. injection Hn' as <-.
  apply (fold_res_ok (fun _ => True) (fun v => forall v', leads_to base v v' -> url_scheme v' = "data")) in Hv as [_ Hf];
    [|intros v t t' _ _ (t1 & _ & Ht)%rbind_ok; split; [done|]; intros v' Hv'; by eapply IH|done].
  rewrite list.Forall_forall in Hf. by eapply Hf.
Qed.

(** ** The loop over the documents *)

Record frames_grow (limit : Z) (s s' : FrameState) : Prop := {
  fg_pending : exists new, fs_pending s' = new ++ fs_pending s /\ fs_count s' = fs_count s + Z.of_nat (length new);
  fg_limit : fs_count s <= limit -> fs_count s' <= limit;
}.

#[local] Instance frames_grow_preorder limit : PreOrder (frames_grow limit).
Proof.
  split.
  - intros s. split; [exists []; simpl; split; [done|lia]|done].
  - intros s1 s2 s3 [(n1 & P1 & C1) L1] [(n2 & P2 & C2) L2]. split; [|auto].
    exists (n2 ++ n1). rewrite P2, P1, C2, C1, <- app_assoc, length_app. split; [done|lia].
Qed.

Lemma collect_frame_ok attrs limit s s' :
  collect_frame attrs limit s = Ok s' ->
  frames_grow limit s s' /\ attribute_value attrs "src" = None /\
  exists source, attribute_value attrs "srcdoc" = Some source /\ parse (as_bytes source) ∈ fs_pending s'.
Proof.
  unfold collect_frame. intros [_ Hv]%refuse_ok. apply refuse_ok in Hv as [Hsrc Hv].
  apply rbind_ok in Hv as (source & Hs & Hv). apply rbind_ok in Hv as (text & _ & Hv).
  apply rbind_ok in Hv as (id & _ & Hv). apply refuse_ok in Hv as [_ Hv].
  apply rbind_ok in Hv as (count & Hc & Hv). apply refuse_ok in Hv as [Hl Hv]. injection Hv as <-. simpl.
  destruct (attribute_value attrs "srcdoc") as [source'|] eqn:Es; [|done]. injection Hs as ->.
  destruct (checked_add u32_max (fs_count s) 1) as [n|] eqn:En; [|done]. injection Hc as ->.
  apply checked_add_Some in En as [-> _]. bool_facts. split_and!.
  - split; [by exists [parse (as_bytes source)]|simpl; lia].
  - by destruct (attribute_value attrs "src").
  - exists source. split; [done|set_solver].
Qed.

Lemma collect_frames_ok d limit s s' :
  collect_frames d limit s = Ok s' ->
  frames_grow limit s s' /\ frames_embedded d /\
  forall id name attrs source, id ∈ walk d -> element_at d id = Some (name, attrs) -> is_frame_element name = true ->
    attribute_value attrs "srcdoc" = Some source -> parse (as_bytes source) ∈ fs_pending s'.
Proof.
  intros Hc.
  apply (fold_res_trace (frames_grow limit) (fun id s => forall name attrs,
    element_at d id = Some (name, attrs) -> is_frame_element name = true ->
    attribute_value attrs "src" = None /\ exists source, attribute_value attrs "srcdoc" = Some source /\
      parse (as_bytes source) ∈ fs_pending s)) in Hc as [Hg Hq].
  - split_and!; [done| |].
    + intros id name attrs Hid He Hf. destruct (Hq id Hid name attrs He Hf) as (? & source & Hs & _).
      split; [done|]. rewrite Hs. eauto.
    + intros id name attrs source Hid He Hf Hs.
      destruct (Hq id Hid name attrs He Hf) as (_ & source' & Hs' & Hp). congruence.
  - intros id t t' Ht. destruct (element_at d id) as [[name attrs]|]; [|simplify_eq; by split].
    destruct (is_frame_element name) eqn:Ef; [|simplify_eq; split; [done|]; intros; congruence].
    apply collect_frame_ok in Ht as (Hg & Hsrc & Hs). split; [done|]. intros ? ? [= <- <-] _. done.
  - intros id t t' Hq [(new & Hp & _) _] name attrs He Hf.
    destruct (Hq name attrs He Hf) as (? & source & ? & ?). split; [done|]. exists source. split; [done|].
    rewrite Hp. set_solver.
Qed.

Lemma validate_document_ok m restore base d s s' :
  validate_document is_utf8 m restore base d s = Ok s' ->
  frames_grow (am_frames m) (as_frames s) (as_frames s') /\ closed_document base d /\
  forall id name attrs source, id ∈ walk d -> element_at d id = Some (name, attrs) -> is_frame_element name = true ->
    attribute_value attrs "srcdoc" = Some source -> parse (as_bytes source) ∈ fs_pending (as_frames s').
Proof.
  unfold validate_document. intros [_ Hv]%rbind_unit_ok. apply rbind_ok in Hv as (repaired & Hr & Hv).
  apply rbind_ok in Hv as (restored & Hs & Hv). apply refuse_ok in Hv as [_ Hv].
  apply rbind_unit_ok in Hv as [_ Hv]. apply rbind_unit_ok in Hv as [Ha Hv].
  apply rbind_ok in Hv as (frames & Hf & Hv). apply rbind_ok in Hv as (urls & Hu & Hv).
  apply rbind_ok in Hv as (resources & Hres & Hv). injection Hv as <-. simpl.
  apply collect_frames_ok in Hf as (Hg & He & Hp). split_and!; [done| |done]. split.
  - split; [by apply active_content_ok|by eapply programs_ok].
  - done.
  - destruct (discover_document_resources d base) as [urls'|] eqn:Ed; [|done]. injection Hu as ->.
    exists urls. split; [done|].
    apply (fold_res_ok (fun _ => True) (fun u => forall u', leads_to base u u' -> url_scheme u' = "data")) in Hres as [_ Hf];
      [|intros v t t' _ _ (t1 & _ & Ht)%rbind_ok; split; [done|]; by eapply embedded_resource_ok|done].
    rewrite list.Forall_forall in Hf. eauto.
Qed.

Lemma documents_loop_ok fuel m restore base s s' :
  documents_loop fuel is_utf8 m restore base s = Some (Ok s') ->
  forall d d', d ∈ fs_pending (as_frames s) -> frame_of d d' -> closed_document base d'.
Proof.
  revert s. induction fuel as [|fuel IH]; intros s Hl d0 d' Hd Hf; simpl in Hl;
    (destruct (fs_pending (as_frames s)) as [|d pending] eqn:Ep; [by apply elem_of_nil in Hd|]); [done|].
  destruct (validate_document is_utf8 m restore base d _) as [s1|] eqn:Hv; [|done].
  apply validate_document_ok in Hv as ([(new & Hp & _) _] & Hc & Hs). simpl in Hp.
  apply elem_of_cons in Hd as [->|Hd].
  - destruct Hf as [|id name attrs source d' Hid He Hfr Hsrc Hin]; [done|]. by eapply (IH s1 Hl); [eapply Hs|].
  - eapply (IH s1 Hl); [|done]. rewrite Hp. set_solver.
Qed.

(** As many turns as frames are enough. *)
Lemma documents_loop_total fuel m restore base s :
  fs_count (as_frames s) <= am_frames m ->
  Z.of_nat (length (fs_pending (as_frames s))) + (am_frames m - fs_count (as_frames s)) <= Z.of_nat fuel ->
  exists r, documents_loop fuel is_utf8 m restore base s = Some r.
Proof.
  revert s. induction fuel as [|fuel IH]; intros s Hc Hf; simpl;
    (destruct (fs_pending (as_frames s)) as [|d pending] eqn:Ep; [eauto|]); simpl in Hf; [lia|].
  destruct (validate_document is_utf8 m restore base d _) as [s1|e] eqn:Hv; [|eauto].
  apply validate_document_ok in Hv as ([(new & Hp & Hn) Hlim] & _). simpl in *.
  specialize (Hlim Hc). apply IH; [done|]. rewrite Hp, length_app. lia.
Qed.

(** ** Accounts *)

Definition all_positive (s : ResourceState) : Prop := forall k n, rs_found s !! k = Some n -> 0 < n.

Lemma count_positive s s' : count_reference s = Ok s' -> all_positive s -> all_positive s'.
Proof. unfold count_reference. intros (n & _ & [= <-])%rbind_ok. done. Qed.

Lemma embedded_positive fuel u base depth s s' :
  validate_embedded_resource fuel is_utf8 u base depth s = Ok s' -> all_positive s -> all_positive s'.
Proof.
  revert u depth s s'. induction fuel as [|fuel IH]; intros u depth s s' Hv Hs;
    cbn [validate_embedded_resource] in Hv; apply refuse_ok in Hv as [_ Hv];
    apply rbind_ok in Hv as ([mime body] & _ & Hv); apply rbind_ok in Hv as (b & _ & Hv);
    apply rbind_ok in Hv as (size & _ & Hv);
    set (key := (digest_bytes (sha256 b), media_type mime, size)) in Hv;
    set (s1 := MkResources _ _) in Hv;
    (assert (all_positive s1) as Hs1 by
       (intros k n; unfold s1; simpl; destruct (decide (key = k)) as [<-|Hne];
        [rewrite lookup_insert_eq; intros [= <-]; destruct (rs_found s !! key) as [c|] eqn:Ec; simpl;
           [specialize (Hs _ _ Ec); lia|lia]
        |rewrite lookup_insert_ne by done; apply Hs]));
    (destruct (negb _) in Hv; [by simplify_eq|]);
    apply refuse_ok in Hv as [_ Hv]; apply refuse_ok in Hv as [_ Hv]; [done|].
  apply rbind_ok in Hv as (urls & _ & Hv).
  apply (fold_res_ok all_positive (fun _ => True)) in Hv as [Hp _]; [done| |done].
  intros v t t' _ Ht (t1 & Hx1 & Hx2)%rbind_ok. split; [|done]. eapply IH; [done|]. by eapply count_positive.
Qed.

Lemma documents_positive fuel m restore base s s' :
  documents_loop fuel is_utf8 m restore base s = Some (Ok s') ->
  all_positive (as_resources s) -> all_positive (as_resources s').
Proof.
  revert s. induction fuel as [|fuel IH]; intros s Hl Hs; simpl in Hl;
    (destruct (fs_pending (as_frames s)) as [|d pending]; [injection Hl as <-; exact Hs|]); [discriminate|].
  destruct (validate_document is_utf8 m restore base d _) as [s1|] eqn:Hv; [|done].
  apply (IH s1 Hl). unfold validate_document in Hv. apply rbind_unit_ok in Hv as [_ Hv].
  apply rbind_ok in Hv as (repaired & _ & Hv). apply rbind_ok in Hv as (restored & _ & Hv).
  apply refuse_ok in Hv as [_ Hv]. apply rbind_unit_ok in Hv as [_ Hv]. apply rbind_unit_ok in Hv as [_ Hv].
  apply rbind_ok in Hv as (frames & _ & Hv). apply rbind_ok in Hv as (urls & _ & Hv).
  apply rbind_ok in Hv as (resources & Hres & Hv). injection Hv as <-. cbn [as_resources] in *.
  apply (fold_res_ok all_positive (fun _ => True)) in Hres as [Hp _]; [done| |done].
  intros v t t' _ Ht (t1 & Hx1 & Hx2)%rbind_ok. split; [|done].
  eapply embedded_positive; [done|]. by eapply count_positive.
Qed.

Definition amount (g : gmap ResourceKey Z) (k : ResourceKey) : Z := default 0 (g !! k).

Lemma take_expected_ok l found left_over :
  NoDup l.*1 -> take_expected l found = Ok left_over ->
  forall k, amount found k = amount (list_to_map l) k + amount left_over k.
Proof.
  unfold take_expected. revert found. induction l as [|[key n] l IH]; intros found Hnd Ht k; simpl in Hnd, Ht |- *.
  - injection Ht as <-. unfold amount at 2. by rewrite lookup_empty.
  - apply list.NoDup_cons in Hnd as [Hkey Hnd]. apply rbind_ok in Ht as (f1 & Ht1 & Ht2).
    apply rbind_ok in Ht1 as (observed & Ho & Ht1). apply refuse_ok in Ht1 as [_ Ht1]. injection Ht1 as <-.
    destruct (found !! key) as [o|] eqn:Eo; [|done]. injection Ho as ->.
    specialize (IH _ Hnd Ht2 k). unfold amount in *. destruct (decide (key = k)) as [<-|Hne].
    + rewrite lookup_insert_eq in IH |- *. rewrite Eo. simpl in *.
      rewrite not_elem_of_list_to_map_1 in IH by done. simpl in IH. lia.
    + rewrite lookup_insert_ne in IH |- * by done. done.
Qed.

Lemma count_fallbacks_ok l n count :
  fold_res (fun '((digest, media, size), n) count =>
      if negb (is_empty_resource_fallback (MkDigest digest) media size) then Err embedded_error
      else ok_or (checked_add u32_max count n) embedded_error) l n = Ok count ->
  count = n + fold_right (fun kv a => kv.2 + a) 0 l /\
  Forall (fun kv : ResourceKey * Z =>
    is_empty_resource_fallback (MkDigest kv.1.1.1) kv.1.1.2 kv.1.2 = true) l.
Proof.
  revert n. induction l as [|[[[digest media] size] c] l IH]; intros n Hf; simpl in *.
  - simplify_eq. split; [lia|constructor].
  - apply rbind_ok in Hf as (n1 & Hx1 & Hx2). apply refuse_ok in Hx1 as [Hb Hx1]. apply negb_false_iff in Hb.
    destruct (checked_add u32_max n c) as [x|] eqn:Ec; [|done]. injection Hx1 as ->.
    apply checked_add_Some in Ec as [-> _]. apply IH in Hx2 as [-> Hl]. split; [lia|by constructor].
Qed.

(** What the totals say: frames are numbered from one without gaps, every
    reference is recorded, and the embedded bytes are those of the records, with
    one empty resource for each failure. *)
Record accounted (m : ArtifactManifest) (s : ArtifactState) : Prop := {
  ac_frames : fs_count (as_frames s) = am_frames m;
  ac_ids : forall i, i ∈ fs_ids (as_frames s) <-> 1 <= i <= am_frames m;
  ac_references : rs_references (as_resources s) = rs_discovered (am_resources m);
  ac_embedded : exists left_over : gmap ResourceKey Z,
    (forall k, amount (rs_found (as_resources s)) k = amount (expected_embedded m) k + amount left_over k) /\
    (forall k n, left_over !! k = Some n -> 0 < n ->
       is_empty_resource_fallback (MkDigest k.1.1) k.1.2 k.2 = true) /\
    fold_right (fun kv a => kv.2 + a) 0 (map_to_list (filter (fun kv => 0 < kv.2) left_over))
      = rs_failed (am_resources m);
}.

Lemma check_totals_ok m restore s : check_totals m restore s = Ok tt -> accounted m s.
Proof.
  unfold check_totals. intros [Hc Hv]%refuse_ok. apply refuse_ok in Hv as [Hids Hv].
  apply refuse_ok in Hv as [_ Hv]. apply refuse_ok in Hv as [_ Hv]. apply refuse_ok in Hv as [Hr Hv].
  apply rbind_ok in Hv as (left_over & Ht & Hv). apply rbind_ok in Hv as (fallbacks & Hf & Hv).
  bool_facts. split; [done| |done|].
  - intros i. rewrite Hids, elem_of_list_to_set, list_elem_of_In, in_map_iff. setoid_rewrite in_seq. split.
    + intros (k & <- & Hk). lia.
    + intros Hi. exists (Z.to_nat i). split; lia.
  - exists left_over. split_and!.
    + intros k. erewrite take_expected_ok; [|apply NoDup_fst_map_to_list|done]. by rewrite list_to_map_to_list.
    + intros k n Hk Hn. apply count_fallbacks_ok in Hf as [_ Hf]. rewrite list.Forall_forall in Hf.
      apply (Hf (k, n)), elem_of_map_to_list, map_lookup_filter_Some. done.
    + apply count_fallbacks_ok in Hf as [Hf _]. destruct (Z.eqb_spec fallbacks (rs_failed (am_resources m))); [|done].
      simpl in Hf. lia.
Qed.

(** The policy stands first in the head, and no other element is one. *)
Definition policy_in_place (d : Document) (m : ArtifactManifest) (restore : bool) : Prop :=
  exists h n p rest name attrs,
    find_html_element "head" d = Some h /\ node d h = Some n /\ nd_children n = p :: rest /\
    element_at d p = Some (name, attrs) /\ http_equiv_is "content-security-policy" name attrs = true /\
    attribute_value attrs "content" = Some (policy_with_state_restoration m restore) /\
    forall id x, id ∈ walk d -> policy_content d id = Some x -> id = p.

Lemma validate_csp_ok d m restore : validate_csp d m restore = Ok tt -> policy_in_place d m restore.
Proof.
  unfold validate_csp. intros Hv. destruct (find_html_element "head" d) as [h|] eqn:Hh; [|done].
  destruct (omap (policy_content d) (walk d)) as [|[p content] [|? ?]] eqn:Ho; [done| |done].
  destruct (bool_decide ((node d p ≫= nd_parent) = Some h)); [|done].
  destruct (bool_decide_reflect ((n ← node d h; head (nd_children n)) = Some p)) as [Hp|]; [|done].
  destruct (bool_decide_reflect (content = if restore then content_security_policy m else sandboxed_content_security_policy m))
    as [Hc|]; [|done].
  assert (forall id x, id ∈ walk d -> policy_content d id = Some x -> x = (p, content)) as Hone.
  { intros id x Hid Hx. apply list_elem_of_singleton. rewrite <- Ho. apply list_elem_of_omap. eauto. }
  assert (forall id x, policy_content d id = Some x -> id = x.1) as Hfst.
  { intros id x. unfold policy_content. destruct (element_at d id) as [[name attrs]|]; [|done]. simpl.
    case_if; [|done]. intros (c & _ & Hx)%bind_Some. by injection Hx as <-. }
  apply bind_Some in Hp as (n & Hn & Hp). destruct (nd_children n) as [|p' rest] eqn:Hk; [done|].
  injection Hp as ->. assert ((p, content) ∈ omap (policy_content d) (walk d)) as Hin by (rewrite Ho; set_solver).
  apply list_elem_of_omap in Hin as (id & Hid & Hpc). assert (id = p) as -> by exact (Hfst _ _ Hpc).
  pose proof Hpc as Hpc'. unfold policy_content in Hpc'.
  destruct (element_at d p) as [[name attrs]|] eqn:He; [|done]. simpl in Hpc'.
  match type of Hpc' with (if ?b then _ else _) = _ => destruct b eqn:Eb; [|done] end. apply andb_true_iff in Eb as [Eb _]. apply andb_true_iff in Eb as [_ Eb].
  apply bind_Some in Hpc' as (c & Hcv & [= <-]).
  exists h, n, p, rest, name, attrs. split_and!; try done.
  - rewrite Hcv, Hc. by destruct restore.
  - intros id x Hi Hx. pose proof (Hone id x Hi Hx) as ->. exact (Hfst _ _ Hx).
Qed.

(** ** The theorems *)

Lemma artifact_documents_ok d m restore :
  validate_artifact_documents is_utf8 d m restore = Ok tt ->
  exists base s, url_parse BASE_URL = Some base /\
    documents_loop (Z.to_nat (am_frames m)) is_utf8 m restore base
      (MkArtifactState (MkFrames 1 {[1]} [d]) (MkResources 0 ∅) 0 0 true) = Some (Ok s) /\
    check_totals m restore s = Ok tt.
Proof.
  unfold validate_artifact_documents. intros (base & Hb & Hv)%rbind_ok.
  destruct (url_parse BASE_URL) as [base'|]; [|done]. injection Hb as ->.
  apply rbind_ok in Hv as (s & Hl & Hv). exists base, s. split; [done|]. split; [|done].
  destruct (documents_loop _ _ _ _ _ _) as [[s'|e]|]; simpl in Hl; [by injection Hl as ->|done|done].
Qed.


(** Verification ends: for a manifest that was accepted, the loop over the
    documents of the frames stops within as many turns as the manifest has
    frames, however the frames are nested. *)
Theorem verification_ends d m restore base :
  inspect_document d = Ok m -> in_u32 (am_frames m) ->
  exists r, documents_loop (Z.to_nat (am_frames m)) is_utf8 m restore base
    (MkArtifactState (MkFrames 1 {[1]} [d]) (MkResources 0 ∅) 0 0 true) = Some r.
Proof.
  intros Hi Hm. assert (am_frames m <> 0) as Hne.
  { unfold inspect_document in Hi. destruct (matching_scripts _ _ d) as [|? [|? ?]]; try done.
    apply refuse_ok in Hi as [_ Hi]. apply rbind_ok in Hi as (m' & _ & Hi).
    apply rbind_unit_ok in Hi as [Hv Hi]. injection Hi as ->. unfold validate_manifest in Hv.
    apply refuse_ok in Hv as [_ Hv]. apply refuse_ok in Hv as [_ Hv]. apply rbind_unit_ok in Hv as [_ Hv].
    apply refuse_ok in Hv as [_ Hv]. apply refuse_ok in Hv as [Hv _]. by bool_facts. }
  unfold in_u32 in Hm. apply documents_loop_total; simpl; lia.
Qed.
End Sound.

(** ** A sample artifact

    One small artifact with a frame and an image, and concrete parameters under
    which it verifies. *)
Module VerifySamples.

#[export] Instance sample_hashing : Hashing := {| sha256_raw b := b; hex_encode := string_of_list_ascii |}.
#[export] Instance sample_scripts : Scripts :=
  {| STATE_RESTORATION_SCRIPT := "restoreState()"; RESTORATION_SCRIPT := "restoreTree()" |}.
#[export] Instance sample_floats : Floats :=
  {| f64 := Z; f64_eqb := Z.eqb; parse_f64 := parse_u32; f64_in_range := fun x => Z.abs x <=? 1000000000 |}.
#[export] Instance sample_urls : UrlLib := plain_urls.

Definition image_url : string := "data:image/png;base64,AA==".

(** One image, found in every document. *)
#[export] Instance sample_discovery : Discovery :=
  {| discover_document_resources := fun _ _ => Ok [image_url]; discover_css_resources := fun _ _ => Ok [] |}.
#[export] Instance sample_data_urls : DataUrls :=
  {| data_url_process := fun u => if bool_decide (u = image_url) then Some ("image/png", Some ["000"%char]) else None |}.

Definition pixel (id frame : Z) : ResourceRecord :=
  MkResource id frame "data:[redacted]" (MkDigest [])
    (OutcomeEmbedded (MkDigest ["000"%char]) "image/png" 1)
    (Some (MkProvenance InlineData "data:[redacted]" (MkDigest []) None [] 0)).

Definition sample_manifest : ArtifactManifest := {|
  am_schema_version := 2; am_format_version := 2; am_generator := MkGenerator "Offprint" "0.1.0";
  am_source := MkSource "https://example.com/" (MkDigest []) "https://example.com/" (MkDigest []);
  am_captured_at := "2026-07-27T00:00:00Z";
  am_browser := MkBrowserInfo Chromium "1" SourceSystem None None None "1.3";
  am_environment := environment_default; am_view_state := MkView "0" "144";
  am_capture_policy_sha256 := MkDigest []; am_frames := 2;
  am_resources := MkSummary 2 2 0 0 0 1; am_resource_records := [pixel 0 1; pixel 1 2];
  am_warning_codes := []; am_structural_repair := MkRepair false None;
  am_verification_mode := VerifyStatic |}.

#[export] Instance sample_encodings : Encodings := {|
  base64_encode := string_of_list_ascii; base64_decode := fun s => Some (as_bytes s);
  manifest_to_json := fun _ => Some "{manifest}";
  manifest_from_json := fun s => if bool_decide (s = "{manifest}") then Some sample_manifest else None;
  repair_from_json := fun _ => None |}.

Definition element (name : string) (attrs : list (string * string)) : SinkCall :=
  CreateElement (html_name name) (map (fun a => html_attribute a.1 a.2) attrs) false false.

(** The calls for the artifact, and those for the document of its frame. *)
Definition artifact_calls : list SinkCall :=
  [ element "html" [(DOCUMENT_SCROLL_X_ATTRIBUTE, "0"); (DOCUMENT_SCROLL_Y_ATTRIBUTE, "144")];
    Append 0 (AppendNode 1);
    element "head" []; Append 1 (AppendNode 2);
    element "meta" [("id", CSP_ELEMENT_ID); ("http-equiv", "Content-Security-Policy");
                    ("content", content_security_policy sample_manifest)]; Append 2 (AppendNode 3);
    element "script" [("id", MANIFEST_ELEMENT_ID); ("type", MANIFEST_MEDIA_TYPE)]; Append 2 (AppendNode 4);
    Append 4 (AppendText "{manifest}");
    element "script" [("id", STATE_SCRIPT_ELEMENT_ID)]; Append 2 (AppendNode 6);
    Append 6 (AppendText "restoreState()");
    element "body" []; Append 1 (AppendNode 8);
    element "img" [("src", image_url)]; Append 8 (AppendNode 9);
    element "iframe" [("srcdoc", "frame"); (FRAME_ID_ATTRIBUTE, "2")]; Append 8 (AppendNode 10) ].

Definition frame_calls : list SinkCall :=
  [ element "html" []; Append 0 (AppendNode 1); element "img" [("src", image_url)]; Append 1 (AppendNode 2) ].

#[export] Instance artifact_parser : HtmlParser :=
  {| parser_calls := fun b => if bool_decide (b = as_bytes "frame") then frame_calls else artifact_calls |}.

Definition artifact_bytes : bytes := as_bytes "artifact".

Lemma sample_verified : is_ok (verify_with_state_restoration (fun _ => true) artifact_bytes true) = true.
Proof. vm_compute. reflexivity. Qed.

Lemma is_ok_exists {E A} (r : result E A) : is_ok r = true -> exists a, r = Ok a.
Proof. destruct r; [eauto|done]. Qed.


Lemma verification_ends_witness :
  exists r, documents_loop (Z.to_nat (am_frames sample_manifest)) (fun _ => true) sample_manifest true BASE_URL
    (MkArtifactState (MkFrames 1 {[1]} [parse artifact_bytes]) (MkResources 0 ∅) 0 0 true) = Some r.
Proof.
  apply (verification_ends (fun _ => true) (parse artifact_bytes) sample_manifest);
    [vm_compute; reflexivity|unfold in_u32, u32_max; simpl; lia].
Defined.

End VerifySamples.
