(* ===== verification/DomExtend.v ===== *)
(** * Extending a document

    What the walk of a document becomes when freshly created nodes are put
    below one of its nodes: the old nodes in their old order, with the new ones
    among them. *)

From Stdlib Require Import ZArith Lia Ascii String.
From stdpp Require Import base tactics list gmap strings numbers relations.
From S2P Require Import Prelude.
From S2P Require Import Errors.
From S2P Require Import Dom.
From S2P Require Import DomFacts.
From S2P Require Import SinkFacts.

#[local] Open Scope string_scope.
#[local] Open Scope list_scope.
#[local] Open Scope nat_scope.

(** ** The walk as a relation *)

Inductive pre (d : Document) : list NodeId -> list NodeId -> Prop :=
| pre_nil : pre d [] []
| pre_cons i n rest l : node d i = Some n -> pre d (successors n ++ rest) l -> pre d (i :: rest) (i :: l).

Lemma pre_functional d stack l l' : pre d stack l -> pre d stack l' -> l = l'.
Proof.
  intros Hp. revert l'. induction Hp as [|i n rest l Hn Hp IH]; intros l' Hl'; inversion Hl'; subst; [done|].
  f_equal. simplify_eq. auto.
Qed.

Lemma walk_loop_pre d fuel stack l :
  tree_shaped d -> Forall (fun i => is_Some (node d i)) stack -> walk_loop fuel d stack = Some l -> pre d stack l.
Proof.
  intros S. revert stack l. induction fuel as [|fuel IH]; intros [|i stack] l Hk H; simpl in H; simplify_eq; try constructor.
  apply Forall_cons_iff in Hk as [[n Hn] Hk]. rewrite Hn in H. apply bind_Some in H as (l' & Hl & [= <-]).
  econstructor; [done|]. apply IH; [|done]. apply Forall_app. split; [|done].
  apply list.Forall_forall. intros j Hj. eapply link_known; [done|]. by exists n.
Qed.

Lemma walk_pre d : tree_shaped d -> pre d [dc_root d] (walk d).
Proof.
  intros S. destruct (walk_loop_total d S) as [W _]. eapply walk_loop_pre; [done| |done].
  destruct (shape_root d S) as (n & Hn & _). constructor; [eauto|constructor].
Qed.

Lemma list_filter_true {A} (f : A -> bool) l : (forall x, x ∈ l -> f x = true) -> List.filter f l = l.
Proof.
  induction l as [|x l IH]; intros H; simpl; [done|]. rewrite H by set_solver. f_equal. set_solver.
Qed.

Lemma list_filter_false {A} (f : A -> bool) l : (forall x, x ∈ l -> f x = false) -> List.filter f l = [].
Proof.
  induction l as [|x l IH]; intros H; simpl; [done|]. rewrite H by set_solver. set_solver.
Qed.

Definition old (N : nat) (j : NodeId) : bool := j <? N.

(** Leaving out the new nodes gives the old walk. *)
Lemma pre_old p c ins d d' N stack l :
  hung p c ins d d' -> tree_shaped d -> movable d c -> is_Some (node d p) -> N <= c ->
  (forall l, List.filter (old N) (ins l) = List.filter (old N) l) ->
  (forall i n j, node d i = Some n -> j ∈ successors n -> N <= i <-> N <= j) -> p < N ->
  pre d' stack l -> pre d (List.filter (old N) stack) (List.filter (old N) l).
Proof.
  intros H S Hc Hp HN Hins Hnew HpN Hpre. induction Hpre as [|i n' rest l Hn' Hpre IH]; [constructor|].
  rewrite (hg_node _ _ _ _ _ H) in Hn'. apply fmap_Some in Hn' as (n & Hn & ->).
  rewrite List.filter_app in IH.
  assert (forall l, c ∉ l -> without c l = l) as Hwo by (intros k Hk; apply filter_keeps; set_solver).
  assert (forall l, List.filter (old N) (without c l) = List.filter (old N) l) as Hwf.
  { intros k. induction k as [|x k IHk]; [done|]. unfold without in *.
    destruct (decide (x = c)) as [->|Hx].
    - rewrite filter_cons_False by naive_solver. rewrite IHk. cbn [List.filter]. unfold old at 2.
      by rewrite (proj2 (Nat.ltb_ge c N) HN).
    - rewrite filter_cons_True by done. cbn [List.filter]. by rewrite IHk. }
  simpl. destruct (old N i) eqn:Ei.
  - econstructor; [done|].
    assert (List.filter (old N) (successors (MkNode (if decide (i = c) then Some p else nd_parent n)
       (if decide (i = p) then ins (without c (nd_children n)) else without c (nd_children n)) (nd_data n)))
       = successors n) as Hsucc.
    { unfold successors. simpl. rewrite List.filter_app.
      assert (List.filter (old N) (if decide (i = p) then ins (without c (nd_children n)) else without c (nd_children n))
              = List.filter (old N) (nd_children n)) as -> by (destruct (decide (i = p)); rewrite ?Hins; apply Hwf).
      rewrite <- List.filter_app. apply list_filter_true. intros j Hj.
      unfold old in *. apply Nat.ltb_lt in Ei. apply Nat.ltb_lt.
      pose proof (proj2 (Hnew i n j Hn Hj)). lia. }
    by rewrite Hsucc in IH.
  - assert (List.filter (old N) (successors (MkNode (if decide (i = c) then Some p else nd_parent n)
       (if decide (i = p) then ins (without c (nd_children n)) else without c (nd_children n)) (nd_data n)))
       = []) as Hsucc; [|by rewrite Hsucc in IH].
    unfold old in Ei. apply Nat.ltb_ge in Ei. apply list_filter_false. intros j Hj.
    unfold old. apply Nat.ltb_ge. apply (proj1 (Hnew i n j Hn ltac:(
      apply elem_of_successors; apply elem_of_successors in Hj; simpl in Hj;
      rewrite decide_False in Hj by lia; rewrite elem_of_without in Hj; tauto))). done.
Qed.

Lemma pre_mono d d' stack l :
  (forall i n, node d i = Some n -> node d' i = Some n) -> pre d stack l -> pre d' stack l.
Proof. intros H Hp. induction Hp; econstructor; eauto. Qed.

(** ** Fresh nodes put in place *)

(** [d'] is [d] with fresh nodes, the uppermost of them [c], among the children
    of [p]. *)
Record extended (p c : NodeId) (ins : list NodeId -> list NodeId) (d d' : Document) : Prop := {
  ex_shape : tree_shaped d';
  ex_root : dc_root d' = dc_root d;
  ex_old : forall j n, node d j = Some n ->
    node d' j = Some (MkNode (nd_parent n) (if decide (j = p) then ins (nd_children n) else nd_children n) (nd_data n));
  ex_filter : List.filter (old (node_count d)) (walk d') = walk d;
  ex_walk : forall j, j ∈ walk d' -> j ∈ walk d \/ (node_count d <= j /\ below d' c j);
  ex_keep : forall j, j ∈ walk d -> j ∈ walk d';
  ex_top : c ∈ walk d';
}.

(** Adding unconnected nodes. *)
Record spare (d dm : Document) : Prop := {
  sp_shape : tree_shaped dm;
  sp_root : dc_root dm = dc_root d;
  sp_old : forall i n, node d i = Some n -> node dm i = Some n;
  sp_new : forall i n j, node dm i = Some n -> j ∈ successors n -> node_count d <= i <-> node_count d <= j;
}.

Lemma spare_walk d dm : tree_shaped d -> spare d dm -> walk dm = walk d.
Proof.
  intros S [S' R O _]. eapply pre_functional; [by apply walk_pre|]. rewrite R.
  eapply pre_mono; [done|]. by apply walk_pre.
Qed.

Lemma spare_below d dm c j : spare d dm -> node_count d <= c -> below dm c j -> node_count d <= j.
Proof.
  intros Sp Hc Hb. unfold below in Hb. induction Hb as [|x y z (n & Hn & Hy) Hb IH]; [done|].
  apply IH. by apply (sp_new _ _ Sp x n y).
Qed.

Lemma extend_spare p c ins d dm d' :
  tree_shaped d -> spare d dm -> node_count d <= c -> movable dm c -> p ∈ walk d ->
  hung p c ins dm d' -> (forall l, List.filter (old (node_count d)) (ins l) = List.filter (old (node_count d)) l) ->
  extended p c ins d d'.
Proof.
  intros S Sp Hc Hmov Hp H Hins. pose proof (sp_shape _ _ Sp) as Sm.
  destruct (walk_known d p S Hp) as [np Hnp]. pose proof (node_bound _ _ _ Hnp) as HpN.
  pose proof (sp_old _ _ Sp p np Hnp) as Hnpm.
  assert (~ below dm c p) as Habove by (intros Hb; apply (spare_below d dm c p Sp Hc) in Hb; lia).
  assert (tree_shaped d') as S' by (eapply hung_shape; eauto).
  assert (List.filter (old (node_count d)) (walk d') = walk d) as Hf.
  { rewrite <- (spare_walk d dm S Sp).
    pose proof (pre_old p c ins dm d' (node_count d) [dc_root d'] (walk d') H Sm Hmov
                  (mk_is_Some _ _ Hnpm) Hc Hins (sp_new _ _ Sp) HpN (walk_pre d' S')) as Hpo.
    eapply pre_functional; [|by apply walk_pre]. rewrite (hg_root _ _ _ _ _ H) in Hpo.
    replace (List.filter (old (node_count d)) [dc_root dm]) with [dc_root dm] in Hpo; [done|].
    simpl. rewrite (sp_root _ _ Sp). destruct (shape_root d S) as (r & Hr%node_bound & _).
    unfold old. by rewrite (proj2 (Nat.ltb_lt _ _) Hr). }
  assert (forall j, j ∈ walk d -> j ∈ walk d') as Hkeep.
  { intros j Hj. rewrite <- Hf in Hj. by apply list_elem_of_In, filter_In, proj1, list_elem_of_In in Hj. }
  assert (forall i j, link d' i j <-> (i = p /\ j = c) \/ (link dm i j /\ j <> c)) as Hlink
    by (intros; by eapply hung_link).
  split; [done| | |done| |done|].
  - rewrite (hg_root _ _ _ _ _ H). apply Sp.
  - intros j n Hn. rewrite (hg_node _ _ _ _ _ H), (sp_old _ _ Sp j n Hn). simpl.
    pose proof (node_bound _ _ _ Hn). rewrite (decide_False (P := j = c)) by lia.
    assert (without c (nd_children n) = nd_children n) as ->; [|done].
    apply filter_keeps. intros k Hk ->. destruct (shape_child d S j n c Hn Hk) as (m & Hm%node_bound & _). lia.
  - intros j Hj. destruct (decide (j < node_count d)) as [Hlt|Hge].
    + left. rewrite <- Hf. apply list_elem_of_In, filter_In. split; [by apply list_elem_of_In|].
      by apply Nat.ltb_lt.
    + right. split; [lia|]. apply elem_of_walk in Hj; [|done]. rewrite (hg_root _ _ _ _ _ H), (sp_root _ _ Sp) in Hj.
      assert (forall k, below d' (dc_root d) k -> node_count d <= k -> below d' c k) as Hb; [|apply Hb; [done|lia]].
      refine (rtc_ind_r _ _ _ _).
      * intros Hr. destruct (shape_root d S) as (r & Hr'%node_bound & _). lia.
      * intros k k' Hk Hl IH Hk'. pose proof Hl as Hl2. apply Hlink in Hl2 as [[-> ->]|[(n & Hn & Hs) _]]; [apply rtc_refl|].
        eapply rtc_r; [|done]. apply IH. by apply (sp_new _ _ Sp k n k').
  - apply elem_of_walk; [done|]. eapply rtc_r; [apply elem_of_walk, Hkeep, Hp; done|]. apply Hlink. by left.
Qed.

Lemma spare_grown x d dm dm' :
  spare d dm -> tree_shaped d -> template_of x = None -> node_count d <= node_count dm -> grown x dm dm' -> spare d dm'.
Proof.
  intros [Sm R O N] S Ht Hc G. pose proof G as [R' N']. split.
  - by eapply grown_shape.
  - by rewrite R'.
  - intros i n Hn. eapply grown_old; [done|]. auto.
  - intros i n j Hn Hj. rewrite N' in Hn. case_decide; [|by apply (N i n j)]. simplify_eq.
    unfold successors in Hj; simpl in Hj. rewrite Ht in Hj. by apply elem_of_nil in Hj.
Qed.

Lemma spare_self d : tree_shaped d -> spare d d.
Proof.
  intros S. split; try done. intros i n j Hn Hj. pose proof (node_bound _ _ _ Hn).
  destruct (link_known d S i j) as [m Hm%node_bound]; [by exists n|]. lia.
Qed.

Lemma filter_append N c l : N <= c -> List.filter (old N) (l ++ [c]) = List.filter (old N) l.
Proof.
  intros H. rewrite List.filter_app. simpl. unfold old at 2. rewrite (proj2 (Nat.ltb_ge c N) H). by rewrite app_nil_r.
Qed.

Lemma filter_prepend N c l : N <= c -> List.filter (old N) (c :: l) = List.filter (old N) l.
Proof. intros H. simpl. unfold old at 1. by rewrite (proj2 (Nat.ltb_ge c N) H). Qed.

(** ** A leaf, and an element with a text *)

Lemma same_domain_count d d' :
  (forall i, is_Some (node d' i) <-> is_Some (node d i)) -> node_count d' = node_count d.
Proof.
  intros H. apply Nat.le_antisymm; apply Nat.nlt_ge; intros Hlt; unfold node, node_count in *.
  - assert (is_Some (dc_nodes d' !! length (dc_nodes d))) as Hs by (by apply lookup_lt_is_Some_2).
    apply H in Hs as [n Hn%lookup_lt_Some]. lia.
  - assert (is_Some (dc_nodes d !! length (dc_nodes d'))) as Hs by (by apply lookup_lt_is_Some_2).
    apply H in Hs as [n Hn%lookup_lt_Some]. lia.
Qed.

Lemma hung_count p c ins d d' : hung p c ins d d' -> node_count d' = node_count d.
Proof. intros H. apply same_domain_count. intros i. rewrite (hg_node _ _ _ _ _ H). by rewrite fmap_is_Some. Qed.

Lemma create_node_spare x d :
  tree_shaped d -> template_of x = None -> (Z.of_nat (node_count d) <= u32_max)%Z ->
  exists d', create_node x d = Ok (node_count d, d') /\ grown x d d' /\ node_count d' = S (node_count d) /\ spare d d'.
Proof.
  intros S Ht Hr. rewrite create_node_ok by done. eexists. split; [done|].
  destruct (create_node_grown x d (node_count d) _ (create_node_ok x d Hr)) as [_ G].
  split_and!; [done| |by eapply (spare_grown x d d); [by apply spare_self|..]].
  unfold node_count; simpl. rewrite length_app; simpl. lia.
Qed.

Lemma below_leaf d c n j : node d c = Some n -> successors n = [] -> below d c j -> j = c.
Proof.
  intros Hn Hs Hb. destruct (rtc_inv _ _ Hb) as [->|(k & (m & Hm & Hk) & _)]; [done|].
  simplify_eq. rewrite Hs in Hk. by apply elem_of_nil in Hk.
Qed.

Lemma prepend_leaf x p d :
  tree_shaped d -> p ∈ walk d -> template_of x = None -> x <> NDocument ->
  (Z.of_nat (node_count d) <= u32_max)%Z ->
  exists d1 d', create_node x d = Ok (node_count d, d1) /\ prepend_child p (node_count d) d1 = Ok d' /\
    extended p (node_count d) (cons (node_count d)) d d' /\
    node d' (node_count d) = Some (MkNode (Some p) [] x) /\ node_count d' = S (node_count d).
Proof.
  intros S Hp Ht Hx Hr. destruct (create_node_spare x d S Ht Hr) as (d1 & Hc & G & Hn & Sp).
  destruct (walk_known d p S Hp) as [np Hnp]. pose proof (node_bound _ _ _ Hnp).
  pose proof (grown_new _ _ _ G) as Hnew.
  destruct (prepend_child_ok d1 p (node_count d)) as (d' & Hpre & H');
    [apply Sp|lia|exists np; by apply Sp|by eexists|].
  exists d1, d'. split_and!; [done|done| | |].
  - eapply extend_spare; [done|done|lia|by eexists|done|done|]. intros l. by apply filter_prepend.
  - rewrite (hg_node _ _ _ _ _ H'), Hnew. simpl. rewrite decide_True by done. by rewrite decide_False by lia.
  - by rewrite (hung_count _ _ _ _ _ H').
Qed.

Lemma append_with_text x text p d :
  tree_shaped d -> p ∈ walk d -> template_of x = None -> x <> NDocument ->
  (Z.of_nat (node_count d) < u32_max)%Z ->
  exists d1 d2 d3 d', create_node x d = Ok (node_count d, d1) /\
    create_node (NText text) d1 = Ok (S (node_count d), d2) /\
    append_child (node_count d) (S (node_count d)) d2 = Ok d3 /\ append_child p (node_count d) d3 = Ok d' /\
    extended p (node_count d) (fun l => l ++ [node_count d]) d d' /\
    node d' (node_count d) = Some (MkNode (Some p) [S (node_count d)] x) /\
    node d' (S (node_count d)) = Some (MkNode (Some (node_count d)) [] (NText text)) /\
    node_count d' = S (S (node_count d)).
Proof.
  intros S Hp Ht Hx Hr. set (N := node_count d) in *.
  destruct (create_node_spare x d S Ht ltac:(lia)) as (d1 & Hc1 & G1 & Hn1 & Sp1).
  destruct (create_node_spare (NText text) d1 (sp_shape _ _ Sp1) eq_refl ltac:(lia)) as (d2 & Hc2 & G2 & Hn2 & Sp12).
  assert (spare d d2) as Sp2 by (eapply (spare_grown (NText text) d d1); [done..|lia|done]).
  pose proof (grown_new _ _ _ G1) as HN1. pose proof (grown_old _ _ _ _ _ G2 HN1) as HN2. fold N in HN1, HN2.
  pose proof (grown_new _ _ _ G2) as HT2. rewrite Hn1 in *. fold N in HT2, Hc2.
  destruct (append_child_ok d2 N (Datatypes.S N)) as (d3 & Ha3 & H3); [apply Sp2|lia|by eexists|by eexists|].
  assert (~ below d2 (Datatypes.S N) N) as Hab.
  { intros Hb. apply (below_leaf d2 _ _ _ HT2 eq_refl) in Hb. lia. }
  assert (movable d2 (Datatypes.S N)) as Hmt by (eexists; split; [done|done]).
  assert (tree_shaped d3) as S3 by (eapply hung_shape; [done|apply Sp2|done|by eexists|done]).
  assert (spare d d3) as Sp3.
  { split; [done|by rewrite (hg_root _ _ _ _ _ H3), (sp_root _ _ Sp2)| |].
    - intros i n Hn. rewrite (hg_node _ _ _ _ _ H3), (sp_old _ _ Sp2 i n Hn). simpl.
      pose proof (node_bound _ _ _ Hn). fold N in H. rewrite !decide_False by lia. f_equal.
      destruct n as [np nc nd]; simpl. f_equal. apply filter_keeps. intros k Hk ->.
      destruct (shape_child d S i _ _ Hn Hk) as (m & Hm%node_bound & _). fold N in Hm. lia.
    - intros i n j Hn Hj. assert (link d3 i j) as Hl by (by exists n).
      apply (hung_link _ _ _ _ _ i j H3 (sp_shape _ _ Sp2) Hmt (mk_is_Some _ _ HN2)) in Hl as [[-> ->]|[(n2 & Hn2' & Hj2) _]].
      + unfold N. lia.
      + by apply (sp_new _ _ Sp2 i n2 j). }
  assert (node d3 N = Some (MkNode None [Datatypes.S N] x)) as HN3.
  { rewrite (hg_node _ _ _ _ _ H3), HN2. simpl. rewrite decide_False by lia. by rewrite decide_True. }
  assert (node d3 (Datatypes.S N) = Some (MkNode (Some N) [] (NText text))) as HT3.
  { rewrite (hg_node _ _ _ _ _ H3), HT2. simpl. rewrite decide_True by done. by rewrite decide_False by lia. }
  destruct (walk_known d p S Hp) as [np Hnp]. pose proof (node_bound _ _ _ Hnp) as HpN. fold N in HpN.
  destruct (append_child_ok d3 p N) as (d' & Ha' & H'); [done|lia|exists np; by apply Sp3|by eexists|].
  exists d1, d2, d3, d'. split_and!; [exact Hc1|exact Hc2|exact Ha3|exact Ha'| | | |].
  - eapply extend_spare; [done|done|unfold N; lia|by eexists|done|done|]. intros l. by apply filter_append.
  - rewrite (hg_node _ _ _ _ _ H'), HN3. simpl. rewrite decide_True by done. rewrite decide_False by lia.
    do 2 f_equal. unfold without. rewrite filter_cons_True by lia. done.
  - rewrite (hg_node _ _ _ _ _ H'), HT3. simpl. rewrite decide_False by lia. by rewrite decide_False by lia.
  - rewrite (hung_count _ _ _ _ _ H'), (hung_count _ _ _ _ _ H3). lia.
Qed.

(** ** Searches *)

Lemma find_filter {A} (f keep : A -> bool) l :
  (forall x, x ∈ l -> f x = true -> keep x = true) -> List.find f (List.filter keep l) = List.find f l.
Proof.
  induction l as [|x l IH]; intros H; [done|]. simpl. destruct (f x) eqn:Ef.
  - rewrite H; [|by apply elem_of_cons; left|done]. simpl. by rewrite Ef.
  - assert (List.find f (List.filter keep l) = List.find f l) as <-.
    { apply IH. intros y Hy. apply H. by apply elem_of_cons; right. }
    destruct (keep x); simpl; by rewrite ?Ef.
Qed.

Lemma find_ext {A} (f g : A -> bool) l : (forall x, x ∈ l -> f x = g x) -> List.find f l = List.find g l.
Proof.
  induction l as [|x l IH]; intros H; [done|]. simpl. rewrite (H x) by (by apply elem_of_cons; left).
  destruct (g x); [done|]. apply IH. intros y Hy. apply H. by apply elem_of_cons; right.
Qed.

Lemma extended_element p c ins d d' j :
  extended p c ins d d' -> is_Some (node d j) -> element_at d' j = element_at d j.
Proof.
  intros E [n Hn]. unfold element_at, node_data. by rewrite (ex_old _ _ _ _ _ E j n Hn), Hn.
Qed.

Lemma extended_find p c ins d d' ns local :
  tree_shaped d -> extended p c ins d d' ->
  (forall j, node_count d <= j -> element_test d' (fun name _ => name_is ns local name) j = false) ->
  find_element ns local d' = find_element ns local d.
Proof.
  intros S E Hnew. unfold find_element. rewrite <- (ex_filter _ _ _ _ _ E).
  rewrite <- (find_filter (element_test d' _) (old (node_count d)) (walk d')).
  - apply find_ext. intros x Hx. rewrite (ex_filter _ _ _ _ _ E) in Hx. unfold element_test.
    rewrite (extended_element _ _ _ _ _ x E); [done|]. by apply walk_known.
  - intros x Hx Ht. apply Nat.ltb_lt. apply Nat.nle_gt. intros Hle. by rewrite Hnew in Ht.
Qed.
