(* ===== verification/EncodeFacts.v ===== *)
(** * The encoder meets the verifier

    The document the encoder builds from a static page is canonical: the checks
    of the verifier on its manifest, its policy, its programs and its elements
    accept it. *)

From Stdlib Require Import ZArith Lia Ascii String.
From stdpp Require Import base tactics list gmap strings numbers relations.
From S2P Require Import Prelude.
From S2P Require Import Errors.
From S2P Require Import Records.
From S2P Require Import Requests.
From S2P Require Import Schedule.
From S2P Require Import Dom.
From S2P Require Import DomFacts.
From S2P Require Import DomExtend.
From S2P Require Import SinkFacts.
From S2P Require Import Sink.
From S2P Require Import Sanitize.
From S2P Require Import SanitizeFacts.
From S2P Require Import Serialize.
From S2P Require Import Html.
From S2P Require Import Frames.
From S2P Require Import Verify.
From S2P Require Import VerifyFacts.

#[local] Open Scope string_scope.
#[local] Open Scope list_scope.
#[local] Open Scope Z_scope.

Lemma list_single {A} (l : list A) x : NoDup l -> (forall y, y ∈ l <-> y = x) -> l = [x].
Proof.
  intros Hnd H. destruct l as [|y l]; [exfalso; by apply (not_elem_of_nil x), H|].
  assert (y = x) as -> by (apply H; by apply elem_of_cons; left). apply list.NoDup_cons in Hnd as [Hx _].
  destruct l as [|z l]; [done|]. exfalso. apply Hx.
  assert (z = x) as -> by (apply H; apply elem_of_cons; right; by apply elem_of_cons; left).
  by apply elem_of_cons; left.
Qed.

Lemma omap_single {A B} (f : A -> option B) l x y :
  NoDup l -> x ∈ l -> f x = Some y -> (forall z, z ∈ l -> z <> x -> f z = None) -> omap f l = [y].
Proof.
  intros Hnd Hx Hf Hother. induction l as [|z l IH]; [by apply elem_of_nil in Hx|].
  apply list.NoDup_cons in Hnd as [Hz Hnd]. simpl. apply elem_of_cons in Hx as [<-|Hx].
  - rewrite Hf. f_equal. clear IH. induction l as [|w l IHl]; [done|]. simpl.
    rewrite Hother; [apply IHl| |].
    + set_solver.
    + by apply list.NoDup_cons in Hnd as [_ ?].
    + intros v Hv. apply Hother. set_solver.
    + set_solver.
    + set_solver.
  - rewrite Hother; [|set_solver..]. apply IH; [done|done|]. intros v Hv. apply Hother. set_solver.
Qed.

(** ** Pages *)

(** An element of a page as the encoder takes it: static, with no policy of its
    own, no owned identifier and no repair marker. *)
Record page_element (name : QualName) (attrs : list Attribute) : Prop := {
  pe_static : static_element name attrs;
  pe_policy : http_equiv_is "content-security-policy" name attrs = false;
  pe_unowned : Forall (fun a => plain_attribute "id" a = true -> at_value a ∉ RESERVED_IDS) attrs;
  pe_unmarked : attribute_value attrs REPAIR_MARKER_ATTRIBUTE = None;
}.

Lemma page_id name attrs id : page_element name attrs -> attribute_value attrs "id" = Some id -> id ∉ RESERVED_IDS.
Proof.
  intros [_ _ U _]. unfold attribute_value. intros (a & Ha & ->)%fmap_Some.
  apply find_some in Ha as [Hin Hp]. rewrite list.Forall_forall in U. apply U; [by apply list_elem_of_In|done].
Qed.

Lemma page_not_owned name attrs id media :
  page_element name attrs -> id ∈ RESERVED_IDS -> owned_script id media name attrs = false.
Proof.
  intros P Hid. unfold owned_script. destruct (bool_decide_reflect (attribute_value attrs "id" = Some id)) as [E|];
    [|by rewrite andb_false_r]. by destruct (page_id _ _ _ P E).
Qed.

(** ** Scroll positions *)

Lemma set_attribute_other n m v attrs : n <> m -> attribute_value (set_attribute m v attrs) n = attribute_value attrs n.
Proof.
  intros Hne. unfold attribute_value, set_attribute. f_equal.
  transitivity (List.find (plain_attribute n) (List.filter (fun a => negb (plain_attribute m a)) attrs)).
  - induction (List.filter _ attrs) as [|a l IH]; simpl; [|by destruct (plain_attribute n a)].
    unfold plain_attribute, name_is. simpl. rewrite (bool_decide_eq_false_2 (m = n)) by done. by rewrite ?andb_false_r.
  - apply find_filter. intros a _ Hn. apply negb_true_iff. unfold plain_attribute, name_is in *.
    apply andb_true_iff in Hn as [-> Hn]. apply bool_decide_eq_true in Hn. simpl.
    apply bool_decide_eq_false. congruence.
Qed.

(** Names the policies do not look at. *)
Definition inert_names : list string := [DOCUMENT_SCROLL_X_ATTRIBUTE; DOCUMENT_SCROLL_Y_ATTRIBUTE].

Lemma inert_attribute m v : m ∈ inert_names ->
  is_event_attribute (html_attribute m v) = false /\ is_url_attribute (html_attribute m v) = false /\
  plain_attribute "id" (html_attribute m v) = false /\
  m ∉ ["id"; "type"; "http-equiv"; "rel"; REPAIR_MARKER_ATTRIBUTE].
Proof.
  intros Hm. apply elem_of_cons in Hm as [->|Hm]; [|apply list_elem_of_singleton in Hm as ->];
    (split_and!; [reflexivity..|by apply (bool_decide_unpack _)]).
Qed.

Lemma page_set_attribute name m v attrs :
  page_element name attrs -> m ∈ inert_names -> page_element name (set_attribute m v attrs).
Proof.
  intros P Hin. pose proof P as [[Ss Sr Sa Sb Sf Sl] Hp Hu Hm]. destruct (inert_attribute m v Hin) as (He & Hurl & Hid & Hno).
  assert (forall n, n ∈ ["id"; "type"; "http-equiv"; "rel"; REPAIR_MARKER_ATTRIBUTE] ->
            attribute_value (set_attribute m v attrs) n = attribute_value attrs n) as Hv.
  { intros n Hn. apply set_attribute_other. intros ->. by apply Hno. }
  assert (forall P : Attribute -> Prop, Forall P attrs -> P (html_attribute m v) -> Forall P (set_attribute m v attrs)) as Hall.
  { intros Q HP Hnew. apply Forall_app. split; [|by constructor].
    rewrite list.Forall_forall in HP |- *. intros a Ha. apply HP. apply list_elem_of_In, filter_In in Ha.
    apply list_elem_of_In. tauto. }
  split; [split|..]; unfold is_structured_metadata_script, is_meta_refresh, http_equiv_is, is_request_triggering_link,
    link_rel, reserved_id_valid in *; rewrite ?Hv by (by apply (bool_decide_unpack _)); try done.
  - intros i Hi Hres. by destruct (page_id _ _ _ P Hi).
  - apply Hall; [done|]. split; [done|]. unfold is_javascript_url_attribute. by rewrite Hurl.
  - apply Hall; [done|]. by rewrite Hid.
Qed.

Lemma update_attrs_walk d i f : tree_shaped d -> walk (update_attrs i f d) = walk d.
Proof.
  intros Sh. pose proof (update_attrs_pruned d i f) as P.
  eapply pre_functional; [apply walk_pre; by eapply pruned_shape|]. rewrite (pr_root _ _ _ _ P).
  pose proof (walk_pre d Sh) as Hpre. induction Hpre as [|j n rest l Hn Hpre IH]; [constructor|].
  econstructor; [by rewrite (pr_node _ _ _ _ P), Hn|].
  unfold successors in *. cbn [nd_children nd_data]. rewrite (pr_template _ _ _ _ P). rewrite filter_keeps by set_solver. done.
Qed.

Lemma update_attrs_element d i f j name attrs :
  element_at (update_attrs i f d) j = Some (name, attrs) ->
  exists old, element_at d j = Some (name, old) /\ attrs = (if decide (i = j) then f old else old).
Proof.
  unfold element_at, node_data. rewrite (pr_node _ _ _ _ (update_attrs_pruned d i f)).
  destruct (node d j) as [n|]; [|done]. simpl. intros He.
  destruct (decide (i = j)); destruct (nd_data n); simpl in He; simplify_eq; eauto.
Qed.

Lemma update_attrs_find d i f ns local : tree_shaped d -> find_element ns local (update_attrs i f d) = find_element ns local d.
Proof.
  intros Sh. unfold find_element. rewrite update_attrs_walk by done. apply find_ext. intros j _.
  unfold element_test, element_at, node_data. rewrite (pr_node _ _ _ _ (update_attrs_pruned d i f)).
  destruct (node d j) as [n|]; [|done]. simpl. by destruct (decide (i = j)); destruct (nd_data n).
Qed.

Section Encode.
Context `{HtmlParser} `{Scripts} `{Encodings} `{Hashing} `{UrlLib} `{Discovery} `{DataUrls} `{Floats}.

Abbreviation owned_element := (NodeId * QualName * list Attribute)%type.

(** A page with some owned elements in its head. *)
Record staged (h : NodeId) (owned : list owned_element) (d : Document) : Prop := {
  sg_shape : tree_shaped d;
  sg_head : find_html_element "head" d = Some h;
  sg_in : h ∈ walk d;
  sg_elements : forall j name attrs, j ∈ walk d -> element_at d j = Some (name, attrs) ->
    page_element name attrs \/ (j, name, attrs) ∈ owned;
  sg_owned : forall j name attrs, (j, name, attrs) ∈ owned ->
    j ∈ walk d /\ element_at d j = Some (name, attrs) /\ (node d j ≫= nd_parent) = Some h;
}.

Lemma staged_extend h owned c ins name attrs d d' kids :
  staged h owned d -> extended h c ins d d' -> c = node_count d ->
  node d' c = Some (MkNode (Some h) kids (NElement name attrs None false)) ->
  (forall j, below d' c j -> j <> c -> element_at d' j = None) ->
  (forall j, (node_count d <= j)%nat -> element_at d' j = None \/ j = c) ->
  name_is ns_html "head" name = false ->
  staged h ((c, name, attrs) :: owned) d'.
Proof.
  intros S E -> Hc Hbelow Hnew Hname. pose proof (sg_shape _ _ _ S) as Sh.
  assert (element_at d' (node_count d) = Some (name, attrs)) as Hce by (unfold element_at, node_data; by rewrite Hc).
  split.
  - exact (ex_shape _ _ _ _ _ E).
  - unfold find_html_element. rewrite (extended_find _ _ _ _ _ _ _ Sh E); [exact (sg_head _ _ _ S)|].
    intros j Hj. unfold element_test. destruct (Hnew j Hj) as [-> | ->]; [done|]. by rewrite Hce.
  - apply (ex_keep _ _ _ _ _ E), (sg_in _ _ _ S).
  - intros j nm at' Hj He. destruct (ex_walk _ _ _ _ _ E j Hj) as [Hold|[Hge Hb]].
    + rewrite (extended_element _ _ _ _ _ j E) in He by (by apply walk_known).
      destruct (sg_elements _ _ _ S j nm at' Hold He) as [?|?]; [by left|right; by apply elem_of_cons; right].
    + destruct (decide (j = node_count d)) as [->|Hne]; [|by rewrite Hbelow in He by done].
      right. apply elem_of_cons. left. congruence.
  - intros j nm at' [Hin|Hin]%elem_of_cons.
    + injection Hin as -> -> ->. split_and!; [exact (ex_top _ _ _ _ _ E)|done|by rewrite Hc].
    + destruct (sg_owned _ _ _ S j nm at' Hin) as (Hw & He & Hp). split_and!.
      * by apply (ex_keep _ _ _ _ _ E).
      * rewrite (extended_element _ _ _ _ _ j E); [done|]. by apply walk_known.
      * destruct (walk_known d j Sh Hw) as [n Hn]. rewrite (ex_old _ _ _ _ _ E j n Hn). by rewrite Hn in Hp.
Qed.

Lemma no_such_scripts h owned d f :
  staged h owned d -> (forall name attrs, page_element name attrs -> f name attrs = false) ->
  Forall (fun '(j, name, attrs) => f name attrs = false) owned -> walk_filter f d = [].
Proof.
  intros S Hp Ho. apply list_filter_false. intros j Hj. unfold element_test.
  destruct (element_at d j) as [[name attrs]|] eqn:He; [|done].
  destruct (sg_elements _ _ _ S j name attrs Hj He) as [P|Hin]; [auto|].
  rewrite list.Forall_forall in Ho. by apply (Ho (j, name, attrs)).
Qed.

Lemma one_such_script h owned d f c name attrs :
  staged h owned d -> (forall name attrs, page_element name attrs -> f name attrs = false) ->
  (c, name, attrs) ∈ owned -> f name attrs = true ->
  Forall (fun '(j, name, attrs) => j <> c -> f name attrs = false) owned -> walk_filter f d = [c].
Proof.
  intros S Hp Hc Hf Ho. destruct (sg_owned _ _ _ S c name attrs Hc) as (Hw & He & _).
  apply list_single; [apply NoDup_ListNoDup, List.NoDup_filter, NoDup_ListNoDup, walk_nodup, (sg_shape _ _ _ S)|].
  intros j. unfold walk_filter. rewrite list_elem_of_In, filter_In, <- list_elem_of_In. split.
  - intros [Hj Ht]. destruct (decide (j = c)) as [|Hne]; [done|]. exfalso.
    unfold element_test in Ht. destruct (element_at d j) as [[nm at']|] eqn:Hej; [|done].
    destruct (sg_elements _ _ _ S j nm at' Hj Hej) as [P|Hin]; [by rewrite Hp in Ht|].
    rewrite list.Forall_forall in Ho. specialize (Ho _ Hin). simpl in Ho. by rewrite Ho in Ht.
  - intros ->. split; [done|]. unfold element_test. by rewrite He.
Qed.

(** ** The steps of the encoder *)

Lemma policy_staged h csp d :
  staged h [] d -> Z.of_nat (node_count d) <= u32_max ->
  exists d', prepend_policy h csp d = Ok d' /\
    staged h [(node_count d, html_name "meta",
               [html_attribute "id" CSP_ELEMENT_ID; html_attribute "http-equiv" "Content-Security-Policy";
                html_attribute "content" csp])] d' /\
    node_count d' = S (node_count d) /\ exists n rest, node d' h = Some n /\ nd_children n = node_count d :: rest.
Proof.
  intros S Hr. set (x := NElement (html_name "meta")
    [html_attribute "id" CSP_ELEMENT_ID; html_attribute "http-equiv" "Content-Security-Policy";
     html_attribute "content" csp] None false).
  destruct (prepend_leaf x h d (sg_shape _ _ _ S) (sg_in _ _ _ S) eq_refl ltac:(done) Hr)
    as (d1 & d' & Hc & Hp & E & Hn & Hcount).
  exists d'. split_and!.
  - unfold prepend_policy. fold x. rewrite Hc. cbn [rbind]. exact Hp.
  - eapply (staged_extend h [] (node_count d) (cons (node_count d)) _ _ d d' []); [done|done|done|exact Hn| | |done].
    + intros j Hb Hne. by apply (below_leaf d' _ _ _ Hn eq_refl) in Hb.
    + intros j Hj. destruct (decide (j = node_count d)); [by right|left]. unfold element_at, node_data.
      destruct (node d' j) as [n1|] eqn:Hnj; [|done]. apply node_bound in Hnj. lia.
  - exact Hcount.
  - destruct (walk_known d h (sg_shape _ _ _ S) (sg_in _ _ _ S)) as [n Hnh].
    rewrite (ex_old _ _ _ _ _ E h n Hnh). rewrite decide_True by done. eexists _, _. done.
Qed.

Lemma script_staged h owned attrs text d :
  staged h owned d -> Z.of_nat (node_count d) < u32_max ->
  exists d', append_script h attrs text d = Ok d' /\
    staged h ((node_count d, html_name "script", attrs) :: owned) d' /\
    node_count d' = S (S (node_count d)) /\ text_contents d' (node_count d) = text /\
    (forall j name at', (j, name, at') ∈ owned -> text_contents d' j = text_contents d j) /\
    (forall n c rest, node d h = Some n -> nd_children n = c :: rest ->
       exists n' rest', node d' h = Some n' /\ nd_children n' = c :: rest').
Proof.
  intros S Hr. set (x := NElement (html_name "script") attrs None false). pose proof (sg_shape _ _ _ S) as Sh.
  destruct (append_with_text x text h d Sh (sg_in _ _ _ S) eq_refl ltac:(done) Hr)
    as (d1 & d2 & d3 & d' & Hc1 & Hc2 & Ha & Hp & E & Hn & Ht & Hcount).
  assert (forall j, (node_count d <= j)%nat -> element_at d' j = None \/ j = node_count d) as Hnew.
  { intros j Hj. destruct (decide (j = node_count d)); [by right|left]. unfold element_at, node_data.
    destruct (decide (j = Datatypes.S (node_count d))) as [->|]; [by rewrite Ht|].
    destruct (node d' j) as [n2|] eqn:Hnj; [|done]. apply node_bound in Hnj. lia. }
  exists d'. split_and!.
  - unfold append_script. fold x. rewrite Hc1. cbn [rbind]. rewrite Hc2. cbn [rbind]. rewrite Ha. exact Hp.
  - eapply (staged_extend h owned (node_count d) _ _ _ d d' [Datatypes.S (node_count d)]); [done|done|done|exact Hn| |done|done].
    intros j Hb Hne. destruct (Hnew j) as [|]; [|done|done].
    destruct (rtc_inv _ _ Hb) as [->|(k & (m & Hm & Hk) & Hkj)]; [done|]. rewrite Hn in Hm. injection Hm as <-.
    apply list_elem_of_singleton in Hk as ->. apply (below_leaf d' _ _ _ Ht eq_refl) in Hkj as ->. lia.
  - exact Hcount.
  - unfold text_contents. rewrite Hn. simpl. unfold node_data. by rewrite Ht.
  - intros j name at' Hj. destruct (sg_owned _ _ _ S j name at' Hj) as (Hw & _ & Hpar).
    destruct (walk_known d j Sh Hw) as [n Hnj]. unfold text_contents. rewrite (ex_old _ _ _ _ _ E j n Hnj), Hnj.
    cbn [nd_children].
    assert (j <> h) as Hjh.
    { intros ->. rewrite Hnj in Hpar. simpl in Hpar. by apply (parent_not_self d h n Sh Hnj). }
    rewrite decide_False by done. f_equal. apply list_omap_ext, Forall_Forall2_diag, list.Forall_forall.
    intros k Hk. destruct (shape_child d Sh j n k Hnj Hk) as (m & Hm & _). unfold node_data.
    by rewrite (ex_old _ _ _ _ _ E k m Hm), Hm.
  - intros n c rest Hnh Hch. rewrite (ex_old _ _ _ _ _ E h n Hnh), decide_True by done. eexists _, _. split; [done|].
    cbn [nd_children]. by rewrite Hch.
Qed.

Lemma scroll_staged h x y d :
  staged h [] d -> is_Some (find_html_element "html" d) ->
  exists d', set_document_scroll_state x y d = Ok d' /\ staged h [] d' /\ node_count d' = node_count d.
Proof.
  intros S [r Hr]. unfold set_document_scroll_state. rewrite Hr. cbn [ok_or rbind].
  set (f := fun attrs => set_attribute DOCUMENT_SCROLL_Y_ATTRIBUTE y (set_attribute DOCUMENT_SCROLL_X_ATTRIBUTE x attrs)).
  pose proof (find_some _ _ Hr) as [_ Hroot]. unfold element_test in Hroot.
  destruct (element_at d r) as [e|] eqn:Her; [|done]. cbn [ok_or rbind]. eexists. split; [done|].
  pose proof (sg_shape _ _ _ S) as Sh. pose proof (update_attrs_walk d r f Sh) as Hw. split.
  - split.
    + eapply pruned_shape; [apply update_attrs_pruned|done].
    + unfold find_html_element. rewrite update_attrs_find by done. exact (sg_head _ _ _ S).
    + rewrite Hw. exact (sg_in _ _ _ S).
    + intros j name attrs Hj He. rewrite Hw in Hj. left.
      apply update_attrs_element in He as (at' & He & ->).
      destruct (sg_elements _ _ _ S j name at' Hj He) as [P|Hin]; [|by apply elem_of_nil in Hin].
      destruct (decide (r = j)); [|done]. apply page_set_attribute; [|by apply (bool_decide_unpack _)].
      apply page_set_attribute; [done|by apply (bool_decide_unpack _)].
    + intros j name attrs Hin. by apply elem_of_nil in Hin.
  - apply same_domain_count. intros i. rewrite (pr_node _ _ _ _ (update_attrs_pruned d r f)). by rewrite fmap_is_Some.
Qed.

(** ** The whole encoder *)

Abbreviation policy_attributes csp :=
  [html_attribute "id" CSP_ELEMENT_ID; html_attribute "http-equiv" "Content-Security-Policy";
   html_attribute "content" csp].
Abbreviation manifest_attributes :=
  [html_attribute "id" MANIFEST_ELEMENT_ID; html_attribute "type" MANIFEST_MEDIA_TYPE].
Abbreviation state_attributes := [html_attribute "id" STATE_SCRIPT_ELEMENT_ID].

(** The pages the encoder is given. *)
Record encodable (d : Document) : Prop := {
  en_shape : tree_shaped d;
  en_elements : forall j name attrs, j ∈ walk d -> element_at d j = Some (name, attrs) -> page_element name attrs;
  en_html : is_Some (find_html_element "html" d);
  en_head : is_Some (find_html_element "head" d);
  en_room : Z.of_nat (node_count d) + 5 <= u32_max;
}.

(** What the encoder leaves: the page with three elements in its head. *)
Record encoded (m : ArtifactManifest) (json : string) (h c : NodeId) (d' : Document) : Prop := {
  ed_staged : staged h
    [(S (S (S c)), html_name "script", state_attributes); (S c, html_name "script", manifest_attributes);
     (c, html_name "meta", policy_attributes (content_security_policy m))] d';
  ed_manifest : text_contents d' (S c) = escape_script_data json;
  ed_state : text_contents d' (S (S (S c))) = STATE_RESTORATION_SCRIPT;
  ed_first : exists n rest, node d' h = Some n /\ nd_children n = c :: rest;
}.

Lemma page_not_state name attrs : page_element name attrs -> state_script name attrs = false.
Proof.
  intros P. unfold state_script. destruct (existsb _ attrs) eqn:E; [|by rewrite andb_false_r].
  apply existsb_exists in E as (a & Ha & [Hp Hv]%andb_true_iff). apply bool_decide_eq_true in Hv.
  pose proof (pe_unowned _ _ P) as U. rewrite list.Forall_forall in U. apply list_elem_of_In in Ha.
  destruct (U a Ha Hp). rewrite Hv. by apply (bool_decide_unpack _).
Qed.

Lemma page_no_metadata name attrs : page_element name attrs -> existing_metadata name attrs = false.
Proof.
  intros P. unfold existing_metadata. rewrite (pe_policy _ _ P), orb_false_r.
  pose proof (page_not_owned name attrs MANIFEST_ELEMENT_ID None P ltac:(by apply (bool_decide_unpack _))) as Hn.
  unfold owned_script in Hn. by rewrite andb_true_r in Hn.
Qed.

Lemma encodable_staged d h : encodable d -> find_html_element "head" d = Some h -> staged h [] d.
Proof.
  intros E Hh. split.
  - exact (en_shape _ E).
  - done.
  - apply find_some in Hh as [Hh _]. by apply list_elem_of_In.
  - intros j name attrs Hj He. left. by apply (en_elements _ E j).
  - intros j name attrs Hin. by apply elem_of_nil in Hin.
Qed.

Lemma encode_document_encoded d m json :
  encodable d -> is_complete (am_resources m) = true -> manifest_to_json m = Some json ->
  exists h c d', encode_document d m = Ok d' /\ encoded m json h c d'.
Proof.
  intros E Hm Hj. destruct (en_head _ E) as [h Hh]. pose proof (en_room _ E) as Hroom.
  pose proof (encodable_staged d h E Hh) as S0.
  unfold encode_document. rewrite Hm. cbn [negb].
  unfold remove_existing_artifact_metadata.
  rewrite (no_such_scripts h [] d _ S0 page_no_metadata (List.Forall_nil _)). cbn [detach_all fold_left].
  destruct (scroll_staged h (vs_scroll_x (am_view_state m)) (vs_scroll_y (am_view_state m)) d S0 (en_html _ E))
    as (d1 & -> & S1 & N1). cbn [rbind].
  rewrite (sg_head _ _ _ S1). cbn [ok_or rbind].
  destruct (policy_staged h (content_security_policy m) d1 S1 ltac:(lia)) as (d2 & -> & S2 & N2 & n & rest & Hn & Hfirst).
  cbn [rbind]. rewrite Hj. cbn [ok_or rbind].
  destruct (script_staged h _ manifest_attributes (escape_script_data json) d2 S2 ltac:(lia))
    as (d3 & -> & S3 & N3 & T3 & _ & F3). cbn [rbind].
  unfold apply_state_restoration.
  rewrite (no_such_scripts h _ d3 state_script S3 page_not_state ltac:(repeat constructor)).
  cbn [detach_all fold_left]. rewrite (sg_head _ _ _ S3). cbn [ok_or rbind].
  destruct (script_staged h _ state_attributes STATE_RESTORATION_SCRIPT d3 S3 ltac:(lia))
    as (d4 & -> & S4 & N4 & T4 & O4 & F4).
  exists h, (node_count d1), d4. split; [done|]. rewrite N3, N2 in S4, T4. rewrite N2 in O4, T3.
  destruct (F3 n _ rest Hn Hfirst) as (n' & rest' & Hn' & Hfirst').
  split; [exact S4| |exact T4|exact (F4 n' _ rest' Hn' Hfirst')].
  rewrite (O4 (S (node_count d1)) (html_name "script") manifest_attributes); [done|by apply elem_of_cons; left].
Qed.

(** ** The verifier on the encoded document *)

#[local] Ltac reserved := by apply (bool_decide_unpack _).
#[local] Ltac known_member := repeat (first [by apply elem_of_cons; left | apply elem_of_cons; right]).

Section Encoded.
Context (m : ArtifactManifest) (json : string) (h c : NodeId) (d' : Document).
Hypothesis E : encoded m json h c d'.

Lemma encoded_element j name attrs :
  (j, name, attrs) ∈ [(S (S (S c)), html_name "script", state_attributes); (S c, html_name "script", manifest_attributes);
     (c, html_name "meta", policy_attributes (content_security_policy m))] ->
  j ∈ walk d' /\ element_at d' j = Some (name, attrs) /\ (node d' j ≫= nd_parent) = Some h.
Proof. exact (sg_owned _ _ _ (ed_staged _ _ _ _ _ E) j name attrs). Qed.

Lemma encoded_manifest :
  manifest_from_json (escape_script_data json) = Some m -> validate_manifest m = Ok tt -> inspect_document d' = Ok m.
Proof.
  intros Hj Hm. unfold inspect_document, matching_scripts.
  rewrite (one_such_script h _ d' _ (S c) (html_name "script") manifest_attributes (ed_staged _ _ _ _ _ E)
    (fun name attrs P => page_not_owned name attrs MANIFEST_ELEMENT_ID (Some MANIFEST_MEDIA_TYPE) P ltac:(reserved))
    ltac:(known_member) eq_refl ltac:(repeat constructor; congruence)).
  destruct (encoded_element (S c) (html_name "script") manifest_attributes ltac:(known_member)) as (_ & He & Hp).
  rewrite Hp, (sg_head _ _ _ (ed_staged _ _ _ _ _ E)). unfold attribute_count. rewrite He. cbn [mbind option_bind length].
  rewrite bool_decide_eq_false_2 by (intros X; by apply X). rewrite bool_decide_eq_true_2 by done. cbn [is_none orb negb].
  rewrite (ed_manifest _ _ _ _ _ E), Hj. cbn [ok_or rbind]. by rewrite Hm.
Qed.

Lemma encoded_state : validate_state_restoration d' = Ok true.
Proof.
  unfold validate_state_restoration, matching_scripts.
  rewrite (one_such_script h _ d' _ (S (S (S c))) (html_name "script") state_attributes (ed_staged _ _ _ _ _ E)
    (fun name attrs P => page_not_owned name attrs STATE_SCRIPT_ELEMENT_ID None P ltac:(reserved))
    ltac:(known_member) eq_refl ltac:(repeat constructor; congruence)).
  destruct (encoded_element (S (S (S c))) (html_name "script") state_attributes ltac:(known_member)) as (_ & He & Hp).
  unfold attribute_count, is_direct_head_child. rewrite He, Hp, (sg_head _ _ _ (ed_staged _ _ _ _ _ E)).
  cbn [mbind option_bind length]. rewrite !bool_decide_eq_true_2 by done. cbn [negb orb].
  rewrite (ed_state _ _ _ _ _ E). rewrite !bool_decide_eq_false_2; [done|intros X; by apply X..].
Qed.

Lemma encoded_policy : validate_csp d' m true = Ok tt.
Proof.
  unfold validate_csp. rewrite (sg_head _ _ _ (ed_staged _ _ _ _ _ E)).
  destruct (encoded_element c (html_name "meta") (policy_attributes (content_security_policy m)) ltac:(known_member))
    as (Hw & He & Hp).
  rewrite (omap_single (policy_content d') (walk d') c (c, content_security_policy m)).
  - rewrite Hp. destruct (ed_first _ _ _ _ _ E) as (n & rest & Hn & Hf). rewrite Hn. cbn [mbind option_bind]. rewrite Hf.
    cbn [hd_error]. by rewrite !bool_decide_eq_true_2.
  - apply walk_nodup, (sg_shape _ _ _ (ed_staged _ _ _ _ _ E)).
  - done.
  - unfold policy_content. rewrite He. reflexivity.
  - intros j Hj Hne. unfold policy_content. destruct (element_at d' j) as [[name attrs]|] eqn:Hej; [|done].
    cbn [mbind option_bind].
    destruct (sg_elements _ _ _ (ed_staged _ _ _ _ _ E) j name attrs Hj Hej) as [P|Hin].
    + by rewrite (pe_policy _ _ P), andb_false_r.
    + repeat (apply elem_of_cons in Hin as [[= -> -> ->]|Hin]); [done|done|done|by apply elem_of_nil in Hin].
Qed.

Lemma encoded_active : validate_active_content d' = Ok tt.
Proof.
  apply active_content_ok. intros j name attrs Hj He.
  destruct (sg_elements _ _ _ (ed_staged _ _ _ _ _ E) j name attrs Hj He) as [P|Hin]; [exact (pe_static _ _ P)|].
  apply active_element_ok.
  repeat (apply elem_of_cons in Hin as [[= -> -> ->]|Hin]); [reflexivity..|by apply elem_of_nil in Hin].
Qed.

Lemma encoded_unrepaired : validate_structural_repair d' m = Ok false.
Proof.
  unfold validate_structural_repair, matching_scripts.
  rewrite (no_such_scripts h _ d' _ (ed_staged _ _ _ _ _ E)
    (fun name attrs P => page_not_owned name attrs REPAIR_DATA_ELEMENT_ID (Some REPAIR_MEDIA_TYPE) P ltac:(reserved))
    ltac:(repeat constructor)).
  rewrite (no_such_scripts h _ d' _ (ed_staged _ _ _ _ _ E)
    (fun name attrs P => page_not_owned name attrs REPAIR_SCRIPT_ELEMENT_ID None P ltac:(reserved))
    ltac:(repeat constructor)).
  destruct (existsb _ (walk d')) eqn:Hx; [|done]. apply existsb_exists in Hx as (j & Hj & Ht). exfalso.
  apply list_elem_of_In in Hj. unfold element_test in Ht. destruct (element_at d' j) as [[name attrs]|] eqn:He; [|done].
  unfold has_marker in Ht.
  destruct (sg_elements _ _ _ (ed_staged _ _ _ _ _ E) j name attrs Hj He) as [P|Hin]; [by rewrite (pe_unmarked _ _ P) in Ht|].
  repeat (apply elem_of_cons in Hin as [[= -> -> ->]|Hin]); [done..|by apply elem_of_nil in Hin].
Qed.
End Encoded.

End Encode.

(** ** A sample page, encoded *)

Import DomSamples.
Import VerifySamples.


Definition page_check (name : QualName) (attrs : list Attribute) : bool :=
  is_ok (validate_active_element name attrs)
  && negb (http_equiv_is "content-security-policy" name attrs)
  && forallb (fun a => negb (plain_attribute "id" a) || negb (bool_decide (at_value a ∈ RESERVED_IDS))) attrs
  && negb (is_some (attribute_value attrs REPAIR_MARKER_ATTRIBUTE)).

Lemma page_check_sound name attrs : page_check name attrs = true -> page_element name attrs.
Proof.
  unfold page_check. intros H. bool_facts. split.
  - apply active_element_ok. by destruct (validate_active_element name attrs) as [[]|].
  - done.
  - apply list.Forall_forall. intros a Ha Hid. rewrite forallb_forall in H1.
    specialize (H1 a (proj1 (list_elem_of_In _ _) Ha)). rewrite Hid in H1. simpl in H1.
    apply negb_true_iff, bool_decide_eq_false in H1. done.
  - by destruct (attribute_value attrs REPAIR_MARKER_ATTRIBUTE).
Qed.

Definition encodable_check (rank : list nat) (d : Document) : bool :=
  tree_check rank d
  && forallb (fun j => match element_at d j with Some (name, attrs) => page_check name attrs | None => true end) (walk d)
  && is_some (find_html_element "html" d) && is_some (find_html_element "head" d)
  && (Z.of_nat (node_count d) + 5 <=? u32_max).

Lemma encodable_check_sound rank d : encodable_check rank d = true -> encodable d.
Proof.
  unfold encodable_check. intros H. apply andb_prop in H as [[[[Ht Hf]%andb_prop Hh]%andb_prop Hd]%andb_prop Hr].
  split.
  - by eapply tree_check_sound.
  - intros j name attrs Hj He. apply page_check_sound. rewrite forallb_forall in Hf.
    specialize (Hf j (proj1 (list_elem_of_In _ _) Hj)). by rewrite He in Hf.
  - by destruct (find_html_element "html" d).
  - by destruct (find_html_element "head" d).
  - by apply Z.leb_le.
Qed.

Definition page_calls : list SinkCall :=
  [ element "html" [("lang", "en")]; Append 0 (AppendNode 1);
    element "head" []; Append 1 (AppendNode 2);
    element "title" []; Append 2 (AppendNode 3); Append 3 (AppendText "A page");
    element "body" [("id", "top")]; Append 1 (AppendNode 5);
    element "script" [("type", "application/ld+json")]; Append 5 (AppendNode 6) ].

Definition static_page : Document := sink_calls page_calls sink_new.

