(* ===== verification/TransformFacts.v ===== *)
(** * The safe-static transformation

    The styles that freeze the rendering reach the head and every declarative
    shadow root, and the document of a transformation is static, frame owners
    included. *)

From Stdlib Require Import ZArith Lia Ascii String.
From stdpp Require Import base tactics list gmap strings numbers relations.
From S2P Require Import Prelude.
From S2P Require Import Errors.
From S2P Require Import Records.
From S2P Require Import Dom.
From S2P Require Import DomFacts.
From S2P Require Import Sanitize.
From S2P Require Import SanitizeFacts.
From S2P Require Import Sink.
From S2P Require Import SinkFacts.
From S2P Require Import Serialize.
From S2P Require Import Html.
From S2P Require Import Frames.
From S2P Require Import DomExtend.
From S2P Require Import VerifyFacts.

#[local] Open Scope string_scope.
#[local] Open Scope list_scope.
#[local] Open Scope Z_scope.

(** ** Adding styles *)

Definition freeze_style : NodeData := NElement (html_name "style") [html_attribute FREEZE_ATTRIBUTE ""] None false.

(** [d'] is [d] with styles at the end of some of its nodes. *)
Record styled (d d' : Document) : Prop := {
  sy_shape : tree_shaped d';
  sy_old : forall j n, node d j = Some n ->
    exists extra, node d' j = Some (MkNode (nd_parent n) (nd_children n ++ extra) (nd_data n));
  sy_keep : forall j, j ∈ walk d -> j ∈ walk d';
  sy_new : forall j, j ∈ walk d' -> j ∈ walk d \/ element_at d' j = None \/ node_data d' j = Some freeze_style;
  sy_find : forall ns local, local <> "style" -> find_element ns local d' = find_element ns local d;
}.

Lemma styled_refl d : tree_shaped d -> styled d d.
Proof.
  intros Sh. split; auto. intros j n Hn. exists []. rewrite app_nil_r. by destruct n.
Qed.

Lemma styled_data d d' j : styled d d' -> is_Some (node d j) -> node_data d' j = node_data d j.
Proof. intros Sy [n Hn]. destruct (sy_old _ _ Sy j n Hn) as [extra E]. unfold node_data. by rewrite E, Hn. Qed.

Lemma styled_trans d d1 d2 : tree_shaped d1 -> styled d d1 -> styled d1 d2 -> styled d d2.
Proof.
  intros S1 A B. split.
  - apply B.
  - intros j n Hn. destruct (sy_old _ _ A j n Hn) as [e1 H1]. destruct (sy_old _ _ B j _ H1) as [e2 H2].
    exists (e1 ++ e2). rewrite app_assoc. exact H2.
  - intros j Hj. by apply (sy_keep _ _ B), (sy_keep _ _ A).
  - intros j Hj. destruct (sy_new _ _ B j Hj) as [H1|H1]; [|by right].
    unfold element_at. rewrite (styled_data _ _ j B) by (by apply walk_known).
    destruct (sy_new _ _ A j H1) as [H2|H2]; [by left|by right].
  - intros ns local Hne. by rewrite (sy_find _ _ B), (sy_find _ _ A).
Qed.

Lemma create_node_room x d id d' : create_node x d = Ok (id, d') -> Z.of_nat (node_count d) <= u32_max.
Proof.
  unfold create_node, try_from. destruct (_ && _) eqn:E; [|done]. intros _. apply andb_prop in E as [_ E].
  by apply Z.leb_le.
Qed.

(** An element with a text that was appended. *)
Lemma appended_with_text x text p d d' :
  tree_shaped d -> p ∈ walk d -> template_of x = None -> x <> NDocument ->
  rbind (create_node x d) (fun '(e, d) => rbind (create_node (NText text) d) (fun '(t, d) =>
    rbind (append_child e t d) (fun d => append_child p e d))) = Ok d' ->
  extended p (node_count d) (fun l => l ++ [node_count d]) d d' /\
  node d' (node_count d) = Some (MkNode (Some p) [S (node_count d)] x) /\
  node d' (S (node_count d)) = Some (MkNode (Some (node_count d)) [] (NText text)) /\
  node_count d' = S (S (node_count d)).
Proof.
  intros Sh Hp Ht Hx ([e d1] & H1 & ([t d2] & H2 & R)%rbind_ok)%rbind_ok.
  assert (Z.of_nat (node_count d) < u32_max) as Hr.
  { apply create_node_room in H2. apply create_node_inv in H1 as [_ ->]. unfold node_count in *. simpl in H2.
    rewrite length_app in H2. simpl in H2. lia. }
  destruct (append_with_text x text p d Sh Hp Ht Hx Hr) as (e1 & e2 & e3 & e4 & E1 & E2 & E3 & E4 & Hext & Hn & Htx & Hc).
  rewrite E1 in H1. injection H1 as <- <-. rewrite E2 in H2. injection H2 as <- <-.
  rewrite E3 in R. simpl in R. rewrite E4 in R. injection R as <-. auto.
Qed.

Lemma below_pair d c k n m j :
  node d c = Some n -> successors n = [k] -> node d k = Some m -> successors m = [] -> below d c j -> j = c \/ j = k.
Proof.
  intros Hn Hs Hm Hs' Hb. destruct (rtc_inv _ _ Hb) as [->|(i & (n' & Hn' & Hi) & Hij)]; [by left|]. simplify_eq.
  rewrite Hs in Hi. apply list_elem_of_singleton in Hi as ->. right. by eapply below_leaf.
Qed.

Lemma append_freeze_styled p d d' :
  tree_shaped d -> p ∈ walk d -> append_freeze_style p d = Ok d' ->
  styled d d' /\ has_direct_freeze_style d' p = true.
Proof.
  intros Sh Hp H. apply (appended_with_text freeze_style FREEZE_CSS p d d' Sh Hp eq_refl ltac:(done)) in H
    as (E & Hn & Ht & Hc).
  assert (forall j, (node_count d <= j)%nat -> element_at d' j = None \/ j = node_count d) as Hnew.
  { intros j Hj. destruct (decide (j = node_count d)); [by right|left]. unfold element_at, node_data.
    destruct (decide (j = S (node_count d))) as [->|]; [by rewrite Ht|].
    destruct (node d' j) as [n'|] eqn:Hnj; [|done]. apply node_bound in Hnj. lia. }
  split; [split|].
  - apply E.
  - intros j n Hj. rewrite (ex_old _ _ _ _ _ E j n Hj). destruct (decide (j = p)); [by eexists|].
    exists []. by rewrite app_nil_r.
  - apply E.
  - intros j Hj. destruct (ex_walk _ _ _ _ _ E j Hj) as [|[Hge _]]; [by left|right].
    destruct (Hnew j Hge) as [| ->]; [by left|right]. unfold node_data. by rewrite Hn.
  - intros ns local Hne. apply (extended_find _ _ _ _ _ _ _ Sh E). intros j Hj. unfold element_test.
    destruct (Hnew j Hj) as [-> | ->]; [done|]. unfold element_at, node_data. rewrite Hn. simpl.
    unfold name_is. simpl. rewrite (bool_decide_eq_false_2 ("style" = local)) by done. by rewrite andb_false_r.
  - destruct (walk_known d p Sh Hp) as [np Hnp]. unfold has_direct_freeze_style.
    rewrite (ex_old _ _ _ _ _ E p np Hnp), decide_True by done. cbn [nd_children]. rewrite existsb_app.
    apply orb_true_iff. right. simpl. unfold element_test, element_at, node_data. by rewrite Hn.
Qed.

Lemma styled_has d d' p :
  tree_shaped d -> styled d d' -> is_Some (node d p) -> has_direct_freeze_style d p = true -> has_direct_freeze_style d' p = true.
Proof.
  intros Sh Sy [n Hn] H. destruct (sy_old _ _ Sy p n Hn) as [extra E]. unfold has_direct_freeze_style in *.
  rewrite E. rewrite Hn in H. cbn [nd_children]. rewrite existsb_app. apply orb_true_iff. left.
  apply existsb_exists in H as (c & Hc & Ht). apply existsb_exists. exists c. split; [done|].
  apply list_elem_of_In in Hc. destruct (shape_child d Sh p n c Hn Hc) as (m & Hm & _).
  unfold element_test, element_at in *. by rewrite (styled_data d d' c Sy) by eauto.
Qed.

Lemma ensure_freeze_styled d p d' :
  tree_shaped d -> p ∈ walk d -> ensure_freeze_style d p = Ok d' -> styled d d' /\ has_direct_freeze_style d' p = true.
Proof.
  intros Sh Hp. unfold ensure_freeze_style. destruct (has_direct_freeze_style d p) eqn:E.
  - intros [= <-]. split; [by apply styled_refl|done].
  - by apply append_freeze_styled.
Qed.

Lemma fold_freeze_styled ids d d' :
  tree_shaped d -> ids ⊆ walk d -> fold_document ensure_freeze_style ids d = Ok d' ->
  styled d d' /\ Forall (fun p => has_direct_freeze_style d' p = true) ids.
Proof.
  revert d. induction ids as [|p ids IH]; intros d Sh Hsub H; simpl in H.
  - injection H as <-. split; [by apply styled_refl|constructor].
  - apply rbind_ok in H as (d1 & H1 & H2).
    assert (p ∈ walk d) as Hp by set_solver.
    apply ensure_freeze_styled in H1 as [Sy1 Hp1]; [|done|done].
    apply IH in H2 as [Sy2 Hall]; [|apply Sy1|intros j Hj; apply Sy1; set_solver].
    split; [by apply (styled_trans d d1 d' (sy_shape _ _ Sy1))|]. constructor; [|done].
    apply (styled_has d1); [apply Sy1|done| |done]. apply walk_known; [apply Sy1|]. by apply (sy_keep _ _ Sy1).
Qed.

(** ** Freezing *)

Definition freeze_parent (d : Document) : option NodeId :=
  match find_html_element "head" d with Some h => Some h | None => find_html_element "html" d end.

Lemma freeze_parent_walked d p : freeze_parent d = Some p -> p ∈ walk d.
Proof.
  unfold freeze_parent. destruct (find_html_element "head" d) as [h|] eqn:E.
  - intros [= <-]. apply find_some in E as [E _]. by apply list_elem_of_In.
  - intros E'. apply find_some in E' as [E' _]. by apply list_elem_of_In.
Qed.

Lemma elem_of_shadow_roots d c :
  c ∈ shadow_roots d <-> exists j name attrs m, j ∈ walk d /\ node_data d j = Some (NElement name attrs (Some c) m) /\
    name_is ns_html "template" name = true /\ is_Some (attribute_value attrs "shadowrootmode").
Proof.
  unfold shadow_roots. rewrite list_elem_of_omap. split.
  - intros (j & Hj & H). destruct (node_data d j) as [[| | | |name attrs [t|] m|]|] eqn:E; try done.
    destruct (name_is ns_html "template" name) eqn:En; [|done].
    destruct (attribute_value attrs "shadowrootmode") eqn:Ea; [|done]. injection H as <-.
    exists j, name, attrs, m. rewrite Ea. eauto.
  - intros (j & name & attrs & m & Hj & E & En & [v Ea]). exists j. rewrite E, En, Ea. done.
Qed.

Lemma shadow_root_walked d c : tree_shaped d -> c ∈ shadow_roots d -> c ∈ walk d.
Proof.
  intros Sh (j & name & attrs & m & Hj & E & _)%elem_of_shadow_roots.
  destruct (walk_known d j Sh Hj) as [n Hn]. apply (children_walked d j n c Sh Hj Hn), elem_of_successors. left.
  unfold node_data in E. rewrite Hn in E. injection E as E. by rewrite E.
Qed.

Lemma styled_shadow_roots d d' c : tree_shaped d -> styled d d' -> c ∈ shadow_roots d' <-> c ∈ shadow_roots d.
Proof.
  intros Sh Sy. rewrite !elem_of_shadow_roots. split; intros (j & name & attrs & m & Hj & E & R).
  - destruct (sy_new _ _ Sy j Hj) as [Hold|[Hn|Hn]].
    + exists j, name, attrs, m. rewrite <- (styled_data d d' j Sy) by (by apply walk_known). done.
    + unfold element_at in Hn. by rewrite E in Hn.
    + unfold freeze_style in Hn. congruence.
  - exists j, name, attrs, m. rewrite (styled_data d d' j Sy) by (by apply walk_known). split; [by apply Sy|done].
Qed.

(** The rendering of a document is stopped: in its head, or in its root when it
    has none, and in each shadow tree. *)
Definition rendering_frozen (d : Document) : Prop :=
  (exists p, freeze_parent d = Some p /\ has_direct_freeze_style d p = true) /\
  forall c, c ∈ shadow_roots d -> has_direct_freeze_style d c = true.

Lemma ensure_render_styled d d' :
  tree_shaped d -> ensure_render_freeze_styles d = Ok d' -> styled d d' /\ rendering_frozen d'.
Proof.
  intros Sh H. unfold ensure_render_freeze_styles in H. change (match find_html_element "head" d with
    | Some h => Some h | None => find_html_element "html" d end) with (freeze_parent d) in H.
  apply rbind_ok in H as (p & Hp & (d1 & H1 & H2)%rbind_ok).
  destruct (freeze_parent d) as [p'|] eqn:Ep; [|done]. injection Hp as ->. pose proof (freeze_parent_walked d p Ep) as Hw.
  apply ensure_freeze_styled in H1 as [Sy1 Hp1]; [|done|done]. pose proof (sy_shape _ _ Sy1) as S1.
  apply fold_freeze_styled in H2 as [Sy2 Hall]; [|done|intros c; by apply shadow_root_walked].
  pose proof (styled_trans d d1 d' S1 Sy1 Sy2) as Sy. split; [done|]. split.
  - exists p. split.
    + unfold freeze_parent, find_html_element in *. by rewrite !(sy_find _ _ Sy) by done.
    + apply (styled_has d1); [done|done| |done]. by apply walk_known, (sy_keep _ _ Sy1).
  - intros c Hc. rewrite list.Forall_forall in Hall. apply Hall. by apply (styled_shadow_roots d1 d').
Qed.

Lemma frozen_again d : rendering_frozen d -> ensure_render_freeze_styles d = Ok d.
Proof.
  intros [(p & Hp & Hs) Hall]. unfold ensure_render_freeze_styles. change (match find_html_element "head" d with
    | Some h => Some h | None => find_html_element "html" d end) with (freeze_parent d).
  rewrite Hp. simpl. unfold ensure_freeze_style at 1. rewrite Hs. simpl.
  assert (forall ids, (forall c, c ∈ ids -> has_direct_freeze_style d c = true) ->
    fold_document ensure_freeze_style ids d = Ok d) as Hfold; [|by apply Hfold].
  induction ids as [|c ids IH]; intros Hids; [done|]. simpl. unfold ensure_freeze_style at 1. rewrite Hids by set_solver.
  simpl. apply IH. intros c' Hc'. apply Hids. set_solver.
Qed.

(** *** With room for the styles *)

Lemma ensure_freeze_ok d p :
  tree_shaped d -> p ∈ walk d -> Z.of_nat (node_count d) < u32_max ->
  exists d', ensure_freeze_style d p = Ok d' /\ (node_count d' <= 2 + node_count d)%nat.
Proof.
  intros Sh Hp Hr. unfold ensure_freeze_style. destruct (has_direct_freeze_style d p); [eauto with lia|].
  destruct (append_with_text freeze_style FREEZE_CSS p d Sh Hp eq_refl ltac:(done) Hr)
    as (d1 & d2 & d3 & d' & H1 & H2 & H3 & H4 & _ & _ & _ & Hc).
  exists d'. split; [|lia]. unfold append_freeze_style. change (NElement _ _ _ _) with freeze_style.
  rewrite H1. simpl. rewrite H2. simpl. rewrite H3. exact H4.
Qed.

Lemma fold_freeze_ok ids d :
  tree_shaped d -> ids ⊆ walk d -> Z.of_nat (node_count d) + 2 * Z.of_nat (length ids) <= u32_max ->
  exists d', fold_document ensure_freeze_style ids d = Ok d'.
Proof.
  revert d. induction ids as [|p ids IH]; intros d Sh Hsub Hr; [by exists d|]. cbn [length fold_document] in *.
  destruct (ensure_freeze_ok d p Sh ltac:(set_solver) ltac:(lia)) as (d1 & H1 & Hc). rewrite H1. simpl.
  destruct (ensure_freeze_styled d p d1 Sh ltac:(set_solver) H1) as [Sy _].
  apply IH; [apply Sy|intros j Hj; apply Sy; set_solver|lia].
Qed.

Lemma length_omap_le {A B} (f : A -> option B) l : (length (omap f l) <= length l)%nat.
Proof.
  induction l as [|x l IH]; [done|].
  change (omap f (x :: l)) with (match f x with Some y => y :: omap f l | None => omap f l end).
  destruct (f x); cbn [length]; lia.
Qed.

Lemma walk_length d : tree_shaped d -> (length (walk d) <= node_count d)%nat.
Proof.
  intros Sh. rewrite <- (length_seq (node_count d) 0). apply NoDup_incl_length.
  - apply NoDup_ListNoDup, walk_nodup, Sh.
  - intros j Hj. apply in_seq. apply list_elem_of_In in Hj. destruct (walk_known d j Sh Hj) as [n Hn%node_bound]. lia.
Qed.

Lemma ensure_render_ok d p :
  tree_shaped d -> freeze_parent d = Some p -> 3 * Z.of_nat (node_count d) + 6 <= u32_max ->
  exists d', ensure_render_freeze_styles d = Ok d'.
Proof.
  intros Sh Hp Hr. unfold ensure_render_freeze_styles. change (match find_html_element "head" d with
    | Some h => Some h | None => find_html_element "html" d end) with (freeze_parent d). rewrite Hp. simpl.
  pose proof (freeze_parent_walked d p Hp) as Hw.
  destruct (ensure_freeze_ok d p Sh Hw ltac:(lia)) as (d1 & H1 & Hc). rewrite H1. simpl.
  destruct (ensure_freeze_styled d p d1 Sh Hw H1) as [Sy _]. pose proof (sy_shape _ _ Sy) as S1.
  apply fold_freeze_ok; [done|intros c; by apply shadow_root_walked|].
  pose proof (walk_length d1 S1). pose proof (length_omap_le (fun id => match node_data d1 id with
      | Some (NElement name attrs (Some contents) _) =>
          if name_is ns_html "template" name
             && match attribute_value attrs "shadowrootmode" with Some _ => true | None => false end
          then Some contents else None
      | _ => None
      end) (walk d1)) as Hl. fold (shadow_roots d1) in Hl. lia.
Qed.

(** Freezing reaches everything that renders by itself. With room for the
    styles it succeeds on every document with a head or a root, and then the
    head (the root when there is no head) and the content of every declarative
    shadow root have a style of their own, the nodes there were stay where they
    are with their data, nothing but styles and their texts is added, and a
    second run changes nothing. *)
Theorem freezing_complete d p :
  tree_shaped d -> freeze_parent d = Some p -> 3 * Z.of_nat (node_count d) + 6 <= u32_max ->
  exists d', ensure_render_freeze_styles d = Ok d' /\
    rendering_frozen d' /\ styled d d' /\ ensure_render_freeze_styles d' = Ok d'.
Proof.
  intros Sh Hp Hr. destruct (ensure_render_ok d p Sh Hp Hr) as [d' H]. exists d'.
  destruct (ensure_render_styled d d' Sh H) as [Sy F]. auto using frozen_again.
Qed.

(** ** Detaching *)

Lemma detach_all_sub ids d :
  tree_shaped d -> Forall (fun i => is_Some (element_at d i)) ids ->
  tree_shaped (detach_all ids d) /\ (forall j, j ∈ walk (detach_all ids d) -> j ∈ walk d) /\
  (forall j, node_data (detach_all ids d) j = node_data d j).
Proof.
  revert d. induction ids as [|i ids IH]; intros d Sh He; [done|].
  apply Forall_cons_iff in He as [Hi He]. cbn [detach_all fold_left]. fold (detach_all ids (detach i d)).
  assert (pruned {[i]} (fun _ x => x) d (detach i d)) as P by (by apply detach_pruned).
  assert (forall j, node_data (detach i d) j = node_data d j) as Hd.
  { intros j. rewrite (pruned_data _ _ _ _ _ P). by destruct (node_data d j). }
  destruct (IH (detach i d)) as (S' & W & D).
  - by eapply pruned_shape.
  - eapply Forall_impl; [exact He|]. intros j. unfold element_at. by rewrite Hd.
  - split_and!; [done| |].
    + intros j Hj%W. eapply pruned_walk in Hj as [? _]; [done|exact P|done|].
      intros c ->%elem_of_singleton. done.
    + intros j. by rewrite D, Hd.
Qed.

Lemma matching_elements id media d : Forall (fun i => is_Some (element_at d i)) (matching_scripts id media d).
Proof.
  apply list.Forall_forall. intros j Hj. apply list_elem_of_In, filter_In in Hj as [_ Ht].
  unfold element_test in Ht. by destruct (element_at d j).
Qed.

(** ** The transformation *)

Section Transform.
Context `{HtmlParser} `{Scripts} `{Encodings} `{Hashing}.

(** The program that repairs the structure, in the head. *)
Definition repair_program (d : Document) (j : NodeId) (name : QualName) (attrs : list Attribute) : Prop :=
  name = html_name "script" /\ attrs = [html_attribute "id" REPAIR_SCRIPT_ELEMENT_ID] /\
  text_contents d j = RESTORATION_SCRIPT /\ (node d j ≫= nd_parent) = find_html_element "head" d.

(** Static but for one program, which is there when the repair is applied. *)
Record transformed (repair : bool) (d : Document) : Prop := {
  tf_shape : tree_shaped d;
  tf_elements : forall j name attrs, j ∈ walk d -> element_at d j = Some (name, attrs) ->
    safe_element name attrs \/ (repair = true /\ repair_program d j name attrs);
  tf_program : repair = true -> exists j name attrs, j ∈ walk d /\ element_at d j = Some (name, attrs) /\
    repair_program d j name attrs;
}.

Lemma repaired_transformed d own d' :
  tree_shaped d ->
  (forall j name attrs, j ∈ walk d -> element_at d j = Some (name, attrs) -> safe_element name attrs) ->
  apply_structural_repair d = Ok (own, d') -> transformed own d'.
Proof.
  intros Sh Hsafe. unfold apply_structural_repair.
  destruct (matching_scripts REPAIR_DATA_ELEMENT_ID _ d) as [|data [|]]; [|intros A|done].
  { intros [= <- <-]. split; [done|eauto|done]. }
  apply rbind_ok in A as (repair & _ & (_ & A)%rbind_unit_ok).
  destruct (detach_all_sub (matching_scripts REPAIR_SCRIPT_ELEMENT_ID None d) d Sh (matching_elements _ _ _))
    as (S3 & W3 & D3). set (d3 := detach_all _ d) in *. cbv zeta in A.
  apply rbind_ok in A as (h & Hh & (d4 & A & [= <- <-])%rbind_ok).
  destruct (find_html_element "head" d3) as [h'|] eqn:Eh; [|done]. injection Hh as ->.
  assert (h ∈ walk d3) as Hw by (apply find_some in Eh as [Eh _]; by apply list_elem_of_In).
  apply (appended_with_text (NElement (html_name "script") [html_attribute "id" REPAIR_SCRIPT_ELEMENT_ID] None false)
    RESTORATION_SCRIPT h d3 d4 S3 Hw eq_refl ltac:(done)) in A as (E & Hn & Ht & Hc).
  assert (forall j, (node_count d3 <= j)%nat -> element_at d4 j = None \/ j = node_count d3) as Hnew.
  { intros j Hj. destruct (decide (j = node_count d3)); [by right|left]. unfold element_at, node_data.
    destruct (decide (j = S (node_count d3))) as [->|]; [by rewrite Ht|].
    destruct (node d4 j) as [n'|] eqn:Hnj; [|done]. apply node_bound in Hnj. lia. }
  assert (element_at d4 (node_count d3) = Some (html_name "script", [html_attribute "id" REPAIR_SCRIPT_ELEMENT_ID])) as He
    by (unfold element_at, node_data; by rewrite Hn).
  assert (repair_program d4 (node_count d3) (html_name "script") [html_attribute "id" REPAIR_SCRIPT_ELEMENT_ID]) as Hp.
  { split_and!; [done|done| |].
    - unfold text_contents. rewrite Hn. simpl. unfold node_data. by rewrite Ht.
    - rewrite Hn. simpl. unfold find_html_element. rewrite (extended_find _ _ _ _ _ _ _ S3 E); [done|].
      intros j Hj. unfold element_test. destruct (Hnew j Hj) as [-> | ->]; [done|]. by rewrite He. }
  split.
  - apply E.
  - intros j name attrs Hj Hej. destruct (ex_walk _ _ _ _ _ E j Hj) as [Hold|[Hge _]].
    + left. rewrite (extended_element _ _ _ _ _ j E) in Hej by (by apply walk_known).
      unfold element_at in Hej. rewrite D3 in Hej. by apply (Hsafe j); [apply W3|].
    + right. destruct (Hnew j Hge) as [| ->]; [congruence|]. rewrite He in Hej. by injection Hej as <- <-.
  - intros _. exists (node_count d3), (html_name "script"), [html_attribute "id" REPAIR_SCRIPT_ELEMENT_ID].
    split; [exact (ex_top _ _ _ _ _ E)|done].
Qed.

Lemma own_transformed d own d' :
  tree_shaped d -> transform_own d = Ok (own, d') -> transformed own d'.
Proof.
  intros Sh (d1 & Hf & Hr)%rbind_ok. destruct (ensure_render_styled d d1 Sh Hf) as [Sy _].
  eapply repaired_transformed; [by apply sanitized_shape, Sy| |exact Hr].
  intros j name attrs Hj He. by eapply sanitized_element; [apply Sy| |].
Qed.

Lemma replace_shape f html id d d' : tree_shaped d -> replace_inline_frame f html id d = Ok d' -> tree_shaped d'.
Proof.
  intros Sh ([name attrs] & _ & (v & _ & [= <-])%rbind_ok)%rbind_ok.
  eapply pruned_shape; [apply update_attrs_pruned|done].
Qed.

Lemma transform_frames_shape child frames r d r' d' :
  tree_shaped d -> transform_frames child frames r d = Ok (r', d') -> tree_shaped d'.
Proof.
  revert r d. induction frames as [|f frames IH]; intros r d Sh Hd; cbn [transform_frames] in Hd; [by injection Hd as <- <-|].
  apply rbind_ok in Hd as ([r1 c] & _ & (text & _ & (d1 & Hf & Hr)%rbind_ok)%rbind_ok).
  eapply IH; [|exact Hr]. by eapply replace_shape.
Qed.

Lemma tree_transformed fuel depth d r d' :
  tree_shaped d -> transform_document_tree fuel depth d = Ok (r, d') ->
  exists own, transformed own d' /\ (own = true -> r = true).
Proof.
  intros Sh Ht. destruct fuel as [|fuel]; cbn [transform_document_tree] in Ht; destruct (_ <? depth); try done.
  apply rbind_ok in Ht as ([r1 d1] & Hf & ([own d2] & Ho & [= <- <-])%rbind_ok).
  exists own. split; [|intros ->; apply orb_true_r].
  eapply own_transformed; [|exact Ho]. by eapply transform_frames_shape.
Qed.

Lemma transform_frames_ext f g frames r d :
  (forall d, f d = g d) -> transform_frames f frames r d = transform_frames g frames r d.
Proof.
  intros Hfg. revert r d. induction frames as [|x frames IH]; intros r d; [done|]. cbn [transform_frames].
  rewrite Hfg. destruct (g _) as [[r1 c]|]; [|done]. simpl. destruct (document_text c); [|done]. simpl.
  destruct (replace_inline_frame _ _ _ _); [|done]. apply IH.
Qed.

(** The limit on the depth stops the recursion before the fuel does. *)
Lemma transform_fuel fuel more depth d :
  0 <= depth -> 66 <= Z.of_nat fuel + depth ->
  transform_document_tree (fuel + more) depth d = transform_document_tree fuel depth d.
Proof.
  revert depth d. induction fuel as [|fuel IH]; intros depth d Hd Hf.
  - cbn [Nat.add transform_document_tree]. destruct more as [|more]; cbn [transform_document_tree];
      unfold MAXIMUM_INLINE_FRAME_DEPTH; by rewrite (proj2 (Z.ltb_lt 64 depth)) by lia.
  - cbn [Nat.add transform_document_tree]. unfold MAXIMUM_INLINE_FRAME_DEPTH.
    destruct (Z.ltb_spec 64 depth) as [|Hle]; [done|].
    rewrite (transform_frames_ext _ (transform_document_tree fuel (saturating_add u16_max depth 1))); [done|].
    intros d'. apply IH; unfold saturating_add, u16_max; lia.
Qed.

(** C22: the document of a transformation is static: no element below its root
    is a script other than structured metadata, a base, a refresh, a policy or a
    link that triggers requests, and none carries an event handler or a script
    URL. The one exception is the program that repairs the structure: it is in
    the head with the text of the format, and only when the transformation
    reports that the repair is applied. *)
Theorem transformed_is_static d t :
  tree_shaped d -> transform_parsed_document d = Ok t ->
  tree_shaped (st_document t) /\
  forall j name attrs, j ∈ walk (st_document t) -> element_at (st_document t) j = Some (name, attrs) ->
    safe_element name attrs \/
    (st_structural_repair t = true /\ repair_program (st_document t) j name attrs).
Proof.
  intros Sh ([r d'] & Ht & [= <-])%rbind_ok. destruct (tree_transformed _ _ _ _ _ Sh Ht) as (own & T & Hown).
  split; [exact (tf_shape _ _ T)|]. intros j name attrs Hj He.
  destruct (tf_elements _ _ T j name attrs Hj He) as [|[Ho Hp]]; [by left|right; auto].
Qed.

(** The nesting of frames is bounded by the limit of the code and by
    nothing else: the result of the transformation does not depend on how much
    deeper the recursion could go. *)
Theorem transform_depth_bounded d more :
  transform_document_tree (66 + more) 0 d = transform_document_tree 66 0 d.
Proof. apply transform_fuel; lia. Qed.
End Transform.

(** ** A sample page, transformed *)

Import DomSamples.
Import VerifySamples.


(** A page with a repair record, and a decoder for it. *)
Definition repair_tree : StructuralRepairTree :=
  MkRepairTree (RepairElement "0" "http://www.w3.org/1999/xhtml" "html" [] [] None).

#[local] Instance repair_encodings : Encodings := {|
  base64_encode := string_of_list_ascii; base64_decode := fun s => Some (as_bytes s);
  manifest_to_json := fun _ => Some "{manifest}"; manifest_from_json := fun _ => None;
  repair_from_json := fun s => if bool_decide (s = "{repair}") then Some repair_tree else None |}.

Definition repair_calls : list SinkCall :=
  [ element "html" []; Append 0 (AppendNode 1);
    element "head" []; Append 1 (AppendNode 2);
    element "script" [("id", REPAIR_DATA_ELEMENT_ID); ("type", REPAIR_MEDIA_TYPE)]; Append 2 (AppendNode 3);
    Append 3 (AppendText "{repair}");
    element "script" [("src", "app.js")]; Append 2 (AppendNode 5);
    element "body" [("onload", "run()")]; Append 1 (AppendNode 6);
    element "iframe" [("srcdoc", "frame")]; Append 6 (AppendNode 7) ].

Definition repair_page : Document := sink_calls repair_calls sink_new.

Lemma repair_page_shaped : tree_shaped repair_page.
Proof. apply (tree_check_sound [0; 1; 2; 3; 4; 3; 2; 3]%nat). vm_compute. reflexivity. Qed.

Definition transformed_page : SafeStaticDocument :=
  match transform_parsed_document repair_page with
  | Ok t => t
  | Err _ => MkSafeStatic repair_page false
  end.

Lemma transformed_page_ok : transform_parsed_document repair_page = Ok transformed_page.
Proof.
  unfold transformed_page. destruct (transform_parsed_document repair_page) as [t|e] eqn:E; [reflexivity|].
  exfalso. apply (f_equal is_ok) in E. vm_compute in E. discriminate.
Qed.

(** The repair applies; the handler of the body and the script are gone. *)
Example transformed_page_walk :
  st_structural_repair transformed_page = true /\
  omap (fun j => '(name, attrs) ← element_at (st_document transformed_page) j;
                 Some (qn_local name, map (fun a => qn_local (at_name a)) attrs))
    (walk (st_document transformed_page)) =
  [ ("html", []); ("head", []); ("script", ["id"; "type"]); ("style", [FREEZE_ATTRIBUTE]); ("script", ["id"]);
    ("body", []); ("iframe", ["srcdoc"]) ].
Proof. vm_compute. split; reflexivity. Qed.

Lemma transformed_is_static_witness :
  tree_shaped repair_page /\ transform_parsed_document repair_page = Ok transformed_page /\
  tree_shaped (st_document transformed_page) /\
  (safe_element (html_name "script") [html_attribute "id" REPAIR_SCRIPT_ELEMENT_ID] \/
   st_structural_repair transformed_page = true).
Proof.
  destruct (transformed_is_static repair_page transformed_page repair_page_shaped transformed_page_ok) as [Sh He].
  split; [exact repair_page_shaped|]. split; [exact transformed_page_ok|]. split; [exact Sh|].
  destruct (He 10%nat (html_name "script") [html_attribute "id" REPAIR_SCRIPT_ELEMENT_ID]) as [Hs|[Hr _]].
  - vm_compute. repeat constructor.
  - vm_compute. reflexivity.
  - left. exact Hs.
  - right. exact Hr.
Defined.

Lemma freezing_complete_witness :
  exists d', ensure_render_freeze_styles sample_page = Ok d' /\ has_direct_freeze_style d' 9 = true /\
    has_direct_freeze_style d' 2 = true.
Proof.
  destruct (freezing_complete sample_page 2%nat sample_page_shaped eq_refl) as (d' & Hd & [(p & Hp & Hh) Hr] & Sy & _).
  - vm_compute. discriminate.
  - exists d'. split; [exact Hd|].
    assert (freeze_parent d' = Some 2%nat) as E.
    { unfold freeze_parent, find_html_element. rewrite !(sy_find _ _ Sy) by discriminate. reflexivity. }
    split.
    + apply Hr. apply (styled_shadow_roots sample_page d' 9 sample_page_shaped Sy). vm_compute. repeat constructor.
    + rewrite E in Hp. injection Hp as <-. exact Hh.
Defined.
