(* ===== verification/CrawlPages.v ===== *)
(** * Crawled pages

    The interface [PageReader] of the scheduler, implemented by the verifier and
    the document tree: the final URL is the one of the manifest of the artifact,
    and the elements are those of the walk. *)

From Stdlib Require Import ZArith Lia Ascii String.
From stdpp Require Import base tactics list gmap strings numbers sorting.
From S2P Require Import Prelude.
From S2P Require Import Errors.
From S2P Require Import Fs.
From S2P Require Import Records.
From S2P Require Import Requests.
From S2P Require Import Schedule.
From S2P Require Import Scheduler.
From S2P Require Import Dom.
From S2P Require Import DomFacts.
From S2P Require Import Sink.
From S2P Require Import Html.
From S2P Require Import Verify.

#[local] Open Scope string_scope.
#[local] Open Scope list_scope.
#[local] Open Scope Z_scope.

Section Pages.
Context `{HtmlParser} `{Scripts} `{Encodings} `{Hashing} `{UrlLib} `{Discovery} `{DataUrls} `{Floats}.

Definition page_element_of (d : Document) (id : NodeId) : option Element :=
  '(name, attrs) ← element_at d id;
  Some (MkElement (qn_local name) (map (fun a => (qn_local (at_name a), at_value a)) attrs)).

#[export] Instance artifact_pages : PageReader := {|
  inspect_html b := m <-? inspect_html_bytes b ;; Ok (ss_final_url (am_source m));
  document_elements b := omap (page_element_of (parse b)) (walk (parse b)) |}.

(** The first attribute of a name, in whatever namespace. *)
Definition local_attribute (name : string) (attrs : list Attribute) : option string :=
  at_value <$> List.find (fun a => bool_decide (qn_local (at_name a) = name)) attrs.

Definition nofollow_link (attrs : list Attribute) : bool :=
  match local_attribute "rel" attrs with
  | Some value =>
      existsb (fun w => eq_ignore_ascii_case (string_of_list_ascii w) "nofollow")
        (split_ascii_whitespace [] (as_bytes value))
  | None => false
  end.

(** A link of the artifact that a crawl follows. *)
Definition followed (d : Document) (base : url) (same_origin : bool) (seed link : url) : Prop :=
  exists j name attrs href target,
    j ∈ walk d /\ element_at d j = Some (name, attrs) /\ qn_local name ∈ ["a"; "area"] /\
    nofollow_link attrs = false /\ local_attribute "href" attrs = Some href /\
    url_join base href = Some target /\ normalized_page_url target = Ok link /\
    (same_origin = true -> url_origin link = url_origin seed).

Lemma attr_local name local attrs :
  attr name (MkElement local (map (fun a => (qn_local (at_name a), at_value a)) attrs)) = local_attribute name attrs.
Proof.
  unfold attr, local_attribute. simpl. induction attrs as [|a attrs IH]; [done|]. simpl.
  destruct (bool_decide (qn_local (at_name a) = name)); [done|exact IH].
Qed.

Lemma element_link_followed d base same_origin seed link :
  link ∈ omap (element_link base same_origin seed) (omap (page_element_of d) (walk d)) <->
  followed d base same_origin seed link.
Proof.
  rewrite list_elem_of_omap. split.
  - intros (e & (j & Hj & He)%list_elem_of_omap & Hl). unfold page_element_of in He.
    destruct (element_at d j) as [[name attrs]|] eqn:Hel; [|done]. injection He as <-.
    unfold element_link in Hl. unfold is_nofollow in Hl. rewrite !attr_local in Hl. fold (nofollow_link attrs) in Hl.
    simpl in Hl. destruct (bool_decide_reflect (qn_local name ∈ ["a"; "area"])) as [Hn|]; [|done]. simpl in Hl.
    destruct (nofollow_link attrs) eqn:Hnf; [done|].
    apply bind_Some in Hl as (href & Hh & (target & Ht & Hl)%bind_Some).
    destruct (normalized_page_url target) as [l|] eqn:Hnorm; [|done].
    exists j, name, attrs, href, target. split_and!; try done.
    + destruct (same_origin && _); [done|]. congruence.
    + intros ->. simpl in Hl. destruct (bool_decide_reflect (url_origin l <> url_origin seed)) as [|E]; [done|].
      injection Hl as <-. by apply dec_stable.
  - intros (j & name & attrs & href & target & Hj & He & Hn & Hnf & Hh & Ht & Hnorm & Ho).
    exists (MkElement (qn_local name) (map (fun a => (qn_local (at_name a), at_value a)) attrs)). split.
    + apply list_elem_of_omap. exists j. unfold page_element_of. by rewrite He.
    + unfold element_link, is_nofollow. rewrite !attr_local. fold (nofollow_link attrs). simpl.
      rewrite bool_decide_eq_true_2 by done. simpl. rewrite Hnf, Hh. simpl. rewrite Ht. simpl. rewrite Hnorm.
      destruct same_origin; simpl; [|done]. rewrite bool_decide_eq_false_2; [done|]. rewrite Ho by done. naive_solver.
Qed.

(** The links of a captured page are exactly the followed ones of the artifact,
    each once, in the order of their text. *)
Theorem crawl_links_exact read receipt b m requested same_origin seed :
  match rc_artifact receipt with ArtifactFile path _ _ => read path = Ok b | ArtifactBytes _ _ content => content = b end ->
  inspect_document (parse b) = Ok m ->
  exists links, crawl_links read receipt requested same_origin seed = Ok links /\ NoDup links /\
    Sorted string_le links /\
    forall link, link ∈ links <->
      followed (parse b) (default requested (url_parse (ss_final_url (am_source m)))) same_origin seed link.
Proof.
  intros Hread Hm. unfold crawl_links. set (base := default requested _).
  assert (forall k : bytes -> Res (list url), rbind (match rc_artifact receipt with
            | ArtifactFile path _ _ => match read path with Ok b => Ok b
                | Err _ => Err (scheduler_error "offprint.scheduler.artifact_read" Internal) end
            | ArtifactBytes _ _ content => Ok content end) k = k b) as ->.
  { intros k. destruct (rc_artifact receipt); [by rewrite Hread|by rewrite Hread]. }
  simpl. unfold inspect_html_bytes. rewrite Hm. simpl. fold base. eexists. split; [done|].
  set (l := omap _ _). split_and!.
  - rewrite merge_sort_Permutation. apply NoDup_elements.
  - apply Sorted_merge_sort. apply _.
  - intros link. rewrite merge_sort_Permutation, elem_of_elements, elem_of_list_to_set. apply element_link_followed.
Qed.
End Pages.
