(* ===== verification/Discover.v ===== *)
(** * Resource references

    Models [offprint-rs/document/src/discover.rs] and its parts
    [discover/html.rs], [discover/svg.rs], [discover/css.rs] and
    [discover/rewrite.rs]: the references to resources in a document or a
    stylesheet, and their replacement; and the graph of [document/src/resource.rs].

    The tokeniser of [cssparser] is a parameter: the components of a text, with
    the byte ranges of those that can be references.  [lightningcss], which only
    decides the parse mode of a stylesheet, is another. *)

From Stdlib Require Import ZArith Lia Ascii String.
From stdpp Require Import base tactics list gmap strings numbers.
From S2P Require Import Prelude.
From S2P Require Import Errors.
From S2P Require Import Records.
From S2P Require Import Requests.
From S2P Require Import Schedule.
From S2P Require Import Dom.
From S2P Require Import Sanitize.
From S2P Require Import Html.
From S2P Require Import Verify.

#[local] Open Scope string_scope.
#[local] Open Scope list_scope.
#[local] Open Scope Z_scope.

Definition resource_error (code : string) : OffprintError := new_error code Resource.
Definition resource_limit_error : OffprintError := resource_error "offprint.resource.limit".
Definition rewrite_error : OffprintError := resource_error "offprint.resource.rewrite".

(** A [Range<usize>] of bytes. *)
Record Range := MkRange { rg_start : nat; rg_end : nat }.

Record Reference := MkReference { rf_value : string; rf_range : Range }.

(** ** Source sets *)

(** Skip white space and commas; then the bytes up to white space; then to the
    comma that ends the descriptors.  Each gives the rest and its position. *)
Fixpoint skip_separators (l : bytes) (position : nat) : bytes * nat :=
  match l with
  | c :: l' => if is_ascii_whitespace c || bool_decide (c = ","%char) then skip_separators l' (S position) else (l, position)
  | [] => ([], position)
  end.

Fixpoint take_word (l : bytes) : bytes * bytes :=
  match l with
  | c :: l' => if is_ascii_whitespace c then ([], l) else let '(word, rest) := take_word l' in (c :: word, rest)
  | [] => ([], [])
  end.

Fixpoint skip_descriptors (l : bytes) (position : nat) (parentheses : Z) : bytes * nat :=
  match l with
  | [] => ([], position)
  | c :: l' =>
      if bool_decide (c = "("%char) then skip_descriptors l' (S position) (saturating_add u32_max parentheses 1)
      else if bool_decide (c = ")"%char) then skip_descriptors l' (S position) (saturating_sub parentheses 1)
      else if bool_decide (c = ","%char) && (parentheses =? 0) then (l', S position)
      else skip_descriptors l' (S position) parentheses
  end.

(** [while end > start && bytes[end - 1] == b','], on the reversed word. *)
Fixpoint drop_commas (l : bytes) : bytes :=
  match l with c :: l' => if bool_decide (c = ","%char) then drop_commas l' else l | [] => [] end.

Definition trim_commas (word : bytes) : bytes := rev (drop_commas (rev word)).

Fixpoint srcset_loop (fuel : nat) (l : bytes) (position : nat) (maximum : Z) (references : list Reference)
    : Res (list Reference) :=
  match fuel with
  | O => Ok references
  | S fuel' =>
      let '(l, start) := skip_separators l position in
      match l with
      | [] => Ok references
      | _ =>
          let '(word, rest) := take_word l in
          let value := trim_commas word in
          let '(after, position') := skip_descriptors rest (start + length word) 0 in
          match value with
          | [] => srcset_loop fuel' after position' maximum references
          | _ =>
              if maximum <=? Z.of_nat (length references) then Err resource_limit_error
              else
                srcset_loop fuel' after position' maximum
                  (references ++ [MkReference (string_of_list_ascii value)
                                    (MkRange start (start + length value))])
          end
      end
  end.

(** A turn takes a byte at least. *)
Definition srcset_references_bounded (srcset : string) (maximum : Z) : Res (list Reference) :=
  srcset_loop (S (length (as_bytes srcset))) (as_bytes srcset) 0 maximum [].

(** ** Roles *)

Definition html_resource_role (element : string) (attrs : list Attribute) (a : Attribute) : option RenderingRole :=
  if negb (bool_decide (qn_ns (at_name a) = ns_none)) then None
  else
    let name := qn_local (at_name a) in
    if bool_decide (element ∈ ["img"; "input"]) && bool_decide (name = "src") then Some RoleImage
    else if bool_decide (element = "video") && bool_decide (name = "poster") then Some RoleImage
    else if bool_decide (element ∈ ["video"; "audio"; "source"; "track"]) && bool_decide (name = "src")
    then Some RoleMedia
    else if bool_decide (element = "link") && bool_decide (name = "href") then
      match link_rel attrs with
      | RelStylesheet => Some RoleStylesheet
      | RelIcon => Some RoleImage
      | RelOther | RelRequestTrigger => None
      end
    else if bool_decide (element ∈ ["iframe"; "frame"]) && bool_decide (name = "src") then Some RoleFrame
    else if (bool_decide (element = "object") && bool_decide (name = "data"))
            || (bool_decide (element = "embed") && bool_decide (name = "src")) then Some RoleOther
    else if bool_decide (name = "background") then Some RoleImage
    else None.

Definition presentation_resource_role (attribute : string) : option RenderingRole :=
  if bool_decide (attribute ∈ ["clip-path"; "fill"; "filter"; "marker"; "marker-end"; "marker-mid"; "marker-start";
                               "mask"; "stroke"]) then Some RoleSvg
  else if bool_decide (attribute = "cursor") then Some RoleCursor
  else None.

Definition svg_resource_role (element : string) (a : Attribute) : option RenderingRole :=
  if negb (bool_decide (qn_local (at_name a) = "href"))
     || negb (bool_decide (qn_ns (at_name a) ∈ [ns_none; ns_xlink])) then None
  else if bool_decide (element ∈ ["feImage"; "image"]) then Some RoleImage
  else if bool_decide (element = "cursor") then Some RoleCursor
  else if bool_decide (element ∈ ["altGlyph"; "color-profile"; "filter"; "font-face-uri"; "glyphRef"; "linearGradient";
                                  "mpath"; "pattern"; "radialGradient"; "textPath"; "tref"; "use"]) then Some RoleSvg
  else None.

(** ** Stylesheets *)

(** A component of a stylesheet as the tokeniser gives it: blocks with what is
    in them, and the range of a token or, for a function, up to the end of its
    block. *)
Inductive CssComponent :=
| CAtKeyword (name : string)
| CSpace
| CUnquotedUrl (value : string) (range : Range)
| CQuotedString (value : string) (range : Range)
| CFunction (name : string) (inner : list CssComponent) (range : Range)
| CBlock (inner : list CssComponent)
| CSemicolon
| COther.

Class CssTokens := { css_components : string -> list CssComponent }.

Record CssState := MkCss { cs_references : list Reference; cs_count : Z; cs_exceeded : bool }.

(** Not blank and not a fragment: what counts and what is fetched. *)
Definition counted (value : string) : bool :=
  negb (bool_decide (str_trim value = "")) && negb (starts_with "#" (str_trim value)).

Definition add_css_reference (value : string) (range : Range) (maximum : Z) (s : CssState) : CssState :=
  let grown n := MkCss (cs_references s ++ [MkReference value range]) n (cs_exceeded s) in
  if counted value then
    if maximum <=? cs_count s then MkCss (cs_references s) (cs_count s) true
    else grown (cs_count s + 1)
  else grown (cs_count s).

(** The first token of the block of a [url] function that is no space. *)
Fixpoint url_argument (inner : list CssComponent) : option string :=
  match inner with
  | CSpace :: inner' => url_argument inner'
  | CQuotedString value _ :: _ | CUnquotedUrl value _ :: _ => Some value
  | _ => None
  end.

(** [while !exhausted && !exceeded], with the flag for [import]. *)
Definition components_loop (one : CssComponent -> bool -> CssState -> bool * CssState)
    : list CssComponent -> bool -> CssState -> CssState :=
  fix go l import_value s :=
    match l with
    | [] => s
    | c :: l' =>
        if cs_exceeded s then s else let '(import_value, s) := one c import_value s in go l' import_value s
    end.

Fixpoint collect_component (quoted_strings_are_urls : bool) (maximum : Z) (c : CssComponent) (import_value : bool)
    (s : CssState) {struct c} : bool * CssState :=
  match c with
  | CAtKeyword name => (eq_ignore_ascii_case name "import", s)
  | CSpace => (import_value, s)
  | CUnquotedUrl value range => (false, add_css_reference value range maximum s)
  | CQuotedString value range =>
      (false, if import_value || quoted_strings_are_urls then add_css_reference value range maximum s else s)
  | CFunction name inner range =>
      (false,
       if eq_ignore_ascii_case name "url" then
         match url_argument inner with Some value => add_css_reference value range maximum s | None => s end
       else
         components_loop
           (collect_component (bool_decide (to_ascii_lowercase name ∈ ["image-set"; "-webkit-image-set"])) maximum)
           inner false s)
  | CBlock inner => (false, components_loop (collect_component quoted_strings_are_urls maximum) inner false s)
  | CSemicolon | COther => (false, s)
  end.

Definition css_references_bounded `{CssTokens} (css : string) (maximum : Z) : Res (list Reference) :=
  let s := components_loop (collect_component false maximum) (css_components css) false (MkCss [] 0 false) in
  if cs_exceeded s then Err resource_limit_error else Ok (cs_references s).

(** *** Quoting *)

Definition hex_digit (d : Z) : Z := if d <? 10 then 48 + d else 87 + d.

(** [{:x}]. *)
Fixpoint lower_hex (fuel : nat) (c : Z) : list Z :=
  match fuel with
  | O => [hex_digit (c mod 16)]
  | S fuel' => if c <? 16 then [hex_digit c] else lower_hex fuel' (c / 16) ++ [hex_digit (c mod 16)]
  end.

Definition escape_css_char (c : Z) : list Z :=
  if c =? 0 then [65533]
  else if c =? 34 then [92; 34]
  else if c =? 92 then [92; 92]
  else if c =? 10 then [92; 97; 32]
  else if c =? 13 then [92; 100; 32]
  else if c =? 12 then [92; 99; 32]
  else if is_control c then 92 :: lower_hex 8 c ++ [32]
  else [c].

Definition escape_css_string (value : string) : string :=
  utf8_encode (flat_map escape_css_char (utf8_chars (as_bytes value))).

(** ** Replacing ranges *)

(** [str::is_char_boundary]. *)
Definition is_char_boundary (l : bytes) (i : nat) : bool :=
  if Nat.eqb i 0 then true
  else match l !! i with
       | Some c => (byte_val c <? 128) || (192 <=? byte_val c)
       | None => Nat.eqb i (length l)
       end.

(** [str::get(range).is_some()]. *)
Definition valid_range (l : bytes) (r : Range) : bool :=
  Nat.leb (rg_start r) (rg_end r) && is_char_boundary l (rg_start r) && is_char_boundary l (rg_end r).

Abbreviation Change := (Range * string)%type.

(** [sort_by_key], which is stable. *)
Fixpoint insert_change (c : Change) (l : list Change) : list Change :=
  match l with
  | [] => [c]
  | x :: l' => if Nat.leb (rg_start c.1) (rg_start x.1) then c :: l else x :: insert_change c l'
  end.

Definition sort_changes (l : list Change) : list Change := fold_right insert_change [] l.

(** The check of the ranges: the end so far and the size of the result. *)
Fixpoint check_changes (source : bytes) (changes : list Change) (end_ : nat) (size : Z) : Res Z :=
  match changes with
  | [] => Ok size
  | (r, replacement) :: changes' =>
      if Nat.ltb (rg_start r) end_ || negb (valid_range source r) then Err rewrite_error
      else
        let rest := size - Z.of_nat (rg_end r - rg_start r) in
        if rest <? 0 then Err rewrite_error
        else
          size <-? ok_or (checked_add usize_max rest (Z.of_nat (length (as_bytes replacement)))) rewrite_error ;;
          check_changes source changes' (rg_end r) size
  end.

Definition slice (l : bytes) (i j : nat) : bytes := drop i (take j l).

Fixpoint apply_changes (source : bytes) (changes : list Change) (end_ : nat) : bytes :=
  match changes with
  | [] => drop end_ source
  | (r, replacement) :: changes' =>
      slice source end_ (rg_start r) ++ as_bytes replacement ++ apply_changes source changes' (rg_end r)
  end.

(** [can_reserve] answers [try_reserve_exact]. *)
Definition rewrite_ranges (can_reserve : Z -> bool) (source : string) (changes : list Change) : Res string :=
  let changes := sort_changes changes in
  size <-? check_changes (as_bytes source) changes 0 (Z.of_nat (length (as_bytes source))) ;;
  if can_reserve size then Ok (string_of_list_ascii (apply_changes (as_bytes source) changes 0))
  else Err rewrite_error.

(** ** Discovery in a stylesheet *)

Record DiscoveredCssResource := MkCssResource { dc_id : Z; dc_original : string; dc_resolved_url : url }.

Inductive CssParseMode := Typed | PreservationFallback.

Record CssResources := MkCssResources {
  cr_source : string;
  cr_resources : list DiscoveredCssResource;
  cr_ranges : gmap Z Range;
  cr_parse_mode : CssParseMode;
}.

Definition resource_url_error : OffprintError := resource_error "offprint.resource.url".
Definition resource_identifier_error : OffprintError := resource_error "offprint.resource.identifier".

Section Discover.
Context `{UrlLib} `{CssTokens}.

(** The loop over the references of a stylesheet. *)
Fixpoint css_resources_loop (base : url) (references : list Reference) (resources : list DiscoveredCssResource)
    (ranges : gmap Z Range) : Res (list DiscoveredCssResource * gmap Z Range) :=
  match references with
  | [] => Ok (resources, ranges)
  | r :: references' =>
      if negb (counted (rf_value r)) then css_resources_loop base references' resources ranges
      else
        resolved <-? ok_or (url_join base (str_trim (rf_value r))) resource_url_error ;;
        id <-? ok_or (try_from u32_max (Z.of_nat (length resources))) resource_limit_error ;;
        css_resources_loop base references' (resources ++ [MkCssResource id (rf_value r) resolved])
          (<[id := rf_range r]> ranges)
  end.

(** [typed] answers the dependencies [lightningcss] prints, if it parses. *)
Definition css_resources_bounded (typed : string -> option (list string)) (css : string) (base : url) (maximum : Z)
    : Res CssResources :=
  references <-? css_references_bounded css maximum ;;
  let mode := match typed css with
              | Some dependencies =>
                  if bool_decide (dependencies ≡ₚ map rf_value references) then Typed else PreservationFallback
              | None => PreservationFallback
              end in
  '(resources, ranges) <-? css_resources_loop base references [] ∅ ;;
  Ok (MkCssResources css resources ranges mode).

Definition css_url (replacement : string) : string :=
  string_of_list_ascii (as_bytes "url(" ++ [byte_of 34] ++ as_bytes (escape_css_string replacement) ++ [byte_of 34]
                        ++ as_bytes ")").

(** The replacements in the order of their identifiers. *)
Definition css_rewrite (can_reserve : Z -> bool) (r : CssResources) (replacements : list (Z * string)) : Res string :=
  changes <-? collect (fun '(id, replacement) =>
                 range <-? ok_or (cr_ranges r !! id) resource_identifier_error ;;
                 Ok (range, css_url replacement)) replacements ;;
  rewrite_ranges can_reserve (cr_source r) changes.

(** ** Discovery in a document *)

Inductive TextContainer :=
| InAttribute (node_id : NodeId) (attribute_index : nat)
| InText (node_id : NodeId).

Inductive ReplacementSyntax := CssUrl | Srcset.

Inductive RewriteTarget :=
| TargetAttribute (node_id : NodeId) (attribute_index : nat)
| TargetRange (container : TextContainer) (range : Range) (syntax : ReplacementSyntax).

Record DiscoveredDocumentResource := MkFound {
  dr_id : Z;
  dr_node_id : NodeId;
  dr_original : string;
  dr_resolved_url : url;
  dr_role : RenderingRole;
}.

Record DocumentResources := MkDocumentResources {
  ds_resources : list DiscoveredDocumentResource;
  ds_targets : gmap Z RewriteTarget;
}.

Definition remaining (maximum : Z) (s : DocumentResources) : Z :=
  saturating_sub maximum (Z.of_nat (length (ds_resources s))).

Definition add_reference (maximum : Z) (node_id : NodeId) (original : string) (role : RenderingRole)
    (target : RewriteTarget) (same_document_fragment_is_local : bool) (base : url) (s : DocumentResources)
    : Res DocumentResources :=
  let trimmed := str_trim original in
  if bool_decide (trimmed = "") || (same_document_fragment_is_local && starts_with "#" trimmed) then Ok s
  else if maximum <=? Z.of_nat (length (ds_resources s)) then Err resource_limit_error
  else
    resolved <-? ok_or (url_join base trimmed) resource_url_error ;;
    id <-? ok_or (try_from u32_max (Z.of_nat (length (ds_resources s)))) resource_limit_error ;;
    Ok (MkDocumentResources (ds_resources s ++ [MkFound id node_id original resolved role])
          (<[id := target]> (ds_targets s))).

Definition add_css_references (maximum : Z) (node_id : NodeId) (container : TextContainer) (css : string)
    (role : RenderingRole) (base : url) (s : DocumentResources) : Res DocumentResources :=
  references <-? css_references_bounded css (remaining maximum s) ;;
  fold_res (fun r s => add_reference maximum node_id (rf_value r) role (TargetRange container (rf_range r) CssUrl)
                         true base s) references s.

Definition stylesheet_base_url (attrs : list Attribute) : Res (option url) :=
  match attribute_value attrs CSS_BASE_ATTRIBUTE with
  | None => Ok None
  | Some value => u <-? ok_or (url_parse value) resource_url_error ;; Ok (Some u)
  end.

Definition discover_attribute (maximum : Z) (base : url) (node_id : NodeId) (name : QualName) (attrs : list Attribute)
    (index : nat) (a : Attribute) (s : DocumentResources) : Res DocumentResources :=
  let element := qn_local name in
  let is_svg := bool_decide (qn_ns name = ns_svg) in
  let no_ns := bool_decide (qn_ns (at_name a) = ns_none) in
  let local := qn_local (at_name a) in
  if no_ns && bool_decide (local = "style") then
    add_css_references maximum node_id (InAttribute node_id index) (at_value a) RoleOther base s
  else
    match (if is_svg && no_ns then presentation_resource_role local else None) with
    | Some role => add_css_references maximum node_id (InAttribute node_id index) (at_value a) role base s
    | None =>
        if no_ns && bool_decide (local = "srcset") then
          references <-? srcset_references_bounded (at_value a) (remaining maximum s) ;;
          fold_res (fun r s => add_reference maximum node_id (rf_value r) RoleImage
                                 (TargetRange (InAttribute node_id index) (rf_range r) Srcset) false base s)
            references s
        else
          match (if is_svg then svg_resource_role element a else html_resource_role element attrs a) with
          | Some role =>
              add_reference maximum node_id (at_value a) role (TargetAttribute node_id index) is_svg base s
          | None => Ok s
          end
    end.

(** The text of a [style] element. *)
Definition discover_style (maximum : Z) (base : url) (d : Document) (node_id : NodeId) (name : QualName)
    (attrs : list Attribute) (s : DocumentResources) : Res DocumentResources :=
  if bool_decide (qn_ns name ∈ [ns_html; ns_svg]) && bool_decide (qn_local name = "style") then
    css_base <-? stylesheet_base_url attrs ;;
    fold_res (fun child s =>
        match node_data d child with
        | Some (NText contents) =>
            add_css_references maximum node_id (InText child) contents RoleOther (default base css_base) s
        | _ => Ok s
        end) (match node d node_id with Some n => nd_children n | None => [] end) s
  else Ok s.

Definition discover_node (maximum : Z) (base : url) (d : Document) (node_id : NodeId) (s : DocumentResources)
    : Res DocumentResources :=
  match element_at d node_id with
  | None => Ok s
  | Some (name, attrs) =>
      s <-? fold_res (fun '(index, a) s => discover_attribute maximum base node_id name attrs index a s)
              (imap pair attrs) s ;;
      discover_style maximum base d node_id name attrs s
  end.

Definition document_resources_bounded (d : Document) (base : url) (maximum : Z) : Res DocumentResources :=
  fold_res (discover_node maximum base d) (walk d) (MkDocumentResources [] ∅).

(** ** Replacement in a document *)

Definition container_compare (a b : TextContainer) : comparison :=
  match a, b with
  | InAttribute n i, InAttribute m j => match Nat.compare n m with Eq => Nat.compare i j | c => c end
  | InAttribute _ _, InText _ => Lt
  | InText _, InAttribute _ _ => Gt
  | InText n, InText m => Nat.compare n m
  end.

(** [entry(container).or_default().push(change)]. *)
Fixpoint push_change (c : TextContainer) (x : Change) (groups : list (TextContainer * list Change))
    : list (TextContainer * list Change) :=
  match groups with
  | [] => [(c, [x])]
  | (c', xs) :: groups' =>
      match container_compare c c' with
      | Eq => (c', xs ++ [x]) :: groups'
      | Lt => (c, [x]) :: groups
      | Gt => (c', xs) :: push_change c x groups'
      end
  end.

Definition set_attribute_value (node_id : NodeId) (index : nat) (value : string) (d : Document) : Res Document :=
  '(_, attrs) <-? ok_or (element_at d node_id) rewrite_error ;;
  do? ok_or (attrs !! index) rewrite_error ;;
  Ok (update_attrs node_id (alter (fun a => MkAttribute (at_name a) value) index) d).

Definition container_text (d : Document) (c : TextContainer) : Res string :=
  match c with
  | InAttribute node_id index =>
      '(_, attrs) <-? ok_or (element_at d node_id) rewrite_error ;;
      a <-? ok_or (attrs !! index) rewrite_error ;;
      Ok (at_value a)
  | InText node_id =>
      match node_data d node_id with Some (NText contents) => Ok contents | _ => Err rewrite_error end
  end.

Definition set_container_text (c : TextContainer) (text : string) (d : Document) : Res Document :=
  match c with
  | InAttribute node_id index => set_attribute_value node_id index text d
  | InText node_id =>
      match node_data d node_id with
      | Some (NText _) => Ok (update_node node_id (set_data (NText text)) d)
      | _ => Err rewrite_error
      end
  end.

Definition replacement_text (syntax : ReplacementSyntax) (replacement : string) : string :=
  match syntax with CssUrl => css_url replacement | Srcset => replacement end.

(** The first loop: attributes at once, ranges by their container. *)
Definition rewrite_target (r : DocumentResources) (replacement : Z * string)
    (s : Document * list (TextContainer * list Change)) : Res (Document * list (TextContainer * list Change)) :=
  let '(id, text) := replacement in
  target <-? ok_or (ds_targets r !! id) resource_identifier_error ;;
  match target with
  | TargetAttribute node_id index => d <-? set_attribute_value node_id index text s.1 ;; Ok (d, s.2)
  | TargetRange container range syntax => Ok (s.1, push_change container (range, replacement_text syntax text) s.2)
  end.

Definition rewrite_container (can_reserve : Z -> bool) (group : TextContainer * list Change) (d : Document)
    : Res Document :=
  text <-? container_text d group.1 ;;
  text <-? rewrite_ranges can_reserve text group.2 ;;
  set_container_text group.1 text d.

Definition remove_css_base_attributes (d : Document) : Document :=
  fold_left (fun d id =>
      update_attrs id (List.filter (fun a => negb (plain_attribute CSS_BASE_ATTRIBUTE a))) d) (walk d) d.

(** The replacements in the order of their identifiers.  A failure leaves the
    document half rewritten; the callers drop it. *)
Definition document_rewrite (can_reserve : Z -> bool) (r : DocumentResources) (replacements : list (Z * string))
    (d : Document) : Res Document :=
  '(d, groups) <-? fold_res (rewrite_target r) replacements (d, []) ;;
  d <-? fold_res (rewrite_container can_reserve) groups d ;;
  Ok (remove_css_base_attributes d).

(** The verifier asks for the addresses alone, without a limit. *)
Definition discovery (typed : string -> option (list string)) : Discovery := {|
  discover_document_resources d base :=
    r <-? document_resources_bounded d base usize_max ;; Ok (map dr_resolved_url (ds_resources r));
  discover_css_resources css base :=
    r <-? css_resources_bounded typed css base usize_max ;; Ok (map dc_resolved_url (cr_resources r)) |}.
End Discover.

(** ** The resource graph *)

Inductive ResourceLocationKind :=
  HtmlAttribute | SrcsetCandidate | StyleAttribute | StyleElement | CssUrlLocation | CssImageSet | CssFontSource
| CssImport | CssCursor | NestedDocument.

Record ResourceReference := MkResourceReference {
  rr_frame : Z;
  rr_node : NodeId;
  rr_location : ResourceLocationKind;
  rr_original : string;
  rr_base_url : url;
  rr_resolved_url : url;
  rr_role : RenderingRole;
}.

Record ResourceGraphRecord := MkGraphRecord {
  gr_id : Z;
  gr_reference : ResourceReference;
  gr_outcome : option ResourceOutcome;
}.

Abbreviation ResourceGraph := (list ResourceGraphRecord).

Definition graph_discover (reference : ResourceReference) (g : ResourceGraph) : Res (Z * ResourceGraph) :=
  id <-? ok_or (try_from u32_max (Z.of_nat (length g))) resource_limit_error ;;
  Ok (id, g ++ [MkGraphRecord id reference None]).

Definition graph_resolve (id : Z) (outcome : ResourceOutcome) (g : ResourceGraph) : Res ResourceGraph :=
  record <-? ok_or (g !! Z.to_nat id) resource_identifier_error ;;
  match gr_outcome record with
  | Some _ => Err (resource_error "offprint.resource.terminal")
  | None => Ok (<[Z.to_nat id := MkGraphRecord (gr_id record) (gr_reference record) (Some outcome)]> g)
  end.

Definition unresolved (g : ResourceGraph) : list Z :=
  map gr_id (List.filter (fun r => is_none (gr_outcome r)) g).

Definition graph_complete (g : ResourceGraph) : Res unit :=
  match unresolved g with
  | [] => Ok tt
  | ids => Err (with_detail "resourceIds" (DList (map DNum ids)) (resource_error "offprint.resource.incomplete"))
  end.
