(* ===== verification/DiscoverFacts.v ===== *)
(** * References are found and replaced

    Replacing ranges is the substitution of the pieces they cut out; a quoted
    address is read back by the syntax of stylesheets; source sets are read as
    the standard reads them when no address ends with a comma. *)

From Stdlib Require Import ZArith Lia Ascii String.
From stdpp Require Import base tactics list gmap strings numbers sorting.
From S2P Require Import Prelude.
From S2P Require Import Errors.
From S2P Require Import Records.
From S2P Require Import Requests.
From S2P Require Import Schedule.
From S2P Require Import Dom.
From S2P Require Import Sanitize.
From S2P Require Import SerializeFacts.
From S2P Require Import Html.
From S2P Require Import Verify.
From S2P Require Import Discover.

#[local] Open Scope string_scope.
#[local] Open Scope list_scope.
#[local] Open Scope Z_scope.

(** ** Replacing ranges *)

Definition before (a b : Change) : Prop := (rg_start a.1 <= rg_start b.1)%nat.

Lemma insert_change_perm c l : insert_change c l ≡ₚ c :: l.
Proof.
  induction l as [|x l IH]; simpl; [done|]. destruct (Nat.leb _ _); [done|]. rewrite IH. apply Permutation_swap.
Qed.

Lemma sort_changes_perm l : sort_changes l ≡ₚ l.
Proof. induction l as [|c l IH]; simpl; [done|]. by rewrite insert_change_perm, IH. Qed.

Lemma insert_change_sorted c l : StronglySorted before l -> StronglySorted before (insert_change c l).
Proof.
  induction 1 as [|x l Hs IH Hx]; simpl; [repeat constructor|]. destruct (Nat.leb_spec (rg_start c.1) (rg_start x.1)).
  - constructor; [by constructor|]. constructor; [done|]. eapply Forall_impl; [exact Hx|]. unfold before. intros y; lia.
  - constructor; [done|]. rewrite insert_change_perm. constructor; [unfold before; lia|done].
Qed.

Lemma sort_changes_sorted l : StronglySorted before (sort_changes l).
Proof. induction l as [|c l IH]; simpl; [constructor|]. by apply insert_change_sorted. Qed.

Lemma same_start l a b : NoDup (map (fun c : Change => rg_start c.1) l) -> a ∈ l -> b ∈ l ->
  rg_start a.1 = rg_start b.1 -> a = b.
Proof.
  induction l as [|x l IH]; intros Hnd Ha Hb E; [by apply elem_of_nil in Ha|]. simpl in Hnd.
  apply list.NoDup_cons in Hnd as [Hx Hnd].
  apply elem_of_cons in Ha as [->|Ha], Hb as [->|Hb]; [done| | |auto]; exfalso; apply Hx.
  - rewrite E. by apply (list_elem_of_fmap_2 (fun c : Change => rg_start c.1)).
  - rewrite <- E. by apply (list_elem_of_fmap_2 (fun c : Change => rg_start c.1)).
Qed.

Lemma sort_changes_unique l m :
  l ≡ₚ m -> StronglySorted before m -> NoDup (map (fun c : Change => rg_start c.1) m) -> sort_changes l = m.
Proof.
  intros Hp Hm Hnd. apply (StronglySorted_unique_strong before).
  - intros a b Ha Hb H1 H2. unfold before in *. rewrite sort_changes_perm, Hp in Ha.
    apply (same_start m); [done|done|done|lia].
  - apply sort_changes_sorted.
  - done.
  - by rewrite sort_changes_perm.
Qed.

(** A text cut into pieces: what is kept before an old part, the old part, and
    its replacement. *)
Record Piece := MkPiece { pc_kept : bytes; pc_old : bytes; pc_new : string }.

Definition old_text (pieces : list Piece) (rest : bytes) : bytes :=
  flat_map (fun p => pc_kept p ++ pc_old p) pieces ++ rest.

Definition new_text (pieces : list Piece) (rest : bytes) : bytes :=
  flat_map (fun p => pc_kept p ++ as_bytes (pc_new p)) pieces ++ rest.

Fixpoint piece_changes (offset : nat) (pieces : list Piece) : list Change :=
  match pieces with
  | [] => []
  | p :: pieces' =>
      let start := (offset + length (pc_kept p))%nat in
      (MkRange start (start + length (pc_old p)), pc_new p) ::
      piece_changes (start + length (pc_old p)) pieces'
  end.

Lemma piece_changes_after offset pieces c : c ∈ piece_changes offset pieces -> (offset <= rg_start c.1)%nat.
Proof.
  revert offset. induction pieces as [|p pieces IH]; intros offset Hc; [by apply elem_of_nil in Hc|]. simpl in Hc.
  apply elem_of_cons in Hc as [->|Hc]; [simpl; lia|]. apply IH in Hc. lia.
Qed.

Lemma piece_changes_sorted offset pieces : StronglySorted before (piece_changes offset pieces).
Proof.
  revert offset. induction pieces as [|p pieces IH]; intros offset; simpl; constructor; [apply IH|].
  apply list.Forall_forall. intros c Hc%piece_changes_after. unfold before. simpl. lia.
Qed.

Lemma drop_slice l i j : (i <= j)%nat -> slice l i j ++ drop j l = drop i l.
Proof.
  intros H. unfold slice. rewrite <- (take_drop j l) at 3.
  destruct (decide (j <= length l)%nat) as [Hj|Hj].
  - rewrite drop_app_le by (rewrite length_take; lia). done.
  - rewrite (take_ge l j) by lia. rewrite (drop_ge l j) by lia. by rewrite !app_nil_r.
Qed.

Lemma slice_app (pre mid post : bytes) : slice (pre ++ mid ++ post) (length pre) (length pre + length mid) = mid.
Proof.
  unfold slice. rewrite app_assoc, <- length_app, take_app_length.
  by rewrite drop_app_length.
Qed.

Lemma apply_pieces pre pieces rest :
  apply_changes (pre ++ old_text pieces rest) (piece_changes (length pre) pieces) (length pre) = new_text pieces rest.
Proof.
  revert pre. induction pieces as [|p pieces IH]; intros pre; cbn [piece_changes apply_changes].
  - unfold old_text, new_text. simpl. by rewrite drop_app_length.
  - replace (pre ++ old_text (p :: pieces) rest)
      with ((pre ++ pc_kept p ++ pc_old p) ++ old_text pieces rest)
      by (unfold old_text; simpl; by rewrite !app_assoc).
    cbn [rg_start rg_end].
    replace (length pre + length (pc_kept p) + length (pc_old p))%nat
      with (length (pre ++ pc_kept p ++ pc_old p)) by (rewrite !length_app; lia).
    rewrite IH. unfold new_text at 2. simpl. rewrite <- !app_assoc.
    rewrite (slice_app pre (pc_kept p) (pc_old p ++ old_text pieces rest)). done.
Qed.

Definition total_new (pieces : list Piece) : Z :=
  fold_right (fun p n => Z.of_nat (length (as_bytes (pc_new p))) + n) 0 pieces.
Definition total_old (pieces : list Piece) : Z :=
  fold_right (fun p n => Z.of_nat (length (pc_old p)) + n) 0 pieces.

Lemma total_nonneg pieces : 0 <= total_new pieces /\ 0 <= total_old pieces.
Proof. induction pieces as [|p pieces IH]; simpl; lia. Qed.

Lemma check_pieces source offset pieces size :
  Forall (fun c : Change => valid_range source c.1 = true) (piece_changes offset pieces) ->
  total_old pieces <= size -> size + total_new pieces <= usize_max ->
  check_changes source (piece_changes offset pieces) offset size = Ok (size - total_old pieces + total_new pieces).
Proof.
  revert offset size. induction pieces as [|p pieces IH]; intros offset size Hv Ho Hn; cbn [piece_changes check_changes].
  - f_equal. simpl. lia.
  - cbn [piece_changes] in Hv. apply Forall_cons_iff in Hv as [Hp Hv]. simpl in Hp. cbn [rg_start rg_end].
    pose proof (total_nonneg pieces). cbn [total_old total_new fold_right] in *.
    fold (total_old pieces) in *. fold (total_new pieces) in *.
    rewrite (proj2 (Nat.ltb_ge _ _)) by lia. rewrite Hp. cbn [orb negb].
    destruct (Z.ltb_spec (size - Z.of_nat (offset + length (pc_kept p) + length (pc_old p) - (offset + length (pc_kept p)))) 0);
      [lia|]. unfold checked_add.
    destruct (Z.leb_spec (size - Z.of_nat (offset + length (pc_kept p) + length (pc_old p) - (offset + length (pc_kept p)))
      + Z.of_nat (length (as_bytes (pc_new p)))) usize_max) as [Hle|]; [|lia].
    cbn [ok_or rbind]. rewrite IH; [f_equal; lia|done|lia|lia].
Qed.

Lemma total_old_le pieces rest : total_old pieces <= Z.of_nat (length (old_text pieces rest)).
Proof.
  unfold old_text. rewrite length_app. induction pieces as [|p pieces IH]; simpl in *; [lia|].
  rewrite !length_app in *. simpl. lia.
Qed.

Lemma rewrite_pieces can_reserve pieces rest changes :
  changes ≡ₚ piece_changes 0 pieces ->
  NoDup (map (fun c : Change => rg_start c.1) (piece_changes 0 pieces)) ->
  Forall (fun c : Change => valid_range (old_text pieces rest) c.1 = true) changes ->
  Z.of_nat (length (old_text pieces rest)) + total_new pieces <= usize_max ->
  (forall n, 0 <= n <= usize_max -> can_reserve n = true) ->
  rewrite_ranges can_reserve (string_of_list_ascii (old_text pieces rest)) changes
  = Ok (string_of_list_ascii (new_text pieces rest)).
Proof.
  intros Hp Hnd Hv Hsize Hmem. unfold rewrite_ranges. cbv zeta.
  rewrite (sort_changes_unique _ _ Hp (piece_changes_sorted _ _) Hnd).
  unfold as_bytes. rewrite list_ascii_of_string_of_list_ascii.
  pose proof (total_nonneg pieces) as [Hn Ho]. pose proof (total_old_le pieces rest).
  rewrite check_pieces; [|by rewrite <- Hp|lia|lia]. cbn [rbind].
  rewrite Hmem by lia. do 2 f_equal. exact (apply_pieces [] pieces rest).
Qed.

(** Replacing ranges is substitution. Whatever the order of the changes,
    when they are the old parts of a text cut into pieces (not two of them at one
    place, on character boundaries, and the result of a size a program can hold)
    the result is the text with each old part replaced and the rest as it was;
    offsets are those of the original text. *)
Theorem rewrite_substitutes can_reserve pieces rest changes :
  changes ≡ₚ piece_changes 0 pieces ->
  NoDup (map (fun c : Change => rg_start c.1) (piece_changes 0 pieces)) ->
  Forall (fun c : Change => valid_range (old_text pieces rest) c.1 = true) changes ->
  Z.of_nat (length (old_text pieces rest)) + total_new pieces <= usize_max ->
  (forall n, 0 <= n <= usize_max -> can_reserve n = true) ->
  rewrite_ranges can_reserve (string_of_list_ascii (old_text pieces rest)) changes
  = Ok (string_of_list_ascii (new_text pieces rest)).
Proof. apply rewrite_pieces. Qed.

(** ** Quoting *)

(** A string token of the syntax of stylesheets, after its opening quote: the
    value, and what follows the closing quote.  A line break outside an escape
    makes it a bad string. *)
Inductive StringState := Plain | Escaped | Hexadecimal (digits : nat) (value : Z).

Definition hex_value (c : Z) : option Z :=
  if (48 <=? c) && (c <=? 57) then Some (c - 48)
  else if (65 <=? c) && (c <=? 70) then Some (c - 55)
  else if (97 <=? c) && (c <=? 102) then Some (c - 87)
  else None.

Definition code_point (v : Z) : Z :=
  if (v =? 0) || ((55296 <=? v) && (v <=? 57343)) || (1114111 <? v) then 65533 else v.

Fixpoint read_string (st : StringState) (l : list Z) : option (list Z * list Z) :=
  let plain c l' (k : StringState -> option (list Z * list Z)) :=
    if c =? 34 then Some ([], l')
    else if c =? 10 then None
    else if c =? 92 then k Escaped
    else '(value, rest) ← k Plain; Some (c :: value, rest) in
  match l with
  | [] => Some (match st with Hexadecimal _ v => [code_point v] | _ => [] end, [])
  | c :: l' =>
      match st with
      | Plain => plain c l' (fun st => read_string st l')
      | Escaped =>
          if c =? 10 then read_string Plain l'
          else match hex_value c with
               | Some v => read_string (Hexadecimal 1 v) l'
               | None => '(value, rest) ← read_string Plain l'; Some (c :: value, rest)
               end
      | Hexadecimal digits v =>
          match hex_value c with
          | Some w => if Nat.ltb digits 6 then read_string (Hexadecimal (S digits) (16 * v + w)) l'
                      else '(value, rest) ← plain c l' (fun st => read_string st l'); Some (code_point v :: value, rest)
          | None =>
              if (c =? 32) || (c =? 9) || (c =? 10)
              then '(value, rest) ← read_string Plain l'; Some (code_point v :: value, rest)
              else '(value, rest) ← plain c l' (fun st => read_string st l'); Some (code_point v :: value, rest)
          end
      end
  end.

Definition quoted_char (c : Z) : Z := if c =? 0 then 65533 else c.

Lemma escaped_control c l :
  0 < c < 160 -> is_control c = true -> c <> 10 -> c <> 12 -> c <> 13 ->
  read_string Plain (92 :: lower_hex 8 c ++ 32 :: l) = ('(value, rest) ← read_string Plain l; Some (c :: value, rest)).
Proof.
  intros Hc Hctl H10 H12 H13. unfold is_control in Hctl.
  assert (c < 32 \/ 127 <= c) as Hr by (apply orb_prop in Hctl as [?|[? ?]%andb_prop]; lia).
  clear Hctl. remember (Z.to_nat c) as n eqn:En. assert (c = Z.of_nat n) as -> by lia. clear En.
  do 160 (destruct n as [|n]; [first [exfalso; lia|reflexivity]|]). lia.
Qed.

Lemma read_escaped c l :
  scalar c ->
  read_string Plain (escape_css_char c ++ l) = ('(value, rest) ← read_string Plain l; Some (quoted_char c :: value, rest)).
Proof.
  intros Hc. unfold scalar in Hc. unfold escape_css_char, quoted_char.
  destruct (Z.eqb_spec c 0) as [->|H0]; [reflexivity|]. destruct (Z.eqb_spec c 34) as [->|H34]; [reflexivity|].
  destruct (Z.eqb_spec c 92) as [->|H92]; [reflexivity|]. destruct (Z.eqb_spec c 10) as [->|H10]; [reflexivity|].
  destruct (Z.eqb_spec c 13) as [->|H13]; [reflexivity|]. destruct (Z.eqb_spec c 12) as [->|H12]; [reflexivity|].
  destruct (is_control c) eqn:Hctl.
  - rewrite <- app_comm_cons, <- app_assoc. apply escaped_control; try done.
    unfold is_control in Hctl. apply orb_prop in Hctl as [?|[? ?]%andb_prop]; lia.
  - cbn [app read_string]. rewrite (proj2 (Z.eqb_neq c 34)), (proj2 (Z.eqb_neq c 10)), (proj2 (Z.eqb_neq c 92)) by done. done.
Qed.

Lemma read_escaped_all cs rest :
  Forall scalar cs -> read_string Plain (flat_map escape_css_char cs ++ 34 :: rest) = Some (map quoted_char cs, rest).
Proof.
  induction 1 as [|c cs Hc _ IH]; [reflexivity|]. cbn [flat_map]. rewrite <- app_assoc, read_escaped, IH by done. done.
Qed.

Lemma scalar_escape cs : Forall scalar cs -> Forall scalar (flat_map escape_css_char cs).
Proof.
  induction 1 as [|c cs Hc _ IH]; [constructor|]. simpl. apply Forall_app. split; [|done].
  unfold escape_css_char. repeat case_match; repeat constructor; unfold scalar in *; try lia.
  apply Forall_app. split; [|repeat constructor; lia].
  assert (forall fuel v, 0 <= v -> Forall scalar (lower_hex fuel v)) as Hh.
  { induction fuel as [|fuel IHf]; intros v Hv; simpl.
    - constructor; [|constructor]. unfold scalar, hex_digit. pose proof (Z.mod_pos_bound v 16). case_match; lia.
    - destruct (Z.ltb_spec v 16).
      + constructor; [|constructor]. unfold scalar, hex_digit. case_match; lia.
      + apply Forall_app. split; [apply IHf; apply Z.div_pos; lia|].
        constructor; [|constructor]. unfold scalar, hex_digit. pose proof (Z.mod_pos_bound v 16). case_match; lia. }
  apply Hh. lia.
Qed.

(** A quoted address reads back. The text written for a replacement is a
    [url] function with one string token in it, and that token has the value of
    the replacement, whatever its characters, the null character apart, for which
    the replacement character stands; so no address breaks out of its quotes. *)
Theorem css_quoting_round_trip cs :
  Forall scalar cs ->
  exists token,
    utf8_chars (as_bytes (css_url (utf8_encode cs))) = [117; 114; 108; 40; 34] ++ token /\
    read_string Plain token = Some (map quoted_char cs, [41]).
Proof.
  intros Hcs. exists (flat_map escape_css_char cs ++ [34; 41]). split.
  - unfold css_url, escape_css_string. rewrite utf8_decode_encode by done.
    pose proof (utf8_decode_encode ([117; 114; 108; 40; 34] ++ flat_map escape_css_char cs ++ [34; 41])) as E.
    rewrite <- E.
    + f_equal. unfold utf8_encode, as_bytes. rewrite !list_ascii_of_string_of_list_ascii.
      rewrite !map_app, !concat_app. done.
    + apply Forall_app. split; [repeat constructor; unfold scalar; lia|]. apply Forall_app.
      split; [by apply scalar_escape|repeat constructor; unfold scalar; lia].
  - by apply (read_escaped_all cs [41]).
Qed.

(** ** Source sets *)

Record Candidate := MkCandidate { ca_url : bytes; ca_descriptor : bytes }.

Definition comma : ascii := ","%char.
Definition space : ascii := " "%char.

(** A byte that starts a character. *)
Definition leading (a : ascii) : Prop := byte_val a < 128 \/ 192 <= byte_val a.

(** An address that can stand in a source set, and a plain descriptor. *)
Record plain_candidate (c : Candidate) : Prop := {
  pl_words : Forall (fun a => is_ascii_whitespace a = false) (ca_url c);
  pl_first : exists a l, ca_url c = a :: l /\ a <> comma /\ leading a;
  pl_last : exists a l, ca_url c = l ++ [a] /\ a <> comma;
  pl_descriptor : Forall (fun a => a ∉ [comma; "("%char; ")"%char]) (ca_descriptor c);
}.

Fixpoint print_candidates (cs : list Candidate) : bytes :=
  match cs with
  | [] => []
  | c :: cs' =>
      ca_url c ++ space :: ca_descriptor c ++
      match cs' with [] => [] | _ => comma :: space :: print_candidates cs' end
  end.

Fixpoint candidate_references (offset : nat) (cs : list Candidate) : list Reference :=
  match cs with
  | [] => []
  | c :: cs' =>
      MkReference (string_of_list_ascii (ca_url c)) (MkRange offset (offset + length (ca_url c))) ::
      candidate_references (offset + length (ca_url c) + length (ca_descriptor c) + 3) cs'
  end.

Lemma take_word_app url l :
  Forall (fun a => is_ascii_whitespace a = false) url -> take_word (url ++ space :: l) = (url, space :: l).
Proof. induction 1 as [|a url Ha _ IH]; [done|]. simpl. by rewrite Ha, IH. Qed.

Lemma trim_commas_id l a : a <> comma -> trim_commas (l ++ [a]) = l ++ [a].
Proof.
  intros Ha. unfold trim_commas. rewrite rev_app_distr. simpl. rewrite (bool_decide_eq_false_2 (a = ","%char)) by done.
  simpl. by rewrite rev_involutive.
Qed.

Lemma skip_descriptors_end d position :
  Forall (fun a => a ∉ [comma; "("%char; ")"%char]) d -> skip_descriptors d position 0 = ([], (position + length d)%nat).
Proof.
  intros Hd. revert position. induction Hd as [|a d Ha _ IH]; intros position; simpl; [by rewrite Nat.add_0_r|].
  rewrite !bool_decide_eq_false_2 by (intros ->; apply Ha; by apply (bool_decide_unpack _)). simpl. rewrite IH. f_equal. lia.
Qed.

Lemma skip_descriptors_comma d l position :
  Forall (fun a => a ∉ [comma; "("%char; ")"%char]) d ->
  skip_descriptors (d ++ comma :: l) position 0 = (l, (position + length d + 1)%nat).
Proof.
  intros Hd. revert position. induction Hd as [|a d Ha _ IH]; intros position; simpl.
  - f_equal. lia.
  - rewrite !bool_decide_eq_false_2 by (intros ->; apply Ha; by apply (bool_decide_unpack _)). simpl. rewrite IH. f_equal. lia.
Qed.

Lemma nonempty_case {A B} (l : list A) a l' (X Y : B) : l = a :: l' -> match l with [] => X | _ :: _ => Y end = Y.
Proof. by intros ->. Qed.

Lemma srcset_loop_candidates cs fuel lead offset maximum found :
  Forall plain_candidate cs -> lead ∈ [[]; [space]] ->
  (length (print_candidates cs) < fuel)%nat -> Z.of_nat (length found) + Z.of_nat (length cs) <= maximum ->
  srcset_loop fuel (lead ++ print_candidates cs) offset maximum found
  = Ok (found ++ candidate_references (offset + length lead) cs).
Proof.
  intros Hcs. revert fuel lead offset found.
  induction Hcs as [|c cs Hc Hcs IH]; intros fuel lead offset found Hlead Hfuel Hmax.
  - destruct fuel as [|fuel]; [simpl in Hfuel; lia|]. simpl. rewrite !app_nil_r.
    apply elem_of_cons in Hlead as [->|Hlead]; [done|]. by apply list_elem_of_singleton in Hlead as ->.
  - destruct fuel as [|fuel]; [simpl in Hfuel; lia|]. destruct Hc as [Hw (a & l & Ea & Ha & _) (z & l' & Ez & Hz) Hd].
    assert (forall t, skip_separators (lead ++ ca_url c ++ t) offset = (ca_url c ++ t, (offset + length lead)%nat)) as Hskip.
    { intros t. assert (is_ascii_whitespace a = false) as Hwa by (rewrite Ea in Hw; by apply Forall_cons_iff in Hw as [? _]).
      assert (skip_separators (ca_url c ++ t) (offset + length lead) = (ca_url c ++ t, (offset + length lead)%nat)) as E.
      { rewrite Ea. simpl. rewrite Hwa, (bool_decide_eq_false_2 (a = ","%char)) by done. done. }
      apply elem_of_cons in Hlead as [->|Hlead]; [simpl in *; by rewrite Nat.add_0_r in *|].
      apply list_elem_of_singleton in Hlead as ->. simpl in *. by rewrite Nat.add_1_r in *. }
    cbn [print_candidates srcset_loop]. rewrite Hskip.
    destruct (ca_url c ++ space :: ca_descriptor c ++ _) as [|x xs] eqn:Eall; [by rewrite Ea in Eall|]. rewrite <- Eall.
    rewrite take_word_app by done. rewrite Ez, trim_commas_id, <- Ez by done.
    assert (forall t, skip_descriptors (space :: t) (offset + length lead + length (ca_url c)) 0
      = skip_descriptors t (S (offset + length lead + length (ca_url c))) 0) as Hsp by done.
    rewrite Hsp. clear Hsp. rewrite (proj2 (Z.leb_gt maximum (Z.of_nat (length found)))) by (simpl in Hmax; lia).
    assert (length (print_candidates cs) < fuel)%nat as Hf.
    { cbn [print_candidates] in Hfuel. rewrite Ea in Hfuel. destruct cs; simpl in *; [lia|].
      rewrite !length_app in Hfuel. simpl in Hfuel. rewrite !length_app in Hfuel. simpl in *. lia. }
    destruct cs as [|c' cs'].
    + rewrite app_nil_r, skip_descriptors_end by done. cbn [app]. rewrite (nonempty_case (ca_url c) a l _ _ Ea).
      rewrite (IH fuel [] _ _ ltac:(by apply (bool_decide_unpack _))); [|done|rewrite length_app; simpl in *; lia].
      simpl. by rewrite <- app_assoc.
    + rewrite skip_descriptors_comma by done. change (space :: print_candidates (c' :: cs')) with ([space] ++ print_candidates (c' :: cs')).
      rewrite (nonempty_case (ca_url c) a l _ _ Ea).
      rewrite (IH fuel [space] _ _ ltac:(by apply (bool_decide_unpack _))); [|done|rewrite length_app; simpl in *; lia].
      cbn [candidate_references]. rewrite <- app_assoc. cbn [app].
      replace (S (offset + length lead + length (ca_url c)) + length (ca_descriptor c) + 1 + length [space])%nat
        with (offset + length lead + length (ca_url c) + length (ca_descriptor c) + 3)%nat by (simpl; lia). done.
Qed.

(** *** Replacing the addresses of a source set *)

Fixpoint replace_urls (cs : list Candidate) (news : list bytes) : list Candidate :=
  match cs, news with
  | c :: cs', n :: news' => MkCandidate n (ca_descriptor c) :: replace_urls cs' news'
  | _, _ => []
  end.

Fixpoint candidate_pieces (kept : bytes) (cs : list Candidate) (news : list bytes) : list Piece :=
  match cs, news with
  | c :: cs', n :: news' =>
      MkPiece kept (ca_url c) (string_of_list_ascii n) ::
      candidate_pieces (space :: ca_descriptor c ++ [comma; space]) cs' news'
  | _, _ => []
  end.

Definition last_descriptor (cs : list Candidate) : bytes :=
  match last cs with Some c => space :: ca_descriptor c | None => [] end.

Lemma candidate_pieces_old kept cs news :
  length cs = length news -> cs <> [] -> old_text (candidate_pieces kept cs news) (last_descriptor cs) = kept ++ print_candidates cs.
Proof.
  revert kept news. induction cs as [|c cs IH]; intros kept [|n news] Hl Hne; try done. injection Hl as Hl.
  cbn [candidate_pieces print_candidates]. destruct cs as [|c' cs].
  - destruct news; [|done]. unfold old_text, last_descriptor. simpl. rewrite !app_nil_r. by rewrite <- app_assoc.
  - unfold old_text. cbn [flat_map pc_kept pc_old]. rewrite <- app_assoc.
    change (last_descriptor (c :: c' :: cs)) with (last_descriptor (c' :: cs)).
    fold (old_text (candidate_pieces (space :: ca_descriptor c ++ [comma; space]) (c' :: cs) news) (last_descriptor (c' :: cs))).
    rewrite IH by done. rewrite <- !app_assoc. f_equal. f_equal. simpl. f_equal. by rewrite <- app_assoc.
Qed.

Lemma as_bytes_listed l : as_bytes (string_of_list_ascii l) = l.
Proof. apply list_ascii_of_string_of_list_ascii. Qed.

Lemma candidate_pieces_new kept cs news :
  length cs = length news -> cs <> [] ->
  new_text (candidate_pieces kept cs news) (last_descriptor cs) = kept ++ print_candidates (replace_urls cs news).
Proof.
  revert kept news. induction cs as [|c cs IH]; intros kept [|n news] Hl Hne; try done. injection Hl as Hl.
  cbn [candidate_pieces replace_urls print_candidates]. destruct cs as [|c' cs].
  - destruct news; [|done]. unfold new_text, last_descriptor. simpl. rewrite as_bytes_listed, !app_nil_r. by rewrite <- app_assoc.
  - destruct news as [|n' news]; [done|].
    unfold new_text. cbn [flat_map pc_kept pc_new]. rewrite <- app_assoc, as_bytes_listed.
    change (last_descriptor (c :: c' :: cs)) with (last_descriptor (c' :: cs)).
    fold (new_text (candidate_pieces (space :: ca_descriptor c ++ [comma; space]) (c' :: cs) (n' :: news)) (last_descriptor (c' :: cs))).
    rewrite IH by done. cbn [replace_urls ca_descriptor ca_url]. rewrite <- !app_assoc. f_equal. f_equal. simpl. f_equal. by rewrite <- app_assoc.
Qed.

(** The changes are those of the references. *)
Lemma candidate_changes kept offset cs news :
  length cs = length news ->
  piece_changes offset (candidate_pieces kept cs news) =
  zip (map rf_range (candidate_references (offset + length kept) cs)) (map string_of_list_ascii news).
Proof.
  revert kept offset news. induction cs as [|c cs IH]; intros kept offset [|n news] Hl; try done. injection Hl as Hl.
  cbn [candidate_pieces piece_changes candidate_references map zip_with pc_kept pc_old pc_new rf_range]. f_equal.
  rewrite IH by done. do 3 f_equal. simpl. rewrite length_app. simpl. lia.
Qed.

Lemma candidate_starts offset cs :
  Forall plain_candidate cs -> NoDup (map (fun r => rg_start (rf_range r)) (candidate_references offset cs)) /\
  Forall (fun r => (offset <= rg_start (rf_range r))%nat) (candidate_references offset cs).
Proof.
  intros Hcs. revert offset. induction Hcs as [|c cs Hc _ IH]; intros offset; simpl; [split; constructor|].
  destruct (IH (offset + length (ca_url c) + length (ca_descriptor c) + 3)%nat) as [Hnd Hf]. split.
  - constructor; [|done]. intros (r & Hr & Hin)%list_elem_of_fmap. rewrite list.Forall_forall in Hf.
    specialize (Hf r Hin). lia.
  - constructor; [simpl; lia|]. eapply Forall_impl; [exact Hf|]. intros r; simpl; lia.
Qed.

Lemma boundary_leading pre a post : leading a -> is_char_boundary (pre ++ a :: post) (length pre) = true.
Proof.
  intros Ha. unfold is_char_boundary. destruct (Nat.eqb _ _); [done|]. rewrite list_lookup_middle by done.
  apply orb_true_iff. destruct Ha; [left|right]; lia.
Qed.

Lemma candidate_ranges_valid pre cs post :
  Forall plain_candidate cs ->
  Forall (fun r => valid_range (pre ++ print_candidates cs ++ post) (rf_range r) = true)
    (candidate_references (length pre) cs).
Proof.
  intros Hcs. revert pre. induction Hcs as [|c cs Hc _ IH]; intros pre; simpl; constructor.
  - destruct Hc as [_ (a & l & Ea & _ & Hl) _ _]. unfold valid_range. cbn [rf_range rg_start rg_end].
    rewrite (proj2 (Nat.leb_le _ _)) by lia. rewrite <- app_assoc. simpl. rewrite Ea at 1. simpl.
    rewrite boundary_leading by done. simpl. rewrite app_assoc, <- length_app. apply boundary_leading. left. by vm_compute.
  - destruct cs as [|c' cs]; [constructor|].
    replace (length pre + length (ca_url c) + length (ca_descriptor c) + 3)%nat
      with (length (pre ++ ca_url c ++ space :: ca_descriptor c ++ [comma; space])) by
      (rewrite !length_app; simpl; rewrite length_app; simpl; lia).
    replace (pre ++ (ca_url c ++ space :: ca_descriptor c ++ comma :: space :: print_candidates (c' :: cs)) ++ post)
      with ((pre ++ ca_url c ++ space :: ca_descriptor c ++ [comma; space]) ++ print_candidates (c' :: cs) ++ post); [apply IH|].
    repeat (rewrite <- ?app_assoc; cbn [app]). done.
Qed.

Lemma candidate_references_length offset cs : length (candidate_references offset cs) = length cs.
Proof. revert offset. induction cs as [|c cs IH]; intros offset; simpl; [done|]. by rewrite IH. Qed.

Lemma replace_urls_length cs news : length cs = length news -> length (replace_urls cs news) = length cs.
Proof.
  revert news. induction cs as [|c cs IH]; intros [|n news] H; simpl in *; try done. by rewrite IH by congruence.
Qed.

Lemma srcset_printed cs maximum :
  Forall plain_candidate cs -> Z.of_nat (length cs) <= maximum ->
  srcset_references_bounded (string_of_list_ascii (print_candidates cs)) maximum = Ok (candidate_references 0 cs).
Proof.
  intros Hcs Hmax. unfold srcset_references_bounded. rewrite as_bytes_listed.
  rewrite (srcset_loop_candidates cs _ [] 0 maximum [] Hcs); [done|by apply (bool_decide_unpack _)|lia|simpl; lia].
Qed.

(** Source sets are read and rewritten in step. When every candidate has a
    descriptor, the references found in a printed source set are its addresses
    with their places, and replacing them by other addresses gives a source set in
    which exactly those are found, with the descriptors as they were. *)
Theorem srcset_round_trip can_reserve cs news maximum :
  Forall plain_candidate cs -> Forall plain_candidate (replace_urls cs news) -> length cs = length news ->
  Z.of_nat (length cs) <= maximum ->
  Z.of_nat (length (print_candidates cs)) + total_new (candidate_pieces [] cs news) <= usize_max ->
  (forall n, 0 <= n <= usize_max -> can_reserve n = true) ->
  srcset_references_bounded (string_of_list_ascii (print_candidates cs)) maximum = Ok (candidate_references 0 cs) /\
  exists rewritten,
    rewrite_ranges can_reserve (string_of_list_ascii (print_candidates cs))
      (zip (map rf_range (candidate_references 0 cs)) (map string_of_list_ascii news)) = Ok rewritten /\
    srcset_references_bounded rewritten maximum = Ok (candidate_references 0 (replace_urls cs news)).
Proof.
  intros Hcs Hnew Hlen Hmax Hsize Hmem. split; [by apply srcset_printed|].
  exists (string_of_list_ascii (print_candidates (replace_urls cs news))). split.
  - destruct cs as [|c cs]; [destruct news; [|done]; unfold rewrite_ranges; simpl; by rewrite Hmem by (unfold usize_max, u64_max; lia)|].
    pose proof (candidate_pieces_old [] (c :: cs) news Hlen ltac:(done)) as Eo.
    pose proof (candidate_pieces_new [] (c :: cs) news Hlen ltac:(done)) as En. cbn [app] in Eo, En.
    rewrite <- Eo, <- En. pose proof (candidate_changes [] 0 (c :: cs) news Hlen) as Ec. cbn [length Nat.add] in Ec.
    apply rewrite_pieces; [by rewrite Ec| | |by rewrite Eo|done].
    + rewrite Ec, <- map_map. rewrite fst_zip by (by rewrite !length_map, candidate_references_length, Hlen).
      rewrite map_map. by apply candidate_starts.
    + apply list.Forall_forall. intros [r x] Hin. apply elem_of_zip_l in Hin. apply list_elem_of_fmap in Hin as (rf & -> & Hin).
      pose proof (candidate_ranges_valid [] (c :: cs) [] Hcs) as Hv. rewrite app_nil_r in Hv. cbn [app length] in Hv.
      rewrite list.Forall_forall in Hv. rewrite Eo. by apply Hv.
  - apply srcset_printed; [done|]. rewrite replace_urls_length by done. done.
Qed.

(** A source set with an address that is followed by a comma at once, which
    is how a candidate without a descriptor is written, loses the candidate after
    it: the second address of this source set is not found, so it is neither
    replaced nor seen by the verifier. *)
Theorem srcset_candidate_missed :
  srcset_references_bounded "a.png, b.png 2x" usize_max = Ok [MkReference "a.png" (MkRange 0 5)].
Proof. vm_compute. reflexivity. Qed.
