(* ===== verification/DiscoverDocument.v ===== *)
(** * What discovery leaves for the rewriting

    Every reference found in a document is numbered, within the limit, resolved,
    and has a place in the document that can be rewritten. *)

From Stdlib Require Import ZArith Lia Ascii String.
From stdpp Require Import base tactics list gmap strings numbers.
From S2P Require Import Prelude.
From S2P Require Import Errors.
From S2P Require Import Records.
From S2P Require Import Requests.
From S2P Require Import Schedule.
From S2P Require Import Dom.
From S2P Require Import DomFacts.
From S2P Require Import Sanitize.
From S2P Require Import Html.
From S2P Require Import Verify.
From S2P Require Import VerifyFacts.
From S2P Require Import Discover.
From S2P Require Import SerializeFacts.
From S2P Require Import Sink.
From S2P Require Import DiscoverFacts.

#[local] Open Scope string_scope.
#[local] Open Scope list_scope.
#[local] Open Scope Z_scope.

(** Places of a document. *)
Definition container_in (d : Document) (c : TextContainer) : Prop := exists text, container_text d c = Ok text.

Definition target_in (d : Document) (t : RewriteTarget) : Prop :=
  match t with
  | TargetAttribute node_id index => container_in d (InAttribute node_id index)
  | TargetRange c _ _ => container_in d c
  end.

Section Document.
Context `{UrlLib} `{CssTokens}.
Context (d : Document) (maximum : Z).

Record accounted_for (s : DocumentResources) : Prop := {
  af_bound : Z.of_nat (length (ds_resources s)) <= Z.max 0 maximum;
  af_ids : map dr_id (ds_resources s) = map Z.of_nat (seq 0 (length (ds_resources s)));
  af_targets : forall id, is_Some (ds_targets s !! id) <-> 0 <= id < Z.of_nat (length (ds_resources s));
  af_places : forall id t, ds_targets s !! id = Some t -> target_in d t;
  af_owners : Forall (fun r => is_Some (element_at d (dr_node_id r)) /\ dr_node_id r ∈ walk d) (ds_resources s);
  af_resolved : Forall (fun r => str_trim (dr_original r) <> "" /\
    exists base, url_join base (str_trim (dr_original r)) = Some (dr_resolved_url r)) (ds_resources s);
}.

Lemma nothing_found : accounted_for (MkDocumentResources [] ∅).
Proof.
  split; cbn [ds_resources ds_targets length map]; try done; try constructor; try lia.
  rewrite lookup_empty. by intros [].
Qed.

Lemma add_reference_accounted node_id original role target local base s s' :
  accounted_for s -> target_in d target -> is_Some (element_at d node_id) -> node_id ∈ walk d ->
  add_reference maximum node_id original role target local base s = Ok s' -> accounted_for s'.
Proof.
  intros A Ht Hn Hw. unfold add_reference. cbv zeta. destruct (bool_decide_reflect (str_trim original = "")) as [|Hne];
    [intros [= <-]; done|]. cbn [orb]. destruct (local && _); [by intros [= <-]|].
  destruct (Z.leb_spec maximum (Z.of_nat (length (ds_resources s)))); [done|].
  intros (resolved & Hr & (id & Hid & [= <-])%rbind_ok)%rbind_ok.
  assert (id = Z.of_nat (length (ds_resources s))) as ->.
  { unfold try_from in Hid. destruct (_ && _); [by injection Hid|done]. }
  destruct (url_join base (str_trim original)) as [u|] eqn:Hu; [|done]. injection Hr as ->.
  destruct A as [B I T P O R]. split; cbn [ds_resources ds_targets].
  - rewrite length_app. simpl. lia.
  - rewrite map_app, length_app, I. simpl. rewrite Nat.add_1_r, seq_S, map_app. done.
  - intros i. rewrite length_app. simpl. rewrite lookup_insert_is_Some', T. lia.
  - intros i t [[<- <-]|[_ Hi]]%lookup_insert_Some; [done|eauto].
  - apply Forall_app. split; [done|]. by constructor.
  - apply Forall_app. split; [done|]. constructor; [|constructor]. simpl. eauto.
Qed.

(** Folding steps that keep the account. *)
Lemma fold_accounted {A} (f : A -> DocumentResources -> Res DocumentResources) l s s' :
  (forall x s s', x ∈ l -> accounted_for s -> f x s = Ok s' -> accounted_for s') ->
  accounted_for s -> fold_res f l s = Ok s' -> accounted_for s'.
Proof.
  intros Hf Hs Hr. eapply (fold_res_ok accounted_for (fun _ => True)); [|exact Hs|exact Hr].
  intros x s1 s2 Hx H1 H2. split; [|done]. by eapply Hf.
Qed.

Lemma add_css_accounted node_id container css role base s s' :
  accounted_for s -> container_in d container -> is_Some (element_at d node_id) -> node_id ∈ walk d ->
  add_css_references maximum node_id container css role base s = Ok s' -> accounted_for s'.
Proof.
  intros A Hc Hn Hw (refs & _ & Hf)%rbind_ok. eapply fold_accounted; [|exact A|exact Hf].
  intros r s1 s2 _ A1 Hr. eapply add_reference_accounted; [exact A1| | | |exact Hr]; done.
Qed.

Lemma attribute_container node_id name attrs index a :
  element_at d node_id = Some (name, attrs) -> attrs !! index = Some a -> container_in d (InAttribute node_id index).
Proof. intros He Ha. exists (at_value a). simpl. rewrite He. simpl. by rewrite Ha. Qed.

Lemma discover_attribute_accounted base node_id name attrs index a s s' :
  node_id ∈ walk d -> element_at d node_id = Some (name, attrs) -> attrs !! index = Some a -> accounted_for s ->
  discover_attribute maximum base node_id name attrs index a s = Ok s' -> accounted_for s'.
Proof.
  intros Hw He Ha A. pose proof (attribute_container _ _ _ _ _ He Ha) as Hc.
  assert (is_Some (element_at d node_id)) as Hn by (rewrite He; eauto).
  unfold discover_attribute. cbv zeta. destruct (bool_decide (qn_ns (at_name a) = ns_none) && bool_decide (qn_local (at_name a) = "style")); [by apply add_css_accounted|].
  match goal with |- match ?x with _ => _ end = _ -> _ => destruct x end; [by apply add_css_accounted|].
  destruct (bool_decide (qn_ns (at_name a) = ns_none) && bool_decide (qn_local (at_name a) = "srcset")).
  - intros (refs & _ & Hf)%rbind_ok. eapply fold_accounted; [|exact A|exact Hf].
    intros r s1 s2 _ A1 Hr. eapply add_reference_accounted; [exact A1| | | |exact Hr]; done.
  - match goal with |- match ?x with _ => _ end = _ -> _ => destruct x end; [|by intros [= <-]].
    by apply add_reference_accounted.
Qed.

Lemma discover_style_accounted base node_id name attrs s s' :
  node_id ∈ walk d -> is_Some (element_at d node_id) -> accounted_for s ->
  discover_style maximum base d node_id name attrs s = Ok s' -> accounted_for s'.
Proof.
  intros Hw Hn A. unfold discover_style. match goal with |- (if ?b then _ else _) = _ -> _ => destruct b end; [|by intros [= <-]].
  intros (css_base & _ & Hf)%rbind_ok. eapply fold_accounted; [|exact A|exact Hf].
  intros child s1 s2 _ A1. cbn beta. destruct (node_data d child) as [x|] eqn:Hx; [|by intros [= <-]].
  destruct x; try (by intros [= <-]). apply add_css_accounted; [done| |done|done].
  exists contents. simpl. by rewrite Hx.
Qed.

Lemma discover_node_accounted base node_id s s' :
  node_id ∈ walk d -> accounted_for s -> discover_node maximum base d node_id s = Ok s' -> accounted_for s'.
Proof.
  intros Hw A. unfold discover_node. destruct (element_at d node_id) as [[name attrs]|] eqn:He; [|by intros [= <-]].
  intros (s1 & Hf & Hst)%rbind_ok. eapply discover_style_accounted; [done|by rewrite He| |exact Hst].
  eapply fold_accounted; [|exact A|exact Hf]. intros [index a] s2 s3 Hin A2 Ha.
  apply elem_of_lookup_imap in Hin as (i & x & [= -> ->] & Hl). by eapply discover_attribute_accounted.
Qed.

Lemma discovery_accounted base r : document_resources_bounded d base maximum = Ok r -> accounted_for r.
Proof.
  intros Hr. eapply fold_accounted; [|exact nothing_found|exact Hr].
  intros node_id s s' Hw A. by apply discover_node_accounted.
Qed.
End Document.

(** ** The first loop of the rewriting *)

Lemma element_update d node_id f j :
  element_at (update_attrs node_id f d) j =
  (fun e => if decide (node_id = j) then (e.1, f e.2) else e) <$> element_at d j.
Proof.
  unfold element_at, node_data. rewrite (pr_node _ _ _ _ (update_attrs_pruned d node_id f)).
  destruct (node d j) as [n|]; [|done]. simpl. by destruct (decide (node_id = j)); destruct (nd_data n).
Qed.

Lemma text_update d node_id f j s :
  node_data d j = Some (NText s) -> node_data (update_attrs node_id f d) j = Some (NText s).
Proof.
  unfold node_data. rewrite (pr_node _ _ _ _ (update_attrs_pruned d node_id f)).
  destruct (node d j) as [n|]; [|done]. simpl. intros [= ->]. by destruct (decide (node_id = j)).
Qed.

Lemma set_attribute_value_ok d node_id index value :
  container_in d (InAttribute node_id index) ->
  exists d', set_attribute_value node_id index value d = Ok d' /\ (forall c, container_in d c -> container_in d' c).
Proof.
  intros (text & ([name attrs] & He & (a & Ha & _)%rbind_ok)%rbind_ok). unfold set_attribute_value.
  destruct (element_at d node_id) as [e|] eqn:Eel; [|done]. injection He as ->. cbn [ok_or rbind].
  destruct (attrs !! index) as [a'|] eqn:Eat; [|done]. injection Ha as ->. cbn [ok_or rbind].
  eexists. split; [done|]. intros [n i|n] [t Ht]; simpl in Ht |- *.
  - destruct (element_at d n) as [[nm at']|] eqn:En; [|done]. cbn [ok_or rbind] in Ht.
    destruct (at' !! i) as [b|] eqn:Eb; [|done]. unfold container_in. simpl. rewrite element_update, En. simpl.
    destruct (decide (node_id = n)); simpl.
    + destruct (decide (index = i)) as [->|Hne].
      * rewrite list_lookup_alter_eq, Eb. simpl. eauto.
      * rewrite list_lookup_alter_ne by done. rewrite Eb. simpl. eauto.
    + rewrite Eb. simpl. eauto.
  - destruct (node_data d n) as [x|] eqn:Ex; [|done]. destruct x; try done. exists contents. simpl.
    by rewrite (text_update d node_id _ n contents Ex).
Qed.

Section Rewrite.
Context `{UrlLib} `{CssTokens}.

Lemma push_change_containers (P : TextContainer -> Prop) c x groups :
  P c -> Forall (fun g : TextContainer * list Change => P g.1) groups ->
  Forall (fun g => P g.1) (push_change c x groups).
Proof.
  intros Hc Hg. induction Hg as [|[c' xs] groups Hx Hg IH]; simpl; [by repeat constructor|].
  destruct (container_compare c c'); repeat (constructor; auto).
Qed.

Lemma rewrite_targets_ok d r replacements s :
  (forall id t, ds_targets r !! id = Some t -> target_in d t) ->
  Forall (fun p : Z * string => is_Some (ds_targets r !! p.1)) replacements ->
  (forall c, container_in d c -> container_in s.1 c) -> Forall (fun g => container_in s.1 g.1) s.2 ->
  exists s', fold_res (rewrite_target r) replacements s = Ok s' /\ Forall (fun g => container_in s'.1 g.1) s'.2.
Proof.
  intros Hp Hr. revert s. induction Hr as [|[id text] replacements [t Ht] _ IH]; intros s Hd Hs; [eauto|].
  cbn [fold_res]. unfold rewrite_target at 1. simpl in Ht. rewrite Ht. cbn [ok_or rbind].
  pose proof (Hp id t Ht) as Hin. destruct t as [node_id index|container range syntax]; simpl in Hin.
  - destruct (set_attribute_value_ok s.1 node_id index text (Hd _ Hin)) as (d1 & -> & Hk). cbn [rbind].
    apply (IH (d1, s.2)); [intros c Hc; apply Hk, Hd, Hc|]. cbn [fst snd].
    apply (list.Forall_impl _ _ _ Hs). intros g Hg. apply Hk, Hg.
  - apply (IH (s.1, _)); [done|]. simpl. apply (push_change_containers (container_in s.1)); [auto|done].
Qed.

End Rewrite.

(** ** Sample references *)
Module DiscoverSamples.

Import VerifySamples.


Definition enough (n : Z) : bool := n <=? usize_max.

Lemma enough_all n : 0 <= n <= usize_max -> enough n = true.
Proof. intros H. apply Z.leb_le. lia. Qed.

Definition sample_pieces : list Piece :=
  [ MkPiece (as_bytes "a{src:") (as_bytes "url(x)") "url(y)"; MkPiece (as_bytes ";b:") (as_bytes "url(z)") "none" ].

Lemma rewrite_substitutes_witness :
  rewrite_ranges enough "a{src:url(x);b:url(z)}"
    [(MkRange 15 21, "none"); (MkRange 6 12, "url(y)")] = Ok "a{src:url(y);b:none}".
Proof.
  change "a{src:url(x);b:url(z)}" with (string_of_list_ascii (old_text sample_pieces (as_bytes "}"))).
  change "a{src:url(y);b:none}" with (string_of_list_ascii (new_text sample_pieces (as_bytes "}"))).
  apply (rewrite_substitutes enough sample_pieces (as_bytes "}")).
  - apply Permutation_swap.
  - apply (bool_decide_unpack _). vm_compute. exact I.
  - repeat constructor.
  - vm_compute. discriminate.
  - exact enough_all.
Defined.

(** A quote, a backslash, a line break, a control character and one outside
    of ASCII. *)
Definition sample_address : list Z := [34; 92; 10; 1; 159; 8364; 97].

Lemma css_quoting_round_trip_witness :
  exists token, read_string Plain token = Some (sample_address, [41]).
Proof.
  destruct (css_quoting_round_trip sample_address) as (token & _ & Ht).
  - repeat constructor; unfold scalar; lia.
  - exists token. exact Ht.
Defined.

Definition sample_candidates : list Candidate :=
  [ MkCandidate (as_bytes "small.png") (as_bytes "1x"); MkCandidate (as_bytes "large.png") (as_bytes "2x") ].
Definition sample_replacements : list bytes := [as_bytes "data:image/png,a,b"; as_bytes "data:,"  ++ as_bytes "c"].

Lemma plain_candidate_check url descriptor :
  forallb (fun a => negb (is_ascii_whitespace a)) url = true ->
  match url with a :: _ => negb (bool_decide (a = comma)) && (byte_val a <? 128) | [] => false end = true ->
  match rev url with a :: _ => negb (bool_decide (a = comma)) | [] => false end = true ->
  forallb (fun a => bool_decide (a ∉ [comma; "("%char; ")"%char])) descriptor = true ->
  plain_candidate (MkCandidate url descriptor).
Proof.
  intros Hw Hf Hl Hd. split; simpl.
  - apply list.Forall_forall. intros a Ha. rewrite forallb_forall in Hw. specialize (Hw a (proj1 (list_elem_of_In _ _) Ha)).
    by apply negb_true_iff in Hw.
  - destruct url as [|a url]; [done|]. apply andb_prop in Hf as [Hc Hb]. exists a, url. split; [done|].
    split; [by apply negb_true_iff, bool_decide_eq_false in Hc|left; lia].
  - destruct (rev url) as [|a l] eqn:E; [done|]. exists a, (rev l). split; [|by apply negb_true_iff, bool_decide_eq_false in Hl].
    rewrite <- (rev_involutive url), E. done.
  - apply list.Forall_forall. intros a Ha. rewrite forallb_forall in Hd. specialize (Hd a (proj1 (list_elem_of_In _ _) Ha)).
    by apply bool_decide_eq_true in Hd.
Qed.

Lemma srcset_round_trip_witness :
  exists rewritten,
    rewrite_ranges enough "small.png 1x, large.png 2x"
      [(MkRange 0 9, "data:image/png,a,b"); (MkRange 14 23, "data:,c")] = Ok rewritten /\
    map rf_value (default [] (match srcset_references_bounded rewritten 2 with Ok l => Some l | Err _ => None end))
    = ["data:image/png,a,b"; "data:,c"].
Proof.
  destruct (srcset_round_trip enough sample_candidates sample_replacements 2) as (_ & rewritten & Hr & Hs).
  - do 2 (constructor; [apply plain_candidate_check; reflexivity|]); constructor.
  - do 2 (constructor; [apply plain_candidate_check; reflexivity|]); constructor.
  - reflexivity.
  - vm_compute. discriminate.
  - vm_compute. discriminate.
  - exact enough_all.
  - exists rewritten. split; [exact Hr|]. rewrite Hs. reflexivity.
Defined.

(** ** A document *)

(** A tokeniser for the two texts below. *)
#[local] Instance sample_tokens : CssTokens := {|
  css_components css :=
    if bool_decide (css = "b{c:url(x.png)}") then
      [COther; CBlock [COther; COther; CUnquotedUrl "x.png" (MkRange 4 14)]]
    else if bool_decide (css = "@import 't.css';") then
      [CAtKeyword "import"; CSpace; CQuotedString "t.css" (MkRange 8 15); CSemicolon]
    else [] |}.

Definition linked_calls : list SinkCall :=
  [ element "html" []; Append 0 (AppendNode 1);
    element "style" []; Append 1 (AppendNode 2); Append 2 (AppendText "@import 't.css';");
    element "img" [("src", "a.png"); ("srcset", "s.png 1x, l.png 2x"); ("style", "b{c:url(x.png)}")];
    Append 1 (AppendNode 4) ].

Definition linked_page : Document := sink_calls linked_calls sink_new.

Definition linked_resources : DocumentResources :=
  match document_resources_bounded linked_page "https://a/" 5 with Ok r => r | Err _ => MkDocumentResources [] ∅ end.

Example linked_originals :
  map dr_original (ds_resources linked_resources) = ["t.css"; "a.png"; "s.png"; "l.png"; "x.png"].
Proof. vm_compute. reflexivity. Qed.


End DiscoverSamples.
