(* ===== verification/Effects.v ===== *)
(** * Effects of the capture pipeline

    The capture pipeline of [offprint-rs/core/src/pipeline] changes a state,
    returns errors and asks the outside: the browser page, the resolver of host
    names, the file system, the cancellation token.  This file has the state and
    error monad the later files are written in, and the rules to reason about
    them.

    What is asked is kept as a trace of actions in the state, the last one
    first; an answer is a function of the trace so far.  An [async] call that
    waits is an action like the others: what happens elsewhere in the meantime
    can only show in the answers. *)

From Stdlib Require Import ZArith Lia Ascii String.
From stdpp Require Import base tactics list gmap strings numbers.
From S2P Require Import Prelude.
From S2P Require Import Errors.

#[local] Open Scope Z_scope.
#[local] Open Scope list_scope.

(** ** The monad *)

Definition Eff (S A : Type) : Type := S -> Res A * S.

Definition eret {S A} (a : A) : Eff S A := fun s => (Ok a, s).
Definition eerr {S A} (e : OffprintError) : Eff S A := fun s => (Err e, s).
Definition elift {S A} (r : Res A) : Eff S A := fun s => (r, s).
Definition eget {S} : Eff S S := fun s => (Ok s, s).
Definition emodify {S} (f : S -> S) : Eff S unit := fun s => (Ok tt, f s).

Definition ebind {S A B} (m : Eff S A) (k : A -> Eff S B) : Eff S B := fun s =>
  match m s with
  | (Ok a, s') => k a s'
  | (Err e, s') => (Err e, s')
  end.

(** The answer of a computation as a value. *)
Definition eattempt {S A} (m : Eff S A) : Eff S (Res A) := fun s => let '(r, s') := m s in (Ok r, s').

Declare Scope eff_scope.
Notation "x <-! m ;; k" := (ebind m (fun x => k))
  (at level 60, m at next level, right associativity) : eff_scope.
Notation "' x <-! m ;; k" := (ebind m (fun x => k))
  (at level 20, x pattern, m at level 59, k at level 200) : eff_scope.
Notation "'do!' m ;; k" := (ebind m (fun _ => k))
  (at level 60, m at next level, right associativity) : eff_scope.
#[global] Open Scope eff_scope.

(** An operation of a part of the state. *)
Definition epart {S T A} (get : S -> T) (set : T -> S -> S) (m : T -> Res A * T) : Eff S A := fun s =>
  let '(r, t) := m (get s) in (r, set t s).

Fixpoint efold {S A B} (f : A -> B -> Eff S B) (l : list A) (b : B) : Eff S B :=
  match l with
  | [] => eret b
  | x :: l' => b' <-! f x b ;; efold f l' b'
  end.

Definition efor {S A} (f : A -> Eff S unit) (l : list A) : Eff S unit := efold (fun x _ => f x) l tt.

(** ** Reasoning *)

(** What holds after a computation that returns, and after one that fails. *)
Definition after {S A} (m : Eff S A) (Q : A -> S -> Prop) (F : OffprintError -> S -> Prop) (s : S) : Prop :=
  match m s with
  | (Ok a, s') => Q a s'
  | (Err e, s') => F e s'
  end.

Section After.
Context {S : Type}.
Implicit Types (s : S).

Lemma after_mono {A} (m : Eff S A) (Q Q' : A -> S -> Prop) (F F' : OffprintError -> S -> Prop) s :
  after m Q F s -> (forall a t, Q a t -> Q' a t) -> (forall e t, F e t -> F' e t) -> after m Q' F' s.
Proof. unfold after. destruct (m s) as [[a|e] t]; auto. Qed.

Lemma after_ret {A} (a : A) (Q : A -> S -> Prop) F s : Q a s -> after (eret a) Q F s.
Proof. done. Qed.

Lemma after_err {A} e (Q : A -> S -> Prop) (F : OffprintError -> S -> Prop) s : F e s -> after (eerr e) Q F s.
Proof. done. Qed.

Lemma after_get (Q : S -> S -> Prop) F s : Q s s -> after eget Q F s.
Proof. done. Qed.

Lemma after_modify (f : S -> S) (Q : unit -> S -> Prop) F s : Q tt (f s) -> after (emodify f) Q F s.
Proof. done. Qed.

Lemma after_lift {A} (r : Res A) (Q : A -> S -> Prop) (F : OffprintError -> S -> Prop) s :
  (forall a, r = Ok a -> Q a s) -> (forall e, r = Err e -> F e s) -> after (elift r) Q F s.
Proof. unfold after, elift. destruct r; auto. Qed.

Lemma after_bind {A B} (m : Eff S A) (k : A -> Eff S B) Q F s :
  after m (fun a => after (k a) Q F) F s -> after (ebind m k) Q F s.
Proof. unfold after, ebind. destruct (m s) as [[a|e] t]; auto. Qed.

Lemma after_attempt {A} (m : Eff S A) (Q : Res A -> S -> Prop) F s :
  after m (fun a => Q (Ok a)) (fun e => Q (Err e)) s -> after (eattempt m) Q F s.
Proof. unfold after, eattempt. destruct (m s) as [[a|e] t]; auto. Qed.

Lemma after_part {T A} (get : S -> T) (set : T -> S -> S) (m : T -> Res A * T) Q F s :
  (forall a t, m (get s) = (Ok a, t) -> Q a (set t s)) ->
  (forall e t, m (get s) = (Err e, t) -> F e (set t s)) ->
  after (epart get set m) Q F s.
Proof. unfold after, epart. destruct (m (get s)) as [[a|e] t]; auto. Qed.

(** A loop keeps an invariant on the list done, the accumulator and the state. *)
Lemma after_fold {A B} (f : A -> B -> Eff S B) l (I : list A -> B -> S -> Prop) F : forall done b s,
  I done b s ->
  (forall before x rest b s, done ++ l = before ++ x :: rest -> I before b s ->
     after (f x b) (I (before ++ [x])) F s) ->
  after (efold f l b) (I (done ++ l)) F s.
Proof.
  induction l as [|x l IH]; intros done b s Hi Hstep; simpl.
  - rewrite app_nil_r. by apply after_ret.
  - apply after_bind. eapply after_mono; [by apply (Hstep done x l b s) | | done].
    intros b' t Hi'. cbn beta. replace (done ++ x :: l) with ((done ++ [x]) ++ l) by by rewrite <- app_assoc.
    apply IH; [done|]. intros before y rest b2 s2 E. apply (Hstep before y rest). by rewrite <- E, <- app_assoc.
Qed.

Lemma after_fold_inv {A B} (f : A -> B -> Eff S B) l (I : B -> S -> Prop) F b s :
  I b s ->
  (forall x b s, x ∈ l -> I b s -> after (f x b) I F s) ->
  after (efold f l b) I F s.
Proof.
  intros Hi Hstep. apply (after_fold f l (fun _ => I) F [] b s Hi).
  intros before x rest b' s' E Hi'. apply Hstep; [|done]. simpl in E. rewrite E. apply elem_of_app. right. left.
Qed.

(** A run that returned or failed, from what holds after every run. *)
Lemma after_ok {A} (m : Eff S A) Q F s a t : after m Q F s -> m s = (Ok a, t) -> Q a t.
Proof. unfold after. by intros H E; rewrite E in H. Qed.

Lemma after_run {A} (m : Eff S A) (Q : A -> S -> Prop) (F : OffprintError -> S -> Prop) s :
  (forall a t, m s = (Ok a, t) -> Q a t) -> (forall e t, m s = (Err e, t) -> F e t) -> after m Q F s.
Proof. unfold after. destruct (m s) as [[a|e] t]; auto. Qed.
End After.

(** ** Equal runs *)

Definition same_runs {S A} (m m' : Eff S A) : Prop := forall s, m s = m' s.

#[export] Instance same_runs_equivalence {S A} : Equivalence (@same_runs S A).
Proof.
  split.
  - by intros m s.
  - by intros m m' H s; rewrite H.
  - intros m m' m'' H H' s. by rewrite H, H'.
Qed.

#[export] Instance ebind_proper {S A B} :
  Proper (same_runs ==> pointwise_relation A same_runs ==> same_runs) (@ebind S A B).
Proof.
  intros m m' H k k' Hk s. unfold ebind. rewrite H. destruct (m' s) as [[a|e] t]; [apply Hk|done].
Qed.

#[export] Instance eattempt_proper {S A} : Proper (same_runs ==> same_runs) (@eattempt S A).
Proof. intros m m' H s. unfold eattempt. by rewrite H. Qed.

Lemma efold_same {S A B} (f g : A -> B -> Eff S B) l : (forall x b, x ∈ l -> same_runs (f x b) (g x b)) ->
  forall b, same_runs (efold f l b) (efold g l b).
Proof.
  induction l as [|x l IH]; intros H b; [done|]. simpl.
  rewrite (H x b) by left. apply ebind_proper; [done|]. intros b'. apply IH. intros y c Hy. apply H. by right.
Qed.

Ltac effects :=
  repeat first
    [ apply after_bind | apply after_get | apply after_modify | apply after_attempt
    | apply after_err | apply after_ret ].
