(* ===== verification/Browser.v ===== *)
(** * The browser page as the pipeline sees it

    Models the records of [offprint-rs/browser/src/backend.rs] and
    [observation.rs] that the capture pipeline exchanges with a page session, the
    events of [offprint-rs/model/src/event.rs], and what the pipeline asks of its
    surroundings as actions of a trace with answers.

    An action that waits is one step; what runs at the same time elsewhere can
    only change the answers, and every answer is possible. *)

From Stdlib Require Import ZArith Lia Ascii String.
From stdpp Require Import base tactics list gmap strings numbers.
From S2P Require Import Prelude.
From S2P Require Import Errors.
From S2P Require Import Fs.
From S2P Require Import Io.
From S2P Require Import Records.
From S2P Require Import ContentStore.
From S2P Require Import Network.
From S2P Require Import Requests.
From S2P Require Import Schedule.
From S2P Require Import Html.
From S2P Require Import Effects.

#[local] Open Scope string_scope.
#[local] Open Scope list_scope.
#[local] Open Scope Z_scope.

(** ** Observations *)

Record ObservationViewport := MkObservedViewport {
  ov_width : Z; ov_height : Z; ov_scale : string; ov_scroll_x : string; ov_scroll_y : string;
}.

Record ObservationWarning := MkObservedWarning { ow_code : string; ow_message : string }.

Inductive VisualFallbackKind := FallbackCanvas | FallbackVideo.

Record VisualFallback := MkFallback {
  vf_id : string;
  vf_kind : VisualFallbackKind;
  vf_x : string; vf_y : string; vf_width : string; vf_height : string;
}.

Record SelectionObservation := MkSelection { so_ranges : Z; so_nodes : Z }.

Record FrameOwnerObservation := MkOwner { fo_original_path : list Z; fo_retained_path : list Z }.

Record FrameObservation := MkObservation {
  ob_doctype : string;
  ob_html : string;
  ob_requested_url : string;
  ob_final_url : string;
  ob_base_url : string;
  ob_title : string;
  ob_encoding : string;
  ob_viewport : ObservationViewport;
  ob_frames : Z;
  ob_nodes : Z;
  ob_subtree_nodes : Z;
  ob_warnings : list ObservationWarning;
  ob_visual_fallbacks : list VisualFallback;
  ob_selection : SelectionObservation;
  ob_frame_owners : list FrameOwnerObservation;
}.

(** ** The page session *)

Record ReadinessObservation := MkReady {
  ro_reason : string;
  ro_elapsed : Z;
  ro_in_flight_requests : Z;
  ro_mutation_quiet : bool;
  ro_fonts_ready : bool;
}.

Record AttachedFrame := MkAttached {
  af_session_id : string;
  af_target_id : string;
  af_parent_session_id : string;
  af_url : string;
}.

Record ObservationLimits := MkObservationLimits {
  ol_frame_depth : Z;
  ol_maximum_chunk_bytes : Z;
  ol_maximum_frame_depth : Z;
  ol_maximum_frames : Z;
  ol_maximum_nodes : Z;
  ol_maximum_payload_bytes : Z;
}.

Record ObservedFrame := MkObserved { of_observation : FrameObservation; of_encoded_bytes : Z }.

Record NavigationRedirect := MkRedirect { nr_from : url; nr_to : url; nr_status : Z }.

Record NavigationResult := MkNavigation {
  nv_frame_id : string;
  nv_final_url : url;
  nv_redirects : list NavigationRedirect;
}.

(** A body is the sequence of the items of its stream. *)
Record LoadedResource := MkLoaded {
  lr_final_url : url;
  lr_redirects : list url;
  lr_status : Z;
  lr_media_type : option string;
  lr_encoded_length : option Z;
  lr_body : list (Res bytes);
  lr_source : ResourceRetrievalSource;
}.

Record OfflineBrowserObservation := MkOffline {
  of_attempted_urls : list string;
  of_page_errors : list string;
  of_stable : bool;
}.

(** ** Events *)

Inductive CaptureEvent :=
| CaptureStarted (capture : CaptureId)
| BrowserReady (capture : CaptureId) (browser : BrowserInfo)
| NavigationStarted (capture : CaptureId) (target : RedactedUrl)
| NavigationRedirected (capture : CaptureId) (from to : RedactedUrl) (status : Z)
| ReadinessChanged (capture : CaptureId) (milestone : string) (elapsed : Z)
| FrameCollected (capture : CaptureId) (frame : Z) (nodes : Z)
| ResourceDiscovered (capture : CaptureId) (resource : Z)
| ResourceProgress (capture : CaptureId) (completed discovered size : Z)
| TransformStarted (capture : CaptureId)
| ArtifactEncoding (capture : CaptureId) (size : Z)
| VerificationStarted (capture : CaptureId)
| EventWarning (capture : CaptureId) (warning : CaptureWarning)
| CaptureSucceeded (capture : CaptureId) (verification : VerificationReport)
| CaptureFailed (capture : CaptureId) (error : OffprintError)
| CaptureCancelled (capture : CaptureId).

Definition event_is_terminal (e : CaptureEvent) : bool :=
  match e with CaptureSucceeded _ _ | CaptureFailed _ _ | CaptureCancelled _ => true | _ => false end.

(** ** The surroundings *)

Inductive Action :=
| ALookup (host : string) (port : Z)
| ACanonicalize (path : PortablePath)
| AInsert
| APoll
| AEmit (event : CaptureEvent)
| AApplyCredentials (initial : url)
| AEnableGuard (origin : url)
| ANavigate (target : url) (redirect_limit : Z)
| ASettle
| AFreezeFrames
| AAttachedFrames (maximum : Z)
| AOwnerPath (frame : AttachedFrame)
| AObserve (session : string) (frame : Z) (limits : ObservationLimits)
| AScreenshot (session : string) (fallback : VisualFallback) (maximum : Z)
| ALoad (session frame : string) (target : url) (maximum : Z)
| AClock
| AOpenStore
| AOpenPage (offline : bool)
| AClosePage
| AStage (content : bytes)
| AVerifyOffline (target : url)
| ADecision
| ATimestamp
| AFiles
| AWrite.

Abbreviation Trace := (list Action).

(** Who asks for the cancellation of a job: a caller of [CaptureJob::cancel] or the
    runtime, or the deadline of the capture. *)
Inductive Requester := Nobody | ByCaller | ByDeadline.

(** An answer is given to the trace that has the question as its last action:
    [tokio::net::lookup_host], [tokio::fs::canonicalize], the file operations of
    an insertion into the content store, the cancellation token, the methods of
    [PageSession], the clock in milliseconds, the temporary directory of the
    content store, [RuntimeState::open_page] and the closing of the page, the
    temporary file of the offline verification, who has asked for the cancellation
    of the job since the last look, the time of day, what goes wrong with the calls
    to the file system, and how much of a buffer the system takes. *)
Class Environment := {
  env_lookup : Trace -> option (list IpAddr);
  env_canonicalize : Trace -> option PortablePath;
  env_faults : Trace -> Faults;
  env_cancelled : Trace -> bool;
  env_unit : Trace -> Res unit;
  env_navigate : Trace -> Res NavigationResult;
  env_settle : Trace -> Res ReadinessObservation;
  env_attached : Trace -> Res (list AttachedFrame);
  env_owner_path : Trace -> Res (list Z);
  env_observe : Trace -> Res ObservedFrame;
  env_screenshot : Trace -> Res bytes;
  env_load : Trace -> Res LoadedResource;
  env_clock : Trace -> Z;
  env_open_page : Trace -> Res BrowserInfo;
  env_stage : Trace -> option PortablePath;
  env_verify_offline : Trace -> Res OfflineBrowserObservation;
  env_requested : Trace -> Requester;
  env_timestamp : Trace -> string;
  env_disk : Trace -> list fault;
  env_taken : Trace -> nat;
  page_session : string;
}.

(** A state with a trace. *)
Class Traced (S : Type) := {
  trace_of : S -> Trace;
  record_action : Action -> S -> S;
  trace_recorded a s : trace_of (record_action a s) = a :: trace_of s;
}.

Section Ask.
Context `{Environment} {S : Type} `{Traced S}.

(** Ask, and read the answer off the trace. *)
Definition ask {A} (a : Action) (answer : Trace -> A) : Eff S A := fun s =>
  let s' := record_action a s in (Ok (answer (trace_of s')), s').

Definition emit (e : CaptureEvent) : Eff S unit := emodify (record_action (AEmit e)).

Definition cancelled_error : OffprintError := new_error "offprint.runtime.cancelled" Shutdown.

Definition check_cancelled : Eff S unit :=
  stop <-! ask APoll env_cancelled ;;
  if (stop : bool) then eerr cancelled_error else eret tt.

(** [cancellable]: the token is looked at before every turn of the future, the
    first and the last among them.  A future dropped in between ends with the
    same error, and what it did is the beginning of what is done here. *)
Definition cancellable {A} (m : Eff S A) : Eff S A :=
  do! check_cancelled ;; r <-! eattempt m ;; do! check_cancelled ;; elift r.

Definition load_resource_in_session (session frame : string) (u : url) (maximum : Z) : Eff S LoadedResource :=
  r <-! ask (ALoad session frame u maximum) env_load ;; elift r.
End Ask.
