(* ===== verification/Materialize.v ===== *)
(** * Loading and storing resources

    Models [offprint-rs/core/src/pipeline/resource_materialization.rs] and the
    redaction of URLs in [offprint-rs/model/src/url_value.rs].

    What the code asks of the browser page, of the resolver of host names, of
    the file system and of the cancellation token is an action of a trace, and
    [Environment] answers it; see Effects.v.  The accessors and the setters of
    [url::Url], which the code calls on values it cannot construct otherwise, are
    the class [UrlEdit]. *)

From Stdlib Require Import ZArith Lia Ascii String.
From stdpp Require Import base tactics list gmap strings numbers.
From S2P Require Import Prelude.
From S2P Require Import Errors.
From S2P Require Import Records.
From S2P Require Import Budget.
From S2P Require Import ContentStore.
From S2P Require Import Network.
From S2P Require Import Requests.
From S2P Require Import Schedule.
From S2P Require Import Sanitize.
From S2P Require Import Html.
From S2P Require Import Verify.
From S2P Require Import Effects.
From S2P Require Import Browser.

#[local] Open Scope string_scope.
#[local] Open Scope list_scope.
#[local] Open Scope Z_scope.

#[export] Instance RenderingRole_eq_dec : EqDecision RenderingRole.
Proof. solve_decision. Defined.

(** ** Redaction *)

(** [Url::username], [password], [query_pairs] (none without a query),
    [set_username], [set_password] (their failures are ignored), and
    [set_query(None)] with [query_pairs_mut().extend_pairs]. *)
Class UrlEdit := {
  url_username : url -> string;
  url_password : url -> option string;
  url_query_pairs : url -> option (list (string * string));
  url_set_username : string -> url -> url;
  url_set_password : string -> url -> url;
  url_replace_pairs : list (string * string) -> url -> url;
}.

Record RedactionPolicy := MkRedaction { secret_query_keys : gset string }.

Definition redaction_new (keys : list string) : RedactionPolicy :=
  MkRedaction (list_to_set (map to_ascii_lowercase keys)).

Definition redaction_default : RedactionPolicy := redaction_new
  ["access_token"; "api_key"; "apikey"; "auth"; "authorization"; "awsaccesskeyid"; "credential"; "key";
   "key-pair-id"; "password"; "policy"; "secret"; "signature"; "sig"; "token"].

Definition SECRET_SUFFIXES : list string :=
  ["accesskeyid"; "apikey"; "authorization"; "credential"; "password"; "secret"; "signature"; "token"].

Definition is_ascii_alphanumeric (c : ascii) : bool :=
  let n := byte_val c in
  ((48 <=? n) && (n <=? 57)) || ((65 <=? n) && (n <=? 90)) || ((97 <=? n) && (n <=? 122)).

(** [str::split] where a character is not alphanumeric; the bytes of a character
    beyond ASCII separate as the character does, up to empty parts. *)
Fixpoint alphanumeric_parts (l : bytes) : list bytes :=
  match l with
  | [] => [[]]
  | c :: l' =>
      if is_ascii_alphanumeric c then
        match alphanumeric_parts l' with
        | part :: parts => (c :: part) :: parts
        | [] => [[c]]
        end
      else [] :: alphanumeric_parts l'
  end.

Definition is_secret_query_key (p : RedactionPolicy) (key : string) : bool :=
  let key := to_ascii_lowercase key in
  bool_decide (key ∈ secret_query_keys p)
  || existsb (fun part => bool_decide (string_of_list_ascii part ∈ secret_query_keys p))
       (alphanumeric_parts (as_bytes key))
  || existsb (fun suffix => ends_with suffix key) SECRET_SUFFIXES.

Definition redact_pair (p : RedactionPolicy) (pair : string * string) : string * string :=
  (pair.1, if is_secret_query_key p pair.1 then "<redacted>" else pair.2).

Section Redaction.
Context `{UrlLib} `{UrlEdit} `{Hashing}.

Definition redact (p : RedactionPolicy) (u : url) : RedactedUrl :=
  if bool_decide (url_scheme u = "data") then "data:[redacted]"
  else
    let r := if bool_decide (url_username u = "") then u else url_set_username "<redacted>" u in
    let r := if is_some (url_password r) then url_set_password "<redacted>" r else r in
    match url_query_pairs r with
    | Some pairs => url_replace_pairs (map (redact_pair p) pairs) r
    | None => r
    end.

Definition source_summary (requested final : url) (p : RedactionPolicy) : SourceSummary :=
  MkSource (redact p requested) (sha256 (as_bytes requested)) (redact p final) (sha256 (as_bytes final)).
End Redaction.

(** ** Media types *)

Definition is_css (media : string) : bool := eq_ignore_ascii_case media "text/css".
Definition is_svg (media : string) : bool := eq_ignore_ascii_case media "image/svg+xml".
Definition is_html (media : string) : bool :=
  eq_ignore_ascii_case media "text/html" || eq_ignore_ascii_case media "application/xhtml+xml".

Definition is_media_type_token_byte (c : ascii) : bool :=
  is_ascii_alphanumeric c
  || existsb (fun x => bool_decide (c = x))
       ["!"; "#"; "$"; "&"; "^"; "_"; "."; "+"; "-"]%char.

(** [str::split_once('/')], with the rest in one piece. *)
Definition valid_media_type_essence (media : string) : option string :=
  let essence := media_type media in
  match split_once "/" essence with
  | None => None
  | Some (top_level, subtype) =>
      if bool_decide (top_level = "") || bool_decide (subtype = "")
         || bool_decide ("/"%char ∈ as_bytes subtype)
         || negb (forallb is_media_type_token_byte (as_bytes top_level))
         || negb (forallb is_media_type_token_byte (as_bytes subtype))
      then None else Some essence
  end.

(** The file extensions the inference knows, after those of the roles. *)
Definition MEDIA_EXTENSIONS : list (string * string) :=
  [(".png", "image/png"); (".jpg", "image/jpeg"); (".jpeg", "image/jpeg"); (".webp", "image/webp");
   (".gif", "image/gif"); (".woff2", "font/woff2"); (".woff", "font/woff"); (".mp4", "video/mp4");
   (".mp3", "audio/mpeg")].

(** What the code reads of a URL beside [UrlLib]: the view the network guard
    takes, the port, the path, and the path of a file URL; and the parsing of an
    address. *)
Class UrlView := {
  url_view : url -> Network.Url;
  url_port_or_known_default : url -> option Z;
  url_path : url -> string;
  url_to_file_path : url -> option PortablePath;
  url_from_file_path : PortablePath -> option url;
  parse_ip : string -> option IpAddr;
}.

Definition inferred_media_type `{UrlView} (role : RenderingRole) (u : url) : string :=
  let path := to_ascii_lowercase (url_path u) in
  if ends_with ".css" path || bool_decide (role = RoleStylesheet) then "text/css"
  else if ends_with ".svg" path || bool_decide (role = RoleSvg) then "image/svg+xml"
  else match list_find (fun e => ends_with e.1 path = true) MEDIA_EXTENSIONS with
       | Some (_, (_, media)) => media
       | None => if bool_decide (role = RoleFrame) then "text/html" else "application/octet-stream"
       end.

Definition effective_media_type `{UrlView} (media : option string) (role : RenderingRole) (u : url) : string :=
  match media ≫= valid_media_type_essence with
  | Some essence => essence
  | None => inferred_media_type role u
  end.

(** ** Validation of addresses *)

Section Validation.
Context `{UrlLib} `{UrlView} `{Networks} `{Environment} {S : Type} `{Traced S}.

Definition dns_error : OffprintError := set_retryable true (new_error "offprint.navigation.dns" Navigation).

Definition validate_network_url (g : NetworkGuard) (u : url) : Eff S unit :=
  let v := url_view u in
  do! elift (validate_url g v) ;;
  host <-! elift (ok_or (Network.url_host_str v) (new_error "offprint.navigation.host" Navigation)) ;;
  match parse_ip host with
  | Some address => elift (validate_resolved g v [address])
  | None =>
      port <-! elift (ok_or (url_port_or_known_default u) (new_error "offprint.navigation.port" Navigation)) ;;
      answer <-! ask (ALookup host port) env_lookup ;;
      addresses <-! elift (ok_or answer dns_error) ;;
      elift (validate_resolved g v addresses)
  end.

Definition file_root_error : OffprintError := new_error "offprint.input.file_root" Resource.

(** [Path::starts_with], by components. *)
Definition path_starts_with (path root : PortablePath) : bool :=
  bool_decide (components root `prefix_of` components path).

(** The roots are resolved one after the other, until one holds the path. *)
Fixpoint within_roots (path : PortablePath) (roots : list PortablePath) : Eff S unit :=
  match roots with
  | [] => eerr file_root_error
  | root :: roots' =>
      answer <-! ask (ACanonicalize root) env_canonicalize ;;
      match answer with
      | Some r => if path_starts_with path r then eret tt else within_roots path roots'
      | None => within_roots path roots'
      end
  end.

Definition validate_file_resource (u : url) (allowed_roots : list PortablePath) : Eff S unit :=
  path <-! elift (ok_or (url_to_file_path u) file_root_error) ;;
  answer <-! ask (ACanonicalize path) env_canonicalize ;;
  path <-! elift (ok_or answer file_root_error) ;;
  within_roots path allowed_roots.

Definition validate_capture_url (g : NetworkGuard) (u : url) (allowed_file_roots : list PortablePath) : Eff S unit :=
  let scheme := url_scheme u in
  if bool_decide (scheme = "http") || bool_decide (scheme = "https") then validate_network_url g u
  else if bool_decide (scheme = "file") then validate_file_resource u allowed_file_roots
  else eerr (new_error "offprint.navigation.scheme" Navigation).
End Validation.

(** ** The state of the resources of a capture

    [ResourceState] with the parts of the [ResourceResolver] that borrows it: the
    documents being transformed and the responses that were loaded ahead; and the
    trace. *)

Record Rendering := MkRendering {
  rn_budget : CaptureBudget;
  rn_store : ContentStore;
  rn_summary : ResourceSummary;
  rn_warnings : list CaptureWarning;
  rn_records : gmap Z ResourceRecord;
  rn_failed_loads : gmap (string * string * url) OffprintError;
  rn_embedded_digests : gset ContentDigest;
  rn_next_resource_id : Z;
  rn_frames : Z;
  rn_next_frame_id : Z;
  rn_active_css : gset url;
  rn_active_html : gset url;
  rn_active_svg : gset url;
  rn_prefetched : gmap Z (Res LoadedResource);
  rn_trace : Trace;
}.

Definition set_budget (b : CaptureBudget) (s : Rendering) : Rendering :=
  MkRendering b (rn_store s) (rn_summary s) (rn_warnings s) (rn_records s) (rn_failed_loads s)
    (rn_embedded_digests s) (rn_next_resource_id s) (rn_frames s) (rn_next_frame_id s) (rn_active_css s)
    (rn_active_html s) (rn_active_svg s) (rn_prefetched s) (rn_trace s).
Definition set_store (x : ContentStore) (s : Rendering) : Rendering :=
  MkRendering (rn_budget s) x (rn_summary s) (rn_warnings s) (rn_records s) (rn_failed_loads s)
    (rn_embedded_digests s) (rn_next_resource_id s) (rn_frames s) (rn_next_frame_id s) (rn_active_css s)
    (rn_active_html s) (rn_active_svg s) (rn_prefetched s) (rn_trace s).
Definition set_summary (x : ResourceSummary) (s : Rendering) : Rendering :=
  MkRendering (rn_budget s) (rn_store s) x (rn_warnings s) (rn_records s) (rn_failed_loads s)
    (rn_embedded_digests s) (rn_next_resource_id s) (rn_frames s) (rn_next_frame_id s) (rn_active_css s)
    (rn_active_html s) (rn_active_svg s) (rn_prefetched s) (rn_trace s).
Definition push_warning (w : CaptureWarning) (s : Rendering) : Rendering :=
  MkRendering (rn_budget s) (rn_store s) (rn_summary s) (rn_warnings s ++ [w]) (rn_records s) (rn_failed_loads s)
    (rn_embedded_digests s) (rn_next_resource_id s) (rn_frames s) (rn_next_frame_id s) (rn_active_css s)
    (rn_active_html s) (rn_active_svg s) (rn_prefetched s) (rn_trace s).
Definition set_records (x : gmap Z ResourceRecord) (s : Rendering) : Rendering :=
  MkRendering (rn_budget s) (rn_store s) (rn_summary s) (rn_warnings s) x (rn_failed_loads s)
    (rn_embedded_digests s) (rn_next_resource_id s) (rn_frames s) (rn_next_frame_id s) (rn_active_css s)
    (rn_active_html s) (rn_active_svg s) (rn_prefetched s) (rn_trace s).
Definition set_failed_loads (x : gmap (string * string * url) OffprintError) (s : Rendering) : Rendering :=
  MkRendering (rn_budget s) (rn_store s) (rn_summary s) (rn_warnings s) (rn_records s) x
    (rn_embedded_digests s) (rn_next_resource_id s) (rn_frames s) (rn_next_frame_id s) (rn_active_css s)
    (rn_active_html s) (rn_active_svg s) (rn_prefetched s) (rn_trace s).
Definition set_embedded_digests (x : gset ContentDigest) (s : Rendering) : Rendering :=
  MkRendering (rn_budget s) (rn_store s) (rn_summary s) (rn_warnings s) (rn_records s) (rn_failed_loads s)
    x (rn_next_resource_id s) (rn_frames s) (rn_next_frame_id s) (rn_active_css s)
    (rn_active_html s) (rn_active_svg s) (rn_prefetched s) (rn_trace s).
Definition set_next_resource_id (x : Z) (s : Rendering) : Rendering :=
  MkRendering (rn_budget s) (rn_store s) (rn_summary s) (rn_warnings s) (rn_records s) (rn_failed_loads s)
    (rn_embedded_digests s) x (rn_frames s) (rn_next_frame_id s) (rn_active_css s)
    (rn_active_html s) (rn_active_svg s) (rn_prefetched s) (rn_trace s).
Definition set_next_frame_id (x : Z) (s : Rendering) : Rendering :=
  MkRendering (rn_budget s) (rn_store s) (rn_summary s) (rn_warnings s) (rn_records s) (rn_failed_loads s)
    (rn_embedded_digests s) (rn_next_resource_id s) (rn_frames s) x (rn_active_css s)
    (rn_active_html s) (rn_active_svg s) (rn_prefetched s) (rn_trace s).
(** A resolver of its own: nothing is being transformed. *)
Definition set_resolver (css html svg : gset url) (prefetched : gmap Z (Res LoadedResource)) (s : Rendering) : Rendering :=
  MkRendering (rn_budget s) (rn_store s) (rn_summary s) (rn_warnings s) (rn_records s) (rn_failed_loads s)
    (rn_embedded_digests s) (rn_next_resource_id s) (rn_frames s) (rn_next_frame_id s) css html svg prefetched
    (rn_trace s).
Definition set_trace (x : Trace) (s : Rendering) : Rendering :=
  MkRendering (rn_budget s) (rn_store s) (rn_summary s) (rn_warnings s) (rn_records s) (rn_failed_loads s)
    (rn_embedded_digests s) (rn_next_resource_id s) (rn_frames s) (rn_next_frame_id s) (rn_active_css s)
    (rn_active_html s) (rn_active_svg s) (rn_prefetched s) x.

#[export] Instance Rendering_traced : Traced Rendering :=
  {| trace_of := rn_trace; record_action := fun a s => set_trace (a :: rn_trace s) s; trace_recorded _ _ := eq_refl |}.

(** [FrameRenderContext], with the frame the records name. *)
Record RenderContext `{Networks} := MkContext {
  cx_session_id : string;
  cx_browser_frame_id : string;
  cx_manifest_frame_id : Z;
  cx_guard : NetworkGuard;
  cx_request : CaptureRequest;
  cx_capture_id : CaptureId;
}.

Record LoadedResourceData := MkLoadedData {
  ld_bytes : bytes;
  ld_content : StoredContent;
  ld_media_type : string;
  ld_provenance : ResourceProvenance;
}.

(** ** Storing *)

Section Materialize.
Context `{UrlLib} `{UrlEdit} `{UrlView} `{Networks} `{Environment} `{Hashing} `{TempNames} `{DataUrls} `{Encodings}.
Context (cx : RenderContext).

Abbreviation Rn := (Eff Rendering).
#[local] Abbreviation limits := (rq_limits (cx_request cx)).

Definition resource_data_url (media : string) (b : bytes) : string :=
  "data:" ++ media ++ ";base64," ++ base64_encode b.

Definition insert_content (stream : list (Res bytes)) : Rn ContentInsertion :=
  f <-! ask AInsert env_faults ;;
  epart rn_store set_store
    (insert_stream f stream (lim_resource_bytes limits) (lim_total_resource_bytes limits)).

Definition read_content (c : StoredContent) : Rn bytes :=
  s <-! eget ;; elift (stored_read c (lim_resource_bytes limits) (cs_directory (rn_store s))).

(** [ResourceMaterializer::store_body] and [store_bytes], which differ in the
    stream. *)
Definition materialize (stream : list (Res bytes)) : Rn (bytes * StoredContent) :=
  inserted <-! insert_content stream ;;
  b <-! read_content (ci_content inserted) ;;
  eret (b, ci_content inserted).

(** [ResourceLoadContext::store_body] and [store_bytes]. *)
Definition store_body (stream : list (Res bytes)) : Rn (bytes * StoredContent) :=
  stored <-! materialize stream ;;
  do! epart rn_budget set_budget (reserve_resource_bytes (sc_bytes stored.2)) ;;
  eret stored.

Definition store_mismatch_error : OffprintError := new_error "offprint.resource.store" Internal.

Definition commit_bytes (b : bytes) (stored : option StoredContent) : Rn StoredContent :=
  match stored with
  | Some c =>
      if (sc_bytes c =? len_u64 b) && bool_decide (sc_digest c = sha256 b) then eret c else eerr store_mismatch_error
  | None => inserted <-! insert_content [Ok b] ;; eret (ci_content inserted)
  end.

(** ** Loading *)

Definition resource_provenance (source : ResourceRetrievalSource) (final : url) (redirects : list url)
    (status : option Z) (received : Z) : ResourceProvenance :=
  MkProvenance source (redact redaction_default final) (sha256 (as_bytes final)) status
    (map (redact redaction_default) redirects) received.

Definition resource_record (id frame_id : Z) (requested : url) (outcome : ResourceOutcome)
    (provenance : option ResourceProvenance) : ResourceRecord :=
  MkResource id frame_id (redact redaction_default requested) (sha256 (as_bytes requested)) outcome provenance.

Definition take_prefetched (id : Z) : Rn (option (Res LoadedResource)) := fun s =>
  (Ok (rn_prefetched s !! id),
   set_resolver (rn_active_css s) (rn_active_html s) (rn_active_svg s) (delete id (rn_prefetched s)) s).

Definition load_from_page (u : url) : Rn LoadedResource :=
  load_resource_in_session (cx_session_id cx) (cx_browser_frame_id cx) u (lim_resource_bytes limits).

Definition data_url_error : OffprintError := new_error "offprint.resource.data_url" Resource.

Definition saturating_mul (m a b : Z) : Z := Z.min m (a * b).

Definition load_data (u : url) (role : RenderingRole) : Rn LoadedResourceData :=
  let resource := url_without_fragment u in
  let encoded_limit := saturating_add u64_max (saturating_mul u64_max (lim_resource_bytes limits) 2) 1024 in
  if encoded_limit <? len_u64 (as_bytes resource) then eerr (new_error "offprint.resource.limit" Resource)
  else
    '(media, body) <-! elift (ok_or (data_url_process resource) data_url_error) ;;
    b <-! elift (ok_or body data_url_error) ;;
    '(b, content) <-! store_body [Ok b] ;;
    eret (MkLoadedData b content (effective_media_type (Some media) role u)
            (resource_provenance InlineData u [] None (sc_bytes content))).

Definition is_remote (b : BrowserSpec) : bool := match b with BrowserRemote _ => true | _ => false end.

Definition load_from_frame (u : url) (id : Z) (validate_file : bool) : Rn LoadedResource :=
  let resource := url_without_fragment u in
  found <-! take_prefetched id ;;
  match found with
  | Some loaded => elift loaded
  | None =>
      do! (if validate_file then
             if is_remote (rq_browser (cx_request cx))
             then eerr (new_error "offprint.input.remote_file" Validation)
             else validate_file_resource resource (cp_allowed_file_roots (rq_content (cx_request cx)))
           else eret tt) ;;
      load_from_page resource
  end.

Definition finish_loaded (requested : url) (role : RenderingRole) (loaded : LoadedResource)
    (source_override : option ResourceRetrievalSource) : Rn LoadedResourceData :=
  let source := default (lr_source loaded) source_override in
  let media := effective_media_type (lr_media_type loaded) role requested in
  '(b, content) <-! store_body (lr_body loaded) ;;
  eret (MkLoadedData b content media
          (resource_provenance source (lr_final_url loaded) (lr_redirects loaded) (Some (lr_status loaded))
             (sc_bytes content))).

Definition status_error (status : Z) : OffprintError :=
  set_retryable (500 <=? status) (new_error "offprint.resource.status" Resource).

Definition load_http (u : url) (role : RenderingRole) (id : Z) : Rn LoadedResourceData :=
  let resource := url_without_fragment u in
  found <-! take_prefetched id ;;
  loaded <-! match found with
             | Some loaded => elift loaded
             | None => do! validate_network_url (cx_guard cx) resource ;; load_from_page resource
             end ;;
  if (200 <=? lr_status loaded) && (lr_status loaded <? 400) then finish_loaded u role loaded None
  else eerr (status_error (lr_status loaded)).

Definition load (u : url) (role : RenderingRole) (id : Z) : Rn LoadedResourceData :=
  let scheme := url_scheme u in
  if bool_decide (scheme = "data") then load_data u role
  else if bool_decide (scheme = "http") || bool_decide (scheme = "https") then load_http u role id
  else if bool_decide (scheme = "blob") then
    loaded <-! load_from_frame u id false ;; finish_loaded u role loaded (Some OwningFrameRead)
  else if bool_decide (scheme = "file") then
    loaded <-! load_from_frame u id true ;; finish_loaded u role loaded (Some LocalFileRead)
  else eerr (new_error "offprint.resource.scheme" Resource).
End Materialize.
