(* ===== verification/Render.v ===== *)
(** * Resolving the resources of a frame

    Models [offprint-rs/core/src/pipeline/render.rs]: the references of a
    document are numbered, loaded ahead in batches, resolved one after the other
    with the resources they refer to in turn, and replaced by what was embedded.

    [String::from_utf8], [try_reserve_exact], the typed inventory of the CSS
    parser and the text of an error, which the error model leaves out, are the
    class [Platform]. *)

From Stdlib Require Import ZArith Lia Ascii String.
From stdpp Require Import base tactics list gmap strings numbers.
From S2P Require Import Prelude.
From S2P Require Import Errors.
From S2P Require Import Records.
From S2P Require Import Budget.
From S2P Require Import ContentStore.
From S2P Require Import Network.
From S2P Require Import Requests.
From S2P Require Import Schedule.
From S2P Require Import Dom.
From S2P Require Import Sanitize.
From S2P Require Import Sink.
From S2P Require Import Serialize.
From S2P Require Import Html.
From S2P Require Import Frames.
From S2P Require Import Verify.
From S2P Require Import Discover.
From S2P Require Import Effects.
From S2P Require Import Browser.
From S2P Require Import Materialize.

#[local] Open Scope string_scope.
#[local] Open Scope list_scope.
#[local] Open Scope Z_scope.

Class Platform := {
  is_utf8 : bytes -> bool;
  can_reserve : Z -> bool;
  typed_css_dependencies : string -> option (list string);
  error_message : OffprintError -> string;
}.

(** ** The counters *)

Definition rendering_new (b : CaptureBudget) (frames next_frame_id : Z) (t : Trace) : Rendering :=
  MkRendering b store_new (MkSummary 0 0 0 0 0 0) [] ∅ ∅ ∅ 0 frames next_frame_id ∅ ∅ ∅ ∅ t.

Definition with_discovered (n : Z) (s : ResourceSummary) : ResourceSummary :=
  MkSummary n (rs_embedded s) (rs_external s) (rs_omitted s) (rs_failed s) (rs_embedded_bytes s).

Definition count_embedded (s : ResourceSummary) : ResourceSummary :=
  MkSummary (rs_discovered s) (saturating_add u32_max (rs_embedded s) 1) (rs_external s) (rs_omitted s) (rs_failed s)
    (rs_embedded_bytes s).

Definition add_embedded_bytes (n : Z) (s : ResourceSummary) : ResourceSummary :=
  MkSummary (rs_discovered s) (rs_embedded s) (rs_external s) (rs_omitted s) (rs_failed s)
    (saturating_add u64_max (rs_embedded_bytes s) n).

Definition count_failed (s : ResourceSummary) : ResourceSummary :=
  MkSummary (rs_discovered s) (rs_embedded s) (rs_external s) (rs_omitted s)
    (saturating_add u32_max (rs_failed s) 1) (rs_embedded_bytes s).

Abbreviation Rn := (Eff Rendering).

Definition begin_inline_frame (d : Document) : Rn (Z * Z) :=
  nodes <-! elift (ok_or (try_from u64_max (Z.of_nat (node_count d))) (new_error "offprint.frame.nodes" Collection)) ;;
  s <-! eget ;;
  next <-! elift (ok_or (checked_add u64_max (rn_next_frame_id s) 1) (new_error "offprint.frame.limit" Collection)) ;;
  do! emodify (set_next_frame_id next) ;;
  eret (rn_next_frame_id s, nodes).

Definition begin_reference : Rn Z :=
  do! epart rn_budget set_budget add_resource ;;
  do! emodify (fun s => set_summary (with_discovered (saturating_add u32_max (rs_discovered (rn_summary s)) 1)
                                       (rn_summary s)) s) ;;
  s <-! eget ;;
  next <-! elift (ok_or (checked_add u32_max (rn_next_resource_id s) 1) resource_limit_error) ;;
  do! emodify (set_next_resource_id next) ;;
  eret (rn_next_resource_id s).

(** A [usize] has 64 bits. *)
Definition remaining_resources (maximum : Z) : Rn Z :=
  s <-! eget ;;
  let used := resources (rn_budget s) in
  if maximum <? used
  then eerr (with_detail "limit" (DNum maximum) (with_detail "attempted" (DNum used) resource_limit_error))
  else eret (maximum - used).

Definition terminal_error : OffprintError := resource_error "offprint.resource.terminal".

(** [BTreeMap::insert] replaces what was there. *)
Definition record (r : ResourceRecord) : Rn unit := fun s =>
  let s' := set_records (<[rr_id r := r]> (rn_records s)) s in
  if is_some (rn_records s !! rr_id r) then (Err terminal_error, s') else (Ok tt, s').

Definition incomplete_error (s : Rendering) (count : Z) : OffprintError :=
  with_detail "outcomes" (DNum (outcomes (rn_summary s)))
    (with_detail "records" (DNum count)
       (with_detail "discovered" (DNum (rs_discovered (rn_summary s))) (resource_error "offprint.resource.incomplete"))).

Definition validate_complete (s : Rendering) : Res unit :=
  count <-? ok_or (try_from u32_max (Z.of_nat (size (rn_records s)))) (resource_error "offprint.resource.incomplete") ;;
  if (count =? rs_discovered (rn_summary s)) && is_complete (rn_summary s) then Ok tt
  else Err (incomplete_error s count).

(** ** Outcomes *)

Section Render.
Context `{UrlLib} `{UrlEdit} `{UrlView} `{Networks} `{Environment} `{Hashing} `{TempNames} `{DataUrls} `{Encodings}.
Context `{HtmlParser} `{CssTokens} `{Platform}.
Context (cx : RenderContext).

#[local] Abbreviation limits := (rq_limits (cx_request cx)).

Definition progress : Rn unit :=
  s <-! eget ;;
  emit (ResourceProgress (cx_capture_id cx) (outcomes (rn_summary s)) (rs_discovered (rn_summary s))
          (rs_embedded_bytes (rn_summary s))).

Definition warn (code message : string) (id : Z) : Rn unit :=
  let w := MkWarning code message (Some (cx_manifest_frame_id cx)) (Some id) in
  do! emit (EventWarning (cx_capture_id cx) w) ;; emodify (push_warning w).

Definition embed_digest (c : StoredContent) (s : Rendering) : Rendering :=
  if bool_decide (sc_digest c ∈ rn_embedded_digests s) then s
  else set_summary (add_embedded_bytes (sc_bytes c) (rn_summary s))
         (set_embedded_digests ({[sc_digest c]} ∪ rn_embedded_digests s) s).

Definition record_embedded (u : url) (id : Z) (media : string) (b : bytes) (stored : option StoredContent)
    (provenance : ResourceProvenance) : Rn string :=
  let replacement := resource_data_url media b in
  content <-! commit_bytes cx b stored ;;
  do! emodify (fun s => set_summary (count_embedded (rn_summary s)) s) ;;
  do! emodify (embed_digest content) ;;
  do! record (resource_record id (cx_manifest_frame_id cx) u
                (OutcomeEmbedded (sc_digest content) media (sc_bytes content)) (Some provenance)) ;;
  do! progress ;;
  eret (match url_fragment u with Some f => (replacement ++ "#" ++ f)%string | None => replacement end).

Definition missing (u : url) (role : RenderingRole) (id : Z) (e : OffprintError) : Rn string :=
  do! record (resource_record id (cx_manifest_frame_id cx) u
                (OutcomeFailed (MkResourceError (err_code e) (error_message e) (err_retryable e))) None) ;;
  do! emodify (fun s => set_summary (count_failed (rn_summary s)) s) ;;
  do! progress ;;
  match cp_missing_resources (rq_content (cx_request cx)) with
  | MissingFail => eerr e
  | MissingWarn => do! warn (err_code e) (error_message e) id ;; eret (empty_resource_data_url role)
  end.

(** ** Nested resources

    A stylesheet, an image or a page that refers to other resources is
    transformed before it is embedded. *)

Inductive NestedKind := NestedCss | NestedSvg | NestedHtml.

Definition has_kind (k : NestedKind) (media : string) : bool :=
  match k with NestedCss => is_css media | NestedSvg => is_svg media | NestedHtml => is_html media end.

Definition nested_limit (k : NestedKind) : Z :=
  match k with NestedCss | NestedSvg => lim_resource_recursion_depth limits | NestedHtml => lim_frame_depth limits end.

Definition depth_code (k : NestedKind) : string :=
  match k with
  | NestedCss => "offprint.resource.css_depth"
  | NestedSvg => "offprint.resource.svg_depth"
  | NestedHtml => "offprint.resource.html_depth"
  end.

Definition cycle_code (k : NestedKind) : string :=
  match k with
  | NestedCss => "offprint.resource.css_cycle"
  | NestedSvg => "offprint.resource.svg_cycle"
  | NestedHtml => "offprint.resource.html_cycle"
  end.

Definition active (k : NestedKind) (s : Rendering) : gset url :=
  match k with NestedCss => rn_active_css s | NestedSvg => rn_active_svg s | NestedHtml => rn_active_html s end.

Definition set_active (k : NestedKind) (x : gset url) (s : Rendering) : Rendering :=
  match k with
  | NestedCss => set_resolver x (rn_active_html s) (rn_active_svg s) (rn_prefetched s) s
  | NestedSvg => set_resolver (rn_active_css s) (rn_active_html s) x (rn_prefetched s) s
  | NestedHtml => set_resolver (rn_active_css s) x (rn_active_svg s) (rn_prefetched s) s
  end.

(** Where [resolve] is in its sequence of tests: it has returned, or goes on with
    these bytes and the content they are stored as. *)
Inductive Flow := Return (replacement : string) | Continue (b : bytes) (stored : option StoredContent).

Definition nested (k : NestedKind) (transform : bytes -> Rn bytes) (u : url) (role : RenderingRole) (depth id : Z)
    (media : string) (f : Flow) : Rn Flow :=
  match f with
  | Return _ => eret f
  | Continue b stored =>
      if negb (has_kind k media) then eret f
      else if nested_limit k <=? depth then
        r <-! missing u role id (resource_error (depth_code k)) ;; eret (Return r)
      else
        let key := url_without_fragment u in
        s <-! eget ;;
        if bool_decide (key ∈ active k s) then
          r <-! missing u role id (resource_error (cycle_code k)) ;; eret (Return r)
        else
          do! emodify (set_active k ({[key]} ∪ active k s)) ;;
          transformed <-! eattempt (transform b) ;;
          do! emodify (fun s => set_active k (active k s ∖ {[key]}) s) ;;
          match transformed with
          | Ok b => eret (Continue b None)
          | Err e =>
              if bool_decide (err_code e = "offprint.resource.limit") then eerr e
              else r <-! missing u role id e ;; eret (Return r)
          end
  end.

(** One reference of a nested resource. *)
Definition resolve_nested (resolve : url -> RenderingRole -> Z -> Z -> Rn string) (depth : Z)
    (x : Z * url * RenderingRole) (replacements : list (Z * string)) : Rn (list (Z * string)) :=
  let '(local_id, target, role) := x in
  id <-! begin_reference ;;
  do! emit (ResourceDiscovered (cx_capture_id cx) id) ;;
  replacement <-! resolve target role (saturating_add u16_max depth 1) id ;;
  eret (replacements ++ [(local_id, replacement)]).

Definition css_references (r : CssResources) : list (Z * url * RenderingRole) :=
  map (fun x => (dc_id x, dc_resolved_url x, RoleOther)) (cr_resources r).

Definition document_references (r : DocumentResources) : list (Z * url * RenderingRole) :=
  map (fun x => (dr_id x, dr_resolved_url x, dr_role x)) (ds_resources r).

Definition css_preservation_warning (id : Z) (m : CssParseMode) : Rn unit :=
  match m with
  | PreservationFallback =>
      warn "offprint.resource.css_preservation" "stylesheet uses source-preserving CSS resource discovery" id
  | Typed => eret tt
  end.

Definition css_transform (resolve : url -> RenderingRole -> Z -> Z -> Rn string) (u : url) (depth id : Z) (b : bytes)
    : Rn bytes :=
  if negb (is_utf8 b) then eerr (resource_error "offprint.resource.css_encoding")
  else
    remaining <-! remaining_resources (lim_resources limits) ;;
    found <-! elift (css_resources_bounded typed_css_dependencies (string_of_list_ascii b) u remaining) ;;
    do! css_preservation_warning id (cr_parse_mode found) ;;
    replacements <-! efold (resolve_nested resolve depth) (css_references found) [] ;;
    css <-! elift (css_rewrite can_reserve found replacements) ;;
    eret (as_bytes css).

(** The inventory is taken again from the bytes before they are rewritten. *)
Definition rewrite_again (d : Document) (base : url) (count : Z) (replacements : list (Z * string)) : Rn Document :=
  found <-! elift (document_resources_bounded d base count) ;;
  if negb (Z.of_nat (length (ds_resources found)) =? count) then eerr rewrite_error
  else elift (document_rewrite can_reserve found replacements d).

Definition svg_parse_error : OffprintError := resource_error "offprint.resource.svg_parse".

Definition svg_transform (resolve : url -> RenderingRole -> Z -> Z -> Rn string) (u : url) (depth : Z) (b : bytes)
    : Rn bytes :=
  let d := parse b in
  if negb (is_some (find_svg_root d)) then eerr svg_parse_error
  else
    remaining <-! remaining_resources (lim_resources limits) ;;
    found <-! elift (document_resources_bounded d u remaining) ;;
    replacements <-! efold (resolve_nested resolve depth) (document_references found) [] ;;
    root <-! elift (ok_or (find_svg_root d) svg_parse_error) ;;
    d <-! rewrite_again d u (Z.of_nat (length (ds_resources found))) replacements ;;
    elift (ok_or (serialize_subtree d root) (resource_error "offprint.resource.svg_serialize")).

Definition html_transform (resolve : url -> RenderingRole -> Z -> Z -> Rn string) (u : url) (depth : Z) (b : bytes)
    : Rn bytes :=
  let d := parse b in
  match inline_frames d with
  | _ :: _ => eerr (resource_error "offprint.resource.html_frame")
  | [] =>
      remaining <-! remaining_resources (lim_resources limits) ;;
      found <-! elift (document_resources_bounded d u remaining) ;;
      replacements <-! efold (resolve_nested resolve depth) (document_references found) [] ;;
      d <-! rewrite_again d u (Z.of_nat (length (ds_resources found))) replacements ;;
      d <-! elift (ensure_render_freeze_styles (sanitize_safe_static d).1) ;;
      elift (ok_or (serialize_document d) (resource_error "offprint.resource.html_serialize"))
  end.

(** ** Resolving a reference *)

Definition load_key (u : url) : string * string * url :=
  (cx_session_id cx, cx_browser_frame_id cx, url_without_fragment u).

Definition remember_failure (u : url) (e : OffprintError) (s : Rendering) : Rendering :=
  if is_some (rn_failed_loads s !! load_key u) then s
  else set_failed_loads (<[load_key u := e]> (rn_failed_loads s)) s.

Definition load_once (u : url) (role : RenderingRole) (id : Z) : Rn (Res LoadedResourceData) :=
  s <-! eget ;;
  match rn_failed_loads s !! load_key u with
  | Some e => eret (Err e)
  | None => eattempt (load cx u role id)
  end.

(** Not an error of the program: the fuel below is enough. *)
Definition out_of_fuel : OffprintError := new_error "" Internal.

(** The body of [resolve], with the calls it makes to itself. *)
Definition resolve_step (rec : url -> RenderingRole -> Z -> Z -> Rn string) (u : url) (role : RenderingRole)
    (depth id : Z) : Rn string :=
  do! check_cancelled ;;
  loaded <-! load_once u role id ;;
  match loaded with
  | Err e => do! emodify (remember_failure u e) ;; missing u role id e
  | Ok x =>
      let media := ld_media_type x in
      f <-! nested NestedCss (css_transform rec u depth id) u role depth id media
              (Continue (ld_bytes x) (Some (ld_content x))) ;;
      f <-! nested NestedSvg (svg_transform rec u depth) u role depth id media f ;;
      f <-! nested NestedHtml (html_transform rec u depth) u role depth id media f ;;
      match f with
      | Return r => eret r
      | Continue b stored => record_embedded u id media b stored (ld_provenance x)
      end
  end.

Fixpoint resolve (fuel : nat) : url -> RenderingRole -> Z -> Z -> Rn string :=
  match fuel with
  | O => fun _ _ _ _ => eerr out_of_fuel
  | S fuel' => resolve_step (resolve fuel')
  end.

(** A nested resource is one deeper, and no resource is transformed at the larger
    of the two depth limits. *)
Definition resolve_fuel : nat :=
  S (Z.to_nat (Z.max (lim_resource_recursion_depth limits) (lim_frame_depth limits))).

(** ** Loading ahead *)

Definition is_prefetchable (u : url) : bool :=
  existsb (fun s => bool_decide (url_scheme u = s)) ["http"; "https"; "blob"; "file"].

Definition prefetch_candidates (batch : list (DiscoveredDocumentResource * Z)) (s : Rendering) : list (Z * url) :=
  omap (fun x => let u := dr_resolved_url x.1 in
          if is_prefetchable u && negb (is_some (rn_failed_loads s !! load_key (url_without_fragment u)))
          then Some (x.2, url_without_fragment u) else None) batch.

Definition prefetch_validation (u : url) : Rn unit :=
  let scheme := url_scheme u in
  if bool_decide (scheme = "http") || bool_decide (scheme = "https") then validate_network_url (cx_guard cx) u
  else if bool_decide (scheme = "file")
  then validate_file_resource u (cp_allowed_file_roots (rq_content (cx_request cx)))
  else eret tt.

(** The loads of a batch run together; each keeps to this order. *)
Definition prefetch_one (x : Z * url) (found : gmap Z (Res LoadedResource)) : Rn (gmap Z (Res LoadedResource)) :=
  r <-! eattempt (do! prefetch_validation x.2 ;; load_from_page cx x.2) ;;
  eret (<[x.1 := r]> found).

Definition prefetch_resources (batch : list (DiscoveredDocumentResource * Z)) : Rn (gmap Z (Res LoadedResource)) :=
  s <-! eget ;; efold prefetch_one (prefetch_candidates batch s) ∅.

Definition resolve_reference (x : DiscoveredDocumentResource * Z) (replacements : list (Z * string))
    : Rn (list (Z * string)) :=
  replacement <-! resolve resolve_fuel (dr_resolved_url x.1) (dr_role x.1) 0 x.2 ;;
  eret (replacements ++ [(dr_id x.1, replacement)]).

Definition resolve_batch (batch : list (DiscoveredDocumentResource * Z)) (replacements : list (Z * string))
    : Rn (list (Z * string)) :=
  prefetched <-! prefetch_resources batch ;;
  do! emodify (set_resolver ∅ ∅ ∅ prefetched) ;;
  efold resolve_reference batch replacements.

Definition begin_one (r : DiscoveredDocumentResource) (references : list (DiscoveredDocumentResource * Z))
    : Rn (list (DiscoveredDocumentResource * Z)) :=
  id <-! begin_reference ;;
  do! emit (ResourceDiscovered (cx_capture_id cx) id) ;;
  eret (references ++ [(r, id)]).

(** [slice::chunks]. *)
Fixpoint chunks_loop {A} (fuel : nat) (n : nat) (l : list A) : list (list A) :=
  match fuel, l with
  | S fuel', _ :: _ => take n l :: chunks_loop fuel' n (drop n l)
  | _, _ => []
  end.

Definition chunks {A} (n : nat) (l : list A) : list (list A) := chunks_loop (length l) n l.

Definition batch_size : nat := Nat.max 1 (Z.to_nat (lim_concurrent_resources limits)).

(** The references of a document, and what replaces them. *)
Definition resolve_document (found : list DiscoveredDocumentResource) : Rn (list (Z * string)) :=
  references <-! efold begin_one found [] ;;
  efold resolve_batch (chunks batch_size references) [].
End Render.

(** ** Rendering a frame *)

Section RenderFrame.
Context `{UrlLib} `{UrlEdit} `{UrlView} `{Networks} `{Environment} `{Hashing} `{TempNames} `{DataUrls} `{Encodings}.
Context `{HtmlParser} `{CssTokens} `{Platform}.

Record InlineFrameReplacement := MkReplacement { ir_html : string; ir_frame_id : Z }.

Definition apply_replacement (replacements : gmap NodeId InlineFrameReplacement) (f : InlineFrame) (d : Document)
    : Res Document :=
  let r := replacements !! if_node_id f in
  replace_inline_frame f (match r with Some r => ir_html r | None => if_html f end) (ir_frame_id <$> r) d.

Definition apply_inline_frame_replacements (frames : list InlineFrame)
    (replacements : gmap NodeId InlineFrameReplacement) (d : Document) : Res Document :=
  fold_res (apply_replacement replacements) frames d.

Definition render_serialize_error : OffprintError := new_error "offprint.artifact.serialize" Transform.

Definition serialize_frame_document (d : Document) : Res string :=
  b <-? ok_or (serialize_document d) render_serialize_error ;;
  if is_utf8 b then Ok (string_of_list_ascii b) else Err render_serialize_error.

Definition frame_depth_error : OffprintError := new_error "offprint.frame.depth" Collection.

Definition with_frame_id (cx : RenderContext) (id : Z) : RenderContext :=
  MkContext _ (cx_session_id cx) (cx_browser_frame_id cx) id (cx_guard cx) (cx_request cx) (cx_capture_id cx).

(** A frame that was collected with its parent. *)
Definition render_inline_frame (render : bytes -> url -> Z -> RenderContext -> Rn string) (cx : RenderContext) (base : url)
    (depth : Z) (f : InlineFrame) (replacements : gmap NodeId InlineFrameReplacement)
    : Rn (gmap NodeId InlineFrameReplacement) :=
  let limit := lim_frame_depth (rq_limits (cx_request cx)) in
  child_depth <-! elift (ok_or (checked_add u16_max depth 1) frame_depth_error) ;;
  if limit <? child_depth
  then eerr (with_detail "limit" (DNum limit) (with_detail "depth" (DNum child_depth) frame_depth_error))
  else
    child_base <-! match if_base_url f with
                   | Some value => elift (ok_or (url_parse value) (new_error "offprint.collector.base_url" Collection))
                   | None => eret base
                   end ;;
    '(child_id, nodes) <-! begin_inline_frame (parse (as_bytes (if_html f))) ;;
    do! emit (FrameCollected (cx_capture_id cx) child_id nodes) ;;
    html <-! render (as_bytes (if_html f)) child_base child_depth (with_frame_id cx child_id) ;;
    eret (<[if_node_id f := MkReplacement html child_id]> replacements).

Fixpoint render_frame_document (fuel : nat) (source : bytes) (base : url) (depth : Z) (cx : RenderContext) : Rn string :=
  match fuel with
  | O => eerr out_of_fuel
  | S fuel' =>
      let frames := inline_frames (parse source) in
      inlined <-! efold (render_inline_frame (render_frame_document fuel') cx base depth)
                    (filter (fun f => if_captured f = false) frames) ∅ ;;
      d <-! elift (apply_inline_frame_replacements frames inlined (parse source)) ;;
      remaining <-! remaining_resources (lim_resources (rq_limits (cx_request cx))) ;;
      found <-! elift (document_resources_bounded d base remaining) ;;
      replacements <-! resolve_document cx (ds_resources found) ;;
      d <-! elift (apply_inline_frame_replacements frames inlined (parse source)) ;;
      d <-! rewrite_again d base (Z.of_nat (length (ds_resources found))) replacements ;;
      elift (serialize_frame_document d)
  end.

(** A frame within a frame is one deeper. *)
Definition render_fuel (cx : RenderContext) : nat := S (S (Z.to_nat (lim_frame_depth (rq_limits (cx_request cx))))).
End RenderFrame.
