(* ===== verification/RenderTrace.v ===== *)
(** * What rendering asks the browser for

    Every resource the pipeline asks the page to load has passed its check right
    before: the network guard on the resolved addresses for the web, the allowed
    roots on the resolved path for files.  The argument is an invariant of the
    trace that each operation of Materialize.v and Render.v keeps. *)

From Stdlib Require Import ZArith Lia Ascii String.
From stdpp Require Import base tactics list gmap strings numbers.
From S2P Require Import Prelude.
From S2P Require Import Errors.
From S2P Require Import Records.
From S2P Require Import Budget.
From S2P Require Import ContentStore.
From S2P Require Import Network.
From S2P Require Import Requests.
From S2P Require Import Schedule.
From S2P Require Import Dom.
From S2P Require Import Sink.
From S2P Require Import Html.
From S2P Require Import Frames.
From S2P Require Import Verify.
From S2P Require Import Discover.
From S2P Require Import Effects.
From S2P Require Import Browser.
From S2P Require Import Materialize.
From S2P Require Import Render.

#[local] Open Scope string_scope.
#[local] Open Scope list_scope.
#[local] Open Scope Z_scope.

(** ** Operations that keep an invariant of the trace *)

Section Keeps.
Context {S : Type} `{Traced S} (I : Trace -> Prop).

Definition keeps {A} (m : Eff S A) : Prop := forall s,
  I (trace_of s) -> after m (fun _ s' => I (trace_of s')) (fun _ s' => I (trace_of s')) s.

Lemma keeps_ret {A} (a : A) : keeps (eret a).
Proof. by intros s Hs. Qed.
Lemma keeps_err {A} e : keeps (eerr e : Eff S A).
Proof. by intros s Hs. Qed.
Lemma keeps_lift {A} (r : Res A) : keeps (elift r).
Proof. intros s Hs. by destruct r. Qed.
Lemma keeps_get : keeps eget.
Proof. by intros s Hs. Qed.
Lemma keeps_modify (f : S -> S) : (forall s, trace_of (f s) = trace_of s) -> keeps (emodify f).
Proof. intros Hf s Hs. apply after_modify. by rewrite Hf. Qed.
Lemma keeps_bind {A B} (m : Eff S A) (k : A -> Eff S B) : keeps m -> (forall a, keeps (k a)) -> keeps (ebind m k).
Proof. intros Hm Hk s Hs. apply after_bind. eapply after_mono; [by apply Hm| |done]. intros a t Ht. by apply Hk. Qed.
Lemma keeps_attempt {A} (m : Eff S A) : keeps m -> keeps (eattempt m).
Proof. intros Hm s Hs. apply after_attempt. by apply Hm. Qed.
Lemma keeps_part {T A} (get : S -> T) set (m : T -> Res A * T) :
  (forall t s, trace_of (set t s) = trace_of s) -> keeps (epart get set m).
Proof. intros Hset s Hs. apply after_part; intros; by rewrite Hset. Qed.
Lemma keeps_fold {A B} (f : A -> B -> Eff S B) l b : (forall x c, x ∈ l -> keeps (f x c)) -> keeps (efold f l b).
Proof. intros Hf s Hs. apply (after_fold_inv f l (fun _ s => I (trace_of s))); [done|]. intros x c t Hx Ht. by apply Hf. Qed.
Lemma keeps_if {A} (c : bool) (m m' : Eff S A) : keeps m -> keeps m' -> keeps (if c then m else m').
Proof. by destruct c. Qed.
Lemma keeps_emit e : (forall t, I t -> I (AEmit e :: t)) -> keeps (emit e : Eff S unit).
Proof. intros Ha s Hs. apply after_modify. rewrite trace_recorded. by apply Ha. Qed.
Lemma keeps_ask {A} a (answer : Trace -> A) : (forall t, I t -> I (a :: t)) -> keeps (ask a answer).
Proof. intros Ha s Hs. unfold after, ask. rewrite trace_recorded. by apply Ha. Qed.
End Keeps.

Create HintDb trace.
#[export] Hint Resolve keeps_ret keeps_err keeps_lift keeps_get keeps_attempt keeps_if : trace.
#[export] Hint Extern 1 (keeps _ (ebind _ _)) => apply keeps_bind; [|intros ?] : trace.
#[export] Hint Extern 1 (keeps _ (emodify _)) => apply keeps_modify; intros ?; try done : trace.
#[export] Hint Extern 1 (keeps _ (epart _ _ _)) => apply keeps_part; intros ? ?; try done : trace.
#[export] Hint Extern 1 (keeps _ (efold _ _ _)) => apply keeps_fold; intros ? ? ? : trace.
#[export] Hint Extern 2 (keeps _ (match ?x with _ => _ end)) => destruct x : trace.
#[export] Hint Extern 2 (keeps _ (let '_ := ?x in _)) => destruct x : trace.

Definition is_load (a : Action) : bool := match a with ALoad _ _ _ _ => true | _ => false end.

(** The end of a job. *)
Definition is_final (a : Action) : bool := match a with AEmit e => event_is_terminal e | _ => false end.

Definition plain (a : Action) : bool := negb (is_load a) && negb (is_final a).

Lemma plain_not_load a : plain a = true -> is_load a = false.
Proof. unfold plain. by destruct (is_load a). Qed.

Section Trace.
Context `{UrlLib} `{UrlEdit} `{UrlView} `{Networks} `{Environment} `{Hashing} `{TempNames} `{DataUrls} `{Encodings}.
Context `{HtmlParser} `{CssTokens} `{Platform}.

(** ** The checks *)

(** The guard admits the URL and the addresses its host has: the address it
    spells, or those the lookup that ends the trace answered. *)
Definition validated_network (g : NetworkGuard) (u : url) (t : Trace) : Prop :=
  exists host addresses, Network.url_host_str (url_view u) = Some host /\
    validate_resolved g (url_view u) addresses = Ok tt /\
    ((exists a, parse_ip host = Some a /\ addresses = [a]) \/
     (exists port t', t = ALookup host port :: t' /\ env_lookup t = Some addresses)).

(** The path was resolved, and so was the root, which ends the trace; the one is
    under the other. *)
Definition validated_file (roots : list PortablePath) (u : url) (t : Trace) : Prop :=
  exists path real root real_root t1 t2,
    url_to_file_path u = Some path /\
    ACanonicalize path :: t1 `suffix_of` t2 /\ env_canonicalize (ACanonicalize path :: t1) = Some real /\
    t = ACanonicalize root :: t2 /\ root ∈ roots /\ env_canonicalize t = Some real_root /\
    path_starts_with real real_root = true.

Definition load_allowed (g : NetworkGuard) (roots : list PortablePath) (u : url) (t : Trace) : Prop :=
  if bool_decide (url_scheme u = "http") || bool_decide (url_scheme u = "https") then validated_network g u t
  else if bool_decide (url_scheme u = "file") then validated_file roots u t
  else True.

(** Every load of the trace was allowed when it was asked for. *)
Definition guarded (g : NetworkGuard) (roots : list PortablePath) (t : Trace) : Prop :=
  forall session frame u maximum t1 t2, t = t1 ++ ALoad session frame u maximum :: t2 -> load_allowed g roots u t2.

Lemma guarded_nil g roots : guarded g roots [].
Proof. intros s f u m t1 t2 E. by destruct t1. Qed.

Lemma guarded_other g roots a t : is_load a = false -> guarded g roots t -> guarded g roots (a :: t).
Proof.
  intros Ha Ht s f u m t1 t2 E. destruct t1 as [|b t1]; simplify_eq/=; try done. by eapply Ht.
Qed.

Lemma guarded_load g roots s f u m t :
  load_allowed g roots u t -> guarded g roots t -> guarded g roots (ALoad s f u m :: t).
Proof.
  intros Hu Ht s' f' u' m' t1 t2 E. destruct t1 as [|b t1]; simplify_eq/=; try done. by eapply Ht.
Qed.

(** ** Validation leaves its evidence at the end of the trace *)

Section Evidence.
Context {S : Type} `{Traced S}.

Lemma validate_network_evidence g u (s : S) :
  after (validate_network_url g u)
    (fun _ s' => validated_network g u (trace_of s') /\
       exists t, trace_of s' = t ++ trace_of s /\ Forall (fun a => plain a = true) t)
    (fun _ s' => exists t, trace_of s' = t ++ trace_of s /\ Forall (fun a => plain a = true) t) s.
Proof.
  assert (Hnil : exists t, trace_of s = t ++ trace_of s /\ Forall (fun a => plain a = true) t).
  { exists []. split; [done|constructor]. }
  unfold validate_network_url. apply after_bind. apply after_lift; [|done]. intros [] Hu.
  apply after_bind. apply after_lift; [|done]. intros host Hh.
  destruct (Network.url_host_str (url_view u)) as [host'|] eqn:Eh; [|done]. injection Hh as <-.
  destruct (parse_ip host') as [a|] eqn:Ea.
  - apply after_lift; [|done]. intros [] Hr. split; [|done]. exists host', [a]. eauto 10.
  - apply after_bind. apply after_lift; [|done]. intros port Hp. apply after_bind.
    unfold after at 1, ask. rewrite trace_recorded.
    set (s1 := record_action _ s). assert (E1 : trace_of s1 = ALookup host' port :: trace_of s) by apply trace_recorded.
    assert (Hone : exists t, trace_of s1 = t ++ trace_of s /\ Forall (fun a => plain a = true) t).
    { exists [ALookup host' port]. split; [by rewrite E1|]. by repeat constructor. }
    apply after_bind. apply after_lift; [|done]. intros addresses Hl.
    apply after_lift; [|done]. intros [] Hr. split; [|done].
    exists host', addresses. split; [done|]. split; [done|]. right.
    exists port, (trace_of s). rewrite E1. split; [done|]. destruct (env_lookup _) as [x|] eqn:E; simplify_eq/=. done.
Qed.

Lemma within_roots_evidence path roots : forall (s : S),
  after (within_roots path roots)
    (fun _ s' => exists root real_root t2, trace_of s' = ACanonicalize root :: t2 /\ root ∈ roots /\
       env_canonicalize (trace_of s') = Some real_root /\ path_starts_with path real_root = true /\
       exists t, t2 = t ++ trace_of s /\ Forall (fun a => plain a = true) t)
    (fun _ s' => exists t, trace_of s' = t ++ trace_of s /\ Forall (fun a => plain a = true) t) s.
Proof.
  induction roots as [|root roots IH]; intros s; cbn [within_roots].
  - apply after_err. exists []. split; [done|constructor].
  - apply after_bind. unfold after at 1, ask. cbn -[env_canonicalize].
    rewrite trace_recorded. set (s1 := record_action _ s).
    assert (E1 : trace_of s1 = ACanonicalize root :: trace_of s) by apply trace_recorded. assert (Hnext : after (within_roots path roots)
      (fun _ s' => exists root0 real_root t2, trace_of s' = ACanonicalize root0 :: t2 /\ root0 ∈ root :: roots /\
         env_canonicalize (trace_of s') = Some real_root /\ path_starts_with path real_root = true /\
         exists t, t2 = t ++ trace_of s /\ Forall (fun a => plain a = true) t)
      (fun _ s' => exists t, trace_of s' = t ++ trace_of s /\ Forall (fun a => plain a = true) t) s1).
    { eapply after_mono; [apply IH| |]; rewrite E1; cbn.
      - intros _ s' (r & rr & t2 & E & Hr & Hc & Hp & t & -> & Ht). exists r, rr, (t ++ ACanonicalize root :: trace_of s).
        split; [done|]. split; [by right|]. split; [done|]. split; [done|]. exists (t ++ [ACanonicalize root]).
        rewrite <- app_assoc. split; [done|]. apply Forall_app. split; [done|]. by repeat constructor.
      - intros _ s' (t & E & Ht). exists (t ++ [ACanonicalize root]). rewrite <- app_assoc. split; [done|].
        apply Forall_app. split; [done|]. by repeat constructor. }
    destruct (env_canonicalize _) as [r|] eqn:Er; [|exact Hnext].
    destruct (path_starts_with path r) eqn:Ep; [|exact Hnext]. apply after_ret.
    exists root, r, (trace_of s). rewrite E1. split; [done|]. split; [left|]. split; [done|]. split; [done|].
    exists []. split; [done|constructor].
Qed.

Lemma validate_file_evidence roots u (s : S) :
  after (validate_file_resource u roots)
    (fun _ s' => validated_file roots u (trace_of s') /\
       exists t, trace_of s' = t ++ trace_of s /\ Forall (fun a => plain a = true) t)
    (fun _ s' => exists t, trace_of s' = t ++ trace_of s /\ Forall (fun a => plain a = true) t) s.
Proof.
  unfold validate_file_resource. apply after_bind. apply after_lift; [|exists []; split; [done|constructor]].
  intros path Hp. apply after_bind. unfold after at 1, ask. cbn -[env_canonicalize].
  rewrite trace_recorded. set (s1 := record_action _ s).
  assert (E1 : trace_of s1 = ACanonicalize path :: trace_of s) by apply trace_recorded. apply after_bind. apply after_lift.
  2:{ intros _ _. exists [ACanonicalize path]. split; [done|]. by repeat constructor. }
  intros real Hreal. eapply after_mono; [apply within_roots_evidence| |]; rewrite E1; cbn.
  - intros _ s' (root & rr & t2 & E & Hroot & Hc & Hs & t & -> & Ht). split.
    + exists path, real, root, rr, (trace_of s), (t ++ ACanonicalize path :: trace_of s).
      split; [by destruct (url_to_file_path u); simplify_eq/=|]. split; [by exists t|].
      split; [destruct (env_canonicalize _) eqn:X; simplify_eq/=; done|]. done.
    + exists (ACanonicalize root :: t ++ [ACanonicalize path]). rewrite E. simpl. rewrite <- app_assoc. split; [done|].
      constructor; [done|]. apply Forall_app. split; [done|]. by repeat constructor.
  - intros _ s' (t & E & Ht). exists (t ++ [ACanonicalize path]). rewrite <- app_assoc. split; [done|].
    apply Forall_app. split; [done|]. by repeat constructor.
Qed.
End Evidence.

(** ** An invariant that loads must establish *)

Context {Hlaws : UrlLaws}.
Context (g : NetworkGuard) (roots : list PortablePath) (I : Trace -> Prop).
Context (Hother : forall a t, plain a = true -> I t -> I (a :: t)).
Context (Hload : forall s f u m t, load_allowed g roots u t -> I t -> I (ALoad s f u m :: t)).

Lemma others_keep t t0 : Forall (fun a => plain a = true) t -> I t0 -> I (t ++ t0).
Proof using Hother. induction 1; simpl; auto. Qed.

(** A load right after what allows it. *)
Lemma keeps_validated {A} (v : Rn A) s f u m :
  (forall x, I (trace_of x) ->
     after v (fun _ s' => load_allowed g roots u (trace_of s') /\ I (trace_of s')) (fun _ s' => I (trace_of s')) x) ->
  keeps I (do! v ;; load_resource_in_session s f u m).
Proof using Hload.
  intros Hv x Hx. apply after_bind. eapply after_mono; [by apply Hv| |done]. intros a y [Hy Hi].
  unfold load_resource_in_session. apply after_bind. unfold after at 1, ask. cbn -[env_load].
  assert (Hy' : I (ALoad s f u m :: trace_of y)) by by apply Hload. by destruct (env_load _).
Qed.

Lemma network_then_load u s f m : url_scheme u = "http" \/ url_scheme u = "https" ->
  keeps I (do! validate_network_url g u ;; load_resource_in_session s f u m).
Proof using Hother Hload.
  intros Hs. apply keeps_validated. intros x Hx. eapply after_mono; [apply validate_network_evidence| |].
  - intros _ y [Hv (t & E & Ht)]. split; [|rewrite E; by apply others_keep]. unfold load_allowed.
    assert (bool_decide (url_scheme u = "http") || bool_decide (url_scheme u = "https") = true) as ->; [|done].
    apply orb_true_iff. by destruct Hs; [left|right]; apply bool_decide_eq_true.
  - intros _ y (t & -> & Ht). by apply others_keep.
Qed.

Lemma file_then_load u s f m : url_scheme u = "file" ->
  keeps I (do! validate_file_resource u roots ;; load_resource_in_session s f u m).
Proof using Hother Hload.
  intros Hs. apply keeps_validated. intros x Hx. eapply after_mono; [apply validate_file_evidence| |].
  - intros _ y [Hv (t & E & Ht)]. split; [|rewrite E; by apply others_keep]. unfold load_allowed. rewrite Hs. done.
  - intros _ y (t & -> & Ht). by apply others_keep.
Qed.

Lemma other_then_load {A} (v : A) u s f m : url_scheme u <> "http" -> url_scheme u <> "https" -> url_scheme u <> "file" ->
  keeps I (do! eret v ;; load_resource_in_session s f u m).
Proof using Hload.
  intros H1' H2' H3'. apply keeps_validated. intros x Hx. apply after_ret. split; [|done]. unfold load_allowed.
  by rewrite !bool_decide_eq_false_2 by done.
Qed.

#[local] Hint Extern 1 (plain _ = true) => reflexivity : trace.
#[local] Hint Extern 1 (keeps _ (ask _ _)) => apply keeps_ask; intros ? ?; apply Hother; [reflexivity|assumption] : trace.
#[local] Hint Extern 1 (keeps _ (emit _)) => intros ? ?; apply Hother; [reflexivity|assumption] : trace.

(** *** Materialisation *)

Section Context_.
Context (cx : RenderContext) (Hg : cx_guard cx = g).
Context (Hroots : cp_allowed_file_roots (rq_content (cx_request cx)) = roots).

Lemma keeps_insert stream : keeps I (insert_content cx stream).
Proof using Hother. unfold insert_content. eauto with trace. Qed.

Lemma keeps_store_body stream : keeps I (store_body cx stream).
Proof using Hother.
  unfold store_body, materialize, read_content. pose proof keeps_insert. eauto 10 with trace.
Qed.

Lemma keeps_commit_bytes b stored : keeps I (commit_bytes cx b stored).
Proof using Hother. unfold commit_bytes. pose proof keeps_insert. destruct stored; eauto with trace. Qed.

Lemma keeps_load_data u role : keeps I (load_data cx u role).
Proof using Hother.
  unfold load_data. pose proof keeps_store_body. apply keeps_if; [eauto with trace|].
  apply keeps_bind; [eauto with trace|]. intros [media body]. apply keeps_bind; [eauto with trace|]. intros b.
  apply keeps_bind; [eauto with trace|]. intros [? ?]. eauto with trace.
Qed.

Lemma keeps_finish u role loaded source : keeps I (finish_loaded cx u role loaded source).
Proof using Hother.
  unfold finish_loaded. apply keeps_bind; [apply keeps_store_body|]. intros [? ?]. eauto with trace.
Qed.

Lemma keeps_take id : keeps I (take_prefetched id).
Proof using Type. by intros s Hs. Qed.

Lemma keeps_load_http u role id : url_scheme u = "http" \/ url_scheme u = "https" -> keeps I (load_http cx u role id).
Proof using Hother Hload Hg Hlaws.
  intros Hs. unfold load_http. apply keeps_bind; [apply keeps_take|]. intros found.
  apply keeps_bind; [|intros loaded; apply keeps_if; [apply keeps_finish|eauto with trace]].
  destruct found; [eauto with trace|]. rewrite Hg. apply network_then_load. by rewrite scheme_kept.
Qed.

Lemma keeps_load_from_frame u id (validate : bool) :
  url_scheme u <> "http" -> url_scheme u <> "https" -> (validate = true <-> url_scheme u = "file") ->
  keeps I (load_from_frame cx u id validate).
Proof using Hother Hload Hroots Hlaws.
  intros Hh Hhs Hv. unfold load_from_frame. apply keeps_bind; [apply keeps_take|]. intros [loaded|]; [eauto with trace|].
  destruct validate; cbn beta iota.
  - destruct (is_remote _); [by intros s Hs|]. rewrite Hroots. apply file_then_load.
    rewrite scheme_kept. by apply Hv.
  - apply other_then_load; rewrite scheme_kept; [done|done|]. intros Hf. by apply Hv in Hf.
Qed.

Lemma keeps_load u role id : keeps I (load cx u role id).
Proof using Hother Hload Hg Hroots Hlaws.
  unfold load. case_bool_decide as Hd; [apply keeps_load_data|].
  destruct (bool_decide (url_scheme u = "http") || bool_decide (url_scheme u = "https")) eqn:Eh.
  { apply keeps_load_http. apply orb_true_iff in Eh. by rewrite !bool_decide_eq_true in Eh. }
  apply orb_false_iff in Eh as [Hh%bool_decide_eq_false Hhs%bool_decide_eq_false].
  case_bool_decide as Hb; [|case_bool_decide as Hf; [|eauto with trace]];
    (apply keeps_bind; [apply keeps_load_from_frame; [done|done|]|intros; apply keeps_finish]).
  - split; [done|congruence].
  - done.
Qed.

(** *** Resolution *)

Lemma keeps_record r : keeps I (record r).
Proof using Type. intros s Hs. unfold record, after. by destruct (is_some _). Qed.

Lemma keeps_progress : keeps I (progress cx).
Proof using Hother. unfold progress. apply keeps_bind; [eauto with trace|]. intros s. eauto with trace. Qed.

Lemma keeps_warn code message id : keeps I (warn cx code message id).
Proof using Hother. unfold warn. eauto with trace. Qed.

#[local] Hint Resolve keeps_record keeps_progress keeps_warn keeps_commit_bytes : trace.

Lemma keeps_missing u role id e : keeps I (missing cx u role id e).
Proof using Hother.
  unfold missing. apply keeps_bind; [eauto with trace|]. intros []. apply keeps_bind; [eauto with trace|]. intros [].
  apply keeps_bind; [eauto with trace|]. intros []. destruct (cp_missing_resources _); eauto with trace.
Qed.

Lemma keeps_record_embedded u id media b stored p : keeps I (record_embedded cx u id media b stored p).
Proof using Hother.
  unfold record_embedded. apply keeps_bind; [eauto with trace|]. intros c.
  apply keeps_bind; [eauto with trace|]. intros []. apply keeps_bind.
  { apply keeps_modify. intros s. unfold embed_digest. by case_bool_decide. }
  intros []. apply keeps_bind; [eauto with trace|]. intros []. eauto with trace.
Qed.

Lemma keeps_begin_reference : keeps I begin_reference.
Proof using Type. unfold begin_reference. eauto 20 with trace. Qed.

Lemma keeps_remaining n : keeps I (remaining_resources n).
Proof using Type. unfold remaining_resources. apply keeps_bind; [eauto with trace|]. intros s. eauto with trace. Qed.

Lemma keeps_nested k transform u role depth id media f :
  (forall b, keeps I (transform b)) -> keeps I (nested cx k transform u role depth id media f).
Proof using Hother.
  intros Ht. unfold nested. pose proof keeps_missing as Hm. destruct f as [|b stored]; [eauto with trace|].
  apply keeps_if; [eauto with trace|]. apply keeps_if; [eauto with trace|].
  apply keeps_bind; [eauto with trace|]. intros s. apply keeps_if; [eauto with trace|].
  apply keeps_bind; [apply keeps_modify; by destruct k|]. intros []. apply keeps_bind; [eauto with trace|].
  intros r. apply keeps_bind; [apply keeps_modify; by destruct k|]. intros []. destruct r; eauto with trace.
Qed.

Section Resolver.
Context (rec : url -> RenderingRole -> Z -> Z -> Rn string) (Hrec : forall u role depth id, keeps I (rec u role depth id)).

Lemma keeps_resolve_nested depth x l : keeps I (resolve_nested cx rec depth x l).
Proof using Hother Hrec.
  unfold resolve_nested. destruct x as [[local_id target] role]. apply keeps_bind; [apply keeps_begin_reference|].
  intros id. apply keeps_bind; [eauto with trace|]. intros []. apply keeps_bind; [apply Hrec|]. intros ?. eauto with trace.
Qed.

Lemma keeps_css_transform u depth id b : keeps I (css_transform cx rec u depth id b).
Proof using Hother Hrec.
  unfold css_transform. apply keeps_if; [eauto with trace|]. apply keeps_bind; [apply keeps_remaining|]. intros n.
  apply keeps_bind; [eauto with trace|]. intros found. apply keeps_bind.
  { unfold css_preservation_warning. destruct (cr_parse_mode found); eauto with trace. }
  intros []. apply keeps_bind; [apply keeps_fold; intros; apply keeps_resolve_nested|]. intros l. eauto with trace.
Qed.

Lemma keeps_rewrite_again d base n l : keeps I (rewrite_again d base n l).
Proof using Type. unfold rewrite_again. apply keeps_bind; [eauto with trace|]. intros found. eauto with trace. Qed.

Lemma keeps_svg_transform u depth b : keeps I (svg_transform cx rec u depth b).
Proof using Hother Hrec.
  unfold svg_transform. pose proof keeps_rewrite_again as Hw. apply keeps_if; [eauto with trace|].
  apply keeps_bind; [apply keeps_remaining|]. intros n. apply keeps_bind; [eauto with trace|]. intros found.
  apply keeps_bind; [apply keeps_fold; intros; apply keeps_resolve_nested|]. intros l. eauto with trace.
Qed.

Lemma keeps_html_transform u depth b : keeps I (html_transform cx rec u depth b).
Proof using Hother Hrec.
  unfold html_transform. pose proof keeps_rewrite_again as Hw. destruct (inline_frames _); [|eauto with trace].
  apply keeps_bind; [apply keeps_remaining|]. intros n. apply keeps_bind; [eauto with trace|]. intros found.
  apply keeps_bind; [apply keeps_fold; intros; apply keeps_resolve_nested|]. intros l. eauto with trace.
Qed.
End Resolver.

Lemma keeps_resolve fuel : forall u role depth id, keeps I (resolve cx fuel u role depth id).
Proof using Hother Hload Hg Hroots Hlaws.
  induction fuel as [|fuel IH]; intros u role depth id; cbn [resolve]; [eauto with trace|].
  unfold resolve_step.
  apply keeps_bind; [unfold check_cancelled; eauto with trace|]. intros []. apply keeps_bind.
  { unfold load_once. apply keeps_bind; [eauto with trace|]. intros s.
    destruct (rn_failed_loads s !! _); [eauto with trace|]. apply keeps_attempt, keeps_load. }
  intros [x|e].
  - apply keeps_bind; [apply keeps_nested; intros b; by apply keeps_css_transform|]. intros f1.
    apply keeps_bind; [apply keeps_nested; intros b; by apply keeps_svg_transform|]. intros f2.
    apply keeps_bind; [apply keeps_nested; intros b; by apply keeps_html_transform|]. intros [r|b stored];
      [eauto with trace|apply keeps_record_embedded].
  - apply keeps_bind; [|intros; apply keeps_missing]. apply keeps_modify. intros s. unfold remember_failure.
    by destruct (is_some _).
Qed.

(** *** A frame *)

Lemma keeps_prefetch_one x found : keeps I (prefetch_one cx x found).
Proof using Hother Hload Hg Hroots.
  unfold prefetch_one. apply keeps_bind; [|eauto with trace]. apply keeps_attempt. unfold prefetch_validation, load_from_page.
  destruct (bool_decide (url_scheme x.2 = "http") || bool_decide (url_scheme x.2 = "https")) eqn:Eh.
  { rewrite Hg. apply network_then_load. apply orb_true_iff in Eh. by rewrite !bool_decide_eq_true in Eh. }
  apply orb_false_iff in Eh as [Hh%bool_decide_eq_false Hhs%bool_decide_eq_false].
  case_bool_decide as Hf; [rewrite Hroots; by apply file_then_load|by apply other_then_load].
Qed.

Lemma keeps_resolve_document found : keeps I (resolve_document cx found).
Proof using Hother Hload Hg Hroots Hlaws.
  unfold resolve_document. apply keeps_bind.
  { apply keeps_fold. intros r l _. unfold begin_one. apply keeps_bind; [apply keeps_begin_reference|]. eauto with trace. }
  intros references. apply keeps_fold. intros batch l _. unfold resolve_batch. apply keeps_bind.
  { unfold prefetch_resources. apply keeps_bind; [eauto with trace|]. intros s. apply keeps_fold. intros. apply keeps_prefetch_one. }
  intros prefetched. apply keeps_bind; [eauto with trace|]. intros []. apply keeps_fold. intros x l' _.
  unfold resolve_reference. apply keeps_bind; [apply keeps_resolve|]. eauto with trace.
Qed.
End Context_.

Lemma keeps_render_frame fuel : forall source base depth cx, cx_guard cx = g ->
  cp_allowed_file_roots (rq_content (cx_request cx)) = roots ->
  keeps I (render_frame_document fuel source base depth cx).
Proof using Hother Hload Hlaws.
  induction fuel as [|fuel IH]; intros source base depth cx Hg Hr; cbn [render_frame_document]; [eauto with trace|].
  apply keeps_bind.
  { apply keeps_fold. intros f l _. unfold render_inline_frame. apply keeps_bind; [eauto with trace|]. intros n.
    apply keeps_if; [eauto with trace|]. apply keeps_bind; [destruct (if_base_url f); eauto with trace|]. intros child_base.
    apply keeps_bind; [unfold begin_inline_frame; eauto 20 with trace|]. intros [child_id nodes].
    apply keeps_bind; [eauto with trace|]. intros []. apply keeps_bind; [by apply IH|]. eauto with trace. }
  intros inlined. apply keeps_bind; [eauto with trace|]. intros d. apply keeps_bind; [apply keeps_remaining|]. intros n.
  apply keeps_bind; [eauto with trace|]. intros found. apply keeps_bind; [by apply keeps_resolve_document|]. intros l.
  apply keeps_bind; [eauto with trace|]. intros d'. apply keeps_bind; [apply keeps_rewrite_again|]. eauto with trace.
Qed.
End Trace.
