(* ===== verification/RenderFacts.v ===== *)
(** * The account of the resources

    An invariant of the state in which resources are resolved: the identifiers
    are counted, every record has one, the counters of the summary are those of
    the records, and what is recorded as embedded is in the content store.  Each
    operation of Render.v keeps it, whatever it is answered; when nothing is
    disturbed, every reference that was found ends with a record. *)

From Stdlib Require Import ZArith Lia Ascii String.
From stdpp Require Import base tactics list gmap strings numbers fin_maps fin_map_dom.
From S2P Require Import Prelude.
From S2P Require Import Errors.
From S2P Require Import Records.
From S2P Require Import Budget.
From S2P Require Import ContentStore.
From S2P Require Import Network.
From S2P Require Import Requests.
From S2P Require Import Schedule.
From S2P Require Import Dom.
From S2P Require Import Sink.
From S2P Require Import Html.
From S2P Require Import Frames.
From S2P Require Import Verify.
From S2P Require Import Discover.
From S2P Require Import Effects.
From S2P Require Import Browser.
From S2P Require Import Materialize.
From S2P Require Import Render.
From S2P Require Import RenderTrace.

#[local] Open Scope string_scope.
#[local] Open Scope list_scope.
#[local] Open Scope Z_scope.

(** ** Insertions into the store *)

Section Insertions.
Context `{Hh : Hashing} `{Ht : TempNames} {Hstore : StoreLaws}.

(** A text too long for [usize] is refused by a limit below it. *)
Lemma receive_fits f mr mt stream : forall k r received r' received',
  mr < u64_max -> 0 <= rcv_resource_bytes r ->
  receive f mr mt stream k r received = (Ok r', received') -> Forall chunk_fits stream.
Proof using Type.
  induction stream as [|[chunk|e] rest IH]; intros k r received r' received' Hmr Hr; simpl; [constructor| |done].
  destruct (checked_add u64_max (rcv_resource_bytes r) _) as [rb|] eqn:E1; [|done].
  destruct (checked_add u64_max received _) as [tb|] eqn:E2; [|done].
  destruct (_ || _) eqn:E3; [done|]. destruct (write_fails f k); [done|]. intros Hrun.
  apply checked_add_Some in E1 as [-> ?]. apply orb_false_iff in E3 as [?%Z.ltb_ge _].
  constructor; [|eapply IH; [done| |done]; simpl; pose proof (len_u64_nonneg chunk); lia].
  unfold chunk_fits, len_u64 in *. ranges. lia.
Qed.

Lemma insert_stream_kept f stream mr mt s :
  mr < u64_max -> store_ok s -> store_ok (insert_stream f stream mr mt s).2.
Proof using Hstore.
  intros Hmr Hs. unfold insert_stream. destruct (create_fails f) eqn:Ec; [done|].
  assert (Hc := receive_counts f mr mt stream 0 (MkReceiving 0 [] []) (cs_received_bytes s)).
  destruct (receive _ _ _ _ _ _ _) as [[r|e] received] eqn:E; simpl in Hc.
  - assert (Hfits : Forall chunk_fits stream) by (eapply receive_fits; [exact Hmr| |exact E]; simpl; lia).
    pose proof (insert_stream_ok f stream mr mt s Hfits Hs) as Hok.
    unfold insert_stream in Hok. rewrite Ec, E in Hok. exact Hok.
  - apply dropped_ok; [done|]. destruct Hs. lia.
Qed.

Lemma insert_stream_entries f stream mr mt s d c :
  cs_entries s !! d = Some c -> cs_entries (insert_stream f stream mr mt s).2 !! d = Some c.
Proof using Type.
  intros Hd. unfold insert_stream. destruct (create_fails f); [done|].
  assert (Hdrop : forall name left n, cs_entries (dropped f name left (with_received n s)) !! d = Some c).
  { intros. unfold dropped. by destruct (remove_fails f). }
  destruct (receive _ _ _ _ _ _ _) as [[r|e] received]; [|apply Hdrop].
  destruct (flush_fails f); [apply Hdrop|]. cbn [with_received cs_entries].
  destruct (cs_entries s !! sha256 (rcv_hashed r)) as [c'|] eqn:E; [apply Hdrop|].
  destruct (persist_fails f); [apply Hdrop|]. destruct (checked_add _ _ _); cbn; [|done].
  rewrite lookup_insert_ne; [done|congruence].
Qed.

(** What an insertion answers is an entry. *)
Lemma insert_stream_entry f stream mr mt s i s' :
  store_ok s -> insert_stream f stream mr mt s = (Ok i, s') ->
  cs_entries s' !! sc_digest (ci_content i) = Some (ci_content i).
Proof using Type.
  intros Hs. unfold insert_stream. destruct (create_fails f); [done|].
  destruct (receive _ _ _ _ _ _ _) as [[r|e] received]; [|done]. destruct (flush_fails f); [done|].
  cbn [with_received cs_entries]. destruct (cs_entries s !! sha256 (rcv_hashed r)) as [c'|] eqn:E.
  - intros [= <- <-]. cbn. destruct (ok_entries _ Hs _ _ E) as [-> _]. unfold dropped. by destruct (remove_fails f).
  - destruct (persist_fails f); [done|]. destruct (checked_add _ _ _); [|done]. intros [= <- <-]. cbn.
    by rewrite lookup_insert_eq.
Qed.

(** The operations whose failure an insertion reports. *)
Definition faulty (f : Faults) : Prop :=
  create_fails f = true \/ (exists k, write_fails f k = true) \/ flush_fails f = true \/ persist_fails f = true.

Lemma err_pair {A S} (e e' : OffprintError) (s s' : S) : (Err e : Res A, s) = (Err e', s') -> e' = e /\ s' = s.
Proof using Type. by intros [= -> ->]. Qed.

Lemma limit_error_code : err_code limit_error = "offprint.resource.limit".
Proof using Type. unfold limit_error, content_error. by rewrite new_error_code. Qed.

Lemma insert_bytes_refused f b mr mt s e s' :
  insert_stream f [Ok b] mr mt s = (Err e, s') -> err_code e = "offprint.resource.limit" \/ faulty f.
Proof using Type.
  unfold insert_stream, faulty. destruct (create_fails f); [tauto|]. cbn [receive].
  destruct (checked_add u64_max _ _); [|intros [-> _]%err_pair; left; apply limit_error_code].
  destruct (checked_add u64_max _ _); [|intros [-> _]%err_pair; left; apply limit_error_code].
  destruct (_ || _); [intros [-> _]%err_pair; left; apply limit_error_code|].
  destruct (write_fails f 0) eqn:Ew; [eauto|].
  destruct (flush_fails f); [tauto|]. cbn [with_received cs_entries].
  destruct (cs_entries s !! _); [done|]. destruct (persist_fails f); [tauto|].
  destruct (checked_add _ _ _); [done|]. intros [-> _]%err_pair. left; apply limit_error_code.
Qed.
End Insertions.

(** ** The invariant *)

Definition is_embedded (r : ResourceRecord) : bool := match rr_outcome r with OutcomeEmbedded _ _ _ => true | _ => false end.
Definition is_failed (r : ResourceRecord) : bool := match rr_outcome r with OutcomeFailed _ => true | _ => false end.

Definition count_records (p : ResourceRecord -> bool) (m : gmap Z ResourceRecord) : Z :=
  Z.of_nat (size (filter (fun x : Z * ResourceRecord => p x.2 = true) m)).

(** The bytes of the contents with one of these digests. *)
Definition bytes_among (ds : gset ContentDigest) (m : gmap ContentDigest StoredContent) : Z :=
  sum_bytes (filter (fun x : ContentDigest * StoredContent => x.1 ∈ ds) m).

(** A resource that was not embedded failed; one that was is a stored content. *)
Definition outcome_ok (s : Rendering) (o : ResourceOutcome) : Prop :=
  match o with
  | OutcomeEmbedded d _ n =>
      d ∈ rn_embedded_digests s /\ exists c, cs_entries (rn_store s) !! d = Some c /\ sc_bytes c = n
  | OutcomeFailed _ => True
  | OutcomeExternal _ _ _ | OutcomeOmitted _ => False
  end.

Section Invariant.
Context `{Hh : Hashing}.

Record rendering_ok (s : Rendering) : Prop := {
  ok_store : store_ok (rn_store s);
  ok_limit : 0 <= rn_next_resource_id s <= lim_resources (limits (rn_budget s)) /\
             lim_resources (limits (rn_budget s)) <= u32_max;
  ok_charged : resources (rn_budget s) = rn_next_resource_id s;
  ok_discovered : rs_discovered (rn_summary s) = rn_next_resource_id s;
  ok_records id r : rn_records s !! id = Some r ->
    0 <= id < rn_next_resource_id s /\ rr_id r = id /\ outcome_ok s (rr_outcome r);
  ok_embedded : rs_embedded (rn_summary s) = count_records is_embedded (rn_records s);
  ok_failed : rs_failed (rn_summary s) = count_records is_failed (rn_records s);
  ok_others : rs_external (rn_summary s) = 0 /\ rs_omitted (rn_summary s) = 0;
  ok_digests d : d ∈ rn_embedded_digests s ->
    is_Some (cs_entries (rn_store s) !! d) /\
    exists id r media n, rn_records s !! id = Some r /\ rr_outcome r = OutcomeEmbedded d media n;
  ok_bytes : rs_embedded_bytes (rn_summary s) = bytes_among (rn_embedded_digests s) (cs_entries (rn_store s));
}.
End Invariant.

(** ** Counting *)

Lemma size_below (n : Z) (X : gset Z) : (forall i, i ∈ X -> 0 <= i < n) -> Z.of_nat (size X) <= Z.max 0 n.
Proof.
  intros HX. assert (Hsub : X ⊆ list_to_set (seqZ 0 n)).
  { intros i Hi. apply elem_of_list_to_set, elem_of_seqZ. specialize (HX i Hi). lia. }
  apply subseteq_size in Hsub. rewrite size_list_to_set in Hsub by apply NoDup_seqZ. rewrite length_seqZ in Hsub. lia.
Qed.

(** A map with an identifier to spare has room for it. *)
Lemma records_room (n : Z) (m : gmap Z ResourceRecord) i :
  (forall id r, m !! id = Some r -> 0 <= id < n) -> 0 <= i < n -> m !! i = None -> Z.of_nat (size m) < n.
Proof.
  intros Hm Hi Hn. pose proof (size_below n ({[i]} ∪ dom m)) as Hs.
  rewrite size_union, size_singleton, size_dom in Hs by (apply disjoint_singleton_l; by apply not_elem_of_dom).
  assert (Z.of_nat (1 + size m) <= Z.max 0 n); [|lia]. apply Hs.
  intros j [Hj%elem_of_singleton|[r Hr]%elem_of_dom]%elem_of_union; [by subst|by eapply Hm].
Qed.

Lemma count_records_insert p m i r :
  m !! i = None -> count_records p (<[i := r]> m) = count_records p m + (if p r then 1 else 0).
Proof.
  intros Hi. unfold count_records. destruct (p r) eqn:Ep.
  - rewrite map_filter_insert_True by done. rewrite map_size_insert_None; [lia|].
    apply map_lookup_filter_None. by left.
  - rewrite map_filter_insert_False by (cbn; congruence). rewrite delete_id by done. lia.
Qed.

Lemma count_records_le p m : 0 <= count_records p m <= Z.of_nat (size m).
Proof.
  unfold count_records. split; [lia|]. apply inj_le, map_subseteq_size, map_filter_subseteq.
Qed.

(** Every record is counted by one of the two counters. *)
Lemma count_records_all m :
  (forall id r, m !! id = Some r -> is_embedded r = true \/ is_failed r = true) ->
  count_records is_embedded m + count_records is_failed m = Z.of_nat (size m).
Proof.
  induction m as [|i r m Hi IH] using map_ind; intros Hm; [done|].
  rewrite !count_records_insert, map_size_insert_None by done.
  assert (Hr := Hm i r (lookup_insert_eq _ _ _)).
  assert (is_embedded r = true -> is_failed r = false).
  { unfold is_embedded, is_failed. by destruct (rr_outcome r). }
  rewrite Nat2Z.inj_succ. rewrite <- IH.
  - destruct (is_embedded r), (is_failed r); naive_solver lia.
  - intros id r' Hr'. apply (Hm id). rewrite lookup_insert_ne; [done|]. intros <-. congruence.
Qed.

(** ** Sums of sizes *)

Lemma sum_bytes_nonneg (m : gmap ContentDigest StoredContent) :
  (forall d c, m !! d = Some c -> 0 <= sc_bytes c) -> 0 <= sum_bytes m.
Proof.
  induction m as [|d c m Hd IH] using map_ind; intros Hm; [done|]. rewrite sum_bytes_insert by done.
  pose proof (Hm d c (lookup_insert_eq _ _ _)). assert (0 <= sum_bytes m); [|lia]. apply IH.
  intros d' c' Hd'. apply (Hm d'). rewrite lookup_insert_ne; [done|]. intros <-. congruence.
Qed.

Lemma sum_bytes_filter (P : ContentDigest * StoredContent -> Prop) `{forall x, Decision (P x)}
    (m : gmap ContentDigest StoredContent) :
  (forall d c, m !! d = Some c -> 0 <= sc_bytes c) -> 0 <= sum_bytes (filter P m) <= sum_bytes m.
Proof.
  induction m as [|d c m Hd IH] using map_ind; intros Hm; [by rewrite map_filter_empty|].
  pose proof (Hm d c (lookup_insert_eq _ _ _)).
  assert (0 <= sum_bytes (filter P m) <= sum_bytes m).
  { apply IH. intros d' c' Hd'. apply (Hm d'). rewrite lookup_insert_ne; [done|]. intros <-. congruence. }
  rewrite sum_bytes_insert by done. destruct (decide (P (d, c))).
  - rewrite map_filter_insert_True by done. rewrite sum_bytes_insert; [lia|].
    apply map_lookup_filter_None. by left.
  - rewrite map_filter_insert_False by done. rewrite delete_id by done. lia.
Qed.

(** A content that is not among the digests does not count. *)
Lemma bytes_among_more ds (m m' : gmap ContentDigest StoredContent) :
  (forall d, d ∈ ds -> is_Some (m !! d)) -> (forall d c, m !! d = Some c -> m' !! d = Some c) ->
  bytes_among ds m' = bytes_among ds m.
Proof.
  intros Hds Hm. unfold bytes_among. f_equal. apply map_eq. intros d. apply option_eq. intros c.
  rewrite !map_lookup_filter_Some. cbn. split; intros [Hd Hin]; split; [|done|by apply Hm|done].
  destruct (Hds d Hin) as [c' Hc']. pose proof (Hm _ _ Hc'). congruence.
Qed.

Lemma bytes_among_add ds (m : gmap ContentDigest StoredContent) d c :
  d ∉ ds -> m !! d = Some c -> bytes_among ({[d]} ∪ ds) m = sc_bytes c + bytes_among ds m.
Proof.
  intros Hd Hm. unfold bytes_among. rewrite <- (sum_bytes_insert _ d) by (apply map_lookup_filter_None; right; intros ? _; done).
  f_equal. apply map_eq. intros d'. apply option_eq. intros c'. rewrite map_lookup_filter_Some. cbn.
  destruct (decide (d' = d)) as [-> |Hne].
  - rewrite lookup_insert_eq. split; [intros [E _]; congruence|]. intros [= <-]. split; [done|]. set_solver.
  - rewrite lookup_insert_ne by done. rewrite map_lookup_filter_Some. cbn. set_solver.
Qed.

(** ** Steps that leave the account as it is *)

Section Account.
Context `{UrlLib} `{UrlEdit} `{UrlView} `{Networks} `{Environment} `{Hashing} `{TempNames} `{DataUrls} `{Encodings}.
Context `{HtmlParser} `{CssTokens} `{Platform} {Hstore : StoreLaws} {Hlaws : UrlLaws}.
Implicit Types (s : Rendering).

Record extends s s' : Prop := {
  ex_next : rn_next_resource_id s <= rn_next_resource_id s';
  ex_entries d c : cs_entries (rn_store s) !! d = Some c -> cs_entries (rn_store s') !! d = Some c;
  ex_trace : rn_trace s `suffix_of` rn_trace s';
  ex_limits : limits (rn_budget s') = limits (rn_budget s);
}.

#[export] Instance extends_preorder : PreOrder extends.
Proof.
  split.
  - intros s. split; [lia|done|reflexivity|done].
  - intros s1 s2 s3 [N1 E1 T1 L1] [N2 E2 T2 L2]. split; [lia|auto|by etrans|congruence].
Qed.

Record calmly s s' : Prop := {
  ca_ok : rendering_ok s';
  ca_extends : extends s s';
  ca_next : rn_next_resource_id s' = rn_next_resource_id s;
  ca_records : rn_records s' = rn_records s;
}.

Lemma calmly_trans s1 s2 s3 : calmly s1 s2 -> calmly s2 s3 -> calmly s1 s3.
Proof using Type. intros [O1 E1 N1 R1] [O2 E2 N2 R2]. split; [done|by etrans|congruence..]. Qed.

Lemma calmly_store s s' :
  rendering_ok s -> limits (rn_budget s') = limits (rn_budget s) -> resources (rn_budget s') = resources (rn_budget s) ->
  store_ok (rn_store s') -> (forall d c, cs_entries (rn_store s) !! d = Some c -> cs_entries (rn_store s') !! d = Some c) ->
  rn_summary s' = rn_summary s -> rn_records s' = rn_records s -> rn_embedded_digests s' = rn_embedded_digests s ->
  rn_next_resource_id s' = rn_next_resource_id s -> rn_trace s `suffix_of` rn_trace s' ->
  calmly s s'.
Proof using Type.
  intros [Ost Oli Och Odi Ore Oem Ofa Oot Ods Oby] Hl Hr Hst Hen Hsu Hre Hds Hne Htr.
  split; [split| |done|done]; rewrite ?Hl, ?Hr, ?Hsu, ?Hre, ?Hds, ?Hne; try done.
  - intros id r Hid. destruct (Ore id r Hid) as (? & ? & Ho). split; [done|]. split; [done|].
    unfold outcome_ok in *. rewrite Hds. destruct (rr_outcome r); try done. destruct Ho as [? (c & ? & ?)]. eauto 10.
  - intros d Hd. destruct (Ods d Hd) as [[c Hc] ?]. eauto.
  - rewrite Oby. symmetry. apply bytes_among_more; [|done]. intros d Hd. by apply Ods.
  - split; [lia|done|done|done].
Qed.

Lemma calmly_core s s' :
  rendering_ok s -> rn_budget s' = rn_budget s -> rn_store s' = rn_store s -> rn_summary s' = rn_summary s ->
  rn_records s' = rn_records s -> rn_embedded_digests s' = rn_embedded_digests s ->
  rn_next_resource_id s' = rn_next_resource_id s -> rn_trace s `suffix_of` rn_trace s' -> calmly s s'.
Proof using Type.
  intros Hok Hb Hs. intros. apply calmly_store; try done; rewrite ?Hb, ?Hs; try done. apply Hok.
Qed.

Definition calm_with {A} (Q : A -> Rendering -> Prop) (m : Rn A) : Prop := forall s, rendering_ok s ->
  after m (fun a s' => calmly s s' /\ Q a s') (fun _ s' => calmly s s') s.

Abbreviation calm := (calm_with (fun _ _ => True)).

Lemma calm_refl s : rendering_ok s -> calmly s s.
Proof using Type. intros Hs. by apply calmly_core. Qed.

Lemma calm_bind {A B} (P : A -> Rendering -> Prop) (Q : B -> Rendering -> Prop) (m : Rn A) (k : A -> Rn B) :
  calm_with P m ->
  (forall a s, rendering_ok s -> P a s -> after (k a) (fun b s' => calmly s s' /\ Q b s') (fun _ s' => calmly s s') s) ->
  calm_with Q (ebind m k).
Proof using Type.
  intros Hm Hk s Hs. apply after_bind. eapply after_mono; [by apply Hm| |done]. intros a t [Ht Hp]. cbn beta.
  eapply after_mono; [apply Hk; [apply Ht|done]| |].
  - intros b x [Hx Hq]. split; [by eapply calmly_trans|done].
  - intros e x Hx. by eapply calmly_trans.
Qed.

Lemma calm_then {A B} (Q : B -> Rendering -> Prop) (m : Rn A) (k : A -> Rn B) :
  calm m -> (forall a, calm_with Q (k a)) -> calm_with Q (ebind m k).
Proof using Type. intros Hm Hk. eapply calm_bind; [exact Hm|]. intros a s Hs _. by apply Hk. Qed.

Lemma calm_weaken {A} (Q : A -> Rendering -> Prop) (m : Rn A) : calm_with Q m -> calm m.
Proof using Type. intros Hm s Hs. eapply after_mono; [by apply Hm| |done]. by intros a t [? _]. Qed.

Lemma calm_ret {A} (Q : A -> Rendering -> Prop) (a : A) s :
  rendering_ok s -> Q a s -> after (eret a) (fun b s' => calmly s s' /\ Q b s') (fun _ s' => calmly s s') s.
Proof using Type. intros Hs Hq. apply after_ret. split; [by apply calm_refl|done]. Qed.

Lemma calm_return {A} (a : A) : calm (eret a).
Proof using Type. intros s Hs. by apply calm_ret. Qed.
Lemma calm_err {A} Q e : calm_with Q (eerr e : Rn A).
Proof using Type. intros s Hs. apply after_err. by apply calm_refl. Qed.
Lemma calm_lift {A} (r : Res A) : calm (elift r).
Proof using Type. intros s Hs. apply after_lift; intros; [split; [|done]|]; by apply calm_refl. Qed.
Lemma calm_get : calm eget.
Proof using Type. intros s Hs. apply after_get. split; [by apply calm_refl|done]. Qed.
Lemma calm_attempt {A} (m : Rn A) : calm m -> calm (eattempt m).
Proof using Type.
  intros Hm s Hs. apply after_attempt. eapply after_mono; [by apply Hm| |]; cbn; [by intros a t [? _]|done].
Qed.
Lemma calm_ask {A} a (answer : Trace -> A) : calm (ask a answer).
Proof using Type.
  intros s Hs. unfold ask, after. split; [|done]. apply calmly_core; try done. cbn. by apply suffix_cons_r.
Qed.
Lemma calm_emit e : calm (emit e : Rn unit).
Proof using Type.
  intros s Hs. apply after_modify. split; [|done]. apply calmly_core; try done. cbn. by apply suffix_cons_r.
Qed.
Lemma calm_modify (f : Rendering -> Rendering) :
  (forall s, rn_budget (f s) = rn_budget s /\ rn_store (f s) = rn_store s /\ rn_summary (f s) = rn_summary s /\
     rn_records (f s) = rn_records s /\ rn_embedded_digests (f s) = rn_embedded_digests s /\
     rn_next_resource_id (f s) = rn_next_resource_id s /\ rn_trace (f s) = rn_trace s) -> calm (emodify f).
Proof using Type.
  intros Hf s Hs. apply after_modify. split; [|done]. destruct (Hf s) as (? & ? & ? & ? & ? & ? & Ht).
  apply calmly_core; try done. by rewrite Ht.
Qed.
Lemma calm_fold {A B} (f : A -> B -> Rn B) l : (forall x c, x ∈ l -> calm (f x c)) -> forall b, calm (efold f l b).
Proof using Type.
  induction l as [|x l IH]; intros Hf b; [apply calm_return|]. cbn [efold].
  apply calm_then; [apply Hf; left|]. intros c. apply IH. intros y d Hy. apply Hf. by right.
Qed.

(** *** Storing and loading *)

Section Loading.
Context (cx : RenderContext) (Hbytes : lim_resource_bytes (rq_limits (cx_request cx)) < u64_max).

(** The bytes are those of an entry of the store. *)
Definition stored_as (b : bytes) (c : StoredContent) s : Prop :=
  cs_entries (rn_store s) !! sc_digest c = Some c /\ sha256 b = sc_digest c /\ len_u64 b = sc_bytes c.

Lemma stored_as_extends b c s s' : extends s s' -> stored_as b c s -> stored_as b c s'.
Proof using Type. intros E (? & ? & ?). split; [by apply (ex_entries _ _ E)|done]. Qed.

Lemma calm_insert stream :
  calm_with (fun i s => cs_entries (rn_store s) !! sc_digest (ci_content i) = Some (ci_content i))
    (insert_content cx stream).
Proof using Hstore Hbytes.
  unfold insert_content. apply calm_then; [apply calm_ask|]. intros f s Hs.
  set (r := insert_stream f stream (lim_resource_bytes (rq_limits (cx_request cx)))
              (lim_total_resource_bytes (rq_limits (cx_request cx))) (rn_store s)).
  assert (Hcalm : calmly s (set_store r.2 s)).
  { apply calmly_store; try done; cbn; [by apply insert_stream_kept; [done|apply Hs]|].
    intros d c Hd. by apply insert_stream_entries. }
  apply after_part; intros x st E; fold r in E; rewrite E in Hcalm; [|exact Hcalm].
  split; [exact Hcalm|]. cbn. eapply insert_stream_entry; [apply Hs|exact E].
Qed.

Lemma stored_read_spec c maximum s b :
  store_ok (rn_store s) -> cs_entries (rn_store s) !! sc_digest c = Some c ->
  stored_read c maximum (cs_directory (rn_store s)) = Ok b -> stored_as b c s.
Proof using Type.
  intros Hs Hc. destruct (ok_entries _ Hs _ _ Hc) as (_ & Hp & Hb & x & Hx & Hsha & Hlen).
  unfold stored_read. destruct (maximum <? sc_bytes c); [done|]. rewrite Hp, Hx.
  rewrite take_ge by (unfold saturating_add; ranges; lia).
  rewrite bool_decide_eq_false_2 by (rewrite len_u64_small; [intros E; by apply E|lia]).
  intros [= <-]. split; [done|]. split; [done|]. rewrite len_u64_small by lia. done.
Qed.

Lemma calm_materialize stream : calm_with (fun x s => stored_as x.1 x.2 s) (materialize cx stream).
Proof using Hstore Hbytes.
  unfold materialize. eapply calm_bind; [apply calm_insert|]. intros i s Hs Hi. apply after_bind.
  unfold read_content. apply after_bind, after_get. apply after_lift; [|intros; by apply calm_refl].
  intros b Hb. apply calm_ret; [done|]. cbn. eapply stored_read_spec; [apply Hs|done|exact Hb].
Qed.

Lemma reserve_bytes_budget n b : limits (reserve_resource_bytes n b).2 = limits b /\ resources (reserve_resource_bytes n b).2 = resources b.
Proof using Type.
  unfold reserve_resource_bytes, charge.
  destruct (enforce _ _ _); cbn; [|done]. destruct (ok_or _ _); cbn; [|done]. by destruct (enforce _ _ _).
Qed.

Lemma calm_store_body stream : calm_with (fun x s => stored_as x.1 x.2 s) (store_body cx stream).
Proof using Hstore Hbytes.
  unfold store_body. eapply calm_bind; [apply calm_materialize|]. intros x s Hs Hx. apply after_bind.
  destruct (reserve_bytes_budget (sc_bytes x.2) (rn_budget s)) as [Hl Hr].
  assert (Hcalm : calmly s (set_budget (reserve_resource_bytes (sc_bytes x.2) (rn_budget s)).2 s)).
  { apply calmly_store; try done. apply Hs. }
  apply after_part; intros y b E; rewrite E in Hcalm; [|done]. cbn. by apply after_ret.
Qed.

Lemma calm_stored_data stream media_of prov :
  calm_with (fun x s => stored_as (ld_bytes x) (ld_content x) s)
    ('(b, content) <-! store_body cx stream ;; eret (MkLoadedData b content (media_of content) (prov content))).
Proof using Hstore Hbytes.
  eapply calm_bind; [apply calm_store_body|]. intros [b content] s Hs Hb. by apply calm_ret.
Qed.

Lemma calm_validate_network g u : calm (validate_network_url g u : Rn unit).
Proof using Type.
  unfold validate_network_url. apply calm_then; [apply calm_lift|]. intros []. apply calm_then; [apply calm_lift|].
  intros host. destruct (parse_ip host); [apply calm_lift|]. apply calm_then; [apply calm_lift|]. intros port.
  apply calm_then; [apply calm_ask|]. intros answer. apply calm_then; [apply calm_lift|]. intros. apply calm_lift.
Qed.

Lemma calm_validate_file u roots : calm (validate_file_resource u roots : Rn unit).
Proof using Type.
  unfold validate_file_resource. apply calm_then; [apply calm_lift|]. intros path.
  apply calm_then; [apply calm_ask|]. intros answer. apply calm_then; [apply calm_lift|]. intros real.
  induction roots as [|root roots IH]; cbn [within_roots]; [apply calm_err|].
  apply calm_then; [apply calm_ask|]. intros [r|]; [|done]. destruct (path_starts_with real r); [apply calm_return|done].
Qed.

Lemma calm_load_page u : calm (load_from_page cx u).
Proof using Type.
  unfold load_from_page, load_resource_in_session. apply calm_then; [apply calm_ask|]. intros. apply calm_lift.
Qed.

Lemma calm_take id : calm (take_prefetched id).
Proof using Type. intros s Hs. unfold take_prefetched, after. split; [|done]. by apply calmly_core. Qed.

Lemma calm_load u role id : calm_with (fun x s => stored_as (ld_bytes x) (ld_content x) s) (load cx u role id).
Proof using Hstore Hbytes.
  assert (Hfinish : forall l o, calm_with (fun x s => stored_as (ld_bytes x) (ld_content x) s) (finish_loaded cx u role l o)).
  { intros. unfold finish_loaded. by apply (calm_stored_data _ (fun _ => _)
      (fun c => resource_provenance _ _ _ _ (sc_bytes c))). }
  unfold load. case_bool_decide.
  { unfold load_data. destruct (_ <? _); [apply calm_err|]. apply calm_then; [apply calm_lift|]. intros [media body].
    apply calm_then; [apply calm_lift|]. intros b. by apply (calm_stored_data _ (fun _ => _)
      (fun c => resource_provenance _ _ _ _ (sc_bytes c))). }
  destruct (_ || _).
  { unfold load_http. apply calm_then; [apply calm_take|]. intros found. apply calm_then.
    - destruct found; [apply calm_lift|]. apply calm_then; [apply calm_validate_network|]. intros. apply calm_load_page.
    - intros l. destruct (_ && _); [apply Hfinish|apply calm_err]. }
  assert (Hframe : forall v, calm (load_from_frame cx u id v)).
  { intros v. unfold load_from_frame. apply calm_then; [apply calm_take|]. intros [l|]; [apply calm_lift|].
    apply calm_then; [|intros; apply calm_load_page]. destruct v; [|apply calm_return].
    destruct (is_remote _); [apply calm_err|apply calm_validate_file]. }
  case_bool_decide; [|case_bool_decide]; [apply calm_then; [apply Hframe|intros; apply Hfinish]..|apply calm_err].
Qed.
End Loading.

(** ** Records *)

Lemma counts_room s id : rendering_ok s -> 0 <= id < rn_next_resource_id s -> rn_records s !! id = None ->
  count_records is_embedded (rn_records s) < u32_max /\ count_records is_failed (rn_records s) < u32_max.
Proof using Type.
  intros Hs Hid Hn. pose proof (ok_limit _ Hs).
  assert (Z.of_nat (size (rn_records s)) < rn_next_resource_id s).
  { eapply records_room; [|exact Hid|exact Hn]. intros j r Hj. by apply (ok_records _ Hs j r). }
  pose proof (count_records_le is_embedded (rn_records s)). pose proof (count_records_le is_failed (rn_records s)). lia.
Qed.

Lemma outcome_ok_more s s' o :
  (forall d, d ∈ rn_embedded_digests s -> d ∈ rn_embedded_digests s') ->
  (forall d c, cs_entries (rn_store s) !! d = Some c -> cs_entries (rn_store s') !! d = Some c) ->
  outcome_ok s o -> outcome_ok s' o.
Proof using Type. intros Hd He. destruct o; cbn; try done. intros [? (c & ? & ?)]. eauto 10. Qed.

Lemma failed_ok s id r :
  rendering_ok s -> 0 <= id < rn_next_resource_id s -> rn_records s !! id = None -> rr_id r = id ->
  (exists e, rr_outcome r = OutcomeFailed e) ->
  rendering_ok (set_summary (count_failed (rn_summary s)) (set_records (<[id := r]> (rn_records s)) s)).
Proof using Type.
  intros Hs Hid Hn Hr [e He]. destruct (counts_room s id Hs Hid Hn) as [_ Hroom].
  destruct Hs as [Ost Oli Och Odi Ore Oem Ofa Oot Ods Oby].
  assert (is_embedded r = false /\ is_failed r = true) as [Hre Hrf] by (unfold is_embedded, is_failed; by rewrite He).
  split; cbn; try done.
  - intros j x. destruct (decide (j = id)) as [-> |Hne].
    + rewrite lookup_insert_eq. intros [= <-]. rewrite He. done.
    + rewrite lookup_insert_ne by done. intros Hx. destruct (Ore j x Hx) as (? & ? & Ho). done.
  - rewrite count_records_insert, Hre by done. lia.
  - rewrite count_records_insert, Hrf by done. unfold saturating_add. lia.
  - intros d Hd. destruct (Ods d Hd) as (? & j & x & media & n & Hj & Hx). split; [done|].
    exists j, x, media, n. split; [|done]. rewrite lookup_insert_ne; [done|]. intros <-. congruence.
Qed.

Lemma entries_nonneg (x : ContentStore) d c : store_ok x -> cs_entries x !! d = Some c -> 0 <= sc_bytes c.
Proof using Type. intros Hs Hd. destruct (ok_entries _ Hs _ _ Hd) as (_ & _ & Hb & _). lia. Qed.

Lemma embed_digest_bytes s c :
  rendering_ok s -> cs_entries (rn_store s) !! sc_digest c = Some c ->
  rs_embedded_bytes (rn_summary (embed_digest c s))
  = bytes_among ({[sc_digest c]} ∪ rn_embedded_digests s) (cs_entries (rn_store s)).
Proof using Type.
  intros Hs Hc. unfold embed_digest. case_bool_decide as Hd.
  - rewrite (ok_bytes _ Hs). f_equal. symmetry. by apply subseteq_union_1_L, singleton_subseteq_l.
  - cbn. rewrite (bytes_among_add _ _ _ c), (ok_bytes _ Hs) by done. unfold saturating_add.
    pose proof (ok_store _ Hs) as Hst. pose proof (ok_unique _ Hst). pose proof (ok_bounds _ Hst). pose proof (ok_received _ Hst).
    pose proof (sum_bytes_filter (fun x => x.1 ∈ ({[sc_digest c]} ∪ rn_embedded_digests s)) (cs_entries (rn_store s))
                  (fun d c' => entries_nonneg _ d c' Hst)) as Hle.
    change (sum_bytes (filter _ _)) with (bytes_among ({[sc_digest c]} ∪ rn_embedded_digests s) (cs_entries (rn_store s))) in Hle.
    rewrite (bytes_among_add _ _ _ c) in Hle by done. lia.
Qed.

Lemma embed_digest_fields s c :
  rn_budget (embed_digest c s) = rn_budget s /\ rn_store (embed_digest c s) = rn_store s /\
  rn_records (embed_digest c s) = rn_records s /\ rn_next_resource_id (embed_digest c s) = rn_next_resource_id s /\
  rn_trace (embed_digest c s) = rn_trace s /\
  rn_embedded_digests (embed_digest c s) = {[sc_digest c]} ∪ rn_embedded_digests s /\
  rs_discovered (rn_summary (embed_digest c s)) = rs_discovered (rn_summary s) /\
  rs_embedded (rn_summary (embed_digest c s)) = rs_embedded (rn_summary s) /\
  rs_failed (rn_summary (embed_digest c s)) = rs_failed (rn_summary s) /\
  rs_external (rn_summary (embed_digest c s)) = rs_external (rn_summary s) /\
  rs_omitted (rn_summary (embed_digest c s)) = rs_omitted (rn_summary s).
Proof using Type. unfold embed_digest. case_bool_decide; [|by split_and!]. split_and!; try done.
  symmetry. by apply subseteq_union_1_L, singleton_subseteq_l.
Qed.

(** The state after a resource was embedded, before its progress is reported. *)
Definition embedded_state (id : Z) (r : ResourceRecord) (c : StoredContent) s : Rendering :=
  let s := embed_digest c (set_summary (count_embedded (rn_summary s)) s) in
  set_records (<[id := r]> (rn_records s)) s.

Lemma embedded_ok s id r c media :
  rendering_ok s -> 0 <= id < rn_next_resource_id s -> rn_records s !! id = None -> rr_id r = id ->
  cs_entries (rn_store s) !! sc_digest c = Some c ->
  rr_outcome r = OutcomeEmbedded (sc_digest c) media (sc_bytes c) -> rendering_ok (embedded_state id r c s).
Proof using Type.
  intros Hs Hid Hn Hr Hc He. destruct (counts_room s id Hs Hid Hn) as [Hroom _].
  unfold embedded_state. set (s0 := set_summary (count_embedded (rn_summary s)) s).
  destruct (embed_digest_fields s0 c) as (Fb & Fs & Fr & Fn & _ & Fd & Fdi & Fem & Ffa & Fex & Fom).
  assert (Hby : rs_embedded_bytes (rn_summary (embed_digest c s0))
                = bytes_among ({[sc_digest c]} ∪ rn_embedded_digests s) (cs_entries (rn_store s))).
  { rewrite <- embed_digest_bytes by done. unfold embed_digest. cbn. by case_bool_decide. }
  assert (is_embedded r = true /\ is_failed r = false) as [Hre Hrf] by (unfold is_embedded, is_failed; by rewrite He).
  destruct Hs as [Ost Oli Och Odi Ore Oem Ofa Oot Ods Oby].
  split; cbn; rewrite ?Fb, ?Fs, ?Fr, ?Fn, ?Fd, ?Fdi, ?Fem, ?Ffa, ?Fex, ?Fom, ?Hby; try done.
  - intros j x. destruct (decide (j = id)) as [-> |Hne].
    + rewrite lookup_insert_eq. intros [= <-]. split; [done|]. split; [done|]. rewrite He. cbn. rewrite Fs, Fd.
      split; [by apply elem_of_union_l, elem_of_singleton|eauto].
    + rewrite lookup_insert_ne by done. intros Hx. destruct (Ore j x Hx) as (? & ? & Ho). split; [done|]. split; [done|].
      revert Ho. apply outcome_ok_more; cbn; rewrite ?Fs, ?Fd; [intros d Hd; by apply elem_of_union_r|done].
  - cbn. rewrite count_records_insert, Hre by done. unfold saturating_add. rewrite Oem. lia.
  - cbn. rewrite count_records_insert, Hrf by done. lia.
  - intros d. cbn. intros [->%elem_of_singleton|Hd]%elem_of_union.
    + split; [by eexists|]. exists id, r, media, (sc_bytes c). by rewrite lookup_insert_eq.
    + destruct (Ods d Hd) as (? & j & x & m & n & Hj & Hx). split; [done|].
      exists j, x, m, n. split; [|done]. rewrite lookup_insert_ne; [done|]. intros <-. congruence.
Qed.

(** ** Progress *)

(** Cancellation was seen, or an operation of the file system failed. *)
Definition disturbed (t : Trace) : Prop :=
  exists t', t' `suffix_of` t /\
    match t' with
    | APoll :: _ => env_cancelled t' = true
    | AInsert :: _ => faulty (env_faults t')
    | _ => False
    end.

Lemma disturbed_later t t' : t `suffix_of` t' -> disturbed t -> disturbed t'.
Proof using Type. intros Hs (x & Hx & Hm). exists x. split; [by etrans|done]. Qed.

(** Every identifier given out in between has a record. *)
Definition settled s s' : Prop :=
  forall id, rn_next_resource_id s <= id < rn_next_resource_id s' -> is_Some (rn_records s' !! id).

Definition settled_or s s' : Prop := disturbed (rn_trace s') \/ settled s s'.

(** The records of the identifiers given out before are those there were, but for
    one perhaps. *)
Record moved (own : option Z) s s' : Prop := {
  mv_ok : rendering_ok s';
  mv_extends : extends s s';
  mv_same id : id < rn_next_resource_id s -> own <> Some id -> rn_records s' !! id = rn_records s !! id;
}.

Lemma moved_refl own s : rendering_ok s -> moved own s s.
Proof using Type. intros Hs. by split. Qed.

Lemma moved_trans own s1 s2 s3 : moved own s1 s2 -> moved own s2 s3 -> moved own s1 s3.
Proof using Type.
  intros [O1 E1 S1] [O2 E2 S2]. split; [done|by etrans|]. intros id Hid Hne.
  rewrite S2 by (try done; pose proof (ex_next _ _ E1); lia). by apply S1.
Qed.

Lemma calmly_moved own s s' : calmly s s' -> moved own s s'.
Proof using Type. intros [O E N R]. split; [done|done|]. intros. by rewrite R. Qed.

Lemma moved_none own s s' : moved None s s' -> moved own s s'.
Proof using Type. intros [O E S]. split; [done|done|]. intros id Hid _. by apply S. Qed.

Lemma settled_refl s : settled s s.
Proof using Type. intros id Hid. lia. Qed.

Lemma calmly_settled s s' : calmly s s' -> settled s s'.
Proof using Type. intros [O E N R] id Hid. lia. Qed.

(** Settled in two steps; the second may be about an identifier of the first. *)
Lemma settled_trans own s1 s2 s3 : moved own s2 s3 ->
  (forall id, own = Some id -> is_Some (rn_records s3 !! id)) -> settled_or s1 s2 -> settled_or s2 s3 -> settled_or s1 s3.
Proof using Type.
  intros M Hown [D|S1] [D'|S2]; [by left|left; by eapply disturbed_later; [apply (mv_extends _ _ _ M)|]|by left|right].
  intros id Hid. destruct (decide (rn_next_resource_id s2 <= id)); [apply S2; lia|].
  destruct (decide (own = Some id)) as [E|E]; [by apply Hown|].
  rewrite (mv_same _ _ _ M) by (try done; lia). apply S1. lia.
Qed.

(** *** The outcomes *)

Section Outcomes.
Context (cx : RenderContext) (Hbytes : lim_resource_bytes (rq_limits (cx_request cx)) < u64_max).

Definition is_data (r : string) : Prop := starts_with "data:" r = true.

(** The reference is settled, or nothing of it is said. *)
Record outcome_of (id : Z) s s' : Prop := {
  oc_moved : moved (Some id) s s';
  oc_recorded : is_Some (rn_records s' !! id);
  oc_settled : settled_or s s';
}.

(** Why the resolution of a reference fails as a whole. *)
Definition grave (e : OffprintError) s' : Prop :=
  disturbed (rn_trace s') \/ err_code e = "offprint.resource.limit" \/
  cp_missing_resources (rq_content (cx_request cx)) = MissingFail.

Definition unrecorded (id : Z) s : Prop := 0 <= id < rn_next_resource_id s /\ rn_records s !! id = None.

Lemma unrecorded_moved id s s' : moved None s s' -> unrecorded id s -> unrecorded id s'.
Proof using Type.
  intros M [Hid Hn]. pose proof (ex_next _ _ (mv_extends _ _ _ M)). split; [lia|]. rewrite (mv_same _ _ _ M); [done|lia|done].
Qed.

(** What is emitted does not fail. *)
Lemma progress_sure s : rendering_ok s -> after (progress cx) (fun _ s' => calmly s s') (fun _ _ => False) s.
Proof using Type.
  intros Hs. unfold progress. apply after_bind, after_get, after_modify. apply calmly_core; try done. cbn. by apply suffix_cons_r.
Qed.

Lemma warn_sure code message id s : rendering_ok s -> after (warn cx code message id) (fun _ s' => calmly s s') (fun _ _ => False) s.
Proof using Type.
  intros Hs. unfold warn. apply after_bind, after_modify, after_modify. apply calmly_core; try done. cbn. by apply suffix_cons_r.
Qed.

Lemma data_prefix x : is_data ("data:" +:+ x).
Proof using Type.
  unfold is_data, starts_with. transitivity (String.prefix "" x); [reflexivity|by destruct x].
Qed.

Lemma data_replacement media b f : is_data (match f with Some f => (resource_data_url media b ++ "#" ++ f)%string | None => resource_data_url media b end).
Proof using Type. destruct f; apply data_prefix. Qed.

Lemma empty_is_data role : is_data (empty_resource_data_url role).
Proof using Type. destruct role; apply data_prefix. Qed.

(** A calm step after a record. *)
Lemma outcome_calm id s s1 s2 : moved (Some id) s s1 -> is_Some (rn_records s1 !! id) -> settled s s1 ->
  calmly s1 s2 -> outcome_of id s s2.
Proof using Type.
  intros M R S C. split.
  - eapply moved_trans; [done|]. by apply calmly_moved.
  - by rewrite (ca_records _ _ C).
  - right. intros j Hj. rewrite (ca_records _ _ C). apply S. by rewrite <- (ca_next _ _ C).
Qed.

Lemma missing_spec u role id e s : rendering_ok s -> unrecorded id s ->
  after (missing cx u role id e)
    (fun r s' => (outcome_of id s s' /\ is_data r) /\ cp_missing_resources (rq_content (cx_request cx)) = MissingWarn)
    (fun e' s' => moved (Some id) s s' /\ e' = e /\ cp_missing_resources (rq_content (cx_request cx)) = MissingFail) s.
Proof using Type.
  intros Hs [Hid Hn]. unfold missing. set (r := resource_record _ _ _ _ _).
  apply after_bind. unfold after at 1, record. cbn [rr_id r resource_record]. rewrite Hn. cbn [is_some].
  apply after_bind, after_modify. set (s1 := set_summary _ _).
  assert (Hs1 : rendering_ok s1) by exact (failed_ok s id r Hs Hid Hn eq_refl (ex_intro _ _ eq_refl)).
  assert (M1 : moved (Some id) s s1).
  { split; [done|split; try done; cbn; lia|]. intros j Hj Hne. cbn. rewrite lookup_insert_ne; [done|congruence]. }
  assert (R1 : is_Some (rn_records s1 !! id)) by (cbn; rewrite lookup_insert_eq; by eexists).
  assert (S1 : settled s s1) by (intros j Hj; cbn in Hj; lia).
  assert (Hcalm : forall s2, calmly s1 s2 -> outcome_of id s s2) by (intros; by eapply outcome_calm).
  apply after_bind. eapply after_mono; [by apply progress_sure| |done].
  intros [] s2 C2. cbn beta. destruct (cp_missing_resources _) eqn:Ep.
  - apply after_bind. eapply after_mono; [apply warn_sure, C2| |done].
    intros [] s3 C3. apply after_ret. split; [|done]. split; [|apply empty_is_data]. apply Hcalm. by eapply calmly_trans.
  - apply after_err. split; [|done]. apply Hcalm in C2. apply C2.
Qed.

Definition held (b : bytes) (stored : option StoredContent) s : Prop :=
  match stored with Some c => stored_as b c s | None => True end.

Lemma commit_spec b stored s : rendering_ok s -> held b stored s ->
  after (commit_bytes cx b stored)
    (fun c s' => calmly s s' /\ cs_entries (rn_store s') !! sc_digest c = Some c)
    (fun e s' => calmly s s' /\ grave e s') s.
Proof using Hstore Hbytes.
  intros Hs Hb. unfold commit_bytes. destruct stored as [c|].
  - destruct Hb as (Hc & Hd & Hl). rewrite Hl, Z.eqb_refl, bool_decide_true by done. apply after_ret.
    split; [by apply calm_refl|done].
  - apply after_bind. unfold insert_content.
    assert (Hcalm := calm_insert cx Hbytes [Ok b] s Hs). unfold insert_content in Hcalm. revert Hcalm.
    unfold after, ebind, ask. cbn -[insert_stream]. unfold epart. cbn -[insert_stream].
    destruct (insert_stream _ _ _ _ _) as [[i|e] st] eqn:E; cbn; [done|].
    intros C. split; [done|]. apply insert_bytes_refused in E as [He|Hf]; [right; by left|left].
    exists (AInsert :: rn_trace s). split; [reflexivity|done].
Qed.

Lemma record_embedded_spec u id media b stored p s :
  rendering_ok s -> unrecorded id s -> held b stored s ->
  after (record_embedded cx u id media b stored p) (fun r s' => outcome_of id s s' /\ is_data r)
    (fun e s' => moved (Some id) s s' /\ grave e s') s.
Proof using Hstore Hbytes.
  intros Hs [Hid Hn] Hb. unfold record_embedded. apply after_bind. eapply after_mono; [by apply commit_spec| |].
  2:{ intros e s' [C G]. split; [by apply calmly_moved|done]. }
  intros c s0 [C0 Hc]. cbn beta. apply after_bind, after_modify, after_bind, after_modify.
  set (r := resource_record _ _ _ _ _). set (s1 := embed_digest c (set_summary (count_embedded (rn_summary s0)) s0)).
  destruct (embed_digest_fields (set_summary (count_embedded (rn_summary s0)) s0) c)
    as (Fb & Fs & Fr & Fn & Ft & _). fold s1 in Fb, Fs, Fr, Fn, Ft. cbn in Fb, Fs, Fr, Fn, Ft.
  assert (Hn0 : rn_records s0 !! id = None) by by rewrite (ca_records _ _ C0).
  apply after_bind. unfold after at 1, record. cbn [rr_id r resource_record]. rewrite Fr, Hn0. cbn [is_some].
  set (s2 := set_records _ s1).
  assert (Hs2 : rendering_ok s2).
  { assert (E : s2 = embedded_state id r c s0) by (unfold s2, embedded_state; fold s1; by rewrite Fr).
    rewrite E. eapply embedded_ok; [apply C0|by rewrite (ca_next _ _ C0)|done|done|done|reflexivity]. }
  assert (M2 : moved (Some id) s s2).
  { eapply moved_trans; [by apply calmly_moved|]. split; [done|split|]; cbn; rewrite ?Fb, ?Fs, ?Fn, ?Ft; try done.
    intros j Hj Hne. rewrite lookup_insert_ne; [done|congruence]. }
  assert (R2 : is_Some (rn_records s2 !! id)) by (cbn; rewrite lookup_insert_eq; by eexists).
  assert (S2 : settled s s2) by (intros j Hj; cbn in Hj; rewrite Fn, (ca_next _ _ C0) in Hj; lia).
  apply after_bind. eapply after_mono; [by apply progress_sure| |done]. intros [] s3 C3. apply after_ret.
  split; [by eapply outcome_calm|apply data_replacement].
Qed.

(** *** Nested resources *)

(** A transformation ends with every reference it found settled, or fails with a
    reason. *)
Definition transformed s s' : Prop := moved None s s' /\ settled_or s s'.

Definition transform_ok (t : bytes -> Rn bytes) s : Prop := forall b s0, rendering_ok s0 -> extends s s0 ->
  after (t b) (fun _ s' => transformed s0 s')
    (fun e s' => moved None s0 s' /\ (grave e s' \/ settled s0 s')) s0.

Definition flow_ok (id : Z) (f : Flow) s0 s : Prop :=
  match f with
  | Return r => outcome_of id s0 s /\ is_data r
  | Continue b stored => transformed s0 s /\ unrecorded id s /\ held b stored s
  end.

Lemma set_active_calm k x s : rendering_ok s -> calmly s (set_active k x s).
Proof using Type. intros Hs. apply calmly_core; try done; by destruct k. Qed.

Lemma missing_flow u role id e s0 s : transformed s0 s -> rendering_ok s -> unrecorded id s -> unrecorded id s0 ->
  after (r <-! missing cx u role id e ;; eret (Return r))
    (fun f s' => flow_ok id f s0 s') (fun e' s' => moved (Some id) s0 s' /\ grave e' s') s.
Proof using Type.
  intros [M St] Hs Hu Hu0. apply after_bind. eapply after_mono; [by apply missing_spec| |].
  - intros r s' [[[Om Or Os] Hd] _]. apply after_ret. split; [|done]. split; [|done|].
    + eapply moved_trans; [by apply moved_none|done].
    + eapply settled_trans; [exact Om| |exact St|exact Os]. by intros ? [= <-].
  - intros e' s' (Mm & -> & Hf). split; [|by right; right]. eapply moved_trans; [by apply moved_none|done].
Qed.

Lemma transformed_calm s0 s s' : transformed s0 s -> calmly s s' -> transformed s0 s'.
Proof using Type.
  intros [M St] C. split; [eapply moved_trans; [done|by apply calmly_moved]|].
  eapply settled_trans; [by apply (calmly_moved None)|done|done|]. right. by apply calmly_settled.
Qed.

Lemma transformed_trans s0 s s' : transformed s0 s -> transformed s s' -> transformed s0 s'.
Proof using Type.
  intros [M St] [M' St']. split; [by eapply moved_trans|]. by eapply settled_trans.
Qed.

Lemma nested_spec k t u role depth id media f s0 s :
  rendering_ok s0 -> rendering_ok s -> unrecorded id s0 -> extends s0 s ->
  (has_kind k media = true -> depth < nested_limit cx k -> transform_ok t s) -> flow_ok id f s0 s ->
  after (nested cx k t u role depth id media f)
    (fun f s' => rendering_ok s' /\ extends s0 s' /\ flow_ok id f s0 s')
    (fun e s' => moved (Some id) s0 s' /\ grave e s') s.
Proof using Type.
  intros Hs0 Hs Hu0 Hex Ht Hf. unfold nested. destruct f as [r|b stored]; [by apply after_ret|].
  destruct (has_kind k media) eqn:Ek; cbn [negb]; [|by apply after_ret].
  destruct Hf as (Htr & Hu & Hb).
  assert (Hmiss : forall e s1, transformed s0 s1 -> unrecorded id s1 ->
    after (r <-! missing cx u role id e ;; eret (Return r))
      (fun f s' => rendering_ok s' /\ extends s0 s' /\ flow_ok id f s0 s')
      (fun e s' => moved (Some id) s0 s' /\ grave e s') s1).
  { intros e s1 T1 U1. eapply after_mono; [apply missing_flow; try done; apply T1| |done].
    intros f s' Hf'. assert (exists o, moved o s0 s') as [o M].
    { destruct f; [exists (Some id); apply Hf'|exists None; apply Hf']. }
    split; [apply M|]. split; [apply M|done]. }
  destruct (nested_limit cx k <=? depth) eqn:Ed; [by apply Hmiss|]. apply Z.leb_gt in Ed.
  apply after_bind, after_get. case_bool_decide; [by apply Hmiss|].
  apply after_bind, after_modify. assert (C1 := set_active_calm k ({[url_without_fragment u]} ∪ active k s) s Hs).
  set (s1 := set_active k _ s) in *. apply after_bind, after_attempt.
  assert (Hok : transform_ok t s) by auto.
  eapply after_mono; [apply (Hok b s1); [apply C1|apply C1]| |]; cbn beta.
  - intros b' s2 T2. apply after_bind, after_modify.
    assert (C3 : calmly s2 (set_active k (active k s2 ∖ {[url_without_fragment u]}) s2)) by apply set_active_calm, T2.
    apply after_ret. split; [apply C3|].
    assert (T3 : transformed s0 (set_active k (active k s2 ∖ {[url_without_fragment u]}) s2)).
    { eapply transformed_calm; [|exact C3]. eapply transformed_trans; [|exact T2]. by eapply transformed_calm. }
    split; [apply T3|]. split; [done|]. split; [|done]. eapply unrecorded_moved; [apply T3|done].
  - intros e s2 [M2 G2]. apply after_bind, after_modify.
    assert (C3 : calmly s2 (set_active k (active k s2 ∖ {[url_without_fragment u]}) s2)) by apply set_active_calm, M2.
    set (s3 := set_active k _ s2) in *.
    assert (M3 : moved None s0 s3).
    { eapply moved_trans; [apply Htr|]. eapply moved_trans; [by apply calmly_moved|].
      eapply moved_trans; [exact M2|by apply calmly_moved]. }
    assert (D3 : disturbed (rn_trace s2) -> disturbed (rn_trace s3)) by (apply disturbed_later, C3).
    case_bool_decide as Hl; [apply after_err; split; [by apply moved_none|right; by left]|].
    destruct (cp_missing_resources (rq_content (cx_request cx))) eqn:Ep.
    + apply Hmiss; [|by eapply unrecorded_moved]. split; [done|].
      destruct G2 as [[D|[?|?]]|S2]; [left; auto|done|congruence|].
      assert (T2 : transformed s0 s2); [|by eapply transformed_calm].
      eapply transformed_trans; [by eapply transformed_calm|]. split; [done|by right].
    + apply after_bind. eapply after_mono; [apply missing_spec; [apply M3|by eapply unrecorded_moved]| |].
      * intros r s4 [_ Hw]. congruence.
      * intros e' s4 (M4 & _ & _). split; [|right; by right]. eapply moved_trans; [by apply moved_none|done].
Qed.

(** *** References *)

Record begun s s' : Prop := {
  bg_ok : rendering_ok s';
  bg_extends : extends s s';
  bg_next : rn_next_resource_id s' = rn_next_resource_id s + 1;
  bg_records : rn_records s' = rn_records s;
}.

Lemma resource_limit_code e : e = resource_limit_error -> err_code e = "offprint.resource.limit".
Proof using Type. intros ->. unfold resource_limit_error, resource_error. by rewrite new_error_code. Qed.

Lemma budget_error_code c a l : err_code (budget_limit_error c a l) = "offprint.resource.limit".
Proof using Type. unfold budget_limit_error. rewrite !with_detail_code. by rewrite new_error_code. Qed.

Lemma add_resource_spec b :
  (exists b', add_resource b = (Ok tt, b') /\ limits b' = limits b /\ resources b' = resources b + 1 /\
     resources b + 1 <= lim_resources (limits b)) \/
  (exists e, add_resource b = (Err e, b) /\ err_code e = "offprint.resource.limit").
Proof using Type.
  unfold add_resource, charge. destruct (checked_add u32_max (resources b) 1) as [n|] eqn:E; cbn.
  - apply checked_add_Some in E as [-> _]. unfold enforce. destruct (_ <=? _) eqn:El; cbn.
    + left. eexists. split; [done|]. split; [done|]. split; [done|]. by apply Z.leb_le.
    + right. eexists. split; [done|apply budget_error_code].
  - right. eexists. split; [done|apply budget_error_code].
Qed.

Lemma begin_reference_spec s : rendering_ok s ->
  after begin_reference (fun id s' => id = rn_next_resource_id s /\ begun s s')
    (fun e s' => calmly s s' /\ err_code e = "offprint.resource.limit") s.
Proof using Type.
  intros Hs. unfold begin_reference. apply after_bind.
  destruct (add_resource_spec (rn_budget s)) as [(b & E & Hl & Hr & Hle)|(e & E & He)].
  2:{ unfold after at 1, epart. rewrite E. split; [|done]. by apply calmly_core. }
  unfold after at 1, epart. rewrite E. apply after_bind, after_modify, after_bind, after_get. cbn.
  pose proof (ok_limit _ Hs) as [Hn Hu]. pose proof (ok_charged _ Hs) as Hc. pose proof (ok_discovered _ Hs) as Hd.
  rewrite checked_add_fits by lia. apply after_bind. apply after_lift; [|done]. cbn [ok_or]. intros next [= <-].
  apply after_bind, after_modify, after_ret.
  split; [done|]. destruct Hs as [Ost Oli Och Odi Ore Oem Ofa Oot Ods Oby].
  split; cbn; [|split; cbn; [lia|done|reflexivity|done]|done|done].
  split; cbn; rewrite ?Hl, ?Hr, ?Hd; try done; try (unfold saturating_add; lia).
  intros id r Hid. destruct (Ore id r Hid) as (? & ? & ?). split; [lia|done].
Qed.

Lemma begun_moved s s' : begun s s' -> moved None s s'.
Proof using Type. intros [O E N R]. split; [done|done|]. intros. by rewrite R. Qed.

Lemma begun_unrecorded s s' : rendering_ok s -> begun s s' -> unrecorded (rn_next_resource_id s) s'.
Proof using Type.
  intros Hs [O E N R]. pose proof (ok_limit _ Hs). split; [lia|]. rewrite R.
  destruct (rn_records s !! rn_next_resource_id s) as [r|] eqn:Er; [|done].
  apply (ok_records _ Hs) in Er. lia.
Qed.

Lemma begun_calm s s1 s2 : begun s s1 -> calmly s1 s2 -> begun s s2.
Proof using Type. intros [O E N R] [O' E' N' R']. split; [done|by etrans|lia|congruence]. Qed.

(** Giving out an identifier and settling it. *)
Lemma begun_outcome s s2 s3 : begun s s2 -> outcome_of (rn_next_resource_id s) s2 s3 -> transformed s s3.
Proof using Type.
  intros [O E N R] [[O3 E3 S3] R3 St]. split.
  - split; [done|by etrans|]. intros j Hj _. rewrite S3; [by rewrite R|lia|intros [= ?]; lia].
  - destruct St as [D|St]; [by left|right]. intros j Hj.
    destruct (decide (j = rn_next_resource_id s)) as [-> |Hne]; [done|]. apply St. lia.
Qed.

Lemma begun_failed s s2 s3 : begun s s2 -> moved (Some (rn_next_resource_id s)) s2 s3 -> moved None s s3.
Proof using Type.
  intros [O E N R] [O3 E3 S3]. split; [done|by etrans|]. intros j Hj _.
  rewrite S3; [by rewrite R|lia|intros [= ?]; lia].
Qed.

Definition resolves (rec : url -> RenderingRole -> Z -> Z -> Rn string) (depth : Z) : Prop :=
  forall u role id s, rendering_ok s -> unrecorded id s ->
    after (rec u role depth id) (fun r s' => outcome_of id s s' /\ is_data r)
      (fun e s' => moved (Some id) s s' /\ grave e s') s.

Lemma emit_sure e s : rendering_ok s -> after (emit e) (fun _ s' => calmly s s') (fun _ _ => False) s.
Proof using Type. intros Hs. apply after_modify. apply calmly_core; try done. cbn. by apply suffix_cons_r. Qed.

Lemma transformed_refl s : rendering_ok s -> transformed s s.
Proof using Type. intros Hs. split; [by apply moved_refl|right; apply settled_refl]. Qed.

(** An identifier, and the resolution of its reference. *)
Lemma begin_and_resolve {B} rec depth target role (k : string -> Z -> B) s :
  resolves rec depth -> rendering_ok s ->
  after (id <-! begin_reference ;; do! emit (ResourceDiscovered (cx_capture_id cx) id) ;;
         replacement <-! rec target role depth id ;; eret (k replacement id))
    (fun b s' => transformed s s' /\ exists r id, b = k r id /\ is_data r)
    (fun e s' => moved None s s' /\ grave e s') s.
Proof using Type.
  intros Hrec Hs. apply after_bind. eapply after_mono; [by apply begin_reference_spec| |].
  2:{ intros e s' [C He]. split; [by apply calmly_moved|right; by left]. }
  intros id s1 [-> B1]. cbn beta. apply after_bind. eapply after_mono; [apply emit_sure, B1| |done].
  intros [] s2 C2. cbn beta. assert (B2 := begun_calm _ _ _ B1 C2). apply after_bind.
  eapply after_mono; [apply Hrec; [apply B2|by apply begun_unrecorded]| |].
  - intros r s3 [O3 D3]. apply after_ret. split; [by eapply begun_outcome|eauto].
  - intros e s3 [M3 G3]. split; [by eapply begun_failed|done].
Qed.

Lemma resolve_all rec depth l s :
  resolves rec (saturating_add u16_max depth 1) -> rendering_ok s ->
  after (efold (resolve_nested cx rec depth) l [])
    (fun rs s' => transformed s s' /\ Forall (fun x => is_data x.2) rs)
    (fun e s' => moved None s s' /\ grave e s') s.
Proof using Type.
  intros Hrec Hs. apply (after_fold_inv _ l (fun rs s' => transformed s s' /\ Forall (fun x => is_data x.2) rs)).
  { split; [by apply transformed_refl|constructor]. }
  intros [[local_id target] role] rs s1 _ [T1 F1]. unfold resolve_nested.
  eapply after_mono; [apply (begin_and_resolve rec _ target role (fun r _ => rs ++ [(local_id, r)])); [done|apply T1]| |].
  - intros rs' s2 [T2 (r & id & -> & Hr)]. split; [by eapply transformed_trans|]. apply Forall_app. split; [done|by constructor].
  - intros e s2 [M2 G2]. split; [eapply moved_trans; [apply T1|done]|done].
Qed.

(** *** The transformations *)

Section Transforms.
Context (rec : url -> RenderingRole -> Z -> Z -> Rn string) (depth : Z).
Context (Hrec : resolves rec (saturating_add u16_max depth 1)).

(** Nothing was found yet. *)
Lemma refused_first {A} e s (Q : A -> Rendering -> Prop) : rendering_ok s ->
  after (eerr e) Q (fun e s' => moved None s s' /\ (grave e s' \/ settled s s')) s.
Proof using Type. intros Hs. apply after_err. split; [by apply moved_refl|right; apply settled_refl]. Qed.

Lemma remaining_then {A} n (k : Z -> Rn A) (Q : A -> Rendering -> Prop) s : rendering_ok s ->
  (forall m, after (k m) Q (fun e s' => moved None s s' /\ (grave e s' \/ settled s s')) s) ->
  after (m <-! remaining_resources n ;; k m) Q (fun e s' => moved None s s' /\ (grave e s' \/ settled s s')) s.
Proof using Type.
  intros Hs Hk. apply after_bind. unfold remaining_resources. apply after_bind, after_get.
  destruct (_ <? _); [by apply refused_first|]. apply after_ret, Hk.
Qed.

Lemma lift_then {A B} (r : Res A) (k : A -> Rn B) (Q : B -> Rendering -> Prop) s : rendering_ok s ->
  (forall a, r = Ok a -> after (k a) Q (fun e s' => moved None s s' /\ (grave e s' \/ settled s s')) s) ->
  after (a <-! elift r ;; k a) Q (fun e s' => moved None s s' /\ (grave e s' \/ settled s s')) s.
Proof using Type.
  intros Hs Hk. apply after_bind. apply after_lift; [done|]. intros e _. split; [by apply moved_refl|right; apply settled_refl].
Qed.

(** Afterwards an error that comes from no reference leaves everything settled. *)
Lemma lift_last {A} (r : Res A) s0 s : transformed s0 s ->
  after (elift r) (fun _ s' => transformed s0 s') (fun e s' => moved None s0 s' /\ (grave e s' \/ settled s0 s')) s.
Proof using Type.
  intros [M [D|St]]; apply after_lift; intros; try done.
  - split; [done|by left].
  - split; [done|left; by left].
  - split; [done|by right].
  - split; [done|by right].
Qed.

Lemma lift_last_then {A B} (r : Res A) (k : A -> Rn B) s0 s : transformed s0 s ->
  (forall a, after (k a) (fun _ s' => transformed s0 s') (fun e s' => moved None s0 s' /\ (grave e s' \/ settled s0 s')) s) ->
  after (a <-! elift r ;; k a) (fun _ s' => transformed s0 s')
    (fun e s' => moved None s0 s' /\ (grave e s' \/ settled s0 s')) s.
Proof using Type.
  intros T Hk. apply after_bind. apply after_lift; [by intros a _; apply Hk|]. intros e E.
  pose proof (lift_last (r) s0 s T) as X. unfold after, elift in X. by rewrite E in X.
Qed.

Lemma resolve_then {A} l (k : list (Z * string) -> Rn A) s0 s : transformed s0 s ->
  (forall rs s', transformed s0 s' ->
     after (k rs) (fun _ s' => transformed s0 s') (fun e s' => moved None s0 s' /\ (grave e s' \/ settled s0 s')) s') ->
  after (rs <-! efold (resolve_nested cx rec depth) l [] ;; k rs) (fun _ s' => transformed s0 s')
    (fun e s' => moved None s0 s' /\ (grave e s' \/ settled s0 s')) s.
Proof using Hrec.
  intros T Hk. apply after_bind. eapply after_mono; [apply resolve_all; [done|apply T]| |].
  - intros rs s' [T' _]. apply Hk. by eapply transformed_trans.
  - intros e s' [M G]. split; [eapply moved_trans; [apply T|done]|by left].
Qed.

Lemma rewrite_again_last d base n rs s0 s : transformed s0 s ->
  after (rewrite_again d base n rs) (fun _ s' => s' = s)
    (fun e s' => moved None s0 s' /\ (grave e s' \/ settled s0 s')) s.
Proof using Type.
  intros [M St]. assert (Herr : forall e, moved None s0 s /\ (grave e s \/ settled s0 s)).
  { intros e. split; [done|]. destruct St; [left; by left|by right]. }
  unfold rewrite_again. apply after_bind. apply after_lift; [|by intros].
  intros found _. destruct (negb _); [by apply after_err|]. apply after_lift; [done|by intros].
Qed.

Lemma rewrite_then {A} d base n rs (k : Document -> Rn A) s0 s : transformed s0 s ->
  (forall d, after (k d) (fun _ s' => transformed s0 s') (fun e s' => moved None s0 s' /\ (grave e s' \/ settled s0 s')) s) ->
  after (d <-! rewrite_again d base n rs ;; k d) (fun _ s' => transformed s0 s')
    (fun e s' => moved None s0 s' /\ (grave e s' \/ settled s0 s')) s.
Proof using Type.
  intros T Hk. apply after_bind. eapply after_mono; [by apply rewrite_again_last| |done]. intros d' s' ->. apply Hk.
Qed.

Lemma css_transform_ok u id s : transform_ok (css_transform cx rec u depth id) s.
Proof using Hrec.
  intros b s0 Hs0 _. unfold css_transform. destruct (negb _); [by apply refused_first|].
  apply remaining_then; [done|]. intros n. apply lift_then; [done|]. intros found _.
  assert (Hw : after (css_preservation_warning cx id (cr_parse_mode found)) (fun _ s' => calmly s0 s') (fun _ _ => False) s0).
  { unfold css_preservation_warning. destruct (cr_parse_mode found); [by apply after_ret, calm_refl|by apply warn_sure]. }
  apply after_bind. eapply after_mono; [exact Hw| |done]. intros [] s1 C1. cbn beta.
  apply resolve_then; [eapply transformed_calm; [by apply transformed_refl|done]|]. intros rs s2 T2.
  apply lift_last_then; [done|]. intros css. by apply after_ret.
Qed.

Lemma svg_transform_ok u s : transform_ok (svg_transform cx rec u depth) s.
Proof using Hrec.
  intros b s0 Hs0 _. unfold svg_transform. destruct (negb _); [by apply refused_first|].
  apply remaining_then; [done|]. intros n. apply lift_then; [done|]. intros found _.
  apply resolve_then; [by apply transformed_refl|]. intros rs s2 T2. apply lift_last_then; [done|]. intros root.
  apply rewrite_then; [done|]. intros d. by apply lift_last.
Qed.

Lemma html_transform_ok u s : transform_ok (html_transform cx rec u depth) s.
Proof using Hrec.
  intros b s0 Hs0 _. unfold html_transform. destruct (inline_frames _); [|by apply refused_first].
  apply remaining_then; [done|]. intros n. apply lift_then; [done|]. intros found _.
  apply resolve_then; [by apply transformed_refl|]. intros rs s2 T2. apply rewrite_then; [done|]. intros d.
  apply lift_last_then; [done|]. intros d'. by apply lift_last.
Qed.
End Transforms.

(** *** Resolution *)

Definition depth_bound : Z :=
  Z.max (lim_resource_recursion_depth (rq_limits (cx_request cx))) (lim_frame_depth (rq_limits (cx_request cx))).

Lemma nested_limit_bound k : nested_limit cx k <= depth_bound.
Proof using Type. unfold depth_bound. destruct k; cbn; lia. Qed.

Lemma check_cancelled_spec s : rendering_ok s ->
  after check_cancelled (fun _ s' => calmly s s') (fun _ s' => calmly s s' /\ disturbed (rn_trace s')) s.
Proof using Type.
  intros Hs. unfold check_cancelled. apply after_bind. unfold after at 1, ask. cbn -[env_cancelled].
  assert (C : calmly s (set_trace (APoll :: rn_trace s) s)).
  { apply calmly_core; try done. cbn. by apply suffix_cons_r. }
  destruct (env_cancelled _) eqn:E; [apply after_err|by apply after_ret]. split; [done|].
  exists (APoll :: rn_trace s). split; [reflexivity|done].
Qed.

Lemma load_once_spec u role id s : rendering_ok s ->
  after (load_once cx u role id)
    (fun r s' => calmly s s' /\ match r with Ok x => stored_as (ld_bytes x) (ld_content x) s' | Err _ => True end)
    (fun _ _ => False) s.
Proof using Hstore Hbytes.
  intros Hs. unfold load_once. apply after_bind, after_get. destruct (rn_failed_loads s !! _).
  - apply after_ret. split; [by apply calm_refl|done].
  - apply after_attempt. eapply after_mono; [by apply calm_load| |]; cbn; [done|]. intros e s' C. done.
Qed.

Lemma remember_calm u e s : rendering_ok s -> calmly s (remember_failure cx u e s).
Proof using Type. intros Hs. unfold remember_failure. destruct (is_some _); [by apply calm_refl|by apply calmly_core]. Qed.

Lemma resolve_step_spec rec depth :
  (depth < depth_bound -> resolves rec (saturating_add u16_max depth 1)) -> resolves (resolve_step cx rec) depth.
Proof using Hstore Hbytes.
  intros Hrec u role id s Hs Hu. unfold resolve_step. apply after_bind.
  eapply after_mono; [by apply check_cancelled_spec| |].
  2:{ intros e s' [C D]. split; [by apply calmly_moved|by left]. }
  intros [] s1 C1. cbn beta. apply after_bind. eapply after_mono; [apply load_once_spec, C1| |done].
  intros loaded s2 [C2 Hst]. cbn beta. assert (C := calmly_trans _ _ _ C1 C2).
  assert (Hu2 : unrecorded id s2) by (eapply unrecorded_moved; [by apply calmly_moved|done]).
  assert (T2 : transformed s s2) by (eapply transformed_calm; [by apply transformed_refl|done]).
  destruct loaded as [x|e].
  - assert (Hdepth : forall k, depth < nested_limit cx k -> resolves rec (saturating_add u16_max depth 1)).
    { intros k Hk. apply Hrec. pose proof (nested_limit_bound k). lia. }
    apply after_bind. eapply after_mono; [apply (nested_spec _ _ _ _ _ _ _ _ s); try done; try apply C| |done].
    { intros _ Hk. apply css_transform_ok. by apply (Hdepth NestedCss). }
    intros f1 s3 (O3 & E3 & F3). cbn beta. apply after_bind.
    eapply after_mono; [apply (nested_spec _ _ _ _ _ _ _ _ s); try done| |done].
    { intros _ Hk. apply svg_transform_ok. by apply (Hdepth NestedSvg). }
    intros f2 s4 (O4 & E4 & F4). cbn beta. apply after_bind.
    eapply after_mono; [apply (nested_spec _ _ _ _ _ _ _ _ s); try done| |done].
    { intros _ Hk. apply html_transform_ok. by apply (Hdepth NestedHtml). }
    intros f3 s5 (O5 & E5 & F5). cbn beta. destruct f3 as [r|b stored]; [by apply after_ret|].
    destruct F5 as (T5 & U5 & H5'). eapply after_mono; [by apply record_embedded_spec| |].
    + intros r s6 [[Om Or Os] Hd]. split; [|done]. split; [eapply moved_trans; [apply moved_none, T5|done]|done|].
      eapply settled_trans; [exact Om| |apply T5|exact Os]. by intros ? [= <-].
    + intros e s6 [M6 G6]. split; [eapply moved_trans; [apply moved_none, T5|done]|done].
  - apply after_bind, after_modify. assert (C3 := remember_calm u e s2 (ca_ok _ _ C2)).
    set (s3 := remember_failure cx u e s2) in *. assert (C' := calmly_trans _ _ _ C C3).
    eapply after_mono; [apply missing_spec; [apply C3|]| |].
    + eapply unrecorded_moved; [by apply calmly_moved|done].
    + intros r s4 [[[Om Or Os] Hd] _]. split; [|done]. split; [eapply moved_trans; [by apply calmly_moved|done]|done|].
      eapply settled_trans; [exact Om| |right; apply calmly_settled, C'|exact Os]. by intros ? [= <-].
    + intros e' s4 (M4 & -> & Hf). split; [eapply moved_trans; [by apply calmly_moved|done]|right; by right].
Qed.

Context (Hdepth : depth_bound <= u16_max).

Lemma resolve_spec fuel : forall depth, 0 <= depth -> (Z.to_nat (depth_bound - depth) < fuel)%nat ->
  resolves (resolve cx fuel) depth.
Proof using Hstore Hbytes Hdepth.
  induction fuel as [|fuel IH]; intros depth Hd Hf; [lia|]. cbn [resolve]. apply resolve_step_spec. intros Hlt.
  replace (saturating_add u16_max depth 1) with (depth + 1) by (unfold saturating_add; lia). apply IH; lia.
Qed.

(** *** The references of a document *)

Lemma begin_all found s : rendering_ok s ->
  after (efold (begin_one cx) found [])
    (fun refs s' => rendering_ok s' /\ extends s s' /\ rn_records s' = rn_records s /\
       map fst refs = found /\ map snd refs = seqZ (rn_next_resource_id s) (Z.of_nat (length found)) /\
       rn_next_resource_id s' = rn_next_resource_id s + Z.of_nat (length found))
    (fun e s' => moved None s s' /\ grave e s') s.
Proof using Type.
  intros Hs.
  apply (after_fold (begin_one cx) found (fun done refs s' =>
    rendering_ok s' /\ extends s s' /\ rn_records s' = rn_records s /\
    map fst refs = done /\ map snd refs = seqZ (rn_next_resource_id s) (Z.of_nat (length done)) /\
    rn_next_resource_id s' = rn_next_resource_id s + Z.of_nat (length done)) _ []).
  { split_and!; try done. cbn; lia. }
  intros before x rest refs s1 _ (O1 & E1 & R1 & F1 & I1 & N1). unfold begin_one. apply after_bind.
  eapply after_mono; [by apply begin_reference_spec| |].
  - intros id s2 [-> [O2 E2 N2 R2]]. cbn beta. apply after_bind. eapply after_mono; [by apply emit_sure| |done].
    intros [] s3 [O3 E3 N3 R3]. apply after_ret. rewrite !map_app, F1, I1, length_app. cbn [map length fst snd].
    rewrite Nat2Z.inj_add. split_and!; [done|by etrans; [|etrans]|congruence|done| |lia].
    rewrite (seqZ_app _ (Z.of_nat (length before)) (Z.of_nat 1)) by lia. f_equal.
    rewrite <- N1. change (Z.of_nat 1) with 1. rewrite seqZ_cons by lia. by rewrite seqZ_nil by lia.
  - intros e s2 [C2 He]. split; [|right; by left]. destruct C2 as [O2 E2 N2 R2].
    split; [done|by etrans|]. intros j Hj _. by rewrite R2, R1.
Qed.

(** After some of the references that were begun at [s1] are resolved. *)
Record resolving (n1 : Z) (done : list (DiscoveredDocumentResource * Z)) (rs : list (Z * string)) s1 s : Prop := {
  rg_ok : rendering_ok s;
  rg_extends : extends s1 s;
  rg_same id : id < n1 -> id ∉ map snd done -> rn_records s !! id = rn_records s1 !! id;
  rg_done id : id ∈ map snd done -> is_Some (rn_records s !! id);
  rg_settled : settled_or s1 s;
  rg_names : map fst rs = map (fun x => dr_id x.1) done;
  rg_data : Forall (fun x => is_data x.2) rs;
}.

Lemma resolving_calm n1 done rs s1 s s' : resolving n1 done rs s1 s -> calmly s s' -> resolving n1 done rs s1 s'.
Proof using Type.
  intros [O E Sa D St Na Da] C. destruct C as [O' E' N' R'] eqn:EC. split; try done; rewrite ?R'; try done.
  - by etrans.
  - eapply settled_trans; [by apply (calmly_moved None)|done|done|]. right. by apply calmly_settled.
Qed.

Lemma resolve_reference_spec n1 x done rs s1 s :
  rn_next_resource_id s1 = n1 -> 0 <= x.2 < n1 -> rn_records s1 !! x.2 = None -> x.2 ∉ map snd done ->
  (forall id, id ∈ map snd done -> id < n1) -> resolving n1 done rs s1 s ->
  after (resolve_reference cx x rs) (fun rs' s' => resolving n1 (done ++ [x]) rs' s1 s')
    (fun e s' => moved (Some x.2) s s') s.
Proof using Hstore Hbytes Hdepth.
  intros Hn1 Hx Hnone Hfresh Hbelow [O E Sa D St Na Da]. unfold resolve_reference. apply after_bind.
  pose proof (ex_next _ _ E) as Hle.
  eapply after_mono; [apply (resolve_spec (resolve_fuel cx) 0); [lia| |done|]| |].
  - unfold resolve_fuel, depth_bound. lia.
  - split; [lia|]. rewrite Sa; [done|lia|done].
  - intros r s' [[[Om Ee Os] Or Ost] Hr]. apply after_ret. split; try done.
    + by etrans.
    + intros id Hid Hnd. rewrite map_app, elem_of_app in Hnd. cbn in Hnd.
      rewrite Os; [apply Sa; [done|]|lia|]; [tauto|]. intros [= Ex]. apply Hnd. right. rewrite Ex. left.
    + intros id. rewrite map_app, elem_of_app. cbn. intros [Hid|Hid%list_elem_of_singleton]; [|by subst].
      rewrite Os; [by apply D|specialize (Hbelow id Hid); lia|]. intros [= Ex]. apply Hfresh. by rewrite Ex.
    + eapply (settled_trans (Some x.2)); [by split| |done|done]. by intros ? [= <-].
    + rewrite !map_app. cbn. by rewrite Na.
    + apply Forall_app. split; [done|by constructor].
  - by intros e s' [M _].
Qed.

Lemma calm_prefetch batch : calm (prefetch_resources cx batch).
Proof using Type.
  unfold prefetch_resources. apply calm_then; [apply calm_get|]. intros s. apply calm_fold. intros x found _.
  unfold prefetch_one. apply calm_then; [|intros; apply calm_return]. apply calm_attempt. apply calm_then; [|intros; apply calm_load_page].
  unfold prefetch_validation. destruct (_ || _); [apply calm_validate_network|].
  case_bool_decide; [apply calm_validate_file|apply calm_return].
Qed.

Lemma chunks_concat {A} n (l : list A) : (0 < n)%nat -> concat (chunks n l) = l.
Proof using Type.
  intros Hn. unfold chunks. assert (H' : forall fuel (m : list A), (length m <= fuel)%nat -> concat (chunks_loop fuel n m) = m); [|by apply H'].
  induction fuel as [|fuel IH]; intros m Hm; destruct m as [|x m]; try done; cbn [length] in Hm; [lia|].
  cbn [chunks_loop concat]. rewrite IH; [apply take_drop|]. rewrite length_drop. cbn [length]. lia.
Qed.

(** What is left of a failed batch is fine too. *)
Lemma resolving_failed n0 done rs s0 s1 s s' id :
  moved None s0 s1 -> rn_next_resource_id s0 = n0 -> resolving (rn_next_resource_id s1) done rs s1 s ->
  (forall j, j ∈ map snd done -> n0 <= j) -> n0 <= id -> moved (Some id) s s' -> moved None s0 s'.
Proof using Type.
  intros M0 Hn0 [O E Sa D St Na Da] Hdone Hid M. split; [apply M|etrans; [apply M0|etrans; [exact E|apply M]]|].
  intros j Hj _. pose proof (ex_next _ _ (mv_extends _ _ _ M0)). pose proof (ex_next _ _ E).
  rewrite (mv_same _ _ _ M); [|lia|intros [= ?]; lia].
  rewrite Sa; [apply (mv_same _ _ _ M0); [lia|done]|lia|]. intros Hin. apply Hdone in Hin. lia.
Qed.

Lemma resolve_document_spec found s0 : rendering_ok s0 ->
  after (resolve_document cx found)
    (fun rs s' => transformed s0 s' /\ map fst rs = map dr_id found /\ Forall (fun x => is_data x.2) rs)
    (fun e s' => moved None s0 s') s0.
Proof using Hstore Hbytes Hdepth.
  intros Hs0. unfold resolve_document. apply after_bind.
  eapply after_mono; [by apply begin_all| |by intros e s' [M _]].
  intros refs s1 (O1 & E1 & R1 & F1 & I1 & N1). cbn beta.
  set (n0 := rn_next_resource_id s0) in *. set (n1 := rn_next_resource_id s1) in *.
  assert (M1 : moved None s0 s1) by (split; [done|done|]; intros; by rewrite R1).
  assert (Hids : forall j, j ∈ map snd refs <-> n0 <= j < n1).
  { intros j. rewrite I1, elem_of_seqZ. lia. }
  assert (Hnd : NoDup (map snd refs)) by (rewrite I1; apply NoDup_seqZ).
  assert (Hnone : forall j, n0 <= j -> rn_records s1 !! j = None).
  { intros j Hj. rewrite R1. destruct (rn_records s0 !! j) as [r|] eqn:Er; [|done].
    apply (ok_records _ Hs0) in Er. unfold n0 in Hj. lia. }
  pose proof (ok_limit _ Hs0) as [Hpos _]. fold n0 in Hpos.
  assert (Hall : concat (chunks (batch_size cx) refs) = refs) by (apply chunks_concat; unfold batch_size; lia).
  assert (Hstart : resolving n1 [] [] s1 s1).
  { split; try done; [by intros id Hid%elem_of_nil|right; apply settled_refl]. }
  pose proof (after_fold (resolve_batch cx) (chunks (batch_size cx) refs)
    (fun done rs s' => resolving n1 (concat done) rs s1 s') (fun _ s' => moved None s0 s') [] [] s1 Hstart) as Hfold.
  rewrite app_nil_l, Hall in Hfold. eapply after_mono; [apply Hfold| |done].
  - intros before batch rest rs s Hbatch Hres. rewrite concat_app. cbn [concat]. rewrite app_nil_r.
    assert (Hsplit : refs = concat before ++ batch ++ concat rest).
    { rewrite <- Hall, Hbatch, concat_app. done. }
    assert (Hbefore : forall j, j ∈ map snd (concat before) -> n0 <= j < n1).
    { intros j Hj. apply Hids. rewrite Hsplit, map_app, elem_of_app. by left. }
    unfold resolve_batch. apply after_bind. eapply after_mono; [apply calm_prefetch, Hres| |].
    2:{ intros e s' C. eapply (resolving_failed n0 _ _ _ s1 s s' n0); try done; [by intros j Hj; apply Hbefore|].
        by apply calmly_moved. }
    intros prefetched s2 [C2 _]. cbn beta. apply after_bind, after_modify.
    set (s3 := set_resolver ∅ ∅ ∅ prefetched s2).
    assert (Hres3 : resolving n1 (concat before) rs s1 s3).
    { eapply resolving_calm; [eapply resolving_calm; [exact Hres|exact C2]|]. apply calmly_core; try done. apply C2. }
    pose proof (after_fold (resolve_reference cx) batch (fun done rs s' => resolving n1 (concat before ++ done) rs s1 s')
      (fun _ s' => moved None s0 s') [] rs s3) as Hinner. rewrite app_nil_l in Hinner.
    apply Hinner; [by rewrite app_nil_r|]. intros b2 x r2 rs' s4 Hb2 Hres4.
    assert (Hx : x.2 ∈ map snd refs).
    { rewrite Hsplit, Hb2, !map_app, !elem_of_app. right. left. right. left. }
    assert (Hdone : forall j, j ∈ map snd (concat before ++ b2) -> n0 <= j < n1).
    { intros j Hj. apply Hids. rewrite Hsplit, Hb2. rewrite !map_app, !elem_of_app in Hj. rewrite !map_app, !elem_of_app.
      destruct Hj; [by left|right; left; by left]. }
    apply Hids in Hx as Hx'. eapply after_mono; [apply (resolve_reference_spec n1 x (concat before ++ b2) rs' s1 s4)| |].
    + done.
    + lia.
    + apply Hnone. lia.
    + intros Hin. rewrite Hsplit, Hb2 in Hnd. rewrite !map_app in Hnd. rewrite map_app in Hin. cbn [map] in Hnd.
      rewrite <- !app_assoc in Hnd. rewrite app_assoc in Hnd. apply NoDup_app in Hnd as (_ & Hnd & _).
      apply (Hnd x.2 Hin). left.
    + intros j Hj. by apply Hdone.
    + done.
    + intros rs2 s5 Hres5. by rewrite app_assoc.
    + intros e s5 M5. eapply (resolving_failed n0 _ _ _ s1 s4 s5 x.2); try done; [by intros j Hj; apply Hdone|lia].
  - intros rs s' [O E Sa D St Na Da]. split; [|split; [|done]].
    + split.
      * split; [done|by etrans|]. intros j Hj _. rewrite Sa; [by rewrite R1|fold n0 in Hj; lia|]. rewrite Hids. fold n0 in Hj. lia.
      * destruct St as [Dd|St]; [by left|right]. intros j Hj. fold n0 in Hj.
        destruct (decide (j < n1)); [apply D; rewrite Hids; lia|apply St; fold n1; lia].
    + rewrite Na, <- F1, map_map. done.
Qed.
End Outcomes.

(** ** Frames *)

Record request_ok (r : CaptureRequest) : Prop := {
  rk_bytes : lim_resource_bytes (rq_limits r) < u64_max;
  rk_recursion : lim_resource_recursion_depth (rq_limits r) <= u16_max;
  rk_frames : lim_frame_depth (rq_limits r) <= u16_max;
}.

Lemma inline_frame_calm d : calm (begin_inline_frame d).
Proof using Type.
  unfold begin_inline_frame. apply calm_then; [apply calm_lift|]. intros n. apply calm_then; [apply calm_get|]. intros s.
  apply calm_then; [apply calm_lift|]. intros m. apply calm_then; [by apply calm_modify|]. intros. apply calm_return.
Qed.

(** A frame is rendered with all of its references settled. *)
Lemma render_frame_spec fuel : forall source base depth cx s, request_ok (cx_request cx) -> rendering_ok s ->
  after (render_frame_document fuel source base depth cx) (fun _ s' => transformed s s') (fun _ s' => moved None s s') s.
Proof using Hstore.
  induction fuel as [|fuel IH]; intros source base depth cx s Hq Hs; cbn [render_frame_document].
  { apply after_err. by apply moved_refl. }
  assert (Hlift : forall {A B} (r : Res A) (k : A -> Rn B) s1, transformed s s1 ->
    (forall a, after (k a) (fun _ s' => transformed s s') (fun _ s' => moved None s s') s1) ->
    after (a <-! elift r ;; k a) (fun _ s' => transformed s s') (fun _ s' => moved None s s') s1).
  { intros A B r k s1 T1 Hk. apply after_bind, after_lift; [by intros a _|]. intros e _. apply T1. }
  apply after_bind. eapply after_mono.
  { apply (after_fold_inv _ _ (fun (_ : gmap NodeId InlineFrameReplacement) s' => transformed s s') (fun _ s' => moved None s s')).
    { by apply transformed_refl. }
    intros f inlined s1 _ T1. unfold render_inline_frame. apply after_bind, after_lift; [|by intros e _; apply T1].
    intros child_depth _. destruct (_ <? _); [apply after_err, T1|]. apply after_bind.
    assert (Hbase : after match if_base_url f with
                          | Some value => elift (ok_or (url_parse value) (new_error "offprint.collector.base_url" Collection))
                          | None => eret base
                          end (fun _ s' => s' = s1) (fun _ s' => s' = s1) s1).
    { destruct (if_base_url f); [by apply after_lift|by apply after_ret]. }
    eapply after_mono; [exact Hbase| |intros e s' ->; apply T1]. intros child_base s' ->. cbn beta.
    apply after_bind. eapply after_mono; [apply inline_frame_calm, T1| |].
    2:{ intros e s' C. eapply moved_trans; [apply T1|by apply calmly_moved]. }
    intros [child_id nodes] s2 [C2 _]. cbn beta iota. apply after_bind. eapply after_mono; [apply emit_sure, C2| |done].
    intros [] s3 C3. cbn beta. assert (T3 : transformed s s3).
    { eapply transformed_calm; [|exact C3]. by eapply transformed_calm. }
    apply after_bind. eapply after_mono; [apply IH; [done|apply T3]| |].
    - intros html s4 T4. apply after_ret. by eapply transformed_trans.
    - intros e s4 M4. eapply moved_trans; [apply T3|done]. }
  2:{ done. }
  intros inlined s1 T1. cbn beta. apply Hlift; [done|]. intros d. apply after_bind. unfold remaining_resources at 1.
  apply after_bind, after_get. destruct (_ <? _); [apply after_err, T1|]. apply after_ret. apply Hlift; [done|]. intros found.
  apply after_bind. eapply after_mono; [apply resolve_document_spec; [apply Hq|unfold depth_bound; destruct Hq; lia|apply T1]| |].
  2:{ intros e s2 M2. eapply moved_trans; [apply T1|done]. }
  intros rs s2 (T2 & _). cbn beta. assert (T2' : transformed s s2) by (eapply transformed_trans; [exact T1|exact T2]).
  apply Hlift; [done|]. intros d'. apply after_bind.
  eapply after_mono; [apply (rewrite_again_last cx _ _ _ _ s s2); exact T2'| |by intros e s' [M _]].
  intros d'' s' ->. cbn beta. apply after_lift; [by intros|]. intros e _. apply T2'.
Qed.

(** ** The final check *)

Lemma recorded_size (m : gmap Z ResourceRecord) n : 0 <= n ->
  (forall id r, m !! id = Some r -> 0 <= id < n) -> (forall id, 0 <= id < n -> is_Some (m !! id)) -> Z.of_nat (size m) = n.
Proof using Type.
  intros Hn Hm Hall. rewrite <- size_dom.
  assert (E : dom m = list_to_set (seqZ 0 n)).
  { apply set_eq. intros i. rewrite elem_of_list_to_set, elem_of_seqZ, elem_of_dom. split.
    - intros [r Hr]. apply Hm in Hr. lia.
    - intros Hi. apply Hall. lia. }
  rewrite E, size_list_to_set by apply NoDup_seqZ. rewrite length_seqZ. lia.
Qed.

Lemma outcomes_of_records s : rendering_ok s -> (forall id, 0 <= id < rn_next_resource_id s -> is_Some (rn_records s !! id)) ->
  Z.of_nat (size (rn_records s)) = rn_next_resource_id s /\
  rs_embedded (rn_summary s) + rs_failed (rn_summary s) = rn_next_resource_id s.
Proof using Type.
  intros Hs Hall. pose proof (ok_limit _ Hs) as [Hn _].
  assert (Hsize : Z.of_nat (size (rn_records s)) = rn_next_resource_id s).
  { apply recorded_size; [lia| |done]. intros id r Hr. by apply (ok_records _ Hs id r). }
  split; [done|]. rewrite (ok_embedded _ Hs), (ok_failed _ Hs), count_records_all; [done|]. intros id r Hr.
  destruct (ok_records _ Hs id r Hr) as (_ & _ & Ho). unfold is_embedded, is_failed, outcome_ok in *.
  destruct (rr_outcome r); try done; auto.
Qed.

Lemma complete_of_records s : rendering_ok s -> (forall id, 0 <= id < rn_next_resource_id s -> is_Some (rn_records s !! id)) ->
  validate_complete s = Ok tt.
Proof using Type.
  intros Hs Hall. pose proof (ok_limit _ Hs) as [Hn Hu]. destruct (outcomes_of_records s Hs Hall) as [Hsize Hcount].
  pose proof (ok_others _ Hs) as [Hx Ho]. unfold validate_complete, try_from. rewrite Hsize.
  rewrite (proj2 (Z.leb_le 0 _)), (proj2 (Z.leb_le _ u32_max)) by lia. cbn [andb ok_or rbind].
  unfold is_complete, outcomes. rewrite (ok_discovered _ Hs), Hx, Ho, !Z.add_0_r, Hcount.
  rewrite Z.mod_small by (ranges; lia). by rewrite !Z.eqb_refl.
Qed.
End Account.

(** ** Properties *)

Section Settled.
Context `{UrlLib} `{UrlEdit} `{UrlView} `{Networks} `{Environment} `{Hashing} `{TempNames} `{DataUrls} `{Encodings}.
Context `{HtmlParser} `{CssTokens} `{Platform} {Hstore : StoreLaws}.

Lemma rendering_new_ok b frames next_frame_id t :
  resources b = 0 -> 0 <= lim_resources (limits b) <= u32_max -> rendering_ok (rendering_new b frames next_frame_id t).
Proof using Type.
  intros Hb Hl. split; cbn; try done; try lia.
Qed.

(** C15: every reference is accounted for. However a page is rendered, and
    whatever the browser, the network and the file system answer, the account
    holds: identifiers are given out without gaps and within the limit, a record
    names the identifier it is under, the counters of the summary are the numbers
    of records with each outcome, what is recorded as embedded is in the content
    store under its digest with its size, and the embedded bytes are the sum over
    the distinct digests.  And when rendering returns and all references before
    were settled, then they all are, and the final check of completeness passes,
    unless cancellation was seen or the file system failed. *)
Theorem resources_settled fuel source base depth cx s :
  request_ok (cx_request cx) -> rendering_ok s ->
  (forall id, 0 <= id < rn_next_resource_id s -> is_Some (rn_records s !! id)) ->
  let '(r, s') := render_frame_document fuel source base depth cx s in
  rendering_ok s' /\
  (is_ok r = true -> disturbed (rn_trace s') \/
     ((forall id, 0 <= id < rn_next_resource_id s' -> is_Some (rn_records s' !! id)) /\ validate_complete s' = Ok tt)).
Proof using Hstore.
  intros Hq Hs Hall. pose proof (render_frame_spec fuel source base depth cx s Hq Hs) as Hr. unfold after in Hr.
  destruct (render_frame_document fuel source base depth cx s) as [[html|e] s']; [|split; [apply Hr|done]].
  destruct Hr as [M St]. split; [apply M|]. intros _. destruct St as [D|St]; [by left|right].
  assert (Hall' : forall id, 0 <= id < rn_next_resource_id s' -> is_Some (rn_records s' !! id)).
  { intros id Hid. destruct (decide (id < rn_next_resource_id s)); [|apply St; lia].
    rewrite (mv_same _ _ _ M) by done. apply Hall. lia. }
  split; [done|]. apply complete_of_records; [apply M|done].
Qed.
End Settled.

(** ** The recursion of the resolver ends

    A stylesheet may import another, an image or an embedded page may refer to
    more; [resolve] follows them.  The depth limits, not the cycle checks alone,
    bound the recursion: what is put in the place of the calls beyond the bound
    has no effect. *)

Section Fuel.
Context `{UrlLib} `{UrlEdit} `{UrlView} `{Networks} `{Environment} `{Hashing} `{TempNames} `{DataUrls} `{Encodings}.
Context `{HtmlParser} `{CssTokens} `{Platform}.
Context (cx : RenderContext).

(** [resolve] with any other end of the recursion. *)
Fixpoint resolve_over (bottom : url -> RenderingRole -> Z -> Z -> Rn string) (fuel : nat)
    : url -> RenderingRole -> Z -> Z -> Rn string :=
  match fuel with
  | O => bottom
  | S fuel' => resolve_step cx (resolve_over bottom fuel')
  end.

Definition maximum_depth : Z :=
  Z.max (lim_resource_recursion_depth (rq_limits (cx_request cx))) (lim_frame_depth (rq_limits (cx_request cx))).

Lemma nested_same k t t' u role depth id media f :
  (depth < nested_limit cx k -> forall b, same_runs (t b) (t' b)) ->
  same_runs (nested cx k t u role depth id media f) (nested cx k t' u role depth id media f).
Proof using Type.
  intros Ht. unfold nested. destruct f as [|b stored]; [done|]. destruct (negb _); [done|].
  destruct (nested_limit cx k <=? depth) eqn:E; [done|]. apply Z.leb_gt in E.
  apply ebind_proper; [done|]. intros s. case_bool_decide; [done|]. apply ebind_proper; [done|]. intros [].
  apply ebind_proper; [apply eattempt_proper; by apply Ht|]. done.
Qed.

Section Same.
Context (rec rec' : url -> RenderingRole -> Z -> Z -> Rn string) (depth : Z).
Context (Hrec : forall u role id, same_runs (rec u role (saturating_add u16_max depth 1) id)
                                    (rec' u role (saturating_add u16_max depth 1) id)).

Lemma resolve_all_same l rs :
  same_runs (efold (resolve_nested cx rec depth) l rs) (efold (resolve_nested cx rec' depth) l rs).
Proof using Hrec.
  apply efold_same. intros [[local_id target] role] b _. unfold resolve_nested.
  apply ebind_proper; [done|]. intros id. apply ebind_proper; [done|]. intros []. by apply ebind_proper.
Qed.

Lemma css_transform_same u id b : same_runs (css_transform cx rec u depth id b) (css_transform cx rec' u depth id b).
Proof using Hrec.
  unfold css_transform. destruct (negb _); [done|]. apply ebind_proper; [done|]. intros n.
  apply ebind_proper; [done|]. intros found. apply ebind_proper; [done|]. intros [].
  by apply ebind_proper; [apply resolve_all_same|].
Qed.

Lemma svg_transform_same u b : same_runs (svg_transform cx rec u depth b) (svg_transform cx rec' u depth b).
Proof using Hrec.
  unfold svg_transform. destruct (negb _); [done|]. apply ebind_proper; [done|]. intros n.
  apply ebind_proper; [done|]. intros found. by apply ebind_proper; [apply resolve_all_same|].
Qed.

Lemma html_transform_same u b : same_runs (html_transform cx rec u depth b) (html_transform cx rec' u depth b).
Proof using Hrec.
  unfold html_transform. destruct (inline_frames _); [|done]. apply ebind_proper; [done|]. intros n.
  apply ebind_proper; [done|]. intros found. by apply ebind_proper; [apply resolve_all_same|].
Qed.
End Same.

Lemma resolve_step_same rec rec' depth u role id :
  (depth < maximum_depth -> forall u role id, same_runs (rec u role (saturating_add u16_max depth 1) id)
                                                (rec' u role (saturating_add u16_max depth 1) id)) ->
  same_runs (resolve_step cx rec u role depth id) (resolve_step cx rec' u role depth id).
Proof using Type.
  intros Hrec. assert (Hk : forall k, depth < nested_limit cx k -> depth < maximum_depth).
  { intros k. unfold maximum_depth. destruct k; cbn; lia. }
  unfold resolve_step. apply ebind_proper; [done|]. intros []. apply ebind_proper; [done|]. intros [x|e]; [|done].
  apply ebind_proper; [apply nested_same; intros Hd b; apply css_transform_same; by apply Hrec, (Hk NestedCss)|]. intros f1.
  apply ebind_proper; [apply nested_same; intros Hd b; apply svg_transform_same; by apply Hrec, (Hk NestedSvg)|]. intros f2.
  by apply ebind_proper; [apply nested_same; intros Hd b; apply html_transform_same; by apply Hrec, (Hk NestedHtml)|].
Qed.

(** The resolution of a resource ends. However stylesheets, images and pages
    refer to each other, in cycles or in endless chains, the calls of [resolve]
    to itself do not go deeper than the larger of the two configured depth
    limits: with that many levels the result does not depend on what stands in
    the place of the calls below them. *)
Theorem resolve_terminates bottom fuel fuel' depth u role id :
  maximum_depth <= u16_max -> 0 <= depth ->
  (Z.to_nat (maximum_depth - depth) < fuel)%nat -> (Z.to_nat (maximum_depth - depth) < fuel')%nat ->
  same_runs (resolve_over bottom fuel u role depth id) (resolve cx fuel' u role depth id).
Proof using Type.
  intros Hmax. revert fuel' depth u role id.
  induction fuel as [|fuel IH]; intros [|fuel'] depth u role id Hd Hf Hf'; [lia..|]. cbn [resolve_over resolve].
  apply resolve_step_same. intros Hlt u' role' id'.
  replace (saturating_add u16_max depth 1) with (depth + 1) by (unfold saturating_add; lia). apply IH; lia.
Qed.
End Fuel.
