(* ===== verification/FrameTree.v ===== *)
(** * The frames of a capture

    Models [offprint-rs/core/src/pipeline/frames.rs]: the frames the browser has
    attached are numbered by their place in the page, observed from the deepest
    up, restricted to those whose owners were kept, rendered from the deepest up
    and embedded in their parents; and [materialize_visual_fallbacks] of
    [resource_materialization.rs] and [transition] of [pipeline.rs].

    The page session, the clock and the token answer through the trace.  A
    descriptor's owner path counts frame elements, outermost first. *)

From Stdlib Require Import ZArith Lia Ascii String.
From stdpp Require Import base tactics list gmap strings numbers sorting.
From S2P Require Import Prelude.
From S2P Require Import Errors.
From S2P Require Import Records.
From S2P Require Import Budget.
From S2P Require Import Lifecycle.
From S2P Require Import ContentStore.
From S2P Require Import Network.
From S2P Require Import Requests.
From S2P Require Import Schedule.
From S2P Require Import Dom.
From S2P Require Import Sink.
From S2P Require Import Serialize.
From S2P Require Import Html.
From S2P Require Import Frames.
From S2P Require Import Verify.
From S2P Require Import Discover.
From S2P Require Import Effects.
From S2P Require Import Browser.
From S2P Require Import Materialize.
From S2P Require Import Render.

#[local] Open Scope string_scope.
#[local] Open Scope list_scope.
#[local] Open Scope Z_scope.

(** ** Descriptors *)

Record FrameDescriptor := MkDescriptor {
  fd_frame_id : Z;
  fd_session_id : string;
  fd_browser_frame_id : string;
  fd_parent_session_id : option string;
  fd_owner_path : option (list Z);
  fd_depth : Z;
}.

Record PendingFrame := MkPending { pf_frame : AttachedFrame; pf_owner_path : list Z }.

Definition set_owner_path (p : list Z) (d : FrameDescriptor) : FrameDescriptor :=
  MkDescriptor (fd_frame_id d) (fd_session_id d) (fd_browser_frame_id d) (fd_parent_session_id d) (Some p) (fd_depth d).

(** [Ord] of [Vec<u32>], of its [Option], and of tuples. *)
Fixpoint compare_path (a b : list Z) : comparison :=
  match a, b with
  | [], [] => Eq
  | [], _ => Lt
  | _, [] => Gt
  | x :: a', y :: b' => match Z.compare x y with Eq => compare_path a' b' | c => c end
  end.

Definition compare_option_path (a b : option (list Z)) : comparison :=
  match a, b with
  | None, None => Eq
  | None, _ => Lt
  | _, None => Gt
  | Some a, Some b => compare_path a b
  end.

Definition then_compare (c d : comparison) : comparison := match c with Eq => d | _ => c end.

Definition frame_limit_error (maximum_frames : Z) : OffprintError :=
  with_detail "limit" (DNum maximum_frames) (new_error "offprint.frame.limit" Collection).

Definition topology_error : OffprintError := new_error "offprint.frame.topology" Collection.

Definition child_frame_depth (parent_depth : Z) (owner_path : list Z) : Res Z :=
  owner_depth <-? ok_or (try_from u16_max (Z.of_nat (length owner_path))) frame_depth_error ;;
  ok_or (checked_add u16_max parent_depth owner_depth) frame_depth_error.

(** The frames that have been numbered: their descriptors, the number and the
    depth of each session, and the next number. *)
Record Numbering := MkNumbering {
  nb_descriptors : list FrameDescriptor;
  nb_known : gmap string (Z * Z);
  nb_next_id : Z;
}.

Definition parent_number (known : gmap string (Z * Z)) (p : PendingFrame) : Z :=
  match known !! af_parent_session_id (pf_frame p) with Some (id, _) => id | None => u64_max end.

Definition compare_ready (known : gmap string (Z * Z)) (a b : PendingFrame) : comparison :=
  then_compare (Z.compare (parent_number known a) (parent_number known b))
    (then_compare (compare_path (pf_owner_path a) (pf_owner_path b))
       (String.compare (af_url (pf_frame a)) (af_url (pf_frame b)))).

Definition ready_le (known : gmap string (Z * Z)) (a b : PendingFrame) : Prop := compare_ready known a b <> Gt.

#[export] Instance ready_le_dec known a b : Decision (ready_le known a b).
Proof. unfold ready_le. apply _. Defined.

(** One frame whose parent has a number. *)
Definition number_frame (maximum_depth maximum_frames : Z) (p : PendingFrame) (n : Numbering) : Res Numbering :=
  '(_, parent_depth) <-? ok_or (nb_known n !! af_parent_session_id (pf_frame p)) topology_error ;;
  depth <-? child_frame_depth parent_depth (pf_owner_path p) ;;
  if maximum_depth <? depth
  then Err (with_detail "limit" (DNum maximum_depth) (with_detail "depth" (DNum depth) frame_depth_error))
  else if maximum_frames <=? len_u64 (nb_descriptors n) then Err (frame_limit_error maximum_frames)
  else
    next <-? ok_or (checked_add u64_max (nb_next_id n) 1) (new_error "offprint.frame.limit" Collection) ;;
    Ok (MkNumbering
          (nb_descriptors n ++
             [MkDescriptor (nb_next_id n) (af_session_id (pf_frame p)) (af_target_id (pf_frame p))
                (Some (af_parent_session_id (pf_frame p))) (Some (pf_owner_path p)) depth])
          (<[af_session_id (pf_frame p) := (nb_next_id n, depth)]> (nb_known n))
          next).

Definition is_ready (n : Numbering) (p : PendingFrame) : bool :=
  is_some (nb_known n !! af_parent_session_id (pf_frame p)).

(** The rounds of [describe_frames]: a round numbers one frame at least. *)
Fixpoint number_frames (fuel : nat) (maximum_depth maximum_frames : Z) (pending : list PendingFrame) (n : Numbering)
    : Res (list FrameDescriptor) :=
  match pending, fuel with
  | [], _ => Ok (nb_descriptors n)
  | _, O => Err out_of_fuel
  | _, S fuel' =>
      match List.filter (is_ready n) pending with
      | [] => Err topology_error
      | ready =>
          n' <-? fold_res (number_frame maximum_depth maximum_frames) (merge_sort (ready_le (nb_known n)) ready) n ;;
          number_frames fuel' maximum_depth maximum_frames (List.filter (fun p => negb (is_ready n p)) pending) n'
      end
  end.

Definition top_numbering (main top_browser_frame_id : string) : Numbering :=
  MkNumbering [MkDescriptor 1 main top_browser_frame_id None None 0] {[main := (1, 0)]} 2.

(** ** Keeping what was observed *)

Definition collection_error (stage : ErrorStage) : OffprintError := new_error "offprint.frame.collection" stage.

(** The orders of the sorts: by depth, deepest first or last, then by number. *)
Definition shallow_le (a b : FrameDescriptor) : Prop :=
  fd_depth a < fd_depth b \/ (fd_depth a = fd_depth b /\ fd_frame_id a <= fd_frame_id b).
Definition deep_le (a b : FrameDescriptor) : Prop :=
  fd_depth b < fd_depth a \/ (fd_depth a = fd_depth b /\ fd_frame_id a <= fd_frame_id b).

#[export] Instance shallow_le_dec a b : Decision (shallow_le a b).
Proof. unfold shallow_le. apply _. Defined.
#[export] Instance deep_le_dec a b : Decision (deep_le a b).
Proof. unfold deep_le. apply _. Defined.

Definition collection_order (l : list FrameDescriptor) : list FrameDescriptor := merge_sort deep_le l.

(** Where the owner of a frame is in the document that was kept of its parent. *)
Definition retained_path (observations : gmap string FrameObservation) (parent : string) (original : list Z)
    : option (list Z) :=
  observation ← observations !! parent;
  '(_, owner) ← list_find (fun o => fo_original_path o = original) (ob_frame_owners observation);
  if bool_decide (fo_retained_path owner = []) then None else Some (fo_retained_path owner).

Definition retain_candidate (observations : gmap string FrameObservation)
    (kept : list FrameDescriptor * gset string) (candidate : FrameDescriptor) : list FrameDescriptor * gset string :=
  match fd_parent_session_id candidate, fd_owner_path candidate with
  | Some parent, Some original =>
      if negb (bool_decide (parent ∈ kept.2)) then kept
      else match retained_path observations parent original with
           | None => kept
           | Some path =>
               (kept.1 ++ [set_owner_path path candidate], {[fd_session_id candidate]} ∪ kept.2)
           end
  | _, _ => kept
  end.

Definition retain_observed_frame_descriptors (descriptors : list FrameDescriptor)
    (observations : gmap string FrameObservation) : Res (list FrameDescriptor) :=
  match descriptors with
  | [] => Err (collection_error Collection)
  | top :: rest =>
      Ok (foldl (retain_candidate observations) ([top], {[fd_session_id top]}) (merge_sort shallow_le rest)).1
  end.

(** ** Embedding *)

Definition path_le (a b : FrameDescriptor) : Prop :=
  compare_option_path (fd_owner_path a) (fd_owner_path b) <> Gt.

#[export] Instance path_le_dec a b : Decision (path_le a b).
Proof. unfold path_le. apply _. Defined.

Definition is_child (parent : FrameDescriptor) (f : FrameDescriptor) : bool :=
  bool_decide (fd_parent_session_id f = Some (fd_session_id parent)).

(** ** The state of [capture] *)

(** The job as [capture] uses it: its status and the trace. *)
Record Capturing := MkCapturing { cg_machine : CaptureStateMachine; cg_trace : Trace }.

#[export] Instance Capturing_traced : Traced Capturing :=
  {| trace_of := cg_trace; record_action := fun a s => MkCapturing (cg_machine s) (a :: cg_trace s);
     trace_recorded _ _ := eq_refl |}.

Abbreviation Cg := (Eff Capturing).

Definition set_machine (m : CaptureStateMachine) (s : Capturing) : Capturing := MkCapturing m (cg_trace s).

Section Capture.
Context `{UrlLib} `{UrlEdit} `{UrlView} `{Networks} `{Environment} `{Hashing} `{TempNames} `{DataUrls} `{Encodings}.
Context `{HtmlParser} `{CssTokens} `{Platform} `{Scripts}.

Definition embed_child (rendered : gmap string string) (child : FrameDescriptor) (d : Document) : Res Document :=
  path <-? ok_or (fd_owner_path child) frame_error ;;
  html <-? ok_or (rendered !! fd_session_id child) (collection_error Transform) ;;
  embed_captured_frame_at_path (map Z.to_nat path) html (fd_frame_id child) d.

Definition embed_child_frames (parent : FrameDescriptor) (frames : list FrameDescriptor)
    (rendered : gmap string string) (d : Document) : Res Document :=
  fold_res (embed_child rendered) (merge_sort path_le (List.filter (is_child parent) frames)) d.

Definition observation_document (o : FrameObservation) : Res Document :=
  set_document_scroll_state (ov_scroll_x (ob_viewport o)) (ov_scroll_y (ob_viewport o))
    (parse (as_bytes (ob_doctype o) ++ as_bytes (ob_html o))).

(** ** The stages of [capture] *)

Definition transition_to (next : CaptureStatus) : Cg unit :=
  do! check_cancelled ;;
  do! epart cg_machine set_machine (transition next) ;;
  check_cancelled.

Definition page_call {A} (a : Action) (answer : Trace -> Res A) : Cg A := r <-! ask a answer ;; elift r.

Definition clock : Cg Z := ask AClock env_clock.

(** [Instant::elapsed], as [Milliseconds]. *)
Definition elapsed (started : Z) : Cg Z := now <-! clock ;; eret (Z.min u64_max (saturating_sub now started)).

(** ** Visual fallbacks *)

Definition fallback_noun (k : VisualFallbackKind) : string :=
  match k with FallbackCanvas => "canvas" | FallbackVideo => "video" end.

Definition capture_fallback (session : string) (missing_resources : MissingResourcePolicy) (maximum : Z)
    (f : VisualFallback) (done : list (string * string) * list ObservationWarning)
    : Cg (list (string * string) * list ObservationWarning) :=
  r <-! ask (AScreenshot session f maximum) env_screenshot ;;
  match r, missing_resources with
  | Ok b, _ => eret (done.1 ++ [(vf_id f, resource_data_url "image/png" b)], done.2)
  | Err e, MissingWarn =>
      let noun := fallback_noun (vf_kind f) in
      eret (done.1 ++ [(vf_id f, empty_resource_data_url RoleImage)],
            done.2 ++ [MkObservedWarning ("offprint." ++ noun ++ ".capture_failed")
                         (noun ++ " bitmap capture failed: " ++ error_message e)])
  | Err e, MissingFail => eerr e
  end.

Definition with_fallbacks (html : string) (warnings : list ObservationWarning) (o : FrameObservation) : FrameObservation :=
  MkObservation (ob_doctype o) html (ob_requested_url o) (ob_final_url o) (ob_base_url o) (ob_title o) (ob_encoding o)
    (ob_viewport o) (ob_frames o) (ob_nodes o) (ob_subtree_nodes o) warnings [] (ob_selection o) (ob_frame_owners o).

Definition materialize_visual_fallbacks (session : string) (missing_resources : MissingResourcePolicy) (maximum : Z)
    (o : FrameObservation) : Cg FrameObservation :=
  match ob_visual_fallbacks o with
  | [] => eret o
  | fallbacks =>
      '(resolutions, warnings) <-! efold (capture_fallback session missing_resources maximum) fallbacks
                                     ([], ob_warnings o) ;;
      d <-! elift (fold_res (fun r d => resolve_visual_fallback r.1 r.2 d) resolutions (parse (as_bytes (ob_html o)))) ;;
      b <-! elift (ok_or (serialize_document d) render_serialize_error) ;;
      if is_utf8 b then eret (with_fallbacks (string_of_list_ascii b) warnings o) else eerr render_serialize_error
  end.

(** ** Describing *)

Definition owner_path (f : AttachedFrame) (pending : list PendingFrame) : Cg (list PendingFrame) :=
  path <-! page_call (AOwnerPath f) env_owner_path ;;
  if bool_decide (path = []) then eerr (new_error "offprint.frame.owner" Collection)
  else eret (pending ++ [MkPending f path]).

Definition describe_frames (top_browser_frame_id : string) (attached : list AttachedFrame)
    (maximum_depth maximum_frames : Z) : Cg (list FrameDescriptor) :=
  if saturating_sub maximum_frames 1 <? len_u64 attached then eerr (frame_limit_error maximum_frames)
  else
    pending <-! efold owner_path attached [] ;;
    elift (number_frames (length pending) maximum_depth maximum_frames pending
             (top_numbering page_session top_browser_frame_id)).

(** ** Navigating *)

Context (rq : CaptureRequest) (guard : NetworkGuard) (capture_id : CaptureId).

#[local] Abbreviation limits := (rq_limits rq).
#[local] Abbreviation content := (rq_content rq).

Definition emit_redirect (r : NavigationRedirect) : Cg unit :=
  emit (NavigationRedirected capture_id (redact redaction_default (nr_from r)) (redact redaction_default (nr_to r))
          (nr_status r)).

(** To the final address, which is checked again: the frame, the address and the
    time it took. *)
Definition navigate : Cg (string * url * Z) :=
  do! page_call (AApplyCredentials (rq_url rq)) env_unit ;;
  do! page_call (AEnableGuard (rq_url rq)) env_unit ;;
  do! transition_to Navigating ;;
  started <-! clock ;;
  do! emit (NavigationStarted capture_id (redact redaction_default (rq_url rq))) ;;
  navigation <-! cancellable (page_call (ANavigate (rq_url rq) (lim_redirects limits)) env_navigate) ;;
  do! efor emit_redirect (nv_redirects navigation) ;;
  do! cancellable (validate_capture_url guard (nv_final_url navigation) (cp_allowed_file_roots content)) ;;
  took <-! elapsed started ;;
  eret (nv_frame_id navigation, nv_final_url navigation, took).

Definition settle_page : Cg Z :=
  do! transition_to WaitingForReadiness ;;
  started <-! clock ;;
  ready <-! cancellable (page_call ASettle env_settle) ;;
  do! emit (ReadinessChanged capture_id (ro_reason ready) (ro_elapsed ready)) ;;
  elapsed started.

(** ** Collecting *)

Definition validate_attached (f : AttachedFrame) : Cg unit :=
  if negb (String.prefix "file:" (af_url f)) then eret tt
  else if is_remote (rq_browser rq) then eerr (new_error "offprint.input.remote_file" Validation)
  else
    u <-! elift (ok_or (url_parse (af_url f)) (new_error "offprint.input.file_root" Collection)) ;;
    cancellable (validate_file_resource u (cp_allowed_file_roots content)).

Definition spend (m : CaptureBudget -> Res unit * CaptureBudget) (b : CaptureBudget) : Cg CaptureBudget :=
  match m b with (Ok _, b') => eret b' | (Err e, _) => eerr e end.

Definition observation_limits (f : FrameDescriptor) (b : CaptureBudget) : ObservationLimits :=
  MkObservationLimits (fd_depth f) (lim_collector_chunk_bytes limits) (lim_frame_depth limits)
    (saturating_sub (lim_frames limits) (frames b)) (saturating_sub (lim_nodes limits) (nodes b))
    (remaining_observation_bytes b).

Definition collect_observed (f : FrameDescriptor) (done : CaptureBudget * gmap string FrameObservation)
    : Cg (CaptureBudget * gmap string FrameObservation) :=
  let '(b, collected) := done in
  observed <-! cancellable (page_call (AObserve (fd_session_id f) (fd_frame_id f) (observation_limits f b)) env_observe) ;;
  b <-! spend (reserve_observation_bytes (of_encoded_bytes observed)) b ;;
  o <-! materialize_visual_fallbacks (fd_session_id f) (cp_missing_resources content) (lim_resource_bytes limits)
          (of_observation observed) ;;
  b <-! spend (add_frames (ob_frames o)) b ;;
  b <-! spend (add_nodes (ob_subtree_nodes o)) b ;;
  do! emit (FrameCollected capture_id (fd_frame_id f) (ob_nodes o)) ;;
  eret (b, <[fd_session_id f := o]> collected).

Definition selected_ranges (descriptors : list FrameDescriptor) (collected : gmap string FrameObservation) : Res Z :=
  top <-? ok_or (head descriptors) (collection_error Collection) ;;
  Ok (match collected !! fd_session_id top with Some o => so_ranges (ob_selection o) | None => 0 end).

Definition check_selection (descriptors : list FrameDescriptor) (collected : gmap string FrameObservation) : Res unit :=
  match cp_scope content with
  | ScopePage => Ok tt
  | ScopeSelection =>
      selected <-? selected_ranges descriptors collected ;;
      if selected =? 0 then Err (new_error "offprint.selection.empty" Collection) else Ok tt
  end.

Definition collect (browser_frame_id : string)
    : Cg (list FrameDescriptor * CaptureBudget * gmap string FrameObservation) :=
  attached <-! page_call (AAttachedFrames (saturating_sub (lim_frames limits) 1)) env_attached ;;
  do! efor validate_attached attached ;;
  do! page_call AFreezeFrames env_unit ;;
  descriptors <-! describe_frames browser_frame_id attached (lim_frame_depth limits) (lim_frames limits) ;;
  '(b, collected) <-! efold collect_observed (collection_order descriptors) (budget_new limits, ∅) ;;
  do! elift (check_selection descriptors collected) ;;
  retained <-! elift (retain_observed_frame_descriptors descriptors collected) ;;
  eret (retained, b, collected).

(** ** Rendering *)

(** A frame the browser could not read is no loss when it was captured by itself. *)
Definition forward_warning (frame_id : Z) (w : ObservationWarning) (captured : nat) : Rn nat :=
  if bool_decide (ow_code w = "offprint.frame.cross_origin") && negb (captured =? 0)%nat then eret (pred captured)
  else
    let w := MkWarning (ow_code w) (ow_message w) (Some frame_id) None in
    do! emit (EventWarning capture_id w) ;; do! emodify (push_warning w) ;; eret captured.

Definition frame_context (f : FrameDescriptor) : RenderContext :=
  MkContext _ (fd_session_id f) (fd_browser_frame_id f) (fd_frame_id f) guard rq capture_id.

Definition render_collected (descriptors : list FrameDescriptor) (collected : gmap string FrameObservation)
    (f : FrameDescriptor) (rendered : gmap string string) : Rn (gmap string string) :=
  o <-! elift (ok_or (collected !! fd_session_id f) (collection_error Collection)) ;;
  do! efold (forward_warning (fd_frame_id f)) (ob_warnings o) (length (List.filter (is_child f) descriptors)) ;;
  base <-! elift (ok_or (url_parse (ob_base_url o)) (new_error "offprint.collector.base_url" Collection)) ;;
  d <-! elift (observation_document o) ;;
  d <-! elift (embed_child_frames f descriptors rendered d) ;;
  source <-! elift (ok_or (serialize_document d) render_serialize_error) ;;
  html <-! render_frame_document (render_fuel (frame_context f)) source base (fd_depth f) (frame_context f) ;;
  eret (<[fd_session_id f := html]> rendered).

Definition next_frame_number (descriptors : list FrameDescriptor) : Z := saturating_add u64_max (len_u64 descriptors) 1.

(** The resources have a state of their own, which takes the trace over. *)
Definition with_resources {A} (start : Trace -> Rendering) (m : Rn A) : Cg (A * Rendering) := fun s =>
  let '(r, t) := m (start (cg_trace s)) in
  (match r with Ok a => Ok (a, t) | Err e => Err e end, MkCapturing (cg_machine s) (rn_trace t)).

Definition render_all (descriptors : list FrameDescriptor) (b : CaptureBudget)
    (collected : gmap string FrameObservation) : Cg (gmap string string * Rendering) :=
  do! page_call AOpenStore env_unit ;;
  with_resources (rendering_new b (frames b) (next_frame_number descriptors))
    (efold (render_collected descriptors collected) (collection_order descriptors) ∅).

(** ** The captured page *)

Record CapturedPage := MkCapturedPage {
  pg_html : bytes;
  pg_source : SourceSummary;
  pg_frames : Z;
  pg_resources : ResourceSummary;
  pg_resource_records : list ResourceRecord;
  pg_warnings : list CaptureWarning;
  pg_view_state : ViewState;
  pg_timings : CaptureTimings;
}.

(** [BTreeMap::into_values]: by number. *)
Definition number_le (a b : Z * ResourceRecord) : Prop := a.1 <= b.1.

#[export] Instance number_le_dec a b : Decision (number_le a b).
Proof. unfold number_le. apply _. Defined.

Definition records_in_order (m : gmap Z ResourceRecord) : list ResourceRecord :=
  map snd (merge_sort number_le (map_to_list m)).

Definition finish_page (final : url) (descriptors : list FrameDescriptor) (collected : gmap string FrameObservation)
    (rendered : gmap string string) (s : Rendering) (timings : CaptureTimings) : Res CapturedPage :=
  top <-? ok_or (head descriptors) (collection_error Collection) ;;
  o <-? ok_or (collected !! fd_session_id top) (collection_error Collection) ;;
  html <-? ok_or (rendered !! fd_session_id top) (collection_error Transform) ;;
  do? validate_complete s ;;
  Ok (MkCapturedPage (as_bytes html) (source_summary (rq_url rq) final redaction_default) (rn_frames s) (rn_summary s)
        (records_in_order (rn_records s)) (rn_warnings s)
        (MkView (ov_scroll_x (ob_viewport o)) (ov_scroll_y (ob_viewport o))) timings).

Definition capture : Cg CapturedPage :=
  '(frame, final, navigation) <-! navigate ;;
  settle <-! settle_page ;;
  do! transition_to Collecting ;;
  started <-! clock ;;
  '(descriptors, b, collected) <-! collect frame ;;
  collection <-! elapsed started ;;
  do! transition_to ResolvingResources ;;
  started <-! clock ;;
  '(rendered, s) <-! render_all descriptors b collected ;;
  resources <-! elapsed started ;;
  elift (finish_page final descriptors collected rendered s
           (MkTimings 0 0 0 navigation settle collection resources 0 0 0 0)).
End Capture.
