(* ===== verification/FrameTreeFacts.v ===== *)
(** * The frames form a tree

    The frames [describe_frames] numbers are a tree rooted in the page: a number
    each, parents before children, depths that add up.  What is kept of them is a
    tree as well, so that in the order in which frames are rendered each finds its
    children rendered. *)

From Stdlib Require Import ZArith Lia Ascii String.
From stdpp Require Import base tactics list gmap strings numbers sorting.
From S2P Require Import Prelude.
From S2P Require Import Errors.
From S2P Require Import Records.
From S2P Require Import Budget.
From S2P Require Import Lifecycle.
From S2P Require Import ContentStore.
From S2P Require Import Network.
From S2P Require Import Requests.
From S2P Require Import Schedule.
From S2P Require Import Dom.
From S2P Require Import Sink.
From S2P Require Import Html.
From S2P Require Import Frames.
From S2P Require Import Verify.
From S2P Require Import Discover.
From S2P Require Import Effects.
From S2P Require Import Browser.
From S2P Require Import Materialize.
From S2P Require Import Render.
From S2P Require Import RenderTrace.
From S2P Require Import RenderFacts.
From S2P Require Import FrameTree.

#[local] Open Scope string_scope.
#[local] Open Scope list_scope.
#[local] Open Scope Z_scope.

(** ** Trees of frames *)

(** A frame in a document of one of these. *)
Definition placed (l : list FrameDescriptor) (f : FrameDescriptor) : Prop :=
  exists parent path, parent ∈ l /\ fd_parent_session_id f = Some (fd_session_id parent) /\
    fd_owner_path f = Some path /\ path <> [] /\ fd_depth f = fd_depth parent + Z.of_nat (length path).

Inductive frame_tree (main : string) : list FrameDescriptor -> Prop :=
| tree_top browser_frame : frame_tree main [MkDescriptor 1 main browser_frame None None 0]
| tree_frame l f :
    frame_tree main l -> placed l f -> fd_frame_id f = Z.of_nat (length l) + 1 ->
    fd_session_id f ∉ map fd_session_id l -> frame_tree main (l ++ [f]).

(** The same up to the numbers and what the paths are. *)
Record rooted (main : string) (l : list FrameDescriptor) : Prop := {
  rt_top : exists top rest, l = top :: rest /\ fd_session_id top = main /\ fd_parent_session_id top = None /\
    fd_owner_path top = None;
  rt_sessions : NoDup (map fd_session_id l);
  rt_parents f : f ∈ l -> fd_parent_session_id f = None \/
    exists parent path, parent ∈ l /\ fd_parent_session_id f = Some (fd_session_id parent) /\
      fd_depth parent < fd_depth f /\ fd_owner_path f = Some path /\ path <> [];
}.

Lemma frame_tree_rooted main l : frame_tree main l -> rooted main l.
Proof.
  induction 1 as [browser_frame|l f _ IH (parent & path & Hp & Hs & Ho & Hne & Hd) Hid Hfresh].
  { split; [by eexists _, []| cbn; apply NoDup_singleton|]. intros f ->%list_elem_of_singleton. by left. }
  destruct IH as [(top & rest & -> & Htop) Hn Hpar]. split.
  - by exists top, (rest ++ [f]).
  - rewrite map_app. apply NoDup_app. repeat split; [done| |apply NoDup_singleton].
    intros s Hin ->%list_elem_of_singleton. done.
  - intros g [Hg| ->%list_elem_of_singleton]%elem_of_app.
    + destruct (Hpar g Hg) as [?|(q & pth & ? & ?)]; [by left|right]. exists q, pth. split; [apply elem_of_app; by left|done].
    + right. exists parent, path. split; [apply elem_of_app; by left|]. split; [done|]. split; [|done].
      rewrite Hd. destruct path; [done|]. cbn [length]. lia.
Qed.

Lemma frame_tree_numbers main l : frame_tree main l -> map fd_frame_id l = seqZ 1 (Z.of_nat (length l)).
Proof.
  induction 1 as [|l f _ IH _ Hid _]; [done|]. rewrite map_app, IH, length_app. cbn [map length].
  rewrite Nat2Z.inj_add, seqZ_app by lia. cbn. by rewrite Hid, Z.add_comm.
Qed.

(** ** Numbering *)

(** What is known of the sessions is what the descriptors say. *)
Definition known_ok (n : Numbering) : Prop :=
  forall s id depth, nb_known n !! s = Some (id, depth) <->
    exists f, f ∈ nb_descriptors n /\ fd_session_id f = s /\ fd_frame_id f = id /\ fd_depth f = depth.

Record numbering_ok (main : string) (maximum_depth maximum_frames : Z) (n : Numbering) : Prop := {
  nk_tree : frame_tree main (nb_descriptors n);
  nk_known : known_ok n;
  nk_next : nb_next_id n = Z.of_nat (length (nb_descriptors n)) + 1;
  nk_depth : Forall (fun f => 0 <= fd_depth f <= maximum_depth) (nb_descriptors n);
  nk_frames : Z.of_nat (length (nb_descriptors n)) <= Z.max 1 maximum_frames;
}.

Definition pending_session (p : PendingFrame) : string := af_session_id (pf_frame p).

Lemma child_frame_depth_spec parent path d : child_frame_depth parent path = Ok d -> d = parent + Z.of_nat (length path).
Proof.
  unfold child_frame_depth, try_from, checked_add. destruct (_ && _); [|done]. cbn. destruct (_ <=? _); [|done]. by intros [= <-].
Qed.

Lemma top_numbering_ok main browser_frame maximum_depth maximum_frames : 0 <= maximum_depth ->
  numbering_ok main maximum_depth maximum_frames (top_numbering main browser_frame).
Proof.
  intros Hd. split; cbn.
  - constructor.
  - intros s id depth. cbn. rewrite lookup_singleton_Some. split.
    + intros [<- [= <- <-]]. eexists. split; [by left|done].
    + intros (f & ->%list_elem_of_singleton & <- & <- & <-). done.
  - done.
  - repeat constructor; cbn; lia.
  - lia.
Qed.

Lemma known_extended n f : known_ok n -> fd_session_id f ∉ map fd_session_id (nb_descriptors n) -> forall next,
  known_ok (MkNumbering (nb_descriptors n ++ [f]) (<[fd_session_id f := (fd_frame_id f, fd_depth f)]> (nb_known n)) next).
Proof.
  intros Hk Hf next s id depth. cbn. destruct (decide (fd_session_id f = s)) as [<-|Hne].
  - rewrite lookup_insert_eq. split.
    + intros [= <- <-]. exists f. split; [apply elem_of_app; right; by left|done].
    + intros (g & [Hg| ->%list_elem_of_singleton]%elem_of_app & Hs & <- & <-); [|done].
      exfalso. apply Hf. rewrite <- Hs. by apply list_elem_of_fmap_2.
  - rewrite lookup_insert_ne by done. rewrite (Hk s id depth). split.
    + intros (g & Hg & ?). exists g. split; [apply elem_of_app; by left|done].
    + intros (g & [Hg| ->%list_elem_of_singleton]%elem_of_app & ?); [by exists g|naive_solver].
Qed.

Lemma number_frame_spec main D F p n n' :
  numbering_ok main D F n -> pf_owner_path p <> [] -> pending_session p ∉ map fd_session_id (nb_descriptors n) ->
  F <= u32_max -> number_frame D F p n = Ok n' ->
  numbering_ok main D F n' /\
  map fd_session_id (nb_descriptors n') = map fd_session_id (nb_descriptors n) ++ [pending_session p].
Proof.
  intros [Ht Hk Hn Hd Hf] Hpath Hfresh HF. unfold number_frame.
  destruct (nb_known n !! _) as [[pid pdepth]|] eqn:Hparent; [|done]. cbn [ok_or rbind].
  destruct (child_frame_depth _ _) as [depth|] eqn:Ed; [|done]. cbn [rbind].
  apply child_frame_depth_spec in Ed. destruct (Z.ltb_spec D depth); [done|].
  destruct (Z.leb_spec F (len_u64 (nb_descriptors n))) as [|Hroom]; [done|].
  destruct (checked_add _ _ _) as [next|] eqn:En; [|done]. cbn [ok_or rbind]. intros [= <-].
  apply checked_add_Some in En as [-> _]. apply Hk in Hparent as (parent & Hin & Hs & _ & Hpd).
  assert (Hpd0 : 0 <= fd_depth parent) by (rewrite list.Forall_forall in Hd; by apply Hd).
  set (f := MkDescriptor _ _ _ _ _ _). split; [split; cbn [nb_descriptors nb_next_id]|cbn [nb_descriptors]; by rewrite map_app].
  - constructor; [done| |cbn; lia|done]. exists parent, (pf_owner_path p). cbn. repeat split; try done; by rewrite ?Hs, ?Hpd.
  - exact (known_extended n f Hk Hfresh _).
  - rewrite length_app. cbn [length]. lia.
  - apply Forall_app. split; [done|]. repeat constructor; cbn; lia.
  - unfold len_u64 in Hroom. rewrite length_app. cbn [length]. ranges. lia.
Qed.

Lemma number_batch_spec main D F : F <= u32_max -> forall batch n n',
  numbering_ok main D F n -> Forall (fun p => pf_owner_path p <> []) batch ->
  NoDup (map fd_session_id (nb_descriptors n) ++ map pending_session batch) ->
  fold_res (number_frame D F) batch n = Ok n' ->
  numbering_ok main D F n' /\
  map fd_session_id (nb_descriptors n') = map fd_session_id (nb_descriptors n) ++ map pending_session batch.
Proof.
  intros HF. induction batch as [|p batch IH]; intros n n' Hn Hp Hs; cbn [fold_res map].
  { intros [= <-]. by rewrite app_nil_r. }
  inversion Hp; simplify_eq. cbn [map] in Hs. destruct (number_frame D F p n) as [n1|e] eqn:E1; [|done]. cbn [rbind]. intros E.
  destruct (number_frame_spec main D F p n n1) as [Hn1 Hs1]; try done.
  { intros Hin. apply NoDup_app in Hs as (_ & Hd & _). apply (Hd _ Hin). by left. }
  destruct (IH n1 n' Hn1) as [Hn' Hs']; try done.
  { by rewrite Hs1, <- app_assoc. }
  split; [done|]. by rewrite Hs', Hs1, <- app_assoc.
Qed.

Lemma filter_partition {A} (p : A -> bool) l :
  Permutation l (List.filter p l ++ List.filter (fun x => negb (p x)) l).
Proof.
  induction l as [|x l IH]; [done|]. cbn. destruct (p x); cbn; rewrite IH at 1; [done|]. apply Permutation_middle.
Qed.

Lemma number_frames_spec main D F : F <= u32_max -> forall fuel pending n l,
  numbering_ok main D F n -> Forall (fun p => pf_owner_path p <> []) pending ->
  NoDup (map fd_session_id (nb_descriptors n) ++ map pending_session pending) ->
  number_frames fuel D F pending n = Ok l ->
  frame_tree main l /\ Forall (fun f => 0 <= fd_depth f <= D) l /\ Z.of_nat (length l) <= Z.max 1 F /\
  Permutation (map fd_session_id l) (map fd_session_id (nb_descriptors n) ++ map pending_session pending).
Proof.
  intros HF. induction fuel as [|fuel IH]; intros pending n l Hn Hp Hs; (destruct pending as [|p0 rest]; [|cbn [number_frames]]).
  1,3: cbn; intros [= <-]; destruct Hn; by rewrite app_nil_r.
  { done. }
  set (pending := p0 :: rest) in *. set (ready := List.filter (is_ready n) pending).
  set (waiting := List.filter (fun p => negb (is_ready n p)) pending).
  pose proof (filter_partition (is_ready n) pending) as Hsplit. fold ready waiting in Hsplit.
  replace (match ready with [] => _ | _ :: _ => _ end) with
    (match ready with [] => Err topology_error | _ => n' <-? fold_res (number_frame D F) (merge_sort (ready_le (nb_known n)) ready) n ;;
       number_frames fuel D F waiting n' end) by by destruct ready.
  destruct ready as [|r0 ready'] eqn:Er; [done|]. rewrite <- Er in *. clear r0 ready' Er.
  pose proof (merge_sort_Permutation (ready_le (nb_known n)) ready) as Hsort.
  destruct (fold_res _ _ n) as [n1|e] eqn:E1; [|done]. cbn [rbind]. intros E.
  assert (Hall : Permutation (map pending_session pending)
                   (map pending_session (merge_sort (ready_le (nb_known n)) ready) ++ map pending_session waiting)).
  { rewrite Hsplit at 1. by rewrite map_app, Hsort. }
  rewrite Hall, app_assoc in Hs. rewrite Hsplit in Hp. apply Forall_app in Hp as [Hp1 Hp2].
  destruct (number_batch_spec main D F HF (merge_sort (ready_le (nb_known n)) ready) n n1 Hn) as [Hn1 Hs1]; try done.
  { by rewrite Hsort. }
  { by apply NoDup_app in Hs as [Hs _]. }
  destruct (IH waiting n1 l Hn1 Hp2) as (Ht & Hd & Hf & Hperm); try done.
  { by rewrite Hs1. }
  repeat split; try done. by rewrite Hperm, Hs1, Hall, app_assoc.
Qed.

(** A round leaves fewer frames: as many rounds as frames are enough. *)
Lemma number_frames_enough D F : forall fuel fuel' pending n,
  (length pending <= fuel)%nat -> (length pending <= fuel')%nat ->
  number_frames fuel D F pending n = number_frames fuel' D F pending n.
Proof.
  induction fuel as [|fuel IH]; intros [|fuel'] [|p rest] n H H'; try done; cbn [length] in *; try lia.
  cbn [number_frames]. set (pending := p :: rest).
  pose proof (Permutation_length (filter_partition (is_ready n) pending)) as Hl. rewrite length_app in Hl. cbn [length pending] in Hl.
  destruct (List.filter (is_ready n) pending) as [|r ready] eqn:Er; [done|].
  destruct (fold_res _ _ n) as [n1|e]; [|done]. cbn [rbind]. apply IH; fold pending in Hl; cbn [length] in Hl; lia.
Qed.

(** ** Keeping what was observed *)

(** A kept frame is a frame there was, at another place perhaps. *)
Definition same_frame (f g : FrameDescriptor) : Prop :=
  fd_frame_id g = fd_frame_id f /\ fd_session_id g = fd_session_id f /\ fd_browser_frame_id g = fd_browser_frame_id f /\
  fd_parent_session_id g = fd_parent_session_id f /\ fd_depth g = fd_depth f.

Definition kept_of (l k : list FrameDescriptor) : Prop := Forall (fun g => exists f, f ∈ l /\ same_frame f g) k.

Lemma session_unique l (f g : FrameDescriptor) :
  NoDup (map fd_session_id l) -> f ∈ l -> g ∈ l -> fd_session_id f = fd_session_id g -> f = g.
Proof.
  intros Hn (i & Hi)%list_elem_of_lookup (j & Hj)%list_elem_of_lookup E.
  assert (i = j) as ->; [|congruence].
  apply (NoDup_lookup (map fd_session_id l) i j (fd_session_id f)); [done| |].
  - by apply (list_lookup_fmap_Some_2 fd_session_id) in Hi.
  - rewrite E. by apply (list_lookup_fmap_Some_2 fd_session_id) in Hj.
Qed.

Section Retain.
Context (observations : gmap string FrameObservation) (main : string) (l : list FrameDescriptor) (Hl : rooted main l).

Record keeping (seen : list FrameDescriptor) (kept : list FrameDescriptor * gset string) : Prop := {
  kp_rooted : rooted main kept.1;
  kp_sessions : kept.2 = list_to_set (map fd_session_id kept.1);
  kp_seen : Forall (fun g => fd_session_id g ∈ map fd_session_id seen) kept.1;
  kp_of : kept_of l kept.1;
}.

Lemma retained_path_nonempty parent original path : retained_path observations parent original = Some path -> path <> [].
Proof using Type.
  unfold retained_path. destruct (observations !! parent) as [o|]; [|done]. cbn.
  destruct (list_find _ _) as [[i owner]|]; [|done]. cbn. case_bool_decide; [done|]. by intros [= <-].
Qed.

Lemma keeping_more seen c kept : keeping seen kept -> keeping (seen ++ [c]) kept.
Proof using Type.
  intros [H1 H2 H3 H4]. split; try done. eapply list.Forall_impl; [exact H3|]. intros g Hg. rewrite map_app. apply elem_of_app. by left.
Qed.

Lemma retain_step seen c kept : keeping seen kept -> c ∈ l -> fd_session_id c ∉ map fd_session_id seen ->
  keeping (seen ++ [c]) (retain_candidate observations kept c).
Proof using Hl.
  intros K Hc Hfresh. unfold retain_candidate.
  destruct (fd_parent_session_id c) as [parent|] eqn:Ep; [|by apply keeping_more].
  destruct (fd_owner_path c) as [original|] eqn:Eo; [|by apply keeping_more].
  case_bool_decide as Hparent; [|by apply keeping_more]. cbn [negb].
  destruct (retained_path _ _ _) as [path|] eqn:Er; [|by apply keeping_more].
  apply retained_path_nonempty in Er. destruct K as [[(top & rest & E & Htop) Hn Hpar] Hs Hseen Hof].
  rewrite Hs, elem_of_list_to_set in Hparent. apply list_elem_of_fmap in Hparent as (g & -> & Hg).
  assert (Hdepth : fd_depth g < fd_depth c).
  { destruct Hl as [_ Hnl Hparl]. destruct (Hparl c Hc) as [?|(q & pth & Hq & Hqs & Hqd & _)]; [congruence|].
    unfold kept_of in Hof. rewrite list.Forall_forall in Hof. destruct (Hof g Hg) as (f & Hf & Hsame).
    destruct Hsame as (_ & Hfs & _ & _ & Hfd). rewrite Hfd. rewrite (session_unique l f q); [done..|congruence]. }
  split; cbn [fst snd].
  - split.
    + exists top, (rest ++ [set_owner_path path c]). rewrite E. done.
    + rewrite map_app. apply NoDup_app. split; [done|]. split; [|apply NoDup_singleton].
      intros s Hin ->%list_elem_of_singleton. cbn in Hin. apply Hfresh. apply list_elem_of_fmap in Hin as (f & -> & Hf).
      rewrite list.Forall_forall in Hseen. by apply Hseen.
    + intros f [Hf| ->%list_elem_of_singleton]%elem_of_app.
      * destruct (Hpar f Hf) as [?|(q & pth & ? & ?)]; [by left|right]. exists q, pth. split; [apply elem_of_app; by left|done].
      * right. exists g, path. split; [apply elem_of_app; by left|]. done.
  - rewrite Hs, map_app, list_to_set_app_L. cbn. rewrite union_empty_r_L. apply union_comm_L.
  - rewrite map_app. apply Forall_app. split.
    + eapply list.Forall_impl; [exact Hseen|]. intros f Hf. apply elem_of_app. by left.
    + repeat constructor. cbn. apply elem_of_app. right. by left.
  - apply Forall_app. split; [done|]. repeat constructor. exists c. split; [done|]. by split_and!.
Qed.

Lemma retain_all : forall candidates seen kept, keeping seen kept -> candidates ⊆ l ->
  NoDup (map fd_session_id (seen ++ candidates)) ->
  keeping (seen ++ candidates) (foldl (retain_candidate observations) kept candidates).
Proof using Hl.
  induction candidates as [|c candidates IH]; intros seen kept K Hsub Hn; [by rewrite app_nil_r|]. cbn [foldl].
  replace (seen ++ c :: candidates) with ((seen ++ [c]) ++ candidates) by by rewrite <- app_assoc.
  apply IH.
  - apply retain_step; [done|apply Hsub; by left|]. rewrite map_app in Hn. apply NoDup_app in Hn as (_ & Hd & _).
    intros Hin. apply (Hd _ Hin). by left.
  - intros x Hx. apply Hsub. by right.
  - by rewrite <- app_assoc.
Qed.

Lemma retained_rooted k : retain_observed_frame_descriptors l observations = Ok k -> rooted main k /\ kept_of l k.
Proof using Hl.
  destruct Hl as [(top & rest & E & Hs & Hp & Ho) Hn Hpar]. unfold retain_observed_frame_descriptors. rewrite E at 1.
  intros [= <-]. pose proof (merge_sort_Permutation shallow_le rest) as Hperm.
  destruct (retain_all (merge_sort shallow_le rest) [top] ([top], {[fd_session_id top]})) as [K1 _ _ K4]; [| | |done].
  - split; cbn [fst snd map].
    + split; [by exists top, []|apply NoDup_singleton|]. intros f ->%list_elem_of_singleton. by left.
    + cbn. by rewrite union_empty_r_L.
    + repeat constructor.
    + repeat constructor. exists top. rewrite E. split; [by left|]. by split_and!.
  - intros x Hx. rewrite Hperm in Hx. rewrite E. by right.
  - cbn [app map]. rewrite Hperm. by rewrite E in Hn.
Qed.
End Retain.

(** ** The order of rendering *)

#[export] Instance deep_le_trans : Transitive deep_le.
Proof. intros a b c. unfold deep_le. lia. Qed.
#[export] Instance deep_le_total : Total deep_le.
Proof. intros a b. unfold deep_le. lia. Qed.

Lemma children_first main l before f after c :
  rooted main l -> collection_order l = before ++ f :: after -> c ∈ l -> is_child f c = true -> c ∈ before.
Proof.
  intros [_ Hn Hpar] E Hc Hchild. unfold is_child in Hchild. apply bool_decide_eq_true in Hchild.
  assert (Hf : f ∈ l).
  { rewrite <- (merge_sort_Permutation deep_le l). fold (collection_order l). rewrite E. apply elem_of_app. right. by left. }
  destruct (Hpar c Hc) as [?|(q & pth & Hq & Hqs & Hd & _)]; [congruence|].
  assert (q = f) as -> by (apply (session_unique l); [done..|congruence]).
  rewrite <- (merge_sort_Permutation deep_le l) in Hc. fold (collection_order l) in Hc. rewrite E in Hc.
  apply elem_of_app in Hc as [?|[->|Hafter]%elem_of_cons]; [done|lia|]. exfalso.
  pose proof (StronglySorted_merge_sort deep_le l) as Hsorted. fold (collection_order l) in Hsorted. rewrite E in Hsorted.
  apply StronglySorted_app_1_r in Hsorted. inversion Hsorted as [|x y _ Hall]; simplify_eq.
  rewrite list.Forall_forall in Hall. destruct (Hall c Hafter); lia.
Qed.
