(* ===== verification/CaptureFacts.v ===== *)
(** * A page is captured whole

    What the stages of [capture] hand on: the frames form a tree, each has its
    observation, each is rendered after its children, and every reference found on
    the way is settled, so that the last stage has nothing to refuse. *)

From Stdlib Require Import ZArith Lia Ascii String.
From stdpp Require Import base tactics list gmap strings numbers sorting.
From S2P Require Import Prelude.
From S2P Require Import Errors.
From S2P Require Import Records.
From S2P Require Import Budget.
From S2P Require Import Lifecycle.
From S2P Require Import ContentStore.
From S2P Require Import Network.
From S2P Require Import Requests.
From S2P Require Import Schedule.
From S2P Require Import Dom.
From S2P Require Import Sink.
From S2P Require Import Html.
From S2P Require Import Frames.
From S2P Require Import Verify.
From S2P Require Import Discover.
From S2P Require Import Effects.
From S2P Require Import Browser.
From S2P Require Import Materialize.
From S2P Require Import Render.
From S2P Require Import RenderTrace.
From S2P Require Import RenderFacts.
From S2P Require Import FrameTree.
From S2P Require Import FrameTreeFacts.

#[local] Open Scope string_scope.
#[local] Open Scope list_scope.
#[local] Open Scope Z_scope.

(** ** What computations return *)

(** Whatever the state, a returned value has the property. *)
Definition yields {S A} (m : Eff S A) (P : A -> Prop) : Prop := forall s a s', m s = (Ok a, s') -> P a.

Section Yields.
Context {S : Type}.

Lemma yields_true {A} (m : Eff S A) : yields m (fun _ => True).
Proof. by intros s a s' _. Qed.
Lemma yields_mono {A} (m : Eff S A) (P Q : A -> Prop) : yields m P -> (forall a, P a -> Q a) -> yields m Q.
Proof. intros Hm H s a s' E. eapply H, Hm, E. Qed.
Lemma yields_ret {A} (a : A) (P : A -> Prop) : P a -> yields (eret a : Eff S A) P.
Proof. by intros H s b s' [= <- _]. Qed.
Lemma yields_err {A} e (P : A -> Prop) : yields (eerr e : Eff S A) P.
Proof. by intros s b s' [=]. Qed.
Lemma yields_lift {A} (r : Res A) (P : A -> Prop) : (forall a, r = Ok a -> P a) -> yields (elift r : Eff S A) P.
Proof. intros H s a s' [= E _]. by apply H. Qed.
Lemma yields_bind {A B} (m : Eff S A) (k : A -> Eff S B) P Q :
  yields m P -> (forall a, P a -> yields (k a) Q) -> yields (ebind m k) Q.
Proof.
  intros Hm Hk s b s' E. unfold ebind in E. destruct (m s) as [[a|e] t] eqn:Em; [|done]. by eapply Hk, E; eapply Hm.
Qed.
Lemma yields_then {A B} (m : Eff S A) (k : A -> Eff S B) Q : (forall a, yields (k a) Q) -> yields (ebind m k) Q.
Proof. intros Hk. eapply yields_bind; [apply yields_true|]. intros a _. apply Hk. Qed.
Lemma yields_attempt {A} (m : Eff S A) P : yields m P -> yields (eattempt m) (fun r => forall a, r = Ok a -> P a).
Proof. intros Hm s r s' E a ->. unfold eattempt in E. destruct (m s) as [r t] eqn:Em. simplify_eq. by eapply Hm. Qed.
Lemma yields_fold {A B} (f : A -> B -> Eff S B) (I : list A -> B -> Prop) : forall l seen b,
  I seen b -> (forall before x b, I before b -> yields (f x b) (I (before ++ [x]))) -> yields (efold f l b) (I (seen ++ l)).
Proof.
  induction l as [|x l IH]; intros seen b Hi Hstep; cbn [efold]; [rewrite app_nil_r; by apply yields_ret|].
  eapply yields_bind; [by apply Hstep|]. intros b' Hb'.
  replace (seen ++ x :: l) with ((seen ++ [x]) ++ l) by by rewrite <- app_assoc. by apply IH.
Qed.
End Yields.

(** ** The stages *)

Section Stages.
Context `{UrlLib} `{UrlEdit} `{UrlView} `{Networks} `{Environment} `{Hashing} `{TempNames} `{DataUrls} `{Encodings}.
Context `{HtmlParser} `{CssTokens} `{Platform} `{Scripts} {Hstore : StoreLaws}.
Context (rq : CaptureRequest) (guard : NetworkGuard) (capture_id : CaptureId).

(** The sessions a browser attaches are distinct. *)
Class PageLaws : Prop := {
  attached_distinct t attached : env_attached t = Ok attached -> NoDup (page_session :: map af_session_id attached);
}.

Lemma yields_cancellable {A} (m : Cg A) P : yields m P -> yields (cancellable m) P.
Proof using Type.
  intros Hm. apply yields_then. intros _. eapply yields_bind; [by apply yields_attempt|]. intros r Hr. apply yields_then.
  intros _. by apply yields_lift.
Qed.

Lemma yields_page {A} a (answer : Trace -> Res A) : yields (page_call a answer) (fun x => exists t, answer t = Ok x).
Proof using Type.
  intros s x s' E. unfold page_call, ebind, ask, elift in E. simplify_eq. by eexists.
Qed.

Lemma yields_owner_paths attached :
  yields (efold owner_path attached []) (fun p => map pf_frame p = attached /\ Forall (fun x => pf_owner_path x <> []) p).
Proof using Type.
  apply (yields_fold owner_path (fun seen p => map pf_frame p = seen /\ Forall (fun x => pf_owner_path x <> []) p) attached [] []).
  { done. }
  intros before f p [Hp Hne]. unfold owner_path. apply yields_then. intros path. case_bool_decide; [apply yields_err|].
  apply yields_ret. split; [by rewrite map_app, Hp|]. apply Forall_app. split; [done|]. by repeat constructor.
Qed.

Definition described (D F : Z) (attached : list AttachedFrame) (l : list FrameDescriptor) : Prop :=
  frame_tree page_session l /\ Forall (fun f => 0 <= fd_depth f <= D) l /\ Z.of_nat (length l) <= Z.max 1 F /\
  Permutation (map fd_session_id l) (page_session :: map af_session_id attached).

Lemma yields_describe browser_frame attached D F :
  0 <= D -> F <= u32_max -> NoDup (page_session :: map af_session_id attached) ->
  yields (describe_frames browser_frame attached D F) (described D F attached).
Proof using Type.
  intros HD HF Hn. unfold describe_frames. destruct (_ <? _); [apply yields_err|].
  eapply yields_bind; [apply yields_owner_paths|]. intros pending [Hp Hne]. apply yields_lift. intros l E.
  assert (map pending_session pending = map af_session_id attached) as Hs.
  { rewrite <- Hp, map_map. done. }
  apply (number_frames_spec page_session D F HF) in E as (? & ? & ? & Hperm); [|by apply top_numbering_ok|done|].
  - split_and!; try done. by rewrite Hperm, Hs.
  - by rewrite Hs.
Qed.

(** ** Collecting *)

(** A budget nothing was charged to but what was observed. *)
Definition collecting_budget (b : CaptureBudget) : Prop := limits b = rq_limits rq /\ resources b = 0.

Lemma yields_spend m b : collecting_budget b ->
  (forall b r b', m b = (r, b') -> limits b' = limits b /\ resources b' = resources b) ->
  yields (spend m b) collecting_budget.
Proof using Type.
  intros [Hl Hr] Hm. unfold spend. destruct (m b) as [[u|e] b'] eqn:E; [|apply yields_err].
  apply yields_ret. destruct (Hm _ _ _ E). split; congruence.
Qed.

Lemma charged_budget b b' : (forall c, b' = Ok c -> limits c = limits b /\ resources c = resources b) ->
  forall r c, charge b b' = (r, c) -> limits c = limits b /\ resources c = resources b.
Proof using Type. intros Hb r c. unfold charge. destruct b'; intros [= <- <-]; auto. Qed.

Lemma observation_charged n : forall b r b', reserve_observation_bytes n b = (r, b') ->
  limits b' = limits b /\ resources b' = resources b.
Proof using Type.
  intros b. apply charged_budget. intros c. destruct (checked_add _ _ _); [|done]. cbn. destruct (_ <? _); [done|]. by intros [= <-].
Qed.
Lemma frames_charged n : forall b r b', add_frames n b = (r, b') -> limits b' = limits b /\ resources b' = resources b.
Proof using Type.
  intros b. apply charged_budget. intros c. destruct (checked_add _ _ _); [|done]. cbn. destruct (enforce _ _ _); [|done]. by intros [= <-].
Qed.
Lemma nodes_charged n : forall b r b', add_nodes n b = (r, b') -> limits b' = limits b /\ resources b' = resources b.
Proof using Type.
  intros b. apply charged_budget. intros c. destruct (checked_add _ _ _); [|done]. cbn. destruct (enforce _ _ _); [|done]. by intros [= <-].
Qed.

Definition collected_all (l : list FrameDescriptor) (x : CaptureBudget * gmap string FrameObservation) : Prop :=
  collecting_budget x.1 /\ forall f, f ∈ l -> is_Some (x.2 !! fd_session_id f).

Lemma yields_collect_frame before f x :
  collected_all before x -> yields (collect_observed rq capture_id f x) (collected_all (before ++ [f])).
Proof using Type.
  destruct x as [b collected]. intros [Hb Hc]. unfold collect_observed. apply yields_then. intros observed.
  eapply yields_bind; [apply yields_spend, observation_charged; exact Hb|]. intros b1 Hb1. apply yields_then. intros o.
  eapply yields_bind; [apply yields_spend, frames_charged; exact Hb1|]. intros b2 Hb2.
  eapply yields_bind; [apply yields_spend, nodes_charged; exact Hb2|]. intros b3 Hb3. apply yields_then. intros _.
  apply yields_ret. split; [exact Hb3|]. intros g [Hg| ->%list_elem_of_singleton]%elem_of_app; cbn [snd].
  - destruct (decide (fd_session_id f = fd_session_id g)) as [->|Hne]; [by rewrite lookup_insert_eq|].
    rewrite lookup_insert_ne by done. by apply Hc.
  - by rewrite lookup_insert_eq.
Qed.

(** What collecting hands on. *)
Definition collection_ok (x : list FrameDescriptor * CaptureBudget * gmap string FrameObservation) : Prop :=
  let '(l, b, collected) := x in
  rooted page_session l /\ collecting_budget b /\ forall f, f ∈ l -> is_Some (collected !! fd_session_id f).

Lemma yields_collect `{!PageLaws} browser_frame :
  0 <= lim_frame_depth (rq_limits rq) -> lim_frames (rq_limits rq) <= u32_max ->
  yields (collect rq capture_id browser_frame) collection_ok.
Proof using Type.
  intros HD HF. unfold collect. eapply yields_bind; [apply yields_page|]. intros attached [t Ht]. do 2 (apply yields_then; intros _).
  eapply yields_bind; [apply yields_describe; [done..|by eapply attached_distinct]|].
  intros l (Htree & _). apply frame_tree_rooted in Htree as Hroot.
  eapply yields_bind.
  { apply (yields_fold (collect_observed rq capture_id) collected_all (collection_order l) [] (budget_new (rq_limits rq), ∅)).
    - split; [done|]. by intros f ?%elem_of_nil.
    - intros before f x Hx. by apply yields_collect_frame. }
  intros [b collected] [Hb Hc]. cbn [app fst snd] in *. apply yields_then. intros _.
  eapply yields_bind; [apply yields_lift; intros k Ek; exact (retained_rooted collected page_session l Hroot k Ek)|].
  intros k [Hk Hof]. apply yields_ret. split; [done|]. split; [done|]. intros g Hg.
  unfold kept_of in Hof. rewrite list.Forall_forall in Hof. destruct (Hof g Hg) as (f & Hf & _ & Hs & _). rewrite Hs.
  apply Hc. unfold collection_order. by rewrite merge_sort_Permutation.
Qed.

(** ** Rendering *)

Lemma forward_calm frame_id w n : calm_with (fun _ _ => True) (forward_warning capture_id frame_id w n).
Proof using Type.
  unfold forward_warning. destruct (_ && _); [apply calm_return|]. apply calm_then; [apply calm_emit|]. intros _.
  apply calm_then; [by apply calm_modify|]. intros _. apply calm_return.
Qed.

(** One frame: its text is added, its references are settled. *)
Lemma render_collected_spec l collected f rendered s : request_ok rq -> rendering_ok s ->
  after (render_collected rq guard capture_id l collected f rendered)
    (fun r s' => (exists html, r = <[fd_session_id f := html]> rendered) /\ transformed s s') (fun _ s' => moved None s s') s.
Proof using Hstore.
  intros Hq Hs. unfold render_collected.
  assert (Hlift : forall {A B} (r : Res A) (k : A -> Rn B) Q s1, transformed s s1 ->
    (forall a, after (k a) Q (fun _ s' => moved None s s') s1) -> after (a <-! elift r ;; k a) Q (fun _ s' => moved None s s') s1).
  { intros A B r k Q s1 T1 Hk. apply after_bind, after_lift; [by intros a _|]. intros e _. apply T1. }
  apply Hlift; [by apply transformed_refl|]. intros o. apply after_bind.
  eapply after_mono; [apply (calm_fold (forward_warning capture_id (fd_frame_id f))); [|done]| |].
  { intros w n _. apply forward_calm. }
  2:{ intros e s' C. by apply calmly_moved. }
  intros n s1 [C1 _]. cbn beta. assert (T1 : transformed s s1) by (eapply transformed_calm; [by apply transformed_refl|done]).
  do 4 (apply Hlift; [done|]; intros ?). apply after_bind.
  eapply after_mono; [apply render_frame_spec; [exact Hq|apply T1]| |].
  - intros html s2 T2. apply after_ret. split; [by exists html|]. by eapply transformed_trans.
  - intros e s2 M2. eapply moved_trans; [apply T1|done].
Qed.

(** The frames rendered so far. *)
Definition rendered_all (l : list FrameDescriptor) (rendered : gmap string string) : Prop :=
  forall f, f ∈ l -> is_Some (rendered !! fd_session_id f).

Lemma rendered_more l f html rendered : rendered_all l rendered -> rendered_all (l ++ [f]) (<[fd_session_id f := html]> rendered).
Proof using Type.
  intros Hr g Hg. destruct (decide (fd_session_id f = fd_session_id g)) as [->|Hne]; [by rewrite lookup_insert_eq|].
  rewrite lookup_insert_ne by done. apply elem_of_app in Hg as [Hg| ->%list_elem_of_singleton]; [by apply Hr|done].
Qed.

Lemma render_loop_spec l collected order s : request_ok rq -> rendering_ok s ->
  after (efold (render_collected rq guard capture_id l collected) order ∅)
    (fun r s' => rendered_all order r /\ transformed s s') (fun _ s' => moved None s s') s.
Proof using Hstore.
  intros Hq Hs.
  apply (after_fold (render_collected rq guard capture_id l collected) order
           (fun seen r s' => rendered_all seen r /\ transformed s s') (fun _ s' => moved None s s') [] ∅ s).
  { split; [by intros f ?%elem_of_nil|by apply transformed_refl]. }
  intros before f rest r s1 _ [Hr T1]. eapply after_mono; [apply render_collected_spec; [done|apply T1]| |].
  - intros r' s2 [[html ->] T2]. split; [by apply rendered_more|by eapply transformed_trans].
  - intros e s2 M2. eapply moved_trans; [apply T1|done].
Qed.

(** Within a run of the loop each frame finds its observation and its children. *)
Lemma children_rendered l collected before f rest rendered s s' :
  rooted page_session l -> (forall f, f ∈ l -> is_Some (collected !! fd_session_id f)) ->
  collection_order l = before ++ f :: rest ->
  efold (render_collected rq guard capture_id l collected) before ∅ s = (Ok rendered, s') ->
  is_Some (collected !! fd_session_id f) /\
  forall c, c ∈ List.filter (is_child f) l -> is_Some (rendered !! fd_session_id c) /\ is_Some (fd_owner_path c).
Proof using Type.
  intros Hroot Hc E Hrun.
  assert (Hf : f ∈ l).
  { rewrite <- (merge_sort_Permutation deep_le l). fold (collection_order l). rewrite E. apply elem_of_app. right. by left. }
  split; [by apply Hc|]. intros c Hin. apply list_elem_of_In, filter_In in Hin as [Hin Hchild]. apply list_elem_of_In in Hin. split.
  - assert (Hb : c ∈ before) by (by eapply children_first).
    assert (Hall : yields (efold (render_collected rq guard capture_id l collected) before ∅) (rendered_all before)).
    { apply (yields_fold (render_collected rq guard capture_id l collected) rendered_all before [] ∅).
      { by intros g ?%elem_of_nil. }
      intros seen g r Hr. unfold render_collected. do 7 (apply yields_then; intros ?). apply yields_ret. by apply rendered_more. }
    by eapply Hall.
  - destruct Hroot as [_ _ Hpar]. destruct (Hpar c Hin) as [Hnone|(_ & path & _ & _ & _ & -> & _)]; [|by eexists].
    unfold is_child in Hchild. rewrite Hnone in Hchild. by case_bool_decide.
Qed.

(** The last stage has all it looks up. *)
Lemma finish_page_ok l b collected rendered s final timings :
  collection_ok (l, b, collected) -> rendered_all l rendered -> validate_complete s = Ok tt ->
  exists page, finish_page rq final l collected rendered s timings = Ok page /\ pg_resources page = rn_summary s.
Proof using Type.
  intros (Hroot & _ & Hc) Hr Hv. destruct Hroot as [(top & rest & -> & _) _ _].
  destruct (Hc top) as [o Ho]; [by left|]. destruct (Hr top) as [html Hhtml]; [by left|].
  unfold finish_page. cbn [head ok_or rbind]. rewrite Ho. cbn [ok_or rbind]. rewrite Hhtml. cbn [ok_or rbind]. rewrite Hv.
  cbn [rbind]. eexists. split; [done|]. done.
Qed.
End Stages.

(** ** Properties *)

Section Captured.
Context `{UrlLib} `{UrlEdit} `{UrlView} `{Networks} `{Environment} `{Hashing} `{TempNames} `{DataUrls} `{Encodings}.
Context `{HtmlParser} `{CssTokens} `{Platform} `{Scripts} {Hstore : StoreLaws} {Hpage : PageLaws}.
Context (rq : CaptureRequest) (guard : NetworkGuard) (capture_id : CaptureId).

(** C17: the frames of a page form a tree. Whatever paths and sessions the browser
    reports, as long as the sessions are distinct, the frames that are described
    are numbered from one without gaps, the page first, a frame after the frame
    it is in, deeper by the length of its owner path, all within the limits, and
    they are the page and the attached frames, each once. *)
Theorem frames_described browser_frame attached maximum_depth maximum_frames s l s' :
  0 <= maximum_depth -> maximum_frames <= u32_max -> NoDup (page_session :: map af_session_id attached) ->
  describe_frames browser_frame attached maximum_depth maximum_frames s = (Ok l, s') ->
  frame_tree page_session l /\ map fd_frame_id l = seqZ 1 (Z.of_nat (length l)) /\
  Forall (fun f => 0 <= fd_depth f <= maximum_depth) l /\ Z.of_nat (length l) <= Z.max 1 maximum_frames /\
  Permutation (map fd_session_id l) (page_session :: map af_session_id attached).
Proof using Type.
  intros HD HF Hn E. destruct (yields_describe _ _ _ _ HD HF Hn _ _ _ E) as (Ht & Hd & Hf & Hp).
  split_and!; try done. by apply (frame_tree_numbers page_session).
Qed.

(** Children are rendered before their parents. In the order in which the
    frames that collecting has kept are rendered, a frame that is reached finds its
    own observation and, for each of its child frames, the text it was rendered
    to and the path of its owner. *)
Theorem children_rendered_first browser_frame s l b collected s1 before f rest rendered state state' :
  0 <= lim_frame_depth (rq_limits rq) -> lim_frames (rq_limits rq) <= u32_max ->
  collect rq capture_id browser_frame s = (Ok (l, b, collected), s1) ->
  collection_order l = before ++ f :: rest ->
  efold (render_collected rq guard capture_id l collected) before ∅ state = (Ok rendered, state') ->
  is_Some (collected !! fd_session_id f) /\
  forall c, c ∈ List.filter (is_child f) l -> is_Some (rendered !! fd_session_id c) /\ is_Some (fd_owner_path c).
Proof using Hpage.
  intros HD HF Hcollect E Hrun. destruct (yields_collect rq capture_id browser_frame HD HF _ _ _ Hcollect) as (Hroot & _ & Hc).
  by eapply children_rendered.
Qed.

(** C16: what was rendered is delivered. When collecting has returned and so has
    rendering, the last stage of a capture returns the page: every frame was
    rendered when its parent was, the observation and the text of the page are
    there, and every reference has its record; unless cancellation was seen or the
    file system failed in between.  The resources of the page are those embedded and those that failed. *)
Theorem page_delivered browser_frame s l b collected s1 s2 rendered state s3 final timings :
  request_ok rq -> 0 <= lim_frame_depth (rq_limits rq) -> lim_frames (rq_limits rq) <= u32_max ->
  0 <= lim_resources (rq_limits rq) <= u32_max ->
  collect rq capture_id browser_frame s = (Ok (l, b, collected), s1) ->
  render_all rq guard capture_id l b collected s2 = (Ok (rendered, state), s3) ->
  disturbed (cg_trace s3) \/
  exists page, finish_page rq final l collected rendered state timings = Ok page /\
    rs_discovered (pg_resources page) = rs_embedded (pg_resources page) + rs_failed (pg_resources page).
Proof using Hstore Hpage.
  intros Hq HD HF HR Hcollect Hrender.
  pose proof (yields_collect rq capture_id browser_frame HD HF _ _ _ Hcollect) as Hok. cbn in Hok.
  destruct Hok as (Hroot & [Hl Hr] & Hc). unfold render_all in Hrender.
  unfold page_call, ebind at 1 in Hrender. cbn [ask ebind elift] in Hrender.
  destruct (env_unit _) as [u|e]; [|done]. cbn in Hrender. unfold with_resources in Hrender.
  set (state0 := rendering_new _ _ _ _) in Hrender.
  assert (Hok0 : rendering_ok state0) by (apply rendering_new_ok; [done|by rewrite Hl]).
  pose proof (render_loop_spec rq guard capture_id l collected (collection_order l) state0 Hq Hok0) as Hloop. unfold after in Hloop.
  destruct (efold _ _ _ state0) as [[r|e] t] eqn:E; [|done]. simplify_eq. destruct Hloop as [Hall [M St]].
  destruct St as [D|St]; [by left|right].
  assert (Hrec : forall id, 0 <= id < rn_next_resource_id state -> is_Some (rn_records state !! id)).
  { intros id Hid. apply St. cbn. lia. }
  pose proof (mv_ok _ _ _ M) as Hok.
  destruct (finish_page_ok rq l b collected rendered state final timings) as (page & Hfinish & Hres).
  - by split_and!.
  - intros f Hf. apply Hall. unfold collection_order. by rewrite merge_sort_Permutation.
  - by apply complete_of_records.
  - exists page. split; [done|]. rewrite Hres, (ok_discovered _ Hok). symmetry. by apply outcomes_of_records.
Qed.
End Captured.
