(* ===== verification/CaptureTrace.v ===== *)
(** * What a capture asks the browser for

    The invariant of RenderTrace.v over a whole capture: nothing is loaded that was
    not checked, and no frame is read before the address the page has ended at was
    checked. *)

From Stdlib Require Import ZArith Lia Ascii String.
From stdpp Require Import base tactics list gmap strings numbers sorting.
From S2P Require Import Prelude.
From S2P Require Import Errors.
From S2P Require Import Records.
From S2P Require Import Budget.
From S2P Require Import Lifecycle.
From S2P Require Import ContentStore.
From S2P Require Import Network.
From S2P Require Import Requests.
From S2P Require Import Schedule.
From S2P Require Import Dom.
From S2P Require Import Sink.
From S2P Require Import Html.
From S2P Require Import Frames.
From S2P Require Import Verify.
From S2P Require Import Discover.
From S2P Require Import Effects.
From S2P Require Import Browser.
From S2P Require Import Materialize.
From S2P Require Import Render.
From S2P Require Import RenderTrace.
From S2P Require Import FrameTree.

#[local] Open Scope string_scope.
#[local] Open Scope list_scope.
#[local] Open Scope Z_scope.

Definition is_observe (a : Action) : bool := match a with AObserve _ _ _ => true | _ => false end.
Definition quiet (a : Action) : bool := plain a && negb (is_observe a).

Lemma quiet_plain a : quiet a = true -> plain a = true.
Proof. unfold quiet. by destruct (plain a). Qed.

Section Observed.
Context `{UrlLib} `{UrlEdit} `{UrlView} `{Networks} `{Environment} `{Hashing} `{TempNames} `{DataUrls} `{Encodings}.
Context `{HtmlParser} `{CssTokens} `{Platform} `{Scripts} {Hlaws : UrlLaws}.
Context (g : NetworkGuard) (roots : list PortablePath).

(** A navigation was answered, and the address it ended at, of the web or a file,
    passed its check afterwards. *)
Definition page_checked (t : Trace) : Prop :=
  exists target redirects before answer after,
    env_navigate (ANavigate target redirects :: before) = Ok answer /\
    ANavigate target redirects :: before `suffix_of` after /\ after `suffix_of` t /\
    url_scheme (nv_final_url answer) ∈ ["http"; "https"; "file"] /\ load_allowed g roots (nv_final_url answer) after.

(** Every frame of the trace was read from a page that had been checked. *)
Definition observed (t : Trace) : Prop :=
  forall session frame limits t1 t2, t = t1 ++ AObserve session frame limits :: t2 -> page_checked t2.

Lemma page_checked_later t t' : t `suffix_of` t' -> page_checked t -> page_checked t'.
Proof using Type.
  intros Hs (target & redirects & before & answer & after & ? & ? & Ha & ?). exists target, redirects, before, answer, after.
  split_and!; try done; try naive_solver. by etrans.
Qed.

Lemma observed_other a t : is_observe a = false -> observed t -> observed (a :: t).
Proof using Type. intros Ha Ht s f l t1 t2 E. destruct t1 as [|b t1]; simplify_eq/=; try done. by eapply Ht. Qed.

Lemma observed_read session frame limits t : page_checked t -> observed t -> observed (AObserve session frame limits :: t).
Proof using Type. intros Hc Ht s f l t1 t2 E. destruct t1 as [|b t1]; simplify_eq/=; try done. by eapply Ht. Qed.

Definition safe (t : Trace) : Prop := guarded g roots t /\ observed t.
Definition safe_page (t : Trace) : Prop := safe t /\ page_checked t.

Lemma safe_quiet a t : quiet a = true -> safe t -> safe (a :: t).
Proof using Type.
  unfold quiet. rewrite andb_true_iff, negb_true_iff. intros [Hl%plain_not_load Ho] [Hg Hobs].
  split; [by apply guarded_other|by apply observed_other].
Qed.

Lemma safe_page_other a t : plain a = true -> safe_page t -> safe_page (a :: t).
Proof using Type.
  intros Ha%plain_not_load [[Hg Ho] Hc]. split; [split; [by apply guarded_other|]|].
  - destruct (is_observe a) eqn:E; [|by apply observed_other]. destruct a; try done. by apply observed_read.
  - eapply page_checked_later; [|exact Hc]. by apply suffix_cons_r.
Qed.

Lemma safe_page_load s f u m t : load_allowed g roots u t -> safe_page t -> safe_page (ALoad s f u m :: t).
Proof using Type.
  intros Hu [[Hg Ho] Hc]. split; [split; [by apply guarded_load|by apply observed_other]|].
  eapply page_checked_later; [|exact Hc]. by apply suffix_cons_r.
Qed.

(** ** Operations of the page *)

Section Keeping.
Context {I : Trace -> Prop} (Hquiet : forall a t, quiet a = true -> I t -> I (a :: t)).

#[local] Hint Extern 1 (keeps _ (ask _ _)) => apply keeps_ask; intros ? ?; apply Hquiet; [reflexivity|assumption] : trace.
#[local] Hint Extern 1 (keeps _ (emit _)) => apply keeps_emit; intros ? ?; apply Hquiet; [reflexivity|assumption] : trace.

Lemma keeps_page {A} a (answer : Trace -> Res A) : quiet a = true -> keeps I (page_call a answer : Cg A).
Proof using Hquiet. intros Ha. apply keeps_bind; [apply keeps_ask; intros; by apply Hquiet|]. intros r. apply keeps_lift. Qed.

Lemma keeps_check : keeps I (check_cancelled : Cg unit).
Proof using Hquiet. unfold check_cancelled. eauto with trace. Qed.

Lemma keeps_cancellable {A} (m : Cg A) : keeps I m -> keeps I (cancellable m).
Proof using Hquiet.
  intros Hm. apply keeps_bind; [apply keeps_check|]. intros _. apply keeps_bind; [by apply keeps_attempt|]. intros r.
  apply keeps_bind; [apply keeps_check|]. intros _. apply keeps_lift.
Qed.

Lemma keeps_transition next : keeps I (transition_to next).
Proof using Hquiet.
  apply keeps_bind; [apply keeps_check|]. intros _. apply keeps_bind; [by apply keeps_part|]. intros _. apply keeps_check.
Qed.

Lemma keeps_elapsed started : keeps I (elapsed started).
Proof using Hquiet. unfold elapsed, clock. eauto with trace. Qed.

Lemma keeps_roots path l : keeps I (within_roots path l : Cg unit).
Proof using Hquiet.
  induction l as [|root l IH]; cbn [within_roots]; [apply keeps_err|]. apply keeps_bind; [eauto with trace|].
  intros [r|]; [|done]. by apply keeps_if; [apply keeps_ret|].
Qed.

Lemma keeps_file u l : keeps I (validate_file_resource u l : Cg unit).
Proof using Hquiet.
  unfold validate_file_resource. apply keeps_bind; [apply keeps_lift|]. intros path. apply keeps_bind; [eauto with trace|].
  intros answer. apply keeps_bind; [apply keeps_lift|]. intros real. apply keeps_roots.
Qed.

Lemma keeps_network u : keeps I (validate_network_url g u : Cg unit).
Proof using Hquiet.
  unfold validate_network_url. do 2 (apply keeps_bind; [apply keeps_lift|]; intros ?). destruct (parse_ip _); [apply keeps_lift|].
  apply keeps_bind; [apply keeps_lift|]. intros port. apply keeps_bind; [eauto with trace|]. eauto with trace.
Qed.

Lemma keeps_address u l : keeps I (validate_capture_url g u l : Cg unit).
Proof using Hquiet.
  unfold validate_capture_url. apply keeps_if; [apply keeps_network|]. apply keeps_if; [apply keeps_file|apply keeps_err].
Qed.

Lemma keeps_fallbacks session missing maximum o : keeps I (materialize_visual_fallbacks session missing maximum o).
Proof using Hquiet.
  unfold materialize_visual_fallbacks. destruct (ob_visual_fallbacks o) as [|f l]; [apply keeps_ret|].
  apply keeps_bind.
  { apply keeps_fold. intros x done _. unfold capture_fallback. apply keeps_bind; [eauto with trace|].
    intros [b|e]; [apply keeps_ret|]. destruct missing; [apply keeps_ret|apply keeps_err]. }
  intros [resolutions warnings]. do 2 (apply keeps_bind; [apply keeps_lift|]; intros ?). apply keeps_if; eauto with trace.
Qed.

Lemma keeps_spend m b : keeps I (spend m b).
Proof using Type. unfold spend. destruct (m b) as [[]]; eauto with trace. Qed.

Lemma keeps_describe browser_frame attached D F : keeps I (describe_frames browser_frame attached D F).
Proof using Hquiet.
  unfold describe_frames. apply keeps_if; [apply keeps_err|]. apply keeps_bind; [|intros ?; apply keeps_lift].
  apply keeps_fold. intros f pending _. unfold owner_path. apply keeps_bind; [by apply keeps_page|]. intros path.
  apply keeps_if; eauto with trace.
Qed.
End Keeping.

(** ** The stages *)

Section Capture_.
Context (rq : CaptureRequest) (capture_id : CaptureId).
Context (Hroots : cp_allowed_file_roots (rq_content rq) = roots).

Lemma safe_page_quiet a t : quiet a = true -> safe_page t -> safe_page (a :: t).
Proof using Type. intros Ha. by apply safe_page_other, quiet_plain. Qed.

(** The check of the final address, which leaves its evidence. *)
Lemma checked_address t0 target redirects answer (s : Capturing) :
  env_navigate (ANavigate target redirects :: t0) = Ok answer ->
  ANavigate target redirects :: t0 `suffix_of` cg_trace s ->
  after (validate_capture_url g (nv_final_url answer) roots) (fun _ s' => page_checked (cg_trace s')) (fun _ _ => True) s.
Proof using Type.
  intros Hnav Hsuf. set (u := nv_final_url answer) in *.
  assert (Hev : forall t' t, t' = t ++ cg_trace s -> url_scheme u ∈ ["http"; "https"; "file"] -> load_allowed g roots u t' ->
    page_checked t').
  { intros t' t -> Hs Hl. exists target, redirects, t0, answer, (t ++ cg_trace s). split_and!; try done. by apply suffix_app_r. }
  unfold validate_capture_url. destruct (bool_decide (url_scheme u = "http") || bool_decide (url_scheme u = "https")) eqn:Ew.
  { eapply after_mono; [apply validate_network_evidence| |done]. intros _ s' [Hv (t & E & _)].
    eapply Hev; [exact E| |unfold load_allowed; by rewrite Ew].
    apply orb_true_iff in Ew as [->%bool_decide_eq_true| ->%bool_decide_eq_true]; [by left|right; by left]. }
  destruct (bool_decide (url_scheme u = "file")) eqn:Ef; [apply bool_decide_eq_true in Ef|by apply after_err].
  eapply after_mono; [apply validate_file_evidence| |done]. intros _ s' [Hv (t & E & _)].
  eapply Hev; [exact E|rewrite Ef; right; right; by left|]. unfold load_allowed. rewrite Ew. by rewrite bool_decide_eq_true_2.
Qed.
(** The answer to a call stays in the trace. *)
Lemma cancellable_checked {A} (m : Cg A) (P : A -> Trace -> Prop) s :
  (forall a t t', t `suffix_of` t' -> P a t -> P a t') ->
  after m (fun a s' => P a (cg_trace s')) (fun _ _ => True) (record_action APoll s) ->
  after (cancellable m) (fun a s' => P a (cg_trace s')) (fun _ _ => True) s.
Proof using Type.
  intros Hmono Hm. unfold cancellable. apply after_bind. unfold check_cancelled at 1. apply after_bind.
  unfold after at 1, ask. cbn beta iota. destruct (env_cancelled _); [by apply after_err|]. apply after_ret.
  apply after_bind, after_attempt. eapply after_mono; [exact Hm| |]; cbn beta.
  - intros a s1 Hp. unfold check_cancelled. do 2 apply after_bind. unfold after at 1, ask. cbn beta iota.
    destruct (env_cancelled _); [by apply after_err|]. apply after_ret. apply after_ret.
    eapply Hmono; [|exact Hp]. cbn. by apply suffix_cons_r.
  - intros e s1 _. apply after_bind. unfold check_cancelled. apply after_bind. unfold after at 1, ask. cbn beta iota.
    destruct (env_cancelled _); [by apply after_err|]. by apply after_ret.
Qed.

Definition navigated (answer : NavigationResult) (t : Trace) : Prop :=
  exists target redirects t0, env_navigate (ANavigate target redirects :: t0) = Ok answer /\
    ANavigate target redirects :: t0 `suffix_of` t.

Lemma navigated_later answer t t' : t `suffix_of` t' -> navigated answer t -> navigated answer t'.
Proof using Type. intros Hs (x & y & z & ? & ?). exists x, y, z. split; [done|by etrans]. Qed.

(** A stage keeps the invariant and may add to it. *)
Lemma keeps_and {A} (m : Cg A) (P : A -> Capturing -> Prop) s : keeps safe m -> safe (cg_trace s) ->
  after m P (fun _ _ => True) s ->
  after m (fun a s' => safe (cg_trace s') /\ P a s') (fun _ s' => safe (cg_trace s')) s.
Proof using Type.
  intros Hk Hs Hp. pose proof (Hk s Hs) as Hm. unfold after in *. destruct (m s) as [[a|e] s']; [split; [exact Hm|exact Hp]|exact Hm].
Qed.

Lemma navigate_checks s : safe (cg_trace s) ->
  after (navigate rq g capture_id) (fun _ s' => safe_page (cg_trace s')) (fun _ s' => safe (cg_trace s')) s.
Proof using Hroots.
  intros Hs0. unfold navigate.
  apply after_bind; eapply after_mono; [apply (keeps_page safe_quiet); [done|exact Hs0]| |done]. intros [] s1 Hs1; cbn beta.
  apply after_bind; eapply after_mono; [apply (keeps_page safe_quiet); [done|exact Hs1]| |done]. intros [] s2 Hs2; cbn beta.
  apply after_bind. eapply after_mono; [apply (keeps_transition safe_quiet); exact Hs2| |done]. intros [] s3 Hs3. cbn beta.
  apply after_bind. eapply after_mono; [apply (keeps_ask safe AClock); [intros; by apply safe_quiet|exact Hs3]| |done].
  intros started s4 Hs4. cbn beta.
  apply after_bind. eapply after_mono; [apply (keeps_emit safe); [intros; by apply safe_quiet|exact Hs4]| |done].
  intros [] s5 Hs5. cbn beta. apply after_bind.
  eapply after_mono; [apply (keeps_and _ (fun a s' => navigated a (cg_trace s')));
    [by apply (keeps_cancellable safe_quiet), (keeps_page safe_quiet)|exact Hs5|]| |done].
  { apply (cancellable_checked _ navigated); [apply navigated_later|]. unfold page_call. apply after_bind. unfold after at 1, ask.
    apply after_lift; [|done]. intros answer E. eexists _, _, _. split; [exact E|done]. }
  intros navigation s6 [Hs6 Hnav]. cbn beta. apply after_bind.
  eapply after_mono; [apply (keeps_fold (fun t => safe t /\ navigated navigation t)); [|by split]| |by intros e s' [? _]].
  { intros r _ _. apply keeps_emit. intros t [Ht Hn]. split; [by apply safe_quiet|].
    eapply navigated_later; [|exact Hn]. by apply suffix_cons_r. }
  intros _ s7 [Hs7 Hnav7]. cbn beta. apply after_bind. rewrite Hroots.
  eapply after_mono; [apply (keeps_and _ (fun _ s' => page_checked (cg_trace s')));
    [apply (keeps_cancellable safe_quiet), (keeps_address safe_quiet)|exact Hs7|]| |done].
  { apply (cancellable_checked _ (fun _ => page_checked)); [by intros; eapply page_checked_later|].
    destruct Hnav7 as (target & redirects & t0 & Hn & Hsuf). eapply checked_address; [exact Hn|]. cbn. by apply suffix_cons_r. }
  intros _ s8 [Hs8 Hc]. cbn beta. apply after_bind.
  eapply after_mono; [apply (keeps_elapsed safe_page_quiet); by split| |by intros e s' [? _]].
  intros took s' Hs'. by apply after_ret.
Qed.

(** ** The other stages, for every invariant that what is done keeps *)

Section Stages.
Context {I : Trace -> Prop} (Hplain : forall a t, plain a = true -> I t -> I (a :: t)).
Context (Hload : forall s f u m t, load_allowed g roots u t -> I t -> I (ALoad s f u m :: t)).

#[local] Definition Hquiet a t : quiet a = true -> I t -> I (a :: t) := fun Hq => Hplain a t (quiet_plain a Hq).

#[local] Hint Extern 1 (keeps _ (ask _ _)) => apply keeps_ask; intros ? ?; apply Hplain; [reflexivity|assumption] : trace.
#[local] Hint Extern 1 (keeps _ (emit _)) => apply keeps_emit; intros ? ?; apply Hplain; [reflexivity|assumption] : trace.

Lemma keeps_observe {A} session frame limits (answer : Trace -> Res A) :
  keeps I (page_call (AObserve session frame limits) answer : Cg A).
Proof using Hplain. unfold page_call. eauto with trace. Qed.

Lemma keeps_settle : keeps I (settle_page capture_id).
Proof using Hplain.
  unfold settle_page. apply keeps_bind; [apply (keeps_transition Hquiet)|]. intros _.
  apply keeps_bind; [unfold clock; eauto with trace|]. intros started.
  apply keeps_bind; [by apply (keeps_cancellable Hquiet), (keeps_page Hquiet)|]. intros ready.
  apply keeps_bind; [eauto with trace|]. intros _. apply (keeps_elapsed Hquiet).
Qed.

Lemma keeps_collect browser_frame : keeps I (collect rq capture_id browser_frame).
Proof using Hplain.
  unfold collect. apply keeps_bind; [by apply (keeps_page Hquiet)|]. intros attached.
  apply keeps_bind.
  { apply keeps_fold. intros f _ _. unfold validate_attached. apply keeps_if; [apply keeps_ret|].
    apply keeps_if; [apply keeps_err|]. apply keeps_bind; [apply keeps_lift|]. intros u.
    apply (keeps_cancellable Hquiet), (keeps_file Hquiet). }
  intros _. apply keeps_bind; [by apply (keeps_page Hquiet)|]. intros _.
  apply keeps_bind; [apply (keeps_describe Hquiet)|]. intros l. apply keeps_bind.
  { apply keeps_fold. intros f [b collected] _. unfold collect_observed.
    apply keeps_bind; [apply (keeps_cancellable Hquiet), keeps_observe|]. intros observed_.
    apply keeps_bind; [apply keeps_spend|]. intros b1. apply keeps_bind; [apply (keeps_fallbacks Hquiet)|]. intros o.
    do 2 (apply keeps_bind; [apply keeps_spend|]; intros ?). apply keeps_bind; eauto with trace. }
  intros [b collected]. apply keeps_bind; [apply keeps_lift|]. intros _. apply keeps_bind; eauto with trace.
Qed.

Lemma keeps_render_collected l collected f rendered :
  keeps I (render_collected rq g capture_id l collected f rendered).
Proof using Hplain Hload Hroots Hlaws.
  unfold render_collected. apply keeps_bind; [apply keeps_lift|]. intros o. apply keeps_bind.
  { apply keeps_fold. intros w n _. unfold forward_warning. apply keeps_if; [apply keeps_ret|].
    apply keeps_bind; [eauto with trace|]. intros _. apply keeps_bind; [by apply keeps_modify|]. eauto with trace. }
  intros n. do 4 (apply keeps_bind; [apply keeps_lift|]; intros ?). apply keeps_bind; [|eauto with trace].
  apply (keeps_render_frame g roots I Hplain Hload); [done|exact Hroots].
Qed.

Lemma keeps_resources {A} start (m : Rn A) : (forall t, rn_trace (start t) = t) -> keeps I m ->
  keeps I (with_resources start m).
Proof using Hplain.
  intros Hstart Hm s Hs. unfold with_resources. pose proof (Hm (start (cg_trace s))) as H'. unfold after in *. cbn in *.
  rewrite Hstart in H'. specialize (H' Hs). destruct (m (start (cg_trace s))) as [[a|e] t]; exact H'.
Qed.

Lemma keeps_render_all l b collected : keeps I (render_all rq g capture_id l b collected).
Proof using Hplain Hload Hroots Hlaws.
  unfold render_all. apply keeps_bind; [by apply (keeps_page Hquiet)|]. intros _.
  apply keeps_resources; [done|]. apply keeps_fold. intros f rendered _. apply keeps_render_collected.
Qed.

Lemma keeps_navigate : keeps I (navigate rq g capture_id).
Proof using Hplain Hload Hroots Hlaws.
  unfold navigate. do 2 (apply keeps_bind; [by apply (keeps_page Hquiet)|]; intros _).
  apply keeps_bind; [apply (keeps_transition Hquiet)|]. intros _. apply keeps_bind; [unfold clock; eauto with trace|].
  intros started. apply keeps_bind; [eauto with trace|]. intros _.
  apply keeps_bind; [by apply (keeps_cancellable Hquiet), (keeps_page Hquiet)|]. intros navigation.
  apply keeps_bind; [apply keeps_fold; intros r _ _; unfold emit_redirect; eauto with trace|]. intros _.
  apply keeps_bind; [apply (keeps_cancellable Hquiet), (keeps_address Hquiet)|]. intros _.
  apply keeps_bind; [apply (keeps_elapsed Hquiet)|]. eauto with trace.
Qed.

(** What comes after the navigation. *)
Lemma keeps_rest final navigation frame :
  keeps I (settle <-! settle_page capture_id ;;
           do! transition_to Collecting ;;
           started <-! clock ;;
           '(descriptors, b, collected) <-! collect rq capture_id frame ;;
           collection <-! elapsed started ;;
           do! transition_to ResolvingResources ;;
           started <-! clock ;;
           '(rendered, s) <-! render_all rq g capture_id descriptors b collected ;;
           resources <-! elapsed started ;;
           elift (finish_page rq final descriptors collected rendered s
                    (MkTimings 0 0 0 navigation settle collection resources 0 0 0 0))).
Proof using Hplain Hload Hroots Hlaws.
  apply keeps_bind; [apply keeps_settle|]. intros settle. apply keeps_bind; [apply (keeps_transition Hquiet)|].
  intros _. apply keeps_bind; [unfold clock; eauto with trace|]. intros started.
  apply keeps_bind; [apply keeps_collect|]. intros [[l b] collected]. apply keeps_bind; [apply (keeps_elapsed Hquiet)|].
  intros collection. apply keeps_bind; [apply (keeps_transition Hquiet)|]. intros _.
  apply keeps_bind; [unfold clock; eauto with trace|]. intros started'.
  apply keeps_bind; [by apply keeps_render_all|]. intros [rendered state].
  apply keeps_bind; [apply (keeps_elapsed Hquiet)|]. intros resources. apply keeps_lift.
Qed.

Lemma keeps_capture : keeps I (capture rq g capture_id).
Proof using Hplain Hload Hroots Hlaws.
  unfold capture. apply keeps_bind; [apply keeps_navigate|]. intros [[frame final] navigation]. apply keeps_rest.
Qed.
End Stages.
End Capture_.
End Observed.

(** ** Properties *)

Section Guarded.
Context `{UrlLib} `{UrlEdit} `{UrlView} `{Networks} `{Environment} `{Hashing} `{TempNames} `{DataUrls} `{Encodings}.
Context `{HtmlParser} `{CssTokens} `{Platform} `{Scripts} {Hlaws : UrlLaws}.

(** C14: nothing is loaded or read unchecked. Whatever a page, its stylesheets, its
    images and its frames refer to, and whatever the browser, the resolver of names
    and the file system answer, a capture asks the page to load an address of the
    web only when the network guard has just admitted it with every address its
    host resolves to, and a file only when its resolved path has just been found
    under a resolved allowed root; and it reads no frame before the address the
    navigation ended at has passed the same check. *)
Theorem capture_guarded rq g capture_id s :
  guarded g (cp_allowed_file_roots (rq_content rq)) (cg_trace s) -> observed g (cp_allowed_file_roots (rq_content rq)) (cg_trace s) ->
  guarded g (cp_allowed_file_roots (rq_content rq)) (cg_trace (capture rq g capture_id s).2) /\
  observed g (cp_allowed_file_roots (rq_content rq)) (cg_trace (capture rq g capture_id s).2).
Proof using Hlaws.
  set (roots := cp_allowed_file_roots (rq_content rq)). intros Hg Ho.
  enough (after (capture rq g capture_id) (fun _ s' => safe g roots (cg_trace s')) (fun _ s' => safe g roots (cg_trace s')) s) as Hc.
  { unfold after in Hc. by destruct (capture rq g capture_id s) as [[page|e] s']. }
  unfold capture. apply after_bind. eapply after_mono; [by apply (navigate_checks g roots)| |done].
  clear s Hg Ho. intros [[frame final] navigation] s Hs. cbn beta iota.
  eapply after_mono;
    [by apply (keeps_rest g roots rq capture_id eq_refl (safe_page_other g roots) (safe_page_load g roots))|
     by intros ? ? [? _]..].
Qed.
End Guarded.
