(* ===== verification/RenderSamples.v ===== *)
(** * A sample rendering

    A page with an image, one that is missing, a stylesheet that imports itself, a
    file, and a frame; surroundings that answer for them. *)

From Stdlib Require Import ZArith Lia Ascii String.
From stdpp Require Import base tactics list gmap strings numbers sorting.
From S2P Require Import Prelude.
From S2P Require Import Errors.
From S2P Require Import Records.
From S2P Require Import Budget.
From S2P Require Import Lifecycle.
From S2P Require Import ContentStore.
From S2P Require Import Network.
From S2P Require Import Requests.
From S2P Require Import Schedule.
From S2P Require Import CrawlResume.
Import CrawlSamples.
From S2P Require Import Dom.
From S2P Require Import Sink.
From S2P Require Import Html.
From S2P Require Import Frames.
From S2P Require Import Verify.
From S2P Require Import VerifyFacts.
Import VerifySamples.
From S2P Require Import Discover.
From S2P Require Import DiscoverDocument.
Import DiscoverSamples.
From S2P Require Import Effects.
From S2P Require Import Browser.
From S2P Require Import Materialize.
From S2P Require Import Render.
From S2P Require Import RenderTrace.
From S2P Require Import RenderFacts.
From S2P Require Import FrameTree.
From S2P Require Import FrameTreeFacts.
From S2P Require Import CaptureFacts.
From S2P Require Import CaptureTrace.

#[local] Open Scope string_scope.
#[local] Open Scope list_scope.
#[local] Open Scope Z_scope.

#[export] Instance rendering_hashing : Hashing := plain_hashing.
#[export] Instance rendering_names : TempNames := counted_names.
#[export] Instance rendering_store_laws : StoreLaws := plain_store_laws.
#[export] Instance rendering_urls : UrlLib := plain_urls.
#[export] Instance rendering_url_laws : UrlLaws := plain_laws.
#[export] Instance rendering_networks : Networks := no_networks.
#[export] Instance rendering_tokens : CssTokens := sample_tokens.

#[export] Instance rendering_edit : UrlEdit := {|
  url_username _ := ""; url_password _ := None; url_query_pairs _ := None;
  url_set_username _ u := u; url_set_password _ u := u; url_replace_pairs _ u := u |}.

#[export] Instance rendering_view : UrlView := {|
  url_view u := MkUrl (url_scheme u) (HostDomain <$> url_host_str u) (url_host_str u);
  url_port_or_known_default _ := Some 443;
  url_path u := u;
  url_to_file_path u := strip_prefix "file://" u;
  url_from_file_path p := Some ("file://" ++ p)%string;
  parse_ip _ := None |}.

#[export] Instance rendering_data : DataUrls := {| data_url_process _ := None |}.
#[export] Instance rendering_encodings : Encodings := {|
  base64_encode := string_of_list_ascii; base64_decode s := Some (as_bytes s);
  manifest_to_json _ := None; manifest_from_json _ := None; repair_from_json _ := None |}.

#[export] Instance rendering_platform : Platform := {|
  is_utf8 _ := true; can_reserve _ := true; typed_css_dependencies _ := None; error_message _ := "" |}.

Definition response (u : url) (status : Z) (media : string) (body : string) : Res LoadedResource :=
  Ok (MkLoaded u [] status (Some media) None [Ok (as_bytes body)] ObservedResponse).

Definition answer_load (u : url) : Res LoadedResource :=
  if bool_decide (u = "https://a/i.png") then response u 200 "image/png" "pixels"
  else if bool_decide (u = "https://a/t.css") then response u 200 "text/css" "@import 't.css';"
  else if bool_decide (u = "file:///home/p/f.png") then response u 200 "image/png" "pixels"
  else response u 404 "text/html" "".

Definition no_answer {A} : Res A := Err (new_error "offprint.browser.cdp_closed" Browser).

(** Names resolve to a public address, paths to themselves. *)
#[export] Instance rendering_environment : Environment := {|
  env_lookup _ := Some [IpV4 (V4 93 184 216 34)];
  env_canonicalize t := match t with ACanonicalize p :: _ => Some p | _ => None end;
  env_faults _ := no_faults;
  env_cancelled _ := false;
  env_unit _ := Ok tt;
  env_navigate _ := no_answer; env_settle _ := no_answer; env_attached _ := no_answer; env_owner_path _ := no_answer;
  env_observe _ := no_answer; env_screenshot _ := no_answer;
  env_load t := match t with ALoad _ _ u _ :: _ => answer_load u | _ => no_answer end;
  env_clock _ := 0; env_open_page _ := no_answer; env_stage _ := None; env_verify_offline _ := no_answer;
  env_requested _ := Nobody; env_timestamp _ := ""; env_disk _ := []; env_taken _ := Z.to_nat 65536;
  page_session := "top" |}.

Definition page_calls : list SinkCall :=
  [ element "html" []; Append 0 (AppendNode 1);
    element "link" [("rel", "stylesheet"); ("href", "t.css")]; Append 1 (AppendNode 2);
    element "img" [("src", "i.png")]; Append 1 (AppendNode 3);
    element "img" [("src", "gone.png")]; Append 1 (AppendNode 4);
    element "img" [("src", "file:///home/p/f.png")]; Append 1 (AppendNode 5);
    element "iframe" [("srcdoc", "inner")]; Append 1 (AppendNode 6) ].

Definition inner_calls : list SinkCall :=
  [ element "html" []; Append 0 (AppendNode 1); element "img" [("src", "i.png")]; Append 1 (AppendNode 2) ].

(** A source set that is one no-break space. *)
Definition blank_calls : list SinkCall :=
  [ element "html" []; Append 0 (AppendNode 1);
    element "img" [("srcset", string_of_list_ascii [byte_of 194; byte_of 160])]; Append 1 (AppendNode 2) ].

#[export] Instance rendering_parser : HtmlParser :=
  {| parser_calls b := if bool_decide (b = as_bytes "inner") then inner_calls
                       else if bool_decide (b = as_bytes "blank") then blank_calls else page_calls |}.

Definition page_request : CaptureRequest :=
  MkRequest PUBLIC_SCHEMA_VERSION "https://a/" (OutputMemory 4096) BrowserAuto None environment_default readiness_default
    (MkContent MissingWarn false ScopePage None (MkOptimization false false false) ["/home/p"])
    credentials_empty Server (MkLimits 1000 0 4 100 20 100 400 1 2 4096 4 4) VerifyStatic (MkDiagnostics None).

Definition page_guard : NetworkGuard := MkGuard Server (Some "a") false [].
Definition page_context : RenderContext := MkContext _ "top" "frame" 1 page_guard page_request "capture".
Definition page_state : Rendering := rendering_new (budget_new (rq_limits page_request)) 2 2 [].

Definition page_run : Res string * Rendering :=
  render_frame_document (render_fuel page_context) (as_bytes "page") "https://a/" 0 page_context page_state.

Example page_rendered :
  is_ok page_run.1 = true /\ rn_next_resource_id page_run.2 = 6 /\
  rs_embedded (rn_summary page_run.2) = 4 /\ rs_failed (rn_summary page_run.2) = 2 /\
  validate_complete page_run.2 = Ok tt /\ existsb is_load (rn_trace page_run.2) = true.
Proof. vm_compute. repeat split; reflexivity. Qed.

Lemma never_disturbed t : ~ disturbed t.
Proof.
  intros (t' & _ & Ht). destruct t' as [|[] t']; try done. destruct Ht as [?|[[? ?]|[?|?]]]; done.
Qed.

Lemma page_request_ok : request_ok page_request.
Proof. split; vm_compute; first [reflexivity|discriminate]. Qed.

Lemma resources_settled_witness :
  rendering_ok page_run.2 /\ rn_next_resource_id page_run.2 = 6 /\ validate_complete page_run.2 = Ok tt.
Proof.
  assert (rendering_ok page_state) as Hs by (apply rendering_new_ok; vm_compute; repeat split; discriminate).
  assert (forall id, 0 <= id < rn_next_resource_id page_state -> is_Some (rn_records page_state !! id)) as Hn.
  { intros id Hid. change (0 <= id < 0) in Hid. exfalso. lia. }
  assert (is_ok page_run.1 = true /\ rn_next_resource_id page_run.2 = 6) as [Hr Hi] by (vm_compute; split; reflexivity).
  pose proof (resources_settled (render_fuel page_context) (as_bytes "page") "https://a/" 0 page_context page_state
    page_request_ok Hs Hn) as H. change (let '(r, s') := page_run in rendering_ok s' /\
    (is_ok r = true -> disturbed (rn_trace s') \/
      ((forall id, 0 <= id < rn_next_resource_id s' -> is_Some (rn_records s' !! id)) /\ validate_complete s' = Ok tt))) in H.
  destruct page_run as [r s']. destruct H as [Hok Hc]. split; [exact Hok|]. split; [exact Hi|].
  destruct (Hc Hr) as [D|[_ Hv]]; [exfalso; exact (never_disturbed _ D)|exact Hv].
Defined.

Lemma resolve_terminates_witness :
  same_runs (resolve_over page_context (fun _ _ _ _ => eerr cancelled_error) 5 "https://a/t.css" RoleStylesheet 0 0)
    (resolve page_context (resolve_fuel page_context) "https://a/t.css" RoleStylesheet 0 0).
Proof. apply resolve_terminates; vm_compute; first [discriminate|repeat constructor]. Defined.

(** ** Two pages that go wrong *)

(** A document whose last source set is one no-break space, or anything else
    that [trim] removes and the source set does not take for white space, cannot
    be captured: the inventory taken before the resources are resolved has no
    entry for it, so the limit of the second inventory leaves no room for the
    candidate that is read before it is trimmed. *)
Theorem blank_candidate_fails :
  (document_resources_bounded (parse (as_bytes "blank")) "https://a/" 20 = Ok (MkDocumentResources [] ∅)) /\
  (render_frame_document (render_fuel page_context) (as_bytes "blank") "https://a/" 0 page_context page_state).1
  = Err resource_limit_error.
Proof. vm_compute. split; reflexivity. Qed.

Definition remote_request : CaptureRequest :=
  MkRequest PUBLIC_SCHEMA_VERSION "https://a/" (OutputMemory 4096) (BrowserRemote "https://b/") None environment_default
    readiness_default (rq_content page_request) credentials_empty Unrestricted
    (rq_limits page_request) VerifyStatic (MkDiagnostics None).

Definition remote_context : RenderContext :=
  MkContext _ "top" "frame" 1 (MkGuard Unrestricted (Some "a") false []) remote_request "capture".

(** Files are loaded through a remote browser. A resource that is loaded when
    it is reached is refused when its address is a file and the browser is remote;
    one that is loaded ahead, as every resource of a document is, is not. *)
Theorem remote_file_prefetched :
  validate remote_request = Ok tt /\
  (load_from_frame remote_context "file:///home/p/f.png" 0 true page_state).1
  = Err (new_error "offprint.input.remote_file" Validation) /\
  existsb (fun a => match a with ALoad _ _ u _ => bool_decide (url_scheme u = "file") | _ => false end)
    (rn_trace (render_frame_document (render_fuel remote_context) (as_bytes "page") "https://a/" 0 remote_context page_state).2)
  = true.
Proof. vm_compute. repeat split; reflexivity. Qed.

(** ** A sample capture

    A page with two attached frames, of which the first is gone from the document
    that was kept of the page. *)

(** The document of the page as it was kept, and as it is when its frame has been
    embedded; the frames have an image. *)
Definition kept_calls : list SinkCall :=
  [ element "html" []; Append 0 (AppendNode 1); element "iframe" []; Append 1 (AppendNode 2) ].

Definition embedded_calls : list SinkCall :=
  [ element "html" []; Append 0 (AppendNode 1);
    element "iframe" [("srcdoc", "inner"); (FRAME_ID_ATTRIBUTE, "3")]; Append 1 (AppendNode 2) ].

#[export] Instance capture_parser : HtmlParser :=
  {| parser_calls b := if bool_decide (b = as_bytes "inner") then inner_calls
                       else if bool_decide (b = as_bytes "kept") then kept_calls
                       else if is_some (String.index 0 "<img" (string_of_list_ascii b)) then inner_calls else embedded_calls |}.

Definition sample_observation (html : string) (owners : list FrameOwnerObservation) : FrameObservation :=
  MkObservation "" html "https://a/" "https://a/" "https://a/" "" "UTF-8" (MkObservedViewport 8 6 "1" "0" "0") 1 3 3 [] []
    (MkSelection 0 0) owners.

Definition answer_observe (session : string) : Res ObservedFrame :=
  if bool_decide (session = "top")
  then Ok (MkObserved (sample_observation "kept" [MkOwner [1] [0]]) 10)
  else Ok (MkObserved (sample_observation "inner" []) 10).

Definition first_frame : AttachedFrame := MkAttached "s2" "t2" "top" "https://a/f".
Definition second_frame : AttachedFrame := MkAttached "s3" "t3" "top" "https://a/g".

#[export] Instance capture_environment : Environment := {|
  env_lookup := env_lookup;
  env_canonicalize := env_canonicalize;
  env_faults := env_faults;
  env_cancelled := env_cancelled;
  env_unit := env_unit;
  env_navigate _ := Ok (MkNavigation "t1" "https://a/" []);
  env_settle _ := Ok (MkReady "idle" 5 0 true true);
  env_attached _ := Ok [first_frame; second_frame];
  env_owner_path t := match t with
                      | AOwnerPath f :: _ => if bool_decide (af_session_id f = "s2") then Ok [0] else Ok [1]
                      | _ => no_answer
                      end;
  env_observe t := match t with AObserve session _ _ :: _ => answer_observe session | _ => no_answer end;
  env_screenshot := env_screenshot;
  env_load := env_load;
  env_clock := env_clock; env_open_page := env_open_page; env_stage := env_stage;
  env_verify_offline := env_verify_offline; env_requested := env_requested; env_timestamp := env_timestamp;
  env_disk := env_disk; env_taken := env_taken;
  page_session := "top" |}.

Definition capture_start : Capturing := MkCapturing (MkMachine WaitingForBrowser) [].
Definition sample_capture : Res CapturedPage * Capturing := capture page_request page_guard "capture" capture_start.

Example sample_captured :
  match sample_capture.1 with
  | Ok page => pg_frames page = 3 /\ rs_embedded (pg_resources page) = 1
  | Err _ => False
  end /\ status (cg_machine sample_capture.2) = ResolvingResources.
Proof. vm_compute. repeat split; reflexivity. Qed.

#[export] Instance capture_page_laws : PageLaws.
Proof. split. intros t attached [= <-]. cbn. repeat constructor; set_solver. Qed.

Definition no_frames : list FrameDescriptor * CaptureBudget * gmap string FrameObservation :=
  ([], budget_new (rq_limits page_request), ∅).

(** What collecting the page and its frames hands on. *)
Definition sample_collection : list FrameDescriptor * CaptureBudget * gmap string FrameObservation :=
  Eval vm_compute in
  match (collect page_request "capture" "t1" capture_start).1 with Ok x => x | Err _ => no_frames end.

Definition sample_trace : Capturing := Eval vm_compute in (collect page_request "capture" "t1" capture_start).2.

Lemma sample_collected : collect page_request "capture" "t1" capture_start = (Ok sample_collection, sample_trace).
Proof. vm_compute. reflexivity. Qed.

Lemma frames_described_witness :
  frame_tree "top" [MkDescriptor 1 "top" "t1" None None 0; MkDescriptor 2 "s2" "t2" (Some "top") (Some [0]) 1;
                    MkDescriptor 3 "s3" "t3" (Some "top") (Some [1]) 1].
Proof.
  refine (proj1 (frames_described "t1" [first_frame; second_frame] 4 4 capture_start _ _ _ _ _ _)).
  - lia.
  - vm_compute. discriminate.
  - apply (attached_distinct []). reflexivity.
  - vm_compute. reflexivity.
Defined.

Definition sample_order : list FrameDescriptor := Eval vm_compute in collection_order sample_collection.1.1.

(** The kept frame is rendered first; the page finds it. *)
Lemma children_rendered_first_witness :
  exists (child top : FrameDescriptor) (rendered : gmap string string), sample_order = [child; top] /\ is_child top child = true /\
    is_Some (rendered !! "s3") /\ fd_owner_path child = Some [0].
Proof.
  pose (child := MkDescriptor 3 "s3" "t3" (Some "top") (Some [0]) 1). pose (top := MkDescriptor 1 "top" "t1" None None 0).
  pose (state := rendering_new sample_collection.1.2 3 3 []).
  pose (run := efold (render_collected page_request page_guard "capture" sample_collection.1.1 sample_collection.2) [child] ∅ state).
  assert (exists rendered state', run = (Ok rendered, state')) as (rendered & state' & E).
  { eexists _, _. vm_compute. reflexivity. }
  exists child, top, rendered. split; [reflexivity|]. split; [reflexivity|]. split; [|reflexivity].
  refine (proj1 (proj2 (children_rendered_first page_request page_guard "capture" "t1" capture_start sample_collection.1.1
    sample_collection.1.2 sample_collection.2 sample_trace [child] top [] rendered state state' _ _ _ _ E) child _)).
  - vm_compute. discriminate.
  - vm_compute. discriminate.
  - exact sample_collected.
  - reflexivity.
  - vm_compute. left.
Defined.

Definition sample_rendering : gmap string string * Rendering :=
  Eval vm_compute in
  match (render_all page_request page_guard "capture" sample_collection.1.1 sample_collection.1.2 sample_collection.2
           sample_trace).1 with
  | Ok x => x
  | Err _ => (∅, rendering_new sample_collection.1.2 0 0 [])
  end.

Definition sample_rendered_trace : Capturing := Eval vm_compute in
  (render_all page_request page_guard "capture" sample_collection.1.1 sample_collection.1.2 sample_collection.2 sample_trace).2.

Lemma sample_rendered :
  render_all page_request page_guard "capture" sample_collection.1.1 sample_collection.1.2 sample_collection.2 sample_trace
  = (Ok (sample_rendering.1, sample_rendering.2), sample_rendered_trace).
Proof. vm_compute. reflexivity. Qed.

Lemma sample_undisturbed t : ~ disturbed t.
Proof.
  intros (t' & _ & Ht). destruct t' as [|[] t']; try done. destruct Ht as [?|[[? ?]|[?|?]]]; done.
Qed.

Lemma page_delivered_witness :
  exists page, finish_page page_request "https://a/" sample_collection.1.1 sample_collection.2 sample_rendering.1
    sample_rendering.2 (MkTimings 0 0 0 0 0 0 0 0 0 0 0) = Ok page.
Proof.
  destruct (page_delivered page_request page_guard "capture" "t1" capture_start sample_collection.1.1 sample_collection.1.2
    sample_collection.2 sample_trace sample_trace sample_rendering.1 sample_rendering.2 sample_rendered_trace "https://a/"
    (MkTimings 0 0 0 0 0 0 0 0 0 0 0)) as [D|(page & E & _)].
  - split; vm_compute; first [reflexivity|discriminate].
  - vm_compute. discriminate.
  - vm_compute. discriminate.
  - vm_compute. split; discriminate.
  - exact sample_collected.
  - exact sample_rendered.
  - exfalso. exact (sample_undisturbed _ D).
  - exists page. exact E.
Defined.

Lemma capture_guarded_witness :
  guarded page_guard ["/home/p"] (cg_trace sample_capture.2) /\ observed page_guard ["/home/p"] (cg_trace sample_capture.2) /\
  existsb is_load (cg_trace sample_capture.2) = true /\ existsb is_observe (cg_trace sample_capture.2) = true.
Proof.
  destruct (capture_guarded page_request page_guard "capture" capture_start) as [Hg Ho].
  - apply guarded_nil.
  - intros s f l t1 t2 E. destruct t1; discriminate E.
  - split; [exact Hg|]. split; [exact Ho|]. vm_compute. split; reflexivity.
Defined.

(** ** A frame that is not kept *)

(** A frame that is not kept is counted and leaves its number behind. The page
    of the sample keeps one of its two frames; the capture succeeds and says it has
    three frames, of which the kept one has the number three and the next inline
    frame would be given the same.  The verification of the artifact counts two
    documents, with the numbers one and three, and wants what the manifest says. *)
Theorem dropped_frame_miscounted :
  match sample_capture.1 with
  | Ok page =>
      pg_frames page = 3 /\
      match collect_frames (parse (pg_html page)) (pg_frames page) (MkFrames 1 {[1]} []) with
      | Ok found => fs_count found = 2 /\ fs_ids found = {[1; 3]}
      | Err _ => False
      end
  | Err _ => False
  end /\
  map fd_frame_id sample_collection.1.1 = [1; 3] /\ next_frame_number sample_collection.1.1 = 3.
Proof. vm_compute. repeat split; reflexivity. Qed.
