(* ===== verification/Events.v ===== *)
(** * The events of a job

    Models [offprint-rs/core/src/capture_service/events.rs]: the journal that
    numbers the events of a capture job, keeps what a late or slow subscriber
    needs and hands every event to the broadcast channel; and the stream a
    subscriber reads, which puts together what the channel delivers and what the
    journal has kept.

    The channel is tokio's.  Its receiver enters by what the documentation says:
    a receiver is given the values sent since it subscribed in their order, and
    when it has fallen behind, it is told so and goes on with a later one.  The
    theorems are about every history of emissions and polls, an invariant by rule
    induction. *)

From Stdlib Require Import ZArith Lia Ascii String.
From stdpp Require Import base tactics list gmap strings numbers sorting relations.
From S2P Require Import Prelude.
From S2P Require Import Errors.
From S2P Require Import Requests.
From S2P Require Import Schedule.
From S2P Require Import Html.
From S2P Require Import Browser.

#[local] Open Scope Z_scope.
#[local] Open Scope list_scope.

Definition EVENT_CAPACITY : Z := 16384.

Record EventEnvelope := MkEnvelope { ee_sequence : Z; ee_event : CaptureEvent }.

Inductive Retention := Guaranteed | Detail | Progress.

#[export] Instance Retention_eq_dec : EqDecision Retention.
Proof. solve_decision. Defined.

Definition retention (e : CaptureEvent) : Retention :=
  match e with
  | CaptureStarted _ | BrowserReady _ _ | NavigationStarted _ _ | ReadinessChanged _ _ _ | TransformStarted _
  | ArtifactEncoding _ _ | VerificationStarted _ | CaptureSucceeded _ _ | CaptureFailed _ _ | CaptureCancelled _ =>
      Guaranteed
  | ResourceProgress _ _ _ _ => Progress
  | NavigationRedirected _ _ _ _ | FrameCollected _ _ _ | ResourceDiscovered _ _ | EventWarning _ _ => Detail
  end.

Record RetainedEvents := MkRetained {
  re_guaranteed : list EventEnvelope;
  re_details : list EventEnvelope;
  re_latest_progress : option EventEnvelope;
}.

(** [jo_sent] is what was handed to the channel. *)
Record EventJournal := MkEventJournal {
  jo_sequence : Z;
  jo_retained : RetainedEvents;
  jo_sent : list EventEnvelope;
}.

Definition journal_new : EventJournal := MkEventJournal 0 (MkRetained [] [] None) [].

Definition retain (e : EventEnvelope) (r : RetainedEvents) : RetainedEvents :=
  match retention (ee_event e) with
  | Guaranteed => MkRetained (re_guaranteed r ++ [e]) (re_details r) (re_latest_progress r)
  | Detail =>
      let details := if Z.of_nat (length (re_details r)) =? EVENT_CAPACITY then tail (re_details r) else re_details r in
      MkRetained (re_guaranteed r) (details ++ [e]) (re_latest_progress r)
  | Progress => MkRetained (re_guaranteed r) (re_details r) (Some e)
  end.

(** [emit_with], less what the observer does with the event.  [fetch_add] wraps. *)
Definition emit_with (event : CaptureEvent) (j : EventJournal) : EventJournal :=
  let sequence := (jo_sequence j + 1) mod (u64_max + 1) in
  let e := MkEnvelope sequence event in
  MkEventJournal sequence (retain e (jo_retained j)) (jo_sent j ++ [e]).

Definition event_is_between (low : Z) (before : option Z) (e : EventEnvelope) : bool :=
  (low <? ee_sequence e) && match before with None => true | Some limit => ee_sequence e <? limit end.

Definition sequence_le (a b : EventEnvelope) : Prop := ee_sequence a <= ee_sequence b.

#[export] Instance sequence_le_dec a b : Decision (sequence_le a b).
Proof. unfold sequence_le. apply _. Defined.

Definition retained_list (r : RetainedEvents) : list EventEnvelope :=
  re_guaranteed r ++ re_details r ++ option_list (re_latest_progress r).

Definition retained_after (low : Z) (before : option Z) (r : RetainedEvents) : list EventEnvelope :=
  merge_sort sequence_le (List.filter (event_is_between low before) (retained_list r)).

(** ** The stream of a subscriber *)

(** [CaptureEvents]; [st_position] is where its receiver is in what was sent. *)
Record CaptureEvents := MkStream {
  st_pending : list EventEnvelope;
  st_last_sequence : Z;
  st_terminal_seen : bool;
  st_position : nat;
}.

Definition subscribe_events (j : EventJournal) : CaptureEvents :=
  MkStream (retained_after 0 None (jo_retained j)) 0 false (length (jo_sent j)).

Definition next_pending (s : CaptureEvents) : option (EventEnvelope * CaptureEvents) :=
  match st_pending s with
  | [] => None
  | e :: pending =>
      Some (e, MkStream pending (Z.max (st_last_sequence s) (ee_sequence e))
                 (st_terminal_seen s || event_is_terminal (ee_event e)) (st_position s))
  end.

(** What the receiver of the channel answers. *)
Inductive Received := Item (e : EventEnvelope) | Lagged | Closed | NothingYet.

(** A turn of the loop of [poll_next]: an event, the end, nothing for now, or
    another turn. *)
Inductive Poll := ReadyEvent (e : EventEnvelope) | ReadyEnd | NotReady | Again.

Definition receive_answer (j : EventJournal) (a : Received) (position : nat) (s : CaptureEvents) : Poll * CaptureEvents :=
  let with_pending p := MkStream p (st_last_sequence s) (st_terminal_seen s) position in
  match a with
  | Item e =>
      if ee_sequence e <=? st_last_sequence s then (Again, with_pending (st_pending s))
      else (Again, with_pending
                     (st_pending s ++ retained_after (st_last_sequence s) (Some (ee_sequence e)) (jo_retained j) ++ [e]))
  | Lagged => (Again, with_pending (st_pending s ++ retained_after (st_last_sequence s) None (jo_retained j)))
  | Closed => (ReadyEnd, with_pending (st_pending s))
  | NothingYet => (NotReady, with_pending (st_pending s))
  end.

Definition poll_turn (j : EventJournal) (a : Received) (position : nat) (s : CaptureEvents) : Poll * CaptureEvents :=
  match next_pending s with
  | Some (e, s') => (ReadyEvent e, s')
  | None => if st_terminal_seen s then (ReadyEnd, s) else receive_answer j a position s
  end.

(** The receiver at a position, its answer and where it is afterwards. *)
Inductive recv (sent : list EventEnvelope) (position : nat) : Received -> nat -> Prop :=
| recv_item e : sent !! position = Some e -> recv sent position (Item e) (S position)
| recv_lagged later : (position < later <= length sent)%nat -> recv sent position Lagged later
| recv_nothing : position = length sent -> recv sent position NothingYet position
| recv_closed : position = length sent -> recv sent position Closed position.

(** ** Histories *)

(** A journal, a subscriber and what it was given. *)
Record World := MkWorld { wo_journal : EventJournal; wo_stream : CaptureEvents; wo_delivered : list EventEnvelope }.

Inductive world_step : World -> World -> Prop :=
| step_emit w event :
    Z.of_nat (length (jo_sent (wo_journal w))) < u64_max ->
    world_step w (MkWorld (emit_with event (wo_journal w)) (wo_stream w) (wo_delivered w))
| step_poll w a position p s' :
    recv (jo_sent (wo_journal w)) (st_position (wo_stream w)) a position ->
    poll_turn (wo_journal w) a position (wo_stream w) = (p, s') ->
    world_step w (MkWorld (wo_journal w) s' (wo_delivered w ++ match p with ReadyEvent e => [e] | _ => [] end)).

(** A subscriber that comes after any number of events. *)
Definition world_of (j : EventJournal) : World := MkWorld j (subscribe_events j) [].

Inductive journal_steps : EventJournal -> Prop :=
| journal_start : journal_steps journal_new
| journal_emit j event :
    journal_steps j -> Z.of_nat (length (jo_sent j)) < u64_max -> journal_steps (emit_with event j).

Definition reachable_world (w : World) : Prop := exists j, journal_steps j /\ rtc world_step (world_of j) w.

(** ** The journal *)

Definition is_kind (k : Retention) (e : EventEnvelope) : bool := bool_decide (retention (ee_event e) = k).

Record journal_ok (j : EventJournal) : Prop := {
  jk_sequences : map ee_sequence (jo_sent j) = seqZ 1 (Z.of_nat (length (jo_sent j)));
  jk_sequence : jo_sequence j = Z.of_nat (length (jo_sent j));
  jk_bound : Z.of_nat (length (jo_sent j)) <= u64_max;
  jk_guaranteed : re_guaranteed (jo_retained j) = List.filter (is_kind Guaranteed) (jo_sent j);
  jk_details : re_details (jo_retained j) `sublist_of` List.filter (is_kind Detail) (jo_sent j);
  jk_progress : re_latest_progress (jo_retained j) = last (List.filter (is_kind Progress) (jo_sent j));
}.

Lemma journal_new_ok : journal_ok journal_new.
Proof. split; cbn; try done. Qed.

Lemma filter_snoc {A} (p : A -> bool) l x :
  List.filter p (l ++ [x]) = List.filter p l ++ (if p x then [x] else []).
Proof. rewrite List.filter_app. cbn. by destruct (p x). Qed.

Lemma emit_ok event j : journal_ok j -> Z.of_nat (length (jo_sent j)) < u64_max -> journal_ok (emit_with event j).
Proof.
  intros [Hq Hn Hb Hg Hd Hp] Hroom. unfold emit_with. rewrite Hn, Z.mod_small by lia.
  set (e := MkEnvelope _ event). unfold retain. split; cbn [jo_sent jo_sequence jo_retained]; rewrite ?length_app, ?filter_snoc.
  - rewrite map_app, Hq, Nat2Z.inj_add, seqZ_app by lia. cbn. by rewrite Z.add_comm.
  - cbn [length]. lia.
  - cbn [length]. lia.
  - unfold is_kind at 2. destruct (retention _); cbn; rewrite ?app_nil_r; by rewrite Hg.
  - unfold is_kind at 2. destruct (retention _); cbn -[EVENT_CAPACITY]; rewrite ?app_nil_r; try done.
    apply sublist_app; [|done]. destruct (_ =? _); [|done]. destruct (re_details (jo_retained j)); [done|].
    cbn. etrans; [|exact Hd]. by apply sublist_cons.
  - unfold is_kind at 2. destruct (retention _); cbn -[last]; rewrite ?app_nil_r; try done. rewrite bool_decide_eq_true_2 by done. by rewrite last_snoc.
Qed.

Lemma journal_steps_ok j : journal_steps j -> journal_ok j.
Proof. induction 1; [apply journal_new_ok|by apply emit_ok]. Qed.

(** *** What is retained *)

Lemma sublist_in {A} (l k : list A) x : l `sublist_of` k -> x ∈ l -> x ∈ k.
Proof. induction 1; rewrite ?elem_of_cons; naive_solver. Qed.

Lemma in_filter {A} (p : A -> bool) l x : x ∈ List.filter p l <-> x ∈ l /\ p x = true.
Proof. rewrite !list_elem_of_In. apply filter_In. Qed.

Lemma last_in {A} (l : list A) x : last l = Some x -> x ∈ l.
Proof. intros (k & ->)%last_Some. apply elem_of_app. right. by left. Qed.

Section Journal.
Context (j : EventJournal) (Hj : journal_ok j).

Lemma sent_sequence i e : jo_sent j !! i = Some e -> ee_sequence e = Z.of_nat i + 1.
Proof using Hj.
  intros Hi. apply (list_lookup_fmap_Some_2 ee_sequence) in Hi. change (ee_sequence <$> jo_sent j) with (map ee_sequence (jo_sent j)) in Hi.
  rewrite (jk_sequences _ Hj) in Hi. apply lookup_seqZ in Hi as [-> _]. lia.
Qed.

Lemma sent_unique e e' : e ∈ jo_sent j -> e' ∈ jo_sent j -> ee_sequence e = ee_sequence e' -> e = e'.
Proof using Hj.
  intros (i & Hi)%list_elem_of_lookup (i' & Hi')%list_elem_of_lookup E.
  pose proof (sent_sequence i e Hi). pose proof (sent_sequence i' e' Hi'). assert (i = i') as -> by lia. congruence.
Qed.

Lemma sent_positive e : e ∈ jo_sent j -> 0 < ee_sequence e.
Proof using Hj. intros (i & Hi)%list_elem_of_lookup. pose proof (sent_sequence i e Hi). lia. Qed.

Lemma sent_sublist_sequences l : l `sublist_of` jo_sent j -> NoDup (map ee_sequence l).
Proof using Hj.
  intros Hs. eapply sublist_NoDup; [|apply fmap_sublist; exact Hs]. change (ee_sequence <$> jo_sent j) with (map ee_sequence (jo_sent j)).
  rewrite (jk_sequences _ Hj). apply NoDup_seqZ.
Qed.

Lemma retained_sent e : e ∈ retained_list (jo_retained j) -> e ∈ jo_sent j.
Proof using Hj.
  unfold retained_list. rewrite !elem_of_app. intros [He|[He|He]].
  - rewrite (jk_guaranteed _ Hj) in He. by apply in_filter in He as [? _].
  - apply (sublist_in _ _ _ (jk_details _ Hj)) in He. by apply in_filter in He as [? _].
  - rewrite (jk_progress _ Hj) in He. destruct (last _) as [x|] eqn:E; cbn in He; [|by apply elem_of_nil in He].
    apply list_elem_of_singleton in He as ->. apply last_in, in_filter in E. naive_solver.
Qed.

Lemma guaranteed_kind e : e ∈ re_guaranteed (jo_retained j) -> retention (ee_event e) = Guaranteed.
Proof using Hj. rewrite (jk_guaranteed _ Hj), in_filter. intros [_ He]. by apply bool_decide_eq_true in He. Qed.

Lemma detail_kind e : e ∈ re_details (jo_retained j) -> retention (ee_event e) = Detail.
Proof using Hj.
  intros He. apply (sublist_in _ _ _ (jk_details _ Hj)), in_filter in He as [_ He]. by apply bool_decide_eq_true in He.
Qed.

Lemma progress_kind e : e ∈ option_list (re_latest_progress (jo_retained j)) -> retention (ee_event e) = Progress.
Proof using Hj.
  rewrite (jk_progress _ Hj). destruct (last _) as [x|] eqn:E; cbn; [|by intros ?%elem_of_nil].
  intros ->%list_elem_of_singleton. apply last_in, in_filter in E as [_ E]. by apply bool_decide_eq_true in E.
Qed.

Lemma filter_sublist {A} (p : A -> bool) (l : list A) : List.filter p l `sublist_of` l.
Proof using Type. induction l as [|x l IH]; cbn; [done|]. destruct (p x); by constructor. Qed.

Lemma sent_nodup : NoDup (jo_sent j).
Proof using Hj. apply (NoDup_fmap_1 ee_sequence). exact (sent_sublist_sequences (jo_sent j) (reflexivity _)). Qed.

Lemma retained_sequences : NoDup (map ee_sequence (retained_list (jo_retained j))).
Proof using Hj.
  apply NoDup_fmap_2_strong; [intros x y Hx Hy; apply sent_unique; by apply retained_sent|].
  pose proof sent_nodup as Hn. unfold retained_list.
  apply NoDup_app. split; [rewrite (jk_guaranteed _ Hj); eapply sublist_NoDup; [exact Hn|apply filter_sublist]|]. split.
  { intros e He%guaranteed_kind [He'%detail_kind|He'%progress_kind]%elem_of_app; congruence. }
  apply NoDup_app. split; [eapply sublist_NoDup; [exact Hn|]; etrans; [apply (jk_details _ Hj)|apply filter_sublist]|]. split.
  { intros e He%detail_kind He'%progress_kind; congruence. }
  destruct (re_latest_progress _); [apply NoDup_singleton|constructor].
Qed.

Lemma retained_after_in low before e :
  e ∈ retained_after low before (jo_retained j) <->
  e ∈ retained_list (jo_retained j) /\ low < ee_sequence e /\ match before with None => True | Some n => ee_sequence e < n end.
Proof using Type.
  unfold retained_after. rewrite merge_sort_Permutation, in_filter. unfold event_is_between. rewrite andb_true_iff, Z.ltb_lt.
  destruct before; [rewrite Z.ltb_lt|]; naive_solver.
Qed.
End Journal.

#[export] Instance sequence_le_trans : Transitive sequence_le.
Proof. intros a b c. unfold sequence_le. lia. Qed.
#[export] Instance sequence_le_total : Total sequence_le.
Proof. intros a b. unfold sequence_le. lia. Qed.

Abbreviation in_order l := (StronglySorted Z.lt (map ee_sequence l)).

(** Sorted without repetition is strictly sorted. *)
Lemma strictly_sorted l : StronglySorted sequence_le l -> NoDup (map ee_sequence l) -> in_order l.
Proof.
  induction 1 as [|e l _ IH Hall]; cbn; [constructor|]. intros [Hfresh Hn]%NoDup_cons. constructor; [by apply IH|].
  apply list.Forall_forall. intros z Hz. pose proof Hz as (x & -> & Hx)%list_elem_of_fmap. rewrite list.Forall_forall in Hall.
  specialize (Hall x Hx). unfold sequence_le in Hall. assert (ee_sequence e <> ee_sequence x); [|lia]. intros E. apply Hfresh. by rewrite E.
Qed.

Lemma retained_after_sorted j low before : journal_ok j -> in_order (retained_after low before (jo_retained j)).
Proof.
  intros Hj. apply strictly_sorted; [apply StronglySorted_merge_sort; apply _|]. unfold retained_after.
  rewrite merge_sort_Permutation. eapply sublist_NoDup; [apply (retained_sequences j Hj)|]. apply fmap_sublist, filter_sublist.
Qed.

Lemma in_order_app l k : in_order l -> in_order k -> (forall e e', e ∈ l -> e' ∈ k -> ee_sequence e < ee_sequence e') -> in_order (l ++ k).
Proof.
  induction l as [|e l IH]; intros Hl Hk Hlt; [done|]. cbn in *. inversion Hl; simplify_eq. constructor.
  - apply IH; [done..|]. intros x y Hx. apply Hlt. by right.
  - rewrite map_app. apply Forall_app. split; [done|]. apply list.Forall_forall. intros z (x & -> & Hx)%list_elem_of_fmap.
    apply Hlt; [left|done].
Qed.

(** ** The invariant of a history *)

Definition heard (w : World) : list EventEnvelope := wo_delivered w ++ st_pending (wo_stream w).

Record world_ok (w : World) : Prop := {
  wk_journal : journal_ok (wo_journal w);
  wk_order : in_order (heard w);
  wk_sent e : e ∈ heard w -> e ∈ jo_sent (wo_journal w);
  wk_last : st_last_sequence (wo_stream w) = match last (wo_delivered w) with Some e => ee_sequence e | None => 0 end;
  wk_complete e d : e ∈ retained_list (jo_retained (wo_journal w)) -> d ∈ heard w -> ee_sequence e <= ee_sequence d -> e ∈ heard w;
  wk_position : (st_position (wo_stream w) <= length (jo_sent (wo_journal w)))%nat;
  wk_behind e i : e ∈ retained_list (jo_retained (wo_journal w)) -> jo_sent (wo_journal w) !! i = Some e ->
    (i < st_position (wo_stream w))%nat -> e ∈ heard w;
  wk_terminal : st_terminal_seen (wo_stream w) = existsb (fun e => event_is_terminal (ee_event e)) (wo_delivered w);
}.

(** What is retained after an event is that event or was retained before. *)
Lemma retain_old e r x : x ∈ retained_list (retain e r) -> x = e \/ x ∈ retained_list r.
Proof.
  unfold retain, retained_list. destruct (retention _); cbn [re_guaranteed re_details re_latest_progress option_list];
    rewrite !elem_of_app, ?list_elem_of_singleton; try tauto.
  - destruct (_ =? _); [|tauto]. destruct (re_details r) as [|y l]; cbn [tail]; [tauto|]. rewrite elem_of_cons. tauto.
  - change (option_list (Some e)) with [e]. rewrite list_elem_of_singleton. tauto.
Qed.

Lemma in_order_last l e d : in_order (l ++ [d]) -> e ∈ l -> ee_sequence e < ee_sequence d.
Proof.
  rewrite map_app. intros Hs He. apply (StronglySorted_app_1_elem_of _ (map ee_sequence l) [ee_sequence d]); [done| |by left].
  by apply list_elem_of_fmap_2.
Qed.

Lemma heard_last w e : world_ok w -> e ∈ wo_delivered w -> ee_sequence e <= st_last_sequence (wo_stream w).
Proof.
  intros Hw He. rewrite (wk_last _ Hw). destruct (last (wo_delivered w)) as [d|] eqn:E.
  - apply last_Some in E as [l E]. pose proof (wk_order _ Hw) as Ho. unfold heard in Ho. rewrite E, map_app in Ho.
    apply StronglySorted_app_1_l in Ho. rewrite E in He. apply elem_of_app in He as [He| ->%list_elem_of_singleton]; [|lia].
    pose proof (in_order_last l e d Ho He). lia.
  - apply last_None in E. rewrite E in He. by apply elem_of_nil in He.
Qed.

(** What is retained up to the last event given out was given out. *)
Lemma retained_given w e : world_ok w -> e ∈ retained_list (jo_retained (wo_journal w)) ->
  ee_sequence e <= st_last_sequence (wo_stream w) -> e ∈ heard w.
Proof.
  intros Hw He Hl. rewrite (wk_last _ Hw) in Hl. destruct (last (wo_delivered w)) as [d|] eqn:E.
  - eapply (wk_complete _ Hw); [done| |exact Hl]. apply elem_of_app. left. by apply last_in.
  - pose proof (sent_positive _ (wk_journal _ Hw) e (retained_sent _ (wk_journal _ Hw) e He)). lia.
Qed.

Lemma world_of_ok j : journal_steps j -> world_ok (world_of j).
Proof.
  intros Hj%journal_steps_ok. split; unfold heard; cbn; try done.
  - by apply retained_after_sorted.
  - intros e [He _]%retained_after_in. by apply retained_sent.
  - intros e d He _ _. apply retained_after_in. split; [done|]. split; [|done]. apply (sent_positive j Hj), (retained_sent j Hj), He.
  - intros e i He _ _. apply retained_after_in. split; [done|]. split; [|done]. apply (sent_positive j Hj), (retained_sent j Hj), He.
Qed.

Lemma emit_kept event w : world_ok w -> Z.of_nat (length (jo_sent (wo_journal w))) < u64_max ->
  world_ok (MkWorld (emit_with event (wo_journal w)) (wo_stream w) (wo_delivered w)).
Proof.
  intros Hw Hroom. pose proof (emit_ok event _ (wk_journal _ Hw) Hroom) as Hj'. pose proof Hw as [Hj Ho Hs Hl Hc Hp Hb Ht].
  unfold emit_with in *. set (e := MkEnvelope _ event) in *. set (j' := MkEventJournal _ _ _) in *.
  assert (Hseq : ee_sequence e = Z.of_nat (length (jo_sent (wo_journal w))) + 1).
  { apply (sent_sequence j' Hj'). cbn. by rewrite lookup_app_r, Nat.sub_diag by lia. }
  assert (Hold : forall d, d ∈ jo_sent (wo_journal w) -> ee_sequence d < ee_sequence e).
  { intros d (i & Hi)%list_elem_of_lookup. rewrite Hseq, (sent_sequence _ Hj i d Hi). apply lookup_lt_Some in Hi. lia. }
  split; cbn [wo_journal wo_stream wo_delivered]; try done.
  - intros x Hx. cbn. apply elem_of_app. left. by apply Hs.
  - intros x d Hx Hd Hle. apply retain_old in Hx as [->|Hx]; [|by eapply Hc]. specialize (Hold d (Hs d Hd)). lia.
  - cbn. rewrite length_app. lia.
  - intros x i Hx Hi Hlt. assert (i < length (jo_sent (wo_journal w)))%nat as Hi'.
    { lia. }
    cbn in Hi. rewrite lookup_app_l in Hi by done. apply retain_old in Hx as [->|Hx]; [|by eapply Hb].
    apply list_elem_of_lookup_2 in Hi. specialize (Hold e Hi). lia.
Qed.

(** Answers that leave events pending: all of them later than what was given. *)
Lemma received_kept w (pending : list EventEnvelope) position :
  world_ok w -> st_pending (wo_stream w) = [] -> in_order pending ->
  (forall e, e ∈ pending -> e ∈ jo_sent (wo_journal w) /\ st_last_sequence (wo_stream w) < ee_sequence e) ->
  (forall e d, e ∈ retained_list (jo_retained (wo_journal w)) -> d ∈ pending -> st_last_sequence (wo_stream w) < ee_sequence e ->
     ee_sequence e <= ee_sequence d -> e ∈ pending) ->
  (position <= length (jo_sent (wo_journal w)))%nat ->
  (forall e i, e ∈ retained_list (jo_retained (wo_journal w)) -> jo_sent (wo_journal w) !! i = Some e -> (i < position)%nat ->
     st_last_sequence (wo_stream w) < ee_sequence e -> e ∈ pending) ->
  world_ok (MkWorld (wo_journal w)
              (MkStream pending (st_last_sequence (wo_stream w)) (st_terminal_seen (wo_stream w)) position) (wo_delivered w ++ [])).
Proof.
  intros Hw Hempty Hord Hnew Hall Hpos Hbeh. pose proof Hw as [Hj Ho Hs Hl Hc Hp Hb Ht].
  assert (Hheard : heard w = wo_delivered w) by (unfold heard; by rewrite Hempty, app_nil_r).
  assert (Hgiven : forall e, e ∈ retained_list (jo_retained (wo_journal w)) -> ee_sequence e <= st_last_sequence (wo_stream w) ->
    e ∈ wo_delivered w) by (intros; rewrite <- Hheard; by apply retained_given).
  rewrite app_nil_r. split; unfold heard; cbn; try done.
  - apply in_order_app; [by rewrite <- Hheard|done|]. intros e e' He He'. pose proof (heard_last w e Hw He). apply Hnew in He'. lia.
  - intros e [He|He]%elem_of_app; [apply Hs; by rewrite Hheard|by apply Hnew].
  - intros e d He Hd Hle. destruct (Z.leb_spec (ee_sequence e) (st_last_sequence (wo_stream w))).
    { apply elem_of_app. left. by apply Hgiven. }
    apply elem_of_app in Hd as [Hd|Hd]; [pose proof (heard_last w d Hw Hd); lia|]. apply elem_of_app. right. by eapply Hall.
  - intros e i He Hi Hlt. destruct (Z.leb_spec (ee_sequence e) (st_last_sequence (wo_stream w))).
    { apply elem_of_app. left. by apply Hgiven. }
    apply elem_of_app. right. by eapply Hbeh.
Qed.

Lemma pop_kept w e pending : world_ok w -> st_pending (wo_stream w) = e :: pending ->
  world_ok (MkWorld (wo_journal w)
              (MkStream pending (Z.max (st_last_sequence (wo_stream w)) (ee_sequence e))
                 (st_terminal_seen (wo_stream w) || event_is_terminal (ee_event e)) (st_position (wo_stream w)))
              (wo_delivered w ++ [e])).
Proof.
  intros Hw Hpending. pose proof Hw as [Hj Ho Hs Hl Hc Hp Hb Ht].
  assert (Hheard : heard w = (wo_delivered w ++ [e]) ++ pending) by (unfold heard; by rewrite Hpending, <- app_assoc).
  split; unfold heard; cbn; rewrite <- ?Hheard; try done.
  - rewrite last_snoc. apply Z.max_r. rewrite Hl. destruct (last (wo_delivered w)) as [d|] eqn:E.
    + rewrite Hheard, map_app in Ho. apply StronglySorted_app_1_l in Ho. apply last_in in E. pose proof (in_order_last _ d e Ho E). lia.
    + assert (He : e ∈ heard w) by (rewrite Hheard; apply elem_of_app; left; apply elem_of_app; right; by left).
      pose proof (sent_positive _ Hj e (Hs e He)). lia.
  - rewrite existsb_app, Ht. cbn. by rewrite orb_false_r.
Qed.

Lemma step_kept w w' : world_step w w' -> world_ok w -> world_ok w'.
Proof.
  intros [w0 event Hroom|w0 a position p s' Hr Hturn] Hw; [by apply emit_kept|].
  unfold poll_turn, next_pending in Hturn. destruct (st_pending (wo_stream w0)) as [|e pending] eqn:Hpending.
  2:{ simplify_eq. by apply pop_kept. }
  pose proof (wk_journal _ Hw) as Hj. pose proof (wk_position _ Hw) as Hpos.
  destruct (st_terminal_seen (wo_stream w0)) eqn:Hterm.
  { simplify_eq. rewrite app_nil_r. by destruct w0. }
  unfold receive_answer in Hturn. rewrite Hpending in Hturn. cbn [app] in Hturn. destruct Hr as [e Hi|later Hlater|Hend|Hend].
  - pose proof (sent_sequence _ Hj _ _ Hi) as Hseq. apply lookup_lt_Some in Hi as Hlen.
    assert (Hbefore : forall d i, jo_sent (wo_journal w0) !! i = Some d -> (i < S (st_position (wo_stream w0)))%nat ->
      ee_sequence d <= ee_sequence e).
    { intros d i Hd Hlt. rewrite (sent_sequence _ Hj _ _ Hd). lia. }
    destruct (Z.leb_spec (ee_sequence e) (st_last_sequence (wo_stream w0))); simplify_eq; apply received_kept; try done.
    + constructor.
    + by intros d ?%elem_of_nil.
    + by intros d d' _ ?%elem_of_nil.
    + intros d i _ Hd Hlt Hlast. specialize (Hbefore d i Hd Hlt). lia.
    + apply in_order_app; [by apply retained_after_sorted|repeat constructor|].
      intros x y (_ & _ & Hx)%retained_after_in ->%list_elem_of_singleton. done.
    + intros d [Hd| ->%list_elem_of_singleton]%elem_of_app.
      * apply retained_after_in in Hd as (Hd & ? & _). split; [by apply retained_sent|done].
      * split; [by eapply list_elem_of_lookup_2|done].
    + intros d d' Hd Hd' Hlast Hle. assert (ee_sequence d <= ee_sequence e).
      { apply elem_of_app in Hd' as [(_ & _ & ?)%retained_after_in| ->%list_elem_of_singleton]; lia. }
      apply elem_of_app. destruct (decide (ee_sequence d = ee_sequence e)) as [E|E].
      * right. apply list_elem_of_singleton. apply (sent_unique _ Hj); [by apply retained_sent|by eapply list_elem_of_lookup_2|done].
      * left. apply retained_after_in. split; [done|]. split; [done|lia].
    + intros d i Hd Hdi Hlt Hlast. specialize (Hbefore d i Hdi Hlt).
      apply elem_of_app. destruct (decide (ee_sequence d = ee_sequence e)) as [E|E].
      * right. apply list_elem_of_singleton. apply (sent_unique _ Hj); [by apply retained_sent|by eapply list_elem_of_lookup_2|done].
      * left. apply retained_after_in. split; [done|]. split; [done|lia].
  - simplify_eq. apply received_kept; try done; try lia.
    + by apply retained_after_sorted.
    + intros d (Hd & ? & _)%retained_after_in. split; [by apply retained_sent|done].
    + intros d d' Hd _ Hlast _. by apply retained_after_in.
    + intros d i Hd _ _ Hlast. by apply retained_after_in.
  - simplify_eq. rewrite app_nil_r. destruct w0 as [? [] ?]; cbn in *. by subst.
  - simplify_eq. rewrite app_nil_r. destruct w0 as [? [] ?]; cbn in *. by subst.
Qed.

Lemma reachable_ok w : reachable_world w -> world_ok w.
Proof.
  intros (j & Hj & Hrun). assert (Hw : world_ok (world_of j)) by by apply world_of_ok. revert Hw.
  induction Hrun; [done|]. intros Hw. apply IHHrun. by eapply step_kept.
Qed.

(** ** Properties *)

(** Everything the journal keeps for good. *)
Lemma guaranteed_retained j e : journal_ok j -> e ∈ jo_sent j -> retention (ee_event e) = Guaranteed ->
  e ∈ retained_list (jo_retained j).
Proof.
  intros Hj He Hk. unfold retained_list. apply elem_of_app. left. rewrite (jk_guaranteed _ Hj). apply in_filter.
  split; [done|]. by apply bool_decide_eq_true.
Qed.

(** C18: a subscriber is told the history of the job. Whenever it subscribes, and
    however far it falls behind, the events it is given are events of the job in
    the order they were emitted, none twice; before an event it has been given
    every earlier one that starts, ends or advances the job; and once it has read
    all that was sent and has nothing pending, it has been given everything the
    journal retains: those events, the latest details and the latest progress. *)
Theorem events_delivered w :
  reachable_world w ->
  in_order (wo_delivered w) /\
  (forall e, e ∈ wo_delivered w -> e ∈ jo_sent (wo_journal w)) /\
  (forall e d, e ∈ jo_sent (wo_journal w) -> retention (ee_event e) = Guaranteed -> d ∈ wo_delivered w ->
     ee_sequence e <= ee_sequence d -> e ∈ wo_delivered w) /\
  (st_pending (wo_stream w) = [] -> st_position (wo_stream w) = length (jo_sent (wo_journal w)) ->
     forall e, e ∈ retained_list (jo_retained (wo_journal w)) -> e ∈ wo_delivered w).
Proof.
  intros Hw%reachable_ok. pose proof Hw as [Hj Ho Hs Hl Hc Hp Hb Ht]. unfold heard in *. split_and!.
  - rewrite map_app in Ho. by apply StronglySorted_app_1_l in Ho.
  - intros e He. apply Hs, elem_of_app. by left.
  - intros e d He Hk Hd Hle. pose proof (Hc e d (guaranteed_retained _ e Hj He Hk)) as Hin.
    destruct (elem_of_app (wo_delivered w) (st_pending (wo_stream w)) e) as [Hsplit _].
    destruct (Hsplit (Hin ltac:(apply elem_of_app; by left) Hle)) as [?|Hpend]; [done|].
    exfalso. rewrite map_app in Ho.
    pose proof (StronglySorted_app_1_elem_of _ _ _ _ _ Ho (list_elem_of_fmap_2 ee_sequence _ _ Hd) (list_elem_of_fmap_2 ee_sequence _ _ Hpend)).
    lia.
  - intros Hempty Hpos e He. pose proof (retained_sent _ Hj e He) as (i & Hi)%list_elem_of_lookup.
    pose proof (Hb e i He Hi) as Hin. rewrite Hempty, app_nil_r in Hin. apply Hin. rewrite Hpos. by eapply lookup_lt_Some.
Qed.

(** Three events before the subscription and one after, of which the receiver is
    told late. *)
Definition sample_journal : EventJournal :=
  emit_with (ResourceProgress "c" 2 2 9) (emit_with (ResourceProgress "c" 1 2 4) (emit_with (CaptureStarted "c") journal_new)).

Definition drain (n : nat) (w : World) : World :=
  Nat.iter n (fun w =>
    let '(p, s) := poll_turn (wo_journal w) Lagged (length (jo_sent (wo_journal w))) (wo_stream w) in
    MkWorld (wo_journal w) s (wo_delivered w ++ match p with ReadyEvent e => [e] | _ => [] end)) w.

Definition sample_world : World :=
  drain 4 (MkWorld (emit_with (CaptureCancelled "c") sample_journal) (subscribe_events sample_journal) []).

Lemma sample_reachable : reachable_world sample_world.
Proof.
  exists sample_journal. split; [repeat constructor|].
  eapply rtc_l; [apply (step_emit _ (CaptureCancelled "c")); reflexivity|].
  do 3 (eapply rtc_l; [eapply (step_poll _ Lagged 4); [constructor; cbn; lia|reflexivity]|]).
  eapply rtc_l; [eapply (step_poll _ NothingYet 4); [constructor; reflexivity|reflexivity]|]. apply rtc_refl.
Qed.

Lemma events_delivered_witness :
  map ee_sequence (wo_delivered sample_world) = [1; 3; 4] /\ in_order (wo_delivered sample_world) /\
  MkEnvelope 1 (CaptureStarted "c") ∈ wo_delivered sample_world.
Proof.
  destruct (events_delivered sample_world sample_reachable) as (Ho & _ & Hg & _).
  split; [vm_compute; reflexivity|]. split; [exact Ho|].
  apply (Hg _ (MkEnvelope 4 (CaptureCancelled "c"))).
  - vm_compute. left.
  - reflexivity.
  - vm_compute. right. right. left.
  - vm_compute. discriminate.
Defined.
