(* ===== verification/Diagnostics.v ===== *)
(** * Diagnostics of failed captures

    Models [offprint-rs/core/src/diagnostics.rs] and
    [core/src/capture_service/diagnostics.rs]: what is recorded of the events and
    of the request of a capture, and the bundle that is written when it fails.

    A JSON value is a tree; the fields of an object are listed as the code writes
    them, and printing ([serde_json::to_vec_pretty]) is a parameter.  What
    [derive(Serialize)] makes of the records of the model is written out after
    their [serde] attributes. *)

From Stdlib Require Import ZArith Lia Ascii String.
From stdpp Require Import base tactics list gmap strings numbers.
From S2P Require Import Prelude.
From S2P Require Import Errors.
From S2P Require Import Fs.
From S2P Require Import Io.
From S2P Require Import Records.
From S2P Require Import Budget.
From S2P Require Import Lifecycle.
From S2P Require Import Network.
From S2P Require Import Durable.
From S2P Require Import SingleFile.
From S2P Require Import Requests.
From S2P Require Import Schedule.
From S2P Require Import Html.
From S2P Require Import Discover.
From S2P Require Import Browser.
From S2P Require Import Materialize.

#[local] Open Scope string_scope.
#[local] Open Scope list_scope.
#[local] Open Scope Z_scope.

(** ** JSON values *)

Inductive Value :=
| VNull
| VBool (b : bool)
| VNumber (n : Z)
| VString (s : string)
| VArray (l : list Value)
| VObject (fields : list (string * Value)).

(** [serde::Serialize], into a value. *)
Class Serialize (A : Type) := to_value : A -> Value.

#[export] Instance serialize_bool : Serialize bool := VBool.
#[export] Instance serialize_number : Serialize Z := VNumber.
#[export] Instance serialize_string : Serialize string := VString.
#[export] Instance serialize_list `{Serialize A} : Serialize (list A) := fun l => VArray (map to_value l).
#[export] Instance serialize_option `{Serialize A} : Serialize (option A) := fun o =>
  match o with Some a => to_value a | None => VNull end.

(** [skip_serializing_if = Option::is_none]. *)
Definition optional_field `{Serialize A} (name : string) (o : option A) : list (string * Value) :=
  match o with Some a => [(name, to_value a)] | None => [] end.

#[export] Instance serialize_digest `{Hashing} : Serialize ContentDigest := fun d => VString (to_hex d).

#[export] Instance serialize_stage : Serialize ErrorStage := fun s => VString
  match s with
  | Validation => "validation" | Errors.Browser => "browser" | Navigation => "navigation" | Readiness => "readiness"
  | Collection => "collection" | Resource => "resource" | Transform => "transform" | Errors.Encoding => "encoding"
  | Verification => "verification" | Commit => "commit" | Shutdown => "shutdown" | Internal => "internal"
  end.

#[export] Instance serialize_status : Serialize CaptureStatus := fun s => VString
  match s with
  | Created => "created" | Validating => "validating" | WaitingForBrowser => "waitingForBrowser"
  | Navigating => "navigating" | WaitingForReadiness => "waitingForReadiness" | Collecting => "collecting"
  | ResolvingResources => "resolvingResources" | Transforming => "transforming" | Lifecycle.Encoding => "encoding"
  | Verifying => "verifying" | Committing => "committing" | Cancelling => "cancelling" | Succeeded => "succeeded"
  | Cancelled => "cancelled" | Failed => "failed"
  end.

(** *** Policies *)

#[export] Instance serialize_color_scheme : Serialize ColorScheme := fun c =>
  VString match c with Light => "light" | Dark => "dark" end.

#[export] Instance serialize_reduced_motion : Serialize ReducedMotion := fun r =>
  VString match r with Reduce => "reduce" | NoPreference => "no-preference" end.

#[export] Instance serialize_viewport : Serialize Viewport := fun v =>
  VObject [("width", to_value (vp_width v)); ("height", to_value (vp_height v)); ("scale", to_value (vp_scale v))].

#[export] Instance serialize_missing : Serialize MissingResourcePolicy := fun m =>
  VString match m with MissingWarn => "warn" | MissingFail => "fail" end.

#[export] Instance serialize_scope : Serialize CaptureScope := fun s =>
  VString match s with ScopePage => "page" | ScopeSelection => "selection" end.

#[export] Instance serialize_optimizations : Serialize OptimizationPolicy := fun o =>
  VObject [("removeUnusedCss", to_value (remove_unused_css o)); ("removeUnusedFonts", to_value (remove_unused_fonts o));
           ("removeHiddenElements", to_value (remove_hidden_elements o))].

#[export] Instance serialize_verification_mode : Serialize VerificationMode := fun m =>
  VString match m with VerifyStatic => "static" | VerifyOffline => "offline" end.

#[export] Instance serialize_conflict : Serialize ConflictPolicy := fun c =>
  VString match c with ConflictFail => "fail" | ConflictReplace => "replace" | ConflictUniquify => "uniquify" end.

#[export] Instance serialize_rules : Serialize NetworkRules := fun r =>
  VObject [("allowedHosts", to_value (allowed_hosts r)); ("allowedCidrs", to_value (allowed_cidrs r));
           ("allowLoopback", to_value (allow_loopback r)); ("allowPrivate", to_value (allow_private r));
           ("allowLinkLocal", to_value (allow_link_local r))].

#[export] Instance serialize_network : Serialize NetworkPolicy := fun p =>
  VObject match p with
          | Standard => [("kind", VString "standard")]
          | Server => [("kind", VString "server")]
          | Unrestricted => [("kind", VString "unrestricted")]
          | Custom r => [("kind", VString "custom"); ("rules", to_value r)]
          end.

#[export] Instance serialize_sweep : Serialize ViewportSweepPolicy := fun s =>
  VObject [("stepPixels", to_value (step_pixels s)); ("settle", to_value (settle s)); ("maxSteps", to_value (max_steps s))].

#[export] Instance serialize_lazy_load : Serialize LazyLoadPolicy := fun p =>
  VObject match p with
          | LazyDisabled => [("kind", VString "disabled")]
          | ViewportSweep s => [("kind", VString "viewport-sweep"); ("options", to_value s)]
          end.

#[export] Instance serialize_readiness_mode : Serialize ReadinessMode := fun m =>
  VString match m with
          | RenderIdle => "render-idle" | NetworkIdle => "network-idle" | Load => "load"
          | DomContentLoaded => "dom-content-loaded"
          end.

#[export] Instance serialize_readiness : Serialize ReadinessPolicy := fun r =>
  VObject [("mode", to_value (rd_mode r)); ("networkQuiet", to_value (rd_network_quiet r));
           ("mutationQuiet", to_value (rd_mutation_quiet r)); ("delay", to_value (rd_delay r));
           ("lazyLoad", to_value (rd_lazy_load r))].

#[export] Instance serialize_limits : Serialize CaptureLimits := fun l =>
  VObject [("duration", to_value (lim_duration l)); ("redirects", to_value (lim_redirects l));
           ("frames", to_value (lim_frames l)); ("nodes", to_value (lim_nodes l));
           ("resources", to_value (lim_resources l)); ("resourceBytes", to_value (lim_resource_bytes l));
           ("totalResourceBytes", to_value (lim_total_resource_bytes l));
           ("collectorChunkBytes", to_value (lim_collector_chunk_bytes l));
           ("concurrentResources", to_value (lim_concurrent_resources l));
           ("artifactBytes", to_value (lim_artifact_bytes l));
           ("resourceRecursionDepth", to_value (lim_resource_recursion_depth l));
           ("frameDepth", to_value (lim_frame_depth l))].

(** *** Reports and events *)

#[export] Instance serialize_product : Serialize BrowserProduct := fun p =>
  VString match p with Chrome => "chrome" | Chromium => "chromium" | Edge => "edge" end.

#[export] Instance serialize_source : Serialize BrowserSource := fun s =>
  VString match s with
          | SourceManaged => "managed" | SourceSystem => "system" | SourceExplicit => "explicit"
          | SourceRemote => "remote"
          end.

#[export] Instance serialize_browser_info : Serialize BrowserInfo := fun b =>
  VObject ([("product", to_value (bi_product b)); ("version", to_value (bi_version b)); ("source", to_value (bi_source b))]
           ++ optional_field "executablePath" (bi_executable_path b) ++ optional_field "endpoint" (bi_endpoint b)
           ++ optional_field "revision" (bi_revision b) ++ [("protocolVersion", to_value (bi_protocol_version b))]).

#[export] Instance serialize_report `{Hashing} : Serialize VerificationReport := fun r =>
  VObject [("schemaVersion", to_value (vr_schema_version r)); ("mode", to_value (vr_mode r));
           ("artifactSha256", to_value (vr_artifact_sha256 r)); ("bytes", to_value (vr_bytes r));
           ("networkRequests", to_value (vr_network_requests r))].

Definition event_value (kind : string) (capture : CaptureId) (fields : list (string * Value)) : Value :=
  VObject ([("type", VString kind); ("captureId", VString capture)] ++ fields).

(** ** Clamping *)

Definition MAXIMUM_DIAGNOSTIC_BYTES : Z := 8 * 1024 * 1024.
Definition MAXIMUM_DIAGNOSTIC_STRING_BYTES : Z := 2 * 1024.

(** The character pushed after a cut text is U+2026. *)
Definition ELLIPSIS : bytes := utf8_encode_char 8230.

(** The loop that goes back to the beginning of a character: position 0 is one. *)
Fixpoint boundary_before (l : bytes) (i : nat) : nat :=
  if is_char_boundary l i then i else match i with O => O | S i' => boundary_before l i' end.

Definition truncate_utf8 (maximum : Z) (s : string) : string :=
  let l := as_bytes s in
  if Z.of_nat (length l) <=? maximum then s
  else string_of_list_ascii (take (boundary_before l (Z.to_nat maximum)) l ++ ELLIPSIS).

Fixpoint clamp_json_strings (v : Value) : Value :=
  match v with
  | VString s => VString (truncate_utf8 MAXIMUM_DIAGNOSTIC_STRING_BYTES s)
  | VArray l => VArray (map clamp_json_strings l)
  | VObject fields => VObject (map (fun kv => (kv.1, clamp_json_strings kv.2)) fields)
  | VNull | VBool _ | VNumber _ => v
  end.

(** ** What is recorded *)

(** The errors of the chain, the first 16. *)
Fixpoint error_chain (room : nat) (e : OffprintError) : list OffprintError :=
  match room with
  | O => []
  | S room' => e :: match err_source e with Some source => error_chain room' source | None => [] end
  end.

Definition chain_entry (e : OffprintError) : list (string * Value) :=
  [("code", VString (err_code e)); ("stage", to_value (err_stage e)); ("retryable", to_value (err_retryable e))].

Definition sanitized_error (e : OffprintError) : Value :=
  VObject (chain_entry e ++ [("chain", VArray (map (fun e => VObject (chain_entry e)) (error_chain 16 e)))]).

Section Sanitized.
Context `{UrlLib} `{UrlEdit} `{Hashing}.

Definition sanitized_event (e : CaptureEvent) : Value :=
  clamp_json_strings
    match e with
    | EventWarning c w =>
        event_value "warning" c
          [("warning", VObject [("code", VString (cw_code w)); ("frameId", to_value (cw_frame_id w));
                                ("resourceId", to_value (cw_resource_id w))])]
    | CaptureFailed c e => event_value "capture.failed" c [("error", sanitized_error e)]
    | NavigationStarted c u => event_value "navigation.started" c [("url", to_value u)]
    | NavigationRedirected c from to_ status =>
        event_value "navigation.redirected" c [("from", to_value from); ("to", to_value to_); ("status", to_value status)]
    | CaptureStarted c => event_value "capture.started" c []
    | BrowserReady c b => event_value "browser.ready" c [("browser", to_value b)]
    | ReadinessChanged c milestone took =>
        event_value "readiness.changed" c [("milestone", to_value milestone); ("elapsed", to_value took)]
    | FrameCollected c f n => event_value "frame.collected" c [("frameId", to_value f); ("nodes", to_value n)]
    | ResourceDiscovered c r => event_value "resource.discovered" c [("resourceId", to_value r)]
    | ResourceProgress c completed discovered size =>
        event_value "resource.progress" c
          [("completed", to_value completed); ("discovered", to_value discovered); ("bytes", to_value size)]
    | TransformStarted c => event_value "transform.started" c []
    | ArtifactEncoding c size => event_value "artifact.encoding" c [("bytes", to_value size)]
    | VerificationStarted c => event_value "verification.started" c []
    | CaptureSucceeded c v => event_value "capture.succeeded" c [("verification", to_value v)]
    | CaptureCancelled c => event_value "capture.cancelled" c []
    end.

Definition sanitized_browser (b : BrowserSpec) : Value :=
  VObject match b with
          | BrowserAuto => [("kind", VString "auto")]
          | BrowserExecutable _ => [("kind", VString "executable"); ("path", VString "[configured]")]
          | BrowserRemote endpoint =>
              [("kind", VString "remote"); ("endpoint", VString (redact redaction_default endpoint))]
          end.

Definition sanitized_output (o : CaptureOutput) : Value :=
  let '(target, conflict) :=
    match o with
    | OutputFile _ c => (VObject [("kind", VString "file")], Some c)
    | OutputMemory n => (VObject [("kind", VString "memory"); ("maxBytes", to_value n)], None)
    end in
  VObject [("format", VString "html"); ("target", target); ("conflict", to_value conflict)].

Definition sanitized_environment (e : BrowserEnvironment) : Value :=
  VObject [("viewport", to_value (env_viewport e)); ("locale", to_value (env_locale e));
           ("timezone", to_value (env_timezone e)); ("colorScheme", to_value (env_color_scheme e));
           ("reducedMotion", to_value (env_reduced_motion e));
           ("userAgent", VString match env_user_agent e with BrowserDefault => "browser-default" | Override _ => "override" end)].

Definition sanitized_request (r : CaptureRequest) : Value :=
  let content := rq_content r in
  clamp_json_strings (VObject
    [ ("url", VString (redact redaction_default (rq_url r)));
      ("urlSha256", to_value (sha256 (as_bytes (rq_url r))));
      ("artifact", sanitized_output (rq_output r));
      ("browser", sanitized_browser (rq_browser r));
      ("headed", to_value (rq_headed r));
      ("environment", sanitized_environment (rq_environment r));
      ("readiness", to_value (rq_readiness r));
      ("capture", VObject
         [ ("missingResources", to_value (cp_missing_resources content));
           ("preservePasswordValues", to_value (cp_preserve_password_values content));
           ("scope", to_value (cp_scope content));
           ("optimizations", to_value (cp_optimizations content));
           ("allowedFileRootCount", to_value (len_u64 (cp_allowed_file_roots content))) ]);
      ("credentials", VObject
         [ ("headerNames", to_value (map hd_name (headers (rq_credentials r))));
           ("cookieCount", to_value (len_u64 (cookies (rq_credentials r)))) ]);
      ("network", to_value (rq_network r));
      ("limits", to_value (rq_limits r));
      ("verification", to_value (rq_verification r)) ]).
End Sanitized.

(** ** The recorder *)

Definition DIAGNOSTIC_EVENT_CAPACITY : Z := 4096.

Record Recorded := MkRecorded { rd_events : list Value; rd_dropped : Z }.

Definition recorder_new : Recorded := MkRecorded [] 0.

(** [fetch_add] wraps. *)
Definition record_event `{Hashing} (e : CaptureEvent) (r : Recorded) : Recorded :=
  if Z.of_nat (length (rd_events r)) =? DIAGNOSTIC_EVENT_CAPACITY
  then MkRecorded (tail (rd_events r) ++ [sanitized_event e]) ((rd_dropped r + 1) mod (u64_max + 1))
  else MkRecorded (rd_events r ++ [sanitized_event e]) (rd_dropped r).

(** ** The bundle *)

Definition diagnostic_error : OffprintError := new_error "offprint.output.diagnostics" Commit.

(** A directory or file name as it is in the file system: the names of the path. *)
Definition normal_name (c : Component) : list string := match c with Normal n => [n] | _ => [] end.
Definition to_path (p : PortablePath) : path := concat (map normal_name (components p)).

(** [Path::is_dir], which follows links and takes every error for no. *)
Definition fs_is_dir (p : path) : IO bool :=
  r <- attempt (sys (fun s => n <-? lookup_follow s p ;; Ok (n, s))) ;;
  mpure match r with Ok (NDir _) => true | _ => false end.

(** [fs::create_dir_all]: the directories above are made when they are missing;
    one that is there already is fine. *)
Fixpoint fs_create_dir_all (fuel : nat) (p : path) : IO unit :=
  r <- attempt (fs_create_dir p) ;;
  match r with
  | Ok _ => mpure tt
  | Err NotFound =>
      match fuel with
      | O => mfail NotFound
      | S fuel' =>
          fs_create_dir_all fuel' (parent p) ;;;
          r <- attempt (fs_create_dir p) ;;
          match r with
          | Ok _ => mpure tt
          | Err k => there <- fs_is_dir p ;; if (there : bool) then mpure tt else mfail k
          end
      end
  | Err k => there <- fs_is_dir p ;; if (there : bool) then mpure tt else mfail k
  end.

(** The file system has no access rights: [set_permissions] can only fail. *)
Definition fs_set_permissions (p : path) : IO unit := sys (fun s => do? lookup_follow s p ;; Ok (tt, s)).

Definition or_diagnostic_error {A} (m : IO A) : R A := map_err (fun _ => diagnostic_error) m.

Definition prepare_directory (directory : path) : R unit :=
  r <- attempt (fs_symlink_metadata directory) ;;
  created <- match r with
             | Ok m => if m_is_symlink m || negb (m_is_dir m) then mfail diagnostic_error else mpure false
             | Err NotFound => or_diagnostic_error (fs_create_dir_all (length directory) directory) ;;; mpure true
             | Err _ => mfail diagnostic_error
             end ;;
  (if (created : bool) then or_diagnostic_error (fs_set_permissions directory) else mpure tt) ;;;
  probe <- or_diagnostic_error (fs_temp_file_in ".tmp" directory) ;;
  attempt (fs_remove_file (nt_path probe)) ;;; mpure tt.

(** [serde_json::to_vec_pretty]. *)
Class PrettyJson := to_vec_pretty : Value -> option bytes.

Section Bundle.
Context `{UrlLib} `{UrlEdit} `{Hashing} `{PrettyJson}.

Record CaptureDiagnostics := MkCaptureDiagnostics { cd_directory : PortablePath; cd_request : Value }.

Definition diagnostics_prepare (r : CaptureRequest) : R (option CaptureDiagnostics) :=
  match dp_directory (rq_diagnostics r) with
  | None => mpure None
  | Some directory =>
      prepare_directory (to_path directory) ;;;
      mpure (Some (MkCaptureDiagnostics directory (sanitized_request r)))
  end.

Definition bundle (d : CaptureDiagnostics) (capture : CaptureId) (status : CaptureStatus) (recorded : Recorded)
    (e : OffprintError) : Value :=
  clamp_json_strings (VObject
    [ ("schemaVersion", to_value PUBLIC_SCHEMA_VERSION); ("captureId", VString capture); ("status", to_value status);
      ("request", cd_request d); ("events", VArray (rd_events recorded)); ("droppedEvents", to_value (rd_dropped recorded));
      ("failure", sanitized_error e) ]).

Definition NEWLINE : ascii := "010"%char.

Definition bundle_bytes (d : CaptureDiagnostics) (capture : CaptureId) (status : CaptureStatus) (recorded : Recorded)
    (e : OffprintError) : Res bytes :=
  printed <-? ok_or (to_vec_pretty (bundle d capture status recorded e)) diagnostic_error ;;
  let content := printed ++ [NEWLINE] in
  if MAXIMUM_DIAGNOSTIC_BYTES <? Z.of_nat (length content) then Err diagnostic_error else Ok content.

Definition bundle_path (d : CaptureDiagnostics) (capture : CaptureId) : path :=
  to_path (cd_directory d) ++ [capture +:+ ".diagnostics.json"].

Definition diagnostics_write (d : CaptureDiagnostics) (capture : CaptureId) (status : CaptureStatus)
    (recorded : Recorded) (e : OffprintError) : R path :=
  content <- lift (bundle_bytes d capture status recorded e) ;;
  staging <- or_diagnostic_error (fs_temp_file_in ".tmp" (to_path (cd_directory d))) ;;
  or_drop staging (
    or_diagnostic_error (fs_write_all (nt_ino staging) content) ;;;
    or_diagnostic_error (fs_sync_file (nt_ino staging)) ;;;
    or_diagnostic_error (fs_persist_noclobber staging (bundle_path d capture))) ;;;
  mpure (bundle_path d capture).

(** [DiagnosticsRecorder::attach]: the error with the place of the bundle, or with
    the reason why there is none. *)
Definition attach (d : CaptureDiagnostics) (capture : CaptureId) (status : CaptureStatus) (recorded : Recorded)
    (e : OffprintError) : R OffprintError :=
  r <- attempt (diagnostics_write d capture status recorded e) ;;
  mpure match r with
        | Ok p => with_diagnostics_path p e
        | Err reason => with_detail "diagnosticsError" (DStr (err_code reason)) e
        end.
End Bundle.

(** ** Texts are cut once *)

Lemma boundary_before_le l i : (boundary_before l i <= i)%nat.
Proof. induction i as [|i IH]; simpl; [by destruct (is_char_boundary l 0)|]. destruct (is_char_boundary l (S i)); lia. Qed.

Lemma boundary_before_unique l b i : (b <= i)%nat -> is_char_boundary l b = true ->
  (forall j, (b < j <= i)%nat -> is_char_boundary l j = false) -> boundary_before l i = b.
Proof.
  induction i as [|i IH]; intros Hb Hl Hj; simpl.
  - replace b with 0%nat by lia. by destruct (is_char_boundary l 0).
  - destruct (decide (b = S i)) as [->|]; [by rewrite Hl|]. rewrite Hj by lia. apply IH; [lia|done|].
    intros j Hlj. apply Hj. lia.
Qed.

(** Where the mark of a cut text begins is the last beginning of a character
    within reach. *)
Lemma mark_boundary (kept : bytes) i :
  (length kept <= i < length kept + length ELLIPSIS)%nat ->
  boundary_before (kept ++ ELLIPSIS) i = length kept.
Proof.
  intros Hi. apply boundary_before_unique; [lia| |].
  - unfold is_char_boundary. destruct (Nat.eqb (length kept) 0); [done|].
    rewrite lookup_app_r, Nat.sub_diag by lia. reflexivity.
  - intros j Hj. unfold is_char_boundary. destruct (Nat.eqb_spec j 0); [lia|].
    rewrite lookup_app_r by lia. change (length ELLIPSIS) with 3%nat in Hi.
    destruct (j - length kept)%nat as [|[|[|k]]] eqn:E; [lia|reflexivity|reflexivity|lia].
Qed.

Lemma truncate_length maximum s : 0 <= maximum ->
  Z.of_nat (length (as_bytes (truncate_utf8 maximum s))) <= maximum + 3.
Proof.
  intros Hm. unfold truncate_utf8. destruct (Z.leb_spec (Z.of_nat (length (as_bytes s))) maximum); [lia|].
  unfold as_bytes. rewrite list_ascii_of_string_of_list_ascii, length_app, length_take.
  change (length ELLIPSIS) with 3%nat.
  pose proof (boundary_before_le (list_ascii_of_string s) (Z.to_nat maximum)). lia.
Qed.

Lemma truncate_idempotent maximum s : 0 <= maximum ->
  truncate_utf8 maximum (truncate_utf8 maximum s) = truncate_utf8 maximum s.
Proof.
  intros Hm. unfold truncate_utf8 at 2 3. destruct (Z.leb_spec (Z.of_nat (length (as_bytes s))) maximum) as [Hs|Hs].
  - unfold truncate_utf8. by rewrite (proj2 (Z.leb_le _ _) Hs).
  - set (kept := take _ _).
    assert (Hk : (length kept <= Z.to_nat maximum)%nat).
    { unfold kept. rewrite length_take. pose proof (boundary_before_le (as_bytes s) (Z.to_nat maximum)). lia. }
    unfold truncate_utf8. unfold as_bytes. rewrite list_ascii_of_string_of_list_ascii, length_app.
    destruct (Z.leb_spec (Z.of_nat (length kept + length ELLIPSIS)) maximum); [done|].
    rewrite mark_boundary by lia. by rewrite take_app_length.
Qed.

Section Values.
Variable P : Value -> Prop.
Hypothesis HN : P VNull.
Hypothesis HB : forall b, P (VBool b).
Hypothesis HZ : forall n, P (VNumber n).
Hypothesis HS : forall s, P (VString s).
Hypothesis HA : forall l, Forall P l -> P (VArray l).
Hypothesis HO : forall fields, Forall (fun kv => P kv.2) fields -> P (VObject fields).

Fixpoint Value_induction (v : Value) : P v :=
  match v with
  | VNull => HN
  | VBool b => HB b
  | VNumber n => HZ n
  | VString s => HS s
  | VArray l => HA l ((fix all (l : list Value) : Forall P l :=
      match l with [] => Forall_nil _ | v :: l' => Forall_cons _ _ _ (Value_induction v) (all l') end) l)
  | VObject f => HO f ((fix all (l : list (string * Value)) : Forall (fun kv => P kv.2) l :=
      match l with
      | [] => Forall_nil _
      | kv :: l' => Forall_cons _ kv _ (Value_induction kv.2) (all l')
      end) f)
  end.
End Values.

(** What has been cut is not cut again, so that the request and the events, which
    are cut when they are recorded, appear in the bundle as they were. *)
Lemma clamp_idempotent v : clamp_json_strings (clamp_json_strings v) = clamp_json_strings v.
Proof.
  induction v as [| | |s|l IH|f IH] using Value_induction; try done; cbn [clamp_json_strings]; f_equal.
  - by apply truncate_idempotent.
  - rewrite map_map. apply map_ext_in. intros v Hv. rewrite Forall_forall in IH. by apply IH.
  - rewrite map_map. apply map_ext_in. intros [k v] Hv. cbn [fst snd]. f_equal. rewrite Forall_forall in IH.
    by apply (IH (k, v)).
Qed.

(** ** The recorder keeps the latest events *)

Definition recorder_after `{Hashing} (events : list CaptureEvent) : Recorded :=
  fold_left (fun r e => record_event e r) events recorder_new.

Lemma recorder_keeps_latest `{Hashing} events : Z.of_nat (length events) <= u64_max ->
  let n := (length events - Z.to_nat DIAGNOSTIC_EVENT_CAPACITY)%nat in
  recorder_after events = MkRecorded (map sanitized_event (drop n events)) (Z.of_nat n).
Proof.
  intros Hn n. subst n. unfold recorder_after. remember (Z.to_nat DIAGNOSTIC_EVENT_CAPACITY) as cap eqn:Hcap.
  assert (Hc : Z.of_nat cap = DIAGNOSTIC_EVENT_CAPACITY) by (subst cap; done).
  assert (Hcap1 : (0 < cap)%nat) by (unfold DIAGNOSTIC_EVENT_CAPACITY in Hc; lia).
  clear Hcap. induction events as [|e events IH] using rev_ind; [done|].
  rewrite length_app in Hn. simpl length in Hn.
  rewrite fold_left_app, IH by lia. cbn [fold_left]. unfold record_event. cbn [rd_events rd_dropped].
  rewrite length_map, length_drop, length_app. cbn [length].
  destruct (Z.eqb_spec (Z.of_nat (length events - (length events - cap))) DIAGNOSTIC_EVENT_CAPACITY) as [E|E]; f_equal.
  - replace (length events + 1 - cap)%nat with (length events - cap + 1)%nat by lia.
    rewrite drop_app_le, map_app by lia. f_equal. rewrite <- drop_drop. by destruct (drop (length events - cap) events).
  - rewrite Z.mod_small by (unfold u64_max in *; lia). lia.
  - replace (length events + 1 - cap)%nat with 0%nat by lia. replace (length events - cap)%nat with 0%nat by lia.
    rewrite !drop_0. by rewrite map_app.
  - lia.
Qed.

(** ** What is not in a bundle

    Records that differ in nothing but what has to stay out of a bundle are
    [alike]; the bundles of alike captures are the same. *)

Class Alike (A : Type) := alike : A -> A -> Prop.

(** The messages, the details and the place of a bundle are left out. *)
Inductive alike_errors : OffprintError -> OffprintError -> Prop :=
| errors_alike e e' :
    err_code e = err_code e' -> err_stage e = err_stage e' -> err_retryable e = err_retryable e' ->
    (forall s, err_source e = Some s -> exists s', err_source e' = Some s' /\ alike_errors s s') ->
    (err_source e = None -> err_source e' = None) ->
    alike_errors e e'.
#[export] Instance alike_error : Alike OffprintError := alike_errors.

(** The message of a warning is left out. *)
#[export] Instance alike_event : Alike CaptureEvent := fun e e' =>
  match e, e' with
  | EventWarning c w, EventWarning c' w' =>
      c = c' /\ cw_code w = cw_code w' /\ cw_frame_id w = cw_frame_id w' /\ cw_resource_id w = cw_resource_id w'
  | CaptureFailed c x, CaptureFailed c' x' => c = c' /\ alike x x'
  | _, _ => e = e'
  end.

#[export] Instance alike_output : Alike CaptureOutput := fun o o' =>
  match o, o' with
  | OutputFile _ c, OutputFile _ c' => c = c'
  | OutputMemory n, OutputMemory n' => n = n'
  | _, _ => False
  end.

#[export] Instance alike_browser : Alike BrowserSpec := fun b b' =>
  match b, b' with
  | BrowserAuto, BrowserAuto => True
  | BrowserExecutable _, BrowserExecutable _ => True
  | BrowserRemote u, BrowserRemote u' => u = u'
  | _, _ => False
  end.

Definition alike_agents (a a' : UserAgentPolicy) : Prop :=
  match a, a' with BrowserDefault, BrowserDefault | Override _, Override _ => True | _, _ => False end.

#[export] Instance alike_environment : Alike BrowserEnvironment := fun e e' =>
  env_viewport e = env_viewport e' /\ env_locale e = env_locale e' /\ env_timezone e = env_timezone e' /\
  env_color_scheme e = env_color_scheme e' /\ env_reduced_motion e = env_reduced_motion e' /\
  alike_agents (env_user_agent e) (env_user_agent e').

(** The values of the headers, everything of the cookies but their number, the
    file roots but their number, the selector, and the names of files. *)
#[export] Instance alike_request : Alike CaptureRequest := fun r r' =>
  rq_url r = rq_url r' /\ alike (rq_output r) (rq_output r') /\ alike (rq_browser r) (rq_browser r') /\
  rq_headed r = rq_headed r' /\ alike (rq_environment r) (rq_environment r') /\ rq_readiness r = rq_readiness r' /\
  cp_missing_resources (rq_content r) = cp_missing_resources (rq_content r') /\
  cp_preserve_password_values (rq_content r) = cp_preserve_password_values (rq_content r') /\
  cp_scope (rq_content r) = cp_scope (rq_content r') /\
  cp_optimizations (rq_content r) = cp_optimizations (rq_content r') /\
  length (cp_allowed_file_roots (rq_content r)) = length (cp_allowed_file_roots (rq_content r')) /\
  map hd_name (headers (rq_credentials r)) = map hd_name (headers (rq_credentials r')) /\
  length (cookies (rq_credentials r)) = length (cookies (rq_credentials r')) /\
  rq_network r = rq_network r' /\ rq_limits r = rq_limits r' /\ rq_verification r = rq_verification r'.

Section Hidden.
Context `{UrlLib} `{UrlEdit} `{Hashing} `{PrettyJson}.

Lemma error_chain_alike room : forall e e', alike e e' ->
  map (fun e => VObject (chain_entry e)) (error_chain room e) = map (fun e => VObject (chain_entry e)) (error_chain room e').
Proof.
  induction room as [|room IH]; intros e e' He; [done|]. destruct He as [e e' Hc Hs Hr Hsome Hnone]. simpl.
  unfold chain_entry at 1 3. rewrite Hc, Hs, Hr. f_equal.
  destruct (err_source e) as [x|] eqn:E.
  - destruct (Hsome _ eq_refl) as (x' & -> & Hx). by apply IH.
  - by rewrite Hnone.
Qed.

#[export] Instance sanitized_error_alike : Proper (alike ==> eq) sanitized_error.
Proof.
  intros e e' He. unfold sanitized_error. rewrite (error_chain_alike 16 e e' He).
  destruct He as [e e' Hc Hs Hr _ _]. unfold chain_entry at 1 2. by rewrite Hc, Hs, Hr.
Qed.

#[export] Instance sanitized_event_alike : Proper (alike ==> eq) sanitized_event.
Proof.
  intros e e' He. destruct e, e'; try (by inversion He); try (by rewrite He).
  - destruct He as (-> & Hc & Hf & Hr). unfold sanitized_event. by rewrite Hc, Hf, Hr.
  - destruct He as [-> He]. unfold sanitized_event. by rewrite He.
Qed.

#[export] Instance sanitized_request_alike : Proper (alike ==> eq) sanitized_request.
Proof.
  intros r r' (Hu & Ho & Hb & Hh & (Hv & Hl & Ht & Hc & Hm & Ha) & Hrd & Hmi & Hp & Hs & Hop & Hro & Hhd & Hck & Hn & Hli & Hve).
  unfold sanitized_request, sanitized_environment, len_u64.
  rewrite Hu, Hh, Hv, Hl, Ht, Hc, Hm, Hrd, Hmi, Hp, Hs, Hop, Hro, Hhd, Hck, Hn, Hli, Hve.
  assert (E1 : sanitized_output (rq_output r) = sanitized_output (rq_output r')).
  { unfold alike, alike_output in Ho. destruct (rq_output r), (rq_output r'); try done; by subst. }
  assert (E2 : sanitized_browser (rq_browser r) = sanitized_browser (rq_browser r')).
  { unfold alike, alike_browser in Hb. destruct (rq_browser r), (rq_browser r'); try done; by subst. }
  rewrite E1, E2. by destruct (env_user_agent (rq_environment r)), (env_user_agent (rq_environment r')).
Qed.

Lemma recorder_alike events events' : Forall2 alike events events' -> recorder_after events = recorder_after events'.
Proof.
  unfold recorder_after. generalize recorder_new. intros r He. revert r.
  induction He as [|e e' events events' Hx _ IH]; intros r; [done|]. cbn [fold_left].
  assert (record_event e r = record_event e' r) as -> by (unfold record_event; by rewrite (sanitized_event_alike e e' Hx)). apply IH.
Qed.

End Hidden.
