(* ===== verification/Job.v ===== *)
(** * Capture jobs

    Models the running of a capture job: the terminal decision and the outcome
    ([JobControl] and [JobState] of [offprint-rs/core/src/capture_service.rs]), the
    pipeline from the request to the receipt ([core/src/pipeline.rs]), the encoding,
    verification and delivery of the artifact ([core/src/pipeline/artifact.rs]) and
    the verification in a browser without network ([core/src/pipeline/offline.rs]).

    A job shares its decision with whoever may cancel it.  They can only ask for
    cancellation, once or many times; what they did since the job last looked is an
    answer of the surroundings.  The file system belongs to the job between its
    calls; its calls can fail in every way but by a stop of the process, which is
    the subject of the theorems on delivery. *)

From Stdlib Require Import ZArith Lia Ascii String.
From stdpp Require Import base tactics list gmap strings numbers sorting.
From S2P Require Import Prelude.
From S2P Require Import Errors.
From S2P Require Import Fs.
From S2P Require Import Io.
From S2P Require Import Records.
From S2P Require Import Durable.
From S2P Require Import Budget.
From S2P Require Import Lifecycle.
From S2P Require Import ContentStore.
From S2P Require Import Network.
From S2P Require Import SingleFile.
From S2P Require Import Names.
From S2P Require Import Requests.
From S2P Require Import Schedule.
From S2P Require Import Dom.
From S2P Require Import Sink.
From S2P Require Import Html.
From S2P Require Import Frames.
From S2P Require Import Verify.
From S2P Require Import Discover.
From S2P Require Import Effects.
From S2P Require Import Browser.
From S2P Require Import Materialize.
From S2P Require Import Render.
From S2P Require Import FrameTree.
From S2P Require Import Diagnostics.

#[local] Open Scope string_scope.
#[local] Open Scope list_scope.
#[local] Open Scope Z_scope.

(** ** The terminal decision *)

Inductive TerminalDecision := Undecided | Cancellation | Commitment.

#[export] Instance TerminalDecision_eq_dec : EqDecision TerminalDecision.
Proof. solve_decision. Defined.

Record JobControl := MkControl { ct_cancelled : bool; ct_decision : TerminalDecision }.

Definition control_new : JobControl := MkControl false Undecided.

(** [compare_exchange]: what was there, and whether it was exchanged. *)
Definition compare_exchange (expected new : TerminalDecision) (c : JobControl)
    : result TerminalDecision unit * JobControl :=
  if decide (ct_decision c = expected) then (Ok tt, MkControl (ct_cancelled c) new)
  else (Err (ct_decision c), c).

Definition cancel_token (c : JobControl) : JobControl := MkControl true (ct_decision c).

Definition request_cancel (c : JobControl) : bool * JobControl :=
  match compare_exchange Undecided Cancellation c with
  | (Ok _, c) => (true, cancel_token c)
  | (Err Cancellation, c) => (false, cancel_token c)
  | (Err _, c) => (false, c)
  end.

Definition claim_commit (c : JobControl) : Res unit * JobControl :=
  let c := if ct_cancelled c then (request_cancel c).2 else c in
  match compare_exchange Undecided Commitment c with
  | (Ok _, c) => (Ok tt, c)
  | (Err Cancellation, c) => (Err cancelled_error, c)
  | (Err _, c) => (Err (new_error "offprint.runtime.job" Internal), c)
  end.

Definition cancellation_won (c : JobControl) : bool := bool_decide (ct_decision c = Cancellation).

(** ** The state of a job *)

Record Job := MkRunning {
  jb_capturing : Capturing;
  jb_decision : TerminalDecision;
  jb_timed_out : bool;
  jb_files : fs;
  jb_diagnostics : option CaptureDiagnostics;
  jb_result : option (Res CaptureReceipt);
}.

Definition set_capturing (c : Capturing) (j : Job) : Job :=
  MkRunning c (jb_decision j) (jb_timed_out j) (jb_files j) (jb_diagnostics j) (jb_result j).
Definition set_decision (d : TerminalDecision) (j : Job) : Job :=
  MkRunning (jb_capturing j) d (jb_timed_out j) (jb_files j) (jb_diagnostics j) (jb_result j).
Definition set_timed_out (b : bool) (j : Job) : Job :=
  MkRunning (jb_capturing j) (jb_decision j) b (jb_files j) (jb_diagnostics j) (jb_result j).
Definition set_files (s : fs) (j : Job) : Job :=
  MkRunning (jb_capturing j) (jb_decision j) (jb_timed_out j) s (jb_diagnostics j) (jb_result j).
Definition set_result (r : Res CaptureReceipt) (j : Job) : Job :=
  MkRunning (jb_capturing j) (jb_decision j) (jb_timed_out j) (jb_files j) (jb_diagnostics j) (Some r).

#[export] Instance Job_traced : Traced Job :=
  {| trace_of := fun j => cg_trace (jb_capturing j);
     record_action := fun a j => set_capturing (record_action a (jb_capturing j)) j;
     trace_recorded _ _ := eq_refl |}.

Abbreviation Jb := (Eff Job).

(** The part of the job that [capture] works on, and its status alone. *)
Definition in_capture {A} (m : Cg A) : Jb A := epart jb_capturing set_capturing m.
Definition job_transition (next : CaptureStatus) : Jb unit :=
  in_capture (epart cg_machine set_machine (transition next)).

Definition job_status (j : Job) : CaptureStatus := status (cg_machine (jb_capturing j)).

Definition finish (r : Res CaptureReceipt) : Jb unit := emodify (set_result r).

(** The events of a trace, the first one first. *)
Definition emitted (t : Trace) : list CaptureEvent :=
  rev (omap (fun a => match a with AEmit e => Some e | _ => None end) t).

Definition emap_err {A} (f : OffprintError -> OffprintError) (m : Jb A) : Jb A := fun j =>
  match m j with (Ok a, j) => (Ok a, j) | (Err e, j) => (Err (f e), j) end.

(** A schedule without stops. *)
Definition survive (f : fault) : fault :=
  match f with FCrash => FNone | FTorn n None => FTorn n (Some EIo) | f => f end.

Section Job.
Context `{UrlLib} `{UrlEdit} `{UrlView} `{Networks} `{Environment} `{Hashing} `{TempNames} `{DataUrls} `{Encodings}.
Context `{HtmlParser} `{CssTokens} `{Platform} `{Scripts} `{Floats} `{PrettyJson}.

(** The verifier finds references with the inventory of the documents. *)
#[local] Instance job_discovery : Discovery := discovery typed_css_dependencies.

(** ** Others *)

(** What the others did since the last look: [request_cancel], by the deadline of
    the job too while the pipeline runs. *)
Definition others (running : bool) : Jb unit :=
  who <-! ask ADecision env_requested ;;
  emodify (fun j =>
    let '(won, c) := request_cancel (MkControl false (jb_decision j)) in
    match who with
    | Nobody => j
    | ByCaller => set_decision (ct_decision c) j
    | ByDeadline => set_decision (ct_decision c) (set_timed_out (jb_timed_out j || (running && won)) j)
    end).

(** [claim_commit] of the job, whose token is looked at. *)
Definition job_claim_commit : Jb unit :=
  do! others true ;;
  stop <-! ask APoll env_cancelled ;;
  fun j =>
    let '(r, c) := claim_commit (MkControl stop (jb_decision j)) in (r, set_decision (ct_decision c) j).

Definition job_cancellation_won : Jb bool := j <-! eget ;; eret (cancellation_won (MkControl false (jb_decision j))).

(** ** The file system *)

Definition disk {E A} (stopped : E) (m : M E A) : Jb (result E A) :=
  faults <-! ask AFiles env_disk ;;
  fun j =>
    match m (World (jb_files j) (map survive faults)) with
    | (Done a, w) => (Ok (Ok a), set_files (w_fs w) j)
    | (Fail e, w) => (Ok (Err e), set_files (w_fs w) j)
    | (Crash, w) => (Ok (Err stopped), set_files (w_fs w) j)
    end.

Definition disk_res {A} (m : R A) : Jb A := r <-! disk (new_error "offprint.runtime.job" Internal) m ;; elift r.

Definition attach_diagnostics (capture : CaptureId) (e : OffprintError) : Jb OffprintError :=
  j <-! eget ;;
  match jb_diagnostics j with
  | None => eret e
  | Some d =>
      r <-! disk e (attach d capture (job_status j) (recorder_after (emitted (trace_of j))) e) ;;
      eret match r with Ok e => e | Err e => e end
  end.

(** ** Writing the artifact *)

Inductive PreparedWriterTarget := WriterFile (w : FileArtifactWriter) | WriterMemory (w : MemoryArtifactWriter).

Record PreparedWriter := MkPrepared { pw_target : PreparedWriterTarget; pw_maximum_bytes : Z; pw_bytes : Z }.

Definition prepared_new (spec : CaptureOutput) (maximum_bytes : Z) : Jb PreparedWriter :=
  match spec with
  | OutputFile path conflict =>
      w <-! disk_res (writer_create (to_path path) conflict) ;; eret (MkPrepared (WriterFile w) maximum_bytes 0)
  | OutputMemory max_bytes => eret (MkPrepared (WriterMemory (memory_new max_bytes)) (Z.min maximum_bytes max_bytes) 0)
  end.

Inductive WriteFailure := WriteTooLarge | WriteZero | WriteIo (k : io_kind).

Definition write_too_large (e : WriteFailure) : bool := match e with WriteTooLarge => true | _ => false end.

Definition target_write (buffer : bytes) (t : PreparedWriterTarget) : Jb (result WriteFailure (nat * PreparedWriterTarget)) :=
  match t with
  | WriterFile w =>
      taken <-! ask AWrite env_taken ;;
      r <-! disk OtherIo (writer_write taken buffer w) ;;
      eret match r with Ok (n, w) => Ok (n, WriterFile w) | Err k => Err (WriteIo k) end
  | WriterMemory w =>
      eret match memory_write buffer w with
           | (Ok n, w) => Ok (n, WriterMemory w)
           | (Err FileTooLarge, _) => Err WriteTooLarge
           end
  end.

(** [Write::write]. *)
Definition prepared_write (buffer : bytes) (w : PreparedWriter) : Jb (result WriteFailure (nat * PreparedWriter)) :=
  let next := saturating_add u64_max (pw_bytes w) (len_u64 buffer) in
  if pw_maximum_bytes w <? next then eret (Err WriteTooLarge)
  else
    r <-! target_write buffer (pw_target w) ;;
    eret match r with
         | Ok (written, t) =>
             Ok (written, MkPrepared t (pw_maximum_bytes w)
                            (saturating_add u64_max (pw_bytes w) (Z.min u64_max (Z.of_nat written))))
         | Err e => Err e
         end.

(** [Write::write_all]: every turn writes a byte, so there are no more turns than
    bytes. *)
Fixpoint write_all_loop (fuel : nat) (buffer : bytes) (w : PreparedWriter) : Jb (result WriteFailure unit * PreparedWriter) :=
  if bool_decide (buffer = []) then eret (Ok tt, w)
  else match fuel with
  | O => eret (Err WriteZero, w)
  | S fuel' =>
      r <-! prepared_write buffer w ;;
      match r with
      | Err e => eret (Err e, w)
      | Ok (O, w) => eret (Err WriteZero, w)
      | Ok (n, w) => write_all_loop fuel' (drop n buffer) w
      end
  end.

(** As the encoder uses it: on the writer and the job together. *)
Definition write_all (buffer : bytes) (wj : PreparedWriter * Job) : result WriteFailure unit * (PreparedWriter * Job) :=
  match write_all_loop (length buffer) buffer wj.1 wj.2 with
  | (Ok (r, w), j) => (r, (w, j))
  | (Err _, j) => (Err WriteZero, (wj.1, j))
  end.

Inductive PendingArtifact := PendingFile (a : StagedFileArtifact) | PendingMemory (a : MemoryArtifact).

Definition prepared_finish (w : PreparedWriter) : Jb PendingArtifact :=
  match pw_target w with
  | WriterFile w => a <-! disk_res (writer_finish w) ;; eret (PendingFile a)
  | WriterMemory w => a <-! elift (memory_finish w) ;; eret (PendingMemory a)
  end.

Definition readback (maximum_bytes : Z) (a : PendingArtifact) : Jb bytes :=
  match a with
  | PendingFile a => disk_res (read_all maximum_bytes a)
  | PendingMemory a => eret (ma_content a)
  end.

(** The path of the delivered file as a text: the one of the request, or with
    another last name. *)
Definition path_text (requested : PortablePath) (delivered : path) : PortablePath :=
  if bool_decide (delivered = to_path requested) then requested
  else fold_right (fun name rest => "/" +:+ name +:+ rest) "" delivered.

Definition pending_commit (spec : CaptureOutput) (a : PendingArtifact) : Jb CaptureArtifact :=
  match a with
  | PendingFile a =>
      f <-! disk_res (commit_single a) ;;
      let requested := match spec with OutputFile p _ => p | OutputMemory _ => "" end in
      eret (ArtifactFile (path_text requested (fa_path f)) (fa_bytes f) (fa_sha256 f))
  | PendingMemory a => eret (ArtifactBytes (ma_bytes a) (ma_sha256 a) (ma_content a))
  end.

(** A writer or a staged file that is dropped takes its temporary file with it. *)
Definition drop_staging (t : option NamedTempFile) : Jb unit :=
  match t with
  | None => eret tt
  | Some t => do! disk OtherIo (fs_remove_file (nt_path t)) ;; eret tt
  end.

Definition dropping {A} (t : option NamedTempFile) (m : Jb A) : Jb A :=
  r <-! eattempt m ;;
  match r with Ok a => eret a | Err e => do! drop_staging t ;; eerr e end.

Definition writer_staging (w : PreparedWriter) : option NamedTempFile :=
  match pw_target w with WriterFile w => Some (fw_staging w) | WriterMemory _ => None end.

Definition pending_staging (a : PendingArtifact) : option NamedTempFile :=
  match a with PendingFile a => Some (sf_staging a) | PendingMemory _ => None end.

(** ** The digest of the policy *)

Record CapturePolicyRecord := MkPolicyRecord {
  pr_environment : BrowserEnvironment;
  pr_readiness : ReadinessPolicy;
  pr_content : ContentPolicy;
  pr_network : NetworkPolicy;
  pr_limits : CaptureLimits;
  pr_verification : VerificationMode;
}.

(** [serde_json::to_vec] of the policy, and the version of the package. *)
Context (policy_json : CapturePolicyRecord -> option bytes) (package_version : string).

Definition capture_policy_digest (rq : CaptureRequest) : Res ContentDigest :=
  let policy := MkPolicyRecord (rq_environment rq) (rq_readiness rq) (rq_content rq) (rq_network rq) (rq_limits rq)
                  (rq_verification rq) in
  json <-? ok_or (policy_json policy) (new_error "offprint.artifact.policy" Errors.Encoding) ;;
  Ok (sha256 json).

Context (rq : CaptureRequest) (capture_id : CaptureId).

#[local] Abbreviation limits := (rq_limits rq).

(** ** Verification in a browser *)

Definition registered_error (code : string) : OffprintError :=
  match List.find (fun d => bool_decide (d_code d = code)) ERROR_CODE_REGISTRY with
  | Some d => set_retryable (d_retryable d) (new_error (d_code d) (d_stage d))
  | None => new_error code Internal
  end.

Definition staging_error : OffprintError := registered_error "offprint.output.staging".

Definition open_page (offline : bool) : Jb BrowserInfo :=
  cancellable (r <-! ask (AOpenPage offline) env_open_page ;; elift r).

Definition close_page : Jb unit := r <-! ask AClosePage env_unit ;; elift r.

(** What was observed, and how the closing of the page went. *)
Definition after_closing {A} (observed : Res A) (close : Res unit) : Res A :=
  match observed, close with
  | Ok a, Ok _ => Ok a
  | Err e, _ => Err e
  | Ok _, Err e => Err e
  end.

Definition attempted_urls (o : OfflineBrowserObservation) : list RedactedUrl :=
  map (redact redaction_default) (omap url_parse (of_attempted_urls o)).

(** The temporary file is in the directory of the system and outlives the page. *)
Definition verify_offline (content : bytes) (static_result : VerificationReport) : Jb VerificationReport :=
  staged <-! ask (AStage content) env_stage ;;
  file <-! elift (ok_or staged staging_error) ;;
  target <-! elift (ok_or (url_from_file_path file) (new_error "offprint.verification.path" Verification)) ;;
  do! emap_err (with_detail "capturePhase" (DStr "offline-verification")) (open_page true) ;;
  observed <-! eattempt (cancellable (r <-! ask (AVerifyOffline target) env_verify_offline ;; elift r)) ;;
  close <-! eattempt close_page ;;
  o <-! elift (after_closing observed close) ;;
  let attempted := attempted_urls o in
  if negb (bool_decide (attempted = []))
  then eerr (with_detail "attemptedUrls" (DList (map DStr attempted))
               (with_detail "attemptedRequests" (DNum (len_u64 attempted))
                  (new_error "offprint.verification.network" Verification)))
  else if negb (bool_decide (of_page_errors o = []))
  then eerr (with_detail "errors" (DList (map DStr (of_page_errors o)))
               (new_error "offprint.verification.page_error" Verification))
  else if negb (of_stable o) then eerr (new_error "offprint.verification.unstable" Verification)
  else eret (MkReport (vr_schema_version static_result) VerifyOffline (vr_artifact_sha256 static_result)
               (vr_bytes static_result) (vr_network_requests static_result)).

(** ** From the page to the receipt *)

Definition artifact_manifest (captured_at : string) (info : BrowserInfo) (policy : ContentDigest) (captured : CapturedPage)
    (t : SafeStaticDocument) : ArtifactManifest :=
  {| am_schema_version := PUBLIC_SCHEMA_VERSION; am_format_version := ARTIFACT_FORMAT_VERSION;
     am_generator := MkGenerator "Offprint" package_version; am_source := pg_source captured;
     am_captured_at := captured_at; am_browser := info; am_environment := rq_environment rq;
     am_view_state := pg_view_state captured; am_capture_policy_sha256 := policy; am_frames := pg_frames captured;
     am_resources := pg_resources captured; am_resource_records := pg_resource_records captured;
     am_warning_codes := map cw_code (pg_warnings captured);
     am_structural_repair :=
       MkRepair (st_structural_repair t) (if st_structural_repair t then Some structural_repair_script_digest else None);
     am_verification_mode := rq_verification rq |}.

(** Transforming and encoding; the writer, the time of the transformation, and when
    the encoding began. *)
Definition encode_captured (info : BrowserInfo) (captured : CapturedPage) (w : PreparedWriter)
    : Jb (PreparedWriter * Z * Z) :=
  do! in_capture (transition_to Transforming) ;;
  do! emit (TransformStarted capture_id) ;;
  transform_started <-! in_capture clock ;;
  t <-! elift (transform_document (pg_html captured)) ;;
  transform <-! in_capture (elapsed transform_started) ;;
  do! check_cancelled ;;
  do! job_transition Lifecycle.Encoding ;;
  encoding_started <-! in_capture clock ;;
  policy <-! elift (capture_policy_digest rq) ;;
  captured_at <-! ask ATimestamp env_timestamp ;;
  w <-! (fun j =>
    match encode_artifact_to write_all write_too_large t (artifact_manifest captured_at info policy captured t) (w, j) with
    | (Ok _, (w, j)) => (Ok w, j)
    | (Err e, (_, j)) => (Err e, j)
    end) ;;
  do! emit (ArtifactEncoding capture_id (pw_bytes w)) ;;
  do! check_cancelled ;;
  eret (w, transform, encoding_started).

(** Reading back and verifying; the report, and how long encoding and verification
    took. *)
Definition verify_pending (encoding_started : Z) (a : PendingArtifact) : Jb (VerificationReport * Z * Z) :=
  content <-! readback (lim_artifact_bytes limits) a ;;
  encoding <-! in_capture (elapsed encoding_started) ;;
  do! in_capture (transition_to Verifying) ;;
  do! emit (VerificationStarted capture_id) ;;
  verification_started <-! in_capture clock ;;
  static_result <-! elift (verify_static is_utf8 content) ;;
  report <-! match rq_verification rq with
             | VerifyStatic => eret static_result
             | VerifyOffline => verify_offline content static_result
             end ;;
  verification <-! in_capture (elapsed verification_started) ;;
  do! check_cancelled ;;
  do! in_capture (transition_to Committing) ;;
  do! job_claim_commit ;;
  eret (report, encoding, verification).

Definition finalize (info : BrowserInfo) (total_started validation browser : Z) (captured : CapturedPage)
    (w : PreparedWriter) : Jb CaptureReceipt :=
  '(w, transform, encoding_started) <-! dropping (writer_staging w) (encode_captured info captured w) ;;
  staged <-! prepared_finish w ;;
  '(report, encoding, verification) <-! dropping (pending_staging staged) (verify_pending encoding_started staged) ;;
  commit_started <-! in_capture clock ;;
  artifact <-! pending_commit (rq_output rq) staged ;;
  commit <-! in_capture (elapsed commit_started) ;;
  total <-! in_capture (elapsed total_started) ;;
  let t := pg_timings captured in
  eret (MkReceipt PUBLIC_SCHEMA_VERSION capture_id (pg_source captured) artifact report (pg_resources captured)
          (pg_warnings captured)
          (MkTimings total validation browser (tm_navigation t) (tm_readiness t) (tm_collection t) (tm_resources t)
             transform encoding verification commit)).

(** ** The pipeline *)

Definition capture_page (validation_started : Z) : Jb (BrowserInfo * Z * Z * CapturedPage) :=
  guard <-! elift (guard_new (rq_network rq) (url_view (rq_url rq))) ;;
  do! cancellable (validate_capture_url guard (rq_url rq) (cp_allowed_file_roots (rq_content rq))) ;;
  validation <-! in_capture (elapsed validation_started) ;;
  do! check_cancelled ;;
  do! in_capture (transition_to WaitingForBrowser) ;;
  browser_started <-! in_capture clock ;;
  info <-! emap_err (with_detail "capturePhase" (DStr "capture")) (open_page false) ;;
  browser <-! in_capture (elapsed browser_started) ;;
  do! emit (BrowserReady capture_id info) ;;
  page <-! eattempt (cancellable (in_capture (capture rq guard capture_id))) ;;
  close <-! eattempt close_page ;;
  captured <-! elift (after_closing page close) ;;
  eret (info, validation, browser, captured).

Definition run_pipeline : Jb CaptureReceipt :=
  total_started <-! in_capture clock ;;
  do! in_capture (transition_to Validating) ;;
  do! emit (CaptureStarted capture_id) ;;
  validation_started <-! in_capture clock ;;
  w <-! prepared_new (rq_output rq) (lim_artifact_bytes limits) ;;
  '(info, validation, browser, captured) <-! dropping (writer_staging w) (capture_page validation_started) ;;
  finalize info total_started validation browser captured w.

(** ** The end of a job *)

Definition finish_failed_job (e : OffprintError) : Jb unit :=
  r <-! eattempt (job_transition Failed) ;;
  e <-! attach_diagnostics capture_id (match r with Ok _ => e | Err transition_error => with_source e transition_error end) ;;
  do! emit (CaptureFailed capture_id e) ;;
  finish (Err e).

Definition finish_succeeded (receipt : CaptureReceipt) : Jb unit :=
  r <-! eattempt (job_transition Succeeded) ;;
  match r with
  | Err e => finish_failed_job e
  | Ok _ => do! emit (CaptureSucceeded capture_id (rc_verification receipt)) ;; finish (Ok receipt)
  end.

Definition finish_cancelled (e : OffprintError) : Jb unit :=
  r <-! eattempt (do! job_transition Cancelling ;; job_transition Cancelled) ;;
  match r with
  | Err transition_error => finish_failed_job (with_source e transition_error)
  | Ok _ =>
      do! emit (CaptureCancelled capture_id) ;;
      j <-! eget ;;
      let error :=
        if jb_timed_out j then set_retryable true (new_error "offprint.runtime.timeout" Shutdown)
        else new_error "offprint.runtime.cancelled" Shutdown in
      error <-! attach_diagnostics capture_id (with_source e error) ;;
      finish (Err error)
  end.

Definition run_capture_job : Jb unit :=
  result <-! eattempt run_pipeline ;;
  do! others true ;;
  match result with
  | Ok receipt => finish_succeeded receipt
  | Err e =>
      do! others false ;;
      won <-! job_cancellation_won ;;
      if (won : bool) then finish_cancelled e else finish_failed_job e
  end.

(** [finish_after_panic], for a pipeline that was unwound. *)
Definition finish_after_panic : Jb unit :=
  j <-! eget ;;
  match jb_result j with
  | Some _ => eret tt
  | None => finish_failed_job (new_error "offprint.internal.panic" Internal)
  end.

(** A job when its task begins. *)
Definition job_new (t : Trace) (files : fs) (diagnostics : option CaptureDiagnostics) : Job :=
  MkRunning (MkCapturing machine_new t) Undecided false files diagnostics None.
End Job.
