(* ===== verification/JobFacts.v ===== *)
(** * What becomes of a job

    Cancellation and commit exclude each other under every interleaving; and a job
    always ends, with one terminal event, one result and a status that say the
    same. *)

From Stdlib Require Import ZArith Lia Ascii String.
From stdpp Require Import base tactics list gmap strings numbers sorting.
From S2P Require Import Prelude.
From S2P Require Import Errors.
From S2P Require Import Fs.
From S2P Require Import Io.
From S2P Require Import Records.
From S2P Require Import Durable.
From S2P Require Import Budget.
From S2P Require Import Lifecycle.
From S2P Require Import ContentStore.
From S2P Require Import Network.
From S2P Require Import SingleFile.
From S2P Require Import Names.
From S2P Require Import Requests.
From S2P Require Import Schedule.
From S2P Require Import Dom.
From S2P Require Import Sink.
From S2P Require Import Serialize.
From S2P Require Import Html.
From S2P Require Import Frames.
From S2P Require Import Verify.
From S2P Require Import Discover.
From S2P Require Import Effects.
From S2P Require Import Browser.
From S2P Require Import Materialize.
From S2P Require Import Render.
From S2P Require Import RenderTrace.
From S2P Require Import FrameTree.
From S2P Require Import CaptureTrace.
From S2P Require Import Diagnostics.
From S2P Require Import Job.

#[local] Open Scope string_scope.
#[local] Open Scope list_scope.
#[local] Open Scope Z_scope.

(** ** The terminal decision *)

(** What can happen to the control of a job: its token is cancelled with the one of
    the runtime, someone asks for cancellation, the job claims the commit. *)
Inductive ControlStep := TokenCancelled | CancelRequested | CommitClaimed.

(** The control after a step, and whether the step won the decision. *)
Definition control_step (x : ControlStep) (c : JobControl) : bool * JobControl :=
  match x with
  | TokenCancelled => (false, cancel_token c)
  | CancelRequested => request_cancel c
  | CommitClaimed => let '(r, c) := claim_commit c in (is_ok r, c)
  end.

(** The steps that won, the first one first, and the control. *)
Definition control_next (s : list ControlStep * JobControl) (x : ControlStep) : list ControlStep * JobControl :=
  let '(won, c) := control_step x s.2 in (if won then s.1 ++ [x] else s.1, c).

Definition control_run (steps : list ControlStep) : list ControlStep * JobControl :=
  fold_left control_next steps ([], control_new).

Lemma control_run_snoc steps x : control_run (steps ++ [x]) = control_next (control_run steps) x.
Proof. unfold control_run. by rewrite fold_left_app. Qed.

Definition control_ok (s : list ControlStep * JobControl) : Prop :=
  match ct_decision s.2 with
  | Undecided => s.1 = []
  | Cancellation => (s.1 = [] \/ s.1 = [CancelRequested]) /\ ct_cancelled s.2 = true
  | Commitment => s.1 = [CommitClaimed]
  end.

Lemma control_next_ok s x : control_ok s -> control_ok (control_next s x).
Proof.
  destruct s as [winners [t d]]. unfold control_ok. cbn. intros Hs.
  destruct d, x, t; unfold control_next, control_step, claim_commit, request_cancel, compare_exchange, cancel_token; cbn;
    naive_solver.
Qed.

Lemma control_run_ok steps : control_ok (control_run steps).
Proof. induction steps as [|x steps IH] using rev_ind; [done|]. rewrite control_run_snoc. by apply control_next_ok. Qed.

(** A cancelled token keeps the commit from being claimed. *)
Lemma control_next_cancelled s x : ct_cancelled s.2 = true -> ct_decision s.2 <> Commitment ->
  ct_cancelled (control_next s x).2 = true /\ ct_decision (control_next s x).2 <> Commitment.
Proof.
  destruct s as [winners [t d]]. cbn. intros -> Hd.
  destruct d, x; unfold control_next, control_step, claim_commit, request_cancel, compare_exchange, cancel_token; cbn; done.
Qed.

(** C6: cancellation and commit exclude each other. Whatever sequence of requests for
    cancellation, cancellations of the token and claims of the commit the control of
    a job goes through, at most one of them wins; a claim of the commit won if and
    only if the decision is the commit; if a request for cancellation won, the
    decision is cancellation and the token is cancelled; and once the token is
    cancelled while the decision is not the commit, no later claim wins. *)
Theorem decision_is_unique steps :
  (length (control_run steps).1 <= 1)%nat /\
  (CommitClaimed ∈ (control_run steps).1 <-> ct_decision (control_run steps).2 = Commitment) /\
  (CancelRequested ∈ (control_run steps).1 ->
     ct_decision (control_run steps).2 = Cancellation /\ ct_cancelled (control_run steps).2 = true) /\
  (forall later, ct_cancelled (control_run steps).2 = true -> ct_decision (control_run steps).2 <> Commitment ->
     CommitClaimed ∉ (control_run (steps ++ later)).1).
Proof.
  pose proof (control_run_ok steps) as Hi. unfold control_ok in Hi. split_and!.
  - destruct (ct_decision _); [rewrite Hi|destruct Hi as [[-> | ->] _]|rewrite Hi]; cbn; lia.
  - destruct (ct_decision _); [rewrite Hi|destruct Hi as [[-> | ->] _]|rewrite Hi]; set_solver.
  - destruct (ct_decision _); [rewrite Hi|destruct Hi as [[-> | ->] ->]|rewrite Hi]; set_solver.
  - intros later Ht Hd. clear Hi.
    assert (Hl : ct_cancelled (control_run (steps ++ later)).2 = true /\ ct_decision (control_run (steps ++ later)).2 <> Commitment).
    { induction later as [|x later IH] using rev_ind; [by rewrite app_nil_r|].
      rewrite app_assoc, control_run_snoc. destruct IH; by apply control_next_cancelled. }
    pose proof (control_run_ok (steps ++ later)) as Hi. unfold control_ok in Hi. destruct Hl as [_ Hl]. clear Ht Hd.
    destruct (ct_decision _); [rewrite Hi|destruct Hi as [[-> | ->] _]|done]; set_solver.
Qed.

(** ** A capture leaves its job running *)

Create HintDb job.

Definition alive (s : CaptureStatus) : bool := negb (is_terminal s) && negb (bool_decide (s = Cancelling)).

Definition stays {A} (m : Cg A) : Prop := forall s,
  alive (status (cg_machine s)) = true -> alive (status (cg_machine (m s).2)) = true.

Section Stays.
Context `{UrlLib} `{UrlEdit} `{UrlView} `{Networks} `{Environment} `{Hashing} `{TempNames} `{DataUrls} `{Encodings}.
Context `{HtmlParser} `{CssTokens} `{Platform} `{Scripts}.

Lemma stays_ret {A} (a : A) : stays (eret a).
Proof. by intros s. Qed.
Lemma stays_err {A} e : stays (eerr e : Cg A).
Proof. by intros s. Qed.
Lemma stays_lift {A} (r : Res A) : stays (elift r).
Proof. by intros s. Qed.
Lemma stays_bind {A B} (m : Cg A) (k : A -> Cg B) : stays m -> (forall a, stays (k a)) -> stays (ebind m k).
Proof.
  intros Hm Hk s Hs. specialize (Hm s Hs). unfold ebind. destruct (m s) as [[a|e] s']; [by apply Hk|done].
Qed.
Lemma stays_attempt {A} (m : Cg A) : stays m -> stays (eattempt m).
Proof. intros Hm s Hs. specialize (Hm s Hs). unfold eattempt. by destruct (m s). Qed.
Lemma stays_if {A} (b : bool) (m m' : Cg A) : stays m -> stays m' -> stays (if b then m else m').
Proof. by destruct b. Qed.
Lemma stays_ask {A} a (answer : Trace -> A) : stays (ask a answer).
Proof. by intros s. Qed.
Lemma stays_emit e : stays (emit e).
Proof. by intros s. Qed.
Lemma stays_fold {A B} (f : A -> B -> Cg B) l : (forall x b, stays (f x b)) -> forall b, stays (efold f l b).
Proof. intros Hf. induction l as [|x l IH]; intros b; [apply stays_ret|]. apply stays_bind; [apply Hf|apply IH]. Qed.
Lemma stays_move next : alive next = true -> stays (epart cg_machine set_machine (transition next)).
Proof. intros Hn [[m] t]. unfold epart, transition. cbn. by destruct (negb _). Qed.
Lemma stays_resources {A} start (m : Rn A) : stays (with_resources start m).
Proof. intros s Hs. unfold with_resources. by destruct (m _). Qed.

#[local] Hint Resolve stays_ret stays_err stays_lift stays_attempt stays_if stays_ask stays_emit stays_resources : job.
#[local] Hint Extern 1 (stays (ebind _ _)) => apply stays_bind; [|intros ?] : job.
#[local] Hint Extern 1 (stays (efold _ _ _)) => apply stays_fold; intros ? ? : job.
#[local] Hint Extern 2 (stays (match ?x with _ => _ end)) => destruct x : job.
#[local] Hint Extern 2 (stays (let '_ := ?x in _)) => destruct x : job.

Lemma stays_check : stays check_cancelled.
Proof. unfold check_cancelled. eauto with job. Qed.

Lemma stays_cancellable {A} (m : Cg A) : stays m -> stays (cancellable m).
Proof. unfold cancellable. pose proof stays_check. eauto with job. Qed.

Lemma stays_transition next : alive next = true -> stays (transition_to next).
Proof. intros Hn. unfold transition_to. pose proof stays_check. pose proof (stays_move next Hn). eauto with job. Qed.

Lemma stays_page {A} a (answer : Trace -> Res A) : stays (page_call a answer).
Proof. unfold page_call. eauto with job. Qed.

Lemma stays_elapsed started : stays (elapsed started).
Proof. unfold elapsed, clock. eauto with job. Qed.

Lemma stays_roots path l : stays (within_roots path l).
Proof. induction l; cbn [within_roots]; eauto with job. Qed.

Lemma stays_file u l : stays (validate_file_resource u l).
Proof. unfold validate_file_resource. pose proof stays_roots. eauto 10 with job. Qed.

Lemma stays_address g u l : stays (validate_capture_url g u l).
Proof.
  unfold validate_capture_url, validate_network_url. pose proof stays_file. repeat apply stays_if; eauto with job.
  do 2 (apply stays_bind; [apply stays_lift|]; intros ?). destruct (parse_ip _); eauto 10 with job.
Qed.

Lemma stays_fallbacks session missing maximum o : stays (materialize_visual_fallbacks session missing maximum o).
Proof.
  unfold materialize_visual_fallbacks. destruct (ob_visual_fallbacks o) as [|f l]; [apply stays_ret|]. apply stays_bind.
  { apply stays_fold. intros x b. unfold capture_fallback. eauto with job. }
  intros [resolutions warnings]. eauto 10 with job.
Qed.

#[local] Hint Resolve stays_check stays_cancellable stays_page stays_elapsed stays_file stays_address stays_fallbacks : job.
#[local] Hint Extern 1 (stays (transition_to _)) => by apply stays_transition : job.
#[local] Hint Extern 1 (stays clock) => apply stays_ask : job.

Lemma stays_collect rq capture_id frame : stays (collect rq capture_id frame).
Proof.
  unfold collect. apply stays_bind; [eauto with job|]. intros attached. apply stays_bind.
  { apply stays_fold. intros f _. unfold validate_attached. eauto 10 with job. }
  intros _. apply stays_bind; [eauto with job|]. intros _. apply stays_bind.
  { unfold describe_frames, owner_path. eauto 10 with job. }
  intros l. apply stays_bind; [|eauto 10 with job]. apply stays_fold. intros f [b collected]. unfold collect_observed, spend.
  apply stays_bind; [eauto with job|]. intros observed_. apply stays_bind; [destruct (reserve_observation_bytes _ b) as [[]]; eauto with job|].
  intros b1. apply stays_bind; [eauto with job|]. intros o. apply stays_bind; [destruct (add_frames _ b1) as [[]]; eauto with job|].
  intros b2. apply stays_bind; [destruct (add_nodes _ b2) as [[]]; eauto with job|]. eauto 10 with job.
Qed.

Lemma stays_capture rq g capture_id : stays (capture rq g capture_id).
Proof.
  unfold capture. apply stays_bind.
  { unfold navigate, efor, emit_redirect. eauto 20 with job. }
  intros [[frame final] navigation]. apply stays_bind; [unfold settle_page; eauto 10 with job|]. intros settle.
  do 2 (apply stays_bind; [eauto with job|]; intros ?). apply stays_bind; [apply stays_collect|].
  intros [[l b] collected]. do 3 (apply stays_bind; [eauto with job|]; intros ?).
  apply stays_bind; [unfold render_all; eauto with job|]. intros [rendered s]. eauto with job.
Qed.
End Stays.

(** ** What the operations of a job preserve *)

Definition preserves {A} (P : Job -> Prop) (m : Jb A) : Prop := forall j, P j -> P (m j).2.

Section Preserves.
Context (P : Job -> Prop).

Lemma preserves_ret {A} (a : A) : preserves P (eret a).
Proof. by intros j. Qed.
Lemma preserves_err {A} e : preserves P (eerr e : Jb A).
Proof. by intros j. Qed.
Lemma preserves_lift {A} (r : Res A) : preserves P (elift r).
Proof. by intros j. Qed.
Lemma preserves_get : preserves P eget.
Proof. by intros j. Qed.
Lemma preserves_bind {A B} (m : Jb A) (k : A -> Jb B) :
  preserves P m -> (forall a, preserves P (k a)) -> preserves P (ebind m k).
Proof.
  intros Hm Hk j Hj. specialize (Hm j Hj). unfold ebind. destruct (m j) as [[a|e] j']; [by apply Hk|done].
Qed.
Lemma preserves_attempt {A} (m : Jb A) : preserves P m -> preserves P (eattempt m).
Proof. intros Hm j Hj. specialize (Hm j Hj). unfold eattempt. by destruct (m j). Qed.
Lemma preserves_map_err {A} f (m : Jb A) : preserves P m -> preserves P (emap_err f m).
Proof. intros Hm j Hj. specialize (Hm j Hj). unfold emap_err. by destruct (m j) as [[]]. Qed.
Lemma preserves_if {A} (b : bool) (m m' : Jb A) : preserves P m -> preserves P m' -> preserves P (if b then m else m').
Proof. by destruct b. Qed.

(** The encoder writes with [write_all] alone. *)
Lemma preserves_chunks {W E} (Q : W -> Prop) (write : bytes -> W -> result E unit * W) :
  (forall b w, Q w -> Q (write b w).2) -> forall chunks w, Q w -> Q (write_chunks write chunks w).2.
Proof.
  intros Hw. induction chunks as [|b chunks IH]; intros w Hq; [done|]. cbn [write_chunks]. specialize (Hw b w Hq).
  destruct (write b w) as [[[]|e] w']; [by apply IH|done].
Qed.
End Preserves.

#[export] Hint Resolve preserves_ret preserves_err preserves_lift preserves_get preserves_attempt preserves_map_err
  preserves_if : job.
#[export] Hint Extern 1 (preserves _ (ebind _ _)) => apply preserves_bind; [|intros ?] : job.
#[export] Hint Extern 2 (preserves _ (match ?x with _ => _ end)) => destruct x : job.
#[export] Hint Extern 2 (preserves _ (let '_ := ?x in _)) => destruct x : job.

Section Operations.
Context `{UrlLib} `{UrlEdit} `{UrlView} `{Networks} `{Environment} `{Hashing} `{TempNames} `{DataUrls} `{Encodings}.
Context `{HtmlParser} `{CssTokens} `{Platform} `{Scripts} `{Floats} `{PrettyJson}.

(** What is left alone by questions and by the file system. *)
Context (P : Job -> Prop).
Context (Hask : forall a j, is_final a = false -> P j -> P (record_action a j)) (Hfiles : forall s j, P j -> P (set_files s j)).

Lemma preserves_ask {A} a (answer : Trace -> A) : is_final a = false -> preserves P (ask a answer).
Proof using Hask. intros Ha j Hj. by apply Hask. Qed.

Lemma preserves_emit e : event_is_terminal e = false -> preserves P (emit e).
Proof using Hask. intros He j Hj. by apply Hask. Qed.

#[local] Hint Extern 1 (preserves _ (ask _ _)) => apply preserves_ask; reflexivity : job.
#[local] Hint Extern 1 (preserves _ (emit _)) => apply preserves_emit; reflexivity : job.

Lemma preserves_clock : preserves P (in_capture clock).
Proof using Hask. intros j Hj. exact (Hask AClock j eq_refl Hj). Qed.

Lemma preserves_elapsed started : preserves P (in_capture (elapsed started)).
Proof using Hask. intros j Hj. exact (Hask AClock j eq_refl Hj). Qed.

Lemma preserves_check : preserves P check_cancelled.
Proof using Hask. unfold check_cancelled. eauto with job. Qed.

Lemma preserves_cancellable {A} (m : Jb A) : preserves P m -> preserves P (cancellable m).
Proof using Hask. unfold cancellable. pose proof preserves_check. eauto with job. Qed.

#[local] Hint Resolve preserves_clock preserves_elapsed preserves_check preserves_cancellable : job.

Lemma preserves_disk {E A} (stopped : E) (m : M E A) : preserves P (disk stopped m).
Proof using Hask Hfiles.
  unfold disk. apply preserves_bind; [eauto with job|]. intros faults j Hj. destruct (m _) as [[a|e|] w]; by apply Hfiles.
Qed.

#[local] Hint Resolve preserves_disk : job.

Lemma preserves_disk_res {A} (m : R A) : preserves P (disk_res m).
Proof using Hask Hfiles. unfold disk_res. eauto with job. Qed.

#[local] Hint Resolve preserves_disk_res : job.

Lemma preserves_attach capture_id e : preserves P (attach_diagnostics capture_id e).
Proof using Hask Hfiles. unfold attach_diagnostics. eauto with job. Qed.

Lemma preserves_new spec maximum : preserves P (prepared_new spec maximum).
Proof using Hask Hfiles. unfold prepared_new. eauto with job. Qed.

Lemma preserves_write buffer w : preserves P (prepared_write buffer w).
Proof using Hask Hfiles. unfold prepared_write, target_write. eauto 10 with job. Qed.

#[local] Hint Resolve preserves_write : job.

Lemma preserves_loop fuel : forall buffer w, preserves P (write_all_loop fuel buffer w).
Proof using Hask Hfiles.
  induction fuel as [|fuel IH]; intros buffer w; cbn [write_all_loop]; apply preserves_if; eauto with job.
Qed.

Lemma preserves_write_all b wj : P wj.2 -> P (write_all b wj).2.2.
Proof using Hask Hfiles.
  intros Hj. unfold write_all. pose proof (preserves_loop (length b) b wj.1 wj.2 Hj) as Hp.
  by destruct (write_all_loop _ _ _ _) as [[[r w]|e] j].
Qed.

Lemma preserves_encode t m wj : P wj.2 -> P (encode_artifact_to write_all write_too_large t m wj).2.2.
Proof using Hask Hfiles.
  intros Hj. unfold encode_artifact_to, encode_html_to. destruct (encode_document _ _) as [d|e]; [|done].
  unfold serialize_document_to. destruct (serialize_chunks d) as [chunks|]; [|done]. cbn [mbind option_bind].
  pose proof (preserves_chunks (fun wj => P wj.2) write_all preserves_write_all chunks wj Hj) as Hc.
  by destruct (write_chunks write_all chunks wj) as [[[]|e] w].
Qed.

Lemma preserves_finish w : preserves P (prepared_finish w).
Proof using Hask Hfiles. unfold prepared_finish. eauto with job. Qed.

Lemma preserves_readback maximum a : preserves P (readback maximum a).
Proof using Hask Hfiles. unfold readback. eauto with job. Qed.

Lemma preserves_commit spec a : preserves P (pending_commit spec a).
Proof using Hask Hfiles. unfold pending_commit. eauto with job. Qed.

Lemma preserves_dropping {A} t (m : Jb A) : preserves P m -> preserves P (dropping t m).
Proof using Hask Hfiles. unfold dropping, drop_staging. eauto 10 with job. Qed.

Lemma preserves_open offline : preserves P (open_page offline).
Proof using Hask. unfold open_page. eauto with job. Qed.

Lemma preserves_close : preserves P close_page.
Proof using Hask. unfold close_page. eauto with job. Qed.

Lemma preserves_offline content r : preserves P (verify_offline content r).
Proof using Hask.
  unfold verify_offline. pose proof preserves_open. pose proof preserves_close. eauto 20 with job.
Qed.

Lemma preserves_roots path l : preserves P (within_roots path l).
Proof using Hask. induction l; cbn [within_roots]; eauto with job. Qed.

Lemma preserves_address g u l : preserves P (validate_capture_url g u l).
Proof using Hask.
  unfold validate_capture_url, validate_network_url, validate_file_resource. pose proof preserves_roots.
  repeat apply preserves_if; eauto 10 with job.
Qed.
End Operations.

(** ** The pipeline leaves the end to the job *)

Definition nonfinal (t : Trace) : Prop := Forall (fun a => is_final a = false) t.

Definition running (D : option CaptureDiagnostics) (j : Job) : Prop :=
  alive (job_status j) = true /\ nonfinal (trace_of j) /\ jb_result j = None /\ jb_diagnostics j = D.

Lemma running_ask {D} a j : is_final a = false -> running D j -> running D (record_action a j).
Proof. intros Ha (Hs & Ht & Hr). split; [done|]. split; [by constructor|done]. Qed.

Lemma running_files {D} s j : running D j -> running D (set_files s j).
Proof. done. Qed.

Lemma running_capture {D A} (m : Cg A) : stays m -> keeps nonfinal m -> preserves (running D) (in_capture m).
Proof.
  intros Hm Ht j (Hs & Hn & Hr). specialize (Hm (jb_capturing j) Hs). specialize (Ht (jb_capturing j) Hn).
  unfold in_capture, epart. unfold after in Ht. destruct (m (jb_capturing j)) as [[a|e] c]; done.
Qed.

Section Pipeline.
Context `{UrlLib} `{UrlEdit} `{UrlView} `{Networks} `{Environment} `{Hashing} `{TempNames} `{DataUrls} `{Encodings}.
Context `{HtmlParser} `{CssTokens} `{Platform} `{Scripts} `{Floats} `{PrettyJson} {Hlaws : UrlLaws}.
Context (policy_json : CapturePolicyRecord -> option bytes) (package_version : string).
Context (rq : CaptureRequest) (capture_id : CaptureId) {D : option CaptureDiagnostics}.

Lemma nonfinal_plain a t : plain a = true -> nonfinal t -> nonfinal (a :: t).
Proof using Type. unfold plain. rewrite andb_true_iff, !negb_true_iff. intros [_ Ha] Ht. by constructor. Qed.

Lemma running_transition next : alive next = true -> preserves (running D) (in_capture (transition_to next)).
Proof using Type.
  intros Hn. apply running_capture; [by apply stays_transition|].
  apply (keeps_transition (I := nonfinal)). intros a t Ha. apply nonfinal_plain. by apply quiet_plain.
Qed.

Lemma running_move next : alive next = true -> preserves (running D) (job_transition next).
Proof using Type. intros Hn. apply running_capture; [by apply stays_move|]. by apply keeps_part. Qed.

Lemma running_page g : preserves (running D) (in_capture (capture rq g capture_id)).
Proof using Hlaws.
  apply running_capture; [apply stays_capture|].
  apply (keeps_capture g _ rq capture_id eq_refl (I := nonfinal)); [apply nonfinal_plain|].
  intros s f u m t _ Ht. by constructor.
Qed.

Lemma running_others b : preserves (running D) (others b).
Proof using Type.
  apply preserves_bind; [by apply (preserves_ask (running D) running_ask)|]. intros who j Hj. unfold emodify. cbn [snd].
  destruct (request_cancel _) as [won c]. by destruct who.
Qed.

Lemma running_claim : preserves (running D) job_claim_commit.
Proof using Type.
  apply preserves_bind; [apply running_others|]. intros _.
  apply preserves_bind; [by apply (preserves_ask (running D) running_ask)|]. intros stop j Hj. by destruct (claim_commit _).
Qed.

#[local] Hint Extern 1 (preserves _ (ask _ _)) => apply (preserves_ask (running D) running_ask); reflexivity : job.
#[local] Hint Extern 1 (preserves _ (emit _)) => apply (preserves_emit (running D) running_ask); reflexivity : job.
#[local] Hint Extern 1 (preserves _ (in_capture (transition_to _))) => apply running_transition; reflexivity : job.
#[local] Hint Extern 1 (preserves _ (job_transition _)) => apply running_move; reflexivity : job.
#[local] Hint Resolve running_claim : job.
#[local] Hint Extern 1 (preserves (running D) _) =>
  first [ apply (preserves_clock (running D) running_ask) | apply (preserves_elapsed (running D) running_ask)
        | apply (preserves_check (running D) running_ask) | apply (preserves_readback (running D) running_ask running_files)
        | apply (preserves_offline (running D) running_ask) | apply (preserves_new (running D) running_ask running_files)
        | apply (preserves_open (running D) running_ask) | apply (preserves_close (running D) running_ask) ] : job.
#[local] Hint Extern 1 (preserves _ (cancellable _)) => apply (preserves_cancellable (running D) running_ask) : job.

Lemma running_encode info captured w : preserves (running D) (encode_captured policy_json package_version rq capture_id info captured w).
Proof using Type.
  unfold encode_captured. do 10 (apply preserves_bind; [eauto with job|]; intros ?).
  apply preserves_bind; [|intros ?; eauto with job].
  intros j Hj. pose proof (preserves_encode (running D) running_ask running_files a2
    (artifact_manifest package_version rq a8 info a7 captured a2) (w, j) Hj) as He.
  by destruct (encode_artifact_to _ _ _ _ _) as [[m|e] [w' j']].
Qed.

Lemma running_verify started a : preserves (running D) (verify_pending rq capture_id started a).
Proof using Type. unfold verify_pending. repeat (apply preserves_bind; [eauto with job|]; intros ?). eauto with job. Qed.

Lemma running_capture_page started : preserves (running D) (capture_page rq capture_id started).
Proof using Hlaws.
  unfold capture_page. pose proof (preserves_address (running D) running_ask). pose proof running_page. eauto 20 with job.
Qed.

Lemma running_finalize info total validation browser captured w :
  preserves (running D) (finalize policy_json package_version rq capture_id info total validation browser captured w).
Proof using Type.
  unfold finalize. apply preserves_bind; [apply (preserves_dropping (running D) running_ask running_files), running_encode|].
  intros [[w' transform] started]. apply preserves_bind; [apply (preserves_finish (running D) running_ask running_files)|].
  intros staged. apply preserves_bind; [apply (preserves_dropping (running D) running_ask running_files), running_verify|].
  intros [[report encoding] verification]. apply preserves_bind; [eauto with job|]. intros commit_started.
  apply preserves_bind; [apply (preserves_commit (running D) running_ask running_files)|]. eauto 10 with job.
Qed.

Lemma running_pipeline : preserves (running D) (run_pipeline policy_json package_version rq capture_id).
Proof using Hlaws.
  unfold run_pipeline. do 5 (apply preserves_bind; [eauto with job|]; intros ?).
  apply preserves_bind; [apply (preserves_dropping (running D) running_ask running_files), running_capture_page|].
  intros [[[info validation] browser] captured]. apply running_finalize.
Qed.

(** *** A receipt comes after the decision *)

Definition decided (j : Job) : Prop := job_status j = Committing /\ jb_decision j = Commitment.

Lemma decided_ask a j : is_final a = false -> decided j -> decided (record_action a j).
Proof using Type. done. Qed.
Lemma decided_files s j : decided j -> decided (set_files s j).
Proof using Type. done. Qed.

(** What is left of a computation decides. *)
Lemma after_rest {A B} (m : Jb A) (k : A -> Jb B) (Q : B -> Job -> Prop) j :
  (forall a j, after (k a) Q (fun _ _ => True) j) -> after (ebind m k) Q (fun _ _ => True) j.
Proof using Type. intros Hk. apply after_bind. apply after_run; [|done]. intros a j' _. apply Hk. Qed.

Lemma after_preserves {A} (P : Job -> Prop) (m : Jb A) j : preserves P m -> P j -> after m (fun _ => P) (fun _ _ => True) j.
Proof using Type. intros Hm Hj. specialize (Hm j Hj). unfold after. by destruct (m j) as [[a|e] j']. Qed.

Lemma after_transition next j : after (in_capture (transition_to next)) (fun _ j' => job_status j' = next) (fun _ _ => True) j.
Proof using Type.
  unfold after, in_capture, epart, transition_to, check_cancelled, ebind, ask, epart. cbn -[env_cancelled].
  destruct (env_cancelled _); cbn -[env_cancelled]; [done|]. unfold transition. cbn -[env_cancelled].
  destruct (negb _); cbn -[env_cancelled]; [done|]. by destruct (env_cancelled _).
Qed.

Lemma after_claim j : job_status j = Committing -> after job_claim_commit (fun _ => decided) (fun _ _ => True) j.
Proof using Type.
  intros Hs. unfold job_claim_commit. apply after_bind. eapply after_mono with (Q := fun _ j => job_status j = Committing);
    [|intros [] j1 Hj1|done].
  - apply after_preserves; [|done]. apply preserves_bind; [by apply preserves_ask|]. intros who j1 Hj1. unfold emodify. cbn [snd].
    destruct (request_cancel _) as [won c]. by destruct who.
  - apply after_bind. unfold after at 1, ask. cbn beta iota. set (j2 := record_action APoll j1). unfold after.
    assert (Hj2 : job_status j2 = Committing) by done. clearbody j2. destruct (env_cancelled _), (jb_decision j2); done.
Qed.

Lemma verify_decides started a j :
  after (verify_pending rq capture_id started a) (fun _ => decided) (fun _ _ => True) j.
Proof using Type.
  unfold verify_pending. do 9 (apply after_rest; intros ? ?). apply after_bind.
  eapply after_mono; [apply after_transition| |done]. intros [] s Hs. cbn beta. apply after_bind.
  eapply after_mono; [by apply after_claim| |done]. done.
Qed.

Lemma pipeline_decides j :
  after (run_pipeline policy_json package_version rq capture_id) (fun _ => decided) (fun _ _ => True) j.
Proof using Type.
  unfold run_pipeline. do 5 (apply after_rest; intros ? ?). apply after_rest. intros [[[info validation] browser] captured] s1.
  unfold finalize. apply after_rest. intros [[w' transform] started] s2. apply after_rest. intros staged s3.
  apply after_bind. unfold dropping. apply after_bind, after_attempt.
  eapply after_mono; [apply verify_decides| |by intros e s4 _; apply after_rest]. cbn beta.
  intros [[report encoding] verification] s4 Hs4. apply after_ret. apply after_preserves; [|done].
  apply preserves_bind; [apply (preserves_clock decided decided_ask)|]. intros commit_started.
  apply preserves_bind; [apply (preserves_commit decided decided_ask decided_files)|]. intros artifact.
  do 2 (apply preserves_bind; [apply (preserves_elapsed decided decided_ask)|]; intros ?). apply preserves_ret.
Qed.
End Pipeline.

(** ** The end of a job *)

#[global] Arguments emitted : simpl never.

Definition finals (t : Trace) : list CaptureEvent := List.filter event_is_terminal (emitted t).

Lemma finals_other a t : is_final a = false -> finals (a :: t) = finals t.
Proof.
  intros Ha. unfold finals, emitted. cbn [omap list_omap]. destruct a; try done. cbn in Ha. cbn [rev].
  rewrite List.filter_app. cbn. by rewrite Ha, app_nil_r.
Qed.

Lemma finals_emit e t : event_is_terminal e = true -> finals (AEmit e :: t) = finals t ++ [e].
Proof. intros He. unfold finals, emitted. cbn [omap list_omap rev]. rewrite List.filter_app. cbn. by rewrite He. Qed.

Lemma finals_none t : nonfinal t -> finals t = [].
Proof. induction 1 as [|a t Ha _ IH]; [done|]. by rewrite finals_other. Qed.

(** The same job but for what was asked and for the file system. *)
Definition same_job (j j' : Job) : Prop :=
  job_status j' = job_status j /\ finals (trace_of j') = finals (trace_of j) /\ jb_decision j' = jb_decision j /\
  jb_timed_out j' = jb_timed_out j /\ jb_result j' = jb_result j.

Lemma same_job_ask j a k : is_final a = false -> same_job j k -> same_job j (record_action a k).
Proof. intros Ha (? & Hf & ?). split; [done|]. split; [|done].
  change (finals (a :: trace_of k) = finals (trace_of j)). by rewrite finals_other. Qed.

Lemma same_job_files j s k : same_job j k -> same_job j (set_files s k).
Proof. done. Qed.

Section Settles.
Context `{UrlLib} `{UrlEdit} `{UrlView} `{Networks} `{Environment} `{Hashing} `{TempNames} `{DataUrls} `{Encodings}.
Context `{HtmlParser} `{CssTokens} `{Platform} `{Scripts} `{Floats} `{PrettyJson}.
Context (capture_id : CaptureId).

(** Attaching diagnostics gives the same error, with a note. *)
Lemma attach_same e j : exists e' j', attach_diagnostics capture_id e j = (Ok e', j') /\ err_code e' = err_code e /\ same_job j j'.
Proof using Type.
  pose proof (preserves_attach (same_job j) (same_job_ask j) (same_job_files j) capture_id e j) as Hp.
  unfold attach_diagnostics, disk, ask in *. unfold ebind, eget in *.
  destruct (jb_diagnostics j) as [d|]; [|by exists e, j].
  cbn [fst snd] in *. set (w := World _ _) in *. unfold attach, mthen, attempt in *.
  destruct (diagnostics_write _ _ _ _ _ w) as [[p|x|] w']; eexists _, _; (split; [reflexivity|]); (split; [reflexivity|]); by apply Hp.
Qed.

Lemma fails e j : job_status j <> Succeeded -> job_status j <> Cancelled -> job_status j <> Failed ->
  exists e' j', finish_failed_job capture_id e j = (Ok tt, j') /\ jb_result j' = Some (Err e') /\ job_status j' = Failed /\
    jb_decision j' = jb_decision j /\ finals (trace_of j') = finals (trace_of j) ++ [CaptureFailed capture_id e'].
Proof using Type.
  intros Hn1 Hn2 Hn3. unfold finish_failed_job. unfold ebind at 1, eattempt.
  assert (Hm : job_transition Failed j = (Ok tt, set_capturing (set_machine (MkMachine Failed) (jb_capturing j)) j)).
  { unfold job_transition, in_capture, epart, transition. unfold job_status in *.
    replace (negb (can_transition (status (cg_machine (jb_capturing j))) Failed)) with false; [done|].
    by destruct (status (cg_machine (jb_capturing j))). }
  rewrite Hm. cbn beta iota. set (j1 := set_capturing _ j). unfold ebind at 1.
  destruct (attach_same e j1) as (e' & j2 & -> & _ & Hs & Hf & Hd & _ & Hr). exists e'. eexists. split; [reflexivity|].
  split; [done|]. split; [exact Hs|]. split; [exact Hd|].
  change (finals (AEmit (CaptureFailed capture_id e') :: trace_of j2) = finals (trace_of j1) ++ [CaptureFailed capture_id e']).
  by rewrite finals_emit, Hf.
Qed.

Lemma cancels e j : alive (job_status j) = true ->
  exists e' j', finish_cancelled capture_id e j = (Ok tt, j') /\ jb_result j' = Some (Err e') /\ job_status j' = Cancelled /\
    jb_decision j' = jb_decision j /\ finals (trace_of j') = finals (trace_of j) ++ [CaptureCancelled capture_id] /\
    err_code e' = (if jb_timed_out j' then "offprint.runtime.timeout" else "offprint.runtime.cancelled").
Proof using Type.
  intros Ha. unfold finish_cancelled. unfold ebind at 1, eattempt.
  assert (Hm : (do! job_transition Cancelling ;; job_transition Cancelled) j =
    (Ok tt, set_capturing (set_machine (MkMachine Cancelled) (jb_capturing j)) j)).
  { unfold ebind, job_transition, in_capture, epart, transition. unfold job_status in *.
    replace (negb (can_transition (status (cg_machine (jb_capturing j))) Cancelling)) with false; [done|].
    by destruct (status (cg_machine (jb_capturing j))). }
  rewrite Hm. cbn beta iota. set (j1 := set_capturing _ j). unfold ebind at 1, emit, emodify. cbn beta iota.
  set (j2 := record_action _ j1). unfold ebind at 1, eget. cbn beta iota. unfold ebind at 1.
  destruct (attach_same (with_source e (if jb_timed_out j2 then set_retryable true (new_error "offprint.runtime.timeout" Shutdown)
    else new_error "offprint.runtime.cancelled" Shutdown)) j2) as (e' & j3 & -> & Hc & Hs & Hf & Hd & Ht & Hr).
  exists e'. eexists. split; [reflexivity|]. split; [done|]. split; [exact Hs|]. split; [exact Hd|]. split.
  - change (finals (trace_of j3) = finals (trace_of j1) ++ [CaptureCancelled capture_id]). rewrite Hf.
    change (trace_of j2) with (AEmit (CaptureCancelled capture_id) :: trace_of j1). by rewrite finals_emit.
  - change (err_code e' = if jb_timed_out j3 then "offprint.runtime.timeout" else "offprint.runtime.cancelled").
    rewrite Hc, Ht. by destruct (jb_timed_out j2).
Qed.

Lemma succeeds receipt j : job_status j = Committing ->
  finish_succeeded capture_id receipt j =
    (Ok tt, set_result (Ok receipt)
       (record_action (AEmit (CaptureSucceeded capture_id (rc_verification receipt)))
          (set_capturing (set_machine (MkMachine Succeeded) (jb_capturing j)) j))).
Proof using Type.
  intros Hs. unfold finish_succeeded. unfold ebind at 1, eattempt.
  assert (Hm : job_transition Succeeded j = (Ok tt, set_capturing (set_machine (MkMachine Succeeded) (jb_capturing j)) j)).
  { unfold job_transition, in_capture, epart, transition. unfold job_status in Hs. by rewrite Hs. }
  by rewrite Hm.
Qed.

(** Others can only turn an open decision into a cancellation. *)
Lemma others_run D b j : exists j', others b j = (Ok tt, j') /\ (running D j -> running D j') /\ job_status j' = job_status j /\
  (jb_decision j = Commitment -> jb_decision j' = Commitment).
Proof using Type.
  pose proof (running_others (D := D) b j) as Hr. unfold others, ebind, ask, emodify in *. cbn -[env_requested] in *.
  set (c := request_cancel _) in *. assert (Hc : jb_decision j = Commitment -> ct_decision c.2 = Commitment).
  { intros E. unfold c. by rewrite E. }
  destruct c as [won c]. eexists. split; [reflexivity|]. split; [exact Hr|]. by destruct (env_requested _).
Qed.
End Settles.

Section Outcome.
Context `{UrlLib} `{UrlEdit} `{UrlView} `{Networks} `{Environment} `{Hashing} `{TempNames} `{DataUrls} `{Encodings}.
Context `{HtmlParser} `{CssTokens} `{Platform} `{Scripts} `{Floats} `{PrettyJson} {Hlaws : UrlLaws}.

Lemma running_new files diagnostics : running diagnostics (job_new [] files diagnostics).
Proof using Type. split; [done|]. split; [constructor|done]. Qed.

Lemma running_open D j : running D j -> job_status j <> Succeeded /\ job_status j <> Cancelled /\ job_status j <> Failed.
Proof using Type. intros [Ha _]. by destruct (job_status j). Qed.

(** C5: a job ends once, and says so in one way. However the page, the browser, the
    file system and those who may cancel behave, the run of a job sets its result,
    and its status, its one terminal event and the terminal decision agree with it:
    a receipt with success and a commit that was claimed; an error with cancellation
    exactly when cancellation won the decision, and then the code says whether it
    was the deadline; any other error with failure, reported in the event with the
    diagnostics attached. *)
Theorem job_settles policy_json package_version rq capture_id files diagnostics :
  exists outcome j,
    run_capture_job policy_json package_version rq capture_id (job_new [] files diagnostics) = (Ok tt, j) /\
    jb_result j = Some outcome /\
    match outcome with
    | Ok receipt =>
        job_status j = Succeeded /\ jb_decision j = Commitment /\
        finals (trace_of j) = [CaptureSucceeded capture_id (rc_verification receipt)]
    | Err e =>
        (job_status j = Cancelled /\ jb_decision j = Cancellation /\ finals (trace_of j) = [CaptureCancelled capture_id] /\
         err_code e = (if jb_timed_out j then "offprint.runtime.timeout" else "offprint.runtime.cancelled")) \/
        (job_status j = Failed /\ jb_decision j <> Cancellation /\ finals (trace_of j) = [CaptureFailed capture_id e])
    end.
Proof using Hlaws.
  unfold run_capture_job. unfold ebind at 1, eattempt.
  pose proof (running_pipeline policy_json package_version rq capture_id _ (running_new files diagnostics)) as Hr.
  pose proof (pipeline_decides policy_json package_version rq capture_id (job_new [] files diagnostics)) as Hd.
  unfold after in Hd. destruct (run_pipeline _ _ _ _ _) as [result j1]. cbn [snd] in Hr. unfold ebind at 1.
  destruct (others_run diagnostics true j1) as (j2 & -> & Hr2 & Hs2 & Hd2). specialize (Hr2 Hr).
  destruct result as [receipt|e].
  - destruct Hd as [Hst Hde]. rewrite (succeeds capture_id receipt j2) by congruence.
    eexists (Ok receipt), _. do 3 (split; [reflexivity|]). split; [by apply Hd2|].
    change (finals (AEmit (CaptureSucceeded capture_id (rc_verification receipt)) :: trace_of j2) =
      [CaptureSucceeded capture_id (rc_verification receipt)]).
    rewrite finals_emit by done. by rewrite finals_none by apply Hr2.
  - unfold ebind at 1. destruct (others_run diagnostics false j2) as (j3 & -> & Hr3 & _ & _). specialize (Hr3 Hr2).
    unfold ebind at 1, job_cancellation_won, ebind at 1, eget, eret, cancellation_won. cbn [ct_decision].
    destruct (bool_decide_reflect (jb_decision j3 = Cancellation)) as [Hc|Hc].
    + destruct (cancels capture_id e j3) as (e' & j4 & -> & Hres & Hs & Hdec & Hf & Hcode); [apply Hr3|].
      exists (Err e'), j4. do 2 (split; [done|]). left. rewrite Hf, finals_none by apply Hr3. split_and!; try done. congruence.
    + destruct (running_open _ j3 Hr3) as (Hn1 & Hn2 & Hn3).
      destruct (fails capture_id e j3 Hn1 Hn2 Hn3) as (e' & j4 & -> & Hres & Hs & Hdec & Hf).
      exists (Err e'), j4. do 2 (split; [done|]). right. rewrite Hf, finals_none by apply Hr3. split_and!; try done. congruence.
Qed.
End Outcome.
