(* ===== verification/JobDelivery.v ===== *)
(** * What a job delivers

    The artifact of a successful job is the text that was verified, whole and under
    a name the request allows; a job that fails or is cancelled delivers nothing. *)

From Stdlib Require Import ZArith Lia Ascii String.
From stdpp Require Import base tactics list gmap strings numbers sorting.
From S2P Require Import Prelude.
From S2P Require Import Errors.
From S2P Require Import Fs.
From S2P Require Import Io.
From S2P Require Import FsFacts.
From S2P Require Import Records.
From S2P Require Import Durable.
From S2P Require Import Budget.
From S2P Require Import Lifecycle.
From S2P Require Import ContentStore.
From S2P Require Import Network.
From S2P Require Import SingleFile.
From S2P Require Import SingleFileFacts.
From S2P Require Import Names.
From S2P Require Import Requests.
From S2P Require Import Schedule.
From S2P Require Import Dom.
From S2P Require Import Sink.
From S2P Require Import Serialize.
From S2P Require Import Html.
From S2P Require Import Frames.
From S2P Require Import Verify.
From S2P Require Import Discover.
From S2P Require Import Effects.
From S2P Require Import Browser.
From S2P Require Import Materialize.
From S2P Require Import Render.
From S2P Require Import RenderTrace.
From S2P Require Import FrameTree.
From S2P Require Import CaptureTrace.
From S2P Require Import Diagnostics.
From S2P Require Import Job.
From S2P Require Import JobFacts.

#[local] Open Scope string_scope.
#[local] Open Scope list_scope.
#[local] Open Scope Z_scope.

(** ** Programs under schedules without stops do not stop *)

Definition stop_free (l : list fault) : Prop :=
  Forall (fun f => match f with FCrash | FTorn _ None => False | _ => True end) l.

Lemma survive_stop_free l : stop_free (map survive l).
Proof. induction l as [|f l IH]; constructor; [|done]. by destruct f as [| | |n [e|]]. Qed.

Definition steady {E A} (m : M E A) : Prop := forall w, stop_free (w_faults w) ->
  match m w with (Crash, _) => False | (_, w') => stop_free (w_faults w') end.

Section Steady.
Context {E : Type}.

Lemma steady_pure {A} (a : A) : steady (mpure a : M E A).
Proof. by intros w. Qed.
Lemma steady_fail {A} (e : E) : steady (mfail e : M E A).
Proof. by intros w. Qed.
Lemma steady_then {A B} (m : M E A) (k : A -> M E B) : steady m -> (forall a, steady (k a)) -> steady (mthen m k).
Proof. intros Hm Hk w Hw. specialize (Hm w Hw). unfold mthen. destruct (m w) as [[a|e|] w']; [by apply Hk|done..]. Qed.
Lemma steady_map_err {E' A} (f : E' -> E) (m : M E' A) : steady m -> steady (map_err f m).
Proof. intros Hm w Hw. specialize (Hm w Hw). unfold map_err. by destruct (m w) as [[a|e|] w']. Qed.
Lemma steady_attempt {E' A} (m : M E' A) : steady m -> steady (attempt m : M E (result E' A)).
Proof. intros Hm w Hw. specialize (Hm w Hw). unfold attempt. by destruct (m w) as [[a|e|] w']. Qed.
End Steady.

Lemma steady_sys_torn {A} (f : call A) torn : steady (sys_torn f torn).
Proof.
  intros [s l] Hl. cbn in Hl. unfold sys_torn. cbn. destruct Hl as [|x l Hx Hl]; cbn.
  - destruct (f s) as [[a s']|k]; constructor.
  - destruct x as [| | |n [e|]]; try done. by destruct (f s) as [[a s']|k].
Qed.

Ltac steady_step :=
  match goal with
  | |- steady (mthen _ _) => apply steady_then; [|intros ?]
  | |- steady (map_err _ _) => apply steady_map_err
  | |- steady (attempt _) => apply steady_attempt
  | |- steady (mpure _) => apply steady_pure
  | |- steady (mfail _) => apply steady_fail
  | |- steady (sys_torn _ _) => apply steady_sys_torn
  | |- steady (sys _) => apply steady_sys_torn
  | |- steady (if ?b then _ else _) => destruct b
  | |- steady (match ?x with _ => _ end) => destruct x
  end.
Ltac steady := repeat steady_step.

Section SteadyFiles.
Context `{Hashing}.

Lemma steady_create p c : steady (writer_create p c).
Proof. unfold writer_create, validate_destination, fs_symlink_metadata, fs_temp_file_in. steady. Qed.

Lemma steady_write taken buffer w : steady (writer_write taken buffer w).
Proof. unfold writer_write. steady. Qed.

Lemma steady_or_drop {A} t (m : R A) : steady m -> steady (or_drop t m).
Proof. intros Hm. unfold or_drop, fs_remove_file. apply steady_then; [by apply steady_attempt|]. intros r. steady. Qed.

Lemma steady_finish w : steady (writer_finish w).
Proof. unfold writer_finish. apply steady_then; [|intros ?; steady]. apply steady_or_drop. unfold fs_sync_file. steady. Qed.

Lemma steady_read maximum a : steady (read_all maximum a).
Proof. unfold read_all, fs_read_at. steady. Qed.

Lemma steady_rehash fuel : forall i offset remaining hasher, steady (rehash fuel i offset remaining hasher).
Proof.
  induction fuel as [|fuel IH]; intros i offset remaining hasher; cbn [rehash]; [steady|]. unfold fs_read_at. steady. apply IH.
Qed.

Lemma steady_turns {A} depth (step : Z -> R (Z + A)) : (forall k, steady (step k)) -> forall from, steady (turns depth step from).
Proof.
  intros Hs. induction depth as [|depth IH]; intros from; cbn [turns]; [apply Hs|]. apply steady_then; [apply IH|].
  intros [next|a]; [apply IH|apply steady_pure].
Qed.

Lemma steady_identity t : steady (validate_staging_path_identity t).
Proof. unfold validate_staging_path_identity, staging_matches_path, fs_symlink_metadata, fs_file_metadata. steady. Qed.

Lemma steady_unique t requested : steady (persist_unique t requested).
Proof.
  unfold persist_unique. apply steady_then; [|intros r; steady]. apply steady_turns. intros k.
  unfold try_candidate, fs_persist_noclobber. steady.
Qed.

Lemma steady_commit a : steady (commit_single a).
Proof.
  unfold commit_single, commit_with_parent_sync, open_parent_directory, fs_open_dir, fs_sync_handle.
  apply steady_then; [apply steady_or_drop; steady|]. intros _. apply steady_then; [apply steady_or_drop|intros ?; steady].
  apply steady_then.
  - unfold validate_staged_contents, fs_sync_file, fs_read_at. apply steady_then; [apply steady_identity|]. intros _.
    apply steady_then; [steady|]. intros _. apply steady_then; [apply steady_rehash|]. intros [[remaining hasher] offset].
    apply steady_then; [steady|]. intros trailing. pose proof steady_identity. steady; auto.
  - intros _. unfold persist_noclobber, persist_replace, fs_persist_noclobber, fs_persist, fs_rename.
    destruct (sf_conflict a); [steady|steady|apply steady_unique].
Qed.
End SteadyFiles.

(** ** One directory *)

Section Directory.
Context `{Hashing} (d : path) (name : string) (m : gmap string Fs.node).

(** Nothing was delivered: the directory is as before, up to one temporary file. *)
Definition undelivered (s : fs) : Prop :=
  dir_is d m s \/ exists tmp n, m !! tmp = None /\ dir_is d (<[tmp := n]> m) s.

(** A temporary file of the directory holds [content]. *)
Definition staged_as (t : NamedTempFile) (content : bytes) (s : fs) : Prop :=
  exists tmp, nt_path t = d ++ [tmp] /\ name <> tmp /\ m !! tmp = None /\
    dir_is d (<[tmp := NFile (nt_ino t)]> m) s /\ file_bytes s (nt_ino t) = content.

Lemma staged_undelivered t content s : staged_as t content s -> undelivered s.
Proof using Type. intros (tmp & _ & _ & Hm & Hd & _). right. by exists tmp, (NFile (nt_ino t)). Qed.

(** Where the policy lets the artifact go. *)
Definition allowed (conflict : ConflictPolicy) (c : string) : Prop :=
  match conflict with
  | ConflictFail => c = name /\ m !! name = None
  | ConflictReplace => c = name
  | ConflictUniquify => m !! c = None /\ exists k, 0 <= k < 2 ^ 32 /\ c = candidate_name name k
  end.

Definition delivered (conflict : ConflictPolicy) (c : string) (content : bytes) (s : fs) : Prop :=
  allowed conflict c /\ exists i, dir_is d (<[c := NFile i]> m) s /\ file_bytes s i = content.

Lemma wp_validate_destination p c s :
  wp false (validate_destination p c) (fun _ s' => s' = s) (fun _ s' => s' = s) (fun _ => True) s.
Proof using Type.
  unfold validate_destination. destruct (file_name p); [|by apply wp_fail].
  unfold fs_symlink_metadata. do 2 wp_step. apply wp_sys; [|done|done].
  unfold sys_symlink_metadata. intros md s' E. destruct (lookup_nofollow s (parent p)); [|done]. injection E as _ <-.
  destruct (m_is_symlink md || negb (m_is_dir md)); [by apply wp_fail|]. do 2 wp_step. apply wp_sys.
  - intros md' s' E. destruct (lookup_nofollow s p); [|done]. injection E as _ <-.
    repeat (match goal with |- wp _ (if ?b then _ else _) _ _ _ _ => destruct b end; [by apply wp_fail|]). by apply wp_pure.
  - intros k _. destruct k; first [by apply wp_pure|by apply wp_fail].
  - intros _. split; [|done]. intros e. destruct (env_kind e); first [by apply wp_pure|by apply wp_fail].
Qed.

Lemma draw_temp_file_spec prefix s (Hd : dir_is d m s) names : forall t s',
  draw_temp_file prefix d names s = Ok (t, s') ->
  exists suffix, let tmp := String.append prefix suffix in nt_path t = d ++ [tmp] /\ m !! tmp = None /\
    dir_is d (<[tmp := NFile (nt_ino t)]> m) s' /\ file_bytes s' (nt_ino t) = [].
Proof using Type.
  induction names as [|suffix names IH]; intros t s' E; cbn [draw_temp_file] in E; [done|].
  set (tmp := String.append prefix suffix) in *. destruct (m !! tmp) as [n|] eqn:Hm.
  - assert (Hc : sys_create_new (d ++ [tmp]) s = Err AlreadyExists).
    { unfold sys_create_new, place. rewrite (locate_direct _ _ _ _ Hd). cbn. by rewrite (tget_snoc _ _ _ _ Hd), Hm. }
    rewrite Hc in E. by apply IH.
  - destruct (create_new_in d m tmp s Hd Hm) as (s1 & Hc & Hd1 & Hf). rewrite Hc in E. injection E as <- <-.
    exists suffix. done.
Qed.

Lemma wp_create conflict s : dir_is d m s ->
  wp false (writer_create (d ++ [name]) conflict)
    (fun w s' => staged_as (fw_staging w) [] s' /\ fw_hasher w = [] /\ fw_bytes w = 0 /\
       fw_destination w = d ++ [name] /\ fw_conflict w = conflict)
    (fun _ s' => undelivered s') (fun _ => True) s.
Proof using Type.
  intros Hd. unfold writer_create. wp_step. eapply wp_mono; [apply wp_validate_destination| |by intros e s' ->; left|done].
  intros [] s' ->. rewrite file_name_app, parent_app. unfold fs_temp_file_in. do 2 wp_step.
  apply wp_sys; [|intros; by left|intros _; split; [|done]; intros; by left].
  intros t s' E. apply wp_pure. destruct (draw_temp_file_spec _ s Hd _ _ _ E) as (suffix & Hp & Hm & Hd' & Hf). cbn.
  split; [|done]. eexists. split; [exact Hp|]. split; [|done].
  replace (String.append ("." +:+ name +:+ ".offprint-") suffix) with (temp_file_name name suffix);
    [apply temp_name_differs|].
  unfold temp_file_name. apply as_bytes_inj. by rewrite !as_bytes_app, <- !app_assoc.
Qed.

Lemma wp_write taken buffer w s : staged_as (fw_staging w) (fw_hasher w) s ->
  wp false (writer_write taken buffer w)
    (fun r s' => exists n w', r = (n, w') /\ (n <= length buffer)%nat /\ fw_hasher w' = fw_hasher w ++ take n buffer /\
       fw_staging w' = fw_staging w /\ fw_destination w' = fw_destination w /\ fw_conflict w' = fw_conflict w /\
       fw_bytes w' = saturating_add u64_max (fw_bytes w) (Z.min u64_max (Z.of_nat n)) /\
       staged_as (fw_staging w') (fw_hasher w') s')
    (fun _ s' => s' = s) (fun _ => True) s.
Proof using Type.
  intros (tmp & Hp & Hn & Hm & Hd & Hf). unfold writer_write. wp_step. apply wp_sys; [|done|done].
  intros [] s' E. injection E as <-. apply wp_pure. eexists _, _. split; [reflexivity|].
  rewrite length_take. split; [lia|]. split; [done|]. do 4 (split; [done|]). cbn.
  exists tmp. do 3 (split; [done|]). split; [exact Hd|]. rewrite file_bytes_set, Hf. f_equal.
  destruct (Nat.le_ge_cases taken (length buffer)); [by rewrite Nat.min_l by lia|].
  rewrite Nat.min_r by lia. by rewrite !take_ge by lia.
Qed.

(** The temporary file is taken away, or stays. *)
Lemma remove_staged t content s : staged_as t content s ->
  wp false (fs_remove_file (nt_path t)) (fun _ => undelivered) (fun _ => undelivered) (fun _ => True) s.
Proof using Type.
  intros Hs. pose proof (staged_undelivered _ _ _ Hs) as Hu. destruct Hs as (tmp & Hp & _ & Hm & Hd & _).
  unfold fs_remove_file. rewrite Hp. pose proof (remove_name d _ s Hd tmp) as Hr.
  apply wp_sys; [|done|done]. intros [] s' E. rewrite E in Hr. destruct Hr as [Hdir _]. left.
  by rewrite delete_insert_id in Hdir.
Qed.

Lemma wp_dropped {A} t content (mm : R A) Q s : staged_as t content s ->
  wp false mm Q (fun _ s' => s' = s) (fun _ => True) s ->
  wp false (or_drop t mm) Q (fun _ => undelivered) (fun _ => True) s.
Proof using Type.
  intros Hs Hm. unfold or_drop. do 2 wp_step. eapply wp_mono; [exact Hm|intros; by apply wp_pure| |done].
  intros e s' ->. do 2 wp_step. eapply wp_mono; [by eapply remove_staged|intros; by apply wp_fail..|done].
Qed.

Lemma wp_finish w s : staged_as (fw_staging w) (fw_hasher w) s ->
  wp false (writer_finish w)
    (fun a s' => s' = s /\
       a = MkStagedFile (fw_destination w) (fw_conflict w) (fw_staging w) (fw_bytes w) (sha256 (fw_hasher w)))
    (fun _ => undelivered) (fun _ => True) s.
Proof using Type.
  intros Hs. unfold writer_finish, fs_sync_file. wp_step. eapply wp_dropped; [exact Hs|]. wp_step. apply wp_sys; [|done|done].
  intros [] s' E. injection E as <-. by wp_step.
Qed.

Lemma wp_read maximum a s : Z.of_nat (length (file_bytes s (nt_ino (sf_staging a)))) = sf_bytes a ->
  wp false (read_all maximum a)
    (fun content s' => s' = s /\ content = file_bytes s (nt_ino (sf_staging a)) /\ Z.of_nat (length content) <= maximum)
    (fun _ s' => s' = s) (fun _ => True) s.
Proof using Type.
  intros Hl. unfold read_all. destruct (Z.ltb_spec maximum (sf_bytes a)); [by apply wp_fail|].
  destruct (Z.ltb_spec usize_max (sf_bytes a)); [by apply wp_fail|]. unfold fs_read_at. do 2 wp_step.
  apply wp_sys; [|done|done]. intros content s' E. injection E as <- <-. rewrite drop_0.
  set (n := Z.to_nat _). destruct (negb _) eqn:El; [by apply wp_fail|]. apply wp_pure. split; [done|].
  apply negb_false_iff, Z.eqb_eq in El. assert (length (take n (file_bytes s (nt_ino (sf_staging a)))) =
    length (file_bytes s (nt_ino (sf_staging a)))) as Et.
  { unfold len_u64, usize_max in *. rewrite length_take in *. lia. }
  assert (take n (file_bytes s (nt_ino (sf_staging a))) = file_bytes s (nt_ino (sf_staging a))) as ->; [|split; [done|lia]].
  rewrite length_take in Et. apply take_ge. lia.
Qed.

Lemma wp_commit a content s : sf_destination a = d ++ [name] -> staged_as (sf_staging a) content s ->
  sf_bytes a = Z.of_nat (length content) -> sf_bytes a <= u64_max -> sf_sha256 a = sha256 content ->
  wp false (commit_single a)
    (fun r s' => fa_bytes r = Z.of_nat (length content) /\ fa_sha256 r = sha256 content /\
       exists c, fa_path r = d ++ [c] /\ delivered (sf_conflict a) c content s')
    (fun _ => undelivered) (fun _ => True) s.
Proof using Type.
  intros Hdest Hs Hb Hmax Hsha. pose proof (staged_undelivered _ _ _ Hs) as Hu. destruct Hs as (tmp & Hp & Hn & Hm & Hd & Hf).
  eapply wp_mono; [apply (wp_commit_single a s d _ name tmp Hdest Hp Hd Hn); lia| | |done].
  - intros r s' (Hrb & Hrs & c & Hrp & _ & Hch & Hdir & Hino & _). split; [congruence|]. split; [congruence|].
    exists c. split; [done|]. split.
    + unfold chosen in Hch. unfold allowed. destruct (sf_conflict a); [|done|].
      * destruct Hch as [-> Hc]. by rewrite lookup_insert_ne in Hc.
      * destruct Hch as (k & Hk & Hc & Hfree & _). split; [|by exists k].
        destruct (decide (c = tmp)) as [->|]; [by rewrite lookup_insert_eq in Hfree|by rewrite lookup_insert_ne in Hfree].
    + exists (nt_ino (sf_staging a)). rewrite delete_insert_id in Hdir by done. split; [done|].
      unfold file_bytes in *. by rewrite Hino.
  - intros e s' [[->|[Hw _]] _]; [done|]. left. by rewrite delete_insert_id in Hw.
Qed.
End Directory.

(** ** The job and its files *)

Section Files.
Context `{UrlLib} `{UrlEdit} `{UrlView} `{Networks} `{Environment} `{Hashing} `{TempNames} `{DataUrls} `{Encodings}.
Context `{HtmlParser} `{CssTokens} `{Platform} `{Scripts} `{Floats} `{PrettyJson}.

Lemma after_disk {E A} stopped (mm : M E A) (Q : A -> fs -> Prop) (X : E -> fs -> Prop) C F j :
  steady mm -> wp false mm Q X C (jb_files j) ->
  after (disk stopped mm)
    (fun r j' => match r with Ok a => Q a (jb_files j') | Err e => X e (jb_files j') end) F j.
Proof using Type.
  intros Hs Hw. unfold after, disk, ebind, ask. cbn -[env_disk]. set (l := map survive _).
  specialize (Hs (World (jb_files j) l) (survive_stop_free _)). specialize (Hw l ltac:(done)).
  destruct (mm (World (jb_files j) l)) as [[a|e|] w]; [by apply Hw|by apply Hw|done].
Qed.

Lemma after_disk_res {A} (mm : R A) Q X C j : steady mm -> wp false mm Q X C (jb_files j) ->
  after (disk_res mm) (fun a j' => Q a (jb_files j')) (fun e j' => X e (jb_files j')) j.
Proof using Type.
  intros Hs Hw. unfold disk_res. apply after_bind. eapply after_mono; [by apply (after_disk _ mm Q X C (fun _ _ => False))| |done].
  intros [a|e] j' Hj; [by apply after_ret|by apply after_err].
Qed.

(** A property of the files alone. *)
Definition on_files (P : fs -> Prop) (j : Job) : Prop := P (jb_files j).

Lemma files_ask P a j : is_final a = false -> on_files P j -> on_files P (record_action a j).
Proof using Type. done. Qed.

Lemma files_capture P {A} (m : Cg A) : preserves (on_files P) (in_capture m).
Proof using Type. intros j Hj. unfold in_capture, epart. by destruct (m _). Qed.

Lemma files_emit P e : preserves (on_files P) (emit e).
Proof using Type. by intros j. Qed.

Lemma files_others P b : preserves (on_files P) (others b).
Proof using Type.
  unfold others, ebind, ask, emodify. intros j Hj. cbn -[env_requested]. destruct (request_cancel _) as [won c].
  by destruct (env_requested _).
Qed.

Lemma files_claim P : preserves (on_files P) job_claim_commit.
Proof using Type.
  apply preserves_bind; [apply files_others|]. intros _. apply preserves_bind; [by apply (preserves_ask _ (files_ask P))|].
  intros stop j Hj. by destruct (claim_commit _).
Qed.

(** A step that keeps something, and what comes after it. *)
Lemma after_keep {A} (P : Job -> Prop) (mm : Jb A) j : preserves P mm -> P j -> after mm (fun _ => P) (fun _ => P) j.
Proof using Type. intros Hm Hj. specialize (Hm j Hj). unfold after. by destruct (mm j) as [[a|e] j']. Qed.

Lemma after_keep_then {A B} (P : Job -> Prop) (mm : Jb A) (k : A -> Jb B) Q (F : OffprintError -> Job -> Prop) j :
  preserves P mm -> P j -> (forall e j', P j' -> F e j') ->
  (forall a j', P j' -> after (k a) Q F j') -> after (ebind mm k) Q F j.
Proof using Type.
  intros Hm Hj HF Hk. apply after_bind. eapply after_mono; [by apply (after_keep P)|exact Hk|exact HF].
Qed.

(** ** Writing *)

Context (d : path) (name : string) (m : gmap string Fs.node) (spec : CaptureOutput).

Definition kept (s : fs) : Prop := match spec with OutputFile _ _ => undelivered d m s | OutputMemory _ => True end.

(** The writer has taken [content], within its limit. *)
Definition holds (w : PreparedWriter) (content : bytes) (s : fs) : Prop :=
  match spec, pw_target w with
  | OutputFile _ conflict, WriterFile fw =>
      fw_destination fw = d ++ [name] /\ fw_conflict fw = conflict /\ staged_as d name m (fw_staging fw) content s /\
      fw_hasher fw = content /\ fw_bytes fw = Z.of_nat (length content)
  | OutputMemory _, WriterMemory mw => mw_bytes mw = content /\ mw_hasher mw = content
  | _, _ => False
  end /\ pw_bytes w = Z.of_nat (length content) /\ Z.of_nat (length content) <= pw_maximum_bytes w /\
  pw_maximum_bytes w < u64_max.

Lemma drop_holds w content j : holds w content (jb_files j) ->
  after (drop_staging (writer_staging w)) (fun _ j' => kept (jb_files j')) (fun _ _ => False) j.
Proof using Type.
  unfold holds, kept, writer_staging. intros [Hh _].
  destruct spec as [p c|n], (pw_target w) as [fw|mw]; try done; cbn [drop_staging].
  destruct Hh as (_ & _ & Hs & _). apply after_bind. eapply after_mono.
  - eapply (after_disk _ _ _ _ _ (fun _ _ => False)); [apply steady_sys_torn|by eapply remove_staged].
  - intros [[]|e] j' Hj; by apply after_ret.
  - done.
Qed.

Lemma after_dropping {A} t (mm : Jb A) Q j :
  after mm Q (fun _ j' => exists w content, writer_staging w = t /\ holds w content (jb_files j')) j ->
  after (dropping t mm) Q (fun _ j' => kept (jb_files j')) j.
Proof using Type.
  intros Hm. unfold dropping. apply after_bind, after_attempt. eapply after_mono; [exact Hm|intros; by apply after_ret|].
  intros e j' (w & content & <- & Hh). apply after_bind. eapply after_mono; [by eapply drop_holds| |done].
  intros [] j1 Hj1. by apply after_err.
Qed.

Lemma new_holds (maximum : Z) j :
  match spec with OutputFile p _ => to_path p = d ++ [name] /\ dir_is d m (jb_files j) | OutputMemory n => 0 <= n end ->
  0 <= maximum < u64_max ->
  after (prepared_new spec maximum)
    (fun w j' => holds w [] (jb_files j') /\ pw_maximum_bytes w <= maximum)
    (fun _ j' => kept (jb_files j')) j.
Proof using Type.
  unfold holds, kept, prepared_new. intros Hspec Hmax. destruct spec as [p c|n].
  - destruct Hspec as [-> Hd]. apply after_bind.
    eapply after_mono; [eapply after_disk_res; [apply steady_create|by apply (wp_create d name m)]| |done].
    intros w j' (Hs & Hh & Hb & Hdst & Hc). apply after_ret. cbn. split; [split; [done|lia]|lia].
  - apply after_ret. cbn. split; [split; [done|lia]|lia].
Qed.

(** One write takes a prefix of the buffer, or nothing. *)
Lemma write_holds buffer w content j : holds w content (jb_files j) ->
  after (prepared_write buffer w)
    (fun r j' => match r with
       | Ok (n, w') => (n <= length buffer)%nat /\ holds w' (content ++ take n buffer) (jb_files j') /\
           writer_staging w' = writer_staging w /\ pw_maximum_bytes w' = pw_maximum_bytes w
       | Err _ => holds w content (jb_files j')
       end) (fun _ _ => False) j.
Proof using Type.
  intros Hh. assert (Hh0 := Hh). destruct Hh as (Ht & Hb & Hl & Hmax). unfold prepared_write.
  destruct (Z.ltb_spec (pw_maximum_bytes w) (saturating_add u64_max (pw_bytes w) (len_u64 buffer))) as [|Hle]; [by apply after_ret|].
  assert (Hfit : Z.of_nat (length content) + Z.of_nat (length buffer) <= pw_maximum_bytes w).
  { unfold saturating_add, len_u64 in Hle. rewrite Hb in Hle. lia. }
  assert (Hcount : forall n, (n <= length buffer)%nat ->
    saturating_add u64_max (Z.of_nat (length content)) (Z.min u64_max (Z.of_nat n)) =
    Z.of_nat (length (content ++ take n buffer))).
  { intros n Hn. unfold saturating_add. rewrite length_app, length_take. lia. }
  assert (Hroom : forall n, (n <= length buffer)%nat -> Z.of_nat (length (content ++ take n buffer)) <= pw_maximum_bytes w).
  { intros n Hn. rewrite length_app, length_take. lia. }
  apply after_bind. unfold target_write, holds, writer_staging in *. destruct spec as [p c|mx], (pw_target w) as [fw|mw]; try done.
  - destruct Ht as (Hdst & Hc & Hs & Hha & Hby). apply after_bind. unfold after at 1, ask. cbn beta iota.
    set (j1 := record_action AWrite j). apply after_bind.
    eapply after_mono; [eapply (after_disk _ _ _ _ _ (fun _ _ => False)); [apply steady_write|]| |done].
    { apply (wp_write d name m). rewrite Hha. exact Hs. }
    intros [r|k] j2 Hr.
    + destruct Hr as (n & w' & -> & Hn & Hha' & Hst' & Hd' & Hc' & Hby' & Hs'). apply after_ret, after_ret. cbn.
      rewrite Hha in *. rewrite Hb, Hby, Hst' in *. split; [done|]. split; [|done]. split.
      * split; [congruence|]. split; [congruence|]. rewrite Hha' in Hs'. split; [done|]. split; [done|]. by rewrite Hby', Hcount.
      * rewrite Hcount by done. split; [done|]. split; [by apply Hroom|done].
    + apply after_ret, after_ret. rewrite Hr. exact Hh0.
  - destruct Ht as [Hm1 Hm2]. unfold memory_write. destruct (Z.ltb_spec (mw_maximum_bytes mw)
      (saturating_add u64_max (len_u64 (mw_bytes mw)) (len_u64 buffer))); [by apply after_ret, after_ret|].
    apply after_ret, after_ret. cbn. rewrite Hb, Hm1, Hm2. split; [done|]. split; [|done]. rewrite take_ge by done.
    split; [done|]. specialize (Hcount (length buffer) ltac:(done)). specialize (Hroom (length buffer) ltac:(done)).
    rewrite take_ge in Hcount, Hroom by done. rewrite Hcount. done.
Qed.

(** A writer with something in it, whose temporary file is [t] and whose limit is
    [maximum]. *)
Definition filled (t : option NamedTempFile) (maximum : Z) (w : PreparedWriter) (s : fs) : Prop :=
  writer_staging w = t /\ pw_maximum_bytes w = maximum /\ exists content, holds w content s.

Lemma loop_filled t maximum fuel : forall buffer w j, filled t maximum w (jb_files j) ->
  after (write_all_loop fuel buffer w) (fun r j' => filled t maximum r.2 (jb_files j')) (fun _ _ => False) j.
Proof using Type.
  induction fuel as [|fuel IH]; intros buffer w j Hw; cbn [write_all_loop];
    (destruct (bool_decide (buffer = [])); [by apply after_ret|]); [by apply after_ret|].
  destruct Hw as (Ht & Hm & content & Hh). apply after_bind. eapply after_mono; [by apply write_holds| |done].
  intros [[n w']|e] j' Hr.
  - destruct Hr as (_ & Hh' & Ht' & Hm'). assert (Hw : filled t maximum w' (jb_files j')) by (split_and!; [congruence|congruence|eauto]).
    destruct n as [|n]; [by apply after_ret|by apply IH].
  - apply after_ret. split_and!; eauto.
Qed.

Lemma write_all_filled t maximum b wj : filled t maximum wj.1 (jb_files wj.2) ->
  filled t maximum (write_all b wj).2.1 (jb_files (write_all b wj).2.2).
Proof using Type.
  intros Hw. pose proof (loop_filled t maximum (length b) b wj.1 wj.2 Hw) as Hl. unfold write_all. unfold after in Hl.
  by destruct (write_all_loop _ _ _ _) as [[[r w]|e] j].
Qed.

Lemma encode_filled t maximum doc man wj : filled t maximum wj.1 (jb_files wj.2) ->
  filled t maximum (encode_artifact_to write_all write_too_large doc man wj).2.1
    (jb_files (encode_artifact_to write_all write_too_large doc man wj).2.2).
Proof using Type.
  intros Hw. unfold encode_artifact_to, encode_html_to. destruct (encode_document _ _) as [x|e]; [|done].
  unfold serialize_document_to. destruct (serialize_chunks x) as [chunks|]; [|done]. cbn [mbind option_bind].
  pose proof (preserves_chunks (fun wj => filled t maximum wj.1 (jb_files wj.2)) write_all (write_all_filled t maximum) chunks wj Hw) as Hc.
  by destruct (write_chunks write_all chunks wj) as [[[]|e] w].
Qed.

(** ** Reading back and committing *)

(** What is staged is [content]. *)
Definition pending_holds (a : PendingArtifact) (content : bytes) (s : fs) : Prop :=
  match spec, a with
  | OutputFile _ conflict, PendingFile f =>
      sf_destination f = d ++ [name] /\ sf_conflict f = conflict /\ staged_as d name m (sf_staging f) content s /\
      sf_bytes f = Z.of_nat (length content) /\ sf_sha256 f = sha256 content
  | OutputMemory _, PendingMemory f =>
      ma_content f = content /\ ma_bytes f = Z.of_nat (length content) /\ ma_sha256 f = sha256 content
  | _, _ => False
  end /\ Z.of_nat (length content) <= u64_max.

Lemma finish_holds w content j : holds w content (jb_files j) ->
  after (prepared_finish w) (fun a j' => pending_holds a content (jb_files j')) (fun _ j' => kept (jb_files j')) j.
Proof using Type.
  unfold holds, pending_holds, kept, prepared_finish. intros (Ht & Hb & Hl & Hmax).
  destruct spec as [p c|n], (pw_target w) as [fw|mw]; try done.
  - destruct Ht as (Hdst & Hc & Hs & Hha & Hby). apply after_bind.
    eapply after_mono; [eapply after_disk_res; [apply steady_finish|apply (wp_finish d name m); by rewrite Hha]| |done].
    intros a j' [Hj ->]. apply after_ret. cbn. rewrite Hj, Hha. split; [|lia]. by split_and!.
  - destruct Ht as [Hm1 Hm2]. apply after_bind. unfold memory_finish, try_from. rewrite Hm1, Hm2.
    destruct (Z.leb_spec (Z.of_nat (length content)) u64_max) as [|]; [|lia].
    rewrite (proj2 (Z.leb_le 0 (Z.of_nat (length content))) (Nat2Z.is_nonneg _)). apply after_lift; [|done]. intros a E. cbn in E. injection E as <-.
    apply after_ret. by split.
Qed.

Lemma pending_kept a content s : pending_holds a content s -> kept s.
Proof using Type.
  unfold pending_holds, kept. intros [Hh _]. destruct spec as [p c|n], a as [f|f]; try done.
  destruct Hh as (_ & _ & Hs & _). by eapply staged_undelivered.
Qed.

Lemma drop_pending a content j : pending_holds a content (jb_files j) ->
  after (drop_staging (pending_staging a)) (fun _ j' => kept (jb_files j')) (fun _ _ => False) j.
Proof using Type.
  unfold pending_holds, kept, pending_staging. intros [Hh _]. destruct spec as [p c|n], a as [f|f]; try done; cbn [drop_staging].
  destruct Hh as (_ & _ & Hs & _). apply after_bind. eapply after_mono.
  - eapply (after_disk _ _ _ _ _ (fun _ _ => False)); [apply steady_sys_torn|by eapply remove_staged].
  - intros [[]|e] j' Hj; by apply after_ret.
  - done.
Qed.

Lemma readback_holds maximum a content j : pending_holds a content (jb_files j) ->
  after (readback maximum a) (fun b j' => b = content /\ pending_holds a content (jb_files j'))
    (fun _ j' => pending_holds a content (jb_files j')) j.
Proof using Type.
  intros Hh. assert (Hh0 := Hh). unfold readback. unfold pending_holds in Hh. destruct Hh as [Hh Hl].
  destruct spec as [p c|n] eqn:Es, a as [f|f]; try done.
  - destruct Hh as (_ & _ & (tmp & _ & _ & _ & _ & Hf) & Hb & _).
    eapply after_mono; [eapply after_disk_res; [apply steady_read|apply wp_read; by rewrite Hf, Hb]| |].
    + intros b j' (Hj & -> & _). cbn beta. by rewrite Hj, Hf.
    + intros e j' Hj. cbn beta in *. by rewrite Hj.
  - destruct Hh as (Hc & _). by apply after_ret.
Qed.

(** What the receipt names, for the content that was verified. *)
Definition artifact_is (artifact : CaptureArtifact) (content : bytes) (s : fs) : Prop :=
  match spec with
  | OutputFile p conflict =>
      exists c, artifact = ArtifactFile (path_text p (d ++ [c])) (Z.of_nat (length content)) (sha256 content) /\
        delivered d name m conflict c content s
  | OutputMemory _ => artifact = ArtifactBytes (Z.of_nat (length content)) (sha256 content) content
  end.

Lemma commit_delivers a content j : pending_holds a content (jb_files j) ->
  after (pending_commit spec a) (fun artifact j' => artifact_is artifact content (jb_files j'))
    (fun _ j' => kept (jb_files j')) j.
Proof using Type.
  unfold pending_holds, artifact_is, kept, pending_commit. intros [Hh Hl]. destruct spec as [p c|n], a as [f|f]; try done.
  - destruct Hh as (Hd & Hc & Hs & Hb & Hsha). apply after_bind.
    eapply after_mono; [eapply after_disk_res; [apply steady_commit|apply (wp_commit d name m f content); lia || done]| |done].
    intros r j' (Hrb & Hrs & x & Hp & Hdel). apply after_ret. rewrite Hrb, Hrs, Hp. rewrite Hc in Hdel. eauto.
  - destruct Hh as (Hc & Hb & Hsha). apply after_ret. by rewrite Hc, Hb, Hsha.
Qed.
End Files.

(** ** Verification *)

Section Verified.
Context `{UrlLib} `{UrlEdit} `{UrlView} `{Networks} `{Environment} `{Hashing} `{TempNames} `{DataUrls} `{Encodings}.
Context `{HtmlParser} `{CssTokens} `{Platform} `{Scripts} `{Floats} `{PrettyJson}.

#[local] Existing Instance job_discovery.

Definition report_of (mode : VerificationMode) (content : bytes) : VerificationReport :=
  MkReport PUBLIC_SCHEMA_VERSION mode (sha256 content) (Z.of_nat (length content)) 0.

Lemma verify_static_report content r : verify_static is_utf8 content = Ok r -> r = report_of VerifyStatic content.
Proof using Type.
  unfold verify_static, verify_html, verify_with_state_restoration. intros Hv.
  destruct (inspect_document _) as [man|]; [|done]. cbn [rbind] in Hv.
  destruct (negb true && _); [done|]. destruct (validate_csp _ _ _) as [[]|]; [|done]. cbn [rbind] in Hv.
  destruct (validate_artifact_documents _ _ _ _) as [[]|]; [|done]. cbn [rbind] in Hv. unfold try_from in Hv.
  destruct (_ && _); [|done]. cbn in Hv. by injection Hv as <-.
Qed.

(** The browser, shown a file with [content] and no network, asked for nothing and
    came to rest without an error. *)
Definition seen_offline (content : bytes) (t : Trace) : Prop :=
  exists t0 file target t1 o,
    env_stage (AStage content :: t0) = Some file /\ url_from_file_path file = Some target /\
    AStage content :: t0 `suffix_of` t1 /\ env_verify_offline (AVerifyOffline target :: t1) = Ok o /\
    AVerifyOffline target :: t1 `suffix_of` t /\
    attempted_urls o = [] /\ of_page_errors o = [] /\ of_stable o = true.

Lemma seen_later content t t' : t `suffix_of` t' -> seen_offline content t -> seen_offline content t'.
Proof using Type.
  intros Hs (t0 & file & target & t1 & o & ? & ? & ? & ? & ? & ?). exists t0, file, target, t1, o. split_and!; try done; try naive_solver.
  by etrans.
Qed.

Lemma after_and {A} (mm : Jb A) Q1 Q2 (F1 F2 : OffprintError -> Job -> Prop) j : after mm Q1 F1 j -> after mm Q2 F2 j ->
  after mm (fun a j' => Q1 a j' /\ Q2 a j') (fun e j' => F1 e j' /\ F2 e j') j.
Proof using Type. unfold after. destruct (mm j) as [[a|e] j']; done. Qed.

(** What a call that may be cancelled established. *)
Lemma after_cancellable {A} (mm : Jb A) (Q : A -> Job -> Prop) j :
  (forall a j, Q a j -> Q a (record_action APoll j)) -> after mm Q (fun _ _ => True) (record_action APoll j) ->
  after (cancellable mm) Q (fun _ _ => True) j.
Proof using Type.
  intros Hq Hm. unfold cancellable, check_cancelled. do 2 apply after_bind. unfold after at 1, ask. cbn beta iota.
  destruct (env_cancelled _); [by apply after_err|]. apply after_ret. apply after_bind, after_attempt.
  eapply after_mono; [exact Hm| |]; cbn beta.
  - intros a j1 Ha. do 2 apply after_bind. unfold after at 1, ask. cbn beta iota.
    destruct (env_cancelled _); [by apply after_err|]. apply after_ret, after_ret. by apply Hq.
  - intros e j1 _. do 2 apply after_bind. unfold after at 1, ask. cbn beta iota.
    destruct (env_cancelled _); [by apply after_err|]. apply after_ret. by apply after_err.
Qed.

Definition extends (t : Trace) (j : Job) : Prop := t `suffix_of` trace_of j.

Lemma extends_ask t a j : is_final a = false -> extends t j -> extends t (record_action a j).
Proof using Type. intros _ Ht. unfold extends. rewrite trace_recorded. by apply suffix_cons_r. Qed.

Lemma offline_seen content r j :
  after (verify_offline content r)
    (fun r' j' => r' = MkReport (vr_schema_version r) VerifyOffline (vr_artifact_sha256 r) (vr_bytes r) (vr_network_requests r) /\
       seen_offline content (trace_of j')) (fun _ _ => True) j.
Proof using Type.
  unfold verify_offline. apply after_bind. unfold after at 1, ask. cbn beta iota.
  set (j1 := record_action (AStage content) j). set (t0 := trace_of j). assert (Et : trace_of j1 = AStage content :: t0) by done.
  rewrite Et. assert (Hx : extends (AStage content :: t0) j1) by (unfold extends; by rewrite Et). clearbody j1. clear Et.
  apply after_bind, after_lift; [|done]. intros file Hf. apply after_bind, after_lift; [|done]. intros target Ht.
  destruct (env_stage _) as [file'|] eqn:Es; [|done]. injection Hf as ->.
  destruct (url_from_file_path file) as [target'|] eqn:Eu; [|done]. injection Ht as ->.
  apply after_bind. eapply after_mono; [apply (after_preserves (extends (AStage content :: t0))); [|exact Hx]| |done].
  { apply preserves_map_err, preserves_open, extends_ask. }
  intros info j2 Hj2. cbn beta. apply after_bind, after_attempt.
  set (Q := fun (o : OfflineBrowserObservation) (j' : Job) => exists t1, AStage content :: t0 `suffix_of` t1 /\
    env_verify_offline (AVerifyOffline target :: t1) = Ok o /\ AVerifyOffline target :: t1 `suffix_of` trace_of j').
  assert (HQ : forall o a k, is_final a = false -> Q o k -> Q o (record_action a k)).
  { intros o a k _ (t1 & H' & H'' & Hs). exists t1. do 2 (split; [done|]). rewrite trace_recorded. by apply suffix_cons_r. }
  eapply after_mono; [apply (after_cancellable _ Q); [intros; by apply HQ|]|intros o j3 Ho|].
  3:{ intros e j3 _. apply after_rest. intros close j4. by apply after_bind, after_lift. }
  { apply after_bind. unfold after at 1, ask. cbn beta iota. set (j3 := record_action APoll j2).
    assert (Hj3 : extends (AStage content :: t0) j3) by by apply extends_ask.
    change (trace_of (record_action (AVerifyOffline target) j3)) with (AVerifyOffline target :: trace_of j3).
    apply after_lift; [|done]. intros o Ho. by exists (trace_of j3). }
  apply after_bind. eapply after_mono; [apply (after_preserves (Q o)); [|exact Ho]| |done].
  { apply preserves_attempt, preserves_close. intros a k Ha. by apply HQ. }
  clear j3 Ho. intros close j3 Ho. cbn beta. apply after_bind, after_lift; [|done]. intros o' Hc.
  destruct close as [[]|]; [|done]. cbn in Hc. injection Hc as <-.
  destruct (bool_decide_reflect (attempted_urls o = [])) as [Ha|]; cbn [negb]; [|by apply after_err].
  destruct (bool_decide_reflect (of_page_errors o = [])) as [Hp|]; cbn [negb]; [|by apply after_err].
  destruct (of_stable o) eqn:Hst; cbn [negb]; [|by apply after_err]. apply after_ret. split; [done|].
  destruct Ho as (t1 & Hs1 & Hv & Hs2). by exists t0, file, target, t1, o.
Qed.
End Verified.

(** ** From the request to the end of the job *)

Section Delivery.
Context `{UrlLib} `{UrlEdit} `{UrlView} `{Networks} `{Environment} `{Hashing} `{TempNames} `{DataUrls} `{Encodings}.
Context `{HtmlParser} `{CssTokens} `{Platform} `{Scripts} `{Floats} `{PrettyJson}.
Context (policy_json : CapturePolicyRecord -> option bytes) (package_version : string).
Context (rq : CaptureRequest) (capture_id : CaptureId) (d : path) (name : string) (m : gmap string Fs.node).

#[local] Existing Instance job_discovery.
#[local] Abbreviation spec := (rq_output rq).
#[local] Abbreviation limit := (lim_artifact_bytes (rq_limits rq)).

(** The content passed the verification the request asks for. *)
Definition verified (content : bytes) (t : Trace) : Prop :=
  is_ok (verify_static is_utf8 content) = true /\ (rq_verification rq = VerifyOffline -> seen_offline content t).

Lemma verified_later content a t : verified content t -> verified content (a :: t).
Proof using Type. intros [Hs Ho]. split; [done|]. intros Hm. eapply seen_later; [|by apply Ho]. by apply suffix_cons_r. Qed.

(** Staged and verified. *)
Definition ready (a : PendingArtifact) (content : bytes) (j : Job) : Prop :=
  pending_holds d name m spec a content (jb_files j) /\ verified content (trace_of j).

Lemma ready_ask a content x j : is_final x = false -> ready a content j -> ready a content (record_action x j).
Proof using Type. intros _ [Hp Hv]. split; [done|]. rewrite trace_recorded. by apply verified_later. Qed.

Lemma ready_transition a content next : preserves (ready a content) (in_capture (transition_to next)).
Proof using Type.
  intros j [Hp Hv]. pose proof (keeps_transition (I := verified content) (fun x t _ => verified_later content x t) next
    (jb_capturing j) Hv) as Hk. unfold after in Hk. unfold in_capture, epart.
  by destruct (transition_to next (jb_capturing j)) as [[[]|e] c].
Qed.

Lemma ready_claim a content : preserves (ready a content) job_claim_commit.
Proof using Type.
  unfold job_claim_commit, others. apply preserves_bind.
  - apply preserves_bind; [by apply (preserves_ask _ (ready_ask a content))|]. intros who j Hj. unfold emodify. cbn [snd].
    destruct (request_cancel _) as [won c]. by destruct who.
  - intros _. apply preserves_bind; [by apply (preserves_ask _ (ready_ask a content))|]. intros stop j Hj.
    by destruct (claim_commit _).
Qed.

Lemma verify_ready started a content j : pending_holds d name m spec a content (jb_files j) ->
  after (verify_pending rq capture_id started a)
    (fun r j' => ready a content j' /\ r.1.1 = report_of (rq_verification rq) content)
    (fun _ j' => pending_holds d name m spec a content (jb_files j')) j.
Proof using Type.
  intros Hp. set (P := on_files (pending_holds d name m spec a content)).
  assert (HP : forall j, ready a content j -> P j) by by intros ? [? _]. unfold verify_pending.
  apply after_bind. eapply after_mono; [by apply readback_holds| |done]. intros b j1 [-> Hp1]. fold (P j1) in Hp1. clear j Hp.
  apply (after_keep_then P); [apply files_capture|done|done|]. intros encoding j Hj. clear j1 Hp1.
  apply (after_keep_then P); [apply files_capture|done|done|]. intros _ j1 Hj1.
  apply (after_keep_then P); [apply files_emit|done|done|]. intros _ j2 Hj2.
  apply (after_keep_then P); [apply files_capture|done|done|]. intros verification_started j3 Hj3.
  apply after_bind, after_lift; [|done]. intros static_result Hv. pose proof (verify_static_report _ _ Hv) as ->.
  apply after_bind. eapply after_mono with (Q := fun report j' => ready a content j' /\ report = report_of (rq_verification rq) content)
    (F := fun _ => P); [| |done].
  { destruct (rq_verification rq) eqn:Em.
    - apply after_ret. split; [|done]. split; [done|]. split; [by rewrite Hv|by rewrite Em].
    - eapply after_mono; [apply after_and; [apply (after_keep P); [|exact Hj3]|apply offline_seen]| |by intros e j' [? _]].
      { apply (preserves_offline _ (files_ask _)). }
      cbn beta. intros report j4 (Hp4 & -> & Hs). split; [|done]. split; [done|]. split; [by rewrite Hv|done]. }
  intros report j4 [Hr ->].
  apply (after_keep_then (ready a content)); [apply (preserves_elapsed _ (ready_ask a content))|done|by intros; apply HP|].
  clear j4 Hr. intros verification j4 Hj4.
  apply (after_keep_then (ready a content)); [apply (preserves_check _ (ready_ask a content))|done|by intros; apply HP|].
  intros _ j5 Hj5. apply (after_keep_then (ready a content)); [apply ready_transition|done|by intros; apply HP|].
  intros _ j6 Hj6. apply (after_keep_then (ready a content)); [apply ready_claim|done|by intros; apply HP|].
  intros _ j7 Hj7. by apply after_ret.
Qed.

(** The clock always answers. *)
Lemma after_elapsed started j :
  after (in_capture (elapsed started)) (fun _ j' => j' = record_action AClock j) (fun _ _ => False) j.
Proof using Type. reflexivity. Qed.

(** What a receipt says. *)
Definition receipt_is (receipt : CaptureReceipt) (j : Job) : Prop :=
  exists content, verified content (trace_of j) /\ artifact_is d name m spec (rc_artifact receipt) content (jb_files j) /\
    rc_verification receipt = report_of (rq_verification rq) content /\ Z.of_nat (length content) <= limit.

Lemma encode_fills t mx info captured w j : filled d name m spec t mx w (jb_files j) ->
  after (encode_captured policy_json package_version rq capture_id info captured w)
    (fun r j' => filled d name m spec t mx r.1.1 (jb_files j'))
    (fun _ j' => exists w', filled d name m spec t mx w' (jb_files j')) j.
Proof using Type.
  intros Hf. unfold encode_captured. set (P := on_files (filled d name m spec t mx w)). fold (P j) in Hf.
  assert (HF : forall (e : OffprintError) j', P j' -> exists w', filled d name m spec t mx w' (jb_files j')) by (intros; by exists w).
  apply (after_keep_then P); [apply files_capture|done|exact HF|]. clear j Hf. intros _ j Hf.
  apply (after_keep_then P); [apply files_emit|done|exact HF|]. clear j Hf. intros _ j Hf.
  apply (after_keep_then P); [apply files_capture|done|exact HF|]. clear j Hf. intros transform_started j Hf.
  apply (after_keep_then P); [apply preserves_lift|done|exact HF|]. clear j Hf. intros doc j Hf.
  apply (after_keep_then P); [apply files_capture|done|exact HF|]. clear j Hf. intros transform j Hf.
  apply (after_keep_then P); [apply (preserves_check _ (files_ask _))|done|exact HF|]. clear j Hf. intros _ j Hf.
  apply (after_keep_then P); [apply files_capture|done|exact HF|]. clear j Hf. intros _ j Hf.
  apply (after_keep_then P); [apply files_capture|done|exact HF|]. clear j Hf. intros encoding_started j Hf.
  apply (after_keep_then P); [apply preserves_lift|done|exact HF|]. clear j Hf. intros policy j Hf.
  apply (after_keep_then P); [by apply (preserves_ask _ (files_ask _))|done|exact HF|]. clear j Hf. intros captured_at j Hf.
  apply after_bind.
  eapply after_mono with (Q := fun w' j' => filled d name m spec t mx w' (jb_files j'))
    (F := fun _ j' => exists w', filled d name m spec t mx w' (jb_files j')); [| |done].
  { unfold after. pose proof (encode_filled d name m spec t mx doc (artifact_manifest package_version rq captured_at info policy captured doc)
      (w, j) Hf) as He. destruct (encode_artifact_to _ _ _ _ _) as [[man|e] [w' j']]; [exact He|by exists w']. }
  clear P HF j Hf. intros w' j Hf. set (P := on_files (filled d name m spec t mx w')). fold (P j) in Hf.
  assert (HF : forall (e : OffprintError) j', P j' -> exists w', filled d name m spec t mx w' (jb_files j')) by (intros; by exists w').
  apply (after_keep_then P); [apply files_emit|done|exact HF|]. clear j Hf. intros _ j Hf.
  apply (after_keep_then P); [apply (preserves_check _ (files_ask _))|done|exact HF|]. clear j Hf. intros _ j Hf.
  by apply after_ret.
Qed.

Lemma finalize_delivers info total validation browser captured w j : holds d name m spec w [] (jb_files j) ->
  pw_maximum_bytes w <= limit ->
  after (finalize policy_json package_version rq capture_id info total validation browser captured w) receipt_is
    (fun _ j' => kept d m spec (jb_files j')) j.
Proof using Type.
  intros Hh Hlim. unfold finalize. set (t := writer_staging w). set (mx := pw_maximum_bytes w) in *.
  apply after_bind. eapply after_mono with (Q := fun r j' => filled d name m spec t mx r.1.1 (jb_files j'))
    (F := fun _ j' => kept d m spec (jb_files j')); [| |done].
  { apply (after_dropping d name m spec). eapply after_mono; [apply encode_fills; split_and!; eauto|done|].
    intros e j' (w' & Ht & _ & c & Hc). by exists w', c. }
  clear j Hh. intros [[w' transform] started] j (Ht & Hm & content & Hh). cbn [fst] in *.
  assert (Hl : Z.of_nat (length content) <= limit) by (destruct Hh as (_ & _ & ? & _); lia).
  apply after_bind. eapply after_mono; [by apply finish_holds| |done]. clear j Hh. intros a j Hp.
  apply after_bind. eapply after_mono with (Q := fun r j' => ready a content j' /\ r.1.1 = report_of (rq_verification rq) content)
    (F := fun _ j' => kept d m spec (jb_files j')); [| |done].
  { unfold dropping. apply after_bind, after_attempt. eapply after_mono; [apply (verify_ready _ _ content); exact Hp|intros r j' Hr; apply after_ret; exact Hr|].
    intros e j' Hj'. apply after_bind. eapply after_mono; [apply (drop_pending d name m spec a content); exact Hj'| |done]. intros [] j1 Hj1. by apply after_err. }
  clear j Hp. intros [[report encoding] verification] j [Hr Hreport]. cbn [fst] in Hreport. subst report.
  apply (after_keep_then (ready a content)); [apply (preserves_clock _ (ready_ask a content))|done| |].
  { intros e j' [Hp _]. by eapply pending_kept. }
  clear j Hr. intros commit_started j [Hp Hv].
  set (V := fun j => verified content (trace_of j)). assert (HV : forall x k, is_final x = false -> V k -> V (record_action x k)).
  { intros x k _ Hk. unfold V. rewrite trace_recorded. by apply verified_later. }
  apply after_bind. eapply after_mono; [apply after_and; [by apply commit_delivers|apply (after_keep V); [|exact Hv]]| |by intros e j' [? _]].
  { by apply (preserves_commit V HV). }
  cbn beta. clear j Hp Hv. intros artifact j [Ha Hv].
  set (D := fun j => artifact_is d name m spec artifact content (jb_files j) /\ V j).
  assert (HD : forall x k, is_final x = false -> D k -> D (record_action x k)) by (intros x k Hx [? ?]; split; [done|by apply HV]).
  apply after_bind. eapply after_mono; [apply after_elapsed| |done]. intros commit j1 ->. cbn beta.
  apply after_bind. eapply after_mono; [apply after_elapsed| |done]. intros total' j2 ->. cbn beta. apply after_ret.
  exists content. destruct (HD AClock _ eq_refl (HD AClock j eq_refl (conj Ha Hv))) as [Ha2 Hv2]. done.
Qed.

(** The request can be served: its file is to go into a directory that is there. *)
Definition placed (s : fs) : Prop :=
  match spec with
  | OutputFile p _ => to_path p = d ++ [name] /\ dir_is d m s
  | OutputMemory max_bytes => 0 <= max_bytes
  end.

Lemma placed_kept s : placed s -> kept d m spec s.
Proof using Type. unfold placed, kept. destruct spec; [intros [_ Hd]; by left|done]. Qed.

Lemma files_page P started : preserves (on_files P) (capture_page rq capture_id started).
Proof using Type.
  unfold capture_page. pose proof (preserves_open _ (files_ask P)). pose proof (preserves_close _ (files_ask P)).
  pose proof (preserves_address _ (files_ask P)). pose proof (preserves_check _ (files_ask P)).
  pose proof (@files_capture P). pose proof (files_emit P).
  assert (Hc : forall A (mm : Jb A), preserves (on_files P) mm -> preserves (on_files P) (cancellable mm))
    by (intros; by apply (preserves_cancellable _ (files_ask P))).
  eauto 20 with job.
Qed.

Lemma pipeline_delivers j : placed (jb_files j) -> 0 <= limit < u64_max ->
  after (run_pipeline policy_json package_version rq capture_id) receipt_is (fun _ j' => kept d m spec (jb_files j')) j.
Proof using Type.
  intros Hp Hlim. unfold run_pipeline. set (P := on_files placed). fold (P j) in Hp.
  assert (HF : forall (e : OffprintError) j', P j' -> kept d m spec (jb_files j')) by (intros; by apply placed_kept).
  apply (after_keep_then P); [apply files_capture|done|exact HF|]. clear j Hp. intros total j Hp.
  apply (after_keep_then P); [apply files_capture|done|exact HF|]. clear j Hp. intros _ j Hp.
  apply (after_keep_then P); [apply files_emit|done|exact HF|]. clear j Hp. intros _ j Hp.
  apply (after_keep_then P); [apply files_capture|done|exact HF|]. clear j Hp. intros validation_started j Hp.
  apply after_bind. eapply after_mono; [apply (new_holds d name m); [exact Hp|exact Hlim]| |done].
  clear P HF j Hp. intros w j [Hh Hm]. set (P := on_files (holds d name m spec w [])). fold (P j) in Hh.
  apply after_bind. eapply after_mono; [apply (after_dropping d name m spec); eapply after_mono; [apply (after_keep P); [|exact Hh]|done|]| |done].
  { apply files_page. }
  { intros e j' Hj'. by exists w, []. }
  clear j Hh. intros [[[info validation] browser] captured] j Hh. by apply finalize_delivers.
Qed.
End Delivery.

Section Delivered.
Context `{UrlLib} `{UrlEdit} `{UrlView} `{Networks} `{Environment} `{Hashing} `{TempNames} `{DataUrls} `{Encodings}.
Context `{HtmlParser} `{CssTokens} `{Platform} `{Scripts} `{Floats} `{PrettyJson} {Hlaws : UrlLaws}.

(** A job without diagnostics that ends badly leaves the files alone. *)
Definition quiet_files (P : fs -> Prop) (j : Job) : Prop := jb_diagnostics j = None /\ P (jb_files j).

Lemma quiet_move P next : preserves (quiet_files P) (job_transition next).
Proof using Type.
  intros j [Hd Hj]. unfold job_transition, in_capture, epart. by destruct (transition _ _) as [[[]|e] c].
Qed.

Lemma quiet_attach P capture_id e : preserves (quiet_files P) (attach_diagnostics capture_id e).
Proof using Type. intros j [Hd Hj]. unfold attach_diagnostics, ebind, eget. by rewrite Hd. Qed.

Lemma quiet_failed P capture_id e : preserves (quiet_files P) (finish_failed_job capture_id e).
Proof using Type.
  unfold finish_failed_job. apply preserves_bind; [apply preserves_attempt, quiet_move|]. intros r.
  apply preserves_bind; [apply quiet_attach|]. intros e'. apply preserves_bind; [by intros ?|by intros ? ?].
Qed.

Lemma quiet_cancelled P capture_id e : preserves (quiet_files P) (finish_cancelled capture_id e).
Proof using Type.
  unfold finish_cancelled. apply preserves_bind; [apply preserves_attempt, preserves_bind; intros; apply quiet_move|].
  intros [[]|te]; [|apply quiet_failed]. apply preserves_bind; [by intros ?|]. intros _. apply preserves_bind; [by intros ?|].
  intros j. apply preserves_bind; [apply quiet_attach|]. by intros ? ?.
Qed.

Lemma receipt_others rq d name m receipt b : preserves (receipt_is rq d name m receipt) (others b).
Proof using Type.
  unfold others, ebind, ask, emodify. intros j (content & Hv & Hx). cbn -[env_requested].
  destruct (request_cancel _) as [won c]. destruct (env_requested _); exists content; (split; [by apply verified_later|done]).
Qed.

(** C4: what is delivered is what was verified. For a request for a file in an
    existing directory, or for an artifact in memory, with a size limit that is not
    the largest number: when the job ends with a receipt there is one content that
    passed static verification and, if the request asks for it, was shown to a
    browser without network that asked for nothing and came to rest without errors;
    it is within the limit, the receipt and its verification report carry its length
    and digest, and it is what the artifact holds: the bytes returned, or the file,
    whole, under a name the conflict policy allows, in a directory otherwise as it
    was. When the job ends with an error and writes no diagnostics, the directory is
    as it was, but for at most one temporary file. *)
Theorem delivered_is_verified policy_json package_version rq capture_id d name m files diagnostics :
  placed rq d name m files -> 0 <= lim_artifact_bytes (rq_limits rq) < u64_max ->
  let j := (run_capture_job policy_json package_version rq capture_id (job_new [] files diagnostics)).2 in
  match jb_result j with
  | Some (Ok receipt) => receipt_is rq d name m receipt j
  | _ => diagnostics = None -> kept d m (rq_output rq) (jb_files j)
  end.
Proof using Hlaws.
  intros Hp Hlim. cbn zeta. set (j0 := job_new [] files diagnostics).
  enough (exists j, run_capture_job policy_json package_version rq capture_id j0 = (Ok tt, j) /\
    ((exists receipt, jb_result j = Some (Ok receipt) /\ receipt_is rq d name m receipt j) \/
     (exists e, jb_result j = Some (Err e) /\ (diagnostics = None -> kept d m (rq_output rq) (jb_files j)))))
    as (j & -> & [(receipt & Hres & Hx)|(e & Hres & Hx)]) by (cbn [snd]; by rewrite Hres).
  unfold run_capture_job. unfold ebind at 1, eattempt.
  pose proof (running_pipeline policy_json package_version rq capture_id _ (running_new files diagnostics)) as Hr.
  pose proof (pipeline_decides policy_json package_version rq capture_id j0) as Hd.
  pose proof (pipeline_delivers policy_json package_version rq capture_id d name m j0 Hp Hlim) as Hdel. fold j0 in Hr.
  unfold after in Hd, Hdel. destruct (run_pipeline _ _ _ _ j0) as [result j1]. cbn [snd] in Hr. unfold ebind at 1.
  destruct (others_run diagnostics true j1) as (j2 & E2 & Hr2 & Hs2 & Hd2). specialize (Hr2 Hr). rewrite E2.
  destruct result as [receipt|e].
  - assert (Hx2 : receipt_is rq d name m receipt j2).
    { pose proof (receipt_others rq d name m receipt true j1 Hdel) as Hx. by rewrite E2 in Hx. }
    destruct Hd as [Hst _]. rewrite (succeeds capture_id receipt j2) by congruence. eexists. split; [reflexivity|]. left.
    exists receipt. split; [done|]. destruct Hx2 as (content & Hv & Ha & Hrest). exists content. split; [by apply verified_later|done].
  - pose proof (files_others (kept d m (rq_output rq)) true j1 Hdel) as Hk2. rewrite E2 in Hk2. cbn [snd] in Hk2.
    unfold ebind at 1. destruct (others_run diagnostics false j2) as (j3 & E3 & Hr3 & _ & _). specialize (Hr3 Hr2).
    pose proof (files_others (kept d m (rq_output rq)) false j2 Hk2) as Hk3. rewrite E3 in *. cbn [snd] in Hk3.
    unfold ebind at 1, job_cancellation_won, ebind at 1, eget, eret.
    destruct (cancellation_won _).
    + pose proof (quiet_cancelled (kept d m (rq_output rq)) capture_id e j3) as Hq.
      destruct (cancels capture_id e j3) as (e' & j4 & E4 & Hres & _); [apply Hr3|]. rewrite E4 in *. exists j4. split; [done|]. right.
      exists e'. split; [done|]. intros Hn. apply Hq. split; [|done]. destruct Hr3 as (_ & _ & _ & ->). done.
    + pose proof (quiet_failed (kept d m (rq_output rq)) capture_id e j3) as Hq.
      destruct (running_open _ j3 Hr3) as (Hn1 & Hn2 & Hn3).
      destruct (fails capture_id e j3 Hn1 Hn2 Hn3) as (e' & j4 & E4 & Hres & _). rewrite E4 in *. exists j4. split; [done|]. right.
      exists e'. split; [done|]. intros Hn. apply Hq. split; [|done]. destruct Hr3 as (_ & _ & _ & ->). done.
Qed.
End Delivered.
