(* ===== verification/JobSamples.v ===== *)
(** * A sample job

    A page without resources is captured, encoded, verified, also in a browser
    without network, and delivered as a file; the same job cancelled on the way, and
    the diagnostics of a job that fails. *)

From Stdlib Require Import ZArith Lia Ascii String.
From stdpp Require Import base tactics list gmap strings numbers sorting.
From S2P Require Import Prelude.
From S2P Require Import Errors.
From S2P Require Import Fs.
From S2P Require Import Io.
From S2P Require Import FsFacts.
From S2P Require Import Records.
From S2P Require Import Durable.
From S2P Require Import Budget.
From S2P Require Import Lifecycle.
From S2P Require Import ContentStore.
From S2P Require Import Network.
From S2P Require Import SingleFile.
From S2P Require Import Names.
From S2P Require Import Requests.
From S2P Require Import Schedule.
From S2P Require Import Dom.
From S2P Require Import Sink.
From S2P Require Import Html.
From S2P Require Import Frames.
From S2P Require Import Verify.
From S2P Require Import VerifyFacts.
Import VerifySamples.
From S2P Require Import Discover.
From S2P Require Import DiscoverDocument.
Import DiscoverSamples.
From S2P Require Import Effects.
From S2P Require Import Browser.
From S2P Require Import Materialize.
From S2P Require Import Render.
From S2P Require Import RenderTrace.
From S2P Require Import RenderFacts.
From S2P Require Import RenderSamples.
From S2P Require Import FrameTree.
From S2P Require Import Diagnostics.
From S2P Require Import Job.
From S2P Require Import JobFacts.
From S2P Require Import JobDelivery.

#[local] Open Scope string_scope.
#[local] Open Scope list_scope.
#[local] Open Scope Z_scope.

(** ** The surroundings *)

Definition plain_calls : list SinkCall :=
  [ element "html" []; Append 0 (AppendNode 1);
    element "head" []; Append 1 (AppendNode 2);
    element "body" []; Append 1 (AppendNode 3) ].

Definition browser_info : BrowserInfo := MkBrowserInfo Chromium "1" SourceSystem None None None "1.3".

Definition delivered_manifest : ArtifactManifest := {|
  am_schema_version := 2; am_format_version := 2; am_generator := MkGenerator "Offprint" "0.1.0";
  am_source := MkSource "https://a/" (MkDigest []) "https://a/" (MkDigest []);
  am_captured_at := "2026-07-27T00:00:00Z"; am_browser := browser_info;
  am_environment := environment_default; am_view_state := MkView "0" "0";
  am_capture_policy_sha256 := MkDigest []; am_frames := 1;
  am_resources := MkSummary 0 0 0 0 0 0; am_resource_records := [];
  am_warning_codes := []; am_structural_repair := MkRepair false None;
  am_verification_mode := VerifyOffline |}.

Definition delivered_calls : list SinkCall :=
  [ element "html" [(DOCUMENT_SCROLL_X_ATTRIBUTE, "0"); (DOCUMENT_SCROLL_Y_ATTRIBUTE, "0")];
    Append 0 (AppendNode 1);
    element "head" []; Append 1 (AppendNode 2);
    element "meta" [("id", CSP_ELEMENT_ID); ("http-equiv", "Content-Security-Policy");
                    ("content", content_security_policy delivered_manifest)]; Append 2 (AppendNode 3);
    element "script" [("id", MANIFEST_ELEMENT_ID); ("type", MANIFEST_MEDIA_TYPE)]; Append 2 (AppendNode 4);
    Append 4 (AppendText "{manifest}");
    element "script" [("id", STATE_SCRIPT_ELEMENT_ID)]; Append 2 (AppendNode 6);
    Append 6 (AppendText "restoreState()");
    element "body" []; Append 1 (AppendNode 8) ].

#[export] Instance job_parser : HtmlParser :=
  {| parser_calls b := if is_some (String.index 0 MANIFEST_ELEMENT_ID (string_of_list_ascii b))
                       then delivered_calls else plain_calls |}.

#[export] Instance job_encodings : Encodings := {|
  base64_encode := string_of_list_ascii; base64_decode := fun s => Some (as_bytes s);
  manifest_to_json := fun _ => Some "{manifest}";
  manifest_from_json := fun s => if bool_decide (s = "{manifest}") then Some delivered_manifest else None;
  repair_from_json := fun _ => None |}.

(** Every text of a value, one after the other. *)
Fixpoint texts (v : Value) : string :=
  match v with
  | VString s => s
  | VArray l => String.concat "," (map texts l)
  | VObject fields => String.concat "," (map (fun kv => kv.1 +:+ ":" +:+ texts kv.2) fields)
  | VNull | VBool _ | VNumber _ => "-"
  end.

#[export] Instance job_json : PrettyJson := fun v => Some (as_bytes (texts v)).

(** Whoever is around asks for cancellation when [who] says so. *)
Definition job_environment (who : Trace -> Requester) : Environment := {|
  env_lookup := env_lookup; env_canonicalize := env_canonicalize; env_faults := env_faults;
  env_cancelled := env_cancelled; env_unit := env_unit; env_navigate := env_navigate; env_settle := env_settle;
  env_attached _ := Ok []; env_owner_path := env_owner_path;
  env_observe _ := Ok (MkObserved (sample_observation "page" []) 10);
  env_screenshot := env_screenshot; env_load := env_load; env_clock := env_clock;
  env_open_page _ := Ok browser_info; env_stage _ := Some "/tmp/artifact.html";
  env_verify_offline _ := Ok (MkOffline [] [] true);
  env_requested := who; env_timestamp _ := "2026-07-27T00:00:00Z";
  env_disk := env_disk; env_taken := env_taken; page_session := "top" |}.

#[export] Instance undisturbed_environment : Environment := job_environment (fun _ => Nobody).

Definition job_request : CaptureRequest :=
  MkRequest PUBLIC_SCHEMA_VERSION "https://a/" (OutputFile "/out/page.html" ConflictFail) BrowserAuto None
    environment_default readiness_default
    (MkContent MissingWarn false ScopePage None (MkOptimization false false false) [])
    credentials_empty Server (MkLimits 1000 0 4 100 20 100 400 1 2 65536 4 4) VerifyOffline (MkDiagnostics None).

Definition job_files : fs := Fs (NDir {["out" := NDir ∅]}) ∅ 0 ∅ ∅ ["abcdef"; "ghijkl"].

Definition job_run : Res unit * Job :=
  run_capture_job (fun _ => Some []) "0.1.0" job_request "capture" (job_new [] job_files None).

Definition is_delivered (j : Job) : bool := match jb_result j with Some (Ok _) => true | _ => false end.

(** The run ends with a receipt, and the directory holds the file alone. *)
Example job_delivered :
  is_delivered job_run.2 = true /\
  match sub (jb_files job_run.2) ["out"] with Some (NDir m) => map fst (map_to_list m) = ["page.html"] | _ => False end.
Proof. vm_compute. split; reflexivity. Qed.

Lemma delivered_is_verified_witness :
  exists receipt, jb_result job_run.2 = Some (Ok receipt) /\ receipt_is job_request ["out"] "page.html" ∅ receipt job_run.2.
Proof.
  pose proof (delivered_is_verified (fun _ => Some []) "0.1.0" job_request "capture" ["out"] "page.html" ∅ job_files None) as H.
  assert (is_delivered job_run.2 = true) as Hd by (vm_compute; reflexivity).
  change (placed job_request ["out"] "page.html" ∅ job_files -> 0 <= 65536 < u64_max ->
    match jb_result job_run.2 with
    | Some (Ok receipt) => receipt_is job_request ["out"] "page.html" ∅ receipt job_run.2
    | _ => @None CaptureDiagnostics = None -> kept ["out"] ∅ (rq_output job_request) (jb_files job_run.2)
    end) in H.
  unfold is_delivered in Hd. destruct (jb_result job_run.2) as [[receipt|e]|]; [|discriminate Hd|discriminate Hd].
  exists receipt. split; [reflexivity|]. apply H; [split; vm_compute; reflexivity|unfold u64_max; lia].
Defined.

(** The deadline passes before the commit is claimed. *)
Definition late_environment : Environment := job_environment (fun _ => ByDeadline).

Definition late_run : Res unit * Job :=
  @run_capture_job _ _ _ _ late_environment _ _ _ _ _ _ _ _ _ _ (fun _ => Some []) "0.1.0" job_request "capture"
    (job_new [] job_files None).

Lemma job_settles_witness :
  exists e, jb_result late_run.2 = Some (Err e) /\ job_status late_run.2 = Cancelled /\ err_code e = "offprint.runtime.timeout".
Proof.
  destruct (@job_settles _ _ _ _ late_environment _ _ _ _ _ _ _ _ _ _ _ (fun _ => Some []) "0.1.0" job_request "capture" job_files None)
    as (outcome & j & E & Hr & H).
  assert (job_status late_run.2 = Cancelled /\ jb_timed_out late_run.2 = true) as [Hs Ht] by (vm_compute; split; reflexivity).
  assert (late_run.2 = j) as Ej by (unfold late_run; rewrite E; reflexivity).
  rewrite Ej in *. destruct outcome as [receipt|e]; [destruct H as [H _]; congruence|].
  exists e. destruct H as [(_ & _ & _ & Hc)|(H & _)]; [|congruence]. rewrite Ht in Hc. split; [exact Hr|]. split; [exact Hs|exact Hc].
Defined.

(** ** Two requests with different secrets *)

Definition secret_request (value : string) (file : string) : CaptureRequest :=
  MkRequest PUBLIC_SCHEMA_VERSION "https://a/" (OutputFile file ConflictFail) (BrowserExecutable file) None
    environment_default readiness_default
    (MkContent MissingWarn false ScopePage (Some value) (MkOptimization false false false) [file])
    (MkCredentials [MkHeader "authorization" value] []) Server (rq_limits job_request) VerifyStatic (MkDiagnostics None).

Definition secret_error (value : string) : OffprintError :=
  with_detail "path" (DStr value) (new_error "offprint.output.write" Commit).

