(* ===== verification/Formats.v ===== *)
(** * Export formats

    Models the formats that wrap the HTML artifact: what they share
    ([offprint-rs/export/src/support.rs], [lib.rs]), the MHTML message ([mhtml.rs]),
    the self-extracting page ([self_extracting.rs]) and the ZIP archive ([zip.rs]).
    An encoder verifies what it wrote before it returns it.

    The JSON of a manifest, gzip and the reader and writer of ZIP archives are
    parameters. *)

From Stdlib Require Import ZArith Lia Ascii String.
From stdpp Require Import base tactics list gmap strings numbers.
From S2P Require Import Prelude.
From S2P Require Import Errors.
From S2P Require Import Records.
From S2P Require Import Requests.
From S2P Require Import Schedule.
From S2P Require Import Dom.
From S2P Require Import Sanitize.
From S2P Require Import Sink.
From S2P Require Import Html.
From S2P Require Import Verify.
From S2P Require Import Render.

#[local] Open Scope string_scope.
#[local] Open Scope list_scope.
#[local] Open Scope Z_scope.

(** ** Texts *)

Definition quote : ascii := "034"%char.
Definition carriage_return : ascii := "013"%char.
Definition newline : ascii := "010"%char.
Definition crlf : bytes := [carriage_return; newline].

(** A text of the sources, which here has a backquote for each quotation mark. *)
Definition text (s : string) : bytes :=
  map (fun c => if decide (c = "`"%char) then quote else c) (as_bytes s).

(** [str::strip_prefix], and [str::split_once], which cuts at the first place
    [str::find] finds. *)
Fixpoint strip (pat s : bytes) : option bytes :=
  match pat, s with
  | [], _ => Some s
  | p :: pat', c :: s' => if decide (p = c) then strip pat' s' else None
  | _ :: _, [] => None
  end.

Fixpoint cut (pat s : bytes) : option (bytes * bytes) :=
  match strip pat s with
  | Some rest => Some ([], rest)
  | None =>
      match s with
      | [] => None
      | c :: s' => '(before, after) ← cut pat s'; Some (c :: before, after)
      end
  end.

(** [str::split]; there are no more pieces than bytes. *)
Fixpoint pieces (fuel : nat) (pat s : bytes) : list bytes :=
  match fuel with
  | O => [s]
  | S fuel' => match cut pat s with Some (before, after) => before :: pieces fuel' pat after | None => [s] end
  end.

(** [join]. *)
Fixpoint join_with (sep : bytes) (l : list bytes) : bytes :=
  match l with
  | [] => []
  | [x] => x
  | x :: l' => x ++ sep ++ join_with sep l'
  end.

(** The last place where the bytes are found. *)
Fixpoint rfind_bytes (haystack needle : bytes) : option nat :=
  match haystack with
  | [] => None
  | _ :: rest =>
      match rfind_bytes rest needle with
      | Some i => Some (S i)
      | None => if is_some (strip needle haystack) then Some O else None
      end
  end.

(** ** Shared parts *)

Definition MAXIMUM_DECODED_HTML_BYTES : Z := 64 * 1024 * 1024.
Definition MAXIMUM_DECODED_MANIFEST_BYTES : Z := 16 * 1024 * 1024.

Record FormatEvidence := MkEvidence { fe_format : ArtifactFormat; structure_valid : bool; content_valid : bool }.

Definition into_verification (e : FormatEvidence) (size : Z) (sha256 : ContentDigest) : FormatVerification :=
  MkVerification (fe_format e) size sha256.

Definition export_error (code : string) : OffprintError := new_error code Verification.
Definition export_io_error : OffprintError := new_error "offprint.export.encode" Encoding.
Definition export_verify_io_error : OffprintError := export_error "offprint.export.verify".
Definition export_serialize_error : OffprintError := new_error "offprint.export.encode" Encoding.

Definition ensure_verified (format : ArtifactFormat) (structure_valid content_valid : bool) : Res FormatEvidence :=
  if structure_valid && content_valid then Ok (MkEvidence format structure_valid content_valid)
  else Err (with_detail "contentValid" (DBool content_valid)
              (with_detail "structureValid" (DBool structure_valid) (export_error "offprint.export.verify"))).

Record VerifiedFormat (T : Type) := MkVerifiedFormat { vf_payload : T; vf_evidence : FormatEvidence }.
Arguments MkVerifiedFormat {T} _ _.
Arguments vf_payload {T} _.
Arguments vf_evidence {T} _.

Definition verified_format {T} (format : ArtifactFormat) (payload : T) : VerifiedFormat T :=
  MkVerifiedFormat payload (MkEvidence format true true).

(** ** Markdown bundles *)

Record MarkdownBundle := MkBundle { mb_markdown : bytes; mb_assets : list (string * bytes) }.

Definition markdown_file_limit_error (stage : ErrorStage) : OffprintError := new_error "offprint.export.files" stage.
Definition markdown_byte_limit_error (stage : ErrorStage) : OffprintError := new_error "offprint.export.size" stage.

Fixpoint add_assets (maximum_bytes : Z) (stage : ErrorStage) (contents : list bytes) (total : Z) : Res Z :=
  match contents with
  | [] => Ok total
  | content :: contents' =>
      let total := saturating_add u64_max total (len_u64 content) in
      if maximum_bytes <? total then Err (markdown_byte_limit_error stage)
      else add_assets maximum_bytes stage contents' total
  end.

Definition validate_bundle_limits (b : MarkdownBundle) (maximum_assets maximum_bytes : Z) (stage : ErrorStage) : Res unit :=
  if maximum_assets <? Z.of_nat (length (mb_assets b)) then Err (markdown_file_limit_error stage)
  else
    total <-? add_assets maximum_bytes stage (map snd (mb_assets b)) (len_u64 (mb_markdown b)) ;;
    if maximum_bytes <? total then Err (markdown_byte_limit_error stage) else Ok tt.

(** [BTreeMap::insert] of the entry point. *)
Definition into_files (b : MarkdownBundle) : gmap string bytes :=
  <["index.md" := mb_markdown b]> (list_to_map (mb_assets b)).

(** ** Comparing manifests *)

#[export] Instance ExternalReason_eq_dec : EqDecision ExternalReason. Proof. solve_decision. Defined.
#[export] Instance OmissionReason_eq_dec : EqDecision OmissionReason. Proof. solve_decision. Defined.
#[export] Instance ResourceError_eq_dec : EqDecision ResourceError. Proof. solve_decision. Defined.
#[export] Instance ResourceOutcome_eq_dec : EqDecision ResourceOutcome. Proof. solve_decision. Defined.
#[export] Instance RetrievalSource_eq_dec : EqDecision ResourceRetrievalSource. Proof. solve_decision. Defined.
#[export] Instance ResourceProvenance_eq_dec : EqDecision ResourceProvenance. Proof. solve_decision. Defined.
#[export] Instance ResourceRecord_eq_dec : EqDecision ResourceRecord. Proof. solve_decision. Defined.
#[export] Instance BrowserProduct_eq_dec : EqDecision BrowserProduct. Proof. solve_decision. Defined.
#[export] Instance BrowserSource_eq_dec : EqDecision BrowserSource. Proof. solve_decision. Defined.
#[export] Instance BrowserInfo_eq_dec : EqDecision BrowserInfo. Proof. solve_decision. Defined.
#[export] Instance ManifestGenerator_eq_dec : EqDecision ManifestGenerator. Proof. solve_decision. Defined.
#[export] Instance ViewState_eq_dec : EqDecision ViewState. Proof. solve_decision. Defined.
#[export] Instance StructuralRepair_eq_dec : EqDecision StructuralRepair. Proof. solve_decision. Defined.
#[export] Instance SourceSummary_eq_dec : EqDecision SourceSummary. Proof. solve_decision. Defined.
#[export] Instance ColorScheme_eq_dec : EqDecision ColorScheme. Proof. solve_decision. Defined.
#[export] Instance ReducedMotion_eq_dec : EqDecision ReducedMotion. Proof. solve_decision. Defined.
#[export] Instance UserAgentPolicy_eq_dec : EqDecision UserAgentPolicy. Proof. solve_decision. Defined.
#[export] Instance Viewport_eq_dec : EqDecision Viewport. Proof. solve_decision. Defined.
#[export] Instance BrowserEnvironment_eq_dec : EqDecision BrowserEnvironment. Proof. solve_decision. Defined.
#[export] Instance ArtifactManifest_eq_dec : EqDecision ArtifactManifest. Proof. solve_decision. Defined.

(** [serde_json::to_vec_pretty] and [from_slice] of manifests. *)
Class ManifestJson := {
  manifest_to_pretty : ArtifactManifest -> option bytes;
  manifest_from_slice : bytes -> option ArtifactManifest;
}.

Definition manifest_encoding_matches `{ManifestJson} (b : bytes) (m : ArtifactManifest) (trailing_newline : bool) : bool :=
  match manifest_to_pretty m with
  | Some canonical => bool_decide ((if trailing_newline then canonical ++ [newline] else canonical) = b)
  | None => false
  end.

(** ** MHTML *)

Definition parse_mime_header (line : bytes) : option (string * string) :=
  '(name, value) ← cut [":"%char] line;
  if bool_decide (name = []) || existsb is_whitespace (utf8_chars name)
     || existsb (fun c => bool_decide (c = carriage_return) || bool_decide (c = newline)) value
  then None
  else Some (to_ascii_lowercase (string_of_list_ascii name), str_trim (string_of_list_ascii value)).

Fixpoint parse_header_lines (lines : list bytes) (headers : gmap string string) : option (gmap string string) :=
  match lines with
  | [] => Some headers
  | line :: lines' =>
      '(key, value) ← parse_mime_header line;
      if is_some (headers !! key) then None else parse_header_lines lines' (<[key := value]> headers)
  end.

Definition parse_mime_headers (source : bytes) : option (gmap string string) :=
  parse_header_lines (pieces (length source) crlf source) ∅.

Record MimePart := MkPart { mp_headers : gmap string string; mp_body : bytes }.

(** The loop ends when there are three parts. *)
Fixpoint parts_loop (fuel : nat) (marker remainder : bytes) (parts : list MimePart) : option (list MimePart) :=
  match fuel with
  | O => None
  | S fuel' =>
      '(part_source, after_boundary) ← cut marker remainder;
      '(header_source, part_body) ← cut (crlf ++ crlf) part_source;
      headers ← parse_mime_headers header_source;
      let parts := parts ++ [MkPart headers part_body] in
      if bool_decide (after_boundary = text "--" ++ crlf) then Some parts
      else
        remainder ← strip crlf after_boundary;
        if Nat.ltb 2 (length parts) then None else parts_loop fuel' marker remainder parts
  end.

Definition is_ascii_alphanumeric_byte (c : ascii) : bool :=
  let n := byte_val c in
  ((48 <=? n) && (n <=? 57)) || ((65 <=? n) && (n <=? 90)) || ((97 <=? n) && (n <=? 122)).

Definition parse_multipart_parts (body boundary : bytes) : option (list MimePart) :=
  if bool_decide (boundary = [])
     || negb (forallb (fun c => is_ascii_alphanumeric_byte c || bool_decide (c = "-"%char)) boundary)
  then None
  else
    remainder ← strip (text "--" ++ boundary ++ crlf) body;
    parts_loop 3 (crlf ++ text "--" ++ boundary) remainder [].

Section Formats.
Context `{HtmlParser} `{Scripts} `{Encodings} `{Hashing} `{UrlLib} `{Discovery} `{DataUrls} `{Floats} `{ManifestJson}.
Context (is_utf8 : bytes -> bool).

Definition mime_base64 (b : bytes) : bytes := join_with crlf (chunks 76 (as_bytes (base64_encode b))).

Definition part_header_names : gset string := {["content-location"; "content-transfer-encoding"; "content-type"]}.

Definition decode_mhtml_part (part : MimePart) (expected_content_type : bytes) (maximum_bytes : Z) : Res (option bytes) :=
  if negb (bool_decide (dom (mp_headers part) = part_header_names))
     || bool_decide (mp_headers part !! "content-type" <> Some (string_of_list_ascii expected_content_type))
     || bool_decide (mp_headers part !! "content-transfer-encoding" <> Some "base64")
     || (Z.min u64_max (maximum_bytes * 2) <? len_u64 (mp_body part))
  then Ok None
  else
    let encoded := concat (split_ascii_whitespace [] (mp_body part)) in
    decoded <-? ok_or (base64_decode (string_of_list_ascii encoded)) (export_error "offprint.export.verify") ;;
    if (maximum_bytes <? len_u64 decoded) || negb (bool_decide (mime_base64 decoded = mp_body part))
    then Ok None else Ok (Some decoded).

(** [format!] of the boundary. *)
Definition boundary_of (html : bytes) : bytes := text "offprint-" ++ as_bytes (to_hex (sha256 html)).

Definition BOUNDARY_PREFIX : bytes := text "multipart/related; type=`text/html`; boundary=`".

(** The lines before a part and the line after its headers. *)
Definition part_text (boundary content_type location body : bytes) : bytes :=
  text "--" ++ boundary ++ crlf ++
  text "Content-Type: " ++ content_type ++ crlf ++
  text "Content-Transfer-Encoding: base64" ++ crlf ++
  text "Content-Location: " ++ location ++ crlf ++
  crlf ++
  body ++ crlf.

Definition HTML_TYPE : bytes := text "text/html; charset=`utf-8`".
Definition MANIFEST_TYPE : bytes := text "application/vnd.offprint.manifest+json".
Definition MANIFEST_LOCATION : bytes := text "offprint-manifest.json".

Definition mhtml_message (html manifest_bytes source : bytes) : bytes :=
  let boundary := boundary_of html in
  text "From: <Saved by Offprint>" ++ crlf ++
  text "Subject: Offprint capture" ++ crlf ++
  text "MIME-Version: 1.0" ++ crlf ++
  text "Snapshot-Content-Location: " ++ source ++ crlf ++
  text "Content-Type: " ++ BOUNDARY_PREFIX ++ boundary ++ [quote] ++ crlf ++
  crlf ++
  part_text boundary HTML_TYPE source (mime_base64 html) ++
  part_text boundary MANIFEST_TYPE MANIFEST_LOCATION (mime_base64 manifest_bytes) ++
  text "--" ++ boundary ++ text "--" ++ crlf.

Definition message_header_names : gset string :=
  {["content-type"; "from"; "mime-version"; "snapshot-content-location"; "subject"]}.

(** [strip_prefix] and [strip_suffix]. *)
Definition boundary_in (content_type : string) : option bytes :=
  value ← strip BOUNDARY_PREFIX (as_bytes content_type);
  match rev value with c :: rest => if decide (c = quote) then Some (rev rest) else None | [] => None end.

(** The headers, the boundary and the parts of a message. *)
Definition parse_message (source : bytes) : option (gmap string string * bytes * list MimePart) :=
  '(header_source, body) ← cut (crlf ++ crlf) source;
  headers ← parse_mime_headers header_source;
  content_type ← headers !! "content-type";
  boundary ← boundary_in content_type;
  parts ← parse_multipart_parts body boundary;
  Some (headers, boundary, parts).

Definition verify_mhtml (b : bytes) : Res FormatEvidence :=
  let invalid := ensure_verified Mhtml false false in
  if negb (is_utf8 b) then Err (export_error "offprint.export.verify")
  else match parse_message b with
  | Some (headers, boundary, [part1; part2]) =>
      if negb (bool_decide (dom headers = message_header_names))
         || bool_decide (headers !! "from" <> Some "<Saved by Offprint>")
         || bool_decide (headers !! "subject" <> Some "Offprint capture")
         || bool_decide (headers !! "mime-version" <> Some "1.0")
      then invalid
      else
        decoded1 <-? decode_mhtml_part part1 HTML_TYPE MAXIMUM_DECODED_HTML_BYTES ;;
        match decoded1 with
        | None => invalid
        | Some html =>
            decoded2 <-? decode_mhtml_part part2 MANIFEST_TYPE MAXIMUM_DECODED_MANIFEST_BYTES ;;
            match decoded2 with
            | None => invalid
            | Some manifest_bytes =>
                let embedded_manifest := match inspect_html_bytes html with Ok m => Some m | Err _ => None end in
                let sidecar_manifest := manifest_from_slice manifest_bytes in
                let manifest_matches := match embedded_manifest, sidecar_manifest with
                                        | Some embedded, Some sidecar => bool_decide (embedded = sidecar)
                                        | _, _ => false
                                        end in
                let source_location := headers !! "snapshot-content-location" in
                let structure_valid := bool_decide (boundary = boundary_of html)
                  && bool_decide (mp_headers part1 !! "content-location" = source_location)
                  && bool_decide (mp_headers part2 !! "content-location" = Some "offprint-manifest.json") in
                let content_valid := is_ok (verify_static_sandboxed is_utf8 html)
                  && manifest_matches
                  && match sidecar_manifest with
                     | Some m => manifest_encoding_matches manifest_bytes m false
                                 && bool_decide (Some (ss_final_url (am_source m)) = source_location)
                     | None => false
                     end in
                ensure_verified Mhtml structure_valid content_valid
            end
        end
  | _ => invalid
  end.

Definition encode_mhtml (html : bytes) (m : ArtifactManifest) : Res bytes :=
  html <-? encode_sandboxed_html is_utf8 html ;;
  manifest_bytes <-? ok_or (manifest_to_pretty m) export_serialize_error ;;
  let b := mhtml_message html manifest_bytes (as_bytes (ss_final_url (am_source m))) in
  do? verify_mhtml b ;;
  Ok b.

(** ** The self-extracting page *)

(** [GzBuilder] with the best compression and no time, and [read_to_end] of a
    [GzDecoder] limited with [take]; [None] when the writer or the stream fails. *)
Context (gzip : bytes -> option bytes) (gunzip : Z -> bytes -> option bytes).

Definition SHELL_START : bytes := text "<!doctype html><meta charset=`utf-8`>
<meta http-equiv=`Content-Security-Policy` content=`default-src 'none'; base-uri 'none'; connect-src 'none'; font-src data:; form-action 'none'; frame-src data: blob:; img-src data: blob:; media-src data: blob:; object-src 'none'; script-src 'unsafe-inline'; style-src 'unsafe-inline' data:`>
<title>Opening Offprint capture</title>
".

Definition MARKER : bytes :=
  text "<script id=`offprint-compressed` type=`application/octet-stream` data-sha256=`".

Definition SCRIPT_END : bytes := text "</script>".

Definition SHELL_END : bytes := text "
<script>
(() => {
  const encoded = document.getElementById(`offprint-compressed`).textContent.trim();
  const binary = atob(encoded);
  const bytes = Uint8Array.from(binary, character => character.charCodeAt(0));
  new Response(new Blob([bytes]).stream().pipeThrough(new DecompressionStream(`gzip`)))
    .text()
    .then(html => {
      document.open();
      document.write(html);
      document.close();
    });
})();
</script>".

Definition self_extracting_shell (digest payload : bytes) : bytes :=
  SHELL_START ++ MARKER ++ digest ++ [quote] ++ text ">" ++ payload ++ SCRIPT_END ++ SHELL_END.

Definition render_self_extracting (html : bytes) : Res bytes :=
  compressed <-? ok_or (gzip html) export_io_error ;;
  Ok (self_extracting_shell (as_bytes (to_hex (sha256 html))) (as_bytes (base64_encode compressed))).

(** The digest and the payload; the search for the end of the tag begins at the
    mark that ends the digest. *)
Definition parse_shell (source : bytes) : option (bytes * bytes) :=
  '(_, rest) ← cut MARKER source;
  '(digest, rest) ← cut [quote] rest;
  '(_, rest) ← cut (text ">") (quote :: rest);
  '(payload, _) ← cut SCRIPT_END rest;
  Some (digest, payload).

Definition is_hex_digit (c : ascii) : bool :=
  let n := byte_val c in
  ((48 <=? n) && (n <=? 57)) || ((65 <=? n) && (n <=? 70)) || ((97 <=? n) && (n <=? 102)).

(** [ContentDigest::from_str] succeeds. *)
Definition is_digest (s : bytes) : bool := Nat.eqb (length s) 64 && forallb is_hex_digit s.

Definition verify_self_extracting (b : bytes) : Res FormatEvidence :=
  let invalid := ensure_verified SelfExtractingHtml false false in
  if negb (is_utf8 b) then Err (export_error "offprint.export.verify")
  else match parse_shell b with
  | None => invalid
  | Some (digest, payload) =>
      if Z.min u64_max (MAXIMUM_DECODED_HTML_BYTES * 2) <? len_u64 payload then invalid
      else
        compressed <-? ok_or (base64_decode (str_trim (string_of_list_ascii payload))) (export_error "offprint.export.verify") ;;
        html <-? ok_or (gunzip (MAXIMUM_DECODED_HTML_BYTES + 1) compressed) export_verify_io_error ;;
        canonical <-? (if len_u64 html <=? MAXIMUM_DECODED_HTML_BYTES then render_self_extracting html else Ok []) ;;
        let structure_valid := is_digest digest && bool_decide (canonical = b) in
        let content_valid := (len_u64 html <=? MAXIMUM_DECODED_HTML_BYTES)
          && bool_decide (as_bytes (to_hex (sha256 html)) = digest)
          && is_ok (verify_static is_utf8 html) in
        ensure_verified SelfExtractingHtml structure_valid content_valid
  end.

Definition encode_self_extracting (html : bytes) : Res bytes :=
  b <-? render_self_extracting html ;;
  do? verify_self_extracting b ;;
  Ok b.

(** ** The ZIP archive *)

(** An entry as [zip::ZipArchive] shows it; [ze_read] is [read_to_end] of it limited
    with [take]. *)
Record ZipEntry := MkZipEntry {
  ze_name : string;
  ze_is_file : bool;
  ze_encrypted : bool;
  ze_comment : bytes;
  ze_deflated : bool;
  ze_size : Z;
  ze_read : Z -> option bytes;
}.

Record ZipArchive := MkArchive {
  za_len : Z;
  za_offset : Z;
  za_comment : bytes;
  za_by_index : Z -> option ZipEntry;
}.

(** [ZipArchive::new], and a [ZipWriter]: [new], [start_file] of a deflated member,
    [write_all] and [finish]. *)
Context (zip_open : bytes -> option ZipArchive) (ZipWriter : Type) (zip_new : ZipWriter).
Context (start_file : string -> ZipWriter -> option ZipWriter) (zip_write_all : bytes -> ZipWriter -> option ZipWriter).
Context (zip_finish : ZipWriter -> option bytes).

Definition zip_error : OffprintError := new_error "offprint.export.zip" Encoding.
Definition zip_verify_error : OffprintError := export_error "offprint.export.verify".

Definition END_OF_CENTRAL_DIRECTORY : bytes := ["P"%char; "K"%char; "005"%char; "006"%char].

(** [u16::from_le_bytes] of the two bytes at a place. *)
Definition read_u16_le (record : bytes) (at_ : nat) : option Z :=
  low ← record !! at_; high ← record !! S at_; Some (byte_val low + 256 * byte_val high).

Definition zip_declared_member_count (b : bytes) : option Z :=
  start ← rfind_bytes b END_OF_CENTRAL_DIRECTORY;
  let record := drop start b in
  if Nat.ltb (length record) 22 then None
  else
    disk ← read_u16_le record 4;
    start_disk ← read_u16_le record 6;
    if negb (disk =? 0) || negb (start_disk =? 0) then None
    else
      entries_on_disk ← read_u16_le record 8;
      total_entries ← read_u16_le record 10;
      comment_length ← read_u16_le record 20;
      if negb (entries_on_disk =? total_entries) || (total_entries =? u16_max)
         || negb (Z.of_nat (length record) =? 22 + comment_length)
      then None else Some total_entries.

Definition MEMBERS : list (Z * string) := [(0, "index.html"); (1, "offprint-manifest.json")].

Definition member_valid (a : ZipArchive) (member : Z * string) : bool :=
  match za_by_index a member.1 with
  | Some e => bool_decide (ze_name e = member.2) && ze_is_file e && negb (ze_encrypted e)
              && bool_decide (ze_comment e = []) && ze_deflated e
  | None => false
  end.

Definition read_zip_member (a : ZipArchive) (index maximum_bytes : Z) : Res bytes :=
  e <-? ok_or (za_by_index a index) zip_verify_error ;;
  if maximum_bytes <? ze_size e then Err (export_error "offprint.export.verify")
  else
    b <-? ok_or (ze_read e (saturating_add u64_max maximum_bytes 1)) export_verify_io_error ;;
    if maximum_bytes <? len_u64 b then Err (export_error "offprint.export.verify") else Ok b.

Definition verify_zip (b : bytes) : Res FormatEvidence :=
  a <-? ok_or (zip_open b) zip_verify_error ;;
  let structure_valid := bool_decide (zip_declared_member_count b = Some 2) && (za_len a =? 2)
    && (za_offset a =? 0) && bool_decide (za_comment a = []) && forallb (member_valid a) MEMBERS in
  if negb structure_valid then ensure_verified Zip false false
  else
    html <-? read_zip_member a 0 MAXIMUM_DECODED_HTML_BYTES ;;
    manifest_bytes <-? read_zip_member a 1 MAXIMUM_DECODED_MANIFEST_BYTES ;;
    let embedded_manifest := match inspect_html_bytes html with Ok m => Some m | Err _ => None end in
    let sidecar_manifest := manifest_from_slice manifest_bytes in
    let content_valid := is_ok (verify_static is_utf8 html) && is_some embedded_manifest
      && bool_decide (embedded_manifest = sidecar_manifest)
      && match sidecar_manifest with Some m => manifest_encoding_matches manifest_bytes m true | None => false end in
    ensure_verified Zip structure_valid content_valid.

Definition encode_zip (html : bytes) (m : ArtifactManifest) : Res bytes :=
  w <-? ok_or (start_file "index.html" zip_new) zip_error ;;
  w <-? ok_or (zip_write_all html w) export_io_error ;;
  w <-? ok_or (start_file "offprint-manifest.json" w) zip_error ;;
  manifest_bytes <-? ok_or (manifest_to_pretty m) export_serialize_error ;;
  w <-? ok_or (zip_write_all (manifest_bytes ++ [newline]) w) export_io_error ;;
  b <-? ok_or (zip_finish w) zip_error ;;
  do? verify_zip b ;;
  Ok b.

(** ** Preparing an export *)

Definition prepare_zip (html : bytes) (m : ArtifactManifest) : Res (VerifiedFormat bytes) :=
  payload <-? encode_zip html m ;; Ok (verified_format Zip payload).
Definition prepare_self_extracting (html : bytes) : Res (VerifiedFormat bytes) :=
  payload <-? encode_self_extracting html ;; Ok (verified_format SelfExtractingHtml payload).
Definition prepare_mhtml (html : bytes) (m : ArtifactManifest) : Res (VerifiedFormat bytes) :=
  payload <-? encode_mhtml html m ;; Ok (verified_format Mhtml payload).
End Formats.
