(* ===== verification/FormatsFacts.v ===== *)
(** * Export formats, proved

    What an encoder writes is read back by its verifier; what a verifier accepts is
    what an encoder writes. *)

From Stdlib Require Import ZArith Lia Ascii String.
From stdpp Require Import base tactics list gmap strings numbers.
From S2P Require Import Prelude.
From S2P Require Import Errors.
From S2P Require Import Records.
From S2P Require Import Requests.
From S2P Require Import Schedule.
From S2P Require Import Dom.
From S2P Require Import Sanitize.
From S2P Require Import Sink.
From S2P Require Import Html.
From S2P Require Import Frames.
From S2P Require Import Verify.
From S2P Require Import VerifyFacts.
From S2P Require Import Render.
From S2P Require Import RenderFacts.
From S2P Require Import Formats.

#[local] Open Scope string_scope.
#[local] Open Scope list_scope.
#[local] Open Scope Z_scope.

(** ** Cutting *)

Lemma strip_app pat s : strip pat (pat ++ s) = Some s.
Proof. induction pat as [|p pat IH]; [by destruct s|]. simpl. by rewrite decide_True. Qed.

Lemma strip_common pre pat s : strip (pre ++ pat) (pre ++ s) = strip pat s.
Proof. induction pre as [|p pre IH]; [done|]. cbn [app strip]. by rewrite decide_True. Qed.

Lemma strip_head p pat c s : p <> c -> strip (p :: pat) (c :: s) = None.
Proof. intros Hn. simpl. by rewrite decide_False. Qed.

Lemma cut_here pat s : cut pat (pat ++ s) = Some ([], s).
Proof. destruct (pat ++ s) as [|c l] eqn:E; unfold cut; fold cut; rewrite <- E, strip_app; done. Qed.

Lemma cut_step pat c s : strip pat (c :: s) = None ->
  cut pat (c :: s) = ('(before, after) ← cut pat s; Some (c :: before, after)).
Proof. intros Hn. cbn [cut]. by rewrite Hn. Qed.

(** What does not have the first byte of the pattern is passed over. *)
Lemma cut_over p pat pre s before after : p ∉ pre ->
  cut (p :: pat) s = Some (before, after) -> cut (p :: pat) (pre ++ s) = Some (pre ++ before, after).
Proof.
  intros Hp Hs. induction pre as [|c pre IH]; [done|]. apply not_elem_of_cons in Hp as [Hn Hp].
  change ((c :: pre) ++ s) with (c :: (pre ++ s)). by rewrite cut_step, (IH Hp) by by apply strip_head.
Qed.

Lemma cut_at p pat pre s : p ∉ pre -> cut (p :: pat) (pre ++ (p :: pat) ++ s) = Some (pre, s).
Proof. intros Hp. rewrite (cut_over p pat pre _ [] s Hp (cut_here (p :: pat) s)). by rewrite app_nil_r. Qed.

(** ** Lines *)

Lemma join_with_cons sep x l : l <> [] -> join_with sep (x :: l) = x ++ sep ++ join_with sep l.
Proof. by destruct l. Qed.

Lemma join_with_app sep l1 l2 : l1 <> [] -> l2 <> [] ->
  join_with sep (l1 ++ l2) = join_with sep l1 ++ sep ++ join_with sep l2.
Proof.
  intros H1 H2. destruct l1 as [|x l1]; [done|]. clear H1. revert x.
  induction l1 as [|y l1 IH]; intros x.
  - cbn [app]. by rewrite join_with_cons.
  - change ((x :: y :: l1) ++ l2) with (x :: ((y :: l1) ++ l2)). rewrite (join_with_cons sep x (y :: l1)) by done.
    rewrite join_with_cons by done. rewrite IH by done. by rewrite <- !app_assoc.
Qed.

(** A line that does not end the search for a line break followed by [x]. *)
Definition plain_line (x : ascii) (l : bytes) : Prop := (carriage_return ∉ l) /\ head (l ++ crlf) <> Some x.

Lemma cut_lines x m lines rest : lines <> [] -> Forall (fun l => carriage_return ∉ l) lines -> Forall (plain_line x) (tail lines) ->
  cut (crlf ++ (x :: m)) (join_with crlf lines ++ (crlf ++ (x :: m)) ++ rest) = Some (join_with crlf lines, rest).
Proof.
  intros Hn Hl Hx. destruct lines as [|l lines]; [done|]. clear Hn. revert l Hl Hx.
  induction lines as [|l' lines IH]; intros l Hl Hx; apply Forall_cons_1 in Hl as [H1 Hl]; cbn [tail] in Hx.
  { cbn [join_with]. exact (cut_at carriage_return (newline :: x :: m) l rest H1). }
  apply Forall_cons_1 in Hx as [[Hc Hh] Hx]. rewrite join_with_cons by done. rewrite <- !app_assoc.
  apply (cut_over carriage_return (newline :: x :: m)); [done|].
  specialize (IH l' Hl Hx).
  assert (exists c t, join_with crlf (l' :: lines) ++ crlf ++ (x :: m) ++ rest = c :: t /\ c <> x) as (c & t & Et & Hcx).
  { destruct l' as [|c l''].
    - exists carriage_return. destruct lines; eexists; (split; [reflexivity|]); intros <-; by apply Hh.
    - exists c. destruct lines; eexists; (split; [reflexivity|]); intros <-; by apply Hh. }
  rewrite <- app_assoc in IH. rewrite Et in IH |- *.
  change (cut (crlf ++ (x :: m)) (carriage_return :: newline :: c :: t) = Some ([carriage_return; newline] ++ join_with crlf (l' :: lines), rest)).
  rewrite cut_step.
  2:{ change (carriage_return :: newline :: c :: t) with (crlf ++ (c :: t)). rewrite strip_common. by apply strip_head. }
  rewrite cut_step by by apply strip_head.
  rewrite IH. done.
Qed.

Lemma cut_none p pat s : p ∉ s -> cut (p :: pat) s = None.
Proof.
  induction s as [|c s IH]; intros Hp; [done|]. apply not_elem_of_cons in Hp as [Hn Hp].
  rewrite cut_step by by apply strip_head. by rewrite IH.
Qed.

Lemma pieces_join lines : lines <> [] -> Forall (fun l => carriage_return ∉ l) lines ->
  forall fuel, (length (join_with crlf lines) <= fuel)%nat -> pieces fuel crlf (join_with crlf lines) = lines.
Proof.
  intros Hn Hl. destruct lines as [|l lines]; [done|]. clear Hn. revert l Hl.
  induction lines as [|l' lines IH]; intros l Hl fuel Hf; apply Forall_cons_1 in Hl as [H1 Hl].
  { cbn [join_with] in *. destruct fuel; [done|]. cbn [pieces]. unfold crlf. by rewrite cut_none. }
  rewrite join_with_cons in Hf |- * by done. rewrite !length_app in Hf. cbn [length crlf] in Hf.
  destruct fuel as [|fuel]; [lia|]. cbn [pieces].
  pose proof (cut_at carriage_return [newline] l (join_with crlf (l' :: lines)) H1) as Hc.
  change (carriage_return :: [newline]) with crlf in Hc. rewrite Hc. f_equal. apply IH; [done|lia].
Qed.

(** ** ASCII texts *)

Definition is_ascii_byte (c : ascii) : bool := byte_val c <? 128.

(** Visible characters. *)
Definition is_graphic (c : ascii) : bool := (33 <=? byte_val c) && (byte_val c <? 127).

Abbreviation all p l := (forallb p l = true).

Lemma all_app (p : ascii -> bool) l1 l2 : all p l1 -> all p l2 -> all p (l1 ++ l2).
Proof. intros. rewrite forallb_app. by apply andb_true_intro. Qed.

Lemma all_imp (p q : ascii -> bool) l : (forall c, p c = true -> q c = true) -> all p l -> all q l.
Proof. intros Hpq. rewrite !forallb_forall. auto. Qed.

Lemma all_not_elem (p : ascii -> bool) c l : all p l -> p c = false -> c ∉ l.
Proof. rewrite forallb_forall. intros Hl Hc Hin. apply list_elem_of_In in Hin. rewrite (Hl _ Hin) in Hc. done. Qed.

Lemma byte_of_val c : byte_of (byte_val c) = c.
Proof. unfold byte_of, byte_val. by rewrite N2Z.id, ascii_N_embedding. Qed.

Lemma utf8_chars_ascii l : all is_ascii_byte l -> utf8_chars l = map byte_val l.
Proof.
  induction l as [|c l IH]; [done|]. intros Hl. apply andb_prop in Hl as [Hc Hl]. cbn [utf8_chars map].
  unfold is_ascii_byte in Hc. by rewrite Hc, (IH Hl).
Qed.

Lemma utf8_encode_ascii l : all is_ascii_byte l -> utf8_encode (map byte_val l) = string_of_list_ascii l.
Proof.
  intros Hl. unfold utf8_encode. f_equal. induction l as [|c l IH]; [done|].
  apply andb_prop in Hl as [Hc Hl]. cbn [map concat]. rewrite (IH Hl). unfold utf8_encode_char, is_ascii_byte in *.
  by rewrite Hc, byte_of_val.
Qed.

Lemma string_as_bytes s : string_of_list_ascii (as_bytes s) = s.
Proof. apply string_of_list_ascii_of_string. Qed.

(** An end of a text that is not white space. *)
Definition solid (o : option ascii) : bool := match o with Some c => negb (is_whitespace (byte_val c)) | None => true end.

Lemma trim_left_solid l : solid (head l) = true -> trim_left (map byte_val l) = map byte_val l.
Proof. destruct l as [|c l]; [done|]. cbn [head solid map trim_left]. by destruct (is_whitespace _). Qed.

Lemma trim_inner l : all is_ascii_byte l -> solid (head l) = true -> solid (list.last l) = true ->
  forall spaces, Forall (fun c => is_whitespace c = true) spaces ->
  utf8_encode (rev (trim_left (rev (trim_left (spaces ++ map byte_val l))))) = string_of_list_ascii l.
Proof.
  intros Ha Hh Hl spaces Hs.
  assert (trim_left (spaces ++ map byte_val l) = map byte_val l) as ->.
  { induction spaces as [|c spaces IH]; [by apply trim_left_solid|]. apply Forall_cons_1 in Hs as [Hc Hs].
    cbn [app trim_left]. rewrite Hc. by apply IH. }
  rewrite <- map_rev, trim_left_solid, map_rev, rev_involutive; [by apply utf8_encode_ascii|].
  destruct l as [|c l] using rev_ind; [done|]. rewrite rev_app_distr. by rewrite last_snoc in Hl.
Qed.

Lemma trim_text l : all is_ascii_byte l -> solid (head l) = true -> solid (list.last l) = true ->
  str_trim (string_of_list_ascii l) = string_of_list_ascii l /\
  str_trim (string_of_list_ascii (" "%char :: l)) = string_of_list_ascii l.
Proof.
  intros Ha Hh Hl. unfold str_trim. rewrite !as_bytes_string. cbn [utf8_chars]. change (byte_val " " <? 128) with true. cbn iota.
  rewrite (utf8_chars_ascii l Ha). split; [by apply (trim_inner l Ha Hh Hl [])|].
  apply (trim_inner l Ha Hh Hl [byte_val " "]). by constructor.
Qed.

Lemma graphic_ascii l : all is_graphic l -> all is_ascii_byte l.
Proof.
  apply all_imp. intros c Hc. unfold is_graphic, is_ascii_byte in *. apply andb_prop in Hc as [_ Hc].
  apply Z.ltb_lt in Hc. apply Z.ltb_lt. lia.
Qed.

Lemma graphic_solid c : is_graphic c = true -> solid (Some c) = true.
Proof.
  unfold is_graphic, solid, is_whitespace. intros Hc. apply andb_prop in Hc as [H1 H2].
  apply Z.leb_le in H1. apply Z.ltb_lt in H2. apply negb_true_iff.
  repeat (apply orb_false_intro); try (apply Z.eqb_neq; lia);
    apply andb_false_iff; first [left; apply Z.leb_gt; lia|right; apply Z.leb_gt; lia].
Qed.

Lemma graphic_ends l : all is_graphic l -> solid (head l) = true /\ solid (list.last l) = true.
Proof.
  intros Hl. rewrite forallb_forall in Hl. split.
  - destruct l as [|c l]; [done|]. apply graphic_solid, Hl. by left.
  - destruct l as [|c l] using rev_ind; [done|]. rewrite last_snoc. apply graphic_solid, Hl. apply in_app_iff. right. by left.
Qed.

(** ** Headers *)

Lemma parse_header name value :
  name <> [] -> all is_graphic name -> ":"%char ∉ name ->
  all is_ascii_byte value -> carriage_return ∉ value -> newline ∉ value ->
  solid (head value) = true -> solid (list.last value) = true ->
  parse_mime_header (name ++ text ": " ++ value) =
    Some (to_ascii_lowercase (string_of_list_ascii name), string_of_list_ascii value).
Proof.
  intros Hn Hg Hcolon Ha Hc Hl Hh Ht. unfold parse_mime_header.
  change (text ": " ++ value) with ([":"%char] ++ (" "%char :: value)). rewrite (cut_at ":" [] name _ Hcolon). cbn [mbind option_bind].
  rewrite (bool_decide_eq_false_2 (name = [])) by done.
  rewrite (proj2 (trim_text value Ha Hh Ht)).
  assert (existsb is_whitespace (utf8_chars name) = false) as ->.
  { rewrite utf8_chars_ascii by by apply graphic_ascii. apply not_true_is_false. rewrite existsb_exists. intros (x & Hx & Hw).
    apply in_map_iff in Hx as (c & <- & Hc'). rewrite forallb_forall in Hg. pose proof (graphic_solid c (Hg c Hc')) as Hs.
    cbn [solid] in Hs. by rewrite Hw in Hs. }
  assert (existsb (fun c => bool_decide (c = carriage_return) || bool_decide (c = newline)) (" "%char :: value) = false) as ->; [|done].
  apply not_true_is_false. rewrite existsb_exists. intros (c & Hx & Hb). apply orb_prop in Hb.
  rewrite !bool_decide_eq_true in Hb. apply list_elem_of_In in Hx. destruct Hb as [-> | ->]; set_solver.
Qed.

Lemma graphic_no_break l : all is_graphic l -> (carriage_return ∉ l) /\ (newline ∉ l) /\ (" "%char ∉ l).
Proof. intros Hl. split_and!; by apply (all_not_elem is_graphic _ _ Hl). Qed.

(** ** What is assumed of the codecs

    The documented behaviour of Base64, of hexadecimal digests, of JSON and of the
    test for UTF-8. *)

Definition is_base64_byte (c : ascii) : bool :=
  is_ascii_alphanumeric_byte c || bool_decide (c = "+"%char) || bool_decide (c = "/"%char) || bool_decide (c = "="%char).

Class FormatLaws `{Encodings} `{Hashing} `{ManifestJson} (is_utf8 : bytes -> bool) : Prop := {
  base64_round_trip b : base64_decode (base64_encode b) = Some b;
  base64_alphabet b : all is_base64_byte (as_bytes (base64_encode b));
  base64_length b : length (as_bytes (base64_encode b)) = (4 * ((length b + 2) / 3))%nat;
  digest_hex b : is_digest (as_bytes (hex_encode (sha256_raw b))) = true;
  pretty_read m j : manifest_to_pretty m = Some j -> manifest_from_slice j = Some m;
  ascii_utf8 b : all is_ascii_byte b -> is_utf8 b = true;
}.

Lemma by_byte (p q : ascii -> bool) : forallb (fun n => implb (p (ascii_of_nat n)) (q (ascii_of_nat n))) (seq 0 256) = true ->
  forall c, p c = true -> q c = true.
Proof.
  intros Hall c Hc. rewrite forallb_forall in Hall. specialize (Hall (nat_of_ascii c)). rewrite ascii_nat_embedding in Hall.
  rewrite Hc in Hall. apply Hall. apply in_seq. pose proof (nat_ascii_bounded c). lia.
Qed.

Lemma base64_graphic c : is_base64_byte c = true -> is_graphic c = true.
Proof. revert c. apply by_byte. vm_compute. reflexivity. Qed.

Lemma hex_boundary c : is_hex_digit c = true -> is_ascii_alphanumeric_byte c = true.
Proof. revert c. apply by_byte. vm_compute. reflexivity. Qed.

Lemma alphanumeric_graphic c : is_ascii_alphanumeric_byte c || bool_decide (c = "-"%char) = true -> is_graphic c = true.
Proof. revert c. apply (by_byte (fun c => is_ascii_alphanumeric_byte c || bool_decide (c = "-"%char))). vm_compute. reflexivity. Qed.

Lemma split_words l : forall word, concat (split_ascii_whitespace word l) = word ++ List.filter (fun c => negb (is_ascii_whitespace c)) l.
Proof.
  induction l as [|c l IH]; intros word; cbn [split_ascii_whitespace List.filter].
  { destruct word; [done|]. cbn [concat]. by rewrite !app_nil_r. }
  destruct (is_ascii_whitespace c); cbn [negb].
  - rewrite concat_app, IH. destruct word; [done|]. cbn [concat]. by rewrite app_nil_r.
  - rewrite IH. by rewrite <- app_assoc.
Qed.

Lemma filter_graphic l : all is_graphic l -> List.filter (fun c => negb (is_ascii_whitespace c)) l = l.
Proof.
  intros Hl. induction l as [|c l IH]; [done|]. apply andb_prop in Hl as [Hc Hl]. cbn [List.filter].
  rewrite (by_byte is_graphic (fun c => negb (is_ascii_whitespace c)) eq_refl c Hc). by rewrite IH.
Qed.

Lemma filter_join lines : Forall (fun l => all is_graphic l) lines ->
  List.filter (fun c => negb (is_ascii_whitespace c)) (join_with crlf lines) = concat lines.
Proof.
  induction lines as [|l lines IH]; intros Hl; [done|]. apply Forall_cons_1 in Hl as [H1 Hl]. destruct lines as [|l' lines].
  - cbn [join_with concat]. by rewrite filter_graphic, app_nil_r.
  - rewrite join_with_cons by done. rewrite !List.filter_app, filter_graphic, (IH Hl) by done. done.
Qed.

Lemma chunks_all (p : ascii -> bool) n l : all p l -> Forall (fun x => all p x) (chunks n l).
Proof.
  unfold chunks. generalize (length l) as fuel. intros fuel. revert l.
  induction fuel as [|fuel IH]; intros l Hl; [constructor|]. destruct l as [|c l]; [constructor|].
  cbn [chunks_loop]. rewrite <- (take_drop n (c :: l)), forallb_app in Hl. apply andb_prop in Hl as [H1 H2].
  constructor; [done|by apply IH].
Qed.

Lemma chunks_count {A} n (l : list A) : (S n * length (chunks (S n) l) <= length l + n)%nat.
Proof.
  unfold chunks. enough (forall fuel (m : list A), (S n * length (chunks_loop fuel (S n) m) <= length m + n)%nat) by auto.
  induction fuel as [|fuel IH]; intros m; [cbn; lia|]. destruct m as [|a m]; [cbn; lia|]. cbn [chunks_loop length].
  destruct (decide (length m < n)%nat) as [Hs|Hs].
  - rewrite drop_ge by (cbn; lia). destruct fuel; cbn; lia.
  - specialize (IH (drop (S n) (a :: m))). rewrite length_drop in IH. cbn [length] in IH. lia.
Qed.

Lemma join_length sep lines : (length (join_with sep lines) <= length (concat lines) + length sep * length lines)%nat.
Proof.
  induction lines as [|l lines IH]; [cbn; lia|]. destruct lines as [|l' lines].
  - cbn [join_with concat length]. rewrite app_nil_r. lia.
  - rewrite join_with_cons by done. cbn [concat] in *. rewrite !length_app in *. cbn [length] in *. lia.
Qed.

(** ** A part of a message *)

Definition part_headers (content_type location : bytes) : gmap string string :=
  <["content-location" := string_of_list_ascii location]>
    (<["content-transfer-encoding" := "base64"]> (<["content-type" := string_of_list_ascii content_type]> ∅)).

Definition part_lines (content_type location : bytes) : list bytes :=
  [text "Content-Type: " ++ content_type; text "Content-Transfer-Encoding: base64"; text "Content-Location: " ++ location].

(** A value that can be written in a header. *)
Record header_value (v : bytes) : Prop := {
  hv_ascii : all is_ascii_byte v;
  hv_return : carriage_return ∉ v;
  hv_newline : newline ∉ v;
  hv_head : solid (head v) = true;
  hv_last : solid (list.last v) = true;
}.

Lemma graphic_value v : all is_graphic v -> header_value v.
Proof.
  intros Hv. destruct (graphic_no_break v Hv) as (? & ? & _). destruct (graphic_ends v Hv). split; try done. by apply graphic_ascii.
Qed.

Lemma parse_named name value : name <> [] -> all is_graphic name -> ":"%char ∉ name -> header_value value ->
  parse_mime_header (name ++ text ": " ++ value) = Some (to_ascii_lowercase (string_of_list_ascii name), string_of_list_ascii value).
Proof. intros ? ? ? [? ? ? ? ?]. by apply parse_header. Qed.

Lemma value_line (name value : bytes) : carriage_return ∉ name -> header_value value -> carriage_return ∉ name ++ value.
Proof. intros Hn Hv. apply not_elem_of_app. split; [done|apply Hv]. Qed.

Lemma part_lines_ok content_type location : header_value content_type -> header_value location ->
  Forall (fun l => carriage_return ∉ l) (part_lines content_type location) /\
  Forall (fun l => l <> [] /\ head l <> Some "-"%char) (part_lines content_type location) /\
  parse_mime_headers (join_with crlf (part_lines content_type location)) = Some (part_headers content_type location).
Proof.
  intros Ht Hl.
  assert (Hc : Forall (fun l => carriage_return ∉ l) (part_lines content_type location)).
  { repeat constructor; [by apply value_line; [vm_compute; set_solver|]|vm_compute; set_solver|by apply value_line; [vm_compute; set_solver|]]. }
  split_and!; [done|repeat constructor; done|].
  unfold parse_mime_headers. rewrite pieces_join by done. unfold part_lines. cbn [parse_header_lines].
  change (text "Content-Type: " ++ content_type) with (text "Content-Type" ++ text ": " ++ content_type).
  change (text "Content-Location: " ++ location) with (text "Content-Location" ++ text ": " ++ location).
  rewrite (parse_named (text "Content-Type")); [|done|reflexivity|vm_compute; set_solver|done].
  rewrite (parse_named (text "Content-Location")); [|done|reflexivity|vm_compute; set_solver|done].
  reflexivity.
Qed.

Lemma content_type_value boundary : all is_graphic boundary -> header_value (BOUNDARY_PREFIX ++ boundary ++ [quote]).
Proof.
  intros Hb. destruct (graphic_no_break boundary Hb) as (Hc & Hn & _). split.
  - apply all_app; [reflexivity|]. apply all_app; [by apply graphic_ascii|reflexivity].
  - rewrite !not_elem_of_app. split_and!; [vm_compute; set_solver|done|vm_compute; set_solver].
  - rewrite !not_elem_of_app. split_and!; [vm_compute; set_solver|done|vm_compute; set_solver].
  - reflexivity.
  - rewrite app_assoc, last_snoc. reflexivity.
Qed.

Lemma html_type_value : header_value HTML_TYPE.
Proof. split; [reflexivity|vm_compute; set_solver|vm_compute; set_solver|reflexivity|reflexivity]. Qed.

(** What the sandboxed encoder returns was verified. *)
Lemma sandboxed_verifies `{HtmlParser} `{Scripts} `{Encodings} `{Hashing} `{UrlLib} `{Discovery} `{DataUrls} `{Floats} is_utf8 html page :
  encode_sandboxed_html is_utf8 html = Ok page -> is_ok (verify_static_sandboxed is_utf8 page) = true.
Proof.
  unfold encode_sandboxed_html. intros Hp. apply rbind_ok in Hp as (v & _ & Hp). destruct (sr_applied _); [done|].
  apply rbind_ok in Hp as (csp & _ & Hp). apply rbind_ok in Hp as ([name attrs] & _ & Hp). apply rbind_ok in Hp as (c & _ & Hp).
  apply rbind_ok in Hp as (encoded & _ & Hp). apply rbind_ok in Hp as (r & Hr & [= <-]). by rewrite Hr.
Qed.

(** ** The MHTML message is read back *)

Section Mhtml.
Context `{HtmlParser} `{Scripts} `{Encodings} `{Hashing} `{UrlLib} `{Discovery} `{DataUrls} `{Floats} `{ManifestJson}.
Context (is_utf8 : bytes -> bool) {Hlaws : FormatLaws is_utf8}.

Lemma base64_text b : all is_graphic (as_bytes (base64_encode b)).
Proof using Hlaws. eapply all_imp; [exact base64_graphic|]. eapply base64_alphabet. Qed.

Lemma mime_words b : concat (split_ascii_whitespace [] (mime_base64 b)) = as_bytes (base64_encode b).
Proof using Hlaws.
  rewrite split_words. unfold mime_base64. rewrite filter_join by apply chunks_all, base64_text. apply chunks_concat. lia.
Qed.

Lemma mime_length b : (length (mime_base64 b) <= 4 * ((length b + 2) / 3) + 2 * (4 * ((length b + 2) / 3) / 76 + 1))%nat.
Proof using Hlaws.
  unfold mime_base64. etrans; [apply join_length|]. rewrite chunks_concat by lia. pose proof (chunks_count 75 (as_bytes (base64_encode b))) as Hc.
  rewrite base64_length in *. set (n := (4 * ((length b + 2) / 3))%nat) in *. change (length crlf) with 2%nat.
  pose proof (Nat.div_mod n 76). pose proof (Nat.mod_upper_bound n 76). lia.
Qed.

(** The lines of an encoded body; there is an empty one when there is nothing. *)
Definition body_lines (b : bytes) : list bytes :=
  match chunks 76 (as_bytes (base64_encode b)) with [] => [[]] | l => l end.

Lemma body_lines_join b : join_with crlf (body_lines b) = mime_base64 b.
Proof using Type. unfold body_lines, mime_base64. by destruct (chunks _ _). Qed.

Lemma body_lines_graphic b : Forall (fun l => all is_graphic l) (body_lines b).
Proof using Hlaws.
  unfold body_lines. pose proof (chunks_all is_graphic 76 _ (base64_text b)) as Hc. destruct (chunks _ _); [by constructor|done].
Qed.

Lemma body_lines_plain b : Forall (plain_line "-") (body_lines b).
Proof using Hlaws.
  assert (Forall (fun l => all is_base64_byte l) (body_lines b)) as Hb.
  { unfold body_lines. pose proof (chunks_all is_base64_byte 76 _ (base64_alphabet b)) as Hc. destruct (chunks _ _); [by constructor|done]. }
  revert Hb. apply Forall_impl. intros l Hl. split; [by apply (all_not_elem is_base64_byte _ _ Hl)|].
  destruct l as [|c l]; [done|]. cbn [app head]. intros [= ->]. by apply andb_prop in Hl as [Hl _].
Qed.


Lemma boundary_chars html : all (fun c => is_ascii_alphanumeric_byte c || bool_decide (c = "-"%char)) (boundary_of html).
Proof using Hlaws.
  unfold boundary_of. apply all_app; [reflexivity|]. pose proof (digest_hex html) as Hd. unfold is_digest in Hd. apply andb_prop in Hd as [_ Hd].
  revert Hd. apply all_imp. intros c Hc. by rewrite (hex_boundary c Hc).
Qed.

Lemma boundary_graphic html : all is_graphic (boundary_of html).
Proof using Hlaws. eapply all_imp; [|apply boundary_chars]. exact alphanumeric_graphic. Qed.

Lemma decode_part content_type location b maximum :
  MAXIMUM_DECODED_MANIFEST_BYTES <= maximum <= MAXIMUM_DECODED_HTML_BYTES ->
  decode_mhtml_part (MkPart (part_headers content_type location) (mime_base64 b)) content_type maximum =
    Ok (if Z.of_nat (length b) <=? maximum then Some b else None).
Proof using Hlaws.
  intros Hm. unfold MAXIMUM_DECODED_MANIFEST_BYTES, MAXIMUM_DECODED_HTML_BYTES in Hm. unfold decode_mhtml_part. cbn [mp_headers mp_body].
  assert (dom (part_headers content_type location) = part_header_names) as ->.
  { unfold part_headers, part_header_names. set_solver. }
  rewrite bool_decide_eq_true_2 by done. cbn [negb orb].
  rewrite (bool_decide_eq_false_2 (part_headers content_type location !! "content-type" <> _)) by (intros Hn; by apply Hn).
  rewrite (bool_decide_eq_false_2 (part_headers content_type location !! "content-transfer-encoding" <> _)) by (intros Hn; by apply Hn).
  cbn [orb]. rewrite mime_words, string_as_bytes, base64_round_trip. cbn [ok_or rbind].
  rewrite (bool_decide_eq_true_2 (mime_base64 b = mime_base64 b)) by done. cbn [negb]. rewrite orb_false_r.
  pose proof (mime_length b) as Hl. unfold len_u64, u64_max in *. destruct (Z.leb_spec (Z.of_nat (length b)) maximum) as [Hb|Hb].
  - rewrite (proj2 (Z.ltb_ge (Z.min _ (maximum * 2)) _)); [|].
    + rewrite (proj2 (Z.ltb_ge maximum _)); [done|lia].
    + pose proof (Nat.div_mod (length b + 2) 3). set (n := ((length b + 2) / 3)%nat) in *.
      pose proof (Nat.div_mod (4 * n) 76). set (k := (4 * n / 76)%nat) in *. lia.
  - rewrite (proj2 (Z.ltb_lt maximum _)) by lia. by destruct (_ <? _).
Qed.

Definition message_lines (source boundary : bytes) : list bytes :=
  [text "From: <Saved by Offprint>"; text "Subject: Offprint capture"; text "MIME-Version: 1.0";
   text "Snapshot-Content-Location: " ++ source; text "Content-Type: " ++ BOUNDARY_PREFIX ++ boundary ++ [quote]].

Definition message_headers (source boundary : bytes) : gmap string string :=
  <["content-type" := string_of_list_ascii (BOUNDARY_PREFIX ++ boundary ++ [quote])]>
    (<["snapshot-content-location" := string_of_list_ascii source]>
      (<["mime-version" := "1.0"]> (<["subject" := "Offprint capture"]> (<["from" := "<Saved by Offprint>"]> ∅)))).

Definition all_lines (content_type location b : bytes) : list bytes := part_lines content_type location ++ [] :: body_lines b.

Lemma message_shape html j source :
  let boundary := boundary_of html in
  mhtml_message html j source =
    join_with crlf (message_lines source boundary) ++ (crlf ++ crlf) ++
    (text "--" ++ boundary ++ crlf) ++
    join_with crlf (all_lines HTML_TYPE source html) ++ (crlf ++ text "--" ++ boundary) ++ crlf ++
    join_with crlf (all_lines MANIFEST_TYPE MANIFEST_LOCATION j) ++ (crlf ++ text "--" ++ boundary) ++ text "--" ++ crlf.
Proof using Type.
  intros boundary. unfold mhtml_message, part_text. fold boundary. unfold all_lines.
  assert (forall b, body_lines b <> []) as Hb by (intros b; unfold body_lines; by destruct (chunks _ _)).
  rewrite !join_with_app by done. rewrite !join_with_cons by apply Hb. rewrite !body_lines_join.
  unfold message_lines, part_lines. cbn [join_with]. rewrite <- !app_assoc. reflexivity.
Qed.

Lemma all_lines_ok content_type location b : header_value content_type -> header_value location ->
  Forall (fun l => carriage_return ∉ l) (all_lines content_type location b) /\
  Forall (plain_line "-") (all_lines content_type location b).
Proof using Hlaws.
  intros Ht Hl. destruct (part_lines_ok content_type location Ht Hl) as (Hc & Hh & _).
  assert (Forall (plain_line "-") (all_lines content_type location b)) as Hp.
  { apply Forall_app. split; [|constructor; [split; [apply not_elem_of_nil|vm_compute; discriminate]|apply body_lines_plain]].
    rewrite Forall_forall in Hc, Hh |- *. intros l Hin. split; [by apply Hc|]. destruct (Hh l Hin) as [Hn Hd]. by destruct l. }
  split; [|done]. revert Hp. apply Forall_impl. by intros l [? _].
Qed.

Lemma cut_part content_type location b boundary rest : header_value content_type -> header_value location ->
  cut (crlf ++ text "--" ++ boundary) (join_with crlf (all_lines content_type location b) ++ (crlf ++ text "--" ++ boundary) ++ rest) =
    Some (join_with crlf (all_lines content_type location b), rest).
Proof using Hlaws.
  intros Ht Hl. destruct (all_lines_ok content_type location b Ht Hl) as [Hc Hp].
  apply (cut_lines "-" ("-"%char :: boundary)); [done|done|]. by apply Forall_cons_1 in Hp as [_ Hp].
Qed.

Lemma cut_head content_type location b : header_value content_type -> header_value location ->
  cut (crlf ++ crlf) (join_with crlf (all_lines content_type location b)) =
    Some (join_with crlf (part_lines content_type location), mime_base64 b).
Proof using Hlaws.
  intros Ht Hl. destruct (part_lines_ok content_type location Ht Hl) as (Hc & Hh & _).
  unfold all_lines. rewrite join_with_app by done.
  rewrite join_with_cons by (unfold body_lines; by destruct (chunks _ _)). rewrite body_lines_join.
  change (cut (crlf ++ crlf) (join_with crlf (part_lines content_type location) ++ (crlf ++ crlf) ++ mime_base64 b) =
    Some (join_with crlf (part_lines content_type location), mime_base64 b)).
  apply (cut_lines carriage_return [newline]); [done|done|].
  apply Forall_cons_1 in Hc as [_ Hc], Hh as [_ Hh]. rewrite Forall_forall in Hc, Hh |- *. intros l Hin. split; [by apply Hc|].
  destruct (Hh l Hin) as [Hn _]. destruct l as [|c l]; [done|]. cbn [app head]. intros [= ->]. apply (Hc _ Hin). by left.
Qed.

Lemma parts_read content_type1 location1 b1 content_type2 location2 b2 boundary :
  header_value content_type1 -> header_value location1 -> header_value content_type2 -> header_value location2 ->
  parts_loop 3 (crlf ++ text "--" ++ boundary)
    (join_with crlf (all_lines content_type1 location1 b1) ++ (crlf ++ text "--" ++ boundary) ++ crlf ++
     join_with crlf (all_lines content_type2 location2 b2) ++ (crlf ++ text "--" ++ boundary) ++ text "--" ++ crlf) [] =
  Some [MkPart (part_headers content_type1 location1) (mime_base64 b1); MkPart (part_headers content_type2 location2) (mime_base64 b2)].
Proof using Hlaws.
  intros Ht1 Hl1 Ht2 Hl2. cbn [parts_loop]. rewrite cut_part by done. cbn [mbind option_bind].
  rewrite cut_head by done. cbn [mbind option_bind]. rewrite (proj2 (proj2 (part_lines_ok _ _ Ht1 Hl1))). cbn [mbind option_bind].
  rewrite bool_decide_eq_false_2 by (intros [=]). rewrite strip_app. cbn [mbind option_bind length app Nat.ltb Nat.leb].
  rewrite cut_part by done. cbn [mbind option_bind]. rewrite cut_head by done. cbn [mbind option_bind].
  rewrite (proj2 (proj2 (part_lines_ok _ _ Ht2 Hl2))). cbn [mbind option_bind]. by rewrite bool_decide_eq_true_2.
Qed.

Lemma headers_read source html : header_value source ->
  Forall (fun l => carriage_return ∉ l) (message_lines source (boundary_of html)) /\
  parse_mime_headers (join_with crlf (message_lines source (boundary_of html))) = Some (message_headers source (boundary_of html)).
Proof using Hlaws.
  intros Hs. pose proof (content_type_value _ (boundary_graphic html)) as Hb.
  assert (Forall (fun l => carriage_return ∉ l) (message_lines source (boundary_of html))) as Hc.
  { repeat constructor; [vm_compute; set_solver..|by apply value_line; [vm_compute; set_solver|]|by apply value_line; [vm_compute; set_solver|]]. }
  split; [done|]. unfold parse_mime_headers. rewrite pieces_join by done. unfold message_lines. cbn [parse_header_lines].
  change (text "Snapshot-Content-Location: " ++ source) with (text "Snapshot-Content-Location" ++ text ": " ++ source).
  change (text "Content-Type: " ++ BOUNDARY_PREFIX ++ boundary_of html ++ [quote])
    with (text "Content-Type" ++ text ": " ++ (BOUNDARY_PREFIX ++ boundary_of html ++ [quote])).
  rewrite (parse_named (text "Snapshot-Content-Location")); [|done|reflexivity|vm_compute; set_solver|done].
  rewrite (parse_named (text "Content-Type")); [|done|reflexivity|vm_compute; set_solver|done].
  reflexivity.
Qed.

Lemma boundary_read boundary : boundary_in (string_of_list_ascii (BOUNDARY_PREFIX ++ boundary ++ [quote])) = Some boundary.
Proof using Type.
  unfold boundary_in. rewrite as_bytes_string, strip_app. cbn [mbind option_bind]. rewrite rev_app_distr. cbn [rev app].
  rewrite decide_True by done. by rewrite rev_involutive.
Qed.

Lemma message_read html j source : header_value source ->
  parse_message (mhtml_message html j source) =
    Some (message_headers source (boundary_of html), boundary_of html,
          [MkPart (part_headers HTML_TYPE source) (mime_base64 html);
           MkPart (part_headers MANIFEST_TYPE MANIFEST_LOCATION) (mime_base64 j)]).
Proof using Hlaws.
  intros Hs. rewrite message_shape. cbn zeta. destruct (headers_read source html Hs) as [Hc Hr]. unfold parse_message.
  rewrite (cut_lines carriage_return [newline]); [|done|done|].
  2:{ apply Forall_cons_1 in Hc as [_ Hc]. rewrite Forall_forall in Hc |- *. intros l Hin. split; [by apply Hc|].
      intros Hh. apply (Hc l Hin). assert (l <> []) as Hn.
      { intros ->. unfold message_lines in Hin. cbn [tail] in Hin. repeat (destruct Hin as [Hin|Hin]; [discriminate Hin|]). done. }
      destruct l as [|c l]; [done|]. cbn [app head] in Hh. injection Hh as ->. by left. }
  cbn [mbind option_bind]. rewrite Hr. cbn [mbind option_bind].
  assert (message_headers source (boundary_of html) !! "content-type" = Some (string_of_list_ascii (BOUNDARY_PREFIX ++ boundary_of html ++ [quote]))) as ->
    by reflexivity.
  cbn [mbind option_bind]. rewrite boundary_read. cbn [mbind option_bind]. unfold parse_multipart_parts.
  rewrite bool_decide_eq_false_2 by done. rewrite boundary_chars. cbn [negb orb]. rewrite strip_app. cbn [mbind option_bind].
  rewrite parts_read; [done|exact html_type_value|done|by apply graphic_value|by apply graphic_value].
Qed.

Lemma message_ascii html j source : header_value source -> is_utf8 (mhtml_message html j source) = true.
Proof using Hlaws.
  intros Hs. apply ascii_utf8. unfold mhtml_message, part_text. pose proof (graphic_ascii _ (boundary_graphic html)) as Hb.
  assert (forall b, all is_ascii_byte (mime_base64 b)) as Hm.
  { intros b. rewrite <- body_lines_join. induction (body_lines_graphic b) as [|l lines Hl _ IH]; [done|].
    destruct lines as [|l' lines]; [by apply graphic_ascii|]. rewrite join_with_cons by done.
    repeat apply all_app; [by apply graphic_ascii|reflexivity|done]. }
  repeat apply all_app; try reflexivity; try apply Hb; try apply Hm; apply Hs.
Qed.

(** What the verifier says of a message of the encoder. *)
Lemma verify_message html j m : all is_graphic (as_bytes (ss_final_url (am_source m))) -> manifest_to_pretty m = Some j ->
  let b := mhtml_message html j (as_bytes (ss_final_url (am_source m))) in
  is_ok (verify_mhtml is_utf8 b) = true <->
  (Z.of_nat (length html) <= MAXIMUM_DECODED_HTML_BYTES /\ Z.of_nat (length j) <= MAXIMUM_DECODED_MANIFEST_BYTES /\
   is_ok (verify_static_sandboxed is_utf8 html) = true /\ inspect_html_bytes html = Ok m).
Proof using Hlaws.
  intros Hg Hj. cbn zeta. pose proof (graphic_value _ Hg) as Hs. set (source := as_bytes _) in *. unfold verify_mhtml.
  rewrite message_ascii by done. cbn [negb]. rewrite message_read by done.
  assert (dom (message_headers source (boundary_of html)) = message_header_names) as Hd.
  { unfold message_headers, message_header_names. set_solver. }
  rewrite (bool_decide_eq_true_2 _ Hd). cbn [negb orb].
  rewrite (bool_decide_eq_false_2 (message_headers _ _ !! "from" <> _)) by (intros Hn; by apply Hn).
  rewrite (bool_decide_eq_false_2 (message_headers _ _ !! "subject" <> _)) by (intros Hn; by apply Hn).
  rewrite (bool_decide_eq_false_2 (message_headers _ _ !! "mime-version" <> _)) by (intros Hn; by apply Hn).
  cbn [orb]. rewrite decode_part by (unfold MAXIMUM_DECODED_MANIFEST_BYTES, MAXIMUM_DECODED_HTML_BYTES; lia). cbn [rbind].
  destruct (Z.leb_spec (Z.of_nat (length html)) MAXIMUM_DECODED_HTML_BYTES) as [Hl|Hl]; [|split; [done|lia]].
  rewrite decode_part by (unfold MAXIMUM_DECODED_MANIFEST_BYTES, MAXIMUM_DECODED_HTML_BYTES; lia). cbn [rbind].
  destruct (Z.leb_spec (Z.of_nat (length j)) MAXIMUM_DECODED_MANIFEST_BYTES) as [Hk|Hk]; [|split; [done|lia]].
  rewrite (pretty_read m j Hj). rewrite bool_decide_eq_true_2 by done.
  assert (message_headers source (boundary_of html) !! "snapshot-content-location" = Some (ss_final_url (am_source m))) as ->.
  { change (Some (string_of_list_ascii source) = Some (ss_final_url (am_source m))). unfold source. by rewrite string_as_bytes. }
  rewrite (bool_decide_eq_true_2 (mp_headers _ !! "content-location" = Some (ss_final_url _))).
  2:{ change (Some (string_of_list_ascii source) = Some (ss_final_url (am_source m))). unfold source. by rewrite string_as_bytes. }
  rewrite (bool_decide_eq_true_2 (mp_headers _ !! "content-location" = Some "offprint-manifest.json")) by reflexivity.
  rewrite (bool_decide_eq_true_2 (Some (ss_final_url (am_source m)) = Some (ss_final_url (am_source m)))) by done.
  unfold manifest_encoding_matches. rewrite Hj, (bool_decide_eq_true_2 (j = j)) by done. rewrite !andb_true_r.
  unfold ensure_verified. cbn [andb].
  destruct (verify_static_sandboxed is_utf8 html) as [v|e]; cbn [is_ok andb]; [|split; [done|intros (_ & _ & [=] & _)]].
  destruct (inspect_html_bytes html) as [m'|e]; [|split; [done|intros (_ & _ & _ & [=])]].
  destruct (decide (m' = m)) as [->|Hm]; [rewrite bool_decide_eq_true_2 by done; by split_and!|].
  rewrite bool_decide_eq_false_2 by done. split; [done|]. intros (_ & _ & _ & [= ->]). done.
Qed.

(** C30: an MHTML export holds the page and its manifest, and nothing is lost on the
    way. For a manifest whose address is written with visible ASCII characters, as
    every URL is: encoding succeeds exactly when the page can be made to do without
    its programs, the manifest is the one in the page and both are within the limits
    of the format; the result is the message with both in Base64 and the digest of
    the page in its boundary, whose headers and parts are read back to the same page
    and the same manifest, whatever bytes these hold. *)
Theorem mhtml_exact html m b : all is_graphic (as_bytes (ss_final_url (am_source m))) ->
  encode_mhtml is_utf8 html m = Ok b <->
  exists page j, encode_sandboxed_html is_utf8 html = Ok page /\ manifest_to_pretty m = Some j /\
    b = mhtml_message page j (as_bytes (ss_final_url (am_source m))) /\
    Z.of_nat (length page) <= MAXIMUM_DECODED_HTML_BYTES /\ Z.of_nat (length j) <= MAXIMUM_DECODED_MANIFEST_BYTES /\
    inspect_html_bytes page = Ok m.
Proof using Hlaws.
  intros Hg. unfold encode_mhtml. destruct (encode_sandboxed_html is_utf8 html) as [page|e] eqn:Ep; cbn [rbind].
  2:{ split; [done|]. by intros (? & ? & ? & _). }
  destruct (manifest_to_pretty m) as [j|] eqn:Ej; cbn [ok_or rbind].
  2:{ split; [done|]. by intros (? & ? & _ & ? & _). }
  pose proof (verify_message page j m Hg Ej) as Hv. cbn zeta in Hv.
  assert (is_ok (verify_static_sandboxed is_utf8 page) = true) as Hs by by apply (sandboxed_verifies is_utf8 html).
  destruct (verify_mhtml _ _) as [v|e]; cbn [is_ok rbind] in *.
  - destruct (proj1 Hv eq_refl) as (H1' & H2' & _ & H3'). split.
    + intros [= <-]. by exists page, j.
    + intros (page' & j' & [= <-] & [= <-] & -> & _). done.
  - split; [done|]. intros (page' & j' & [= <-] & [= <-] & _ & H1' & H2' & H3'). discriminate (proj2 Hv (conj H1' (conj H2' (conj Hs H3')))).
Qed.
End Mhtml.

(** ** The self-extracting page is read back *)

Lemma marker_found rest : cut MARKER (SHELL_START ++ MARKER ++ rest) = Some (SHELL_START, rest).
Proof. vm_compute. reflexivity. Qed.

Lemma shell_read digest payload : all is_hex_digit digest -> all is_base64_byte payload ->
  parse_shell (self_extracting_shell digest payload) = Some (digest, payload).
Proof.
  intros Hd Hp. unfold parse_shell, self_extracting_shell. rewrite marker_found. cbn [mbind option_bind].
  rewrite (cut_at quote [] digest) by by apply (all_not_elem is_hex_digit _ _ Hd). cbn [mbind option_bind].
  change (cut (text ">") (quote :: text ">" ++ payload ++ SCRIPT_END ++ SHELL_END)) with (Some ([quote], payload ++ SCRIPT_END ++ SHELL_END)).
  cbn [mbind option_bind]. change SCRIPT_END with ("<"%char :: text "/script>").
  rewrite (cut_at "<") by by apply (all_not_elem is_base64_byte _ _ Hp). done.
Qed.

Lemma len_u64_le {A} (l : list A) maximum : maximum < u64_max -> (len_u64 l <= maximum <-> Z.of_nat (length l) <= maximum).
Proof. unfold len_u64. lia. Qed.

Lemma hex_ascii c : is_hex_digit c = true -> is_ascii_byte c = true.
Proof. revert c. apply by_byte. vm_compute. reflexivity. Qed.

Section SelfExtracting.
Context `{HtmlParser} `{Scripts} `{Encodings} `{Hashing} `{UrlLib} `{Discovery} `{DataUrls} `{Floats} `{ManifestJson}.
Context (is_utf8 : bytes -> bool) {Hlaws : FormatLaws is_utf8}.

(** Of gzip: decompressing gives back what was compressed, up to the limit. *)
Context (gzip : bytes -> option bytes) (gunzip : Z -> bytes -> option bytes).
Context (gzip_read : forall b c n, gzip b = Some c -> gunzip n c = Some (take (Z.to_nat n) b)).

Definition shell_of (html compressed : bytes) : bytes :=
  self_extracting_shell (as_bytes (to_hex (sha256 html))) (as_bytes (base64_encode compressed)).

Lemma shell_of_read html compressed :
  parse_shell (shell_of html compressed) = Some (as_bytes (to_hex (sha256 html)), as_bytes (base64_encode compressed)).
Proof using Hlaws.
  apply shell_read; [|apply base64_alphabet]. pose proof (digest_hex html) as Hd. unfold is_digest in Hd. by apply andb_prop in Hd as [_ Hd].
Qed.

Lemma shell_of_ascii html compressed : is_utf8 (shell_of html compressed) = true.
Proof using Hlaws.
  apply ascii_utf8. unfold shell_of, self_extracting_shell.
  assert (all is_ascii_byte (as_bytes (to_hex (sha256 html)))) as Hd.
  { pose proof (digest_hex html) as Hd. unfold is_digest in Hd. apply andb_prop in Hd as [_ Hd]. revert Hd. apply all_imp, hex_ascii. }
  assert (all is_ascii_byte (as_bytes (base64_encode compressed))) as Hp by apply graphic_ascii, (base64_text is_utf8).
  repeat apply all_app; try done; vm_compute; reflexivity.
Qed.

(** C31: a self-extracting page is accepted exactly when it is what the encoder
    writes. The verifier accepts bytes if and only if they are the shell around the
    compressed text of a page that passes static verification, byte by byte, with
    its digest, both within the limits of the format; nothing else can be in the
    file. *)
Theorem self_extracting_exact b e :
  verify_self_extracting is_utf8 gzip gunzip b = Ok e <->
  e = MkEvidence SelfExtractingHtml true true /\
  exists html compressed, gzip html = Some compressed /\ b = shell_of html compressed /\
    Z.of_nat (length html) <= MAXIMUM_DECODED_HTML_BYTES /\
    Z.of_nat (length (as_bytes (base64_encode compressed))) <= 2 * MAXIMUM_DECODED_HTML_BYTES /\
    is_ok (verify_static is_utf8 html) = true.
Proof using Hlaws gzip_read.
  assert (MAXIMUM_DECODED_HTML_BYTES * 2 < u64_max) as Hmax by (vm_compute; reflexivity).
  assert (Z.min u64_max (MAXIMUM_DECODED_HTML_BYTES * 2) = 2 * MAXIMUM_DECODED_HTML_BYTES) as Htwice by lia.
  assert (0 <= MAXIMUM_DECODED_HTML_BYTES) as Hpos by (vm_compute; discriminate).
  unfold verify_self_extracting. rewrite Htwice. split.
  - destruct (is_utf8 b); [|done]. cbn [negb]. destruct (parse_shell b) as [[digest payload]|] eqn:Es; [|done].
    destruct (Z.ltb_spec (2 * MAXIMUM_DECODED_HTML_BYTES) (len_u64 payload)) as [|Hp]; [done|].
    intros Hv. apply rbind_ok in Hv as (compressed & _ & Hv). apply rbind_ok in Hv as (html & _ & Hv).
    apply rbind_ok in Hv as (canonical & Hc & Hv). unfold ensure_verified in Hv.
    destruct (is_digest digest && _) eqn:Hst; [|done]. destruct (_ && is_ok (verify_static is_utf8 html)) eqn:Hct; [|done].
    injection Hv as <-. split; [done|]. apply andb_prop in Hct as [Hct Hok]. apply andb_prop in Hct as [Hlen _].
    rewrite Hlen in Hc. unfold render_self_extracting in Hc. apply rbind_ok in Hc as (c & Hg & [= <-]).
    apply andb_prop in Hst as [_ Hb]. apply bool_decide_eq_true in Hb. fold (shell_of html c) in Hb.
    exists html, c. destruct (gzip html) as [c'|] eqn:Eg; [injection Hg as ->|done]. split; [done|]. split; [done|].
    apply Z.leb_le, len_u64_le in Hlen; [|lia]. split; [done|]. split; [|done].
    rewrite <- Hb, shell_of_read in Es. injection Es as <- <-. apply len_u64_le in Hp; [done|lia].
  - intros (-> & html & compressed & Hg & -> & Hlen & Hp & Hok). rewrite shell_of_ascii, shell_of_read. cbn [negb].
    rewrite (proj2 (Z.ltb_ge _ _)) by (apply len_u64_le; [lia|done]).
    assert (str_trim (string_of_list_ascii (as_bytes (base64_encode compressed))) = base64_encode compressed) as ->.
    { pose proof (base64_text is_utf8 compressed) as Ht. destruct (graphic_ends _ Ht) as [H1' H2'].
      rewrite (proj1 (trim_text _ (graphic_ascii _ Ht) H1' H2')). apply string_as_bytes. }
    rewrite base64_round_trip. cbn [ok_or rbind]. rewrite (gzip_read html compressed _ Hg), take_ge by lia. cbn [ok_or rbind].
    rewrite (proj2 (Z.leb_le _ _)) by (apply len_u64_le; [lia|done]). unfold render_self_extracting. rewrite Hg. cbn [ok_or rbind].
    fold (shell_of html compressed). rewrite (bool_decide_eq_true_2 (shell_of html compressed = _)) by done.
    rewrite (bool_decide_eq_true_2 (as_bytes _ = as_bytes _)) by done. rewrite Hok.
    pose proof (digest_hex html) as Hd. unfold to_hex, sha256 in *. cbn [digest_bytes] in *. by rewrite Hd.
Qed.
End SelfExtracting.

(** ** Markdown bundles *)

Definition total_length (contents : list bytes) : Z := fold_right (fun c n => Z.of_nat (length c) + n) 0 contents.

Lemma total_length_positive contents : 0 <= total_length contents.
Proof. induction contents; cbn [total_length fold_right]; [done|]. fold (total_length contents). lia. Qed.

Lemma add_assets_exact maximum stage contents : maximum < u64_max -> forall total, 0 <= total <= maximum ->
  (total + total_length contents <= maximum -> add_assets maximum stage contents total = Ok (total + total_length contents)) /\
  (maximum < total + total_length contents -> add_assets maximum stage contents total = Err (markdown_byte_limit_error stage)).
Proof.
  intros Hm. induction contents as [|c contents IH]; intros total Ht; cbn [add_assets total_length fold_right].
  { split; [intros _; by rewrite Z.add_0_r|lia]. }
  fold (total_length contents). pose proof (total_length_positive contents).
  assert (saturating_add u64_max total (len_u64 c) = total + Z.of_nat (length c) \/
          maximum < saturating_add u64_max total (len_u64 c) /\ maximum < total + Z.of_nat (length c)) as [-> | [Hs Hc]]
    by (unfold saturating_add, len_u64; lia).
  - destruct (Z.ltb_spec maximum (total + Z.of_nat (length c))) as [Hb|Hb]; [split; [lia|done]|].
    destruct (IH (total + Z.of_nat (length c)) ltac:(lia)) as [IH1 IH2]. rewrite Z.add_assoc. split; intros; [by apply IH1|by apply IH2].
  - rewrite (proj2 (Z.ltb_lt _ _) Hs). split; [lia|done].
Qed.

(** A bundle is within its limits exactly when it has no more assets and no more
    bytes, text and assets together, than allowed; the sum does not wrap. *)
Lemma bundle_limits b maximum_assets maximum_bytes stage : 0 <= maximum_bytes < u64_max ->
  is_ok (validate_bundle_limits b maximum_assets maximum_bytes stage) = true <->
  Z.of_nat (length (mb_assets b)) <= maximum_assets /\
  Z.of_nat (length (mb_markdown b)) + total_length (map snd (mb_assets b)) <= maximum_bytes.
Proof.
  intros Hm. unfold validate_bundle_limits. destruct (Z.ltb_spec maximum_assets (Z.of_nat (length (mb_assets b)))) as [Ha|Ha];
    [split; [done|lia]|].
  pose proof (total_length_positive (map snd (mb_assets b))) as Hp.
  destruct (Z.le_gt_cases (Z.of_nat (length (mb_markdown b))) maximum_bytes) as [Hb|Hb].
  - assert (len_u64 (mb_markdown b) = Z.of_nat (length (mb_markdown b))) as -> by (unfold len_u64; lia).
    destruct (add_assets_exact maximum_bytes stage (map snd (mb_assets b)) ltac:(lia) (Z.of_nat (length (mb_markdown b))) ltac:(lia)) as [H1 H2].
    destruct (Z.le_gt_cases (Z.of_nat (length (mb_markdown b)) + total_length (map snd (mb_assets b))) maximum_bytes) as [Ht|Ht].
    + rewrite (H1 Ht). cbn [rbind]. by rewrite (proj2 (Z.ltb_ge _ _) Ht).
    + rewrite (H2 Ht). split; [done|lia].
  - split; [|lia]. assert (maximum_bytes < len_u64 (mb_markdown b)) as Hl by (unfold len_u64; lia).
    assert (forall contents total, maximum_bytes < total -> total <= u64_max ->
      match add_assets maximum_bytes stage contents total with Ok t => maximum_bytes < t | Err _ => True end) as Hadd.
    { intros [|c contents] total Ht Hu; cbn [add_assets]; [done|].
      rewrite (proj2 (Z.ltb_lt maximum_bytes (saturating_add u64_max total (len_u64 c)))); [done|].
      unfold saturating_add. pose proof (len_u64_nonneg c). lia. }
    specialize (Hadd (map snd (mb_assets b)) _ Hl ltac:(unfold len_u64; lia)).
    destruct (add_assets _ _ _ _) as [t|e]; cbn [rbind]; [by rewrite (proj2 (Z.ltb_lt _ _) Hadd)|done].
Qed.

(** ** Sample codecs and pages *)
Module FormatSamples.
Import VerifySamples.

(** Base64, with the digits of [A-Za-z0-9+/]. *)
Definition digits : bytes := as_bytes "ABCDEFGHIJKLMNOPQRSTUVWXYZabcdefghijklmnopqrstuvwxyz0123456789+/".

Definition digit64 (n : Z) : ascii := nth (Z.to_nat n) digits "="%char.

Fixpoint place (c : ascii) (l : bytes) (n : Z) : option Z :=
  match l with [] => None | d :: l' => if decide (c = d) then Some n else place c l' (n + 1) end.
Definition value64 (c : ascii) : option Z := place c digits 0.

Fixpoint encode64 (l : bytes) : bytes :=
  match l with
  | a :: b :: c :: l' =>
      let n := byte_val a * 65536 + byte_val b * 256 + byte_val c in
      digit64 (n / 262144) :: digit64 (n / 4096 mod 64) :: digit64 (n / 64 mod 64) :: digit64 (n mod 64) :: encode64 l'
  | [a; b] =>
      let n := byte_val a * 256 + byte_val b in
      [digit64 (n / 1024); digit64 (n / 16 mod 64); digit64 (n mod 16 * 4); "="%char]
  | [a] => [digit64 (byte_val a / 4); digit64 (byte_val a mod 4 * 16); "="%char; "="%char]
  | [] => []
  end.

Fixpoint decode64 (l : bytes) : option bytes :=
  match l with
  | [] => Some []
  | a :: b :: c :: d :: l' =>
      x ← value64 a; y ← value64 b;
      if decide (d = "="%char) then
        if decide (c = "="%char) then Some [byte_of (x * 4 + y / 16)]
        else z ← value64 c; let n := x * 1024 + y * 16 + z / 4 in Some [byte_of (n / 256); byte_of (n mod 256)]
      else
        z ← value64 c; w ← value64 d;
        let n := x * 262144 + y * 4096 + z * 64 + w in
        rest ← decode64 l'; Some (byte_of (n / 65536) :: byte_of (n / 256 mod 256) :: byte_of (n mod 256) :: rest)
  | _ => None
  end.

Lemma value_digit n : 0 <= n < 64 -> value64 (digit64 n) = Some n /\ is_base64_byte (digit64 n) = true /\ digit64 n <> "="%char.
Proof.
  intros Hn.
  assert (forallb (fun k => bool_decide (value64 (digit64 (Z.of_nat k)) = Some (Z.of_nat k)) && is_base64_byte (digit64 (Z.of_nat k))
    && bool_decide (digit64 (Z.of_nat k) <> "="%char)) (seq 0 64) = true) as Hall by (vm_compute; reflexivity).
  rewrite forallb_forall in Hall. specialize (Hall (Z.to_nat n)). rewrite Z2Nat.id in Hall by lia.
  assert (In (Z.to_nat n) (seq 0 64)) as Hin by (apply in_seq; lia). specialize (Hall Hin).
  apply andb_prop in Hall as [Hall H3]. apply andb_prop in Hall as [H1 H2]. apply bool_decide_eq_true in H1, H3. done.
Qed.

Lemma byte_val_bound c : 0 <= byte_val c < 256.
Proof. unfold byte_val. pose proof (N_ascii_bounded c). lia. Qed.

Lemma three_induction (P : bytes -> Prop) : P [] -> (forall a, P [a]) -> (forall a b, P [a; b]) ->
  (forall a b c l, P l -> P (a :: b :: c :: l)) -> forall l, P l.
Proof.
  intros H0 H1 H2 H3 l. assert (P l /\ (forall a, P (a :: l)) /\ (forall a b, P (a :: b :: l))) as [? _]; [|done].
  induction l as [|c l (IH0 & IH1 & IH2)]; [done|]. split_and!; auto.
Qed.

Ltac arithmetic := Z.to_euclidean_division_equations; lia.

Lemma encode64_alphabet l : all is_base64_byte (encode64 l).
Proof.
  induction l as [|a|a b|a b c l IH] using three_induction; cbn [encode64 forallb]; [done|..].
  - pose proof (byte_val_bound a). repeat (apply andb_true_intro; split); try done; apply value_digit; arithmetic.
  - pose proof (byte_val_bound a). pose proof (byte_val_bound b).
    repeat (apply andb_true_intro; split); try done; apply value_digit; arithmetic.
  - pose proof (byte_val_bound a). pose proof (byte_val_bound b). pose proof (byte_val_bound c).
    repeat (apply andb_true_intro; split); try done; apply value_digit; arithmetic.
Qed.

Lemma encode64_length l : length (encode64 l) = (4 * ((length l + 2) / 3))%nat.
Proof.
  induction l as [|a|a b|a b c l IH] using three_induction; [done..|]. cbn [encode64 length]. rewrite IH.
  replace (S (S (S (length l))) + 2)%nat with ((length l + 2) + 1 * 3)%nat by lia. rewrite Nat.div_add by lia. lia.
Qed.

Lemma decode64_quad x y z w l : 0 <= x < 64 -> 0 <= y < 64 -> 0 <= z < 64 -> 0 <= w < 64 ->
  decode64 (digit64 x :: digit64 y :: digit64 z :: digit64 w :: l) =
  (let n := x * 262144 + y * 4096 + z * 64 + w in
   rest ← decode64 l; Some (byte_of (n / 65536) :: byte_of (n / 256 mod 256) :: byte_of (n mod 256) :: rest)).
Proof.
  intros Hx Hy Hz Hw. destruct (value_digit x Hx) as (Ex & _ & _), (value_digit y Hy) as (Ey & _ & _),
    (value_digit z Hz) as (Ez & _ & _), (value_digit w Hw) as (Ew & _ & Nw).
  cbn [decode64]. rewrite Ex, Ey. cbn [mbind option_bind]. rewrite decide_False by done. by rewrite Ez, Ew.
Qed.

Lemma decode64_three x y z : 0 <= x < 64 -> 0 <= y < 64 -> 0 <= z < 64 ->
  decode64 [digit64 x; digit64 y; digit64 z; "="%char] =
  (let n := x * 1024 + y * 16 + z / 4 in Some [byte_of (n / 256); byte_of (n mod 256)]).
Proof.
  intros Hx Hy Hz. destruct (value_digit x Hx) as (Ex & _ & _), (value_digit y Hy) as (Ey & _ & _), (value_digit z Hz) as (Ez & _ & Nz).
  cbn [decode64]. rewrite Ex, Ey. cbn [mbind option_bind]. rewrite decide_True by done. rewrite decide_False by done. by rewrite Ez.
Qed.

Lemma decode64_two x y : 0 <= x < 64 -> 0 <= y < 64 ->
  decode64 [digit64 x; digit64 y; "="%char; "="%char] = Some [byte_of (x * 4 + y / 16)].
Proof.
  intros Hx Hy. destruct (value_digit x Hx) as (Ex & _ & _), (value_digit y Hy) as (Ey & _ & _).
  cbn [decode64]. rewrite Ex, Ey. cbn [mbind option_bind]. by rewrite !decide_True by done.
Qed.

Lemma decode_encode64 l : decode64 (encode64 l) = Some l.
Proof.
  induction l as [|a|a b|a b c l IH] using three_induction; cbn [encode64]; [done|..].
  - pose proof (byte_val_bound a). rewrite decode64_two by arithmetic.
    replace (byte_val a / 4 * 4 + byte_val a mod 4 * 16 / 16) with (byte_val a) by arithmetic. by rewrite byte_of_val.
  - pose proof (byte_val_bound a). pose proof (byte_val_bound b). rewrite decode64_three by arithmetic. cbn zeta.
    set (n := byte_val a * 256 + byte_val b).
    replace (n / 1024 * 1024 + n / 16 mod 64 * 16 + n mod 16 * 4 / 4) with n by (unfold n; arithmetic).
    replace (n / 256) with (byte_val a) by (unfold n; arithmetic). replace (n mod 256) with (byte_val b) by (unfold n; arithmetic).
    by rewrite !byte_of_val.
  - pose proof (byte_val_bound a). pose proof (byte_val_bound b). pose proof (byte_val_bound c).
    rewrite decode64_quad by arithmetic. cbn zeta. rewrite IH. cbn [mbind option_bind].
    set (n := byte_val a * 65536 + byte_val b * 256 + byte_val c).
    replace (n / 262144 * 262144 + n / 4096 mod 64 * 4096 + n / 64 mod 64 * 64 + n mod 64) with n by (unfold n; arithmetic).
    replace (n / 65536) with (byte_val a) by (unfold n; arithmetic). replace (n / 256 mod 256) with (byte_val b) by (unfold n; arithmetic).
    replace (n mod 256) with (byte_val c) by (unfold n; arithmetic). by rewrite !byte_of_val.
Qed.

Definition hex_digits (c : ascii) : bytes :=
  let digit n := nth (Z.to_nat n) (as_bytes "0123456789abcdef") "0"%char in [digit (byte_val c / 16); digit (byte_val c mod 16)].

Lemma hex_text l : length (concat (map hex_digits l)) = (2 * length l)%nat /\ all is_hex_digit (concat (map hex_digits l)).
Proof.
  induction l as [|c l [IH1 IH2]]; [done|]. cbn [map]. change (concat (hex_digits c :: map hex_digits l)) with (hex_digits c ++ concat (map hex_digits l)).
  split; [rewrite length_app, IH1; cbn; lia|]. apply all_app; [|done].
  exact (by_byte (fun _ => true) (fun c => forallb is_hex_digit (hex_digits c)) eq_refl c eq_refl).
Qed.

#[local] Instance format_hashing : Hashing := {|
  sha256_raw b := take 32 (b ++ replicate 32 "0"%char);
  hex_encode b := string_of_list_ascii (concat (map hex_digits b)) |}.

(** A page without resources or frames. *)
Definition format_manifest : ArtifactManifest := {|
  am_schema_version := 2; am_format_version := 2; am_generator := MkGenerator "Offprint" "0.1.0";
  am_source := MkSource "https://example.com/" (MkDigest []) "https://example.com/" (MkDigest []);
  am_captured_at := "2026-07-27T00:00:00Z"; am_browser := MkBrowserInfo Chromium "1" SourceSystem None None None "1.3";
  am_environment := environment_default; am_view_state := MkView "0" "0";
  am_capture_policy_sha256 := MkDigest []; am_frames := 1; am_resources := MkSummary 0 0 0 0 0 0; am_resource_records := [];
  am_warning_codes := []; am_structural_repair := MkRepair false None; am_verification_mode := VerifyStatic |}.

#[local] Instance format_encodings : Encodings := {|
  base64_encode b := string_of_list_ascii (encode64 b); base64_decode s := decode64 (as_bytes s);
  manifest_to_json := fun _ => Some "{manifest}";
  manifest_from_json := fun s => if bool_decide (s = "{manifest}") then Some format_manifest else None;
  repair_from_json := fun _ => None |}.

Definition format_calls (policy : string) (program : list SinkCall) : list SinkCall :=
  [ element "html" [(DOCUMENT_SCROLL_X_ATTRIBUTE, "0"); (DOCUMENT_SCROLL_Y_ATTRIBUTE, "0")]; Append 0 (AppendNode 1);
    element "head" []; Append 1 (AppendNode 2);
    element "meta" [("id", CSP_ELEMENT_ID); ("http-equiv", "Content-Security-Policy"); ("content", policy)];
    Append 2 (AppendNode 3);
    element "script" [("id", MANIFEST_ELEMENT_ID); ("type", MANIFEST_MEDIA_TYPE)]; Append 2 (AppendNode 4);
    Append 4 (AppendText "{manifest}") ] ++ program.

#[local] Instance format_parser : HtmlParser := {| parser_calls b :=
  if bool_decide (b = artifact_bytes)
  then format_calls (content_security_policy format_manifest)
         [element "script" [("id", STATE_SCRIPT_ELEMENT_ID)]; Append 2 (AppendNode 6); Append 6 (AppendText "restoreState()")]
  else format_calls (sandboxed_content_security_policy format_manifest) [] |}.

#[local] Instance format_discovery : Discovery :=
  {| discover_document_resources := fun _ _ => Ok []; discover_css_resources := fun _ _ => Ok [] |}.

#[local] Instance format_json : ManifestJson := {|
  manifest_to_pretty m := if decide (m = format_manifest) then Some (as_bytes "{manifest}") else None;
  manifest_from_slice b := if bool_decide (b = as_bytes "{manifest}") then Some format_manifest else None |}.

#[local] Instance format_laws : FormatLaws (fun _ => true).
Proof.
  split.
  - intros b. cbn. rewrite as_bytes_string. apply decode_encode64.
  - intros b. cbn. rewrite as_bytes_string. apply encode64_alphabet.
  - intros b. cbn. rewrite as_bytes_string. apply encode64_length.
  - intros b. change (is_digest (as_bytes (string_of_list_ascii (concat (map hex_digits (take 32 (b ++ replicate 32 "0"%char)))))) = true).
    rewrite as_bytes_string. unfold is_digest. apply andb_true_intro. split; [|apply hex_text].
    apply Nat.eqb_eq. rewrite (proj1 (hex_text _)), length_take, length_app, length_replicate. lia.
  - intros m j. cbn. destruct (decide _) as [->|]; [|done]. intros [= <-]. reflexivity.
  - done.
Defined.

(** The page is made to do without its program and exported. *)
Definition sandboxed_page : bytes :=
  Eval vm_compute in match encode_sandboxed_html (fun _ => true) artifact_bytes with Ok b => b | Err _ => [] end.

Lemma mhtml_exact_witness :
  exists b, encode_mhtml (fun _ => true) artifact_bytes format_manifest = Ok b /\
    b = mhtml_message sandboxed_page (as_bytes "{manifest}") (as_bytes "https://example.com/").
Proof.
  exists (mhtml_message sandboxed_page (as_bytes "{manifest}") (as_bytes "https://example.com/")). split; [|reflexivity].
  apply (mhtml_exact (fun _ => true) artifact_bytes format_manifest); [vm_compute; reflexivity|].
  exists sandboxed_page, (as_bytes "{manifest}"). split_and!; try reflexivity; vm_compute; try reflexivity; discriminate.
Defined.

Definition stored (b : bytes) : option bytes := Some b.
Definition unstored (n : Z) (b : bytes) : option bytes := Some (take (Z.to_nat n) b).

Lemma self_extracting_exact_witness :
  verify_self_extracting (fun _ => true) stored unstored (shell_of artifact_bytes artifact_bytes) =
    Ok (MkEvidence SelfExtractingHtml true true).
Proof.
  apply (self_extracting_exact (fun _ => true) stored unstored); [intros b c n [= <-]; reflexivity|].
  split; [reflexivity|]. exists artifact_bytes, artifact_bytes. split_and!; try reflexivity; vm_compute; try reflexivity; discriminate.
Defined.

End FormatSamples.
