(* ===== verification/Pdf.v ===== *)
(** * PDF exports

    Models the verification of PDF files: their envelope, page tree, passive objects
    and content streams ([offprint-rs/export/src/pdf.rs]) and what is noted of their
    structure ([pdf/semantics.rs]).  The reader of PDF files, which yields the
    objects, is a parameter. *)

From Stdlib Require Import ZArith Lia Ascii String.
From stdpp Require Import base tactics list gmap strings numbers.
From S2P Require Import Prelude.
From S2P Require Import Errors.
From S2P Require Import Records.
From S2P Require Import Schedule.
From S2P Require Import Formats.

#[local] Open Scope string_scope.
#[local] Open Scope list_scope.
#[local] Open Scope Z_scope.

(** ** Objects *)

Abbreviation ObjectId := (Z * Z)%type.

Inductive Object :=
| PNull
| PBoolean (b : bool)
| PInteger (n : Z)
| PReal (text : string)
| PName (name : string)
| PString (value : bytes)
| PArray (l : list Object)
| PDictionary (d : list (string * Object))
| PStream (d : list (string * Object)) (content : bytes)
| PReference (id : ObjectId).

Abbreviation Dictionary := (list (string * Object)).

Record PdfDocument := MkPdf { pd_trailer : Dictionary; pd_objects : list (ObjectId * Object) }.

(** [Dictionary::get]. *)
Fixpoint dict_get (key : string) (d : Dictionary) : option Object :=
  match d with
  | [] => None
  | (k, v) :: d' => if decide (k = key) then Some v else dict_get key d'
  end.

Definition as_name (o : Object) : option string := match o with PName n => Some n | _ => None end.
Definition as_str (o : Object) : option bytes := match o with PString s => Some s | _ => None end.
Definition as_reference (o : Object) : option ObjectId := match o with PReference id => Some id | _ => None end.
Definition as_i64 (o : Object) : option Z := match o with PInteger n => Some n | _ => None end.
Definition as_bool (o : Object) : option bool := match o with PBoolean b => Some b | _ => None end.
Definition as_dict (o : Object) : option Dictionary := match o with PDictionary d => Some d | _ => None end.

(** What the code uses of the reader. *)
Class PdfReader := {
  load_mem : bytes -> option PdfDocument;
  get_object : PdfDocument -> ObjectId -> option Object;
  get_dictionary : PdfDocument -> ObjectId -> option Dictionary;
  dereference : PdfDocument -> Object -> option Object;
  pdf_catalog : PdfDocument -> option Dictionary;
  get_pages : PdfDocument -> list ObjectId;
  get_type : Dictionary -> option string;
  has_type : string -> Dictionary -> bool;
  decompressed_content : Dictionary -> bytes -> Z -> option bytes;
  decode_strict : bytes -> bool;
}.

(** ** The envelope *)

Fixpoint drop_spaces (l : bytes) : bytes :=
  match l with c :: l' => if is_ascii_whitespace c then drop_spaces l' else l | [] => [] end.

Definition trim_ascii_end (b : bytes) : bytes := rev (drop_spaces (rev b)).
Definition trim_ascii (b : bytes) : bytes := drop_spaces (trim_ascii_end b).

(** [<[u8]>::strip_suffix]. *)
Definition strip_end (suffix b : bytes) : option bytes := rest ← strip (rev suffix) (rev b); Some (rev rest).

Definition is_ascii_digit (c : ascii) : bool := is_some (digit_value c).

Fixpoint contains_bytes (needle b : bytes) : bool :=
  is_some (strip needle b) || match b with [] => false | _ :: b' => contains_bytes needle b' end.

Definition pdf_envelope_valid (b : bytes) : bool :=
  if (Z.of_nat (length b) <? 16) || negb (is_some (strip (as_bytes "%PDF-1.") b))
     || negb (match b !! 7%nat with Some c => is_ascii_digit c | None => false end)
     || negb (match b !! 8%nat with Some c => bool_decide (c = carriage_return) || bool_decide (c = newline) | None => false end)
  then false
  else
    match (prefix ← strip_end (as_bytes "%%EOF") (trim_ascii_end b);
           let prefix := trim_ascii_end prefix in
           marker ← rfind_bytes prefix (as_bytes "startxref");
           let offset_bytes := trim_ascii (drop (marker + 9) prefix) in
           if bool_decide (offset_bytes = []) || negb (forallb is_ascii_digit offset_bytes) then None
           else
             offset ← parse_digits usize_max 0 offset_bytes;
             if offset <=? Z.of_nat (length b) then Some (drop (Z.to_nat offset) b) else None) with
    | Some xref =>
        is_some (strip (as_bytes "xref") xref)
        || contains_bytes (as_bytes "/Type /XRef") (take 1024 xref) || contains_bytes (as_bytes "/Type/XRef") (take 1024 xref)
    | None => false
    end.

(** ** Passive objects *)

Definition FORBIDDEN_KEYS : list string :=
  ["AA"; "AcroForm"; "AF"; "Collection"; "EF"; "EmbeddedFiles"; "JS"; "JavaScript"; "OpenAction"; "RichMediaContent";
   "RichMediaSettings"; "XFA"].

Definition FORBIDDEN_DICTIONARY_KINDS : list string :=
  ["3D"; "EmbeddedFile"; "FileAttachment"; "Filespec"; "JavaScript"; "Movie"; "PS"; "RichMedia"; "RichMediaInstance";
   "RichMediaPresentation"; "Screen"; "Sound"].

Definition FORBIDDEN_ACTIONS : list string :=
  ["GoTo3DView"; "GoToE"; "GoToR"; "Hide"; "ImportData"; "JavaScript"; "Launch"; "Movie"; "Named"; "Rendition"; "ResetForm";
   "SetOCGState"; "Sound"; "SubmitForm"; "Thread"; "Trans"].

Definition dictionary_kind_is_forbidden (d : Dictionary) (key : string) : bool :=
  match dict_get key d ≫= as_name with Some kind => bool_decide (kind ∈ FORBIDDEN_DICTIONARY_KINDS) | None => false end.

Definition SAFE_SCHEMES : list string := ["http"; "https"; "mailto"; "tel"].

(** [char::is_ascii_control]; white space apart from the blank is control too. *)
Definition is_ascii_control (c : ascii) : bool := (byte_val c <? 32) || (byte_val c =? 127).

Section Pdf.
Context `{PdfReader} (is_utf8 : bytes -> bool).

Definition pdf_uri_is_safe (uri : bytes) : bool :=
  if negb (is_utf8 uri) || existsb (fun c => is_ascii_control c || is_ascii_whitespace c) uri then false
  else match cut [":"%char] uri with
       | Some (scheme, _) => bool_decide (to_ascii_lowercase (string_of_list_ascii scheme) ∈ SAFE_SCHEMES)
       | None => false
       end.

Definition action_dictionary_is_safe (d : Dictionary) : bool :=
  match dict_get "S" d ≫= as_name with
  | Some kind =>
      if bool_decide (kind = "GoTo") then true
      else if bool_decide (kind = "URI") then
        match dict_get "URI" d ≫= as_str with Some uri => pdf_uri_is_safe uri | None => false end
      else if bool_decide (kind ∈ FORBIDDEN_ACTIONS) then false
      else negb (has_type "Action" d)
  | None => negb (has_type "Action" d)
  end.

Context (doc : PdfDocument).

Fixpoint resolved {A} (take_ : Object -> option A) (fuel : nat) (o : Object) (depth : Z) : option A :=
  match fuel with
  | O => None
  | S fuel' =>
      if 128 <? depth then None
      else match o with
           | PReference id => value ← get_object doc id; resolved take_ fuel' value (depth + 1)
           | o => take_ o
           end
  end.

(** The depth ends the recursion before the fuel does. *)
Definition resolved_name (o : Object) (depth : Z) : option string := resolved as_name 130 o depth.
Definition resolved_string (o : Object) (depth : Z) : option bytes := resolved as_str 130 o depth.

Fixpoint object_is_passive (fuel : nat) (o : Object) (depth : Z) : bool :=
  match fuel with
  | O => false
  | S fuel' =>
      if 128 <? depth then false
      else match o with
           | PArray l => forallb (fun x => object_is_passive fuel' x (depth + 1)) l
           | PDictionary d | PStream d _ => dictionary_is_passive fuel' d (depth + 1)
           | _ => true
           end
  end
with dictionary_is_passive (fuel : nat) (d : Dictionary) (depth : Z) : bool :=
  match fuel with
  | O => false
  | S fuel' =>
      if (128 <? depth) || existsb (fun kv => bool_decide (kv.1 ∈ FORBIDDEN_KEYS)) d
         || dictionary_kind_is_forbidden d "Type" || dictionary_kind_is_forbidden d "Subtype"
         || negb (action_dictionary_is_safe d)
         || match dict_get "A" d with
            | Some entry => negb (has_type "StructElem" d || action_object_is_safe fuel' entry ∅ depth)
            | None => false
            end
      then false
      else forallb (fun kv => object_is_passive fuel' kv.2 (depth + 1)) d
  end
with action_object_is_safe (fuel : nat) (o : Object) (resolving : gset ObjectId) (depth : Z) : bool :=
  match fuel with
  | O => false
  | S fuel' =>
      if 128 <? depth then false
      else match o with
           | PReference id =>
               if bool_decide (id ∈ resolving) then false
               else match get_object doc id with
                    | Some action => action_object_is_safe fuel' action ({[id]} ∪ resolving) (depth + 1)
                    | None => false
                    end
           | PArray actions => forallb (fun action => action_object_is_safe fuel' action resolving (depth + 1)) actions
           | PDictionary action =>
               match dict_get "S" action ≫= (fun kind => resolved_name kind (depth + 1)) with
               | None => false
               | Some kind =>
                   (if bool_decide (kind = "GoTo") then true
                    else if bool_decide (kind = "URI") then
                      match dict_get "URI" action ≫= (fun uri => resolved_string uri (depth + 1)) with
                      | Some uri => pdf_uri_is_safe uri
                      | None => false
                      end
                    else false)
                   && dictionary_is_passive fuel' action (depth + 1)
                   && match dict_get "Next" action with
                      | Some next => action_object_is_safe fuel' next resolving (depth + 1)
                      | None => true
                      end
               end
           | _ => false
           end
  end.

(** Three calls at most are made at a depth, and there are 130 depths. *)
Definition passive_fuel : nat := 390.

Definition pdf_objects_are_passive : bool :=
  dictionary_is_passive passive_fuel (pd_trailer doc) 0
  && forallb (fun io => object_is_passive passive_fuel io.2 0) (pd_objects doc).

(** ** Pages *)

Definition page_valid (id : ObjectId) : bool :=
  match get_dictionary doc id with
  | Some page =>
      bool_decide (get_type page = Some "Page")
      && match (parent ← dict_get "Parent" page ≫= as_reference; d ← get_dictionary doc parent; get_type d) with
         | Some kind => bool_decide (kind = "Pages")
         | None => false
         end
  | None => false
  end.

Definition validated_page_ids : option (list ObjectId) :=
  if is_some (dict_get "Encrypt" (pd_trailer doc)) then None
  else
    catalog ← pdf_catalog doc;
    if negb (bool_decide (get_type catalog = Some "Catalog")) then None
    else
      pages_id ← dict_get "Pages" catalog ≫= as_reference;
      page_tree ← get_dictionary doc pages_id;
      if negb (bool_decide (get_type page_tree = Some "Pages")) then None
      else
        declared_pages ← dict_get "Count" page_tree ≫= as_i64;
        let pages := get_pages doc in
        if (declared_pages <=? 0) || negb (declared_pages =? Z.of_nat (length pages)) then None
        else if forallb page_valid pages then Some pages else None.

(** ** Content streams *)

Fixpoint height (o : Object) : nat :=
  match o with
  | PArray l => S (fold_right (fun x m => Nat.max (height x) m) 0%nat l)
  | _ => 1
  end.

(** Deeper than every array, once for each object a reference can lead to. *)
Definition content_fuel (o : Object) : nat :=
  let h := fold_right (fun io m => Nat.max (height io.2) m) (height o) (pd_objects doc) in
  (S (length (pd_objects doc)) * S h)%nat.

(** Whether the contents can be read, and how many bytes are left. *)
Fixpoint parse_content_object (fuel : nat) (o : Object) (resolving : gset ObjectId) (remaining : Z) : option (bool * Z) :=
  match fuel with
  | O => None
  | S fuel' =>
      match o with
      | PNull => Some (true, remaining)
      | PReference id =>
          if bool_decide (id ∈ resolving) then Some (false, remaining)
          else match get_object doc id with
               | Some o' => parse_content_object fuel' o' ({[id]} ∪ resolving) remaining
               | None => Some (false, remaining)
               end
      | PArray contents =>
          (fix all (l : list Object) (remaining : Z) : option (bool * Z) :=
             match l with
             | [] => Some (true, remaining)
             | x :: l' =>
                 match parse_content_object fuel' x resolving remaining with
                 | Some (true, remaining) => all l' remaining
                 | r => r
                 end
             end) contents remaining
      | PStream d content =>
          match decompressed_content d content remaining with
          | Some decoded => Some (decode_strict decoded, saturating_sub remaining (Z.of_nat (length decoded)))
          | None => Some (false, remaining)
          end
      | _ => Some (false, remaining)
      end
  end.

Definition page_content_streams_parse (id : ObjectId) : bool :=
  match get_dictionary doc id with
  | None => false
  | Some page =>
      match dict_get "Contents" page with
      | None => true
      | Some contents =>
          match parse_content_object (content_fuel contents) contents ∅ MAXIMUM_DECODED_HTML_BYTES with
          | Some (valid, _) => valid
          | None => false
          end
      end
  end.
End Pdf.

Section Verification.
Context `{PdfReader} (is_utf8 : bytes -> bool).

Definition parse_pdf (b : bytes) : option PdfDocument := if pdf_envelope_valid b then load_mem b else None.

Definition verify_parsed_pdf (b : bytes) (document : option PdfDocument) : Res FormatEvidence :=
  let structure_valid := pdf_envelope_valid b in
  let content_valid :=
    match document with
    | Some doc =>
        match validated_page_ids doc with
        | Some pages => pdf_objects_are_passive is_utf8 doc && forallb (page_content_streams_parse doc) pages
        | None => false
        end
    | None => false
    end in
  ensure_verified Pdf structure_valid content_valid.

Definition verify_pdf (b : bytes) : Res FormatEvidence := verify_parsed_pdf b (parse_pdf b).

(** ** Structure *)

Record PdfSemantics := MkSemantics {
  se_pages : Z;
  se_structure_elements : Z;
  se_tagged : bool;
  se_has_document_outline : bool;
  se_has_text_structure : bool;
}.

Definition resolved_dictionary (doc : PdfDocument) (o : Object) : option Dictionary := dereference doc o ≫= as_dict.

Definition object_dictionary (o : Object) : option Dictionary :=
  match o with PDictionary d => Some d | PStream d _ => Some d | _ => None end.

Definition TEXTUAL_ROLES : list string :=
  ["H"; "H1"; "H2"; "H3"; "H4"; "H5"; "H6"; "P"; "Lbl"; "LBody"; "TH"; "TD"; "Span"; "Quote"; "Note"; "Reference"; "BibEntry";
   "Code"; "Link"; "Ruby"; "Warichu"; "Form"].

Definition structure_role_is_textual (role : string) : bool := bool_decide (role ∈ TEXTUAL_ROLES).

Definition structure_elements (doc : PdfDocument) : list Dictionary :=
  List.filter (has_type "StructElem") (omap (fun io => object_dictionary io.2) (pd_objects doc)).

Definition pdf_inspect (doc : PdfDocument) (stage : ErrorStage) : Res PdfSemantics :=
  catalog <-? ok_or (pdf_catalog doc) (new_error "offprint.export.pdf_semantics" stage) ;;
  let entry key := dict_get key catalog ≫= resolved_dictionary doc in
  let typed key := match entry key with Some d => has_type key d | None => false end in
  let tagged := typed "StructTreeRoot"
    && bool_decide ((d ← entry "MarkInfo"; dict_get "Marked" d ≫= as_bool) = Some true) in
  let elements := structure_elements doc in
  Ok (MkSemantics (Z.min u64_max (Z.of_nat (length (get_pages doc)))) (Z.min u64_max (Z.of_nat (length elements))) tagged
        (typed "Outlines")
        (existsb (fun d => match dict_get "S" d ≫= as_name with Some role => structure_role_is_textual role | None => false end)
           elements)).
End Verification.

(** ** The recursion ends *)

Section Ends.
Context `{PdfReader} (is_utf8 : bytes -> bool) (doc : PdfDocument).

Lemma forallb_same {A} (f g : A -> bool) l : (forall x, f x = g x) -> forallb f l = forallb g l.
Proof using Type. intros Hfg. induction l as [|x l IH]; [done|]. simpl. by rewrite Hfg, IH. Qed.

(** More fuel than the depth leaves room for changes nothing. *)
Lemma passive_more n : forall depth, depth <= 129 ->
  (3 * (129 - depth) + 1 <= Z.of_nat n -> forall o, object_is_passive is_utf8 doc n o depth = object_is_passive is_utf8 doc (S n) o depth) /\
  (3 * (129 - depth) + 3 <= Z.of_nat n -> forall d, dictionary_is_passive is_utf8 doc n d depth = dictionary_is_passive is_utf8 doc (S n) d depth) /\
  (3 * (129 - depth) + 2 <= Z.of_nat n -> forall o r, action_object_is_safe is_utf8 doc n o r depth = action_object_is_safe is_utf8 doc (S n) o r depth).
Proof using Type.
  induction n as [|n IH]; intros depth Hd; [split_and!; intros Hn; lia|].
  destruct (Z.ltb_spec 128 depth) as [Hdeep|Hdeep].
  { split_and!; intros Hn; [intros o|intros d|intros o r]; cbn [object_is_passive dictionary_is_passive action_object_is_safe];
      rewrite (proj2 (Z.ltb_lt 128 depth) Hdeep); reflexivity. }
  destruct (IH (depth + 1) ltac:(lia)) as (IHo & IHd & IHa). destruct (IH depth Hd) as (_ & _ & IHa0).
  split_and!; intros Hn.
  - intros o. remember (S n) as n' eqn:En. rewrite En at 1. cbn [object_is_passive]. rewrite (proj2 (Z.ltb_ge 128 depth) Hdeep). subst n'.
    destruct o; try done; [apply forallb_same; intros x; apply IHo; lia|apply IHd; lia|apply IHd; lia].
  - intros d. remember (S n) as n' eqn:En. rewrite En at 1. cbn [dictionary_is_passive]. subst n'.
    rewrite (forallb_same _ (fun kv => object_is_passive is_utf8 doc (S n) kv.2 (depth + 1)) d) by (intros kv; apply IHo; lia).
    destruct (dict_get "A" d) as [entry|]; [rewrite (IHa0 ltac:(lia))|]; reflexivity.
  - intros o r. remember (S n) as n' eqn:En. rewrite En at 1. cbn [action_object_is_safe]. rewrite (proj2 (Z.ltb_ge 128 depth) Hdeep). subst n'.
    destruct o as [| | | | | |l|d| |id]; try done.
    + apply forallb_same. intros x. apply IHa. lia.
    + destruct (dict_get "S" d ≫= _) as [kind|]; [|done]. rewrite (IHd ltac:(lia)).
      destruct (dict_get "Next" d) as [next|]; [rewrite (IHa ltac:(lia))|]; reflexivity.
    + destruct (bool_decide _); [done|]. destruct (get_object doc id); [|done]. apply IHa. lia.
Qed.

Lemma passive_enough n : (passive_fuel <= n)%nat -> forall o d r,
  object_is_passive is_utf8 doc n o 0 = object_is_passive is_utf8 doc passive_fuel o 0 /\
  dictionary_is_passive is_utf8 doc n d 0 = dictionary_is_passive is_utf8 doc passive_fuel d 0 /\
  action_object_is_safe is_utf8 doc n o r 0 = action_object_is_safe is_utf8 doc passive_fuel o r 0.
Proof using Type.
  intros Hn o d r. induction Hn as [|n Hn (IHo & IHd & IHa)]; [done|]. rewrite <- IHo, <- IHd, <- IHa.
  destruct (passive_more n 0 ltac:(lia)) as (Ho & Hd & Ha). unfold passive_fuel in Hn.
  rewrite (Ho ltac:(lia)), (Hd ltac:(lia)), (Ha ltac:(lia)). done.
Qed.

Definition highest (o : Object) : nat := fold_right (fun io m => Nat.max (height io.2) m) (height o) (pd_objects doc).

Lemma height_positive o : (0 < height o)%nat.
Proof using Type. destruct o; cbn; lia. Qed.

Lemma highest_start o : (height o <= highest o)%nat.
Proof using Type. unfold highest. induction (pd_objects doc) as [|x l IH]; [done|]. cbn [fold_right]. etrans; [exact IH|apply Nat.le_max_r]. Qed.

Lemma highest_member o x : x ∈ map snd (pd_objects doc) -> (height x <= highest o)%nat.
Proof using Type.
  unfold highest. induction (pd_objects doc) as [|[i y] l IH]; intros Hx; [by apply not_elem_of_nil in Hx|].
  cbn [map] in Hx. apply elem_of_cons in Hx as [->|Hx]; cbn [fold_right snd]; [lia|]. specialize (IH Hx). lia.
Qed.

(** Of the reader: what an identifier leads to is an object of the document. *)
Context (reader_finite : forall id o, get_object doc id = Some o -> id ∈ map fst (pd_objects doc) /\ o ∈ map snd (pd_objects doc)).

Definition keys : gset ObjectId := list_to_set (map fst (pd_objects doc)).

Lemma content_returns start fuel : forall o resolving remaining, (height o <= highest start)%nat -> resolving ⊆ keys ->
  ((size keys - size resolving) * S (highest start) + height o <= fuel)%nat ->
  is_Some (parse_content_object doc fuel o resolving remaining).
Proof using reader_finite.
  induction fuel as [|fuel IH]; intros o resolving remaining Ho Hr Hf; [pose proof (height_positive o); nia|].
  destruct o as [| | | | | |l|d|d content|id]; cbn [parse_content_object]; try by eexists.
  - assert (forall x, x ∈ l -> (height x < height (PArray l))%nat) as Hl.
    { clear. intros x Hx. cbn [height]. induction l as [|y l IH]; [by apply not_elem_of_nil in Hx|].
      cbn [fold_right]. apply elem_of_cons in Hx as [->|Hx]; [lia|]. specialize (IH Hx). lia. }
    revert remaining. induction l as [|x l IHl] in Hl, Ho, Hf |- *; intros remaining; [by eexists|].
    pose proof (Hl x ltac:(by left)) as Hx.
    destruct (IH x resolving remaining) as [[valid left_] E]; [lia|done|lia|]. rewrite E.
    destruct valid; [|by eexists]. apply IHl; [cbn [height fold_right] in *; lia|cbn [height fold_right] in *; lia|].
    intros y Hy. cbn [height fold_right] in *. specialize (Hl y ltac:(by right)).
    clear -Hy. induction l as [|z l IH]; [by apply not_elem_of_nil in Hy|]. cbn [fold_right].
    apply elem_of_cons in Hy as [->|Hy]; [lia|]. specialize (IH Hy). lia.
  - destruct (decompressed_content _ _ _); by eexists.
  - destruct (bool_decide_reflect (id ∈ resolving)) as [|Hid]; [by eexists|].
    destruct (get_object doc id) as [o'|] eqn:E; [|by eexists]. destruct (reader_finite id o' E) as [Hk Ho'].
    assert (id ∈ keys) as Hik by (unfold keys; by apply elem_of_list_to_set).
    pose proof (highest_member start o' Ho') as Hh.
    assert (size ({[id]} ∪ resolving) = S (size resolving)) as Hsize.
    { rewrite size_union by set_solver. rewrite size_singleton. lia. }
    assert (size ({[id]} ∪ resolving) <= size keys)%nat as Hle by (apply subseteq_size; set_solver).
    apply IH; [done|set_solver|]. rewrite Hsize in *. cbn [height] in Hf. nia.
Qed.

(** The contents of a page are always read to an answer. *)
Lemma content_terminates o remaining : is_Some (parse_content_object doc (content_fuel doc o) o ∅ remaining).
Proof using reader_finite.
  apply (content_returns o); [apply highest_start|set_solver|]. unfold content_fuel. fold (highest o).
  rewrite size_empty. assert (size keys <= length (pd_objects doc))%nat as Hk.
  { unfold keys. rewrite <- (length_map fst). generalize (map fst (pd_objects doc)). intros l.
    induction l as [|x l IH]; [by rewrite list_to_set_nil, size_empty|]. rewrite list_to_set_cons. cbn [length].
    pose proof (size_union_alt {[x]} (list_to_set l : gset ObjectId)) as Hu. rewrite size_singleton in Hu.
    assert (size (list_to_set l ∖ {[x]} : gset ObjectId) <= size (list_to_set l : gset ObjectId))%nat by (apply subseteq_size; set_solver). lia. }
  pose proof (highest_start o). nia.
Qed.
End Ends.

(** ** What is left in a verified file *)

Lemma strip_sound pat : forall s rest, strip pat s = Some rest -> s = pat ++ rest.
Proof.
  induction pat as [|p pat IH]; intros s rest; [destruct s; cbn; congruence|]. destruct s as [|c s]; [done|]. cbn [strip].
  destruct (decide (p = c)) as [->|]; [|done]. intros Hs. by rewrite (IH _ _ Hs).
Qed.

Lemma cut_sound pat : forall s before after, cut pat s = Some (before, after) -> s = before ++ pat ++ after.
Proof.
  induction s as [|c s IH]; intros before after; cbn [cut]; destruct (strip pat _) as [rest|] eqn:Es; try done.
  - intros [= <- <-]. by apply strip_sound in Es.
  - intros [= <- <-]. by apply strip_sound in Es.
  - destruct (cut pat s) as [[b a]|]; [|done]. cbn [mbind option_bind]. intros [= <- <-]. by rewrite (IH _ _ eq_refl).
Qed.

(** What is in an object, at any depth. *)
Inductive inside : Object -> Object -> Prop :=
| inside_self o : inside o o
| inside_array x l y : x ∈ l -> inside x y -> inside (PArray l) y
| inside_dictionary key x d y : (key, x) ∈ d -> inside x y -> inside (PDictionary d) y
| inside_stream key x d content y : (key, x) ∈ d -> inside x y -> inside (PStream d content) y.

Section Passive.
Context `{PdfReader} (is_utf8 : bytes -> bool) (doc : PdfDocument).

(** Following references. *)
Inductive refers : Object -> Object -> Prop :=
| refers_self o : refers o o
| refers_through id o x : get_object doc id = Some o -> refers o x -> refers (PReference id) x.

(** The actions a viewer comes to from an entry: through references and arrays, and
    from an action to the next ones. *)
Inductive leads : Object -> Object -> Prop :=
| leads_here o : match o with PReference _ | PArray _ => False | _ => True end -> leads o o
| leads_reference id o x : get_object doc id = Some o -> leads o x -> leads (PReference id) x
| leads_array y l x : y ∈ l -> leads y x -> leads (PArray l) x
| leads_next d next x : dict_get "Next" d = Some next -> leads next x -> leads (PDictionary d) x.

(** An address of one of the four kinds, without control characters or blanks. *)
Definition safe_uri (uri : bytes) : Prop :=
  (exists scheme rest, uri = scheme ++ ":"%char :: rest /\ to_ascii_lowercase (string_of_list_ascii scheme) ∈ SAFE_SCHEMES) /\
  Forall (fun c => is_ascii_control c = false /\ is_ascii_whitespace c = false) uri.

(** A jump within the document, or the opening of such an address. *)
Definition safe_action (x : Object) : Prop :=
  exists d o kind, x = PDictionary d /\ dict_get "S" d = Some o /\ refers o (PName kind) /\
    (kind = "GoTo" \/ (kind = "URI" /\ exists o' uri, dict_get "URI" d = Some o' /\ refers o' (PString uri) /\ safe_uri uri)).

(** A dictionary that does nothing by itself. *)
Record passive_dictionary (d : Dictionary) : Prop := {
  no_forbidden_key key x : (key, x) ∈ d -> key ∉ FORBIDDEN_KEYS;
  no_forbidden_kind key kind : key = "Type" \/ key = "Subtype" -> dict_get key d = Some (PName kind) -> kind ∉ FORBIDDEN_DICTIONARY_KINDS;
  no_forbidden_action kind : dict_get "S" d = Some (PName kind) -> kind ∉ FORBIDDEN_ACTIONS;
  uris_safe o : dict_get "S" d = Some (PName "URI") -> dict_get "URI" d = Some o -> exists uri, o = PString uri /\ safe_uri uri;
  actions_safe entry x : has_type "StructElem" d = false -> dict_get "A" d = Some entry -> leads entry x -> safe_action x;
}.

Lemma uri_is_safe uri : pdf_uri_is_safe is_utf8 uri = true -> safe_uri uri.
Proof using Type.
  unfold pdf_uri_is_safe. destruct (negb _ || _) eqn:Hc; [done|]. apply orb_false_iff in Hc as [_ Hc].
  destruct (cut _ uri) as [[scheme rest]|] eqn:E; [|done]. intros Hs. apply bool_decide_eq_true in Hs. split.
  - exists scheme, rest. split; [by apply cut_sound in E|done].
  - apply Forall_forall. intros c Hin. apply not_true_iff_false in Hc. rewrite existsb_exists in Hc.
    split; apply not_true_is_false; intros Hb; apply Hc; exists c; rewrite ?Hb, ?orb_true_r; split; try done; by apply list_elem_of_In.
Qed.

Lemma resolved_refers {A} (f : Object -> option A) fuel : forall o depth a, resolved doc f fuel o depth = Some a ->
  exists x, refers o x /\ f x = Some a.
Proof using Type.
  induction fuel as [|fuel IH]; intros o depth a; cbn [resolved]; [done|]. destruct (128 <? depth); [done|].
  destruct o as [| | | | | | | | |id]; try (intros Hf; eexists; split; [constructor|exact Hf]).
  destruct (get_object doc id) as [o'|] eqn:E; [|done]. intros Ho. destruct (IH _ _ _ Ho) as (x & Hx & Hf).
  exists x. split; [by eapply refers_through|done].
Qed.

Lemma action_safe x o : leads o x -> forall fuel r depth, action_object_is_safe is_utf8 doc fuel o r depth = true -> safe_action x.
Proof using Type.
  induction 1 as [o Ho|id o x E _ IH|y l x Hy _ IH|d next x E _ IH]; intros fuel r depth Ha; destruct fuel as [|fuel]; try done;
    cbn [action_object_is_safe] in Ha; destruct (128 <? depth); try done.
  - destruct o as [| | | | | | |d| |]; try done. destruct (dict_get "S" d) as [s|] eqn:Es; [|done]. cbn [mbind option_bind] in Ha.
    destruct (resolved_name doc s (depth + 1)) as [kind|] eqn:Ek; [|done].
    apply resolved_refers in Ek as (n & Hn & En). destruct n as [| | | |n| | | | |]; try done. injection En as ->.
    exists d, s, kind. split_and!; [done..|]. apply andb_prop in Ha as [Ha _]. apply andb_prop in Ha as [Ha _].
    destruct (bool_decide_reflect (kind = "GoTo")) as [|_]; [by left|]. destruct (bool_decide_reflect (kind = "URI")) as [->|_]; [|done].
    right. split; [done|]. destruct (dict_get "URI" d) as [o'|]; [|done]. cbn [mbind option_bind] in Ha.
    destruct (resolved_string doc o' (depth + 1)) as [uri|] eqn:Eu; [|done].
    apply resolved_refers in Eu as (v & Hv & Ev). destruct v as [| | | | |v| | | |]; try done. injection Ev as ->.
    exists o', uri. split_and!; [done..|by apply uri_is_safe].
  - destruct (bool_decide _); [done|]. rewrite E in Ha. by eapply IH.
  - rewrite forallb_forall in Ha. eapply IH, Ha. by apply list_elem_of_In.
  - destruct (dict_get "S" d ≫= _); [|done]. apply andb_prop in Ha as [_ Ha]. rewrite E in Ha. by eapply IH.
Qed.

Lemma dictionary_is_passive_sound fuel d depth : dictionary_is_passive is_utf8 doc fuel d depth = true ->
  passive_dictionary d /\ forall key x, (key, x) ∈ d -> exists fuel', object_is_passive is_utf8 doc fuel' x (depth + 1) = true.
Proof using Type.
  destruct fuel as [|fuel]; [done|]. cbn [dictionary_is_passive]. intros Hd.
  destruct (_ || match dict_get "A" d with Some _ => _ | None => _ end) eqn:Hg; [done|].
  apply orb_false_iff in Hg as [Hg HA]. apply orb_false_iff in Hg as [Hg HS]. apply orb_false_iff in Hg as [Hg Hsub].
  apply orb_false_iff in Hg as [Hg Htype]. apply orb_false_iff in Hg as [_ Hkeys]. apply negb_false_iff in HS.
  rewrite forallb_forall in Hd. split.
  - split.
    + intros key x Hin Hk. apply not_true_iff_false in Hkeys. apply Hkeys. apply existsb_exists. exists (key, x).
      split; [by apply list_elem_of_In|by apply bool_decide_eq_true].
    + intros key kind Hkey Hk. assert (dictionary_kind_is_forbidden d key = false) as Hf by (destruct Hkey as [-> | ->]; done).
      unfold dictionary_kind_is_forbidden in Hf. rewrite Hk in Hf. by apply bool_decide_eq_false in Hf.
    + intros kind Hk Hin. unfold action_dictionary_is_safe in HS. rewrite Hk in HS. cbn [mbind option_bind as_name] in HS.
      pose proof (bool_decide_eq_true_2 _ Hin) as Hb. rewrite Hb in HS.
      destruct (bool_decide_reflect (kind = "GoTo")) as [E1|_]; [rewrite E1 in Hb; discriminate Hb|].
      destruct (bool_decide_reflect (kind = "URI")) as [E2|_]; [rewrite E2 in Hb; discriminate Hb|done].
    + intros o Hk Ho. unfold action_dictionary_is_safe in HS. rewrite Hk, Ho in HS. cbn [mbind option_bind as_name] in HS.
      rewrite bool_decide_eq_false_2 in HS by done. rewrite bool_decide_eq_true_2 in HS by done.
      destruct o as [| | | | |uri| | | |]; try done. exists uri. split; [done|by apply uri_is_safe].
    + intros entry x Hs HAe Hx. rewrite HAe in HA. apply negb_false_iff in HA. rewrite Hs in HA. by eapply action_safe.
  - intros key x Hin. exists fuel. apply (Hd (key, x)). by apply list_elem_of_In.
Qed.

Lemma inside_passive o x : inside o x -> forall fuel depth d, object_is_passive is_utf8 doc fuel o depth = true ->
  object_dictionary x = Some d -> passive_dictionary d.
Proof using Type.
  induction 1 as [o|y l x Hy _ IH|key y d' x Hy _ IH|key y d' content x Hy _ IH]; intros fuel depth d Hp Hd;
    destruct fuel as [|fuel]; try done; cbn [object_is_passive] in Hp; destruct (128 <? depth); try done.
  - destruct o; try done; injection Hd as ->; by apply dictionary_is_passive_sound in Hp as [Hp _].
  - rewrite forallb_forall in Hp. eapply IH; [|done]. apply Hp. by apply list_elem_of_In.
  - apply dictionary_is_passive_sound in Hp as [_ Hp]. destruct (Hp key y Hy) as [fuel' Hy']. by eapply IH.
  - apply dictionary_is_passive_sound in Hp as [_ Hp]. destruct (Hp key y Hy) as [fuel' Hy']. by eapply IH.
Qed.
End Passive.


(** ** A sample file *)
Module PdfSamples.

Definition page_dictionary : Dictionary :=
  [("Type", PName "Page"); ("Parent", PReference (2, 0)); ("Annots", PArray [PReference (4, 0)])].

Definition sample_pdf : PdfDocument := MkPdf [("Root", PReference (1, 0))]
  [ ((1, 0), PDictionary [("Type", PName "Catalog"); ("Pages", PReference (2, 0))]);
    ((2, 0), PDictionary [("Type", PName "Pages"); ("Count", PInteger 1); ("Kids", PArray [PReference (3, 0)])]);
    ((3, 0), PDictionary page_dictionary);
    ((4, 0), PDictionary [("Subtype", PName "Link"); ("A", PReference (5, 0))]);
    ((5, 0), PDictionary [("S", PReference (6, 0)); ("URI", PString (as_bytes "https://example.com/"))]);
    ((6, 0), PName "URI") ].

Definition find_object (doc : PdfDocument) (id : ObjectId) : option Object :=
  snd <$> List.find (fun io => bool_decide (io.1 = id)) (pd_objects doc).

Definition type_of (d : Dictionary) : option string := dict_get "Type" d ≫= as_name.

Definition reader_of (read : PdfDocument) : PdfReader := {|
  load_mem _ := Some read;
  get_object := find_object;
  get_dictionary doc id := find_object doc id ≫= as_dict;
  dereference doc o := match o with PReference id => find_object doc id | o => Some o end;
  pdf_catalog doc := find_object doc (1, 0) ≫= as_dict;
  get_pages _ := [(3, 0)];
  get_type := type_of;
  has_type t d := bool_decide (type_of d = Some t);
  decompressed_content _ b n := if Z.of_nat (length b) <=? n then Some b else None;
  decode_strict _ := true |}.

#[local] Instance sample_reader : PdfReader := reader_of sample_pdf.

Definition sample_bytes : bytes := as_bytes "%PDF-1.4" ++ [newline] ++ as_bytes "xref" ++ [newline] ++ as_bytes "startxref 9 %%EOF".


(** The same file with an annotation whose kind is given by a reference. *)
Definition indirect_pdf : PdfDocument := MkPdf [("Root", PReference (1, 0))]
  (take 3 (pd_objects sample_pdf) ++
   [((4, 0), PDictionary [("Type", PName "Annot"); ("Subtype", PReference (5, 0))]); ((5, 0), PName "RichMedia")]).

(** A kind that is refused when it is written as a name is accepted when it is
    written as a reference to the name: the entry is looked at without following
    references. *)
Theorem indirect_kind_accepted :
  @verify_pdf (reader_of indirect_pdf) (fun _ => true) sample_bytes = Ok (MkEvidence Pdf true true) /\
  (exists annotation o, find_object indirect_pdf (4, 0) = Some (PDictionary annotation) /\ dict_get "Subtype" annotation = Some o /\
     @refers (reader_of indirect_pdf) indirect_pdf o (PName "RichMedia")) /\
  "RichMedia" ∈ FORBIDDEN_DICTIONARY_KINDS.
Proof.
  split; [vm_compute; reflexivity|]. split; [|apply (bool_decide_eq_true_1 _); vm_compute; reflexivity].
  eexists _, _. split; [vm_compute; reflexivity|]. split; [vm_compute; reflexivity|].
  eapply refers_through; [vm_compute; reflexivity|apply refers_self].
Qed.
End PdfSamples.
