(* ===== verification/Runtime.v ===== *)
(** * The runtime

    Models [RuntimeState] of [offprint-rs/core/src/runtime.rs] with its parts
    ([runtime/lifecycle.rs], [runtime/context.rs], [runtime/browser.rs],
    [runtime/checkpoints.rs], the checks of [runtime/configuration.rs]) and
    [CaptureService::start] of [core/src/capture_service.rs]: the registry of jobs,
    the permits for browser contexts, the recycling of the browser, the leases of
    checkpoint files and the shutdown that ends them all.

    The runtime is shared by tasks that run at the same time.  A task is where its
    operation stands: between two looks at shared state, at a lock, or at an
    [await].  A step of the machine moves one task by one such stretch, and what is
    not decided by the state is the [Answer] of the step: what the browser backend
    returns, whether a deadline passes first, whether the caller cancels or drops the
    operation.  Every interleaving is a list of events.

    A lock that is taken blocks: the step is not possible.  Waiting for a
    notification is waiting for its condition.  The token of a page belongs to its
    caller, who may cancel it whenever the code looks; the token of [ensure_browser]
    is the one of the shutdown, which may be cancelled between the look at it and the
    answer of the backend. *)

From Stdlib Require Import ZArith Lia Ascii String.
From stdpp Require Import base tactics list gmap strings numbers.
From S2P Require Import Prelude.
From S2P Require Import Errors.
From S2P Require Import Fs.
From S2P Require Import Records.
From S2P Require Import Requests.
From S2P Require Import Schedule.
From S2P Require Import Job.

#[local] Open Scope string_scope.
#[local] Open Scope list_scope.
#[local] Open Scope Z_scope.

(** ** Errors *)

Definition closed_error : OffprintError := new_error "offprint.runtime.closed" Shutdown.
Definition operation_cancelled_error : OffprintError := new_error "offprint.runtime.cancelled" Shutdown.
Definition shutdown_deadline_error : OffprintError :=
  set_retryable true (new_error "offprint.runtime.shutdown" Shutdown).
Definition shutdown_panicked_error : OffprintError := new_error "offprint.runtime.shutdown" Shutdown.
Definition registry_lock_error (stage : ErrorStage) : OffprintError := new_error "offprint.runtime.lock" stage.
Definition runtime_job_error : OffprintError := new_error "offprint.runtime.job" Internal.
Definition cleanup_deadline_error : OffprintError :=
  set_retryable true (new_error "offprint.browser.shutdown" Shutdown).
Definition acquisition_error : OffprintError := new_error "offprint.runtime.acquisition" Internal.
Definition browser_active_error : OffprintError := new_error "offprint.browser.active" Shutdown.

(** [Result::and]. *)
Definition result_and {E A B} (a : result E A) (b : result E B) : result E B :=
  match a with Ok _ => b | Err e => Err e end.

(** ** The life cycle *)

Definition OPEN : Z := 0.
Definition CLOSING : Z := 1.
Definition CLOSED : Z := 2.

Record RuntimeLifecycle := MkLifecycle { lc_phase : Z; lc_terminal : option (Res unit) }.

Definition lifecycle_new : RuntimeLifecycle := MkLifecycle OPEN None.

Definition ensure_open (l : RuntimeLifecycle) : Res unit :=
  if lc_phase l =? OPEN then Ok tt else Err closed_error.

(** Whether the caller leads the shutdown; the receiver is the life cycle itself. *)
Definition begin_close (l : RuntimeLifecycle) : bool * RuntimeLifecycle :=
  if lc_phase l =? OPEN then (true, MkLifecycle CLOSING (lc_terminal l)) else (false, l).

Definition complete_close (r : Res unit) (l : RuntimeLifecycle) : RuntimeLifecycle := MkLifecycle CLOSED (Some r).

Definition mark_dropped (l : RuntimeLifecycle) : RuntimeLifecycle := MkLifecycle CLOSED (lc_terminal l).

(** A receiver that finds no value waits; the sender lives as long as the runtime. *)
Definition wait_terminal (l : RuntimeLifecycle) : option (Res unit) := lc_terminal l.

(** ** Tasks *)

Abbreviation TaskId := nat.
Abbreviation GateId := nat.

Record ActiveJob := MkActive { aj_control : JobControl; aj_task : option TaskId }.

(** [answer] of a cleanup is the error its caller gets whatever the cleanup comes to,
    [r] what it came to so far. *)
Inductive Task :=
(* CaptureService::start *)
| StStart (id : CaptureId) | StRegister (id : CaptureId) | StLocked (id : CaptureId) | StInsert (id : CaptureId)
| StSpawn (id : CaptureId) | StSetTask (id : CaptureId) (child : TaskId) | StSend (id : CaptureId) (child : TaskId)
| StUndo (id : CaptureId) (child : TaskId) (e : OffprintError)
(* the task of a job *)
| JobWaiting (id : CaptureId) | JobRunning (id : CaptureId) | JobEnding (id : CaptureId)
(* open_page, and the page while it is used and closed *)
| PgOpen | PgSlot | PgChecked | PgSpawned | PgLocked | PgRecycling | PgAcquiring | PgContext | PgPage | PgInUse
| PgCleanup (page context lease : bool) (answer : option OffprintError) (r : Res unit)
(* recycle_idle_browser_if_due *)
| RcDue (answer : option OffprintError) (r : Res unit) | RcGate (answer : option OffprintError) (r : Res unit)
| RcLocked (answer : option OffprintError) (r : Res unit) | RcClosing (answer : option OffprintError) (r : Res unit)
(* ensure_browser *)
| EbOpen | EbGate | EbLocked | EbRecycling | EbAcquiring | EbReleasing
(* close_idle_browser *)
| CiOpen | CiGate | CiLocked | CiClosing
(* close *)
| ClBegin | ClAdmission | ClJobs | ClShutdown | ClWait | ClDone (r : Res unit)
(* CheckpointRegistry::acquire_resolved, and its lease with the number of its owners *)
| CkAdmission (destination : PortablePath) | CkWaiting (destination : PortablePath) (gate : GateId)
| CkLocked (destination : PortablePath) (gate : GateId) | CkLease (destination : PortablePath) (gate : GateId) (owners : nat)
| Over (r : Res unit).

(** The task that [close] spawns. *)
Inductive Finish :=
| FinNot
| FinCheckpoints
| FinJobs (checkpoints : Res unit)
| FinContexts (checkpoints jobs : Res unit)
| FinSlots (checkpoints jobs contexts : Res unit)
| FinBackend (checkpoints jobs contexts : Res unit)
| FinComplete (r : Res unit)
| FinEnd.

(** What a step is told. *)
Inductive Answer :=
| Go | Fails (e : OffprintError) | Cancels | TimesOut | Panics
| Drops (in_runtime : bool)
| Forks (child : TaskId)
| Shares.

(** ** The state *)

(** The semaphore of the contexts is the number of its free permits; the gate of the
    backend is its owner; [rt_gates] are the owners of the mutexes of destinations. *)
Record Runtime := MkRuntime {
  rt_lifecycle : RuntimeLifecycle;
  rt_jobs : gmap CaptureId ActiveJob;
  rt_jobs_lock : option TaskId;
  rt_jobs_poisoned : bool;
  rt_completed : Z;
  rt_shutdown : bool;
  rt_available : nat;
  rt_slots_closed : bool;
  rt_gate : option TaskId;
  rt_admission_closed : bool;
  rt_destinations : gmap PortablePath GateId;
  rt_gates : gmap GateId TaskId;
  rt_next_gate : GateId;
  rt_finish : Finish;
  rt_tasks : gmap TaskId Task;
}.

Definition set_lifecycle l s := MkRuntime l (rt_jobs s) (rt_jobs_lock s) (rt_jobs_poisoned s) (rt_completed s) (rt_shutdown s) (rt_available s)
  (rt_slots_closed s) (rt_gate s) (rt_admission_closed s) (rt_destinations s) (rt_gates s) (rt_next_gate s) (rt_finish s) (rt_tasks s).
Definition set_jobs j s := MkRuntime (rt_lifecycle s) j (rt_jobs_lock s) (rt_jobs_poisoned s) (rt_completed s) (rt_shutdown s) (rt_available s)
  (rt_slots_closed s) (rt_gate s) (rt_admission_closed s) (rt_destinations s) (rt_gates s) (rt_next_gate s) (rt_finish s) (rt_tasks s).
Definition set_jobs_lock l s := MkRuntime (rt_lifecycle s) (rt_jobs s) l (rt_jobs_poisoned s) (rt_completed s) (rt_shutdown s) (rt_available s)
  (rt_slots_closed s) (rt_gate s) (rt_admission_closed s) (rt_destinations s) (rt_gates s) (rt_next_gate s) (rt_finish s) (rt_tasks s).
Definition set_completed n s := MkRuntime (rt_lifecycle s) (rt_jobs s) (rt_jobs_lock s) (rt_jobs_poisoned s) n (rt_shutdown s) (rt_available s)
  (rt_slots_closed s) (rt_gate s) (rt_admission_closed s) (rt_destinations s) (rt_gates s) (rt_next_gate s) (rt_finish s) (rt_tasks s).
Definition set_shutdown b s := MkRuntime (rt_lifecycle s) (rt_jobs s) (rt_jobs_lock s) (rt_jobs_poisoned s) (rt_completed s) b (rt_available s)
  (rt_slots_closed s) (rt_gate s) (rt_admission_closed s) (rt_destinations s) (rt_gates s) (rt_next_gate s) (rt_finish s) (rt_tasks s).
Definition set_available n s := MkRuntime (rt_lifecycle s) (rt_jobs s) (rt_jobs_lock s) (rt_jobs_poisoned s) (rt_completed s) (rt_shutdown s) n
  (rt_slots_closed s) (rt_gate s) (rt_admission_closed s) (rt_destinations s) (rt_gates s) (rt_next_gate s) (rt_finish s) (rt_tasks s).
Definition set_slots_closed b s := MkRuntime (rt_lifecycle s) (rt_jobs s) (rt_jobs_lock s) (rt_jobs_poisoned s) (rt_completed s) (rt_shutdown s) (rt_available s)
  b (rt_gate s) (rt_admission_closed s) (rt_destinations s) (rt_gates s) (rt_next_gate s) (rt_finish s) (rt_tasks s).
Definition set_gate g s := MkRuntime (rt_lifecycle s) (rt_jobs s) (rt_jobs_lock s) (rt_jobs_poisoned s) (rt_completed s) (rt_shutdown s) (rt_available s)
  (rt_slots_closed s) g (rt_admission_closed s) (rt_destinations s) (rt_gates s) (rt_next_gate s) (rt_finish s) (rt_tasks s).
Definition set_checkpoints closed destinations gates next s := MkRuntime (rt_lifecycle s) (rt_jobs s) (rt_jobs_lock s) (rt_jobs_poisoned s) (rt_completed s)
  (rt_shutdown s) (rt_available s) (rt_slots_closed s) (rt_gate s) closed destinations gates next (rt_finish s) (rt_tasks s).
Definition set_finish f s := MkRuntime (rt_lifecycle s) (rt_jobs s) (rt_jobs_lock s) (rt_jobs_poisoned s) (rt_completed s) (rt_shutdown s) (rt_available s)
  (rt_slots_closed s) (rt_gate s) (rt_admission_closed s) (rt_destinations s) (rt_gates s) (rt_next_gate s) f (rt_tasks s).
Definition set_tasks m s := MkRuntime (rt_lifecycle s) (rt_jobs s) (rt_jobs_lock s) (rt_jobs_poisoned s) (rt_completed s) (rt_shutdown s) (rt_available s)
  (rt_slots_closed s) (rt_gate s) (rt_admission_closed s) (rt_destinations s) (rt_gates s) (rt_next_gate s) (rt_finish s) m.

(** The task goes on, or is gone. *)
Definition goes (t : TaskId) (x : Task) (s : Runtime) : Runtime := set_tasks (<[t := x]> (rt_tasks s)) s.
Definition gone (t : TaskId) (s : Runtime) : Runtime := set_tasks (delete t (rt_tasks s)) s.
Definition ends (t : TaskId) (r : Res unit) (s : Runtime) : Runtime := goes t (Over r) s.

(** On to [x] if the runtime is open, or its error. *)
Definition if_open (t : TaskId) (x : Task) (s : Runtime) : Runtime :=
  match ensure_open (rt_lifecycle s) with Ok _ => goes t x s | Err e => ends t (Err e) s end.

(** ** Configuration *)

Section Configuration.
Context `{UrlLib}.

Record RuntimeOptions := MkOptions {
  op_browser_path : option PortablePath;
  op_cdp_url : option url;
  op_custom_backend : bool;
  op_maximum_contexts : Z;
  op_browser_recycle_after_jobs : Z;
}.

(** What of the configuration the state machine looks at; [owned] is whether the
    backend is the runtime's own, which has a gate. *)
Record Config := MkConfig {
  maximum_contexts : nat;
  browser_recycle_after_jobs : Z;
  owned : bool;
}.

Definition runtime_new (o : RuntimeOptions) : Res (Config * BrowserSpec) :=
  if op_maximum_contexts o =? 0 then Err (new_error "offprint.input.concurrency" Validation)
  else if op_custom_backend o && (is_some (op_browser_path o) || is_some (op_cdp_url o))
  then Err (new_error "offprint.input.browser_selection" Validation)
  else if op_browser_recycle_after_jobs o =? 0 then Err (new_error "offprint.input.browser_recycle" Validation)
  else
    default_browser <-? match op_browser_path o, op_cdp_url o with
    | Some path, None => Ok (BrowserExecutable path)
    | None, Some endpoint => Ok (BrowserRemote endpoint)
    | None, None => Ok BrowserAuto
    | Some _, Some _ => Err (new_error "offprint.input.browser_selection" Validation)
    end ;;
    Ok (MkConfig (Z.to_nat (op_maximum_contexts o)) (op_browser_recycle_after_jobs o) (negb (op_custom_backend o)),
        default_browser).

Definition effective_selection (default requested : BrowserSpec) : BrowserSpec :=
  match requested with BrowserAuto => default | _ => requested end.

Inductive RuntimePagePurpose := PurposeCapture | PurposeOfflineVerification.

Definition denies_network (p : RuntimePagePurpose) : bool := match p with PurposeOfflineVerification => true | _ => false end.

(** [capture_profile]: a configured profile hides a built-in one of the same name. *)
Definition capture_profile (profiles : gmap string CaptureProfile) (name : string) : Res CaptureProfile :=
  match profiles !! name with Some p => Ok p | None => named name end.

End Configuration.

Definition runtime_start (c : Config) : Runtime :=
  MkRuntime lifecycle_new ∅ None false 0 false (maximum_contexts c) false None false ∅ ∅ O FinNot ∅.

(** ** The registry of jobs *)

Definition jobs_unlocked (s : Runtime) : bool := bool_decide (rt_jobs_lock s = None).

(** [register_job], once the lock is taken and the runtime was found open. *)
Definition register_entry (t : TaskId) (id : CaptureId) (s : Runtime) : Runtime :=
  let s := set_jobs_lock None s in
  match rt_jobs s !! id with
  | None => goes t (StSpawn id) (set_jobs (<[id := MkActive control_new None]> (rt_jobs s)) s)
  | Some _ => ends t (Err runtime_job_error) s
  end.

Definition set_job_task (id : CaptureId) (task : TaskId) (s : Runtime) : Res Runtime :=
  if rt_jobs_poisoned s then Err (registry_lock_error Internal)
  else match rt_jobs s !! id with
       | Some j => Ok (set_jobs (<[id := MkActive (aj_control j) (Some task)]> (rt_jobs s)) s)
       | None => Err runtime_job_error
       end.

(** Whether the job was there: then it counts, and a task looks at the browser. *)
Definition unregister_job (id : CaptureId) (s : Runtime) : bool * Runtime :=
  if negb (rt_jobs_poisoned s) && is_some (rt_jobs s !! id) then
    (true, set_completed (saturating_add u32_max (rt_completed s) 1) (set_jobs (delete id (rt_jobs s)) s))
  else (false, s).

(** The recycling that [unregister_job] spawns has nobody to answer to. *)
Definition spawned_recycle : Task := RcDue None (Ok tt).

(** [oneshot]: the task of the job is told to run, or that it will not be. *)
Definition tell (child : TaskId) (id : CaptureId) (runs : bool) (s : Runtime) : Runtime :=
  match rt_tasks s !! child with
  | Some (JobWaiting _) => goes child (if runs then JobRunning id else JobEnding id) s
  | _ => s
  end.

Definition step_start (t : TaskId) (x : Task) (a : Answer) (s : Runtime) : option Runtime :=
  match x, a with
  | StStart id, Go => Some (if_open t (StRegister id) s)
  | StStart id, Fails e =>
      Some (match ensure_open (rt_lifecycle s) with Ok _ => ends t (Err e) s | Err e' => ends t (Err e') s end)
  | StStart id, Drops _ => Some (gone t s)
  | StRegister id, Go =>
      if jobs_unlocked s then
        Some (if rt_jobs_poisoned s then ends t (Err (registry_lock_error Internal)) s
              else goes t (StLocked id) (set_jobs_lock (Some t) s))
      else None
  | StLocked id, Go =>
      Some (match ensure_open (rt_lifecycle s) with
            | Ok _ => goes t (StInsert id) s
            | Err e => ends t (Err e) (set_jobs_lock None s)
            end)
  | StInsert id, Go => Some (register_entry t id s)
  | StSpawn id, Forks child =>
      if bool_decide (rt_tasks s !! child = None)
      then Some (goes t (StSetTask id child) (goes child (JobWaiting id) s)) else None
  | StSetTask id child, Go =>
      if jobs_unlocked s then
        Some (match set_job_task id child s with
              | Ok s => goes t (StSend id child) s
              | Err e => goes t (StUndo id child e) s
              end)
      else None
  | StSend id child, Go => Some (ends t (Ok tt) (tell child id true s))
  | StUndo id child e, Forks recycle =>
      if jobs_unlocked s && bool_decide (rt_tasks s !! recycle = None) then
        let '(removed, s) := unregister_job id s in
        let s := if removed then goes recycle spawned_recycle s else s in
        Some (ends t (Err e) (tell child id false s))
      else None
  | JobRunning id, (Go | Panics) => Some (goes t (JobEnding id) s)
  | JobEnding id, Go =>
      if jobs_unlocked s then
        let '(removed, s) := unregister_job id s in
        Some (if removed then goes t spawned_recycle s else ends t (Ok tt) s)
      else None
  | _, _ => None
  end.

(** ** Browser contexts *)

Definition release_permit (s : Runtime) : Runtime := set_available (S (rt_available s)) s.

Definition release_gate (t : TaskId) (s : Runtime) : Runtime :=
  if bool_decide (rt_gate s = Some t) then set_gate None s else s.

Definition take_gate (t : TaskId) (x : Task) (s : Runtime) : option Runtime :=
  if bool_decide (rt_gate s = None) then Some (goes t x (set_gate (Some t) s)) else None.

Section Contexts.
Context (c : Config).

(** The condition of [recycle_idle_browser_if_due] and of
    [recycle_backend_if_due_locked]; the latter resets the count once the backend is
    closed. *)
Definition recycle_due (expected_available : nat) (s : Runtime) : bool :=
  negb (negb (Nat.eqb (rt_available s) expected_available) || (rt_completed s <? browser_recycle_after_jobs c)).

Definition recycled (s : Runtime) : Runtime := set_completed 0 s.

(** [spawn_runtime_page_cleanup] of what an aborted acquisition or a dropped page
    owned; outside of a runtime everything is dropped at once. *)
Definition abandon (t : TaskId) (e : OffprintError) (page context lease in_runtime : bool) (s : Runtime) : Runtime :=
  let s := release_gate t s in
  if in_runtime then goes t (PgCleanup page context lease (Some e) (Ok tt)) s
  else ends t (Err e) (release_permit s).

(** How an acquisition ends early, and whether within a runtime. *)
Definition stopped_by (a : Answer) : option (OffprintError * bool) :=
  match a with
  | Cancels => Some (operation_cancelled_error, true)
  | Panics => Some (acquisition_error, true)
  | Drops in_runtime => Some (operation_cancelled_error, in_runtime)
  | _ => None
  end.

(** [acquire_context_and_page]: what was created before a failure is closed first. *)
Definition step_context (t : TaskId) (x : Task) (a : Answer) (s : Runtime) : option Runtime :=
  match x, a with
  | PgContext, Go => Some (goes t PgPage s)
  | PgContext, Fails e => Some (goes t (PgCleanup false false true (Some e) (Ok tt)) s)
  | PgPage, Go => Some (goes t PgInUse s)
  | PgPage, Fails e => Some (goes t (PgCleanup false true true (Some e) (Ok tt)) s)
  | _, _ => None
  end.

(** [acquire_page]. *)
Definition step_acquire (t : TaskId) (x : Task) (a : Answer) (s : Runtime) : option Runtime :=
  match x, a with
  | PgSpawned, Go => if owned c then take_gate t PgLocked s else Some (goes t PgAcquiring s)
  | PgLocked, Go => Some (goes t (if recycle_due (maximum_contexts c - 1) s then PgRecycling else PgAcquiring) s)
  | PgRecycling, Go => Some (goes t PgAcquiring (recycled s))
  | PgRecycling, Fails e => Some (abandon t e false false false true s)
  | PgAcquiring, Go => Some (goes t PgContext (release_gate t s))
  | PgAcquiring, Fails e => Some (abandon t e false false false true s)
  | (PgContext | PgPage), _ => step_context t x a s
  | _, _ => None
  end.

(** [bounded_context_cleanup]. *)
Definition bounded_cleanup (a : Answer) : option (Res unit) :=
  match a with Go => Some (Ok tt) | Fails e => Some (Err e) | TimesOut => Some (Err cleanup_deadline_error) | _ => None end.

Definition answered (answer : option OffprintError) (r : Res unit) : Res unit :=
  match answer with Some e => Err e | None => r end.

(** [close_runtime_page_parts]: the page, the context and the lease, then the permit;
    whoever drops the cleanup drops what is left. *)
Definition step_cleanup (t : TaskId) (page context lease : bool) (answer : option OffprintError) (r : Res unit)
    (a : Answer) (s : Runtime) : option Runtime :=
  match a with
  | Drops _ => Some (gone t (release_permit s))
  | _ =>
      match page, context, lease with
      | true, _, _ => r' ← bounded_cleanup a; Some (goes t (PgCleanup false context lease answer r') s)
      | false, true, _ => r' ← bounded_cleanup a; Some (goes t (PgCleanup false false lease answer (result_and r r')) s)
      | false, false, true => r' ← bounded_cleanup a; Some (goes t (PgCleanup false false false answer (result_and r r')) s)
      | false, false, false =>
          match a with Go => Some (goes t (RcDue answer r) (release_permit s)) | _ => None end
      end
  end.

Definition step_page (t : TaskId) (x : Task) (a : Answer) (s : Runtime) : option Runtime :=
  match x, a with
  | PgOpen, Go => Some (if_open t PgSlot s)
  | PgSlot, Cancels => Some (ends t (Err operation_cancelled_error) s)
  | PgSlot, Go =>
      if rt_slots_closed s then Some (ends t (Err closed_error) s)
      else match rt_available s with
           | S n => Some (goes t PgChecked (set_available n s))
           | O => None
           end
  | (PgOpen | PgSlot), Drops _ => Some (gone t s)
  | PgChecked, Go =>
      Some (match ensure_open (rt_lifecycle s) with
            | Ok _ => goes t PgSpawned s
            | Err e => ends t (Err e) (release_permit s)
            end)
  | PgInUse, Go => Some (goes t (PgCleanup true true true None (Ok tt)) s)
  | PgInUse, Drops in_runtime => Some (abandon t operation_cancelled_error true true true in_runtime s)
  | PgCleanup page context lease answer r, _ => step_cleanup t page context lease answer r a s
  | (PgSpawned | PgLocked | PgRecycling | PgAcquiring | PgContext | PgPage), _ =>
      match stopped_by a with
      | Some (e, in_runtime) =>
          let lease := match x with PgContext | PgPage => true | _ => false end in
          let context := match x with PgPage => true | _ => false end in
          Some (abandon t e false context lease in_runtime s)
      | None => step_acquire t x a s
      end
  | _, _ => None
  end.

(** [recycle_idle_browser_if_due]. *)
Definition step_recycle (t : TaskId) (x : Task) (a : Answer) (s : Runtime) : option Runtime :=
  match x, a with
  | RcDue answer r, Go =>
      Some (if owned c && recycle_due (maximum_contexts c) s then goes t (RcGate answer r) s
            else ends t (answered answer r) s)
  | RcGate answer r, Go => take_gate t (RcLocked answer r) s
  | RcLocked answer r, Go =>
      Some (if recycle_due (maximum_contexts c) s then goes t (RcClosing answer r) s
            else ends t (answered answer r) (release_gate t s))
  | RcClosing answer r, Go => Some (ends t (answered answer r) (release_gate t (recycled s)))
  | RcClosing answer r, Fails e => Some (ends t (answered answer (result_and r (Err e))) (release_gate t s))
  | (RcDue _ _ | RcGate _ _ | RcLocked _ _ | RcClosing _ _), Drops _ => Some (gone t (release_gate t s))
  | _, _ => None
  end.

(** [ensure_browser] with [acquire_and_release]. *)
Definition step_ensure (t : TaskId) (x : Task) (a : Answer) (s : Runtime) : option Runtime :=
  match x, a with
  | EbOpen, Go => Some (if_open t (if owned c then EbGate else EbAcquiring) s)
  | EbGate, Go => take_gate t EbLocked s
  | EbLocked, Go => Some (goes t (if recycle_due (maximum_contexts c) s then EbRecycling else EbAcquiring) s)
  | EbRecycling, Go => Some (goes t EbAcquiring (recycled s))
  | EbRecycling, Fails e => Some (ends t (Err e) (release_gate t s))
  | EbAcquiring, Cancels =>
      if rt_shutdown s then Some (ends t (Err operation_cancelled_error) (release_gate t s)) else None
  | EbAcquiring, Go => Some (goes t EbReleasing s)
  | EbAcquiring, Fails e => Some (ends t (Err e) (release_gate t s))
  | EbReleasing, Go => Some (ends t (Ok tt) (release_gate t s))
  | EbReleasing, Fails e => Some (ends t (Err e) (release_gate t s))
  | (EbOpen | EbGate | EbLocked | EbRecycling | EbAcquiring | EbReleasing), Drops _ => Some (gone t (release_gate t s))
  | _, _ => None
  end.

(** [close_idle_browser]. *)
Definition contexts_idle (s : Runtime) : bool := Nat.eqb (rt_available s) (maximum_contexts c).

Definition step_close_idle (t : TaskId) (x : Task) (a : Answer) (s : Runtime) : option Runtime :=
  match x, a with
  | CiOpen, Go =>
      Some (match ensure_open (rt_lifecycle s) with
            | Err e => ends t (Err e) s
            | Ok _ =>
                if negb (contexts_idle s) then ends t (Err browser_active_error) s
                else goes t (if owned c then CiGate else CiClosing) s
            end)
  | CiGate, Go => take_gate t CiLocked s
  | CiLocked, Go =>
      Some (if negb (contexts_idle s) then ends t (Err browser_active_error) (release_gate t s) else goes t CiClosing s)
  | CiClosing, Go => Some (ends t (Ok tt) (release_gate t s))
  | CiClosing, Fails e => Some (ends t (Err e) (release_gate t s))
  | (CiOpen | CiGate | CiLocked | CiClosing), Drops _ => Some (gone t (release_gate t s))
  | _, _ => None
  end.

(** [active_browser_snapshot], the number of contexts in use. *)
Definition active_contexts (s : Runtime) : Z :=
  Z.min u32_max (saturating_sub (Z.of_nat (maximum_contexts c)) (Z.of_nat (rt_available s))).

End Contexts.

(** ** Checkpoints *)

(** The destination and the mutex a task has a strong reference to. *)
Definition checkpoint_use (x : Task) : option (PortablePath * GateId) :=
  match x with CkWaiting d g | CkLocked d g | CkLease d g _ => Some (d, g) | _ => None end.

Definition uses_gate (g : GateId) (x : Task) : bool :=
  match checkpoint_use x with Some (_, g') => Nat.eqb g g' | None => false end.

Definition strong_count (g : GateId) (s : Runtime) : nat :=
  size (filter (fun tx => uses_gate g tx.2 = true) (rt_tasks s)).

(** The destinations whose mutex is still alive. *)
Definition alive_destinations (s : Runtime) : gmap PortablePath GateId :=
  filter (fun dg => strong_count dg.2 s <> O) (rt_destinations s).

Definition set_destinations d s := set_checkpoints (rt_admission_closed s) d (rt_gates s) (rt_next_gate s) s.
Definition set_gates g s := set_checkpoints (rt_admission_closed s) (rt_destinations s) g (rt_next_gate s) s.

Definition admit_checkpoint (t : TaskId) (d : PortablePath) (s : Runtime) : Runtime :=
  if rt_admission_closed s then ends t (Err closed_error) s
  else
    let alive := alive_destinations s in
    match alive !! d with
    | Some g => goes t (CkWaiting d g) (set_destinations alive s)
    | None =>
        let g := rt_next_gate s in
        goes t (CkWaiting d g) (set_checkpoints false (<[d := g]> alive) (rt_gates s) (S g) s)
    end.

Definition release_destination (g : GateId) (s : Runtime) : Runtime := set_gates (delete g (rt_gates s)) s.

Definition step_checkpoint (t : TaskId) (x : Task) (a : Answer) (s : Runtime) : option Runtime :=
  match x, a with
  | CkAdmission d, Go => Some (admit_checkpoint t d s)
  | CkWaiting d g, Cancels => Some (ends t (Err operation_cancelled_error) s)
  | CkWaiting d g, Go =>
      match rt_gates s !! g with
      | None => Some (goes t (CkLocked d g) (set_gates (<[g := t]> (rt_gates s)) s))
      | Some _ => None
      end
  | CkLocked d g, Go =>
      Some (if rt_admission_closed s then ends t (Err closed_error) (release_destination g s)
            else goes t (CkLease d g 1) s)
  | (CkAdmission _ | CkWaiting _ _), Drops _ => Some (gone t s)
  | CkLease d g n, Shares => Some (goes t (CkLease d g (S n)) s)
  | CkLease d g (S (S n)), Drops _ => Some (goes t (CkLease d g (S n)) s)
  | CkLease d g _, Drops _ => Some (gone t (release_destination g s))
  | _, _ => None
  end.

Definition close_admission (s : Runtime) : Runtime :=
  set_checkpoints true (rt_destinations s) (rt_gates s) (rt_next_gate s) s.

(** The tracker is closed and no token is left. *)
Definition checkpoints_done (s : Runtime) : bool :=
  rt_admission_closed s && bool_decide (filter (fun tx => is_some (checkpoint_use tx.2) = true) (rt_tasks s) = ∅).

(** ** Shutdown *)

Definition cancel_job (j : ActiveJob) : ActiveJob := MkActive (request_cancel (aj_control j)).2 (aj_task j).

Definition step_close (t : TaskId) (x : Task) (a : Answer) (s : Runtime) : option Runtime :=
  match x, a with
  | ClBegin, Go =>
      let '(leader, l) := begin_close (rt_lifecycle s) in
      Some (goes t (if leader then ClAdmission else ClWait) (set_lifecycle l s))
  | ClBegin, Drops _ => Some (gone t s)
  | ClAdmission, Go => Some (goes t ClJobs (close_admission s))
  | ClJobs, Go =>
      if jobs_unlocked s then
        Some (goes t ClShutdown (if rt_jobs_poisoned s then s else set_jobs (cancel_job <$> rt_jobs s) s))
      else None
  | ClShutdown, Go => Some (goes t ClWait (set_finish FinCheckpoints (set_shutdown true s)))
  | ClWait, Go => r ← wait_terminal (rt_lifecycle s); Some (goes t (ClDone r) s)
  | ClWait, Drops _ => Some (gone t s)
  | _, _ => None
  end.

(** A wait within [RUNTIME_SHUTDOWN_TIMEOUT]. *)
Definition within_deadline (a : Answer) (ready : bool) (r : Res unit) : option (Res unit) :=
  match a with
  | Go => if ready then Some r else None
  | TimesOut => Some (Err shutdown_deadline_error)
  | _ => None
  end.

(** [finish_close], and [complete] of what it returned. *)
Definition step_finish (c : Config) (a : Answer) (s : Runtime) : option Runtime :=
  match rt_finish s, a with
  | FinComplete r, Go => Some (set_finish FinEnd (set_lifecycle (complete_close r (rt_lifecycle s)) s))
  | (FinCheckpoints | FinJobs _ | FinContexts _ _ | FinSlots _ _ _ | FinBackend _ _ _), Panics =>
      Some (set_finish (FinComplete (Err shutdown_panicked_error)) s)
  | FinCheckpoints, _ =>
      r ← within_deadline a (checkpoints_done s) (Ok tt); Some (set_finish (FinJobs r) s)
  | FinJobs ck, _ =>
      r ← (if rt_jobs_poisoned s then within_deadline a (jobs_unlocked s) (Err (registry_lock_error Shutdown))
           else within_deadline a (jobs_unlocked s && bool_decide (rt_jobs s = ∅)) (Ok tt));
      Some (set_finish (FinContexts ck r) s)
  | FinContexts ck jobs, _ =>
      r ← within_deadline a (contexts_idle c s) (Ok tt); Some (set_finish (FinSlots ck jobs r) s)
  | FinSlots ck jobs contexts, Go => Some (set_finish (FinBackend ck jobs contexts) (set_slots_closed true s))
  | FinBackend ck jobs contexts, _ =>
      r ← match a with Fails e => Some (Err e) | _ => within_deadline a true (Ok tt) end;
      Some (set_finish (FinComplete (result_and (result_and (result_and ck jobs) contexts) r)) s)
  | _, _ => None
  end.

(** [Drop]: nobody else holds the runtime, and the tasks of the jobs are aborted. *)
Definition drop_runtime (s : Runtime) : Runtime * list TaskId :=
  let s := set_shutdown true (set_lifecycle (mark_dropped (rt_lifecycle s)) (close_admission s)) in
  if rt_jobs_poisoned s then (s, [])
  else (set_jobs (cancel_job <$> rt_jobs s) s, omap (fun j => aj_task j.2) (map_to_list (rt_jobs s))).

(** ** Events *)

Inductive Operation :=
| OpStart (id : CaptureId) | OpPage | OpEnsureBrowser | OpCloseIdle | OpClose | OpCheckpoint (destination : PortablePath).

Definition begins (o : Operation) : Task :=
  match o with
  | OpStart id => StStart id
  | OpPage => PgOpen
  | OpEnsureBrowser => EbOpen
  | OpCloseIdle => CiOpen
  | OpClose => ClBegin
  | OpCheckpoint d => CkAdmission d
  end.

(** A job claims its commit or is cancelled through its control; its token is
    cancelled with the one of the shutdown. *)
Inductive RuntimeEvent :=
| Spawns (t : TaskId) (o : Operation)
| Steps (t : TaskId) (a : Answer)
| JobCancels (id : CaptureId)
| JobClaims (id : CaptureId)
| Finishes (a : Answer).

Definition on_control (f : JobControl -> JobControl) (id : CaptureId) (s : Runtime) : option Runtime :=
  j ← rt_jobs s !! id;
  Some (set_jobs (<[id := MkActive (f (aj_control j)) (aj_task j)]> (rt_jobs s)) s).

Definition claims (shutdown : bool) (k : JobControl) : JobControl :=
  (claim_commit (MkControl (ct_cancelled k || shutdown) (ct_decision k))).2.

Definition step_task (c : Config) (t : TaskId) (x : Task) (a : Answer) (s : Runtime) : option Runtime :=
  match x with
  | StStart _ | StRegister _ | StLocked _ | StInsert _ | StSpawn _ | StSetTask _ _ | StSend _ _ | StUndo _ _ _
  | JobWaiting _ | JobRunning _ | JobEnding _ => step_start t x a s
  | PgOpen | PgSlot | PgChecked | PgSpawned | PgLocked | PgRecycling | PgAcquiring | PgContext | PgPage | PgInUse
  | PgCleanup _ _ _ _ _ => step_page c t x a s
  | RcDue _ _ | RcGate _ _ | RcLocked _ _ | RcClosing _ _ => step_recycle c t x a s
  | EbOpen | EbGate | EbLocked | EbRecycling | EbAcquiring | EbReleasing => step_ensure c t x a s
  | CiOpen | CiGate | CiLocked | CiClosing => step_close_idle c t x a s
  | ClBegin | ClAdmission | ClJobs | ClShutdown | ClWait | ClDone _ => step_close t x a s
  | CkAdmission _ | CkWaiting _ _ | CkLocked _ _ | CkLease _ _ _ => step_checkpoint t x a s
  | Over _ => None
  end.

Definition runtime_step (c : Config) (e : RuntimeEvent) (s : Runtime) : option Runtime :=
  match e with
  | Spawns t o => if bool_decide (rt_tasks s !! t = None) then Some (goes t (begins o) s) else None
  | Steps t a => x ← rt_tasks s !! t; step_task c t x a s
  | JobCancels id => on_control (fun k => (request_cancel k).2) id s
  | JobClaims id => on_control (claims (rt_shutdown s)) id s
  | Finishes a => step_finish c a s
  end.

Fixpoint runtime_run (c : Config) (es : list RuntimeEvent) (s : Runtime) : option Runtime :=
  match es with
  | [] => Some s
  | e :: es => s' ← runtime_step c e s; runtime_run c es s'
  end.

(** The runtime as it is after some events. *)
Definition reachable (c : Config) (s : Runtime) : Prop :=
  exists es, runtime_run c es (runtime_start c) = Some s.
