(* ===== verification/RuntimeFacts.v ===== *)
(** * The runtime is correct

    Invariants of the machine of [Runtime], each kept by every event: permits, the
    gate of the backend and the leases of the browser; the registry of jobs and its
    lock; the mutexes of checkpoint files; the course of a shutdown.  The theorems at
    the end hold of every state the machine reaches, whatever the interleaving. *)

From Stdlib Require Import ZArith Lia Ascii String.
From stdpp Require Import base tactics list gmap strings numbers.
From S2P Require Import Prelude.
From S2P Require Import Errors.
From S2P Require Import Fs.
From S2P Require Import Records.
From S2P Require Import Requests.
From S2P Require Import Schedule.
From S2P Require Import Job.
From S2P Require Import Runtime.

#[local] Open Scope string_scope.
#[local] Open Scope list_scope.
#[local] Open Scope Z_scope.

(** ** Tasks that change *)

(** Task [t] becomes [o], where [None] is no task. *)
Definition moved (t : TaskId) (o : option Task) (m : gmap TaskId Task) : gmap TaskId Task :=
  match o with Some x => <[t := x]> m | None => delete t m end.

Lemma lookup_moved t o m t' : moved t o m !! t' = if decide (t = t') then o else m !! t'.
Proof.
  destruct o; cbn; case_decide; subst.
  - apply lookup_insert_eq.
  - by apply lookup_insert_ne.
  - apply lookup_delete_eq.
  - by apply lookup_delete_ne.
Qed.

(** [f] of a task that is there. *)
Definition has (f : Task -> bool) (o : option Task) : bool := match o with Some x => f x | None => false end.

(** How many tasks are in the state [f]. *)
Definition holding (f : Task -> bool) (m : gmap TaskId Task) : nat := size (filter (fun tx => f tx.2 = true) m).

Lemma holding_delete f m t : (holding f (delete t m) + Nat.b2n (has f (m !! t)) = holding f m)%nat.
Proof.
  unfold holding. destruct (m !! t) as [x|] eqn:E; [|rewrite delete_id by done; cbn; lia]. cbn [has].
  rewrite map_filter_delete. destruct (f x) eqn:Ef; cbn [Nat.b2n].
  - rewrite map_size_delete_Some; [|by exists x; rewrite map_lookup_filter_Some].
    assert (size (filter (fun tx : TaskId * Task => f tx.2 = true) m) <> 0)%nat; [|lia].
    apply map_size_ne_0_lookup. exists t, x. by rewrite map_lookup_filter_Some.
  - rewrite delete_id; [lia|]. apply map_lookup_filter_None. right. intros y Hy Hf. cbn in Hf. congruence.
Qed.

Lemma holding_insert f m t x : m !! t = None -> holding f (<[t := x]> m) = (holding f m + Nat.b2n (f x))%nat.
Proof.
  intros E. unfold holding. destruct (f x) eqn:Ef; cbn [Nat.b2n].
  - rewrite map_filter_insert_True by done. rewrite map_size_insert_None; [lia|].
    apply map_lookup_filter_None. by left.
  - rewrite map_filter_insert_False by (cbn; by rewrite Ef). rewrite delete_id by done. lia.
Qed.

Lemma holding_moved f t o m :
  (holding f (moved t o m) + Nat.b2n (has f (m !! t)) = holding f m + Nat.b2n (has f o))%nat.
Proof.
  pose proof (holding_delete f m t) as Hd. destruct o as [x|]; cbn [moved has]; [|cbn; lia].
  rewrite <- insert_delete_eq, holding_insert by apply lookup_delete_eq. lia.
Qed.

Lemma holding_none f m : holding f m = 0%nat <-> forall t, has f (m !! t) = false.
Proof.
  unfold holding. rewrite map_size_empty_iff. split.
  - intros He t. destruct (m !! t) as [x|] eqn:E; [|done]. cbn. destruct (f x) eqn:Ef; [|done].
    assert (filter (fun tx : TaskId * Task => f tx.2 = true) m !! t = Some x) as Hl by (by rewrite map_lookup_filter_Some).
    by rewrite He, lookup_empty in Hl.
  - intros Hn. apply map_empty. intros t. apply map_lookup_filter_None. right. intros x E Ef.
    specialize (Hn t). rewrite E in Hn. cbn in *. congruence.
Qed.

(** The only one in the state [f]. *)
Lemma holding_only f m t t' : holding f m = 1%nat -> has f (m !! t) = true -> has f (m !! t') = true -> t' = t.
Proof.
  intros H1 Ht Ht'. destruct (decide (t' = t)) as [|Hne]; [done|exfalso].
  pose proof (holding_delete f m t) as Hd. rewrite Ht in Hd. cbn [Nat.b2n] in Hd.
  assert (holding f (delete t m) = 0%nat) as H0 by lia. rewrite holding_none in H0. specialize (H0 t').
  rewrite lookup_delete_ne in H0 by done. congruence.
Qed.

(** ** Cases of a step *)

Create HintDb runtime.
#[local] Hint Unfold goes gone ends if_open release_permit release_gate take_gate recycled abandon release_destination
  set_destinations set_gates close_admission : runtime.

(** The record projections of an updated state. *)
Ltac fields := cbn [set_lifecycle set_jobs set_jobs_lock set_completed set_shutdown set_available set_slots_closed set_gate
  set_checkpoints set_finish set_tasks rt_lifecycle rt_jobs rt_jobs_lock rt_jobs_poisoned rt_completed rt_shutdown
  rt_available rt_slots_closed rt_gate rt_admission_closed rt_destinations rt_gates rt_next_gate rt_finish rt_tasks
  lc_phase lc_terminal] in *.

(** One goal per way a step can go. *)
Ltac step_cases H :=
  repeat (autounfold with runtime in H; fields;
    match type of H with
    | None = Some _ => discriminate H
    | (_ ≫= _) = Some _ => apply bind_Some in H as (? & ? & H)
    | context [match ?x with _ => _ end] => destruct x eqn:?
    | Some _ = Some _ => injection H as H; subst
    end);
  repeat match goal with
    | Hb : _ && _ = true |- _ => apply andb_true_iff in Hb as [? Hb]
    | Hb : bool_decide _ = true |- _ => apply bool_decide_eq_true in Hb
    | Hb : bool_decide _ = false |- _ => apply bool_decide_eq_false in Hb
    end;
  simplify_eq.

(** What the helpers of the registry come to. *)
Lemma tell_cases child id b s : (tell child id b s = s /\ forall id', rt_tasks s !! child <> Some (JobWaiting id')) \/
  exists id', rt_tasks s !! child = Some (JobWaiting id') /\ tell child id b s = goes child (if b then JobRunning id else JobEnding id) s.
Proof. unfold tell. destruct (rt_tasks s !! child) as [[]|]; eauto; left; by split. Qed.

Lemma set_job_task_ok id child s s' : set_job_task id child s = Ok s' ->
  exists j, rt_jobs s !! id = Some j /\ s' = set_jobs (<[id := MkActive (aj_control j) (Some child)]> (rt_jobs s)) s.
Proof. unfold set_job_task. destruct (rt_jobs_poisoned s), (rt_jobs s !! id) as [j|]; intros [= <-]. eauto. Qed.

Lemma unregister_cases id s removed s' : unregister_job id s = (removed, s') ->
  (removed = true /\ is_Some (rt_jobs s !! id) /\
   s' = set_completed (saturating_add u32_max (rt_completed s) 1) (set_jobs (delete id (rt_jobs s)) s)) \/
  (removed = false /\ s' = s /\ (rt_jobs_poisoned s = true \/ rt_jobs s !! id = None)).
Proof.
  unfold unregister_job. destruct (rt_jobs_poisoned s); cbn; [intros [= <- <-]; right; eauto|].
  destruct (rt_jobs s !! id) eqn:E; cbn; intros [= <- <-]; eauto.
Qed.

Ltac registry_cases :=
  repeat match goal with
    | H : set_job_task _ _ _ = Ok _ |- _ => apply set_job_task_ok in H as (? & ? & ->)
    | H : unregister_job _ _ = (?b, _) |- _ =>
        apply unregister_cases in H as [(? & ? & ->)|(? & -> & ?)]; try (subst b || discriminate)
    | |- context [tell ?ch ?id ?b ?s] =>
        let E := fresh "E" in destruct (tell_cases ch id b s) as [[-> E]|(? & E & ->)]; [|try autounfold with runtime in E; fields]
    end.

(** ** Permits, the gate and leases *)

(** Tasks that own a permit, that own a lease of the backend, that own the gate of an
    owned backend, and that are closing the browser of an owned backend. *)
Definition permit (x : Task) : bool :=
  match x with
  | PgChecked | PgSpawned | PgLocked | PgRecycling | PgAcquiring | PgContext | PgPage | PgInUse | PgCleanup _ _ _ _ _ => true
  | _ => false
  end.

Definition lease (x : Task) : bool :=
  match x with PgContext | PgPage | PgInUse | EbReleasing => true | PgCleanup _ _ l _ _ => l | _ => false end.

Definition in_gate (x : Task) : bool :=
  match x with
  | PgLocked | PgRecycling | PgAcquiring | RcLocked _ _ | RcClosing _ _
  | EbLocked | EbRecycling | EbAcquiring | EbReleasing | CiLocked | CiClosing => true
  | _ => false
  end.

Definition closing (x : Task) : bool :=
  match x with PgRecycling | RcClosing _ _ | EbRecycling | CiClosing => true | _ => false end.

Record contexts_ok (c : Config) (s : Runtime) : Prop := {
  permits_account : (rt_available s + holding permit (rt_tasks s) = maximum_contexts c)%nat;
  gate_owner : forall t, rt_gate s = Some t <-> has in_gate (rt_tasks s !! t) = true;
  closing_alone : forall t t', has closing (rt_tasks s !! t) = true -> has lease (rt_tasks s !! t') = true -> False;
}.

(** A lease is covered by a permit or by the gate. *)
Lemma lease_covered x : lease x = true -> permit x = true \/ in_gate x = true.
Proof. destruct x; cbn; auto. Qed.

(** What a task may do: permits are conserved, the gate is taken when it is free, a
    lease is acquired within the gate, and the browser is closed from within the gate
    when nobody else has a permit. *)
Record allowed (c : Config) (s : Runtime) (t : TaskId) (o : option Task) (s' : Runtime) : Prop := {
  al_tasks : rt_tasks s' = moved t o (rt_tasks s);
  al_permit : (rt_available s' + Nat.b2n (has permit o) = rt_available s + Nat.b2n (has permit (rt_tasks s !! t)))%nat;
  al_gate : rt_gate s' = if has in_gate o then Some t else if has in_gate (rt_tasks s !! t) then None else rt_gate s;
  al_enter : has in_gate o = true -> has in_gate (rt_tasks s !! t) = true \/ rt_gate s = None;
  al_lease : has lease o = true -> has lease (rt_tasks s !! t) = true \/ (has in_gate (rt_tasks s !! t) = true /\ has closing o = false);
  al_closing : has closing o = true -> has lease o = false /\ has in_gate (rt_tasks s !! t) = true /\
    (has closing (rt_tasks s !! t) = true \/
     (rt_available s + Nat.b2n (has permit (rt_tasks s !! t)) = maximum_contexts c)%nat);
}.

Lemma closing_in_gate o : has closing o = true -> has in_gate o = true.
Proof. by destruct o as [[]|]. Qed.

(** Nobody else has a lease when a task in the gate sees no other permit. *)
Lemma nobody_else c s t t' : contexts_ok c s -> has in_gate (rt_tasks s !! t) = true ->
  (rt_available s + Nat.b2n (has permit (rt_tasks s !! t)) = maximum_contexts c)%nat ->
  has lease (rt_tasks s !! t') = true -> t' = t.
Proof.
  intros [Hp Hg _] Hin Ha Hl. destruct (rt_tasks s !! t') as [x|] eqn:E; [|done]. cbn in Hl.
  destruct (lease_covered x Hl) as [Hx|Hx].
  - assert (has permit (rt_tasks s !! t') = true) as Ht' by by rewrite E.
    destruct (has permit (rt_tasks s !! t)) eqn:Ht; cbn [Nat.b2n] in Ha.
    + apply (holding_only permit (rt_tasks s)); [lia|done|done].
    + assert (holding permit (rt_tasks s) = 0%nat) as H0 by lia. rewrite holding_none in H0. specialize (H0 t'). congruence.
  - assert (rt_gate s = Some t') as H1 by (apply Hg; by rewrite E). assert (rt_gate s = Some t) as H2 by by apply Hg.
    congruence.
Qed.

Lemma allowed_ok c s t o s' : contexts_ok c s -> allowed c s t o s' -> contexts_ok c s'.
Proof.
  intros Hok [Ht Hp Hg He Hl Hc]. pose proof Hok as [Hperm Hgate Hclose]. constructor.
  - rewrite Ht. pose proof (holding_moved permit t o (rt_tasks s)). lia.
  - intros t'. rewrite Hg, Ht, lookup_moved. destruct (has in_gate o) eqn:Eo.
    + case_decide; subst; [by rewrite Eo|]. split; [by intros [= ->]|]. intros Hin. exfalso.
      apply Hgate in Hin. destruct (He eq_refl) as [Hi|Hi]; [apply Hgate in Hi|]; congruence.
    + case_decide; subst.
      * rewrite Eo. split; [|done]. destruct (has in_gate (rt_tasks s !! t')) eqn:Ei; [done|].
        intros ?%Hgate. congruence.
      * destruct (has in_gate (rt_tasks s !! t)) eqn:Ei; [|by apply Hgate]. split; [done|].
        intros Hin%Hgate. apply Hgate in Ei. congruence.
  - intros t1 t2 H1 H2. rewrite Ht, lookup_moved in H1, H2. repeat case_decide; subst.
    + destruct (Hc H1) as (Hn & _). congruence.
    + destruct (Hl H2) as [Hl'|[Hi _]]; [by apply (Hclose t1 t2)|].
      apply closing_in_gate, Hgate in H1. apply Hgate in Hi. congruence.
    + destruct (Hc H1) as (_ & Hin & [Hcl|Ha]); [by apply (Hclose t1 t2)|].
      pose proof (nobody_else c s t1 t2 Hok Hin Ha H2). congruence.
    + by apply (Hclose t1 t2).
Qed.

Lemma recycle_due_spec c n s : recycle_due c n s = true -> rt_available s = n.
Proof. unfold recycle_due. destruct (Nat.eqb_spec (rt_available s) n); [done|]. by destruct (_ <? _). Qed.

(** What is known of the task that moves. *)
Lemma mover_known c s t x : contexts_ok c s -> rt_tasks s !! t = Some x ->
  (if in_gate x then rt_gate s = Some t else rt_gate s <> Some t) /\
  (rt_available s + Nat.b2n (permit x) <= maximum_contexts c)%nat.
Proof.
  intros [Hp Hg _] E. specialize (Hg t). rewrite E in Hg. cbn in Hg. split.
  - destruct (in_gate x); [by apply Hg|]. intros ?%Hg. done.
  - pose proof (holding_delete permit (rt_tasks s) t) as Hd. rewrite E in Hd. cbn in Hd. lia.
Qed.

(** [E] is the state of the task that moves. *)
Ltac allowed_by E :=
  match goal with
  | |- contexts_ok _ (set_tasks (<[?t := ?x]> _) _) => eapply (allowed_ok _ _ t (Some x))
  | |- contexts_ok _ (set_tasks (delete ?t _) _) => eapply (allowed_ok _ _ t None)
  end; [eassumption|]; constructor; fields; rewrite ?E; cbn; auto; try congruence; try lia.

(** Every way to go of a task whose state is known from [E]. *)
Ltac contexts_cases Hok E H :=
  let Hg := fresh "Hg" in let Hp := fresh "Hp" in
  destruct (mover_known _ _ _ _ Hok E) as [Hg Hp];
  step_cases H; subst; cbn [in_gate permit Nat.b2n] in Hg, Hp; try congruence;
  repeat match goal with Hd : recycle_due _ _ _ = true |- _ => apply recycle_due_spec in Hd end;
  try (allowed_by E; fail).

Lemma contexts_step_page c t x a s s' : owned c = true -> contexts_ok c s -> rt_tasks s !! t = Some x ->
  step_page c t x a s = Some s' -> contexts_ok c s'.
Proof.
  intros Ho Hok E H. unfold step_page, step_acquire, step_context, step_cleanup, stopped_by, bounded_cleanup in H. rewrite Ho in H.
  contexts_cases Hok E H.
Qed.

Lemma contexts_step_browser c t x a s s' : owned c = true -> contexts_ok c s -> rt_tasks s !! t = Some x ->
  step_recycle c t x a s = Some s' \/ step_ensure c t x a s = Some s' \/ step_close_idle c t x a s = Some s' -> contexts_ok c s'.
Proof.
  intros Ho Hok E [H|[H|H]].
  - unfold step_recycle in H. contexts_cases Hok E H.
  - unfold step_ensure in H. rewrite Ho in H. contexts_cases Hok E H.
  - unfold step_close_idle, contexts_idle in H. rewrite Ho in H. contexts_cases Hok E H.
    apply negb_false_iff, Nat.eqb_eq in Heqb. allowed_by E.
Qed.

(** [f] says the same of the tasks of two states. *)
Definition alike (f : Task -> bool) (m m' : gmap TaskId Task) : Prop := forall t, has f (m' !! t) = has f (m !! t).

Lemma holding_alike f m m' : alike f m m' -> holding f m' = holding f m.
Proof.
  intros Ha. unfold holding. rewrite <- !(size_dom (D := gset TaskId)). f_equal. apply set_eq. intros t.
  rewrite !elem_of_dom. specialize (Ha t). split; intros [x Hx]; apply map_lookup_filter_Some in Hx as [Hl Hf]; cbn in Hf;
    rewrite Hl in Ha; cbn in Ha; rewrite Hf in Ha.
  - destruct (m !! t) as [y|] eqn:E; [|done]. exists y. by apply map_lookup_filter_Some.
  - destruct (m' !! t) as [y|] eqn:E; [|done]. exists y. by apply map_lookup_filter_Some.
Qed.

(** A step that leaves permits, gate and leases alone. *)
Lemma contexts_quiet c s s' : contexts_ok c s -> rt_available s' = rt_available s -> rt_gate s' = rt_gate s ->
  (forall f, f ∈ [permit; lease; in_gate; closing] -> alike f (rt_tasks s) (rt_tasks s')) -> contexts_ok c s'.
Proof.
  intros [H1 H2 H3] Ha Hg Hf. pose proof (Hf permit ltac:(set_solver)) as Hp. pose proof (Hf lease ltac:(set_solver)) as Hl.
  pose proof (Hf in_gate ltac:(set_solver)) as Hi. pose proof (Hf closing ltac:(set_solver)) as Hc. constructor.
  - by rewrite Ha, (holding_alike _ _ _ Hp).
  - intros t. rewrite Hg, (Hi t). apply H2.
  - intros t t'. rewrite (Hc t), (Hl t'). apply H3.
Qed.

(** Looks up a task in the tasks after a step. *)
Ltac look :=
  repeat match goal with
    | Hl : context [<[_ := _]> _ !! _] |- _ => rewrite lookup_insert in Hl
    | Hl : context [delete _ _ !! _] |- _ => rewrite lookup_delete in Hl
    | |- context [<[_ := _]> _ !! _] => rewrite lookup_insert
    | |- context [delete _ _ !! _] => rewrite lookup_delete
    end; repeat case_decide; subst; fields; simplify_eq.

Ltac alike_by :=
  let f := fresh "f" in let Hf := fresh "Hf" in let t := fresh "t" in
  intros f Hf t; autounfold with runtime; fields; look; repeat match goal with Hl : _ !! _ = _ |- _ => rewrite Hl end;
  repeat (apply elem_of_cons in Hf as [->|Hf]; [done|]); by inversion Hf.

Lemma contexts_step_start c t x a s s' : contexts_ok c s -> rt_tasks s !! t = Some x ->
  step_start t x a s = Some s' -> contexts_ok c s'.
Proof.
  intros Hok E H. unfold step_start, register_entry, spawned_recycle in H.
  step_cases H; registry_cases; apply (contexts_quiet c s); try done.
  all: alike_by.
Qed.

Lemma contexts_step_rest c t x a s s' : contexts_ok c s -> rt_tasks s !! t = Some x ->
  step_close t x a s = Some s' \/ step_checkpoint t x a s = Some s' -> contexts_ok c s'.
Proof.
  intros Hok E [H|H].
  - unfold step_close in H. step_cases H; apply (contexts_quiet c s); try done; alike_by.
  - unfold step_checkpoint, admit_checkpoint in H. step_cases H; apply (contexts_quiet c s); try done; alike_by.
Qed.

Lemma alike_refl f m : alike f m m.
Proof. done. Qed.

Lemma contexts_step c e s s' : owned c = true -> contexts_ok c s -> runtime_step c e s = Some s' -> contexts_ok c s'.
Proof.
  intros Ho Hok H. destruct e as [t o|t a|id|id|a]; cbn [runtime_step] in H.
  - step_cases H. apply (contexts_quiet c s); try done. destruct o; alike_by.
  - apply bind_Some in H as (x & E & H). unfold step_task in H.
    destruct x; first
      [ discriminate | exact (contexts_step_start _ _ _ _ _ _ Hok E H) | exact (contexts_step_page _ _ _ _ _ _ Ho Hok E H)
      | eapply contexts_step_browser; eauto; fail | eapply contexts_step_rest; eauto; fail ].
  - unfold on_control in H. step_cases H. by apply (contexts_quiet c s).
  - unfold on_control in H. step_cases H. by apply (contexts_quiet c s).
  - unfold step_finish in H. step_cases H; by apply (contexts_quiet c s).
Qed.

(** ** Induction over runs *)

Lemma runtime_run_app c es es' s : runtime_run c (es ++ es') s = runtime_run c es s ≫= runtime_run c es'.
Proof. revert s. induction es as [|e es IH]; intros s; [done|]. cbn. destruct (runtime_step c e s); [apply IH|done]. Qed.

Lemma reachable_step c e s s' : reachable c s -> runtime_step c e s = Some s' -> reachable c s'.
Proof. intros [es H] Hs. exists (es ++ [e]). rewrite runtime_run_app, H. cbn. by rewrite Hs. Qed.

Lemma reachable_ind c (P : Runtime -> Prop) : P (runtime_start c) ->
  (forall e s s', reachable c s -> P s -> runtime_step c e s = Some s' -> P s') -> forall s, reachable c s -> P s.
Proof.
  intros H0 Hs s [es H]. revert s H. induction es as [|e es IH] using rev_ind; intros s H; [by injection H as <-|].
  rewrite runtime_run_app in H. apply bind_Some in H as (s1 & H1 & H). cbn in H. apply bind_Some in H as (s2 & H2 & [= <-]).
  eapply Hs; [|by apply IH|done]. by exists es.
Qed.

Lemma contexts_reachable c s : owned c = true -> reachable c s -> contexts_ok c s.
Proof.
  intros Ho. apply (reachable_ind c (contexts_ok c)).
  - constructor; cbn.
    + unfold holding. rewrite map_filter_empty, map_size_empty. lia.
    + intros t. by rewrite lookup_empty.
    + intros t t'. by rewrite lookup_empty.
  - intros e s1 s2 _. by apply contexts_step.
Qed.

(** ** The registry of jobs *)

(** Tasks that hold the lock of the registry, the job that a task will unregister, and
    the task that a starting job spawned. *)
Definition locks (x : Task) : bool := match x with StLocked _ | StInsert _ => true | _ => false end.

Definition owner (x : Task) : option CaptureId :=
  match x with StSpawn id | JobWaiting id | JobRunning id | JobEnding id => Some id | _ => None end.

Definition child_of (x : Task) : option (CaptureId * TaskId) :=
  match x with StSetTask id child | StSend id child | StUndo id child _ => Some (id, child) | _ => None end.

Definition undone (x : Task) : bool := match x with StUndo _ _ _ => true | _ => false end.

Record registry_ok (s : Runtime) : Prop := {
  not_poisoned : rt_jobs_poisoned s = false;
  lock_owner : forall t, rt_jobs_lock s = Some t <-> has locks (rt_tasks s !! t) = true;
  owner_registered : forall t id, rt_tasks s !! t ≫= owner = Some id -> is_Some (rt_jobs s !! id);
  registered_owned : forall id, is_Some (rt_jobs s !! id) -> exists t, rt_tasks s !! t ≫= owner = Some id;
  owner_unique : forall t t' id, rt_tasks s !! t ≫= owner = Some id -> rt_tasks s !! t' ≫= owner = Some id -> t = t';
  child_waits : forall t id child, rt_tasks s !! t ≫= child_of = Some (id, child) -> rt_tasks s !! child = Some (JobWaiting id);
  child_unique : forall t t' id id' child, rt_tasks s !! t ≫= child_of = Some (id, child) ->
    rt_tasks s !! t' ≫= child_of = Some (id', child) -> t = t';
  never_undone : forall t, has undone (rt_tasks s !! t) = false;
}.

(** What of a task the registry is about. *)
Definition registry_view (o : option Task) : option Task :=
  match o with
  | Some (StLocked _ | StInsert _ | StSpawn _ | StSetTask _ _ | StSend _ _ | StUndo _ _ _ | JobWaiting _ | JobRunning _ | JobEnding _) => o
  | _ => None
  end.

Lemma registry_view_faithful o : has locks o = has locks (registry_view o) /\ o ≫= owner = registry_view o ≫= owner /\
  o ≫= child_of = registry_view o ≫= child_of /\ has undone o = has undone (registry_view o) /\
  (forall id, o = Some (JobWaiting id) <-> registry_view o = Some (JobWaiting id)).
Proof. by destruct o as [[]|]. Qed.

Lemma registry_frame s s' : registry_ok s -> rt_jobs_poisoned s' = rt_jobs_poisoned s -> rt_jobs_lock s' = rt_jobs_lock s ->
  (forall id, is_Some (rt_jobs s' !! id) <-> is_Some (rt_jobs s !! id)) ->
  (forall t, registry_view (rt_tasks s' !! t) = registry_view (rt_tasks s !! t)) -> registry_ok s'.
Proof.
  intros [] Hp Hl Hj Hv.
  pose proof (fun t => registry_view_faithful (rt_tasks s !! t)) as Hf.
  assert (forall t, has locks (rt_tasks s' !! t) = has locks (rt_tasks s !! t) /\
    rt_tasks s' !! t ≫= owner = rt_tasks s !! t ≫= owner /\ rt_tasks s' !! t ≫= child_of = rt_tasks s !! t ≫= child_of /\
    has undone (rt_tasks s' !! t) = has undone (rt_tasks s !! t) /\
    (forall id, rt_tasks s' !! t = Some (JobWaiting id) <-> rt_tasks s !! t = Some (JobWaiting id))) as H.
  { intros t. destruct (registry_view_faithful (rt_tasks s' !! t)) as (-> & -> & -> & -> & Hw). rewrite Hv.
    destruct (Hf t) as (-> & -> & -> & -> & Hw'). split_and!; try done. intros id. by rewrite Hw, Hv, Hw'. }
  assert (forall t, rt_tasks s' !! t ≫= owner = rt_tasks s !! t ≫= owner) as H2 by apply H.
  assert (forall t, rt_tasks s' !! t ≫= child_of = rt_tasks s !! t ≫= child_of) as H3 by apply H.
  constructor.
  - by rewrite Hp.
  - intros t. destruct (H t) as [-> _]. by rewrite Hl.
  - intros t id. rewrite H2, Hj. apply owner_registered0.
  - intros id. rewrite Hj. intros (t & Ht)%registered_owned0. exists t. by rewrite H2.
  - intros t t' id. rewrite !H2. apply owner_unique0.
  - intros t id child. rewrite H3. intros Hc%child_waits0. by apply H.
  - intros t t' id id' child. rewrite !H3. apply child_unique0.
  - intros t. destruct (H t) as (_ & _ & _ & -> & _). apply never_undone0.
Qed.

Ltac view_by :=
  let t := fresh "t" in
  intros t; autounfold with runtime; fields; look; repeat match goal with Hl : _ !! _ = _ |- _ => rewrite Hl end; reflexivity.

Lemma jobs_unlocked_spec s : jobs_unlocked s = true -> rt_jobs_lock s = None.
Proof. apply bool_decide_eq_true. Qed.

(** One task moves: it may take or release the lock, and the job it owns is
    registered as long as it owns it. *)
Record registers (s : Runtime) (t : TaskId) (o : option Task) (s' : Runtime) : Prop := {
  rg_poisoned : rt_jobs_poisoned s' = rt_jobs_poisoned s;
  rg_tasks : rt_tasks s' = moved t o (rt_tasks s);
  rg_lock : rt_jobs_lock s' = if has locks o then Some t else if has locks (rt_tasks s !! t) then None else rt_jobs_lock s;
  rg_enter : has locks o = true -> has locks (rt_tasks s !! t) = true \/ rt_jobs_lock s = None;
  rg_jobs : forall id, is_Some (rt_jobs s' !! id) <->
    (is_Some (rt_jobs s !! id) /\ rt_tasks s !! t ≫= owner <> Some id) \/ o ≫= owner = Some id;
  rg_fresh : forall id, o ≫= owner = Some id -> rt_tasks s !! t ≫= owner = Some id \/ rt_jobs s !! id = None;
  rg_child : forall p, o ≫= child_of = Some p -> rt_tasks s !! t ≫= child_of = Some p;
  rg_waits : forall id, rt_tasks s !! t <> Some (JobWaiting id);
  rg_undone : has undone o = false;
}.

Lemma registers_ok s t o s' : registry_ok s -> registers s t o s' -> registry_ok s'.
Proof.
  intros [] [Hp Ht Hl He Hj Hf Hc Hw Hu].
  assert (forall id, o ≫= owner = Some id -> forall t', t <> t' -> rt_tasks s !! t' ≫= owner <> Some id) as Hfresh.
  { intros id Ho t' Hne Ht'. destruct (Hf id Ho) as [Hold|Hnone]; [by eapply Hne, owner_unique0|].
    apply owner_registered0 in Ht'. rewrite Hnone in Ht'. by destruct Ht'. }
  assert (forall t' p, moved t o (rt_tasks s) !! t' ≫= child_of = Some p -> rt_tasks s !! t' ≫= child_of = Some p) as Hco.
  { intros t' p. rewrite lookup_moved. case_decide; [subst; apply Hc|done]. }
  constructor; rewrite ?Ht.
  - by rewrite Hp.
  - intros t'. rewrite Hl, lookup_moved. destruct (has locks o) eqn:Eo.
    + case_decide; subst; [by rewrite Eo|]. split; [by intros [= ->]|]. intros Hin%lock_owner0. exfalso.
      destruct (He eq_refl) as [Hi|Hi]; [apply lock_owner0 in Hi|]; congruence.
    + case_decide; subst.
      * rewrite Eo. split; [|done]. destruct (has locks (rt_tasks s !! t')) eqn:Ei; [done|]. intros ?%lock_owner0. congruence.
      * destruct (has locks (rt_tasks s !! t)) eqn:Ei; [|by apply lock_owner0]. split; [done|].
        intros Hin%lock_owner0. apply lock_owner0 in Ei. congruence.
  - intros t' id. rewrite lookup_moved, Hj. case_decide as Hd; [by right|]. intros Ho. left. split; [by eapply owner_registered0|].
    intros Ho'. by apply Hd, (owner_unique0 _ _ id).
  - intros id. rewrite Hj. intros [[Hs Hn]|Ho].
    + destruct (registered_owned0 id Hs) as [t' Ht']. exists t'. rewrite lookup_moved. case_decide; [by subst|done].
    + exists t. rewrite lookup_moved. by case_decide.
  - intros t1 t2 id. rewrite !lookup_moved. repeat case_decide; subst; intros H1 H2; try done.
    + exfalso. by eapply Hfresh.
    + exfalso. by eapply Hfresh.
    + by eapply owner_unique0.
  - intros t' id child Hch%Hco%child_waits0. rewrite lookup_moved. case_decide; [subst; by apply Hw in Hch|done].
  - intros t1 t2 id id' child H1%Hco H2%Hco. by apply (child_unique0 _ _ id id' child).
  - intros t'. rewrite lookup_moved. case_decide; [done|apply never_undone0].
Qed.

(** A starting job spawns its task, which owns the job from then on. *)
Lemma registry_fork s t id child : registry_ok s -> rt_tasks s !! t = Some (StSpawn id) -> rt_tasks s !! child = None ->
  registry_ok (goes t (StSetTask id child) (goes child (JobWaiting id) s)).
Proof.
  intros [] E Hn. assert (t <> child) as Hne by congruence.
  assert (forall t', rt_tasks (goes t (StSetTask id child) (goes child (JobWaiting id) s)) !! t' =
    if decide (t = t') then Some (StSetTask id child) else if decide (child = t') then Some (JobWaiting id) else rt_tasks s !! t') as Hl.
  { intros t'. unfold goes. fields. rewrite !lookup_insert. by repeat case_decide. }
  assert (rt_tasks s !! t ≫= owner = Some id) as Ho by by rewrite E.
  constructor; try done.
  - intros t'. rewrite Hl. fields. rewrite lock_owner0. repeat case_decide; subst; rewrite ?E, ?Hn; done.
  - intros t' id'. rewrite Hl. repeat case_decide; cbn; [done|intros [= <-]; by eapply owner_registered0|apply owner_registered0].
  - intros id' Hs. apply registered_owned0 in Hs as [t' Ht']. destruct (decide (t' = t)) as [->|Hd].
    + exists child. rewrite Hl. repeat case_decide; try congruence. cbn. congruence.
    + exists t'. rewrite Hl. repeat case_decide; subst; try congruence. by rewrite Hn in Ht'.
  - intros t1 t2 id'. rewrite !Hl. repeat case_decide; cbn; intros Ha Hb; subst; try done; simplify_eq.
    + by pose proof (owner_unique0 _ _ _ Ho Hb).
    + by pose proof (owner_unique0 _ _ _ Ho Ha).
    + by eapply owner_unique0.
  - intros t' id' child'. rewrite !Hl. intros Hch. case_decide.
    + injection Hch as <- <-. repeat case_decide; subst; done.
    + case_decide; [done|]. apply child_waits0 in Hch. repeat case_decide; subst; congruence.
  - intros t1 t2 id1 id2 child'. rewrite !Hl. intros Ha Hb.
    assert (forall t' id', rt_tasks s !! t' ≫= child_of <> Some (id', child)) as Hno by (intros t' id' Hc%child_waits0; congruence).
    repeat case_decide; subst; cbn in *; simplify_eq; try done; try by eapply child_unique0.
    all: exfalso; by eapply Hno.
  - intros t'. rewrite Hl. repeat case_decide; [done|done|apply never_undone0].
Qed.

(** It is told to run. *)
Lemma registry_tell s t id child : registry_ok s -> rt_tasks s !! t = Some (StSend id child) ->
  registry_ok (ends t (Ok tt) (goes child (JobRunning id) s)).
Proof.
  intros Hok E. pose proof Hok as []. assert (rt_tasks s !! child = Some (JobWaiting id)) as Hw by (eapply child_waits0; by rewrite E).
  assert (t <> child) as Hne by congruence.
  assert (forall t', rt_tasks (ends t (Ok tt) (goes child (JobRunning id) s)) !! t' =
    if decide (t = t') then Some (Over (Ok tt)) else if decide (child = t') then Some (JobRunning id) else rt_tasks s !! t') as Hl.
  { intros t'. unfold ends, goes. fields. rewrite !lookup_insert. by repeat case_decide. }
  assert (forall t', rt_tasks (ends t (Ok tt) (goes child (JobRunning id) s)) !! t' ≫= owner = rt_tasks s !! t' ≫= owner) as Ho.
  { intros t'. rewrite Hl. repeat case_decide; subst; by rewrite ?E, ?Hw. }
  constructor; try done.
  - intros t'. rewrite Hl. fields. rewrite lock_owner0. repeat case_decide; subst; rewrite ?E, ?Hw; done.
  - intros t' id'. rewrite Ho. apply owner_registered0.
  - intros id' (t' & Ht')%registered_owned0. exists t'. by rewrite Ho.
  - intros t1 t2 id'. rewrite !Ho. apply owner_unique0.
  - intros t' id' child'. rewrite !Hl. intros Hch. repeat case_decide; subst; try done.
    + apply child_waits0 in Hch. congruence.
    + exfalso. assert (t' = t) as ->; [|done]. eapply (child_unique0 _ _ _ _ child'); [done|by rewrite E].
    + by eapply child_waits0.
  - intros t1 t2 id1 id2 child'. rewrite !Hl. repeat case_decide; subst; try done. apply child_unique0.
  - intros t'. rewrite Hl. repeat case_decide; [done|done|apply never_undone0].
Qed.

Ltac registers_by E :=
  match goal with
  | |- registry_ok (set_tasks (<[?t := ?x]> _) _) => eapply (registers_ok _ t (Some x))
  | |- registry_ok (set_tasks (delete ?t _) _) => eapply (registers_ok _ t None)
  end; [eassumption|]; constructor; fields; rewrite ?E; cbn; auto; try congruence;
  let i := fresh "i" in intros i; rewrite ?lookup_insert, ?lookup_delete; repeat case_decide; subst;
  first [naive_solver | match goal with Hj : is_Some (_ !! ?id) |- _ => destruct (decide (i = id)); naive_solver end].

Lemma registry_step_start t x a s s' : registry_ok s -> rt_tasks s !! t = Some x ->
  step_start t x a s = Some s' -> registry_ok s'.
Proof.
  intros Hok E H. pose proof Hok as []. rename not_poisoned0 into Hp. unfold step_start, register_entry, spawned_recycle in H. rewrite ?Hp in H.
  assert (forall id, owner x = Some id -> is_Some (rt_jobs s !! id)) as Hown by (intros id Hid; apply (owner_registered0 t); by rewrite E).
  assert (forall id child, child_of x = Some (id, child) -> rt_tasks s !! child = Some (JobWaiting id) /\ is_Some (rt_jobs s !! id)) as Hch.
  { intros id child Hid. assert (rt_tasks s !! child = Some (JobWaiting id)) as Hw by (apply (child_waits0 t); by rewrite E).
    split; [done|]. apply (owner_registered0 child). by rewrite Hw. }
  assert (locks x = true -> rt_jobs_lock s = Some t) as Hlock by (intros Hx; apply lock_owner0; by rewrite E).
  clear lock_owner0 owner_registered0 registered_owned0 owner_unique0 child_waits0 child_unique0.
  step_cases H; registry_cases; repeat match goal with Hb : jobs_unlocked _ = true |- _ => apply jobs_unlocked_spec in Hb end.
  all: try (apply (registry_frame s); [done|reflexivity|reflexivity|done|view_by]; fail).
  all: try (specialize (never_undone0 t); rewrite E in never_undone0; discriminate).
  all: try (pose proof (Hown _ eq_refl)); try (destruct (Hch _ _ eq_refl)); try (pose proof (Hlock eq_refl));
    clear Hown Hch Hlock never_undone0.
  all: try (registers_by E; fail).
  - by apply registry_fork.
  - exfalso. unfold set_job_task in Heqr. rewrite Hp in Heqr. destruct H0 as [j Hj]. by rewrite Hj in Heqr.
  - by apply registry_tell.
  - exfalso. match goal with Hd : _ \/ _, Hj : is_Some _ |- _ => destruct Hj as [? Hj]; destruct Hd; congruence end.
Qed.

Lemma registry_step c e s s' : registry_ok s -> runtime_step c e s = Some s' -> registry_ok s'.
Proof.
  intros Hok H. destruct e as [t o|t a|id|id|a]; cbn [runtime_step] in H.
  - step_cases H. apply (registry_frame s); try done. destruct o; view_by.
  - apply bind_Some in H as (x & E & H). unfold step_task in H.
    destruct x; first [discriminate | exact (registry_step_start _ _ _ _ _ Hok E H) | idtac].
    all: unfold step_page, step_acquire, step_context, step_cleanup, bounded_cleanup, step_recycle, step_ensure, step_close_idle, step_close,
      step_checkpoint, admit_checkpoint in H; cbn [stopped_by] in H.
    all: step_cases H; apply (registry_frame s); try done; try view_by; fields; try (intros id; by rewrite lookup_fmap, fmap_is_Some).
  - unfold on_control in H. step_cases H. apply (registry_frame s); try done. intros i. fields. look; naive_solver.
  - unfold on_control in H. step_cases H. apply (registry_frame s); try done. intros i. fields. look; naive_solver.
  - unfold step_finish in H. step_cases H; by apply (registry_frame s).
Qed.

Lemma registry_reachable c s : reachable c s -> registry_ok s.
Proof.
  apply (reachable_ind c registry_ok).
  - constructor; cbn; intros *; rewrite ?lookup_empty; cbn; try done.
  - intros e s1 s2 _. apply registry_step.
Qed.

(** ** The course of a shutdown *)

Definition leader (x : Task) : bool := match x with ClAdmission | ClJobs | ClShutdown => true | _ => false end.

Definition close_view (o : option Task) : option Task :=
  match o with Some (ClAdmission | ClJobs | ClShutdown | ClDone _) => o | _ => None end.

Record lifecycle_ok (s : Runtime) : Prop := {
  sd_phase : lc_phase (rt_lifecycle s) = OPEN \/ lc_phase (rt_lifecycle s) = CLOSING \/ lc_phase (rt_lifecycle s) = CLOSED;
  sd_open : lc_phase (rt_lifecycle s) = OPEN -> rt_finish s = FinNot /\ rt_shutdown s = false /\ rt_admission_closed s = false;
  sd_leader : forall t, has leader (rt_tasks s !! t) = true -> lc_phase (rt_lifecycle s) = CLOSING /\ rt_finish s = FinNot;
  sd_unique : forall t t', has leader (rt_tasks s !! t) = true -> has leader (rt_tasks s !! t') = true -> t = t';
  sd_led : lc_phase (rt_lifecycle s) = CLOSING -> rt_finish s = FinNot -> exists t, has leader (rt_tasks s !! t) = true;
  sd_end : rt_finish s = FinEnd <-> lc_phase (rt_lifecycle s) = CLOSED;
  sd_started : rt_finish s <> FinNot -> rt_shutdown s = true /\ rt_admission_closed s = true;
  sd_admission : forall t, rt_tasks s !! t = Some ClJobs \/ rt_tasks s !! t = Some ClShutdown -> rt_admission_closed s = true;
  sd_terminal : is_Some (lc_terminal (rt_lifecycle s)) <-> lc_phase (rt_lifecycle s) = CLOSED;
  sd_done : forall t r, rt_tasks s !! t = Some (ClDone r) -> lc_terminal (rt_lifecycle s) = Some r;
  sd_shutdown : rt_shutdown s = true -> rt_finish s <> FinNot;
}.

Lemma close_view_faithful o : has leader o = has leader (close_view o) /\
  (forall x, (leader x = true \/ exists r, x = ClDone r) -> (o = Some x <-> close_view o = Some x)).
Proof.
  split; [by destruct o as [[]|]|]. intros x Hx. destruct o as [[]|]; cbn; try done; split; try done; intros [= <-]; naive_solver.
Qed.

Lemma lifecycle_frame s s' : lifecycle_ok s -> rt_lifecycle s' = rt_lifecycle s -> rt_finish s' = rt_finish s ->
  rt_shutdown s' = rt_shutdown s -> rt_admission_closed s' = rt_admission_closed s ->
  (forall t, close_view (rt_tasks s' !! t) = close_view (rt_tasks s !! t)) -> lifecycle_ok s'.
Proof.
  intros [] Hl Hf Hs Ha Hv.
  assert (forall t, has leader (rt_tasks s' !! t) = has leader (rt_tasks s !! t)) as H1.
  { intros t. destruct (close_view_faithful (rt_tasks s' !! t)) as [-> _]. rewrite Hv. symmetry. apply close_view_faithful. }
  assert (forall t x, (leader x = true \/ exists r, x = ClDone r) -> rt_tasks s' !! t = Some x -> rt_tasks s !! t = Some x) as H2.
  { intros t x Hx H. apply (close_view_faithful _) in H; [|done]. rewrite Hv in H. by apply close_view_faithful in H. }
  constructor; rewrite ?Hl, ?Hf, ?Hs, ?Ha; try done.
  - intros t. rewrite H1. apply sd_leader0.
  - intros t t'. rewrite !H1. apply sd_unique0.
  - intros Hc Hn. destruct (sd_led0 Hc Hn) as [t Ht]. exists t. by rewrite H1.
  - intros t [H|H]; apply H2 in H; eauto.
  - intros t r H. apply H2 in H; eauto.
Qed.

Lemma no_leader_open s t : lifecycle_ok s -> lc_phase (rt_lifecycle s) <> CLOSING -> has leader (rt_tasks s !! t) = false.
Proof. intros Hok Hp. destruct (has leader (rt_tasks s !! t)) eqn:E; [|done]. by apply sd_leader in E as [? _]. Qed.

(** The caller that finds the runtime open leads the shutdown. *)
Lemma lifecycle_lead s t : lifecycle_ok s -> lc_phase (rt_lifecycle s) = OPEN -> close_view (rt_tasks s !! t) = None ->
  lifecycle_ok (goes t ClAdmission (set_lifecycle (MkLifecycle CLOSING (lc_terminal (rt_lifecycle s))) s)).
Proof.
  intros Hok Ho Hv. assert (forall t', has leader (rt_tasks s !! t') = false) as Hn by (intros t'; apply no_leader_open; [done|by rewrite Ho]).
  pose proof Hok as []. destruct (sd_open0 Ho) as (Hf & Hs & Ha). assert (lc_terminal (rt_lifecycle s) = None) as Ht.
  { destruct (lc_terminal _) eqn:Et; [|done]. assert (lc_phase (rt_lifecycle s) = CLOSED) as Hc by (apply sd_terminal0; eauto). by rewrite Ho in Hc. }
  constructor; unfold goes; fields; rewrite ?Hf, ?Ht.
  - by right; left.
  - done.
  - done.
  - intros t1 t2. look; rewrite ?Hn; done.
  - intros _ _. exists t. by rewrite lookup_insert_eq.
  - done.
  - done.
  - intros t'. look; [intros []; done|]. apply sd_admission0.
  - by split; [intros []|].
  - intros t' r. look; [done|]. intros Hd%sd_done0. congruence.
  - by rewrite Hs.
Qed.

(** The leader goes on as a leader. *)
Lemma lifecycle_leading s s' t x : lifecycle_ok s -> has leader (rt_tasks s !! t) = true -> leader x = true ->
  rt_lifecycle s' = rt_lifecycle s -> rt_finish s' = rt_finish s -> rt_shutdown s' = rt_shutdown s ->
  rt_admission_closed s' = true -> rt_tasks s' = moved t (Some x) (rt_tasks s) -> lifecycle_ok s'.
Proof.
  intros Hok E Hx Hl Hf Hs Ha Ht. pose proof Hok as []. destruct (sd_leader0 _ E) as [Hc Hn].
  assert (forall t', has leader (rt_tasks s' !! t') = has leader (rt_tasks s !! t')) as H1.
  { intros t'. rewrite Ht, lookup_moved. case_decide; [subst; by rewrite E|done]. }
  constructor; rewrite ?Hl, ?Hf, ?Hs, ?Ha, ?Hc.
  - by right; left.
  - done.
  - done.
  - intros t1 t2. rewrite !H1. apply sd_unique0.
  - intros _ _. exists t. by rewrite H1.
  - by rewrite sd_end0, Hc.
  - done.
  - done.
  - by rewrite sd_terminal0, Hc.
  - intros t' r. rewrite Ht, lookup_moved. case_decide; [intros [= ->]; done|apply sd_done0].
  - done.
Qed.

Lemma lifecycle_handed s t : lifecycle_ok s -> rt_tasks s !! t = Some ClShutdown ->
  lifecycle_ok (goes t ClWait (set_finish FinCheckpoints (set_shutdown true s))).
Proof.
  intros Hok E. pose proof Hok as []. assert (has leader (rt_tasks s !! t) = true) as El by by rewrite E.
  destruct (sd_leader0 _ El) as [Hc Hn].
  assert (forall t', t <> t' -> has leader (rt_tasks s !! t') = false) as H1.
  { intros t' Hne. destruct (has leader (rt_tasks s !! t')) eqn:E'; [|done]. by pose proof (sd_unique0 _ _ El E'). }
  constructor; unfold goes; fields; rewrite ?Hc; try done.
  - by right; left.
  - intros t'. look; [done|]. by rewrite H1.
  - intros t1 t2. look; try done. by rewrite H1.
  - intros _. split; [done|]. apply (sd_admission0 t). by right.
  - intros t' _. apply (sd_admission0 t). by right.
  - by rewrite sd_terminal0, Hc.
  - intros t' r. look; [done|]. apply sd_done0.
Qed.

Lemma lifecycle_step_close t x a s s' : lifecycle_ok s -> rt_tasks s !! t = Some x -> step_close t x a s = Some s' -> lifecycle_ok s'.
Proof.
  intros Hok E H. unfold step_close, begin_close, wait_terminal in H. destruct x, a; try discriminate H.
  - destruct (Z.eqb_spec (lc_phase (rt_lifecycle s)) OPEN); injection H as <-.
    + apply lifecycle_lead; [done|done|by rewrite E].
    + apply (lifecycle_frame s); try done. view_by.
  - injection H as <-. apply (lifecycle_frame s); try done. view_by.
  - injection H as <-. by apply (lifecycle_leading s _ t ClJobs); rewrite ?E.
  - step_cases H; (apply (lifecycle_leading s _ t ClShutdown); rewrite ?E; try done; apply (sd_admission _ Hok t); by left).
  - injection H as <-. by apply lifecycle_handed.
  - apply bind_Some in H as (r & Hr & [= <-]). pose proof Hok as [].
    assert (forall t', has leader (rt_tasks (goes t (ClDone r) s) !! t') = has leader (rt_tasks s !! t')) as H1.
    { intros t'. unfold goes. fields. look; [by rewrite E|done]. }
    constructor; try done.
    + intros t'. rewrite H1. apply sd_leader0.
    + intros t1 t2. rewrite !H1. apply sd_unique0.
    + intros Hc Hn. destruct (sd_led0 Hc Hn) as [t' Ht']. exists t'. by rewrite H1.
    + intros t'. unfold goes. fields. look; [intros []; done|apply sd_admission0].
    + intros t' r'. unfold goes. fields. look; [by intros [= <-]|apply sd_done0].
  - injection H as <-. apply (lifecycle_frame s); try done. view_by.
Qed.

(** The finishing task goes on, and ends. *)
Lemma lifecycle_finishing s s' : lifecycle_ok s -> rt_finish s <> FinNot -> rt_finish s <> FinEnd ->
  rt_finish s' <> FinNot -> rt_finish s' <> FinEnd -> rt_lifecycle s' = rt_lifecycle s -> rt_shutdown s' = rt_shutdown s ->
  rt_admission_closed s' = rt_admission_closed s -> rt_tasks s' = rt_tasks s -> lifecycle_ok s'.
Proof.
  intros [] H1 H2 H3 H4 Hl Hs Ha Ht. constructor; rewrite ?Hl, ?Hs, ?Ha, ?Ht; try done; try naive_solver.
Qed.

Lemma lifecycle_complete s f r : lifecycle_ok s -> rt_finish s = FinComplete r -> f = FinEnd ->
  lifecycle_ok (set_finish f (set_lifecycle (complete_close r (rt_lifecycle s)) s)).
Proof.
  intros Hok Hf ->. pose proof Hok as []. assert (forall t, has leader (rt_tasks s !! t) = false) as Hn.
  { intros t. destruct (has leader (rt_tasks s !! t)) eqn:E; [|done]. apply sd_leader0 in E as [_ E]. congruence. }
  assert (lc_phase (rt_lifecycle s) <> CLOSED) as Hc by (intros Hc%sd_end0; congruence).
  constructor; unfold complete_close; fields; try done.
  - by right; right.
  - intros t. by rewrite Hn.
  - intros _. apply sd_started0. congruence.
  - intros t r' Hd%sd_done0. destruct Hc. apply sd_terminal0. eauto.
Qed.

Lemma lifecycle_step c e s s' : lifecycle_ok s -> runtime_step c e s = Some s' -> lifecycle_ok s'.
Proof.
  intros Hok H. destruct e as [t o|t a|id|id|a]; cbn [runtime_step] in H.
  - step_cases H. apply (lifecycle_frame s); try done. destruct o; view_by.
  - apply bind_Some in H as (x & E & H). unfold step_task in H.
    destruct x; first [discriminate | exact (lifecycle_step_close _ _ _ _ _ Hok E H) | idtac].
    all: unfold step_start, register_entry, spawned_recycle, step_page, step_acquire, step_context, step_cleanup, bounded_cleanup, step_recycle, step_ensure, step_close_idle,
      step_checkpoint, admit_checkpoint in H; cbn [stopped_by] in H.
    all: step_cases H; registry_cases; apply (lifecycle_frame s); try done; try view_by.
  - unfold on_control in H. step_cases H. by apply (lifecycle_frame s).
  - unfold on_control in H. step_cases H. by apply (lifecycle_frame s).
  - unfold step_finish in H. step_cases H.
    all: first [ apply (lifecycle_complete s _ _ Hok Heqf eq_refl)
               | eapply (lifecycle_finishing s); fields; rewrite ?Heqf; try done ].
Qed.

Lemma lifecycle_reachable c s : reachable c s -> lifecycle_ok s.
Proof.
  apply (reachable_ind c lifecycle_ok).
  - constructor; cbn; intros *; rewrite ?lookup_empty; cbn; try done; try by left. by intros [].
  - intros e s1 s2 _. apply lifecycle_step.
Qed.

(** ** Jobs are sealed off *)

Definition inserting (x : Task) : bool := match x with StInsert _ => true | _ => false end.

(** The leader has cancelled the jobs. *)
Definition sealed (s : Runtime) : Prop := rt_finish s <> FinNot \/ exists t, rt_tasks s !! t = Some ClShutdown.

Definition decided (j : ActiveJob) : Prop := ct_decision (aj_control j) <> Undecided.

Definition sealed_ok (s : Runtime) : Prop :=
  sealed s -> (forall id j, rt_jobs s !! id = Some j -> decided j) /\ (forall t, has inserting (rt_tasks s !! t) = false).

Lemma sealed_not_open s : lifecycle_ok s -> sealed s -> lc_phase (rt_lifecycle s) <> OPEN.
Proof.
  intros Hok [Hf|[t Ht]] Ho.
  - by apply Hf, (sd_open _ Hok).
  - destruct (sd_leader _ Hok t) as [Hc _]; [by rewrite Ht|]. by rewrite Ho in Hc.
Qed.

Lemma cancelled_is_decided k : ct_decision (request_cancel k).2 <> Undecided.
Proof. destruct k as [b []]; cbn; done. Qed.

Lemma claimed_is_decided b k : ct_decision (claims b k) <> Undecided.
Proof. destruct k as [[] []], b; cbn; done. Qed.

Lemma ensure_open_phase l u : ensure_open l = Ok u -> lc_phase l = OPEN.
Proof. unfold ensure_open. by destruct (Z.eqb_spec (lc_phase l) OPEN). Qed.

Lemma sealed_frame s s' : lifecycle_ok s -> sealed_ok s -> (sealed s' -> sealed s) ->
  (forall t, has inserting (rt_tasks s' !! t) = true -> has inserting (rt_tasks s !! t) = true \/ lc_phase (rt_lifecycle s) = OPEN) ->
  (forall id j', rt_jobs s' !! id = Some j' ->
    decided j' \/ (exists j, rt_jobs s !! id = Some j /\ aj_control j' = aj_control j) \/ exists t, has inserting (rt_tasks s !! t) = true) ->
  sealed_ok s'.
Proof.
  intros Hl Hok Hs Hi Hj H. specialize (Hs H). destruct (Hok Hs) as [Hd Hn]. apply sealed_not_open in Hs; [|done]. split.
  - intros id j' E. destruct (Hj id j' E) as [?|[(j & Ej & Hc)|[t Ht]]]; [done| |by rewrite Hn in Ht].
    unfold decided. rewrite Hc. by eapply Hd.
  - intros t. destruct (has inserting (rt_tasks s' !! t)) eqn:E; [|done]. destruct (Hi t E) as [E'|?]; [by rewrite Hn in E'|done].
Qed.

(** Whether a state is sealed shows in the tasks that close. *)
Lemma sealed_view s s' : rt_finish s' = rt_finish s ->
  (forall t, rt_tasks s' !! t = Some ClShutdown -> rt_tasks s !! t = Some ClShutdown) -> sealed s' -> sealed s.
Proof. intros Hf Hv [H|[t Ht]]; [left; by rewrite <- Hf|right; exists t; auto]. Qed.

Ltac look_by := autounfold with runtime; fields; look; repeat match goal with Hl : _ !! _ = Some _ |- _ => rewrite Hl end; cbn; auto.

Ltac sealed_by :=
  apply (sealed_frame _ _ ltac:(eassumption) ltac:(eassumption));
  [ apply sealed_view; [reflexivity|intros ?; look_by; try done]
  | intros ?; look_by; try done
  | let H := fresh in intros ? ? H; try autounfold with runtime in H; fields; look_by; eauto ].

Lemma sealed_step_start t x a s s' : lifecycle_ok s -> sealed_ok s -> rt_tasks s !! t = Some x ->
  step_start t x a s = Some s' -> sealed_ok s'.
Proof.
  intros Hl Hok E H. unfold step_start, register_entry, spawned_recycle in H. 
  step_cases H; registry_cases; repeat match goal with Hb : ensure_open _ = Ok _ |- _ => apply ensure_open_phase in Hb end.
  all: try (sealed_by; fail).
  - apply (sealed_frame s); [done|done|apply sealed_view; [done|intros ?; look_by; done]|intros ?; look_by; done|].
    intros. right. right. exists t. by rewrite E.
Qed.

Lemma sealed_step_close t x a s s' : registry_ok s -> lifecycle_ok s -> sealed_ok s -> rt_tasks s !! t = Some x ->
  step_close t x a s = Some s' -> sealed_ok s'.
Proof.
  intros Hr Hl Hok E H. unfold step_close, begin_close, wait_terminal in H. destruct x, a; try discriminate H.
  - destruct (lc_phase (rt_lifecycle s) =? OPEN); injection H as <-; sealed_by.
  - injection H as <-; sealed_by.
  - injection H as <-; sealed_by.
  - rewrite (not_poisoned _ Hr) in H. destruct (jobs_unlocked s) eqn:Hu; [|done]. injection H as <-. intros _.
    apply jobs_unlocked_spec in Hu. unfold goes. fields. split.
    + intros id j. rewrite lookup_fmap. destruct (rt_jobs s !! id); cbn; intros [= <-]. apply cancelled_is_decided.
    + intros t'. look; [done|]. destruct (rt_tasks s !! t') as [y|] eqn:Et; [|done]. cbn. destruct y; try done. exfalso.
      assert (rt_jobs_lock s = Some t') as Hx; [|congruence]. apply (lock_owner _ Hr). by rewrite Et.
  - injection H as <-. assert (sealed s) as Hs by (right; eauto). destruct (Hok Hs) as [Hd Hn]. intros _. unfold goes. fields.
    split; [done|]. intros t'. look; done.
  - apply bind_Some in H as (r & Hr' & [= <-]). sealed_by.
  - injection H as <-; sealed_by.
Qed.

Lemma sealed_step c e s s' : registry_ok s -> lifecycle_ok s -> sealed_ok s -> runtime_step c e s = Some s' -> sealed_ok s'.
Proof.
  intros Hr Hl Hok H. destruct e as [t o|t a|id|id|a]; cbn [runtime_step] in H.
  - step_cases H. destruct o; sealed_by.
  - apply bind_Some in H as (x & E & H). unfold step_task in H.
    destruct x; first [discriminate | exact (sealed_step_start _ _ _ _ _ Hl Hok E H) | exact (sealed_step_close _ _ _ _ _ Hr Hl Hok E H) | idtac].
    all: unfold step_page, step_acquire, step_context, step_cleanup, bounded_cleanup, step_recycle, step_ensure, step_close_idle,
      step_checkpoint, admit_checkpoint in H; cbn [stopped_by] in H.
    all: step_cases H; sealed_by.
  - unfold on_control in H. step_cases H. apply (sealed_frame s); try done; [by left|]. intros i j'. fields. look; [|by eauto].
    intros [= <-]. left. apply cancelled_is_decided.
  - unfold on_control in H. step_cases H. apply (sealed_frame s); try done; [by left|]. intros i j'. fields. look; [|by eauto].
    intros [= <-]. left. apply claimed_is_decided.
  - assert (rt_tasks s' = rt_tasks s /\ rt_jobs s' = rt_jobs s /\ rt_finish s <> FinNot) as (Ht & Hj & Hf).
    { unfold step_finish in H. by step_cases H. }
    intros _. rewrite Ht, Hj. apply Hok. by left.
Qed.

Lemma sealed_reachable c s : reachable c s -> sealed_ok s.
Proof.
  apply (reachable_ind c sealed_ok).
  - intros [H|[t Ht]]; done.
  - intros e s1 s2 Hr. apply sealed_step; [by eapply registry_reachable|by eapply lifecycle_reachable].
Qed.

(** ** Permits, with every backend *)

Lemma permits_step c e s s' : (rt_available s + holding permit (rt_tasks s) = maximum_contexts c)%nat ->
  runtime_step c e s = Some s' -> (rt_available s' + holding permit (rt_tasks s') = maximum_contexts c)%nat.
Proof.
  intros Hok H. destruct e as [t o|t a|id|id|a]; cbn [runtime_step] in H.
  - step_cases H. fields. rewrite holding_insert by done. destruct o; cbn; lia.
  - apply bind_Some in H as (x & E & H). unfold step_task in H.
    destruct x; try discriminate.
    all: unfold step_start, register_entry, spawned_recycle, step_page, step_acquire, step_context, step_cleanup, bounded_cleanup, step_recycle,
      step_ensure, step_close_idle, step_close, step_checkpoint, admit_checkpoint in H; cbn [stopped_by] in H.
    all: step_cases H; registry_cases; autounfold with runtime; fields.
    all: let m := match type of E with ?m !! _ = _ => m end in
         match goal with
         | |- context [holding permit (<[?t := ?x]> m)] =>
             pose proof (holding_moved permit t (Some x) m) as Hm; rewrite E in Hm; cbn [moved has permit Nat.b2n] in Hm; lia
         | |- context [holding permit (delete ?t m)] =>
             pose proof (holding_moved permit t None m) as Hm; rewrite E in Hm; cbn [moved has permit Nat.b2n] in Hm; lia
         | |- (_ + holding permit ?m' = _)%nat => rewrite (holding_alike permit m m'); [lia|]
         end.
    all: intros t'; look; repeat match goal with Hl : _ !! _ = _ |- _ => rewrite Hl end; done.
  - unfold on_control in H. by step_cases H.
  - unfold on_control in H. by step_cases H.
  - unfold step_finish in H. by step_cases H.
Qed.

Lemma permits_reachable c s : reachable c s -> (rt_available s + holding permit (rt_tasks s) = maximum_contexts c)%nat.
Proof.
  apply (reachable_ind c (fun s => (rt_available s + holding permit (rt_tasks s) = maximum_contexts c)%nat)).
  - cbn. unfold holding. rewrite map_filter_empty, map_size_empty. lia.
  - intros e s1 s2 _. apply permits_step.
Qed.

(** ** What a shutdown waited for *)

(** A page that is past the second look at the life cycle. *)
Definition admitted (x : Task) : bool := permit x && match x with PgChecked => false | _ => true end.

Definition tracked (x : Task) : bool := is_some (checkpoint_use x).

Definition finished_well (s : Runtime) : Prop :=
  match rt_finish s with FinComplete r => r = Ok tt | FinEnd => lc_terminal (rt_lifecycle s) = Some (Ok tt) | _ => False end.

(** The shutdown waited for the checkpoints, the jobs and the contexts to the end. *)
Definition checkpoints_over (s : Runtime) : Prop :=
  match rt_finish s with FinJobs r | FinContexts r _ | FinSlots r _ _ | FinBackend r _ _ => r = Ok tt | _ => finished_well s end.
Definition jobs_over (s : Runtime) : Prop :=
  match rt_finish s with FinContexts _ r | FinSlots _ r _ | FinBackend _ r _ => r = Ok tt | _ => finished_well s end.
Definition contexts_over (s : Runtime) : Prop :=
  match rt_finish s with FinSlots _ _ r | FinBackend _ _ r => r = Ok tt | _ => finished_well s end.

Record quiet_ok (s : Runtime) : Prop := {
  qt_checkpoints : checkpoints_over s -> forall t, has tracked (rt_tasks s !! t) = false;
  qt_jobs : jobs_over s -> rt_jobs s = ∅;
  qt_contexts : contexts_over s -> forall t, has admitted (rt_tasks s !! t) = false;
}.

Lemma over_finishing s : checkpoints_over s \/ jobs_over s \/ contexts_over s -> rt_finish s <> FinNot.
Proof. unfold checkpoints_over, jobs_over, contexts_over, finished_well. intros H Hf. rewrite Hf in H. by intuition. Qed.

Lemma over_same s s' : rt_finish s' = rt_finish s -> rt_lifecycle s' = rt_lifecycle s ->
  (checkpoints_over s' <-> checkpoints_over s) /\ (jobs_over s' <-> jobs_over s) /\ (contexts_over s' <-> contexts_over s).
Proof. intros Hf Hl. unfold checkpoints_over, jobs_over, contexts_over, finished_well. by rewrite Hf, Hl. Qed.

Lemma quiet_frame s s' : lifecycle_ok s -> sealed_ok s -> quiet_ok s -> rt_finish s' = rt_finish s -> (rt_finish s <> FinNot -> rt_lifecycle s' = rt_lifecycle s) ->
  (forall t, has tracked (rt_tasks s' !! t) = true -> has tracked (rt_tasks s !! t) = true \/ rt_admission_closed s = false) ->
  (forall id, is_Some (rt_jobs s' !! id) -> is_Some (rt_jobs s !! id) \/ exists t, has inserting (rt_tasks s !! t) = true) ->
  (forall t, has admitted (rt_tasks s' !! t) = true -> has admitted (rt_tasks s !! t) = true \/ lc_phase (rt_lifecycle s) = OPEN) ->
  quiet_ok s'.
Proof.
  intros Hl Hs [Q1 Q2 Q3] Hf Hc H1 H2 H3.
  assert (rt_finish s' <> FinNot -> rt_admission_closed s = true /\ lc_phase (rt_lifecycle s) <> OPEN /\
    (forall t, has inserting (rt_tasks s !! t) = false) /\ rt_lifecycle s' = rt_lifecycle s) as Hfin.
  { rewrite Hf. intros Hn. split_and!; [by apply (sd_started _ Hl)| |by apply Hs; left|by apply Hc].
    intros Ho. by apply Hn, (sd_open _ Hl). }
  constructor; intros Hov; (destruct Hfin as (Ha & Hp & Hi & Hc'); [apply over_finishing; auto|]);
    destruct (over_same s s' Hf Hc') as (O1 & O2 & O3).
  - intros t. destruct (has tracked (rt_tasks s' !! t)) eqn:E; [|done]. destruct (H1 t E) as [E'|?]; [|congruence].
    rewrite Q1 in E' by tauto. done.
  - apply map_empty. intros id. destruct (rt_jobs s' !! id) eqn:E; [|done]. destruct (H2 id) as [Hj|[t Ht]]; [by rewrite E| |].
    + rewrite Q2 in Hj by tauto. by destruct Hj.
    + by rewrite Hi in Ht.
  - intros t. destruct (has admitted (rt_tasks s' !! t)) eqn:E; [|done]. destruct (H3 t E) as [E'|?]; [|done].
    rewrite Q3 in E' by tauto. done.
Qed.

Ltac quiet_by :=
  apply (quiet_frame _ _ ltac:(eassumption) ltac:(eassumption) ltac:(eassumption));
  [ reflexivity | intros _; reflexivity
  | intros ?; look_by; try done
  | let H := fresh in intros ? H; try autounfold with runtime in H; fields; look_by; try done; eauto
  | intros ?; look_by; try done ].

Lemma quiet_step_start t x a s s' : lifecycle_ok s -> sealed_ok s -> quiet_ok s -> rt_tasks s !! t = Some x ->
  step_start t x a s = Some s' -> quiet_ok s'.
Proof.
  intros Hl Hs Hok E H. unfold step_start, register_entry, spawned_recycle in H.
  step_cases H; registry_cases.
  all: try (quiet_by; fail).
  - apply (quiet_frame s); try done; [intros ?; look_by; done| |intros ?; look_by; done].
    intros. right. exists t. by rewrite E.
Qed.

Lemma quiet_step_close t x a s s' : lifecycle_ok s -> sealed_ok s -> quiet_ok s -> rt_tasks s !! t = Some x ->
  step_close t x a s = Some s' -> quiet_ok s'.
Proof.
  intros Hl Hs Hok E H. unfold step_close, begin_close, wait_terminal in H. destruct x, a; try discriminate H.
  - destruct (lc_phase (rt_lifecycle s) =? OPEN) eqn:Ho; injection H as <-; [|quiet_by].
    apply (quiet_frame s); try done; try (intros ?; look_by; done).
    intros Hf. exfalso. apply Z.eqb_eq in Ho. by apply Hf, (sd_open _ Hl).
  - injection H as <-; quiet_by.
  - injection H as <-; quiet_by.
  - step_cases H; [quiet_by|]. apply (quiet_frame s); try done; try (intros ?; look_by; done).
    intros i. fields. rewrite lookup_fmap, fmap_is_Some. by left.
  - injection H as <-. constructor; cbn; done.
  - apply bind_Some in H as (r & Hr' & [= <-]). quiet_by.
  - injection H as <-; quiet_by.
Qed.

Lemma result_and_ok (a b : Res unit) : result_and a b = Ok tt -> a = Ok tt /\ b = Ok tt.
Proof. by destruct a as [[]|]. Qed.

Lemma within_deadline_ok a b r : within_deadline a b r = Some (Ok tt) -> b = true /\ r = Ok tt.
Proof. destruct a, b; cbn; try done. intros [= ->]. done. Qed.

Lemma checkpoints_done_spec s : checkpoints_done s = true -> forall t, has tracked (rt_tasks s !! t) = false.
Proof.
  unfold checkpoints_done. intros [_ H]%andb_true_iff t. apply bool_decide_eq_true in H.
  apply (holding_none tracked). unfold holding. by apply map_size_empty_iff.
Qed.

Lemma idle_no_permit c s : (rt_available s + holding permit (rt_tasks s) = maximum_contexts c)%nat -> contexts_idle c s = true ->
  forall t, has admitted (rt_tasks s !! t) = false.
Proof.
  unfold contexts_idle. intros Hp Hi%Nat.eqb_eq t. assert (holding permit (rt_tasks s) = 0%nat) as H0 by lia.
  rewrite holding_none in H0. specialize (H0 t). destruct (rt_tasks s !! t) as [x|]; [|done]. cbn in *. unfold admitted. by rewrite H0.
Qed.

(** Each part of the shutdown passes on what it and the parts before found. *)
Lemma quiet_finish c a s s' : (rt_available s + holding permit (rt_tasks s) = maximum_contexts c)%nat -> quiet_ok s ->
  step_finish c a s = Some s' -> quiet_ok s'.
Proof.
  intros Hperm [Q1 Q2 Q3] H. unfold step_finish in H.
  unfold checkpoints_over, jobs_over, contexts_over, finished_well in Q1, Q2, Q3.
  assert (quiet_ok (set_finish (FinComplete (Err shutdown_panicked_error)) s)) as Hpanic by (constructor; cbn; done).
  destruct (rt_finish s) eqn:Ef; try discriminate.
  - destruct a; try (by injection H as <-); apply bind_Some in H as (r & Hr & [= <-]); constructor; cbn; try done; intros ->;
      apply within_deadline_ok in Hr as [Hr _]; by apply checkpoints_done_spec.
  - destruct a; try (by injection H as <-); apply bind_Some in H as (r & Hr & [= <-]); constructor; cbn; try done; intros ->;
      destruct (rt_jobs_poisoned s); apply within_deadline_ok in Hr as [Hr ?]; try done;
      apply andb_true_iff in Hr as [_ Hr]; by apply bool_decide_eq_true in Hr.
  - destruct a; try (by injection H as <-); apply bind_Some in H as (r & Hr & [= <-]); constructor; cbn; try done; intros ->;
      apply within_deadline_ok in Hr as [Hr _]; by eapply idle_no_permit.
  - destruct a; try discriminate; injection H as <-; [|done]. constructor; cbn; done.
  - destruct a; try (by injection H as <-); apply bind_Some in H as (r & Hr & [= <-]); constructor; cbn;
      intros [[[-> ->]%result_and_ok ->]%result_and_ok _]%result_and_ok; auto.
  - destruct a; try discriminate. injection H as <-. constructor; cbn; unfold complete_close; cbn; intros [= ->]; auto.
Qed.

Lemma quiet_step c e s s' : (rt_available s + holding permit (rt_tasks s) = maximum_contexts c)%nat ->
  lifecycle_ok s -> sealed_ok s -> quiet_ok s -> runtime_step c e s = Some s' -> quiet_ok s'.
Proof.
  intros Hp Hl Hs Hok H. destruct e as [t o|t a|id|id|a]; cbn [runtime_step] in H.
  - step_cases H. destruct o; quiet_by.
  - apply bind_Some in H as (x & E & H). unfold step_task in H.
    destruct x; first [discriminate | exact (quiet_step_start _ _ _ _ _ Hl Hs Hok E H) | exact (quiet_step_close _ _ _ _ _ Hl Hs Hok E H) | idtac].
    all: unfold step_page, step_acquire, step_context, step_cleanup, bounded_cleanup, step_recycle, step_ensure, step_close_idle,
      step_checkpoint, admit_checkpoint in H; cbn [stopped_by] in H.
    all: step_cases H; repeat match goal with Hb : ensure_open _ = Ok _ |- _ => apply ensure_open_phase in Hb end; quiet_by.
  - unfold on_control in H. step_cases H. apply (quiet_frame s); try done; try by left. intros i. fields. look; [|by left]. left. eauto.
  - unfold on_control in H. step_cases H. apply (quiet_frame s); try done; try by left. intros i. fields. look; [|by left]. left. eauto.
  - by eapply quiet_finish.
Qed.

Lemma quiet_reachable c s : reachable c s -> quiet_ok s.
Proof.
  apply (reachable_ind c quiet_ok); [by constructor; cbn|].
  intros e s1 s2 Hr. apply (quiet_step c e); [by apply permits_reachable|by eapply lifecycle_reachable|by eapply sealed_reachable].
Qed.

(** ** The mutexes of checkpoints *)

Definition holds_gate (g : GateId) (x : Task) : bool :=
  match x with CkLocked _ g' | CkLease _ g' _ => Nat.eqb g g' | _ => false end.

Record checkpoints_ok (s : Runtime) : Prop := {
  ck_use : forall t d g, rt_tasks s !! t ≫= checkpoint_use = Some (d, g) -> rt_destinations s !! d = Some g;
  ck_owner : forall t g, rt_gates s !! g = Some t <-> has (holds_gate g) (rt_tasks s !! t) = true;
  ck_next : forall d g, rt_destinations s !! d = Some g -> (g < rt_next_gate s)%nat;
}.

Definition checkpoint_view (o : option Task) : option Task :=
  match o with Some (CkWaiting _ _ | CkLocked _ _ | CkLease _ _ _) => o | _ => None end.

Lemma checkpoints_frame s s' : checkpoints_ok s -> rt_destinations s' = rt_destinations s -> rt_gates s' = rt_gates s ->
  rt_next_gate s' = rt_next_gate s -> (forall t, checkpoint_view (rt_tasks s' !! t) = checkpoint_view (rt_tasks s !! t)) -> checkpoints_ok s'.
Proof.
  intros [H1 H2 H3] Hd Hg Hn Hv.
  assert (forall o, o ≫= checkpoint_use = checkpoint_view o ≫= checkpoint_use /\
    forall g, has (holds_gate g) o = has (holds_gate g) (checkpoint_view o)) as Hf by (intros o; by destruct o as [[]|]).
  constructor; rewrite ?Hd, ?Hg, ?Hn; [|intros t g|done].
  - intros t d g Ht. apply (H1 t). rewrite (proj1 (Hf _)). rewrite (proj1 (Hf _)), Hv in Ht. done.
  - rewrite H2, (proj2 (Hf (rt_tasks s !! t))), (proj2 (Hf (rt_tasks s' !! t))), Hv. done.
Qed.

(** One task moves, and the entry of every other user stays. *)
Lemma checkpoints_move s s' t o : checkpoints_ok s -> rt_tasks s' = moved t o (rt_tasks s) ->
  (forall d g, o ≫= checkpoint_use = Some (d, g) -> rt_destinations s' !! d = Some g) ->
  (forall t' d g, t <> t' -> rt_tasks s !! t' ≫= checkpoint_use = Some (d, g) -> rt_destinations s' !! d = Some g) ->
  (forall t' g, rt_gates s' !! g = Some t' <-> if decide (t = t') then has (holds_gate g) o = true else rt_gates s !! g = Some t') ->
  (forall d g, rt_destinations s' !! d = Some g -> (g < rt_next_gate s')%nat) -> checkpoints_ok s'.
Proof.
  intros [H1 H2 H3] Ht Ho Hd Hg Hn. constructor; [| |done].
  - intros t' d g. rewrite Ht, lookup_moved. case_decide; [apply Ho|by apply Hd].
  - intros t' g. rewrite Ht, Hg, lookup_moved. case_decide; [done|apply H2].
Qed.

Lemma alive_spec s t d g : rt_tasks s !! t ≫= checkpoint_use = Some (d, g) -> rt_destinations s !! d = Some g ->
  alive_destinations s !! d = Some g.
Proof.
  intros Ht Hd. unfold alive_destinations. apply map_lookup_filter_Some. split; [done|]. cbn. unfold strong_count.
  fold (holding (uses_gate g) (rt_tasks s)). intros H0. rewrite holding_none in H0. specialize (H0 t).
  apply bind_Some in Ht as (x & E & Hx). rewrite E in H0. cbn in H0. unfold uses_gate in H0. rewrite Hx in H0.
  by rewrite Nat.eqb_refl in H0.
Qed.

Lemma alive_subset s d g : alive_destinations s !! d = Some g -> rt_destinations s !! d = Some g.
Proof. unfold alive_destinations. by intros [H _]%map_lookup_filter_Some. Qed.

(** A task that owns no mutex still owns none. *)
Lemma owner_elsewhere s t o : checkpoints_ok s -> (forall g, has (holds_gate g) (rt_tasks s !! t) = has (holds_gate g) o) ->
  forall t' g, rt_gates s !! g = Some t' <-> if decide (t = t') then has (holds_gate g) o = true else rt_gates s !! g = Some t'.
Proof. intros Hok Hs t' g. case_decide; [subst|done]. rewrite (ck_owner _ Hok), Hs. done. Qed.

Lemma checkpoints_admit s t d : checkpoints_ok s -> rt_tasks s !! t = Some (CkAdmission d) -> checkpoints_ok (admit_checkpoint t d s).
Proof.
  intros Hok E. pose proof Hok as [H1 H2 H3]. unfold admit_checkpoint. destruct (rt_admission_closed s).
  { apply (checkpoints_frame s); try done. view_by. }
  assert (forall t' d' g, rt_tasks s !! t' ≫= checkpoint_use = Some (d', g) -> alive_destinations s !! d' = Some g) as Halive
    by (intros t' d' g Hu; eapply alive_spec; [done|by eapply H1]).
  destruct (alive_destinations s !! d) as [g|] eqn:Ed.
  - apply (checkpoints_move s _ t (Some (CkWaiting d g))); try done.
    + intros d' g' [= <- <-]. done.
    + intros t' d' g' _. apply Halive.
    + apply (owner_elsewhere s); [done|]. intros g'. by rewrite E.
    + intros d' g' Hd. by eapply H3, alive_subset.
  - apply (checkpoints_move s _ t (Some (CkWaiting d (rt_next_gate s)))); try done.
    + intros d' g' [= <- <-]. apply lookup_insert_eq.
    + intros t' d' g' _ Hu%Halive. unfold goes. fields. rewrite lookup_insert_ne; [done|congruence].
    + apply (owner_elsewhere s); [done|]. intros g'. by rewrite E.
    + intros d' g'. unfold goes. fields. look; [intros [= <-]; lia|]. intros Hd%alive_subset%H3. lia.
Qed.

Lemma release_owner s t g o : checkpoints_ok s -> has (holds_gate g) (rt_tasks s !! t) = true ->
  (forall g', has (holds_gate g') o = false) -> (forall g', has (holds_gate g') (rt_tasks s !! t) = true -> g' = g) ->
  forall t' g', delete g (rt_gates s) !! g' = Some t' <-> if decide (t = t') then has (holds_gate g') o = true else rt_gates s !! g' = Some t'.
Proof.
  intros Hok Hg Ho Hu t' g'. pose proof (proj2 (ck_owner _ Hok t g) Hg) as Hgt. rewrite lookup_delete. repeat case_decide; subst.
  - by rewrite Ho.
  - split; [done|]. congruence.
  - rewrite Ho. split; [|done]. intros Ht%(ck_owner _ Hok)%Hu. congruence.
  - done.
Qed.

Lemma checkpoints_step_checkpoint t x a s s' : checkpoints_ok s -> rt_tasks s !! t = Some x -> step_checkpoint t x a s = Some s' ->
  checkpoints_ok s'.
Proof.
  intros Hok E H. pose proof Hok as [H1 H2 H3].
  assert (forall d g, checkpoint_use x = Some (d, g) -> rt_destinations s !! d = Some g) as Hu by (intros d g Hx; apply (H1 t); by rewrite E).
  assert (forall g, has (holds_gate g) (rt_tasks s !! t) = holds_gate g x) as Hh by (intros g; by rewrite E).
  destruct x; try (destruct a; discriminate H).
  - destruct a; try discriminate H; injection H as <-; [by apply checkpoints_admit|].
    apply (checkpoints_frame s); try done. view_by.
  - destruct a; try discriminate H.
    + cbn in H. destruct (rt_gates s !! gate) eqn:Eg; [done|]. injection H as <-.
      apply (checkpoints_move s _ t (Some (CkLocked destination gate))); try done; [by intros ? ? ? _ Hx; apply (H1 _ _ _ Hx)|].
      intros t' g'. unfold goes, set_gates. fields. cbn [has holds_gate]. rewrite lookup_insert. repeat case_decide; subst.
      * by rewrite Nat.eqb_refl.
      * split; [by intros [= ->]|]. congruence.
      * rewrite H2, Hh. cbn. by destruct (Nat.eqb_spec g' gate).
      * done.
    + injection H as <-. apply (checkpoints_move s _ t (Some (Over (Err operation_cancelled_error)))); try done; [by intros ? ? ? _ Hx; apply (H1 _ _ _ Hx)|].
      by apply (owner_elsewhere s).
    + injection H as <-. apply (checkpoints_move s _ t None); try done; [by intros ? ? ? _ Hx; apply (H1 _ _ _ Hx)|]. by apply (owner_elsewhere s).
  - destruct a; try discriminate H. injection H as <-. destruct (rt_admission_closed s).
    + apply (checkpoints_move s _ t (Some (Over (Err closed_error)))); try done; [by intros ? ? ? _ Hx; apply (H1 _ _ _ Hx)|].
      apply (release_owner s); try done; rewrite ?Hh; cbn; [apply Nat.eqb_refl|]. intros g' Hg'. rewrite Hh in Hg'. by apply Nat.eqb_eq.
    + apply (checkpoints_move s _ t (Some (CkLease destination gate 1))); try done; [by intros ? ? ? _ Hx; apply (H1 _ _ _ Hx)|]. by apply (owner_elsewhere s).
  - assert (forall n, checkpoints_ok (goes t (CkLease destination gate n) s)) as Hn.
    { intros n. apply (checkpoints_move s _ t (Some (CkLease destination gate n))); try done; [by intros ? ? ? _ Hx; apply (H1 _ _ _ Hx)|]. by apply (owner_elsewhere s). }
    assert (checkpoints_ok (gone t (release_destination gate s))) as Hr.
    { apply (checkpoints_move s _ t None); try done; [by intros ? ? ? _ Hx; apply (H1 _ _ _ Hx)|].
      apply (release_owner s); try done; rewrite ?Hh; cbn; [apply Nat.eqb_refl|]. intros g' Hg'. rewrite Hh in Hg'. by apply Nat.eqb_eq. }
    destruct a, owners as [|[]]; try discriminate H; by injection H as <-.
Qed.

Lemma checkpoints_step c e s s' : checkpoints_ok s -> runtime_step c e s = Some s' -> checkpoints_ok s'.
Proof.
  intros Hok H. destruct e as [t o|t a|id|id|a]; cbn [runtime_step] in H.
  - step_cases H. apply (checkpoints_frame s); try done. destruct o; view_by.
  - apply bind_Some in H as (x & E & H). unfold step_task in H.
    destruct x; first [discriminate | exact (checkpoints_step_checkpoint _ _ _ _ _ Hok E H) | idtac].
    all: unfold step_start, register_entry, spawned_recycle, step_page, step_acquire, step_context, step_cleanup, bounded_cleanup, step_recycle,
      step_ensure, step_close_idle, step_close in H; cbn [stopped_by] in H.
    all: step_cases H; registry_cases; apply (checkpoints_frame s); try done; view_by.
  - unfold on_control in H. step_cases H. by apply (checkpoints_frame s).
  - unfold on_control in H. step_cases H. by apply (checkpoints_frame s).
  - unfold step_finish in H. step_cases H; by apply (checkpoints_frame s).
Qed.

Lemma checkpoints_reachable c s : reachable c s -> checkpoints_ok s.
Proof.
  apply (reachable_ind c checkpoints_ok).
  - constructor; cbn; intros *; rewrite ?lookup_empty; done.
  - intros e s1 s2 _. apply checkpoints_step.
Qed.

(** ** The theorems *)

Lemma has_some f (m : gmap TaskId Task) t x : m !! t = Some x -> f x = true -> has f (m !! t) = true.
Proof. by intros ->. Qed.

(** C8: the browser is only closed when nobody uses it. In every state that the runtime
    reaches with a backend of its own, while any task closes the browser to recycle it
    or because an idle browser is to be closed, no task holds a lease of it, be it for a
    page in any state, for a page that is being cleaned up, or to make sure of the
    browser; and the number of contexts reported as active is the number of tasks
    that hold a permit, which never exceeds the configured maximum. *)
Theorem browser_closed_idle c s : owned c = true -> Z.of_nat (maximum_contexts c) <= u16_max -> reachable c s ->
  (forall t x t' x', rt_tasks s !! t = Some x -> closing x = true -> rt_tasks s !! t' = Some x' -> lease x' = false) /\
  active_contexts c s = Z.of_nat (holding permit (rt_tasks s)) /\ (holding permit (rt_tasks s) <= maximum_contexts c)%nat.
Proof.
  intros Ho Hm Hr. pose proof (contexts_reachable c s Ho Hr) as [Hp _ Hc]. split_and!.
  - intros t x t' x' E Hx E'. destruct (lease x') eqn:El; [|done]. exfalso.
    exact (Hc t t' (has_some _ _ _ _ E Hx) (has_some _ _ _ _ E' El)).
  - unfold active_contexts, saturating_sub. unfold u16_max, u32_max in *. lia.
  - lia.
Qed.

(** Jobs appear only through the insertion that the leader of a shutdown waits for. *)
Lemma jobs_grow c e s s' id : runtime_step c e s = Some s' -> is_Some (rt_jobs s' !! id) ->
  is_Some (rt_jobs s !! id) \/ exists t, has inserting (rt_tasks s !! t) = true.
Proof.
  intros H Hj. destruct e as [t o|t a|i|i|a]; cbn [runtime_step] in H.
  - step_cases H. by left.
  - apply bind_Some in H as (x & E & H). unfold step_task in H. destruct x; try discriminate.
    all: try (right; exists t; by rewrite E).
    all: left; unfold step_start, spawned_recycle, step_page, step_acquire, step_context, step_cleanup, bounded_cleanup, step_recycle, step_ensure,
      step_close_idle, step_close, step_checkpoint, admit_checkpoint in H; cbn [stopped_by] in H.
    all: revert Hj; step_cases H; registry_cases; intros Hj; try done; autounfold with runtime in Hj; fields; look; eauto.
    all: try (rewrite lookup_fmap, fmap_is_Some in Hj; done).
  - left. unfold on_control in H. step_cases H. fields. look; eauto.
  - left. unfold on_control in H. step_cases H. fields. look; eauto.
  - left. unfold step_finish in H. by step_cases H.
Qed.

Lemma shutdown_stays c e s s' : runtime_step c e s = Some s' -> rt_shutdown s = true -> rt_shutdown s' = true.
Proof.
  intros H Hs. destruct e as [t o|t a|i|i|a]; cbn [runtime_step] in H.
  - by step_cases H.
  - apply bind_Some in H as (x & E & H). unfold step_task in H. destruct x; try discriminate.
    all: unfold step_start, register_entry, spawned_recycle, step_page, step_acquire, step_context, step_cleanup, bounded_cleanup, step_recycle, step_ensure,
      step_close_idle, step_close, step_checkpoint, admit_checkpoint in H; cbn [stopped_by] in H.
    all: step_cases H; registry_cases; done.
  - unfold on_control in H. by step_cases H.
  - unfold on_control in H. by step_cases H.
  - unfold step_finish in H. by step_cases H.
Qed.

Lemma sealed_run c es s s' : reachable c s -> rt_shutdown s = true -> runtime_run c es s = Some s' ->
  forall id, is_Some (rt_jobs s' !! id) -> is_Some (rt_jobs s !! id).
Proof.
  revert s. induction es as [|e es IH]; intros s Hr Hs H id; [by injection H as <-|].
  cbn in H. apply bind_Some in H as (s1 & H1 & H). intros Hj.
  apply (IH s1 (reachable_step _ _ _ _ Hr H1) (shutdown_stays _ _ _ _ H1 Hs) H) in Hj.
  destruct (jobs_grow _ _ _ _ _ H1 Hj) as [|[t Ht]]; [done|].
  destruct (sealed_reachable c s Hr) as [_ Hn]; [|by rewrite Hn in Ht].
  left. by apply (sd_shutdown _ (lifecycle_reachable c s Hr)).
Qed.

(** A page with a lease is past the second look at the life cycle. *)
Lemma page_lease_admitted x : permit x = true -> lease x = true -> admitted x = true.
Proof. by destruct x. Qed.

(** C7: closing the runtime leaves nothing behind. Once the shutdown is announced, every
    registered job is decided, by its cancellation or by a commit that was first, and
    from then on no job is ever added to the registry. When the shutdown reports success, no
    job is registered, no checkpoint is owned or waited for and no task with a permit
    has a lease of the browser. Whoever closed the runtime is told the same result. *)
Theorem shutdown_quiesces c s : reachable c s ->
  (rt_shutdown s = true ->
     (forall id j, rt_jobs s !! id = Some j -> decided j) /\
     (forall es s', runtime_run c es s = Some s' -> dom (rt_jobs s') ⊆ dom (rt_jobs s))) /\
  (lc_terminal (rt_lifecycle s) = Some (Ok tt) ->
     rt_jobs s = ∅ /\
     (forall t x, rt_tasks s !! t = Some x -> checkpoint_use x = None) /\
     (forall t x, rt_tasks s !! t = Some x -> permit x = true -> lease x = false)) /\
  (forall t t' r r', rt_tasks s !! t = Some (ClDone r) -> rt_tasks s !! t' = Some (ClDone r') -> r = r').
Proof.
  intros Hr. pose proof (lifecycle_reachable c s Hr) as Hl. pose proof (quiet_reachable c s Hr) as [Q1 Q2 Q3]. split_and!.
  - intros Hs. split.
    + apply (sealed_reachable c s Hr). left. by apply (sd_shutdown _ Hl).
    + intros es s' H id. rewrite !elem_of_dom. by eapply sealed_run.
  - intros Ht. assert (rt_finish s = FinEnd) as Hf by (apply (sd_end _ Hl), (sd_terminal _ Hl); eauto).
    unfold checkpoints_over, jobs_over, contexts_over, finished_well in Q1, Q2, Q3. rewrite Hf in Q1, Q2, Q3. split_and!; [auto| |].
    + intros t x E. specialize (Q1 Ht t). rewrite E in Q1. cbn in Q1. unfold tracked in Q1. by destruct (checkpoint_use x).
    + intros t x E Hp. specialize (Q3 Ht t). rewrite E in Q3. cbn in Q3. destruct (lease x) eqn:El; [|done].
      by rewrite page_lease_admitted in Q3.
  - intros t t' r r' H1%(sd_done _ Hl) H2%(sd_done _ Hl). congruence.
Qed.

(** With admission closed a step gives no lease. *)
Lemma lease_kept c e s s' t d g n : rt_admission_closed s = true -> runtime_step c e s = Some s' ->
  rt_tasks s' !! t = Some (CkLease d g n) -> exists n', rt_tasks s !! t = Some (CkLease d g n').
Proof.
  intros Ha H He. destruct e as [t' o|t' a|i|i|a]; cbn [runtime_step] in H.
  - step_cases H. fields. destruct o; look; eauto.
  - apply bind_Some in H as (x & E' & H). unfold step_task in H. destruct x; try discriminate.
    all: unfold step_start, register_entry, spawned_recycle, step_page, step_acquire, step_context, step_cleanup, bounded_cleanup, step_recycle, step_ensure,
      step_close_idle, step_close, step_checkpoint, admit_checkpoint in H; cbn [stopped_by] in H; rewrite ?Ha in H.
    all: revert He; step_cases H; registry_cases; intros He; try autounfold with runtime in He; fields; look; eauto.
  - unfold on_control in H. step_cases H. eauto.
  - unfold on_control in H. step_cases H. eauto.
  - unfold step_finish in H. step_cases H; eauto.
Qed.

(** C9: a checkpoint file has one owner. In every reachable state two leases of the same
    destination are the same lease, although the mutexes of destinations come and go
    with their users; and once admission is closed no lease appears, however many
    tasks wait for one. *)
Theorem checkpoint_leases_exclusive c s : reachable c s ->
  (forall t t' d g g' n n', rt_tasks s !! t = Some (CkLease d g n) -> rt_tasks s !! t' = Some (CkLease d g' n') -> t = t') /\
  (rt_admission_closed s = true -> forall e s' t d g n, runtime_step c e s = Some s' ->
     rt_tasks s' !! t = Some (CkLease d g n) -> exists n', rt_tasks s !! t = Some (CkLease d g n')).
Proof.
  intros Hr. pose proof (checkpoints_reachable c s Hr) as [H1 H2 _]. split.
  - intros t t' d g g' n n' E E'. assert (g' = g) as ->.
    { assert (rt_destinations s !! d = Some g) by (apply (H1 t); by rewrite E).
      assert (rt_destinations s !! d = Some g') by (apply (H1 t'); by rewrite E'). congruence. }
    assert (rt_gates s !! g = Some t) by (apply H2; rewrite E; apply Nat.eqb_refl).
    assert (rt_gates s !! g = Some t') by (apply H2; rewrite E'; apply Nat.eqb_refl). congruence.
  - intros Ha e s' t d g n H E. by eapply lease_kept.
Qed.

(** ** Shutdowns end *)

(** The shutdown is over after at most [n] events. *)
Definition closes_within (c : Config) (n : nat) (s : Runtime) : Prop :=
  exists es s', (length es <= n)%nat /\ runtime_run c es s = Some s' /\
    lc_phase (rt_lifecycle s') = CLOSED /\ is_Some (lc_terminal (rt_lifecycle s')).

Lemma closes_later c n e s s1 : runtime_step c e s = Some s1 -> closes_within c n s1 -> closes_within c (S n) s.
Proof.
  intros H (es & s' & Hn & Hr & Hc). exists (e :: es), s'. split; [cbn; lia|]. split; [|done]. cbn. by rewrite H.
Qed.

Lemma closes_more c n m s : (n <= m)%nat -> closes_within c n s -> closes_within c m s.
Proof. intros Hn (es & s' & Hl & H). exists es, s'. split; [lia|done]. Qed.

Lemma finishing_ends c s : lifecycle_ok s -> rt_finish s <> FinNot -> closes_within c 6 s.
Proof.
  intros Hl Hf.
  assert (forall s r, rt_finish s = FinComplete r -> closes_within c 1 s) as H1.
  { intros s1 r E. eapply (closes_later _ _ (Finishes Go)); [cbn; unfold step_finish; by rewrite E|].
    exists [], (set_finish FinEnd (set_lifecycle (complete_close r (rt_lifecycle s1)) s1)). split_and!; [cbn; lia|done|done|]. cbn. eauto. }
  assert (forall s a b d, rt_finish s = FinBackend a b d -> closes_within c 2 s) as H2.
  { intros s1 a b d E. eapply (closes_later _ _ (Finishes TimesOut)); [cbn; unfold step_finish; by rewrite E|]. by eapply H1. }
  assert (forall s a b d, rt_finish s = FinSlots a b d -> closes_within c 3 s) as H3.
  { intros s1 a b d E. eapply (closes_later _ _ (Finishes Go)); [cbn; unfold step_finish; by rewrite E|]. by eapply H2. }
  assert (forall s a b, rt_finish s = FinContexts a b -> closes_within c 4 s) as H4.
  { intros s1 a b E. eapply (closes_later _ _ (Finishes TimesOut)); [cbn; unfold step_finish; by rewrite E|]. by eapply H3. }
  assert (forall s a, rt_finish s = FinJobs a -> closes_within c 5 s) as H5.
  { intros s1 a E. eapply (closes_later _ _ (Finishes TimesOut) _ (set_finish (FinContexts a (Err shutdown_deadline_error)) s1)).
    - cbn. unfold step_finish. rewrite E. by destruct (rt_jobs_poisoned s1).
    - by eapply H4. }
  destruct (rt_finish s) eqn:E; [done|..].
  - eapply (closes_later _ _ (Finishes TimesOut)); [cbn; unfold step_finish; by rewrite E|]. by eapply H5.
  - apply (closes_more _ 5); [lia|]. by eapply H5.
  - apply (closes_more _ 4); [lia|]. by eapply H4.
  - apply (closes_more _ 3); [lia|]. by eapply H3.
  - apply (closes_more _ 2); [lia|]. by eapply H2.
  - apply (closes_more _ 1); [lia|]. by eapply H1.
  - exists [], s. split_and!; [cbn; lia|done|by apply (sd_end _ Hl)|]. by apply (sd_terminal _ Hl), (sd_end _ Hl).
Qed.

Lemma announced_ends c s t : reachable c s -> rt_tasks s !! t = Some ClShutdown -> closes_within c 7 s.
Proof.
  intros Hr E. assert (runtime_step c (Steps t Go) s = Some (goes t ClWait (set_finish FinCheckpoints (set_shutdown true s)))) as H.
  { cbn. by rewrite E. }
  apply (closes_later _ _ _ _ _ H). apply finishing_ends; [|done]. eapply lifecycle_reachable, reachable_step; done.
Qed.

Lemma leading_ends c s t : reachable c s -> rt_tasks s !! t = Some ClJobs -> closes_within c 9 s.
Proof.
  intros Hr E. pose proof (registry_reachable c s Hr) as Hreg.
  assert (forall s, reachable c s -> rt_tasks s !! t = Some ClJobs -> rt_jobs_lock s = None -> closes_within c 8 s) as Hfree.
  { intros s1 Hr1 E1 Hl. pose proof (not_poisoned _ (registry_reachable c s1 Hr1)) as Hp.
    assert (runtime_step c (Steps t Go) s1 = Some (goes t ClShutdown (set_jobs (cancel_job <$> rt_jobs s1) s1))) as H.
    { cbn. rewrite E1. cbn. unfold jobs_unlocked. by rewrite bool_decide_eq_true_2, Hp. }
    apply (closes_later _ _ _ _ _ H), (announced_ends c _ t); [by eapply reachable_step|]. apply lookup_insert_eq. }
  destruct (rt_jobs_lock s) as [t'|] eqn:El; [|apply (closes_more _ 8); [lia|by apply Hfree]].
  pose proof (proj1 (lock_owner _ Hreg t') El) as Hl. destruct (rt_tasks s !! t') as [x|] eqn:E'; [|done]. cbn in Hl.
  assert (t' <> t) as Hne by (intros ->; rewrite E in E'; injection E' as <-; done).
  assert (lc_phase (rt_lifecycle s) <> OPEN) as Hp.
  { destruct (sd_leader _ (lifecycle_reachable c s Hr) t) as [-> _]; [by rewrite E|done]. }
  assert (exists s1, runtime_step c (Steps t' Go) s = Some s1 /\ rt_tasks s1 !! t = Some ClJobs /\ rt_jobs_lock s1 = None) as (s1 & H & E1 & L1).
  { destruct x; try done; cbn; rewrite E'; cbn.
    - unfold ensure_open. destruct (Z.eqb_spec (lc_phase (rt_lifecycle s)) OPEN); [done|].
      eexists. split_and!; [done| |done]. cbn. by rewrite lookup_insert_ne.
    - unfold register_entry. fields. destruct (rt_jobs s !! id); eexists; (split_and!; [done| |done]); cbn; by rewrite lookup_insert_ne. }
  apply (closes_later _ _ _ _ _ H). apply Hfree; [by eapply reachable_step|done|done].
Qed.


(** Every registered job belongs to exactly one task, which will unregister it; a start
    that got as far as registering its job never has to undo it. *)
Lemma job_owned_once c s id : reachable c s ->
  (is_Some (rt_jobs s !! id) -> exists! t, rt_tasks s !! t ≫= owner = Some id) /\
  (forall t child e, rt_tasks s !! t <> Some (StUndo id child e)).
Proof.
  intros Hr. pose proof (registry_reachable c s Hr) as Hreg. split.
  - intros [t Ht]%(registered_owned _ Hreg). exists t. split; [done|]. intros t' Ht'. by eapply (owner_unique _ Hreg).
  - intros t child e E. pose proof (never_undone _ Hreg t) as Hu. by rewrite E in Hu.
Qed.

(** ** A run *)

Module RuntimeSamples.

(** Two contexts, a browser of its own that is recycled after every job. *)
Definition config : Config := MkConfig 2 1 true.

Definition times (n : nat) (t : TaskId) : list RuntimeEvent := replicate n (Steps t Go).

(** A job is started and runs, a page is opened, a checkpoint is owned and another task
    waits for it; then a shutdown begins. *)
Definition busy_events : list RuntimeEvent :=
  Spawns 0 (OpStart "a") :: times 4 0 ++ Steps 0 (Forks 1) :: times 2 0 ++
  Spawns 2 OpPage :: times 8 2 ++
  Spawns 3 (OpCheckpoint "d") :: times 3 3 ++ Spawns 7 (OpCheckpoint "d") :: times 1 7.

(** The job ends, a second page is admitted, the first is closed, and the browser is
    being recycled. *)
Definition recycling_events : list RuntimeEvent :=
  busy_events ++ times 2 1 ++ Spawns 4 OpPage :: times 5 2 ++ times 3 2 ++ times 2 4.

(** The runtime is closed by two callers. *)
Definition closed_events : list RuntimeEvent :=
  recycling_events ++ times 1 2 ++ Steps 3 (Drops true) :: Spawns 5 OpClose :: Spawns 6 OpClose :: times 2 5 ++ times 1 7 ++ times 1 7 ++
  times 2 5 ++ times 1 6 ++ times 1 4 ++ replicate 6 (Finishes Go) ++ times 1 5 ++ times 1 6.

Definition state_after (es : list RuntimeEvent) : Runtime :=
  match runtime_run config es (runtime_start config) with Some s => s | None => runtime_start config end.

Definition busy : Runtime := Eval vm_compute in state_after busy_events.
Definition recycling : Runtime := Eval vm_compute in state_after recycling_events.
Definition closing_busy : Runtime := Eval vm_compute in state_after (busy_events ++ Spawns 5 OpClose :: times 1 5).
Definition closed : Runtime := Eval vm_compute in state_after closed_events.

Lemma browser_closed_idle_witness :
  rt_tasks recycling !! 2%nat = Some (RcClosing None (Ok tt)) /\
  rt_tasks recycling !! 4%nat = Some PgChecked /\ lease PgChecked = false /\ active_contexts config recycling = 1.
Proof.
  assert (reachable config recycling) as Hr by (exists recycling_events; vm_compute; reflexivity).
  destruct (browser_closed_idle config recycling eq_refl ltac:(vm_compute; discriminate) Hr) as (H1 & H2 & _).
  split; [reflexivity|]. split; [reflexivity|]. split.
  - apply (H1 2%nat (RcClosing None (Ok tt)) 4%nat); reflexivity.
  - rewrite H2. vm_compute. reflexivity.
Defined.

Lemma shutdown_quiesces_witness :
  rt_tasks closed !! 5%nat = Some (ClDone (Ok tt)) /\ rt_tasks closed !! 7%nat = Some (Over (Err closed_error)) /\ rt_jobs closed = ∅ /\
  (forall r, rt_tasks closed !! 6%nat = Some (ClDone r) -> r = Ok tt).
Proof.
  assert (reachable config closed) as Hr by (exists closed_events; vm_compute; reflexivity).
  destruct (shutdown_quiesces config closed Hr) as (_ & H2 & H3). split; [reflexivity|]. split; [vm_compute; reflexivity|]. split.
  - apply H2. reflexivity.
  - intros r E. apply (H3 6%nat 5%nat r (Ok tt) E). reflexivity.
Defined.

Lemma checkpoint_leases_exclusive_witness :
  rt_tasks busy !! 3%nat = Some (CkLease "d" 0 1) /\ rt_tasks busy !! 7%nat = Some (CkWaiting "d" 0) /\
  (forall t n, rt_tasks busy !! t = Some (CkLease "d" 0 n) -> t = 3%nat).
Proof.
  assert (reachable config busy) as Hr by (exists busy_events; vm_compute; reflexivity).
  destruct (checkpoint_leases_exclusive config busy Hr) as [H1 _]. split; [reflexivity|]. split; [reflexivity|].
  intros t n E. apply (H1 t 3%nat "d" 0%nat 0%nat n 1%nat E). reflexivity.
Defined.


End RuntimeSamples.
