(* ===== verification/Interception.v ===== *)
(** * Interception of requests and network activity

    Models how the Chromium backend decides on requests the browser has paused
    ([offprint-rs/chromium/src/page/interception.rs], [interception/paused.rs]), what
    it reads of responses ([chromium/src/resources/normalization.rs]), the domains of
    cookies, and the tracking of requests in flight ([chromium/src/page/activity.rs]).

    A paused request is decided by a task of its own; the loop that spawns the tasks
    receives events, joins tasks that are done and stops when its token is cancelled.
    The machine at the end has one event per such move, so that every interleaving is a list of
    events.  What the browser and the resolver answer to a task is its [Outside]. *)

From Stdlib Require Import ZArith Lia Ascii String.
From stdpp Require Import base tactics list gmap strings numbers sorting.
From S2P Require Import Prelude.
From S2P Require Import Errors.
From S2P Require Import Fs.
From S2P Require Import Records.
From S2P Require Import Network.
From S2P Require Import Requests.
From S2P Require Import Schedule.
From S2P Require Import Sanitize.
From S2P Require Import Verify.
From S2P Require Import Materialize.
From S2P Require Import Diagnostics.
From S2P Require Import CrawlResume.
Import CrawlSamples.

#[local] Open Scope string_scope.
#[local] Open Scope list_scope.
#[local] Open Scope Z_scope.

(** ** Reading JSON *)

(** [Value::get], [as_str], [as_u64], [as_bool], [as_array] and [as_object]; the names of
    an object are distinct. *)
Definition value_get (key : string) (v : Value) : option Value :=
  match v with
  | VObject fields => snd ∘ snd <$> list_find (fun f => f.1 = key) fields
  | _ => None
  end.

Definition as_str (v : Value) : option string := match v with VString s => Some s | _ => None end.
Definition as_u64 (v : Value) : option Z := match v with VNumber n => try_from u64_max n | _ => None end.
Definition as_bool (v : Value) : option bool := match v with VBool b => Some b | _ => None end.
Definition as_array (v : Value) : option (list Value) := match v with VArray l => Some l | _ => None end.
Definition as_object (v : Value) : option (list (string * Value)) := match v with VObject l => Some l | _ => None end.

(** [pointer("/request/name")]. *)
Definition request_field (name : string) (v : Value) : option Value := value_get "request" v ≫= value_get name.

Definition text_of (key : string) (v : Value) : option string := value_get key v ≫= as_str.

Definition response_headers_of (v : Value) : list Value := default [] (value_get "responseHeaders" v ≫= as_array).

(** ** What is read of requests and responses *)

Definition RENDERED_RESPONSE_RESOURCE_TYPES : list string := ["Stylesheet"; "Image"; "Media"; "Font"; "TextTrack"; "Other"].

Definition captures_rendered_response (resource_type : option string) : bool :=
  match resource_type with Some t => bool_decide (t ∈ RENDERED_RESPONSE_RESOURCE_TYPES) | None => false end.

Definition BODY_HEADERS : list string :=
  ["content-encoding"; "content-length"; "content-md5"; "content-digest"; "digest"; "repr-digest"; "transfer-encoding"].

Definition fulfilled_response_headers (parameters : Value) : list Value :=
  List.filter (fun h => match text_of "name" h with
                        | Some name => negb (existsb (eq_ignore_ascii_case name) BODY_HEADERS)
                        | None => true
                        end) (response_headers_of parameters).

Definition response_header_values (parameters : Value) (name : string) : list string :=
  omap (fun h =>
    candidate ← text_of "name" h;
    if eq_ignore_ascii_case candidate name then text_of "value" h else None) (response_headers_of parameters).

Definition body_error : OffprintError := new_error "offprint.resource.load" Resource.

Definition content_encoded (parameters : Value) : bool :=
  existsb (fun encoding => negb (bool_decide (encoding = "")) && negb (eq_ignore_ascii_case encoding "identity"))
    (map str_trim (mjoin (map (split ",") (response_header_values parameters "content-encoding")))).

Definition validate_intercepted_body (parameters : Value) (body_bytes : Z) : Res unit :=
  if content_encoded parameters then Ok tt
  else
    match mapM (fun v => parse_u64 (str_trim v)) (response_header_values parameters "content-length") with
    | None => Err body_error
    | Some [] => Ok tt
    | Some (expected :: rest) =>
        if negb (forallb (fun n => n =? expected) (expected :: rest)) then Err body_error
        else if negb (Z.min u64_max body_bytes =? expected)
        then Err (with_detail "receivedBytes" (DNum (Z.min u64_max body_bytes))
                    (with_detail "declaredBytes" (DNum expected) body_error))
        else Ok tt
    end.

Definition is_long_lived_resource_type (resource_type : option string) : bool :=
  bool_decide (resource_type = Some "WebSocket") || bool_decide (resource_type = Some "EventSource").

Definition is_event_stream (value : string) : bool :=
  eq_ignore_ascii_case (str_trim (default "" (head (split ";" value)))) "text/event-stream".

Definition is_long_lived_response (parameters : Value) : bool :=
  is_long_lived_resource_type (text_of "resourceType" parameters)
  || existsb (fun h =>
       match text_of "name" h with Some name => eq_ignore_ascii_case name "content-type" | None => false end
       && match text_of "value" h with Some value => is_event_stream value | None => false end)
     (response_headers_of parameters).

(** ** Headers, origins and cookies *)

(** [json!({name, value})]. *)
Definition header_value (name value : string) : Value := VObject [("name", VString name); ("value", VString value)].

Definition continued_headers (parameters : Value) (scoped : list RequestHeader) : list Value :=
  omap (fun f =>
    if existsb (fun h => eq_ignore_ascii_case (hd_name h) f.1) scoped then None
    else header_value f.1 <$> as_str f.2) (default [] (request_field "headers" parameters ≫= as_object))
  ++ map (fun h => header_value (hd_name h) (hd_value h)) scoped.

(** [str::strip_suffix] and [trim_start_matches('.')]. *)
Definition strip_suffix (suffix s : string) : option string :=
  let l := as_bytes s in let k := as_bytes suffix in
  let n := (length l - length k)%nat in
  if Nat.leb (length k) (length l) && bool_decide (drop n l = k) then Some (string_of_list_ascii (take n l)) else None.

Fixpoint trim_dots (s : string) : string := match s with String "." s' => trim_dots s' | _ => s end.

Definition ends_with_dot (s : string) : bool := bool_decide (list.last (as_bytes s) = Some "."%char).

Definition cookie_domain_matches (domain : string) (initial_host : option string) : bool :=
  let domain := trim_dots domain in
  match initial_host with
  | None => false
  | Some host =>
      eq_ignore_ascii_case host domain
      || match strip_suffix domain host with Some prefix => ends_with_dot prefix | None => false end
  end.

Section Interception.
Context `{UrlLib} `{UrlView} `{Networks}.

Definition same_origin (left right : url) : bool :=
  bool_decide (url_scheme left = url_scheme right)
  && match url_host_str left, url_host_str right with
     | Some l, Some r => eq_ignore_ascii_case l r
     | _, _ => false
     end
  && bool_decide (url_port_or_known_default left = url_port_or_known_default right).

Definition tracks_readiness_request (parameters : Value) : bool :=
  if is_long_lived_resource_type (text_of "type" parameters) then false
  else match (request_field "url" parameters ≫= as_str) ≫= url_parse with
       | Some u => negb (bool_decide (url_scheme u = "blob") || bool_decide (url_scheme u = "data"))
       | None => true
       end.

(** [validate_guard_destination], where [lookup] is what the resolver answers. *)
Definition validate_guard_destination (g : NetworkGuard) (u : url) (lookup : option (list IpAddr)) : Res unit :=
  let v := url_view u in
  do? validate_url g v ;;
  host <-? ok_or (Network.url_host_str v) (new_error "offprint.navigation.host" Navigation) ;;
  match parse_ip host with
  | Some address => validate_resolved g v [address]
  | None =>
      do? ok_or (url_port_or_known_default u) (new_error "offprint.navigation.port" Navigation) ;;
      addresses <-? ok_or lookup dns_error ;;
      validate_resolved g v addresses
  end.

(** ** One paused request *)

Record InterceptionContext := MkIntercepting {
  ic_guard : NetworkGuard;
  ic_headers : list RequestHeader;
  ic_header_origin : url;
}.

Record InterceptionFailure := MkFailure {
  if_error : OffprintError;
  if_frame_id : option string;
  if_document_request : bool;
}.

Record PausedRequest := MkPaused { pr_session_id : string; pr_request_id : string; pr_parameters : Value }.

Definition cdp_shape_error : OffprintError := new_error "offprint.browser.cdp_shape" Navigation.

Definition from_event (session_id : string) (parameters : Value) : Res PausedRequest :=
  request_id <-? ok_or (text_of "requestId" parameters) cdp_shape_error ;;
  Ok (MkPaused session_id request_id parameters).

Record CapturedInterceptedResponse := MkCaptured { cr_response_headers : list Value; cr_body : string }.

Inductive TerminalResolution :=
| ContinueRequest (headers : option (list Value))
| ContinueResponse
| Fulfill (response_code : Z) (captured : CapturedInterceptedResponse)
| FailRequest (error_reason : string).

Inductive PreparedRequest :=
| Resolve (resolution : TerminalResolution)
| ResolveWithFailure (resolution : TerminalResolution) (failure : InterceptionFailure)
| CaptureBody (network_id : string) (response_code : Z) (frame_id : option string)
| Guard (destination : url) (inject_headers : bool) (frame_id : option string) (document_request : bool).

Record TerminalCommand := MkCommand { tc_method : string; tc_parameters : Value }.

(** What the outside does to a task: whether the token is cancelled or the deadline
    passes before the decision, what the resolver says, whether a stream can begin and what
    it brings, and whether the browser takes the command. *)
Record Outside := MkOutside {
  os_stopped : bool;
  os_late : bool;
  os_lookup : option (list IpAddr);
  os_stream : bool;
  os_body : Res CapturedInterceptedResponse;
  os_command : Res unit;
}.

(** What a task does to the outside. *)
Inductive Effect :=
| BeginsStream (network_id : string)
| RejectsResponse (network_id : string)
| LooksUp (host : string) (port : Z) (answer : option (list IpAddr))
| Sends (c : TerminalCommand).

Definition frame_id (p : PausedRequest) : option string := text_of "frameId" (pr_parameters p).

Definition document_request (p : PausedRequest) : bool :=
  bool_decide (text_of "resourceType" (pr_parameters p) = Some "Document")
  || default false (value_get "isNavigationRequest" (pr_parameters p) ≫= as_bool).

Definition is_response (p : PausedRequest) : bool := is_some (value_get "responseStatusCode" (pr_parameters p)).

Definition response_code (p : PausedRequest) : Z :=
  default 200 ((value_get "responseStatusCode" (pr_parameters p) ≫= as_u64) ≫= try_from u16_max).

Definition continue_without_body (p : PausedRequest) : bool :=
  let code := response_code p in
  negb (captures_rendered_response (text_of "resourceType" (pr_parameters p)))
  || is_long_lived_response (pr_parameters p)
  || ((code =? 204) || (code =? 205) || (code =? 304))
  || ((300 <=? code) && (code <? 400)).

Definition prepare_response (p : PausedRequest) (o : Outside) : PreparedRequest * list Effect :=
  if continue_without_body p then (Resolve ContinueResponse, [])
  else match text_of "networkId" (pr_parameters p) with
       | None => (Resolve ContinueResponse, [])
       | Some network_id =>
           if os_stream o then (CaptureBody network_id (response_code p) (frame_id p), [BeginsStream network_id])
           else (Resolve ContinueResponse, [BeginsStream network_id])
       end.

(** The URL of the request, if it has one that parses. *)
Definition destination (p : PausedRequest) : Res url :=
  text <-? ok_or (request_field "url" (pr_parameters p) ≫= as_str) cdp_shape_error ;;
  ok_or (url_parse text) (new_error "offprint.navigation.url" Navigation).

Definition prepare_request (cx : InterceptionContext) (p : PausedRequest) : PreparedRequest :=
  match destination p with
  | Ok u => Guard u (same_origin u (ic_header_origin cx)) (frame_id p) (document_request p)
  | Err e => ResolveWithFailure (FailRequest "BlockedByClient") (MkFailure e (frame_id p) (document_request p))
  end.

Definition prepare (cx : InterceptionContext) (p : PausedRequest) (o : Outside) : PreparedRequest * list Effect :=
  if is_response p then prepare_response p o else (prepare_request cx p, []).

Definition dns_timeout_error : OffprintError := set_retryable true (new_error "offprint.navigation.dns_timeout" Navigation).

(** The permits of decisions are never closed. *)
Definition bounded_guard_destination (g : NetworkGuard) (u : url) (o : Outside) : Res unit :=
  if os_late o then Err dns_timeout_error else validate_guard_destination g u (os_lookup o).

(** The lookup of [validate_guard_destination], when it comes to that. *)
Definition guard_lookup (g : NetworkGuard) (u : url) (o : Outside) : list Effect :=
  match validate_url g (url_view u), Network.url_host_str (url_view u), url_port_or_known_default u with
  | Ok _, Some host, Some port =>
      match parse_ip host with None => [LooksUp host port (os_lookup o)] | Some _ => [] end
  | _, _, _ => []
  end.

Definition terminal_command (p : PausedRequest) (resolution : TerminalResolution) : TerminalCommand :=
  let id := ("requestId", VString (pr_request_id p)) in
  match resolution with
  | ContinueRequest headers =>
      MkCommand "Fetch.continueRequest" (VObject (id :: match headers with Some h => [("headers", VArray h)] | None => [] end))
  | ContinueResponse => MkCommand "Fetch.continueResponse" (VObject [id])
  | Fulfill code captured =>
      MkCommand "Fetch.fulfillRequest" (VObject [id; ("responseCode", VNumber code);
        ("responseHeaders", VArray (cr_response_headers captured)); ("body", VString (cr_body captured))])
  | FailRequest reason => MkCommand "Fetch.failRequest" (VObject [id; ("errorReason", VString reason)])
  end.

(** How a prepared request is decided: its resolution, failures and effects. *)
Definition decide_prepared (cx : InterceptionContext) (p : PausedRequest) (prepared : PreparedRequest) (o : Outside)
    : TerminalResolution * list InterceptionFailure * list Effect :=
  match prepared with
  | Resolve resolution => (resolution, [], [])
  | ResolveWithFailure resolution failure => (resolution, [failure], [])
  | CaptureBody network_id code frame =>
      if os_stopped o then (FailRequest "Failed", [], [RejectsResponse network_id])
      else match os_body o with
           | Ok captured => (Fulfill code captured, [], [])
           | Err e => (FailRequest "Failed", [MkFailure e frame false], [RejectsResponse network_id])
           end
  | Guard u inject frame document =>
      if os_stopped o then (FailRequest "Failed", [], [])
      else match bounded_guard_destination (ic_guard cx) u o with
           | Ok _ =>
               (ContinueRequest (if inject && negb (bool_decide (ic_headers cx = []))
                                 then Some (continued_headers (pr_parameters p) (ic_headers cx)) else None),
                [], guard_lookup (ic_guard cx) u o)
           | Err e => (FailRequest "BlockedByClient", [MkFailure e frame document], guard_lookup (ic_guard cx) u o)
           end
  end.

(** [PausedRequest::run]. *)
Definition run_paused (cx : InterceptionContext) (p : PausedRequest) (o : Outside) : list InterceptionFailure * list Effect :=
  let '(prepared, effects) := prepare cx p o in
  let '(resolution, failures, effects') := decide_prepared cx p prepared o in
  (failures ++ match os_command o with Err e => [MkFailure e None true] | Ok _ => [] end,
   effects ++ effects' ++ [Sends (terminal_command p resolution)]).

(** ** Recorded errors *)

Abbreviation RecordedError := (option string * bool * OffprintError)%type.

Definition record_interception_error (e : OffprintError) (frame : option string) (document : bool) (errors : list RecordedError)
    : list RecordedError :=
  if existsb (fun r => bool_decide (r.1.1 = frame) && bool_decide (r.1.2 = document)) errors then errors
  else errors ++ [(frame, document, e)].

Definition record_failures (failures : list InterceptionFailure) (errors : list RecordedError) : list RecordedError :=
  fold_left (fun es f => record_interception_error (if_error f) (if_frame_id f) (if_document_request f) es) failures errors.

(** [NetworkInterception::error]. *)
Definition interception_error (errors : list RecordedError) (frame : string) (use_single_document_error : bool) : option OffprintError :=
  match list_find (fun r : RecordedError =>
          r.1.2 && match r.1.1 with None => true | Some owner => bool_decide (owner = frame) end = true) errors with
  | Some (_, r) => Some r.2
  | None => if use_single_document_error then snd <$> list.last errors else None
  end.

(** ** The loop *)

Definition MAXIMUM_INTERCEPTION_TASKS : Z := 256.

Inductive PausedTask := Pending (p : PausedRequest) | Completed (failures : list InterceptionFailure).

(** The loop waits for events, joins what is ready before it admits a request, joins
    everything before it returns, or has returned. *)
Inductive Loop := Looping | Clearing (p : PausedRequest) | Admitting (p : PausedRequest) | Draining | Returned.

(** [ip_sent] are the effects of all tasks and [ip_received] the requests received, the
    last one first. *)
Record Interceptor := MkInterceptor {
  ip_loop : Loop;
  ip_tasks : gmap nat PausedTask;
  ip_errors : list RecordedError;
  ip_cancelled : bool;
  ip_sent : list (PausedRequest * Effect);
  ip_received : list PausedRequest;
}.

Definition interceptor_new : Interceptor := MkInterceptor Looping ∅ [] false [] [].

Inductive InterceptionEvent :=
| ICancel
| IReceive (event : result unit (option string * Value))
| IRun (t : nat) (o : Outside)
| IJoin (t : nat)
| ICleared
| IAdmit (t : nat) (sent : Res unit)
| IStop
| IReturn.

Definition event_lag_error : OffprintError := new_error "offprint.browser.cdp_event_lag" Navigation.
Definition request_limit_error : OffprintError :=
  with_detail "limit" (DNum MAXIMUM_INTERCEPTION_TASKS) (new_error "offprint.navigation.request_limit" Navigation).

Definition with_loop (l : Loop) (s : Interceptor) : Interceptor :=
  MkInterceptor l (ip_tasks s) (ip_errors s) (ip_cancelled s) (ip_sent s) (ip_received s).
Definition with_tasks (m : gmap nat PausedTask) (s : Interceptor) : Interceptor :=
  MkInterceptor (ip_loop s) m (ip_errors s) (ip_cancelled s) (ip_sent s) (ip_received s).
Definition with_errors (l : list RecordedError) (s : Interceptor) : Interceptor :=
  MkInterceptor (ip_loop s) (ip_tasks s) l (ip_cancelled s) (ip_sent s) (ip_received s).
Definition with_cancelled (s : Interceptor) : Interceptor :=
  MkInterceptor (ip_loop s) (ip_tasks s) (ip_errors s) true (ip_sent s) (ip_received s).
Definition with_sent (l : list (PausedRequest * Effect)) (s : Interceptor) : Interceptor :=
  MkInterceptor (ip_loop s) (ip_tasks s) (ip_errors s) (ip_cancelled s) (l ++ ip_sent s) (ip_received s).

(** An error of the stream, or a pause without an identifier, stops the loop. *)
Definition stop_with (e : OffprintError) (s : Interceptor) : Interceptor :=
  with_loop Draining (with_cancelled (with_errors (record_interception_error e None true (ip_errors s)) s)).

Definition receive_event (event : result unit (option string * Value)) (s : Interceptor) : Interceptor :=
  match event with
  | Err _ => stop_with event_lag_error s
  | Ok (None, _) => s
  | Ok (Some session, parameters) =>
      match from_event session parameters with
      | Err e => stop_with e s
      | Ok p => MkInterceptor (Clearing p) (ip_tasks s) (ip_errors s) (ip_cancelled s) (ip_sent s) (p :: ip_received s)
      end
  end.

(** [fail_overloaded] does not wait for an answer. *)
Definition overloaded (p : PausedRequest) (sent : Res unit) (s : Interceptor) : Interceptor :=
  let errors := record_interception_error request_limit_error None false (ip_errors s) in
  let errors := match sent with Ok _ => errors | Err e => record_interception_error e None true errors end in
  with_loop Looping (with_sent [(p, Sends (terminal_command p (FailRequest "Failed")))] (with_errors errors s)).

Definition joinable (l : Loop) : bool := match l with Looping | Clearing _ | Draining => true | _ => false end.

Definition is_completed (x : PausedTask) : bool := match x with Completed _ => true | Pending _ => false end.

Definition none_ready (m : gmap nat PausedTask) : bool :=
  bool_decide (filter (fun tx => is_completed tx.2 = true) m = ∅).

Definition interception_step (cx : InterceptionContext) (e : InterceptionEvent) (s : Interceptor) : option Interceptor :=
  match e with
  | ICancel => Some (with_cancelled s)
  | IReceive event => match ip_loop s with Looping => Some (receive_event event s) | _ => None end
  | IRun t o =>
      match ip_tasks s !! t with
      | Some (Pending p) =>
          if os_stopped o && negb (ip_cancelled s) then None
          else
            let '(failures, effects) := run_paused cx p o in
            Some (with_tasks (<[t := Completed failures]> (ip_tasks s)) (with_sent (rev (map (pair p) effects)) s))
      | _ => None
      end
  | IJoin t =>
      match ip_tasks s !! t with
      | Some (Completed failures) =>
          if joinable (ip_loop s)
          then Some (with_tasks (delete t (ip_tasks s)) (with_errors (record_failures failures (ip_errors s)) s))
          else None
      | _ => None
      end
  | ICleared =>
      match ip_loop s with
      | Clearing p => if none_ready (ip_tasks s) then Some (with_loop (Admitting p) s) else None
      | _ => None
      end
  | IAdmit t sent =>
      match ip_loop s with
      | Admitting p =>
          if MAXIMUM_INTERCEPTION_TASKS <=? Z.of_nat (size (ip_tasks s)) then Some (overloaded p sent s)
          else if bool_decide (ip_tasks s !! t = None)
          then Some (with_loop Looping (with_tasks (<[t := Pending p]> (ip_tasks s)) s)) else None
      | _ => None
      end
  | IStop => match ip_loop s with Looping => if ip_cancelled s then Some (with_loop Draining s) else None | _ => None end
  | IReturn => match ip_loop s with Draining => if bool_decide (ip_tasks s = ∅) then Some (with_loop Returned s) else None | _ => None end
  end.

Fixpoint interception_run (cx : InterceptionContext) (es : list InterceptionEvent) (s : Interceptor) : option Interceptor :=
  match es with [] => Some s | e :: es => s' ← interception_step cx e s; interception_run cx es s' end.

Definition intercepted (cx : InterceptionContext) (s : Interceptor) : Prop :=
  exists es, interception_run cx es interceptor_new = Some s.

(** ** Network activity *)

Record ActivityState := MkActivity {
  ac_active : gset string;
  ac_last_change : Z;
  ac_error : option OffprintError;
}.

Definition activity_new (now : Z) : ActivityState := MkActivity ∅ now None.

(** An event of the page, or the end of the stream of events. *)
Inductive ActivityEvent := Lagged | Observed (method : string) (parameters : Value).

(** The request an event starts or ends. *)
Definition starts (e : ActivityEvent) : option string :=
  match e with
  | Observed "Network.requestWillBeSent" parameters =>
      if tracks_readiness_request parameters then text_of "requestId" parameters else None
  | _ => None
  end.

Definition finishes (e : ActivityEvent) : option string :=
  match e with
  | Observed "Network.loadingFinished" parameters | Observed "Network.loadingFailed" parameters => text_of "requestId" parameters
  | _ => None
  end.

(** The task ends with the first error. *)
Definition observe_activity (st : ActivityState) (timed : Z * ActivityEvent) : ActivityState :=
  let '(now, e) := timed in
  match ac_error st with
  | Some _ => st
  | None =>
      match e with
      | Lagged => MkActivity (ac_active st) (ac_last_change st) (Some (new_error "offprint.browser.cdp_event_lag" Readiness))
      | Observed _ _ =>
          match starts e, finishes e with
          | Some id, _ => MkActivity ({[id]} ∪ ac_active st) now None
          | None, Some id =>
              if bool_decide (id ∈ ac_active st) then MkActivity (ac_active st ∖ {[id]}) now None else st
          | None, None => st
          end
      end
  end.

Definition request_count (active : nat) : Res Z :=
  ok_or (try_from u32_max (Z.of_nat active)) (new_error "offprint.readiness.request_count" Readiness).

(** What the waits find when they look at [now]; [None] is to wait on. *)
Definition wait_for_quiet (st : ActivityState) (quiet now : Z) : option (Res Z) :=
  match ac_error st with
  | Some e => Some (Err e)
  | None => if quiet <=? now - ac_last_change st then Some (request_count (size (ac_active st))) else None
  end.

Definition wait_for_idle (st : ActivityState) (quiet now : Z) : option (Res unit) :=
  match ac_error st with
  | Some e => Some (Err e)
  | None =>
      if Nat.ltb 0 (size (ac_active st)) then None
      else if quiet <=? now - ac_last_change st then Some (Ok tt) else None
  end.

Definition in_flight (st : ActivityState) : Res Z :=
  match ac_error st with Some e => Err e | None => request_count (size (ac_active st)) end.

(** ** Correctness *)

(** The commands sent, with the requests they answer. *)
Definition sends (e : Effect) : option TerminalCommand := match e with Sends c => Some c | _ => None end.
Definition answers (s : Interceptor) : list (PausedRequest * TerminalCommand) :=
  omap (fun pe => pair pe.1 <$> sends pe.2) (ip_sent s).

(** The requests that were received and are not answered yet. *)
Definition waiting (x : PausedTask) : option PausedRequest := match x with Pending p => Some p | _ => None end.
Definition tasks_waiting (m : gmap nat PausedTask) : list PausedRequest := omap (fun tx => waiting tx.2) (map_to_list m).
Definition unanswered (s : Interceptor) : list PausedRequest :=
  match ip_loop s with Clearing p | Admitting p => [p] | _ => [] end ++ tasks_waiting (ip_tasks s).

(** What the guard has to say of a destination and its addresses. *)
Definition guard_admits (g : NetworkGuard) (u : url) (addresses : list IpAddr) : Prop :=
  (Network.url_scheme (url_view u) = "http" \/ Network.url_scheme (url_view u) = "https") /\
  addresses <> [] /\ Forall (fun a => address_allowed g (url_view u) a = true) addresses.

Lemma validate_resolved_admits g u addresses : validate_resolved g (url_view u) addresses = Ok tt -> guard_admits g u addresses.
Proof.
  unfold validate_resolved. rewrite rbind_unit_ok. intros [Hu Ha]. split; [|split].
  - unfold validate_url in Hu. destruct (bool_decide_reflect (Network.url_scheme (url_view u) = "http")); [by left|].
    destruct (bool_decide_reflect (Network.url_scheme (url_view u) = "https")); [by right|]. done.
  - by destruct addresses.
  - destruct addresses as [|a l]; [done|]. rewrite for_each_ok in Ha. apply Forall_forall. intros x Hx.
    apply validate_address_ok. revert Ha. rewrite Forall_forall. intros Ha. by apply Ha.
Qed.

(** A destination that passes spells its address or had the addresses looked up. *)
Lemma guarded_destination g u o : bounded_guard_destination g u o = Ok tt ->
  exists host addresses, Network.url_host_str (url_view u) = Some host /\ guard_admits g u addresses /\
    ((exists a, parse_ip host = Some a /\ addresses = [a]) \/
     (exists port, guard_lookup g u o = [LooksUp host port (Some addresses)])).
Proof.
  unfold bounded_guard_destination, validate_guard_destination, guard_lookup. destruct (os_late o); [done|].
  rewrite rbind_unit_ok. intros [-> Hr]. destruct (Network.url_host_str (url_view u)) as [host|]; [|done]. cbn in Hr.
  destruct (parse_ip host) as [a|] eqn:Ea.
  - exists host, [a]. split; [done|]. split; [by apply validate_resolved_admits|]. left. by exists a.
  - destruct (url_port_or_known_default u) as [port|]; [|done]. cbn in Hr. destruct (os_lookup o) as [l|]; [|done]. cbn in Hr.
    exists host, l. split; [done|]. split; [by apply validate_resolved_admits|]. right. by exists port.
Qed.

(** What an answer to a request has to satisfy, given all effects so far. *)
Definition answer_ok (cx : InterceptionContext) (sent : list (PausedRequest * Effect)) (p : PausedRequest) (c : TerminalCommand) : Prop :=
  value_get "requestId" (tc_parameters c) = Some (VString (pr_request_id p)) /\
  (tc_method c = "Fetch.failRequest" \/
   (is_response p = true /\ (tc_method c = "Fetch.continueResponse" \/ tc_method c = "Fetch.fulfillRequest")) \/
   (is_response p = false /\ tc_method c = "Fetch.continueRequest" /\
    exists u host addresses, destination p = Ok u /\ Network.url_host_str (url_view u) = Some host /\
      guard_admits (ic_guard cx) u addresses /\
      ((exists a, parse_ip host = Some a /\ addresses = [a]) \/ (exists port, (p, LooksUp host port (Some addresses)) ∈ sent)) /\
      value_get "headers" (tc_parameters c) =
        if same_origin u (ic_header_origin cx) && negb (bool_decide (ic_headers cx = []))
        then Some (VArray (continued_headers (pr_parameters p) (ic_headers cx))) else None)).

Lemma answer_ok_more cx sent more p c : answer_ok cx sent p c -> answer_ok cx (more ++ sent) p c.
Proof.
  intros [Hid [Hx|[Hx|(Hr & Hm & u & host & l & Hu & Hh & Hg & Hl & Hv)]]]; split; auto. right. right. split_and!; try done.
  exists u, host, l. split_and!; try done. destruct Hl as [?|[port Hp]]; [by left|]. right. exists port. apply elem_of_app. by right.
Qed.

(** A task sends one command, which is sound. *)
Lemma run_paused_sound cx p o failures effects : run_paused cx p o = (failures, effects) ->
  exists c, omap sends effects = [c] /\ answer_ok cx (rev (map (pair p) effects)) p c.
Proof.
  unfold run_paused, prepare, prepare_response, prepare_request. intros E.
  assert (forall more resolution, omap sends more = [] -> answer_ok cx (rev (map (pair p) (more ++ [Sends (terminal_command p resolution)]))) p (terminal_command p resolution) ->
    exists c, omap sends (more ++ [Sends (terminal_command p resolution)]) = [c] /\
      answer_ok cx (rev (map (pair p) (more ++ [Sends (terminal_command p resolution)]))) p c) as Hone.
  { intros more resolution Hm Hc. exists (terminal_command p resolution). split; [|done]. by rewrite omap_app, Hm. }
  destruct (is_response p) eqn:Er.
  - assert (forall more resolution, omap sends more = [] -> match resolution with ContinueRequest _ => False | _ => True end ->
      exists c, omap sends (more ++ [Sends (terminal_command p resolution)]) = [c] /\
        answer_ok cx (rev (map (pair p) (more ++ [Sends (terminal_command p resolution)]))) p c) as Hresp.
    { intros more resolution Hm Hc. apply Hone; [done|]. destruct resolution; try done; (split; [reflexivity|]); cbn; auto. }
    destruct (continue_without_body p); [injection E as _ <-; by apply (Hresp [] ContinueResponse)|].
    destruct (text_of "networkId" (pr_parameters p)) as [n|]; [|injection E as _ <-; by apply (Hresp [] ContinueResponse)].
    destruct (os_stream o); [|injection E as _ <-; by apply (Hresp [BeginsStream n] ContinueResponse)].
    cbn [decide_prepared] in E.
    destruct (os_stopped o); [injection E as _ <-; by apply (Hresp [BeginsStream n; RejectsResponse n] (FailRequest "Failed"))|].
    destruct (os_body o) as [b|e]; injection E as _ <-; [by apply (Hresp [BeginsStream n] (Fulfill (response_code p) b))|].
    by apply (Hresp [BeginsStream n; RejectsResponse n] (FailRequest "Failed")).
  - assert (forall g u, omap sends (guard_lookup g u o) = []) as Hlook.
    { intros g u. unfold guard_lookup. repeat case_match; done. }
    assert (forall more reason, omap sends more = [] -> exists c, omap sends (more ++ [Sends (terminal_command p (FailRequest reason))]) = [c] /\
        answer_ok cx (rev (map (pair p) (more ++ [Sends (terminal_command p (FailRequest reason))]))) p c) as Hfail.
    { intros more reason Hm. apply Hone; [done|]. split; [done|]. by left. }
    destruct (destination p) as [u|e] eqn:Ed; cbn [decide_prepared] in E; [|injection E as _ <-; by apply (Hfail [] "BlockedByClient")].
    destruct (os_stopped o); [injection E as _ <-; by apply (Hfail [] "Failed")|].
    destruct (bounded_guard_destination (ic_guard cx) u o) as [[]|e] eqn:Eg; injection E as _ <-; [|by apply (Hfail _ "BlockedByClient")].
    destruct (guarded_destination _ _ _ Eg) as (host & l & Hh & Hg & Hl).
    apply (Hone (guard_lookup (ic_guard cx) u o) (ContinueRequest (if same_origin u (ic_header_origin cx) && negb (bool_decide (ic_headers cx = []))
      then Some (continued_headers (pr_parameters p) (ic_headers cx)) else None))); [done|]. split; [done|]. right. right.
    split_and!; [done|done|]. exists u, host, l. split_and!; try done.
    + destruct Hl as [?|[port Hp]]; [by left|]. right. exists port. rewrite map_app, rev_app_distr, Hp.
      apply elem_of_app. right. cbn. by apply list_elem_of_singleton.
    + cbn. by destruct (same_origin u (ic_header_origin cx) && _).
Qed.

(** ** Invariants of the loop *)

Lemma tasks_waiting_insert m t x : m !! t = None ->
  tasks_waiting (<[t := x]> m) ≡ₚ match waiting x with Some p => [p] | None => [] end ++ tasks_waiting m.
Proof.
  intros E. unfold tasks_waiting. rewrite map_to_list_insert by done. cbn. by destruct (waiting x).
Qed.

Lemma tasks_waiting_delete m t x : m !! t = Some x ->
  tasks_waiting m ≡ₚ match waiting x with Some p => [p] | None => [] end ++ tasks_waiting (delete t m).
Proof.
  intros E. rewrite <- (insert_delete_id m t x E) at 1. apply tasks_waiting_insert, lookup_delete_eq.
Qed.

Lemma tasks_waiting_done m t p failures : m !! t = Some (Pending p) ->
  tasks_waiting m ≡ₚ p :: tasks_waiting (<[t := Completed failures]> m).
Proof.
  intros E. rewrite (tasks_waiting_delete m t _ E). cbn. apply perm_skip.
  rewrite <- insert_delete_eq. symmetry. apply (tasks_waiting_insert (delete t m) t (Completed failures)), lookup_delete_eq.
Qed.

(** The frames and kinds of the recorded errors. *)
Definition error_keys (errors : list RecordedError) : list (option string * bool) := map fst errors.

Lemma record_error_once e frame document errors : NoDup (error_keys errors) ->
  NoDup (error_keys (record_interception_error e frame document errors)).
Proof.
  intros Hn. unfold record_interception_error. destruct (existsb _ errors) eqn:E; [done|]. unfold error_keys. rewrite map_app. cbn.
  apply NoDup_app. split; [done|]. split; [|apply NoDup_singleton]. intros k Hk ->%list_elem_of_singleton.
  apply list_elem_of_fmap in Hk as (r & Hr & Hin). apply not_true_iff_false in E. apply E, existsb_exists. exists r.
  split; [by apply list_elem_of_In|]. rewrite <- Hr. cbn. by rewrite !bool_decide_eq_true_2.
Qed.

Lemma record_failures_once failures errors : NoDup (error_keys errors) -> NoDup (error_keys (record_failures failures errors)).
Proof.
  revert errors. unfold record_failures. induction failures as [|f l IH]; intros errors Hn; [done|]. cbn. by apply IH, record_error_once.
Qed.

Record interception_ok (cx : InterceptionContext) (s : Interceptor) : Prop := {
  io_accounted : ip_received s ≡ₚ map fst (answers s) ++ unanswered s;
  io_sound : forall p c, (p, c) ∈ answers s -> answer_ok cx (ip_sent s) p c;
  io_bounded : Z.of_nat (size (ip_tasks s)) <= MAXIMUM_INTERCEPTION_TASKS;
  io_returned : ip_loop s = Returned -> ip_tasks s = ∅;
  io_errors : NoDup (error_keys (ip_errors s));
}.

Lemma answers_app p effects s : answers (with_sent (rev (map (pair p) effects)) s) = rev (map (pair p) (omap sends effects)) ++ answers s.
Proof.
  unfold answers. change (ip_sent (with_sent ?l s)) with (l ++ ip_sent s). rewrite omap_app. f_equal.
  induction effects as [|e l IH]; [done|]. cbn [map rev]. rewrite omap_app, IH.
  change (omap sends (e :: l)) with (match sends e with Some c => c :: omap sends l | None => omap sends l end).
  change (omap _ [(p, e)]) with (match pair p <$> sends e with Some y => [y] | None => [] end).
  destruct (sends e); cbn [map rev fmap option_fmap option_map]; [done|by rewrite app_nil_r].
Qed.

(** A step of the loop alone: nothing is sent or received, and who waits is the same. *)
Lemma loop_step cx s s' : interception_ok cx s -> ip_sent s' = ip_sent s -> ip_received s' = ip_received s ->
  unanswered s' ≡ₚ unanswered s -> (size (ip_tasks s') <= size (ip_tasks s))%nat -> (ip_loop s' = Returned -> ip_tasks s' = ∅) ->
  NoDup (error_keys (ip_errors s')) -> interception_ok cx s'.
Proof.
  intros [Ha Hs Hb Hr He] Es Er Eu Hz Hn Hk. constructor; unfold answers in *; rewrite ?Es, ?Er, ?Eu; try done. lia.
Qed.

Lemma stop_with_ok cx e s : interception_ok cx s -> ip_loop s = Looping -> interception_ok cx (stop_with e s).
Proof.
  intros Hok El. apply (loop_step cx s); try done; unfold unanswered; cbn; rewrite ?El; [done|]. apply record_error_once, Hok.
Qed.

Lemma receive_event_ok cx event s : interception_ok cx s -> ip_loop s = Looping -> interception_ok cx (receive_event event s).
Proof.
  intros Hok El. unfold receive_event. destruct event as [[[session|] parameters]|]; [|done|by apply stop_with_ok].
  destruct (from_event session parameters) as [p|e]; [|by apply stop_with_ok]. destruct Hok as [Ha Hs Hb Hr He].
  constructor; try done. unfold unanswered in *. cbn. rewrite El in Ha. cbn in Ha. rewrite Ha. by rewrite <- Permutation_middle.
Qed.

Lemma run_ok cx t p o failures effects s : interception_ok cx s -> ip_tasks s !! t = Some (Pending p) -> run_paused cx p o = (failures, effects) ->
  interception_ok cx (with_tasks (<[t := Completed failures]> (ip_tasks s)) (with_sent (rev (map (pair p) effects)) s)).
Proof.
  intros [Ha Hs Hb Hr He] E Hrun. destruct (run_paused_sound _ _ _ _ _ Hrun) as (c & Hc & Hok).
  pose proof (answers_app p effects s) as Hap. rewrite Hc in Hap. change (rev (map (pair p) [c]) ++ answers s) with ((p, c) :: answers s) in Hap.
  constructor.
  - change (answers (with_tasks _ ?x)) with (answers x). rewrite Hap. unfold unanswered in *. cbn [ip_loop ip_tasks with_tasks with_sent ip_received].
    rewrite (tasks_waiting_done _ _ _ failures E) in Ha. rewrite Ha. cbn [map fst app]. by rewrite <- !Permutation_middle.
  - intros p' c' Hin. change (answers (with_tasks _ ?x)) with (answers x) in Hin. rewrite Hap in Hin.
    apply elem_of_cons in Hin as [[= -> ->]|Hin].
    + cbn [ip_sent with_tasks with_sent]. destruct Hok as [Hid Hcase]. split; [done|]. destruct Hcase as [?|[?|(? & ? & u & host & l & ? & ? & ? & Hl & ?)]]; auto.
      right. right. split_and!; try done. exists u, host, l. split_and!; try done. destruct Hl as [?|[port Hp]]; [by left|].
      right. exists port. apply elem_of_app. by left.
    + cbn [ip_sent with_tasks with_sent]. by apply answer_ok_more, Hs.
  - cbn. rewrite map_size_insert_Some by eauto. done.
  - cbn. intros Hl. rewrite Hr in E by done. by rewrite lookup_empty in E.
  - done.
Qed.

Lemma overloaded_ok cx p sent s : interception_ok cx s -> ip_loop s = Admitting p -> interception_ok cx (overloaded p sent s).
Proof.
  intros [Ha Hs Hb Hr He] El. unfold overloaded. constructor; try done.
  - unfold answers, unanswered in *. cbn. rewrite El in Ha. cbn in Ha. rewrite Ha. by rewrite <- Permutation_middle.
  - intros p' c' Hin. cbn in Hin. apply elem_of_cons in Hin as [[= -> ->]|Hin].
    + split; [done|]. by left.
    + apply (answer_ok_more cx (ip_sent s) [_]). by apply Hs.
  - cbn. destruct sent; repeat apply record_error_once; done.
Qed.

Lemma interception_step_ok cx e s s' : interception_ok cx s -> interception_step cx e s = Some s' -> interception_ok cx s'.
Proof.
  intros Hok H'. pose proof Hok as [Ha Hs Hb Hr He]. destruct e as [|event|t o|t| |t sent| |]; cbn [interception_step] in H'.
  - injection H' as <-. by apply (loop_step cx s).
  - destruct (ip_loop s) eqn:El; try done. injection H' as <-. by apply receive_event_ok.
  - destruct (ip_tasks s !! t) as [[p|]|] eqn:E; try done. destruct (_ && _); [done|].
    destruct (run_paused cx p o) as [failures effects] eqn:Er. injection H' as <-. by eapply run_ok.
  - destruct (ip_tasks s !! t) as [[p|failures]|] eqn:E; try done. destruct (joinable (ip_loop s)); [|done]. injection H' as <-.
    apply (loop_step cx s); try done.
    + unfold unanswered. cbn. apply Permutation_app_head. by rewrite (tasks_waiting_delete _ _ _ E).
    + cbn. rewrite map_size_delete_Some by eauto. lia.
    + cbn. intros Hl. by rewrite Hr, delete_empty.
    + by apply record_failures_once.
  - destruct (ip_loop s) eqn:El; try done. destruct (none_ready (ip_tasks s)); [|done]. injection H' as <-.
    apply (loop_step cx s); try done. unfold unanswered. cbn. by rewrite El.
  - destruct (ip_loop s) eqn:El; try done. destruct (Z.leb_spec MAXIMUM_INTERCEPTION_TASKS (Z.of_nat (size (ip_tasks s)))).
    + injection H' as <-. by apply overloaded_ok.
    + destruct (bool_decide_reflect (ip_tasks s !! t = None)) as [En|]; [|done]. injection H' as <-. constructor; try done.
      * unfold unanswered in *. change (answers (with_loop _ (with_tasks _ ?x))) with (answers x). cbn. rewrite El in Ha. cbn in Ha. rewrite Ha.
        apply Permutation_app_head. by rewrite (tasks_waiting_insert _ _ _ En).
      * cbn. rewrite map_size_insert_None by done. lia.
  - destruct (ip_loop s) eqn:El; try done. destruct (ip_cancelled s); [|done]. injection H' as <-.
    apply (loop_step cx s); try done. unfold unanswered. cbn. by rewrite El.
  - destruct (ip_loop s) eqn:El; try done. destruct (bool_decide_reflect (ip_tasks s = ∅)); [|done]. injection H' as <-.
    apply (loop_step cx s); try done. unfold unanswered. cbn. by rewrite El.
Qed.

Lemma intercepted_ok cx s : intercepted cx s -> interception_ok cx s.
Proof.
  intros [es Hr]. assert (interception_ok cx interceptor_new) as H0'.
  { constructor; cbn; try done; [intros p c Hin; by apply elem_of_nil in Hin|constructor]. }
  revert H0' Hr. generalize interceptor_new. induction es as [|e es IH]; intros s0 H0' Hr; [by injection Hr as <-|].
  cbn in Hr. apply bind_Some in Hr as (s1 & H1' & Hr). eapply IH; [by eapply interception_step_ok|done].
Qed.



(** ** Waiting for the network *)

Definition activity_after (st : ActivityState) (history : list (Z * ActivityEvent)) : ActivityState :=
  fold_left observe_activity history st.

(** A request in the set stays there until it finishes, and the last change is not
    before an event that was seen. *)
Lemma activity_keeps st history t id : ac_last_change st >= t -> Forall (fun te => t <= te.1) history -> id ∈ ac_active st ->
  ac_error (activity_after st history) = None ->
  ac_last_change (activity_after st history) >= t /\
  (id ∈ ac_active (activity_after st history) \/ exists te, te ∈ history /\ finishes te.2 = Some id).
Proof.
  revert st. induction history as [|[now e] history IH]; intros st Hc Hf Hin He; [by split; [|left]|].
  apply Forall_cons_1 in Hf as [Hnow Hf]. cbn in Hnow. change (activity_after st ((now, e) :: history)) with (activity_after (observe_activity st (now, e)) history) in *.
  assert (ac_last_change (observe_activity st (now, e)) >= t /\ (id ∈ ac_active (observe_activity st (now, e)) \/ finishes e = Some id)) as [Hc' Hin'].
  { unfold observe_activity. destruct (ac_error st); [auto|]. destruct e as [|m v]; [auto|].
    destruct (starts (Observed m v)) as [i|]; [split; [cbn; lia|left; cbn; set_solver]|].
    destruct (finishes (Observed m v)) as [i|] eqn:Ei; [|auto]. case_bool_decide; [|auto].
    split; [cbn; lia|]. destruct (decide (i = id)) as [->|]; [by right|left; cbn; set_solver]. }
  destruct Hin' as [Hin'|Hfin].
  - destruct (IH _ Hc' Hf Hin' He) as [Hl [?|(te & Hte & Hd)]]; (split; [done|]); [by left|]. right. exists te. split; [by apply list_elem_of_further|done].
  - split; [|right; exists (now, e); split; [apply list_elem_of_here|done]].
    clear IH Hin Hfin. revert Hc' He. generalize (observe_activity st (now, e)). induction history as [|[now' e'] history IH]; intros st' Hc' He; [done|].
    apply Forall_cons_1 in Hf as [Hnow' Hf]. cbn in Hnow'. apply (IH Hf); [|done].
    unfold observe_activity. destruct (ac_error st'); [done|]. destruct e' as [|m v]; [done|].
    destruct (starts (Observed m v)); [cbn; lia|]. destruct (finishes (Observed m v)); [|done]. case_bool_decide; cbn; [lia|done].
Qed.

(** When a wait for an idle network succeeds, every request that counts was started
    at least the quiet time ago and has finished since. *)
Lemma idle_is_quiet start h1 t e h2 id quiet now : starts e = Some id -> Forall (fun te => t <= te.1) h2 ->
  ac_error (activity_after (activity_new start) h1) = None ->
  wait_for_idle (activity_after (activity_new start) (h1 ++ (t, e) :: h2)) quiet now = Some (Ok tt) ->
  t + quiet <= now /\ exists te, te ∈ h2 /\ finishes te.2 = Some id.
Proof.
  intros Hs Hf He1 Hw. unfold activity_after in *. rewrite fold_left_app in Hw. cbn [fold_left] in Hw.
  revert Hw. generalize dependent (fold_left observe_activity h1 (activity_new start)). intros st He1 Hw. fold (activity_after (observe_activity st (t, e)) h2) in Hw.
  assert (observe_activity st (t, e) = MkActivity ({[id]} ∪ ac_active st) t None) as Ho.
  { unfold observe_activity. rewrite He1. destruct e as [|m v]; [done|]. by rewrite Hs. }
  rewrite Ho in Hw. unfold wait_for_idle in Hw. destruct (ac_error (activity_after _ h2)) eqn:Ee; [done|].
  destruct (activity_keeps _ h2 t id (ltac:(cbn; lia) : ac_last_change (MkActivity ({[id]} ∪ ac_active st) t None) >= t) Hf ltac:(cbn; set_solver) Ee) as [Hc Hor].
  destruct (Nat.ltb_spec 0 (size (ac_active (activity_after (MkActivity ({[id]} ∪ ac_active st) t None) h2)))) as [|Hz]; [done|].
  destruct (Z.leb_spec quiet (now - ac_last_change (activity_after (MkActivity ({[id]} ∪ ac_active st) t None) h2))); [|done].
  split; [lia|]. destruct Hor as [Hin|?]; [|done]. exfalso.
  assert (ac_active (activity_after (MkActivity ({[id]} ∪ ac_active st) t None) h2) ≡ ∅) as Hempty by (apply size_empty_iff; lia). set_solver.
Qed.

End Interception.

(** ** Headers and cookies *)

(** Scoped headers replace those of the request of the same name; the others stay. *)
Lemma continued_headers_exact parameters scoped v :
  v ∈ continued_headers parameters scoped <->
  (exists h, h ∈ scoped /\ v = header_value (hd_name h) (hd_value h)) \/
  (exists name value, (name, VString value) ∈ default [] (request_field "headers" parameters ≫= as_object) /\
     (forall h, h ∈ scoped -> eq_ignore_ascii_case (hd_name h) name = false) /\ v = header_value name value).
Proof.
  unfold continued_headers. rewrite elem_of_app, list_elem_of_omap, list_elem_of_fmap. split.
  - intros [([name w] & Hin & Hv)|(h & -> & Hin)]; [|by left; exists h]. right. cbn in Hv.
    destruct (existsb _ scoped) eqn:Ex; [done|]. destruct w; try done. injection Hv as <-. exists name, s. split_and!; [done| |done].
    intros h Hh. apply not_true_iff_false. intros Ht. apply not_true_iff_false in Ex. apply Ex, existsb_exists. exists h.
    split; [by apply list_elem_of_In|done].
  - intros [(h & Hin & ->)|(name & value & Hin & Hno & ->)]; [right; by exists h|]. left. exists (name, VString value). split; [done|]. cbn.
    replace (existsb _ scoped) with false; [done|]. symmetry. apply not_true_iff_false. intros (h & Hh & Ht)%existsb_exists.
    apply list_elem_of_In in Hh. by rewrite Hno in Ht.
Qed.

(** The domain of a cookie is compared without regard to case with the host itself,
    but not with the end of the name of a host below it. *)
Lemma cookie_case_refused :
  cookie_domain_matches "Example.com" (Some "example.com") = true /\ cookie_domain_matches "example.com" (Some "www.example.com") = true /\
  cookie_domain_matches "Example.com" (Some "www.example.com") = false.
Proof. split_and!; vm_compute; reflexivity. Qed.

(** ** A run *)

Module InterceptionSamples.

#[local] Instance sample_urls : UrlLib := plain_urls.
#[local] Instance sample_networks : Networks := no_networks.
#[local] Instance sample_view : UrlView := {|
  url_view u := MkUrl (url_scheme u) (HostDomain <$> url_host_str u) (url_host_str u);
  url_port_or_known_default _ := Some 443;
  url_path u := u;
  url_to_file_path _ := None;
  url_from_file_path _ := None;
  parse_ip _ := None |}.

(** Only public addresses, and a header for the origin of the page. *)
Definition context : InterceptionContext :=
  MkIntercepting (MkGuard Server (Some "example.com") false []) [MkHeader "Authorization" "secret"] "https://example.com/".

Definition request (id address : string) : Value :=
  VObject [("requestId", VString id); ("resourceType", VString "Document"); ("frameId", VString "f");
    ("request", VObject [("url", VString address); ("headers", VObject [("Accept", VString "text/html"); ("authorization", VString "page")])])].

Definition image (id : string) : Value :=
  VObject [("requestId", VString id); ("networkId", VString "n"); ("resourceType", VString "Image"); ("responseStatusCode", VNumber 200);
    ("request", VObject [("url", VString "https://example.com/a.png")])].

Definition page_request : PausedRequest := MkPaused "s" "1" (request "1" "https://example.com/").
Definition inner_request : PausedRequest := MkPaused "s" "2" (request "2" "https://inner.test/").
Definition image_response : PausedRequest := MkPaused "s" "3" (image "3").

Definition resolved (a : Ipv4Addr) : Outside := MkOutside false false (Some [IpV4 a]) true (Ok (MkCaptured [] "AAAA")) (Ok tt).

(** A page on a public address is let go on, one on a private address is not, and an
    image is fulfilled; then the interception is closed. *)
Definition sample_events : list InterceptionEvent :=
  [ IReceive (Ok (Some "s", pr_parameters page_request)); ICleared; IAdmit 0 (Ok tt);
    IReceive (Ok (Some "s", pr_parameters inner_request)); ICleared; IAdmit 1 (Ok tt);
    IRun 1 (resolved (V4 10 0 0 1)); IRun 0 (resolved (V4 93 184 216 34));
    IReceive (Ok (Some "s", pr_parameters image_response)); IJoin 0; IJoin 1; ICleared; IAdmit 0 (Ok tt);
    ICancel; IStop; IRun 0 (resolved (V4 93 184 216 34)); IJoin 0; IReturn ].

Definition finished : Interceptor :=
  Eval vm_compute in match interception_run context sample_events interceptor_new with Some s => s | None => interceptor_new end.

Definition page_answer : TerminalCommand :=
  MkCommand "Fetch.continueRequest" (VObject [("requestId", VString "1");
    ("headers", VArray [header_value "Accept" "text/html"; header_value "Authorization" "secret"])]).



End InterceptionSamples.
